(* ===== verification/_CoqProject ===== *)
-Q . S2P
Prelude.v
Sha256.v
Encoding.v
Codec.v
CodecProofs.v
Storage.v
MerkleTree.v
MerkleState.v
Receipt.v
Hasher.v
Sha512.v
DataEntry.v
Chain.v
ChainProofs.v
Bpt.v
BptKeys.v
BptMap.v
BptDirty.v
BptUpdate.v
BptProps.v
BptRange.v
SortUtil.v
Url.v
UrlProofs.v
UrlParse.v
Accounts.v
AccountsProofs.v
AdiUrl.v
KeyPages.v
KeyPagesProofs.v
StateManager.v
Executors.v
ExecutorProofs.v
Creation.v
WellFormed.v
ExecuteInv.v
Signatures.v
Fees.v
Signing.v
SigningProofs.v
Authorization.v
Ledger.v
Exchange.v
ExchangeProofs.v
Routing.v
Enums.v
Wire.v
TypesGeneral.v
Globals.v
Process.v
ProcessProofs.v
TypesAccounts.v
TypesSignatures.v
TypesTransactions.v
TypesStatus.v
TypesDatabase.v
TypesQuery.v
TransactionHash.v
TypesProps.v
Records.v
RecordsProofs.v
DataModel.v
DataModelProofs.v
DbChain.v
Counted.v
Indexing.v
Normalize.v
Anchoring.v
AnchoringProofs.v
AnchoringBlocks.v
BlockRuns.v
Builder.v
Anchors.v
BlockBegin.v
AnchorsProofs.v
BlockBeginProofs.v
SyntheticSend.v
PartitionRuns.v
AnchorDelivery.v
