(* ===== verification/Prelude.v ===== *)
(** * Accumulate: a verification library

    Accumulate is a blockchain whose state is a set of accounts named by URLs. Each
    account has Merkle chains; the hashes of all accounts form a binary Patricia tree;
    proofs are Merkle receipts; transactions are executed by one executor per type
    against a state manager, and produce synthetic transactions for other accounts.
    This library models the core of the Go implementation as executable definitions
    and proves the properties that make it correct.

    ** Conventions

    Go bytes are [Byte.byte], integers of a given width are [Z] with their wrap-around
    written out ([u64], [i64]), and a fallible Go function returns [res A]: [Ok], [Err]
    with a status and a message, or [Panic] for a run-time panic (a slice out of range,
    a blocked mutex, or a loop that ran out of fuel). A method that changes its receiver
    returns the new receiver. Maps are [gmap], slices lists, a possibly nil hash an
    [option]. Definitions keep the Go names; a type prefix is added where Go overloads
    a method name.

    ** Files, in order, and the code they model (paths under src/)

    - Prelude: bytes, machine integers, the [res] monad, hint databases, list lemmas.
    - Sha256: SHA-256 (FIPS 180-4), the language library's function the code calls.
    - Encoding: smt/common/helper.go and internal/encoding/utils.go.
    - Codec, CodecProofs: the field format, internal/encoding/writer.go and reader.go.
    - Storage: smt/storage (keys, the transaction interface as the class
      [KeyValueTxn] with its laws) and smt/storage/memory (database and batches).
    - MerkleTree: the specification, the tree hash [mth] of a list.
    - MerkleState: smt/managed/hash.go and merklestate.go.
    - Receipt: smt/managed/receipt.go.
    - Hasher: internal/encoding/hash/hasher.go.
    - Sha512 (the language library's function), DataEntry: protocol/data_entry.go,
      factom_data_entry.go and ComputeLiteDataAccountId.
    - Chain, ChainProofs: smt/managed/merklemanager.go, merklemanagerrange.go, the
      receipts of receipt.go and the lists of receiptlist.go, over a chain store that
      is a class with laws, with an instance over any key-value transaction.
    - Bpt, with BptKeys, BptMap, BptDirty, BptUpdate, BptProps, BptRange: smt/pmt
      (tree, nodes, values, manager, ranges, receipts) and the paging loop of VisitAccounts
      of internal/database/bpt.go.
    - SortUtil: internal/sortutil/sort.go, with a class of total comparisons.
    - Url, UrlProofs: pkg/url/url.go and txid.go, and the lite addresses of
      protocol/protocol.go.  UrlParse: Parse and ParseTxID, with the parser of the
      language's net/url package that they call.
    - Accounts, AccountsProofs: protocol/account_auth.go, txid_set.go,
      keys.go, authority.go, token_account.go, credits_account.go, lock.go and
      access_control.go.
    - AdiUrl: the remaining URLs of protocol/protocol.go, path joining, and the rules
      for identity URLs and account paths.
    - KeyPages, KeyPagesProofs: the operations of internal/chain/update_key_page.go,
      update_key.go and update_account_auth.go.
    - StateManager: internal/chain/state.go, state_cache.go, state_operation.go and
      state_state.go, internal/database/account.go (GetState, PutState, Commit) and
      record/set.go.
    - Executors, ExecutorProofs: Validate of SendTokens, BurnTokens, IssueTokens,
      AddCredits, LockAccount, UpdateKeyPage and UpdateAccountAuth, and Validate and
      DidFail of the synthetic deposits and burns, in internal/chain.
    - Creation: Validate of the executors that create accounts, write data or replace a
      key, and [Execute], the dispatch on the type of internal/block/executor.go.
    - WellFormed, ExecuteInv: the invariant of the accounts and of the tokens they hold,
      and its preservation by every executor.
    - Signatures: protocol/signature.go, network_def.go, rational.go, the signers of
      authority.go and of a transaction's status.
    - Fees: protocol/fee_schedule.go.
    - Signing, SigningProofs, Authorization: internal/block/signature.go and the readiness
      of user transactions in transaction.go, internal/database/signature_set.go, and the
      special rules of the executors in internal/chain.
    - Ledger: protocol/ledger.go and SyntheticLedger.Partition of system.go.
    - Exchange, ExchangeProofs: delivery of synthetic transactions with their receipts,
      internal/block/transaction.go, block_execute.go and signature.go.
    - Routing: internal/routing/tree.go, simple.go and the routing of router.go.
    - Enums: the enumerations of protocol, smt/managed, internal/errors and
      internal/api/v2/query (enums_gen.go).
    - Wire: what the generated marshallers are made of, with a law for each piece.
      TypesGeneral, TypesAccounts, TypesSignatures, TypesTransactions, TypesStatus: the
      types of protocol/types_gen.go with MarshalBinary, UnmarshalBinaryFrom and Copy, and
      the unions of unions_gen.go; receipts and errors.  TypesDatabase: the records of
      internal/database and its snapshots.  TypesQuery: internal/api/v2/query.
      TypesProps: their round trips, at any nesting.
    - Globals: internal/core/globals.go.
    - Process, ProcessProofs: ProcessTransaction, recordFailedTransaction and the network
      account updates of internal/block.
    - TransactionHash: protocol/transaction_hash.go.
    - Records, RecordsProofs: the records of internal/database/record (value.go,
      kv_store.go) and the batches of internal/database/batch.go, for any data model, with
      their specification, a stack of maps.
    - DataModel, DataModelProofs: the data model itself, internal/database/model_gen.go and
      smt/managed/model_gen.go, the encodable values of internal/database/record, and the
      laws of that data model.
    - DbChain: internal/database/chain.go and account_chains.go.
    - Counted: internal/database/record/counted.go.
    - Indexing: internal/indexing/chain.go.
    - Normalize: the splitting of envelopes of internal/chain/delivery.go.
    - Anchoring: the end of a block, internal/block/block_end.go, utils.go and the proofs of
      synthetic.go, the chain updates of internal/chain/state_state.go, and the receipts of
      internal/indexing/receipts.go.  AnchoringProofs, AnchoringBlocks: what the end of a
      block does to the chains.  BlockRuns: the invariant that it keeps, and the receipts that
      follow from it.
    - Builder: pkg/client/signing (the builder of signatures, keys and timestamps).
    - Anchors: the executors of internal/chain/partition_anchor.go and directory_anchor.go,
      and the building of anchors in internal/block/block_end.go, with internal/block/state.go
      and the scheduler of major blocks.
    - BlockBegin: the start of a block, internal/block/block_begin.go, with the signing of
      shared/shared.go and the production of synthetic transactions of synthetic.go.
    - AnchorsProofs, BlockBeginProofs, SyntheticSend, PartitionRuns, AnchorDelivery: a block of
      the directory and its anchor; the sending of synthetic transactions; runs of blocks that
      add entries, produce transactions and complete major blocks; what an anchor of the
      directory does on a partition, and the completion of a major block.

    ** What the theorems show

    - Merkle chains: the incremental state computes the tree hash of the elements
      added; the chain's store stays that of the list of elements; states, ranges and
      receipts at any height are those of the list; receipt lists validate.
    - Receipts: validation binds start, anchor and path up to hash collisions;
      combination and containment are sound; a structure's field receipts validate.
    - Patricia tree: it implements a finite map under Insert, Get and Update; its root
      hash depends on the map only, for every order in which the dirty nodes are
      visited; receipts validate; nodes survive the store; ranges list the map and the
      paging loop of the account visitor, on a tree in memory, runs on each entry once.
    - Encoding: structures read back as they were written; each helper's round trip;
      envelopes, accounts and other types that can be written survive their format, but for
      the fractions of a second of times, and are their own copies; the hash of a full
      transaction identifies it, but for the entries it writes;
      names of enumerations are read back.
    - Storage: committing a batch gives the parent the batch's view.
    - Database: nested batches of records over a key-value store answer like a stack of
      maps, for the whole data model with its formats; every record is found under the key
      of its accessor; counted lists are lists; chains are found by their names, and their
      ranges, receipts and entries are those of the list of entries; a search along an index
      chain ends and finds what is there.
    - Envelopes: an accepted envelope is split into deliveries with different hashes, each
      with the signatures that are for it.
    - URLs: Equal and Compare as relations on the components, a total order, and
      identifiers that agree on Equal URLs; transaction identifiers and lite addresses
      round trip; memoised methods answer like the plain ones; what was parsed is written
      so that it is parsed again to the same account, if nothing in it needs escaping.
    - Accounts: the exchange ledger implements a window of sequence numbers, the
      identifier set a set; key pages and authority lists keep their invariant under
      every operation.
    - Network: over any run of transactions on any partitions that meet the conditions of
      [executable] no tokens come into being and all accounts stay well formed, but for
      refused changes of the network's own accounts; synthetic transactions are executed in the order of
      their numbers, each once, and all of them when all arrive with receipts to known
      anchors and none is refused; a transaction that is
      ready has the votes its authorities require; routing follows the table.
    - Anchoring: over any run of blocks every entry of an anchored chain has a receipt to a
      root of its partition; a produced synthetic transaction is sent with a receipt to the root of its
      block; the directory proves the roots of the partitions in its anchor, which is sent to
      all of them; a partition executes on an anchor what waited for it, in order; a major
      block is completed when the last partition answers.
    - Signatures: what the builder signs or initiates is accepted by the executor, but for two
      uses of secp256k1 keys.
    - Fees: refunds never exceed what was paid less the fee of a failed transaction.
    - Parameters: the values a partition stores are those the others load.
    - Data entries and identity URLs: accepted entries survive their format, and the
      accepted identities are those of a simple grammar.
    - Executors: tokens moved equal tokens produced for SendTokens, IssueTokens,
      BurnTokens and AddCredits; a deposit settles or is returned in full.
    - Defects the model shows are stated as theorems about concrete inputs.

    ** Bounds and fuel

    A chain's mark power is between 1 and 61 and its height below 2^62, where Go's
    [int64] arithmetic does not wrap. Fuel: 10 bytes for a variable length integer (its
    width); 200 rounds when a receipt is built (each round raises the height, and
    heights stay below 64); 257 levels for a walk in the Patricia tree, whose keys have
    256 bits; the length of the argument plus one for the loops over a path, a slice
    or a key page; 64 for the bits of a mask; the length of the input plus two for the
    fields of a repeated field; the number of entries for a search along an index chain and
    one iteration for a range of a chain. Types that contain themselves (delegated signatures,
    anchors in bodies, causes of errors) are indexed by a depth, which the theorems
    quantify over; a time is a number of nanoseconds since 1970, of which the format keeps
    whole seconds. The theorems are about results, so running out of fuel would falsify them. The order in which Go iterates over the map of dirty
    nodes, or of chains that were updated, is an argument, any order that lists its keys. The
    search from the end of an index chain has the height of the chain as fuel, and what a
    theorem adds to chains is bounded so that their heights stay below 2^62.

    ** What is not modelled

    Unicode case folding beyond ASCII, the JSON format of the types, their IsValid (the
    flags of the fields read) and Equal in general.  The index records and the entries of
    the Patricia tree that committing an account writes: the state manager works on a map
    of accounts and the end of a block on a map of chains, not on the records.  In the block
    executor: the change of the global values at the end of a block, the requests for
    transactions that are missing, the capture of votes and evidence, the genesis block, and
    the sending of queued envelopes over the network.  Snapshots and third-party stores are
    file I/O, and the network node, the APIs, the command line and the explorer are glue
    around the parts above.  The tree that VisitAccounts walks is loaded from the store node by
    node; here it is in memory.  Records hold immutable values, where the code holds pointers.

    Code outside the repository is an argument: the curves and hashes of the signature
    packages ([Crypto], [SigningCrypto], with the law of [SigningLaws] that what a key signs
    verifies with its public key), the Unicode tables ([UnicodeTables]), the schedule of major
    blocks, which a cron expression gives, and the sort of the language, which is any sort by
    the given order.  The router is an argument where an executor or a block uses it; Routing
    models it. *)

From Stdlib Require Strings.Byte.
From stdpp Require Export base numbers gmap strings option countable list.
From stdpp Require Import sorting.


(** ** Hint databases and scopes of the library *)

Create HintDb go discriminated.
Create Rewrite HintDb go.
#[export] Hint Constants Opaque : go.
Declare Scope go_scope.
Delimit Scope go_scope with go.

(** ** Bytes

    Go's [byte] is [Byte.byte]; the arithmetic on bytes goes through [Z]. *)

Abbreviation byte := Byte.byte.
Abbreviation bytes := (list Byte.byte).

#[global] Instance byte_eq_dec : EqDecision byte.
Proof. intros x y. destruct (Byte.byte_eq_dec x y); [left|right]; assumption. Defined.

#[global] Program Instance byte_countable : Countable byte :=
  inj_countable Byte.to_N Byte.of_N _.
Next Obligation. intros b. apply Byte.of_to_N. Qed.

(** [uint64(b)] for a byte [b]. *)
Definition b2z (b : byte) : Z := Z.of_N (Byte.to_N b).

(** The Go conversion [byte(z)]: the low eight bits. *)
Definition z2b (z : Z) : byte :=
  match Byte.of_N (Z.to_N (z mod 256)) with Some b => b | None => Byte.x00 end.

Lemma b2z_range b : (0 <= b2z b < 256)%Z.
Proof.
  unfold b2z. pose proof (Byte.to_N_bounded b). lia.
Qed.
#[export] Hint Resolve b2z_range : go.

Lemma b2z_z2b z : b2z (z2b z) = (z mod 256)%Z.
Proof.
  unfold z2b, b2z. pose proof (Z.mod_pos_bound z 256 ltac:(lia)) as Hb.
  destruct (Byte.of_N (Z.to_N (z mod 256))) as [b|] eqn:E.
  - apply Byte.to_of_N in E. rewrite E. lia.
  - apply Byte.of_N_None_iff in E. lia.
Qed.

Lemma z2b_b2z b : z2b (b2z b) = b.
Proof.
  unfold z2b. rewrite Z.mod_small by apply b2z_range.
  unfold b2z. by rewrite N2Z.id, Byte.of_to_N.
Qed.

Lemma b2z_inj a b : b2z a = b2z b -> a = b.
Proof. intros H. by rewrite <- (z2b_b2z a), H, z2b_b2z. Qed.

Lemma b2z_z2b_small z : (0 <= z < 256)%Z -> b2z (z2b z) = z.
Proof. intros H. by rewrite b2z_z2b, Z.mod_small. Qed.

(** [bytes.Equal]. *)
Definition bytes_eqb (a b : bytes) : bool := bool_decide (a = b).

Lemma bytes_eqb_eq a b : bytes_eqb a b = true <-> a = b.
Proof. apply bool_decide_eq_true. Qed.

Lemma bytes_eqb_refl a : bytes_eqb a a = true.
Proof. by apply bytes_eqb_eq. Qed.

(** [bytes.Compare]: lexicographic, -1, 0 or 1. *)
Fixpoint bytes_compare (a b : bytes) : Z :=
  match a, b with
  | [], [] => 0
  | [], _ :: _ => -1
  | _ :: _, [] => 1
  | x :: a', y :: b' =>
      if (b2z x <? b2z y)%Z then -1
      else if (b2z y <? b2z x)%Z then 1
      else bytes_compare a' b'
  end.

(** ** Machine integers

    A [w]-bit integer is a [Z]; the wrap-around of Go's arithmetic and
    conversions is written out with these functions. *)

Definition u64 (z : Z) : Z := z mod 2 ^ 64.
Definition u8 (z : Z) : Z := z mod 2 ^ 8.
Definition i64 (z : Z) : Z := (z + 2 ^ 63) mod 2 ^ 64 - 2 ^ 63.

Definition is_u64 (z : Z) : Prop := (0 <= z < 2 ^ 64)%Z.
Definition is_i64 (z : Z) : Prop := (- 2 ^ 63 <= z < 2 ^ 63)%Z.

Lemma u64_small z : is_u64 z -> u64 z = z.
Proof. intros H. by apply Z.mod_small. Qed.

Lemma i64_small z : is_i64 z -> i64 z = z.
Proof. unfold is_i64, i64. intros H. rewrite Z.mod_small; lia. Qed.

Lemma u64_range z : is_u64 (u64 z).
Proof. apply Z.mod_pos_bound. lia. Qed.

Lemma i64_range z : is_i64 (i64 z).
Proof. unfold is_i64, i64. pose proof (Z.mod_pos_bound (z + 2^63) (2^64)). lia. Qed.

(** [int64(uint64(z))] and back are the identity on [int64]. *)
Lemma i64_u64 z : is_i64 z -> i64 (u64 z) = z.
Proof.
  unfold is_i64, i64, u64. intros H.
  rewrite Z.add_mod_idemp_l by lia. rewrite Z.mod_small; lia.
Qed.
#[export] Hint Resolve u64_range i64_range : go.

(** ** Times

    A [time.Time] is the number of nanoseconds since 1970; [Unix] are its whole seconds, and
    [FromUnix] is [time.Unix(sec, 0)]. *)

Definition Unix (t : Z) : Z := t / 10 ^ 9.
Definition FromUnix (sec : Z) : Z := sec * 10 ^ 9.
(** What is left of a time after it was written in seconds. *)
Definition truncate (t : Z) : Z := FromUnix (Unix t).

(** The seconds fit, and there is no fraction of a second. *)
Definition time_range (t : Z) : Prop := is_i64 (Unix t).
Definition time_ok (t : Z) : Prop := time_range t /\ truncate t = t.

Lemma Unix_FromUnix s : Unix (FromUnix s) = s.
Proof. unfold Unix, FromUnix. by apply Z.div_mul. Qed.

Lemma time_ok_truncate t : time_range t -> time_ok (truncate t).
Proof. unfold time_ok, time_range, truncate. by rewrite !Unix_FromUnix. Qed.
#[export] Hint Resolve time_ok_truncate : go.

(** ** Results of fallible Go code

    A Go function that returns [(T, error)] and may panic (index or slice
    bounds out of range, an explicit [panic], a failed [make]) returns a
    [res T].  The [status] is the code of [internal/errors]; an error made by
    [fmt.Errorf] or [errors.New] of the Go library has [StatusUnknownError]. *)

Inductive status :=
  | StatusUnknownError
  | StatusBadRequest
  | StatusUnauthenticated
  | StatusInsufficientCredits
  | StatusUnauthorized
  | StatusNotFound
  | StatusNotAllowed
  | StatusConflict
  | StatusInternalError
  | StatusEncodingError
  | StatusBadUrlLength
  | StatusIncompleteChain
  | StatusInsufficientBalance
  | StatusBadSignerVersion
  | StatusBadTimestamp
  | StatusFatalError
  | StatusDelivered
  | StatusPending
  | StatusRemote.

#[global] Instance status_eq_dec : EqDecision status.
Proof. solve_decision. Defined.

Record error := mkError { err_status : status; err_msg : string }.

#[global] Instance error_eq_dec : EqDecision error.
Proof. solve_decision. Defined.

Inductive res (A : Type) : Type :=
  | Ok (a : A)
  | Err (e : error)
  | Panic (msg : string).
Arguments Ok {A} a.
Arguments Err {A} e.
Arguments Panic {A} msg.

(** [fmt.Errorf(msg)]: an error with no particular status. *)
Definition errorf {A} (msg : string) : res A := Err (mkError StatusUnknownError msg).
(** [errors.New(status, msg)] and [errors.Format] of [internal/errors]. *)
Definition errors_new {A} (s : status) (msg : string) : res A := Err (mkError s msg).
(** [errors.Is(err, storage.ErrNotFound)]. *)
Definition is_not_found (e : error) : bool := bool_decide (err_status e = StatusNotFound).

Definition res_bind {A B} (m : res A) (f : A -> res B) : res B :=
  match m with
  | Ok a => f a
  | Err e => Err e
  | Panic s => Panic s
  end.

Notation "'let!' x ':=' m 'in' k" := (res_bind m (fun x => k))
  (at level 10, x pattern, m at level 100, k at level 200,
   format "'let!'  x  ':='  m  'in' '//' k") : go_scope.
Open Scope go_scope.

Definition is_Ok {A} (m : res A) : bool := match m with Ok _ => true | _ => false end.
Definition is_Panic {A} (m : res A) : bool := match m with Panic _ => true | _ => false end.

Lemma res_bind_Ok {A B} (m : res A) (f : A -> res B) b :
  res_bind m f = Ok b <-> exists a, m = Ok a /\ f a = Ok b.
Proof.
  split.
  - destruct m; simpl; try discriminate. eauto.
  - intros (a & -> & H). exact H.
Qed.

Lemma res_bind_assoc {A B C} (m : res A) (f : A -> res B) (g : B -> res C) :
  res_bind (res_bind m f) g = res_bind m (fun a => res_bind (f a) g).
Proof. by destruct m. Qed.

(** Inversion of a successful monadic computation. *)
Ltac inv_res :=
  repeat match goal with
  | H : res_bind _ _ = Ok _ |- _ =>
      let x := fresh "v" in let H1 := fresh "Hv" in let H2 := fresh "Hk" in
      apply res_bind_Ok in H as (x & H1 & H2)
  | H : Ok _ = Ok _ |- _ => injection H as H
  | H : Err _ = Ok _ |- _ => discriminate H
  | H : Panic _ = Ok _ |- _ => discriminate H
  | H : errorf _ = Ok _ |- _ => discriminate H
  | H : errors_new _ _ = Ok _ |- _ => discriminate H
  end.

(** ** Slices

    [s[i:]] and [s[:i]] panic outside of the slice's length. *)

Definition zlen {A} (l : list A) : Z := Z.of_nat (length l).

Definition slice_from {A} (l : list A) (i : Z) : res (list A) :=
  if (0 <=? i)%Z && (i <=? zlen l)%Z then Ok (drop (Z.to_nat i) l)
  else Panic "slice bounds out of range".

Definition slice_to {A} (l : list A) (i : Z) : res (list A) :=
  if (0 <=? i)%Z && (i <=? zlen l)%Z then Ok (take (Z.to_nat i) l)
  else Panic "slice bounds out of range".

(** [s[i]]. *)
Definition index {A} (l : list A) (i : Z) : res A :=
  if (i <? 0)%Z then Panic "index out of range"
  else match l !! Z.to_nat i with
       | Some x => Ok x
       | None => Panic "index out of range"
       end.

(** The conversion of a slice to an array of 32 bytes. *)
Definition to_array (b : bytes) : res bytes := if (zlen b <? 32)%Z then Panic "cannot convert slice to array" else Ok (take 32 b).

Lemma to_array_32 h : length h = 32%nat -> to_array h = Ok h.
Proof. intros Hl. unfold to_array, zlen. rewrite Hl. cbn. f_equal. apply take_ge. lia. Qed.

Lemma zlen_nonneg {A} (l : list A) : (0 <= zlen l)%Z.
Proof. unfold zlen. lia. Qed.

Lemma zlen_app {A} (l k : list A) : zlen (l ++ k) = (zlen l + zlen k)%Z.
Proof. unfold zlen. rewrite length_app. lia. Qed.

Lemma zlen_cons {A} (x : A) l : zlen (x :: l) = (1 + zlen l)%Z.
Proof. unfold zlen. simpl. lia. Qed.

Lemma slice_from_app {A} (l k : list A) : slice_from (l ++ k) (zlen l) = Ok k.
Proof.
  unfold slice_from. rewrite zlen_app.
  pose proof (zlen_nonneg l). pose proof (zlen_nonneg k).
  rewrite (proj2 (Z.leb_le 0 _)), (proj2 (Z.leb_le (zlen l) _)) by lia. simpl.
  unfold zlen. by rewrite Nat2Z.id, drop_app_length.
Qed.

Lemma slice_to_app {A} (l k : list A) : slice_to (l ++ k) (zlen l) = Ok l.
Proof.
  unfold slice_to. rewrite zlen_app.
  pose proof (zlen_nonneg l). pose proof (zlen_nonneg k).
  rewrite (proj2 (Z.leb_le 0 _)), (proj2 (Z.leb_le (zlen l) _)) by lia. simpl.
  unfold zlen. by rewrite Nat2Z.id, take_app_length.
Qed.

Lemma slice_from_ok {A} (l : list A) i :
  (0 <= i <= zlen l)%Z -> slice_from l i = Ok (drop (Z.to_nat i) l).
Proof.
  intros H. unfold slice_from.
  by rewrite (proj2 (Z.leb_le 0 _)), (proj2 (Z.leb_le i _)) by lia.
Qed.

Lemma slice_to_ok {A} (l : list A) i :
  (0 <= i <= zlen l)%Z -> slice_to l i = Ok (take (Z.to_nat i) l).
Proof.
  intros H. unfold slice_to.
  by rewrite (proj2 (Z.leb_le 0 _)), (proj2 (Z.leb_le i _)) by lia.
Qed.

Lemma index_ok {A} (l : list A) i x :
  l !! i = Some x -> index l (Z.of_nat i) = Ok x.
Proof.
  intros H. unfold index. rewrite (proj2 (Z.ltb_ge _ 0)) by lia.
  by rewrite Nat2Z.id, H.
Qed.
Lemma zlen_take {A} (l : list A) n : (n <= length l)%nat -> zlen (take n l) = Z.of_nat n.
Proof. intros. unfold zlen. rewrite length_take. lia. Qed.

(** A prefix that reaches past the position [i]. *)
Lemma take_split_at {A} (l : list A) i n x :
  l !! i = Some x -> (i < n)%nat ->
  take n l = take i l ++ x :: take (n - S i) (drop (S i) l).
Proof.
  intros Hx Hn. pose proof (lookup_lt_Some _ _ _ Hx).
  rewrite <- (take_drop_middle l _ x Hx) at 1. rewrite take_app_ge by (rewrite length_take; lia).
  rewrite length_take, Nat.min_l by lia.
  replace (n - i)%nat with (S (n - S i)) by lia. done.
Qed.

#[export] Hint Rewrite @slice_from_app @slice_to_app @zlen_app @zlen_cons : go.

(** ** Bit lemmas shared by the codecs *)

Lemma testbit_above_pow x s n :
  (0 <= x < 2 ^ s)%Z -> (0 <= s <= n)%Z -> Z.testbit x n = false.
Proof.
  intros Hx Hn. destruct (decide (x = 0%Z)) as [->|]; [apply Z.bits_0|].
  apply Z.bits_above_log2; [lia|]. apply Z.log2_lt_pow2; [lia|].
  eapply Z.lt_le_trans; [apply Hx|]. apply Z.pow_le_mono_r; lia.
Qed.

(** A shifted value over the bits of a smaller one is a sum. *)
Lemma lor_shiftl_add x b s :
  (0 <= s)%Z -> (0 <= x < 2 ^ s)%Z ->
  Z.lor x (Z.shiftl b s) = (x + b * 2 ^ s)%Z.
Proof.
  intros Hs Hx. rewrite Z.shiftl_mul_pow2 by lia.
  assert (Hdisj : Z.land x (b * 2 ^ s) = 0%Z).
  { apply Z.bits_inj'. intros n Hn. rewrite Z.land_spec, Z.bits_0.
    destruct (Z.lt_ge_cases n s).
    - rewrite (Z.mul_pow2_bits_low b s n) by lia. apply andb_false_r.
    - by rewrite (testbit_above_pow x s n) by lia. }
  by rewrite Z.add_nocarry_lxor, Z.lxor_lor.
Qed.
