(* ===== verification/Sha256.v ===== *)
(** * SHA-256, the hash of the Go library's [crypto/sha256]

    The whole program hashes with [sha256.Sum256].  It is executable here (FIPS
    180-4 on 32-bit words held as [Z]) so that the witnesses of the other files
    evaluate real hashes; the theorems use no more of it than its output
    length, [sha256_length]. *)

From S2P Require Import Prelude.
Local Open Scope Z_scope.

Definition w32 (z : Z) : Z := Z.land z 0xffffffff.
Definition rotr (n x : Z) : Z := Z.lor (Z.shiftr x n) (w32 (Z.shiftl x (32 - n))).

Definition ch (x y z : Z) : Z := Z.lxor (Z.land x y) (Z.land (Z.lxor x 0xffffffff) z).
Definition maj (x y z : Z) : Z := Z.lxor (Z.lxor (Z.land x y) (Z.land x z)) (Z.land y z).
Definition big_sigma0 x := Z.lxor (Z.lxor (rotr 2 x) (rotr 13 x)) (rotr 22 x).
Definition big_sigma1 x := Z.lxor (Z.lxor (rotr 6 x) (rotr 11 x)) (rotr 25 x).
Definition small_sigma0 x := Z.lxor (Z.lxor (rotr 7 x) (rotr 18 x)) (Z.shiftr x 3).
Definition small_sigma1 x := Z.lxor (Z.lxor (rotr 17 x) (rotr 19 x)) (Z.shiftr x 10).

(** The constants of FIPS 180-4 are computed from their definition: the first 32
    bits of the fractional parts of the cube roots (round constants) and of the square
    roots (initial state) of the first primes. *)
Definition is_prime (n : nat) : bool := forallb (fun d => negb (n mod d =? 0)%nat) (seq 2 (n - 2)).
Definition primes : list Z := Eval vm_compute in Z.of_nat <$> List.filter is_prime (seq 2 310).

(** The largest [r] with [acc <= r < acc + 2 ^ bits] and [r ^ 3 <= x]. *)
Fixpoint cube_root (bits : nat) (acc x : Z) : Z :=
  match bits with
  | O => acc
  | S k => let r := acc + 2 ^ Z.of_nat k in cube_root k (if r ^ 3 <=? x then r else acc) x
  end.

Definition round_constants : list Z := Eval vm_compute in
  (fun p => w32 (cube_root 35 0 (p * 2 ^ 96))) <$> primes.
Definition initial_state : list Z := Eval vm_compute in
  (fun p => w32 (Z.sqrt (p * 2 ^ 64))) <$> take 8 primes.

(** Big-endian words. *)
Definition be_word (b0 b1 b2 b3 : byte) : Z :=
  Z.lor (Z.lor (Z.shiftl (b2z b0) 24) (Z.shiftl (b2z b1) 16))
        (Z.lor (Z.shiftl (b2z b2) 8) (b2z b3)).

Fixpoint be_words (l : bytes) : list Z :=
  match l with
  | b0 :: b1 :: b2 :: b3 :: l' => be_word b0 b1 b2 b3 :: be_words l'
  | _ => []
  end.

Definition word_bytes (w : Z) : bytes :=
  [z2b (Z.shiftr w 24); z2b (Z.shiftr w 16); z2b (Z.shiftr w 8); z2b w].

(** The message schedule: [w] holds the last sixteen words, newest first. *)
Fixpoint schedule (n : nat) (w : list Z) : list Z :=
  match n with
  | O => []
  | S n' =>
      let x := w32 (small_sigma1 (nth 1 w 0) + nth 6 w 0
                    + small_sigma0 (nth 14 w 0) + nth 15 w 0) in
      x :: schedule n' (x :: take 15 w)
  end.

Definition round (s : list Z) (kw : Z * Z) : list Z :=
  match s with
  | [a; b; c; d; e; f; g; h] =>
      let t1 := h + big_sigma1 e + ch e f g + fst kw + snd kw in
      let t2 := big_sigma0 a + maj a b c in
      [w32 (t1 + t2); a; b; c; w32 (d + t1); e; f; g]
  | _ => s
  end.

Definition compress (s block : list Z) : list Z :=
  let w := block ++ schedule 48 (rev block) in
  zip_with (fun a b => w32 (a + b)) s (foldl round s (zip round_constants w)).

(** Padding: 0x80, zeros, and the bit length in eight big-endian bytes. *)
Definition padding (n : nat) : bytes :=
  Byte.x80 :: replicate ((119 - n mod 64) mod 64) Byte.x00
  ++ word_bytes (Z.shiftr (8 * Z.of_nat n) 32) ++ word_bytes (8 * Z.of_nat n).

Fixpoint blocks (fuel : nat) (s words : list Z) : list Z :=
  match fuel with
  | O => s
  | S f => match words with
           | [] => s
           | _ => blocks f (compress s (take 16 words)) (drop 16 words)
           end
  end.

Definition sha256 (m : bytes) : bytes :=
  let words := be_words (m ++ padding (length m)) in
  mjoin (word_bytes <$> blocks (S (length words)) initial_state words).

(** ** Test vectors of FIPS 180-4 *)

Example sha256_abc :
  (b2z <$> sha256 [Byte.x61; Byte.x62; Byte.x63]) =
  [0xba;0x78;0x16;0xbf;0x8f;0x01;0xcf;0xea;0x41;0x41;0x40;0xde;0x5d;0xae;0x22;0x23;
   0xb0;0x03;0x61;0xa3;0x96;0x17;0x7a;0x9c;0xb4;0x10;0xff;0x61;0xf2;0x00;0x15;0xad].
Proof. vm_compute. reflexivity. Qed.

Example sha256_two_blocks :
  take 4 (b2z <$> sha256 (replicate 56 Byte.x61)) = [0xb3;0x54;0x39;0xa4].
Proof. vm_compute. reflexivity. Qed.

(** ** Output length *)

Lemma length_round s kw : length (round s kw) = length s.
Proof. do 9 (destruct s as [|? s]; try reflexivity). Qed.

Lemma length_foldl_round l s : length (foldl round s l) = length s.
Proof. revert s. induction l as [|kw l IH]; intros s; simpl; [done|]. by rewrite IH, length_round. Qed.

Lemma length_blocks f s words : length (blocks f s words) = length s.
Proof.
  revert s words. induction f as [|f IH]; intros s words; [done|].
  simpl. destruct words; [done|]. rewrite IH. unfold compress.
  rewrite length_zip_with, length_foldl_round. lia.
Qed.

Lemma length_word_bytes ws : length (mjoin (word_bytes <$> ws)) = (4 * length ws)%nat.
Proof. induction ws as [|w ws IH]; [done|]. rewrite fmap_cons. csimpl. rewrite IH. lia. Qed.

(** [Sum256] returns 32 bytes. *)
Lemma sha256_length m : length (sha256 m) = 32%nat.
Proof.
  unfold sha256. cbv zeta. rewrite length_word_bytes, length_blocks. reflexivity.
Qed.
#[export] Hint Resolve sha256_length : go.
#[export] Hint Rewrite sha256_length : go.
Arguments sha256 : simpl never.
