(* ===== verification/Encoding.v ===== *)
(** * Binary encoding: varints and the counted values of [internal/encoding]

    [Binary] is what the program uses of Go's [encoding/binary] and
    [math/big]; [Common] is [smt/common/helper.go]; the rest of the file is
    the binary half of [internal/encoding/utils.go].  A Go byte slice that may
    be nil is an [option bytes]. *)

From S2P Require Import Prelude.
Local Open Scope Z_scope.

(** ** [encoding/binary] and [math/big] *)

Module Binary.

Definition MaxVarintLen64 : Z := 10.

Fixpoint put_uvarint (fuel : nat) (x : Z) : bytes :=
  match fuel with
  | O => []
  | S f =>
      if 0x80 <=? x then z2b (Z.lor (u8 x) 0x80) :: put_uvarint f (Z.shiftr x 7)
      else [z2b x]
  end.

(** The bytes [PutUvarint] writes; ten iterations are enough for 64 bits. *)
Definition PutUvarint (x : Z) : bytes := put_uvarint 10 x.

Fixpoint uvarint_loop (buf : bytes) (i x s : Z) : Z * Z :=
  match buf with
  | [] => (0, 0)
  | b :: buf' =>
      if i =? MaxVarintLen64 then (0, - (i + 1))
      else if b2z b <? 0x80 then
        if (i =? MaxVarintLen64 - 1) && (1 <? b2z b) then (0, - (i + 1))
        else (Z.lor x (u64 (Z.shiftl (b2z b) s)), i + 1)
      else uvarint_loop buf' (i + 1)
             (Z.lor x (u64 (Z.shiftl (Z.land (b2z b) 0x7f) s))) (s + 7)
  end.

(** The value and the bytes read; 0 for a short buffer, negative on overflow. *)
Definition Uvarint (buf : bytes) : Z * Z := uvarint_loop buf 0 0 0.

Definition zigzag (x : Z) : Z :=
  let ux := u64 (Z.shiftl x 1) in
  if x <? 0 then u64 (Z.lnot ux) else ux.

Definition unzigzag (ux : Z) : Z :=
  let x := i64 (Z.shiftr ux 1) in
  if Z.land ux 1 =? 0 then x else i64 (Z.lnot x).

Definition PutVarint (x : Z) : bytes := PutUvarint (zigzag x).

Definition Varint (buf : bytes) : Z * Z :=
  let '(ux, n) := Uvarint buf in (unzigzag ux, n).

(** Big-endian integers of [n] bytes. *)
Fixpoint be_bytes (n : nat) (x : Z) : bytes :=
  match n with
  | O => []
  | S n' => be_bytes n' (Z.shiftr x 8) ++ [z2b x]
  end.

Definition be_value (l : bytes) : Z := foldl (fun acc b => acc * 256 + b2z b) 0 l.

(** [big.Int.Bytes] (of the absolute value) and [SetBytes]. *)
Definition big_Bytes (v : Z) : bytes :=
  be_bytes (Z.to_nat ((Z.log2 (Z.abs v) + 8) / 8 * Z.sgn (Z.abs v))) (Z.abs v).
Definition big_SetBytes (l : bytes) : Z := be_value l.

(** *** Facts *)

Lemma byte_high_bit x :
  0 <= x -> Z.lor (u8 x) 0x80 = x mod 128 + 128.
Proof.
  intros Hx. unfold u8.
  pose proof (Z.mod_pos_bound x (2^8)). pose proof (Z.mod_pos_bound x 128).
  assert (Hlow : Z.lor (x mod 128) 128 = x mod 128 + 128).
  { change 128 with (Z.shiftl 1 7) at 2. rewrite lor_shiftl_add by lia. lia. }
  change (2 ^ 8) with 256 in *.
  destruct (Z.lt_ge_cases (x mod 256) 128).
  - replace (x mod 256) with (x mod 128) by (Z.to_euclidean_division_equations; lia). done.
  - replace (x mod 256) with (Z.lor (x mod 128) 128).
    + rewrite <- Z.lor_assoc. change (Z.lor 128 0x80) with 128. done.
    + rewrite Hlow. Z.to_euclidean_division_equations; lia.
Qed.

(** One step of the writer seen by the reader. *)
Lemma uvarint_loop_put fuel x rest i acc :
  0 <= i < 10 -> (Z.of_nat fuel = 10 - i) ->
  0 <= acc < 2 ^ (7 * i) -> 0 <= x -> acc + x * 2 ^ (7 * i) < 2 ^ 64 ->
  uvarint_loop (put_uvarint fuel x ++ rest) i acc (7 * i)
  = (acc + x * 2 ^ (7 * i), i + zlen (put_uvarint fuel x)).
Proof.
  revert x i acc. induction fuel as [|f IH]; intros x i acc Hi Hf Hacc Hx Hb; [lia|].
  assert (Hp : 0 < 2 ^ (7 * i)) by (apply Z.pow_pos_nonneg; lia).
  simpl put_uvarint. destruct (Z.leb_spec 0x80 x) as [Hge|Hlt].
  - assert (Hi9 : i <> 9).
    { intros ->. change (2 ^ (7 * 9)) with (2 ^ 63) in Hb. lia. }
    rewrite byte_high_bit by lia. pose proof (Z.mod_pos_bound x 128).
    simpl app. simpl uvarint_loop.
    rewrite (proj2 (Z.eqb_neq i MaxVarintLen64)) by (unfold MaxVarintLen64; lia).
    rewrite b2z_z2b_small by lia.
    rewrite (proj2 (Z.ltb_ge _ 0x80)) by lia.
    change 0x7f with (Z.ones 7). rewrite Z.land_ones by lia.
    change (2 ^ 7) with 128.
    replace ((x mod 128 + 128) mod 128) with (x mod 128)
      by (clear; Z.to_euclidean_division_equations; lia).
    assert (Hdm := Z.div_mod x 128). assert (Hd := Z.div_pos x 128).
    assert (x mod 128 <= x) by lia.
    rewrite u64_small by (rewrite Z.shiftl_mul_pow2 by lia; unfold is_u64; nia).
    rewrite lor_shiftl_add by lia.
    rewrite Z.shiftr_div_pow2 by lia. change (2 ^ 7) with 128.
    replace (7 * i + 7) with (7 * (i + 1)) by lia.
    assert (Hpow : 2 ^ (7 * (i + 1)) = 2 ^ (7 * i) * 128).
    { replace (7 * (i + 1)) with (7 * i + 7) by lia. rewrite Z.pow_add_r by lia. reflexivity. }
    rewrite IH; rewrite ?Hpow; try lia; try nia.
    f_equal; [nia|]. rewrite zlen_cons. lia.
  - simpl app. simpl uvarint_loop.
    rewrite (proj2 (Z.eqb_neq i MaxVarintLen64)) by (unfold MaxVarintLen64; lia).
    rewrite b2z_z2b_small by lia.
    rewrite (proj2 (Z.ltb_lt _ 0x80)) by lia.
    replace ((i =? MaxVarintLen64 - 1) && (1 <? x)) with false.
    2: { symmetry. apply andb_false_iff. unfold MaxVarintLen64.
         destruct (Z.eqb_spec i (10 - 1)) as [->|]; [right|by left].
         apply Z.ltb_ge. change (2 ^ (7 * (10 - 1))) with (2 ^ 63) in Hb. lia. }
    rewrite u64_small by (rewrite Z.shiftl_mul_pow2 by lia; unfold is_u64; nia).
    by rewrite lor_shiftl_add by lia.
Qed.

Lemma Uvarint_PutUvarint x rest :
  is_u64 x -> Uvarint (PutUvarint x ++ rest) = (x, zlen (PutUvarint x)).
Proof.
  intros Hx. unfold is_u64 in Hx. unfold Uvarint, PutUvarint.
  change 0 with (7 * 0) at 3. rewrite uvarint_loop_put; try lia.
  f_equal; lia.
Qed.

Lemma zigzag_unzigzag x : is_i64 x -> unzigzag (zigzag x) = x.
Proof.
  unfold is_i64. intros Hx. unfold zigzag, unzigzag.
  rewrite Z.shiftl_mul_pow2 by lia. change (2 ^ 1) with 2.
  change (Z.land ?u 1) with (Z.land u (Z.ones 1)).
  rewrite Z.land_ones, Z.shiftr_div_pow2 by lia.
  change (2 ^ 1) with 2. unfold u64, Z.lnot. destruct (Z.ltb_spec x 0).
  - replace ((x * 2) mod 2 ^ 64) with (x * 2 + 2 ^ 64)
      by (rewrite <- (Z.mod_add _ 1) by lia; symmetry; apply Z.mod_small; lia).
    replace (Z.pred (- (x * 2 + 2 ^ 64)) mod 2 ^ 64) with (- (x * 2) - 1)
      by (rewrite <- (Z.mod_add _ 1) by lia; symmetry; rewrite Z.mod_small; lia).
    replace ((- (x * 2) - 1) mod 2) with 1 by (Z.to_euclidean_division_equations; lia).
    replace ((- (x * 2) - 1) / 2) with (- x - 1) by (Z.to_euclidean_division_equations; lia).
    change (1 =? 0) with false. cbv iota.
    rewrite (i64_small (- x - 1)) by (unfold is_i64; lia).
    rewrite i64_small by (unfold is_i64; lia). lia.
  - rewrite (Z.mod_small (x * 2)) by lia. rewrite Z.mod_mul, Z.div_mul by lia.
    by rewrite i64_small.
Qed.

Lemma zigzag_range x : is_u64 (zigzag x).
Proof. unfold zigzag. destruct (x <? 0); apply u64_range. Qed.

Lemma Varint_PutVarint x rest :
  is_i64 x -> Varint (PutVarint x ++ rest) = (x, zlen (PutVarint x)).
Proof.
  intros Hx. unfold Varint, PutVarint.
  rewrite Uvarint_PutUvarint by apply zigzag_range. by rewrite zigzag_unzigzag.
Qed.

Lemma put_uvarint_nonempty f x : put_uvarint (S f) x <> [].
Proof. simpl. by destruct (0x80 <=? x). Qed.

Lemma length_put_uvarint f x : (length (put_uvarint f x) <= f)%nat.
Proof.
  revert x. induction f as [|f IH]; intros x; simpl; [lia|].
  destruct (0x80 <=? x); simpl; [|lia]. specialize (IH (Z.shiftr x 7)). lia.
Qed.

Lemma zlen_PutUvarint x : 1 <= zlen (PutUvarint x) <= 10.
Proof.
  unfold PutUvarint, zlen. pose proof (length_put_uvarint 10 x).
  pose proof (put_uvarint_nonempty 9 x). destruct (put_uvarint 10 x); [done|].
  simpl length in *. lia.
Qed.

(** A value below [2^(7k)] needs at most [k] bytes. *)
Lemma length_put_uvarint_le f x k :
  (0 < k)%nat -> 0 <= x < 2 ^ (7 * Z.of_nat k) -> (length (put_uvarint f x) <= k)%nat.
Proof.
  revert x k. induction f as [|f IH]; intros x k Hk Hx; simpl; [lia|].
  destruct (Z.leb_spec 0x80 x); simpl; [|lia].
  destruct k as [|[|k]]; [lia|simpl in *; lia|].
  enough (length (put_uvarint f (Z.shiftr x 7)) <= S k)%nat by lia.
  apply IH; [lia|]. rewrite Z.shiftr_div_pow2 by lia. split; [apply Z.div_pos; lia|].
  apply Z.div_lt_upper_bound; [lia|]. rewrite <- Z.pow_add_r by lia.
  replace (7 + 7 * Z.of_nat (S k)) with (7 * Z.of_nat (S (S k))) by lia. lia.
Qed.

(** The encoding of a decoded value is never longer than what was read. *)
Lemma uvarint_loop_minimal buf i x :
  0 <= i <= 10 -> 0 <= x < 2 ^ (7 * i) ->
  let '(v, n) := uvarint_loop buf i x (7 * i) in
  (n <= 0) \/ (i < n <= 10 /\ n <= i + zlen buf /\ 0 <= v < 2 ^ 64 /\ v < 2 ^ (7 * n)).
Proof.
  revert i x. induction buf as [|b buf IH]; intros i x Hi Hx; simpl; [by left|].
  destruct (Z.eqb_spec i MaxVarintLen64) as [Hm|Hm]; [left; lia|].
  unfold MaxVarintLen64 in Hm. pose proof (b2z_range b) as Hb. rewrite zlen_cons.
  pose proof (zlen_nonneg buf).
  assert (Hp : 0 < 2 ^ (7 * i)) by (apply Z.pow_pos_nonneg; lia).
  assert (Hpow : 2 ^ (7 * (i + 1)) = 2 ^ (7 * i) * 128).
  { replace (7 * (i + 1)) with (7 * i + 7) by lia. rewrite Z.pow_add_r by lia. reflexivity. }
  assert (H63 : 2 ^ (7 * i) <= 2 ^ 63) by (apply Z.pow_le_mono_r; lia).
  destruct (Z.ltb_spec (b2z b) 0x80).
  - unfold MaxVarintLen64. destruct ((i =? 10 - 1) && (1 <? b2z b)) eqn:E; [left; lia|right].
    assert (Hbs : b2z b * 2 ^ (7 * i) < 2 ^ 64 /\ b2z b * 2 ^ (7 * i) + x < 2 ^ 64).
    { apply andb_false_iff in E as [E|E].
      - apply Z.eqb_neq in E. assert (2 ^ (7 * i) <= 2 ^ 56) by (apply Z.pow_le_mono_r; lia).
        split; nia.
      - apply Z.ltb_ge in E. split; nia. }
    rewrite u64_small by (rewrite Z.shiftl_mul_pow2 by lia; unfold is_u64; nia).
    rewrite lor_shiftl_add by lia. rewrite Hpow. repeat split; try nia.
  - change 0x7f with (Z.ones 7). rewrite Z.land_ones by lia. change (2 ^ 7) with 128.
    pose proof (Z.mod_pos_bound (b2z b) 128).
    set (c := b2z b mod 128) in *.
    replace (7 * i + 7) with (7 * (i + 1)) by lia.
    assert (Hx' : 0 <= Z.lor x (u64 (Z.shiftl c (7 * i))) < 2 ^ (7 * (i + 1))).
    { rewrite Z.shiftl_mul_pow2 by lia.
      destruct (Z.eq_dec i 9) as [->|Hi9].
      - (* the shifted bits may fall off the 64-bit word *)
        change (2 ^ (7 * (9 + 1))) with (2 ^ 70). change (7 * 9) with 63 in *.
        pose proof (u64_range (c * 2 ^ 63)) as Hr. unfold is_u64 in Hr.
        assert (Hm' : u64 (c * 2 ^ 63) = (c mod 2) * 2 ^ 63).
        { unfold u64. change (2 ^ 64) with (2 * 2 ^ 63). by rewrite Z.mul_mod_distr_r by lia. }
        rewrite Hm', <- Z.shiftl_mul_pow2, lor_shiftl_add by lia.
        pose proof (Z.mod_pos_bound c 2). lia.
      - assert (2 ^ (7 * i) <= 2 ^ 56) by (apply Z.pow_le_mono_r; lia).
        rewrite u64_small by (unfold is_u64; nia).
        rewrite <- Z.shiftl_mul_pow2, lor_shiftl_add by lia. rewrite Hpow. nia. }
    specialize (IH (i + 1) _ ltac:(lia) Hx').
    destruct (uvarint_loop buf (i + 1) _ _) as [v n].
    destruct IH as [?|?]; [by left|right; lia].
Qed.

Lemma Uvarint_minimal buf v n :
  Uvarint buf = (v, n) -> 0 < n ->
  zlen (PutUvarint v) <= n /\ n <= zlen buf /\ is_u64 v.
Proof.
  intros H Hn. pose proof (uvarint_loop_minimal buf 0 0 ltac:(lia) ltac:(simpl; lia)) as Hm.
  unfold Uvarint in H. change (7 * 0) with 0 in Hm. rewrite H in Hm.
  destruct Hm as [?|(Hr & Hl & Hv & Hb)]; [lia|]. split_and!; try lia; [|done].
  unfold zlen, PutUvarint.
  pose proof (length_put_uvarint_le 10 v (Z.to_nat n) ltac:(lia)) as Hle.
  rewrite Z2Nat.id in Hle by lia. specialize (Hle ltac:(lia)). lia.
Qed.

(** A short buffer: no bytes are consumed and the value is zero. *)
Lemma Uvarint_nil : Uvarint [] = (0, 0).
Proof. reflexivity. Qed.

Lemma length_be_bytes n x : length (be_bytes n x) = n.
Proof. revert x. induction n; intros x; simpl; [done|]. rewrite length_app, IHn. simpl. lia. Qed.

Lemma be_value_snoc l b : be_value (l ++ [b]) = be_value l * 256 + b2z b.
Proof. unfold be_value. by rewrite foldl_app. Qed.

Lemma be_value_bytes n x :
  0 <= x < 2 ^ (8 * Z.of_nat n) -> be_value (be_bytes n x) = x.
Proof.
  revert x. induction n as [|n IH]; intros x Hx.
  - simpl in *. change (2 ^ 0) with 1 in Hx. unfold be_value. simpl. lia.
  - simpl be_bytes. rewrite be_value_snoc, b2z_z2b, Z.shiftr_div_pow2 by lia.
    change (2 ^ 8) with 256. rewrite IH; [symmetry; rewrite Z.mul_comm; apply Z.div_mod; lia|].
    split; [apply Z.div_pos; lia|]. apply Z.div_lt_upper_bound; [lia|].
    change 256 with (2 ^ 8). rewrite <- Z.pow_add_r by lia.
    replace (8 + 8 * Z.of_nat n) with (8 * Z.of_nat (S n)) by lia. lia.
Qed.

Lemma big_SetBytes_Bytes v : 0 <= v -> big_SetBytes (big_Bytes v) = v.
Proof.
  intros Hv. unfold big_SetBytes, big_Bytes. rewrite Z.abs_eq by lia.
  destruct (Z.eq_dec v 0) as [->|Hnz]; [reflexivity|].
  rewrite (Z.sgn_pos v) by lia. rewrite Z.mul_1_r.
  pose proof (Z.log2_nonneg v). apply be_value_bytes. split; [lia|].
  pose proof (Z.log2_spec v ltac:(lia)) as [_ Hl].
  eapply Z.lt_le_trans; [exact Hl|]. apply Z.pow_le_mono_r; [lia|].
  rewrite Z2Nat.id by (apply Z.div_pos; lia).
  pose proof (Z.div_mod (Z.log2 v + 8) 8). pose proof (Z.mod_pos_bound (Z.log2 v + 8) 8). lia.
Qed.

End Binary.

(** ** [smt/common/helper.go] *)

Module Common.
Import Binary.

Definition Uint64FixedBytes (i : Z) : bytes := be_bytes 8 i.

(** [binary.BigEndian.Uint64] panics on fewer than eight bytes. *)
Definition BytesFixedUint64 (data : bytes) : res (Z * bytes) :=
  if zlen data <? 8 then Panic "index out of range"
  else Ok (be_value (take 8 data), drop 8 data).

Definition Uint64Bytes (i : Z) : bytes := PutUvarint i.

Definition BytesUint64 (data : bytes) : res (Z * bytes) :=
  let '(value, count) := Uvarint data in
  let! rest := slice_from data count in Ok (value, rest).

Definition Int64Bytes (i : Z) : bytes := PutVarint i.

Definition BytesInt64 (data : bytes) : res (Z * bytes) :=
  let '(value, count) := Varint data in
  let! rest := slice_from data count in Ok (value, rest).

Definition SliceBytes (slice : bytes) : bytes :=
  PutUvarint (u64 (zlen slice)) ++ slice.

Definition BytesSlice (data : bytes) : res (bytes * bytes) :=
  let '(countOfBytes, count) := Uvarint data in
  let! data := slice_from data count in
  let! slice := slice_to data countOfBytes in
  let! data := slice_from data countOfBytes in
  Ok (slice, data).

Lemma BytesUint64_Uint64Bytes i rest :
  is_u64 i -> BytesUint64 (Uint64Bytes i ++ rest) = Ok (i, rest).
Proof.
  intros Hi. unfold BytesUint64, Uint64Bytes. rewrite Uvarint_PutUvarint by done.
  by rewrite slice_from_app.
Qed.

Lemma BytesFixedUint64_Uint64FixedBytes i rest :
  is_u64 i -> BytesFixedUint64 (Uint64FixedBytes i ++ rest) = Ok (i, rest).
Proof.
  intros Hi. unfold BytesFixedUint64, Uint64FixedBytes.
  pose proof (length_be_bytes 8 i) as Hl.
  rewrite (proj2 (Z.ltb_ge _ 8)) by (rewrite zlen_app; unfold zlen at 1; rewrite Hl;
    pose proof (zlen_nonneg rest); lia).
  rewrite take_app_length', drop_app_length' by done.
  by rewrite be_value_bytes.
Qed.

Lemma BytesInt64_Int64Bytes i rest :
  is_i64 i -> BytesInt64 (Int64Bytes i ++ rest) = Ok (i, rest).
Proof.
  intros Hi. unfold BytesInt64, Int64Bytes. rewrite Varint_PutVarint by done.
  by rewrite slice_from_app.
Qed.

End Common.

(** ** [internal/encoding/utils.go] *)

Module Encoding.
Import Binary.

Definition ErrNotEnoughData {A} : res A := errorf "not enough data".
Definition ErrOverflow {A} : res A := errorf "overflow".

(** [make([]T, n)] panics when the size in bytes exceeds the address space of
    the runtime (2^48 bytes) or the length is negative. *)
Definition go_make (n elem_size : Z) : res unit :=
  if (n <? 0) || (2 ^ 48 <? n * elem_size) then Panic "makeslice: len out of range"
  else Ok tt.

(** *** Booleans *)

Definition BoolBinarySize (_ : bool) : Z := 1.

Definition BoolMarshalBinary (v : bool) : bytes :=
  if v then [Byte.x01] else [Byte.x00].

Definition BoolUnmarshalBinary (b : bytes) : res bool :=
  match b with
  | [] => ErrNotEnoughData
  | x :: _ =>
      if b2z x =? 0 then Ok false
      else if b2z x =? 1 then Ok true
      else errorf "not a valid boolean"
  end.

(** *** Varints *)

Definition UvarintMarshalBinary (v : Z) : bytes := Common.Uint64Bytes v.
Definition UvarintBinarySize (v : Z) : Z := zlen (UvarintMarshalBinary v).

Definition UvarintUnmarshalBinary (b : bytes) : res Z :=
  let '(v, n) := Uvarint b in
  if n =? 0 then ErrNotEnoughData
  else if n <? 0 then ErrOverflow
  else Ok v.

Definition VarintMarshalBinary (v : Z) : bytes := Common.Int64Bytes v.
Definition VarintBinarySize (v : Z) : Z := zlen (VarintMarshalBinary v).

Definition VarintUnmarshalBinary (b : bytes) : res Z :=
  let '(v, n) := Varint b in
  if n =? 0 then ErrNotEnoughData
  else if n <? 0 then ErrOverflow
  else Ok v.

Definition TimeMarshalBinary (v : Z) : bytes := VarintMarshalBinary (Unix v).
Definition TimeBinarySize (v : Z) : Z := VarintBinarySize (Unix v).
Definition TimeUnmarshalBinary (b : bytes) : res Z := let! v := VarintUnmarshalBinary b in Ok (FromUnix v).

(** *** Counted bytes and strings *)

Definition BytesMarshalBinary (b : bytes) : bytes := Common.SliceBytes b.
Definition BytesBinarySize (b : bytes) : Z := zlen (BytesMarshalBinary b).

(** [int(l)] is negative for [l >= 2^63], so the length test passes and the
    slice expression panics. *)
Definition BytesUnmarshalBinary (b : bytes) : res (option bytes) :=
  let '(l, n) := Uvarint b in
  if n =? 0 then errorf "error decoding length: not enough data"
  else if n <? 0 then errorf "error decoding length: overflow"
  else if l =? 0 then Ok None
  else
    let! b := slice_from b n in
    if zlen b <? i64 l then ErrNotEnoughData
    else let! r := slice_to b l in Ok (Some r).

Definition StringMarshalBinary (s : string) : bytes :=
  BytesMarshalBinary (String.list_byte_of_string s).
Definition StringBinarySize (s : string) : Z := zlen (StringMarshalBinary s).

Definition StringUnmarshalBinary (b : bytes) : res string :=
  let '(l, n) := Uvarint b in
  if n =? 0 then errorf "error decoding length: not enough data"
  else if n <? 0 then errorf "error decoding length: overflow"
  else
    let! b := slice_from b n in
    if zlen b <? i64 l then ErrNotEnoughData
    else let! r := slice_to b l in Ok (String.string_of_list_byte r).

(** *** Big integers *)

Definition BigintMarshalBinary (v : Z) : bytes := BytesMarshalBinary (big_Bytes v).
Definition BigintBinarySize (v : Z) : Z := BytesBinarySize (big_Bytes v).

Definition BigintUnmarshalBinary (b : bytes) : res Z :=
  match BytesUnmarshalBinary b with
  | Ok b => Ok (big_SetBytes (default [] b))
  | Err e => Err (mkError (err_status e) ("error decoding bytes: " +:+ err_msg e))
  | Panic s => Panic s
  end.

(** *** 32-byte values *)

Definition ChainBinarySize (_ : bytes) : Z := 32.
Definition ChainMarshalBinary (v : bytes) : bytes := v.

Definition ChainUnmarshalBinary (b : bytes) : res bytes :=
  if zlen b <? 32 then ErrNotEnoughData else Ok (take 32 b).

Definition ChainSetBinarySize (v : list bytes) : Z :=
  UvarintBinarySize (u64 (zlen v)) + zlen v * 32.

Definition ChainSetMarshalBinary (v : list bytes) : bytes :=
  UvarintMarshalBinary (u64 (zlen v)) ++ mjoin v.

Fixpoint chainset_loop (n : nat) (b : bytes) : res (list bytes) :=
  match n with
  | O => Ok []
  | S n' =>
      let! rest := slice_from b 32 in
      let! vs := chainset_loop n' rest in
      Ok (take 32 b :: vs)
  end.

(** [int(32*l)] wraps around, so a short buffer can announce 2^59 elements;
    the allocation then panics. *)
Definition ChainSetUnmarshalBinary (b : bytes) : res (list bytes) :=
  match UvarintUnmarshalBinary b with
  | Err e => Err (mkError (err_status e) ("error decoding length: " +:+ err_msg e))
  | Panic s => Panic s
  | Ok l =>
      let! b := slice_from b (UvarintBinarySize l) in
      if zlen b <? i64 (u64 (32 * l)) then ErrNotEnoughData
      else let! _ := go_make l 32 in chainset_loop (Z.to_nat l) b
  end.

(** *** Round trips

    Every decoder reads back what its encoder wrote, with any bytes after it,
    and the announced size is the number of bytes written. *)

Lemma UvarintUnmarshalBinary_ok v rest :
  is_u64 v -> UvarintUnmarshalBinary (UvarintMarshalBinary v ++ rest) = Ok v.
Proof.
  intros Hv. unfold UvarintUnmarshalBinary, UvarintMarshalBinary, Common.Uint64Bytes.
  rewrite Uvarint_PutUvarint by done. pose proof (zlen_PutUvarint v).
  by rewrite (proj2 (Z.eqb_neq _ 0)), (proj2 (Z.ltb_ge _ 0)) by lia.
Qed.

Lemma VarintUnmarshalBinary_ok v rest :
  is_i64 v -> VarintUnmarshalBinary (VarintMarshalBinary v ++ rest) = Ok v.
Proof.
  intros Hv. unfold VarintUnmarshalBinary, VarintMarshalBinary, Common.Int64Bytes.
  rewrite Varint_PutVarint by done. pose proof (zlen_PutUvarint (zigzag v)).
  unfold PutVarint.
  by rewrite (proj2 (Z.eqb_neq _ 0)), (proj2 (Z.ltb_ge _ 0)) by lia.
Qed.

(** The value of a counted slice: a zero length decodes as nil. *)
Definition nil_if_empty (b : bytes) : option bytes :=
  match b with [] => None | _ => Some b end.

Lemma default_nil_if_empty b : default [] (nil_if_empty b) = b.
Proof. by destruct b. Qed.

Lemma BytesUnmarshalBinary_ok b rest :
  is_i64 (zlen b) ->
  BytesUnmarshalBinary (BytesMarshalBinary b ++ rest) = Ok (nil_if_empty b).
Proof.
  intros Hb. pose proof (zlen_nonneg b). unfold is_i64 in Hb.
  unfold BytesUnmarshalBinary, BytesMarshalBinary, Common.SliceBytes.
  rewrite u64_small by (unfold is_u64; lia). rewrite <- app_assoc.
  rewrite Uvarint_PutUvarint by (unfold is_u64; lia).
  pose proof (zlen_PutUvarint (zlen b)).
  rewrite (proj2 (Z.eqb_neq _ 0)), (proj2 (Z.ltb_ge _ 0)) by lia.
  destruct (Z.eqb_spec (zlen b) 0) as [E|E]; [by destruct b|].
  rewrite slice_from_app. simpl. rewrite i64_small by done.
  rewrite (proj2 (Z.ltb_ge _ _)) by (rewrite zlen_app; pose proof (zlen_nonneg rest); lia).
  rewrite slice_to_app. by destruct b.
Qed.

Lemma StringUnmarshalBinary_ok s rest :
  is_i64 (zlen (String.list_byte_of_string s)) ->
  StringUnmarshalBinary (StringMarshalBinary s ++ rest) = Ok s.
Proof.
  intros Hb. unfold StringUnmarshalBinary, StringMarshalBinary, BytesMarshalBinary, Common.SliceBytes.
  set (b := String.list_byte_of_string s) in *.
  pose proof (zlen_nonneg b). unfold is_i64 in Hb.
  rewrite u64_small by (unfold is_u64; lia). rewrite <- app_assoc.
  rewrite Uvarint_PutUvarint by (unfold is_u64; lia).
  pose proof (zlen_PutUvarint (zlen b)).
  rewrite (proj2 (Z.eqb_neq _ 0)), (proj2 (Z.ltb_ge _ 0)) by lia.
  rewrite slice_from_app. simpl. rewrite i64_small by done.
  rewrite (proj2 (Z.ltb_ge _ _)) by (rewrite zlen_app; pose proof (zlen_nonneg rest); lia).
  rewrite slice_to_app. simpl. f_equal. apply String.string_of_list_byte_of_string.
Qed.

Lemma BigintUnmarshalBinary_ok v rest :
  0 <= v -> is_i64 (zlen (big_Bytes v)) ->
  BigintUnmarshalBinary (BigintMarshalBinary v ++ rest) = Ok v.
Proof.
  intros Hv Hl. unfold BigintUnmarshalBinary, BigintMarshalBinary.
  rewrite BytesUnmarshalBinary_ok by done. rewrite default_nil_if_empty.
  by rewrite big_SetBytes_Bytes.
Qed.

Lemma chainset_loop_ok v rest :
  Forall (fun h => length h = 32%nat) v ->
  chainset_loop (length v) (mjoin v ++ rest) = Ok v.
Proof.
  induction 1 as [|h v Hh Hv IH]; simpl; [done|].
  rewrite <- app_assoc. replace 32 with (zlen h) by (unfold zlen; lia).
  rewrite slice_from_app. simpl. rewrite IH. simpl.
  by rewrite take_app_length'.
Qed.

Lemma zlen_mjoin32 (v : list bytes) :
  Forall (fun h => length h = 32%nat) v -> zlen (mjoin v) = 32 * zlen v.
Proof.
  induction 1 as [|h v Hh Hv IH]; simpl; [done|].
  rewrite zlen_app, zlen_cons, IH. unfold zlen. lia.
Qed.

Lemma ChainSetUnmarshalBinary_ok v rest :
  Forall (fun h => length h = 32%nat) v -> zlen v <= 2 ^ 43 ->
  ChainSetUnmarshalBinary (ChainSetMarshalBinary v ++ rest) = Ok v.
Proof.
  intros Hv Hl. pose proof (zlen_nonneg v).
  unfold ChainSetUnmarshalBinary, ChainSetMarshalBinary. rewrite <- app_assoc.
  rewrite (u64_small (zlen v)) by (unfold is_u64; lia).
  rewrite UvarintUnmarshalBinary_ok by (unfold is_u64; lia).
  unfold UvarintBinarySize. rewrite slice_from_app. simpl.
  rewrite u64_small, i64_small by (unfold is_u64, is_i64; lia).
  rewrite (proj2 (Z.ltb_ge _ _))
    by (rewrite zlen_app, zlen_mjoin32 by done; pose proof (zlen_nonneg rest); lia).
  unfold go_make. rewrite (proj2 (Z.ltb_ge _ 0)), (proj2 (Z.ltb_ge _ _)) by lia. simpl.
  unfold zlen. rewrite Nat2Z.id. by apply chainset_loop_ok.
Qed.

(** *** Malformed input *)

(** What is read of a counted slice never exceeds the buffer, and its minimal
    re-encoding is no longer than what was read. *)
Lemma BytesUnmarshalBinary_size b v :
  BytesUnmarshalBinary b = Ok v -> BytesBinarySize (default [] v) <= zlen b.
Proof.
  unfold BytesUnmarshalBinary. destruct (Uvarint b) as [l n] eqn:E.
  destruct (Z.eqb_spec n 0); [discriminate|].
  destruct (Z.ltb_spec n 0); [discriminate|].
  pose proof (Uvarint_minimal _ _ _ E ltac:(lia)) as (Hmin & Hn & Hu).
  unfold BytesBinarySize, BytesMarshalBinary, Common.SliceBytes.
  destruct (Z.eqb_spec l 0).
  - intros [= <-]. subst l. simpl default. rewrite app_nil_r.
    change (u64 (zlen [])) with 0. lia.
  - rewrite slice_from_ok by lia. simpl.
    destruct (_ <? i64 l); [discriminate|]. intros Hr. inv_res. subst v. simpl.
    unfold slice_to in Hv. destruct ((0 <=? l) && _) eqn:El; [|discriminate].
    injection Hv as <-. apply andb_true_iff in El as [? El%Z.leb_le].
    assert (Hlen : zlen (take (Z.to_nat l) (drop (Z.to_nat n) b)) = l).
    { unfold zlen in *. rewrite length_take. unfold is_u64 in Hu. lia. }
    rewrite zlen_app, Hlen, u64_small by done.
    unfold zlen in *. rewrite length_drop in El. lia.
Qed.

End Encoding.
