(* ===== verification/Codec.v ===== *)
(** * Field encoding of structs: [internal/encoding/writer.go], [reader.go]

    Every record of the protocol is a sequence of numbered fields.  A [Writer] appends
    fields to a buffer, a [Reader] consumes them; both keep the first error and turn
    every later call into a no-op.  The buffer is a [bytes.Buffer] and the source a
    [bytes.Reader], as in the generated marshallers, so writes do not fail. *)

From S2P Require Import Prelude Encoding.
Import Binary.
Local Open Scope Z_scope.

Definition EmptyObject : Z := 0x80.
Definition MaxValueSize : Z := 2 ^ 20.

(** ** Durations, in nanoseconds *)

Definition second : Z := 1000000000.

(** [d.Round(time.Second)] for non-negative durations: half away from zero. *)
Definition Duration_Round (d : Z) : Z :=
  let r := Z.rem d second in
  if r + r <? second then d - r else d + (second - r).

(** [d.Seconds()] is a [float64], truncated; it is exact below 2^22 seconds. *)
Definition SplitDuration (d : Z) : Z * Z :=
  (u64 (Z.quot d second), u64 (d - Duration_Round d)).

(** [time.Duration(sec)*time.Second + time.Duration(ns)]. *)
Definition JoinDuration (sec ns : Z) : Z := i64 (i64 (i64 sec * second) + i64 ns).

(** ** Writer *)

Record Writer := mkWriter { w_buf : bytes; w_err : option string; w_last : Z; w_written : Z }.

Definition NewWriter : Writer := mkWriter [] None 0 0.

Definition did_write (field : Z) (b : bytes) (w : Writer) : Writer :=
  mkWriter (w_buf w ++ b) (w_err w) field (w_written w + zlen b).

Definition didWrite_err (field : Z) (msg : string) (w : Writer) : Writer :=
  mkWriter (w_buf w) (Some msg) field (w_written w).

(** A method that does nothing after an error. *)
Definition unless_err (f : Writer -> Writer) (w : Writer) : Writer :=
  match w_err w with Some _ => w | None => f w end.

Definition writeInt (field v : Z) : Writer -> Writer := unless_err (did_write field (PutVarint v)).
Definition writeUint (field v : Z) : Writer -> Writer := unless_err (did_write field (PutUvarint v)).

Definition writeRaw (field : Z) (v : bytes) : Writer -> Writer :=
  unless_err (fun w =>
    if MaxValueSize <? zlen v then didWrite_err field "failed to write field: too large" w
    else did_write field v w).

Definition didMarshal (field : Z) (err : option string) : Writer -> Writer :=
  unless_err (fun w => match err with None => w | Some m => didWrite_err field m w end).

Definition writeField (field : Z) : Writer -> Writer :=
  unless_err (fun w =>
    if (field <? 1) || (32 <? field) then mkWriter (w_buf w) (Some "field number is invalid"%string) field (w_written w)
    else did_write field (PutUvarint field) w).

(** [Reset]: the count, the last field and the error; the buffer is what was written. *)
Definition Writer_Reset (w : Writer) : Z * Z * option string * bytes :=
  let w := if w_written w =? 0 then did_write 0 [z2b EmptyObject] w else w in
  (w_written w, w_last w, w_err w, w_buf w).

Definition WriteHash (n : Z) (v : bytes) (w : Writer) : Writer := writeRaw n v (writeField n w).
Definition WriteInt (n v : Z) (w : Writer) : Writer := writeInt n v (writeField n w).
Definition WriteUint (n v : Z) (w : Writer) : Writer := writeUint n v (writeField n w).
(** The float is its IEEE 754 bits. *)
Definition WriteFloat (n bits : Z) (w : Writer) : Writer := writeRaw n (be_bytes 8 bits) (writeField n w).
Definition WriteBool (n : Z) (v : bool) (w : Writer) : Writer :=
  writeUint n (if v then 1 else 0) (writeField n w).
Definition WriteTime (n v : Z) (w : Writer) : Writer := writeInt n (Unix v) (writeField n w).
Definition WriteBytes (n : Z) (v : bytes) (w : Writer) : Writer :=
  writeRaw n v (writeUint n (zlen v) (writeField n w)).
Definition WriteString (n : Z) (v : string) (w : Writer) : Writer :=
  let v := String.list_byte_of_string v in writeRaw n v (writeUint n (zlen v) (writeField n w)).
Definition WriteDuration (n d : Z) (w : Writer) : Writer :=
  let '(sec, ns) := SplitDuration d in writeUint n ns (writeUint n sec (writeField n w)).
Definition WriteBigInt (n v : Z) (w : Writer) : Writer :=
  if v <? 0 then mkWriter (w_buf w) (Some "negative big int values are not supported"%string) n (w_written w)
  else WriteBytes n (big_Bytes v) w.
(** [WriteUrl] and [WriteTxid]: the string of the URL, empty for nil. *)
Definition WriteUrl (n : Z) (v : option string) (w : Writer) : Writer := WriteString n (default ""%string v) w.
(** [WriteValue]: what [marshal] returned. *)
Definition WriteValue (n : Z) (v : bytes + string) (w : Writer) : Writer :=
  match v with
  | inl b => WriteBytes n b (didMarshal n None w)
  | inr e => WriteBytes n [] (didMarshal n (Some e) w)
  end.
Definition WriteEnum (n v : Z) (w : Writer) : Writer := WriteUint n v w.

(** ** Reader *)

Inductive io_error := EOF | UnexpectedEOF | VarintOverflow.

(** [binary.ReadUvarint]: the value or the error, and what is left to read. *)
Definition ReadUvarint (data : bytes) : (Z + io_error) * bytes :=
  let '(v, n) := Uvarint (take 10 data) in
  if 0 <? n then (inl v, drop (Z.to_nat n) data)
  else if n <? 0 then (inr VarintOverflow, drop (Z.to_nat (- n)) data)
  else if 10 <=? zlen data then (inr VarintOverflow, drop 10 data)
  else if zlen data =? 0 then (inr EOF, [])
  else (inr UnexpectedEOF, []).

Definition ReadVarint (data : bytes) : (Z + io_error) * bytes :=
  let '(r, rest) := ReadUvarint data in
  (match r with inl v => inl (unzigzag v) | inr e => inr e end, rest).

(** [consumed] is what has been read, for [UnreadByte]. *)
Record Reader := mkReader {
  r_data : bytes; r_consumed : bytes; r_current : Z; r_seen : list bool; r_err : option string; r_last : Z
}.

Definition NewReader (data : bytes) : Reader := mkReader data [] 0 [] None 0.

(** The reader after the bytes up to [rest] are consumed. *)
Definition advance (rest : bytes) (r : Reader) : Reader :=
  mkReader rest (r_consumed r ++ take (length (r_data r) - length rest) (r_data r))
    (r_current r) (r_seen r) (r_err r) (r_last r).

Definition set_current (c : Z) (r : Reader) : Reader :=
  mkReader (r_data r) (r_consumed r) c (r_seen r) (r_err r) (r_last r).
Definition set_seen (s : list bool) (r : Reader) : Reader :=
  mkReader (r_data r) (r_consumed r) (r_current r) s (r_err r) (r_last r).
Definition set_err (last : Z) (e : string) (r : Reader) : Reader :=
  mkReader (r_data r) (r_consumed r) (r_current r) (r_seen r) (Some e) last.

Definition didRead (field : Z) (err : option string) (r : Reader) : Reader :=
  match r_err r with
  | Some _ => r
  | None => mkReader (r_data r) (r_consumed r) (r_current r) (r_seen r) err field
  end.

Definition readInt (field : Z) (r : Reader) : option Z * Reader :=
  match r_err r with
  | Some _ => (None, r)
  | None =>
      let '(v, rest) := ReadVarint (r_data r) in
      match v with
      | inl v => (Some v, didRead field None (advance rest r))
      | inr _ => (None, didRead field (Some "failed to read field"%string) (advance rest r))
      end
  end.

Definition readUint (field : Z) (r : Reader) : option Z * Reader :=
  match r_err r with
  | Some _ => (None, r)
  | None =>
      let '(v, rest) := ReadUvarint (r_data r) in
      match v with
      | inl v => (Some v, didRead field None (advance rest r))
      | inr _ => (None, didRead field (Some "failed to read field"%string) (advance rest r))
      end
  end.

Definition readRaw (field n : Z) (r : Reader) : option bytes * Reader :=
  match r_err r with
  | Some _ => (None, r)
  | None =>
      if n =? 0 then (Some [], r)
      else
        let r := if zlen (r_data r) <? n then didRead field (Some "failed to read field: EOF"%string) r else r in
        if MaxValueSize <=? n then (None, didRead field (Some "failed to read field: too big"%string) r)
        else if zlen (r_data r) <? n then
          (None, didRead field (Some "failed to read field: unexpected EOF"%string) (advance [] r))
        else (Some (take (Z.to_nat n) (r_data r)),
              didRead field None (advance (drop (Z.to_nat n) (r_data r)) r))
  end.

Definition Reader_Reset (r : Reader) : list bool * option string * Reader :=
  (r_seen r, r_err r, mkReader (r_data r) (r_consumed r) (r_current r) [] None 0).

(** Read the next field number; [seen] gets a flag for it and for the ones skipped. *)
Definition nextField (r : Reader) : bool * Reader :=
  let number (r : Reader) : bool * Reader :=
    let '(v, rest) := ReadUvarint (r_data r) in
    let r := advance rest r in
    match v with
    | inr EOF => (false, r)
    | inr _ => (false, set_err 0 "failed to read field number" r)
    | inl v =>
        if (v <? 1) || (32 <? v) then (false, set_err 0 "failed to read field number: field number is invalid" r)
        else
          let seen := r_seen r ++ replicate (Z.to_nat (v - 1) - length (r_seen r)) false ++ [true] in
          (true, set_seen seen (set_current v r))
    end in
  match r_seen r with
  | _ :: _ => number r
  | [] =>
      match r_data r with
      | [] => (false, r)
      | b :: rest =>
          if b2z b =? EmptyObject then (false, set_current EmptyObject (advance rest r))
          else number r
      end
  end.

Definition readField (field : Z) (r : Reader) : bool * Reader :=
  match r_err r with
  | Some _ => (false, r)
  | None =>
      if (field <? 1) || (32 <? field) then (false, set_err (r_last r) "field number is invalid" r)
      else
        let '(ok, r) := if r_current r =? 0 then nextField r else (true, r) in
        if negb ok then (false, r)
        else if r_current r <? field then (false, set_err 0 "fields are out of order" r)
        else if field <? r_current r then (false, r)
        else (true, set_current 0 r)
  end.

(** A field that is not there, or not readable, is [None]. *)
Definition with_field {A} (n : Z) (f : Reader -> option A * Reader) (r : Reader) : option A * Reader :=
  let '(ok, r) := readField n r in if ok : bool then f r else (None, r).

Definition ReadHash (n : Z) : Reader -> option bytes * Reader := with_field n (readRaw n 32).
Definition ReadInt (n : Z) : Reader -> option Z * Reader := with_field n (readInt n).
Definition ReadUint (n : Z) : Reader -> option Z * Reader := with_field n (readUint n).
Definition ReadFloat (n : Z) : Reader -> option Z * Reader :=
  with_field n (fun r => let '(b, r) := readRaw n 8 r in (be_value <$> b, r)).
Definition ReadBool (n : Z) : Reader -> option bool * Reader :=
  with_field n (fun r =>
    match readUint n r with
    | (None, r) => (None, r)
    | (Some v, r) =>
        if v =? 0 then (Some false, r) else if v =? 1 then (Some true, r)
        else (None, didRead n (Some "not a valid boolean"%string) r)
    end).
Definition ReadTime (n : Z) : Reader -> option Z * Reader :=
  with_field n (fun r => let '(v, r) := readInt n r in (FromUnix <$> v, r)).
Definition ReadBytes (n : Z) : Reader -> option bytes * Reader :=
  with_field n (fun r =>
    match readUint n r with
    | (None, r) => (None, r)
    | (Some l, r) => readRaw n l r
    end).
(** The length's error is noticed by [readRaw]. *)
Definition ReadString (n : Z) : Reader -> option string * Reader :=
  with_field n (fun r =>
    let '(l, r) := readUint n r in
    let '(v, r) := readRaw n (default 0 l) r in
    (String.string_of_list_byte <$> v, r)).
Definition ReadDuration (n : Z) : Reader -> option Z * Reader :=
  with_field n (fun r =>
    let '(sec, r) := readUint n r in
    let '(ns, r) := readUint n r in
    (JoinDuration (default 0 sec) <$> ns, r)).
Definition ReadBigInt (n : Z) : Reader -> option Z * Reader :=
  with_field n (fun r =>
    let '(l, r) := readUint n r in
    let '(v, r) := readRaw n (default 0 l) r in
    (big_SetBytes <$> v, r)).
(** [ReadUrl] and [ReadTxid], with the parser an argument; an empty string is nil. *)
Definition ReadUrl {U} (parse : string -> option U) (n : Z) (r : Reader) : option (option U) * Reader :=
  match ReadString n r with
  | (None, r) => (None, r)
  | (Some s, r) =>
      if bool_decide (s = ""%string) then (Some None, r)
      else match parse s with
           | Some u => (Some (Some u), didRead n None r)
           | None => (None, didRead n (Some "failed to parse url"%string) r)
           end
  end.
Definition ReadValue {A} (unmarshal : bytes -> option A) (n : Z) (r : Reader) : option A * Reader :=
  match ReadBytes n r with
  | (None, r) => (None, r)
  | (Some b, r) =>
      match unmarshal b with
      | Some v => (Some v, didRead n None r)
      | None => (None, didRead n (Some "failed to unmarshal value"%string) r)
      end
  end.
Definition ReadEnum (SetEnumValue : Z -> bool) (n : Z) (r : Reader) : option Z * Reader :=
  match ReadUint n r with
  | (None, r) => (None, r)
  | (Some u, r) =>
      if SetEnumValue u then (Some u, r)
      else (None, didRead n (Some "not a valid value"%string) r)
  end.

(** The rest of the data; the number of a field that was not read is put back. *)
Definition ReadAll (r : Reader) : bytes :=
  if r_current r =? EmptyObject then []
  else if negb (r_current r =? 0) then
    match last (r_consumed r) with Some b => b :: r_data r | None => r_data r end
  else r_data r.

(** ** Structs

    The values a field can hold, written and read by the methods above. *)

Inductive Kind := KHash | KInt64 | KUint64 | KBool | KTime | KBin | KStr | KBig.
Inductive FieldValue :=
  | FHash (v : bytes) | FInt (v : Z) | FUint (v : Z) | FBool (v : bool) | FTime (v : Z)
  | FBytes (v : bytes) | FString (v : string) | FBig (v : Z).

Definition kind_of (v : FieldValue) : Kind :=
  match v with
  | FHash _ => KHash | FInt _ => KInt64 | FUint _ => KUint64 | FBool _ => KBool | FTime _ => KTime
  | FBytes _ => KBin | FString _ => KStr | FBig _ => KBig
  end.

Definition write_value (n : Z) (v : FieldValue) : Writer -> Writer :=
  match v with
  | FHash v => WriteHash n v | FInt v => WriteInt n v | FUint v => WriteUint n v
  | FBool v => WriteBool n v | FTime v => WriteTime n v | FBytes v => WriteBytes n v
  | FString v => WriteString n v | FBig v => WriteBigInt n v
  end.

Definition omap_fst {A B} (f : A -> B) (p : option A * Reader) : option B * Reader := (f <$> fst p, snd p).

Definition read_value (n : Z) (k : Kind) (r : Reader) : option FieldValue * Reader :=
  match k with
  | KHash => omap_fst FHash (ReadHash n r) | KInt64 => omap_fst FInt (ReadInt n r)
  | KUint64 => omap_fst FUint (ReadUint n r) | KBool => omap_fst FBool (ReadBool n r)
  | KTime => omap_fst FTime (ReadTime n r) | KBin => omap_fst FBytes (ReadBytes n r)
  | KStr => omap_fst FString (ReadString n r) | KBig => omap_fst FBig (ReadBigInt n r)
  end.

(** A struct as the generated code handles it: fields in the order of their numbers,
    the absent ones not written. *)
Fixpoint write_struct (fields : list (Z * option FieldValue)) (w : Writer) : Writer :=
  match fields with
  | [] => w
  | (n, Some v) :: rest => write_struct rest (write_value n v w)
  | (_, None) :: rest => write_struct rest w
  end.

Fixpoint read_struct (schema : list (Z * Kind)) (r : Reader) : list (option FieldValue) * Reader :=
  match schema with
  | [] => ([], r)
  | (n, k) :: rest =>
      let '(v, r) := read_value n k r in
      let '(vs, r) := read_struct rest r in (v :: vs, r)
  end.
