(* ===== verification/CodecProofs.v ===== *)
(** * Correctness of the field encoding *)

From stdpp Require Import sorting.
From S2P Require Import Prelude Encoding Codec.
Import Binary.
Local Open Scope Z_scope.

(** ** The bytes of a field *)

Definition payload (v : FieldValue) : bytes :=
  match v with
  | FHash v => v
  | FInt v => PutVarint v
  | FTime v => PutVarint (Unix v)
  | FUint v => PutUvarint v
  | FBool v => PutUvarint (if v then 1 else 0)
  | FBytes v => PutUvarint (zlen v) ++ v
  | FString v => PutUvarint (zlen (String.list_byte_of_string v)) ++ String.list_byte_of_string v
  | FBig v => PutUvarint (zlen (big_Bytes v)) ++ big_Bytes v
  end.

Definition value_ok (v : FieldValue) : Prop :=
  match v with
  | FHash v => length v = 32%nat
  | FInt v => is_i64 v
  | FTime v => time_ok v
  | FUint v => is_u64 v
  | FBool _ => True
  | FBytes v => zlen v < MaxValueSize
  | FString v => zlen (String.list_byte_of_string v) < MaxValueSize
  | FBig v => 0 <= v /\ zlen (big_Bytes v) < MaxValueSize
  end.

Definition enc (f : Z * FieldValue) : bytes := PutUvarint (fst f) ++ payload (snd f).
Definition enc_all (fs : list (Z * FieldValue)) : bytes := mjoin (enc <$> fs).

Definition field_ok (n : Z) : Prop := 1 <= n <= 32.

Lemma put_uvarint_small f x : x < 0x80 -> put_uvarint (S f) x = [z2b x].
Proof. intros Hx. cbn [put_uvarint]. by rewrite (proj2 (Z.leb_gt _ _)) by lia. Qed.

Lemma PutUvarint_field n : field_ok n -> PutUvarint n = [z2b n].
Proof.
  intros Hn. unfold PutUvarint, field_ok in *. by apply put_uvarint_small; lia.
Qed.

Lemma ReadUvarint_ok v rest : is_u64 v -> ReadUvarint (PutUvarint v ++ rest) = (inl v, rest).
Proof.
  intros Hv. pose proof (zlen_PutUvarint v) as Hl. unfold ReadUvarint.
  assert (Htake : take 10 (PutUvarint v ++ rest) = PutUvarint v ++ take (10 - length (PutUvarint v)) rest).
  { rewrite take_app_ge by (unfold zlen in Hl; lia). done. }
  rewrite Htake, Uvarint_PutUvarint by done. rewrite (proj2 (Z.ltb_lt _ _)) by lia.
  f_equal. unfold zlen. by rewrite Nat2Z.id, drop_app_length.
Qed.

Lemma ReadVarint_ok v rest : is_i64 v -> ReadVarint (PutVarint v ++ rest) = (inl v, rest).
Proof.
  intros Hv. unfold ReadVarint, PutVarint. rewrite ReadUvarint_ok by apply zigzag_range.
  by rewrite zigzag_unzigzag.
Qed.

(** ** Writing *)

Definition wrote (w : Writer) (n : Z) (b : bytes) : Writer :=
  mkWriter (w_buf w ++ b) None n (w_written w + zlen b).

Lemma writeField_ok n w : w_err w = None -> field_ok n -> writeField n w = wrote w n (PutUvarint n).
Proof.
  intros He Hn. unfold writeField, unless_err. rewrite He. unfold field_ok in Hn.
  rewrite (proj2 (Z.ltb_ge _ _)), (proj2 (Z.ltb_ge 32 _)) by lia. cbn [orb].
  unfold did_write, wrote. by rewrite He.
Qed.

Lemma did_write_wrote w n b c : unless_err (did_write n c) (wrote w n b) = wrote w n (b ++ c).
Proof. unfold unless_err, did_write, wrote. simpl. rewrite app_assoc, zlen_app. f_equal. lia. Qed.

Lemma writeRaw_wrote w n b c : zlen c <= MaxValueSize -> writeRaw n c (wrote w n b) = wrote w n (b ++ c).
Proof.
  intros Hc. rewrite <- did_write_wrote. unfold writeRaw, unless_err. simpl.
  by rewrite (proj2 (Z.ltb_ge _ _)) by lia.
Qed.

Lemma write_value_ok n v w :
  w_err w = None -> field_ok n -> value_ok v -> write_value n v w = wrote w n (enc (n, v)).
Proof.
  intros He Hn Hv. unfold enc. simpl fst. simpl snd.
  destruct v as [v|v|v|v|v|v|v|v]; simpl in Hv; cbn [write_value payload];
    unfold WriteHash, WriteInt, WriteUint, WriteBool, WriteTime, WriteBytes, WriteString, WriteBigInt;
    try (rewrite (proj2 (Z.ltb_ge v 0)) by lia; unfold WriteBytes); cbv zeta;
    rewrite writeField_ok by done; unfold writeInt, writeUint; rewrite ?did_write_wrote; try done;
    rewrite writeRaw_wrote, ?app_assoc; try done; unfold zlen, MaxValueSize in *; lia.
Qed.

(** ** Reading *)

(** The reader between two methods, without an error. *)
Definition rstate (r : Reader) (data : bytes) (cur : Z) (seen : list bool) : Prop :=
  r_data r = data /\ r_current r = cur /\ r_seen r = seen /\ r_err r = None.

Lemma readUint_ok n v rest r c s :
  rstate r (PutUvarint v ++ rest) c s -> is_u64 v ->
  exists r', readUint n r = (Some v, r') /\ rstate r' rest c s.
Proof.
  intros (Hd & Hc & Hs & He) Hv. unfold readUint. rewrite He, Hd, ReadUvarint_ok by done.
  eexists. split; [done|]. unfold didRead. simpl. rewrite He. done.
Qed.

Lemma readInt_ok n v rest r c s :
  rstate r (PutVarint v ++ rest) c s -> is_i64 v ->
  exists r', readInt n r = (Some v, r') /\ rstate r' rest c s.
Proof.
  intros (Hd & Hc & Hs & He) Hv. unfold readInt. rewrite He, Hd, ReadVarint_ok by done.
  eexists. split; [done|]. unfold didRead. simpl. rewrite He. done.
Qed.

Lemma readRaw_ok n b rest r c s :
  rstate r (b ++ rest) c s -> zlen b < MaxValueSize ->
  exists r', readRaw n (zlen b) r = (Some b, r') /\ rstate r' rest c s.
Proof.
  intros (Hd & Hc & Hs & He) Hb. unfold readRaw. rewrite He.
  destruct (Z.eqb_spec (zlen b) 0) as [Hz|Hz].
  { destruct b; [|unfold zlen in Hz; simpl in Hz; lia]. by exists r. }
  pose proof (zlen_nonneg b). pose proof (zlen_nonneg rest).
  assert (Hlt : (zlen (r_data r) <? zlen b) = false) by (apply Z.ltb_ge; rewrite Hd, zlen_app; lia).
  rewrite Hlt, (proj2 (Z.leb_gt _ _)), Hlt by done. rewrite Hd. unfold zlen. rewrite Nat2Z.id.
  rewrite take_app_length, drop_app_length. eexists. split; [done|]. unfold didRead. simpl. rewrite He. done.
Qed.

Lemma zlen_is_u64 (b : bytes) : zlen b < MaxValueSize -> is_u64 (zlen b).
Proof. pose proof (zlen_nonneg b). unfold is_u64, MaxValueSize. lia. Qed.

(** Reading a value whose field number has been found. *)
Lemma read_value_ok n v rest r r1 c s :
  readField n r = (true, r1) -> rstate r1 (payload v ++ rest) c s -> value_ok v ->
  exists r', read_value n (kind_of v) r = (Some v, r') /\ rstate r' rest c s.
Proof.
  intros Hf Hr Hv.
  destruct v as [v|v|v|v|v|v|v|v]; cbn [read_value kind_of payload value_ok] in *;
    unfold ReadHash, ReadInt, ReadUint, ReadBool, ReadTime, ReadBytes, ReadString, ReadBigInt, with_field;
    rewrite Hf.
  - destruct (readRaw_ok n v rest r1 c s Hr) as (r' & E & Hr'); [unfold zlen, MaxValueSize; lia|].
    unfold zlen in E. rewrite Hv in E. change (Z.of_nat 32) with 32 in E. rewrite E. by exists r'.
  - destruct (readInt_ok n v rest r1 c s Hr Hv) as (r' & E & Hr'). rewrite E. by exists r'.
  - destruct (readUint_ok n v rest r1 c s Hr Hv) as (r' & E & Hr'). rewrite E. by exists r'.
  - destruct (readUint_ok n (if v then 1 else 0) rest r1 c s Hr) as (r' & E & Hr');
      [unfold is_u64; destruct v; lia|]. rewrite E. destruct v; by exists r'.
  - destruct Hv as [Hv Ht]. destruct (readInt_ok n (Unix v) rest r1 c s Hr Hv) as (r' & E & Hr'). rewrite E. exists r'. split; [|done].
    cbn. unfold omap_fst. cbn. do 3 f_equal. exact Ht.
  - rewrite <- app_assoc in Hr. destruct (readUint_ok n _ _ r1 c s Hr (zlen_is_u64 _ Hv)) as (r2 & E2 & Hr2).
    destruct (readRaw_ok n v rest r2 c s Hr2 Hv) as (r' & E & Hr'). rewrite E2, E. by exists r'.
  - rewrite <- app_assoc in Hr. destruct (readUint_ok n _ _ r1 c s Hr (zlen_is_u64 _ Hv)) as (r2 & E2 & Hr2).
    destruct (readRaw_ok n _ rest r2 c s Hr2 Hv) as (r' & E & Hr'). rewrite E2. cbn [default from_option]. unfold id.
    rewrite E. exists r'. split; [|done]. unfold omap_fst. simpl. by rewrite String.string_of_list_byte_of_string.
  - destruct Hv as [Hv0 Hv]. rewrite <- app_assoc in Hr.
    destruct (readUint_ok n _ _ r1 c s Hr (zlen_is_u64 _ Hv)) as (r2 & E2 & Hr2).
    destruct (readRaw_ok n _ rest r2 c s Hr2 Hv) as (r' & E & Hr'). rewrite E2. cbn [default from_option]. unfold id.
    rewrite E. exists r'. split; [|done]. unfold omap_fst. simpl. by rewrite big_SetBytes_Bytes.
Qed.

(** ** Field numbers *)

Definition see (seen : list bool) (n : Z) : list bool :=
  seen ++ replicate (Z.to_nat (n - 1) - length seen) false ++ [true].
Definition seen_of (ns : list Z) : list bool := foldl see [] ns.

Lemma see_nonempty s n : see s n <> [].
Proof. unfold see. destruct s; [|done]. simpl. by destruct (replicate _ _). Qed.

Lemma seen_of_snoc ns n : seen_of (ns ++ [n]) = see (seen_of ns) n.
Proof. unfold seen_of. by rewrite foldl_app. Qed.

Lemma nextField_ok n rest r s :
  rstate r (PutUvarint n ++ rest) 0 s -> field_ok n ->
  exists r', nextField r = (true, r') /\ rstate r' rest n (see s n).
Proof.
  intros (Hd & Hc & Hs & He) Hn. unfold field_ok in Hn.
  assert (Hnum : exists r', (let '(v, rest) := ReadUvarint (r_data r) in
    let r := advance rest r in
    match v with
    | inr EOF => (false, r)
    | inr _ => (false, set_err 0 "failed to read field number" r)
    | inl v =>
        if (v <? 1) || (32 <? v) then (false, set_err 0 "failed to read field number: field number is invalid" r)
        else (true, set_seen (r_seen r ++ replicate (Z.to_nat (v - 1) - length (r_seen r)) false ++ [true])
                      (set_current v r))
    end) = (true, r') /\ rstate r' rest n (see s n)).
  { rewrite Hd, ReadUvarint_ok by (unfold is_u64; lia).
    rewrite (proj2 (Z.ltb_ge n 1)), (proj2 (Z.ltb_ge 32 n)) by lia. eexists. split; [done|].
    unfold rstate, see. simpl. by rewrite Hs. }
  unfold nextField. destruct (r_seen r); [|exact Hnum].
  rewrite Hd, PutUvarint_field by done. simpl. rewrite b2z_z2b_small by lia.
  unfold EmptyObject. rewrite (proj2 (Z.eqb_neq _ _)) by lia.
  rewrite Hd, PutUvarint_field in Hnum by done. exact Hnum.
Qed.

(** The reader before the fields [rem], after those numbered [ns]. *)
Definition ready (r : Reader) (rem : list (Z * FieldValue)) (ns : list Z) : Prop :=
  match rem with
  | [] => rstate r [] 0 (seen_of ns) \/ (exists d, rstate r d EmptyObject (seen_of ns)) \/
          (ns = [] /\ rstate r [z2b EmptyObject] 0 [])
  | (n, v) :: rem' =>
      rstate r (enc_all rem) 0 (seen_of ns) \/
      rstate r (payload v ++ enc_all rem') n (seen_of (ns ++ [n]))
  end.

Lemma field_guard n : field_ok n -> (n <? 1) || (32 <? n) = false.
Proof. unfold field_ok. intros. by rewrite (proj2 (Z.ltb_ge _ _)), (proj2 (Z.ltb_ge 32 _)) by lia. Qed.

Lemma enc_all_cons f fs : enc_all (f :: fs) = PutUvarint (fst f) ++ payload (snd f) ++ enc_all fs.
Proof. unfold enc_all, enc. simpl. by rewrite <- app_assoc. Qed.

(** A field that is there. *)
Lemma readField_hit n v rem r ns :
  field_ok n -> ready r ((n, v) :: rem) ns ->
  exists r', readField n r = (true, r') /\ rstate r' (payload v ++ enc_all rem) 0 (seen_of (ns ++ [n])).
Proof.
  intros Hn Hr. unfold readField.
  assert (Hok : exists r1, (if r_current r =? 0 then nextField r else (true, r)) = (true, r1) /\
    rstate r1 (payload v ++ enc_all rem) n (seen_of (ns ++ [n]))).
  { unfold field_ok in Hn. destruct Hr as [Hr|Hr].
    - destruct Hr as (Hd & Hc & Hs & He). rewrite Hc, Z.eqb_refl. rewrite seen_of_snoc.
      apply nextField_ok; [|done]. rewrite enc_all_cons in Hd. done.
    - exists r. split; [|done]. destruct Hr as (_ & -> & _). by rewrite (proj2 (Z.eqb_neq _ _)) by lia. }
  assert (He : r_err r = None) by (destruct Hr as [Hr|Hr]; apply Hr).
  rewrite He, field_guard by done. destruct Hok as (r1 & -> & Hr1).
  destruct Hr1 as (Hd & Hc & Hs & He1). cbn [negb]. rewrite Hc, !Z.ltb_irrefl.
  eexists. split; [done|]. done.
Qed.

(** A field that is not there, before those that are. *)
Lemma readField_miss n rem r ns :
  field_ok n -> Forall (fun f => n < fst f <= 32) rem -> ready r rem ns ->
  exists r', readField n r = (false, r') /\ ready r' rem ns.
Proof.
  intros Hn Hgt Hr. unfold readField.
  assert (He : r_err r = None).
  { destruct rem as [|[n0 v] rem]; simpl in Hr.
    - destruct Hr as [Hr|[[d Hr]|[_ Hr]]]; apply Hr.
    - destruct Hr as [Hr|Hr]; apply Hr. }
  rewrite He, field_guard by done. unfold field_ok in Hn. destruct rem as [|[n0 v] rem]; simpl in Hr.
  - destruct Hr as [Hr|[[d Hr]|[-> Hr]]].
    + pose proof Hr as (Hd & Hc & Hs & _). rewrite Hc. simpl.
      assert (Hnf : exists r1, nextField r = (false, r1) /\ rstate r1 [] 0 (seen_of ns)).
      { unfold nextField. rewrite Hd. destruct (r_seen r) eqn:Es; [by exists r|].
        eexists. split; [reflexivity|]. unfold rstate. simpl. by rewrite Es, Hc. }
      destruct Hnf as (r1 & -> & Hr1). exists r1. split; [done|]. by left.
    + pose proof Hr as (Hd & Hc & Hs & _). rewrite Hc. simpl. unfold EmptyObject in *.
      rewrite (proj2 (Z.ltb_ge _ _)), (proj2 (Z.ltb_lt _ _)) by lia. exists r. split; [done|].
      right; left. by exists d.
    + destruct Hr as (Hd & Hc & Hs & _). rewrite Hc. simpl. unfold nextField. rewrite Hs, Hd. simpl.
      eexists. split; [done|]. right; left. by eexists.
  - inversion Hgt as [|? ? Hn0 Hgt']; subst. simpl in Hn0.
    assert (Hok : exists r1, (if r_current r =? 0 then nextField r else (true, r)) = (true, r1) /\
      rstate r1 (payload v ++ enc_all rem) n0 (seen_of (ns ++ [n0]))).
    { destruct Hr as [Hr|Hr].
      - destruct Hr as (Hd & Hc & Hs & He'). rewrite Hc. simpl. rewrite seen_of_snoc.
        apply nextField_ok; [|unfold field_ok; lia]. rewrite enc_all_cons in Hd. done.
      - exists r. split; [|done]. destruct Hr as (_ & -> & _). by rewrite (proj2 (Z.eqb_neq _ _)) by lia. }
    destruct Hok as (r1 & -> & Hr1). pose proof Hr1 as (Hd & Hc & Hs & He1). cbn [negb]. rewrite Hc.
    rewrite (proj2 (Z.ltb_ge _ _)), (proj2 (Z.ltb_lt _ _)) by lia. exists r1. split; [done|]. by right.
Qed.

Lemma read_value_miss n k r r' : readField n r = (false, r') -> read_value n k r = (None, r').
Proof.
  intros Hf. destruct k; cbn [read_value];
    unfold ReadHash, ReadInt, ReadUint, ReadBool, ReadTime, ReadBytes, ReadString, ReadBigInt, with_field;
    by rewrite Hf.
Qed.

(** ** Structs *)

(** A schema with a kind for every field, and a value or none. *)
Definition present (fields : list (Z * (Kind * option FieldValue))) : list (Z * FieldValue) :=
  omap (fun f => pair (fst f) <$> snd (snd f)) fields.
Definition schema (fields : list (Z * (Kind * option FieldValue))) : list (Z * Kind) :=
  (fun f => (fst f, fst (snd f))) <$> fields.
Definition object (fields : list (Z * (Kind * option FieldValue))) : list (Z * option FieldValue) :=
  (fun f => (fst f, snd (snd f))) <$> fields.

Definition entry_ok (f : Z * (Kind * option FieldValue)) : Prop :=
  field_ok (fst f) /\ match snd (snd f) with Some v => value_ok v /\ kind_of v = fst (snd f) | None => True end.

Definition ascending (fields : list (Z * (Kind * option FieldValue))) : Prop :=
  StronglySorted (fun f g => fst f < fst g) fields.

Lemma present_gt n fields :
  Forall entry_ok fields -> Forall (fun g => n < fst g) fields -> Forall (fun f => n < fst f <= 32) (present fields).
Proof.
  intros Hok Hgt. induction fields as [|[m [k o]] fields IH]; simpl; [constructor|].
  apply Forall_cons in Hok as [Hf Hok]. apply Forall_cons in Hgt as [Hm Hgt].
  destruct o as [v|]; [|by apply IH]. constructor; [|by apply IH].
  destruct Hf as [Hf _]. simpl in *. unfold field_ok in Hf. lia.
Qed.

Lemma write_struct_ok fields w :
  Forall entry_ok fields -> w_err w = None ->
  w_err (write_struct (object fields) w) = None /\
  w_buf (write_struct (object fields) w) = w_buf w ++ enc_all (present fields) /\
  w_written (write_struct (object fields) w) = w_written w + zlen (enc_all (present fields)).
Proof.
  revert w. induction fields as [|[n [k [v|]]] fields IH]; intros w Hok He; simpl.
  - split; [done|]. split; [by rewrite app_nil_r|]. change (zlen _) with 0. lia.
  - apply Forall_cons in Hok as [Hf Hok']. destruct Hf as [Hf [Hv _]]. rewrite write_value_ok by done.
    destruct (IH (wrote w n (enc (n, v))) Hok' eq_refl) as (-> & -> & ->). split; [done|].
    rewrite enc_all_cons. unfold enc. simpl. split; [by rewrite <- !app_assoc|]. rewrite !zlen_app. lia.
  - inversion Hok; subst. by apply IH.
Qed.

Lemma read_struct_ok fields : forall r ns,
  Forall entry_ok fields -> ascending fields -> ready r (present fields) ns ->
  exists r', read_struct (schema fields) r = ((object fields).*2, r') /\
    ready r' [] (ns ++ (present fields).*1).
Proof.
  induction fields as [|[n [k [v|]]] fields IH]; intros r ns Hok Hasc Hr; simpl in *.
  - exists r. by rewrite app_nil_r.
  - apply Forall_cons in Hok as [Hf Hok']. destruct Hf as [Hf [Hv Hk]]. simpl in Hk. subst k.
    inversion Hasc as [|? ? Hasc' Hgt]; subst. simpl in *.
    destruct (readField_hit n v _ r ns Hf Hr) as (r1 & E1 & Hr1).
    destruct (read_value_ok n v _ r r1 0 _ E1 Hr1 Hv) as (r2 & E2 & Hr2). rewrite E2.
    destruct (IH r2 (ns ++ [n]) Hok' Hasc') as (r3 & E3 & Hr3).
    { destruct (present fields) as [|[n' v'] rem] eqn:Ep; left; [|done]. done. }
    rewrite E3. exists r3. split; [done|]. by rewrite <- app_assoc in Hr3.
  - apply Forall_cons in Hok as [Hf Hok']. destruct Hf as [Hf _].
    inversion Hasc as [|? ? Hasc' Hgt]; subst. simpl in *.
    destruct (readField_miss n (present fields) r ns Hf (present_gt _ _ Hok' Hgt) Hr) as (r1 & E1 & Hr1).
    rewrite (read_value_miss _ _ _ _ E1). destruct (IH r1 ns Hok' Hasc' Hr1) as (r2 & E2 & Hr2).
    rewrite E2. by exists r2.
Qed.

(** ** The seen flags *)

Lemma length_seen_of ns : StronglySorted Z.lt ns -> Forall field_ok ns ->
  length (seen_of ns) = Z.to_nat (default 0 (last ns)).
Proof.
  induction ns as [|n ns IH] using rev_ind; intros Hs Hf; [done|].
  rewrite seen_of_snoc, last_snoc. simpl. apply StronglySorted_app in Hs as (Hlt & Hs & _).
  apply Forall_app in Hf as [Hf Hn]. apply Forall_inv in Hn. unfold field_ok in Hn.
  unfold see. rewrite !length_app, length_replicate, IH by done. simpl.
  destruct (last ns) as [m|] eqn:El; simpl; [|lia].
  assert (m < n) by (apply Hlt; [by apply last_Some_elem_of|left]).
  apply last_Some in El as [ns' ->]. apply Forall_app in Hf as [_ Hm]. apply Forall_inv in Hm.
  unfold field_ok in Hm. lia.
Qed.

(** Field [n] is flagged at index [n-1], exactly when it was there. *)
Lemma seen_of_lookup ns n : StronglySorted Z.lt ns -> Forall field_ok ns -> field_ok n ->
  seen_of ns !! Z.to_nat (n - 1) = Some true <-> n ∈ ns.
Proof.
  intros Hs Hf Hn. unfold field_ok in Hn. induction ns as [|m ns IH] using rev_ind.
  { split; [done|intros Hx; by apply not_elem_of_nil in Hx]. }
  pose proof Hs as Hs'. apply StronglySorted_app in Hs as (Hlt & Hs & _).
  pose proof Hf as Hf'. apply Forall_app in Hf as [Hf Hm]. apply Forall_inv in Hm. unfold field_ok in Hm.
  rewrite seen_of_snoc, elem_of_app, list_elem_of_singleton. specialize (IH Hs Hf).
  pose proof (length_seen_of ns Hs Hf) as Hlen.
  assert (Hlast : (length (seen_of ns) <= Z.to_nat (m - 1))%nat).
  { rewrite Hlen. destruct (last ns) as [x|] eqn:El; simpl; [|lia].
    assert (x < m) by (apply Hlt; [by apply last_Some_elem_of|left]). lia. }
  unfold see. destruct (decide (Z.to_nat (n - 1) < length (seen_of ns))%nat) as [Hl|Hl].
  - rewrite lookup_app_l, IH by done. split; [by left|]. intros [?|E]; [done|]. lia.
  - rewrite lookup_app_r by lia.
    assert (Hnin : n ∉ ns).
    { intros Hin. apply IH in Hin. apply lookup_lt_Some in Hin. lia. }
    rewrite lookup_app_Some, lookup_replicate, length_replicate, list_lookup_singleton_Some.
    split; [intros [[? _]|(Hge & Hi & _)]; [done|right; lia]|]. intros [?|E]; [done|]. right. subst m.
    split; [lia|]. split; [lia|done].
Qed.

(** ** Properties *)

Definition marshal_struct (fields : list (Z * option FieldValue)) : res bytes :=
  match Writer_Reset (write_struct fields NewWriter) with
  | (_, _, None, b) => Ok b
  | (_, _, Some e, _) => errorf e
  end.

(** Structs round trip: for any ascending schema of field numbers and any object with
    values of the right kinds, present or not, writing the present fields and reading the
    whole schema gives back every field, present or absent, with no error; and the flags
    returned by [Reset] hold, at index [n-1], whether field [n] was there. *)
Theorem struct_roundtrip (fields : list (Z * (Kind * option FieldValue)))
  (Hok : Forall entry_ok fields) (Hasc : ascending fields) :
  exists data r, marshal_struct (object fields) = Ok data /\
    read_struct (schema fields) (NewReader data) = ((object fields).*2, r) /\ r_err r = None /\
    (forall n, field_ok n -> r_seen r !! Z.to_nat (n - 1) = Some true <-> n ∈ (present fields).*1).
Proof.
  destruct (write_struct_ok fields NewWriter Hok eq_refl) as (He & Hb & Hw).
  unfold marshal_struct, Writer_Reset. rewrite Hw. simpl w_written. simpl in Hb.
  set (data := if present fields is [] then [z2b EmptyObject] else enc_all (present fields)).
  exists data.
  assert (Hready : ready (NewReader data) (present fields) []).
  { unfold data. destruct (present fields) as [|[n v] rem]; [right; right|left]; done. }
  destruct (read_struct_ok fields (NewReader data) [] Hok Hasc Hready) as (r & E & Hr). exists r.
  split.
  - unfold data. destruct (present fields) as [|[n v] rem] eqn:Ep.
    + simpl. rewrite He, Hb. done.
    + rewrite (proj2 (Z.eqb_neq _ _)), He, Hb; [done|]. rewrite enc_all_cons, !zlen_app.
      pose proof (zlen_PutUvarint n). simpl fst. pose proof (zlen_nonneg (payload v)).
      pose proof (zlen_nonneg (enc_all rem)). simpl snd. lia.
  - split; [done|]. simpl in Hr.
    assert (Hseen : r_seen r = seen_of (present fields).*1 /\ r_err r = None).
    { destruct Hr as [Hr|[[d Hr]|[Hn Hr]]].
      - split; apply Hr.
      - split; apply Hr.
      - rewrite Hn. split; apply Hr. }
    destruct Hseen as [Hs Hr_err]. split; [done|]. intros n Hn. rewrite Hs. apply seen_of_lookup; [| |done].
    + clear -Hasc. induction Hasc as [|[n [k [v|]]] fields Hs IH Hf]; simpl; [constructor| |done].
      constructor; [done|]. clear -Hf. induction Hf as [|[m [k' [v'|]]] fs Hm Hf IH]; simpl; [constructor| |done].
      by constructor.
    + clear -Hok. induction Hok as [|[n [k [v|]]] fields Hf Hok IH]; simpl; [constructor| |done].
      constructor; [apply Hf|done].
Qed.

Definition demo_fields : list (Z * (Kind * option FieldValue)) :=
  [(1, (KUint64, Some (FUint 300))); (2, (KStr, None)); (3, (KStr, Some (FString "acc://foo")));
   (5, (KBool, Some (FBool true)))].

Lemma struct_roundtrip_witness :
  exists data r, marshal_struct (object demo_fields) = Ok data /\
    read_struct (schema demo_fields) (NewReader data) = ((object demo_fields).*2, r) /\ r_err r = None.
Proof.
  destruct (struct_roundtrip demo_fields) as (data & r & E & Er & He & _).
  - repeat constructor; done.
  - repeat constructor.
  - by exists data, r.
Defined.

(** The first field of a reader. *)
Lemma readField_first n rest : field_ok n ->
  exists r, readField n (NewReader (PutUvarint n ++ rest)) = (true, r) /\ rstate r rest 0 (see [] n).
Proof.
  intros Hn. unfold readField. simpl r_err. rewrite field_guard by done. simpl r_current. cbn [Z.eqb].
  destruct (nextField_ok n rest (NewReader (PutUvarint n ++ rest)) [] ltac:(done) Hn) as (r1 & E1 & Hr1).
  rewrite E1. cbn [negb]. destruct Hr1 as (Hd & Hc & Hs & He). rewrite Hc, !Z.ltb_irrefl.
  eexists. split; [reflexivity|]. done.
Qed.

(** A value of exactly [MaxValueSize] bytes is written without an error but cannot be
    read back: the writer refuses values above the limit, the reader those at it. *)
Theorem max_size_not_readable (n : Z) (b : bytes) (Hn : field_ok n) (Hb : zlen b = MaxValueSize) :
  exists w r, WriteBytes n b NewWriter = w /\ w_err w = None /\
    ReadBytes n (NewReader (w_buf w)) = (None, r) /\ is_Some (r_err r).
Proof.
  assert (Hw : WriteBytes n b NewWriter = wrote NewWriter n (PutUvarint n ++ PutUvarint (zlen b) ++ b)).
  { unfold WriteBytes, writeUint. rewrite writeField_ok by done.
    rewrite did_write_wrote, writeRaw_wrote by lia. by rewrite <- app_assoc. }
  eexists. destruct (readField_first n (PutUvarint (zlen b) ++ b) Hn) as (r1 & E1 & Hr1).
  destruct (readUint_ok n (zlen b) b r1 0 (see [] n) Hr1) as (r2 & E2 & Hr2).
  { unfold is_u64. rewrite Hb. unfold MaxValueSize. lia. }
  destruct Hr2 as (Hd2 & _ & _ & He2).
  exists (didRead n (Some "failed to read field: too big"%string) r2). split; [reflexivity|]. rewrite Hw.
  split; [done|]. simpl w_buf. unfold ReadBytes, with_field. rewrite E1, E2. unfold readRaw. rewrite He2, Hb.
  change (MaxValueSize =? 0) with false. rewrite Hd2, Hb, Z.ltb_irrefl, Z.leb_refl.
  split; [reflexivity|]. unfold didRead. rewrite He2. by eexists.
Qed.

Lemma max_size_not_readable_witness :
  exists w r, WriteBytes 1 (replicate (Z.to_nat MaxValueSize) Byte.x00) NewWriter = w /\ w_err w = None /\
    ReadBytes 1 (NewReader (w_buf w)) = (None, r) /\ is_Some (r_err r).
Proof.
  apply (max_size_not_readable 1 (replicate (Z.to_nat MaxValueSize) Byte.x00)).
  - unfold field_ok. lia.
  - unfold zlen. rewrite length_replicate. apply Z2Nat.id. done.
Defined.

(** A repeated field shifts the flags of the fields after it: after two values of field
    1 and nothing else, the flag of field 2 is set. *)
Theorem repeated_field_shifts_seen :
  let w := WriteUint 1 7 (WriteUint 1 6 NewWriter) in
  let '(a, r) := ReadUint 1 (NewReader (w_buf w)) in
  let '(b, r) := ReadUint 1 r in
  let '(c, r) := ReadUint 2 r in
  a = Some 6 /\ b = Some 7 /\ c = None /\ r_seen r !! 1%nat = Some true.
Proof. vm_compute. split_and!; reflexivity. Qed.

Lemma JoinDuration_Split d :
  0 <= d < 2 ^ 22 * second ->
  JoinDuration (u64 (Z.quot d second)) (u64 (d - Duration_Round d)) =
  if Z.rem d second + Z.rem d second <? second then d else d - second.
Proof.
  intros Hd. unfold JoinDuration, Duration_Round. set (s := second) in *.
  assert (Hs : s = 1000000000) by reflexivity. clearbody s.
  pose proof (Z.quot_rem' d s) as Hqr. pose proof (Z.rem_bound_pos d s ltac:(lia) ltac:(lia)).
  assert (0 <= Z.quot d s) by (apply Z.quot_pos; lia).
  set (q := Z.quot d s) in *. set (f := Z.rem d s) in *. clearbody q f.
  assert (Hq : q < 4194304) by nia.
  rewrite (u64_small q) by (unfold is_u64; lia). rewrite (i64_small q) by (unfold is_i64; lia).
  rewrite (i64_small (q * _)) by (unfold is_i64; nia).
  destruct (Z.ltb_spec (f + f) s).
  - rewrite u64_small by (unfold is_u64; lia). rewrite (i64_small (d - _)), i64_small by (unfold is_i64; nia). lia.
  - rewrite i64_u64 by (unfold is_i64; lia). rewrite i64_small by (unfold is_i64; nia). lia.
Qed.

(** A duration with a fraction of half a second or more is read back one second short;
    with a smaller fraction it is read back as written. *)
Theorem duration_roundtrip (n d : Z) (Hn : field_ok n) (Hd : 0 <= d < 2 ^ 22 * second) :
  exists r, ReadDuration n (NewReader (w_buf (WriteDuration n d NewWriter))) =
    (Some (if Z.rem d second + Z.rem d second <? second then d else d - second), r) /\ r_err r = None.
Proof.
  set (sec := u64 (Z.quot d second)). set (ns := u64 (d - Duration_Round d)).
  assert (Hw : w_buf (WriteDuration n d NewWriter) = PutUvarint n ++ PutUvarint sec ++ PutUvarint ns).
  { unfold WriteDuration, SplitDuration. fold sec ns. unfold writeUint. rewrite writeField_ok by done.
    rewrite !did_write_wrote. cbn [w_buf wrote NewWriter app]. by rewrite <- app_assoc. }
  rewrite Hw. destruct (readField_first n (PutUvarint sec ++ PutUvarint ns) Hn) as (r1 & E1 & Hr1).
  destruct (readUint_ok n sec _ r1 0 _ Hr1 (u64_range _)) as (r2 & E2 & Hr2).
  rewrite <- (app_nil_r (PutUvarint ns)) in Hr2.
  destruct (readUint_ok n ns _ r2 0 _ Hr2 (u64_range _)) as (r3 & E3 & Hr3).
  exists r3. split; [|apply Hr3]. unfold ReadDuration, with_field. rewrite E1, E2, E3.
  cbn [default from_option fmap option_fmap option_map]. unfold id. f_equal. f_equal.
  apply JoinDuration_Split. exact Hd.
Qed.

Lemma duration_roundtrip_witness :
  exists r, ReadDuration 1 (NewReader (w_buf (WriteDuration 1 1600000000 NewWriter))) = (Some 600000000, r) /\
    r_err r = None.
Proof.
  apply (duration_roundtrip 1 1600000000); [unfold field_ok; lia|unfold second; lia].
Defined.

(** Fields must be read in order: when the next field of the data has a smaller number
    than the one asked for, the reader records an error and reads nothing more. *)
Theorem out_of_order_error (n m : Z) (rest : bytes) (Hn : field_ok n) (Hm : field_ok m) (Hlt : n < m) :
  exists r, readField m (NewReader (PutUvarint n ++ rest)) = (false, r) /\
    r_err r = Some "fields are out of order"%string /\
    (forall k, field_ok k -> readField k r = (false, r)).
Proof.
  unfold readField at 1. simpl r_err. rewrite field_guard by done. simpl r_current. cbn [Z.eqb].
  destruct (nextField_ok n rest (NewReader (PutUvarint n ++ rest)) [] ltac:(done) Hn) as (r1 & E1 & Hr1).
  rewrite E1. cbn [negb]. destruct Hr1 as (Hd & Hc & Hs & He). rewrite Hc, (proj2 (Z.ltb_lt _ _)) by done.
  eexists. split; [reflexivity|]. split; [done|]. intros k Hk. done.
Qed.

Lemma out_of_order_error_witness :
  exists r, readField 2 (NewReader (PutUvarint 1 ++ [Byte.x00])) = (false, r) /\
    r_err r = Some "fields are out of order"%string.
Proof.
  destruct (out_of_order_error 1 2 [Byte.x00]) as (r & E & He & _); [unfold field_ok; lia..|].
  by exists r.
Defined.
