(* ===== verification/Storage.v ===== *)
(** * Storage keys and the in-memory key-value store: [smt/storage/keys.go],
      [keyvaluedb.go], [memory/db.go], [memory/batch.go]

    [KeyValueTxn] is the interface the record layer and the Patricia tree are
    written against; a stack of batches over the memory database implements it, and
    is shown to be the overlay of its maps. *)

From S2P Require Import Prelude Sha256 Encoding.
Local Open Scope Z_scope.

(** ** Keys *)

Definition Key : Type := bytes.

Definition Key_zero : Key := replicate 32 Byte.x00.

(** The key components the code uses, and [encoding.AsBytes] of them. *)
Inductive KeyPart :=
  | KNil
  | KBytes (b : bytes)
  | KString (s : string)
  | KUint (v : Z)
  | KInt (v : Z).

Definition AsBytes (v : KeyPart) : bytes :=
  match v with
  | KNil => []
  | KBytes b => b
  | KString s => String.list_byte_of_string s
  | KUint v => Common.Uint64Bytes v
  | KInt v => Common.Int64Bytes v
  end.

Fixpoint Key_Append (k : Key) (key : list KeyPart) : Key :=
  match key with
  | [] => k
  | p :: key' => Key_Append (sha256 (k ++ AsBytes p)) key'
  end.

(** [MakeKey] of parts whose first is not itself a storage key. *)
Definition MakeKey (keys : list KeyPart) : Key := Key_Append Key_zero keys.

(** ** Transactions *)

Class KeyValueTxn (S : Type) := {
  kv_Get : Key -> S -> res bytes;
  kv_Put : Key -> bytes -> S -> res S
}.

(** What a client relies on: a readable map, updated by a write. *)
Class KeyValueLaws (S : Type) `{KeyValueTxn S} := {
  kv_view : S -> gmap Key bytes;
  kv_writable : S -> Prop;
  kv_Get_view k s : kv_writable s ->
    match kv_view s !! k with
    | Some v => kv_Get k s = Ok v
    | None => exists e, kv_Get k s = Err e /\ is_not_found e = true
    end;
  kv_Put_view k v s : kv_writable s ->
    exists s', kv_Put k v s = Ok s' /\ kv_writable s' /\ kv_view s' = <[k := v]> (kv_view s)
}.

(** ** The memory database

    The mutex is part of the state: [commit] takes it before the open check and
    releases it only after that check.  Locking a held mutex blocks for ever. *)

Record DB := mkDB { DBOpen : bool; entries : gmap Key bytes; mutex : bool }.

Definition DB_New : DB := mkDB true ∅ false.

Definition Lock (m : DB) : res DB :=
  if mutex m then Panic "all goroutines are asleep - deadlock!"
  else Ok (mkDB (DBOpen m) (entries m) true).
Definition Unlock (m : DB) : DB := mkDB (DBOpen m) (entries m) false.

Definition ErrNotOpen : error := mkError StatusInternalError "not open".

(** The result and the state after the call. *)
Definition DB_commit (txCache : gmap Key bytes) (m : DB) : res (res unit * DB) :=
  let! m := Lock m in
  if negb (DBOpen m) then Ok (Err ErrNotOpen, m)
  else Ok (Ok tt, Unlock (mkDB (DBOpen m) (txCache ∪ entries m) (mutex m))).

Definition Export (m : DB) : res (option (gmap Key bytes) * DB) :=
  let! m := Lock m in
  if negb (DBOpen m) then Ok (None, Unlock m) else Ok (Some (entries m), Unlock m).

Definition DB_Copy (m : DB) : res (DB * DB) :=
  let! (ex, m) := Export m in Ok (mkDB true (default ∅ ex) false, m).

Definition Close (m : DB) : res (res unit * DB) :=
  let! m := Lock m in
  if negb (DBOpen m) then Ok (Ok tt, Unlock m) else Ok (Ok tt, Unlock (mkDB false ∅ (mutex m))).

Definition DB_get (key : Key) (m : DB) : res (res bytes * DB) :=
  let! m := Lock m in
  if negb (DBOpen m) then Ok (Err ErrNotOpen, Unlock m)
  else match entries m !! key with
       | None => Ok (errors_new StatusNotFound "key not found", Unlock m)
       | Some v => Ok (Ok v, Unlock m)
       end.

(** ** Batches

    A batch holds the functions [get] and [commit] of what it was begun from: the
    database or another batch.  [values] is nil after [Commit] or [Discard]; a
    batch begun without [writable], or from one that is not, has no [commit]. *)

Inductive Txn :=
  | Base (db : DB)
  | Batch (commit : bool) (values : option (gmap Key bytes)) (parent : Txn).

(** [DB.Begin] and [Batch.Begin]. *)
Definition Begin (writable : bool) (t : Txn) : Txn :=
  match t with
  | Base _ => Batch writable (Some ∅) t
  | Batch commit _ _ => Batch (commit && writable) (Some ∅) t
  end.

Fixpoint Txn_Get (key : Key) (t : Txn) : res bytes :=
  match t with
  | Base db => let! (r, _) := DB_get key db in r
  | Batch _ values parent =>
      match default ∅ values !! key with
      | Some v => Ok v
      | None => Txn_Get key parent
      end
  end.

(** [PutAll]; writing to a nil map panics, unless there is nothing to write. *)
Definition PutAll (kvs : gmap Key bytes) (t : Txn) : res Txn :=
  match t with
  | Base _ => errorf "not a transaction"
  | Batch commit values parent =>
      if negb commit then errorf "transaction is not writable"
      else match values with
           | Some m => Ok (Batch commit (Some (kvs ∪ m)) parent)
           | None => if decide (kvs = ∅) then Ok t else Panic "assignment to entry in nil map"
           end
  end.

Definition Txn_Put (key : Key) (value : bytes) (t : Txn) : res Txn :=
  match t with
  | Base _ => errorf "not a transaction"
  | Batch commit values parent =>
      if negb commit then errorf "transaction is not writable"
      else match values with
           | Some m => Ok (Batch commit (Some (<[key := value]> m)) parent)
           | None => Panic "assignment to entry in nil map"
           end
  end.

(** [Commit]: the error, and the transaction or database the batch was begun from. *)
Definition Txn_Commit (t : Txn) : res (res unit * Txn) :=
  match t with
  | Base _ => errorf "not a transaction"
  | Batch commit values parent =>
      let kvs := default ∅ values in
      if negb commit then Ok (Ok tt, parent)
      else match parent with
           | Base db => let! (r, db) := DB_commit kvs db in Ok (r, Base db)
           | Batch _ _ _ =>
               match PutAll kvs parent with
               | Ok parent => Ok (Ok tt, parent)
               | Err e => Ok (Err e, parent)
               | Panic m => Panic m
               end
           end
  end.

Definition Discard (t : Txn) : Txn :=
  match t with
  | Base _ => t
  | Batch commit _ parent => Batch commit None parent
  end.

#[global] Instance txn_kv : KeyValueTxn Txn := { kv_Get := Txn_Get; kv_Put := Txn_Put }.

(** ** The overlay *)

Fixpoint txn_view (t : Txn) : gmap Key bytes :=
  match t with
  | Base db => entries db
  | Batch _ values parent => default ∅ values ∪ txn_view parent
  end.

(** An open database that is not locked, under batches that are still open. *)
Fixpoint txn_live (t : Txn) : Prop :=
  match t with
  | Base db => DBOpen db = true /\ mutex db = false
  | Batch _ values parent => is_Some values /\ txn_live parent
  end.

Definition txn_writable (t : Txn) : Prop :=
  txn_live t /\ exists values parent, t = Batch true values parent.

Lemma Txn_Get_view k t : txn_live t -> Txn_Get k t =
  match txn_view t !! k with
  | Some v => Ok v
  | None => errors_new StatusNotFound "key not found"
  end.
Proof.
  induction t as [db|c values parent IH]; simpl.
  - intros [Ho Hm]. unfold DB_get, Lock. rewrite Hm. simpl. rewrite Ho. simpl.
    by destruct (entries db !! k).
  - intros [[m ->] Hl]. simpl. rewrite lookup_union.
    destruct (m !! k) as [v|]; simpl.
    + by destruct (txn_view parent !! k).
    + rewrite IH by done. by destruct (txn_view parent !! k).
Qed.

#[global] Program Instance txn_laws : KeyValueLaws Txn :=
  { kv_view := txn_view; kv_writable := txn_writable }.
Next Obligation.
  intros k s [Hl _]. simpl. rewrite Txn_Get_view by done.
  destruct (txn_view s !! k); [done|]. by eexists.
Qed.
Next Obligation.
  intros k v s [Hl (values & parent & ->)]. destruct Hl as [[m ->] Hl]. simpl.
  eexists. split; [done|]. split.
  - split; [by split; [eexists|]|]. by eexists _, _.
  - simpl. by rewrite insert_union_l.
Qed.

(** Committing a writable batch begun from a live transaction succeeds and makes
    the parent read exactly as the batch did; until then, and for ever if the batch is
    discarded, the parent is unchanged. *)
Theorem Txn_Commit_view (t parent : Txn) (values : gmap Key bytes)
  (Ht : t = Batch true (Some values) parent) (Hl : txn_live parent)
  (Hw : match parent with Base _ => True | Batch c _ _ => c = true end) :
  exists parent', Txn_Commit t = Ok (Ok tt, parent') /\ txn_live parent' /\
    (forall k, Txn_Get k parent' = Txn_Get k t).
Proof.
  assert (Hview : exists parent', Txn_Commit t = Ok (Ok tt, parent') /\ txn_live parent' /\
    txn_view parent' = txn_view t).
  { subst t. destruct parent as [db|c m grand].
    - destruct Hl as [Ho Hm]. simpl. unfold DB_commit, Lock. rewrite Hm. simpl. rewrite Ho. simpl.
      by eexists.
    - destruct Hl as [[m' ->] Hl]. subst c. simpl. eexists. split; [done|]. split.
      + by split; [eexists|].
      + simpl. by rewrite (assoc_L (∪)). }
  destruct Hview as (parent' & He & Hl' & Hv). exists parent'. split; [done|]. split; [done|].
  intros k. rewrite !Txn_Get_view; [by rewrite Hv| |done]. subst t. by split; [eexists|].
Qed.

Lemma Txn_Commit_view_witness :
  exists parent', Txn_Commit (Batch true (Some {[ Key_zero := [Byte.x01] ]}) (Begin true (Base DB_New)))
      = Ok (Ok tt, parent') /\ txn_live parent' /\ Txn_Get Key_zero parent' = Ok [Byte.x01].
Proof.
  destruct (Txn_Commit_view (Batch true (Some {[ Key_zero := [Byte.x01] ]}) (Begin true (Base DB_New)))
    (Begin true (Base DB_New)) {[ Key_zero := [Byte.x01] ]} eq_refl) as (p' & He & Hl & Hg).
  - simpl. split; [by eexists|done].
  - done.
  - exists p'. split; [done|]. split; [done|]. rewrite Hg. vm_compute. reflexivity.
Defined.

(** Committing to a closed database returns an error with the mutex still held:
    every later read, export, commit or close blocks. *)
Theorem DB_commit_closed_deadlock (m : DB) (kvs : gmap Key bytes)
  (Hm : mutex m = false) (Hc : DBOpen m = false) :
  exists m', DB_commit kvs m = Ok (Err ErrNotOpen, m') /\
    (forall k, is_Panic (DB_get k m') = true) /\ is_Panic (Export m') = true /\
    is_Panic (Close m') = true.
Proof.
  unfold DB_commit, Lock. rewrite Hm. simpl. rewrite Hc. simpl. by eexists.
Qed.

Lemma DB_commit_closed_deadlock_witness :
  exists m', DB_commit ∅ (mkDB false ∅ false) = Ok (Err ErrNotOpen, m') /\
    (forall k, is_Panic (DB_get k m') = true).
Proof.
  destruct (DB_commit_closed_deadlock (mkDB false ∅ false) ∅ eq_refl eq_refl) as (m' & He & Hg & _).
  by exists m'.
Defined.
