(* ===== verification/MerkleTree.v ===== *)
(** * Merkle trees: the reference definitions

    What the code of [smt/managed] is meant to compute, with no reference to how
    it computes it: the root of a perfect subtree ([mroot]), the node of a
    list of leaves at a height and an index ([node]), and the root of a list of any
    length ([mth], the recursive split at the largest power of two below the
    length). *)

From S2P Require Import Prelude Sha256.

(** The parent of two hashes. *)
Definition hash_pair (l r : bytes) : bytes := sha256 (l ++ r).

(** The root of a perfect binary tree of [2^k] leaves. *)
Fixpoint mroot (k : nat) (l : list bytes) : bytes :=
  match k with
  | O => hd [] l
  | S k' => hash_pair (mroot k' (take (2 ^ k') l)) (mroot k' (drop (2 ^ k') l))
  end.

(** The [j]'th node at height [k] of the tree over [l]. *)
Definition blk (k j : nat) (l : list bytes) : list bytes := take (2 ^ k) (drop (j * 2 ^ k) l).
Definition node (k j : nat) (l : list bytes) : bytes := mroot k (blk k j l).

(** The largest power of two strictly below [n] (for [n >= 2]). *)
Definition split_size (n : nat) : nat := 2 ^ Nat.log2 (n - 1).

Fixpoint mth_fuel (f : nat) (l : list bytes) : bytes :=
  match f with
  | O => []
  | S f' =>
      match l with
      | [] => []
      | [x] => x
      | _ => let k := split_size (length l) in
             hash_pair (mth_fuel f' (take k l)) (mth_fuel f' (drop k l))
      end
  end.

(** The Merkle root of a non-empty list of leaves. *)
Definition mth (l : list bytes) : bytes := mth_fuel (length l) l.

(** ** Facts *)

Lemma pow2_pos k : 0 < 2 ^ k.
Proof. induction k; simpl; lia. Qed.
#[export] Hint Resolve pow2_pos : go.

Lemma pow2_S k : 2 ^ S k = 2 ^ k + 2 ^ k.
Proof. simpl. lia. Qed.

Lemma pow2_Z k : Z.of_nat (2 ^ k) = (2 ^ Z.of_nat k)%Z.
Proof. rewrite Nat2Z.inj_pow. reflexivity. Qed.

Lemma mroot_S k l r :
  length l = 2 ^ k -> mroot (S k) (l ++ r) = hash_pair (mroot k l) (mroot k r).
Proof. intros Hl. simpl. by rewrite take_app_length', drop_app_length'. Qed.

Lemma length_blk k j l : (j + 1) * 2 ^ k <= length l -> length (blk k j l) = 2 ^ k.
Proof. intros H. unfold blk. rewrite length_take, length_drop. lia. Qed.

Lemma blk_app_mid k l0 b l1 :
  length b = 2 ^ k -> forall j, length l0 = j * 2 ^ k -> blk k j (l0 ++ b ++ l1) = b.
Proof.
  intros Hb j Hl. unfold blk. rewrite drop_app_length' by lia.
  by rewrite take_app_length' by lia.
Qed.

(** A node is the parent of its two children. *)
Lemma node_S k j l :
  node (S k) j l = hash_pair (node k (2 * j) l) (node k (2 * j + 1) l).
Proof.
  unfold node, blk. rewrite pow2_S. cbn [mroot]. f_equal; f_equal.
  - rewrite take_take, Nat.min_l by lia. do 2 f_equal. lia.
  - rewrite <- take_drop_commute, drop_drop. do 2 f_equal. lia.
Qed.

Lemma node_0 j l x : l !! j = Some x -> node 0 j l = x.
Proof.
  intros H. unfold node, blk. simpl.
  rewrite Nat.mul_1_r. apply drop_S in H. by rewrite H.
Qed.

(** Leaves past a node do not change it. *)
Lemma node_app k j l r : (j + 1) * 2 ^ k <= length l -> node k j (l ++ r) = node k j l.
Proof.
  intros H. unfold node, blk. f_equal. rewrite drop_app_le by lia.
  rewrite take_app_le; [done|]. rewrite length_drop. lia.
Qed.

Lemma mth_fuel_cons2 f x y l :
  mth_fuel (S f) (x :: y :: l) =
  let k := split_size (length (x :: y :: l)) in
  hash_pair (mth_fuel f (take k (x :: y :: l))) (mth_fuel f (drop k (x :: y :: l))).
Proof. reflexivity. Qed.

Lemma split_size_bounds n : 2 <= n -> 0 < split_size n < n.
Proof.
  intros Hn. unfold split_size. pose proof (pow2_pos (Nat.log2 (n - 1))).
  pose proof (Nat.log2_spec (n - 1) ltac:(lia)). lia.
Qed.

(** More fuel than leaves changes nothing. *)
Lemma mth_fuel_enough f l : length l <= f -> mth_fuel f l = mth l.
Proof.
  unfold mth. revert l. induction (lt_wf f) as [f _ IH]. intros l Hl.
  destruct f as [|f]; [by destruct l; simpl in *; [|lia]|].
  destruct l as [|x [|y l]]; [done|done|].
  change (length (x :: y :: l)) with (S (S (length l))) in *.
  rewrite !mth_fuel_cons2. cbv zeta. set (m := x :: y :: l).
  assert (Hm : length m = S (S (length l))) by done.
  pose proof (split_size_bounds (length m) ltac:(lia)) as Hs.
  rewrite !(IH f) by (rewrite ?length_take, ?length_drop; lia).
  destruct (decide (f = S (length l))) as [->|].
  - rewrite !(IH (S (length l))) by (rewrite ?length_take, ?length_drop; lia). done.
  - rewrite !(IH (S (length l))) by (rewrite ?length_take, ?length_drop; lia). done.
Qed.

(** The recursion equation of the root. *)
Lemma mth_app a b k :
  length a = 2 ^ k -> 0 < length b <= 2 ^ k ->
  mth (a ++ b) = hash_pair (mth a) (mth b).
Proof.
  intros Ha Hb. unfold mth at 1.
  assert (Hs : split_size (length (a ++ b)) = 2 ^ k).
  { unfold split_size. rewrite length_app, Ha. f_equal.
    apply Nat.log2_unique; [lia|]. rewrite pow2_S. pose proof (pow2_pos k). lia. }
  pose proof (pow2_pos k).
  destruct (a ++ b) as [|x [|y l]] eqn:E.
  - apply (f_equal length) in E. rewrite length_app in E. simpl in E. lia.
  - apply (f_equal length) in E. rewrite length_app in E. simpl in E. lia.
  - simpl length at 1. rewrite mth_fuel_cons2. cbv zeta. rewrite <- E in *. rewrite Hs.
    assert (Hl : length (a ++ b) = S (S (length l))) by (rewrite E; done).
    rewrite length_app in Hl.
    rewrite take_app_length', drop_app_length' by done.
    by rewrite !mth_fuel_enough by lia.
Qed.

(** On a perfect tree the two definitions agree. *)
Lemma mth_perfect k l : length l = 2 ^ k -> mth l = mroot k l.
Proof.
  revert l. induction k as [|k IH]; intros l Hl.
  - by destruct l as [|x [|? ?]].
  - rewrite pow2_S in Hl. rewrite <- (take_drop (2 ^ k) l).
    assert (Ht : length (take (2 ^ k) l) = 2 ^ k) by (rewrite length_take; lia).
    assert (Hd : length (drop (2 ^ k) l) = 2 ^ k) by (rewrite length_drop; lia).
    pose proof (pow2_pos k).
    rewrite (mth_app _ _ k) by lia. rewrite mroot_S by done. by rewrite !IH.
Qed.

Lemma mth_app_mroot a b k :
  length a = 2 ^ k -> 0 < length b <= 2 ^ k ->
  mth (a ++ b) = hash_pair (mroot k a) (mth b).
Proof. intros Ha Hb. rewrite (mth_app _ _ k) by done. by rewrite (mth_perfect k a). Qed.

(** Roots are hashes when the leaves are. *)
Lemma length_mth l :
  l <> [] -> Forall (fun h => length h = 32) l -> length (mth l) = 32.
Proof.
  intros Hne Hl. destruct l as [|x [|y l]]; [done| |].
  - by inversion Hl.
  - unfold mth. apply sha256_length.
Qed.
