(* ===== verification/MerkleState.v ===== *)
(** * The Merkle state: [smt/managed/hash.go] and [smt/managed/merklestate.go]

    The state kept while building a Merkle tree: a binary counter ([Count]) with
    the roots of the complete subtrees ([Pending]) and the leaves since the last
    mark ([HashList]).  A Go [Hash] is a byte slice that may be nil, an
    [option bytes]. *)

From S2P Require Import Prelude Sha256 Encoding MerkleTree.
Local Open Scope Z_scope.
Import Binary.

(** ** Hashes *)

Abbreviation Hash := (option bytes).

(** The contents of the slice; a nil slice is empty. *)
Definition hb (h : Hash) : bytes := default [] h.

Definition Hash_Bytes32 (h : Hash) : res bytes :=
  if zlen (hb h) =? 32 then Ok (hb h) else Panic "hash is not 32 bytes".

Definition Hash_Equal (h g : Hash) : bool := bytes_eqb (hb h) (hb g).

Definition Combine (hf : bytes -> bytes) (h right : Hash) : Hash :=
  Some (hf (hb h ++ hb right)).

Definition Sha256 (b : bytes) : bytes := sha256 b.

Definition Hash_BinarySize (h : Hash) : Z := Encoding.BytesBinarySize (hb h).
Definition Hash_MarshalBinary (h : Hash) : bytes := Encoding.BytesMarshalBinary (hb h).
Definition Hash_UnmarhsalBinary (b : bytes) : res Hash := Encoding.BytesUnmarshalBinary b.

(** ** Sparse hash lists: a hash for every bit set in [height] *)

(** [height&(1<<i) != 0] on [int64]. *)
Definition bit_set (height : Z) (i : nat) : bool :=
  (Z.of_nat i <? 64) && Z.testbit height (Z.of_nat i).

Fixpoint sparse_size (l : list Hash) (height : Z) (i : nat) : Z :=
  match l with
  | [] => 0
  | h :: l' =>
      (if bit_set height i then Encoding.BytesBinarySize (hb h) else 0)
      + sparse_size l' height (S i)
  end.

Definition SparseHashList_BinarySize (l : list Hash) (height : Z) : Z := sparse_size l height 0.

Fixpoint SparseHashList_MarshalBinary (l : list Hash) (height : Z) : res bytes :=
  if height <=? 0 then Ok []
  else match l with
       | [] => errorf "missing hash"
       | h :: l' =>
           let! rest := SparseHashList_MarshalBinary l' (Z.shiftr height 1) in
           Ok ((if 0 <? Z.land height 1 then Encoding.BytesMarshalBinary (hb h) else []) ++ rest)
       end.

(** [bits.Len64]. *)
Definition Len64 (x : Z) : nat := if x <=? 0 then O else Z.to_nat (Z.log2 x + 1).

Fixpoint sparse_unmarshal (n : nat) (height : Z) (i : nat) (data : bytes) : res (list Hash) :=
  match n with
  | O => Ok []
  | S n' =>
      if bit_set height i then
        let! h := Encoding.BytesUnmarshalBinary data in
        let! data := slice_from data (Encoding.BytesBinarySize (hb h)) in
        let! l := sparse_unmarshal n' height (S i) data in
        Ok (h :: l)
      else
        let! l := sparse_unmarshal n' height (S i) data in
        Ok (None :: l)
  end.

Definition SparseHashList_UnmarshalBinary (height : Z) (data : bytes) : res (list Hash) :=
  sparse_unmarshal (Len64 (u64 height)) height 0 data.

(** ** Hash lists *)

Fixpoint hashes_size (l : list Hash) : Z :=
  match l with [] => 0 | h :: l' => Hash_BinarySize h + hashes_size l' end.

Definition HashList_BinarySize (l : list Hash) : Z :=
  Encoding.UvarintBinarySize (u64 (zlen l)) + hashes_size l.

Definition HashList_MarshalBinary (l : list Hash) : bytes :=
  Encoding.UvarintMarshalBinary (u64 (zlen l)) ++ mjoin (Hash_MarshalBinary <$> l).

Fixpoint hashlist_loop (n : nat) (b : bytes) : res (list Hash) :=
  match n with
  | O => Ok []
  | S n' =>
      let! h := Hash_UnmarhsalBinary b in
      let! b := slice_from b (Hash_BinarySize h) in
      let! l := hashlist_loop n' b in
      Ok (h :: l)
  end.

(** Each [Hash] is a slice header of 24 bytes. *)
Definition HashList_UnmarhsalBinary (b : bytes) : res (list Hash) :=
  let! n := Encoding.UvarintUnmarshalBinary b in
  let! b := slice_from b (Encoding.UvarintBinarySize n) in
  let! _ := Encoding.go_make n 24 in
  hashlist_loop (Z.to_nat n) b.

(** ** The Merkle state *)

Record MerkleState := mkMS {
  Count : Z;             (** hashes added to the tree, an [int64] *)
  Pending : list Hash;   (** the left edge of the tree *)
  HashList : list Hash   (** hashes in the order added *)
}.

Definition newMerkleState : MerkleState := mkMS 0 [] [].

Definition set_HashList (m : MerkleState) (l : list Hash) : MerkleState :=
  mkMS (Count m) (Pending m) l.

(** [PadPending] and [Pad]: make the pending list end in nil. *)
Definition pad (p : list Hash) : list Hash :=
  match last p with
  | None => p ++ [None]
  | Some (Some _) => p ++ [None]
  | Some None => p
  end.

Definition PadPending (m : MerkleState) : MerkleState :=
  mkMS (Count m) (pad (Pending m)) (HashList m).

Definition Pad (m : MerkleState) : MerkleState :=
  mkMS (Count m) (pad (Pending m)) (HashList m).

Fixpoint drop_nils (p : list Hash) : list Hash :=
  match p with
  | None :: p' => drop_nils p'
  | _ => p
  end.

(** [Trim]: remove trailing nils, from the end of the list. *)
Definition Trim (m : MerkleState) : MerkleState :=
  mkMS (Count m) (rev (drop_nils (rev (Pending m)))) (HashList m).

(** [Copy] makes an independent copy; the values are the same. *)
Definition MerkleState_Copy (m : MerkleState) : MerkleState :=
  mkMS (Count m) (Pending m) (HashList m).

(** First loop of [Equal]: [m.Pending] against [m2.Pending]. *)
Fixpoint pending_eq (p p2 : list Hash) : bool :=
  match p with
  | [] => true
  | v :: p' =>
      match p2 with
      | [] => match v with None => pending_eq p' [] | Some _ => false end
      | v2 :: p2' => Hash_Equal v v2 && pending_eq p' p2'
      end
  end.

(** Second loop: the extra entries of [m2.Pending], from the end, are nil. *)
Definition extra_nil (p p2 : list Hash) : bool :=
  forallb (fun v => match v with None => true | Some _ => false end) (drop (length p) p2).

Fixpoint hashes_eq (l l2 : list Hash) : bool :=
  match l, l2 with
  | v :: l', v2 :: l2' => Hash_Equal v v2 && hashes_eq l' l2'
  | _, _ => true
  end.

Definition MerkleState_Equal (m m2 : MerkleState) : bool :=
  (Count m =? Count m2)
  && pending_eq (Pending m) (Pending m2)
  && extra_nil (Pending m) (Pending m2)
  && (zlen (HashList m) =? zlen (HashList m2))
  && hashes_eq (HashList m) (HashList m2).

Definition MerkleState_Marshal (m : MerkleState) : res bytes :=
  let! b := SparseHashList_MarshalBinary (Pending m) (Count m) in
  Ok (Common.Int64Bytes (Count m) ++ b ++ HashList_MarshalBinary (HashList m)).

Definition MerkleState_UnMarshal (MSBytes : bytes) : res MerkleState :=
  let! count := Encoding.VarintUnmarshalBinary MSBytes in
  let! MSBytes := slice_from MSBytes (Encoding.VarintBinarySize count) in
  let! pending := SparseHashList_UnmarshalBinary count MSBytes in
  let! MSBytes := slice_from MSBytes (SparseHashList_BinarySize pending count) in
  let! hashes := HashList_UnmarhsalBinary MSBytes in
  Ok (mkMS count pending hashes).

(** The carry loop of [AddToMerkleTree]. *)
Fixpoint add_loop (pending : list Hash) (hash : Hash) : list Hash :=
  match pending with
  | [] => []
  | None :: rest => hash :: rest
  | Some v :: rest => None :: add_loop rest (Combine Sha256 (Some v) hash)
  end.

Definition AddToMerkleTree (m : MerkleState) (hash : Hash) : MerkleState :=
  mkMS (i64 (Count m + 1)) (add_loop (pad (Pending m)) hash) (HashList m ++ [hash]).

(** The loop of [GetMDRoot]. *)
Fixpoint md_loop (pending : list Hash) (MDRoot : Hash) : Hash :=
  match pending with
  | [] => MDRoot
  | v :: rest =>
      match MDRoot with
      | None => md_loop rest v
      | Some r =>
          match v with
          | Some _ => md_loop rest (Combine Sha256 v (Some r))
          | None => md_loop rest MDRoot
          end
      end
  end.

Definition GetMDRoot (m : MerkleState) : Hash :=
  if Count m =? 0 then None else md_loop (Pending m) None.

(** [GetIntermediate]: [i] is the position in the pending list. *)
Fixpoint intermediate_loop (pending : list Hash) (i : Z) (hash : Hash) (height : Z)
  : res (Hash * Hash) :=
  match pending with
  | [] => errorf "no values found at height"
  | None :: _ => errorf "should not encounter a nil at height"
  | Some v :: rest =>
      if i + 1 =? height then Ok (Some v, hash)
      else intermediate_loop rest (i + 1) (Combine Sha256 (Some v) hash) height
  end.

Definition MerkleState_GetIntermediate (m : MerkleState) (hash : Hash) (height : Z)
  : res (Hash * Hash) :=
  intermediate_loop (pad (Pending m)) 0 hash height.

(** Adding a list of hashes, as [ReceiptList.Validate] and [Hasher.MerkleHash] do. *)
Definition add_all (m : MerkleState) (l : list bytes) : MerkleState :=
  foldl (fun m h => AddToMerkleTree m (Some h)) m l.

(** ** The pending list as a binary counter

    [Rep i p l]: from height [i] on, the pending list [p] holds the roots of the
    perfect subtrees that make up the leaves [l], the highest first in [l]. *)

Inductive Rep : nat -> list Hash -> list bytes -> Prop :=
  | Rep_nil i : Rep i [] []
  | Rep_None i p l : Rep (S i) p l -> Rep i (None :: p) l
  | Rep_Some i p l b :
      Rep (S i) p l -> length b = (2 ^ i)%nat -> Rep i (Some (mroot i b) :: p) (l ++ b).

(** The invariant of a Merkle state over the leaves [l]. *)
Definition Represents (m : MerkleState) (l : list bytes) : Prop :=
  Count m = zlen l /\ Rep 0 (Pending m) l.

Lemma Combine_mroot k a b :
  length a = (2 ^ k)%nat ->
  Combine Sha256 (Some (mroot k a)) (Some (mroot k b)) = Some (mroot (S k) (a ++ b)).
Proof. intros Ha. rewrite mroot_S by done. reflexivity. Qed.

Lemma Rep_snoc_None i p l : Rep i p l -> Rep i (p ++ [None]) l.
Proof. induction 1; simpl; repeat (constructor; auto). Qed.

Lemma Rep_pad i p l : Rep i p l -> Rep i (pad p) l.
Proof.
  intros H. unfold pad. destruct (last p) as [[v|]|]; auto using Rep_snoc_None.
Qed.

Lemma Rep_divide i p l : Rep i p l -> Nat.divide (2 ^ i) (length l).
Proof.
  induction 1 as [i|i p l H IH|i p l b H IH Hb].
  - apply Nat.divide_0_r.
  - etrans; [|exact IH]. exists 2%nat. simpl. lia.
  - rewrite length_app, Hb. apply Nat.divide_add_r; [|apply Nat.divide_refl].
    etrans; [|exact IH]. exists 2%nat. simpl. lia.
Qed.

(** A padded list has a nil, so the carry stops. *)
Definition has_nil (p : list Hash) : Prop := None ∈ p.

Lemma pad_has_nil p : has_nil (pad p).
Proof.
  unfold pad, has_nil. destruct (last p) as [[v|]|] eqn:E.
  - apply elem_of_app. right. by apply list_elem_of_singleton.
  - apply last_Some in E as [l' ->]. apply elem_of_app. right. by apply list_elem_of_singleton.
  - apply elem_of_app. right. by apply list_elem_of_singleton.
Qed.

Lemma Rep_add_loop i p l b :
  Rep i p l -> has_nil p -> length b = (2 ^ i)%nat ->
  Rep i (add_loop p (Some (mroot i b))) (l ++ b).
Proof.
  intros H. revert b. induction H as [i|i p l H IH|i p l b0 H IH Hb0]; intros b Hn Hb.
  - by apply not_elem_of_nil in Hn.
  - simpl. by constructor.
  - simpl. rewrite Combine_mroot by done. constructor.
    rewrite <- app_assoc. apply IH.
    + unfold has_nil in *. apply elem_of_cons in Hn as [?|?]; [discriminate|done].
    + rewrite length_app, pow2_S. lia.
Qed.

Lemma Represents_new : Represents newMerkleState [].
Proof. split; [done|constructor]. Qed.

(** Adding a leaf keeps the invariant. *)
Lemma Represents_add m l h :
  Represents m l -> zlen l < 2 ^ 63 - 1 ->
  Represents (AddToMerkleTree m (Some h)) (l ++ [h]).
Proof.
  intros [Hc Hr] Hl. split; simpl.
  - rewrite Hc, zlen_app, i64_small; [done|]. pose proof (zlen_nonneg l). unfold is_i64. lia.
  - apply (Rep_add_loop 0 _ l [h]); [by apply Rep_pad|apply pad_has_nil|done].
Qed.

Lemma Represents_add_all m l0 l :
  Represents m l0 -> zlen (l0 ++ l) < 2 ^ 63 -> Represents (add_all m l) (l0 ++ l).
Proof.
  revert m l0. induction l as [|h l IH]; intros m l0 Hm Hl; simpl.
  - by rewrite app_nil_r.
  - replace (l0 ++ h :: l) with ((l0 ++ [h]) ++ l) in * by (by rewrite <- app_assoc).
    apply IH; [|done]. apply Represents_add; [done|].
    rewrite !zlen_app, zlen_cons in Hl. pose proof (zlen_nonneg l).
    change (zlen (A:=bytes) []) with 0 in Hl. lia.
Qed.

Lemma HashList_add_all m l : HashList (add_all m l) = HashList m ++ (Some <$> l).
Proof.
  revert m. induction l as [|h l IH]; intros m; simpl; [by rewrite app_nil_r|].
  rewrite IH. simpl. by rewrite <- app_assoc.
Qed.

Lemma add_all_app m l l' : add_all m (l ++ l') = add_all (add_all m l) l'.
Proof. apply foldl_app. Qed.

(** ** The root *)

Lemma md_loop_Some i p l r :
  Rep i p l -> (0 < length r <= 2 ^ i)%nat ->
  md_loop p (Some (mth r)) = Some (mth (l ++ r)).
Proof.
  intros H. revert r. induction H as [i|i p l H IH|i p l b H IH Hb]; intros r Hr; simpl.
  - done.
  - apply IH. rewrite pow2_S. lia.
  - unfold Combine. simpl. change (Sha256 (mroot i b ++ mth r)) with (hash_pair (mroot i b) (mth r)).
    rewrite <- (mth_app_mroot b r i) by done. rewrite <- app_assoc. apply IH.
    rewrite length_app, pow2_S. lia.
Qed.

Lemma md_loop_None i p l :
  Rep i p l -> md_loop p None = match l with [] => None | _ => Some (mth l) end.
Proof.
  induction 1 as [i|i p l H IH|i p l b H IH Hb]; simpl; [done|done|].
  rewrite <- (mth_perfect i b) by done.
  pose proof (pow2_pos i).
  rewrite (md_loop_Some (S i) p l b) by (rewrite ?pow2_S; lia || done).
  destruct (l ++ b) eqn:E; [|done].
  apply (f_equal length) in E. rewrite length_app in E. simpl in E. lia.
Qed.

Lemma GetMDRoot_Represents m l :
  Represents m l -> GetMDRoot m = match l with [] => None | _ => Some (mth l) end.
Proof.
  intros [Hc Hr]. unfold GetMDRoot. rewrite Hc.
  rewrite (md_loop_None 0 _ l Hr). destruct l as [|h l]; [done|].
  rewrite zlen_cons. pose proof (zlen_nonneg l).
  by rewrite (proj2 (Z.eqb_neq _ 0)) by lia.
Qed.

(** ** Intermediate hashes *)

Lemma not_divide_pow2 i h l b :
  Nat.divide (2 ^ S i) l -> b = (2 ^ i)%nat -> (i < h)%nat -> ~ Nat.divide (2 ^ h) (l + b).
Proof.
  intros Hl -> Hi Hd.
  assert (Hs : Nat.divide (2 ^ S i) (2 ^ h)).
  { exists (2 ^ (h - S i))%nat. rewrite <- Nat.pow_add_r. f_equal. lia. }
  assert (Hb : Nat.divide (2 ^ S i) (2 ^ i)).
  { apply (Nat.divide_add_cancel_r _ l); [done|]. by etrans. }
  apply Nat.divide_pos_le in Hb; [|apply pow2_pos].
  rewrite pow2_S in Hb. pose proof (pow2_pos i). lia.
Qed.

(** The two hashes combined last at height [h], when the leaf [b] completes a
    subtree of that height; an error otherwise. *)
Lemma intermediate_loop_spec i p l b h :
  Rep i p l -> length b = (2 ^ i)%nat -> (i < h)%nat ->
  match intermediate_loop p (Z.of_nat i) (Some (mroot i b)) (Z.of_nat h) with
  | Ok (L, R) => exists l' bl br,
      l ++ b = l' ++ bl ++ br /\ Nat.divide (2 ^ h) (length l') /\
      length bl = (2 ^ (h - 1))%nat /\ length br = (2 ^ (h - 1))%nat /\
      L = Some (mroot (h - 1) bl) /\ R = Some (mroot (h - 1) br)
  | Err _ => ~ Nat.divide (2 ^ h) (length (l ++ b))
  | Panic _ => False
  end.
Proof.
  intros H. revert b. induction H as [i|i p l H IH|i p l b0 H IH Hb0]; intros b Hb Hi; simpl.
  - apply (not_divide_pow2 i h 0); [apply Nat.divide_0_r|done|done].
  - rewrite length_app. apply (not_divide_pow2 i h); [by eapply Rep_divide|done|done].
  - destruct (Z.eqb_spec (Z.of_nat i + 1) (Z.of_nat h)) as [Hh|Hh].
    + replace h with (S i) by lia. replace (S i - 1)%nat with i by lia.
      exists l, b0, b. rewrite <- app_assoc. split_and!; auto.
      apply (Rep_divide (S i) p l H).
    + rewrite Combine_mroot by done. replace (Z.of_nat i + 1) with (Z.of_nat (S i)) by lia.
      rewrite <- app_assoc. apply IH; [rewrite length_app, pow2_S; lia|lia].
Qed.

(** The specification of an intermediate-hash source over the leaves [l]:
    the children of the node at [height] that the leaf [element] completes. *)
Definition intermediate_ok (l : list bytes) (element height : Z) (r : res (Hash * Hash)) : Prop :=
  let k := Z.to_nat (height - 1) in
  let e := Z.to_nat (element + 1) in
  match r with
  | Ok (L, R) =>
      Nat.divide (2 ^ S k) e /\
      L = Some (node k (e / 2 ^ k - 2) l) /\ R = Some (node k (e / 2 ^ k - 1) l)
  | Err _ => ~ Nat.divide (2 ^ S k) e
  | Panic _ => False
  end.

(** The leaf [x] completes a subtree of height [k+1] with children [bl] and [br]. *)
Lemma intermediate_ok_intro l x rest e k l' bl br :
  l ++ [x] = l' ++ bl ++ br -> Nat.divide (2 ^ S k) (length l') ->
  length bl = (2 ^ k)%nat -> length br = (2 ^ k)%nat -> e = zlen l ->
  intermediate_ok (l ++ x :: rest) e (Z.of_nat k + 1)
    (Ok (Some (mroot k bl), Some (mroot k br))).
Proof.
  intros Heq [q Hq] Hbl Hbr ->. unfold intermediate_ok. cbv zeta.
  replace (Z.to_nat (Z.of_nat k + 1 - 1)) with k by lia.
  replace (Z.to_nat (zlen l + 1)) with (length (l ++ [x]))
    by (rewrite length_app; unfold zlen; simpl; lia).
  pose proof (pow2_pos k).
  assert (Hlen : length (l ++ [x]) = ((2 * q + 2) * 2 ^ k)%nat).
  { rewrite Heq, !length_app, Hq, Hbl, Hbr, pow2_S. lia. }
  replace (l ++ x :: rest) with (l' ++ bl ++ br ++ rest)
    by (rewrite (app_assoc bl), app_assoc, <- Heq, <- app_assoc; done).
  rewrite Hlen, Nat.div_mul by lia. unfold node. split_and!.
  - exists (q + 1)%nat. rewrite pow2_S. lia.
  - rewrite blk_app_mid; [done|done|]. rewrite Hq, pow2_S. lia.
  - rewrite (app_assoc l' bl), blk_app_mid; [done|done|]. rewrite length_app, Hq, Hbl, pow2_S. lia.
Qed.

Lemma GetIntermediate_Represents m l x rest height :
  Represents m l -> 1 <= height ->
  intermediate_ok (l ++ x :: rest) (zlen l) height
    (MerkleState_GetIntermediate m (Some x) height).
Proof.
  intros [_ Hr] Hh. unfold MerkleState_GetIntermediate.
  set (k := Z.to_nat (height - 1)).
  pose proof (intermediate_loop_spec 0 _ l [x] (S k) (Rep_pad _ _ _ Hr) eq_refl ltac:(lia)) as Hs.
  replace height with (Z.of_nat k + 1) by (unfold k; lia).
  replace (Z.of_nat (S k)) with (Z.of_nat k + 1) in Hs by lia.
  simpl (mroot 0 [x]) in Hs. change (Z.of_nat 0) with 0 in Hs.
  destruct (intermediate_loop _ 0 (Some x) _) as [[L R]|e|s]; [|unfold intermediate_ok|done].
  - destruct Hs as (l' & bl & br & Heq & Hd & Hbl & Hbr & -> & ->).
    replace (S k - 1)%nat with k in * by lia. by apply (intermediate_ok_intro l x rest _ k l').
  - replace (Z.to_nat (Z.of_nat k + 1 - 1)) with k by lia.
    replace (Z.to_nat (zlen l + 1)) with (length (l ++ [x])); [done|].
    rewrite length_app. unfold zlen. simpl. lia.
Qed.

(** ** The binary encoding of a state

    [matches p h]: the hashes of [p] sit exactly at the bits of [h]. *)

Definition proper_hash (v : Hash) : Prop :=
  exists b, v = Some b /\ b <> [] /\ is_i64 (zlen b).

Fixpoint matches (p : list Hash) (h : Z) : Prop :=
  match p with
  | [] => h = 0
  | v :: p' => (if Z.odd h then proper_hash v else v = None) /\ matches p' (h / 2)
  end.

Definition bitlen (h : Z) : nat := if h <=? 0 then O else S (Z.to_nat (Z.log2 h)).

Lemma bitlen_half h : 0 < h -> bitlen h = S (bitlen (h / 2)).
Proof.
  intros Hh. unfold bitlen. rewrite (proj2 (Z.leb_gt h 0)) by lia.
  destruct (Z.leb_spec (h / 2) 0).
  - assert (h = 1) as -> by (Z.to_euclidean_division_equations; lia). reflexivity.
  - assert (2 <= h) by (Z.to_euclidean_division_equations; lia).
    change (h / 2) with (h / 2 ^ 1). rewrite <- Z.shiftr_div_pow2, Z.log2_shiftr by lia.
    pose proof (Z.log2_le_mono 2 h ltac:(lia)). change (Z.log2 2) with 1 in *.
    f_equal. lia.
Qed.

Lemma matches_replicate p h : h = 0 -> matches p h -> p = replicate (length p) None.
Proof.
  intros ->. induction p as [|v p IH]; simpl; [done|].
  intros [-> Hm]. f_equal. by apply IH.
Qed.

(** What the encoder writes is what the decoder reads, bit by bit. *)
Lemma sparse_roundtrip p h N i rest :
  0 <= h -> 0 <= N < 2 ^ 63 -> h = Z.shiftr N (Z.of_nat i) -> matches p h ->
  exists bs,
    SparseHashList_MarshalBinary p h = Ok bs /\
    sparse_unmarshal (bitlen h) N i (bs ++ rest) = Ok (take (bitlen h) p) /\
    sparse_size (take (bitlen h) p) N i = zlen bs.
Proof.
  intros Hh HN. revert h i Hh. induction p as [|v p IH]; intros h i Hh Hi Hm.
  - simpl in Hm. subst h. rewrite Hm. exists []. by rewrite take_0.
  - simpl SparseHashList_MarshalBinary. destruct (Z.leb_spec h 0).
    { replace h with 0 by lia. exists []. by rewrite take_0. }
    destruct Hm as [Hv Hm].
    destruct (IH (h / 2) (S i)) as (bs & Hms & Hun & Hsz);
      [apply Z.div_pos; lia| |done|].
    { rewrite Hi. change (?x / 2) with (x / 2 ^ 1).
      rewrite <- Z.shiftr_div_pow2, Z.shiftr_shiftr by lia. f_equal. lia. }
    assert (Hhalf : Z.shiftr h 1 = h / 2) by (by rewrite Z.shiftr_div_pow2 by lia).
    rewrite Hhalf, Hms, bitlen_half by lia. simpl.
    assert (Hbit : bit_set N i = Z.odd h).
    { unfold bit_set. rewrite Hi, <- Z.bit0_odd, Z.shiftr_spec by lia. rewrite Z.add_0_l.
      destruct (Z.ltb_spec (Z.of_nat i) 64); [done|].
      by rewrite (testbit_above_pow N 63) by lia. }
    rewrite Hbit.
    assert (Hland : (0 <? Z.land h 1) = Z.odd h).
    { change 1 with (Z.ones 1). rewrite Z.land_ones by lia. change (2 ^ 1) with 2.
      rewrite Zmod_odd. by destruct (Z.odd h). }
    rewrite Hland. eexists. split; [reflexivity|]. destruct (Z.odd h).
    + destruct Hv as (b & -> & Hb & Hlb). simpl.
      rewrite <- app_assoc, Encoding.BytesUnmarshalBinary_ok by done.
      destruct b as [|x b]; [done|]. cbn [res_bind].
      unfold Encoding.BytesBinarySize. cbn [hb default Encoding.nil_if_empty].
      rewrite slice_from_app. cbn [res_bind].
      rewrite Hun. simpl. split; [done|]. by rewrite zlen_app, Hsz.
    + subst v. simpl. rewrite Hun. simpl. split; [done|]. lia.
Qed.

Lemma hashes_roundtrip l rest :
  Forall proper_hash l ->
  hashlist_loop (length l) (mjoin (Hash_MarshalBinary <$> l) ++ rest) = Ok l.
Proof.
  induction 1 as [|v l (b & -> & Hb & Hlb) Hl IH]; [done|].
  rewrite fmap_cons. csimpl. rewrite <- app_assoc.
  unfold Hash_UnmarhsalBinary, Hash_MarshalBinary at 1. simpl hb.
  rewrite Encoding.BytesUnmarshalBinary_ok by done. destruct b as [|x b]; [done|].
  cbn [res_bind Encoding.nil_if_empty]. unfold Hash_BinarySize, Encoding.BytesBinarySize.
  cbn [hb default]. rewrite slice_from_app. cbn [res_bind]. by rewrite IH.
Qed.

Lemma HashList_roundtrip l rest :
  Forall proper_hash l -> zlen l <= 2 ^ 43 ->
  HashList_UnmarhsalBinary (HashList_MarshalBinary l ++ rest) = Ok l.
Proof.
  intros Hl Hn. pose proof (zlen_nonneg l).
  unfold HashList_UnmarhsalBinary, HashList_MarshalBinary. rewrite <- app_assoc.
  rewrite (u64_small (zlen l)) by (unfold is_u64; lia).
  rewrite Encoding.UvarintUnmarshalBinary_ok by (unfold is_u64; lia). simpl.
  unfold Encoding.UvarintBinarySize. rewrite slice_from_app. simpl.
  unfold Encoding.go_make. rewrite (proj2 (Z.ltb_ge _ 0)), (proj2 (Z.ltb_ge _ _)) by lia. simpl.
  unfold zlen. rewrite Nat2Z.id. by apply hashes_roundtrip.
Qed.

(** *** Trimming *)

Lemma drop_nils_replicate n p : drop_nils (replicate n None ++ p) = drop_nils p.
Proof. by induction n. Qed.

Lemma trim_matches p h :
  0 <= h -> matches p h -> rev (drop_nils (rev p)) = take (bitlen h) p.
Proof.
  revert h. induction p as [|v p IH]; intros h Hh Hm.
  - by rewrite take_nil.
  - destruct Hm as [Hv Hm]. destruct (Z.eq_dec h 0) as [->|Hnz].
    + simpl in Hv. subst v. apply matches_replicate in Hm; [|done]. rewrite Hm.
      change (None :: replicate (length p) None) with (replicate (S (length p)) (None : Hash)).
      replace (rev (replicate (S (length p)) (None : Hash))) with (replicate (S (length p)) (None : Hash) ++ []).
      2: { rewrite app_nil_r. generalize (S (length p)). induction n; simpl; [done|].
           rewrite <- IHn. clear. induction n; simpl; [done|]. by f_equal. }
      rewrite drop_nils_replicate. reflexivity.
    + rewrite bitlen_half by lia. simpl.
      specialize (IH (h / 2) ltac:(apply Z.div_pos; lia) Hm).
      destruct (drop_nils (rev p)) as [|w q] eqn:E.
      * (* the rest is all nil, so this is the top bit *)
        simpl in IH. assert (Hh2 : h / 2 = 0).
        { destruct (Z.eq_dec (h / 2) 0); [done|].
          rewrite bitlen_half in IH by (pose proof (Z.div_pos h 2); lia).
          destruct p; [|discriminate]. simpl in Hm. lia. }
        rewrite Hh2. assert (h = 1) as -> by (Z.to_euclidean_division_equations; lia).
        simpl in Hv. destruct Hv as (b & -> & _).
        assert (Hd : drop_nils (rev p ++ [Some b]) = [Some b]).
        { clear -E. induction (rev p) as [|[x|] r IHr]; simpl in *; [done|discriminate|auto]. }
        exact (f_equal (@rev Hash) Hd).
      * assert (Hd : drop_nils (rev p ++ [v]) = (w :: q) ++ [v]).
        { clear -E. induction (rev p) as [|[x|] r IHr]; simpl in *; [discriminate| |auto].
          by inversion E. }
        etrans; [exact (f_equal (@rev Hash) Hd)|]. rewrite rev_app_distr.
        simpl in IH |- *. by rewrite IH.
Qed.

(** *** From the representation invariant *)

Lemma length_mroot k b :
  length b = (2 ^ k)%nat -> Forall (fun h => length h = 32%nat) b -> length (mroot k b) = 32%nat.
Proof.
  intros Hl Hb. destruct k; simpl in *.
  - destruct b as [|x [|? ?]]; simpl in Hl; try lia. by inversion Hb.
  - apply sha256_length.
Qed.

Lemma proper_hash32 b : length b = 32%nat -> proper_hash (Some b).
Proof.
  intros H. exists b. split; [done|]. split; [by intros ->|]. unfold is_i64, zlen. lia.
Qed.

Lemma Rep_matches i p l :
  Rep i p l -> Forall (fun h => length h = 32%nat) l ->
  matches p (Z.of_nat (length l / 2 ^ i)).
Proof.
  induction 1 as [i|i p l H IH|i p l b H IH Hb]; intros Hl; simpl.
  - by rewrite Nat.Div0.div_0_l.
  - destruct (Rep_divide _ _ _ H) as [q Hq].
    assert (Hd : (length l / 2 ^ i = 2 * q)%nat).
    { rewrite Hq, pow2_S. pose proof (pow2_pos i).
      replace (q * (2 ^ i + 2 ^ i))%nat with (2 * q * 2 ^ i)%nat by lia. apply Nat.div_mul. lia. }
    rewrite Hd. rewrite Hq, Nat.div_mul in IH by (pose proof (pow2_pos (S i)); lia).
    rewrite Nat2Z.inj_mul, Z.odd_mul. simpl. split; [done|].
    rewrite Z.mul_comm, Z.div_mul by lia. by apply IH.
  - apply Forall_app in Hl as [Hl Hlb].
    destruct (Rep_divide _ _ _ H) as [q Hq].
    assert (Hd : (length (l ++ b) / 2 ^ i = 2 * q + 1)%nat).
    { rewrite length_app, Hb, Hq, pow2_S. pose proof (pow2_pos i).
      replace (q * (2 ^ i + 2 ^ i) + 2 ^ i)%nat with ((2 * q + 1) * 2 ^ i)%nat by lia.
      apply Nat.div_mul. lia. }
    rewrite Hd. rewrite Hq, Nat.div_mul in IH by (pose proof (pow2_pos (S i)); lia).
    replace (Z.of_nat (2 * q + 1)) with (2 * Z.of_nat q + 1) by lia.
    replace (Z.odd (2 * Z.of_nat q + 1)) with true
      by (symmetry; apply Z.odd_spec; by exists (Z.of_nat q)).
    split; [apply proper_hash32, length_mroot; done|].
    replace ((2 * Z.of_nat q + 1) / 2) with (Z.of_nat q) by (Z.to_euclidean_division_equations; lia).
    by apply IH.
Qed.

Lemma Represents_matches m l :
  Represents m l -> Forall (fun h => length h = 32%nat) l -> matches (Pending m) (Count m).
Proof.
  intros [-> Hr] Hl. pose proof (Rep_matches 0 _ _ Hr Hl) as Hm.
  change (2 ^ 0)%nat with 1%nat in Hm. by rewrite Nat.div_1_r in Hm.
Qed.

Lemma bitlen_Len64 h : 0 <= h < 2 ^ 63 -> Len64 (u64 h) = bitlen h.
Proof.
  intros Hh. rewrite u64_small by (unfold is_u64; lia). unfold Len64, bitlen.
  destruct (h <=? 0); [done|]. pose proof (Z.log2_nonneg h). lia.
Qed.

(** Encoding and decoding, for every state that satisfies the invariant. *)
Lemma Marshal_UnMarshal m l :
  Represents m l -> Forall (fun h => length h = 32%nat) l -> zlen l < 2 ^ 63 ->
  Forall proper_hash (HashList m) -> zlen (HashList m) <= 2 ^ 43 ->
  exists data, MerkleState_Marshal m = Ok data /\ MerkleState_UnMarshal data = Ok (Trim m).
Proof.
  intros Hr Hl Hn Hh Hc. pose proof (Represents_matches m l Hr Hl) as Hm.
  destruct Hr as [HC Hr]. pose proof (zlen_nonneg l).
  destruct (sparse_roundtrip (Pending m) (Count m) (Count m) 0
              (HashList_MarshalBinary (HashList m)))
    as (bs & Hms & Hun & Hsz); [lia|lia|by rewrite Z.shiftr_0_r|done|].
  eexists. unfold MerkleState_Marshal. rewrite Hms. simpl. split; [reflexivity|].
  unfold MerkleState_UnMarshal.
  change (Common.Int64Bytes (Count m)) with (Encoding.VarintMarshalBinary (Count m)).
  rewrite Encoding.VarintUnmarshalBinary_ok by (unfold is_i64; lia). simpl.
  unfold Encoding.VarintBinarySize. rewrite slice_from_app. simpl.
  unfold SparseHashList_UnmarshalBinary. rewrite bitlen_Len64 by lia.
  rewrite Hun. simpl. unfold SparseHashList_BinarySize. rewrite Hsz, slice_from_app. simpl.
  rewrite <- (app_nil_r (HashList_MarshalBinary _)), HashList_roundtrip by done. simpl.
  unfold Trim. by rewrite (trim_matches _ (Count m)) by (lia || done).
Qed.

(** ** Properties *)

(** C27. The root of a Merkle state is the Merkle root of the elements added to it: for
    any non-empty list of hashes, [GetMDRoot] after adding them one by one is the hash
    of the recursive split at the largest power of two below the length. *)
Theorem GetMDRoot_mth (l : list bytes) (Hne : l <> []) (Hl : zlen l < 2 ^ 63) :
  Count (add_all newMerkleState l) = zlen l /\
  GetMDRoot (add_all newMerkleState l) = Some (mth l).
Proof.
  pose proof (Represents_add_all newMerkleState [] l Represents_new Hl) as Hr. simpl in Hr.
  split; [apply Hr|]. rewrite (GetMDRoot_Represents _ _ Hr). by destruct l.
Qed.

Lemma GetMDRoot_mth_witness :
  let l := [sha256 [Byte.x01]; sha256 [Byte.x02]; sha256 [Byte.x03]] in
  GetMDRoot (add_all newMerkleState l) =
  Some (sha256 (sha256 (sha256 [Byte.x01] ++ sha256 [Byte.x02]) ++ sha256 [Byte.x03])).
Proof.
  intros l. destruct (GetMDRoot_mth l) as [_ E]; [done|done|].
  etransitivity; [exact E|]. vm_compute. reflexivity.
Defined.

Lemma Hash_Equal_refl h : Hash_Equal h h = true.
Proof. unfold Hash_Equal. apply bytes_eqb_refl. Qed.

Lemma hashes_eq_refl l : hashes_eq l l = true.
Proof. induction l as [|h l IH]; simpl; [done|]. by rewrite Hash_Equal_refl, IH. Qed.

Lemma pending_eq_pad p n : pending_eq (p ++ replicate n None) p = true.
Proof.
  induction p as [|v p IH]; simpl.
  - by induction n as [|n IH].
  - by rewrite Hash_Equal_refl, IH.
Qed.

Lemma drop_nils_split p : exists n, p = replicate n None ++ drop_nils p.
Proof.
  induction p as [|[v|] p [n IH]]; [by exists O|by exists O|]. exists (S n). simpl. by rewrite <- IH.
Qed.

Lemma reverse_replicate_nil n : rev (replicate n (@None bytes)) = replicate n None.
Proof.
  induction n as [|n IH]; [done|]. rewrite replicate_S_end at 1. rewrite rev_app_distr, IH. done.
Qed.

Lemma Trim_split m : exists n, Pending m = Pending (Trim m) ++ replicate n None.
Proof.
  destruct (drop_nils_split (rev (Pending m))) as [n E]. exists n. simpl.
  apply (f_equal (@rev _)) in E. rewrite rev_involutive, rev_app_distr in E. rewrite E at 1. f_equal.
  apply reverse_replicate_nil.
Qed.

Lemma MerkleState_Equal_Trim m : MerkleState_Equal m (Trim m) = true.
Proof.
  destruct (Trim_split m) as [n E]. unfold MerkleState_Equal. rewrite E.
  change (Count (Trim m)) with (Count m). change (HashList (Trim m)) with (HashList m).
  rewrite !Z.eqb_refl, pending_eq_pad, hashes_eq_refl.
  unfold extra_nil. rewrite drop_ge; [done|]. rewrite length_app. lia.
Qed.

(** Storing and loading a Merkle state: a state over 32-byte elements, whatever its
    hash list, encodes without error and decodes to a state that is [Equal] to it. *)
Theorem MerkleState_roundtrip (m : MerkleState) (l : list bytes)
  (Hr : Represents m l) (Hl : Forall (fun h => length h = 32%nat) l) (Hn : zlen l < 2 ^ 63)
  (Hh : Forall proper_hash (HashList m)) (Hc : zlen (HashList m) <= 2 ^ 43) :
  exists data m', MerkleState_Marshal m = Ok data /\ MerkleState_UnMarshal data = Ok m' /\
    MerkleState_Equal m m' = true.
Proof.
  destruct (Marshal_UnMarshal m l Hr Hl Hn Hh Hc) as (data & E & E'). exists data, (Trim m).
  split; [done|]. split; [done|]. apply MerkleState_Equal_Trim.
Qed.

Lemma MerkleState_roundtrip_witness :
  let m := add_all newMerkleState [sha256 [Byte.x01]; sha256 [Byte.x02]] in
  exists data m', MerkleState_Marshal m = Ok data /\ MerkleState_UnMarshal data = Ok m' /\
    MerkleState_Equal m m' = true.
Proof.
  apply (MerkleState_roundtrip (add_all newMerkleState [sha256 [Byte.x01]; sha256 [Byte.x02]])
    [sha256 [Byte.x01]; sha256 [Byte.x02]]).
  - by apply (Represents_add_all newMerkleState []); [apply Represents_new|].
  - rewrite !Forall_cons. split_and!; [apply sha256_length..|constructor].
  - done.
  - rewrite HashList_add_all. simpl. rewrite !Forall_cons.
    split_and!; [apply proper_hash32, sha256_length..|constructor].
  - rewrite HashList_add_all. done.
Defined.

(** Loading a malformed state panics instead of returning an error: a length of 2^63
    or more becomes negative and passes the bounds check before the slice expression. *)
Theorem MerkleState_UnMarshal_panics :
  is_Panic (MerkleState_UnMarshal (Common.Int64Bytes 1 ++ Common.Uint64Bytes (2 ^ 63))) = true /\
  is_Panic (Encoding.BytesUnmarshalBinary (Common.Uint64Bytes (2 ^ 63))) = true /\
  is_Panic (Encoding.ChainSetUnmarshalBinary (Common.Uint64Bytes (2 ^ 59))) = true.
Proof. vm_compute. split_and!; reflexivity. Qed.
