(* ===== verification/Receipt.v ===== *)
(** * Receipts: [smt/managed/receipt.go]

    A receipt is a path of hashes from an element of a Merkle tree to the root at
    an anchor.  [BuildReceiptWith] builds one from a source of intermediate
    hashes, which is a parameter in the code ([GetIntermediateFunc]) and here;
    what it needs of the source is the class [IntermediateSource], which the
    chain manager and the hasher both implement. *)

From S2P Require Import Prelude Sha256 Encoding MerkleTree MerkleState.
Local Open Scope Z_scope.

Record ReceiptEntry := mkEntry { Right : bool; EntryHash : Hash }.

Record Receipt := mkReceipt {
  Start : Hash;
  StartIndex : Z;
  End_ : Hash;
  EndIndex : Z;
  Anchor : Hash;
  Entries : list ReceiptEntry
}.

Definition newReceipt : Receipt := mkReceipt None 0 None 0 None [].

Definition Apply (n : ReceiptEntry) (hash : Hash) : Hash :=
  if Right n then Combine Sha256 hash (EntryHash n)
  else Combine Sha256 (EntryHash n) hash.

(** Applying a list of entries in order. *)
Definition apply_all (entries : list ReceiptEntry) (hash : Hash) : Hash :=
  foldl (fun h n => Apply n h) hash entries.

Definition Validate (r : Receipt) : bool :=
  Hash_Equal (apply_all (Entries r) (Start r)) (Anchor r).

(** First loop of [Contains]: advance along the entries of the outer receipt until
    the hashes agree; the entries left, or nothing when they run out. *)
Fixpoint contains_seek (entries : list ReceiptEntry) (hashSelf hashOther : Hash)
  : option (Hash * list ReceiptEntry) :=
  if Hash_Equal hashSelf hashOther then Some (hashSelf, entries)
  else match entries with
       | [] => None
       | e :: es => contains_seek es (Apply e hashSelf) hashOther
       end.

(** Second loop: walk both receipts in step. *)
Fixpoint contains_walk (other self : list ReceiptEntry) (hashSelf hashOther : Hash) : bool :=
  match other with
  | [] => true
  | e :: other' =>
      match self with
      | [] => false
      | s :: self' =>
          let hashSelf := Apply s hashSelf in
          let hashOther := Apply e hashOther in
          if Hash_Equal hashSelf hashOther then contains_walk other' self' hashSelf hashOther
          else false
      end
  end.

Definition Contains (r other : Receipt) : bool :=
  match contains_seek (Entries r) (Start r) (Start other) with
  | None => false
  | Some (hashSelf, rest) => contains_walk (Entries other) rest hashSelf (Start other)
  end.

Definition Receipt_Combine (r rm : Receipt) : res Receipt :=
  if Hash_Equal (Anchor r) (Start rm) then
    Ok (mkReceipt (Start r) (StartIndex r) (End_ r) (EndIndex r)
          (Anchor rm) (Entries r ++ Entries rm))
  else errorf "receipts cannot be combined: anchor doesn't match root merkle tree".

Fixpoint combine_rest (r : Receipt) (receipts : list Receipt) : res Receipt :=
  match receipts with
  | [] => Ok r
  | s :: rest =>
      match Receipt_Combine r s with
      | Ok r' => combine_rest r' rest
      | Err e => Err (mkError (err_status e) ("failed to combine receipts: " +:+ err_msg e))
      | Panic m => Panic m
      end
  end.

Definition CombineReceipts (receipts : list Receipt) : res Receipt :=
  match receipts with
  | [] => Panic "index out of range"
  | r :: rest => combine_rest r rest
  end.

(** ** Building a receipt *)

(** The loop up to the highest subtree between the element and the anchor.  It
    returns the entries and the height reached; every level takes at most two
    iterations, so [build_fuel] is enough for any 64-bit index. *)
Definition build_fuel : nat := 200.

Fixpoint build_loop (fuel : nat) (getIntermediate : Z -> Z -> res (Hash * Hash))
    (EndIdx idx height : Z) (stay : bool) (entries : list ReceiptEntry)
  : res (list ReceiptEntry * Z) :=
  match fuel with
  | O => Panic "out of fuel"
  | S f =>
      if EndIdx <? idx then Ok (entries, height)
      else if Z.land idx 1 =? 0 then
        build_loop f getIntermediate EndIdx (i64 (idx + 1)) height false entries
      else
        match getIntermediate idx height with
        | Panic m => Panic m
        | Err _ =>
            let next := i64 (2 ^ (height - 1)) in
            build_loop f getIntermediate EndIdx (i64 (idx + next)) height false entries
        | Ok (lHash, rHash) =>
            let entry := if stay then mkEntry false lHash else mkEntry true rHash in
            build_loop f getIntermediate EndIdx idx (height + 1) true (entries ++ [entry])
        end
  end.

(** The loop over the pending list of the anchor state. *)
Fixpoint pending_loop (hashFunc : bytes -> bytes) (pending : list Hash) (i height : Z)
    (intermediateHash : Hash) (stay : bool) (entries : list ReceiptEntry)
  : Hash * list ReceiptEntry :=
  match pending with
  | [] => (intermediateHash, entries)
  | None :: rest => pending_loop hashFunc rest (i + 1) height intermediateHash stay entries
  | Some v :: rest =>
      match intermediateHash with
      | None =>
          pending_loop hashFunc rest (i + 1) height (Some v)
            (if height - 1 =? i then true else stay) entries
      | Some _ =>
          let lastIH := intermediateHash in
          let intermediateHash := Combine hashFunc (Some v) intermediateHash in
          if i <? height - 1 then
            pending_loop hashFunc rest (i + 1) height intermediateHash stay entries
          else if stay then
            pending_loop hashFunc rest (i + 1) height intermediateHash stay
              (if height <=? i then entries ++ [mkEntry false (Some v)] else entries)
          else
            pending_loop hashFunc rest (i + 1) height intermediateHash true
              (entries ++ [mkEntry true lastIH])
      end
  end.

Definition BuildReceiptWith (r : Receipt) (getIntermediate : Z -> Z -> res (Hash * Hash))
    (hashFunc : bytes -> bytes) (anchorState : MerkleState) : res Receipt :=
  let! (entries, height) :=
    build_loop build_fuel getIntermediate (EndIndex r) (StartIndex r) 1 true (Entries r) in
  if EndIndex r =? 0 then
    Ok (mkReceipt (Start r) (StartIndex r) (End_ r) (EndIndex r) (Start r) entries)
  else
    let '(anchor, entries) :=
      pending_loop hashFunc (Pending anchorState) 0 height None false entries in
    Ok (mkReceipt (Start r) (StartIndex r) (End_ r) (EndIndex r) anchor entries).

(** ** Applying entries *)

Lemma hb_Apply n h h' : hb h = hb h' -> Apply n h = Apply n h'.
Proof. intros H. unfold Apply, Combine. by rewrite H. Qed.

Lemma hb_apply_all es h h' : hb h = hb h' -> hb (apply_all es h) = hb (apply_all es h').
Proof.
  destruct es as [|n es]; intros H; [done|]. unfold apply_all. simpl.
  by rewrite (hb_Apply n h h').
Qed.

Lemma apply_all_app es es' h : apply_all (es ++ es') h = apply_all es' (apply_all es h).
Proof. apply foldl_app. Qed.

Lemma Hash_Equal_eq h g : Hash_Equal h g = true <-> hb h = hb g.
Proof. apply bytes_eqb_eq. Qed.

Lemma Validate_iff r : Validate r = true <-> hb (apply_all (Entries r) (Start r)) = hb (Anchor r).
Proof. apply Hash_Equal_eq. Qed.

(** What the code needs of an intermediate-hash source, over the leaves [l] of
    the tree at the anchor. *)
Class IntermediateSource (gi : Z -> Z -> res (Hash * Hash)) (l : list bytes) : Prop :=
  intermediate_source : forall e h,
    0 <= e < zlen l -> Z.odd e = true -> 1 <= h -> intermediate_ok l e h (gi e h).

(** ** The first loop

    [climb l s h idx stay es]: the entries [es] lead from the leaf [s] to the node
    of height [h] above it, and [idx] is the last leaf under that node ([stay])
    or under its right sibling. *)

Definition climb (l : list bytes) (s h : nat) (idx : Z) (stay : bool)
    (es : list ReceiptEntry) (x : bytes) : Prop :=
  let j := (s / 2 ^ h)%nat in
  apply_all es (Some x) = Some (node h j l) /\
  ((j + 1) * 2 ^ h <= length l)%nat /\
  (if stay then idx + 1 = Z.of_nat ((j + 1) * 2 ^ h)
   else Nat.Even j /\ idx + 1 = Z.of_nat ((j + 2) * 2 ^ h)).

Lemma div_pow2_S s h : (s / 2 ^ S h = s / 2 ^ h / 2)%nat.
Proof. rewrite Nat.Div0.div_div. f_equal. rewrite pow2_S. lia. Qed.

Lemma climb_left l s h idx es x L R :
  climb l s h idx true es x -> intermediate_ok l idx (Z.of_nat h + 1) (Ok (L, R)) ->
  climb l s (S h) idx true (es ++ [mkEntry false L]) x.
Proof.
  intros (Ha & Hle & Hidx) Hi. unfold intermediate_ok in Hi. cbv zeta in Hi.
  replace (Z.to_nat (Z.of_nat h + 1 - 1)) with h in Hi by lia.
  set (j := (s / 2 ^ h)%nat) in *.
  replace (Z.to_nat (idx + 1)) with ((j + 1) * 2 ^ h)%nat in Hi by (by rewrite Hidx, Nat2Z.id).
  pose proof (pow2_pos h). rewrite Nat.div_mul in Hi by lia.
  destruct Hi as ([q Hq] & -> & ->). rewrite pow2_S in Hq.
  assert (Hj : (j + 1 = 2 * q)%nat) by nia.
  assert (Hjd : (j / 2 = q - 1)%nat).
  { replace j with (1 + (q - 1) * 2)%nat by lia. rewrite Nat.div_add by lia. done. }
  assert (Hcov : ((q - 1 + 1) * 2 ^ S h = (j + 1) * 2 ^ h)%nat).
  { rewrite Hj, pow2_S. replace (q - 1 + 1)%nat with q by lia. lia. }
  unfold climb. rewrite div_pow2_S. fold j. rewrite Hjd. split_and!.
  - rewrite apply_all_app, Ha. unfold apply_all. simpl. unfold Apply, Combine. simpl.
    rewrite node_S. unfold hash_pair, Sha256.
    replace (j + 1 - 2)%nat with (2 * (q - 1))%nat by lia.
    replace j with (2 * (q - 1) + 1)%nat by lia. done.
  - rewrite Hcov. done.
  - rewrite Hidx, Hcov. done.
Qed.

Lemma climb_right l s h idx es x L R :
  climb l s h idx false es x -> idx < zlen l ->
  intermediate_ok l idx (Z.of_nat h + 1) (Ok (L, R)) ->
  climb l s (S h) idx true (es ++ [mkEntry true R]) x.
Proof.
  intros (Ha & Hle & [q Hj] & Hidx) Hlt Hi. unfold intermediate_ok in Hi. cbv zeta in Hi.
  replace (Z.to_nat (Z.of_nat h + 1 - 1)) with h in Hi by lia.
  set (j := (s / 2 ^ h)%nat) in *.
  replace (Z.to_nat (idx + 1)) with ((j + 2) * 2 ^ h)%nat in Hi by (by rewrite Hidx, Nat2Z.id).
  pose proof (pow2_pos h). rewrite Nat.div_mul in Hi by lia.
  destruct Hi as (_ & -> & ->).
  assert (Hjd : (j / 2 = q)%nat) by (rewrite Hj, Nat.mul_comm, Nat.div_mul; lia).
  unfold climb. rewrite div_pow2_S. fold j. rewrite Hjd. split_and!.
  - rewrite apply_all_app, Ha. unfold apply_all. simpl. unfold Apply, Combine. simpl.
    rewrite node_S. unfold hash_pair, Sha256.
    replace (j + 2 - 1)%nat with (2 * q + 1)%nat by lia.
    replace j with (2 * q)%nat by lia. done.
  - unfold zlen in Hlt. rewrite pow2_S. nia.
  - rewrite Hidx, pow2_S. nia.
Qed.

(** The column ends: move to the right sibling. *)
Lemma climb_next l s h idx es x :
  climb l s h idx true es x -> ~ Nat.divide (2 ^ S h) (Z.to_nat (idx + 1)) ->
  climb l s h (idx + 2 ^ Z.of_nat h) false es x.
Proof.
  intros (Ha & Hle & Hidx) Hd. unfold climb. set (j := (s / 2 ^ h)%nat) in *.
  replace (Z.to_nat (idx + 1)) with ((j + 1) * 2 ^ h)%nat in Hd by (by rewrite Hidx, Nat2Z.id).
  split_and!; [done|done| |].
  - destruct (Nat.Even_or_Odd j) as [?|[q Hq]]; [done|]. exfalso. apply Hd.
    exists (q + 1)%nat. rewrite pow2_S. nia.
  - rewrite <- pow2_Z. nia.
Qed.

Lemma climb_divide l s h idx es x :
  climb l s h idx false es x -> Nat.divide (2 ^ S h) (Z.to_nat (idx + 1)).
Proof.
  intros (_ & _ & [q Hj] & ->). rewrite Nat2Z.id. exists (q + 1)%nat.
  rewrite pow2_S. set (j := (s / 2 ^ h)%nat) in *. nia.
Qed.

Lemma land_1_even idx : 0 <= idx -> (Z.land idx 1 =? 0) = negb (Z.odd idx).
Proof.
  intros H. change 1 with (Z.ones 1). rewrite Z.land_ones by lia. change (2 ^ 1) with 2.
  rewrite Zmod_odd. by destruct (Z.odd idx).
Qed.

Lemma odd_mul_pow2 q h : Z.odd (Z.of_nat (q * 2 ^ S h)) = false.
Proof.
  rewrite pow2_S. replace (q * (2 ^ h + 2 ^ h))%nat with (q * 2 ^ h * 2)%nat by lia.
  rewrite Nat2Z.inj_mul, Z.odd_mul. apply andb_false_r.
Qed.

(** The last leaf under a node of positive height is odd. *)
Lemma climb_odd l s h idx stay es x :
  climb l s h idx stay es x -> Z.odd idx = false -> h = O /\ stay = true.
Proof.
  intros Hc Hodd. pose proof (pow2_pos h).
  assert (He : Z.odd (idx + 1) = true) by (rewrite Z.odd_add, Hodd; done).
  destruct stay.
  - split; [|done]. destruct Hc as (_ & _ & Hidx). destruct h as [|h]; [done|].
    by rewrite Hidx, odd_mul_pow2 in He.
  - exfalso. pose proof (climb_divide _ _ _ _ _ _ Hc) as [q Hq].
    destruct Hc as (_ & _ & _ & Hidx). rewrite Hidx, Nat2Z.id in Hq.
    by rewrite Hidx, Hq, odd_mul_pow2 in He.
Qed.

Lemma climb_bounds l s h idx stay es x :
  climb l s h idx stay es x -> 0 <= idx <= 2 * zlen l /\ 2 ^ Z.of_nat h <= zlen l /\
  (stay = true -> idx < zlen l).
Proof.
  intros (_ & Hle & Hidx). pose proof (pow2_pos h). rewrite <- pow2_Z. unfold zlen.
  set (j := (s / 2 ^ h)%nat) in *. destruct stay.
  - split_and!; try nia.
  - destruct Hidx as [_ Hidx]. split_and!; try nia.
Qed.

Section BuildLoop.
Context (gi : Z -> Z -> res (Hash * Hash)) (l : list bytes).
Context `{!IntermediateSource gi l}.
Context (Hsmall : zlen l < 2 ^ 62).

Lemma build_loop_spec fuel s h idx stay es x :
  climb l s h idx stay es x ->
  2 * (62 - Z.of_nat h) + (if stay then 3 else 2) <= Z.of_nat fuel ->
  exists es' h' idx',
    build_loop fuel gi (zlen l - 1) idx (Z.of_nat h + 1) stay es = Ok (es', Z.of_nat h' + 1) /\
    climb l s h' idx' false es' x /\ zlen l <= idx'.
Proof.
  revert h idx stay es. induction fuel as [|f IH]; intros h idx stay es Hc Hf.
  { pose proof (climb_bounds _ _ _ _ _ _ _ Hc) as (_ & Hp & _).
    assert (Z.of_nat h < 62) by (apply (Z.pow_lt_mono_r_iff 2); lia).
    destruct stay; lia. }
  pose proof (climb_bounds _ _ _ _ _ _ _ Hc) as (Hi & Hp & Hst).
  assert (Hh : Z.of_nat h < 62) by (apply (Z.pow_lt_mono_r_iff 2); lia).
  simpl build_loop. destruct (Z.ltb_spec (zlen l - 1) idx) as [Hend|Hin].
  { destruct stay; [specialize (Hst eq_refl); lia|].
    exists es, h, idx. split_and!; [done|done|lia]. }
  rewrite land_1_even by lia. destruct (Z.odd idx) eqn:Ho; simpl negb; cbv iota.
  - (* odd: ask for the intermediate hashes *)
    pose proof (intermediate_source (gi:=gi) (l:=l) idx (Z.of_nat h + 1) ltac:(lia) Ho ltac:(lia)) as Hgi.
    destruct (gi idx (Z.of_nat h + 1)) as [[L R]|e|m].
    + replace (Z.of_nat h + 1 + 1) with (Z.of_nat (S h) + 1) by lia.
      apply IH; [|destruct stay; lia]. destruct stay.
      * by apply (climb_left _ _ _ _ _ _ L R).
      * by apply (climb_right _ _ _ _ _ _ L R); [|lia|].
    + unfold intermediate_ok in Hgi. cbv zeta in Hgi.
      replace (Z.to_nat (Z.of_nat h + 1 - 1)) with h in Hgi by lia.
      destruct stay; [|exfalso; eauto using climb_divide].
      replace (Z.of_nat h + 1 - 1) with (Z.of_nat h) by lia.
      rewrite (i64_small (2 ^ _)) by (unfold is_i64; pose proof (Z.pow_nonneg 2 (Z.of_nat h)); lia).
      rewrite i64_small by (unfold is_i64; pose proof (Z.pow_nonneg 2 (Z.of_nat h)); lia).
      apply IH; [by apply climb_next|lia].
    + done.
  - (* even: the element is a left leaf *)
    destruct (climb_odd _ _ _ _ _ _ _ Hc Ho) as [-> ->].
    rewrite i64_small by (unfold is_i64; lia).
    apply IH; [|lia]. change (idx + 1) with (idx + 2 ^ Z.of_nat 0).
    apply climb_next; [done|]. intros [q Hq]. change (2 ^ 1)%nat with 2%nat in Hq.
    assert (He : Z.odd (idx + 1) = true) by (rewrite Z.odd_add, Ho; done).
    replace (idx + 1) with (Z.of_nat q * 2) in He by lia.
    rewrite Z.odd_mul, andb_false_r in He. done.
Qed.
End BuildLoop.

(** ** The second loop *)

Lemma block_parity P q q' r :
  (r < P)%nat -> ((2 * q' + 1) * P <= q * (P + P) + r < (2 * q' + 2) * P)%nat -> False.
Proof.
  intros Hr [H1 H2].
  assert (q <= q' \/ q' + 1 <= q)%nat as [Hq|Hq] by lia.
  - assert (q * P <= q' * P)%nat by (apply Nat.mul_le_mono_r; lia). lia.
  - assert ((q' + 1) * P <= q * P)%nat by (apply Nat.mul_le_mono_r; lia). lia.
Qed.

Lemma block_index P q q' r :
  (r < P)%nat -> ((2 * q' + 1) * P <= q * (P + P) + (P + r) < (2 * q' + 2) * P)%nat -> q = q'.
Proof.
  intros Hr [H1 H2].
  assert (q = q' \/ q + 1 <= q' \/ q' + 1 <= q)%nat as [Hq|[Hq|Hq]] by lia; [done| |].
  - assert ((q + 1) * P <= q' * P)%nat by (apply Nat.mul_le_mono_r; lia). lia.
  - assert ((q' + 1) * P <= q * P)%nat by (apply Nat.mul_le_mono_r; lia). lia.
Qed.

(** Above the height of the proof: every root joins from the left. *)
Lemma pending_loop_above i p l0 r es x height :
  Rep i p l0 -> (0 < length r <= 2 ^ i)%nat -> height <= Z.of_nat i ->
  apply_all es x = Some (mth r) ->
  let '(a, es') := pending_loop Sha256 p (Z.of_nat i) height (Some (mth r)) true es in
  a = Some (mth (l0 ++ r)) /\ apply_all es' x = Some (mth (l0 ++ r)).
Proof.
  intros H. revert r es. induction H as [i|i p l0 H IH|i p l0 b H IH Hb];
    intros r es Hr Hh Hes; simpl.
  - done.
  - replace (Z.of_nat i + 1) with (Z.of_nat (S i)) by lia.
    apply IH; [rewrite pow2_S; lia|lia|done].
  - rewrite (proj2 (Z.ltb_ge (Z.of_nat i) (height - 1))) by lia.
    rewrite (proj2 (Z.leb_le height (Z.of_nat i))) by lia.
    assert (Hm : Combine Sha256 (Some (mroot i b)) (Some (mth r)) = Some (mth (b ++ r)))
      by (by rewrite (mth_app_mroot b r i)).
    rewrite Hm. replace (Z.of_nat i + 1) with (Z.of_nat (S i)) by lia.
    rewrite <- app_assoc. apply IH.
    + rewrite length_app, pow2_S. lia.
    + lia.
    + rewrite apply_all_app, Hes. done.
Qed.

(** Up to and at the height [h] of the proof, whose node is the root [b] kept in
    the pending list at [h]; [r] is what lies to its right. *)
Lemma pending_loop_spec i p l0 r es x h j l :
  Rep i p l0 -> l = l0 ++ r -> (length r < 2 ^ i)%nat -> (i <= h)%nat ->
  ((j + 1) * 2 ^ h <= length l < (j + 2) * 2 ^ h)%nat -> Nat.Even j ->
  apply_all es x = Some (node h j l) ->
  let ih := match r with [] => None | _ => Some (mth r) end in
  let '(a, es') := pending_loop Sha256 p (Z.of_nat i) (Z.of_nat h + 1) ih false es in
  a = Some (mth l) /\ apply_all es' x = Some (mth l).
Proof.
  intros H. revert r. induction H as [i|i p l0 H IH|i p l0 b H IH Hb];
    intros r -> Hr Hi Hl Hj Hes; cbv zeta.
  - exfalso. simpl in Hl. assert (2 ^ i <= 2 ^ h)%nat by (apply Nat.pow_le_mono_r; lia). nia.
  - simpl. replace (Z.of_nat i + 1) with (Z.of_nat (S i)) by lia.
    apply IH; [done|rewrite pow2_S; lia| |done|done|done].
    destruct (decide (i = h)) as [->|]; [exfalso|lia].
    destruct (Rep_divide _ _ _ H) as [q Hq], Hj as [q' Hj].
    rewrite length_app, Hq, pow2_S in Hl. subst j.
    apply (block_parity (2 ^ h) q q' (length r)); lia.
  - simpl pending_loop. replace (Z.of_nat i + 1) with (Z.of_nat (S i)) by lia.
    rewrite <- app_assoc in *.
    assert (Hm : r <> [] -> Combine Sha256 (Some (mroot i b)) (Some (mth r)) = Some (mth (b ++ r))).
    { intros Hne. rewrite (mth_app_mroot b r i); [done|done|]. destruct r; [done|simpl in *; lia]. }
    destruct (decide (i = h)) as [->|Hne].
    + (* the height of the proof *)
      assert (Hnode : node h j (l0 ++ b ++ r) = mroot h b).
      { unfold node. rewrite blk_app_mid; [done|done|].
        destruct (Rep_divide _ _ _ H) as [q Hq], Hj as [q' Hj].
        rewrite !length_app, Hq, Hb, pow2_S in Hl. subst j.
        rewrite Hq, pow2_S, (block_index (2 ^ h) q q' (length r)); lia. }
      rewrite Hnode in Hes. destruct r as [|y r].
      * replace (Z.of_nat h + 1 - 1 =? Z.of_nat h) with true by (symmetry; apply Z.eqb_eq; lia).
        rewrite app_nil_r in *. rewrite <- (mth_perfect h b) in * by done.
        replace (Z.of_nat h + 1) with (Z.of_nat (S h)) by lia.
        apply (pending_loop_above (S h)); [done| |lia|done].
        rewrite pow2_S. pose proof (pow2_pos h). lia.
      * rewrite (proj2 (Z.ltb_ge _ _)) by lia. rewrite Hm by done.
        replace (Z.of_nat h + 1) with (Z.of_nat (S h)) by lia.
        apply (pending_loop_above (S h)); [done| |lia|].
        -- rewrite length_app, pow2_S. pose proof (pow2_pos h). lia.
        -- rewrite apply_all_app, Hes, <- Hm by done. done.
    + (* below it *)
      assert (Hr' : (length (b ++ r) < 2 ^ S i)%nat) by (rewrite length_app, pow2_S; lia).
      specialize (IH (b ++ r) eq_refl Hr' ltac:(lia) Hl Hj Hes).
      destruct r as [|y r].
      * rewrite (proj2 (Z.eqb_neq _ _)) by lia. rewrite app_nil_r in *.
        rewrite <- (mth_perfect i b) by done. pose proof (pow2_pos i).
        destruct b; [simpl in Hb; lia|]. exact IH.
      * rewrite (proj2 (Z.ltb_lt _ _)) by lia. rewrite Hm by done.
        destruct b; [simpl in Hb; pose proof (pow2_pos i); lia|]. exact IH.
Qed.

(** ** Receipts are valid

    For any source of intermediate hashes over the leaves up to the anchor and the
    state at the anchor, the receipt built leads from the element to the Merkle
    root of those leaves. *)
Lemma BuildReceiptWith_valid gi (l : list bytes) (r : Receipt) (m : MerkleState) s x :
  IntermediateSource gi l -> Represents m l -> zlen l < 2 ^ 62 ->
  l !! s = Some x -> Start r = Some x -> StartIndex r = Z.of_nat s ->
  EndIndex r = zlen l - 1 -> Entries r = [] ->
  exists r', BuildReceiptWith r gi Sha256 m = Ok r' /\
    Start r' = Some x /\ StartIndex r' = Z.of_nat s /\ EndIndex r' = zlen l - 1 /\
    End_ r' = End_ r /\ Anchor r' = Some (mth l) /\
    apply_all (Entries r') (Some x) = Some (mth l).
Proof.
  intros Hgi [_ Hrep] Hsm Hs Hst Hsi Hei Hen.
  pose proof (lookup_lt_Some _ _ _ Hs) as Hlt.
  assert (Hc : climb l s 0 (Z.of_nat s) true [] x).
  { unfold climb. rewrite Nat.div_1_r. split_and!.
    - by rewrite (node_0 s l x).
    - simpl. lia.
    - simpl. lia. }
  destruct (build_loop_spec gi l Hsm build_fuel s 0 (Z.of_nat s) true [] x Hc)
    as (es & h & idx & Hloop & Hc' & Hge); [unfold build_fuel; lia|].
  unfold BuildReceiptWith. rewrite Hsi, Hei, Hen.
  change (Z.of_nat 0 + 1) with 1 in Hloop. rewrite Hloop. simpl.
  destruct (Z.eqb_spec (zlen l - 1) 0) as [H0|H0].
  - (* a single leaf *)
    assert (Hl1 : length l = 1%nat) by (unfold zlen in H0; lia).
    destruct l as [|y [|? ?]]; try discriminate.
    destruct s; [|simpl in Hlt; lia]. injection Hs as ->.
    destruct Hc' as (Ha & Hle & _). simpl length in Hle.
    assert (h = O) as -> by (destruct h; [done|rewrite pow2_S in Hle; pose proof (pow2_pos h); nia]).
    rewrite Hst. eexists. split; [reflexivity|]. simpl. split_and!; try done.
  - destruct Hc' as (Ha & Hle & Hev & Hidx).
    pose proof (pending_loop_spec 0 (Pending m) l [] es (Some x) h (s / 2 ^ h) l Hrep
                  ltac:(by rewrite app_nil_r) ltac:(simpl; lia) ltac:(lia)) as Hp.
    unfold zlen in Hge. specialize (Hp ltac:(lia) Hev Ha). cbv zeta iota in Hp.
    change (Z.of_nat 0) with 0 in Hp.
    destruct (pending_loop Sha256 (Pending m) 0 (Z.of_nat h + 1) None false es) as [a es'].
    destruct Hp as [-> Hes']. rewrite Hst. eexists. split; [reflexivity|]. simpl. by split_and!.
Qed.

(** ** Combining receipts *)

Lemma Receipt_Combine_valid r rm nr :
  Validate r = true -> Validate rm = true -> Receipt_Combine r rm = Ok nr ->
  Validate nr = true /\ Start nr = Start r /\ Anchor nr = Anchor rm.
Proof.
  rewrite !Validate_iff. unfold Receipt_Combine. intros Hr Hrm.
  destruct (Hash_Equal (Anchor r) (Start rm)) eqn:E; [|discriminate]. intros [= <-]. simpl.
  apply Hash_Equal_eq in E. split_and!; try done.
  rewrite apply_all_app. rewrite (hb_apply_all _ _ (Start rm)); [done|]. by rewrite Hr.
Qed.

Lemma combine_rest_valid rs r r' :
  Forall (fun r => Validate r = true) (r :: rs) -> combine_rest r rs = Ok r' ->
  Validate r' = true /\ Start r' = Start r /\
  Anchor r' = Anchor (default r (last rs)).
Proof.
  revert r. induction rs as [|s rs IH]; intros r Hall Hc; simpl in Hc.
  - injection Hc as <-. by apply Forall_cons in Hall as [? _].
  - apply Forall_cons in Hall as [Hr Hall]. pose proof Hall as [Hs Hrs]%Forall_cons.
    destruct (Receipt_Combine r s) as [nr| |] eqn:E; [|discriminate|discriminate].
    destruct (Receipt_Combine_valid _ _ _ Hr Hs E) as (Hnr & Hst & Han).
    destruct (IH nr ltac:(by constructor) Hc) as (Hv & Hs' & Ha).
    split_and!; [done|congruence|]. rewrite Ha, last_cons. by destruct (last rs).
Qed.

(** ** Containment *)

Lemma contains_seek_spec es h h' h1 rest :
  contains_seek es h h' = Some (h1, rest) ->
  exists pre, es = pre ++ rest /\ h1 = apply_all pre h /\ hb h1 = hb h'.
Proof.
  revert h. induction es as [|e es IH]; intros h; simpl;
    destruct (Hash_Equal h h') eqn:E; try discriminate.
  - intros [= <- <-]. exists []. apply Hash_Equal_eq in E. done.
  - intros [= <- <-]. exists []. apply Hash_Equal_eq in E. done.
  - intros H. destruct (IH _ H) as (pre & -> & -> & Hh). by exists (e :: pre).
Qed.

Lemma contains_walk_spec other self h h' :
  hb h = hb h' -> contains_walk other self h h' = true ->
  exists mid rest, self = mid ++ rest /\ length mid = length other /\
    hb (apply_all mid h) = hb (apply_all other h').
Proof.
  revert self h h'. induction other as [|e other IH]; intros self h h' Hh H.
  - exists [], self. done.
  - destruct self as [|s self]; [discriminate|]. cbn [contains_walk] in H.
    destruct (Hash_Equal (Apply s h) (Apply e h')) eqn:E; [|discriminate].
    apply Hash_Equal_eq in E.
    destruct (IH _ _ _ E H) as (mid & rest & -> & Hl & Hm).
    exists (s :: mid), rest. simpl. split_and!; [done|lia|done].
Qed.

(** ** Binding

    Two paths of the same shape to the same hash that start at different hashes
    contain a SHA-256 collision, found by [find_collision]. *)

Definition preimage (n : ReceiptEntry) (h : Hash) : bytes :=
  if Right n then hb h ++ hb (EntryHash n) else hb (EntryHash n) ++ hb h.

Fixpoint find_collision (es1 es2 : list ReceiptEntry) (h1 h2 : Hash) : option (bytes * bytes) :=
  match es1, es2 with
  | e1 :: es1', e2 :: es2' =>
      let p1 := preimage e1 h1 in
      let p2 := preimage e2 h2 in
      if bytes_eqb (sha256 p1) (sha256 p2) && negb (bytes_eqb p1 p2) then Some (p1, p2)
      else find_collision es1' es2' (Apply e1 h1) (Apply e2 h2)
  | _, _ => None
  end.

Lemma Apply_preimage n h : Apply n h = Some (sha256 (preimage n h)).
Proof. unfold Apply, preimage, Combine. by destruct (Right n). Qed.

Lemma preimage_inj e1 e2 h1 h2 :
  Right e1 = Right e2 -> length (hb h1) = length (hb h2) ->
  length (hb (EntryHash e1)) = length (hb (EntryHash e2)) ->
  preimage e1 h1 = preimage e2 h2 -> hb h1 = hb h2 /\ hb (EntryHash e1) = hb (EntryHash e2).
Proof.
  unfold preimage. intros -> Hl He. destruct (Right e2); intros H;
    apply app_inj_1 in H as [? ?]; auto.
Qed.

Definition hash32 (h : Hash) : Prop := length (hb h) = 32%nat.

Lemma find_collision_spec es1 es2 h1 h2 :
  Right <$> es1 = Right <$> es2 -> hash32 h1 -> hash32 h2 ->
  Forall (fun e => hash32 (EntryHash e)) es1 -> Forall (fun e => hash32 (EntryHash e)) es2 ->
  hb (apply_all es1 h1) = hb (apply_all es2 h2) ->
  (hb h1 = hb h2 /\ hb <$> (EntryHash <$> es1) = hb <$> (EntryHash <$> es2)) \/
  (exists x y, find_collision es1 es2 h1 h2 = Some (x, y) /\ x <> y /\ sha256 x = sha256 y).
Proof.
  revert es2 h1 h2. induction es1 as [|e1 es1 IH]; intros [|e2 es2] h1 h2 Hd Hh1 Hh2 H1 H2 Heq;
    try discriminate; [by left|].
  injection Hd as Hr Hd. apply Forall_cons in H1 as [He1 H1]. apply Forall_cons in H2 as [He2 H2].
  simpl find_collision. cbv zeta.
  destruct (IH es2 (Apply e1 h1) (Apply e2 h2)) as [[Hh Hes]|Hcol]; auto.
  - unfold hash32. rewrite Apply_preimage. apply sha256_length.
  - unfold hash32. rewrite Apply_preimage. apply sha256_length.
  - rewrite !Apply_preimage in Hh. simpl in Hh.
    rewrite (proj2 (bytes_eqb_eq _ _)) by done. simpl.
    destruct (bytes_eqb (preimage e1 h1) (preimage e2 h2)) eqn:Ep; simpl.
    + left. apply bytes_eqb_eq in Ep. unfold hash32 in *.
      apply preimage_inj in Ep as [Ha Hb]; [|congruence..].
      split; [done|]. csimpl. by f_equal.
    + right. eexists _, _. split; [reflexivity|]. split; [|done].
      intros Hp. by rewrite Hp, bytes_eqb_refl in Ep.
  - right. destruct (bytes_eqb (sha256 _) _ && _) eqn:E; [|done].
    apply andb_true_iff in E as [E1%bytes_eqb_eq E2]. eexists _, _.
    split; [reflexivity|]. split; [|done]. intros Hp. by rewrite Hp, bytes_eqb_refl in E2.
Qed.

(** ** Properties *)

(** Combining receipts is sound: from receipts that validate, [CombineReceipts]
    either fails or returns a receipt that validates, from the start of the first to
    the anchor of the last. *)
Theorem CombineReceipts_valid (r : Receipt) (rs : list Receipt) (r' : Receipt)
  (Hall : Forall (fun r => Validate r = true) (r :: rs)) (Hc : CombineReceipts (r :: rs) = Ok r') :
  Validate r' = true /\ Start r' = Start r /\ Anchor r' = Anchor (default r (last rs)).
Proof. by apply combine_rest_valid. Qed.

Lemma CombineReceipts_valid_witness :
  let a := Some (sha256 [Byte.x01]) in
  let b := Combine Sha256 a a in
  let r1 := mkReceipt a 0 None 0 b [mkEntry true a] in
  let r2 := mkReceipt b 0 None 0 (Combine Sha256 a b) [mkEntry false a] in
  exists r', CombineReceipts [r1; r2] = Ok r' /\ Validate r' = true.
Proof.
  intros a b r1 r2.
  assert (E : CombineReceipts [r1; r2] =
    Ok (mkReceipt a 0 None 0 (Anchor r2) (Entries r1 ++ Entries r2))) by (vm_compute; reflexivity).
  exists (mkReceipt a 0 None 0 (Anchor r2) (Entries r1 ++ Entries r2)). split; [exact E|].
  apply (CombineReceipts_valid r1 [r2] _); [|exact E].
  rewrite !Forall_cons. split_and!; [vm_compute; reflexivity..|constructor].
Defined.

(** [Contains] finds the inner receipt's path inside the outer's: when it holds, the
    outer receipt's entries split in three, the first part leads from its start to the
    inner start, and the middle part to the hash the inner receipt leads to. *)
Theorem Contains_sound (r other : Receipt) (Hc : Contains r other = true) :
  exists pre mid post, Entries r = pre ++ mid ++ post /\
    hb (apply_all pre (Start r)) = hb (Start other) /\ length mid = length (Entries other) /\
    hb (apply_all (pre ++ mid) (Start r)) = hb (apply_all (Entries other) (Start other)).
Proof.
  unfold Contains in Hc. destruct (contains_seek _ _ _) as [[h1 rest]|] eqn:E; [|done].
  destruct (contains_seek_spec _ _ _ _ _ E) as (pre & Hpre & -> & Hh).
  destruct (contains_walk_spec _ _ _ _ Hh Hc) as (mid & post & -> & Hlen & Hm).
  exists pre, mid, post. split; [done|]. split; [done|]. split; [done|]. by rewrite apply_all_app.
Qed.

Lemma Contains_sound_witness :
  let a := Some (sha256 [Byte.x01]) in
  let r := mkReceipt a 0 None 0 None [mkEntry true a; mkEntry false a] in
  exists pre mid post, Entries r = pre ++ mid ++ post /\ length mid = 1%nat.
Proof.
  set (a := Some (sha256 [Byte.x01])).
  destruct (Contains_sound (mkReceipt a 0 None 0 None [mkEntry true a; mkEntry false a])
    (mkReceipt (Combine Sha256 a a) 0 None 0 None [mkEntry false a])) as (pre & mid & post & E & _ & Hl & _).
  - vm_compute. reflexivity.
  - exists pre, mid, post. split; [exact E|exact Hl].
Defined.

(** C31. Receipts are binding: two receipts of the same shape over 32-byte hashes that
    validate against the same anchor have the same start and the same hashes, or
    [find_collision] computes a SHA-256 collision from them. *)
Theorem Validate_binding (r1 r2 : Receipt)
  (H1 : Validate r1 = true) (H2 : Validate r2 = true) (Ha : hb (Anchor r1) = hb (Anchor r2))
  (Hd : Right <$> Entries r1 = Right <$> Entries r2)
  (Hs1 : hash32 (Start r1)) (Hs2 : hash32 (Start r2))
  (He1 : Forall (fun e => hash32 (EntryHash e)) (Entries r1))
  (He2 : Forall (fun e => hash32 (EntryHash e)) (Entries r2)) :
  (hb (Start r1) = hb (Start r2) /\
   hb <$> (EntryHash <$> Entries r1) = hb <$> (EntryHash <$> Entries r2)) \/
  (exists x y, find_collision (Entries r1) (Entries r2) (Start r1) (Start r2) = Some (x, y) /\
    x <> y /\ sha256 x = sha256 y).
Proof.
  rewrite Validate_iff in H1, H2. apply find_collision_spec; try done. by rewrite H1, H2.
Qed.

Lemma Validate_binding_witness :
  let a := Some (sha256 [Byte.x01]) in
  let r := mkReceipt a 0 None 0 (Combine Sha256 a a) [mkEntry true a] in
  (hb (Start r) = hb (Start r) /\ hb <$> (EntryHash <$> Entries r) = hb <$> (EntryHash <$> Entries r)) \/
  (exists x y, find_collision (Entries r) (Entries r) (Start r) (Start r) = Some (x, y) /\
    x <> y /\ sha256 x = sha256 y).
Proof.
  set (a := Some (sha256 [Byte.x01])).
  apply (Validate_binding (mkReceipt a 0 None 0 (Combine Sha256 a a) [mkEntry true a])
    (mkReceipt a 0 None 0 (Combine Sha256 a a) [mkEntry true a])).
  - vm_compute. reflexivity.
  - vm_compute. reflexivity.
  - reflexivity.
  - reflexivity.
  - apply sha256_length.
  - apply sha256_length.
  - constructor; [apply sha256_length|constructor].
  - constructor; [apply sha256_length|constructor].
Defined.
