(* ===== verification/Hasher.v ===== *)
(** * The field hasher: [internal/encoding/hash/hasher.go]

    A [Hasher] collects the hashes of the fields of a value; its Merkle hash is the
    root over them, and it can prove one field with a receipt. *)

From S2P Require Import Prelude Sha256 Encoding MerkleTree MerkleState Receipt.
Local Open Scope Z_scope.
Import Binary.

Abbreviation Hasher := (list Hash).

(** [append] hashes the encoded value. *)
Definition hasher_append (h : Hasher) (v : bytes) : Hasher := h ++ [Some (sha256 v)].

Definition AddHash (h : Hasher) (v : bytes) : Hasher := h ++ [Some v].
Definition AddInt (h : Hasher) (v : Z) : Hasher := hasher_append h (PutVarint v).
Definition AddUint (h : Hasher) (v : Z) : Hasher := hasher_append h (PutUvarint v).
Definition AddBool (h : Hasher) (v : bool) : Hasher := AddUint h (if v then 1 else 0).
Definition AddTime (h : Hasher) (v : Z) : Hasher := AddInt h (Unix v).
Definition AddBytes (h : Hasher) (v : bytes) : Hasher := hasher_append h v.
Definition AddString (h : Hasher) (v : string) : Hasher :=
  hasher_append h (String.list_byte_of_string v).
Definition AddBigInt (h : Hasher) (v : Z) : Hasher := hasher_append h (big_Bytes v).
Definition AddValue (h : Hasher) (merkleHash : Hash) : Hasher := h ++ [merkleHash].
Definition AddEnum (h : Hasher) (id : Z) : Hasher := AddUint h id.

Definition MerkleHash (h : Hasher) : bytes :=
  match h with
  | [] => replicate 32 Byte.x00
  | _ => hb (GetMDRoot (foldl AddToMerkleTree newMerkleState h))
  end.

Definition hasher_Combine (l r : bytes) : bytes := sha256 (l ++ r).

(** The inner loop of [MerkleCascade], at height [i]. *)
Fixpoint cascade_add (cascade : list Hash) (i maxHeight : Z) (h : Hash) : list Hash :=
  if (maxHeight <? 0) || (i <? maxHeight) then
    match cascade with
    | [] => [h]
    | None :: rest => h :: rest
    | Some v :: rest => None :: cascade_add rest (i + 1) maxHeight (Some (hasher_Combine v (hb h)))
    end
  else cascade.

Definition MerkleCascade (cascade hashList : list Hash) (maxHeight : Z) : list Hash :=
  foldl (fun c h => cascade_add c 0 maxHeight h) cascade hashList.

(** [make([]byte, 32)] followed by [copy]. *)
Definition copy32 (b : bytes) : bytes := take 32 (b ++ replicate 32 Byte.x00).

Fixpoint cascade_up (cascade : list Hash) (right : bytes) : res bytes :=
  match cascade with
  | [] => Ok right
  | None :: _ => errorf "should not encounter a nil at height"
  | Some v :: rest => cascade_up rest (hasher_Combine v right)
  end.

Definition getIntermediate (h : Hasher) (element height : Z) : res (Hash * Hash) :=
  if negb (Z.rem element 2 =? 1) then errorf "element is not odd"
  else
    let! before := slice_to h element in
    let cascade := MerkleCascade [] before height in
    if zlen cascade <? height then errorf "no values found at height"
    else
      let! hash := index cascade (height - 1) in
      match hash with
      | None => errorf "nil at height"
      | Some l =>
          let! x := index h element in
          let! below := slice_to cascade (height - 1) in
          let! rhash := cascade_up below (copy32 (hb x)) in
          Ok (Some (copy32 l), Some rhash)
      end.

(** A nil receipt is [None]; the builder's error is a panic. *)
Definition Hasher_Receipt (h : Hasher) (start anchor : Z) : res (option Receipt) :=
  if (start <? 0) || (zlen h <=? start) || (anchor <? 0) || (zlen h <=? anchor) then Ok None
  else if zlen h =? 1 then
    let! x := index h 0 in
    Ok (Some (mkReceipt x 0 x 0 x []))
  else
    let! upto := slice_to h (anchor + 1) in
    let anchorState := PadPending (foldl AddToMerkleTree newMerkleState upto) in
    let! x := index h start in
    let r := mkReceipt x start None anchor x [] in
    match BuildReceiptWith r (getIntermediate h) Sha256 anchorState with
    | Ok r' => Ok (Some r')
    | Err e => Panic (err_msg e)
    | Panic m => Panic m
    end.

(** ** The root *)

Lemma foldl_add_all m l : foldl AddToMerkleTree m (Some <$> l) = add_all m l.
Proof. revert m. induction l as [|h l IH]; intros m; simpl; [done|]. apply IH. Qed.

Lemma MerkleHash_mth l :
  l <> [] -> zlen l < 2 ^ 63 -> MerkleHash (Some <$> l) = mth l.
Proof.
  intros Hne Hl. unfold MerkleHash. destruct l as [|x l]; [done|].
  change (Some <$> x :: l) with (Some x :: (Some <$> l)). cbv iota.
  change (Some x :: (Some <$> l)) with (Some <$> (x :: l)). rewrite foldl_add_all.
  rewrite (GetMDRoot_Represents _ (x :: l)); [done|].
  by apply (Represents_add_all newMerkleState [] (x :: l)); [apply Represents_new|].
Qed.

(** ** The truncated cascade

    [RepT n i c l]: the cascade [c] holds the roots of heights [i] to [i+n-1] of
    the leaves [l]; what is carried above is dropped. *)

Inductive RepT : nat -> nat -> list Hash -> list bytes -> Prop :=
  | RepT_cut i l : Nat.divide (2 ^ i) (length l) -> RepT 0 i [] l
  | RepT_nil n i : RepT n i [] []
  | RepT_None n i c l : RepT n (S i) c l -> RepT (S n) i (None :: c) l
  | RepT_Some n i c l b :
      RepT n (S i) c l -> length b = (2 ^ i)%nat -> RepT (S n) i (Some (mroot i b) :: c) (l ++ b).

Lemma RepT_divide n i c l : RepT n i c l -> Nat.divide (2 ^ i) (length l).
Proof.
  induction 1 as [i l H|n i|n i c l H IH|n i c l b H IH Hb]; [done|apply Nat.divide_0_r| |].
  - etrans; [|exact IH]. exists 2%nat. simpl. lia.
  - rewrite length_app, Hb. apply Nat.divide_add_r; [|apply Nat.divide_refl].
    etrans; [|exact IH]. exists 2%nat. simpl. lia.
Qed.

Lemma RepT_add n i c l b :
  RepT n i c l -> length b = (2 ^ i)%nat ->
  RepT n i (cascade_add c (Z.of_nat i) (Z.of_nat (i + n)) (Some (mroot i b))) (l ++ b).
Proof.
  intros H. revert b. induction H as [i l H|n i|n i c l H IH|n i c l b0 H IH Hb0]; intros b Hb.
  - simpl. rewrite (proj2 (Z.ltb_ge _ 0)), (proj2 (Z.ltb_ge _ _)) by lia. simpl.
    constructor. rewrite length_app, Hb. by apply Nat.divide_add_r; [|apply Nat.divide_refl].
  - simpl. rewrite (proj2 (Z.ltb_ge _ 0)) by lia.
    destruct (Z.ltb_spec (Z.of_nat i) (Z.of_nat (i + n))); simpl.
    + destruct n; [lia|]. apply (RepT_Some n i [] []); [constructor|done].
    + replace n with O by lia. constructor. rewrite Hb. apply Nat.divide_refl.
  - simpl. rewrite (proj2 (Z.ltb_ge _ 0)), (proj2 (Z.ltb_lt _ _)) by lia. simpl.
    by constructor.
  - simpl. rewrite (proj2 (Z.ltb_ge _ 0)), (proj2 (Z.ltb_lt _ _)) by lia. simpl.
    constructor. rewrite <- app_assoc.
    replace (Z.of_nat i + 1) with (Z.of_nat (S i)) by lia.
    replace (i + S n)%nat with (S i + n)%nat by lia.
    change (hasher_Combine (mroot i b0) (mroot i b)) with (hash_pair (mroot i b0) (mroot i b)).
    rewrite <- mroot_S by done.
    apply IH. rewrite length_app, pow2_S. lia.
Qed.

Lemma RepT_cascade n l : RepT n 0 (MerkleCascade [] (Some <$> l) (Z.of_nat n)) l.
Proof.
  induction l as [|x l IH] using rev_ind; [constructor|].
  unfold MerkleCascade in *. rewrite fmap_app, foldl_app. simpl.
  by apply (RepT_add n 0 _ l [x]).
Qed.

(** The part of [getIntermediate] after the cascade is built. *)
Definition intermediate_of (cascade : list Hash) (n : nat) (right : bytes) : res (Hash * Hash) :=
  match cascade !! (n - 1)%nat with
  | Some (Some l) =>
      let! r := cascade_up (take (n - 1) cascade) right in Ok (Some l, Some r)
  | _ => errorf "nil at height"
  end.

Lemma intermediate_of_None c n r :
  (1 < n)%nat -> exists e, intermediate_of (None :: c) n r = Err e.
Proof.
  intros Hn. unfold intermediate_of. destruct n as [|[|n]]; [lia|lia|].
  destruct ((None :: c) !! (S (S n) - 1)%nat) as [[l|]|]; eexists; reflexivity.
Qed.

Lemma intermediate_of_spec n i c l b :
  RepT n i c l -> length b = (2 ^ i)%nat -> (0 < n)%nat ->
  match intermediate_of c n (mroot i b) with
  | Ok (L, R) => exists l' bl br,
      l ++ b = l' ++ bl ++ br /\ Nat.divide (2 ^ (i + n)) (length l') /\
      length bl = (2 ^ (i + n - 1))%nat /\ length br = (2 ^ (i + n - 1))%nat /\
      L = Some (mroot (i + n - 1) bl) /\ R = Some (mroot (i + n - 1) br)
  | Err _ => ~ Nat.divide (2 ^ (i + n)) (length (l ++ b))
  | Panic _ => False
  end.
Proof.
  intros H. revert b. induction H as [i l H|n i|n i c l H IH|n i c l b0 H IH Hb0]; intros b Hb Hn.
  - lia.
  - unfold intermediate_of. rewrite lookup_nil. simpl.
    apply (not_divide_pow2 i (i + n) 0); [apply Nat.divide_0_r|done|lia].
  - assert (Hnd : ~ Nat.divide (2 ^ (i + S n)) (length (l ++ b))).
    { rewrite length_app. apply (not_divide_pow2 i); [by eapply RepT_divide|done|lia]. }
    destruct n as [|n]; [done|].
    destruct (intermediate_of_None c (S (S n)) (mroot i b) ltac:(lia)) as [e ->]. done.
  - destruct n as [|n].
    + unfold intermediate_of. simpl. exists l, b0, b.
      replace (i + 1)%nat with (S i) by lia. replace (S i - 1)%nat with i by lia.
      rewrite <- app_assoc. split_and!; auto. by eapply RepT_divide.
    + specialize (IH (b0 ++ b) ltac:(rewrite length_app, pow2_S; lia) ltac:(lia)).
      rewrite mroot_S in IH by done. rewrite app_assoc in IH.
      replace (i + S (S n))%nat with (S i + S n)%nat by lia.
      unfold intermediate_of in *. replace (S n - 1)%nat with n in IH by lia. exact IH.
Qed.

Lemma copy32_id b : length b = 32%nat -> copy32 b = b.
Proof. intros H. unfold copy32. by rewrite take_app_length'. Qed.

Lemma RepT_hashes n i c l v j :
  RepT n i c l -> Forall (fun h => length h = 32%nat) l -> c !! j = Some (Some v) -> length v = 32%nat.
Proof.
  intros H. revert j. induction H as [i l H|n i|n i c l H IH|n i c l b H IH Hb]; intros j Hl Hj.
  - by rewrite lookup_nil in Hj.
  - by rewrite lookup_nil in Hj.
  - destruct j; [discriminate|]. eauto.
  - apply Forall_app in Hl as [Hl Hlb]. destruct j; [|eauto].
    injection Hj as <-. by apply length_mroot.
Qed.

(** The code is the cascade followed by [intermediate_of]. *)
Lemma getIntermediate_unfold (l : list bytes) (e : Z) h x :
  Forall (fun h => length h = 32%nat) l -> Z.odd e = true -> 0 <= e -> 1 <= h ->
  l !! Z.to_nat e = Some x ->
  let c := MerkleCascade [] (Some <$> take (Z.to_nat e) l) h in
  match getIntermediate (Some <$> l) e h with
  | Ok p => intermediate_of c (Z.to_nat h) x = Ok p
  | Err _ => exists er, intermediate_of c (Z.to_nat h) x = Err er
  | Panic _ => False
  end.
Proof.
  intros Hl Ho He Hh Hx c. unfold getIntermediate.
  pose proof (lookup_lt_Some _ _ _ Hx) as Hlt.
  rewrite Z.rem_mod_nonneg by lia. rewrite Zmod_odd, Ho. simpl negb. cbv iota.
  rewrite slice_to_ok by (unfold zlen; rewrite length_fmap; lia). cbn [res_bind].
  rewrite <- fmap_take. fold c.
  pose proof (RepT_cascade (Z.to_nat h) (take (Z.to_nat e) l)) as HR.
  rewrite Z2Nat.id in HR by lia. fold c in HR.
  unfold intermediate_of.
  destruct (Z.ltb_spec (zlen c) h) as [Hs|Hs].
  - rewrite lookup_ge_None_2 by (unfold zlen in Hs; lia). eexists. reflexivity.
  - unfold index. rewrite (proj2 (Z.ltb_ge _ 0)) by lia.
    replace (Z.to_nat (h - 1)) with (Z.to_nat h - 1)%nat by lia.
    destruct (c !! (Z.to_nat h - 1)%nat) as [[v|]|] eqn:Ev; cbn [res_bind].
    + rewrite (proj2 (Z.ltb_ge e 0)) by lia.
      rewrite list_lookup_fmap, Hx. cbn [res_bind fmap option_fmap option_map].
      rewrite slice_to_ok by lia. cbn [res_bind]. change (hb (Some x)) with x.
      replace (Z.to_nat (h - 1)) with (Z.to_nat h - 1)%nat by lia.
      rewrite (copy32_id x) by (eapply Forall_lookup_1 in Hl; eauto).
      rewrite (copy32_id v) by (eapply RepT_hashes; [exact HR|by apply Forall_take|exact Ev]).
      assert (Hnp : forall q r, is_Panic (cascade_up q r) = false).
      { induction q as [|[?|] q IHq]; intros r; simpl; auto. }
      specialize (Hnp (take (Z.to_nat h - 1) c) x).
      destruct (cascade_up _ x) as [r|er|m]; simpl; [done|eauto|discriminate].
    + eexists. reflexivity.
    + apply lookup_ge_None in Ev. unfold zlen in Hs. lia.
Qed.

(** The hasher is a source of intermediate hashes over any prefix of its leaves. *)
#[global] Instance getIntermediate_source (l : list bytes) n :
  Forall (fun h => length h = 32%nat) l ->
  IntermediateSource (getIntermediate (Some <$> l)) (take n l).
Proof.
  intros Hl e h He Ho Hh.
  assert (Hlt : (Z.to_nat e < length l)%nat).
  { unfold zlen in He. rewrite length_take in He. lia. }
  assert (Hn : (Z.to_nat e < n)%nat).
  { unfold zlen in He. rewrite length_take in He. lia. }
  destruct (lookup_lt_is_Some_2 l _ Hlt) as [x Hx].
  pose proof (getIntermediate_unfold l e h x Hl Ho ltac:(lia) Hh Hx) as Hu. cbv zeta in Hu.
  set (l0 := take (Z.to_nat e) l) in *.
  pose proof (RepT_cascade (Z.to_nat h) l0) as HR. rewrite Z2Nat.id in HR by lia.
  pose proof (intermediate_of_spec _ 0 _ _ [x] HR eq_refl ltac:(lia)) as Hs.
  simpl mroot in Hs.
  assert (Htl : take n l = l0 ++ x :: take (n - S (Z.to_nat e)) (drop (S (Z.to_nat e)) l)) by (by apply take_split_at).
  rewrite Htl. clear Htl. set (k := Z.to_nat (h - 1)).
  assert (Hl0 : e = zlen l0) by (unfold l0, zlen; rewrite length_take; lia).
  replace h with (Z.of_nat k + 1) in * by (unfold k; lia).
  replace (Z.to_nat (Z.of_nat k + 1)) with (S k) in * by lia. simpl in Hs.
  destruct (getIntermediate (Some <$> l) e _) as [[L R]|er|m]; [| |done].
  - rewrite Hu in Hs. destruct Hs as (l' & bl & br & Heq & Hd & Hbl & Hbr & -> & ->).
    rewrite Nat.sub_0_r in *. by apply (intermediate_ok_intro l0 x _ e k l').
  - destruct Hu as [e' Hu]. rewrite Hu in Hs. unfold intermediate_ok.
    replace (Z.to_nat (Z.of_nat k + 1 - 1)) with k by lia.
    replace (Z.to_nat (e + 1)) with (length (l0 ++ [x])); [done|].
    rewrite length_app, Hl0. unfold zlen. simpl. lia.
Qed.

(** ** Properties *)

Lemma Represents_take l n :
  (n <= length l)%nat -> zlen l < 2 ^ 63 ->
  Represents (PadPending (foldl AddToMerkleTree newMerkleState (take n (Some <$> l)))) (take n l).
Proof.
  intros Hn Hl. rewrite <- fmap_take, foldl_add_all.
  destruct (Represents_add_all newMerkleState [] (take n l) Represents_new) as [Hc Hr].
  { unfold zlen in *. simpl. rewrite length_take. lia. }
  split; [done|]. simpl. by apply Rep_pad.
Qed.

(** The receipt of a field is valid: for 32-byte field hashes and any
    [start <= anchor] in range, [Hasher.Receipt] returns a receipt that starts at the
    field's hash, validates, and whose anchor is the Merkle root of the fields up to
    and including [anchor]. *)
Theorem Hasher_Receipt_valid (l : list bytes) (start anchor : nat) (x : bytes)
  (Hl : Forall (fun h => length h = 32%nat) l) (Hsmall : zlen l < 2 ^ 62)
  (Hle : (start <= anchor < length l)%nat) (Hx : l !! start = Some x) :
  exists r, Hasher_Receipt (Some <$> l) (Z.of_nat start) (Z.of_nat anchor) = Ok (Some r) /\
    Validate r = true /\ Start r = Some x /\ Anchor r = Some (mth (take (anchor + 1) l)).
Proof.
  unfold Hasher_Receipt.
  assert (Hzl : zlen (Some <$> l) = zlen l) by (unfold zlen; by rewrite length_fmap).
  rewrite Hzl. unfold zlen at 1 2.
  rewrite !(proj2 (Z.ltb_ge _ 0)), !(proj2 (Z.leb_gt _ _)) by lia. simpl orb.
  destruct (Z.eqb_spec (zlen l) 1) as [H1|H1].
  - assert (Hlen : length l = 1%nat) by (unfold zlen in H1; lia).
    destruct l as [|y [|? ?]]; try discriminate. destruct start; [|simpl in Hle; lia].
    destruct anchor; [|simpl in Hle; lia]. injection Hx as ->.
    eexists. split; [reflexivity|]. split_and!; try done. apply Hash_Equal_eq. done.
  - rewrite slice_to_ok by (rewrite Hzl; unfold zlen; lia). cbn [res_bind].
    replace (Z.to_nat (Z.of_nat anchor + 1)) with (anchor + 1)%nat by lia.
    rewrite (index_ok (Some <$> l) start (Some x)) by (by rewrite list_lookup_fmap, Hx).
    cbn [res_bind].
    set (m := PadPending _).
    assert (Hlt : zlen (take (anchor + 1) l) = Z.of_nat anchor + 1)
      by (unfold zlen; rewrite length_take; lia).
    destruct (BuildReceiptWith_valid (getIntermediate (Some <$> l)) (take (anchor + 1) l)
      (mkReceipt (Some x) (Z.of_nat start) None (Z.of_nat anchor) (Some x) []) m start x)
      as (r & -> & Hs & _ & _ & _ & Ha & Hall).
    + by apply getIntermediate_source.
    + apply Represents_take; [lia|unfold zlen in *; lia].
    + rewrite Hlt. unfold zlen in Hsmall. lia.
    + rewrite lookup_take_lt by lia. done.
    + done.
    + done.
    + simpl. lia.
    + done.
    + exists r. split_and!; try done. apply Validate_iff. by rewrite Hs, Hall, Ha.
Qed.

Lemma Hasher_Receipt_valid_witness :
  let l := [sha256 [Byte.x01]; sha256 [Byte.x02]; sha256 [Byte.x03]] in
  exists r, Hasher_Receipt (Some <$> l) 1 2 = Ok (Some r) /\
    Validate r = true /\ Start r = Some (sha256 [Byte.x02]) /\ Anchor r = Some (mth (take 3 l)).
Proof.
  apply (Hasher_Receipt_valid [sha256 [Byte.x01]; sha256 [Byte.x02]; sha256 [Byte.x03]] 1 2).
  - rewrite !Forall_cons. split_and!; [apply sha256_length..|constructor].
  - reflexivity.
  - simpl. lia.
  - reflexivity.
Defined.
