(* ===== verification/Sha512.v ===== *)
(** * SHA-512, the hash of the Go library's [crypto/sha512]

    Factom data entries are hashed with [sha512.Sum512].  As in Sha256 the function is
    executable, on 64-bit words held as [Z], with its constants computed from their
    definition. *)

From S2P Require Import Prelude Sha256 Encoding.
Local Open Scope Z_scope.

Definition w64 (z : Z) : Z := Z.land z 0xffffffffffffffff.
Definition rotr64 (n x : Z) : Z := Z.lor (Z.shiftr x n) (w64 (Z.shiftl x (64 - n))).

(** Three rotations, or two and a shift, of a word. *)
Definition rot3 (a b c x : Z) : Z := Z.lxor (Z.lxor (rotr64 a x) (rotr64 b x)) (rotr64 c x).
Definition rot2 (a b c x : Z) : Z := Z.lxor (Z.lxor (rotr64 a x) (rotr64 b x)) (Z.shiftr x c).
Definition ch64 (x y z : Z) : Z := Z.lxor (Z.land x y) (Z.land (Z.lxor x 0xffffffffffffffff) z).

(** The first 64 bits of the fractional parts of the roots of the first 80 primes. *)
Definition primes80 : list Z := Eval vm_compute in take 80 (Z.of_nat <$> List.filter is_prime (seq 2 410)).
Definition round_constants64 : list Z := Eval vm_compute in
  (fun p => w64 (cube_root 68 0 (p * 2 ^ 192))) <$> primes80.
Definition initial_state64 : list Z := Eval vm_compute in
  (fun p => w64 (Z.sqrt (p * 2 ^ 128))) <$> take 8 primes80.

Fixpoint be_words64 (fuel : nat) (l : bytes) : list Z :=
  match fuel, l with
  | O, _ | _, [] => []
  | S f, _ => Binary.be_value (take 8 l) :: be_words64 f (drop 8 l)
  end.

Fixpoint schedule64 (n : nat) (w : list Z) : list Z :=
  match n with
  | O => []
  | S n' =>
      let x := w64 (rot2 19 61 6 (nth 1 w 0) + nth 6 w 0 + rot2 1 8 7 (nth 14 w 0) + nth 15 w 0) in
      x :: schedule64 n' (x :: take 15 w)
  end.

Definition round64 (s : list Z) (kw : Z * Z) : list Z :=
  match s with
  | [a; b; c; d; e; f; g; h] =>
      let t1 := h + rot3 14 18 41 e + ch64 e f g + fst kw + snd kw in
      let t2 := rot3 28 34 39 a + maj a b c in
      [w64 (t1 + t2); a; b; c; w64 (d + t1); e; f; g]
  | _ => s
  end.

Definition compress64 (s block : list Z) : list Z :=
  let w := block ++ schedule64 64 (rev block) in
  zip_with (fun a b => w64 (a + b)) s (foldl round64 s (zip round_constants64 w)).

(** 0x80, zeros, and the bit length in sixteen bytes. *)
Definition padding64 (n : nat) : bytes :=
  Byte.x80 :: replicate ((239 - n mod 128) mod 128) Byte.x00 ++ Binary.be_bytes 16 (8 * Z.of_nat n).

Fixpoint blocks64 (fuel : nat) (s words : list Z) : list Z :=
  match fuel, words with
  | O, _ | _, [] => s
  | S f, _ => blocks64 f (compress64 s (take 16 words)) (drop 16 words)
  end.

Definition sha512 (m : bytes) : bytes :=
  let data := m ++ padding64 (length m) in
  let words := be_words64 (length data) data in
  mjoin (Binary.be_bytes 8 <$> blocks64 (length words) initial_state64 words).

(** Test vectors of FIPS 180-4. *)
Example sha512_abc :
  take 8 (b2z <$> sha512 [Byte.x61; Byte.x62; Byte.x63]) = [0xdd;0xaf;0x35;0xa1;0x93;0x61;0x7a;0xba].
Proof. vm_compute. reflexivity. Qed.

Example sha512_empty :
  take 8 (b2z <$> sha512 []) = [0xcf;0x83;0xe1;0x35;0x7e;0xef;0xb8;0xbd].
Proof. vm_compute. reflexivity. Qed.

Example sha512_two_blocks :
  take 4 (b2z <$> sha512 (replicate 112 Byte.x61)) = [0xc0;0x1d;0x08;0x0e].
Proof. vm_compute. reflexivity. Qed.

Arguments sha512 : simpl never.
