(* ===== verification/DataEntry.v ===== *)
(** * Data entries: [protocol/data_entry.go], [factom_data_entry.go],
      [lite_data_account.go] and their marshallers in [types_gen.go]

    An entry is a list of byte strings, or a Factom entry with its own binary format.
    The theorem is the round trip of that format for the entries the size check
    accepts. *)

From S2P Require Import Prelude Sha256 Sha512 Encoding Codec CodecProofs MerkleState Hasher.
Local Open Scope Z_scope.
Import Binary.

(** [AccountId] is a [[32]byte]. *)
Record FactomDataEntry := mkFactom { AccountId : bytes; fde_Data : bytes; ExtIds : list bytes }.

Inductive DataEntry :=
  | AccumulateDataEntry (Data : list bytes)
  | FactomDataEntryWrapper (e : FactomDataEntry).

Definition DataEntryTypeFactom : Z := 1.
Definition DataEntryTypeAccumulate : Z := 2.
Definition TransactionSizeMax : Z := 20480.

(** ** Factom entries *)

Definition zero_id : bytes := replicate 32 Byte.x00.

(** The loop over the external ids; a length is written as its low 16 bits. *)
Fixpoint marshal_ext_ids (ids : list bytes) : bytes :=
  match ids with
  | [] => []
  | data :: ids => be_bytes 2 (zlen data) ++ data ++ marshal_ext_ids ids
  end.

Definition FactomDataEntry_MarshalBinary (e : FactomDataEntry) : res bytes :=
  if bytes_eqb (AccountId e) zero_id then errorf "missing ChainID"
  else
    let ex := marshal_ext_ids (ExtIds e) in
    Ok (Byte.x00 :: AccountId e ++ be_bytes 2 (zlen ex) ++ ex ++ fde_Data e).

Definition LiteEntryHeaderSize : Z := 1 + 32 + 2.
Definition MaxInt32 : Z := 2 ^ 31 - 1.

(** The loop over the external ids, which shortens [data]. *)
Fixpoint unmarshal_ext_ids (fuel : nat) (data : bytes) : res (list bytes) :=
  match fuel with
  | O => Panic "out of fuel"
  | S fuel =>
      if zlen data <=? 0 then Ok []
      else if zlen data <? 2 then errorf "malformed extId"
      else
        let extIdSize := be_value (take 2 data) in
        let data := drop 2 data in
        if zlen data <? extIdSize then errorf "malformed extId"
        else
          let! rest := unmarshal_ext_ids fuel (drop (Z.to_nat extIdSize) data) in
          Ok (take (Z.to_nat extIdSize) data :: rest)
  end.

Definition FactomDataEntry_UnmarshalBinary (data : bytes) : res FactomDataEntry :=
  if (zlen data <? LiteEntryHeaderSize) || (MaxInt32 <? zlen data) then errorf "malformed entry header"
  else
    let data := drop 1 data in
    let accountId := take 32 data in
    let data := drop 32 data in
    let totalExtIdSize := be_value (take 2 data) in
    let data := drop 2 data in
    if (zlen data <? totalExtIdSize) || (totalExtIdSize =? 1) then errorf "malformed entry payload"
    else
      let n := Z.to_nat totalExtIdSize in
      let! ids := unmarshal_ext_ids (S (length data)) (take n data) in
      Ok (mkFactom accountId (drop n data) ids).

Definition ComputeFactomEntryHash (data : bytes) : bytes := sha256 (sha512 data ++ data).

(** A marshalling error is a panic. *)
Definition FactomDataEntry_Hash (e : FactomDataEntry) : res bytes :=
  match FactomDataEntry_MarshalBinary e with
  | Ok d => Ok (ComputeFactomEntryHash d)
  | Err e => Panic (err_msg e)
  | Panic s => Panic s
  end.

(** ** Entries *)

Definition GetData (e : DataEntry) : list bytes :=
  match e with
  | AccumulateDataEntry data => data
  | FactomDataEntryWrapper e => fde_Data e :: ExtIds e
  end.

Definition Hash (e : DataEntry) : res bytes :=
  match e with
  | AccumulateDataEntry data => Ok (MerkleHash (foldl AddBytes [] data))
  | FactomDataEntryWrapper e => FactomDataEntry_Hash e
  end.

(** What the generated marshallers do with the writer at the end. *)
Definition finish (w : Writer) : res bytes :=
  let '(_, _, err, b) := Writer_Reset w in
  match err with None => Ok b | Some e => errorf e end.

Definition to_marshal (m : res bytes) : bytes + string :=
  match m with Ok b => inl b | Err e => inr (err_msg e) | Panic s => inr s end.

Definition DataEntry_MarshalBinary (e : DataEntry) : res bytes :=
  match e with
  | AccumulateDataEntry data =>
      finish (foldl (fun w v => WriteBytes 2 v w) (WriteEnum 1 DataEntryTypeAccumulate NewWriter) data)
  | FactomDataEntryWrapper e =>
      finish (WriteValue 2 (to_marshal (FactomDataEntry_MarshalBinary e))
                (WriteEnum 1 DataEntryTypeFactom NewWriter))
  end.

Definition CheckDataEntrySize (e : DataEntry) : res Z :=
  let! b := DataEntry_MarshalBinary e in
  if TransactionSizeMax <? zlen b then errorf "data amount exceeds byte entry limit"
  else if zlen b <=? 0 then errorf "no data provided for WriteData"
  else Ok (zlen b).

(** ** Lite data accounts *)

(** The chain id of the first entry, from its external ids; a nil entry gives 64
    zeros. *)
Definition ComputeLiteDataAccountId (firstEntry : option DataEntry) : bytes :=
  match firstEntry with
  | None => replicate 64 Byte.x00
  | Some e => sha256 (mjoin (sha256 <$> drop 1 (GetData e)))
  end.

Definition ComputeFactomEntryHashForAccount (accountId : option bytes) (entry : option (list bytes)) : res bytes :=
  match entry with
  | None => errorf "cannot compute lite entry hash, missing entry"
  | Some entry =>
      let data := default [] (head entry) in
      let ids := drop 1 entry in
      let copy b := take 32 (b ++ drop (length b) zero_id) in
      let id := match accountId with
                | None => ComputeLiteDataAccountId (Some (FactomDataEntryWrapper (mkFactom zero_id data ids)))
                | Some a => a
                end in
      FactomDataEntry_Hash (mkFactom (copy id) data ids)
  end.

(** ** The round trip *)

Definition ext_size (ids : list bytes) : Z := foldr (fun b n => 2 + zlen b + n) 0 ids.

Lemma zlen_be2 n : zlen (be_bytes 2 n) = 2.
Proof. unfold zlen. by rewrite length_be_bytes. Qed.

Lemma zlen_marshal_ext_ids ids : zlen (marshal_ext_ids ids) = ext_size ids.
Proof.
  induction ids as [|b ids IH]; [done|]. cbn [marshal_ext_ids ext_size foldr]. unfold ext_size in IH.
  rewrite !zlen_app, IH, zlen_be2. lia.
Qed.

Lemma ext_size_in b ids : b ∈ ids -> 2 + zlen b <= ext_size ids.
Proof.
  induction ids as [|c ids IH]; [by intros ?%not_elem_of_nil|]. intros [->|H]%elem_of_cons; cbn.
  - assert (0 <= ext_size ids) by (rewrite <- zlen_marshal_ext_ids; apply zlen_nonneg). unfold ext_size in *. lia.
  - specialize (IH H). pose proof (zlen_nonneg c). unfold ext_size in *. lia.
Qed.

Lemma be2_value (n : Z) l : 0 <= n < 2 ^ 16 -> be_value (take 2 (be_bytes 2 n ++ l)) = n.
Proof.
  intros H. rewrite take_app_le by (by rewrite length_be_bytes).
  rewrite take_ge by (by rewrite length_be_bytes). by apply be_value_bytes.
Qed.

Lemma drop_app_zlen {A} (l k : list A) n : n = zlen l -> drop (Z.to_nat n) (l ++ k) = k.
Proof. intros ->. unfold zlen. rewrite Nat2Z.id. apply drop_app_length. Qed.

Lemma take_app_zlen {A} (l k : list A) n : n = zlen l -> take (Z.to_nat n) (l ++ k) = l.
Proof. intros ->. unfold zlen. rewrite Nat2Z.id. apply take_app_length. Qed.

Lemma drop2_be n l : drop 2 (be_bytes 2 n ++ l) = l.
Proof. change 2%nat with (Z.to_nat 2) at 1. apply drop_app_zlen. by rewrite zlen_be2. Qed.

Lemma unmarshal_marshal_ext_ids ids fuel :
  ext_size ids < 2 ^ 16 -> (length (marshal_ext_ids ids) < fuel)%nat ->
  unmarshal_ext_ids fuel (marshal_ext_ids ids) = Ok ids.
Proof.
  revert fuel. induction ids as [|b ids IH]; intros [|fuel] Hs Hf; try lia; [done|].
  cbn [unmarshal_ext_ids marshal_ext_ids ext_size foldr] in *. unfold ext_size in *.
  assert (0 <= foldr (fun b n => 2 + zlen b + n) 0 ids).
  { fold (ext_size ids). rewrite <- zlen_marshal_ext_ids. apply zlen_nonneg. }
  pose proof (zlen_nonneg b). rewrite !length_app, length_be_bytes in Hf.
  destruct (Z.leb_spec (zlen (be_bytes 2 (zlen b) ++ b ++ marshal_ext_ids ids)) 0) as [Hz|_];
    [rewrite !zlen_app, zlen_be2 in Hz; pose proof (zlen_nonneg (marshal_ext_ids ids)); lia|].
  rewrite (proj2 (Z.ltb_ge _ 2)) by (rewrite !zlen_app, zlen_be2; pose proof (zlen_nonneg (marshal_ext_ids ids)); lia).
  rewrite be2_value, drop2_be by lia.
  rewrite (proj2 (Z.ltb_ge _ _)) by (rewrite zlen_app; pose proof (zlen_nonneg (marshal_ext_ids ids)); lia).
  rewrite drop_app_zlen, take_app_zlen by done. rewrite IH by lia. done.
Qed.

Lemma take_cons_app32 (a : bytes) x l : length a = 32%nat -> take 32 (drop 1 (x :: a ++ l)) = a.
Proof. intros H. cbn [drop]. rewrite <- H. apply take_app_length. Qed.

Lemma FactomDataEntry_MarshalBinary_Ok e b : FactomDataEntry_MarshalBinary e = Ok b ->
  b = Byte.x00 :: AccountId e ++ be_bytes 2 (zlen (marshal_ext_ids (ExtIds e))) ++ marshal_ext_ids (ExtIds e) ++ fde_Data e.
Proof. unfold FactomDataEntry_MarshalBinary. destruct (bytes_eqb _ _); [done|]. congruence. Qed.

Lemma drop_cons_app32 (a : bytes) x l : length a = 32%nat -> drop 32 (drop 1 (x :: a ++ l)) = l.
Proof. intros H. change (drop 1 (x :: a ++ l)) with (a ++ l). rewrite <- H. apply drop_app_length. Qed.

(** Marshalling and unmarshalling, for lengths that fit in 16 bits. *)
Lemma factom_roundtrip e b :
  length (AccountId e) = 32%nat -> ext_size (ExtIds e) < 2 ^ 16 -> FactomDataEntry_MarshalBinary e = Ok b ->
  zlen b <= MaxInt32 -> FactomDataEntry_UnmarshalBinary b = Ok e.
Proof.
  intros Hid Hs Hm%FactomDataEntry_MarshalBinary_Ok Hb. subst b. set (ex := marshal_ext_ids (ExtIds e)) in *.
  assert (Hex : zlen ex = ext_size (ExtIds e)) by apply zlen_marshal_ext_ids.
  pose proof (zlen_nonneg ex). pose proof (zlen_nonneg (fde_Data e)).
  unfold FactomDataEntry_UnmarshalBinary.
  assert (Hlen : zlen (Byte.x00 :: AccountId e ++ be_bytes 2 (zlen ex) ++ ex ++ fde_Data e)
    = 35 + zlen ex + zlen (fde_Data e)).
  { assert (Hid' : zlen (AccountId e) = 32) by (unfold zlen; by rewrite Hid).
    rewrite zlen_cons, !zlen_app, zlen_be2, Hid'. lia. }
  rewrite Hlen in Hb |- *. rewrite (proj2 (Z.ltb_ge _ _)) by (unfold LiteEntryHeaderSize; lia).
  rewrite (proj2 (Z.ltb_ge _ _)) by lia. cbn [orb].
  rewrite take_cons_app32, drop_cons_app32, drop2_be, be2_value by (done || lia).
  rewrite (proj2 (Z.ltb_ge _ _)) by (rewrite zlen_app; lia). cbn [orb].
  destruct (Z.eqb_spec (zlen ex) 1) as [E1|_].
  { exfalso. rewrite Hex in E1. destruct (ExtIds e) as [|b0 ids]; [done|]. cbn in E1.
    assert (0 <= ext_size ids) by (rewrite <- zlen_marshal_ext_ids; apply zlen_nonneg).
    pose proof (zlen_nonneg b0). unfold ext_size in *. lia. }
  rewrite take_app_zlen, drop_app_zlen by done. subst ex. rewrite unmarshal_marshal_ext_ids; [by destruct e|lia|].
  rewrite length_app. lia.
Qed.

(** The writer finished without an error, after everything it holds. *)
Lemma finish_Ok w b : finish w = Ok b -> w_err w = None /\ zlen (w_buf w) <= zlen b.
Proof.
  unfold finish, Writer_Reset. destruct (w_written w =? 0); cbn [did_write w_err w_buf w_last w_written];
    destruct (w_err w); intros H; simplify_eq; (split; [done|]); rewrite ?zlen_app; pose proof (zlen_nonneg [z2b EmptyObject]); lia.
Qed.

Lemma WriteBytes_buf n b w : w_err (WriteBytes n b w) = None -> zlen b <= zlen (w_buf (WriteBytes n b w)).
Proof.
  unfold WriteBytes, writeRaw, unless_err. destruct (w_err (writeUint _ _ _)) eqn:E; [by rewrite E|].
  destruct (MaxValueSize <? zlen b); cbn [didWrite_err did_write w_err w_buf]; [done|]. intros _. rewrite zlen_app.
  pose proof (zlen_nonneg (w_buf (writeUint n (zlen b) (writeField n w)))). lia.
Qed.

(** What an accepted Factom entry's marshaller wrote. *)
Lemma wrapper_marshal e b :
  DataEntry_MarshalBinary (FactomDataEntryWrapper e) = Ok b ->
  exists d, FactomDataEntry_MarshalBinary e = Ok d /\ zlen d <= zlen b.
Proof.
  unfold DataEntry_MarshalBinary. intros [He Hb]%finish_Ok.
  destruct (FactomDataEntry_MarshalBinary e) as [d|er|] eqn:Ed.
  - exists d. split; [done|]. cbn [to_marshal WriteValue] in He, Hb. pose proof (WriteBytes_buf _ _ _ He). lia.
  - exfalso. by vm_compute in He.
  - unfold FactomDataEntry_MarshalBinary in Ed. by destruct (bytes_eqb _ _).
Qed.

Lemma zlen_marshal e d : FactomDataEntry_MarshalBinary e = Ok d -> ext_size (ExtIds e) <= zlen d.
Proof.
  intros ->%FactomDataEntry_MarshalBinary_Ok. rewrite zlen_cons, !zlen_app, <- zlen_marshal_ext_ids.
  pose proof (zlen_nonneg (AccountId e)). pose proof (zlen_nonneg (fde_Data e)).
  pose proof (zlen_nonneg (be_bytes 2 (zlen (marshal_ext_ids (ExtIds e))))). lia.
Qed.

(** Every Factom entry that [CheckDataEntrySize] accepts survives its binary format:
    the 16-bit lengths do not wrap within the size limit. *)
Theorem checked_entry_roundtrip (e : FactomDataEntry) (n : Z) (Hid : length (AccountId e) = 32%nat)
    (Hc : CheckDataEntrySize (FactomDataEntryWrapper e) = Ok n) :
  exists d, FactomDataEntry_MarshalBinary e = Ok d /\ FactomDataEntry_UnmarshalBinary d = Ok e /\
    FactomDataEntry_Hash e = Ok (sha256 (sha512 d ++ d)).
Proof.
  unfold CheckDataEntrySize in Hc. inv_res. destruct (wrapper_marshal _ _ Hv) as (d & Hd & Hle).
  destruct (Z.ltb_spec TransactionSizeMax (zlen v)) as [|Hmax]; [done|]. exists d. split; [done|]. split.
  - pose proof (zlen_marshal _ _ Hd). unfold TransactionSizeMax, MaxInt32 in *.
    apply (factom_roundtrip e d Hid); [|done|unfold MaxInt32]; lia.
  - unfold FactomDataEntry_Hash. by rewrite Hd.
Qed.

Lemma checked_entry_roundtrip_witness :
  exists d, FactomDataEntry_MarshalBinary (mkFactom (replicate 32 Byte.x01) [Byte.x02] [[Byte.x03; Byte.x04]; []]) = Ok d /\
    length d = 42%nat.
Proof.
  destruct (checked_entry_roundtrip (mkFactom (replicate 32 Byte.x01) [Byte.x02] [[Byte.x03; Byte.x04]; []]) 46)
    as (d & Hd & _).
  - reflexivity.
  - vm_compute. reflexivity.
  - exists d. split; [exact Hd|]. vm_compute in Hd. injection Hd as <-. reflexivity.
Defined.

(** A longer external id is lost silently: its length is written modulo [2 ^ 16], and
    the id becomes the entry's data. *)
Lemma long_ext_id_lost b : zlen b = 2 ^ 16 ->
  exists d, FactomDataEntry_MarshalBinary (mkFactom (replicate 32 Byte.x01) [] [b]) = Ok d /\
    FactomDataEntry_UnmarshalBinary d = Ok (mkFactom (replicate 32 Byte.x01) b [[]]).
Proof.
  intros Hb. eexists. split; [reflexivity|]. cbn [AccountId ExtIds fde_Data marshal_ext_ids]. rewrite !app_nil_r.
  rewrite zlen_app, zlen_be2, Hb. change (be_bytes 2 (2 + 2 ^ 16)) with [Byte.x00; Byte.x02].
  change (be_bytes 2 (2 ^ 16)) with [Byte.x00; Byte.x00].
  unfold FactomDataEntry_UnmarshalBinary. rewrite zlen_cons, !zlen_app, Hb.
  cbn -[Z.pow zlen]. replace (zlen (Byte.x00 :: Byte.x00 :: b)) with (2 + 2 ^ 16) by (rewrite !zlen_cons, Hb; lia).
  reflexivity.
Qed.
