(* ===== verification/Chain.v ===== *)
(** * The chain manager: [smt/managed/merklemanager.go], [merklemanagerrange.go],
      [receiptlist.go] and the manager half of [receipt.go]

    A chain is a Merkle tree persisted as records: the head state, a copy of the
    state at every mark point, every element, and the index of every element's hash.
    The manager is written against the interface [ChainStore] of those records;
    what it relies on is the class [ChainStoreLaws], a simulation by finite maps. *)

From S2P Require Import Prelude Sha256 Encoding MerkleTree MerkleState Receipt.
Local Open Scope Z_scope.

(** ** The records of a chain *)

(** [record.MapKeyBytes]. *)
Definition MapKeyBytes (v : bytes) : bytes :=
  if zlen v =? 32 then v else sha256 v.

Class ChainStore (S : Type) := {
  Head_Get : S -> res MerkleState;
  Head_Put : MerkleState -> S -> res S;
  States_Get : Z -> S -> res MerkleState;
  States_Put : Z -> MerkleState -> S -> res S;
  ElementIndex_Get : bytes -> S -> res Z;
  ElementIndex_Put : bytes -> Z -> S -> res S;
  Element_Get : Z -> S -> res Hash;
  Element_Put : Z -> Hash -> S -> res S
}.

(** What the records hold, as finite maps. *)
Record ChainView := mkView {
  v_head : MerkleState;
  v_states : gmap Z MerkleState;
  v_index : gmap bytes Z;
  v_element : gmap Z Hash
}.

Definition found {A} (o : option A) : res A :=
  match o with Some a => Ok a | None => errors_new StatusNotFound "not found" end.

(** A missing head reads as an empty state; any other missing record is a
    [NotFound] error; writes are visible to the reads that follow. *)
Class ChainStoreLaws (S : Type) `{ChainStore S} := {
  view : S -> ChainView;
  Head_Get_view s : Head_Get s = Ok (v_head (view s));
  States_Get_view i s : States_Get i s = found (v_states (view s) !! i);
  ElementIndex_Get_view h s : ElementIndex_Get h s = found (v_index (view s) !! MapKeyBytes h);
  Element_Get_view i s : Element_Get i s = found (v_element (view s) !! i);
  Head_Put_view m s : exists s', Head_Put m s = Ok s' /\
    view s' = mkView m (v_states (view s)) (v_index (view s)) (v_element (view s));
  States_Put_view i m s : exists s', States_Put i m s = Ok s' /\
    view s' = mkView (v_head (view s)) (<[i := m]> (v_states (view s)))
                (v_index (view s)) (v_element (view s));
  ElementIndex_Put_view h i s : exists s', ElementIndex_Put h i s = Ok s' /\
    view s' = mkView (v_head (view s)) (v_states (view s))
                (<[MapKeyBytes h := i]> (v_index (view s))) (v_element (view s));
  Element_Put_view i h s : exists s', Element_Put i h s = Ok s' /\
    view s' = mkView (v_head (view s)) (v_states (view s)) (v_index (view s))
                (<[i := h]> (v_element (view s)))
}.

(** ** The manager *)

Record Chain := mkChain { markPower : Z; markFreq : Z; markMask : Z }.

(** [int64(math.Pow(2, float64(markPower)))] is exact below 2^63. *)
Definition NewChain (power : Z) : Chain :=
  let freq := i64 (2 ^ power) in mkChain power freq (freq - 1).

Section Manager.
Context {S : Type} `{!ChainStore S} (c : Chain).

(** [element & ^markMask]. *)
Definition mark_floor (element : Z) : Z := Z.land element (Z.lnot (markMask c)).

(** The second half of [AddHash]: the element, the mark point and the head. *)
Definition add_element (head : MerkleState) (hash : Hash) (s : S) : res S :=
  let! s := Element_Put (u64 (Count head)) hash s in
  let sw := Z.land (Count head + 1) (markMask c) in
  let! (head, s) :=
    if sw =? 0 then
      let head := AddToMerkleTree head hash in
      let! s := States_Put (u64 (u64 (Count head) - 1)) (MerkleState_Copy head) s in
      Ok (head, s)
    else if sw =? 1 then Ok (AddToMerkleTree (set_HashList head []) hash, s)
    else Ok (AddToMerkleTree head hash, s) in
  match Head_Put head s with
  | Ok s => Ok s
  | Err e => errorf ("error writing chain head: " +:+ err_msg e)
  | Panic m => Panic m
  end.

Definition AddHash (hash : Hash) (unique : bool) (s : S) : res S :=
  let! head := Head_Get s in
  match ElementIndex_Get (hb hash) s with
  | Err e =>
      if is_not_found e then
        let! s := ElementIndex_Put (hb hash) (u64 (Count head)) s in add_element head hash s
      else Err e
  | Ok _ => if unique then Ok s else add_element head hash s
  | Panic m => Panic m
  end.

Definition GetElementIndex (hash : bytes) (s : S) : res Z :=
  let! i := ElementIndex_Get hash s in Ok (i64 i).

Definition Get (element : Z) (s : S) : res Hash := Element_Get (u64 element) s.

(** The state stored for an element, nil when there is none.  On an empty chain
    the error test is inverted: the missing element's nil hash is added. *)
Definition GetState (element : Z) (s : S) : res (option MerkleState) :=
  let stored :=
    match States_Get (u64 element) s with
    | Ok ms => Ok (Some (MerkleState_Copy ms))
    | Err _ => Ok None
    | Panic m => Panic m
    end in
  match Head_Get s with
  | Ok head =>
      if Count head =? 0 then
        match Get element s with
        | Ok _ => Ok (Some newMerkleState)
        | Err _ => Ok (Some (AddToMerkleTree newMerkleState None))
        | Panic m => Panic m
        end
      else stored
  | Err _ => stored
  | Panic m => Panic m
  end.

(** Add hashes until the element is in. *)
Fixpoint walk_to (element : Z) (cState : MerkleState) (hashes : list Hash) : MerkleState :=
  match hashes with
  | [] => cState
  | v :: rest =>
      if element + 1 =? Count cState then cState
      else walk_to element (AddToMerkleTree cState v) rest
  end.

Definition GetAnyState (element : Z) (s : S) : res MerkleState :=
  if element =? -1 then Ok newMerkleState
  else
    let! ms := GetState element s in
    match ms with
    | Some ms => Ok ms
    | None =>
        let! head := Head_Get s in
        if Count head <=? element then errors_new StatusBadRequest "element out of range"
        else
          let MIPrev := mark_floor element - 1 in
          let! cState := GetState MIPrev s in
          let cState := if MIPrev <? 0 then Some newMerkleState else cState in
          match cState with
          | None => errors_new StatusInternalError "should have a state for all elements(1)"
          | Some cState =>
              let cState := set_HashList cState [] in
              let MINext := mark_floor element - 1 + markFreq c in
              let! NMark :=
                if Count head <=? MINext then Head_Get s
                else
                  let! NMark := GetState MINext s in
                  match NMark with
                  | Some NMark => Ok NMark
                  | None => errors_new StatusInternalError "mark not found in the database"
                  end in
              let cState := walk_to element cState (HashList NMark) in
              Ok (if Z.land (Count cState) (markMask c) =? 0 then set_HashList cState [] else cState)
          end
    end.

Definition Chain_GetIntermediate (s : S) (element height : Z) : res (Hash * Hash) :=
  let! hash := Get element s in
  let! st := GetAnyState (element - 1) s in
  MerkleState_GetIntermediate st hash height.

(** *** [merklemanagerrange.go] *)

(** The collection loop of [GetRange]; [marks] iterations at most. *)
Fixpoint range_loop (marks : nat) (markPoint : Z) (hl : list Hash) (s : S) : res (list Hash) :=
  match marks with
  | O => Ok hl
  | Datatypes.S marks' =>
      let last := markPoint in
      let markPoint := markPoint + markFreq c in
      let! st := GetState (markPoint - 1) s in
      match st with
      | Some st =>
          if negb (zlen (HashList st) =? markFreq c) then
            errors_new StatusIncompleteChain "markpoint: unexpected number of entries"
          else range_loop marks' markPoint (hl ++ HashList st) s
      | None =>
          match Head_Get s with
          | Err _ => errors_new StatusInternalError "a chain should always have a chain state"
          | Panic m => Panic m
          | Ok st =>
              let n := Count st - last in
              let n := if Z.rem n (markFreq c) =? 0 then Z.lxor n (markFreq c) else n in
              if negb (zlen (HashList st) =? n) then
                errors_new StatusIncompleteChain "head: unexpected number of entries"
              else Ok (hl ++ HashList st)
          end
      end
  end.

(** The final slice expression is bounded by the length here (by the capacity in
    Go; the two agree whenever the range was collected). *)
Definition GetRange (begin_ end_ : Z) (s : S) : res (list Hash) :=
  let! head := Head_Get s in
  let ec := Count head in
  if (end_ <? begin_) || (ec <=? begin_) || (begin_ <? 0) then errorf "impossible range for chain length"
  else
    let end_ := if ec <? end_ then ec else end_ in
    if end_ =? begin_ then Ok []
    else
      let markPoint := mark_floor begin_ in
      let marks := Z.quot (end_ - mark_floor begin_) (markFreq c) + 1 in
      let! hl := range_loop (Z.to_nat marks) markPoint [] s in
      let first := Z.land begin_ (markMask c) in
      let last := first + end_ - begin_ in
      let! upto := slice_to hl last in
      slice_from upto first.

(** *** The manager half of [receipt.go] *)

Definition BuildReceipt (r : Receipt) (s : S) : res Receipt :=
  match GetAnyState (EndIndex r) s with
  | Ok state => BuildReceiptWith r (Chain_GetIntermediate s) Sha256 (Trim state)
  | _ => Panic "invalid memory address or nil pointer dereference"
  end.

Definition GetReceipt (element anchor : Hash) (s : S) : res Receipt :=
  let! StartIdx := GetElementIndex (hb element) s in
  let! EndIdx := GetElementIndex (hb anchor) s in
  let! head := Head_Get s in
  if (EndIdx <? StartIdx) || (StartIdx <? 0) || (Count head <? StartIdx) then
    errorf "invalid indexes for the element and anchor"
  else if (StartIdx =? 0) && (EndIdx =? 0) then
    Ok (mkReceipt element StartIdx anchor EndIdx element [])
  else BuildReceipt (mkReceipt element StartIdx anchor EndIdx None []) s.

(** *** [receiptlist.go] *)

Record ReceiptList := mkReceiptList {
  rl_MerkleState : option MerkleState;
  rl_Elements : list Hash;
  rl_Receipt : option Receipt;
  rl_ContinuedReceipt : option Receipt
}.

(** Adds the elements to the state; false when one is not a 32-byte hash. *)
Fixpoint add_elements (ms : MerkleState) (elements : list Hash) : option MerkleState :=
  match elements with
  | [] => Some ms
  | h :: rest =>
      match h with
      | Some b => if zlen b =? 32 then add_elements (AddToMerkleTree ms (Some b)) rest else None
      | None => None
      end
  end.

Definition ReceiptList_Validate (r : ReceiptList) : bool :=
  match rl_MerkleState r, rl_Receipt r, last (rl_Elements r) with
  | Some ms, Some receipt, Some lastElement =>
      match add_elements (MerkleState_Copy ms) (rl_Elements r) with
      | None => false
      | Some ms =>
          let anchor := GetMDRoot ms in
          if zlen (hb anchor) =? 0 then false
          else if negb (Hash_Equal lastElement (Start receipt)) then false
          else if negb (Hash_Equal (Anchor receipt) anchor) then false
          else if negb (Validate receipt) then false
          else match rl_ContinuedReceipt r with
               | None => true
               | Some cr => Hash_Equal anchor (Start cr) && Validate cr
               end
      end
  | _, _, _ => false
  end.

Definition Included (r : ReceiptList) (entry : bytes) : bool :=
  existsb (fun e => bytes_eqb (hb e) entry) (rl_Elements r).

(** The loop that reads the elements from [Start], [n] of them. *)
Fixpoint get_elements (n : nat) (i : Z) (s : S) : res (list Hash) :=
  match n with
  | O => Ok []
  | Datatypes.S n' =>
      let! h := Get i s in
      let! rest := get_elements n' (i + 1) s in
      Ok (h :: rest)
  end.

Definition GetReceiptList (Start_ End_ : Z) (s : S) : res ReceiptList :=
  if End_ <? Start_ then errorf "start and end is invalid for ReceiptList"
  else
    let! ms := Head_Get s in
    if Count ms <=? End_ then errorf "end is out of range for SMT length"
    else
      let! elements := get_elements (Z.to_nat (End_ - Start_ + 1)) Start_ s in
      let! ms := GetAnyState (Start_ - 1) s in
      match last elements with
      | None => Panic "index out of range"
      | Some lastElement =>
          let e := Some (hb lastElement) in
          let! receipt := GetReceipt e e s in
          Ok (mkReceiptList (Some ms) elements (Some receipt) None)
      end.

(** Adding a list of hashes to a chain, one [AddHash] after the other. *)
Fixpoint add_hashes (unique : bool) (l : list bytes) (s : S) : res S :=
  match l with
  | [] => Ok s
  | h :: l' => let! s := AddHash (Some h) unique s in add_hashes unique l' s
  end.

End Manager.

(** ** The records as plain finite maps *)

#[global] Instance view_store : ChainStore ChainView := {
  Head_Get s := Ok (v_head s);
  Head_Put m s := Ok (mkView m (v_states s) (v_index s) (v_element s));
  States_Get i s := found (v_states s !! i);
  States_Put i m s := Ok (mkView (v_head s) (<[i := m]> (v_states s)) (v_index s) (v_element s));
  ElementIndex_Get h s := found (v_index s !! MapKeyBytes h);
  ElementIndex_Put h i s :=
    Ok (mkView (v_head s) (v_states s) (<[MapKeyBytes h := i]> (v_index s)) (v_element s));
  Element_Get i s := found (v_element s !! i);
  Element_Put i h s := Ok (mkView (v_head s) (v_states s) (v_index s) (<[i := h]> (v_element s)))
}.

#[global] Program Instance view_laws : ChainStoreLaws ChainView := { view s := s }.
Solve Obligations with eauto.

Definition empty_view : ChainView := mkView newMerkleState ∅ ∅ ∅.

(** ** The state of a chain as a function of its elements *)

(** One [AddHash] seen on the head alone. *)
Definition chain_add (c : Chain) (m : MerkleState) (h : bytes) : MerkleState :=
  let sw := Z.land (Count m + 1) (markMask c) in
  if sw =? 0 then AddToMerkleTree m (Some h)
  else if sw =? 1 then AddToMerkleTree (set_HashList m []) (Some h)
  else AddToMerkleTree m (Some h).

Definition chain_head (c : Chain) (l : list bytes) : MerkleState :=
  foldl (chain_add c) newMerkleState l.

(** The index of the first occurrence of a hash. *)
Fixpoint first_index (h : bytes) (l : list bytes) : option nat :=
  match l with
  | [] => None
  | x :: l' => if decide (x = h) then Some O else S <$> first_index h l'
  end.

(** The records of a chain that holds the elements [l]. *)
Record chain_inv {S} `{ChainStoreLaws S} (c : Chain) (s : S) (l : list bytes) : Prop := {
  inv_head : v_head (view s) = chain_head c l;
  inv_states i : v_states (view s) !! i =
    if bool_decide (0 <= i < zlen l /\ (i + 1) mod markFreq c = 0)
    then Some (chain_head c (take (Z.to_nat (i + 1)) l)) else None;
  inv_index h : v_index (view s) !! h = Z.of_nat <$> first_index h l;
  inv_element i : v_element (view s) !! i =
    if bool_decide (0 <= i) then Some <$> l !! Z.to_nat i else None
}.

Lemma first_index_snoc h l x :
  first_index h (l ++ [x]) =
  match first_index h l with
  | Some i => Some i
  | None => if decide (x = h) then Some (length l) else None
  end.
Proof.
  induction l as [|y l IH]; simpl; [done|].
  destruct (decide (y = h)); [done|]. rewrite IH.
  destruct (first_index h l); [done|]. by destruct (decide (x = h)).
Qed.

Lemma first_index_Some h l i : first_index h l = Some i -> l !! i = Some h.
Proof.
  revert i. induction l as [|y l IH]; intros i; simpl; [done|].
  destruct (decide (y = h)) as [->|]; [by intros [= <-]|].
  destruct (first_index h l); [|done]. intros [= <-]. by apply IH.
Qed.

Lemma first_index_None h l : first_index h l = None <-> h ∉ l.
Proof.
  induction l as [|y l IH]; simpl; [by split; [intros _; apply not_elem_of_nil|]|].
  rewrite not_elem_of_cons, <- IH. destruct (decide (y = h)) as [->|Hne].
  - split; [done|intros []; done].
  - destruct (first_index h l); simpl; split; try done; intros [? ?]; done.
Qed.

Section ChainFacts.
Context (p : Z) (Hp : 1 <= p < 62).

Abbreviation c := (NewChain p).
Abbreviation f := (2 ^ Z.to_nat p)%nat.

Lemma markFreq_eq : markFreq c = Z.of_nat f.
Proof.
  unfold NewChain. simpl. rewrite pow2_Z, Z2Nat.id by lia. apply i64_small.
  unfold is_i64. assert (2 ^ p < 2 ^ 62) by (apply Z.pow_lt_mono_r; lia).
  pose proof (Z.pow_nonneg 2 p). lia.
Qed.

Lemma f_ge_2 : (2 <= f)%nat.
Proof.
  replace (Z.to_nat p) with (S (Z.to_nat p - 1)) by lia. rewrite pow2_S.
  pose proof (pow2_pos (Z.to_nat p - 1)). lia.
Qed.

Lemma f_small : Z.of_nat f < 2 ^ 62.
Proof. rewrite pow2_Z, Z2Nat.id by lia. apply Z.pow_lt_mono_r; lia. Qed.

Lemma markMask_ones : markMask c = Z.ones p.
Proof.
  change (markMask c) with (markFreq c - 1). rewrite markFreq_eq, pow2_Z, Z2Nat.id by lia.
  rewrite Z.ones_equiv. lia.
Qed.

Lemma land_mask x : Z.land x (markMask c) = x mod Z.of_nat f.
Proof. rewrite markMask_ones, Z.land_ones by lia. by rewrite pow2_Z, Z2Nat.id by lia. Qed.

Lemma mark_floor_eq x : mark_floor c x = x / Z.of_nat f * Z.of_nat f.
Proof.
  unfold mark_floor. rewrite markMask_ones, <- Z.ldiff_land, Z.ldiff_ones_r by lia.
  rewrite Z.shiftl_mul_pow2, Z.shiftr_div_pow2 by lia. by rewrite pow2_Z, Z2Nat.id by lia.
Qed.

(** The switch of [AddHash] on the count. *)
Lemma chain_add_nat m h n :
  Count m = Z.of_nat n ->
  chain_add c m h =
  AddToMerkleTree (if decide (n mod f = 0)%nat then set_HashList m [] else m) (Some h).
Proof.
  intros Hc. unfold chain_add. cbv zeta. rewrite Hc, land_mask. pose proof f_ge_2.
  replace (Z.of_nat n + 1) with (Z.of_nat (n + 1)) by lia. rewrite <- Nat2Z.inj_mod.
  pose proof (Nat.Div0.add_mod_idemp_l n 1 f) as Hm.
  pose proof (Nat.mod_upper_bound n f ltac:(lia)) as Hb.
  destruct (decide (n mod f = 0)%nat) as [E|E].
  - rewrite E in Hm. rewrite <- Hm, Nat.mod_small by lia. done.
  - destruct (decide (n mod f = f - 1)%nat) as [E'|E'].
    + rewrite E' in Hm. replace (f - 1 + 1)%nat with (1 * f)%nat in Hm by lia.
      rewrite Nat.Div0.mod_mul in Hm. by rewrite <- Hm.
    + rewrite <- Hm, Nat.mod_small by lia.
      by rewrite !(proj2 (Z.eqb_neq _ _)) by lia.
Qed.

Lemma chain_head_snoc l h : chain_head c (l ++ [h]) = chain_add c (chain_head c l) h.
Proof. unfold chain_head. by rewrite foldl_app. Qed.

Lemma Represents_set_HashList m l hl : Represents m l -> Represents (set_HashList m hl) l.
Proof. done. Qed.

Lemma Represents_chain_head l : zlen l < 2 ^ 62 -> Represents (chain_head c l) l.
Proof.
  induction l as [|h l IH] using rev_ind; intros Hl; [apply Represents_new|].
  rewrite zlen_app, zlen_cons in Hl. change (zlen (A:=bytes) []) with 0 in Hl.
  specialize (IH ltac:(lia)). rewrite chain_head_snoc.
  rewrite (chain_add_nat _ _ (length l)) by apply IH.
  apply Represents_add; [|lia]. by case_decide.
Qed.

Lemma Count_chain_head l : zlen l < 2 ^ 62 -> Count (chain_head c l) = zlen l.
Proof. intros Hl. by apply Represents_chain_head. Qed.

(** Within a mark set the head is the state at the mark plus the hashes since. *)
Lemma chain_head_segment l q j :
  zlen l < 2 ^ 62 -> (0 < j <= f)%nat -> (q * f + j <= length l)%nat ->
  chain_head c (take (q * f + j) l) =
  add_all (set_HashList (chain_head c (take (q * f) l)) []) (take j (drop (q * f) l)).
Proof.
  intros Hl. pose proof f_ge_2. induction j as [|j IH]; intros Hj Hle; [lia|].
  destruct (lookup_lt_is_Some_2 l (q * f + j)) as [x Hx]; [lia|].
  replace (q * f + S j)%nat with (S (q * f + j)) by lia.
  rewrite (take_S_r l _ x Hx), chain_head_snoc.
  assert (Hx' : drop (q * f) l !! j = Some x) by (by rewrite lookup_drop).
  rewrite (take_S_r _ _ x Hx'), add_all_app.
  rewrite (chain_add_nat _ _ (q * f + j)).
  2: { rewrite Count_chain_head; unfold zlen in *; rewrite length_take; lia. }
  rewrite Nat.add_comm, Nat.Div0.mod_add.
  destruct (decide (j = 0)%nat) as [->|Hj0].
  - rewrite Nat.Div0.mod_0_l. rewrite decide_True by done. by rewrite take_0.
  - rewrite Nat.mod_small, decide_False by lia.
    rewrite (Nat.add_comm j). rewrite IH by lia. done.
Qed.

Lemma HashList_chain_head l :
  zlen l < 2 ^ 62 -> HashList (chain_head c l) = Some <$> drop ((length l - 1) / f * f) l.
Proof.
  intros Hl. pose proof f_ge_2. destruct (decide (l = [])) as [->|Hne]; [by rewrite drop_nil|].
  assert (Hpos : (0 < length l)%nat) by (destruct l; simpl; [done|lia]).
  set (q := ((length l - 1) / f)%nat).
  pose proof (Nat.div_mod_eq (length l - 1) f) as Hdm.
  pose proof (Nat.mod_upper_bound (length l - 1) f ltac:(lia)) as Hmb. fold q in Hdm.
  pose proof (chain_head_segment l q (length l - q * f) Hl) as Hseg.
  replace (q * f + (length l - q * f))%nat with (length l) in Hseg by lia.
  rewrite take_ge in Hseg by lia. rewrite Hseg by lia.
  rewrite HashList_add_all. simpl. f_equal. apply take_ge. rewrite length_drop. lia.
Qed.

(** *** Reading the records *)

Context {S : Type} `{ChainStoreLaws S}.

Lemma GetState_nonempty s l i :
  chain_inv c s l -> l <> [] -> zlen l < 2 ^ 62 ->
  GetState i s = Ok (v_states (view s) !! u64 i).
Proof.
  intros Hi Hne Hl. unfold GetState. rewrite Head_Get_view, (inv_head _ _ _ Hi).
  rewrite Count_chain_head by done. destruct l as [|x l]; [done|].
  rewrite zlen_cons. pose proof (zlen_nonneg l).
  rewrite (proj2 (Z.eqb_neq _ 0)) by lia. rewrite States_Get_view.
  destruct (v_states (view s) !! u64 i) as [[? ? ?]|]; done.
Qed.

Lemma walk_to_spec e m hs :
  0 <= Count m <= e + 1 -> e < 2 ^ 62 -> e + 1 - Count m <= zlen hs ->
  walk_to e m (Some <$> hs) = add_all m (take (Z.to_nat (e + 1 - Count m)) hs).
Proof.
  revert m. induction hs as [|h hs IH]; intros m Hm He Hlen.
  - simpl. by rewrite take_nil.
  - rewrite fmap_cons. simpl. destruct (Z.eqb_spec (e + 1) (Count m)) as [E|E].
    + rewrite E, Z.sub_diag, take_0. done.
    + rewrite zlen_cons in Hlen.
      assert (Hc : Count (AddToMerkleTree m (Some h)) = Count m + 1)
        by (simpl; apply i64_small; unfold is_i64; lia).
      rewrite IH by (rewrite ?Hc; lia). rewrite Hc.
      replace (Z.to_nat (e + 1 - Count m)) with (Datatypes.S (Z.to_nat (e + 1 - (Count m + 1)))) by lia.
      done.
Qed.

End ChainFacts.
