(* ===== verification/ChainProofs.v ===== *)
(** * Correctness of the chain manager

    The records of a chain are a function of the list of its elements ([chain_inv]);
    every operation of [Chain.v] is proved against the interface [ChainStoreLaws],
    so it holds of any record layer that meets it. *)

From S2P Require Import Prelude Sha256 Encoding MerkleTree MerkleState Receipt Chain.
Local Open Scope Z_scope.

Section Proofs.
Context (p : Z) (Hp : 1 <= p < 62).
Context {S : Type} `{ChainStoreLaws S}.

Abbreviation c := (NewChain p).
Abbreviation f := (2 ^ Z.to_nat p)%nat.

(** ** Reading states *)

Lemma inv_state_at s l i :
  chain_inv c s l -> zlen l < 2 ^ 62 -> (i < length l)%nat -> ((i + 1) mod f = 0)%nat ->
  v_states (view s) !! Z.of_nat i = Some (chain_head c (take (i + 1) l)).
Proof.
  intros Hi Hl Hlt Hm. rewrite (inv_states _ _ _ Hi). rewrite bool_decide_true.
  - do 3 f_equal. lia.
  - split; [unfold zlen; lia|]. rewrite markFreq_eq by done.
    replace (Z.of_nat i + 1) with (Z.of_nat (i + 1)) by lia.
    rewrite <- Nat2Z.inj_mod, Hm. done.
Qed.

Lemma inv_state_none s l i :
  chain_inv c s l -> ((i + 1) mod f <> 0)%nat -> v_states (view s) !! Z.of_nat i = None.
Proof.
  intros Hi Hm. rewrite (inv_states _ _ _ Hi). rewrite bool_decide_false; [done|].
  rewrite markFreq_eq by done. intros [_ Hz].
  replace (Z.of_nat i + 1) with (Z.of_nat (i + 1)) in Hz by lia.
  rewrite <- Nat2Z.inj_mod in Hz. lia.
Qed.

(** The position of an element within its mark set. *)
Lemma mark_split e : exists q j, (e = q * f + j /\ j < f)%nat.
Proof.
  exists (e / f)%nat, (e mod f)%nat. pose proof (f_ge_2 p Hp).
  pose proof (Nat.div_mod_eq e f). pose proof (Nat.mod_upper_bound e f). lia.
Qed.

Lemma mark_mod q j : (j < f)%nat -> ((q * f + j + 1) mod f = 0 <-> j = f - 1)%nat.
Proof.
  intros Hj. replace (q * f + j + 1)%nat with (j + 1 + q * f)%nat by lia.
  rewrite Nat.Div0.mod_add. pose proof (f_ge_2 p Hp). split; intros Hm.
  - destruct (decide (j = f - 1)%nat); [done|]. rewrite Nat.mod_small in Hm by lia. lia.
  - subst j. replace (f - 1 + 1)%nat with f by lia. apply Nat.Div0.mod_same.
Qed.

Lemma mark_floor_split q j : (j < f)%nat -> mark_floor c (Z.of_nat (q * f + j)) = Z.of_nat (q * f).
Proof.
  intros Hj. rewrite mark_floor_eq by done. rewrite <- Nat2Z.inj_div, <- Nat2Z.inj_mul. f_equal.
  rewrite Nat.add_comm, Nat.div_add, Nat.div_small by (pose proof (f_ge_2 p Hp); lia). lia.
Qed.

(** The state before a mark set. *)
Lemma GetState_floor s l q :
  chain_inv c s l -> l <> [] -> zlen l < 2 ^ 62 -> (q * f < length l)%nat ->
  exists o, GetState (Z.of_nat (q * f) - 1) s = Ok o /\
    (if Z.of_nat (q * f) - 1 <? 0 then Some newMerkleState else o) =
    Some (chain_head c (take (q * f) l)).
Proof.
  intros Hi Hne Hl Hq. rewrite (GetState_nonempty p Hp _ l) by done. eexists. split; [done|].
  pose proof (f_ge_2 p Hp). destruct (decide (q = 0)%nat) as [->|Hq0]; [done|].
  assert (f <= q * f)%nat by nia. unfold zlen in Hl.
  rewrite (proj2 (Z.ltb_ge _ _)) by lia. rewrite u64_small by (unfold is_u64; lia).
  replace (Z.of_nat (q * f) - 1) with (Z.of_nat (q * f - 1)) by lia.
  rewrite (inv_state_at s l) by (try done; try lia;
    replace (q * f - 1 + 1)%nat with (q * f)%nat by lia; apply Nat.Div0.mod_mul).
  do 3 f_equal. lia.
Qed.

(** The hashes of a mark set, from the head or the next mark. *)
Lemma next_mark s l q :
  chain_inv c s l -> l <> [] -> zlen l < 2 ^ 62 -> (q * f < length l)%nat ->
  let next := Z.of_nat (q * f) - 1 + markFreq c in
  exists m, (if zlen l <=? next then Ok (v_head (view s))
    else let! NMark := GetState next s in
         match NMark with
         | Some NMark => Ok NMark
         | None => errors_new StatusInternalError "mark not found in the database"
         end) = Ok m /\ HashList m = Some <$> take f (drop (q * f) l).
Proof.
  intros Hi Hne Hl Hq next. pose proof (f_ge_2 p Hp). unfold zlen in Hl.
  assert (Hn : next = Z.of_nat (q * f + (f - 1))) by (unfold next; rewrite markFreq_eq by done; lia).
  rewrite Hn. destruct (Z.leb_spec (zlen l) (Z.of_nat (q * f + (f - 1)))) as [Hle|Hgt];
    unfold zlen in *.
  - eexists. split; [done|]. rewrite (inv_head _ _ _ Hi), HashList_chain_head by done. f_equal.
    replace ((length l - 1) / f)%nat with q by
      (apply Nat.div_unique with (length l - 1 - q * f)%nat; lia).
    rewrite take_ge; [done|]. rewrite length_drop. lia.
  - rewrite (GetState_nonempty p Hp _ l) by done. simpl res_bind.
    rewrite u64_small by (unfold is_u64; lia).
    rewrite (inv_state_at s l) by (try done; try lia; apply mark_mod; lia).
    eexists. split; [done|].
    rewrite HashList_chain_head by (try done; rewrite zlen_take by lia; lia).
    f_equal. rewrite length_take, Nat.min_l by lia.
    replace ((q * f + (f - 1) + 1 - 1) / f)%nat with q by
      (apply Nat.div_unique with (f - 1)%nat; lia).
    rewrite take_drop_commute. do 2 f_equal. lia.
Qed.

Lemma GetAnyState_ok s l e :
  chain_inv c s l -> -1 <= e < zlen l -> zlen l < 2 ^ 62 ->
  GetAnyState c e s = Ok (chain_head c (take (Z.to_nat (e + 1)) l)).
Proof.
  intros Hi He Hl. unfold GetAnyState. destruct (Z.eqb_spec e (-1)) as [->|He1]; [done|].
  assert (Hne : l <> []) by (intros ->; unfold zlen in He; simpl in He; lia).
  rewrite (GetState_nonempty p Hp _ l) by done. cbn [res_bind].
  unfold zlen in He, Hl. rewrite u64_small by (unfold is_u64; lia).
  destruct (mark_split (Z.to_nat e)) as (q & j & Hq & Hj).
  replace e with (Z.of_nat (Z.to_nat e)) at 1 by lia.
  destruct (decide (j = f - 1)%nat) as [Hjf|Hjf].
  { rewrite (inv_state_at s l) by (try done; try lia; rewrite Hq; by apply mark_mod).
    do 3 f_equal. lia. }
  rewrite (inv_state_none s l) by (try done; rewrite Hq; by rewrite mark_mod).
  rewrite Head_Get_view. cbn [res_bind].
  rewrite (inv_head _ _ _ Hi), Count_chain_head by done. rewrite <- (inv_head _ _ _ Hi).
  rewrite (proj2 (Z.leb_gt _ _)) by (unfold zlen; lia).
  replace e with (Z.of_nat (q * f + j)) by lia. rewrite mark_floor_split by done.
  destruct (GetState_floor s l q) as (o & -> & Ho); [try done; lia..|]. cbn [res_bind]. rewrite Ho.
  destruct (next_mark s l q) as (m & -> & Hm); [try done; lia..|]. cbn [res_bind]. rewrite Hm.
  assert (Hc : Count (chain_head c (take (q * f) l)) = Z.of_nat (q * f)).
  { rewrite Count_chain_head; rewrite ?zlen_take; lia. }
  rewrite walk_to_spec; cbn [set_HashList Count]; rewrite ?Hc;
    [|try lia; unfold zlen; rewrite ?length_take, ?length_drop; lia..].
  replace (Z.to_nat (Z.of_nat (q * f + j) + 1 - Z.of_nat (q * f))) with (j + 1)%nat by lia.
  rewrite take_take, Nat.min_l by lia.
  rewrite <- chain_head_segment by (done || lia).
  replace (q * f + (j + 1))%nat with (Z.to_nat (Z.of_nat (q * f + j) + 1)) by lia.
  rewrite Count_chain_head by (try done; rewrite zlen_take by lia; lia).
  rewrite zlen_take by lia. rewrite land_mask by done.
  replace (Z.to_nat (Z.of_nat (q * f + j) + 1)) with (q * f + j + 1)%nat by lia.
  rewrite <- Nat2Z.inj_mod. pose proof (mark_mod q j Hj).
  rewrite (proj2 (Z.eqb_neq _ 0)) by lia. done.
Qed.

(** ** Adding an element *)

Lemma MapKeyBytes_32 h : length h = 32%nat -> MapKeyBytes h = h.
Proof. intros Hh. unfold MapKeyBytes, zlen. by rewrite Hh. Qed.

Lemma MerkleState_Copy_id m : MerkleState_Copy m = m.
Proof. by destruct m. Qed.

Lemma states_snoc (l : list bytes) h i o :
  o = (if bool_decide (0 <= i < zlen l /\ (i + 1) mod markFreq c = 0)
       then Some (chain_head c (take (Z.to_nat (i + 1)) l)) else None) ->
  i <> zlen l \/ (zlen l + 1) mod markFreq c <> 0 ->
  o = (if bool_decide (0 <= i < zlen (l ++ [h]) /\ (i + 1) mod markFreq c = 0)
       then Some (chain_head c (take (Z.to_nat (i + 1)) (l ++ [h]))) else None).
Proof.
  intros -> Hi. rewrite zlen_app. change (zlen [h]) with 1.
  case_bool_decide as Ha; case_bool_decide as Hb; try done.
  - do 2 f_equal. rewrite take_app_le; [done|]. unfold zlen in *. lia.
  - exfalso. apply Hb. split; [lia|apply Ha].
  - exfalso. apply Ha. destruct Hb as [Hb1 Hb2].
    destruct (decide (i = zlen l)) as [->|]; [by destruct Hi|]. split; [lia|done].
Qed.

Lemma states_mark (l : list bytes) h :
  (zlen l + 1) mod markFreq c = 0 ->
  Some (chain_head c (l ++ [h])) =
  (if bool_decide (0 <= zlen l < zlen (l ++ [h]) /\ (zlen l + 1) mod markFreq c = 0)
   then Some (chain_head c (take (Z.to_nat (zlen l + 1)) (l ++ [h]))) else None).
Proof.
  intros Hm. rewrite bool_decide_true.
  - rewrite take_ge; [done|]. rewrite length_app. unfold zlen. simpl. lia.
  - rewrite zlen_app. change (zlen [h]) with 1. pose proof (zlen_nonneg l). split; [lia|done].
Qed.

Lemma element_snoc (m : gmap Z Hash) (l : list bytes) h i :
  (forall j, m !! j = if bool_decide (0 <= j) then Some <$> l !! Z.to_nat j else None) ->
  (<[zlen l := Some h]> m) !! i =
  if bool_decide (0 <= i) then Some <$> (l ++ [h]) !! Z.to_nat i else None.
Proof.
  intros Hm. pose proof (zlen_nonneg l). destruct (decide (i = zlen l)) as [->|Hne].
  - rewrite lookup_insert_eq, bool_decide_true by done. unfold zlen.
    rewrite Nat2Z.id, lookup_app_r, Nat.sub_diag by lia. done.
  - rewrite lookup_insert_ne, Hm by done. case_bool_decide; [|done]. f_equal.
    destruct (decide (Z.to_nat i < length l)%nat).
    + by rewrite lookup_app_l.
    + rewrite !(proj2 (lookup_ge_None _ _)); [done|rewrite length_app|]; unfold zlen in *; simpl; lia.
Qed.

Lemma add_element_ok s l h :
  zlen l + 1 < 2 ^ 62 ->
  v_head (view s) = chain_head c l ->
  (forall i, v_states (view s) !! i =
    if bool_decide (0 <= i < zlen l /\ (i + 1) mod markFreq c = 0)
    then Some (chain_head c (take (Z.to_nat (i + 1)) l)) else None) ->
  (forall k, v_index (view s) !! k = Z.of_nat <$> first_index k (l ++ [h])) ->
  (forall i, v_element (view s) !! i = if bool_decide (0 <= i) then Some <$> l !! Z.to_nat i else None) ->
  exists s', add_element c (chain_head c l) (Some h) s = Ok s' /\ chain_inv c s' (l ++ [h]).
Proof.
  intros Hl Hh Hst Hix Hel. pose proof (zlen_nonneg l). unfold add_element.
  rewrite Count_chain_head by (done || lia). rewrite u64_small by (unfold is_u64; lia).
  destruct (Element_Put_view (zlen l) (Some h) s) as (s1 & -> & Hv1). cbn [res_bind].
  pose proof (chain_head_snoc p l h) as Hsn. unfold chain_add in Hsn. cbv zeta in Hsn.
  rewrite Count_chain_head in Hsn by (done || lia).
  assert (Hland : Z.land (zlen l + 1) (markMask c) = (zlen l + 1) mod markFreq c)
    by (rewrite land_mask, markFreq_eq by done; done).
  rewrite Hland in *. destruct (Z.eqb_spec ((zlen l + 1) mod markFreq c) 0) as [Hz|Hz].
  - rewrite <- Hsn. rewrite MerkleState_Copy_id, Count_chain_head by
      (try done; rewrite zlen_app; change (zlen [h]) with 1; lia).
    rewrite zlen_app. change (zlen [h]) with 1.
    rewrite (u64_small (zlen l + 1)), u64_small by (unfold is_u64; lia).
    replace (zlen l + 1 - 1) with (zlen l) by lia.
    destruct (States_Put_view (zlen l) (chain_head c (l ++ [h])) s1) as (s2 & -> & Hv2).
    cbn [res_bind].
    destruct (Head_Put_view (chain_head c (l ++ [h])) s2) as (s3 & -> & Hv3).
    exists s3. split; [done|].
    constructor; rewrite Hv3, Hv2, Hv1; cbn; try done.
    + intros i. destruct (decide (i = zlen l)) as [->|Hne].
      * rewrite lookup_insert_eq. by rewrite <- states_mark.
      * rewrite lookup_insert_ne by done. by apply states_snoc; [|left].
    + intros i. by apply element_snoc.
  - assert (Hput : exists s3, Head_Put (chain_head c (l ++ [h])) s1 = Ok s3 /\
      chain_inv c s3 (l ++ [h])).
    { destruct (Head_Put_view (chain_head c (l ++ [h])) s1) as (s3 & -> & Hv3).
      exists s3. split; [done|]. constructor; rewrite Hv3, Hv1; cbn; try done.
      - intros i. by apply states_snoc; [|right].
      - intros i. by apply element_snoc. }
    destruct Hput as (s3 & Hput & Hinv). exists s3. split; [|done].
    destruct ((zlen l + 1) mod markFreq c =? 1); cbn [res_bind]; rewrite <- Hsn, Hput; done.
Qed.

Lemma AddHash_ok s l h unique :
  chain_inv c s l -> length h = 32%nat -> zlen l + 1 < 2 ^ 62 ->
  exists s', AddHash c (Some h) unique s = Ok s' /\
    if decide (unique = true /\ h ∈ l) then s' = s else chain_inv c s' (l ++ [h]).
Proof.
  intros Hi Hh Hl. pose proof (zlen_nonneg l). unfold AddHash. rewrite Head_Get_view.
  cbn [res_bind]. change (hb (Some h)) with h.
  rewrite (inv_head _ _ _ Hi), ElementIndex_Get_view.
  rewrite (inv_index _ _ _ Hi), MapKeyBytes_32 by done.
  destruct (first_index h l) as [i|] eqn:Hfi; cbn [fmap option_fmap option_map found].
  - pose proof (list_elem_of_lookup_2 _ _ _ (first_index_Some _ _ _ Hfi)) as Hin.
    destruct (decide (unique = true /\ h ∈ l)) as [[-> _]|Hno]; [by exists s|].
    destruct unique; [by destruct Hno|].
    apply add_element_ok; try (done || lia || apply Hi). intros k.
    rewrite (inv_index _ _ _ Hi), first_index_snoc.
    destruct (first_index k l) eqn:Hk; [done|]. case_decide as Hd; [|done]. subst. congruence.
  - destruct (decide (unique = true /\ h ∈ l)) as [[_ Hin]|_]; [by apply first_index_None in Hfi|].
    unfold errors_new. cbn.
    rewrite Count_chain_head by (done || lia). rewrite u64_small by (unfold is_u64; lia).
    destruct (ElementIndex_Put_view h (zlen l) s) as (s1 & -> & Hv1). cbn [res_bind].
    rewrite MapKeyBytes_32 in Hv1 by done.
    apply add_element_ok; rewrite ?Hv1; cbn; try (done || lia || apply Hi). intros k.
    rewrite first_index_snoc. destruct (decide (h = k)) as [<-|Hne].
    + by rewrite lookup_insert_eq, Hfi.
    + rewrite lookup_insert_ne, (inv_index _ _ _ Hi) by done. by destruct (first_index k l).
Qed.

(** ** Elements and their indices *)

Lemma GetElementIndex_inv s l h :
  chain_inv c s l -> length h = 32%nat -> zlen l < 2 ^ 62 ->
  GetElementIndex h s = found (Z.of_nat <$> first_index h l).
Proof.
  intros Hi Hh Hl. unfold GetElementIndex.
  rewrite ElementIndex_Get_view, (inv_index _ _ _ Hi), MapKeyBytes_32 by done.
  destruct (first_index h l) as [i|] eqn:Hf; [|done]. simpl. f_equal. apply i64_small.
  pose proof (lookup_lt_Some _ _ _ (first_index_Some _ _ _ Hf)).
  unfold is_i64, zlen in *. lia.
Qed.

Lemma Get_inv s l i :
  chain_inv c s l -> zlen l < 2 ^ 62 -> Z.of_nat i < 2 ^ 63 ->
  Get (Z.of_nat i) s = found (Some <$> l !! i).
Proof.
  intros Hi Hl Hs. unfold Get. rewrite u64_small by (unfold is_u64; lia).
  rewrite Element_Get_view, (inv_element _ _ _ Hi), bool_decide_true by lia.
  by rewrite Nat2Z.id.
Qed.

(** ** Receipts *)

(** The chain is a source of intermediate hashes over any prefix of its elements. *)
Lemma Chain_GetIntermediate_source s l n :
  chain_inv c s l -> zlen l < 2 ^ 62 ->
  IntermediateSource (Chain_GetIntermediate c s) (take n l).
Proof.
  intros Hi Hl e h He Ho Hh. unfold zlen in He, Hl. rewrite length_take in He.
  destruct (lookup_lt_is_Some_2 l (Z.to_nat e)) as [x Hx]; [lia|].
  unfold Chain_GetIntermediate. replace e with (Z.of_nat (Z.to_nat e)) by lia.
  rewrite (Get_inv s l) by (done || lia). rewrite Hx. cbn [fmap option_fmap option_map found res_bind].
  assert (1 <= e) by (destruct (decide (e = 0)) as [->|]; [done|lia]).
  rewrite (GetAnyState_ok s l) by (done || unfold zlen; lia). cbn [res_bind].
  replace (Z.to_nat (Z.of_nat (Z.to_nat e) - 1 + 1)) with (Z.to_nat e) by lia.
  rewrite (take_split_at l (Z.to_nat e) n x) by (done || lia).
  rewrite <- (zlen_take l (Z.to_nat e)) by lia.
  apply GetIntermediate_Represents; [|done].
  apply Represents_chain_head; [done|]. rewrite zlen_take; lia.
Qed.

Lemma Rep_snoc_inv i q l : Rep i (q ++ [None]) l -> Rep i q l.
Proof.
  revert i l. induction q as [|v q IH]; intros i l; simpl; intros Hr.
  - inversion Hr as [|? ? ? Hr'|]; subst. inversion Hr'; subst. constructor.
  - inversion Hr; subst; constructor; auto.
Qed.

Lemma Represents_Trim m l : Represents m l -> Represents (Trim m) l.
Proof.
  intros [Hc Hr]. split; [done|]. simpl.
  rewrite <- (rev_involutive (Pending m)) in Hr. revert Hr.
  generalize (rev (Pending m)) as q. induction q as [|[v|] q IH]; simpl; try done.
  intros Hr. apply IH. by apply Rep_snoc_inv.
Qed.

Lemma BuildReceipt_ok s l a b x y :
  chain_inv c s l -> zlen l < 2 ^ 62 -> l !! a = Some x -> (a <= b < length l)%nat ->
  exists r, BuildReceipt c (mkReceipt (Some x) (Z.of_nat a) y (Z.of_nat b) None []) s = Ok r /\
    Start r = Some x /\ StartIndex r = Z.of_nat a /\ EndIndex r = Z.of_nat b /\ End_ r = y /\
    Anchor r = Some (mth (take (b + 1) l)) /\ Validate r = true.
Proof.
  intros Hi Hl Hx Hab. unfold BuildReceipt, zlen in *. simpl EndIndex.
  rewrite (GetAnyState_ok s l) by (done || unfold zlen; lia).
  replace (Z.to_nat (Z.of_nat b + 1)) with (b + 1)%nat by lia.
  assert (Hz : zlen (take (b + 1) l) = Z.of_nat b + 1) by (rewrite zlen_take; lia).
  destruct (BuildReceiptWith_valid (Chain_GetIntermediate c s) (take (b + 1) l)
    (mkReceipt (Some x) (Z.of_nat a) y (Z.of_nat b) None []) (Trim (chain_head c (take (b + 1) l))) a x)
    as (r & -> & Hst & Hsi & Hei & Hen & Ha & Hall); try done.
  - by apply Chain_GetIntermediate_source.
  - apply Represents_Trim, Represents_chain_head; [done|]. rewrite Hz. lia.
  - rewrite Hz. lia.
  - rewrite lookup_take_lt by lia. done.
  - simpl. lia.
  - exists r. rewrite Hz in Hei. split_and!; try done; [lia|].
    apply Validate_iff. by rewrite Hst, Hall, Ha.
Qed.

Lemma GetReceipt_ok s l x y a b :
  chain_inv c s l -> Forall (fun h => length h = 32%nat) l -> zlen l < 2 ^ 62 ->
  first_index x l = Some a -> first_index y l = Some b -> (a <= b)%nat ->
  exists r, GetReceipt c (Some x) (Some y) s = Ok r /\
    Start r = Some x /\ StartIndex r = Z.of_nat a /\ EndIndex r = Z.of_nat b /\
    End_ r = Some y /\ Anchor r = Some (mth (take (b + 1) l)) /\ Validate r = true.
Proof.
  intros Hi Hf Hl Ha Hb Hab.
  pose proof (first_index_Some _ _ _ Ha) as Hxa. pose proof (first_index_Some _ _ _ Hb) as Hyb.
  pose proof (lookup_lt_Some _ _ _ Hyb).
  pose proof (Forall_lookup_1 _ _ _ _ Hf Hxa) as Hx32.
  pose proof (Forall_lookup_1 _ _ _ _ Hf Hyb) as Hy32. simpl in Hx32, Hy32.
  unfold GetReceipt. change (hb (Some x)) with x. change (hb (Some y)) with y.
  rewrite !(GetElementIndex_inv s l), Ha, Hb by done. cbn [fmap option_fmap option_map found res_bind].
  rewrite Head_Get_view, (inv_head _ _ _ Hi). cbn [res_bind].
  rewrite Count_chain_head by done.
  rewrite !(proj2 (Z.ltb_ge _ _)) by (unfold zlen; lia). simpl orb.
  destruct ((Z.of_nat a =? 0) && (Z.of_nat b =? 0)) eqn:Hz; [|by apply BuildReceipt_ok].
  apply andb_true_iff in Hz as [Hz1 Hz2]. apply Z.eqb_eq in Hz1, Hz2.
  assert (a = 0)%nat as -> by lia. assert (b = 0)%nat as -> by lia.
  destruct l as [|z l]; [done|]. injection Hxa as ->. injection Hyb as ->.
  eexists. split; [reflexivity|]. split_and!; try done. apply Validate_iff. done.
Qed.

(** ** Ranges *)

Lemma range_loop_spec s l k : forall q hl,
  chain_inv c s l -> l <> [] -> zlen l < 2 ^ 62 -> (q * f <= length l)%nat ->
  exists ext, range_loop c k (Z.of_nat (q * f)) hl s =
    Ok (hl ++ (Some <$> take (k * f) (drop (q * f) l)) ++ ext).
Proof.
  pose proof (f_ge_2 p Hp). pose proof (f_small p Hp).
  induction k as [|k IH]; intros q hl Hi Hne Hl Hq.
  { exists []. change (0 * f)%nat with 0%nat. by rewrite take_0, !app_nil_r. }
  cbn [range_loop]; cbv zeta. rewrite (GetState_nonempty p Hp _ l) by done. cbn [res_bind].
  rewrite markFreq_eq by done. unfold zlen in Hl.
  rewrite u64_small by (unfold is_u64; lia).
  replace (Z.of_nat (q * f) + Z.of_nat f - 1) with (Z.of_nat (q * f + (f - 1))) by lia.
  destruct (decide (q * f + (f - 1) < length l)%nat) as [Hlt|Hge].
  - rewrite (inv_state_at s l) by (try done; apply mark_mod; lia).
    assert (Hhl : HashList (chain_head c (take (q * f + (f - 1) + 1) l)) =
      Some <$> take f (drop (q * f) l)).
    { rewrite HashList_chain_head by (try done; rewrite zlen_take by lia; lia).
      rewrite length_take, Nat.min_l by lia.
      replace ((q * f + (f - 1) + 1 - 1) / f)%nat with q by
        (apply Nat.div_unique with (f - 1)%nat; lia).
      f_equal. rewrite take_drop_commute. do 2 f_equal. lia. }
    rewrite Hhl. unfold zlen. rewrite length_fmap, length_take, length_drop, Nat.min_l by lia.
    rewrite Z.eqb_refl. simpl negb. cbv iota.
    destruct (IH (q + 1)%nat (hl ++ (Some <$> take f (drop (q * f) l)))) as [ext IHe]; try done; [lia|].
    exists ext. replace (Z.of_nat (q * f) + Z.of_nat f) with (Z.of_nat ((q + 1) * f)) by lia.
    rewrite IHe, <- !app_assoc. f_equal. f_equal. rewrite app_assoc. f_equal.
    rewrite <- fmap_app. f_equal.
    replace (Datatypes.S k * f)%nat with (f + k * f)%nat by lia.
    rewrite <- (take_take_drop (drop (q * f) l) f). rewrite drop_drop. do 3 f_equal. lia.
  - rewrite (inv_states _ _ _ Hi), bool_decide_false by (unfold zlen; lia).
    rewrite Head_Get_view, (inv_head _ _ _ Hi), Count_chain_head by done.
    rewrite HashList_chain_head by done. unfold zlen.
    rewrite length_fmap, length_drop, Z.rem_mod_nonneg by lia.
    destruct (decide (length l = q * f)%nat) as [He|He].
    + rewrite He, Z.sub_diag, Z.mod_0_l by lia. rewrite Z.lxor_0_l. simpl (0 =? 0). cbv iota.
      assert (0 < length l)%nat by (destruct l; [done|simpl; lia]).
      destruct q as [|q]; [lia|].
      replace ((Datatypes.S q * f - 1) / f)%nat with q by
        (apply Nat.div_unique with (f - 1)%nat; lia).
      rewrite (proj2 (Z.eqb_eq _ _)) by lia. simpl negb. cbv iota.
      eexists. f_equal. f_equal. rewrite (drop_ge l (Datatypes.S q * f)) by lia. rewrite take_nil. reflexivity.
    + rewrite Z.mod_small by lia. rewrite (proj2 (Z.eqb_neq _ 0)) by lia.
      replace ((length l - 1) / f)%nat with q by
        (apply Nat.div_unique with (length l - 1 - q * f)%nat; lia).
      rewrite (proj2 (Z.eqb_eq _ _)) by lia. simpl negb. cbv iota.
      exists []. rewrite app_nil_r. do 2 f_equal. rewrite take_ge; [done|].
      rewrite length_drop. nia.
Qed.

Lemma GetRange_ok s l b e :
  chain_inv c s l -> zlen l < 2 ^ 62 -> 0 <= b < zlen l -> b <= e ->
  GetRange c b e s = Ok (Some <$> take (Z.to_nat (Z.min e (zlen l) - b)) (drop (Z.to_nat b) l)).
Proof.
  intros Hi Hl Hb He. unfold GetRange. rewrite Head_Get_view, (inv_head _ _ _ Hi). cbn [res_bind].
  rewrite Count_chain_head by done.
  rewrite (proj2 (Z.ltb_ge e b)), (proj2 (Z.leb_gt _ b)), (proj2 (Z.ltb_ge b 0)) by lia.
  cbn [orb]. assert (Hne : l <> []) by (intros ->; unfold zlen in Hb; simpl in Hb; lia).
  replace (if zlen l <? e then zlen l else e) with (Z.min e (zlen l)) by
    (destruct (Z.ltb_spec (zlen l) e); lia).
  set (e' := Z.min e (zlen l)). assert (b <= e' <= zlen l) by (unfold e'; lia).
  destruct (Z.eqb_spec e' b) as [->|Hneq]; [by rewrite Z.sub_diag|].
  destruct (mark_split (Z.to_nat b)) as (q & j & Hq & Hj).
  assert (Hbq : b = Z.of_nat (q * f + j)) by lia. rewrite Hbq.
  rewrite mark_floor_split, markFreq_eq by done. pose proof (f_ge_2 p Hp).
  rewrite Z.quot_div_nonneg by lia. unfold zlen in *.
  set (k := Z.to_nat ((e' - Z.of_nat (q * f)) / Z.of_nat f + 1)).
  destruct (range_loop_spec s l k q [] Hi Hne Hl ltac:(lia)) as [ext ->]. cbn [res_bind app].
  assert (Hk : e' - Z.of_nat (q * f) < Z.of_nat (k * f)).
  { rewrite (Nat2Z.inj_mul k f). unfold k. rewrite Z2Nat.id by (pose proof (Z.div_pos (e' - Z.of_nat (q * f)) (Z.of_nat f)); lia).
    pose proof (Z.mul_succ_div_gt (e' - Z.of_nat (q * f)) (Z.of_nat f)). lia. }
  clearbody k. rewrite land_mask, <- Nat2Z.inj_mod by done.
  replace ((q * f + j) mod f)%nat with j by
    (rewrite Nat.add_comm, Nat.Div0.mod_add, Nat.mod_small by lia; done).
  set (n := Z.to_nat (e' - Z.of_nat (q * f))).
  replace (Z.of_nat j + e' - Z.of_nat (q * f + j)) with (Z.of_nat n) by lia.
  rewrite slice_to_ok by (unfold zlen; rewrite length_app, length_fmap, length_take, length_drop; lia).
  cbn [res_bind]. rewrite Nat2Z.id.
  rewrite take_app_le by (rewrite length_fmap, length_take, length_drop; lia).
  rewrite <- fmap_take, take_take, Nat.min_l by lia.
  rewrite slice_from_ok by (unfold zlen; rewrite length_fmap, length_take, length_drop; lia).
  rewrite Nat2Z.id, <- fmap_drop. do 2 f_equal.
  rewrite skipn_firstn_comm, drop_drop. f_equal; [lia|]. f_equal. lia.
Qed.

(** ** Receipt lists *)

Lemma get_elements_ok s l n a :
  chain_inv c s l -> zlen l < 2 ^ 62 -> (a + n <= length l)%nat ->
  get_elements n (Z.of_nat a) s = Ok (Some <$> take n (drop a l)).
Proof.
  intros Hi Hl. revert a. induction n as [|n IH]; intros a Ha; [done|].
  destruct (lookup_lt_is_Some_2 l a) as [x Hx]; [lia|].
  cbn [get_elements]. rewrite (Get_inv s l) by (try done; unfold zlen in *; lia).
  rewrite Hx. cbn [fmap option_fmap option_map found res_bind].
  replace (Z.of_nat a + 1) with (Z.of_nat (Datatypes.S a)) by lia. rewrite IH by lia. cbn [res_bind].
  by rewrite (drop_S l x a Hx).
Qed.

Lemma add_elements_all m l :
  Forall (fun h => length h = 32%nat) l -> add_elements m (Some <$> l) = Some (add_all m l).
Proof.
  intros Hl. revert m. induction Hl as [|h l Hh Hl IH]; intros m; [done|].
  cbn. unfold zlen. rewrite Hh. cbn. apply IH.
Qed.

Lemma GetReceiptList_elements s l a b y :
  chain_inv c s l -> Forall (fun h => length h = 32%nat) l -> zlen l < 2 ^ 62 ->
  (a <= b)%nat -> first_index y l = Some b ->
  exists r, GetReceipt c (Some y) (Some y) s = Ok r /\
    Start r = Some y /\ Anchor r = Some (mth (take (b + 1) l)) /\ Validate r = true /\
    GetReceiptList c (Z.of_nat a) (Z.of_nat b) s =
    Ok (mkReceiptList (Some (chain_head c (take a l))) (Some <$> take (b - a + 1) (drop a l))
          (Some r) None).
Proof.
  intros Hi Hf Hl Hab Hy. pose proof (first_index_Some _ _ _ Hy) as Hyb.
  pose proof (lookup_lt_Some _ _ _ Hyb).
  destruct (GetReceipt_ok s l y y b b) as (r & Hr & Hst & _ & _ & _ & Ha & Hv); try done.
  exists r. split_and!; try done. unfold GetReceiptList.
  rewrite (proj2 (Z.ltb_ge _ _)) by lia. rewrite Head_Get_view, (inv_head _ _ _ Hi). cbn [res_bind].
  rewrite Count_chain_head by done. rewrite (proj2 (Z.leb_gt _ _)) by (unfold zlen; lia).
  replace (Z.to_nat (Z.of_nat b - Z.of_nat a + 1)) with (b - a + 1)%nat by lia.
  rewrite (get_elements_ok s l) by (done || lia). cbn [res_bind].
  rewrite (GetAnyState_ok s l) by (done || unfold zlen in *; lia). cbn [res_bind].
  replace (Z.to_nat (Z.of_nat a - 1 + 1)) with a by lia.
  assert (Hlast : last (Some <$> take (b - a + 1) (drop a l)) = Some (Some y)).
  { rewrite last_lookup, length_fmap, length_take, length_drop, Nat.min_l by lia.
    rewrite list_lookup_fmap, lookup_take_lt, lookup_drop by lia.
    replace (a + Nat.pred (b - a + 1))%nat with b by lia. by rewrite Hyb. }
  rewrite Hlast. change (Some (hb (Some y))) with (Some y). rewrite Hr. done.
Qed.

(** ** From the empty chain *)

Lemma add_hashes_ok k : forall s l,
  chain_inv c s l -> Forall (fun h => length h = 32%nat) k -> zlen l + zlen k < 2 ^ 62 ->
  exists s', add_hashes c false k s = Ok s' /\ chain_inv c s' (l ++ k).
Proof.
  induction k as [|h k IH]; intros s l Hi Hk Hl.
  - exists s. by rewrite app_nil_r.
  - inversion Hk; subst. rewrite zlen_cons in Hl. pose proof (zlen_nonneg k).
    destruct (AddHash_ok s l h false Hi) as (s1 & He & Hi1); [done|lia|].
    rewrite decide_False in Hi1 by (intros [? _]; done).
    destruct (IH s1 (l ++ [h]) Hi1) as (s' & He' & Hi'); [done|rewrite zlen_app; change (zlen [h]) with 1; lia|].
    exists s'. rewrite <- app_assoc in Hi'. cbn [add_hashes]. by rewrite He.
Qed.

End Proofs.

Lemma chain_inv_empty p : chain_inv (NewChain p) empty_view [].
Proof.
  constructor; cbn; try done.
  - intros i. rewrite bool_decide_false; [apply lookup_empty|]. unfold zlen. simpl. lia.
  - intros i. rewrite lookup_nil, lookup_empty. by case_bool_decide.
Qed.

(** ** Properties *)

(** C26. Adding an element: the call succeeds, and either the hash is already there
    and [unique] is set, so that nothing changes, or the records become those of
    the chain with the hash appended, the head's root is the Merkle root of all the
    elements, and the element reads back at its index. *)
Theorem AddHash_correct (p : Z) {S} `{ChainStoreLaws S} (s : S) (l : list bytes) (h : bytes) (unique : bool)
  (Hp : 1 <= p < 62) (Hi : chain_inv (NewChain p) s l) (Hh : length h = 32%nat)
  (Hl : zlen l + 1 < 2 ^ 62) :
  exists s', AddHash (NewChain p) (Some h) unique s = Ok s' /\
    if decide (unique = true /\ h ∈ l) then s' = s
    else chain_inv (NewChain p) s' (l ++ [h]) /\
      (exists m, Head_Get s' = Ok m /\ Count m = zlen l + 1 /\ GetMDRoot m = Some (mth (l ++ [h]))) /\
      Get (zlen l) s' = Ok (Some h).
Proof.
  destruct (AddHash_ok p Hp s l h unique Hi Hh Hl) as (s' & He & Hs'). exists s'. split; [done|].
  destruct (decide _); [done|]. assert (Hl' : zlen (l ++ [h]) = zlen l + 1)
    by (by rewrite zlen_app).
  pose proof (Represents_chain_head p Hp (l ++ [h]) ltac:(lia)) as Hr. split_and!; [done| |].
  - eexists. rewrite Head_Get_view, (inv_head _ _ _ Hs'). split; [done|]. split; [by rewrite (proj1 Hr)|].
    rewrite (GetMDRoot_Represents _ _ Hr). by destruct l.
  - unfold zlen. rewrite (Get_inv p s' (l ++ [h])) by (try done; unfold zlen in *; lia).
    by rewrite lookup_app_r, Nat.sub_diag by lia.
Qed.

(** The chain of the witnesses: mark power 1, four distinct elements and the first again. *)
Definition demo_elements : list bytes :=
  (fun b => sha256 [b]) <$> [Byte.x01; Byte.x02; Byte.x03; Byte.x04].

Definition demo_chain (l : list bytes) : ChainView :=
  match add_hashes (NewChain 1) false l empty_view with Ok s => s | _ => empty_view end.

Lemma demo_elements_32 : Forall (fun h => length h = 32%nat) demo_elements.
Proof. apply Forall_fmap, Forall_true. intros b. apply sha256_length. Qed.

Lemma demo_chain_inv l :
  Forall (fun h => length h = 32%nat) l -> zlen l < 2 ^ 62 -> chain_inv (NewChain 1) (demo_chain l) l.
Proof.
  intros Hl Hz. destruct (add_hashes_ok 1 ltac:(lia) l empty_view [] (chain_inv_empty 1) Hl Hz)
    as (s & He & Hi). unfold demo_chain. by rewrite He.
Qed.

Lemma AddHash_correct_witness :
  exists s', AddHash (NewChain 1) (Some (sha256 [Byte.x05])) true (demo_chain demo_elements) = Ok s' /\
    chain_inv (NewChain 1) s' (demo_elements ++ [sha256 [Byte.x05]]).
Proof.
  destruct (AddHash_correct 1 (demo_chain demo_elements) demo_elements (sha256 [Byte.x05]) true
    ltac:(lia) (demo_chain_inv _ demo_elements_32 ltac:(done)) (sha256_length _) ltac:(done))
    as (s' & He & Hs').
  exists s'. split; [exact He|]. rewrite decide_False in Hs'; [apply Hs'|].
  intros [_ Hin]. apply first_index_None in Hin; [done|]. vm_compute. reflexivity.
Defined.

(** Any past state of the chain can be rebuilt: for every index [e] the state
    returned counts the first [e+1] elements and its root is their Merkle root, and
    an index past the end is an error. *)
Theorem GetAnyState_root (p : Z) {S} `{ChainStoreLaws S} (s : S) (l : list bytes) (e : Z)
  (Hp : 1 <= p < 62) (Hi : chain_inv (NewChain p) s l) (Hne : l <> []) (Hl : zlen l < 2 ^ 62)
  (He : 0 <= e < 2 ^ 63) :
  if decide (e < zlen l) then
    exists m, GetAnyState (NewChain p) e s = Ok m /\
      Represents m (take (Z.to_nat (e + 1)) l) /\
      GetMDRoot m = Some (mth (take (Z.to_nat (e + 1)) l))
  else exists err, GetAnyState (NewChain p) e s = Err err /\ err_status err = StatusBadRequest.
Proof.
  case_decide as Hlt.
  - rewrite (GetAnyState_ok p Hp s l) by (done || lia). eexists. split; [done|].
    assert (Hr : Represents (chain_head (NewChain p) (take (Z.to_nat (e + 1)) l)) (take (Z.to_nat (e + 1)) l)).
    { apply Represents_chain_head; [done|]. unfold zlen in *. rewrite length_take. lia. }
    split; [done|]. rewrite (GetMDRoot_Represents _ _ Hr).
    replace (Z.to_nat (e + 1)) with (Datatypes.S (Z.to_nat e)) by lia. by destruct l.
  - unfold GetAnyState. rewrite (proj2 (Z.eqb_neq _ _)) by lia.
    rewrite (GetState_nonempty p Hp _ l) by done. cbn [res_bind].
    rewrite u64_small by (unfold is_u64; lia).
    rewrite (inv_states _ _ _ Hi), bool_decide_false by lia.
    rewrite Head_Get_view, (inv_head _ _ _ Hi). cbn [res_bind]. rewrite Count_chain_head by done.
    rewrite (proj2 (Z.leb_le _ _)) by lia. by eexists.
Qed.

Lemma GetAnyState_root_witness :
  exists m, GetAnyState (NewChain 1) 2 (demo_chain demo_elements) = Ok m /\
    GetMDRoot m = Some (mth (take 3 demo_elements)).
Proof.
  destruct (GetAnyState_root 1 (demo_chain demo_elements) demo_elements 2 ltac:(lia)
    (demo_chain_inv _ demo_elements_32 ltac:(done)) ltac:(done) ltac:(done) ltac:(lia)) as (m & Hm & _ & Hr).
  exists m. change (Z.to_nat (2 + 1)) with 3%nat in Hr. split; [exact Hm|exact Hr].
Defined.

(** C25. Receipts of a chain: for an element and an anchor on the chain, with the
    element's first occurrence not after the anchor's, [GetReceipt] returns a
    receipt that validates, from the element to the Merkle root of all elements up
    to the anchor; when the anchor comes first, or one of the two is not on the
    chain, it returns an error. *)
Theorem GetReceipt_correct (p : Z) {S} `{ChainStoreLaws S} (s : S) (l : list bytes) (x y : bytes)
  (Hp : 1 <= p < 62) (Hi : chain_inv (NewChain p) s l)
  (Hf : Forall (fun h => length h = 32%nat) (x :: y :: l)) (Hl : zlen l < 2 ^ 62) :
  match first_index x l, first_index y l with
  | Some a, Some b =>
      if decide (a <= b)%nat then
        exists r, GetReceipt (NewChain p) (Some x) (Some y) s = Ok r /\ Validate r = true /\
          Start r = Some x /\ Anchor r = Some (mth (take (b + 1) l))
      else exists e, GetReceipt (NewChain p) (Some x) (Some y) s = Err e
  | _, _ => exists e, GetReceipt (NewChain p) (Some x) (Some y) s = Err e /\ is_not_found e = true
  end.
Proof.
  inversion Hf as [|? ? Hx32 Hf']; subst. inversion Hf' as [|? ? Hy32 Hf'']; subst.
  destruct (first_index x l) as [a|] eqn:Ha; [destruct (first_index y l) as [b|] eqn:Hb|].
  - case_decide as Hab.
    + destruct (GetReceipt_ok p Hp s l x y a b) as (r & Hr & ? & ? & ? & ? & ? & ?); try done.
      by exists r.
    + unfold GetReceipt. change (hb (Some x)) with x. change (hb (Some y)) with y.
      rewrite !(GetElementIndex_inv p s l), Ha, Hb by done.
      rewrite Head_Get_view. cbn [fmap option_fmap option_map found res_bind].
      rewrite (proj2 (Z.ltb_lt _ _)) by lia. by eexists.
  - unfold GetReceipt. change (hb (Some x)) with x. change (hb (Some y)) with y.
    rewrite !(GetElementIndex_inv p s l), Ha, Hb by done. by eexists.
  - unfold GetReceipt. change (hb (Some x)) with x.
    rewrite (GetElementIndex_inv p s l), Ha by done. by eexists.
Qed.

Lemma GetReceipt_correct_witness :
  exists r, GetReceipt (NewChain 1) (Some (sha256 [Byte.x02])) (Some (sha256 [Byte.x03]))
      (demo_chain demo_elements) = Ok r /\ Validate r = true /\
    Start r = Some (sha256 [Byte.x02]) /\ Anchor r = Some (mth (take 3 demo_elements)).
Proof.
  assert (Hf : Forall (fun h => length h = 32%nat) (sha256 [Byte.x02] :: sha256 [Byte.x03] :: demo_elements)).
  { rewrite !Forall_cons. split_and!; [apply sha256_length..|apply demo_elements_32]. }
  pose proof (GetReceipt_correct 1 (demo_chain demo_elements) demo_elements (sha256 [Byte.x02])
    (sha256 [Byte.x03]) ltac:(lia) (demo_chain_inv _ demo_elements_32 ltac:(done)) Hf ltac:(done)) as Hr.
  replace (first_index (sha256 [Byte.x02]) demo_elements) with (Some 1%nat) in Hr
    by (vm_compute; reflexivity).
  replace (first_index (sha256 [Byte.x03]) demo_elements) with (Some 2%nat) in Hr
    by (vm_compute; reflexivity).
  rewrite decide_True in Hr by lia. exact Hr.
Defined.

(** A range of a chain: [GetRange begin end] returns exactly the elements from
    [begin] up to [end], or to the end of the chain when that comes first, whatever
    the mark points between them; an impossible range is an error. *)
Theorem GetRange_correct (p : Z) {S} `{ChainStoreLaws S} (s : S) (l : list bytes) (b e : Z)
  (Hp : 1 <= p < 62) (Hi : chain_inv (NewChain p) s l) (Hl : zlen l < 2 ^ 62) :
  if decide (0 <= b < zlen l /\ b <= e) then
    GetRange (NewChain p) b e s =
      Ok (Some <$> take (Z.to_nat (Z.min e (zlen l) - b)) (drop (Z.to_nat b) l))
  else exists err, GetRange (NewChain p) b e s = Err err.
Proof.
  case_decide as Hd; [destruct Hd; by apply (GetRange_ok p Hp s l)|].
  unfold GetRange. rewrite Head_Get_view, (inv_head _ _ _ Hi). cbn [res_bind].
  rewrite Count_chain_head by done.
  destruct (Z.ltb_spec e b); [by eexists|]. destruct (Z.leb_spec (zlen l) b); [by eexists|].
  destruct (Z.ltb_spec b 0); [by eexists|]. lia.
Qed.

Lemma GetRange_correct_witness :
  GetRange (NewChain 1) 1 9 (demo_chain demo_elements) = Ok (Some <$> drop 1 demo_elements).
Proof.
  exact (GetRange_correct 1 (demo_chain demo_elements) demo_elements 1 9 ltac:(lia)
    (demo_chain_inv _ demo_elements_32 ltac:(done)) ltac:(done)).
Defined.

Lemma Included_elements ms rc cr l h :
  Included (mkReceiptList ms (Some <$> l) rc cr) h = true <-> h ∈ l.
Proof.
  unfold Included. simpl. rewrite existsb_exists, list_elem_of_In. split.
  - intros (e & He & Heq). apply in_map_iff in He as (x & <- & Hx). apply bytes_eqb_eq in Heq.
    simpl in Heq. by subst.
  - intros Hh. exists (Some h). split; [by apply in_map_iff; exists h|]. apply bytes_eqb_refl.
Qed.

(** Receipt lists: for [a <= b] on the chain where the element at [b] has no
    earlier occurrence, the list built holds the elements from [a] to [b], and it
    validates. *)
Theorem GetReceiptList_validates (p : Z) {S} `{ChainStoreLaws S} (s : S) (l : list bytes) (a b : nat) (y : bytes)
  (Hp : 1 <= p < 62) (Hi : chain_inv (NewChain p) s l) (Hl : zlen l < 2 ^ 62)
  (Hf : Forall (fun h => length h = 32%nat) l) (Hab : (a <= b)%nat) (Hy : first_index y l = Some b) :
  exists r, GetReceiptList (NewChain p) (Z.of_nat a) (Z.of_nat b) s = Ok r /\
    ReceiptList_Validate r = true /\ rl_Elements r = Some <$> take (b - a + 1) (drop a l) /\
    forall h, Included r h = true <-> h ∈ take (b - a + 1) (drop a l).
Proof.
  destruct (GetReceiptList_elements p Hp s l a b y) as (r & _ & Hst & Ha & Hv & ->); try done.
  pose proof (first_index_Some _ _ _ Hy) as Hyb. pose proof (lookup_lt_Some _ _ _ Hyb).
  eexists. split; [done|]. split; [|split; [done|intros h; apply Included_elements]]. unfold ReceiptList_Validate, zlen in *. simpl rl_MerkleState.
  simpl rl_Receipt. simpl rl_Elements. simpl rl_ContinuedReceipt. cbv iota.
  rewrite last_lookup, length_fmap, length_take, length_drop, Nat.min_l by lia.
  rewrite list_lookup_fmap, lookup_take_lt, lookup_drop by lia.
  replace (a + Nat.pred (b - a + 1))%nat with b by lia. rewrite Hyb.
  rewrite MerkleState_Copy_id. cbn [fmap option_fmap option_map].
  rewrite add_elements_all by (by apply Forall_take, Forall_drop).
  assert (Hr : Represents (add_all (chain_head (NewChain p) (take a l)) (take (b - a + 1) (drop a l)))
    (take (b + 1) l)).
  { replace (b + 1)%nat with (a + (b - a + 1))%nat by lia. rewrite <- (take_take_drop l a).
    apply Represents_add_all; [apply Represents_chain_head; [done|]|]; unfold zlen;
      rewrite ?length_app, ?length_take, ?length_drop; lia. }
  rewrite (GetMDRoot_Represents _ _ Hr).
  assert (Hne : take (b + 1) l <> []).
  { intros He. apply (f_equal length) in He. rewrite length_take in He. simpl in He. lia. }
  destruct (take (b + 1) l) as [|z t] eqn:Ht; [done|]. rewrite <- Ht in *.
  change (hb (Some (mth (take (b + 1) l)))) with (mth (take (b + 1) l)).
  rewrite length_mth by (done || by apply Forall_take). simpl (Z.of_nat 32 =? 0). cbv iota.
  rewrite Hst, Ha, Hv. unfold Hash_Equal. by rewrite !bytes_eqb_refl.
Qed.

Lemma GetReceiptList_validates_witness :
  exists r, GetReceiptList (NewChain 1) 1 2 (demo_chain demo_elements) = Ok r /\
    ReceiptList_Validate r = true /\ rl_Elements r = Some <$> take 2 (drop 1 demo_elements) /\
    forall h, Included r h = true <-> h ∈ take 2 (drop 1 demo_elements).
Proof.
  apply (GetReceiptList_validates 1 (demo_chain demo_elements) demo_elements 1 2 (sha256 [Byte.x03])
    ltac:(lia) (demo_chain_inv _ demo_elements_32 ltac:(done)) ltac:(done) demo_elements_32 ltac:(lia)).
  vm_compute. reflexivity.
Defined.

(** When the last element of the list also occurs earlier on the chain, the
    receipt leads to the earlier anchor and the list just built does not validate. *)
Theorem GetReceiptList_duplicate :
  let s := demo_chain (demo_elements ++ [sha256 [Byte.x01]]) in
  exists r, GetReceiptList (NewChain 1) 2 4 s = Ok r /\ ReceiptList_Validate r = false.
Proof. eexists. split; [vm_compute; reflexivity|]. vm_compute. reflexivity. Qed.

(** On an empty chain the state of element 0 is not an error: [GetState] adds a
    nil hash when the element is missing, and [GetAnyState] returns a state that
    counts one element. *)
Theorem GetAnyState_empty (p : Z) :
  (exists e, Get 0 empty_view = Err e /\ is_not_found e = true) /\
  exists m, GetAnyState (NewChain p) 0 empty_view = Ok m /\ Count m = 1.
Proof. split; eexists; (split; [reflexivity|done]). Qed.
