(* ===== verification/Bpt.v ===== *)
(** * The binary Patricia tree: [smt/pmt]

    The tree maps 32-byte keys to 32-byte hashes and keeps a summary hash in every
    node.  Insertions mark nodes dirty; [Update] recomputes the hashes of the dirty
    nodes and of their ancestors from the highest level down, and flushes byte
    blocks (the subtrees between heights that are multiples of eight) to the store.

    The code links nodes by pointers, children to parents included.  Here the tree is
    a value and a pointer to a node is its path from the root, true for Left: nodes
    never move, so the path of a node does not change, and the parent is the path
    without its last step. *)

From stdpp Require Import sorting.
From S2P Require Import Prelude Sha256 Encoding MerkleTree MerkleState Receipt Storage.
Local Open Scope Z_scope.

(** ** Entries *)

(** [nil], [*Value], [*BptNode] and [*NotLoaded]. *)
Inductive Entry :=
  | ENil
  | EValue (Key Hash : bytes)
  | ENode (Height : Z) (NodeKey Hash : bytes) (Left Right : Entry)
  | ENotLoaded.

#[global] Instance Entry_eq_dec : EqDecision Entry.
Proof. solve_decision. Defined.

Definition TNil : byte := Byte.x01.
Definition TNode : byte := Byte.x02.
Definition TValue : byte := Byte.x03.
Definition TNotLoaded : byte := Byte.x04.

(** [GetHash(e)]: nil for nil and for an entry that is not loaded. *)
Definition GetHash (e : Entry) : Hash :=
  match e with
  | ENil | ENotLoaded => None
  | EValue _ h => Some h
  | ENode _ _ h _ _ => Some h
  end.

(** [GetNodeHash(n)]. *)
Definition GetNodeHash (n : Entry) : res Entry :=
  match n with
  | ENode ht nk _ l r =>
      match GetHash l, GetHash r with
      | Some L, Some R => Ok (ENode ht nk (sha256 (L ++ R)) l r)
      | Some L, None => Ok (ENode ht nk L l r)
      | None, Some R => Ok (ENode ht nk R l r)
      | None, None => Panic "dead nodes should not exist"
      end
  | _ => Panic "invalid memory address or nil pointer dereference"
  end.

(** ** Node keys *)

Definition GetNodeKey (height : Z) (key : bytes) : bytes * bool :=
  if 254 <? height then (Key_zero, false)
  else
    let byteCnt := Z.to_nat (Z.shiftr height 3) in
    let bitCnt := Z.land height 7 in
    let lastByte := b2z (nth byteCnt key Byte.x00) in
    let lastByte := Z.shiftr lastByte (7 - bitCnt) in
    let lastByte := Z.lor lastByte 1 in
    let lastByte := u8 (Z.shiftl lastByte (7 - bitCnt)) in
    let nk := take byteCnt key ++ [z2b lastByte] in
    (take 32 (nk ++ Key_zero), true).

(** The index of the last byte that is not zero, 0 when there is none after it. *)
Fixpoint last_nonzero (n : nat) (key : bytes) : nat :=
  match n with
  | O => O
  | S n' => if bool_decide (nth n key Byte.x00 = Byte.x00) then last_nonzero n' key else n
  end.

(** The loop that looks for the lowest set bit: the count and the mask. *)
Fixpoint low_bit (fuel : nat) (lastByte bit bitMask : Z) : Z * Z :=
  match fuel with
  | O => (bit, bitMask)
  | S f => if Z.land lastByte bitMask =? 0 then low_bit f lastByte (bit + 1) (u8 (Z.shiftl bitMask 1))
           else (bit, bitMask)
  end.

Definition xor_byte (key : bytes) (i : nat) (mask : Z) : bytes :=
  <[i := z2b (Z.lxor (b2z (nth i key Byte.x00)) mask)]> key.

Definition GetHtKey (nodeKey : bytes) : Z * bytes * bool :=
  let byteIdx := last_nonzero 31 nodeKey in
  let lastByte := b2z (nth byteIdx nodeKey Byte.x00) in
  if lastByte =? 0 then (0, nodeKey, false)
  else
    let '(bit, bitMask) := low_bit 8 lastByte 1 1 in
    (Z.of_nat byteIdx * 8 + 8 - bit, xor_byte nodeKey byteIdx bitMask, true).

(** The loop over trailing zero bytes has no lower bound: an all-zero key panics. *)
Definition GetChildrenNodeKeys (nodeKey : bytes) : res (bytes * bytes * bool) :=
  if bool_decide (take 32 nodeKey = Key_zero) then Panic "index out of range [-1]"
  else
    let byteIdx := last_nonzero 31 nodeKey in
    let lastByte := b2z (nth byteIdx nodeKey Byte.x00) in
    let '(bit, bitMask) := low_bit 8 lastByte 1 1 in
    let height := Z.of_nat byteIdx * 8 + (8 - bit) in
    let right_ := xor_byte nodeKey byteIdx bitMask in
    let '(left_, ok) := GetNodeKey (height + 1) nodeKey in
    if ok then let '(right_, ok) := GetNodeKey (height + 1) right_ in Ok (left_, right_, ok)
    else Ok (left_, right_, false).

(** [bit & key[BIdx] != 0] at a height of the tree: true goes Left. *)
Definition key_bit (height : Z) (key : bytes) : res bool :=
  let BIdx := u8 (Z.shiftr height 3) in
  let bit := Z.shiftr 128 (Z.land height 7) in
  let! b := index key BIdx in
  Ok (negb (Z.land bit (b2z b) =? 0)).

(** ** Byte blocks *)

Definition Value_Marshal (key hash : bytes) : bytes := key ++ hash.

Definition Value_UnMarshal (data : bytes) : res (Entry * bytes) :=
  let! key := slice_to data 32 in
  let! data := slice_from data 32 in
  let! hash := slice_to data 32 in
  let! data := slice_from data 32 in
  Ok (EValue key hash, data).

Definition BptNode_Marshal (height : Z) (nodeKey hash : bytes) : bytes :=
  nodeKey ++ [z2b height] ++ hash.

(** The fields of a node: node key, height and hash. *)
Definition BptNode_UnMarshal (data : bytes) : res (Z * bytes * bytes * bytes) :=
  let! keySlice := slice_to data 32 in
  let! data := slice_from data 32 in
  let! ht := index data 0 in
  let! data := slice_from data 1 in
  let! hashSlice := slice_to data 32 in
  let! data := slice_from data 32 in
  Ok (b2z ht, keySlice, hashSlice, data).

Fixpoint MarshalEntry (Mask : Z) (entry : Entry) : bytes :=
  match entry with
  | ENil => [TNil]
  | EValue k h => TValue :: Value_Marshal k h
  | ENotLoaded => [TNotLoaded]
  | ENode ht nk h l r =>
      TNode :: BptNode_Marshal ht nk h ++
      (if Z.land ht Mask =? 0 then [TNotLoaded; TNotLoaded]
       else MarshalEntry Mask l ++ MarshalEntry Mask r)
  end.

Definition MarshalByteBlock (Mask : Z) (borderNode : Entry) : res bytes :=
  match borderNode with
  | ENode ht _ _ l r =>
      if negb (Z.land ht Mask =? 0) then Panic "cannot call MarshalByteBlock on non-boarder nodes"
      else Ok (MarshalEntry Mask l ++ MarshalEntry Mask r)
  | _ => Panic "invalid memory address or nil pointer dereference"
  end.

(** Every call consumes a byte, so the length of the data bounds the recursion. *)
Fixpoint unmarshal_entry (fuel : nat) (Mask parentHeight : Z) (data : bytes) : res (Entry * bytes) :=
  match fuel with
  | O => Panic "out of fuel"
  | S f =>
      let! nodeType := index data 0 in
      let! data := slice_from data 1 in
      if bool_decide (nodeType = TNil) then Ok (ENil, data)
      else if bool_decide (nodeType = TValue) then Value_UnMarshal data
      else if bool_decide (nodeType = TNotLoaded) then
        if negb (Z.land parentHeight Mask =? 0)
        then Panic "writing a TNotLoaded node on a non-boundary node"
        else Ok (ENotLoaded, data)
      else if bool_decide (nodeType = TNode) then
        let! (ht, nk, h, data) := BptNode_UnMarshal data in
        let! (l, data) := unmarshal_entry f Mask ht data in
        let! (r, data) := unmarshal_entry f Mask ht data in
        Ok (ENode ht nk h l r, data)
      else Panic "failure to decode the ByteBlock"
  end.

Definition UnMarshalEntry (Mask parentHeight : Z) (data : bytes) : res (Entry * bytes) :=
  unmarshal_entry (S (length data)) Mask parentHeight data.

(** The border node with its children replaced, and the data that is left. *)
Definition UnMarshalByteBlock (Mask : Z) (borderNode : Entry) (data : bytes) : res (Entry * bytes) :=
  match borderNode with
  | ENode ht nk h _ _ =>
      if negb (Z.land ht Mask =? 0) then Panic "cannot call UnMarshalByteBlock on non-boarder nodes"
      else
        let! (l, data) := UnMarshalEntry Mask ht data in
        let! (r, data) := UnMarshalEntry Mask ht data in
        Ok (ENode ht nk h l r, data)
  | _ => Panic "invalid memory address or nil pointer dereference"
  end.

(** ** Equality *)

(** [Equal] recovers every panic as false, a nil or mistyped entry included. *)
Fixpoint Entry_Equal (e e2 : Entry) : bool :=
  match e, e2 with
  | EValue k h, EValue k2 h2 => bytes_eqb k k2 && bytes_eqb h h2
  | ENode ht nk h l r, ENode ht2 nk2 h2 l2 r2 =>
      (ht =? ht2) && bytes_eqb nk nk2 && bytes_eqb h h2
      && (match l with ENil => match l2 with ENil => true | _ => false end | _ => Entry_Equal l l2 end)
      && (match r with ENil => match r2 with ENil => true | _ => false end | _ => Entry_Equal r r2 end)
  | ENotLoaded, ENotLoaded => true
  | _, _ => false
  end.

(** ** The tree *)

Abbreviation path := (list bool).

Section Tree.
Context {S : Type} `{!KeyValueTxn S}.

Record BPT := mkBPT {
  RootHash : bytes;
  Root : Entry;
  DirtyMap : gmap bytes path;
  MaxHeight : Z;
  Power : Z;
  Mask : Z;
  Manager : option S
}.

Definition set_Root (r : Entry) (b : BPT) : BPT :=
  mkBPT (RootHash b) r (DirtyMap b) (MaxHeight b) (Power b) (Mask b) (Manager b).
Definition set_DirtyMap (d : gmap bytes path) (b : BPT) : BPT :=
  mkBPT (RootHash b) (Root b) d (MaxHeight b) (Power b) (Mask b) (Manager b).
Definition set_RootHash (h : bytes) (b : BPT) : BPT :=
  mkBPT h (Root b) (DirtyMap b) (MaxHeight b) (Power b) (Mask b) (Manager b).
Definition set_MaxHeight (m : Z) (b : BPT) : BPT :=
  mkBPT (RootHash b) (Root b) (DirtyMap b) m (Power b) (Mask b) (Manager b).
Definition set_Manager (m : option S) (b : BPT) : BPT :=
  mkBPT (RootHash b) (Root b) (DirtyMap b) (MaxHeight b) (Power b) (Mask b) m.

Definition hash_zero : bytes := replicate 32 Byte.x00.

Definition NewBPT (manager : option S) : BPT :=
  mkBPT hash_zero (ENode 0 (fst (GetNodeKey 0 Key_zero)) hash_zero ENil ENil) ∅ 0 8 7 manager.

Definition BPT_Marshal (b : BPT) : bytes :=
  [z2b (MaxHeight b)] ++ [z2b (Z.shiftr (Power b) 8); z2b (Power b)]
  ++ [z2b (Z.shiftr (Mask b) 8); z2b (Mask b)] ++ RootHash b.

(** The fields, and the slice returned: [data[:32]]. *)
Definition BPT_UnMarshal (data : bytes) (b : BPT) : res (BPT * bytes) :=
  let! mh := index data 0 in
  let! data := slice_from data 1 in
  let! p1 := index data 0 in
  let! p0 := index data 1 in
  let! data := slice_from data 2 in
  let! m1 := index data 0 in
  let! m0 := index data 1 in
  let! data := slice_from data 2 in
  let! h := slice_to data 32 in
  Ok (mkBPT h (Root b) ∅ (b2z mh) (Z.shiftl (b2z p1) 8 + b2z p0)
        (Z.shiftl (b2z m1) 8 + b2z m0) (Manager b), h).

(** [NewNode]: the node, and the highest height seen. *)
Definition NewNode (key : bytes) (parentHeight : Z) (b : BPT) : Entry * BPT :=
  let Height := parentHeight + 1 in
  (ENode Height (fst (GetNodeKey Height key)) hash_zero ENil ENil,
   if MaxHeight b <? Height then set_MaxHeight Height b else b).

Definition Dirty (nodeKey : bytes) (p : path) (b : BPT) : BPT :=
  set_DirtyMap (<[nodeKey := p]> (DirtyMap b)) b.
Definition Clean (nodeKey : bytes) (b : BPT) : BPT :=
  set_DirtyMap (delete nodeKey (DirtyMap b)) b.
Definition IsDirty (nodeKey : bytes) (b : BPT) : bool :=
  match DirtyMap b !! nodeKey with Some _ => true | None => false end.

Definition kBpt : Key := MakeKey [KString "BPT"].
Definition kBptRoot : Key := Key_Append kBpt [KString "Root"].

(** [Manager.LoadNode]; a missing manager is a nil dereference. *)
Definition LoadNode (node : Entry) (b : BPT) : res Entry :=
  match Manager b, node with
  | Some db, ENode ht nk _ _ _ =>
      if negb (Z.land ht (Mask b) =? 0)
      then Panic "load should not be called on a node that is not a border node"
      else match kv_Get (Key_Append kBpt [KBytes nk]) db with
           | Ok data => let! (node, _) := UnMarshalByteBlock (Mask b) node data in GetNodeHash node
           | Err _ => Panic "Should have a Byte Block for any persisted BPT"
           | Panic m => Panic m
           end
  | _, _ => Panic "invalid memory address or nil pointer dereference"
  end.

Definition is_NotLoaded (e : Entry) : bool := match e with ENotLoaded => true | _ => false end.

Definition LoadNext (node : Entry) (b : BPT) : res Entry :=
  match node with
  | ENode _ _ _ l r =>
      if is_NotLoaded l || is_NotLoaded r then
        let! node := LoadNode node b in
        match node with
        | ENode _ _ _ l r =>
            if is_NotLoaded l || is_NotLoaded r then Panic "We didn't load the node" else Ok node
        | _ => Ok node
        end
      else Ok node
  | _ => Panic "invalid memory address or nil pointer dereference"
  end.

(** Heights stay below 256, where the key runs out, so no recursion is deeper. *)
Definition bpt_fuel : nat := 257.

(** [Get]: the tree after loading; the highest node, the entry and whether it is found. *)
Fixpoint get_at (fuel : nat) (node : Entry) (key : bytes) (b : BPT)
  : res (Entry * (Entry * option Entry * bool)) :=
  match fuel, node with
  | Datatypes.S f, ENode ht _ _ _ _ =>
      let! bit := key_bit ht key in
      let! node := LoadNext node b in
      match node with
      | ENode ht nk h l r =>
          let entry := if bit : bool then l else r in
          match entry with
          | ENil => Ok (node, (node, None, false))
          | ENode _ _ _ _ _ =>
              let! (entry, out) := get_at f entry key b in
              Ok (if bit : bool then ENode ht nk h entry r else ENode ht nk h l entry, out)
          | EValue k _ => Ok (node, (node, Some entry, bytes_eqb k key))
          | ENotLoaded => Panic "Should never reach this point"
          end
      | _ => Panic "unreachable"
      end
  | _, _ => Panic "out of fuel"
  end.

Definition Get (key : bytes) (b : BPT) : res (BPT * (Entry * option Entry * bool)) :=
  let! (root, out) := get_at bpt_fuel (Root b) key b in Ok (set_Root root b, out).

(** [insertAtNode], for the node at the path [p]. *)
Fixpoint insertAtNode (fuel : nat) (p : path) (node : Entry) (key hash : bytes) (b : BPT)
  : res (Entry * BPT) :=
  match fuel, node with
  | Datatypes.S f, ENode ht _ _ _ _ =>
      let! bit := key_bit ht key in
      let! node := LoadNext node b in
      match node with
      | ENode ht nk h l r =>
          let entry := if bit : bool then l else r in
          let put e := if bit : bool then ENode ht nk h e r else ENode ht nk h l e in
          match entry with
          | ENil => Ok (put (EValue key hash), Dirty nk p b)
          | ENode _ _ _ _ _ =>
              let! (entry, b) := insertAtNode f (p ++ [bit]) entry key hash b in Ok (put entry, b)
          | EValue k0 h0 =>
              if bytes_eqb key k0 then
                if bytes_eqb h0 hash then Ok (node, b)
                else Ok (put (EValue k0 hash), Dirty nk p b)
              else
                let '(nn, b) := NewNode key ht b in
                let! (nn, b) := insertAtNode f (p ++ [bit]) nn key hash b in
                let! (nn, b) := insertAtNode f (p ++ [bit]) nn k0 h0 b in
                Ok (put nn, b)
          | ENotLoaded => Panic "interface conversion"
          end
      | _ => Panic "unreachable"
      end
  | _, _ => Panic "out of fuel"
  end.

Definition Insert (key hash : bytes) (b : BPT) : res BPT :=
  let! (root, b) := insertAtNode bpt_fuel [] (Root b) key hash b in Ok (set_Root root b).

(** *** Update *)

Fixpoint entry_at (p : path) (e : Entry) : Entry :=
  match p, e with
  | [], _ => e
  | d :: p', ENode _ _ _ l r => entry_at p' (if d : bool then l else r)
  | _, _ => ENil
  end.

Fixpoint update_at (p : path) (n : Entry) (e : Entry) : Entry :=
  match p, e with
  | [], _ => n
  | d :: p', ENode ht nk h l r =>
      if d : bool then ENode ht nk h (update_at p' n l) r else ENode ht nk h l (update_at p' n r)
  | _, _ => e
  end.

Definition Height_at (b : BPT) (p : path) : Z :=
  match entry_at p (Root b) with ENode ht _ _ _ _ => ht | _ => 0 end.

Definition FlushNode (node : Entry) (b : BPT) : res BPT :=
  match Manager b, node with
  | Some db, ENode ht nk _ _ _ =>
      if Z.land ht 7 =? 0 then
        let! data := MarshalByteBlock (Mask b) node in
        let! db := kv_Put (Key_Append kBpt [KBytes nk]) data db in
        if ht =? 0 then
          let! db := kv_Put kBptRoot (BPT_Marshal b) db in Ok (set_Manager (Some db) b)
        else Ok (set_Manager (Some db) b)
      else Ok b
  | _, _ => Panic "invalid memory address or nil pointer dereference"
  end.

(** [b.Dirty(n.Parent)]; the root has no parent. *)
Definition Dirty_parent (p : path) (b : BPT) : BPT :=
  match p with
  | [] => b
  | _ => match entry_at (removelast p) (Root b) with
         | ENode _ nk _ _ _ => Dirty nk (removelast p) b
         | _ => b
         end
  end.

(** One pass of [Update] over the dirty list, at the height [h]. *)
Fixpoint update_pass (h : Z) (dirtyList : list path) (b : BPT) : res BPT :=
  match dirtyList with
  | [] => Ok b
  | p :: rest =>
      match entry_at p (Root b) with
      | ENode ht nk _ _ _ =>
          if negb (ht =? h) then Ok b
          else
            let! b := if (Z.land h (Mask b) =? 0) && bool_decide (is_Some (Manager b))
                      then FlushNode (entry_at p (Root b)) b else Ok b in
            let! n := GetNodeHash (entry_at p (Root b)) in
            update_pass h rest (Dirty_parent p (Clean nk (set_Root (update_at p n (Root b)) b)))
      | _ => Panic "invalid memory address or nil pointer dereference"
      end
  end.

(** Every pass removes the highest level of dirty nodes. *)
Fixpoint update_loop (fuel : nat) (GetDirtyList : BPT -> list path) (b : BPT) : res BPT :=
  match fuel with
  | O => Panic "out of fuel"
  | Datatypes.S f =>
      match GetDirtyList b with
      | [] => Ok b
      | p :: _ =>
          let! b := update_pass (Height_at b p) (GetDirtyList b) b in
          update_loop f GetDirtyList b
      end
  end.

Definition root_hash (b : BPT) : bytes :=
  match Root b with ENode _ _ h _ _ => h | _ => hash_zero end.

(** [GetDirtyList] collects a Go map and sorts it by height with an unstable sort, so
    the order of nodes of equal height is arbitrary: it is an argument here. *)
Definition Update (GetDirtyList : BPT -> list path) (b : BPT) : res BPT :=
  let! b := update_loop bpt_fuel GetDirtyList b in
  let! b :=
    match Manager b with
    | Some _ => let b := set_RootHash (root_hash b) b in FlushNode (Root b) b
    | None => Ok b
    end in
  Ok (set_RootHash (root_hash b) b).

(** One order [GetDirtyList] can return. *)
Definition higher (b : BPT) (p q : path) : Prop := Height_at b q <= Height_at b p.
#[global] Instance higher_dec b p q : Decision (higher b p q).
Proof. unfold higher. apply _. Defined.
Definition GetDirtyList (b : BPT) : list path :=
  merge_sort (higher b) ((map_to_list (DirtyMap b)).*2).

Definition EnsureRootHash (b : BPT) : BPT :=
  match GetNodeHash (Root b) with Ok r => set_Root r b | _ => b end.

(** *** Ranges *)

(** [WalkRange]: the tree after loading, the flag [found] and the values. *)
Fixpoint WalkRange (fuel : nat) (found : bool) (node : Entry) (count : Z) (key : bytes)
    (values : list (bytes * bytes)) (b : BPT) : res (Entry * bool * list (bytes * bytes)) :=
  let walk (f : nat) (entry : Entry) (found : bool) (values : list (bytes * bytes)) :=
    match entry with
    | ENil => Ok (entry, true, values)
    | ENode _ _ _ _ _ => WalkRange f found entry count key values b
    | EValue k h => Ok (entry, true, if bytes_eqb key k then values else values ++ [(k, h)])
    | ENotLoaded => Panic "interface conversion"
    end in
  match fuel, node with
  | Datatypes.S f, ENode ht _ _ _ _ =>
      let! node := LoadNext node b in
      match node with
      | ENode ht nk h l r =>
          if count <=? zlen values then Ok (node, found, values)
          else
            let! go_left := if found then Ok true else key_bit ht key in
            let! (l, found, values) :=
              if go_left : bool then walk f l found values else Ok (l, found, values) in
            if count <=? zlen values then Ok (ENode ht nk h l r, found, values)
            else
              let! (r, found, values) := walk f r found values in
              Ok (ENode ht nk h l r, found, values)
      | _ => Panic "unreachable"
      end
  | _, _ => Panic "out of fuel"
  end.

Definition GetRange (startKey : bytes) (count : Z) (b : BPT)
  : res (BPT * (list (bytes * bytes) * bytes)) :=
  if count =? 0 then Ok (b, ([], Key_zero))
  else
    let! (root, _, values) := WalkRange bpt_fuel false (Root b) count startKey [] b in
    Ok (set_Root root b, (values, match last values with Some (k, _) => k | None => Key_zero end)).

(** *** Receipts *)

(** [CollectReceipt] for the bit of a height; nil when the key is not there, else the
    node's hash, the hash of the value and the entries. *)
Fixpoint CollectReceipt (fuel : nat) (node : Entry) (key : bytes) (b : BPT)
  (ht : Z) : res (Entry * option (bytes * bytes * list ReceiptEntry)) :=
  match fuel, node with
  | Datatypes.S f, ENode _ _ _ l r =>
      let! node := if is_NotLoaded l || is_NotLoaded r then LoadNode node b else Ok node in
      match node with
      | ENode ht' nk h l r =>
          let! bit := key_bit ht key in
          let right_ := negb bit in
          let entry := if right_ then r else l in
          let other := if right_ then l else r in
          let put e := if right_ then ENode ht' nk h l e else ENode ht' nk h e r in
          let add entries :=
            match other with
            | ENil => entries
            | _ => entries ++ [mkEntry (negb right_) (GetHash other)]
            end in
          match entry with
          | EValue k v =>
              if bytes_eqb k key then Ok (node, Some (h, v, add [])) else Ok (node, None)
          | ENode _ _ _ _ _ =>
              let! (entry, out) := CollectReceipt f entry key b (ht + 1) in
              match out with
              | None => Ok (put entry, None)
              | Some (_, v, entries) => Ok (put entry, Some (h, v, add entries))
              end
          | _ => Ok (node, None)
          end
      | _ => Panic "unreachable"
      end
  | _, _ => Panic "out of fuel"
  end.

Definition BPT_GetReceipt (chainID : bytes) (b : BPT) : res (BPT * option Receipt) :=
  let! (root, out) := CollectReceipt bpt_fuel (Root b) chainID b 0 in
  Ok (set_Root root b,
      match out with
      | None => None
      | Some (anchor, start, entries) => Some (mkReceipt (Some start) 0 None 0 (Some anchor) entries)
      end).

End Tree.
Arguments BPT S : clear implicits.
