(* ===== verification/BptKeys.v ===== *)
(** * Bits of keys and node keys of the Patricia tree

    A key is read bit by bit from the most significant bit of its first byte; the
    node key of a height is the key's first bits, a one, and zeros. *)

From S2P Require Import Prelude Sha256 Storage Bpt.
Local Open Scope nat_scope.

(** ** Bits *)

Definition kbit (k : bytes) (i : nat) : bool :=
  Z.testbit (b2z (nth (i / 8) k Byte.x00)) (7 - Z.of_nat (i mod 8)).

(** The key follows the path. *)
Definition agree (π : path) (k : bytes) : Prop := forall i b, π !! i = Some b -> kbit k i = b.

Lemma agree_nil k : agree [] k.
Proof. by intros i b. Qed.

Lemma agree_snoc π b k : agree (π ++ [b]) k <-> agree π k /\ kbit k (length π) = b.
Proof.
  split.
  - intros H. split.
    + intros i c Hi. apply H. by apply lookup_app_l_Some.
    + apply H. by rewrite lookup_app_r, Nat.sub_diag by lia.
  - intros [H Hb] i c Hi. apply lookup_app_Some in Hi as [Hi|[Hle Hi]]; [by apply H|].
    apply list_lookup_singleton_Some in Hi as [Hz <-]. by replace i with (length π) by lia.
Qed.

Lemma b2z_eq_bits a b :
  (forall n, (0 <= n < 8)%Z -> Z.testbit (b2z a) n = Z.testbit (b2z b) n) -> a = b.
Proof.
  intros H. apply b2z_inj, Z.bits_inj'. intros n Hn.
  destruct (decide (n < 8)%Z); [apply H; lia|].
  pose proof (b2z_range a). pose proof (b2z_range b).
  by rewrite !(testbit_above_pow _ 8) by (change (2 ^ 8)%Z with 256%Z; lia).
Qed.

Lemma kbit_inj k k' :
  length k = 32 -> length k' = 32 -> (forall i, i < 256 -> kbit k i = kbit k' i) -> k = k'.
Proof.
  intros Hk Hk' H. apply nth_ext with (d := Byte.x00) (d' := Byte.x00); [lia|].
  intros j Hj. apply b2z_eq_bits. intros n Hn.
  specialize (H (j * 8 + Z.to_nat (7 - n)) ltac:(lia)). unfold kbit in H.
  replace ((j * 8 + Z.to_nat (7 - n)) / 8) with j in H by
    (apply Nat.div_unique with (Z.to_nat (7 - n)); lia).
  replace ((j * 8 + Z.to_nat (7 - n)) mod 8) with (Z.to_nat (7 - n)) in H by
    (apply Nat.mod_unique with j; lia).
  by replace (7 - Z.of_nat (Z.to_nat (7 - n)))%Z with n in H by lia.
Qed.

Lemma agree_full π k k' :
  length π = 256 -> length k = 32 -> length k' = 32 -> agree π k -> agree π k' -> k = k'.
Proof.
  intros Hπ Hk Hk' H H'. apply kbit_inj; [done..|]. intros i Hi.
  destruct (lookup_lt_is_Some_2 π i) as [b Hb]; [lia|]. by rewrite (H i b), (H' i b).
Qed.

Lemma shiftr_3 (h : nat) : Z.shiftr (Z.of_nat h) 3 = Z.of_nat (h / 8).
Proof. rewrite Z.shiftr_div_pow2, Nat2Z.inj_div by lia. done. Qed.

Lemma land_7 (h : nat) : Z.land (Z.of_nat h) 7 = Z.of_nat (h mod 8).
Proof. change 7%Z with (Z.ones 3). rewrite Z.land_ones, Nat2Z.inj_mod by lia. done. Qed.

Lemma land_pow2_eqb x n : (0 <= n)%Z -> (Z.land (2 ^ n) x =? 0)%Z = negb (Z.testbit x n).
Proof.
  intros Hn. destruct (Z.testbit x n) eqn:Hb; simpl.
  - apply Z.eqb_neq. intros H. apply (f_equal (fun z => Z.testbit z n)) in H.
    rewrite Z.land_spec, Z.pow2_bits_true, Hb, Z.bits_0 in H by done. done.
  - apply Z.eqb_eq, Z.bits_inj'. intros m Hm. rewrite Z.land_spec, Z.bits_0.
    destruct (decide (n = m)) as [<-|Hne]; [by rewrite Hb, andb_false_r|].
    by rewrite Z.pow2_bits_false by done.
Qed.

Lemma key_bit_spec (h : nat) k :
  length k = 32 -> h < 256 -> key_bit (Z.of_nat h) k = Ok (kbit k h).
Proof.
  intros Hk Hh. unfold key_bit. rewrite shiftr_3, land_7.
  assert (h / 8 < 32) by (apply Nat.Div0.div_lt_upper_bound; lia).
  pose proof (Nat.mod_upper_bound h 8 ltac:(lia)).
  replace (u8 (Z.of_nat (h / 8))) with (Z.of_nat (h / 8)) by (unfold u8; rewrite Z.mod_small; lia).
  destruct (lookup_lt_is_Some_2 k (h / 8)) as [b Hb]; [lia|].
  rewrite (index_ok k (h / 8) b Hb). cbn [res_bind]. f_equal.
  replace (Z.shiftr 128 (Z.of_nat (h mod 8))) with (2 ^ (7 - Z.of_nat (h mod 8)))%Z.
  - rewrite land_pow2_eqb by lia. rewrite negb_involutive. unfold kbit.
    by rewrite (nth_lookup_Some _ _ _ _ Hb).
  - change 128%Z with (2 ^ 7)%Z. rewrite Z.shiftr_div_pow2, <- Z.pow_sub_r by lia. done.
Qed.

(** ** Node keys *)

Lemma nth_Key_zero j n : nth j (replicate n Byte.x00) Byte.x00 = Byte.x00.
Proof. revert j. induction n; intros [|j]; simpl; auto. Qed.

Lemma node_byte_bits b s n :
  (0 <= b < 256)%Z -> (0 <= s <= 7)%Z -> (0 <= n < 8)%Z ->
  Z.testbit (u8 (Z.shiftl (Z.lor (Z.shiftr b s) 1) s)) n =
  if (n <? s)%Z then false else if (n =? s)%Z then true else Z.testbit b n.
Proof.
  intros Hb Hs Hn. unfold u8. change 256%Z with (2 ^ 8)%Z.
  rewrite Z.mod_pow2_bits_low, Z.shiftl_spec by lia.
  destruct (Z.ltb_spec n s); [by rewrite Z.testbit_neg_r by lia|].
  rewrite Z.lor_spec, Z.shiftr_spec by lia. replace (n - s + s)%Z with n by lia.
  destruct (Z.eqb_spec n s) as [->|Hne].
  - rewrite Z.sub_diag. simpl. apply orb_true_r.
  - change 1%Z with (2 ^ 0)%Z. rewrite Z.pow2_bits_false by lia. apply orb_false_r.
Qed.

Lemma GetNodeKey_eq (h : nat) k :
  h <= 254 -> length k = 32 ->
  exists b, GetNodeKey (Z.of_nat h) k =
    (take (h / 8) k ++ b :: replicate (31 - h / 8) Byte.x00, true) /\
    (forall n, (0 <= n < 8)%Z -> Z.testbit (b2z b) n =
      let s := (7 - Z.of_nat (h mod 8))%Z in
      if (n <? s)%Z then false else if (n =? s)%Z then true
      else Z.testbit (b2z (nth (h / 8) k Byte.x00)) n).
Proof.
  intros Hh Hk. unfold GetNodeKey. rewrite (proj2 (Z.ltb_ge _ _)) by lia.
  rewrite shiftr_3, land_7, Nat2Z.id.
  assert (h / 8 < 32) by (apply Nat.Div0.div_lt_upper_bound; lia).
  pose proof (Nat.mod_upper_bound h 8 ltac:(lia)).
  eexists. split.
  - f_equal. rewrite <- app_assoc. rewrite take_app_ge by (rewrite length_take; lia).
    rewrite length_take, Nat.min_l by lia. f_equal.
    replace (32 - h / 8) with (S (31 - h / 8)) by lia. simpl. f_equal.
    unfold Key_zero. rewrite take_replicate. f_equal. lia.
  - intros n Hn. cbv zeta. rewrite b2z_z2b_small by (unfold u8; apply Z.mod_pos_bound; lia).
    rewrite node_byte_bits; [done|apply b2z_range|lia|lia].
Qed.

Lemma GetNodeKey_length (h : nat) k : h <= 254 -> length k = 32 ->
  length (fst (GetNodeKey (Z.of_nat h) k)) = 32.
Proof.
  intros Hh Hk. destruct (GetNodeKey_eq h k Hh Hk) as (b & -> & _). cbn [fst].
  assert (h / 8 < 32) by (apply Nat.Div0.div_lt_upper_bound; lia).
  rewrite length_app, length_take, length_cons, length_replicate. lia.
Qed.

(** The bits of a node key. *)
Lemma GetNodeKey_bits (h : nat) k i : h <= 254 -> length k = 32 -> i < 256 ->
  kbit (fst (GetNodeKey (Z.of_nat h) k)) i =
  if decide (i < h) then kbit k i else bool_decide (i = h).
Proof.
  intros Hh Hk Hi. destruct (GetNodeKey_eq h k Hh Hk) as (b & -> & Hb). cbn [fst]. unfold kbit.
  assert (Hh8 : h / 8 < 32) by (apply Nat.Div0.div_lt_upper_bound; lia).
  pose proof (Nat.mod_upper_bound h 8 ltac:(lia)). pose proof (Nat.mod_upper_bound i 8 ltac:(lia)).
  pose proof (Nat.div_mod_eq h 8). pose proof (Nat.div_mod_eq i 8).
  destruct (decide (i / 8 < h / 8)) as [Hlt|Hge].
  - rewrite app_nth1 by (rewrite length_take; lia). rewrite decide_True by lia.
    by rewrite nth_firstn, (proj2 (Nat.ltb_lt _ _)) by done.
  - rewrite app_nth2 by (rewrite length_take; lia). rewrite length_take, Nat.min_l by lia.
    destruct (decide (i / 8 = h / 8)) as [He|Hne].
    + rewrite He, Nat.sub_diag. simpl nth. rewrite Hb by lia. cbv zeta.
      destruct (Z.ltb_spec (7 - Z.of_nat (i mod 8)) (7 - Z.of_nat (h mod 8))).
      { rewrite decide_False, bool_decide_false by lia. done. }
      destruct (Z.eqb_spec (7 - Z.of_nat (i mod 8)) (7 - Z.of_nat (h mod 8))).
      { rewrite decide_False, bool_decide_true by lia. done. }
      rewrite decide_True by lia. done.
    + replace (i / 8 - h / 8) with (S (i / 8 - h / 8 - 1)) by lia. simpl nth.
      rewrite nth_Key_zero. rewrite decide_False, bool_decide_false by lia. apply Z.bits_0.
Qed.

(** [nk] is the node key of the path. *)
Definition key_of (π : path) (nk : bytes) : Prop :=
  forall k, length k = 32 -> agree π k -> nk = fst (GetNodeKey (Z.of_nat (length π)) k).

Lemma key_of_intro π k :
  length k = 32 -> agree π k -> key_of π (fst (GetNodeKey (Z.of_nat (length π)) k)).
Proof.
  intros Hk Ha k' Hk' Ha'. destruct (decide (length π <= 254)) as [Hle|Hgt].
  - apply kbit_inj; [by apply GetNodeKey_length..|]. intros i Hi.
    rewrite !GetNodeKey_bits by done. destruct (decide (i < length π)) as [Hlt|]; [|done].
    destruct (lookup_lt_is_Some_2 π i Hlt) as [b Hb]. by rewrite (Ha i b), (Ha' i b).
  - unfold GetNodeKey. by rewrite (proj2 (Z.ltb_lt _ _)) by lia.
Qed.

(** Paths of keys up to the limit of 254 have different node keys. *)
Lemma key_of_inj π π' nk k k' :
  length π <= 254 -> length π' <= 254 -> key_of π nk -> key_of π' nk ->
  length k = 32 -> agree π k -> length k' = 32 -> agree π' k' -> π = π'.
Proof.
  intros Hπ Hπ' H H' Hk Ha Hk' Ha'.
  pose proof (H k Hk Ha) as E. pose proof (H' k' Hk' Ha') as E'.
  assert (Hbits : forall i, i < 256 ->
    (if decide (i < length π) then kbit k i else bool_decide (i = length π)) =
    (if decide (i < length π') then kbit k' i else bool_decide (i = length π'))).
  { intros i Hi. rewrite <- !GetNodeKey_bits by done. by rewrite <- E, <- E'. }
  assert (Hlen : length π = length π').
  { destruct (decide (length π < length π')) as [Hlt|].
    - specialize (Hbits (length π') ltac:(lia)).
      rewrite !decide_False, bool_decide_false, bool_decide_true in Hbits by lia. done.
    - destruct (decide (length π' < length π)) as [Hlt|]; [|lia].
      specialize (Hbits (length π) ltac:(lia)).
      rewrite !decide_False in Hbits by lia. rewrite bool_decide_true, bool_decide_false in Hbits by lia.
      done. }
  apply list_eq. intros i. destruct (decide (i < length π)) as [Hlt|Hge].
  - destruct (lookup_lt_is_Some_2 π i Hlt) as [b Hb].
    destruct (lookup_lt_is_Some_2 π' i ltac:(lia)) as [b' Hb'].
    specialize (Hbits i ltac:(lia)). rewrite !decide_True in Hbits by lia.
    rewrite (Ha i b Hb), (Ha' i b' Hb') in Hbits. by rewrite Hb, Hb', Hbits.
  - by rewrite !(proj2 (lookup_ge_None _ _)) by lia.
Qed.
