(* ===== verification/BptMap.v ===== *)
(** * The Patricia tree as a finite map

    A well-formed, loaded tree is determined by the map it holds: insertion is the
    insertion of the map, lookup is its lookup, and two trees with the same map have
    the same summary hash, whatever the order of the insertions. *)

From S2P Require Import Prelude Sha256 Encoding MerkleTree MerkleState Receipt Storage Bpt BptKeys.
Local Open Scope nat_scope.

Fixpoint contents (e : Entry) : gmap bytes bytes :=
  match e with
  | EValue k h => {[ k := h ]}
  | ENode _ _ _ l r => contents l ∪ contents r
  | _ => ∅
  end.

Definition two_keys (m : gmap bytes bytes) : Prop :=
  exists k k', k <> k' /\ is_Some (m !! k) /\ is_Some (m !! k').

Inductive wf : path -> Entry -> Prop :=
  | wf_nil π : wf π ENil
  | wf_value π k h : length k = 32 -> length h = 32 -> agree π k -> wf π (EValue k h)
  | wf_node π nk h l r :
      wf (π ++ [true]) l -> wf (π ++ [false]) r -> key_of π nk -> length h = 32 ->
      two_keys (contents l ∪ contents r) ->
      wf π (ENode (Z.of_nat (length π)) nk h l r).

(** A node that may hold fewer than two values: the root, or one being filled. *)
Inductive node_wf : path -> Entry -> Prop :=
  | node_wf_intro π nk h l r :
      wf (π ++ [true]) l -> wf (π ++ [false]) r -> key_of π nk -> length h = 32 ->
      node_wf π (ENode (Z.of_nat (length π)) nk h l r).

#[export] Hint Constructors wf node_wf : go.

Lemma wf_node_wf π ht nk h l r : wf π (ENode ht nk h l r) -> node_wf π (ENode ht nk h l r).
Proof. inversion 1; subst. by constructor. Qed.

Lemma node_wf_wf π e : node_wf π e -> two_keys (contents e) -> wf π e.
Proof. inversion 1; subst. by constructor. Qed.

(** The keys of an entry follow its path. *)
Lemma wf_agree π e k h :
  wf π e -> contents e !! k = Some h -> length k = 32 /\ length h = 32 /\ agree π k.
Proof.
  intros Hw. revert k h. induction Hw as [|π k0 h0 Hk Hh Ha|π nk h0 l r Hl IHl Hr IHr Hn Hz Ht];
    intros k h; simpl; intros Hk'.
  - by rewrite lookup_empty in Hk'.
  - apply lookup_singleton_Some in Hk' as [<- <-]. by split_and!.
  - apply lookup_union_Some_raw in Hk' as [Hk'|[_ Hk']].
    + apply IHl in Hk' as (? & ? & Ha). apply agree_snoc in Ha as [? _]. by split_and!.
    + apply IHr in Hk' as (? & ? & Ha). apply agree_snoc in Ha as [? _]. by split_and!.
Qed.

Lemma wf_bit π b e k h :
  wf (π ++ [b]) e -> contents e !! k = Some h -> kbit k (length π) = b.
Proof. intros Hw Hk. destruct (wf_agree _ _ _ _ Hw Hk) as (_ & _ & Ha). by apply agree_snoc in Ha as [_ ?]. Qed.

(** A key is looked up on the side of its bit. *)
Lemma contents_side π l r k :
  wf (π ++ [true]) l -> wf (π ++ [false]) r ->
  (contents l ∪ contents r) !! k = contents (if kbit k (length π) then l else r) !! k.
Proof.
  intros Hl Hr. destruct (contents l !! k) as [h|] eqn:E.
  - rewrite (lookup_union_Some_l _ _ _ _ E), (wf_bit _ _ _ _ _ Hl E). done.
  - rewrite lookup_union_r by done. destruct (kbit k (length π)) eqn:Hb; [|done].
    destruct (contents r !! k) as [h|] eqn:E'; [|done].
    by rewrite (wf_bit _ _ _ _ _ Hr E') in Hb.
Qed.

Lemma insert_side π l r k h e :
  wf (π ++ [true]) l -> wf (π ++ [false]) r ->
  contents e = <[k := h]> (contents (if kbit k (length π) then l else r)) ->
  (if kbit k (length π) then contents e ∪ contents r else contents l ∪ contents e)
  = <[k := h]> (contents l ∪ contents r).
Proof.
  intros Hl Hr He. destruct (kbit k (length π)) eqn:Hb; rewrite He.
  - by rewrite insert_union_l.
  - rewrite insert_union_r; [done|]. destruct (contents l !! k) as [h'|] eqn:E; [|done].
    by rewrite (wf_bit _ _ _ _ _ Hl E) in Hb.
Qed.

(** ** Loading is not needed *)

Section Loaded.
Context {S : Type} `{!KeyValueTxn S}.
Implicit Types b : BPT S.

Lemma wf_is_NotLoaded π e : wf π e -> is_NotLoaded e = false.
Proof. by inversion 1. Qed.

Lemma LoadNext_wf π e b : node_wf π e -> LoadNext e b = Ok e.
Proof.
  inversion 1; subst. unfold LoadNext.
  by rewrite (wf_is_NotLoaded (π ++ [true])), (wf_is_NotLoaded (π ++ [false])).
Qed.

(** ** Lookup *)

Lemma get_at_spec fuel : forall π e k b,
  node_wf π e -> length k = 32 -> agree π k -> length π < 256 -> 257 <= length π + fuel ->
  exists hi o found, get_at fuel e k b = Ok (e, (hi, o, found)) /\
    contents e !! k = (if found : bool then match o with Some (EValue _ h) => Some h | _ => None end else None) /\
    (found = true -> exists h, o = Some (EValue k h)).
Proof.
  induction fuel as [|fuel IH]; intros π e k b Hw Hk Ha Hlt Hf; [lia|].
  pose proof (LoadNext_wf _ _ b Hw) as Hload. inversion Hw as [? nk h l r Hl Hr Hn Hz]; subst.
  cbn [get_at]. rewrite key_bit_spec by done. cbn [res_bind]. rewrite Hload. cbn [res_bind contents].
  rewrite (contents_side π) by done. set (bit := kbit k (length π)).
  assert (He : wf (π ++ [bit]) (if bit then l else r)) by (by destruct bit).
  assert (Hab : agree (π ++ [bit]) k) by (by apply agree_snoc).
  destruct (if bit then l else r) as [|k0 h0|ht' nk' h' l' r'|] eqn:Ee.
  - eexists _, _, _. split; [done|]. split; [apply lookup_empty|done].
  - eexists _, _, _. split; [done|]. simpl. destruct (bytes_eqb k0 k) eqn:E.
    + apply bytes_eqb_eq in E as ->. rewrite lookup_singleton_eq. split; [done|]. by eexists.
    + rewrite lookup_singleton_ne; [done|]. intros ->. by rewrite bytes_eqb_refl in E.
  - assert (Hlen : length (π ++ [bit]) < 256).
    { inversion He as [| |? ? ? ? ? Hl' Hr' ? ? (k1 & k2 & Hne & [v1 H1] & [v2 H2])]; subst.
      destruct (decide (length (π ++ [bit]) = 256)) as [E|]; [|rewrite length_app in *; simpl in *; lia].
      destruct (wf_agree _ (ENode (Z.of_nat (length (π ++ [bit]))) nk' h' l' r') _ _ He H1) as (? & ? & ?).
      destruct (wf_agree _ (ENode (Z.of_nat (length (π ++ [bit]))) nk' h' l' r') _ _ He H2) as (? & ? & ?).
      exfalso. apply Hne. by apply (agree_full (π ++ [bit])). }
    destruct (IH (π ++ [bit]) _ k b (wf_node_wf _ _ _ _ _ _ He) Hk Hab Hlen) as (hi & o & found & -> & Hc & Ho).
    { rewrite length_app. simpl. lia. }
    cbn [res_bind]. exists hi, o, found. split; [|done]. do 2 f_equal. destruct bit; congruence.
  - by inversion He.
Qed.

(** ** Insertion *)

Lemma two_keys_insert m k h : two_keys m -> two_keys (<[k := h]> m).
Proof.
  intros (k1 & k2 & Hne & H1 & H2). exists k1, k2. split; [done|].
  split; apply lookup_insert_is_Some'; by right.
Qed.

(** The room two different keys leave below a common path. *)
Lemma agree_room π k k' :
  length k = 32 -> length k' = 32 -> agree π k -> agree π k' -> k <> k' -> length π <= 256 ->
  length π < 256.
Proof.
  intros Hk Hk' Ha Ha' Hne Hle. destruct (decide (length π = 256)) as [E|]; [|lia].
  by destruct (Hne (agree_full π k k' E Hk Hk' Ha Ha')).
Qed.

Lemma wf_room π ht nk h l r :
  wf π (ENode ht nk h l r) -> length π <= 256 -> length π < 256.
Proof.
  intros Hw Hle. inversion Hw as [| |? ? ? ? ? ? ? ? ? (k1 & k2 & Hne & [v1 H1] & [v2 H2])]; subst.
  destruct (wf_agree _ _ k1 v1 Hw H1) as (? & ? & ?). destruct (wf_agree _ _ k2 v2 Hw H2) as (? & ? & ?).
  by apply (agree_room π k1 k2).
Qed.

Lemma node_wf_new π k :
  length k = 32 -> agree π k ->
  node_wf π (ENode (Z.of_nat (length π)) (fst (GetNodeKey (Z.of_nat (length π)) k)) hash_zero ENil ENil).
Proof. intros. constructor; [constructor..|by apply key_of_intro|done]. Qed.

(** What an insertion does at a node: never an error, the map's insertion, and the
    fields of the node itself untouched. *)
Lemma insertAtNode_spec fuel : forall π e k h b,
  node_wf π e -> length k = 32 -> length h = 32 -> agree π k ->
  length π < 256 -> 257 <= length π + fuel ->
  exists e' b', insertAtNode fuel π e k h b = Ok (e', b') /\ node_wf π e' /\
    contents e' = <[k := h]> (contents e).
Proof.
  induction fuel as [|fuel IH]; intros π e k h b Hw Hk Hh Ha Hlt Hf; [lia|].
  pose proof (LoadNext_wf _ _ b Hw) as Hload. inversion Hw as [? nk hh l r Hl Hr Hn Hz]; subst.
  cbn [insertAtNode]. rewrite key_bit_spec by done. cbn [res_bind]. rewrite Hload. cbn [res_bind contents].
  pose proof (fun e => insert_side π l r k h e Hl Hr) as Hside.
  destruct (agree_snoc π (kbit k (length π)) k) as [_ Hab]. specialize (Hab (conj Ha eq_refl)).
  set (bit := kbit k (length π)) in *.
  assert (He : wf (π ++ [bit]) (if bit then l else r)) by (by destruct bit).
  assert (Hput : forall e0 b0, wf (π ++ [bit]) e0 -> contents e0 = <[k := h]> (contents (if bit then l else r)) ->
    exists e' b', Ok (if bit then ENode (Z.of_nat (length π)) nk hh e0 r
                      else ENode (Z.of_nat (length π)) nk hh l e0, b0) = Ok (e', b') /\
      node_wf π e' /\ contents e' = <[k := h]> (contents l ∪ contents r)).
  { intros e0 b0 Hw0 Hc. specialize (Hside e0 Hc). eexists _, _. split; [done|].
    destruct bit; simpl; (split; [by constructor|done]). }
  destruct (if bit then l else r) as [|k0 h0|ht' nk' h' l' r'|] eqn:Ee; simpl in Hput.
  - apply Hput; [by constructor|]. simpl. by rewrite insert_empty.
  - inversion He as [|? ? ? Hk0 Hh0 Ha0|]; subst.
    destruct (bytes_eqb k k0) eqn:Ek.
    { apply bytes_eqb_eq in Ek as <-. destruct (bytes_eqb h0 h) eqn:Eh.
      - apply bytes_eqb_eq in Eh as <-. destruct (Hput (EValue k h0) b) as (e' & b' & He' & Hrest).
        { by constructor. } { simpl. by rewrite insert_singleton_eq. }
        exists e', b'. split; [|done]. rewrite <- He'. do 2 f_equal. destruct bit; congruence.
      - apply Hput; [by constructor|]. simpl. by rewrite insert_singleton_eq. }
    assert (Hne : k <> k0) by (intros ->; by rewrite bytes_eqb_refl in Ek).
    assert (Hlen : length (π ++ [bit]) < 256).
    { apply (agree_room _ k k0); try done. rewrite length_app. simpl. lia. }
    unfold NewNode. cbv zeta beta. set (b1 := if (_ <? _)%Z then _ else _). clearbody b1.
    replace (Z.of_nat (length π) + 1)%Z with (Z.of_nat (length (π ++ [bit])))
      by (rewrite length_app; simpl; lia).
    assert (Hfu : 257 <= length (π ++ [bit]) + fuel) by (rewrite length_app; simpl; lia).
    destruct (IH (π ++ [bit]) _ k h b1 (node_wf_new _ k Hk Hab) Hk Hh Hab Hlen Hfu) as (n1 & b2 & -> & Hw1 & Hc1).
    cbn [res_bind].
    destruct (IH (π ++ [bit]) n1 k0 h0 b2 Hw1 Hk0 Hh0 Ha0 Hlen Hfu) as (n2 & b3 & -> & Hw2 & Hc2).
    cbn [res_bind]. simpl in Hc1. rewrite Hc1, (left_id_L ∅ (∪)) in Hc2.
    apply Hput.
    + apply node_wf_wf; [done|]. rewrite Hc2. exists k, k0. split; [done|]. split.
      * rewrite lookup_insert_ne, lookup_insert_eq by done. by eexists.
      * rewrite lookup_insert_eq. by eexists.
    + rewrite Hc2, insert_insert_ne by done. by rewrite insert_empty.
  - assert (Hlen : length (π ++ [bit]) < 256).
    { apply (wf_room _ _ _ _ _ _ He). rewrite length_app. simpl. lia. }
    destruct (IH (π ++ [bit]) _ k h b (wf_node_wf _ _ _ _ _ _ He) Hk Hh Hab Hlen) as (n1 & b2 & -> & Hw1 & Hc1).
    { rewrite length_app. simpl. lia. }
    cbn [res_bind]. apply Hput; [|done]. apply node_wf_wf; [done|]. rewrite Hc1. apply two_keys_insert.
    by inversion He.
  - by inversion He.
Qed.

End Loaded.

(** ** The summary hash of a map *)

Definition combine_hash (L R : Hash) : Hash :=
  match L, R with
  | Some L, Some R => Some (sha256 (L ++ R))
  | Some L, None => Some L
  | None, R => R
  end.

(** The hash recomputed from the values alone. *)
Fixpoint full_hash (e : Entry) : Hash :=
  match e with
  | EValue _ h => Some h
  | ENode _ _ _ l r => combine_hash (full_hash l) (full_hash r)
  | _ => None
  end.

Lemma wf_contents_nonempty π e : wf π e -> e <> ENil -> exists k, is_Some (contents e !! k).
Proof.
  inversion 1 as [|? k h|? ? ? ? ? ? ? ? ? (k & _ & _ & Hk & _)]; subst; intros Hne; [done| |].
  - exists k. simpl. rewrite lookup_singleton_eq. by eexists.
  - by exists k.
Qed.

(** One side of a node, as a function of the node's map. *)
Lemma side_ext π l r l2 r2 :
  wf (π ++ [true]) l -> wf (π ++ [false]) r -> wf (π ++ [true]) l2 -> wf (π ++ [false]) r2 ->
  contents l ∪ contents r = contents l2 ∪ contents r2 ->
  contents l = contents l2 /\ contents r = contents r2.
Proof.
  intros Hl Hr Hl2 Hr2 Heq.
  assert (Hk : forall k, contents (if kbit k (length π) then l else r) !! k =
                         contents (if kbit k (length π) then l2 else r2) !! k).
  { intros k. by rewrite <- !(contents_side π) by done; rewrite Heq. }
  split; apply map_eq; intros k; specialize (Hk k); destruct (kbit k (length π)) eqn:Hb; try done.
  - destruct (contents l !! k) as [v|] eqn:E; [by rewrite (wf_bit _ _ _ _ _ Hl E) in Hb|].
    destruct (contents l2 !! k) as [v|] eqn:E2; [by rewrite (wf_bit _ _ _ _ _ Hl2 E2) in Hb|done].
  - destruct (contents r !! k) as [v|] eqn:E; [by rewrite (wf_bit _ _ _ _ _ Hr E) in Hb|].
    destruct (contents r2 !! k) as [v|] eqn:E2; [by rewrite (wf_bit _ _ _ _ _ Hr2 E2) in Hb|done].
Qed.

Lemma not_two_keys_singleton k h : ~ two_keys {[ k := h ]}.
Proof.
  intros (k1 & k2 & Hne & [v1 H1] & [v2 H2]).
  apply lookup_singleton_Some in H1 as [<- _], H2 as [<- _]. done.
Qed.

Lemma not_two_keys_empty : ~ two_keys ∅.
Proof. intros (k1 & _ & _ & [v1 H1] & _). by rewrite lookup_empty in H1. Qed.

(** The tree is canonical: the map determines it up to the cached hashes. *)
Lemma full_hash_ext π e e2 : wf π e -> wf π e2 -> contents e = contents e2 -> full_hash e = full_hash e2.
Proof.
  intros Hw. revert e2. induction Hw as [π|π k h Hk Hh Ha|π nk h l r Hl IHl Hr IHr Hn Hz Ht];
    intros e2 Hw2 Heq; inversion Hw2 as [|? k2 h2|? nk2 h2 l2 r2 Hl2 Hr2 ? ? Ht2]; subst; simpl in *; try done.
  all: try solve [ by apply map_non_empty_singleton in Heq | by apply eq_sym, map_non_empty_singleton in Heq
                 | by (rewrite Heq in Ht || rewrite <- Heq in Ht2);
                   first [apply not_two_keys_empty in Ht | apply not_two_keys_singleton in Ht
                         | apply not_two_keys_empty in Ht2 | apply not_two_keys_singleton in Ht2] ].
  - assert (Hs : ({[k := h]} : gmap bytes bytes) !! k = Some h) by (by rewrite lookup_singleton_eq).
    rewrite Heq in Hs. apply lookup_singleton_Some in Hs as [_ <-]. done.
  - destruct (side_ext π l r l2 r2) as [E1 E2]; try done. by rewrite (IHl l2), (IHr r2).
Qed.

(** The same at the root, which may hold fewer than two values. *)
Lemma full_hash_ext_root e e2 :
  node_wf [] e -> node_wf [] e2 -> contents e = contents e2 -> full_hash e = full_hash e2.
Proof.
  intros Hw Hw2 Heq. inversion Hw as [? ? ? l r Hl Hr]; subst. inversion Hw2 as [? ? ? l2 r2 Hl2 Hr2]; subst.
  simpl in *. destruct (side_ext [] l r l2 r2) as [E1 E2]; try done.
  by rewrite (full_hash_ext [true] l l2), (full_hash_ext [false] r r2).
Qed.
