(* ===== verification/BptDirty.v ===== *)
(** * Dirty tracking in the Patricia tree

    Every node whose cached hash may be stale is dirty, or has a child that is: this
    is what insertion maintains, and what lets [Update] restore all the hashes. *)

From S2P Require Import Prelude Sha256 Encoding MerkleTree MerkleState Receipt Storage Bpt BptKeys BptMap.
Local Open Scope nat_scope.

(** No two keys agree on their first 255 bits: then every node has a node key. *)
Definition spread (m : gmap bytes bytes) : Prop :=
  forall k k', is_Some (m !! k) -> is_Some (m !! k') -> k <> k' -> exists i, i < 255 /\ kbit k i <> kbit k' i.

Definition node_key_at (σ : path) (e : Entry) : option bytes :=
  match entry_at σ e with ENode _ nk _ _ _ => Some nk | _ => None end.

Definition child_dirty (D : gmap bytes path) (π : path) (e : Entry) : Prop :=
  match e with ENode _ nk _ _ _ => D !! nk = Some π | _ => False end.

(** The hash of a node is that of its children, when they have one. *)
Definition hash_ok (e : Entry) : Prop :=
  match e with
  | ENode _ _ h l r => match combine_hash (GetHash l) (GetHash r) with Some h' => h' = h | None => True end
  | _ => True
  end.

Definition local (D : gmap bytes path) (π : path) (e : Entry) : Prop :=
  match e with
  | ENode _ nk h l r =>
      D !! nk = Some π \/ child_dirty D (π ++ [true]) l \/ child_dirty D (π ++ [false]) r \/ hash_ok e
  | _ => True
  end.

(** Every node below is dirty, has a dirty child, or has the right hash. *)
Definition tidy (D : gmap bytes path) (π : path) (e : Entry) : Prop :=
  forall σ, local D (π ++ σ) (entry_at σ e).

Definition tidy_children (D : gmap bytes path) (π : path) (e : Entry) : Prop :=
  match e with
  | ENode _ _ _ l r => tidy D (π ++ [true]) l /\ tidy D (π ++ [false]) r
  | _ => True
  end.

(** The dirty map is keyed by node keys. *)
Definition dkeys (D : gmap bytes path) : Prop :=
  forall nk π, D !! nk = Some π ->
    key_of π nk /\ length π <= 254 /\ exists k, length k = 32 /\ agree π k.

Definition mono (D D' : gmap bytes path) : Prop :=
  forall nk π, D !! nk = Some π -> D' !! nk = Some π.

Definition keeps (e e' : Entry) : Prop :=
  forall σ nk, node_key_at σ e = Some nk -> node_key_at σ e' = Some nk.

(** What is new in the dirty map is a node of the entry. *)
Definition sourced (D D' : gmap bytes path) (π : path) (e : Entry) : Prop :=
  forall nk π', D' !! nk = Some π' ->
    D !! nk = Some π' \/ exists σ, π' = π ++ σ /\ node_key_at σ e = Some nk.

Definition same_fields (e e' : Entry) : Prop :=
  match e, e' with
  | ENode ht nk h _ _, ENode ht' nk' h' _ _ => ht = ht' /\ nk = nk' /\ h = h'
  | _, _ => False
  end.

(** ** Structure *)

Lemma entry_at_cons d σ ht nk h l r :
  entry_at (d :: σ) (ENode ht nk h l r) = entry_at σ (if d : bool then l else r).
Proof. done. Qed.

Lemma tidy_node D π ht nk h l r :
  tidy D π (ENode ht nk h l r) <->
  local D π (ENode ht nk h l r) /\ tidy_children D π (ENode ht nk h l r).
Proof.
  split.
  - intros H. split; [|split].
    + specialize (H []). by rewrite app_nil_r in H.
    + intros σ. specialize (H (true :: σ)). by rewrite <- app_assoc.
    + intros σ. specialize (H (false :: σ)). by rewrite <- app_assoc.
  - intros (H & Hl & Hr) [|[] σ].
    + by rewrite app_nil_r.
    + specialize (Hl σ). by rewrite <- app_assoc in Hl.
    + specialize (Hr σ). by rewrite <- app_assoc in Hr.
Qed.

Lemma tidy_leaf D π e : (match e with ENode _ _ _ _ _ => False | _ => True end) -> tidy D π e.
Proof. destruct e; [..|done|]; intros _ [|d σ]; done. Qed.

Lemma child_dirty_mono D D' π e : mono D D' -> child_dirty D π e -> child_dirty D' π e.
Proof. destruct e; simpl; auto. Qed.

Lemma local_mono D D' π e : mono D D' -> local D π e -> local D' π e.
Proof.
  intros Hm. destruct e as [| |ht nk h l r|]; try done. intros [?|[?|[?|?]]].
  - left. auto.
  - right; left. eauto using child_dirty_mono.
  - right; right; left. eauto using child_dirty_mono.
  - by right; right; right.
Qed.

Lemma tidy_mono D D' π e : mono D D' -> tidy D π e -> tidy D' π e.
Proof. intros Hm Ht σ. eauto using local_mono. Qed.

Lemma mono_refl D : mono D D.
Proof. by intros nk π. Qed.

Lemma mono_trans D D' D'' : mono D D' -> mono D' D'' -> mono D D''.
Proof. unfold mono. eauto. Qed.

Lemma keeps_leaf e e' : (match e with ENode _ _ _ _ _ => False | _ => True end) -> keeps e e'.
Proof. destruct e; [..|done|]; intros _ [|d σ] nk; done. Qed.

Lemma keeps_put ht nk h l r (bit : bool) e0 :
  keeps (if bit then l else r) e0 ->
  keeps (ENode ht nk h l r) (if bit then ENode ht nk h e0 r else ENode ht nk h l e0).
Proof.
  intros Hk [|d σ] nk' Hn.
  - by destruct bit.
  - destruct bit, d; try done; by apply Hk.
Qed.

Lemma sourced_put D D' π ht nk h l r (bit : bool) e0 :
  sourced D D' (π ++ [bit]) e0 ->
  sourced D D' π (if bit then ENode ht nk h e0 r else ENode ht nk h l e0).
Proof.
  intros Hs nk' π' Hn. destruct (Hs nk' π' Hn) as [?|(σ & -> & Hσ)]; [by left|right].
  exists (bit :: σ). rewrite <- app_assoc. split; [done|]. by destruct bit.
Qed.

(** Replacing a child by one with the same fields. *)
Lemma local_put D π ht nk h l r (bit : bool) e0 :
  same_fields (if bit then l else r) e0 -> local D π (ENode ht nk h l r) ->
  local D π (if bit then ENode ht nk h e0 r else ENode ht nk h l e0).
Proof.
  intros Hs. assert (GetHash e0 = GetHash (if bit then l else r) /\
    (forall π', child_dirty D π' (if bit then l else r) -> child_dirty D π' e0)) as [Hh Hd].
  { destruct (if bit then l else r), e0; try done. by destruct Hs as (_ & <- & <-). }
  destruct bit; intros [?|[?|[?|?]]]; unfold local, hash_ok in *; rewrite ?Hh; auto 6.
Qed.

(** Marking a node dirty. *)
Lemma mono_dirty D π nk k :
  dkeys D -> key_of π nk -> length π <= 254 -> length k = 32 -> agree π k -> mono D (<[nk := π]> D).
Proof.
  intros HD Hn Hl Hk Ha nk' π' Hd. destruct (decide (nk' = nk)) as [->|Hne].
  - rewrite lookup_insert_eq. f_equal. destruct (HD _ _ Hd) as (Hn' & Hl' & k' & Hk' & Ha').
    by apply (key_of_inj π π' nk k k').
  - by rewrite lookup_insert_ne.
Qed.

Lemma dkeys_dirty D π nk k :
  dkeys D -> key_of π nk -> length π <= 254 -> length k = 32 -> agree π k -> dkeys (<[nk := π]> D).
Proof.
  intros HD Hn Hl Hk Ha nk' π'. destruct (decide (nk' = nk)) as [->|Hne].
  - rewrite lookup_insert_eq. intros [= <-]. split_and!; [done..|]. by exists k.
  - rewrite lookup_insert_ne by done. apply HD.
Qed.

Lemma sourced_dirty D π nk e : node_key_at [] e = Some nk -> sourced D (<[nk := π]> D) π e.
Proof.
  intros Hn nk' π'. destruct (decide (nk' = nk)) as [->|Hne].
  - rewrite lookup_insert_eq. intros [= <-]. right. exists []. by rewrite app_nil_r.
  - rewrite lookup_insert_ne by done. by left.
Qed.

Lemma spread_low π k k' m :
  spread m -> is_Some (m !! k) -> is_Some (m !! k') -> k <> k' -> agree π k -> agree π k' -> length π <= 254.
Proof.
  intros Hs H1 H2 Hne Ha Ha'. destruct (Hs k k' H1 H2 Hne) as (i & Hi & Hb).
  destruct (decide (length π <= 254)); [done|]. destruct (lookup_lt_is_Some_2 π i) as [b Hpb]; [lia|].
  by rewrite (Ha i b), (Ha' i b) in Hb.
Qed.

Lemma wf_low π e ht nk h l r m :
  e = ENode ht nk h l r -> wf π e ->
  (forall k, is_Some (contents e !! k) -> is_Some (m !! k)) -> spread m -> length π <= 254.
Proof.
  intros -> Hw Hsub Hs. inversion Hw as [| |? ? ? ? ? ? ? ? ? (k1 & k2 & Hne & [v1 H1] & [v2 H2])]; subst.
  destruct (wf_agree _ _ k1 v1 Hw H1) as (_ & _ & ?). destruct (wf_agree _ _ k2 v2 Hw H2) as (_ & _ & ?).
  apply (spread_low π k1 k2 m); try done; apply Hsub; by eexists.
Qed.

Lemma sub_keys (c m : gmap bytes bytes) k v k' :
  <[k := v]> c ⊆ m -> is_Some (c !! k') -> is_Some (m !! k').
Proof.
  intros Hsub Hk. apply (lookup_weaken_is_Some (<[k := v]> c)); [|done].
  apply lookup_insert_is_Some'. by right.
Qed.

(** ** Insertion *)

Section Insert.
Context {S : Type} `{!KeyValueTxn S}.
Implicit Types b : BPT S.

(** What an insertion leaves alone. *)
Definition frame b b' : Prop :=
  RootHash b' = RootHash b /\ Root b' = Root b /\ Power b' = Power b /\ Mask b' = Mask b /\
  Manager b' = Manager b.

Record inserted (π : path) (e e' : Entry) b b' : Prop := {
  ins_fields : same_fields e e';
  ins_mono : mono (DirtyMap b) (DirtyMap b');
  ins_dkeys : dkeys (DirtyMap b');
  ins_sourced : sourced (DirtyMap b) (DirtyMap b') π e';
  ins_keeps : keeps e e';
  ins_frame : frame b b';
  ins_children : tidy_children (DirtyMap b) π e -> tidy_children (DirtyMap b') π e';
  ins_local : local (DirtyMap b) π e -> local (DirtyMap b') π e';
  ins_fresh : contents e = ∅ -> child_dirty (DirtyMap b') π e'
}.

Lemma frame_refl b : frame b b.
Proof. done. Qed.

Lemma frame_trans b b' b'' : frame b b' -> frame b' b'' -> frame b b''.
Proof. intros (? & ? & ? & ? & ?) (? & ? & ? & ? & ?). unfold frame. split_and!; congruence. Qed.

(** A leaf below the node is set or changed, and the node is marked. *)
Lemma inserted_leaf π ht nk h l r (bit : bool) b leaf k :
  dkeys (DirtyMap b) -> key_of π nk -> length π <= 254 -> length k = 32 -> agree π k ->
  (match (if bit then l else r) with ENode _ _ _ _ _ => False | _ => True end) ->
  (match leaf with ENode _ _ _ _ _ => False | _ => True end) ->
  inserted π (ENode ht nk h l r) (if bit then ENode ht nk h leaf r else ENode ht nk h l leaf)
    b (Dirty nk π b).
Proof.
  intros HD Hn Hl Hk Ha Hold Hleaf. pose proof (mono_dirty _ _ _ _ HD Hn Hl Hk Ha) as Hm.
  constructor; cbn [Dirty DirtyMap set_DirtyMap].
  - by destruct bit.
  - done.
  - by apply (dkeys_dirty _ _ _ k).
  - apply sourced_dirty. by destruct bit.
  - apply keeps_put. by apply keeps_leaf.
  - done.
  - intros [Htl Htr]. destruct bit; split; eauto using tidy_mono, tidy_leaf.
  - intros _. destruct bit; left; apply lookup_insert_eq.
  - intros _. destruct bit; apply lookup_insert_eq.
Qed.

(** The insertion goes into a child node. *)
Lemma inserted_child π ht nk h l r (bit : bool) b b' e0 :
  inserted (π ++ [bit]) (if bit then l else r) e0 b b' ->
  contents l ∪ contents r <> ∅ ->
  inserted π (ENode ht nk h l r) (if bit then ENode ht nk h e0 r else ENode ht nk h l e0) b b'.
Proof.
  intros Hi Hne. assert (Hsame := ins_fields _ _ _ _ _ Hi).
  constructor.
  - by destruct bit.
  - apply Hi.
  - apply Hi.
  - apply sourced_put, Hi.
  - apply keeps_put, Hi.
  - apply Hi.
  - intros Ht. assert (Hchild : tidy (DirtyMap b) (π ++ [bit]) (if bit then l else r))
      by (destruct bit; apply Ht). assert (He0 : tidy (DirtyMap b') (π ++ [bit]) e0).
    { destruct (if bit then l else r) as [| |ht1 nk1 h1 l1 r1|]; try done.
      destruct e0 as [| |ht2 nk2 h2 l2 r2|]; try done.
      apply tidy_node in Hchild as [Hlo Hch]. apply tidy_node.
      split; [by apply (ins_local _ _ _ _ _ Hi)|by apply (ins_children _ _ _ _ _ Hi)]. }
    destruct Ht as [Htl Htr]. pose proof (ins_mono _ _ _ _ _ Hi).
    destruct bit; split; eauto using tidy_mono.
  - intros Hlo. apply (local_mono _ _ _ _ (ins_mono _ _ _ _ _ Hi)) in Hlo.
    by apply local_put.
  - intros Hc. by destruct Hne.
Qed.

Lemma sourced_trans D D1 D2 π e1 e2 :
  sourced D D1 π e1 -> sourced D1 D2 π e2 -> keeps e1 e2 -> sourced D D2 π e2.
Proof.
  intros H1 H2 Hk nk π' Hn. destruct (H2 _ _ Hn) as [Hn1|]; [|by right].
  destruct (H1 _ _ Hn1) as [|(σ & -> & Hσ)]; [by left|right]. exists σ. auto.
Qed.

Lemma child_dirty_same D π e e' : same_fields e e' -> child_dirty D π e -> child_dirty D π e'.
Proof. destruct e, e'; try done. by intros (_ & <- & _). Qed.

(** A value makes way for a node that holds it and the new one. *)
Lemma inserted_split π ht nk h l r (bit : bool) b b1 b2 b3 ht1 nk1 h1 n1 n2 k0 h0 :
  (if bit then l else r) = EValue k0 h0 -> contents l ∪ contents r <> ∅ ->
  frame b b1 -> DirtyMap b1 = DirtyMap b ->
  inserted (π ++ [bit]) (ENode ht1 nk1 h1 ENil ENil) n1 b1 b2 ->
  inserted (π ++ [bit]) n1 n2 b2 b3 ->
  inserted π (ENode ht nk h l r) (if bit then ENode ht nk h n2 r else ENode ht nk h l n2) b b3.
Proof.
  intros Hside Hne Hf HD Hi1 Hi2.
  assert (Hm1 := ins_mono _ _ _ _ _ Hi1). assert (Hm2 := ins_mono _ _ _ _ _ Hi2). rewrite HD in Hm1.
  assert (Hm : mono (DirtyMap b) (DirtyMap b3)) by (by apply (mono_trans _ (DirtyMap b2))).
  assert (Hd : child_dirty (DirtyMap b3) (π ++ [bit]) n2).
  { apply (child_dirty_same _ _ n1); [apply Hi2|]. apply (child_dirty_mono (DirtyMap b2)); [done|].
    apply (ins_fresh _ _ _ _ _ Hi1). simpl. apply (left_id_L ∅ (∪)). }
  constructor.
  - by destruct bit.
  - done.
  - apply Hi2.
  - apply sourced_put. apply (sourced_trans _ (DirtyMap b2) _ _ n1).
    + rewrite <- HD. apply Hi1.
    + apply Hi2.
    + apply Hi2.
  - apply keeps_put. rewrite Hside. by apply keeps_leaf.
  - apply (frame_trans _ b1); [done|]. apply (frame_trans _ b2); [apply Hi1|apply Hi2].
  - intros [Htl Htr].
    assert (Ht2 : tidy (DirtyMap b3) (π ++ [bit]) n2).
    { destruct n2 as [| |ht2 nk2 h2 l2 r2|]; try done. apply tidy_node. split; [by left|].
      apply (ins_children _ _ _ _ _ Hi2), (ins_children _ _ _ _ _ Hi1). split; by apply tidy_leaf. }
    destruct bit; split; eauto using tidy_mono.
  - intros _. destruct bit; [right; left|right; right; left]; done.
  - intros Hc. by destruct Hne.
Qed.

Lemma inserted_refl π e b :
  node_wf π e -> dkeys (DirtyMap b) -> contents e <> ∅ -> inserted π e e b b.
Proof.
  intros Hw HD Hne. constructor; try done.
  - by inversion Hw.
  - apply mono_refl.
  - intros nk π' Hn. by left.
  - by intros σ nk.
Qed.

Lemma contents_not_empty π ht nk h l r k v (bit : bool) :
  node_wf π (ENode ht nk h l r) -> contents (if bit then l else r) !! k = Some v ->
  contents l ∪ contents r <> ∅.
Proof.
  intros Hw Hk He. inversion Hw; subst.
  assert (Hn : (contents l ∪ contents r) !! k = None) by (rewrite He; apply lookup_empty).
  apply lookup_union_None in Hn as [? ?]. destruct bit; congruence.
Qed.

Lemma contents_side_sub π ht nk h l r (bit : bool) m k v :
  node_wf π (ENode ht nk h l r) -> <[k := v]> (contents (ENode ht nk h l r)) ⊆ m ->
  <[k := v]> (contents (if bit then l else r)) ⊆ m.
Proof.
  intros Hw Hsub. inversion Hw as [? ? ? ? ? Hl Hr]; subst. etrans; [|exact Hsub].
  apply insert_mono. simpl. destruct bit; [apply map_union_subseteq_l|].
  apply map_union_subseteq_r. apply map_disjoint_spec. intros k' v1 v2 H1 H2.
  pose proof (wf_bit _ _ _ _ _ Hl H1). pose proof (wf_bit _ _ _ _ _ Hr H2). congruence.
Qed.

Lemma insertAtNode_inserted fuel : forall π e k h b e' b' m,
  node_wf π e -> length k = 32 -> length h = 32 -> agree π k -> length π <= 254 ->
  257 <= length π + fuel -> <[k := h]> (contents e) ⊆ m -> spread m -> dkeys (DirtyMap b) ->
  insertAtNode fuel π e k h b = Ok (e', b') -> inserted π e e' b b'.
Proof.
  induction fuel as [|fuel IH]; intros π e k h b e' b' m Hw Hk Hh Ha Hlow Hf Hsub Hsp HD Hins; [done|].
  pose proof (LoadNext_wf _ _ b Hw) as Hload. pose proof Hw as Hw'.
  inversion Hw' as [? nk hh l r Hl Hr Hn Hz]; subst. cbn [insertAtNode] in Hins.
  rewrite key_bit_spec in Hins by (done || lia). cbn [res_bind] in Hins. rewrite Hload in Hins.
  cbn [res_bind] in Hins. destruct (agree_snoc π (kbit k (length π)) k) as [_ Hab].
  specialize (Hab (conj Ha eq_refl)). set (bit := kbit k (length π)) in *.
  pose proof (contents_side_sub _ _ _ _ _ _ bit _ _ _ Hw Hsub) as Hsub1.
  assert (He : wf (π ++ [bit]) (if bit then l else r)) by (by destruct bit).
  assert (Hfu : 257 <= length (π ++ [bit]) + fuel) by (rewrite length_app; simpl; lia).
  destruct (if bit then l else r) as [|k0 h0|ht1 nk1 h1 l1 r1|] eqn:Ee.
  - injection Hins as <- <-. apply (inserted_leaf _ _ _ _ _ _ bit _ _ k); try done. by rewrite Ee.
  - pose proof (contents_not_empty π _ nk hh l r k0 h0 bit Hw) as Hne.
    rewrite Ee in Hne. specialize (Hne (lookup_singleton_eq _ _)).
    inversion He as [|? ? ? Hk0 Hh0 Ha0|]; subst. destruct (bytes_eqb k k0) eqn:Ek.
    { apply bytes_eqb_eq in Ek as <-. destruct (bytes_eqb h0 h).
      - injection Hins as <- <-. by apply inserted_refl.
      - injection Hins as <- <-. apply (inserted_leaf _ _ _ _ _ _ bit _ _ k); try done. by rewrite Ee. }
    assert (Hkk : k <> k0) by (intros ->; by rewrite bytes_eqb_refl in Ek).
    assert (Hkm : is_Some (m !! k)).
    { eexists. apply (lookup_weaken _ _ _ _ (lookup_insert_eq _ _ _) Hsub1). }
    assert (Hk0m : is_Some (m !! k0)).
    { apply (sub_keys _ _ _ _ _ Hsub1). simpl. rewrite lookup_singleton_eq. by eexists. }
    assert (Hlow1 : length (π ++ [bit]) <= 254) by (by apply (spread_low _ k k0 m)).
    unfold NewNode in Hins. cbv zeta beta in Hins.
    replace (Z.of_nat (length π) + 1)%Z with (Z.of_nat (length (π ++ [bit]))) in Hins
      by (rewrite length_app; simpl; lia).
    set (b1 := if (_ <? _)%Z then _ else _) in Hins.
    assert (Hf1 : frame b b1 /\ DirtyMap b1 = DirtyMap b) by (unfold b1; by destruct (_ <? _)%Z).
    destruct Hf1 as [Hf1 HD1]. clearbody b1.
    pose proof (node_wf_new (π ++ [bit]) k Hk Hab) as Hw0.
    destruct (insertAtNode_spec fuel (π ++ [bit]) _ k h b1 Hw0 Hk Hh Hab ltac:(lia) Hfu)
      as (n1 & b2 & E1 & Hw1 & Hc1).
    rewrite E1 in Hins. cbn [res_bind] in Hins.
    destruct (insertAtNode_spec fuel (π ++ [bit]) n1 k0 h0 b2 Hw1 Hk0 Hh0 Ha0 ltac:(lia) Hfu)
      as (n2 & b3 & E2 & Hw2 & Hc2).
    rewrite E2 in Hins. cbn [res_bind] in Hins. injection Hins as <- <-.
    simpl in Hc1. rewrite (left_id_L ∅ (∪)) in Hc1.
    assert (Hi1 : inserted (π ++ [bit]) (ENode (Z.of_nat (length (π ++ [bit])))
      (fst (GetNodeKey (Z.of_nat (length (π ++ [bit]))) k)) hash_zero ENil ENil) n1 b1 b2).
    { apply (IH _ _ k h _ _ _ m); try done; [|by rewrite HD1].
      simpl. rewrite (left_id_L ∅ (∪)). etrans; [|exact Hsub1]. apply insert_mono, map_empty_subseteq. }
    assert (Hi2 : inserted (π ++ [bit]) n1 n2 b2 b3).
    { apply (IH _ _ k0 h0 _ _ _ m); try done; [|apply Hi1].
      rewrite Hc1, insert_insert_ne by done. rewrite insert_empty. done. }
    exact (inserted_split π _ nk hh l r bit b b1 b2 b3 _ _ _ n1 n2 k0 h0 Ee Hne Hf1 HD1 Hi1 Hi2).
  - assert (Hlow1 : length (π ++ [bit]) <= 254).
    { apply (wf_low _ _ _ _ _ _ _ m eq_refl He); [|done].
      intros k'. apply (sub_keys _ _ _ _ _ Hsub1). }
    destruct (insertAtNode_spec fuel (π ++ [bit]) _ k h b (wf_node_wf _ _ _ _ _ _ He) Hk Hh Hab ltac:(lia) Hfu)
      as (n1 & b2 & E1 & Hw1 & Hc1).
    rewrite E1 in Hins. cbn [res_bind] in Hins. injection Hins as <- <-.
    apply inserted_child.
    + rewrite Ee. apply (IH _ _ k h _ _ _ m); try done. by apply wf_node_wf.
    + destruct (wf_contents_nonempty _ _ He) as (kk & v & Hkk); [done|].
      apply (contents_not_empty π (Z.of_nat (length π)) nk hh l r kk v bit Hw). by rewrite Ee.
  - by inversion He.
Qed.

End Insert.
