(* ===== verification/BptUpdate.v ===== *)
(** * Updating the summary hashes of the Patricia tree

    [Update] terminates, empties the dirty map and leaves every node with the hash of
    its children, so that the root hash is the summary hash of the map. *)

From stdpp Require Import sorting.
From S2P Require Import Prelude Sha256 Encoding MerkleTree MerkleState Receipt Storage Bpt BptKeys BptMap BptDirty.
Local Open Scope nat_scope.

(** ** Entries of a well-formed tree *)

Lemma entry_at_wf σ : forall π e, wf π e -> wf (π ++ σ) (entry_at σ e).
Proof.
  induction σ as [|d σ IH]; intros π e Hw; [by rewrite app_nil_r|].
  destruct Hw as [|? ? ? ? ?|? ? ? ? ? Hl Hr]; try apply wf_nil.
  specialize (IH (π ++ [d])). rewrite <- app_assoc in IH. apply IH. by destruct d.
Qed.

Lemma entry_at_keys σ : forall e k, is_Some (contents (entry_at σ e) !! k) -> is_Some (contents e !! k).
Proof.
  induction σ as [|d σ IH]; intros e k Hk; [done|].
  destruct e as [| |ht nk h l r|]; try by (simpl in Hk; rewrite lookup_empty in Hk; destruct Hk).
  apply (IH (if d then l else r)) in Hk. simpl. rewrite lookup_union.
  destruct d; destruct Hk as [v ->]; [destruct (contents r !! k)|destruct (contents l !! k)]; by eexists.
Qed.

(** A node of the tree, at its path. *)
Lemma node_at root σ ht nk h l r :
  node_wf [] root -> entry_at σ root = ENode ht nk h l r ->
  node_wf σ (ENode ht nk h l r) /\ (σ = [] \/ wf σ (ENode ht nk h l r)).
Proof.
  intros Hw He. destruct σ as [|d σ]; [simpl in He; subst; by split; [|left]|].
  inversion Hw as [? ? ? l0 r0 Hl Hr]; subst. simpl in He.
  pose proof (entry_at_wf σ [d] (if d then l0 else r0)) as Hwf. rewrite He in Hwf.
  simpl in Hwf. assert (wf (d :: σ) (ENode ht nk h l r)) by (apply Hwf; by destruct d).
  split; [by apply wf_node_wf|by right].
Qed.

Lemma node_low root m σ ht nk h l r :
  node_wf [] root -> contents root = m -> spread m -> entry_at σ root = ENode ht nk h l r ->
  length σ <= 254 /\ (exists k, length k = 32 /\ agree σ k) /\ key_of σ nk /\ ht = Z.of_nat (length σ).
Proof.
  intros Hw Hc Hs He. destruct (node_at _ _ _ _ _ _ _ Hw He) as [Hn Hor].
  assert (Hrest : key_of σ nk /\ ht = Z.of_nat (length σ)) by (by inversion Hn).
  destruct Hor as [->|Hwf].
  - split; [simpl; lia|]. split; [|done]. exists Key_zero. split; [done|apply agree_nil].
  - split.
    + apply (wf_low _ _ _ _ _ _ _ m eq_refl Hwf); [|done]. intros k. rewrite <- He, <- Hc. apply entry_at_keys.
    + split; [|done]. inversion Hwf as [| |? ? ? ? ? ? ? ? ? (k & _ & _ & [v Hk] & _)]; subst.
      exists k. by destruct (wf_agree _ _ k v Hwf Hk) as (? & _ & ?).
Qed.

(** ** Changing the hash of a node *)

(** The children differ at most in the hash of the node at [p]. *)
Definition like (q p : path) (d : bool) (e e' : Entry) : Prop :=
  (q ++ [d] <> p -> GetHash e' = GetHash e) /\ (forall D π, child_dirty D π e' <-> child_dirty D π e).

Lemma update_at_head p n e :
  p <> [] -> GetHash (update_at p n e) = GetHash e /\
  (forall D π, child_dirty D π (update_at p n e) <-> child_dirty D π e).
Proof. destruct p as [|[] p], e; done. Qed.

Lemma update_entry_at p : forall q e ht nk h h' l r,
  entry_at p e = ENode ht nk h l r -> q <> p ->
  match entry_at q e with
  | ENode hq nq hhq lq rq =>
      exists lq' rq', entry_at q (update_at p (ENode ht nk h' l r) e) = ENode hq nq hhq lq' rq' /\
        like q p true lq lq' /\ like q p false rq rq'
  | e0 => entry_at q (update_at p (ENode ht nk h' l r) e) = e0
  end.
Proof.
  induction p as [|d p IH]; intros q e ht nk h h' l r He Hq.
  - simpl in *. subst e. destruct q as [|d q]; [done|]. simpl.
    destruct (entry_at q (if d then l else r)); try done. by eexists _, _.
  - destruct e as [| |H N HH L R|]; try done. simpl in He. destruct q as [|d' q].
    + assert (Hp : like [] (d :: p) d (if d then L else R)
        (update_at p (ENode ht nk h' l r) (if d then L else R))).
      { destruct p as [|d2 p].
        - simpl in He. rewrite He. split; [by intros []|done].
        - split; [intros _|]; by apply update_at_head. }
      destruct d; simpl; eexists _, _; split; [done| |done|]; split; done.
    + destruct d, d'; simpl.
      * specialize (IH q L ht nk h h' l r He ltac:(congruence)). destruct (entry_at q L); try done.
        destruct IH as (lq' & rq' & -> & [H1 H2] & [H3 H4]). eexists _, _. split; [done|].
        split; (split; [|done]); intros Hne; [apply H1|apply H3]; intros E; apply Hne; simpl; by rewrite E.
      * destruct (entry_at q R); try done. by eexists _, _.
      * destruct (entry_at q L); try done. by eexists _, _.
      * specialize (IH q R ht nk h h' l r He ltac:(congruence)). destruct (entry_at q R); try done.
        destruct IH as (lq' & rq' & -> & [H1 H2] & [H3 H4]). eexists _, _. split; [done|].
        split; (split; [|done]); intros Hne; [apply H1|apply H3]; intros E; apply Hne; simpl; by rewrite E.
Qed.

Lemma update_at_same p : forall n e, entry_at p e <> ENil -> entry_at p (update_at p n e) = n.
Proof.
  induction p as [|d p IH]; intros n e He; [done|].
  destruct e as [| |? ? ? l r|]; try done. destruct d; simpl in *; by apply IH.
Qed.

Lemma update_node_key p q e ht nk h h' l r :
  entry_at p e = ENode ht nk h l r ->
  node_key_at q (update_at p (ENode ht nk h' l r) e) = node_key_at q e.
Proof.
  intros He. unfold node_key_at. destruct (decide (q = p)) as [->|Hq].
  - rewrite update_at_same by (by rewrite He). by rewrite He.
  - pose proof (update_entry_at p q e ht nk h h' l r He Hq) as Hu.
    destruct (entry_at q e); try by rewrite Hu. by destruct Hu as (? & ? & -> & _).
Qed.

Lemma update_contents p : forall e ht nk h h' l r,
  entry_at p e = ENode ht nk h l r -> contents (update_at p (ENode ht nk h' l r) e) = contents e.
Proof.
  induction p as [|d p IH]; intros e ht nk h h' l r He; [simpl in *; by subst|].
  destruct e as [| |H N HH L R|]; try done. simpl in He.
  destruct d; simpl; by rewrite (IH _ ht nk h h' l r He).
Qed.

Lemma update_wf p : forall π e ht nk h h' l r,
  wf π e -> entry_at p e = ENode ht nk h l r -> length h' = 32 ->
  wf π (update_at p (ENode ht nk h' l r) e).
Proof.
  induction p as [|d p IH]; intros π e ht nk h h' l r Hw He Hh.
  - simpl in *. subst e. inversion Hw; subst. by constructor.
  - destruct Hw as [| |? N HH L R HL HR HN HHH HT]; try done. simpl in He.
    pose proof (fun e => update_contents p e ht nk h h' l r) as Hc.
    destruct d; simpl; constructor; eauto; by rewrite Hc.
Qed.

Lemma update_node_wf p e ht nk h h' l r :
  node_wf [] e -> entry_at p e = ENode ht nk h l r -> length h' = 32 ->
  node_wf [] (update_at p (ENode ht nk h' l r) e).
Proof.
  intros Hw He Hh. inversion Hw as [? N HH L R HL HR HN HHH]; subst. destruct p as [|d p].
  - simpl in *. injection He as <- <- <- <- <-. by apply (node_wf_intro []).
  - simpl in He. destruct d; simpl; apply (node_wf_intro []); try done; by apply (update_wf p _ _ _ _ h).
Qed.

Lemma GetHash_wf π e k : wf π e -> is_Some (contents e !! k) -> exists h, GetHash e = Some h /\ length h = 32.
Proof.
  intros Hw [v Hk]. destruct Hw as [| |]; simpl in *; [by rewrite lookup_empty in Hk|by eexists..].
Qed.

Lemma GetHash_wf_len π e h : wf π e -> GetHash e = Some h -> length h = 32.
Proof. intros Hw Hg. destruct Hw; simpl in *; congruence. Qed.

(** A node that holds something has a hash to compute. *)
Lemma GetNodeHash_ok π ht nk h l r :
  node_wf π (ENode ht nk h l r) -> contents l ∪ contents r <> ∅ ->
  exists h', GetNodeHash (ENode ht nk h l r) = Ok (ENode ht nk h' l r) /\
    combine_hash (GetHash l) (GetHash r) = Some h' /\ length h' = 32.
Proof.
  intros Hw Hne. inversion Hw as [? ? ? ? ? Hl Hr]; subst. unfold GetNodeHash.
  destruct (GetHash l) as [L|] eqn:EL, (GetHash r) as [R|] eqn:ER; simpl.
  - eexists. split; [done|]. split; [done|]. apply sha256_length.
  - eexists. split; [done|]. split; [done|]. by apply (GetHash_wf_len (π ++ [true]) l).
  - eexists. split; [done|]. split; [done|]. by apply (GetHash_wf_len (π ++ [false]) r).
  - exfalso. apply Hne, map_eq. intros k. rewrite lookup_empty. apply lookup_union_None.
    split; apply eq_None_not_Some; intros Hk;
      [destruct (GetHash_wf _ _ _ Hl Hk) as (? & ? & _)|destruct (GetHash_wf _ _ _ Hr Hk) as (? & ? & _)];
      congruence.
Qed.

(** ** The invariant of the tree *)

Section Update.
Context {S : Type} `{KeyValueLaws S}.
Implicit Types b : BPT S.

Definition manager_ok b : Prop :=
  match Manager b with Some s => kv_writable s | None => True end.

Record bpt_inv b (m : gmap bytes bytes) : Prop := {
  inv_wf : node_wf [] (Root b);
  inv_contents : contents (Root b) = m;
  inv_spread : spread m;
  inv_dirty nk π : DirtyMap b !! nk = Some π -> node_key_at π (Root b) = Some nk;
  inv_tidy : tidy (DirtyMap b) [] (Root b);
  inv_nonempty : m = ∅ -> DirtyMap b = ∅ /\ root_hash b = hash_zero;
  inv_mask : Mask b = 7%Z;
  inv_manager : manager_ok b
}.

Lemma node_key_at_Some q e nk :
  node_key_at q e = Some nk -> exists ht h l r, entry_at q e = ENode ht nk h l r.
Proof. unfold node_key_at. destruct (entry_at q e); try done. intros [= ->]. by eauto. Qed.

Lemma parent_node e x d :
  entry_at (x ++ [d]) e <> ENil -> exists nk, node_key_at x e = Some nk.
Proof.
  revert e. induction x as [|c x IH]; intros e Hs.
  - destruct e; try done. by eexists.
  - destruct e as [| |? ? ? l r|]; try done. by apply (IH (if c then l else r)).
Qed.

(** Node keys identify the nodes of a tree. *)
Lemma node_key_inj b m q q' nk :
  bpt_inv b m -> node_key_at q (Root b) = Some nk -> node_key_at q' (Root b) = Some nk -> q = q'.
Proof.
  intros Hi Hq Hq'. apply node_key_at_Some in Hq as (? & ? & ? & ? & E).
  apply node_key_at_Some in Hq' as (? & ? & ? & ? & E').
  destruct (node_low _ _ _ _ _ _ _ _ (inv_wf _ _ Hi) (inv_contents _ _ Hi) (inv_spread _ _ Hi) E)
    as (? & (k & ? & ?) & ? & _).
  destruct (node_low _ _ _ _ _ _ _ _ (inv_wf _ _ Hi) (inv_contents _ _ Hi) (inv_spread _ _ Hi) E')
    as (? & (k' & ? & ?) & ? & _).
  by apply (key_of_inj q q' nk k k').
Qed.

Lemma inv_dkeys b m : bpt_inv b m -> dkeys (DirtyMap b).
Proof.
  intros Hi nk π Hd. apply (inv_dirty _ _ Hi) in Hd. apply node_key_at_Some in Hd as (? & ? & ? & ? & E).
  destruct (node_low _ _ _ _ _ _ _ _ (inv_wf _ _ Hi) (inv_contents _ _ Hi) (inv_spread _ _ Hi) E)
    as (? & ? & ? & _). done.
Qed.

Lemma Insert_inv b m k h :
  bpt_inv b m -> length k = 32 -> length h = 32 -> spread (<[k := h]> m) ->
  exists b', Insert k h b = Ok b' /\ bpt_inv b' (<[k := h]> m).
Proof.
  intros Hi Hk Hh Hs. pose proof (inv_wf _ _ Hi) as Hw. pose proof (inv_contents _ _ Hi) as Hc.
  destruct (insertAtNode_spec bpt_fuel [] (Root b) k h b Hw Hk Hh (agree_nil k))
    as (e' & b' & E & Hw' & Hc'); [simpl; lia|unfold bpt_fuel; simpl; lia|].
  assert (Hins : inserted [] (Root b) e' b b').
  { apply (insertAtNode_inserted bpt_fuel [] (Root b) k h b e' b' (<[k := h]> m)); try done.
    - simpl. lia.
    - by rewrite Hc.
    - by apply (inv_dkeys _ m). }
  exists (set_Root e' b'). unfold Insert. rewrite E. split; [done|].
  destruct (ins_frame _ _ _ _ _ Hins) as (_ & _ & _ & Hmask & Hman).
  constructor; cbn [Root set_Root DirtyMap Mask Manager manager_ok].
  - done.
  - by rewrite Hc', Hc.
  - done.
  - intros nk π Hd. destruct (ins_sourced _ _ _ _ _ Hins nk π Hd) as [Ho|(σ & -> & Hσ)]; [|done].
    apply (ins_keeps _ _ _ _ _ Hins). by apply (inv_dirty _ _ Hi).
  - pose proof (inv_tidy _ _ Hi) as Ht. pose proof (ins_fields _ _ _ _ _ Hins) as Hsame.
    pose proof (ins_children _ _ _ _ _ Hins) as Hch. pose proof (ins_local _ _ _ _ _ Hins) as Hlo.
    destruct (Root b) as [| |ht nk hh l r|], e' as [| |ht' nk' hh' l' r'|]; try done.
    apply tidy_node in Ht as [H1 H2]. apply tidy_node. auto.
  - intros He. by apply insert_non_empty in He.
  - rewrite Hmask. apply Hi.
  - unfold manager_ok. simpl. rewrite Hman. apply Hi.
Qed.

(** ** One node of a pass *)

Lemma FlushNode_ok b m p ht nk h l r :
  bpt_inv b m -> entry_at p (Root b) = ENode ht nk h l r -> is_Some (Manager b) ->
  exists s, FlushNode (entry_at p (Root b)) b = Ok (set_Manager (Some s) b) /\ kv_writable s.
Proof.
  intros Hi He [s Hs]. pose proof (inv_manager _ _ Hi) as Hm. unfold manager_ok in Hm.
  rewrite He. unfold FlushNode. rewrite Hs in *. destruct (Z.eqb_spec (Z.land ht 7) 0) as [E|E].
  - unfold MarshalByteBlock. rewrite (inv_mask _ _ Hi), E. cbn [negb Z.eqb res_bind].
    match goal with |- context [kv_Put ?k ?v s] =>
      destruct (kv_Put_view k v s Hm) as (s1 & -> & Hw1 & _) end. cbn [res_bind].
    destruct (ht =? 0)%Z; [|by exists s1].
    match goal with |- context [kv_Put ?k ?v s1] =>
      destruct (kv_Put_view k v s1 Hw1) as (s2 & -> & Hw2 & _) end. by exists s2.
  - exists s. split; [|done]. f_equal. destruct b. simpl in *. by subst.
Qed.

Lemma inv_set_Manager b m s : bpt_inv b m -> kv_writable s -> bpt_inv (set_Manager (Some s) b) m.
Proof. intros [] Hw. by constructor. Qed.

(** The state after the hash of the node at [p] is set. *)
Definition after_node (p : path) (nk : bytes) (n : Entry) b : BPT S :=
  Dirty_parent p (Clean nk (set_Root (update_at p n (Root b)) b)).

Lemma after_node_dirty b m p ht nk h h' l r :
  bpt_inv b m -> entry_at p (Root b) = ENode ht nk h l r -> DirtyMap b !! nk = Some p ->
  let b' := after_node p nk (ENode ht nk h' l r) b in
  Root b' = update_at p (ENode ht nk h' l r) (Root b) /\
  (forall nk' q, DirtyMap b' !! nk' = Some q <->
     (DirtyMap b !! nk' = Some q /\ q <> p \/
      p <> [] /\ q = removelast p /\ node_key_at q (Root b) = Some nk')).
Proof.
  intros Hi He Hd b'. unfold b', after_node, Dirty_parent.
  assert (Hdel : forall nk' q, delete nk (DirtyMap b) !! nk' = Some q <-> DirtyMap b !! nk' = Some q /\ q <> p).
  { intros nk' q. rewrite lookup_delete_Some. split; intros [H1 H2]; split; try done.
    - intros ->. apply H1. apply (inv_dirty _ _ Hi) in H2, Hd. congruence.
    - intros <-. congruence. }
  destruct p as [|d x _] using rev_ind.
  { split; [done|]. intros nk' q. cbn. rewrite Hdel. split; [by left|]. by intros [?|(? & _)]. }
  rewrite removelast_last. cbn [Root set_Root Clean set_DirtyMap].
  destruct (parent_node (Root b) x d) as [nkp Hp]; [by rewrite He|].
  pose proof (update_node_key (x ++ [d]) x (Root b) ht nk h h' l r He) as Hkey.
  rewrite Hp in Hkey. apply node_key_at_Some in Hkey as (? & ? & ? & ? & Ep). rewrite Ep.
  destruct (x ++ [d]) eqn:Exd; [by destruct x|]. rewrite <- Exd in *. clear Exd.
  split; [done|]. intros nk' q. cbn.
  destruct (decide (nk' = nkp)) as [->|Hne].
  - rewrite lookup_insert_eq. split.
    + intros [= <-]. right. split; [by destruct x|]. done.
    + intros [[Hq _]|(_ & -> & _)]; [|done]. f_equal. apply (inv_dirty _ _ Hi) in Hq.
      by apply (node_key_inj b m _ _ nkp).
  - rewrite lookup_insert_ne by done. rewrite Hdel. split; [by left|].
    intros [?|(_ & -> & Hq)]; [done|congruence].
Qed.

Lemma Dirty_parent_frame p b :
  Mask (Dirty_parent p b) = Mask b /\ Manager (Dirty_parent p b) = Manager b.
Proof. destruct p as [|d p]; [done|]. unfold Dirty_parent. by destruct (entry_at (removelast (d :: p)) (Root b)). Qed.

Lemma after_node_inv b m p ht nk h h' l r :
  bpt_inv b m -> entry_at p (Root b) = ENode ht nk h l r -> DirtyMap b !! nk = Some p ->
  combine_hash (GetHash l) (GetHash r) = Some h' -> length h' = 32 -> m <> ∅ ->
  bpt_inv (after_node p nk (ENode ht nk h' l r) b) m.
Proof.
  intros Hi He Hd Hcomb Hlen Hm. destruct (after_node_dirty b m p ht nk h h' l r Hi He Hd) as [HR HD].
  set (b' := after_node p nk (ENode ht nk h' l r) b) in *.
  assert (Hf : Mask b' = Mask b /\ Manager b' = Manager b).
  { exact (Dirty_parent_frame p (Clean nk (set_Root (update_at p (ENode ht nk h' l r) (Root b)) b))). }
  destruct Hf as [Hmask Hman].
  constructor.
  - rewrite HR. apply (update_node_wf p _ _ _ h); [apply Hi|done..].
  - rewrite HR, (update_contents p _ ht nk h) by done. apply Hi.
  - apply Hi.
  - intros nk' q Hq. rewrite HR, (update_node_key p q _ ht nk h) by done.
    apply HD in Hq as [[Hq _]|(_ & _ & Hq)]; [by apply (inv_dirty _ _ Hi)|done].
  - intros q. simpl. rewrite HR. destruct (decide (q = p)) as [->|Hqp].
    + rewrite update_at_same by (by rewrite He). right; right; right. simpl. by rewrite Hcomb.
    + pose proof (update_entry_at p q (Root b) ht nk h h' l r He Hqp) as Hu.
      pose proof (inv_tidy _ _ Hi q) as Hloc. simpl in Hloc.
      destruct (entry_at q (Root b)) as [|? ?|hq nq hhq lq rq|] eqn:Eq; try (by rewrite Hu).
      destruct Hu as (lq' & rq' & -> & [Hl1 Hl2] & [Hr1 Hr2]).
      assert (Hnq : node_key_at q (Root b) = Some nq) by (unfold node_key_at; by rewrite Eq).
      destruct (decide (p <> [] /\ q = removelast p)) as [[Hp0 Hpar]|Hnpar].
      { left. apply HD. by right. }
      assert (Hchild : forall d, q ++ [d] <> p).
      { intros d <-. apply Hnpar. rewrite removelast_last. split; [by destruct q|done]. }
      assert (Hdirty : forall nk' π', DirtyMap b !! nk' = Some π' -> π' <> p -> DirtyMap b' !! nk' = Some π')
        by (intros; apply HD; by left).
      assert (Hcd : forall d e, child_dirty (DirtyMap b) (q ++ [d]) e -> child_dirty (DirtyMap b') (q ++ [d]) e)
        by (intros d [| | |]; simpl; auto).
      destruct Hloc as [Hx|[Hx|[Hx|Hx]]].
      * left. auto.
      * right; left. apply Hl2. auto.
      * right; right; left. apply Hr2. auto.
      * right; right; right. unfold hash_ok in *. by rewrite Hl1, Hr1.
  - intros ->. done.
  - rewrite Hmask. apply Hi.
  - unfold manager_ok. rewrite Hman. apply Hi.
Qed.

(** ** A pass *)

Lemma update_pass_ok A : forall B b m (h : nat),
  bpt_inv b m -> m <> ∅ -> NoDup A ->
  (forall p, p ∈ A -> length p = h /\ exists nk, DirtyMap b !! nk = Some p) ->
  (forall p, p ∈ B -> length p < h /\ exists nk, node_key_at p (Root b) = Some nk) ->
  (forall nk p, DirtyMap b !! nk = Some p -> length p < h \/ p ∈ A) ->
  exists b', update_pass (Z.of_nat h) (A ++ B) b = Ok b' /\ bpt_inv b' m /\
    (forall nk p, DirtyMap b' !! nk = Some p -> length p < h).
Proof.
  induction A as [|p A IH]; intros B b m h Hi Hm Hnd HA HB Hall; simpl.
  - exists b. assert (Hd : forall nk p, DirtyMap b !! nk = Some p -> length p < h).
    { intros nk p Hp. destruct (Hall nk p Hp) as [?|Hin]; [done|by apply not_elem_of_nil in Hin]. }
    split; [|done]. destruct B as [|p B]; [done|]. simpl.
    destruct (HB p ltac:(left)) as (Hlen & nk & Hn). apply node_key_at_Some in Hn as (ht & h1 & l & r & E).
    destruct (node_low _ _ _ _ _ _ _ _ (inv_wf _ _ Hi) (inv_contents _ _ Hi) (inv_spread _ _ Hi) E)
      as (_ & _ & _ & ->). rewrite E. rewrite (proj2 (Z.eqb_neq _ _)) by lia. done.
  - destruct (HA p ltac:(left)) as (Hlen & nk & Hd). pose proof (inv_dirty _ _ Hi _ _ Hd) as Hn.
    pose proof Hn as Hn'. apply node_key_at_Some in Hn' as (ht & h1 & l & r & E).
    destruct (node_low _ _ _ _ _ _ _ _ (inv_wf _ _ Hi) (inv_contents _ _ Hi) (inv_spread _ _ Hi) E)
      as (_ & _ & _ & Hht). rewrite E, Hht, Hlen. rewrite Z.eqb_refl. cbn [negb].
    (* the flush only touches the store *)
    set (flushed := if _ && _ then _ else _).
    assert (Hfl : exists b1, flushed = Ok b1 /\ bpt_inv b1 m /\ Root b1 = Root b /\ DirtyMap b1 = DirtyMap b).
    { unfold flushed. destruct (_ && _) eqn:Hc; [|by exists b].
      apply andb_true_iff in Hc as [_ Hc]. apply bool_decide_eq_true in Hc.
      destruct (FlushNode_ok b m p ht nk h1 l r Hi E Hc) as (s & Hs & Hw). rewrite E in Hs.
      rewrite Hht, Hlen in Hs. rewrite Hs.
      eexists. split; [done|]. split; [by apply inv_set_Manager|]. by destruct b. }
    destruct Hfl as (b1 & -> & Hi1 & HR1 & HD1). cbn [res_bind].
    rewrite HR1, E. rewrite <- HR1 in E. rewrite <- HD1 in Hd.
    destruct (node_at _ _ _ _ _ _ _ (inv_wf _ _ Hi1) E) as [Hnw Hor].
    destruct (GetNodeHash_ok p ht nk h1 l r Hnw) as (h' & Hgn & Hcomb & Hl').
    { destruct Hor as [->|Hwf].
      - pose proof (inv_contents _ _ Hi1) as Hc. simpl in E. rewrite E in Hc. by rewrite <- Hc in Hm.
      - destruct (wf_contents_nonempty _ _ Hwf) as (k & v & Hk); [done|]. intros Hz.
        simpl in Hk. by rewrite Hz, lookup_empty in Hk. }
    rewrite Hgn. cbn [res_bind]. rewrite <- HR1.
    destruct (after_node_dirty b1 m p ht nk h1 h' l r Hi1 E Hd) as [HR2 HD2].
    pose proof (after_node_inv b1 m p ht nk h1 h' l r Hi1 E Hd Hcomb Hl' Hm) as Hi2.
    fold (after_node p nk (ENode ht nk h' l r) b1).
    set (b2 := after_node p nk (ENode ht nk h' l r) b1) in *.
    apply NoDup_cons in Hnd as [Hnin Hnd].
    apply IH; try done.
    + intros q Hq. destruct (HA q ltac:(by right)) as (Hql & nkq & Hqd). split; [done|].
      exists nkq. apply HD2. left. split; [by rewrite HD1|]. intros ->. done.
    + intros q Hq. destruct (HB q Hq) as (Hql & nkq & Hqn). split; [done|]. exists nkq.
      rewrite HR2, (update_node_key p q _ _ nk h1) by done. by rewrite HR1.
    + intros nkq q Hq. apply HD2 in Hq as [[Hq Hne]|(Hp0 & -> & _)].
      * rewrite HD1 in Hq. destruct (Hall _ _ Hq) as [?|Hin]; [by left|right].
        apply elem_of_cons in Hin as [->|]; done.
      * left. destruct p as [|d x _] using rev_ind; [done|]. rewrite removelast_last. rewrite length_app in Hlen. simpl in Hlen. lia.
Qed.

(** ** The whole update *)

(** The orders [GetDirtyList] may return: the dirty nodes, the highest first. *)
Definition dirty_order (G : BPT S -> list path) : Prop :=
  forall b, G b ≡ₚ (map_to_list (DirtyMap b)).*2 /\ StronglySorted (higher b) (G b).

Lemma StronglySorted_weaken {A} (R R' : A -> A -> Prop) (L : list A) :
  (forall p q, p ∈ L -> q ∈ L -> R p q -> R' p q) -> StronglySorted R L -> StronglySorted R' L.
Proof.
  intros HR Hs. induction Hs as [|p L Hs IH Hp]; constructor.
  - apply IH. intros x y Hx Hy. apply HR; by right.
  - rewrite Forall_forall in *. intros q Hq. apply HR; [left|by right|by apply Hp].
Qed.

Lemma sorted_split (f : path -> nat) L h :
  StronglySorted (fun p q => f q <= f p) L -> (forall p, p ∈ L -> f p <= h) ->
  exists A B, L = A ++ B /\ (forall p, p ∈ A -> f p = h) /\ (forall p, p ∈ B -> f p < h).
Proof.
  induction 1 as [|p L Hs IH Hp]; intros Hle.
  - exists [], []. split; [done|]. split; intros p Hp; by apply not_elem_of_nil in Hp.
  - destruct (decide (f p = h)) as [E|E].
    + destruct IH as (A & B & -> & HA & HB); [intros q Hq; apply Hle; by right|].
      exists (p :: A), B. split; [done|]. split; [|done].
      intros q Hq. apply elem_of_cons in Hq as [->|]; auto.
    + exists [], (p :: L). split; [done|]. split; [intros q Hq; by apply not_elem_of_nil in Hq|].
      pose proof (Hle p ltac:(left)). intros q Hq. apply elem_of_cons in Hq as [->|Hq]; [lia|].
      rewrite Forall_forall in Hp. specialize (Hp q Hq). simpl in Hp. lia.
Qed.

Lemma Height_at_dirty b m nk p :
  bpt_inv b m -> DirtyMap b !! nk = Some p -> Height_at b p = Z.of_nat (length p) /\ length p <= 254.
Proof.
  intros Hi Hd. apply (inv_dirty _ _ Hi) in Hd. apply node_key_at_Some in Hd as (ht & h & l & r & E).
  destruct (node_low _ _ _ _ _ _ _ _ (inv_wf _ _ Hi) (inv_contents _ _ Hi) (inv_spread _ _ Hi) E)
    as (? & _ & _ & ->). unfold Height_at. by rewrite E.
Qed.

Lemma dirty_list_spec G b m :
  dirty_order G -> bpt_inv b m ->
  NoDup (G b) /\ (forall p, p ∈ G b <-> exists nk, DirtyMap b !! nk = Some p).
Proof.
  intros HG Hi. destruct (HG b) as [Hperm _]. split.
  - rewrite Hperm. apply NoDup_fmap_2_strong; [|apply NoDup_map_to_list].
    intros [nk p] [nk' p'] H1 H2 Heq. simpl in Heq. subst p'.
    apply elem_of_map_to_list in H1, H2. apply (inv_dirty _ _ Hi) in H1, H2. congruence.
  - intros p. rewrite Hperm, list_elem_of_fmap. split.
    + intros ([nk q] & -> & Hin). apply elem_of_map_to_list in Hin. by exists nk.
    + intros [nk Hd]. exists (nk, p). split; [done|]. by apply elem_of_map_to_list.
Qed.

Lemma update_loop_ok G fuel : forall b m n,
  dirty_order G -> bpt_inv b m -> (forall nk p, DirtyMap b !! nk = Some p -> length p < n) -> n < fuel ->
  exists b', update_loop fuel G b = Ok b' /\ bpt_inv b' m /\ DirtyMap b' = ∅.
Proof.
  induction fuel as [|fuel IH]; intros b m n HG Hi Hlt Hfuel; [lia|]. simpl.
  destruct (dirty_list_spec G b m HG Hi) as [Hnd Hin]. destruct (HG b) as [_ Hsort].
  destruct (G b) as [|p0 L] eqn:EG.
  - exists b. split; [done|]. split; [done|]. apply map_eq. intros nk. rewrite lookup_empty.
    destruct (DirtyMap b !! nk) as [p|] eqn:Hd; [|done].
    exfalso. apply (not_elem_of_nil p), Hin. by exists nk.
  - destruct (proj1 (Hin p0) ltac:(left)) as [nk0 Hd0].
    destruct (Height_at_dirty b m nk0 p0 Hi Hd0) as [-> _].
    assert (Hm : m <> ∅).
    { intros ->. destruct (inv_nonempty _ _ Hi eq_refl) as [E _]. rewrite E, lookup_empty in Hd0. done. }
    assert (Hs : StronglySorted (fun p q => length q <= length p) (p0 :: L)).
    { apply (StronglySorted_weaken (higher b)); [|done]. intros p q Hp Hq Hpq. unfold higher in Hpq.
      apply Hin in Hp as [nk Hp]. apply Hin in Hq as [nk' Hq].
      destruct (Height_at_dirty b m nk p Hi Hp) as [E1 _].
      destruct (Height_at_dirty b m nk' q Hi Hq) as [E2 _]. lia. }
    destruct (sorted_split length (p0 :: L) (length p0) Hs) as (A & B & HAB & HA & HB).
    { intros q Hq. inversion Hs as [|? ? _ Hf]; subst. apply elem_of_cons in Hq as [->|Hq]; [done|].
      rewrite Forall_forall in Hf. by apply Hf. }
    rewrite HAB in *.
    destruct (update_pass_ok A B b m (length p0) Hi Hm) as (b' & -> & Hi' & Hlt').
    + by apply NoDup_app in Hnd as (? & _).
    + intros q Hq. split; [auto|]. apply Hin, elem_of_app. by left.
    + intros q Hq. split; [auto|]. destruct (proj1 (Hin q)) as [nk Hd]; [apply elem_of_app; by right|].
      exists nk. by apply (inv_dirty _ _ Hi).
    + intros nk q Hq. assert (Hq' : q ∈ A ++ B) by (apply Hin; by exists nk).
      apply elem_of_app in Hq' as [?|?]; [by right|left; auto].
    + cbn [res_bind]. apply (IH b' m (length p0)); try done. specialize (Hlt nk0 p0 Hd0). lia.
Qed.

(** All the hashes are those of the children. *)
Lemma tidy_hash π e ht nk h l r :
  tidy ∅ π e -> e = ENode ht nk h l r -> node_wf π e -> contents e <> ∅ ->
  combine_hash (GetHash l) (GetHash r) = Some h.
Proof.
  intros Ht -> Hw Hne. destruct (GetNodeHash_ok _ _ _ _ _ _ Hw Hne) as (h' & _ & Hc & _).
  apply tidy_node in Ht as [Hlo _]. destruct Hlo as [Hx|[Hx|[Hx|Hx]]].
  - by rewrite lookup_empty in Hx.
  - by destruct l.
  - by destruct r.
  - simpl in Hx. rewrite Hc in Hx. by subst.
Qed.

Lemma wf_not_empty π ht nk h l r : wf π (ENode ht nk h l r) -> contents (ENode ht nk h l r) <> ∅.
Proof.
  intros Hw Hz. destruct (wf_contents_nonempty _ _ Hw) as (k & v & Hk); [done|].
  by rewrite Hz, lookup_empty in Hk.
Qed.

Lemma tidy_full_hash π e : tidy ∅ π e -> wf π e -> GetHash e = full_hash e.
Proof.
  revert π. induction e as [| |ht nk h l IHl r IHr|]; intros π Ht Hw; try done.
  pose proof (tidy_hash _ _ _ _ _ _ _ Ht eq_refl (wf_node_wf _ _ _ _ _ _ Hw) (wf_not_empty _ _ _ _ _ _ Hw)) as Hc.
  apply tidy_node in Ht as [_ [Hl Hr]]. inversion Hw; subst. simpl.
  rewrite <- (IHl (π ++ [true])), <- (IHr (π ++ [false])) by done. done.
Qed.

(** The root of a clean tree. *)
Lemma root_full_hash b m :
  bpt_inv b m -> DirtyMap b = ∅ -> m <> ∅ -> full_hash (Root b) = Some (root_hash b).
Proof.
  intros Hi HD Hm. pose proof (inv_tidy _ _ Hi) as Ht. rewrite HD in Ht.
  pose proof (inv_wf _ _ Hi) as Hw. pose proof (inv_contents _ _ Hi) as Hc. unfold root_hash.
  destruct (Root b) as [| |ht nk h l r|] eqn:E; try by inversion Hw.
  rewrite <- Hc in Hm. pose proof (tidy_hash _ _ _ _ _ _ _ Ht eq_refl Hw Hm) as Hh.
  apply tidy_node in Ht as [_ [Hl Hr]]. inversion Hw; subst. simpl.
  rewrite <- (tidy_full_hash [true] l), <- (tidy_full_hash [false] r) by done. done.
Qed.

Lemma Update_ok G b m :
  dirty_order G -> bpt_inv b m ->
  exists b', Update G b = Ok b' /\ bpt_inv b' m /\ DirtyMap b' = ∅ /\ RootHash b' = root_hash b'.
Proof.
  intros HG Hi. unfold Update.
  destruct (update_loop_ok G bpt_fuel b m 255 HG Hi) as (b1 & -> & Hi1 & HD1).
  { intros nk p Hd. destruct (Height_at_dirty b m nk p Hi Hd). lia. }
  { unfold bpt_fuel. lia. }
  cbn [res_bind].
  assert (Hset : forall b h m, bpt_inv b m -> bpt_inv (set_RootHash h b) m) by (by intros ? ? ? []; constructor).
  destruct (Manager b1) as [s|] eqn:Hman.
  - pose proof (Hset b1 (root_hash b1) m Hi1) as Hi2.
    pose proof (inv_wf _ _ Hi2) as Hw. inversion Hw as [? nk h l r ? ? ? ? E1 E2].
    destruct (FlushNode_ok _ m [] _ nk h l r Hi2 (eq_sym E2)) as (s' & Hs' & Hw').
    { exists s. done. }
    cbn [entry_at] in Hs'. cbv zeta. rewrite Hs'. cbn [res_bind]. eexists. split; [done|].
    split; [by apply Hset, inv_set_Manager|]. done.
  - cbn [res_bind]. eexists. split; [done|]. split; [by apply Hset|]. done.
Qed.

End Update.
