(* ===== verification/BptProps.v ===== *)
(** * Properties of the Patricia tree *)

From stdpp Require Import sorting.
From S2P Require Import Prelude Sha256 Encoding MerkleTree MerkleState Receipt Storage Bpt BptKeys BptMap BptDirty BptUpdate.
Local Open Scope nat_scope.

(** ** Histories *)

Inductive BptOp := OpInsert (key hash : bytes) | OpUpdate.

Section History.
Context {S : Type} `{KeyValueLaws S}.
Implicit Types b : BPT S.

Definition run_op (G : BPT S -> list path) (op : BptOp) b : res (BPT S) :=
  match op with OpInsert k h => Insert k h b | OpUpdate => Update G b end.

Fixpoint run_ops (G : BPT S -> list path) (ops : list BptOp) b : res (BPT S) :=
  match ops with
  | [] => Ok b
  | op :: ops' => let! b := run_op G op b in run_ops G ops' b
  end.

Lemma NewBPT_inv (mgr : option S) :
  match mgr with Some s => kv_writable s | None => True end -> bpt_inv (NewBPT mgr) ∅.
Proof.
  intros Hm. constructor; cbn [NewBPT Root DirtyMap Mask Manager contents]; try done.
  - apply (node_wf_intro [] _ hash_zero ENil ENil); [constructor..| |done].
    apply (key_of_intro [] Key_zero); [done|apply agree_nil].
  - intros k k' [v Hk]. by rewrite lookup_empty in Hk.
  - apply tidy_node. split; [by right; right; right|]. split; by apply tidy_leaf.
Qed.

(** The map a history writes. *)
Definition op_map (m : gmap bytes bytes) (op : BptOp) : gmap bytes bytes :=
  match op with OpInsert k h => <[k := h]> m | OpUpdate => m end.
Definition ops_map (ops : list BptOp) (m : gmap bytes bytes) : gmap bytes bytes := foldl op_map m ops.

Definition op_ok (op : BptOp) : Prop :=
  match op with OpInsert k h => length k = 32 /\ length h = 32 | OpUpdate => True end.

Lemma ops_map_keys ops : forall m k, is_Some (m !! k) -> is_Some (ops_map ops m !! k).
Proof.
  induction ops as [|[k0 h0|] ops IH]; intros m k Hk; [done| |by apply IH].
  apply IH. apply lookup_insert_is_Some'. by right.
Qed.

Lemma spread_keys m m' :
  (forall k, is_Some (m !! k) -> is_Some (m' !! k)) -> spread m' -> spread m.
Proof. intros Hsub Hs k k' Hk Hk'. apply Hs; auto. Qed.

Lemma run_ops_ok G ops : forall b m,
  dirty_order G -> bpt_inv b m -> Forall op_ok ops -> spread (ops_map ops m) ->
  exists b', run_ops G ops b = Ok b' /\ bpt_inv b' (ops_map ops m).
Proof.
  induction ops as [|op ops IH]; intros b m HG Hi Hok Hs; [by exists b|].
  apply Forall_cons in Hok as [Ho Hok]. simpl in Hs.
  assert (Hs1 : spread (op_map m op)) by (eapply spread_keys; [apply ops_map_keys|exact Hs]).
  assert (Hop : exists b1, run_op G op b = Ok b1 /\ bpt_inv b1 (op_map m op)).
  { destruct op as [k h|]; simpl in *.
    - destruct Ho. by apply Insert_inv.
    - destruct (Update_ok G b m HG Hi) as (b1 & E & Hi1 & _). by exists b1. }
  destruct Hop as (b1 & E1 & Hi1). destruct (IH b1 (op_map m op) HG Hi1 Hok Hs) as (b' & E & Hi').
  exists b'. split; [|done]. cbn [run_ops]. by rewrite E1.
Qed.

Lemma run_ops_app G ops ops' b :
  run_ops G (ops ++ ops') b = (let! b := run_ops G ops b in run_ops G ops' b).
Proof. revert b. induction ops as [|op ops IH]; intros b; [done|]. cbn [app run_ops].
  destruct (run_op G op b); cbn [res_bind]; [apply IH|done|done]. Qed.

Lemma root_hash_ext b b' m :
  bpt_inv b m -> bpt_inv b' m -> DirtyMap b = ∅ -> DirtyMap b' = ∅ -> root_hash b = root_hash b'.
Proof.
  intros Hi Hi' HD HD'. destruct (decide (m = ∅)) as [Hm|Hm].
  { destruct (inv_nonempty _ _ Hi Hm) as [_ ->]. by destruct (inv_nonempty _ _ Hi' Hm) as [_ ->]. }
  assert (E : full_hash (Root b) = full_hash (Root b')).
  { apply full_hash_ext_root; [apply Hi|apply Hi'|].
    by rewrite (inv_contents _ _ Hi), (inv_contents _ _ Hi'). }
  rewrite (root_full_hash b m), (root_full_hash b' m) in E by done. by injection E.
Qed.

End History.

Lemma GetDirtyList_order {S} `{KeyValueLaws S} : dirty_order (S:=S) GetDirtyList.
Proof.
  intros b. unfold GetDirtyList. split; [apply merge_sort_Permutation|].
  apply StronglySorted_merge_sort; unfold higher; intros ?; intros; lia.
Qed.

(** C28. The state hash is a function of the state alone: two histories of insertions
    and updates (with any order of the dirty lists, with or without a store) that
    write the same map end, after a last update, with the same root hash. *)
Theorem BPT_order_independent {S} `{KeyValueLaws S} (G G' : BPT S -> list path)
  (mgr mgr' : option S) (ops ops' : list BptOp)
  (HG : dirty_order G) (HG' : dirty_order G')
  (Hm : match mgr with Some s => kv_writable s | None => True end)
  (Hm' : match mgr' with Some s => kv_writable s | None => True end)
  (Hok : Forall op_ok ops) (Hok' : Forall op_ok ops')
  (Hs : spread (ops_map ops ∅)) (Heq : ops_map ops ∅ = ops_map ops' ∅) :
  exists b b', run_ops G (ops ++ [OpUpdate]) (NewBPT mgr) = Ok b /\
    run_ops G' (ops' ++ [OpUpdate]) (NewBPT mgr') = Ok b' /\ RootHash b = RootHash b'.
Proof.
  assert (Hrun : forall (G : BPT S -> list path) mgr ops, dirty_order G ->
    match mgr with Some s => kv_writable s | None => True end -> Forall op_ok ops -> spread (ops_map ops ∅) ->
    exists b, run_ops G (ops ++ [OpUpdate]) (NewBPT mgr) = Ok b /\ bpt_inv b (ops_map ops ∅) /\
      DirtyMap b = ∅ /\ RootHash b = root_hash b).
  { clear. intros G mgr ops HG Hm Hok Hs.
    destruct (run_ops_ok G ops (NewBPT mgr) ∅ HG (NewBPT_inv mgr Hm) Hok Hs) as (b1 & E1 & Hi1).
    destruct (Update_ok G b1 _ HG Hi1) as (b2 & E2 & Hi2 & HD2 & HR2). exists b2. split; [|done].
    rewrite run_ops_app, E1. simpl. by rewrite E2. }
  destruct (Hrun G mgr ops HG Hm Hok Hs) as (b & E & Hi & HD & HR).
  destruct (Hrun G' mgr' ops' HG' Hm' Hok') as (b' & E' & Hi' & HD' & HR'); [by rewrite <- Heq|].
  exists b, b'. split; [done|]. split; [done|]. rewrite HR, HR'. rewrite <- Heq in Hi'.
  by apply (root_hash_ext b b' (ops_map ops ∅)).
Qed.

Lemma hash_of n : length (sha256 [n]) = 32.
Proof. apply sha256_length. Qed.

Definition demo_ops : list BptOp :=
  (fun n => OpInsert (sha256 [n]) (sha256 [n; n])) <$> [Byte.x01; Byte.x02; Byte.x03].

Lemma demo_ops_ok ops : ops ⊆ demo_ops -> Forall op_ok ops.
Proof.
  intros Hsub. apply Forall_forall. intros op Hop. apply Hsub in Hop.
  apply list_elem_of_fmap in Hop as (n & -> & _). split; apply sha256_length.
Qed.

(** Checking that a map is spread. *)
Definition spread_check (m : gmap bytes bytes) : bool :=
  forallb (fun kv => forallb (fun kv' => bytes_eqb (fst kv) (fst kv')
    || existsb (fun i => negb (eqb (kbit (fst kv) i) (kbit (fst kv') i))) (seq 0 255)) (map_to_list m)) (map_to_list m).

Lemma spread_check_ok m : spread_check m = true -> spread m.
Proof.
  intros Hc k k' [v Hk] [v' Hk'] Hne. apply elem_of_map_to_list in Hk, Hk'.
  unfold spread_check in Hc. rewrite forallb_forall in Hc.
  apply list_elem_of_In in Hk, Hk'. specialize (Hc _ Hk). rewrite forallb_forall in Hc. specialize (Hc _ Hk').
  apply orb_true_iff in Hc as [Hc|Hc]; [by apply bytes_eqb_eq in Hc|].
  apply existsb_exists in Hc as (i & Hi & Hb). apply in_seq in Hi. exists i. split; [lia|].
  intros E. simpl in Hb. by rewrite E, eqb_reflx in Hb.
Qed.

Lemma demo_ops_spread : spread (ops_map demo_ops ∅).
Proof. apply spread_check_ok. vm_compute. reflexivity. Qed.

Lemma BPT_order_independent_witness :
  exists b b' : BPT Txn,
    run_ops GetDirtyList (demo_ops ++ [OpUpdate]) (NewBPT None) = Ok b /\
    run_ops GetDirtyList (rev demo_ops ++ [OpUpdate]) (NewBPT None) = Ok b' /\ RootHash b = RootHash b'.
Proof.
  apply (BPT_order_independent GetDirtyList GetDirtyList None None demo_ops (rev demo_ops)).
  - apply GetDirtyList_order.
  - apply GetDirtyList_order.
  - done.
  - done.
  - by apply demo_ops_ok.
  - apply demo_ops_ok. intros op Hop. apply list_elem_of_In. apply list_elem_of_In in Hop. by apply in_rev in Hop.
  - apply demo_ops_spread.
  - apply (bool_decide_eq_true_1 _). vm_compute. reflexivity.
Defined.

(** C29. The tree is a map: after any history of insertions and updates, looking a key
    up finds exactly the hash last inserted for it, and leaves the tree unchanged. *)
Theorem BPT_get_after_ops {S} `{KeyValueLaws S} (G : BPT S -> list path) (mgr : option S)
  (ops : list BptOp) (k : bytes)
  (HG : dirty_order G) (Hm : match mgr with Some s => kv_writable s | None => True end)
  (Hok : Forall op_ok ops) (Hs : spread (ops_map ops ∅)) (Hk : length k = 32) :
  exists b hi o found, run_ops G ops (NewBPT mgr) = Ok b /\ Get k b = Ok (b, (hi, o, found)) /\
    match ops_map ops ∅ !! k with
    | Some h => found = true /\ o = Some (EValue k h)
    | None => found = false
    end.
Proof.
  destruct (run_ops_ok G ops (NewBPT mgr) ∅ HG (NewBPT_inv mgr Hm) Hok Hs) as (b & E & Hi).
  destruct (get_at_spec bpt_fuel [] (Root b) k b (inv_wf _ _ Hi) Hk (agree_nil k))
    as (hi & o & found & Eg & Hc & Ho); [simpl; lia|unfold bpt_fuel; simpl; lia|].
  exists b, hi, o, found. split; [done|]. split.
  - unfold Get. rewrite Eg. simpl. by destruct b.
  - rewrite (inv_contents _ _ Hi) in Hc. destruct found.
    + destruct (Ho eq_refl) as [h ->]. by rewrite Hc.
    + by rewrite Hc.
Qed.

Lemma BPT_get_after_ops_witness :
  exists (b : BPT Txn) hi, run_ops GetDirtyList demo_ops (NewBPT None) = Ok b /\
    Get (sha256 [Byte.x02]) b = Ok (b, (hi, Some (EValue (sha256 [Byte.x02]) (sha256 [Byte.x02; Byte.x02])), true)).
Proof.
  destruct (BPT_get_after_ops (S:=Txn) GetDirtyList None demo_ops (sha256 [Byte.x02])
    GetDirtyList_order I (demo_ops_ok _ (reflexivity _))
    demo_ops_spread (sha256_length _)) as (b & hi & o & found & E & Eg & Hm).
  replace (ops_map demo_ops ∅ !! sha256 [Byte.x02]) with (Some (sha256 [Byte.x02; Byte.x02])) in Hm
    by (vm_compute; reflexivity).
  destruct Hm as [-> ->]. exists b, hi. split; [exact E|exact Eg].
Defined.

(** ** Receipts *)

Lemma CollectReceipt_spec {S} `{!KeyValueTxn S} fuel : forall π e k (b : BPT S),
  node_wf π e -> tidy ∅ π e -> length k = 32 -> agree π k -> length π < 256 -> 257 <= length π + fuel ->
  exists out, CollectReceipt fuel e k b (Z.of_nat (length π)) = Ok (e, out) /\
    match contents e !! k with
    | Some v => exists h es, GetHash e = Some h /\ out = Some (h, v, es) /\ apply_all es (Some v) = Some h
    | None => out = None
    end.
Proof.
  induction fuel as [|fuel IH]; intros π e k b Hw Ht Hk Ha Hlt Hf; [lia|].
  inversion Hw as [? nk h l r Hl Hr Hn Hz]; subst.
  cbn [CollectReceipt]. rewrite (wf_is_NotLoaded _ _ Hl), (wf_is_NotLoaded _ _ Hr). cbn [orb res_bind].
  rewrite key_bit_spec by done. cbn [res_bind contents].
  rewrite (contents_side π) by done. set (bit := kbit k (length π)).
  assert (Hab : agree (π ++ [bit]) k) by (by apply agree_snoc).
  pose proof Ht as Ht'. apply tidy_node in Ht' as [_ [Htl Htr]].
  (* the step at this node, whatever the entries so far *)
  assert (Hstep : forall h' v es, contents (if bit then l else r) !! k = Some v ->
    GetHash (if bit then l else r) = Some h' -> apply_all es (Some v) = Some h' ->
    apply_all (match (if negb bit then l else r) with
               | ENil => es
               | _ => es ++ [mkEntry (negb (negb bit)) (GetHash (if negb bit then l else r))]
               end) (Some v) = Some h).
  { intros h' v es Hkv Hg Hap.
    pose proof (contents_not_empty _ _ _ _ _ _ _ _ _ Hw Hkv) as Hne.
    pose proof (tidy_hash _ _ _ _ _ _ _ Ht eq_refl Hw Hne) as Hc.
    destruct bit; cbn [negb]; rewrite Hg in Hc.
    - destruct r as [|k1 h1|ht1 nk1 h1 l1 r1|]; cbn [GetHash combine_hash] in *; try by (inversion Hr).
      1: by rewrite Hap, Hc.
      all: rewrite apply_all_app, Hap; cbn; exact Hc.
    - destruct l as [|k1 h1|ht1 nk1 h1 l1 r1|]; cbn [GetHash combine_hash] in *; try by (inversion Hl).
      1: by rewrite Hap, Hc.
      all: rewrite apply_all_app, Hap; cbn; exact Hc. }
  assert (Hsides : (if negb bit then r else l) = (if bit then l else r)) by (by destruct bit).
  rewrite Hsides. assert (He : wf (π ++ [bit]) (if bit then l else r)) by (by destruct bit).
  assert (Hte : tidy ∅ (π ++ [bit]) (if bit then l else r)) by (by destruct bit).
  destruct (if bit then l else r) as [|k0 h0|ht' nk' h' l' r'|] eqn:Ee.
  - eexists. split; [done|]. done.
  - cbn [contents] in *. destruct (bytes_eqb k0 k) eqn:E.
    + apply bytes_eqb_eq in E as ->. eexists. split; [done|]. rewrite lookup_singleton_eq.
      eexists _, _. split; [done|]. split; [done|]. apply (Hstep h0); [apply lookup_singleton_eq|done..].
    + eexists. split; [done|]. rewrite lookup_singleton_ne; [done|]. intros ->. by rewrite bytes_eqb_refl in E.
  - assert (Hlen : length (π ++ [bit]) < 256).
    { apply (wf_room _ _ _ _ _ _ He). rewrite length_app. simpl. lia. }
    destruct (IH (π ++ [bit]) _ k b (wf_node_wf _ _ _ _ _ _ He) Hte Hk Hab Hlen) as (out & Eo & Hout).
    { rewrite length_app. simpl. lia. }
    replace (Z.of_nat (length π) + 1)%Z with (Z.of_nat (length (π ++ [bit]))) by (rewrite length_app; simpl; lia).
    rewrite Eo. cbn [res_bind].
    assert (Hput : (if negb bit then ENode (Z.of_nat (length π)) nk h l (ENode ht' nk' h' l' r')
      else ENode (Z.of_nat (length π)) nk h (ENode ht' nk' h' l' r') r) = ENode (Z.of_nat (length π)) nk h l r)
      by (destruct bit; simpl in *; by rewrite Ee).
    rewrite Hput. destruct (contents (ENode ht' nk' h' l' r') !! k) as [v|] eqn:Hkv.
    + destruct Hout as (h1 & es & Hh1 & -> & Hap). eexists. split; [done|].
      eexists _, _. split; [done|]. split; [done|]. by apply (Hstep h1).
    + subst out. by eexists.
  - by inversion He.
Qed.

(** C30. Receipts of the state tree: after any history and an update, the receipt of a
    key in the tree starts at its hash, validates and is anchored in the root hash; a
    key that is not there has no receipt. *)
Theorem BPT_GetReceipt_valid {S} `{KeyValueLaws S} (G : BPT S -> list path) (mgr : option S)
  (ops : list BptOp) (k : bytes)
  (HG : dirty_order G) (Hm : match mgr with Some s => kv_writable s | None => True end)
  (Hok : Forall op_ok ops) (Hs : spread (ops_map ops ∅)) (Hk : length k = 32) :
  exists b out, run_ops G (ops ++ [OpUpdate]) (NewBPT mgr) = Ok b /\ BPT_GetReceipt k b = Ok (b, out) /\
    match ops_map ops ∅ !! k with
    | Some h => exists r, out = Some r /\ Validate r = true /\ Start r = Some h /\ Anchor r = Some (RootHash b)
    | None => out = None
    end.
Proof.
  destruct (run_ops_ok G ops (NewBPT mgr) ∅ HG (NewBPT_inv mgr Hm) Hok Hs) as (b1 & E1 & Hi1).
  destruct (Update_ok G b1 _ HG Hi1) as (b & E2 & Hi & HD & HR).
  pose proof (inv_tidy _ _ Hi) as Ht. rewrite HD in Ht.
  destruct (CollectReceipt_spec bpt_fuel [] (Root b) k b (inv_wf _ _ Hi) Ht Hk (agree_nil k))
    as (out & Eo & Hout); [simpl; lia|unfold bpt_fuel; simpl; lia|].
  rewrite (inv_contents _ _ Hi) in Hout. eexists b, _. split; [rewrite run_ops_app, E1; simpl; by rewrite E2|].
  unfold BPT_GetReceipt. change (Z.of_nat (length [])) with 0%Z in Eo. rewrite Eo. cbn [res_bind].
  split; [destruct b; reflexivity|]. destruct (ops_map ops ∅ !! k) as [v|]; [|by rewrite Hout].
  destruct Hout as (h & es & Hg & -> & Hap). eexists. split; [done|].
  split; [apply Validate_iff; simpl; by rewrite Hap|]. split; [done|]. simpl. rewrite HR. unfold root_hash.
  destruct (Root b); try done. 
Qed.

Lemma BPT_GetReceipt_valid_witness :
  exists (b : BPT Txn) r, run_ops GetDirtyList (demo_ops ++ [OpUpdate]) (NewBPT None) = Ok b /\
    BPT_GetReceipt (sha256 [Byte.x02]) b = Ok (b, Some r) /\ Validate r = true /\ Anchor r = Some (RootHash b).
Proof.
  destruct (BPT_GetReceipt_valid (S:=Txn) GetDirtyList None demo_ops (sha256 [Byte.x02])
    GetDirtyList_order I (demo_ops_ok _ (reflexivity _)) demo_ops_spread (sha256_length _))
    as (b & out & E & Er & Hm).
  replace (ops_map demo_ops ∅ !! sha256 [Byte.x02]) with (Some (sha256 [Byte.x02; Byte.x02])) in Hm
    by (vm_compute; reflexivity).
  destruct Hm as (r & -> & Hv & _ & Ha). exists b, r.
  split; [exact E|]. split; [exact Er|]. split; [exact Hv|exact Ha].
Defined.

(** ** Byte blocks *)

(** What a byte block keeps: below the next border, nothing is loaded. *)
Fixpoint cut (Mask : Z) (e : Entry) : Entry :=
  match e with
  | ENode ht nk h l r =>
      if (Z.land ht Mask =? 0)%Z then ENode ht nk h ENotLoaded ENotLoaded
      else ENode ht nk h (cut Mask l) (cut Mask r)
  | _ => e
  end.

Lemma slice32 (a rest : bytes) : length a = 32 ->
  slice_to (a ++ rest) 32 = Ok a /\ slice_from (a ++ rest) 32 = Ok rest.
Proof.
  intros Ha. replace 32%Z with (zlen a) by (unfold zlen; lia).
  split; [apply slice_to_app|apply slice_from_app].
Qed.

Lemma slice1 (a : byte) (rest : bytes) : index (a :: rest) 0 = Ok a /\ slice_from (a :: rest) 1 = Ok rest.
Proof. split; [done|]. exact (slice_from_app [a] rest). Qed.

Lemma Value_roundtrip k h rest : length k = 32 -> length h = 32 ->
  Value_UnMarshal (Value_Marshal k h ++ rest) = Ok (EValue k h, rest).
Proof.
  intros Hk Hh. unfold Value_UnMarshal, Value_Marshal. rewrite <- app_assoc.
  destruct (slice32 k (h ++ rest) Hk) as [-> ->]. cbn [res_bind].
  destruct (slice32 h rest Hh) as [-> ->]. done.
Qed.

Lemma BptNode_roundtrip ht nk h rest : (0 <= ht < 256)%Z -> length nk = 32 -> length h = 32 ->
  BptNode_UnMarshal (BptNode_Marshal ht nk h ++ rest) = Ok (ht, nk, h, rest).
Proof.
  intros Ht Hk Hh. unfold BptNode_UnMarshal, BptNode_Marshal. rewrite <- !app_assoc.
  destruct (slice32 nk ([z2b ht] ++ h ++ rest) Hk) as [-> ->]. cbn [res_bind app].
  destruct (slice1 (z2b ht) (h ++ rest)) as [-> ->]. cbn [res_bind].
  destruct (slice32 h rest Hh) as [-> ->]. cbn [res_bind]. by rewrite b2z_z2b_small.
Qed.

(** The lengths of the fields, and heights that fit a byte. *)
Fixpoint sized (e : Entry) : Prop :=
  match e with
  | EValue k h => length k = 32 /\ length h = 32
  | ENode ht nk h l r => (0 <= ht < 256)%Z /\ length nk = 32 /\ length h = 32 /\ sized l /\ sized r
  | ENil => True
  | ENotLoaded => False
  end.

Lemma unmarshal_entry_ok Mask e : forall fuel ph rest,
  sized e -> length (MarshalEntry Mask e) <= fuel ->
  unmarshal_entry fuel Mask ph (MarshalEntry Mask e ++ rest) = Ok (cut Mask e, rest).
Proof.
  induction e as [|k h|ht nk h l IHl r IHr|]; intros fuel ph rest Hs Hf; simpl in Hs.
  - destruct fuel as [|fuel]; [simpl in Hf; lia|]. cbn [unmarshal_entry MarshalEntry app].
    by destruct (slice1 TNil rest) as [-> ->].
  - destruct fuel as [|fuel]; [simpl in Hf; lia|]. cbn [unmarshal_entry MarshalEntry app].
    destruct (slice1 TValue (Value_Marshal k h ++ rest)) as [-> ->]. cbn [res_bind].
    rewrite bool_decide_false, bool_decide_true by done. destruct Hs. by rewrite Value_roundtrip.
  - destruct Hs as (Ht & Hk & Hh & Hl & Hr). destruct fuel as [|fuel]; [simpl in Hf; lia|].
    cbn [unmarshal_entry MarshalEntry app].
    match goal with |- context [TNode :: ?x] => destruct (slice1 TNode x) as [-> ->] end. cbn [res_bind].
    rewrite !(bool_decide_false (TNode = _)) by done. rewrite bool_decide_true by done.
    rewrite <- app_assoc, BptNode_roundtrip by done. cbn [res_bind].
    cbn [MarshalEntry length] in Hf. rewrite length_app in Hf.
    assert (HN : length (BptNode_Marshal ht nk h) = 65).
    { unfold BptNode_Marshal. rewrite !length_app, Hk, Hh. done. }
    cbn [cut]. destruct (Z.land ht Mask =? 0)%Z eqn:Em.
    + destruct fuel as [|fuel]; [lia|]. cbn [unmarshal_entry app].
      destruct (slice1 TNotLoaded (TNotLoaded :: rest)) as [-> ->]. cbn [res_bind].
      rewrite !(bool_decide_false (TNotLoaded = _)) by done. rewrite bool_decide_true by done.
      rewrite Em. cbn [negb res_bind]. destruct (slice1 TNotLoaded rest) as [-> ->]. done.
    + rewrite length_app in Hf. rewrite <- app_assoc, IHl by (done || lia). cbn [res_bind].
      rewrite IHr by (done || lia). done.
  - done.
Qed.

Lemma UnMarshalEntry_ok Mask e ph rest :
  sized e -> UnMarshalEntry Mask ph (MarshalEntry Mask e ++ rest) = Ok (cut Mask e, rest).
Proof. intros Hs. unfold UnMarshalEntry. apply unmarshal_entry_ok; [done|]. rewrite length_app. lia. Qed.

Lemma GetHash_cut Mask e : GetHash (cut Mask e) = GetHash e.
Proof. destruct e; simpl; try done. by destruct (_ =? _)%Z. Qed.

(** A byte block written by [FlushNode] is read back by [LoadNode]: the border
    node gets the entries of the block, cut at the next borders, with the same hashes,
    and its hash is recomputed from them. *)
Theorem FlushNode_LoadNode {S} `{KeyValueLaws S} (b b' : BPT S) (s : S) (ht : Z) (nk h h' : bytes) (l r : Entry)
  (Hmgr : Manager b = Some s) (Hw : kv_writable s) (Hmask : Mask b = 7%Z) (Hht : Z.land ht 7 = 0%Z)
  (Hnz : ht <> 0%Z) (Hsl : sized l) (Hsr : sized r)
  (Hh : combine_hash (GetHash l) (GetHash r) = Some h)
  (Hf : FlushNode (ENode ht nk h l r) b = Ok b') :
  LoadNode (ENode ht nk h' ENotLoaded ENotLoaded) b' = Ok (ENode ht nk h (cut 7 l) (cut 7 r)).
Proof.
  unfold FlushNode in Hf. rewrite Hmgr, Hht in Hf. simpl (0 =? 0)%Z in Hf. cbv iota in Hf.
  unfold MarshalByteBlock in Hf. rewrite Hmask, Hht in Hf. cbn [negb Z.eqb res_bind] in Hf.
  set (data := MarshalEntry 7 l ++ MarshalEntry 7 r) in *.
  destruct (kv_Put_view (Key_Append kBpt [KBytes nk]) data s Hw) as (s1 & E1 & Hw1 & Hv1).
  rewrite E1 in Hf. cbn [res_bind] in Hf. rewrite (proj2 (Z.eqb_neq ht 0)) in Hf by done.
  injection Hf as <-. unfold LoadNode. cbn [Manager set_Manager Mask]. rewrite Hmask, Hht. cbn [negb Z.eqb].
  pose proof (kv_Get_view (Key_Append kBpt [KBytes nk]) s1 Hw1) as Hg.
  rewrite Hv1, lookup_insert_eq in Hg. rewrite Hg.
  unfold UnMarshalByteBlock. rewrite Hht. cbn [negb Z.eqb]. unfold data.
  rewrite UnMarshalEntry_ok by done. cbn [res_bind].
  rewrite <- (app_nil_r (MarshalEntry 7 r)), UnMarshalEntry_ok by done. cbn [res_bind].
  unfold GetNodeHash. rewrite !GetHash_cut.
  destruct (GetHash l), (GetHash r); simpl in Hh; try done; injection Hh as ->; done.
Qed.

Lemma FlushNode_LoadNode_witness :
  let v := EValue Key_zero Key_zero in
  let b := NewBPT (Some (Begin true (Base DB_New))) in
  exists b', FlushNode (ENode 8 Key_zero Key_zero v ENil) b = Ok b' /\
    LoadNode (ENode 8 Key_zero [] ENotLoaded ENotLoaded) b' = Ok (ENode 8 Key_zero Key_zero v ENil).
Proof.
  eexists. split; [reflexivity|].
  apply (FlushNode_LoadNode (NewBPT (Some (Begin true (Base DB_New)))) _ (Begin true (Base DB_New))
    8 Key_zero Key_zero [] (EValue Key_zero Key_zero) ENil); try done.
  split; [split; [by eexists|done]|]. by eexists _, _.
Defined.

(** ** Heights of node keys *)

Lemma low_bit_byte (b : byte) (s : nat) :
  s < 8 -> Z.testbit (b2z b) (Z.of_nat s) = true ->
  (forall n, (0 <= n < Z.of_nat s)%Z -> Z.testbit (b2z b) n = false) ->
  low_bit 8 (b2z b) 1 1 = (Z.of_nat s + 1, 2 ^ Z.of_nat s)%Z.
Proof.
  intros Hs Hb Hz.
  assert (Hgen : forall j fuel, j <= s -> 8 <= j + fuel ->
    low_bit fuel (b2z b) (Z.of_nat j + 1) (2 ^ Z.of_nat j) = (Z.of_nat s + 1, 2 ^ Z.of_nat s)%Z).
  { intros j. remember (s - j) as d eqn:Hd. revert j Hd. induction d as [|d IH]; intros j Hd fuel Hj Hf.
    - assert (j = s) as -> by lia. destruct fuel as [|fuel]; [lia|]. simpl.
      rewrite Z.land_comm, land_pow2_eqb, Hb by lia. done.
    - destruct fuel as [|fuel]; [lia|]. simpl.
      rewrite Z.land_comm, land_pow2_eqb, (Hz (Z.of_nat j)) by lia. cbn [negb].
      replace (u8 (Z.shiftl (2 ^ Z.of_nat j) 1)) with (2 ^ Z.of_nat (S j))%Z.
      + replace (Z.of_nat j + 1 + 1)%Z with (Z.of_nat (S j) + 1)%Z by lia. apply IH; lia.
      + rewrite Z.shiftl_mul_pow2, <- Z.pow_add_r by lia. unfold u8.
        replace (Z.of_nat j + 1)%Z with (Z.of_nat (S j)) by lia. symmetry. apply Z.mod_small.
        split; [apply Z.pow_nonneg; lia|]. change 256%Z with (2 ^ 8)%Z. apply Z.pow_lt_mono_r; lia. }
  exact (Hgen 0 8 ltac:(lia) ltac:(lia)).
Qed.

Lemma last_nonzero_spec n j key :
  j <= n -> nth j key Byte.x00 <> Byte.x00 -> (forall i, j < i <= n -> nth i key Byte.x00 = Byte.x00) ->
  last_nonzero n key = j.
Proof.
  intros Hj Hnz Hz. induction n as [|n IH]; simpl; [lia|].
  destruct (decide (j = S n)) as [->|Hne]; [by rewrite bool_decide_false|].
  rewrite bool_decide_true by (apply Hz; lia). apply IH; [lia|]. intros i Hi. apply Hz. lia.
Qed.

(** [GetHtKey] is the inverse of [GetNodeKey]: from the node key of a height up to
    254 it recovers the height and the first bits of the key, the others cleared. *)
Theorem GetHtKey_GetNodeKey (h : nat) (k : bytes) (Hh : h <= 254) (Hk : length k = 32) :
  exists nk key, GetNodeKey (Z.of_nat h) k = (nk, true) /\ GetHtKey nk = (Z.of_nat h, key, true) /\
    forall i, i < 256 -> kbit key i = (if decide (i < h) then kbit k i else false).
Proof.
  destruct (GetNodeKey_eq h k Hh Hk) as (b & E & Hb).
  pose proof (fun i => GetNodeKey_bits h k i Hh Hk) as Hbits. rewrite E in *.
  set (nk := take (h / 8) k ++ b :: replicate (31 - h / 8) Byte.x00) in *.
  assert (Hh8 : h / 8 < 32) by (apply Nat.Div0.div_lt_upper_bound; lia).
  pose proof (Nat.mod_upper_bound h 8 ltac:(lia)) as Hm8. pose proof (Nat.div_mod_eq h 8) as Hdm.
  assert (Hnth : nth (h / 8) nk Byte.x00 = b).
  { unfold nk. rewrite app_nth2 by (rewrite length_take; lia).
    rewrite length_take, Nat.min_l, Nat.sub_diag by lia. done. }
  set (s := 7 - h mod 8) in *.
  assert (Hs1 : Z.testbit (b2z b) (Z.of_nat s) = true).
  { rewrite Hb by lia. cbv zeta. rewrite (proj2 (Z.ltb_ge _ _)) by lia. by rewrite (proj2 (Z.eqb_eq _ _)) by lia. }
  assert (Hb0 : b <> Byte.x00) by (intros ->; rewrite Z.bits_0 in Hs1; done).
  assert (Hlast : last_nonzero 31 nk = h / 8).
  { apply last_nonzero_spec; [lia|by rewrite Hnth|]. intros i Hi. unfold nk.
    rewrite app_nth2 by (rewrite length_take; lia). rewrite length_take, Nat.min_l by lia.
    replace (i - h / 8) with (S (i - h / 8 - 1)) by lia. apply nth_Key_zero. }
  exists nk. eexists. split; [done|]. unfold GetHtKey. rewrite Hlast, Hnth.
  rewrite (proj2 (Z.eqb_neq (b2z b) 0)) by (intros Hz; apply Hb0, b2z_inj; by rewrite Hz).
  rewrite (low_bit_byte b s) by (try done; try lia; intros n Hn; rewrite Hb by lia; cbv zeta;
    by rewrite (proj2 (Z.ltb_lt _ _)) by lia).
  split; [f_equal; f_equal; lia|]. intros i Hi. unfold xor_byte. rewrite Hnth.
  assert (Hlen : length nk = 32).
  { unfold nk. rewrite length_app, length_take, length_cons, length_replicate. lia. }
  specialize (Hbits i Hi). simpl fst in Hbits. unfold kbit in *. set (nk' := <[_ := _]> nk).
  assert (Hnk' : forall j, nth j nk' Byte.x00 =
    if decide (j = h / 8) then z2b (Z.lxor (b2z b) (2 ^ Z.of_nat s)) else nth j nk Byte.x00).
  { intros j. rewrite !nth_lookup. unfold nk'. destruct (decide (j = h / 8)) as [->|Hj].
    - by rewrite list_lookup_insert_eq by lia.
    - by rewrite list_lookup_insert_ne. }
  rewrite Hnk'. pose proof (Nat.mod_upper_bound i 8 ltac:(lia)). pose proof (Nat.div_mod_eq i 8).
  destruct (decide (i / 8 = h / 8)) as [Hi8|Hi8].
  - assert (Hn' : nth (i / 8) nk Byte.x00 = b) by congruence. rewrite Hn' in Hbits.
    rewrite b2z_z2b. change 256%Z with (2 ^ 8)%Z. rewrite Z.mod_pow2_bits_low by lia.
    rewrite Z.lxor_spec, Hbits, Z.pow2_bits_eqb by lia.
    destruct (decide (i < h)).
    + rewrite (proj2 (Z.eqb_neq _ _)) by lia. by rewrite xorb_false_r.
    + case_bool_decide as He; [by rewrite (proj2 (Z.eqb_eq _ _)) by lia|].
      by rewrite (proj2 (Z.eqb_neq _ _)) by lia.
  - rewrite Hbits. destruct (decide (i < h)); [done|]. apply bool_decide_false. intros ->. lia.
Qed.

Lemma GetHtKey_GetNodeKey_witness :
  exists nk key, GetNodeKey 13 (sha256 []) = (nk, true) /\ GetHtKey nk = (13%Z, key, true).
Proof.
  destruct (GetHtKey_GetNodeKey 13 (sha256 []) ltac:(lia) (sha256_length _)) as (nk & key & E & E' & _).
  exists nk, key. split; [exact E|exact E'].
Defined.
