(* ===== verification/BptRange.v ===== *)
(** * Ranges of the Patricia tree: [smt/pmt/bpt_getrange.go], and the walk over all
      accounts of [internal/database/bpt.go] *)

From stdpp Require Import sorting.
From S2P Require Import Prelude Sha256 Encoding MerkleTree MerkleState Receipt Storage Bpt BptKeys BptMap BptDirty BptUpdate BptProps.
Local Open Scope nat_scope.

(** The values of an entry, left to right. *)
Fixpoint entries_of (e : Entry) : list (bytes * bytes) :=
  match e with
  | EValue k h => [(k, h)]
  | ENode _ _ _ l r => entries_of l ++ entries_of r
  | _ => []
  end.

Definition other (key : bytes) (kv : bytes * bytes) : bool := negb (bytes_eqb key (fst kv)).

(** What the walk collects after the path of a key. *)
Fixpoint from_key (key : bytes) (n : nat) (e : Entry) : list (bytes * bytes) :=
  match e with
  | EValue k h => if bytes_eqb key k then [] else [(k, h)]
  | ENode _ _ _ l r =>
      if kbit key n then from_key key (S n) l ++ List.filter (other key) (entries_of r)
      else from_key key (S n) r
  | _ => []
  end.

(** The most the walk may still collect. *)
Definition more {A} (count : Z) (values l : list A) : list A :=
  values ++ take (Z.to_nat (count - zlen values)) l.

Lemma more_full {A} count (values l : list A) : (count <= zlen values)%Z -> more count values l = values.
Proof. intros H. unfold more. replace (Z.to_nat _) with 0 by lia. by rewrite take_0, app_nil_r. Qed.

Lemma more_app {A} count (values l l' : list A) :
  more count (more count values l) l' = more count values (l ++ l').
Proof.
  unfold more. rewrite <- app_assoc. f_equal. rewrite take_app. f_equal. f_equal.
  rewrite zlen_app. unfold zlen. rewrite length_take. lia.
Qed.

Lemma more_one {A} count (values : list A) x : (zlen values < count)%Z -> more count values [x] = values ++ [x].
Proof. intros H. unfold more. rewrite take_ge; [done|]. simpl. lia. Qed.

Lemma more_nil {A} count (values : list A) : more count values [] = values.
Proof. unfold more. by rewrite take_nil, app_nil_r. Qed.

Section Range.
Context {S : Type} `{!KeyValueTxn S}.
Implicit Types b : BPT S.

Lemma WalkRange_found fuel : forall π e count key values b,
  node_wf π e -> length π < 256 -> 257 <= length π + fuel ->
  WalkRange fuel true e count key values b =
  Ok (e, true, more count values (List.filter (other key) (entries_of e))).
Proof.
  induction fuel as [|fuel IH]; intros π e count key values b Hw Hlt Hf; [lia|].
  pose proof (LoadNext_wf _ _ b Hw) as Hload. inversion Hw as [? nk h l r Hl Hr Hn Hz]; subst.
  cbn [WalkRange]. rewrite Hload. cbn [res_bind].
  destruct (Z.leb_spec count (zlen values)); [by rewrite more_full|]. cbn [res_bind].
  assert (Hwalk : forall d e vals, wf (π ++ [d]) e -> (zlen vals < count)%Z ->
    match e with
    | ENil => Ok (e, true, vals)
    | ENode _ _ _ _ _ => WalkRange fuel true e count key vals b
    | EValue k h => Ok (e, true, if bytes_eqb key k then vals else vals ++ [(k, h)])
    | ENotLoaded => Panic "interface conversion"
    end = Ok (e, true, more count vals (List.filter (other key) (entries_of e)))).
  { intros d e vals He Hv. destruct e as [|k0 h0|ht' nk' h' l' r'|].
    - simpl. by rewrite more_nil.
    - simpl. unfold other. simpl. destruct (bytes_eqb key k0); simpl; [by rewrite more_nil|by rewrite more_one].
    - apply (IH (π ++ [d])); [by apply wf_node_wf in He| |rewrite length_app; simpl; lia].
      apply (wf_room _ _ _ _ _ _ He). rewrite length_app. simpl. lia.
    - by inversion He. }
  rewrite (Hwalk true l values Hl) by done. cbn [res_bind entries_of].
  rewrite List.filter_app, <- more_app. set (vals := more count values _).
  destruct (Z.leb_spec count (zlen vals)); [by rewrite more_full|].
  by rewrite (Hwalk false r vals Hr).
Qed.

Lemma WalkRange_spec fuel : forall π e count key values b,
  node_wf π e -> length key = 32 -> length π < 256 -> 257 <= length π + fuel -> (zlen values < count)%Z ->
  WalkRange fuel false e count key values b =
  Ok (e, true, more count values (from_key key (length π) e)).
Proof.
  induction fuel as [|fuel IH]; intros π e count key values b Hw Hk Hlt Hf Hv; [lia|].
  pose proof (LoadNext_wf _ _ b Hw) as Hload. inversion Hw as [? nk h l r Hl Hr Hn Hz]; subst.
  cbn [WalkRange]. rewrite Hload. cbn [res_bind]. rewrite (proj2 (Z.leb_gt _ _)) by done.
  rewrite key_bit_spec by done. cbn [res_bind from_key].
  assert (Hwalk : forall d e vals, wf (π ++ [d]) e -> (zlen vals < count)%Z ->
    match e with
    | ENil => Ok (e, true, vals)
    | ENode _ _ _ _ _ => WalkRange fuel false e count key vals b
    | EValue k h => Ok (e, true, if bytes_eqb key k then vals else vals ++ [(k, h)])
    | ENotLoaded => Panic "interface conversion"
    end = Ok (e, true, more count vals (from_key key (Datatypes.S (length π)) e))).
  { intros d e vals He Hv'. destruct e as [|k0 h0|ht' nk' h' l' r'|].
    - simpl. by rewrite more_nil.
    - simpl. destruct (bytes_eqb key k0); [by rewrite more_nil|by rewrite more_one].
    - replace (Datatypes.S (length π)) with (length (π ++ [d])) by (rewrite length_app; simpl; lia).
      apply IH; try done; [by apply wf_node_wf in He| |rewrite length_app; simpl; lia].
      apply (wf_room _ _ _ _ _ _ He). rewrite length_app. simpl. lia.
    - by inversion He. }
  destruct (kbit key (length π)).
  - rewrite (Hwalk true l values Hl) by done. cbn [res_bind]. rewrite <- more_app.
    set (vals := more count values _).
    destruct (Z.leb_spec count (zlen vals)); [by rewrite more_full|].
    destruct r as [|k0 h0|ht' nk' h' l' r'|].
    + simpl. by rewrite more_nil.
    + simpl. unfold other. simpl. destruct (bytes_eqb key k0); simpl; [by rewrite more_nil|by rewrite more_one].
    + rewrite (WalkRange_found fuel (π ++ [false])); [done|by apply wf_node_wf in Hr| |rewrite length_app; simpl; lia].
      apply (wf_room _ _ _ _ _ _ Hr). rewrite length_app. simpl. lia.
    + by inversion Hr.
  - cbn [res_bind]. rewrite (proj2 (Z.leb_gt _ _)) by done. by rewrite (Hwalk false r values Hr).
Qed.

End Range.

(** ** The order of the values *)

Lemma entries_contents π e k h : wf π e -> (k, h) ∈ entries_of e <-> contents e !! k = Some h.
Proof.
  intros Hw. induction Hw as [|π k0 h0 Hk Hh Ha|π nk h0 l r Hl IHl Hr IHr Hn Hz Ht]; simpl.
  - rewrite lookup_empty. split; [intros Hx; by apply not_elem_of_nil in Hx|done].
  - rewrite list_elem_of_singleton, lookup_singleton_Some. split; [intros [= -> ->]|intros [-> ->]]; done.
  - rewrite elem_of_app, IHl, IHr. split.
    + intros [E|E]; [by rewrite (lookup_union_Some_l _ _ _ _ E)|].
      rewrite lookup_union_r; [done|]. destruct (contents l !! k) as [v|] eqn:El; [|done].
      pose proof (wf_bit _ _ _ _ _ Hl El). pose proof (wf_bit _ _ _ _ _ Hr E). congruence.
    + intros E. apply lookup_union_Some_raw in E as [E|[_ E]]; auto.
Qed.

Lemma filter_other key l : (forall h, (key, h) ∉ l) -> List.filter (other key) l = l.
Proof.
  induction l as [|[k h] l IH]; intros Hk; [done|]. simpl. unfold other at 1. simpl.
  destruct (bytes_eqb key k) eqn:E.
  - apply bytes_eqb_eq in E as ->. exfalso. apply (Hk h). left.
  - simpl. f_equal. apply IH. intros h' Hin. apply (Hk h'). by right.
Qed.

Lemma from_key_present π e k h :
  wf π e -> contents e !! k = Some h ->
  exists pre, entries_of e = pre ++ (k, h) :: from_key k (length π) e.
Proof.
  intros Hw. induction Hw as [|π k0 h0 Hk Hh Ha|π nk h0 l r Hl IHl Hr IHr Hn Hz Ht]; simpl; intros Hc.
  - by rewrite lookup_empty in Hc.
  - apply lookup_singleton_Some in Hc as [<- <-]. exists []. by rewrite bytes_eqb_refl.
  - pose proof Hc as Hc'. rewrite (contents_side π) in Hc by done.
    assert (Hlen : forall d, length (π ++ [d]) = S (length π)) by (intros; rewrite length_app; simpl; lia).
    destruct (kbit k (length π)) eqn:Hb.
    + destruct (IHl Hc) as [pre E]. rewrite Hlen in E. exists pre.
      rewrite E, <- app_assoc. simpl. do 2 f_equal. rewrite filter_other; [done|]. intros h' Hin.
      apply (entries_contents _ _ _ _ Hr) in Hin. pose proof (wf_bit _ _ _ _ _ Hr Hin). congruence.
    + destruct (IHr Hc) as [pre E]. rewrite Hlen in E. exists (entries_of l ++ pre).
      by rewrite E, <- app_assoc.
Qed.

(** [FirstPossibleBptKey]. *)
Definition FirstPossibleBptKey : bytes := replicate 32 Byte.xff.

Lemma kbit_first i : i < 256 -> kbit FirstPossibleBptKey i = true.
Proof.
  intros Hi. unfold kbit, FirstPossibleBptKey.
  assert (i / 8 < 32) by (apply Nat.Div0.div_lt_upper_bound; lia).
  rewrite (nth_lookup_Some _ _ _ Byte.xff) by (by apply lookup_replicate_2).
  pose proof (Nat.mod_upper_bound i 8 ltac:(lia)).
  change (b2z Byte.xff) with (Z.ones 8). apply Z.ones_spec_low. lia.
Qed.

Lemma from_key_first π e :
  wf π e -> length π <= 256 -> contents e !! FirstPossibleBptKey = None ->
  from_key FirstPossibleBptKey (length π) e = entries_of e.
Proof.
  intros Hw. induction Hw as [|π k0 h0 Hk Hh Ha|π nk h0 l r Hl IHl Hr IHr Hn Hz Ht];
    intros Hlen Hc; try done.
  - simpl in *. destruct (bytes_eqb FirstPossibleBptKey k0) eqn:E; [|done].
    apply bytes_eqb_eq in E as <-. by rewrite lookup_singleton_eq in Hc.
  - assert (Hroom : length π < 256) by (apply (wf_room π (Z.of_nat (length π)) nk h0 l r); [by constructor|done]).
    cbn [from_key entries_of contents] in *. apply lookup_union_None in Hc as [Hcl Hcr].
    rewrite kbit_first by done.
    assert (Hs : forall d, length (π ++ [d]) = S (length π)) by (intros; rewrite length_app; simpl; lia).
    specialize (IHl ltac:(rewrite Hs; lia) Hcl). rewrite Hs in IHl. rewrite IHl. f_equal.
    apply filter_other. intros h Hin. apply (entries_contents _ _ _ _ Hr) in Hin. congruence.
Qed.

Lemma entries_NoDup π e : wf π e -> NoDup (entries_of e).*1.
Proof.
  intros Hw. induction Hw as [|π k0 h0 Hk Hh Ha|π nk h0 l r Hl IHl Hr IHr Hn Hz Ht]; simpl.
  - constructor.
  - apply NoDup_singleton.
  - rewrite fmap_app. apply NoDup_app. split; [done|]. split; [|done].
    intros k H1 H2. apply list_elem_of_fmap in H1 as ([k1 h1] & -> & H1).
    apply list_elem_of_fmap in H2 as ([k2 h2] & E & H2). simpl in *. subst k2.
    apply (entries_contents _ _ _ _ Hl) in H1. apply (entries_contents _ _ _ _ Hr) in H2.
    pose proof (wf_bit _ _ _ _ _ Hl H1). pose proof (wf_bit _ _ _ _ _ Hr H2). congruence.
Qed.

(** The same facts at the root. *)
Section Root.
Context {S : Type} `{KeyValueLaws S} (b : BPT S) (m : gmap bytes bytes) (Hi : bpt_inv b m).

Lemma root_entries k h : (k, h) ∈ entries_of (Root b) <-> m !! k = Some h.
Proof.
  pose proof (inv_wf _ _ Hi) as Hw. rewrite <- (inv_contents _ _ Hi).
  inversion Hw as [? nk h0 l r Hl Hr Hn Hz Eπ E]; subst. simpl. rewrite elem_of_app.
  rewrite (entries_contents [true] l), (entries_contents [false] r) by done. split.
  - intros [E'|E']; [by rewrite (lookup_union_Some_l _ _ _ _ E')|].
    rewrite lookup_union_r; [done|]. destruct (contents l !! k) as [v|] eqn:El; [|done].
    pose proof (wf_bit [] _ _ _ _ Hl El). pose proof (wf_bit [] _ _ _ _ Hr E'). congruence.
  - intros E'. apply lookup_union_Some_raw in E' as [E'|[_ E']]; auto.
Qed.

Lemma root_entries_perm : entries_of (Root b) ≡ₚ map_to_list m.
Proof.
  apply NoDup_Permutation.
  - apply (NoDup_fmap_1 fst). pose proof (inv_wf _ _ Hi) as Hw. inversion Hw as [? nk h0 l r Hl Hr]; subst.
    simpl. rewrite fmap_app. apply NoDup_app. split; [by apply (entries_NoDup [true])|].
    split; [|by apply (entries_NoDup [false])].
    intros k Hk1 Hk2. apply list_elem_of_fmap in Hk1 as ([k1 h1] & -> & Hk1).
    apply list_elem_of_fmap in Hk2 as ([k2 h2] & E & Hk2). simpl in *. subst k2.
    apply (entries_contents [true] l) in Hk1; [|done]. apply (entries_contents [false] r) in Hk2; [|done].
    pose proof (wf_bit [] _ _ _ _ Hl Hk1). pose proof (wf_bit [] _ _ _ _ Hr Hk2). congruence.
  - apply NoDup_map_to_list.
  - intros [k h]. by rewrite root_entries, elem_of_map_to_list.
Qed.

Lemma root_from_key k h :
  m !! k = Some h -> exists pre, entries_of (Root b) = pre ++ (k, h) :: from_key k 0 (Root b).
Proof.
  intros Hk. pose proof (inv_wf _ _ Hi) as Hw. rewrite <- (inv_contents _ _ Hi) in Hk.
  inversion Hw as [? nk h0 l r Hl Hr Hn Hz Eπ E]; subst. rewrite <- E in Hk. simpl in *.
  rewrite (contents_side []) in Hk by done. simpl in Hk. destruct (kbit k 0) eqn:Hb.
  - destruct (from_key_present [true] l k h Hl Hk) as [pre Ep]. exists pre. simpl in Ep.
    rewrite Ep, <- app_assoc. simpl. do 2 f_equal. rewrite filter_other; [done|]. intros h' Hin.
    apply (entries_contents [false] r) in Hin; [|done]. pose proof (wf_bit [] _ _ _ _ Hr Hin). simpl in *. congruence.
  - destruct (from_key_present [false] r k h Hr Hk) as [pre Ep]. exists (entries_of l ++ pre). simpl in Ep.
    by rewrite Ep, <- app_assoc.
Qed.

Lemma root_from_first :
  m !! FirstPossibleBptKey = None -> from_key FirstPossibleBptKey 0 (Root b) = entries_of (Root b).
Proof.
  intros Hk. pose proof (inv_wf _ _ Hi) as Hw. rewrite <- (inv_contents _ _ Hi) in Hk.
  inversion Hw as [? nk h0 l r Hl Hr Hn Hz Eπ E]; subst. rewrite <- E in Hk. cbn [from_key entries_of contents] in *.
  apply lookup_union_None in Hk as [Hkl Hkr]. rewrite kbit_first by lia.
  pose proof (from_key_first [true] l Hl ltac:(simpl; lia) Hkl) as El. simpl in El. rewrite El. f_equal.
  apply filter_other. intros h Hin. apply (entries_contents [false] r) in Hin; [|done]. congruence.
Qed.

Lemma GetRange_spec key count :
  length key = 32 -> (0 < count)%Z ->
  let values := take (Z.to_nat count) (from_key key 0 (Root b)) in
  GetRange key count b = Ok (b, (values, match last values with Some (k, _) => k | None => Key_zero end)).
Proof.
  intros Hk Hc values. unfold GetRange. rewrite (proj2 (Z.eqb_neq _ _)) by lia.
  rewrite (WalkRange_spec bpt_fuel [] (Root b) count key [] b (inv_wf _ _ Hi) Hk ltac:(simpl; lia)
    ltac:(unfold bpt_fuel; simpl; lia) Hc).
  cbn [res_bind]. assert (Hm : more count [] (from_key key (length (@nil bool)) (Root b)) = values).
  { unfold more, values, zlen. simpl. by rewrite Z.sub_0_r. }
  rewrite Hm. destruct b. reflexivity.
Qed.

End Root.

(** ** The walk over all accounts *)

Lemma split_unique {A} (x : A) l1 l2 l3 l4 :
  NoDup (l1 ++ x :: l2) -> l1 ++ x :: l2 = l3 ++ x :: l4 -> l2 = l4.
Proof.
  revert l3. induction l1 as [|y l1 IH]; intros [|z l3] Hnd E; simpl in *.
  - by injection E.
  - injection E as -> ->. apply NoDup_cons in Hnd as [Hn _]. exfalso. apply Hn, elem_of_app. right. left.
  - injection E as -> <-. apply NoDup_cons in Hnd as [Hn _]. exfalso. apply Hn, elem_of_app. right. left.
  - injection E as -> E. apply NoDup_cons in Hnd as [_ Hnd]. by apply (IH l3).
Qed.

Section Visit.

(** The visitor and what it changes, of type [A]; [getAccountUrl] is the lookup of
    an account's URL by its key in the batch. Wrapping an error with the unknown
    status keeps it. *)
Context {S : Type} `{!KeyValueTxn S} {U A : Type}.
Context (getAccountUrl : bytes -> res U) (visit : U -> A -> res A).

(** The inner loop of [VisitAccounts] over the values of one window. *)
Fixpoint visit_values (vals : list (bytes * bytes)) (a : A) : res A :=
  match vals with
  | [] => Ok a
  | v :: vals =>
      let! u := getAccountUrl v.1 in
      let! a := visit u a in
      visit_values vals a
  end.

(** The outer loop of [VisitAccounts], on a tree that is an argument: that [VisitAccounts] has a
    manager load the tree from the store is not part of it. *)
Fixpoint visit_loop (fuel : nat) (window : Z) (place : bytes) (b : BPT S) (a : A) : res A :=
  match fuel with
  | O => Panic "out of fuel"
  | Datatypes.S f =>
      let! (b, (bptVals, next)) := GetRange place window b in
      if (zlen bptVals =? 0)%Z then Ok a
      else let! a := visit_values bptVals a in visit_loop f window next b a
  end.

Lemma visit_values_app l1 : forall l2 a,
  visit_values (l1 ++ l2) a = res_bind (visit_values l1 a) (visit_values l2).
Proof.
  induction l1 as [|v l1 IH]; intros l2 a; [done|]. simpl.
  destruct (getAccountUrl v.1) as [u| |]; [|done..]. simpl.
  destruct (visit u a) as [a'| |]; [|done..]. simpl. apply IH.
Qed.

Lemma visit_loop_ok `{!KeyValueLaws S} (b : BPT S) m (Hi : bpt_inv b m) window fuel : forall place a,
  (0 < window)%Z -> length place = 32 -> length (from_key place 0 (Root b)) < fuel ->
  (forall kv, kv ∈ from_key place 0 (Root b) -> kv ∈ entries_of (Root b)) ->
  (exists pre, entries_of (Root b) = pre ++ from_key place 0 (Root b)) ->
  visit_loop fuel window place b a = visit_values (from_key place 0 (Root b)) a.
Proof.
  induction fuel as [|fuel IH]; intros place a Hw Hp Hf Hsub [pre Hpre]; [lia|].
  cbn [visit_loop]. rewrite (GetRange_spec b m) by done. cbn [res_bind].
  set (l := from_key place 0 (Root b)) in *. set (n := Z.to_nat window).
  destruct (decide (take n l = [])) as [E|E].
  - rewrite E. simpl. destruct l; [done|]. unfold n in E. by replace (Z.to_nat window) with (Datatypes.S (Z.to_nat window - 1)) in E by lia.
  - rewrite (proj2 (Z.eqb_neq _ _)) by (unfold zlen; destruct (take n l); simpl; [done|lia]).
    destruct (last (take n l)) as [[k h]|] eqn:El; [|by apply last_None in El].
    apply last_Some in El as [l1 El].
    assert (Hin : (k, h) ∈ entries_of (Root b)).
    { apply Hsub. rewrite <- (take_drop n l), El. rewrite !elem_of_app. left. right. left. }
    apply (root_entries b m Hi) in Hin as Hk. destruct (root_from_key b m Hi k h Hk) as [pre2 Hpre2].
    assert (Hdrop : from_key k 0 (Root b) = drop n l).
    { assert (Hnd : NoDup (entries_of (Root b)).*1).
      { rewrite (root_entries_perm b m Hi). apply NoDup_fst_map_to_list. }
      apply NoDup_fmap_1 in Hnd. rewrite Hpre, <- (take_drop n l), El in Hpre2, Hnd.
      rewrite <- !app_assoc, app_assoc in Hpre2, Hnd. simpl in Hpre2, Hnd. symmetry.
      by apply (split_unique (k, h) (pre ++ l1) (drop n l) pre2). }
    assert (Hk32 : length k = 32).
    { rewrite <- (inv_contents _ _ Hi) in Hk. pose proof (inv_wf _ _ Hi) as Hwf.
      inversion Hwf as [? nk h0 lx rx Hlx Hrx Hn Hz Eπ Ex]; subst. rewrite <- Ex in Hk. simpl in Hk.
      apply lookup_union_Some_raw in Hk as [Hk|[_ Hk]];
        [by apply (wf_agree [true] lx k h)|by apply (wf_agree [false] rx k h)]. }
    rewrite <- (take_drop n l) at 2. rewrite visit_values_app.
    destruct (visit_values (take n l) a) as [a'| |]; [|done..]. cbn [res_bind].
    rewrite (IH k); try done; rewrite Hdrop.
    + done.
    + rewrite length_drop. assert (0 < length l) by (destruct l; [by rewrite take_nil in E|simpl; lia]). lia.
    + intros kv Hkv. apply Hsub. rewrite <- (take_drop n l), elem_of_app. by right.
    + exists (pre ++ take n l). by rewrite <- app_assoc, take_drop.
Qed.

End Visit.

(** A range of the state tree: from a key of the tree, [GetRange] returns the
    values that follow it, at most [count] of them; from the first possible key, the
    first [count] values. The values are those of the map, each once. *)
Theorem BPT_GetRange_correct {S} `{KeyValueLaws S} (b : BPT S) (m : gmap bytes bytes) (key : bytes) (count : Z)
  (Hi : bpt_inv b m) (Hk : length key = 32) (Hc : (0 < count)%Z) :
  exists all values next, GetRange key count b = Ok (b, (values, next)) /\ all ≡ₚ map_to_list m /\
    match m !! key with
    | Some h => exists pre suf, all = pre ++ (key, h) :: suf /\ values = take (Z.to_nat count) suf
    | None => key = FirstPossibleBptKey -> values = take (Z.to_nat count) all
    end.
Proof.
  exists (entries_of (Root b)). eexists _, _. split; [by apply (GetRange_spec b m)|].
  split; [by apply root_entries_perm|]. destruct (m !! key) as [h|] eqn:E.
  - destruct (root_from_key b m Hi key h E) as [pre Ep]. by eexists _, _.
  - intros ->. by rewrite (root_from_first b m).
Qed.

(** C40. Paging through the tree: after any history of insertions and updates on an empty tree,
    held in memory, the loop of [VisitAccounts] with windows of any size ends within as many
    windows as there are entries, and runs the visitor on the account of every entry exactly
    once, in the order of the tree, up to the first error, which it returns. *)
Theorem visit_loop_complete {S} `{KeyValueLaws S} {U A} (getAccountUrl : bytes -> res U) (visit : U -> A -> res A)
  (G : BPT S -> list path) (mgr : option S) (ops : list BptOp) (window : Z)
  (HG : dirty_order G) (Hm : match mgr with Some s => kv_writable s | None => True end)
  (Hok : Forall op_ok ops) (Hs : spread (ops_map ops ∅)) (Hfirst : ops_map ops ∅ !! FirstPossibleBptKey = None) (Hw : (0 < window)%Z) :
  exists b all, run_ops G ops (NewBPT mgr) = Ok b /\ all ≡ₚ map_to_list (ops_map ops ∅) /\
    forall fuel a, size (ops_map ops ∅) < fuel ->
      visit_loop getAccountUrl visit fuel window FirstPossibleBptKey b a = visit_values getAccountUrl visit all a.
Proof.
  destruct (run_ops_ok G ops (NewBPT mgr) ∅ HG (NewBPT_inv mgr Hm) Hok Hs) as (b & E & Hi).
  exists b, (entries_of (Root b)). pose proof (root_entries_perm b _ Hi) as Hperm. split; [done|]. split; [done|].
  intros fuel a Hf. rewrite <- length_map_to_list, <- (Permutation_length Hperm) in Hf.
  rewrite <- (root_from_first b _ Hi Hfirst).
  apply (visit_loop_ok _ _ b _ Hi); try done; rewrite (root_from_first b _ Hi Hfirst); try done.
  by exists [].
Qed.

Definition demo_tree : BPT Txn :=
  match run_ops GetDirtyList demo_ops (NewBPT None) with Ok b => b | _ => NewBPT None end.

Lemma demo_tree_inv : bpt_inv demo_tree (ops_map demo_ops ∅).
Proof.
  destruct (run_ops_ok (S:=Txn) GetDirtyList demo_ops (NewBPT None) ∅ GetDirtyList_order
    (NewBPT_inv None I) (demo_ops_ok _ (reflexivity _)) demo_ops_spread) as (b & E & Hi).
  unfold demo_tree. by rewrite E.
Qed.

Lemma BPT_GetRange_correct_witness :
  exists values next, GetRange FirstPossibleBptKey 2 demo_tree = Ok (demo_tree, (values, next)) /\ length values = 2.
Proof.
  destruct (BPT_GetRange_correct demo_tree (ops_map demo_ops ∅) FirstPossibleBptKey 2 demo_tree_inv eq_refl eq_refl)
    as (all & values & next & E & Hp & Hv).
  exists values, next. split; [exact E|].
  replace (ops_map demo_ops ∅ !! FirstPossibleBptKey) with (@None bytes) in Hv by (vm_compute; reflexivity).
  rewrite (Hv eq_refl), length_take. rewrite (Permutation_length Hp).
  replace (length (map_to_list (ops_map demo_ops ∅))) with 3 by (vm_compute; reflexivity). reflexivity.
Defined.

(** The visitor that lists the keys it is called with. *)
Definition list_keys (k : bytes) (acc : list bytes) : res (list bytes) := Ok (acc ++ [k]).

Lemma visit_loop_complete_witness :
  exists b all, run_ops GetDirtyList demo_ops (NewBPT None) = Ok b /\ all ≡ₚ map_to_list (ops_map demo_ops ∅) /\
    visit_loop (S:=Txn) Ok list_keys 4 2 FirstPossibleBptKey b [] = Ok (fst <$> all).
Proof.
  destruct (visit_loop_complete (S:=Txn) Ok list_keys GetDirtyList None demo_ops 2 GetDirtyList_order I (demo_ops_ok _ (reflexivity _)) demo_ops_spread
    ltac:(vm_compute; reflexivity) ltac:(reflexivity)) as (b & all & E & Hp & Hv).
  exists b, all. split; [exact E|]. split; [exact Hp|]. rewrite Hv by (vm_compute; lia).
  change (fst <$> all) with ([] ++ (fst <$> all)). generalize (@nil bytes). clear Hp Hv.
  induction all as [|v all IH]; intros acc; simpl; [by rewrite app_nil_r|].
  rewrite IH. by rewrite <- app_assoc.
Defined.
