(* ===== verification/SortUtil.v ===== *)
(** * Sorted slices: [internal/sortutil/sort.go]

    Binary search, insertion and removal on a slice sorted by a comparison
    function, and the interface [TotalCompare] that a comparison function must
    meet for them to implement a set. *)

From stdpp Require Import sorting.
From S2P Require Import Prelude.
Local Open Scope Z_scope.

(** ** Comparison functions *)

Class TotalCompare {T} (compare : T -> T -> Z) : Prop := {
  compare_antisym x y : compare x y = - compare y x;
  compare_trans x y z : compare x y <= 0 -> compare y z <= 0 -> compare x z <= 0
}.

(** ** The program *)

Section Program.
Context {T : Type}.

(** The loop of Go's [sort.Search] on [[i, j)]. *)
Fixpoint sort_search (fuel : nat) (f : Z -> res bool) (i j : Z) : res Z :=
  match fuel with
  | O => Panic "fuel"
  | S fuel =>
      if i <? j then
        let h := (i + j) / 2 in
        let! b := f h in
        if negb b then sort_search fuel f (h + 1) j else sort_search fuel f i h
      else Ok i
  end.

Definition Search (l : list T) (cmp : T -> Z) : res (Z * bool) :=
  let! i := sort_search (S (length l)) (fun i => let! x := index l i in Ok (0 <=? cmp x)) 0 (zlen l) in
  if zlen l <=? i then Ok (i, false)
  else let! x := index l i in Ok (i, cmp x =? 0).

(** [copy(l[d:], l[s:])] within one slice. *)
Definition copy_within (l : list T) (d s : nat) : list T :=
  let n := Nat.min (length l - d) (length l - s) in
  take d l ++ take n (drop s l) ++ drop (d + n) l.

(** The new slice, the index of the entry the pointer is to, and [added]. *)
Definition BinaryInsert (zero : T) (l : list T) (cmp : T -> Z) : res (list T * Z * bool) :=
  let! (i, found) := Search l cmp in
  if (found : bool) then Ok (l, i, false)
  else
    let l := l ++ [zero] in
    if zlen l <=? i then let! _ := index l i in Ok (l, i, true)
    else
      let! _ := slice_from l (i + 1) in
      let l := copy_within l (Z.to_nat (i + 1)) (Z.to_nat i) in
      Ok (<[Z.to_nat i := zero]> l, i, true).

(** [*ptr = v] for the pointer [BinaryInsert] returned. *)
Definition store_at (l : list T) (i : Z) (v : T) : list T := <[Z.to_nat i := v]> l.

Definition RemoveAt (l : list T) (i : Z) : res (list T) :=
  let! _ := slice_from l (i + 1) in
  let! _ := slice_from l i in
  let l := copy_within l (Z.to_nat i) (Z.to_nat (i + 1)) in
  slice_to l (zlen l - 1).

End Program.

(** ** The search *)

Section SearchFacts.
Context {T : Type}.
Implicit Types (l : list T) (cmp : T -> Z).

(** What [Search] documents of its input: [cmp >= 0] on a suffix. *)
Definition ge_mono cmp l : Prop :=
  forall i j x y, (i <= j)%nat -> l !! i = Some x -> l !! j = Some y -> 0 <= cmp x -> 0 <= cmp y.

(** The first index with [cmp >= 0]. *)
Definition first_ge cmp l (k : nat) : Prop :=
  (k <= length l)%nat /\
  (forall j x, (j < k)%nat -> l !! j = Some x -> cmp x < 0) /\
  (forall x, l !! k = Some x -> 0 <= cmp x).

Lemma first_ge_iff l cmp k j x : ge_mono cmp l -> first_ge cmp l k -> l !! j = Some x -> 0 <= cmp x <-> (k <= j)%nat.
Proof.
  intros Hm (Hk & Hlo & Hhi) Hx. split; intros Hc.
  - destruct (decide (j < k)%nat) as [Hj|]; [|lia]. specialize (Hlo j x Hj Hx). lia.
  - destruct (lookup_lt_is_Some_2 l k) as [y Hy]; [apply lookup_lt_Some in Hx; lia|]. eapply (Hm k j); eauto.
Qed.

Lemma sort_search_ok l cmp fuel i j :
  ge_mono cmp l -> (i <= j <= length l)%nat -> (j - i < fuel)%nat ->
  (forall q x, (q < i)%nat -> l !! q = Some x -> cmp x < 0) ->
  (forall x, l !! j = Some x -> 0 <= cmp x) ->
  exists k, first_ge cmp l k /\
    sort_search fuel (fun i => let! x := index l i in Ok (0 <=? cmp x)) (Z.of_nat i) (Z.of_nat j)
    = Ok (Z.of_nat k).
Proof.
  intros Hm. revert i j. induction fuel as [|fuel IH]; [lia|]. intros i j Hij Hf Hlo Hhi. simpl.
  case_match eqn:E; last first.
  { assert (i = j) as -> by lia. exists j. split; [|done]. split; [lia|]. eauto. }
  assert (i < j)%nat by lia.
  assert (Hh : (Z.of_nat i + Z.of_nat j) / 2 = Z.of_nat ((i + j) / 2)%nat).
  { rewrite <- Nat2Z.inj_add. symmetry. apply (Nat2Z.inj_div _ 2). }
  rewrite Hh. set (h := ((i + j) / 2)%nat) in *.
  assert (i <= h < j)%nat by (subst h; pose proof (Nat.div_mod_eq (i + j) 2);
    pose proof (Nat.mod_upper_bound (i + j) 2); lia).
  destruct (lookup_lt_is_Some_2 l h) as [x Hx]; [lia|].
  rewrite (index_ok _ _ _ Hx). simpl. destruct (0 <=? cmp x) eqn:Ex; simpl.
  - apply (IH i h); [lia|lia|done|]. intros y Hy. simplify_eq. lia.
  - replace (Z.of_nat h + 1) with (Z.of_nat (S h)) by lia.
    apply (IH (S h) j); [lia|lia| |done]. intros q y Hq Hy.
    destruct (Z.lt_ge_cases (cmp y) 0) as [|Hge]; [done|].
    pose proof (Hm q h y x ltac:(lia) Hy Hx Hge). lia.
Qed.

Lemma Search_ok l cmp :
  ge_mono cmp l ->
  exists k, first_ge cmp l k /\
    Search l cmp = Ok (Z.of_nat k, match l !! k with Some x => cmp x =? 0 | None => false end).
Proof.
  intros Hm. destruct (sort_search_ok l cmp (S (length l)) 0 (length l)) as (k & Hk & E);
    [done|lia|lia|lia| |].
  { intros x Hx. apply lookup_lt_Some in Hx. lia. }
  exists k. split; [done|]. unfold Search, zlen. change (Z.of_nat 0) with 0 in E. rewrite E. cbn [res_bind].
  destruct (Z.leb_spec (Z.of_nat (length l)) (Z.of_nat k)).
  - by rewrite lookup_ge_None_2 by lia.
  - destruct (lookup_lt_is_Some_2 l k) as [x Hx]; [lia|].
    rewrite (index_ok _ _ _ Hx), Hx. done.
Qed.

(** Whatever the predicate, the result is a place where it changes. *)
Lemma sort_search_edge fuel f i j k :
  sort_search fuel f i j = Ok k -> i <= j -> i <= k <= j /\ (k = i \/ f (k - 1) = Ok false) /\ (k = j \/ f k = Ok true).
Proof.
  revert i j. induction fuel as [|fuel IH]; intros i j E Hij; [done|]. cbn [sort_search] in E. destruct (Z.ltb_spec i j) as [Hlt|Hge].
  - assert (Hh : i <= (i + j) / 2 < j) by (split; [apply Z.div_le_lower_bound|apply Z.div_lt_upper_bound]; lia). set (h := (i + j) / 2) in *.
    destruct (f h) as [b| |] eqn:Ef; cbn [res_bind] in E; [|done|done]. destruct b; cbn [negb] in E.
    + destruct (IH i h E ltac:(lia)) as (H1 & H2 & H3). split; [lia|]. split; [done|]. right. destruct H3 as [->|?]; [done|done].
    + destruct (IH (h + 1) j E ltac:(lia)) as (H1 & H2 & H3). split; [lia|]. split; [|done]. right. destruct H2 as [->|?]; [|done]. by replace (h + 1 - 1) with h by lia.
  - injection E as <-. split; [lia|]. split; [by left|left; lia].
Qed.

(** The search looks at the comparison on the entries only. *)
Lemma sort_search_ext fuel f g i j :
  (forall h, f h = g h) -> sort_search fuel f i j = sort_search fuel g i j.
Proof.
  intros H. revert i j. induction fuel as [|fuel IH]; intros i j; [done|]. cbn [sort_search]. rewrite H.
  case_match; [|done]. destruct (g ((i + j) / 2)) as [b| |]; [|done|done]. simpl. by case_match.
Qed.

Lemma Search_ext l cmp cmp' :
  (forall x, x ∈ l -> cmp x = cmp' x) -> Search l cmp = Search l cmp'.
Proof.
  intros H. unfold Search.
  assert (He : forall i x, index l i = Ok x -> cmp x = cmp' x).
  { intros i x. unfold index. case_match; [done|]. case_match eqn:E; [|done]. intros ?. simplify_eq.
    apply H. by eapply list_elem_of_lookup_2. }
  rewrite (sort_search_ext _ _ (fun i => let! x := index l i in Ok (0 <=? cmp' x))).
  - destruct (sort_search _ _ _ _) as [i| |]; [|done|done]. cbn [res_bind]. case_match; [done|].
    destruct (index l i) eqn:E; [|done|done]. simpl. by rewrite (He _ _ E).
  - intros h. destruct (index l h) eqn:E; [|done|done]. simpl. by rewrite (He _ _ E).
Qed.

Lemma BinaryInsert_ext zero l cmp cmp' :
  (forall x, x ∈ l -> cmp x = cmp' x) -> BinaryInsert zero l cmp = BinaryInsert zero l cmp'.
Proof. intros H. unfold BinaryInsert. by rewrite (Search_ext l cmp cmp' H). Qed.

Lemma copy_insert l (v w : T) k :
  (k <= length l)%nat ->
  <[k := v]> (copy_within (l ++ [w]) (k + 1) k) = take k l ++ v :: drop k l.
Proof.
  intros Hk. unfold copy_within. rewrite length_app. simpl.
  rewrite Nat.min_l by lia.
  rewrite (drop_ge (l ++ [w]) (k + 1 + _)) by (rewrite length_app; simpl; lia). rewrite app_nil_r.
  rewrite (drop_app_le l [w] k) by lia.
  replace (length l + 1 - (k + 1))%nat with (length (drop k l)) by (rewrite length_drop; lia).
  rewrite take_app_length.
  rewrite insert_app_l by (rewrite length_take, length_app; simpl; lia).
  assert (Ht : <[k:=v]> (take (k + 1) (l ++ [w])) = take k l ++ [v]).
  { destruct (lookup_lt_is_Some_2 (l ++ [w]) k) as [x Hx]; [rewrite length_app; simpl; lia|].
    rewrite Nat.add_1_r. rewrite (take_S_r _ _ x) by done. rewrite take_app_le by done.
    rewrite insert_app_r_alt by (rewrite length_take; lia).
    by rewrite length_take, Nat.min_l, Nat.sub_diag by lia. }
  rewrite Ht, <- app_assoc. done.
Qed.

Lemma RemoveAt_ok l k :
  (k < length l)%nat -> RemoveAt l (Z.of_nat k) = Ok (take k l ++ drop (S k) l).
Proof.
  intros Hk. unfold RemoveAt. rewrite !slice_from_ok by (unfold zlen; lia). cbn [res_bind].
  rewrite Nat2Z.id. replace (Z.to_nat (Z.of_nat k + 1)) with (S k) by lia.
  unfold copy_within. rewrite Nat.min_r by lia.
  rewrite (take_ge (drop (S k) l)) by (rewrite length_drop; lia).
  set (r := drop (k + (length l - S k)) l).
  assert (length r = 1%nat) by (subst r; rewrite length_drop; lia).
  rewrite app_assoc. set (p := take k l ++ drop (S k) l).
  replace (zlen (p ++ r) - 1) with (zlen p) by (rewrite zlen_app; unfold zlen; lia).
  apply slice_to_app.
Qed.

(** Inserting keeps the entry when it is found and opens a slot at the first
    index with [cmp >= 0] otherwise; the caller's store fills the slot. *)
Lemma BinaryInsert_ok zero l cmp (v : T) :
  ge_mono cmp l ->
  exists k, first_ge cmp l k /\
    match l !! k with
    | Some x =>
        if cmp x =? 0 then BinaryInsert zero l cmp = Ok (l, Z.of_nat k, false)
        else exists l', BinaryInsert zero l cmp = Ok (l', Z.of_nat k, true) /\
               store_at l' (Z.of_nat k) v = take k l ++ v :: drop k l
    | None => exists l', BinaryInsert zero l cmp = Ok (l', Z.of_nat k, true) /\
               store_at l' (Z.of_nat k) v = take k l ++ v :: drop k l
    end.
Proof.
  intros Hm. destruct (Search_ok l cmp Hm) as (k & Hk & E). exists k. split; [done|].
  assert (Hins : exists l', (let l0 := l ++ [zero] in
    if zlen l0 <=? Z.of_nat k then let! _ := index l0 (Z.of_nat k) in Ok (l0, Z.of_nat k, true)
    else let! _ := slice_from l0 (Z.of_nat k + 1) in
      let l1 := copy_within l0 (Z.to_nat (Z.of_nat k + 1)) (Z.to_nat (Z.of_nat k)) in
      Ok (<[Z.to_nat (Z.of_nat k) := zero]> l1, Z.of_nat k, true)) = Ok (l', Z.of_nat k, true) /\
    store_at l' (Z.of_nat k) v = take k l ++ v :: drop k l).
  { destruct Hk as [Hk _]. cbn zeta. rewrite zlen_app. unfold zlen at 1. simpl length.
    destruct (Z.leb_spec (Z.of_nat (length l) + zlen [zero]) (Z.of_nat k)); [unfold zlen in *; simpl in *; lia|].
    rewrite slice_from_ok by (rewrite zlen_app; unfold zlen in *; simpl in *; lia). cbn [res_bind].
    eexists. split; [done|]. unfold store_at. rewrite Nat2Z.id, list_insert_insert_eq.
    replace (Z.to_nat (Z.of_nat k + 1)) with (k + 1)%nat by lia. by apply copy_insert. }
  unfold BinaryInsert. rewrite E. cbn [res_bind].
  destruct (l !! k) as [x|] eqn:Hx; [destruct (cmp x =? 0); [done|]|]; exact Hins.
Qed.
End SearchFacts.

(** ** Sorted slices as sets *)

Section Sorted.
Context {T : Type} (compare : T -> T -> Z) `{!TotalCompare compare}.
Implicit Types (l : list T).

Definition lt_ (x y : T) : Prop := compare x y < 0.
Definition sorted l : Prop := StronglySorted lt_ l.

(** Membership up to the comparison. *)
Definition member (k : T) l : Prop := exists x, x ∈ l /\ compare x k = 0.

Lemma compare_flip x y : compare x y < 0 <-> 0 < compare y x.
Proof. rewrite (compare_antisym x y). lia. Qed.

Lemma compare_refl x : compare x x = 0.
Proof. pose proof (compare_antisym x x). lia. Qed.

Lemma compare_le_lt x y z : compare x y <= 0 -> compare y z < 0 -> compare x z < 0.
Proof.
  intros H1 H2. destruct (Z.lt_ge_cases (compare x z) 0) as [|H3]; [done|].
  rewrite compare_antisym in H3. pose proof (compare_trans (compare:=compare) z x y ltac:(lia) H1) as H4.
  rewrite compare_antisym in H4. lia.
Qed.

Lemma compare_lt_le x y z : compare x y < 0 -> compare y z <= 0 -> compare x z < 0.
Proof.
  intros H1 H2. destruct (Z.lt_ge_cases (compare x z) 0) as [|H3]; [done|].
  rewrite compare_antisym in H3. pose proof (compare_trans (compare:=compare) y z x H2 ltac:(lia)) as H4.
  rewrite compare_antisym in H4. lia.
Qed.

#[global] Instance lt_transitive : Transitive lt_.
Proof. intros x y z H1 H2. unfold lt_ in *. eapply compare_lt_le; [done|lia]. Qed.

(** Equal keys compare alike: the setoid of the comparison. *)
Definition equiv_ (x y : T) : Prop := compare x y = 0.

#[global] Instance equiv_equivalence : Equivalence equiv_.
Proof.
  split.
  - intros x. apply compare_refl.
  - intros x y H. unfold equiv_ in *. rewrite compare_antisym. lia.
  - intros x y z H1 H2. unfold equiv_ in *.
    pose proof (compare_trans (compare:=compare) x y z ltac:(lia) ltac:(lia)).
    rewrite (compare_antisym x y) in H1. rewrite (compare_antisym y z) in H2.
    pose proof (compare_trans (compare:=compare) z y x ltac:(lia) ltac:(lia)) as H3.
    rewrite (compare_antisym z x) in H3. lia.
Qed.

#[global] Instance lt_proper : Proper (equiv_ ==> equiv_ ==> iff) lt_.
Proof.
  assert (forall x x' y y', equiv_ x x' -> equiv_ y y' -> lt_ x y -> lt_ x' y') as H.
  { intros x x' y y' Hx Hy Hl. unfold equiv_, lt_ in *. rewrite compare_antisym in Hx.
    eapply compare_lt_le; [eapply compare_le_lt; [|exact Hl]; lia|lia]. }
  intros x x' Hx y y' Hy. split; apply H; try done; by symmetry.
Qed.

#[global] Instance member_proper l : Proper (equiv_ ==> iff) (fun k => member k l).
Proof.
  assert (forall k k', equiv_ k k' -> member k l -> member k' l) as H.
  { intros k k' Hk (x & Hx & Hc). exists x. split; [done|]. change (equiv_ x k'). by transitivity k. }
  intros k k' Hk. split; apply H; [done|by symmetry].
Qed.

Lemma sorted_lookup l i j x y :
  sorted l -> (i < j)%nat -> l !! i = Some x -> l !! j = Some y -> compare x y < 0.
Proof.
  intros Hs. revert i j. induction Hs as [|a l Hs IH Ha]; [done|].
  intros [|i] [|j] Hij Hx Hy; simplify_eq/=; try lia.
  - rewrite Forall_forall in Ha. apply Ha. by eapply list_elem_of_lookup_2.
  - eapply (IH i j); eauto; lia.
Qed.

Lemma sorted_ge_mono l key : sorted l -> ge_mono (fun x => compare x key) l.
Proof.
  intros Hs i j x y Hij Hx Hy H. destruct (decide (i = j)) as [->|]; [by simplify_eq|].
  pose proof (sorted_lookup l i j x y Hs ltac:(lia) Hx Hy) as Hl.
  destruct (Z.lt_ge_cases (compare y key) 0) as [|?]; [|done].
  pose proof (compare_lt_le x y key Hl ltac:(lia)). lia.
Qed.

(** The entries before the first index are below the key, those after above. *)
Lemma first_ge_split l key k :
  sorted l -> first_ge (fun x => compare x key) l k ->
  (forall x, x ∈ take k l -> compare x key < 0) /\
  (forall x, x ∈ drop (S k) l -> 0 < compare x key).
Proof.
  intros Hs (Hk & Hlo & Hhi). split.
  - intros x (i & Hx)%list_elem_of_lookup. destruct (decide (i < k)%nat) as [Hik|Hik].
    + rewrite lookup_take in Hx by lia. case_decide; [|done]. eauto.
    + pose proof (lookup_lt_Some _ _ _ Hx). rewrite length_take in *. lia.
  - intros x (i & Hx)%list_elem_of_lookup. rewrite lookup_drop in Hx.
    pose proof (lookup_lt_Some _ _ _ Hx). destruct (lookup_lt_is_Some_2 l k) as [y Hy]; [lia|].
    pose proof (Hhi y Hy). pose proof (sorted_lookup l k (S k + i) y x Hs ltac:(lia) Hy Hx).
    apply compare_flip. eapply compare_le_lt; [|done]. rewrite compare_antisym. lia.
Qed.

Lemma found_member l key k :
  sorted l -> first_ge (fun x => compare x key) l k ->
  match l !! k with Some x => compare x key =? 0 | None => false end = true <-> member key l.
Proof.
  intros Hs Hk. pose proof (first_ge_split l key k Hs Hk) as [Hlo Hhi]. split.
  - destruct (l !! k) as [x|] eqn:Hx; [|done]. intros H. exists x.
    split; [by eapply list_elem_of_lookup_2|lia].
  - intros (x & (i & Hx)%list_elem_of_lookup & Hc).
    destruct (decide (i < k)%nat).
    { assert (compare x key < 0); [|lia]. apply Hlo, list_elem_of_lookup. exists i. rewrite lookup_take. by case_decide. }
    destruct (decide (k < i)%nat).
    { assert (0 < compare x key); [|lia]. apply Hhi, list_elem_of_lookup.
      exists (i - S k)%nat. rewrite lookup_drop. by replace (S k + (i - S k))%nat with i by lia. }
    assert (i = k) as -> by lia. rewrite Hx. lia.
Qed.

Lemma first_ge_fresh l key k x :
  sorted l -> first_ge (fun x => compare x key) l k -> ~ member key l ->
  x ∈ drop k l -> 0 < compare x key.
Proof.
  intros Hs Hk Hnm Hx. pose proof (first_ge_split l key k Hs Hk) as [_ Hhi].
  destruct (l !! k) as [y|] eqn:Hy.
  - rewrite (drop_S _ y) in Hx by done. apply elem_of_cons in Hx as [->|Hx]; [|by apply Hhi].
    destruct Hk as (_ & _ & Hge). pose proof (Hge y Hy).
    destruct (decide (compare y key = 0)) as [E|]; [|lia].
    destruct Hnm. exists y. split; [by eapply list_elem_of_lookup_2|done].
  - rewrite drop_ge in Hx by (by apply lookup_ge_None). by apply not_elem_of_nil in Hx.
Qed.

Lemma insert_sorted l v k :
  sorted l -> first_ge (fun x => compare x v) l k -> ~ member v l ->
  sorted (take k l ++ v :: drop k l).
Proof.
  intros Hs Hk Hnm. pose proof (first_ge_split l v k Hs Hk) as [Hlo _].
  assert (Hhi : forall x, x ∈ drop k l -> lt_ v x).
  { intros x Hx. apply compare_flip. by eapply first_ge_fresh. }
  unfold sorted in *. rewrite <- (take_drop k l) in Hs. rewrite StronglySorted_app in Hs.
  destruct Hs as (H12 & H1 & H2). rewrite StronglySorted_app, StronglySorted_cons, Forall_forall.
  split; [|done]. intros x y Hx [->|Hy]%elem_of_cons; [by apply Hlo|eauto].
Qed.

Lemma member_app q l1 l2 : member q (l1 ++ l2) <-> member q l1 \/ member q l2.
Proof. unfold member. setoid_rewrite elem_of_app. naive_solver. Qed.

Lemma member_cons q x l : member q (x :: l) <-> compare x q = 0 \/ member q l.
Proof. unfold member. setoid_rewrite elem_of_cons. naive_solver. Qed.

Lemma insert_member l v k q :
  member q (take k l ++ v :: drop k l) <-> compare v q = 0 \/ member q l.
Proof.
  rewrite member_app, member_cons. rewrite <- (take_drop k l) at 3. rewrite member_app. tauto.
Qed.

Lemma remove_sorted l k : sorted l -> sorted (take k l ++ drop (S k) l).
Proof.
  unfold sorted. destruct (l !! k) as [x|] eqn:Hx; last first.
  { apply lookup_ge_None in Hx. rewrite take_ge, drop_ge by lia. by rewrite app_nil_r. }
  intros Hs. rewrite <- (take_drop_middle l k x Hx) in Hs.
  rewrite StronglySorted_app, StronglySorted_cons in *. destruct Hs as (H12 & H1 & _ & H2).
  split; [|done]. intros a b Ha Hb. apply H12; [done|by right].
Qed.

Lemma remove_member l k x key q :
  sorted l -> l !! k = Some x -> compare x key = 0 ->
  member q (take k l ++ drop (S k) l) <-> member q l /\ compare key q <> 0.
Proof.
  intros Hs Hx Hc.
  assert (Hk : first_ge (fun y => compare y key) l k).
  { pose proof (lookup_lt_Some _ _ _ Hx). split; [lia|]. split.
    - intros j y Hj Hy. eapply compare_lt_le; [by eapply sorted_lookup|lia].
    - intros y Hy. simplify_eq. lia. }
  pose proof (first_ge_split l key k Hs Hk) as [Hlo Hhi].
  rewrite <- (take_drop_middle l k x Hx) at 3. rewrite !member_app, member_cons.
  assert (Hno : compare key q = 0 -> member q (take k l) \/ member q (drop (S k) l) -> False).
  { intros Hq [(y & Hy & E)|(y & Hy & E)]; [pose proof (Hlo y Hy)|pose proof (Hhi y Hy)].
    all: assert (equiv_ y key) as Ey by (transitivity q; [done|by symmetry]); unfold equiv_ in Ey; lia. }
  assert (Hxq : compare x q = 0 -> compare key q = 0).
  { intros E. change (equiv_ key q). transitivity x; [by symmetry|done]. }
  tauto.
Qed.

(** *** Add and remove by key

    The two ways the accounts of the protocol use [BinaryInsert] and
    [RemoveAt]. *)

Definition sorted_add (zero v : T) l : res (list T * Z * bool) :=
  let! (l, i, new) := BinaryInsert zero l (fun x => compare x v) in
  Ok (if (new : bool) then store_at l i v else l, i, new).

Definition sorted_remove (key : T) l : res (list T * bool) :=
  let! (i, found) := Search l (fun x => compare x key) in
  if (found : bool) then let! l := RemoveAt l i in Ok (l, true) else Ok (l, false).

Lemma sorted_search l key :
  sorted l -> exists i b, Search l (fun x => compare x key) = Ok (i, b) /\
    (b = true <-> member key l) /\
    (b = true -> exists x, l !! Z.to_nat i = Some x /\ 0 <= i /\ compare x key = 0).
Proof.
  intros Hs. destruct (Search_ok l (fun x => compare x key)) as (k & Hk & E); [by apply sorted_ge_mono|].
  eexists _, _. split; [exact E|]. split; [by apply found_member|].
  rewrite Nat2Z.id. destruct (l !! k) as [x|]; [|done]. intros H. exists x. split; [done|lia].
Qed.

Lemma sorted_add_ok zero v l :
  sorted l -> exists l' i new, sorted_add zero v l = Ok (l', i, new) /\ sorted l' /\
    (new = false <-> member v l) /\ (new = false -> l' = l) /\
    (exists x, l' !! Z.to_nat i = Some x /\ compare x v = 0 /\ (new = true -> x = v)) /\
    forall q, member q l' <-> compare v q = 0 \/ member q l.
Proof.
  intros Hs. destruct (BinaryInsert_ok zero l (fun x => compare x v) v) as (k & Hk & H);
    [by apply sorted_ge_mono|].
  pose proof (found_member l v k Hs Hk) as Hf.
  assert (Hins : ~ member v l ->
    (exists l', BinaryInsert zero l (fun x => compare x v) = Ok (l', Z.of_nat k, true) /\
       store_at l' (Z.of_nat k) v = take k l ++ v :: drop k l) ->
    exists l' i new, sorted_add zero v l = Ok (l', i, new) /\ sorted l' /\
      (new = false <-> member v l) /\ (new = false -> l' = l) /\
      (exists x, l' !! Z.to_nat i = Some x /\ compare x v = 0 /\ (new = true -> x = v)) /\
      forall q, member q l' <-> compare v q = 0 \/ member q l).
  { intros Hnm (l' & E & Est). unfold sorted_add. rewrite E. cbn [res_bind].
    eexists _, _, true. split; [done|]. rewrite Est. split; [by apply insert_sorted|].
    split; [naive_solver|]. split; [done|]. split; [|intros q; apply insert_member].
    exists v. destruct Hk as [Hk _]. rewrite Nat2Z.id. rewrite lookup_app_r by (rewrite length_take; lia).
    rewrite length_take, Nat.min_l, Nat.sub_diag by lia. split; [done|]. split; [apply compare_refl|done]. }
  destruct (l !! k) as [x|] eqn:Hx; [destruct (compare x v =? 0) eqn:Hc|].
  - unfold sorted_add. rewrite H. cbn [res_bind]. eexists _, _, false. split; [done|].
    split; [done|]. split; [naive_solver|]. split; [done|]. split.
    { exists x. rewrite Nat2Z.id. split; [done|]. split; [lia|done]. }
    intros q. split; [tauto|]. intros [Hq|]; [|done]. exists x. split; [by eapply list_elem_of_lookup_2|].
    change (equiv_ x q). transitivity v; [unfold equiv_; lia|done].
  - apply Hins; [|exact H]. rewrite <- Hf. done.
  - apply Hins; [|exact H]. rewrite <- Hf. done.
Qed.

Lemma sorted_remove_ok key l :
  sorted l -> exists l' b, sorted_remove key l = Ok (l', b) /\ sorted l' /\
    (b = true <-> member key l) /\
    forall q, member q l' <-> member q l /\ compare key q <> 0.
Proof.
  intros Hs. destruct (sorted_search l key Hs) as (i & b & E & Hm & Hx).
  unfold sorted_remove. rewrite E. cbn [res_bind]. destruct b.
  - destruct (Hx eq_refl) as (x & Hl & Hi & Hc). pose proof (lookup_lt_Some _ _ _ Hl).
    rewrite <- (Z2Nat.id i) by done. rewrite RemoveAt_ok by done. cbn [res_bind].
    eexists _, true. split; [done|]. split; [by apply remove_sorted|]. split; [done|].
    intros q. by eapply remove_member.
  - eexists _, false. split; [done|]. split; [done|]. split; [done|]. intros q. split; [|tauto].
    intros Hq. split; [done|]. intros Hc. destruct Hm as [_ Hm]. discriminate Hm.
    destruct Hq as (x & Hx' & Hxq). exists x. split; [done|].
    change (equiv_ x key). transitivity q; [done|by symmetry].
Qed.
End Sorted.

Arguments sorted {T} compare l.
Arguments member {T} compare k l.
Arguments equiv_ {T} compare x y.
Arguments sorted_add {T} compare zero v l.
Arguments sorted_remove {T} compare key l.

(** ** [bytes.Compare] is a comparison *)

Lemma bytes_compare_antisym a b : bytes_compare a b = - bytes_compare b a.
Proof.
  revert b. induction a as [|x a IH]; intros [|y b]; simpl; try done.
  repeat case_match; try lia. apply IH.
Qed.

Lemma bytes_compare_trans a b c :
  bytes_compare a b <= 0 -> bytes_compare b c <= 0 -> bytes_compare a c <= 0.
Proof.
  revert b c. induction a as [|x a IH]; intros [|y b] [|z c]; simpl; try lia.
  intros H1 H2. repeat case_match; try lia. eauto.
Qed.

#[global] Instance bytes_compare_total : TotalCompare bytes_compare.
Proof. split; [apply bytes_compare_antisym|apply bytes_compare_trans]. Qed.

Lemma bytes_compare_eq a b : bytes_compare a b = 0 <-> a = b.
Proof.
  split; [|intros ->; apply (compare_refl bytes_compare)].
  revert b. induction a as [|x a IH]; intros [|y b]; simpl; try done.
  repeat case_match; try lia. intros H'. f_equal; [apply b2z_inj; lia|by apply IH].
Qed.

(** A comparison of keys compares the values they are the keys of. *)
Lemma compare_on {A B} (f : A -> B) (compare : B -> B -> Z) `{!TotalCompare compare} :
  TotalCompare (fun x y => compare (f x) (f y)).
Proof. split; [intros; apply compare_antisym|intros x y z; apply compare_trans]. Qed.

(** Comparing by one key and then by another. *)
Definition compare_lex {T} (c1 c2 : T -> T -> Z) (x y : T) : Z :=
  if c1 x y =? 0 then c2 x y else c1 x y.

#[global] Instance compare_lex_total {T} (c1 c2 : T -> T -> Z) `{!TotalCompare c1, !TotalCompare c2} :
  TotalCompare (compare_lex c1 c2).
Proof.
  unfold compare_lex. split.
  - intros x y. pose proof (compare_antisym (compare:=c1) x y). pose proof (compare_antisym (compare:=c2) x y).
    repeat case_match; lia.
  - intros x y z.
    destruct (Z.eqb_spec (c1 x y) 0) as [E1|E1], (Z.eqb_spec (c1 y z) 0) as [E2|E2].
    + assert (equiv_ c1 x z) as E by (by transitivity y). unfold equiv_ in E. rewrite E. apply compare_trans.
    + intros _ H. pose proof (compare_le_lt c1 x y z ltac:(lia) ltac:(lia)). case_match; lia.
    + intros H _. pose proof (compare_lt_le c1 x y z ltac:(lia) ltac:(lia)). case_match; lia.
    + intros H1 H2. pose proof (compare_lt_le c1 x y z ltac:(lia) ltac:(lia)). case_match; lia.
Qed.

(** A missing value comes first. *)
Definition compare_option {T} (c : T -> T -> Z) (x y : option T) : Z :=
  match x, y with
  | None, None => 0
  | None, Some _ => -1
  | Some _, None => 1
  | Some x, Some y => c x y
  end.

#[global] Instance compare_option_total {T} (c : T -> T -> Z) `{!TotalCompare c} :
  TotalCompare (compare_option c).
Proof.
  split.
  - intros [x|] [y|]; simpl; try done. apply compare_antisym.
  - intros [x|] [y|] [z|]; simpl; try lia. apply compare_trans.
Qed.

(** Searching by the first key of a slice sorted by it. *)
Lemma search_major {T K} (f : T -> K) (c : K -> K -> Z) `{!TotalCompare c} (l : list T) (h : K) :
  (forall i j x y, (i < j)%nat -> l !! i = Some x -> l !! j = Some y -> c (f x) (f y) <= 0) ->
  exists i b, Search l (fun x => c (f x) h) = Ok (i, b) /\
    (b = true -> exists x, l !! Z.to_nat i = Some x /\ 0 <= i /\ c (f x) h = 0) /\
    (b = false -> forall x, x ∈ l -> c (f x) h <> 0).
Proof.
  intros Hlt. destruct (Search_ok l (fun x => c (f x) h)) as (k & (Hk & Hlo & Hhi) & E).
  { intros i j x y Hij Hx Hy H. destruct (decide (i = j)) as [->|]; [by simplify_eq|].
    pose proof (Hlt i j x y ltac:(lia) Hx Hy) as Hle.
    destruct (Z.lt_ge_cases (c (f y) h) 0) as [Hy0|]; [|done].
    pose proof (compare_le_lt c _ _ _ Hle Hy0). lia. }
  eexists _, _. split; [exact E|]. rewrite Nat2Z.id. split.
  - destruct (l !! k) as [x|]; [|done]. intros H. exists x. split; [done|lia].
  - intros Hb x (j & Hx)%list_elem_of_lookup H0. pose proof (lookup_lt_Some _ _ _ Hx).
    destruct (decide (j < k)%nat) as [Hjk|Hjk].
    { pose proof (Hlo j x Hjk Hx) as Hneg. simpl in Hneg. lia. }
    destruct (lookup_lt_is_Some_2 l k) as [y Hy]; [lia|]. rewrite Hy in Hb.
    pose proof (Hhi y Hy) as Hge. simpl in Hge. destruct (decide (k = j)) as [->|]; [simplify_eq; lia|].
    pose proof (Hlt k j y x ltac:(lia) Hy Hx). pose proof (compare_trans (compare:=c) (f y) (f x) h). lia.
Qed.
