(* ===== verification/Url.v ===== *)
(** * Accumulate URLs and transaction identifiers: [pkg/url/url.go], [txid.go] and
      the lite addresses of [protocol/protocol.go]

    A Go string is its [bytes].  Case is the case of ASCII letters: the theorems
    about case carry [url_ok], which restricts the components to ASCII.  [Parse] is in
    [UrlParse]. *)

From S2P Require Import Prelude Sha256 Encoding.
Local Open Scope Z_scope.

(** ** What the package uses of Go's [strings], [encoding/hex] and [net/url] *)

Abbreviation str := String.list_byte_of_string.

Definition slash : byte := Byte.x2f.
Definition colon : byte := Byte.x3a.
Definition at_sign : byte := Byte.x40.

Definition is_upper (b : byte) : bool := (65 <=? b2z b) && (b2z b <=? 90).
Definition lower (b : byte) : byte := if is_upper b then z2b (b2z b + 32) else b.
Definition ToLower (s : bytes) : bytes := lower <$> s.

(** Two bytes under [strings.EqualFold]: equal, or the smaller is an upper case
    letter and the larger the same letter in lower case. *)
Definition fold_eq (a b : byte) : bool :=
  let lo := Z.min (b2z a) (b2z b) in
  let hi := Z.max (b2z a) (b2z b) in
  (hi =? lo) || ((65 <=? lo) && (lo <=? 90) && (hi =? lo + 32)).

Fixpoint EqualFold (s t : bytes) : bool :=
  match s, t with
  | [], [] => true
  | a :: s', b :: t' => fold_eq a b && EqualFold s' t'
  | _, _ => false
  end.

(** [strings.IndexByte]. *)
Fixpoint IndexByte (s : bytes) (c : byte) : Z :=
  match s with
  | [] => -1
  | b :: s' =>
      if bool_decide (b = c) then 0
      else let i := IndexByte s' c in if i <? 0 then -1 else i + 1
  end.

(** [strings.LastIndex] of a one-byte string. *)
Definition LastIndexByte (s : bytes) (c : byte) : Z :=
  let i := IndexByte (rev s) c in if i <? 0 then -1 else zlen s - 1 - i.

Fixpoint TrimLeft (s : bytes) (c : byte) : bytes :=
  match s with
  | b :: s' => if bool_decide (b = c) then TrimLeft s' c else s
  | [] => []
  end.
Definition TrimRight (s : bytes) (c : byte) : bytes := rev (TrimLeft (rev s) c).
Definition Trim (s : bytes) (c : byte) : bytes := TrimRight (TrimLeft s c) c.

(** [strings.TrimSuffix] of a one-byte suffix. *)
Definition TrimSuffix (s : bytes) (c : byte) : bytes :=
  match rev s with
  | b :: r => if bool_decide (b = c) then rev r else s
  | [] => s
  end.

Definition hex_digit (alphabet : bytes) (z : Z) : byte := nth (Z.to_nat z) alphabet Byte.x00.
Definition lower_hex : bytes := str "0123456789abcdef".
Definition upper_hex : bytes := str "0123456789ABCDEF".
Definition hex_byte (alphabet : bytes) (b : byte) : bytes :=
  [hex_digit alphabet (b2z b / 16); hex_digit alphabet (b2z b mod 16)].

Definition hex_EncodeToString (s : bytes) : bytes := s ≫= hex_byte lower_hex.

Definition fromHexChar (c : byte) : option Z :=
  let z := b2z c in
  if (48 <=? z) && (z <=? 57) then Some (z - 48)
  else if (97 <=? z) && (z <=? 102) then Some (z - 97 + 10)
  else if (65 <=? z) && (z <=? 70) then Some (z - 65 + 10)
  else None.

(** [hex.DecodeString]; a bad digit and an odd length are errors. *)
Fixpoint hex_DecodeString (s : bytes) : res bytes :=
  match s with
  | [] => Ok []
  | [_] => errorf "encoding/hex: odd length hex string"
  | a :: b :: s' =>
      match fromHexChar a, fromHexChar b with
      | Some x, Some y => let! r := hex_DecodeString s' in Ok (z2b (x * 16 + y) :: r)
      | _, _ => errorf "encoding/hex: invalid byte"
      end
  end.

Definition is_alnum (b : byte) : bool :=
  let z := b2z b in
  ((97 <=? z) && (z <=? 122)) || ((65 <=? z) && (z <=? 90)) || ((48 <=? z) && (z <=? 57)).

(** [shouldEscape(c, encodePathSegment)] of [net/url]. *)
Definition shouldEscape (b : byte) : bool :=
  negb (is_alnum b || bool_decide (b ∈ str "-_.~$&+:=@")).

Definition escape_byte (b : byte) : bytes :=
  if shouldEscape b then Byte.x25 :: hex_byte upper_hex b else [b].

(** [url.PathEscape]. *)
Definition PathEscape (s : bytes) : bytes := s ≫= escape_byte.

(** ** URLs *)

Module Url.

Record URL := mkURL {
  UserInfo : bytes;
  Authority : bytes;
  Path : bytes;
  Query : bytes;
  Fragment : bytes
}.

#[export] Instance URL_eq_dec : EqDecision URL.
Proof. solve_decision. Defined.

Definition splitColon (s : bytes) : bytes * bytes :=
  let i := IndexByte s colon in
  if i <? 0 then (s, [])
  else (take (Z.to_nat i) s, drop (Z.to_nat (i + 1)) s).

Definition WithUserInfo (s : bytes) (u : URL) : URL :=
  mkURL s (Authority u) (Path u) (Query u) (Fragment u).
Definition WithAuthority (s : bytes) (u : URL) : URL :=
  mkURL (UserInfo u) s (Path u) (Query u) (Fragment u).
Definition WithPath (s : bytes) (u : URL) : URL :=
  mkURL (UserInfo u) (Authority u) s (Query u) (Fragment u).
Definition WithQuery (s : bytes) (u : URL) : URL :=
  mkURL (UserInfo u) (Authority u) (Path u) s (Fragment u).
Definition WithFragment (s : bytes) (u : URL) : URL :=
  mkURL (UserInfo u) (Authority u) (Path u) (Query u) s.

Definition normalizePath (s : bytes) : bytes :=
  let s := Trim s slash in
  match s with [] => [] | _ => slash :: s end.

(** The loop of [format] over the segments of the path; [p] is empty or starts
    with a slash. *)
Fixpoint format_path (fuel : nat) (encode : bool) (p : bytes) : bytes :=
  match fuel, p with
  | O, _ | _, [] => []
  | S fuel, _ :: s =>
      let enc x := if encode then PathEscape x else x in
      let i := IndexByte s slash + 1 in
      slash ::
        (if i <=? 0 then enc s
         else enc (take (Z.to_nat (i - 1)) s)
                ++ format_path fuel encode (drop (Z.to_nat i) p))
  end.

Definition prefixed (c : byte) (s : bytes) : bytes := match s with [] => [] | _ => c :: s end.
Definition suffixed (s : bytes) (c : byte) : bytes := match s with [] => [] | _ => s ++ [c] end.

Definition format (txid : option bytes) (encode : bool) (u : URL) : bytes :=
  let p := normalizePath (Path u) in
  str "acc://"
    ++ match txid with
       | Some h => hex_EncodeToString h ++ [at_sign]
       | None => suffixed (UserInfo u) at_sign
       end
    ++ Authority u
    ++ format_path (S (length p)) encode p
    ++ prefixed Byte.x3f (Query u)
    ++ prefixed Byte.x23 (Fragment u).

Definition URL_String (u : URL) : bytes := format None true u.
Definition RawString (u : URL) : bytes := format None false u.
Definition ShortString (u : URL) : res bytes := slice_from (URL_String u) 6.

Definition Compare (u v : URL) : Z :=
  bytes_compare (ToLower (URL_String u)) (ToLower (URL_String v)).

(** [None] is the nil pointer. *)
Definition Equal (u v : option URL) : bool :=
  match u, v with
  | None, None => true
  | Some u, Some v => EqualFold (URL_String u) (URL_String v)
  | _, _ => false
  end.

Definition Hostname (u : URL) : bytes := fst (splitColon (Authority u)).
Definition Port (u : URL) : bytes := snd (splitColon (Authority u)).
Definition Username (u : URL) : bytes := fst (splitColon (UserInfo u)).
Definition Password (u : URL) : bytes := snd (splitColon (UserInfo u)).

Definition id (s : bytes) : bytes := sha256 (ToLower s).
Definition concatId (ids : list bytes) : bytes := sha256 (mjoin ids).

Definition RootIdentity (u : URL) : URL := mkURL (UserInfo u) (Authority u) [] [] [].

Definition IsRootIdentity (u : URL) : bool :=
  bytes_eqb (Path u) [] || bytes_eqb (Path u) [slash].

Definition Parent (u : URL) : URL * bool :=
  let p := TrimSuffix (Path u) slash in
  let v p := mkURL (UserInfo u) (Authority u) p [] [] in
  if zlen p =? 0 then (v p, false)
  else
    let slashIdx := LastIndexByte p slash in
    if slashIdx =? -1 then (v [], true)
    else (v (take (Z.to_nat slashIdx) p), true).

Definition Identity (u : URL) : URL := fst (Parent u).

Definition ParentOf (u v : URL) : bool :=
  let '(p, ok) := Parent v in ok && Equal (Some u) (Some p).

(** The [for] loop of [PrefixOf]; [None] when the fuel runs out. *)
Fixpoint prefix_loop (fuel : nat) (u v : URL) : option bool :=
  match fuel with
  | O => None
  | S fuel =>
      let '(v, ok) := Parent v in
      if negb ok then Some false
      else if Equal (Some u) (Some v) then Some true
      else prefix_loop fuel u v
  end.

Definition PrefixOf (u v : URL) : option bool :=
  if negb (EqualFold (Authority u) (Authority v)) then Some false
  else if zlen (Path v) <? zlen (Path u) then Some false
  else prefix_loop (S (length (Path v))) u v.

Definition LocalTo (u v : URL) : bool :=
  Equal (Some (RootIdentity u)) (Some (RootIdentity v)).

Definition IdentityAccountID32 (u : URL) : bytes := id (Hostname u).
Definition AccountID32 (u : URL) : bytes := id (Hostname u ++ normalizePath (Path u)).
Definition Routing (u : URL) : Z := Binary.be_value (take 8 (IdentityAccountID32 u)).

Definition Hash32 (u : URL) : bytes :=
  let hash := AccountID32 u in
  let hash := if bytes_eqb (Query u) [] then hash else concatId [hash; id (Query u)] in
  if bytes_eqb (Fragment u) [] then hash else concatId [hash; id (Fragment u)].

Definition PathEqual (u : URL) (v : bytes) : bool :=
  EqualFold (Trim (Path u) slash) (Trim v slash).

End Url.

(** ** Memoisation

    A [*URL] caches its string and hashes in [memoize]; an empty string and the
    zero hash mean "not computed".  The methods are state-passing functions on
    the URL and its cache. *)

Module Memo.
Import Url.

Record urlMemoize := mkMemo {
  str_ : bytes; hash : bytes; accountID : bytes; identityID : bytes }.

Record MURL := mkMURL { url : URL; memoize : urlMemoize }.

Definition zero32 : bytes := replicate 32 Byte.x00.
Definition no_memo : urlMemoize := mkMemo [] zero32 zero32 zero32.
Definition fresh_url (u : URL) : MURL := mkMURL u no_memo.

Definition String_memo (m : MURL) : bytes * MURL :=
  let k := memoize m in
  if negb (bytes_eqb (str_ k) []) then (str_ k, m)
  else let s := format None true (url m) in
       (s, mkMURL (url m) (mkMemo s (hash k) (accountID k) (identityID k))).

Definition IdentityAccountID32_memo (m : MURL) : bytes * MURL :=
  let k := memoize m in
  let k := if bytes_eqb (identityID k) zero32
           then mkMemo (str_ k) (hash k) (accountID k) (id (Hostname (url m))) else k in
  (identityID k, mkMURL (url m) k).

Definition AccountID32_memo (m : MURL) : bytes * MURL :=
  let k := memoize m in
  let k := if bytes_eqb (accountID k) zero32
           then mkMemo (str_ k) (hash k) (id (Hostname (url m) ++ normalizePath (Path (url m))))
                  (identityID k)
           else k in
  (accountID k, mkMURL (url m) k).

Definition Hash32_memo (m : MURL) : bytes * MURL :=
  if negb (bytes_eqb (hash (memoize m)) zero32) then (hash (memoize m), m)
  else
    let '(h, m) := AccountID32_memo m in
    let u := url m in
    let h := if bytes_eqb (Query u) [] then h else concatId [h; id (Query u)] in
    let h := if bytes_eqb (Fragment u) [] then h else concatId [h; id (Fragment u)] in
    let k := memoize m in
    (h, mkMURL u (mkMemo (str_ k) h (accountID k) (identityID k))).

(** [copy]: the fields without the cache. *)
Definition URL_copy (m : MURL) : MURL := mkMURL (url m) no_memo.

(** The calls a client can make on one URL variable; a [With] call replaces the
    variable by the modified copy. *)
Inductive call :=
  | CString | CIdentity | CAccount | CHash
  | CWith (f : URL -> URL).

Definition run_call (c : call) (m : MURL) : list bytes * MURL :=
  match c with
  | CString => let '(s, m) := String_memo m in ([s], m)
  | CIdentity => let '(s, m) := IdentityAccountID32_memo m in ([s], m)
  | CAccount => let '(s, m) := AccountID32_memo m in ([s], m)
  | CHash => let '(s, m) := Hash32_memo m in ([s], m)
  | CWith f => ([], let v := URL_copy m in mkMURL (f (url v)) (memoize v))
  end.

Fixpoint run_calls (cs : list call) (m : MURL) : list bytes :=
  match cs with
  | [] => []
  | c :: cs => let '(o, m) := run_call c m in o ++ run_calls cs m
  end.

(** The specification: every answer computed from the components. *)
Fixpoint answers (cs : list call) (u : URL) : list bytes :=
  match cs with
  | [] => []
  | CString :: cs => URL_String u :: answers cs u
  | CIdentity :: cs => IdentityAccountID32 u :: answers cs u
  | CAccount :: cs => AccountID32 u :: answers cs u
  | CHash :: cs => Hash32 u :: answers cs u
  | CWith f :: cs => answers cs (f u)
  end.

End Memo.

(** ** Transaction identifiers *)

Module TxID.
Import Url.

(** [url] is never nil in the program. *)
Record TxID := mkTxID { url : URL; hash : bytes }.

#[export] Instance TxID_eq_dec : EqDecision TxID.
Proof. solve_decision. Defined.

Definition AsTxID (u : URL) : res TxID :=
  if bytes_eqb (UserInfo u) [] then errorf "missing hash"
  else
    match hex_DecodeString (UserInfo u) with
    | Ok hash =>
        if negb (zlen hash =? 32) then errorf "invalid hash: wrong length"
        else Ok (mkTxID (WithUserInfo [] u) hash)
    | Err _ => errorf "invalid hash"
    | Panic s => Panic s
    end.

Definition WithTxID (u : URL) (hash : bytes) : TxID := mkTxID u hash.

Definition AsUrl (x : TxID) : URL := WithUserInfo (hex_EncodeToString (hash x)) (url x).

Definition TxID_Equal (x y : TxID) : bool :=
  bytes_eqb (hash x) (hash y) && Equal (Some (url x)) (Some (url y)).

Definition TxID_Compare (x y : TxID) : Z :=
  if negb (bytes_eqb (hash x) (hash y)) then bytes_compare (hash x) (hash y)
  else Compare (url x) (url y).

Definition TxID_String (x : TxID) : bytes := format (Some (hash x)) true (url x).
Definition TxID_RawString (x : TxID) : bytes := format (Some (hash x)) false (url x).
Definition TxID_ShortString (x : TxID) : res bytes := slice_from (TxID_String x) 6.

End TxID.

(** ** Lite addresses *)

Module Lite.
Import Url.

Definition LiteDataAddress (chainId : bytes) : res URL :=
  if zlen chainId <? 32 then errorf "chainId for LiteDataAddress must be 32 bytes in length"
  else let! k := slice_to chainId 32 in
       Ok (mkURL [] (hex_EncodeToString k) [] [] []).

Definition checksumLen : Z := 4.

Definition ParseLiteAddress (u : URL) : res bytes :=
  let! b := hex_DecodeString (Hostname u) in
  if zlen b <=? checksumLen then errorf "too short"
  else
    let i := zlen b - checksumLen in
    let! byteValue := slice_to b i in
    let! byteCheck := slice_from b i in
    let! hexValue := slice_to (Authority u) (zlen (Authority u) - checksumLen * 2) in
    let checkSum := sha256 hexValue in
    let! c := slice_from checkSum (zlen checkSum - checksumLen) in
    if negb (bytes_eqb byteCheck c) then errorf "invalid checksum"
    else Ok byteValue.

Definition ParseLiteDataAddress (u : URL) : res bytes :=
  if negb (bytes_eqb (Path u) []) then errorf "invalid chain url"
  else
    let! b := hex_DecodeString (Hostname u) in
    if negb (zlen b =? 32) then errorf "lite data address is the wrong length"
    else Ok b.

Definition LiteAuthorityForHash (pubKeyHash : bytes) : res URL :=
  let! k := slice_to pubKeyHash 20 in
  let keyStr := hex_EncodeToString k in
  let checkSum := sha256 keyStr in
  let! c := slice_from checkSum 28 in
  Ok (mkURL [] (keyStr ++ hex_EncodeToString c) [] [] []).

(** [Ok None] is the result [nil, nil]: not a lite identity. *)
Definition ParseLiteIdentity (u : URL) : res (option bytes) :=
  if negb (bytes_eqb (Path u) []) && negb (bytes_eqb (Path u) [slash]) then Ok None
  else
    let! b := ParseLiteAddress u in
    if negb (zlen b =? 20) then Ok None else Ok (Some b).

(** [Ok None] is the result [nil, nil, nil]: not a lite token address. *)
Definition ParseLiteTokenAddress (u : URL) : res (option (bytes * URL)) :=
  if bytes_eqb (Path u) [] || (zlen (Path u) =? 1) then Ok None
  else
    let! b := ParseLiteAddress u in
    if negb (zlen b =? 20) then Ok None
    else
      let! p1 := slice_from (Path u) 1 in
      let i := IndexByte p1 slash in
      let! p0 := index (Path u) 0 in
      let v :=
        if 0 <=? i then
          mkURL [] (take (Z.to_nat i) p1) (drop (Z.to_nat (i + 1)) (Path u)) [] []
        else if bool_decide (p0 = slash) then mkURL [] p1 [] [] []
        else mkURL [] (Path u) [] [] [] in
      let! k := slice_to b 20 in
      Ok (Some (k, v)).

End Lite.
