(* ===== verification/UrlProofs.v ===== *)
(** * Properties of URLs, transaction identifiers and lite addresses

    [Equal] and [Compare] agree and depend only on the lower case components;
    equal URLs name the same account; [PrefixOf] terminates and is ancestry;
    the memoised methods answer like the plain ones; transaction identifiers and
    lite addresses survive their string forms. *)

From S2P Require Import Prelude Sha256 Encoding SortUtil Url.
Local Open Scope Z_scope.

(** ** Case *)

Lemma b2z_lower b : b2z (lower b) = if is_upper b then b2z b + 32 else b2z b.
Proof.
  unfold lower, is_upper. case_match eqn:E; [|done].
  apply b2z_z2b_small. apply andb_prop in E as [E1 E2]. pose proof (b2z_range b). lia.
Qed.

Lemma fold_eq_spec a b : fold_eq a b = true <-> lower a = lower b.
Proof.
  transitivity (b2z (lower a) = b2z (lower b)); last first.
  { split; [apply b2z_inj|by intros ->]. }
  rewrite !b2z_lower. unfold fold_eq, is_upper.
  repeat case_match; lia.
Qed.

Lemma EqualFold_spec s t : EqualFold s t = true <-> ToLower s = ToLower t.
Proof.
  revert t. induction s as [|a s IH]; intros [|b t]; simpl; try done.
  rewrite andb_true_iff, fold_eq_spec, IH. unfold ToLower. split; [intros [-> H]|intros H; simplify_eq; done].
  by rewrite H.
Qed.

Lemma lower_idemp b : lower (lower b) = lower b.
Proof. by destruct b. Qed.

Lemma ToLower_app s t : ToLower (s ++ t) = ToLower s ++ ToLower t.
Proof. apply fmap_app. Qed.

Lemma ToLower_cons b s : ToLower (b :: s) = lower b :: ToLower s.
Proof. done. Qed.

Lemma ToLower_bind s (f : byte -> bytes) : ToLower (s ≫= f) = s ≫= (fun b => ToLower (f b)).
Proof. induction s as [|b s IH]; [done|]. rewrite !bind_cons, ToLower_app. by rewrite IH. Qed.

Lemma EqualFold_refl s : EqualFold s s = true.
Proof. by apply EqualFold_spec. Qed.

(** A byte that is not a lower case letter is met by lowering only itself. *)
Definition caseless (c : byte) : bool := negb (is_alnum c).

Lemma lower_caseless c b : caseless c = true -> lower b = c <-> b = c.
Proof.
  intros Hc. transitivity (b2z (lower b) = b2z c); [split; [by intros ->|apply b2z_inj]|].
  transitivity (b2z b = b2z c); [|split; [apply b2z_inj|by intros ->]].
  rewrite b2z_lower. unfold caseless, is_alnum, is_upper in *.
  destruct ((65 <=? b2z b) && (b2z b <=? 90)) eqn:E; lia.
Qed.

Lemma elem_ToLower c s : caseless c = true -> c ∈ ToLower s <-> c ∈ s.
Proof.
  intros Hc. unfold ToLower. rewrite list_elem_of_fmap. split.
  - intros (b & E & Hb). by rewrite <- (proj1 (lower_caseless c b Hc) (eq_sym E)).
  - intros H. exists c. split; [|done]. symmetry. by apply lower_caseless.
Qed.

(** ** Searching strings *)

Lemma IndexByte_spec s c :
  (IndexByte s c = -1 /\ c ∉ s) \/
  (exists l1 l2, s = (l1 ++ c :: l2) /\ (c ∉ l1) /\ IndexByte s c = zlen l1).
Proof.
  induction s as [|b s IH]; simpl; [left; split; [done|apply not_elem_of_nil]|].
  case_bool_decide as Hb; [right; exists [], s; subst; split; [done|split; [apply not_elem_of_nil|done]]|].
  destruct IH as [[E H]|(l1 & l2 & -> & H & E)]; rewrite E.
  - left. split; [done|]. apply not_elem_of_cons. done.
  - right. exists (b :: l1), l2. split; [done|]. rewrite not_elem_of_cons. split; [done|].
    rewrite zlen_cons. pose proof (zlen_nonneg l1). case_match; lia.
Qed.

Lemma IndexByte_app l1 c l2 : c ∉ l1 -> IndexByte (l1 ++ c :: l2) c = zlen l1.
Proof.
  induction l1 as [|b l1 IH]; simpl; [by rewrite bool_decide_true|].
  rewrite not_elem_of_cons. intros [Hb H]. rewrite bool_decide_false by done.
  rewrite IH, zlen_cons by done. pose proof (zlen_nonneg l1). case_match; lia.
Qed.

Lemma IndexByte_none s c : c ∉ s -> IndexByte s c = -1.
Proof.
  intros H. destruct (IndexByte_spec s c) as [[E _]|(l1 & l2 & -> & _)]; [done|].
  destruct H. apply elem_of_app. right. left.
Qed.

Lemma LastIndexByte_app l1 c l2 : c ∉ l2 -> LastIndexByte (l1 ++ c :: l2) c = zlen l1.
Proof.
  intros H. unfold LastIndexByte. rewrite rev_app_distr. cbn [rev]. rewrite <- app_assoc. cbn [app].
  rewrite IndexByte_app by (by rewrite list_elem_of_In, <- in_rev, <- list_elem_of_In).
  unfold zlen. rewrite length_rev, length_app. cbn [length]. destruct (Z.ltb_spec (Z.of_nat (length l2)) 0); lia.
Qed.

Lemma IndexByte_lower s c : caseless c = true -> IndexByte (ToLower s) c = IndexByte s c.
Proof.
  intros Hc. destruct (IndexByte_spec s c) as [[E H]|(l1 & l2 & -> & H & E)]; rewrite E.
  - apply IndexByte_none. by rewrite elem_ToLower.
  - rewrite ToLower_app. simpl. rewrite (proj2 (lower_caseless c c Hc)) by done.
    rewrite IndexByte_app by (by rewrite elem_ToLower).
    unfold zlen, ToLower. by rewrite length_fmap.
Qed.

(** Two strings cut at their first delimiter. *)
Definition starts (D : byte -> Prop) (r : bytes) : Prop := match r with [] => True | c :: _ => D c end.

Lemma cut_at (D : byte -> Prop) l1 l2 r1 r2 :
  Forall (fun c => ~ D c) l1 -> Forall (fun c => ~ D c) l2 -> starts D r1 -> starts D r2 ->
  l1 ++ r1 = l2 ++ r2 -> l1 = l2 /\ r1 = r2.
Proof.
  intros H1. revert l2. induction H1 as [|a l1 Ha H1 IH]; intros l2 H2 Hr1 Hr2 E.
  - destruct H2 as [|b l2 Hb H2]; [done|]. simpl in E. subst r1. done.
  - destruct H2 as [|b l2 Hb H2]; simpl in E; [subst r2; done|].
    simplify_eq. destruct (IH l2) as [-> ->]; done.
Qed.

(** ** The string form *)

Import Url.

(** One byte of the path in the string. *)
Definition seg_char (encode : bool) (b : byte) : bytes :=
  if bool_decide (b = slash) then [slash] else if encode then escape_byte b else [b].

Lemma enc_seg (encode : bool) (s : bytes) :
  slash ∉ s -> (if encode then PathEscape s else s) = s ≫= seg_char encode.
Proof.
  intros H. unfold PathEscape. destruct encode.
  all: induction s as [|b s IH]; [done|]; apply not_elem_of_cons in H as [Hb H].
  all: rewrite !bind_cons, <- (IH H); unfold seg_char; by rewrite bool_decide_false by done.
Qed.

Lemma format_path_S fuel encode c s :
  format_path (S fuel) encode (c :: s) =
  slash :: (if IndexByte s slash + 1 <=? 0 then if encode then PathEscape s else s
            else (if encode then PathEscape (take (Z.to_nat (IndexByte s slash + 1 - 1)) s)
                  else take (Z.to_nat (IndexByte s slash + 1 - 1)) s)
                   ++ format_path fuel encode (drop (Z.to_nat (IndexByte s slash + 1)) (c :: s))).
Proof. done. Qed.

(** The segment loop writes every byte of the path in turn. *)
Lemma format_path_eq encode n c (s : bytes) :
  (length s <= n)%nat ->
  format_path (S n) encode (c :: s) = slash :: (s ≫= seg_char encode).
Proof.
  revert c s. induction n as [|n IH]; intros c s Hn.
  { destruct s; [by destruct encode|simpl in Hn; lia]. }
  rewrite format_path_S. destruct (IndexByte_spec s slash) as [[E H]|(l1 & l2 & -> & H & E)]; rewrite E.
  - simpl. by rewrite (enc_seg encode s H).
  - pose proof (zlen_nonneg l1). rewrite (proj2 (Z.leb_gt _ _)) by lia.
    replace (Z.to_nat (zlen l1 + 1 - 1)) with (length l1) by (unfold zlen; lia).
    replace (Z.to_nat (zlen l1 + 1)) with (S (length l1)) by (unfold zlen; lia).
    rewrite take_app_length. cbn [drop]. rewrite drop_app_length.
    rewrite length_app in Hn. simpl in Hn.
    rewrite IH by lia. rewrite (enc_seg encode l1 H), bind_app. done.
Qed.

(** ** Components

    [url_ok]: the components are ASCII and hold no delimiter of a later
    component. *)

Definition lacks (delims s : bytes) : bool := forallb (fun b => bool_decide (b ∉ delims)) s.
Definition is_ascii (s : bytes) : bool := forallb (fun b => b2z b <? 128) s.

Definition url_ok (u : URL) : bool :=
  lacks (str "/?#@") (UserInfo u) && lacks (str "/?#@") (Authority u) && lacks (str "#") (Query u) &&
  is_ascii (UserInfo u) && is_ascii (Authority u) && is_ascii (Path u) &&
  is_ascii (Query u) && is_ascii (Fragment u).

Lemma forallb_elem {A} (f : A -> bool) l : forallb f l = true <-> forall x, x ∈ l -> f x = true.
Proof. rewrite List.forallb_forall. by setoid_rewrite <- list_elem_of_In. Qed.

Lemma lacks_elem delims s : lacks delims s = true <-> Forall (fun c => c ∉ delims) s.
Proof.
  unfold lacks. rewrite forallb_elem, Forall_forall. by setoid_rewrite bool_decide_eq_true.
Qed.

Lemma lacks_lower delims s :
  forallb caseless delims = true ->
  lacks delims s = true -> Forall (fun c => ~ c ∈ delims) (ToLower s).
Proof.
  rewrite forallb_elem, lacks_elem, !Forall_forall. intros Hd H c Hc Hin.
  rewrite elem_ToLower in Hc by auto. by apply (H c).
Qed.

Lemma Forall_sub (P Q : byte -> Prop) (l : bytes) : (forall c, Q c -> P c) -> Forall Q l -> Forall P l.
Proof. intros H Hl. eapply Forall_impl; eauto. Qed.

(** The path as it is written, in lower case. *)
Definition path_text (p : bytes) : bytes :=
  match normalizePath p with
  | [] => []
  | _ :: s => slash :: (s ≫= (fun b => ToLower (seg_char true b)))
  end.

Lemma String_lower u :
  ToLower (URL_String u) =
  str "acc://" ++ (suffixed (ToLower (UserInfo u)) at_sign ++ ToLower (Authority u))
    ++ path_text (Path u) ++ prefixed Byte.x3f (ToLower (Query u))
    ++ prefixed Byte.x23 (ToLower (Fragment u)).
Proof.
  unfold URL_String, format. rewrite !ToLower_app, <- !app_assoc. f_equal. f_equal.
  { destruct (UserInfo u); [done|]. unfold suffixed. simpl. by rewrite ToLower_app. }
  f_equal. f_equal.
  { unfold path_text. destruct (normalizePath (Path u)) as [|c s] eqn:E; [done|].
    rewrite format_path_eq by (simpl; lia). cbn [ToLower]. rewrite <- ToLower_bind. done. }
  by destruct (Query u), (Fragment u).
Qed.

(** Reading one path byte back from the lower case text. *)
Definition unescape1 (l : bytes) : option (byte * bytes) :=
  match l with
  | Byte.x25 :: x :: y :: r =>
      match fromHexChar x, fromHexChar y with
      | Some a, Some b => Some (lower (z2b (a * 16 + b)), r)
      | _, _ => None
      end
  | c :: r => Some (c, r)
  | [] => None
  end.

Lemma unescape_seg b r : unescape1 (ToLower (seg_char true b) ++ r) = Some (lower b, r).
Proof. by destruct b. Qed.

Lemma seg_lower b : ToLower (seg_char true (lower b)) = ToLower (seg_char true b).
Proof. by destruct b. Qed.

Lemma path_bytes_inj s t :
  s ≫= (fun b => ToLower (seg_char true b)) = t ≫= (fun b => ToLower (seg_char true b)) ->
  ToLower s = ToLower t.
Proof.
  revert t. induction s as [|a s IH]; intros [|b t] E; rewrite ?bind_nil, ?bind_cons in E.
  - done.
  - pose proof (unescape_seg b (t ≫= (fun b => ToLower (seg_char true b)))) as H. by rewrite <- E in H.
  - pose proof (unescape_seg a (s ≫= (fun b => ToLower (seg_char true b)))) as H. by rewrite E in H.
  - pose proof (unescape_seg a (s ≫= (fun b => ToLower (seg_char true b)))) as H.
    rewrite E, unescape_seg in H. injection H as Hab Hst. unfold ToLower. simpl.
    rewrite Hab. f_equal. by apply IH.
Qed.

Lemma path_bytes_lower (s : bytes) :
  ToLower s ≫= (fun b => ToLower (seg_char true b)) = s ≫= (fun b => ToLower (seg_char true b)).
Proof.
  induction s as [|b s IH]; [done|]. rewrite ToLower_cons, !bind_cons, seg_lower. by rewrite IH.
Qed.

Lemma normalizePath_shape p : normalizePath p = [] \/ exists c s, normalizePath p = slash :: c :: s.
Proof. unfold normalizePath. destruct (Trim p slash); [by left|right; eauto]. Qed.

Lemma path_text_inj p q :
  path_text p = path_text q <-> ToLower (normalizePath p) = ToLower (normalizePath q).
Proof.
  unfold path_text.
  destruct (normalizePath_shape p) as [->|(c & s & ->)], (normalizePath_shape q) as [->|(d & t & ->)];
    try done.
  split.
  - intros E. injection E as E. apply (path_bytes_inj (c :: s) (d :: t)) in E.
    by rewrite (ToLower_cons slash), E.
  - rewrite !(ToLower_cons slash). intros E. injection E as E1 E2.
    rewrite <- (path_bytes_lower (c :: s)), <- (path_bytes_lower (d :: t)).
    by rewrite !ToLower_cons, E1, E2.
Qed.

Lemma path_text_chars p : Forall (fun c => ~ c ∈ str "?#") (path_text p).
Proof.
  unfold path_text. destruct (normalizePath p) as [|c s]; [done|]. constructor; [by compute_done|].
  induction s as [|b s IH]; [done|]. rewrite bind_cons. apply Forall_app. split; [|done].
  assert (lacks (str "?#") (ToLower (seg_char true b)) = true) as H by (by destruct b).
  by apply lacks_elem in H.
Qed.

Lemma suffixed_inj a b s t c :
  Forall (fun x => x <> c) s -> Forall (fun x => x <> c) t ->
  Forall (fun x => x <> c) a -> Forall (fun x => x <> c) b ->
  suffixed s c ++ a = suffixed t c ++ b -> s = t /\ a = b.
Proof.
  intros Hs Ht Ha Hb E.
  assert (Hno : forall (l : bytes) r m, Forall (fun x => x <> c) m -> l ++ c :: r = m -> False).
  { intros l r m Hm <-. apply Forall_app in Hm as [_ Hm]. inversion Hm. done. }
  destruct s as [|x s], t as [|y t]; unfold suffixed in E; rewrite <- ?app_assoc in E; simpl in E.
  - done.
  - exfalso. by apply (Hno (y :: t) b a).
  - exfalso. by apply (Hno (x :: s) a b).
  - apply (cut_at (fun z => z = c) (x :: s) (y :: t) (c :: a) (c :: b)) in E; try done.
    destruct E as [E1 E2]. by simplify_eq.
Qed.

Lemma prefixed_inj c s t : prefixed c s = prefixed c t -> s = t.
Proof. destruct s, t; intros E; by simplify_eq/=. Qed.

Lemma url_ok_texts u :
  url_ok u = true ->
  Forall (fun c => ~ c ∈ str "/?#@") (ToLower (UserInfo u)) /\
  Forall (fun c => ~ c ∈ str "/?#@") (ToLower (Authority u)) /\
  Forall (fun c => ~ c ∈ str "#") (ToLower (Query u)).
Proof. unfold url_ok. intros H. repeat apply andb_prop in H as [H ?]. by split_and!; apply lacks_lower. Qed.

(** The first part of the string, up to the path. *)
Definition login_text (u : URL) : bytes :=
  suffixed (ToLower (UserInfo u)) at_sign ++ ToLower (Authority u).

Lemma login_text_inj u v :
  url_ok u = true -> url_ok v = true -> login_text u = login_text v ->
  ToLower (UserInfo u) = ToLower (UserInfo v) /\ ToLower (Authority u) = ToLower (Authority v).
Proof.
  intros (Hu1 & Hu2 & _)%url_ok_texts (Hv1 & Hv2 & _)%url_ok_texts.
  assert (H : forall s, Forall (fun c => ~ c ∈ str "/?#@") s -> Forall (fun c => c <> at_sign) s).
  { intros s. apply Forall_sub. intros c Hc ->. apply Hc. by compute_done. }
  apply suffixed_inj; eauto.
Qed.

Lemma login_text_chars u :
  url_ok u = true -> Forall (fun c => ~ c ∈ str "/?#") (login_text u).
Proof.
  intros (H1 & H2 & _)%url_ok_texts.
  assert (H : forall s, Forall (fun c => ~ c ∈ str "/?#@") s -> Forall (fun c => ~ c ∈ str "/?#") s).
  { intros s. apply Forall_sub. intros c Hc Hin. apply Hc. revert Hin. cbn. rewrite !elem_of_cons. tauto. }
  unfold login_text. apply Forall_app. split; [|by apply H].
  unfold suffixed. case_match eqn:E; [done|]. apply Forall_app. split; [by apply H|].
  constructor; [by compute_done|done].
Qed.

Lemma prefixed_starts (D : byte -> Prop) c s r : D c -> starts D r -> starts D (prefixed c s ++ r).
Proof. by destruct s. Qed.

Lemma prefixed_chars (D : byte -> Prop) c s :
  ~ D c -> Forall (fun x => ~ D x) s -> Forall (fun x => ~ D x) (prefixed c s).
Proof. destruct s; [done|]. by constructor. Qed.

Lemma prefixed_starts_nil (D : byte -> Prop) c s : D c -> starts D (prefixed c s).
Proof. by destruct s. Qed.

Lemma path_text_starts (D : byte -> Prop) p r : D slash -> starts D r -> starts D (path_text p ++ r).
Proof. intros H1 H2. unfold path_text. by case_match. Qed.

Lemma String_components u v :
  url_ok u = true -> url_ok v = true ->
  ToLower (URL_String u) = ToLower (URL_String v) <->
    ToLower (UserInfo u) = ToLower (UserInfo v) /\
    ToLower (Authority u) = ToLower (Authority v) /\
    ToLower (normalizePath (Path u)) = ToLower (normalizePath (Path v)) /\
    ToLower (Query u) = ToLower (Query v) /\
    ToLower (Fragment u) = ToLower (Fragment v).
Proof.
  intros Hu Hv. rewrite !String_lower. split; last first.
  { intros (E1 & E2 & E3 & E4 & E5). apply path_text_inj in E3. by rewrite E1, E2, E3, E4, E5. }
  pose proof (login_text_chars u Hu). pose proof (login_text_chars v Hv).
  destruct (url_ok_texts u Hu) as (_ & _ & HQu), (url_ok_texts v Hv) as (_ & _ & HQv).
  fold (login_text u) (login_text v). intros E. apply app_inv_head in E.
  assert (Hd : forall c (s : bytes), c ∈ s -> (fun x => x ∈ s) c) by done.
  apply (cut_at (fun c => c ∈ str "/?#")) in E as [E1 E]; try done.
  2, 3: apply path_text_starts; [by compute_done|apply prefixed_starts; [by compute_done|]];
        apply prefixed_starts_nil; by compute_done.
  apply (cut_at (fun c => c ∈ str "?#")) in E as [E2 E]; try apply path_text_chars.
  2, 3: apply prefixed_starts; [by compute_done|]; apply prefixed_starts_nil; by compute_done.
  apply (cut_at (fun c => c ∈ str "#")) in E as [E3 E4].
  2, 3: apply prefixed_chars; [by compute_done|done].
  2, 3: apply prefixed_starts_nil; by compute_done.
  apply prefixed_inj in E3, E4. apply path_text_inj in E2.
  apply login_text_inj in E1 as [E0 E1]; done.
Qed.

(** Two URLs are [Equal] exactly when their components are: user info,
    authority, normalised path, query and fragment, each compared without regard
    to case; the percent encoding and the delimiters of [String] lose and confuse
    nothing. *)
Theorem Equal_components u v :
  url_ok u = true -> url_ok v = true ->
  Equal (Some u) (Some v) = true <->
    EqualFold (UserInfo u) (UserInfo v) = true /\
    EqualFold (Authority u) (Authority v) = true /\
    EqualFold (normalizePath (Path u)) (normalizePath (Path v)) = true /\
    EqualFold (Query u) (Query v) = true /\
    EqualFold (Fragment u) (Fragment v) = true.
Proof. intros Hu Hv. unfold Equal. rewrite !EqualFold_spec. by apply String_components. Qed.

Definition demo_url : URL :=
  mkURL (str "alice") (str "Example.acme:80") (str "/Tokens/a b/") (str "x=1") (str "Frag").
Definition demo_url' : URL :=
  mkURL (str "Alice") (str "example.ACME:80") (str "tokens/A B") (str "X=1") (str "frag").

Lemma Equal_components_witness :
  url_ok demo_url = true /\ url_ok demo_url' = true /\
  EqualFold (normalizePath (Path demo_url)) (normalizePath (Path demo_url')) = true.
Proof.
  split; [vm_compute; reflexivity|]. split; [vm_compute; reflexivity|].
  refine (proj1 (proj2 (proj2 (proj1 (Equal_components demo_url demo_url' _ _) _))));
    vm_compute; reflexivity.
Defined.

Lemma splitColon_lower s :
  splitColon (ToLower s) = (ToLower (fst (splitColon s)), ToLower (snd (splitColon s))).
Proof.
  unfold splitColon. rewrite IndexByte_lower by done. case_match; [done|]. simpl.
  unfold ToLower. by rewrite firstn_map, skipn_map.
Qed.

Lemma Hostname_lower u : ToLower (Hostname u) = fst (splitColon (ToLower (Authority u))).
Proof. by rewrite splitColon_lower. Qed.

Lemma ToLower_nil s : bytes_eqb (ToLower s) [] = bytes_eqb s [].
Proof. by destruct s. Qed.

(** Equal URLs are stored under the same identifier. *)
Lemma Equal_AccountID u v :
  url_ok u = true -> url_ok v = true -> Equal (Some u) (Some v) = true -> AccountID32 u = AccountID32 v.
Proof.
  intros Hu Hv. unfold Equal. rewrite EqualFold_spec, (String_components u v Hu Hv). intros (_ & EA & EP & _).
  unfold AccountID32, id. by rewrite !ToLower_app, !Hostname_lower, EA, EP.
Qed.

(** Equal URLs are the same account: [AccountID32], [IdentityAccountID32],
    [Hash32] and [Routing] agree, so the account, its routing and the database keys
    made from them do not depend on which spelling of the URL is used. *)
Theorem Equal_same_account u v :
  url_ok u = true -> url_ok v = true -> Equal (Some u) (Some v) = true ->
  AccountID32 u = AccountID32 v /\ IdentityAccountID32 u = IdentityAccountID32 v /\
  Hash32 u = Hash32 v /\ Routing u = Routing v.
Proof.
  intros Hu Hv HE. pose proof (Equal_AccountID u v Hu Hv HE) as HA. revert HE.
  unfold Equal. rewrite EqualFold_spec, (String_components u v Hu Hv). intros (_ & EA & EP & EQ & EF).
  assert (HH : ToLower (Hostname u) = ToLower (Hostname v)) by (by rewrite !Hostname_lower, EA).
  assert (HI : IdentityAccountID32 u = IdentityAccountID32 v)
    by (unfold IdentityAccountID32, id; by rewrite HH).
  split; [done|]. split; [done|]. split; [|unfold Routing; by rewrite HI].
  unfold Hash32, id. rewrite HA, EQ, EF.
  by rewrite <- (ToLower_nil (Query u)), <- (ToLower_nil (Fragment u)), EQ, EF, !ToLower_nil.
Qed.

Lemma Equal_same_account_witness :
  Equal (Some demo_url) (Some demo_url') = true /\ Hash32 demo_url = Hash32 demo_url'.
Proof.
  split; [vm_compute; reflexivity|].
  apply (Equal_same_account demo_url demo_url'); vm_compute; reflexivity.
Defined.

(** ** Order *)

#[global] Instance Compare_total : TotalCompare Compare.
Proof. apply (compare_on (fun u => ToLower (URL_String u)) bytes_compare). Qed.

Lemma Compare_zero u v : Compare u v = 0 <-> Equal (Some u) (Some v) = true.
Proof. unfold Compare, Equal. rewrite bytes_compare_eq, EqualFold_spec. done. Qed.

Lemma TxID_Compare_lex x y :
  TxID.TxID_Compare x y =
  compare_lex (fun x y => bytes_compare (TxID.hash x) (TxID.hash y))
    (fun x y => Compare (TxID.url x) (TxID.url y)) x y.
Proof.
  unfold TxID.TxID_Compare, compare_lex. destruct (bytes_eqb _ _) eqn:E; simpl.
  - apply bytes_eqb_eq in E. by rewrite E, (compare_refl bytes_compare).
  - case_match eqn:E2; [|done]. apply Z.eqb_eq, bytes_compare_eq in E2. rewrite E2, bytes_eqb_refl in E. done.
Qed.

#[global] Instance TxID_Compare_total : TotalCompare TxID.TxID_Compare.
Proof.
  pose proof (compare_on TxID.hash bytes_compare). pose proof (compare_on TxID.url Compare).
  split.
  - intros x y. rewrite !TxID_Compare_lex. apply compare_antisym.
  - intros x y z. rewrite !TxID_Compare_lex. apply compare_trans.
Qed.

Lemma TxID_Compare_zero x y : TxID.TxID_Compare x y = 0 <-> TxID.TxID_Equal x y = true.
Proof.
  unfold TxID.TxID_Compare, TxID.TxID_Equal. rewrite andb_true_iff, <- Compare_zero.
  destruct (bytes_eqb _ _) eqn:E; simpl; [tauto|]. rewrite bytes_compare_eq, <- bytes_eqb_eq, E.
  split; [done|naive_solver].
Qed.

(** [Compare] on URLs and on transaction identifiers is a total order whose
    zero is [Equal]: it is antisymmetric and transitive, and two values compare as
    zero exactly when [Equal] says they are the same. *)
Theorem Compare_order :
  (forall u v, Compare u v = - Compare v u) /\
  (forall u v w, Compare u v <= 0 -> Compare v w <= 0 -> Compare u w <= 0) /\
  (forall u v, Compare u v = 0 <-> Equal (Some u) (Some v) = true) /\
  (forall x y, TxID.TxID_Compare x y = - TxID.TxID_Compare y x) /\
  (forall x y z, TxID.TxID_Compare x y <= 0 -> TxID.TxID_Compare y z <= 0 -> TxID.TxID_Compare x z <= 0) /\
  (forall x y, TxID.TxID_Compare x y = 0 <-> TxID.TxID_Equal x y = true).
Proof.
  split_and!; [exact compare_antisym|exact compare_trans|exact Compare_zero|
    exact compare_antisym|exact compare_trans|exact TxID_Compare_zero].
Qed.

(** ** Parents *)

Lemma TrimSuffix_length s c : (length (TrimSuffix s c) <= length s)%nat.
Proof.
  unfold TrimSuffix. destruct (rev s) as [|b r] eqn:E; [done|]. case_match; [|done].
  apply (f_equal length) in E. rewrite length_rev in E. rewrite length_rev. simpl in E. lia.
Qed.

Lemma LastIndexByte_lt s c : LastIndexByte s c < zlen s.
Proof.
  unfold LastIndexByte. destruct (IndexByte_spec (rev s) c) as [[-> _]|(l1 & l2 & E & _ & ->)].
  - simpl. pose proof (zlen_nonneg s). lia.
  - pose proof (zlen_nonneg l1). case_match; [|lia]. pose proof (zlen_nonneg s). lia.
Qed.

(** A parent's path is strictly shorter. *)
Lemma Parent_shorter u v : Parent u = (v, true) -> (length (Path v) < length (Path u))%nat.
Proof.
  unfold Parent. pose proof (TrimSuffix_length (Path u) slash).
  destruct (Z.eqb_spec (zlen (TrimSuffix (Path u) slash)) 0) as [|Hn]; [done|]. unfold zlen in Hn.
  pose proof (LastIndexByte_lt (TrimSuffix (Path u) slash) slash) as Hl. unfold zlen in Hl.
  case_match; intros E; simplify_eq/=; [lia|]. rewrite length_take. lia.
Qed.

(** The [n]-th ancestor. *)
Fixpoint ancestor (n : nat) (u : URL) : option URL :=
  match n with
  | O => Some u
  | S n => match Parent u with (v, true) => ancestor n v | _ => None end
  end.

Lemma prefix_loop_ok fuel u v :
  (length (Path v) < fuel)%nat ->
  exists b, prefix_loop fuel u v = Some b /\
    (b = true <-> exists n w, ancestor (S n) v = Some w /\ Equal (Some u) (Some w) = true).
Proof.
  revert v. induction fuel as [|fuel IH]; intros v Hf; [lia|]. cbn [prefix_loop ancestor].
  destruct (Parent v) as [p ok] eqn:E. destruct ok; last first.
  { exists false. split; [done|]. split; [done|]. by intros (n & w & ? & _). }
  pose proof (Parent_shorter _ _ E). cbn [negb]. destruct (Equal (Some u) (Some p)) eqn:Eq.
  { exists true. split; [done|]. split; [|done]. intros _. by exists O, p. }
  destruct (IH p) as (b & Hb & Hiff); [lia|]. exists b. split; [done|]. rewrite Hiff. split.
  - intros (n & w & Hn & Hw). by exists (S n), w.
  - intros ([|n] & w & Hn & Hw); [simpl in Hn; simplify_eq; congruence|by exists n, w].
Qed.

(** [PrefixOf] terminates on all URLs, and holds exactly when the authorities
    are the same, the path is not longer, and some proper ancestor of the second
    URL equals the first. *)
Theorem PrefixOf_correct u v :
  exists b, PrefixOf u v = Some b /\
    (b = true <->
       EqualFold (Authority u) (Authority v) = true /\ zlen (Path u) <= zlen (Path v) /\
       exists n w, ancestor (S n) v = Some w /\ Equal (Some u) (Some w) = true).
Proof.
  unfold PrefixOf. destruct (EqualFold (Authority u) (Authority v)); cbn [negb];
    [|exists false; naive_solver].
  destruct (Z.ltb_spec (zlen (Path v)) (zlen (Path u))); [exists false; split; [done|]; split; [done|lia]|].
  destruct (prefix_loop_ok (S (length (Path v))) u v) as (b & -> & Hb); [lia|].
  exists b. split; [done|]. rewrite Hb. tauto.
Qed.

(** [Parent] trims a single trailing slash where [String] trims them all: the
    equal URLs acc://a/b// and acc://a/b have different parents, and the parent of
    the first is the URL itself. *)
Theorem Parent_not_canonical :
  let u := mkURL [] (str "a") (str "/b//") [] [] in
  let v := mkURL [] (str "a") (str "/b") [] [] in
  Equal (Some u) (Some v) = true /\
  Parent u = (v, true) /\
  Parent v = (mkURL [] (str "a") [] [] [], true) /\
  Equal (Some (Identity u)) (Some (Identity v)) = false.
Proof. vm_compute. auto. Qed.

(** ** Memoisation *)

(** A cache is right when each field is unset or holds the value it caches. *)
Record memo_ok (m : Memo.MURL) : Prop := {
  memo_str : Memo.str_ (Memo.memoize m) = [] \/ Memo.str_ (Memo.memoize m) = URL_String (Memo.url m);
  memo_hash : Memo.hash (Memo.memoize m) = Memo.zero32 \/ Memo.hash (Memo.memoize m) = Hash32 (Memo.url m);
  memo_account : Memo.accountID (Memo.memoize m) = Memo.zero32
                 \/ Memo.accountID (Memo.memoize m) = AccountID32 (Memo.url m);
  memo_identity : Memo.identityID (Memo.memoize m) = Memo.zero32
                  \/ Memo.identityID (Memo.memoize m) = IdentityAccountID32 (Memo.url m)
}.

Lemma fresh_ok u : memo_ok (Memo.fresh_url u).
Proof. by split; left. Qed.

(** What a memoised method returns: the plain value, the same URL, a right cache. *)
Definition answers_as {A} (f : URL -> A) (m : Memo.MURL) (r : A * Memo.MURL) : Prop :=
  fst r = f (Memo.url m) /\ Memo.url (snd r) = Memo.url m /\ memo_ok (snd r).

Lemma memo_String m : memo_ok m -> answers_as URL_String m (Memo.String_memo m).
Proof.
  intros [Hs Hh Ha Hi]. unfold Memo.String_memo, answers_as. destruct (bytes_eqb _ []) eqn:E; simpl.
  - split_and!; [done|done|]. split; simpl; auto.
  - destruct Hs as [Hs|Hs]; [by rewrite Hs in E|]. split_and!; [done|done|]. split; auto.
Qed.

Lemma memo_Account m : memo_ok m -> answers_as AccountID32 m (Memo.AccountID32_memo m).
Proof.
  intros [Hs Hh Ha Hi]. unfold Memo.AccountID32_memo, answers_as. destruct (bytes_eqb _ Memo.zero32) eqn:E; simpl.
  - split_and!; [done|done|]. split; simpl; auto.
  - destruct Ha as [Ha|Ha]; [by rewrite Ha, bytes_eqb_refl in E|]. split_and!; [done|done|]. split; auto.
Qed.

Lemma memo_Identity m : memo_ok m -> answers_as IdentityAccountID32 m (Memo.IdentityAccountID32_memo m).
Proof.
  intros [Hs Hh Ha Hi]. unfold Memo.IdentityAccountID32_memo, answers_as.
  destruct (bytes_eqb _ Memo.zero32) eqn:E; simpl.
  - split_and!; [done|done|]. split; simpl; auto.
  - destruct Hi as [Hi|Hi]; [by rewrite Hi, bytes_eqb_refl in E|]. split_and!; [done|done|]. split; auto.
Qed.

Lemma memo_Hash m : memo_ok m -> answers_as Hash32 m (Memo.Hash32_memo m).
Proof.
  intros Hm. unfold Memo.Hash32_memo. destruct (bytes_eqb (Memo.hash _) Memo.zero32) eqn:E; cbn [negb]; last first.
  { destruct (memo_hash _ Hm) as [Hh|Hh]; [by rewrite Hh, bytes_eqb_refl in E|]. by split. }
  destruct (memo_Account m Hm) as (Hv & Hu & [Hs Hh Ha Hi]). destruct (Memo.AccountID32_memo m) as [h m'].
  simpl in Hv, Hu, Hs, Ha, Hi. subst h. unfold answers_as; simpl. rewrite Hu in Hs, Ha, Hi |- *.
  split; [done|]. split; [done|]. split; simpl; auto.
Qed.

Lemma run_calls_ok cs m : memo_ok m -> Memo.run_calls cs m = Memo.answers cs (Memo.url m).
Proof.
  revert m. induction cs as [|c cs IH]; intros m Hm; [done|]. cbn [Memo.run_calls].
  destruct c as [| | | |f]; cbn [Memo.run_call Memo.answers];
    [pose proof (memo_String m Hm) as H; destruct (Memo.String_memo m) as [v m']
    |pose proof (memo_Identity m Hm) as H; destruct (Memo.IdentityAccountID32_memo m) as [v m']
    |pose proof (memo_Account m Hm) as H; destruct (Memo.AccountID32_memo m) as [v m']
    |pose proof (memo_Hash m Hm) as H; destruct (Memo.Hash32_memo m) as [v m']
    |].
  1-4: destruct H as (Hv & Hu & Hok); simpl in *; by rewrite Hv, (IH m' Hok), Hu.
  simpl. rewrite IH; [done|apply fresh_ok].
Qed.

(** Memoisation is invisible: any sequence of calls of [String],
    [IdentityAccountID32], [AccountID32], [Hash32] and [With...] copies on a fresh
    URL returns what computing each answer from the components returns. *)
Theorem memo_refines cs u : Memo.run_calls cs (Memo.fresh_url u) = Memo.answers cs u.
Proof. apply run_calls_ok, fresh_ok. Qed.

(** ** Hexadecimal *)

Lemma hex_decode_byte b s :
  hex_DecodeString (hex_byte lower_hex b ++ s) = let! r := hex_DecodeString s in Ok (b :: r).
Proof. by destruct b. Qed.

Lemma hex_roundtrip s : hex_DecodeString (hex_EncodeToString s) = Ok s.
Proof.
  induction s as [|b s IH]; [done|]. unfold hex_EncodeToString in *.
  by rewrite bind_cons, hex_decode_byte, IH.
Qed.

Lemma hex_length s : length (hex_EncodeToString s) = (2 * length s)%nat.
Proof.
  induction s as [|b s IH]; [done|]. unfold hex_EncodeToString in *.
  rewrite bind_cons, length_app, IH. simpl. lia.
Qed.

Lemma hex_encode_chars s : Forall (fun c => is_alnum c = true) (hex_EncodeToString s).
Proof.
  induction s as [|b s IH]; [done|]. unfold hex_EncodeToString in *. rewrite bind_cons.
  apply Forall_app. split; [|done]. by destruct b; repeat constructor.
Qed.

Lemma hex_digit_fold a x :
  fromHexChar a = Some x -> 0 <= x < 16 /\ lower a = hex_digit lower_hex x.
Proof. by destruct a; intros H; vm_compute in H; simplify_eq; vm_compute. Qed.


(** Decoding forgets only the case of the digits. *)
Lemma hex_decode_fold n s b :
  (length s <= n)%nat -> hex_DecodeString s = Ok b -> ToLower (hex_EncodeToString b) = ToLower s.
Proof.
  revert s b. induction n as [|n IH]; intros [|x [|y s]] b Hn H; simpl in Hn, H; try lia;
    inv_res; try (by subst); try discriminate.
  destruct (fromHexChar x) as [p|] eqn:Ex, (fromHexChar y) as [q|] eqn:Ey; try discriminate.
  inv_res. subst b. apply IH in Hv; [|lia].
  destruct (hex_digit_fold _ _ Ex) as [Hp Ep], (hex_digit_fold _ _ Ey) as [Hq Eq].
  unfold hex_EncodeToString in *. rewrite bind_cons, ToLower_app, Hv. unfold hex_byte.
  rewrite b2z_z2b_small by lia.
  replace ((p * 16 + q) / 16) with p by (apply (Z.div_unique _ _ _ q); lia).
  replace ((p * 16 + q) mod 16) with q by (apply (Z.mod_unique _ _ p); lia).
  rewrite <- Ep, <- Eq. rewrite !ToLower_cons, !lower_idemp. done.
Qed.

(** ** Transaction identifiers *)

(** A transaction identifier survives its URL form: the URL with the hash as
    user info reads back as the hash and the account (without user info), it prints
    as the identifier does, and a URL that reads as an identifier equals the URL of
    that identifier. *)
Theorem TxID_roundtrip u h :
  length h = 32%nat ->
  TxID.AsTxID (TxID.AsUrl (TxID.WithTxID u h)) = Ok (TxID.mkTxID (WithUserInfo [] u) h) /\
  TxID.TxID_String (TxID.WithTxID u h) = URL_String (TxID.AsUrl (TxID.WithTxID u h)) /\
  (forall v x, TxID.AsTxID v = Ok x ->
     Equal (Some (TxID.AsUrl x)) (Some v) = true /\ length (TxID.hash x) = 32%nat).
Proof.
  intros Hh. split_and!.
  - unfold TxID.AsTxID, TxID.AsUrl, TxID.WithTxID. simpl UserInfo. simpl TxID.hash. rewrite hex_roundtrip.
    destruct h as [|b h]; [done|]. unfold zlen. rewrite Hh. done.
  - unfold TxID.TxID_String, TxID.AsUrl, TxID.WithTxID, URL_String, format. simpl.
    destruct h as [|b h]; [done|]. done.
  - intros v x. unfold TxID.AsTxID. case_match; [done|].
    destruct (hex_DecodeString (UserInfo v)) as [hh| |] eqn:Ed; try discriminate.
    destruct (Z.eqb_spec (zlen hh) 32) as [El|]; [|done]. intros E. cbn in E. injection E as <-.
    split; [|unfold zlen in El; simpl; lia].
    apply (proj2 (EqualFold_spec (URL_String _) (URL_String _))). rewrite !String_lower. unfold TxID.AsUrl. simpl.
    by rewrite (hex_decode_fold _ _ _ (le_n _) Ed).
Qed.

Lemma TxID_roundtrip_witness :
  TxID.AsTxID (TxID.AsUrl (TxID.WithTxID (mkURL [] (str "a.acme") (str "/b") [] []) (replicate 32 Byte.xab)))
  = Ok (TxID.mkTxID (mkURL [] (str "a.acme") (str "/b") [] []) (replicate 32 Byte.xab)).
Proof.
  exact (proj1 (TxID_roundtrip (mkURL [] (str "a.acme") (str "/b") [] []) (replicate 32 Byte.xab) eq_refl)).
Defined.

(** ** Lite addresses *)

Lemma splitColon_none s : colon ∉ s -> splitColon s = (s, []).
Proof. intros H. unfold splitColon. by rewrite IndexByte_none. Qed.

Lemma alnum_no_colon s : Forall (fun c => is_alnum c = true) s -> colon ∉ s.
Proof. rewrite Forall_forall. intros H Hin. by specialize (H _ Hin). Qed.

Lemma hex_app s t : hex_EncodeToString (s ++ t) = hex_EncodeToString s ++ hex_EncodeToString t.
Proof. apply bind_app. Qed.

(** Lite addresses survive their URL form: the lite identity made from a key
    hash parses, checksum included, to the first 20 bytes of the hash, and a lite
    data address parses to the first 32 bytes of the chain identifier; shorter
    chain identifiers are refused. *)
Theorem lite_address_roundtrip (h : bytes) :
  (20 <= length h)%nat ->
  (let! u := Lite.LiteAuthorityForHash h in Lite.ParseLiteIdentity u) = Ok (Some (take 20 h)) /\
  (let! u := Lite.LiteDataAddress h in Lite.ParseLiteDataAddress u)
  = if zlen h <? 32 then errorf "chainId for LiteDataAddress must be 32 bytes in length"
    else Ok (take 32 h).
Proof.
  intros Hh. split.
  - unfold Lite.LiteAuthorityForHash. rewrite slice_to_ok by (unfold zlen; lia). cbn [res_bind].
    change (Z.to_nat 20) with 20%nat. set (k := take 20 h).
    assert (Hk : length k = 20%nat) by (subst k; rewrite length_take; lia).
    pose proof (sha256_length (hex_EncodeToString k)) as Hsha.
    set (c := sha256 (hex_EncodeToString k)) in *.
    rewrite slice_from_ok by (unfold zlen; lia). cbn [res_bind]. change (Z.to_nat 28) with 28%nat.
    unfold Lite.ParseLiteIdentity, Lite.ParseLiteAddress, Hostname. cbn [Path Authority].
    rewrite <- hex_app. rewrite splitColon_none by apply alnum_no_colon, hex_encode_chars. cbn [fst].
    rewrite hex_roundtrip. cbn [res_bind bytes_eqb].
    assert (Hlen : zlen (k ++ drop 28 c) = 24) by (unfold zlen; rewrite length_app, length_drop; lia).
    change (bytes_eqb [] []) with true. cbn [negb andb]. rewrite Hlen. cbn [Z.leb Z.compare].
    unfold Lite.checksumLen. change (24 <=? 4) with false. cbn iota. change (24 - 4) with 20.
    replace 20 with (zlen k) by (unfold zlen; lia).
    rewrite slice_to_app, slice_from_app. cbn [res_bind].
    replace (zlen (hex_EncodeToString (k ++ drop 28 c)) - 4 * 2) with (zlen (hex_EncodeToString k))
      by (unfold zlen; rewrite !hex_length, length_app, length_drop; lia).
    rewrite hex_app, slice_to_app. cbn [res_bind]. fold c.
    rewrite slice_from_ok by (unfold zlen; lia). cbn [res_bind].
    replace (Z.to_nat (zlen c - 4)) with 28%nat by (unfold zlen; lia).
    rewrite bytes_eqb_refl. cbn [negb res_bind]. rewrite Z.eqb_refl. done.
  - unfold Lite.LiteDataAddress. case_match eqn:E; [done|].
    assert (32 <= length h)%nat by (unfold zlen in E; lia).
    rewrite slice_to_ok by (unfold zlen; lia). cbn [res_bind].
    unfold Lite.ParseLiteDataAddress, Hostname. cbn [Path Authority].
    rewrite splitColon_none by apply alnum_no_colon, hex_encode_chars. cbn [fst].
    rewrite hex_roundtrip. change (bytes_eqb [] []) with true. cbn [negb res_bind].
    rewrite zlen_take by lia. done.
Qed.

Lemma lite_address_roundtrip_witness :
  (let! u := Lite.LiteAuthorityForHash (replicate 32 Byte.xc0) in Lite.ParseLiteIdentity u)
  = Ok (Some (replicate 20 Byte.xc0)).
Proof. refine (proj1 (lite_address_roundtrip (replicate 32 Byte.xc0) _)). simpl. lia. Defined.

Definition ToUpper (s : bytes) : bytes :=
  (fun b => if (97 <=? b2z b) && (b2z b <=? 122) then z2b (b2z b - 32) else b) <$> s.

(** The checksum of a lite address is taken of the authority as it is written,
    although URLs are compared without regard to case: a lite identity in upper case
    is [Equal] to the one in lower case and names the same account, and its checksum
    is refused. *)
Theorem lite_checksum_case_sensitive :
  exists u, Lite.LiteAuthorityForHash (replicate 20 Byte.xab) = Ok u /\
    let v := WithAuthority (ToUpper (Authority u)) u in
    Equal (Some u) (Some v) = true /\ AccountID32 u = AccountID32 v /\
    Lite.ParseLiteIdentity u = Ok (Some (replicate 20 Byte.xab)) /\
    Lite.ParseLiteIdentity v = errorf "invalid checksum".
Proof.
  eexists. split; [vm_compute; reflexivity|]. cbn zeta.
  split; [vm_compute; reflexivity|]. split; [vm_compute; reflexivity|].
  split; vm_compute; reflexivity.
Qed.
