(* ===== verification/UrlParse.v ===== *)
(** * Parsing URLs: [Parse] of [pkg/url/url.go], on Go's [net/url]

    The first part is what [Parse] uses of [net/url] (Go 1.18): the scheme, the authority
    with its user info and port, the path, the query, the fragment and the percent
    decoding of each.  [RawPath], [RawFragment] and [ForceQuery] are left out: the code
    does not read them.  The second part shows when the text of a URL is parsed back to
    the URL it was made from, which is what keeps a URL in a stored or sent structure. *)

From S2P Require Import Prelude Sha256 Encoding Url UrlProofs.
Local Open Scope Z_scope.
Import Url TxID.

(** ** What the package uses of [net/url] *)

Definition percent : byte := Byte.x25.
Definition hash_sign : byte := Byte.x23.
Definition question : byte := Byte.x3f.
Definition star : byte := Byte.x2a.
Definition bracket : byte := Byte.x5b.
Definition unbracket : byte := Byte.x5d.

Definition Contains (s : bytes) (c : byte) : bool := bool_decide (c ∈ s).
Definition HasPrefix (s p : bytes) : bool := bool_decide (take (length p) s = p).

(** [strings.Cut] at a byte. *)
Definition Cut (s : bytes) (c : byte) : bytes * bytes :=
  let i := IndexByte s c in
  if i <? 0 then (s, []) else (take (Z.to_nat i) s, drop (Z.to_nat (i + 1)) s).

(** [strings.Index] of the escaped percent sign. *)
Fixpoint Index25 (s : bytes) : Z :=
  if HasPrefix s (str "%25") then 0
  else match s with
       | [] => -1
       | _ :: s => let i := Index25 s in if i <? 0 then -1 else i + 1
       end.

Inductive encoding_mode := encodePath | encodeHost | encodeZone | encodeUserPassword | encodeFragment.

(** [encodeHost] and [encodeZone]. *)
Definition is_host (mode : encoding_mode) : bool :=
  match mode with encodeHost | encodeZone => true | _ => false end.

(** [shouldEscape(c, encodeHost)], the same for [encodeZone]. *)
Definition shouldEscapeHost (c : byte) : bool :=
  negb (is_alnum c || bool_decide (c ∈ Byte.x22 :: str "!$&'()*+,;=:[]<>-_.~")).

Definition escape_refused (mode : encoding_mode) (x y v : Z) : bool :=
  let percent := (x =? 2) && (y =? 5) in
  match mode with
  | encodeHost => (x <? 8) && negb percent
  | encodeZone => negb percent && negb (v =? 32) && shouldEscapeHost (z2b v)
  | _ => false
  end.

(** [unescape]; the check of the string and its decoding are one pass. *)
Fixpoint unescape (mode : encoding_mode) (s : bytes) : res bytes :=
  match s with
  | [] => Ok []
  | c :: s =>
      if bool_decide (c = percent) then
        match s with
        | x :: y :: s =>
            match fromHexChar x, fromHexChar y with
            | Some x, Some y =>
                let v := x * 16 + y in
                if escape_refused mode x y v then errorf "invalid URL escape"
                else let! t := unescape mode s in Ok (z2b v :: t)
            | _, _ => errorf "invalid URL escape"
            end
        | _ => errorf "invalid URL escape"
        end
      else if is_host mode && (b2z c <? 128) && shouldEscapeHost c then errorf "invalid character in host name"
      else let! t := unescape mode s in Ok (c :: t)
  end.

Definition is_ctl (b : byte) : bool := (b2z b <? 32) || (b2z b =? 127).
Definition stringContainsCTLByte (s : bytes) : bool := existsb is_ctl s.

Definition is_letter (b : byte) : bool :=
  let z := b2z b in ((97 <=? z) && (z <=? 122)) || ((65 <=? z) && (z <=? 90)).
Definition is_digit (b : byte) : bool := (48 <=? b2z b) && (b2z b <=? 57).

(** [getScheme]: the loop, with the bytes before [rest]. *)
Fixpoint scheme_loop (before rest rawURL : bytes) : res (bytes * bytes) :=
  match rest with
  | [] => Ok ([], rawURL)
  | c :: rest =>
      if is_letter c then scheme_loop (before ++ [c]) rest rawURL
      else if is_digit c || bool_decide (c ∈ str "+-.") then
        match before with [] => Ok ([], rawURL) | _ => scheme_loop (before ++ [c]) rest rawURL end
      else if bool_decide (c = colon) then
        match before with [] => errorf "missing protocol scheme" | _ => Ok (before, rest) end
      else Ok ([], rawURL)
  end.
Definition getScheme (rawURL : bytes) : res (bytes * bytes) := scheme_loop [] rawURL rawURL.

Definition validOptionalPort (port : bytes) : bool :=
  match port with
  | [] => true
  | c :: digits => bool_decide (c = colon) && forallb is_digit digits
  end.

Definition userinfo_char (b : byte) : bool := is_alnum b || bool_decide (b ∈ str "-._:~!$&'()*+,;=%@").
Definition validUserinfo (s : bytes) : bool := forallb userinfo_char s.

Definition parseHost (host : bytes) : res bytes :=
  let port_error := errorf "invalid port after host" in
  if HasPrefix host [bracket] then
    let i := LastIndexByte host unbracket in
    if i <? 0 then errorf "missing ']' in host"
    else if negb (validOptionalPort (drop (Z.to_nat (i + 1)) host)) then port_error
    else
      let zone := Index25 (take (Z.to_nat i) host) in
      if 0 <=? zone then
        let! host1 := unescape encodeHost (take (Z.to_nat zone) host) in
        let! host2 := unescape encodeZone (drop (Z.to_nat zone) (take (Z.to_nat i) host)) in
        let! host3 := unescape encodeHost (drop (Z.to_nat i) host) in
        Ok (host1 ++ host2 ++ host3)
      else unescape encodeHost host
  else
    let i := LastIndexByte host colon in
    if negb (i =? -1) && negb (validOptionalPort (drop (Z.to_nat i) host)) then port_error
    else unescape encodeHost host.

(** The user info: a name and, after a colon, a password. *)
Definition Userinfo : Type := bytes * option bytes.

Definition parseAuthority (authority : bytes) : res (option Userinfo * bytes) :=
  let i := LastIndexByte authority at_sign in
  let! host := parseHost (if i <? 0 then authority else drop (Z.to_nat (i + 1)) authority) in
  if i <? 0 then Ok (None, host)
  else
    let userinfo := take (Z.to_nat i) authority in
    if negb (validUserinfo userinfo) then errorf "net/url: invalid userinfo"
    else if negb (Contains userinfo colon) then
      let! userinfo := unescape encodeUserPassword userinfo in
      Ok (Some (userinfo, None), host)
    else
      let '(username, password) := Cut userinfo colon in
      let! username := unescape encodeUserPassword username in
      let! password := unescape encodeUserPassword password in
      Ok (Some (username, Some password), host).

(** [net/url.URL]. *)
Record NetURL := mkNetURL {
  net_Scheme : bytes; net_Opaque : bytes; net_User : option Userinfo; net_Host : bytes;
  net_Path : bytes; net_RawQuery : bytes; net_Fragment : bytes }.

(** The query is cut off; a question mark at the end only sets [ForceQuery]. *)
Definition cut_query (rest : bytes) : bytes * bytes :=
  if bool_decide (last rest = Some question) && bool_decide (count_occ Byte.byte_eq_dec rest question = 1%nat)
  then (take (length rest - 1) rest, [])
  else Cut rest question.

(** The authority ends at the path. *)
Definition cut_path (authority : bytes) : bytes * bytes :=
  let i := IndexByte authority slash in
  if 0 <=? i then (take (Z.to_nat i) authority, drop (Z.to_nat i) authority) else (authority, []).

(** [parse(rawURL, false)]. *)
Definition net_parse (rawURL : bytes) : res NetURL :=
  if stringContainsCTLByte rawURL then errorf "net/url: invalid control character in URL"
  else if bytes_eqb rawURL [star] then Ok (mkNetURL [] [] None [] [star] [] [])
  else
    let! split := getScheme rawURL in
    let scheme := ToLower (fst split) in
    let rest := snd split in
    let '(rest, query) := cut_query rest in
    if negb (HasPrefix rest [slash]) && negb (bytes_eqb scheme []) then
      Ok (mkNetURL scheme rest None [] [] query [])
    else if negb (HasPrefix rest [slash]) && Contains (fst (Cut rest slash)) colon then
      errorf "first path segment in URL cannot contain colon"
    else
      let! parts :=
        if (negb (bytes_eqb scheme []) || negb (HasPrefix rest [slash; slash; slash]))
           && HasPrefix rest [slash; slash]
        then
          let '(authority, rest) := cut_path (drop 2 rest) in
          let! login := parseAuthority authority in
          Ok (login, rest)
        else Ok ((None, []), rest) in
      let '(user, host, rest) := parts in
      let! path := unescape encodePath rest in
      Ok (mkNetURL scheme [] user host path query []).

(** [net/url.Parse]. *)
Definition net_Parse (rawURL : bytes) : res NetURL :=
  let '(u, frag) := Cut rawURL hash_sign in
  let! url := net_parse u in
  match frag with
  | [] => Ok url
  | _ =>
      let! f := unescape encodeFragment frag in
      Ok (mkNetURL (net_Scheme url) (net_Opaque url) (net_User url) (net_Host url) (net_Path url)
                   (net_RawQuery url) f)
  end.

(** ** [Parse] *)

Definition user_info (u : option Userinfo) : bytes :=
  match u with
  | None => []
  | Some (name, password) => name ++ prefixed colon (default [] password)
  end.

Definition Parse (s : bytes) : res URL :=
  let! u := net_Parse s in
  let! u := if bytes_eqb (net_Scheme u) [] then net_Parse (str "acc://" ++ s) else Ok u in
  if negb (bytes_eqb (net_Scheme u) (str "acc")) then errorf "wrong scheme"
  else
    match net_Host u with
    | [] => errorf "missing host"
    | c :: _ =>
        if bool_decide (c = colon) then errorf "missing host"
        else Ok (mkURL (user_info (net_User u)) (net_Host u) (net_Path u) (net_RawQuery u) (net_Fragment u))
    end.

Definition MustParse (s : bytes) : res URL :=
  match Parse s with Ok u => Ok u | Err e => Panic (err_msg e) | Panic p => Panic p end.

Definition ParseTxID (s : bytes) : res TxID := let! u := Parse s in AsTxID u.

Definition MustParseTxID (s : bytes) : res TxID :=
  match ParseTxID s with Ok u => Ok u | Err e => Panic (err_msg e) | Panic p => Panic p end.
(** ** Canonical URLs

    The components of a URL that [format] writes so that they can be read back. *)

Definition host_char (b : byte) : bool := negb ((b2z b <? 128) && shouldEscapeHost b).

Definition login_canonical (s : bytes) : bool :=
  forallb userinfo_char s && lacks [percent] s && (negb (Contains s colon) || negb (bytes_eqb (snd (splitColon s)) [])).

Definition port_canonical (s : bytes) : bool :=
  (LastIndexByte s colon =? -1) || validOptionalPort (drop (Z.to_nat (LastIndexByte s colon)) s).

Definition host_canonical (s : bytes) : bool :=
  match s with
  | [] => false
  | c :: _ => negb (bool_decide (c = colon)) && negb (bool_decide (c = bracket))
  end && forallb host_char s
  && port_canonical s.

Definition query_canonical (s : bytes) : bool := lacks [hash_sign] s && negb (stringContainsCTLByte s).

Definition canonical (u : URL) : bool :=
  login_canonical (UserInfo u) && host_canonical (Authority u)
  && bytes_eqb (normalizePath (Path u)) (Path u) && query_canonical (Query u) && lacks [percent] (Fragment u).

(** ** Cutting strings *)

Lemma Cut_app l1 c l2 : c ∉ l1 -> Cut (l1 ++ c :: l2) c = (l1, l2).
Proof.
  intros H. unfold Cut. rewrite IndexByte_app by done. pose proof (zlen_nonneg l1).
  rewrite (proj2 (Z.ltb_ge _ _)) by lia.
  replace (Z.to_nat (zlen l1)) with (length l1) by (unfold zlen; lia).
  replace (Z.to_nat (zlen l1 + 1)) with (S (length l1)) by (unfold zlen; lia).
  rewrite take_app_length. f_equal. replace (l1 ++ c :: l2) with ((l1 ++ [c]) ++ l2) by by rewrite <- app_assoc.
  replace (S (length l1)) with (length (l1 ++ [c])) by (rewrite length_app; simpl; lia). by rewrite drop_app_length.
Qed.

Lemma Cut_none s c : c ∉ s -> Cut s c = (s, []).
Proof. intros H. unfold Cut. by rewrite IndexByte_none. Qed.

Lemma Cut_prefixed l1 c l2 : c ∉ l1 -> Cut (l1 ++ prefixed c l2) c = (l1, l2).
Proof. intros H. destruct l2; simpl; [rewrite app_nil_r; by apply Cut_none|by apply Cut_app]. Qed.

Lemma splitColon_Cut s : splitColon s = Cut s colon.
Proof. done. Qed.

Lemma elem_rev (c : byte) (s : bytes) : c ∈ rev s <-> c ∈ s.
Proof. by rewrite !list_elem_of_In, <- in_rev. Qed.

Lemma LastIndexByte_none s c : c ∉ s -> LastIndexByte s c = -1.
Proof. intros H. unfold LastIndexByte. by rewrite IndexByte_none by by rewrite elem_rev. Qed.

Lemma HasPrefix_app p s : HasPrefix (p ++ s) p = true.
Proof. unfold HasPrefix. by rewrite take_app_length, bool_decide_true. Qed.

Lemma HasPrefix_slash s : HasPrefix (slash :: s) [slash] = true.
Proof. exact (HasPrefix_app [slash] s). Qed.
Lemma HasPrefix_slashes s : HasPrefix (slash :: slash :: s) [slash; slash] = true.
Proof. exact (HasPrefix_app [slash; slash] s). Qed.

(** ** Decoding *)

Lemma unescape_plain mode s :
  percent ∉ s -> (is_host mode = true -> forallb host_char s = true) -> unescape mode s = Ok s.
Proof.
  induction s as [|c s IH]; intros Hp Hh; [done|]. apply not_elem_of_cons in Hp as [Hc Hp]. simpl.
  rewrite bool_decide_false by done.
  assert (is_host mode && (b2z c <? 128) && shouldEscapeHost c = false) as ->.
  { destruct (is_host mode); [|done]. specialize (Hh eq_refl). simpl in Hh. apply andb_prop in Hh as [Hh _].
    unfold host_char in Hh. by apply negb_true_iff in Hh. }
  rewrite IH; [done..|]. intros E. specialize (Hh E). simpl in Hh. by apply andb_prop in Hh as [_ ?].
Qed.

Lemma unescape_seg_char b r :
  unescape encodePath (seg_char true b ++ r) = let! t := unescape encodePath r in Ok (b :: t).
Proof. destruct b; reflexivity. Qed.

Lemma unescape_path s : unescape encodePath (s ≫= seg_char true) = Ok s.
Proof.
  induction s as [|b s IH]; [done|]. rewrite bind_cons, unescape_seg_char, IH. done.
Qed.

(** ** The text of a URL *)

Definition raw_path (p : bytes) : bytes :=
  match normalizePath p with [] => [] | _ :: s => slash :: (s ≫= seg_char true) end.

(** The text up to the fragment. *)
Definition head_text (login : bytes) (u : URL) : bytes :=
  str "acc://" ++ ((suffixed login at_sign ++ Authority u) ++ raw_path (Path u)) ++ prefixed question (Query u).

Lemma String_text u : URL_String u = head_text (UserInfo u) u ++ prefixed hash_sign (Fragment u).
Proof.
  unfold URL_String, format, head_text, raw_path. rewrite <- !app_assoc. do 4 f_equal.
  destruct (normalizePath (Path u)) as [|c s]; [done|]. by rewrite format_path_eq by (simpl; lia).
Qed.

(** Bytes that can stand before the query. *)
Definition quiet (D : bytes) (b : byte) : bool := bool_decide (b ∉ D) && negb (is_ctl b).

Lemma quiet_userinfo b : userinfo_char b = true -> quiet (str "/?#") b = true.
Proof. by destruct b. Qed.
Lemma quiet_host b : host_char b = true -> quiet (str "/?#@%") b = true.
Proof. by destruct b. Qed.
Lemma quiet_seg b : forallb (quiet (str "?#")) (seg_char true b) = true.
Proof. by destruct b. Qed.

Lemma quiet_all (P : byte -> bool) D s :
  (forall b, P b = true -> quiet D b = true) -> forallb P s = true -> forallb (quiet D) s = true.
Proof. rewrite !forallb_forall. auto. Qed.

Lemma quiet_sub D E s : forallb (quiet D) s = true -> E ⊆ D -> forallb (quiet E) s = true.
Proof.
  intros Hs HE. eapply quiet_all; [|exact Hs]. intros b. unfold quiet. rewrite !andb_true_iff, !bool_decide_eq_true.
  intros [Hb Hc]. set_solver.
Qed.

Lemma quiet_lacks D s c : forallb (quiet D) s = true -> c ∈ D -> c ∉ s.
Proof.
  rewrite forallb_forall. intros Hs Hc Hin. apply list_elem_of_In in Hin. specialize (Hs c Hin).
  unfold quiet in Hs. rewrite andb_true_iff, bool_decide_eq_true in Hs. tauto.
Qed.

Lemma quiet_ctl D s : forallb (quiet D) s = true -> stringContainsCTLByte s = false.
Proof.
  induction s as [|b s IH]; [done|]. simpl. rewrite andb_true_iff. intros [Hb Hs]. rewrite IH by done.
  unfold quiet in Hb. apply andb_prop in Hb as [_ Hb]. apply negb_true_iff in Hb. by rewrite Hb.
Qed.

Lemma ctl_app s t : stringContainsCTLByte (s ++ t) = stringContainsCTLByte s || stringContainsCTLByte t.
Proof. apply existsb_app. Qed.

Lemma quiet_raw_path p : forallb (quiet (str "?#")) (raw_path p) = true.
Proof.
  unfold raw_path. destruct (normalizePath p) as [|c s]; [done|]. simpl.
  induction s as [|b s IH]; [done|]. by rewrite bind_cons, forallb_app, quiet_seg.
Qed.

Lemma lacks_one c s : lacks [c] s = true -> c ∉ s.
Proof. rewrite lacks_elem, Forall_forall. intros H Hin. by apply (H c Hin), list_elem_of_singleton. Qed.

Lemma parseHost_canonical h : host_canonical h = true -> parseHost h = Ok h.
Proof.
  unfold host_canonical. rewrite !andb_true_iff. intros [[Hc Hh] Hp]. unfold parseHost.
  assert (HasPrefix h [bracket] = false) as ->.
  { destruct h as [|c h]; [done|]. unfold HasPrefix. simpl. rewrite take_0. apply bool_decide_false.
    intros [= ->]. by rewrite andb_false_r in Hc. }
  assert (negb (LastIndexByte h colon =? -1) &&
          negb (validOptionalPort (drop (Z.to_nat (LastIndexByte h colon)) h)) = false) as ->.
  { unfold port_canonical in Hp. destruct (LastIndexByte h colon =? -1); [done|]. simpl in *. by rewrite Hp. }
  apply unescape_plain; [|done]. eapply quiet_lacks; [eapply quiet_all; [exact quiet_host|done]|]. by compute_done.
Qed.

Lemma parseAuthority_canonical login host :
  login_canonical login = true -> host_canonical host = true ->
  exists user, parseAuthority (suffixed login at_sign ++ host) = Ok (user, host) /\ user_info user = login.
Proof.
  intros Hl Hh. unfold parseAuthority.
  assert (Ha : at_sign ∉ host).
  { unfold host_canonical in Hh. rewrite !andb_true_iff in Hh.
    eapply quiet_lacks; [eapply quiet_all; [exact quiet_host|apply Hh]|]. by compute_done. }
  destruct login as [|c login].
  { simpl. rewrite LastIndexByte_none by done. simpl. rewrite parseHost_canonical by done. by exists None. }
  set (l := c :: login) in *. replace (suffixed l at_sign ++ host) with (l ++ at_sign :: host)
    by (change (suffixed l at_sign) with (l ++ [at_sign]); by rewrite <- app_assoc).
  rewrite LastIndexByte_app by done. rewrite (proj2 (Z.ltb_ge _ _)) by apply zlen_nonneg.
  replace (Z.to_nat (zlen l + 1)) with (S (length l)) by (unfold zlen; lia).
  replace (Z.to_nat (zlen l)) with (length l) by (unfold zlen; lia).
  rewrite take_app_length, drop_app_ge by lia. replace (S (length l) - length l)%nat with 1%nat by lia.
  cbn [drop]. rewrite parseHost_canonical by done. cbn [res_bind].
  unfold login_canonical in Hl. rewrite !andb_true_iff, orb_true_iff in Hl. destruct Hl as [[Hu Hp%lacks_one] Hs].
  unfold validUserinfo. rewrite Hu. cbn [negb].
  destruct (Contains l colon) eqn:Ec; cbn [negb].
  - destruct Hs as [?|Hs]; [done|]. rewrite splitColon_Cut in Hs. unfold Contains in Ec.
    apply bool_decide_eq_true, list_elem_of_split_l in Ec as (l1 & l2 & E & Hn).
    rewrite E in *. rewrite Cut_app in * by done. cbn [snd] in Hs. rewrite not_elem_of_app, not_elem_of_cons in Hp.
    rewrite !unescape_plain by (done || tauto). eexists. split; [done|]. simpl. by destruct l2.
  - rewrite unescape_plain by done. eexists. split; [done|]. simpl. by rewrite app_nil_r.
Qed.

Lemma count_absent (c : byte) s : c ∉ s -> count_occ Byte.byte_eq_dec s c = 0%nat.
Proof. intros H. apply count_occ_not_In. by rewrite <- list_elem_of_In. Qed.

Lemma cut_query_text s q : question ∉ s -> cut_query (s ++ prefixed question q) = (s, q).
Proof.
  intros Hs. unfold cut_query.
  assert (bool_decide (last (s ++ prefixed question q) = Some question) &&
          bool_decide (count_occ Byte.byte_eq_dec (s ++ prefixed question q) question = 1%nat) = false) as ->;
    [|by apply Cut_prefixed].
  apply andb_false_iff. rewrite !bool_decide_eq_false. destruct q as [|b q]; simpl.
  { left. rewrite app_nil_r. intros (l & ->)%last_Some. set_solver. }
  destruct (decide (question ∈ b :: q)) as [Hq|Hq].
  - right. rewrite count_occ_app, count_absent by done. rewrite list_elem_of_In, (count_occ_In Byte.byte_eq_dec) in Hq.
    rewrite (count_occ_cons_eq _ _ (eq_refl question)). lia.
  - left. rewrite last_app. change (last (question :: b :: q)) with (last (b :: q)).
    destruct (last (b :: q)) as [x|] eqn:E; [|by apply last_None in E].
    intros [= ->]. apply last_Some in E as (l & E). rewrite E in Hq. set_solver.
Qed.

Lemma scheme_text s : getScheme (str "acc://" ++ s) = Ok (str "acc", slash :: slash :: s).
Proof. reflexivity. Qed.

Lemma raw_path_starts p : starts (fun c => c = slash) (raw_path p).
Proof. unfold raw_path. by destruct (normalizePath p). Qed.

Lemma cut_path_text login p :
  slash ∉ login -> starts (fun c => c = slash) p -> cut_path (login ++ p) = (login, p).
Proof.
  intros Hl Hp. unfold cut_path. destruct p as [|c p]; simpl in Hp.
  - by rewrite app_nil_r, IndexByte_none.
  - subst c. rewrite IndexByte_app by done. rewrite (proj2 (Z.leb_le _ _)) by apply zlen_nonneg.
    replace (Z.to_nat (zlen login)) with (length login) by (unfold zlen; lia).
    by rewrite take_app_length, drop_app_length.
Qed.

Lemma unescape_raw_path p : normalizePath p = p -> unescape encodePath (raw_path p) = Ok p.
Proof.
  unfold raw_path. intros E. destruct (normalizePath_shape p) as [H|(c & s & H)]; rewrite H in *; [by subst|].
  change (unescape encodePath (slash :: ((c :: s) ≫= seg_char true)))
    with (let! t := unescape encodePath ((c :: s) ≫= seg_char true) in Ok (slash :: t)).
  by rewrite unescape_path, <- E.
Qed.

Definition login_part (u : URL) : bytes := suffixed (UserInfo u) at_sign ++ Authority u.

Lemma quiet_login u :
  login_canonical (UserInfo u) = true -> host_canonical (Authority u) = true ->
  forallb (quiet (str "/?#")) (login_part u) = true.
Proof.
  unfold login_canonical, host_canonical. rewrite !andb_true_iff. intros [[Hl _] _] [[_ Hh] _].
  unfold login_part. rewrite forallb_app. apply andb_true_iff. split.
  - unfold suffixed. destruct (UserInfo u) as [|c l]; [done|]. rewrite forallb_app. apply andb_true_iff. split; [|done].
    by eapply quiet_all; [exact quiet_userinfo|].
  - eapply quiet_sub; [eapply quiet_all; [exact quiet_host|done]|]. by compute_done.
Qed.

Lemma net_parse_text u :
  canonical u = true ->
  hash_sign ∉ head_text (UserInfo u) u /\
  exists user, net_parse (head_text (UserInfo u) u) =
    Ok (mkNetURL (str "acc") [] user (Authority u) (Path u) (Query u) []) /\ user_info user = UserInfo u.
Proof.
  unfold canonical, query_canonical. rewrite !andb_true_iff. intros [[[[Hl Hh] Hp%bytes_eqb_eq] [Hq%lacks_one Hc]] _].
  destruct (parseAuthority_canonical _ _ Hl Hh) as (user & Ea & Eu).
  pose proof (quiet_login u Hl Hh) as Hlogin. pose proof (quiet_raw_path (Path u)) as Hpath.
  unfold head_text. fold (login_part u) in Ea |- *.
  assert (Hrest : forall c, c ∈ str "?#" -> c ∉ login_part u ++ raw_path (Path u)).
  { intros c Hin. rewrite not_elem_of_app. split; (eapply quiet_lacks; [|exact Hin]); [|done].
    eapply quiet_sub; [exact Hlogin|]. by compute_done. }
  split.
  { rewrite !not_elem_of_app. split; [by compute_done|]. split; [apply not_elem_of_app, Hrest; by compute_done|].
    destruct (Query u); [set_solver|]. apply not_elem_of_cons. by split. }
  exists user. split; [|done].
  assert (Hctl : stringContainsCTLByte (str "acc://" ++ (login_part u ++ raw_path (Path u)) ++ prefixed question (Query u)) = false).
  { rewrite !ctl_app, (quiet_ctl _ _ Hlogin), (quiet_ctl _ _ Hpath). simpl.
    apply negb_true_iff in Hc. by destruct (Query u). }
  unfold net_parse. rewrite Hctl. change (bytes_eqb (str "acc://" ++ _) [star]) with false. cbv iota.
  rewrite scheme_text. cbn [res_bind fst snd].
  change (slash :: slash :: (?a ++ ?b) ++ ?c) with ((slash :: slash :: a ++ b) ++ c).
  rewrite cut_query_text.
  2:{ rewrite !not_elem_of_cons. split; [done|]. split; [done|]. apply Hrest. by compute_done. }
  change (ToLower (str "acc")) with (str "acc").
  rewrite HasPrefix_slash, HasPrefix_slashes.
  change (bytes_eqb (str "acc") []) with false. cbn [negb orb andb]. rewrite skipn_cons, skipn_cons, drop_0.
  rewrite (cut_path_text (login_part u) (raw_path (Path u)));
    [|eapply quiet_lacks; [exact Hlogin|by compute_done]|apply raw_path_starts].
  rewrite Ea. cbn [res_bind]. by rewrite unescape_raw_path.
Qed.

(** The text of a canonical URL is parsed back to the URL. *)
Lemma Parse_canonical u : canonical u = true -> Parse (URL_String u) = Ok u.
Proof.
  intros Hu. destruct (net_parse_text u Hu) as (Hn & user & E & Eu).
  pose proof Hu as Hc. unfold canonical, query_canonical in Hc. rewrite !andb_true_iff in Hc.
  destruct Hc as [[[[_ Hh] _] [Hq%lacks_one _]] Hf%lacks_one].
  rewrite String_text. unfold Parse.
  assert (En : net_Parse (head_text (UserInfo u) u ++ prefixed hash_sign (Fragment u)) =
    Ok (mkNetURL (str "acc") [] user (Authority u) (Path u) (Query u) (Fragment u))).
  { unfold net_Parse. rewrite Cut_prefixed by done. rewrite E. cbn [res_bind].
    rewrite unescape_plain by done. by destruct (Fragment u). }
  rewrite En. cbn -[str]. change (bytes_eqb (str "acc") []) with false. cbv iota. cbn -[str bool_decide].
  change (bytes_eqb (str "acc") (str "acc")) with true. cbn -[str bool_decide].
  unfold host_canonical in Hh. rewrite Eu. destruct u as [ui [|c a] p q f]; [done|]. cbn -[bool_decide] in *.
  rewrite !andb_true_iff, negb_true_iff in Hh. by rewrite (proj1 (proj1 (proj1 Hh))).
Qed.

(** ** What [Parse] returns *)

(** The decoding, as a relation. *)
Inductive unescaped (mode : encoding_mode) : bytes -> bytes -> Prop :=
| unescaped_nil : unescaped mode [] []
| unescaped_char c s t :
    c <> percent -> (is_host mode = true -> host_char c = true) -> unescaped mode s t -> unescaped mode (c :: s) (c :: t)
| unescaped_escape a b x y s t :
    fromHexChar a = Some x -> fromHexChar b = Some y -> escape_refused mode x y (x * 16 + y) = false ->
    unescaped mode s t -> unescaped mode (percent :: a :: b :: s) (z2b (x * 16 + y) :: t).

Lemma unescape_sound mode s t : unescape mode s = Ok t -> unescaped mode s t.
Proof.
  revert t. induction s as [s IH] using (induction_ltof1 _ length). unfold ltof in IH. intros t.
  destruct s as [|c s]; simpl; [intros [= <-]; constructor|]. case_bool_decide as Hc; [subst c|].
  - destruct s as [|a [|b s]]; try done.
    destruct (fromHexChar a) as [x|] eqn:Ea, (fromHexChar b) as [y|] eqn:Eb; try done.
    destruct (escape_refused mode x y (x * 16 + y)) eqn:Er; [done|].
    destruct (unescape mode s) as [t'| |] eqn:E; try done. intros [= <-].
    constructor; try done. apply IH; [simpl; lia|done].
  - destruct (is_host mode && (b2z c <? 128) && shouldEscapeHost c) eqn:Eh; [done|].
    destruct (unescape mode s) as [t'| |] eqn:E; try done. intros [= <-].
    constructor; [done| |apply IH; [simpl; lia|done]]. intros Hm. rewrite Hm in Eh. unfold host_char. simpl in Eh. by rewrite Eh.
Qed.

Lemma fromHexChar_range c x : fromHexChar c = Some x -> 0 <= x < 16 /\ c <> colon.
Proof. destruct c; vm_compute; intros [= <-]; by repeat split. Qed.

(** A decoded byte of a host is not ASCII, or a percent sign. *)
Lemma host_escape x y :
  0 <= x < 16 -> 0 <= y < 16 -> escape_refused encodeHost x y (x * 16 + y) = false ->
  z2b (x * 16 + y) = percent \/ (host_char (z2b (x * 16 + y)) = true /\ z2b (x * 16 + y) <> colon).
Proof.
  intros Hx Hy. unfold escape_refused. destruct (Z.ltb_spec x 8) as [Hx8|Hx8]; simpl; intros E.
  - apply negb_false_iff, andb_prop in E as [->%Z.eqb_eq ->%Z.eqb_eq]. by left.
  - right. assert (Hv : b2z (z2b (x * 16 + y)) = x * 16 + y) by (rewrite b2z_z2b; apply Z.mod_small; lia). split.
    + unfold host_char. rewrite Hv. by rewrite (proj2 (Z.ltb_ge _ _)) by lia.
    + intros E'. rewrite E' in Hv. change (b2z colon) with 58 in Hv. lia.
Qed.

Lemma unescaped_host_chars s t :
  unescaped encodeHost s t -> percent ∉ t -> forallb host_char t = true.
Proof.
  induction 1 as [|c s t Hc Hh _ IH|a b x y s t Ea Eb Er _ IH]; intros Hp; [done| |].
  all: apply not_elem_of_cons in Hp as [Hn Hp]; simpl; rewrite IH by done.
  - by rewrite Hh.
  - apply fromHexChar_range in Ea as [Hx _], Eb as [Hy _]. destruct (host_escape x y Hx Hy Er) as [Hz|[-> _]]; [by destruct Hn|done].
Qed.

Lemma unescaped_colon s t a b :
  unescaped encodeHost s t -> t = a ++ colon :: b ->
  exists a' b', s = a' ++ colon :: b' /\ unescaped encodeHost b' b.
Proof.
  intros H. revert a. induction H as [|c s t Hc Hh H IH|c d x y s t Ea Eb Er H IH]; intros a E.
  - by destruct a.
  - destruct a as [|c' a]; simplify_eq/=; [by exists [], s|].
    destruct (IH a eq_refl) as (a' & b' & -> & Hb). by exists (c' :: a'), b'.
  - apply fromHexChar_range in Ea as [Hx _], Eb as [Hy _]. destruct a as [|c' a]; injection E as E1 E2.
    + destruct (host_escape x y Hx Hy Er) as [E|[_ E]]; [|done]. by rewrite E in E1.
    + destruct (IH a E2) as (a' & b' & -> & Hb). by exists (percent :: c :: d :: a'), b'.
Qed.

Lemma unescaped_keeps_colon s t : unescaped encodeHost s t -> colon ∈ s -> colon ∈ t.
Proof.
  induction 1 as [|c s t Hc Hh _ IH|c d x y s t Ea Eb Er _ IH]; rewrite ?elem_of_cons; [done|naive_solver|].
  apply fromHexChar_range in Ea as [_ Hx], Eb as [_ Hy]. naive_solver.
Qed.

Lemma unescaped_digits mode s t : unescaped mode s t -> forallb is_digit s = true -> t = s.
Proof.
  induction 1 as [|c s t Hc Hh _ IH|]; simpl; [done| |done].
  rewrite andb_true_iff. intros [_ Hd]. by rewrite IH.
Qed.

Lemma port_last a b : colon ∉ b -> port_canonical (a ++ colon :: b) = forallb is_digit b.
Proof.
  intros Hb. unfold port_canonical. rewrite LastIndexByte_app by done. pose proof (zlen_nonneg a).
  rewrite (proj2 (Z.eqb_neq _ _)) by lia. replace (Z.to_nat (zlen a)) with (length a) by (unfold zlen; lia).
  by rewrite drop_app_length.
Qed.

Lemma unescaped_port s t : unescaped encodeHost s t -> port_canonical s = true -> port_canonical t = true.
Proof.
  intros H Hs. destruct (decide (colon ∈ t)) as [Hc|Hc].
  - apply list_elem_of_split_r in Hc as (a & b & Et & Hb).
    destruct (unescaped_colon s t a b H Et) as (a' & b' & -> & H').
    assert (colon ∉ b') by (intros Hin; by apply Hb, (unescaped_keeps_colon b')).
    rewrite port_last in Hs by done. rewrite (unescaped_digits _ _ _ H' Hs) in Et. by rewrite Et, port_last.
  - unfold port_canonical. by rewrite LastIndexByte_none.
Qed.

(** ** Parsing again *)

Lemma Cut_fst s c : c ∉ fst (Cut s c).
Proof.
  destruct (decide (c ∈ s)) as [(l1 & l2 & -> & H)%list_elem_of_split_l|H].
  - by rewrite Cut_app.
  - by rewrite Cut_none.
Qed.

Lemma Cut_snd s c b : b ∈ snd (Cut s c) -> b ∈ s.
Proof. unfold Cut. destruct (IndexByte s c <? 0); simpl; [set_solver|].
  intros H. rewrite <- (take_drop (Z.to_nat (IndexByte s c + 1)) s), elem_of_app. by right.
Qed.

Lemma cut_query_snd s b : b ∈ snd (cut_query s) -> b ∈ s.
Proof. unfold cut_query. destruct (_ && _); [set_solver|apply Cut_snd]. Qed.

Lemma getScheme_rest s x r : getScheme s = Ok (x, r) -> r `suffix_of` s.
Proof.
  assert (H : forall rest before, rest `suffix_of` s -> scheme_loop before rest s = Ok (x, r) -> r `suffix_of` s);
    [|by apply H].
  induction rest as [|c rest IH]; intros before Hs; simpl; [by intros [= _ <-]|].
  assert (rest `suffix_of` s) by (by etrans; [apply suffix_cons_r|]).
  destruct (is_letter c); [by apply IH|]. destruct (is_digit c || _).
  { destruct before; [by intros [= _ <-]|by apply IH]. }
  destruct (bool_decide (c = colon)); [|by intros [= _ <-]]. destruct before; [done|by intros [= _ <-]].
Qed.

Lemma unescape_bracket s t : unescape encodeHost (bracket :: s) = Ok t -> head t = Some bracket.
Proof.
  change (unescape encodeHost (bracket :: s)) with (let! t := unescape encodeHost s in Ok (bracket :: t)).
  destruct (unescape encodeHost s); try done. by intros [= <-].
Qed.

Lemma HasPrefix_bracket s : HasPrefix (bracket :: s) (str "%25") = false.
Proof. apply bool_decide_false. by intros [=]. Qed.

Lemma Index25_bracket s : Index25 (bracket :: s) = (if Index25 s <? 0 then -1 else Index25 s + 1).
Proof. unfold Index25 at 1. rewrite HasPrefix_bracket. by fold Index25. Qed.

(** A host that does not start with a bracket. *)
Lemma parseHost_chars s h :
  parseHost s = Ok h -> percent ∉ h -> head h <> Some bracket -> forallb host_char h = true /\ port_canonical h = true.
Proof.
  unfold parseHost. intros E Hp Hb. destruct (HasPrefix s [bracket]) eqn:Hs.
  - exfalso. apply Hb. destruct s as [|c s]; [done|]. unfold HasPrefix in Hs. apply bool_decide_eq_true in Hs.
    simpl in Hs. rewrite take_0 in Hs. injection Hs as ->.
    destruct (_ <? 0); [done|]. destruct (negb _); [done|].
    destruct (0 <=? Index25 (take _ _)) eqn:Ez; [|by eapply unescape_bracket].
    destruct (Z.to_nat (Index25 _)) as [|z] eqn:Ei.
    + destruct (Z.to_nat (LastIndexByte _ _)); [done|]. rewrite firstn_cons, Index25_bracket in Ez, Ei.
      destruct (Index25 _ <? 0) eqn:?; [done|]. lia.
    + rewrite firstn_cons in E. destruct (unescape encodeHost (bracket :: take z s)) as [t| |] eqn:Et; try done.
      apply unescape_bracket in Et. cbn [res_bind] in E.
      destruct (unescape encodeZone _); try done. cbn [res_bind] in E.
      destruct (unescape encodeHost _); try done. injection E as <-. by destruct t.
  - destruct (negb (_ =? -1) && _) eqn:Ep; [done|]. apply unescape_sound in E. split.
    + by eapply unescaped_host_chars.
    + eapply unescaped_port; [done|]. unfold port_canonical. destruct (_ =? -1); [done|].
      by apply negb_false_iff in Ep.
Qed.

Lemma parseAuthority_host a user h : parseAuthority a = Ok (user, h) -> exists s, parseHost s = Ok h.
Proof.
  unfold parseAuthority. destruct (LastIndexByte a at_sign <? 0).
  - destruct (parseHost a) eqn:E; try done. cbn [res_bind]. intros [= _ <-]. eauto.
  - destruct (parseHost _) eqn:E; try done. cbn [res_bind]. intros H. exists (drop (Z.to_nat (LastIndexByte a at_sign + 1)) a).
    rewrite E. f_equal. destruct (negb _); [done|]. destruct (negb _).
    + destruct (unescape _ _); try done. by injection H.
    + destruct (Cut _ _) as [l r]. destruct (unescape _ l); try done. cbn [res_bind] in H.
      destruct (unescape _ r); try done. by injection H.
Qed.

Lemma net_parse_parts raw n :
  net_parse raw = Ok n ->
  stringContainsCTLByte raw = false /\ (forall b, b ∈ net_RawQuery n -> b ∈ raw) /\
  (net_Host n = [] \/ exists s, parseHost s = Ok (net_Host n)).
Proof.
  unfold net_parse. destruct (stringContainsCTLByte raw); [done|]. intros E. split; [done|].
  destruct (bytes_eqb raw [star]); [injection E as <-; split; [set_solver|by left]|].
  destruct (getScheme raw) as [[x r]| |] eqn:Es; try done. cbn [res_bind fst snd] in E.
  assert (Hq : forall b, b ∈ snd (cut_query r) -> b ∈ raw).
  { intros b Hb%cut_query_snd. apply getScheme_rest in Es as (k & ->). set_solver. }
  destruct (cut_query r) as [rest q]. cbn [snd] in Hq.
  destruct (negb _ && negb _); [injection E as <-; split; [done|by left]|].
  destruct (negb _ && _); [done|].
  destruct (_ && HasPrefix rest [slash; slash]).
  - destruct (cut_path _) as [a p]. destruct (parseAuthority a) as [[user h]| |] eqn:Ea; try done.
    cbn [res_bind] in E. destruct (unescape _ p); try done. injection E as <-. split; [done|right].
    by eapply parseAuthority_host.
  - cbn [res_bind] in E. destruct (unescape _ rest); try done. injection E as <-. split; [done|by left].
Qed.

Lemma net_Parse_parts s n :
  net_Parse s = Ok n ->
  query_canonical (net_RawQuery n) = true /\ (net_Host n = [] \/ exists h, parseHost h = Ok (net_Host n)).
Proof.
  unfold net_Parse. pose proof (Cut_fst s hash_sign) as Hh. destruct (Cut s hash_sign) as [raw f]. cbn [fst] in Hh.
  destruct (net_parse raw) as [m| |] eqn:E; try done. cbn [res_bind]. intros En.
  assert (net_RawQuery n = net_RawQuery m /\ net_Host n = net_Host m) as [-> ->].
  { destruct f; [by injection En as <-|]. destruct (unescape _ _); try done. by injection En as <-. }
  apply net_parse_parts in E as (Hc & Hq & Hhost). split; [|done]. unfold query_canonical. apply andb_true_iff. split.
  - apply lacks_elem, Forall_forall. intros b Hb ->%list_elem_of_singleton. by apply Hh, Hq.
  - apply negb_true_iff, not_true_is_false. unfold stringContainsCTLByte in *. rewrite existsb_exists.
    intros (b & Hb%list_elem_of_In & Hb'). apply Hq, list_elem_of_In in Hb.
    apply not_true_iff_false in Hc. apply Hc, existsb_exists. eauto.
Qed.

(** What [format] does not escape: the user info, the authority and the fragment. *)
Definition writable (u : URL) : bool :=
  login_canonical (UserInfo u) && lacks [percent] (Authority u) && negb (bool_decide (head (Authority u) = Some bracket))
  && lacks [percent] (Fragment u).

Lemma TrimLeft_head s c : head (TrimLeft s c) <> Some c.
Proof. induction s as [|b s IH]; [done|]. simpl. case_bool_decide; [done|]. simpl. congruence. Qed.

Lemma TrimLeft_id s c : head s <> Some c -> TrimLeft s c = s.
Proof. destruct s as [|b s]; [done|]. simpl. intros H. rewrite bool_decide_false; [done|congruence]. Qed.

Lemma TrimLeft_suffix s c : TrimLeft s c `suffix_of` s.
Proof. induction s as [|b s IH]; simpl; [done|]. case_bool_decide; [by apply suffix_cons_r|done]. Qed.

Lemma rev_is_reverse (s : bytes) : rev s = reverse s.
Proof. apply rev_alt. Qed.

Lemma TrimRight_id s c : last s <> Some c -> TrimRight s c = s.
Proof.
  intros H. unfold TrimRight. rewrite TrimLeft_id; [apply rev_involutive|]. by rewrite rev_is_reverse, head_reverse.
Qed.

Lemma Trim_trimmed s c : head (Trim s c) <> Some c /\ last (Trim s c) <> Some c.
Proof.
  unfold Trim. split.
  - intros H. apply (TrimLeft_head s c). unfold TrimRight in H.
    destruct (TrimLeft_suffix (rev (TrimLeft s c)) c) as (k & E). apply (f_equal (@rev byte)) in E.
    rewrite rev_involutive, rev_app_distr in E. rewrite E. destruct (rev (TrimLeft (rev _) c)); [done|]. exact H.
  - unfold TrimRight. rewrite rev_is_reverse, last_reverse. apply TrimLeft_head.
Qed.

Lemma normalizePath_idemp p : normalizePath (normalizePath p) = normalizePath p.
Proof.
  unfold normalizePath at 2 3. pose proof (Trim_trimmed p slash) as [Hh Hl].
  destruct (Trim p slash) as [|c s] eqn:E; [done|]. unfold normalizePath, Trim.
  change (TrimLeft (slash :: c :: s) slash) with (TrimLeft (c :: s) slash).
  by rewrite TrimLeft_id, TrimRight_id.
Qed.

Definition canonical_path (u : URL) : URL := WithPath (normalizePath (Path u)) u.

Lemma String_canonical_path u : URL_String (canonical_path u) = URL_String u.
Proof. unfold URL_String, format. simpl. by rewrite normalizePath_idemp. Qed.

Lemma Parse_parts s u :
  Parse s = Ok u ->
  query_canonical (Query u) = true /\ (exists h, parseHost h = Ok (Authority u)) /\
  match Authority u with [] => False | c :: _ => c <> colon end.
Proof.
  unfold Parse. destruct (net_Parse s) as [n1| |] eqn:E1; try done. cbn [res_bind].
  destruct (if bytes_eqb _ [] then _ else _) as [n| |] eqn:E2; try done. cbn [res_bind].
  assert (exists s', net_Parse s' = Ok n) as (s' & En) by (destruct (bytes_eqb _ []); [|injection E2 as <-]; eauto).
  apply net_Parse_parts in En as [Hq Hh]. destruct (negb _); [done|].
  destruct (net_Host n) as [|c h] eqn:Eh; [done|]. case_bool_decide; [done|]. intros [= <-]. simpl.
  destruct Hh as [?|Hh]; [done|]. done.
Qed.

(** C16. What [Parse] accepts keeps its meaning when it is written and parsed again, if
    its user info, authority and fragment can be written as they are: the result is the
    same URL but for slashes at the ends of the path, and equal to it. *)
Theorem Parse_String s u :
  Parse s = Ok u -> writable u = true ->
  Parse (URL_String u) = Ok (canonical_path u) /\ Equal (Some (canonical_path u)) (Some u) = true.
Proof.
  intros E Hw. split; [|cbn [Equal]; rewrite String_canonical_path; apply EqualFold_refl].
  rewrite <- String_canonical_path. apply Parse_canonical.
  apply Parse_parts in E as (Hq & (h & Eh) & Hc). unfold writable in Hw. rewrite !andb_true_iff in Hw.
  destruct Hw as [[[Hl Ha%lacks_one] Hb] Hf]. apply negb_true_iff, bool_decide_eq_false in Hb.
  destruct (parseHost_chars _ _ Eh Ha Hb) as [Hchars Hport].
  unfold canonical, host_canonical. cbn [canonical_path WithPath UserInfo Authority Path Query Fragment].
  rewrite Hl, Hchars, Hport, Hq, Hf, normalizePath_idemp, bytes_eqb_refl.
  destruct (Authority u) as [|c a]; [done|]. rewrite !bool_decide_false; [done| |done]. intros ->. by apply Hb.
Qed.

Definition demo_text : bytes := str "acc://bob@Foo.acme:12/a/b%20c//?q=1?#x".
Definition demo_parsed : URL := mkURL (str "bob") (str "Foo.acme:12") (str "/a/b c//") (str "q=1?") (str "x").

Lemma Parse_String_witness :
  Parse (URL_String demo_parsed) = Ok (canonical_path demo_parsed) /\ Path (canonical_path demo_parsed) = str "/a/b c".
Proof.
  split; [|vm_compute; reflexivity].
  refine (proj1 (Parse_String demo_text demo_parsed _ _)); vm_compute; reflexivity.
Defined.

(** A transaction identifier is parsed back from its text. *)
Lemma ParseTxID_canonical t :
  canonical (url t) = true -> UserInfo (url t) = [] -> length (hash t) = 32%nat -> ParseTxID (TxID_String t) = Ok t.
Proof.
  intros Ha Hui Hh. destruct t as [a h]. cbn [url hash] in Ha, Hui, Hh. unfold ParseTxID.
  destruct (TxID_roundtrip a h Hh) as (Eas & Et & _). unfold WithTxID in *. rewrite Et, Parse_canonical.
  - cbn [res_bind]. rewrite Eas. destruct a. cbn in *. by subst.
  - unfold canonical in *. rewrite !andb_true_iff in *. cbn. destruct Ha as [[[[_ ?] ?] ?] ?]. split_and!; try done.
    unfold login_canonical. pose proof (hex_encode_chars h) as Hc.
    assert (Hf : forall P : byte -> bool, (forall b, is_alnum b = true -> P b = true) -> forallb P (hex_EncodeToString h) = true).
    { intros P HP. apply forallb_elem. rewrite Forall_forall in Hc. auto. }
    unfold lacks. rewrite !Hf by (by intros []). unfold Contains.
    rewrite (bool_decide_false (colon ∈ _)) by by apply alnum_no_colon. done.
Qed.

(** The escapes of the user info are not written again: a URL that was parsed as an
    account of [bob.acme] is written as one of [alice.acme]. *)
Theorem String_changes_account :
  exists s u v, Parse s = Ok u /\ Parse (URL_String u) = Ok v /\
    Authority u = str "bob.acme" /\ Authority v = str "alice.acme".
Proof.
  exists (str "acc://alice.acme%2F@bob.acme/tokens"). eexists. eexists.
  split; [vm_compute; reflexivity|]. split; [vm_compute; reflexivity|]. split; reflexivity.
Qed.
