(* ===== verification/Accounts.v ===== *)
(** * Accounts of the protocol: [protocol/account_auth.go], [txid_set.go],
      [ledger.go], [keys.go], [authority.go], [token_account.go],
      [credits_account.go], [lock.go], [access_control.go]

    The records of [protocol/types_gen.go] with the methods the package gives
    them.  [None] is a nil pointer; a [big.Int] is a [Z]; a method that changes
    its receiver returns the changed record. *)

From S2P Require Import Prelude Encoding SortUtil Url.
Local Open Scope Z_scope.
Import Url TxID.

(** The zero value of a URL in a slot that is about to be filled. *)
Definition nil_URL : URL := mkURL [] [] [] [] [].

(** ** Account authority *)

Record AuthorityEntry := mkAuthority { auth_Url : URL; Disabled : bool }.
Record AccountAuth := mkAuth { Authorities : list AuthorityEntry }.

Definition auth_compare (x y : AuthorityEntry) : Z := Compare (auth_Url x) (auth_Url y).

Definition KeyBook_of (a : AccountAuth) : option URL :=
  if 1 <=? zlen (Authorities a) then auth_Url <$> Authorities a !! 0%nat else None.

Definition ManagerKeyBook (a : AccountAuth) : option URL :=
  if 2 <=? zlen (Authorities a) then auth_Url <$> Authorities a !! 1%nat else None.

Definition AuthDisabled (a : AccountAuth) : bool := existsb Disabled (Authorities a).

(** The index stands for the pointer to the entry. *)
Definition GetAuthority (entry : URL) (a : AccountAuth) : res (option Z) :=
  let! (i, found) := Search (Authorities a) (fun e => Compare (auth_Url e) entry) in
  if (found : bool) then Ok (Some i) else Ok None.

Definition AddAuthority (entry : URL) (a : AccountAuth) : res (AccountAuth * bool) :=
  let! (l, ptr, new) :=
    BinaryInsert (mkAuthority nil_URL false) (Authorities a)
      (fun e => Compare (auth_Url e) entry) in
  Ok (mkAuth (if (new : bool) then store_at l ptr (mkAuthority entry false) else l), new).

(** [append(l[:i], l[i+1:]...)]. *)
Definition RemoveAuthority (entry : URL) (a : AccountAuth) : res (AccountAuth * bool) :=
  let! (i, found) := Search (Authorities a) (fun e => Compare (auth_Url e) entry) in
  if (found : bool) then
    let! l := slice_to (Authorities a) i in
    let! r := slice_from (Authorities a) (i + 1) in
    Ok (mkAuth (l ++ r), true)
  else Ok (a, false).

(** ** Sets of transaction identifiers *)

Definition nil_TxID : TxID := mkTxID nil_URL [].

Record TxIdSet := mkTxIdSet { Entries : list TxID }.

Definition TxIdSet_Add (txid : TxID) (s : TxIdSet) : res TxIdSet :=
  let! (l, ptr, new) := BinaryInsert nil_TxID (Entries s) (fun x => TxID_Compare x txid) in
  Ok (mkTxIdSet (if (new : bool) then store_at l ptr txid else l)).

Definition TxIdSet_Remove (txid : TxID) (s : TxIdSet) : res TxIdSet :=
  let! (i, found) := Search (Entries s) (fun x => TxID_Compare x txid) in
  if (found : bool) then
    let! l := RemoveAt (Entries s) i in Ok (mkTxIdSet l)
  else Ok s.

Definition ContainsHash (h : bytes) (s : TxIdSet) : res bool :=
  let! (_, found) := Search (Entries s) (fun x => bytes_compare (hash x) h) in
  Ok (found : bool).

(** ** Tokens, credits and locks *)

Record TokenAccount := mkTokenAccount {
  ta_Url : URL; ta_AccountAuth : AccountAuth; ta_TokenUrl : URL; ta_Balance : Z }.
Record LiteTokenAccount := mkLiteTokenAccount {
  lta_Url : URL; lta_TokenUrl : URL; lta_Balance : Z; LockHeight : Z }.
Record LiteIdentity := mkLiteIdentity {
  li_Url : URL; li_CreditBalance : Z; li_LastUsedOn : Z }.
Record TokenIssuer := mkTokenIssuer {
  ti_Url : URL; ti_AccountAuth : AccountAuth; Symbol : bytes; Precision : Z;
  Properties : option URL; Issued : Z; SupplyLimit : option Z }.

(** The three balance operations, on the balance; the amount may be nil. *)
Definition CreditTokens (amount : option Z) (balance : Z) : Z * bool :=
  match amount with
  | None => (balance, false)
  | Some a => if a <? 0 then (balance, false) else (balance + a, true)
  end.
Definition CanDebitTokens (amount : option Z) (balance : Z) : bool :=
  match amount with None => false | Some a => a <=? balance end.
Definition DebitTokens (amount : option Z) (balance : Z) : Z * bool :=
  if negb (CanDebitTokens amount balance) then (balance, false)
  else (balance - default 0 amount, true).

Definition Issue (amount : Z) (i : TokenIssuer) : TokenIssuer * bool :=
  let issued := Issued i + amount in
  (mkTokenIssuer (ti_Url i) (ti_AccountAuth i) (Symbol i) (Precision i) (Properties i) issued (SupplyLimit i),
   match SupplyLimit i with None => true | Some limit => issued <=? limit end).

(** Credit balances are [uint64]. *)
Definition CreditCredits (amount balance : Z) : Z := u64 (balance + amount).
Definition CanDebitCredits (amount balance : Z) : bool := amount <=? balance.
Definition DebitCredits (amount balance : Z) : Z * bool :=
  if negb (CanDebitCredits amount balance) then (balance, false)
  else (u64 (balance - amount), true).

Definition SetLockHeight (v : Z) (l : LiteTokenAccount) : res LiteTokenAccount :=
  if v <? LockHeight l then errors_new StatusBadRequest "cannot reduce lockup period"
  else Ok (mkLiteTokenAccount (lta_Url l) (lta_TokenUrl l) (lta_Balance l) v).

(** ** Key pages *)

Record KeySpec := mkKeySpec { PublicKeyHash : bytes; ks_LastUsedOn : Z; Delegate : option URL }.
Record KeySpecParams := mkParams { KeyHash : bytes; kp_Delegate : option URL }.

Record KeyPage := mkKeyPage {
  kpg_Url : URL;
  kpg_CreditBalance : Z;
  AcceptThreshold : Z;
  Version : Z;
  Keys : list KeySpec;
  TransactionBlacklist : option Z
}.

Definition set_Keys (ks : list KeySpec) (p : KeyPage) : KeyPage :=
  mkKeyPage (kpg_Url p) (kpg_CreditBalance p) (AcceptThreshold p) (Version p) ks (TransactionBlacklist p).
Definition set_AcceptThreshold (m : Z) (p : KeyPage) : KeyPage :=
  mkKeyPage (kpg_Url p) (kpg_CreditBalance p) m (Version p) (Keys p) (TransactionBlacklist p).
Definition set_Blacklist (b : option Z) (p : KeyPage) : KeyPage :=
  mkKeyPage (kpg_Url p) (kpg_CreditBalance p) (AcceptThreshold p) (Version p) (Keys p) b.

Definition IsEmpty (k : KeySpecParams) : bool :=
  (zlen (KeyHash k) =? 0) && bool_decide (kp_Delegate k = None).

Definition GetMofN (ms : KeyPage) : Z * Z := (AcceptThreshold ms, u64 (zlen (Keys ms))).

Definition SetThreshold (m : Z) (ms : KeyPage) : res KeyPage :=
  if (m <=? u64 (zlen (Keys ms))) && (0 <? m) then Ok (set_AcceptThreshold m ms)
  else if m =? 0 then errorf "cannot require 0 signatures on a key page"
  else errorf "cannot require that many signatures on a key page".

Definition GetSignatureThreshold (p : KeyPage) : Z :=
  if AcceptThreshold p =? 0 then 1 else AcceptThreshold p.

Definition EntryByKeyHash (keyHash : bytes) (p : KeyPage) : res (option Z) :=
  let! (i, found) := Search (Keys p) (fun ks => bytes_compare (PublicKeyHash ks) keyHash) in
  if (found : bool) then Ok (Some i) else Ok None.

(** [strconv.ParseUint(s, 10, 16)]. *)
Definition digit (b : byte) : option Z :=
  let z := b2z b in if (48 <=? z) && (z <=? 57) then Some (z - 48) else None.
Fixpoint parse_digits (s : bytes) (n : Z) : option Z :=
  match s with
  | [] => Some n
  | b :: s =>
      match digit b with
      | None => None
      | Some d => let n := n * 10 + d in if 65535 <? n then None else parse_digits s n
      end
  end.
Definition ParseUint16 (s : bytes) : option Z := match s with [] => None | _ => parse_digits s 0 end.

Definition ParseKeyPageUrl (keyPage : URL) : option (URL * Z) :=
  let i := LastIndexByte (Path keyPage) slash in
  if i <? 0 then None
  else match ParseUint16 (drop (Z.to_nat (i + 1)) (Path keyPage)) with
       | None => None
       | Some index => Some (Identity keyPage, index)
       end.

Fixpoint delegate_index (owner : URL) (keys : list KeySpec) (i : Z) : option Z :=
  match keys with
  | [] => None
  | entry :: keys =>
      if Equal (Some owner) (Delegate entry) then Some i else delegate_index owner keys (i + 1)
  end.

(** The recursion strips page numbers off the owner; the path shrinks. *)
Fixpoint entry_by_delegate (fuel : nat) (owner : URL) (p : KeyPage) : option (option Z) :=
  match fuel with
  | O => None
  | S fuel =>
      match ParseKeyPageUrl owner with
      | Some (book, _) => entry_by_delegate fuel book p
      | None => Some (delegate_index owner (Keys p) 0)
      end
  end.

Definition EntryByDelegate (owner : URL) (p : KeyPage) : option Z :=
  default None (entry_by_delegate (S (length (Path owner))) owner p).

(** The comparison [AddKeySpec] gives [BinaryInsert]; it is never zero when
    neither key has a delegate. *)
Definition keyspec_cmp (k l : KeySpec) : Z :=
  let v := bytes_compare (PublicKeyHash l) (PublicKeyHash k) in
  if negb (v =? 0) then v
  else match Delegate l, Delegate k with
       | None, _ => -1
       | _, None => 1
       | Some dl, Some dk => Compare dl dk
       end.

(** [*ptr = k] whether or not the slot is new. *)
Definition AddKeySpec (k : KeySpec) (p : KeyPage) : res KeyPage :=
  let! (l, ptr, _) := BinaryInsert (mkKeySpec [] 0 None) (Keys p) (keyspec_cmp k) in
  Ok (set_Keys (store_at l ptr k) p).

Definition RemoveKeySpecAt (i : Z) (p : KeyPage) : res KeyPage :=
  let! l := RemoveAt (Keys p) i in Ok (set_Keys l p).

(** ** The transactions a key page may not sign *)

Definition Mask (bit : Z) : Z := u64 (Z.shiftl 1 bit).
Definition Allowed_Set (bit v : Z) : Z := Z.lor v (Mask bit).
Definition Allowed_Clear (bit v : Z) : Z := Z.land v (Z.lxor (Mask bit) (2 ^ 64 - 1)).
Definition Allowed_IsSet (bit : Z) (v : option Z) : bool :=
  match v with None => false | Some v => negb (Z.land v (Mask bit) =? 0) end.

(** The loop of [Unpack] from bit [i]; [None] when the fuel runs out. The
    counter is an [int]: fuel is at most 2^63, where it would overflow. *)
Fixpoint unpack_loop (fuel : nat) (u i : Z) : option (list Z) :=
  match fuel with
  | O => None
  | S fuel =>
      if Mask i <=? u then
        let rest := unpack_loop fuel u (i + 1) in
        if negb (Z.land (Mask i) u =? 0) then cons i <$> rest else rest
      else Some []
  end.

Definition Unpack (fuel : nat) (v : option Z) : option (list Z) :=
  match v with None => Some [] | Some u => unpack_loop fuel u 0 end.
