(* ===== verification/AccountsProofs.v ===== *)
(** * Properties of the protocol's account data structures

    Transaction-identifier sets and authority lists implement sets, and the blacklist's [Unpack]
    lists the bits of the mask. *)

From stdpp Require Import sorting.
From S2P Require Import Prelude Encoding SortUtil Url UrlProofs Accounts.
Local Open Scope Z_scope.
Import Url TxID.

(** ** Transaction-identifier sets *)

Inductive TxIdOp := OpAdd (x : TxID) | OpRemove (x : TxID).

Definition run_txid_op (op : TxIdOp) (s : TxIdSet) : res TxIdSet :=
  match op with OpAdd x => TxIdSet_Add x s | OpRemove x => TxIdSet_Remove x s end.

Fixpoint run_txid_ops (ops : list TxIdOp) (s : TxIdSet) : res TxIdSet :=
  match ops with
  | [] => Ok s
  | op :: ops => let! s := run_txid_op op s in run_txid_ops ops s
  end.

(** Whether the last operation on an identifier equal to [x] added it. *)
Fixpoint last_added (ops : list TxIdOp) (x : TxID) (acc : bool) : bool :=
  match ops with
  | [] => acc
  | OpAdd y :: ops => last_added ops x (TxID_Equal y x || acc)
  | OpRemove y :: ops => last_added ops x (negb (TxID_Equal y x) && acc)
  end.

Definition txid_member (x : TxID) (s : TxIdSet) : Prop := exists y, y ∈ Entries s /\ TxID_Equal y x = true.

Lemma txid_member_iff x s : txid_member x s <-> member TxID_Compare x (Entries s).
Proof. unfold txid_member, member. by setoid_rewrite TxID_Compare_zero. Qed.

Lemma txid_op_ok op s :
  sorted TxID_Compare (Entries s) ->
  exists s', run_txid_op op s = Ok s' /\ sorted TxID_Compare (Entries s') /\
    forall x, txid_member x s' <->
      match op with
      | OpAdd y => TxID_Equal y x = true \/ txid_member x s
      | OpRemove y => TxID_Equal y x = false /\ txid_member x s
      end.
Proof.
  intros Hs. destruct op as [y|y]; setoid_rewrite txid_member_iff; cbn [run_txid_op].
  - destruct (sorted_add_ok TxID_Compare nil_TxID y (Entries s) Hs) as (l & i & new & E & Hl & _ & _ & _ & Hm).
    unfold sorted_add in E. unfold TxIdSet_Add. inv_res. destruct v as [[l0 i0] new0]. inv_res.
    rewrite Hv. cbn [res_bind]. eexists. split; [done|]. simplify_eq. cbn [Entries].
    split; [done|]. intros x. rewrite Hm, TxID_Compare_zero. done.
  - destruct (sorted_remove_ok TxID_Compare y (Entries s) Hs) as (l & b & E & Hl & _ & Hm).
    unfold sorted_remove in E. unfold TxIdSet_Remove. inv_res. destruct v as [i found].
    rewrite Hv. cbn [res_bind].
    assert (Hx : forall x, member TxID_Compare x l <-> TxID_Equal y x = false /\ member TxID_Compare x (Entries s)).
    { intros x. rewrite Hm, TxID_Compare_zero. destruct (TxID_Equal y x); naive_solver. }
    destruct found; inv_res.
    + rewrite Hv0. cbn [res_bind]. eexists. split; [done|]. by simplify_eq.
    + eexists. split; [done|]. simplify_eq. done.
Qed.

Lemma txid_ops_ok ops s :
  sorted TxID_Compare (Entries s) ->
  exists s', run_txid_ops ops s = Ok s' /\ sorted TxID_Compare (Entries s') /\
    forall x acc, (acc = true <-> txid_member x s) -> last_added ops x acc = true <-> txid_member x s'.
Proof.
  revert s. induction ops as [|op ops IH]; intros s Hs; [by exists s|].
  destruct (txid_op_ok op s Hs) as (s1 & E1 & Hs1 & Hm1).
  destruct (IH s1 Hs1) as (s' & E & Hs' & Hm). exists s'. cbn [run_txid_ops]. rewrite E1. cbn [res_bind].
  split; [done|]. split; [done|]. intros x acc Hacc. destruct op as [y|y]; cbn [last_added]; apply Hm;
    rewrite (Hm1 x), <- Hacc.
  - by rewrite orb_true_iff.
  - rewrite andb_true_iff, negb_true_iff. done.
Qed.

(** Searching by hash alone in a set sorted by hash and account. *)
Lemma ContainsHash_ok h s :
  sorted TxID_Compare (Entries s) ->
  exists b, ContainsHash h s = Ok b /\ (b = true <-> exists y, y ∈ Entries s /\ TxID.hash y = h).
Proof.
  intros Hs.
  assert (Hlt : forall i j x y, (i < j)%nat -> Entries s !! i = Some x -> Entries s !! j = Some y ->
    bytes_compare (TxID.hash x) (TxID.hash y) <= 0).
  { intros i j x y Hij Hx Hy. pose proof (sorted_lookup TxID_Compare _ i j x y Hs Hij Hx Hy) as H.
    unfold TxID_Compare in H. destruct (bytes_eqb (TxID.hash x) (TxID.hash y)) eqn:E; simpl in H; [|lia].
    apply bytes_eqb_eq in E. rewrite E, (compare_refl bytes_compare). lia. }
  destruct (search_major TxID.hash bytes_compare (Entries s) h Hlt) as (i & b & E & Ht & Hf).
  unfold ContainsHash. rewrite E. cbn [res_bind]. exists b. split; [done|]. split.
  - intros Hb. destruct (Ht Hb) as (x & Hx & _ & Hc). exists x.
    split; [by eapply list_elem_of_lookup_2|by apply bytes_compare_eq].
  - intros (y & Hy & <-). destruct b; [done|]. destruct (Hf eq_refl y Hy). apply (compare_refl bytes_compare).
Qed.

(** A set of transaction identifiers behaves as a set under any sequence of
    [Add] and [Remove] from the empty set: no operation panics, the entries stay
    sorted without duplicates, an identifier is present exactly when the last
    operation on it added it, and [ContainsHash], which searches by hash alone,
    finds exactly the hashes present. *)
Theorem TxIdSet_history ops :
  exists s, run_txid_ops ops (mkTxIdSet []) = Ok s /\ sorted TxID_Compare (Entries s) /\
    (forall x, last_added ops x false = true <-> txid_member x s) /\
    (forall h, exists b, ContainsHash h s = Ok b /\
       (b = true <-> exists y, y ∈ Entries s /\ TxID.hash y = h)).
Proof.
  destruct (txid_ops_ok ops (mkTxIdSet [])) as (s & E & Hs & Hm); [constructor|].
  exists s. split; [done|]. split; [done|]. split; [|intros h; by apply ContainsHash_ok].
  intros x. apply Hm. split; [done|]. intros (y & Hy & _). by apply not_elem_of_nil in Hy.
Qed.

(** ** Authorities *)

#[global] Instance auth_compare_total : TotalCompare auth_compare.
Proof. apply (compare_on auth_Url Compare). Qed.

Definition has_authority (u : URL) (a : AccountAuth) : Prop :=
  exists e, e ∈ Authorities a /\ Equal (Some (auth_Url e)) (Some u) = true.

Definition auth_sorted (a : AccountAuth) : Prop := sorted auth_compare (Authorities a).

Lemma has_authority_iff u a : has_authority u a <-> member auth_compare (mkAuthority u false) (Authorities a).
Proof. unfold has_authority, member, auth_compare. by setoid_rewrite Compare_zero. Qed.

Lemma AddAuthority_ok u a :
  auth_sorted a -> exists a' new, AddAuthority u a = Ok (a', new) /\ auth_sorted a' /\
    (new = false <-> has_authority u a) /\ (new = false -> a' = a) /\
    forall v, has_authority v a' <-> Equal (Some u) (Some v) = true \/ has_authority v a.
Proof.
  intros Hs. destruct (sorted_add_ok auth_compare (mkAuthority nil_URL false) (mkAuthority u false) _ Hs)
    as (l & i & new & E & Hl & Hn & Heq & _ & Hm).
  unfold sorted_add in E. unfold AddAuthority. inv_res. destruct v as [[l0 i0] new0]. inv_res.
  change (fun e => Compare (auth_Url e) u) with (fun x => auth_compare x (mkAuthority u false)).
  rewrite Hv. cbn [res_bind]. simplify_eq. eexists _, _. split; [done|].
  split; [done|]. rewrite has_authority_iff. split; [done|]. split.
  { intros H. rewrite (Heq H). by destruct a. }
  intros v. rewrite !has_authority_iff. rewrite (Hm _).
  change (auth_compare (mkAuthority u false) (mkAuthority v false)) with (Compare u v).
  by rewrite Compare_zero.
Qed.

Lemma RemoveAuthority_ok u a :
  auth_sorted a -> exists a' b, RemoveAuthority u a = Ok (a', b) /\ auth_sorted a' /\
    (b = true <-> has_authority u a) /\
    forall v, has_authority v a' <-> has_authority v a /\ Equal (Some u) (Some v) = false.
Proof.
  intros Hs. destruct (sorted_remove_ok auth_compare (mkAuthority u false) _ Hs) as (l & b & E & Hl & Hb & Hm).
  unfold sorted_remove in E. unfold RemoveAuthority.
  change (fun e => Compare (auth_Url e) u) with (fun x => auth_compare x (mkAuthority u false)).
  destruct (sorted_search auth_compare (Authorities a) (mkAuthority u false) Hs) as (i & f & Ef & _ & Hx).
  rewrite Ef in *. cbn [res_bind] in *.
  assert (Hv : forall v, member auth_compare (mkAuthority v false) l <->
     member auth_compare (mkAuthority v false) (Authorities a) /\ Equal (Some u) (Some v) = false).
  { intros v. rewrite Hm.
    change (auth_compare (mkAuthority u false) (mkAuthority v false)) with (Compare u v). rewrite Compare_zero.
    destruct (Equal _ _); naive_solver. }
  setoid_rewrite has_authority_iff. destruct f.
  - destruct (Hx eq_refl) as (x & Hl' & Hi & _). pose proof (lookup_lt_Some _ _ _ Hl').
    rewrite slice_to_ok, slice_from_ok by (unfold zlen; lia). cbn [res_bind].
    rewrite <- (Z2Nat.id i Hi), RemoveAt_ok in E by done. cbn [res_bind] in E. injection E as <- <-.
    eexists _, true. split; [done|]. replace (Z.to_nat (i + 1)) with (S (Z.to_nat i)) by lia. done.
  - injection E as <- <-. by exists a, false.
Qed.

(** ** Blacklists *)

Lemma Mask_small i : 0 <= i < 64 -> Mask i = 2 ^ i.
Proof.
  intros H. unfold Mask, u64. rewrite Z.shiftl_1_l, Z.mod_small; [done|].
  split; [apply Z.pow_nonneg; lia|apply Z.pow_lt_mono_r; lia].
Qed.

Lemma Mask_big i : 64 <= i -> Mask i = 0.
Proof.
  intros H. unfold Mask, u64. rewrite Z.shiftl_1_l. replace i with (i - 64 + 64) by lia.
  rewrite Z.pow_add_r by lia. apply Z_mod_mult.
Qed.

Lemma land_pow2 u i : 0 <= i -> (Z.land (2 ^ i) u =? 0) = negb (Z.testbit u i).
Proof.
  intros Hi. destruct (Z.testbit u i) eqn:E.
  - apply Z.eqb_neq. intros H. apply (f_equal (fun z => Z.testbit z i)) in H.
    rewrite Z.land_spec, Z.pow2_bits_true, E, Z.bits_0 in H by done. done.
  - apply Z.eqb_eq. apply Z.bits_inj'. intros n Hn. rewrite Z.land_spec, Z.bits_0.
    destruct (decide (n = i)) as [->|]; [by rewrite E, andb_false_r|].
    by rewrite Z.pow2_bits_false.
Qed.

(** The bits of [u] from [i] on, [n] of them. *)
Fixpoint bits_from (u i : Z) (n : nat) : list Z :=
  match n with
  | O => []
  | S n => if Z.testbit u i then i :: bits_from u (i + 1) n else bits_from u (i + 1) n
  end.

Lemma bits_from_none u i n :
  0 <= i -> 0 <= u < 2 ^ i -> bits_from u i n = [].
Proof.
  revert i. induction n as [|n IH]; intros i Hi Hu; [done|]. cbn [bits_from].
  rewrite (testbit_above_pow u i i) by lia. apply IH; [lia|].
  rewrite Z.pow_add_r by lia. lia.
Qed.

Lemma unpack_loop_ok fuel u i n :
  0 <= u < 2 ^ 63 -> 0 <= i -> i + Z.of_nat n = 63 -> (n < fuel)%nat ->
  unpack_loop fuel u i = Some (bits_from u i n).
Proof.
  intros Hu. revert i n. induction fuel as [|fuel IH]; intros i n Hi Hn Hf; [lia|]. cbn [unpack_loop].
  rewrite Mask_small by lia. destruct (Z.leb_spec (2 ^ i) u) as [Hle|Hgt].
  - destruct n as [|n]; [replace i with 63 in Hle by lia; lia|].
    rewrite (IH (i + 1) n), land_pow2, negb_involutive by lia. cbn [bits_from]. by case_match.
  - by rewrite bits_from_none by lia.
Qed.

Lemma unpack_loop_diverges fuel u i : 2 ^ 63 <= u -> 0 <= i -> unpack_loop fuel u i = None.
Proof.
  intros Hu. revert i. induction fuel as [|fuel IH]; intros i Hi; [done|]. cbn [unpack_loop].
  assert (Mask i <= 2 ^ 63).
  { destruct (decide (i < 64)); [|rewrite Mask_big by lia; lia].
    rewrite Mask_small by lia. apply Z.pow_le_mono_r; lia. }
  rewrite (proj2 (Z.leb_le _ _)) by lia. rewrite IH by lia. by case_match.
Qed.

(** [Unpack] lists exactly the set bits of a mask below 2^63, in order and in
    at most 64 iterations; on a mask with bit 63 set its loop does not end within
    2^63 iterations, that is before the counter [i] itself overflows, since
    [1<<i] is zero from [i = 64] on. *)
Theorem Unpack_bits u :
  (0 <= u < 2 ^ 63 -> Unpack 64 (Some u) = Some (bits_from u 0 63)) /\
  (2 ^ 63 <= u < 2 ^ 64 -> forall fuel, Z.of_nat fuel <= 2 ^ 63 -> Unpack fuel (Some u) = None).
Proof.
  split.
  - intros Hu. apply unpack_loop_ok; lia.
  - intros Hu fuel _. apply unpack_loop_diverges; lia.
Qed.

Lemma Unpack_bits_witness : Unpack 64 (Some 6) = Some [1; 2] /\ Unpack 100 (Some (2 ^ 63)) = None.
Proof.
  split; [exact (proj1 (Unpack_bits 6) ltac:(lia))|exact (proj2 (Unpack_bits (2 ^ 63)) ltac:(lia) 100%nat ltac:(lia))].
Defined.
