(* ===== verification/AdiUrl.v ===== *)
(** * The URL rules of the protocol: [protocol/protocol.go], [pkg/url/url.go] (JoinPath)

    Well-known URLs, reserved URLs, the URLs an identity may have, account paths and the
    URLs of key pages.  What the code uses of Go's [path], [unicode/utf8] and [strconv]
    is modelled; the tables of the package [unicode] for characters outside ASCII are an
    argument. *)

From S2P Require Import Prelude Sha256 Encoding Url UrlProofs Accounts.
Local Open Scope Z_scope.
Import Url.

(** ** Well-known URLs *)

Definition DnUrl : URL := mkURL [] (str "dn.acme") [] [] [].
Definition IsDnUrl (u : URL) : bool := Equal (Some DnUrl) (Some (RootIdentity u)).
Definition bvnUrlPrefix : bytes := str "bvn-".
Definition TLD : bytes := str ".acme".

Definition PartitionUrl (partition : bytes) : URL :=
  if EqualFold partition (str "Directory") then DnUrl
  else mkURL [] (bvnUrlPrefix ++ partition ++ TLD) [] [] [].

Definition HasPrefix (s p : bytes) : bool := bytes_eqb (take (length p) s) p.
Definition HasSuffix (s p : bytes) : bool := HasPrefix (rev s) (rev p).

Definition ParsePartitionUrl (u : URL) : option bytes :=
  if IsDnUrl u then Some (str "Directory")
  else
    let a := Authority u in
    if negb (HasPrefix a bvnUrlPrefix) then None
    else if negb (HasSuffix a TLD) then None
    else Some (take (length a - length TLD - length bvnUrlPrefix) (drop (length bvnUrlPrefix) a)).

Definition AcmeUrl : URL := mkURL [] (str "ACME") [] [] [].

Definition BelongsToDn (u : URL) : bool :=
  IsDnUrl u || Equal (Some (RootIdentity u)) (Some AcmeUrl).

Definition IsBvnUrl (u : URL) : bool := HasPrefix (Hostname u) bvnUrlPrefix.

Definition BvnNameFromPartitionId (partition : bytes) : bytes := Authority (PartitionUrl (ToLower partition)).

Definition Unknown : bytes := str "unknown".
Definition IsUnknown (u : URL) : bool :=
  EqualFold (Authority u) Unknown || EqualFold (Authority u) (Unknown ++ TLD).

Definition IsReserved (u : URL) : bool :=
  if IsUnknown u then true
  else bool_decide (is_Some (ParsePartitionUrl u)) || BelongsToDn u.

(** ** Paths *)

(** [strings.Split(s, "/")]. *)
Fixpoint split_path (s : bytes) (cur : bytes) : list bytes :=
  match s with
  | [] => [cur]
  | b :: s => if bool_decide (b = slash) then cur :: split_path s [] else split_path s (cur ++ [b])
  end.

Definition dot : bytes := str ".".
Definition dotdot : bytes := str "..".

(** The elements [path.Clean] keeps, last first: empty elements and dots are dropped, a
    double dot removes the element before it, or itself at the root. *)
Fixpoint clean_elems (rooted : bool) (segs acc : list bytes) : list bytes :=
  match segs with
  | [] => acc
  | s :: segs =>
      if bytes_eqb s [] || bytes_eqb s dot then clean_elems rooted segs acc
      else if bytes_eqb s dotdot then
        match acc with
        | x :: acc' => if bytes_eqb x dotdot then clean_elems rooted segs (s :: acc)
                       else clean_elems rooted segs acc'
        | [] => clean_elems rooted segs (if rooted then [] else [s])
        end
      else clean_elems rooted segs (s :: acc)
  end.

Fixpoint join_path (segs : list bytes) : bytes :=
  match segs with
  | [] => []
  | [s] => s
  | s :: segs => s ++ [slash] ++ join_path segs
  end.

(** [path.Clean]. *)
Definition path_Clean (p : bytes) : bytes :=
  let rooted := match p with b :: _ => bool_decide (b = slash) | [] => false end in
  let out := join_path (rev (clean_elems rooted (split_path p []) [])) in
  if rooted then slash :: out else match out with [] => dot | _ => out end.

(** [path.Join]: the empty elements are ignored. *)
Definition path_Join (elems : list bytes) : bytes :=
  match List.filter (fun e => negb (bytes_eqb e [])) elems with
  | [] => []
  | l => path_Clean (join_path l)
  end.

Definition JoinPath (s : list bytes) (u : URL) : URL :=
  match s with
  | [] => u
  | _ => let p := match Path u with [] => [slash] | p => p end in WithPath (path_Join (p :: s)) u
  end.

Definition AccountUrl (rootIdentity : bytes) (path : list bytes) : URL :=
  let a := if HasSuffix rootIdentity TLD then rootIdentity else rootIdentity ++ TLD in
  JoinPath path (mkURL [] a [] [] []).

(** [strconv.FormatUint(n, 10)]; twenty digits are enough for 64 bits. *)
Fixpoint format_uint (fuel : nat) (n : Z) : bytes :=
  match fuel with
  | O => []
  | S fuel =>
      let d := [z2b (48 + n mod 10)] in
      if n <? 10 then d else format_uint fuel (n / 10) ++ d
  end.
Definition FormatUint (n : Z) : bytes := format_uint 20 n.

Definition FormatKeyPageUrl (keyBook : URL) (pageIndex : Z) : URL :=
  JoinPath [FormatUint (u64 (pageIndex + 1))] keyBook.

(** ** Characters *)

(** [utf8.DecodeRuneInString]: the character and its width; an invalid byte is the
    error character with width 1. *)
Definition RuneError : Z := 65533.

Definition decode_rune (s : bytes) : Z * nat :=
  let cont b lo hi := (lo <=? b2z b) && (b2z b <=? hi) in
  let low b := b2z b mod 64 in
  match s with
  | [] => (RuneError, 0%nat)
  | b0 :: s =>
      let z := b2z b0 in
      if z <? 128 then (z, 1%nat)
      else if (194 <=? z) && (z <=? 223) then
        match s with
        | b1 :: _ => if cont b1 128 191 then ((z - 192) * 64 + low b1, 2%nat) else (RuneError, 1%nat)
        | _ => (RuneError, 1%nat)
        end
      else if (224 <=? z) && (z <=? 239) then
        match s with
        | b1 :: b2 :: _ =>
            if cont b1 (if z =? 224 then 160 else 128) (if z =? 237 then 159 else 191) && cont b2 128 191
            then ((z - 224) * 4096 + low b1 * 64 + low b2, 3%nat) else (RuneError, 1%nat)
        | _ => (RuneError, 1%nat)
        end
      else if (240 <=? z) && (z <=? 244) then
        match s with
        | b1 :: b2 :: b3 :: _ =>
            if cont b1 (if z =? 240 then 144 else 128) (if z =? 244 then 143 else 191) && cont b2 128 191
               && cont b3 128 191
            then ((z - 240) * 262144 + low b1 * 4096 + low b2 * 64 + low b3, 4%nat) else (RuneError, 1%nat)
        | _ => (RuneError, 1%nat)
        end
      else (RuneError, 1%nat)
  end.

(** What [for _, r := range s] visits, with the widths. *)
Fixpoint decode_runes (fuel : nat) (s : bytes) : list (Z * nat) :=
  match fuel, s with
  | O, _ | _, [] => []
  | S fuel, _ => let '(r, w) := decode_rune s in (r, w) :: decode_runes fuel (drop w s)
  end.
Definition runes (s : bytes) : list Z := fst <$> decode_runes (length s) s.

(** [utf8.ValidString]. *)
Definition ValidString (s : bytes) : bool :=
  forallb (fun p => negb ((fst p =? RuneError) && (snd p =? 1)%nat)) (decode_runes (length s) s).

Definition ValidUTF8 (u : URL) : bool :=
  ValidString (UserInfo u) && ValidString (Authority u) && ValidString (Path u)
  && ValidString (Query u) && ValidString (Fragment u).

Definition rune_alnum (r : Z) : bool :=
  ((48 <=? r) && (r <=? 57)) || ((65 <=? r) && (r <=? 90)) || ((97 <=? r) && (r <=? 122)).

(** ** Valid URLs *)

(** The tables of Go's [unicode] beyond ASCII: letters and numbers, and those with
    marks, dashes and connectors. *)
Class UnicodeTables := {
  letter_number : Z -> bool;
  path_character : Z -> bool
}.

Section Validity.
Context `{UnicodeTables}.

(** [unicode.In(r, Letter, Number)]. *)
Definition in_letter_number (r : Z) : bool := if r <? 128 then rune_alnum r else letter_number r.
(** [unicode.In(r, Letter, Number, Mark, Pd, Pc)]; in ASCII the dash and the
    underscore. *)
Definition in_path_character (r : Z) : bool :=
  if r <? 128 then rune_alnum r || (r =? 45) || (r =? 95) else path_character r.

Fixpoint adi_characters (rs : list Z) (errs : list string) : list string :=
  match rs with
  | [] => errs
  | r :: rs =>
      if in_letter_number r then adi_characters rs errs
      else if (match errs with [] => false | _ => true end) && ((r =? 46) || (r =? RuneError)) then adi_characters rs errs
      else if r =? 45 then adi_characters rs errs
      else adi_characters rs (errs ++ ["illegal character"%string])
  end.

Definition is_digits (s : bytes) : bool :=
  negb (bytes_eqb s []) && forallb (fun b => (48 <=? b2z b) && (b2z b <=? 57)) s.

(** The errors joined by [IsValidAdiUrl]. *)
Definition adi_errors (u : URL) (allowReserved : bool) : list string :=
  let a := Hostname u in
  let errs := if negb (ValidUTF8 u) then ["not valid UTF-8"%string] else [] in
  let errs := if negb (bytes_eqb (Port u) []) then errs ++ ["identity has a port number"%string] else errs in
  let '(a, errs) :=
    if bytes_eqb a [] then (a, errs ++ ["identity is empty"%string])
    else if HasSuffix a TLD then
      let a := take (length a - length TLD) a in
      (a, if bytes_eqb a [] then errs ++ ["identity is empty"%string] else errs)
    else (a, errs ++ ["identity must end in .acme"%string]) in
  let errs := if bool_decide (Byte.x2e ∈ a) then errs ++ ["identity contains a subdomain"%string] else errs in
  let errs := if is_digits a then errs ++ ["identity is a number"%string] else errs in
  let errs := if negb (bytes_eqb (Query u) []) then errs ++ ["query is not empty"%string] else errs in
  let errs := if negb (bytes_eqb (Fragment u) []) then errs ++ ["fragment is not empty"%string] else errs in
  let errs := if negb allowReserved && IsReserved u then errs ++ ["reserved URL"%string] else errs in
  adi_characters (runes a) errs.

Definition IsValidAdiUrl (u : URL) (allowReserved : bool) : res unit :=
  match adi_errors u allowReserved with
  | [] => Ok tt
  | e :: _ => errorf e
  end.

(** The characters of one part of a path; [seen] are the illegal ones reported. *)
Fixpoint path_characters (rs : list Z) (seen : list Z) (errs : list string) : list Z * list string :=
  match rs with
  | [] => (seen, errs)
  | r :: rs =>
      if in_path_character r then path_characters rs seen errs
      else if (match errs with [] => false | _ => true end) && (r =? RuneError) then path_characters rs seen errs
      else if bool_decide (r ∈ [32; 46; 58; 43; 126; 124]) then path_characters rs seen errs
      else if bool_decide (r ∈ seen) then path_characters rs seen errs
      else path_characters rs (r :: seen) (errs ++ ["illegal character"%string])
  end.

(** The leading slashes of [s]: how many, and the rest. *)
Fixpoint leading_slashes (s : bytes) (i : nat) : nat * bytes :=
  match s with
  | b :: s' => if bool_decide (b = slash) then leading_slashes s' (S i) else (i, s)
  | [] => (i, s)
  end.

(** The loop of [IsValidAccountPath]; every round consumes a part. *)
Fixpoint account_path_loop (fuel : nat) (s : bytes) (multi : bool) (seen : list Z) (errs : list string)
    : bool * list string :=
  match fuel with
  | O => (multi, errs)
  | S fuel =>
      let '(i, s) := leading_slashes s 0 in
      let multi := multi || (1 <? i)%nat in
      match s with
      | [] => (multi, errs)
      | _ =>
          let i := IndexByte s slash in
          let '(part, s) := if i <? 0 then (s, []) else (take (Z.to_nat i) s, drop (Z.to_nat i) s) in
          let '(seen, errs) := path_characters (runes part) seen errs in
          account_path_loop fuel s multi seen errs
      end
  end.

Definition IsValidAccountPath (s : bytes) : res unit :=
  let errs := if negb (ValidString s) then ["not valid UTF-8"%string] else [] in
  let '(multi, errs) := account_path_loop (S (length s)) s false [] errs in
  let errs := if multi then errs ++ ["adjacent path separators"%string] else errs in
  match errs with [] => Ok tt | e :: _ => errorf e end.

End Validity.

(** ** The URL of a key page *)

(** A path element that cleaning keeps. *)
Definition seg_ok (s : bytes) : Prop := s <> [] /\ s <> dot /\ s <> dotdot /\ slash ∉ s.
(** The path with the given elements. *)
Definition mk_path (segs : list bytes) : bytes := segs ≫= cons slash.
(** A URL whose path is already clean. *)
Definition clean_url (u : URL) : Prop := exists segs, Path u = mk_path segs /\ Forall seg_ok segs.

Lemma split_path_free s r cur : slash ∉ s -> split_path (s ++ r) cur = split_path r (cur ++ s).
Proof.
  revert cur. induction s as [|b s IH]; intros cur Hs; cbn [app split_path]; [by rewrite app_nil_r|].
  apply not_elem_of_cons in Hs as [Hb Hs]. rewrite bool_decide_eq_false_2 by congruence. rewrite IH by done.
  by rewrite <- app_assoc.
Qed.

Lemma split_path_mk segs cur : Forall seg_ok segs -> split_path (mk_path segs) cur = cur :: segs.
Proof.
  intros HF. revert cur. induction HF as [|s segs [_ [_ [_ Hs]]] HF IH]; intros cur; [done|].
  unfold mk_path in *. cbn [mbind list_bind split_path app]. rewrite bool_decide_eq_true_2 by done.
  by rewrite split_path_free, IH by done.
Qed.

Lemma clean_elems_ok rooted segs acc : Forall seg_ok segs -> clean_elems rooted segs acc = rev segs ++ acc.
Proof.
  intros HF. revert acc. induction HF as [|s segs (H1 & H2 & H3 & _) HF IH]; intros acc; [done|].
  cbn [clean_elems rev]. unfold bytes_eqb. rewrite !bool_decide_eq_false_2 by done. cbn [orb].
  by rewrite IH, <- app_assoc.
Qed.

Lemma join_path_mk s segs : slash :: join_path (s :: segs) = mk_path (s :: segs).
Proof.
  revert s. induction segs as [|t segs IH]; intros s; [by cbn; rewrite app_nil_r|].
  change (mk_path (s :: t :: segs)) with (slash :: s ++ mk_path (t :: segs)). by rewrite <- IH.
Qed.

Lemma path_Clean_mk segs : Forall seg_ok segs -> segs <> [] -> path_Clean (mk_path segs) = mk_path segs.
Proof.
  intros HF Hne. destruct segs as [|s segs]; [done|]. unfold path_Clean.
  assert (Hr : match mk_path (s :: segs) with b :: _ => bool_decide (b = slash) | [] => false end = true) by reflexivity.
  rewrite Hr, split_path_mk by done. change (clean_elems true ([] :: s :: segs) []) with (clean_elems true (s :: segs) []).
  rewrite clean_elems_ok by done. rewrite app_nil_r, rev_involutive. apply join_path_mk.
Qed.

(** Joining a clean element appends it. *)
Lemma JoinPath_clean u segs s :
  Path u = mk_path segs -> Forall seg_ok segs -> seg_ok s ->
  JoinPath [s] u = WithPath (mk_path (segs ++ [s])) u.
Proof.
  intros Hp HF Hs. unfold JoinPath, path_Join. rewrite Hp. f_equal.
  destruct Hs as (H1 & H2 & H3 & H4). destruct segs as [|s0 segs].
  - cbn -[path_Clean]. unfold bytes_eqb. rewrite (bool_decide_eq_false_2 (s = [])) by done. cbn -[path_Clean].
    assert (Hc : path_Clean (slash :: slash :: s) = slash :: s).
    { unfold path_Clean. rewrite bool_decide_eq_true_2 by done. cbn [split_path]. rewrite !bool_decide_eq_true_2 by done.
      rewrite <- (app_nil_r s) at 1. rewrite split_path_free by done. cbn [app split_path clean_elems].
      change (bytes_eqb [] []) with true. cbn [orb]. unfold bytes_eqb. rewrite !bool_decide_eq_false_2 by done.
      reflexivity. }
    rewrite app_nil_r. exact Hc.
  - assert (E : mk_path (s0 :: segs) = slash :: s0 ++ mk_path segs) by done. rewrite E.
    cbn [List.filter]. unfold bytes_eqb. rewrite !bool_decide_eq_false_2 by done. cbn [negb join_path].
    rewrite <- E. replace (mk_path (s0 :: segs) ++ [slash] ++ s) with (mk_path ((s0 :: segs) ++ [s])).
    + apply path_Clean_mk; [|done]. apply Forall_app. split; [done|]. by repeat constructor.
    + unfold mk_path. rewrite bind_app. by cbn; rewrite app_nil_r.
Qed.

Definition is_digit (b : byte) : Prop := 48 <= b2z b <= 57.

Lemma format_uint_digits fuel n : Forall is_digit (format_uint fuel n).
Proof.
  revert n. induction fuel as [|fuel IH]; intros n; cbn [format_uint]; [constructor|].
  assert (is_digit (z2b (48 + n mod 10))).
  { unfold is_digit. pose proof (Z.mod_pos_bound n 10). rewrite b2z_z2b_small by lia. lia. }
  destruct (n <? 10); [by apply Forall_singleton|]. apply Forall_app. split; [apply IH|by apply Forall_singleton].
Qed.

Lemma parse_format_uint fuel n r : 0 <= n < 2 ^ 16 -> n < 10 ^ Z.of_nat fuel ->
  parse_digits (format_uint fuel n ++ r) 0 = parse_digits r n.
Proof.
  revert n r. induction fuel as [|fuel IH]; intros n r Hn Hf; [simpl in Hf; assert (n = 0) as -> by lia; done|].
  assert (Hd : forall k s, 0 <= k -> k * 10 + n mod 10 = n -> parse_digits (z2b (48 + n mod 10) :: s) k = parse_digits s n).
  { intros k s Hk E. pose proof (Z.mod_pos_bound n 10). cbn [parse_digits]. unfold digit. rewrite b2z_z2b_small by lia.
    rewrite (proj2 (Z.leb_le 48 _)), (proj2 (Z.leb_le _ 57)) by lia. cbn [andb].
    replace (k * 10 + (48 + n mod 10 - 48)) with n by lia. by rewrite (proj2 (Z.ltb_ge _ n)) by lia. }
  pose proof (Z.div_mod n 10 ltac:(lia)) as Hdm. cbn [format_uint]. destruct (Z.ltb_spec n 10).
  - cbn [app]. apply Hd; [lia|]. rewrite Z.mod_small by lia. lia.
  - rewrite <- app_assoc, IH; [cbn [app]; apply Hd; [|lia]; apply Z.div_pos; lia| |].
    + split; [apply Z.div_pos; lia|]. assert (n / 10 <= n) by (apply Z.div_le_upper_bound; lia). lia.
    + apply Z.div_lt_upper_bound; [lia|]. rewrite Nat2Z.inj_succ, Z.pow_succ_r in Hf by lia. lia.
Qed.

Lemma ParseUint_FormatUint n : 0 <= n < 2 ^ 16 -> ParseUint16 (FormatUint n) = Some n.
Proof.
  intros H. unfold ParseUint16, FormatUint. pose proof (parse_format_uint 20 n [] H) as E. rewrite app_nil_r in E.
  destruct (format_uint 20 n) eqn:Ef; [|apply E; simpl; lia].
  exfalso. cbn [format_uint] in Ef. destruct (n <? 10); [done|]. by apply app_eq_nil in Ef as [_ ?].
Qed.

Lemma digits_seg_ok s : s <> [] -> Forall is_digit s -> seg_ok s.
Proof.
  intros Hne HF. rewrite Forall_forall in HF.
  assert (Hdot : ~ is_digit Byte.x2e) by (intros [H _]; by vm_compute in H).
  assert (Hslash : ~ is_digit slash) by (intros [H _]; by vm_compute in H).
  split; [done|]. split; [intros ->; apply Hdot, HF; left|]. split; [intros ->; apply Hdot, HF; left|].
  intros Hin. by apply Hslash, HF.
Qed.

Lemma FormatUint_seg_ok n : 0 <= n < 2 ^ 16 -> seg_ok (FormatUint n).
Proof.
  intros H. apply digits_seg_ok; [|apply format_uint_digits]. intros E. pose proof (ParseUint_FormatUint n H) as Hp.
  by rewrite E in Hp.
Qed.

Lemma mk_path_snoc segs s : mk_path (segs ++ [s]) = mk_path segs ++ slash :: s.
Proof. unfold mk_path. rewrite bind_app. cbn. by rewrite app_nil_r. Qed.

Lemma TrimSuffix_none s c : last s <> Some c -> TrimSuffix s c = s.
Proof.
  intros H. unfold TrimSuffix. destruct (rev s) as [|b r] eqn:E; [done|].
  apply (f_equal (@rev byte)) in E. rewrite rev_involutive in E. subst s. cbn [rev] in *.
  rewrite last_snoc in H. by rewrite bool_decide_eq_false_2 by congruence.
Qed.

Lemma last_app_seg l s : s <> [] -> slash ∉ s -> last (l ++ slash :: s) <> Some slash.
Proof.
  intros Hne Hs. destruct s as [|b s _] using rev_ind; [done|]. rewrite app_comm_cons, app_assoc, last_snoc.
  intros [= ->]. apply Hs, elem_of_app. right. by left.
Qed.

(** The identity of a URL whose last path element is [s]. *)
Lemma Identity_snoc u p s :
  s <> [] -> slash ∉ s -> Path u = p ++ slash :: s ->
  Identity u = mkURL (UserInfo u) (Authority u) p [] [].
Proof.
  intros Hne Hs Hp. unfold Identity, Parent. rewrite Hp, TrimSuffix_none by (by apply last_app_seg).
  rewrite LastIndexByte_app by done. unfold zlen. rewrite length_app. cbn [length].
  rewrite (proj2 (Z.eqb_neq _ 0)) by lia. rewrite (proj2 (Z.eqb_neq _ (-1))) by lia. cbn [fst].
  by rewrite Nat2Z.id, take_app_length.
Qed.

(** The page URLs of a key book are parsed back: the book's URL without query and
    fragment, and the number of the page, which is one more than its index. *)
Lemma ParseKeyPageUrl_Format (book : URL) (i : Z) :
  clean_url book -> 0 <= i < 2 ^ 16 - 1 ->
  ParseKeyPageUrl (FormatKeyPageUrl book i)
  = Some (mkURL (UserInfo book) (Authority book) (Path book) [] [], i + 1).
Proof.
  intros (segs & Hp & HF) Hi. unfold FormatKeyPageUrl. rewrite u64_small by (unfold is_u64; lia).
  pose proof (FormatUint_seg_ok (i + 1) ltac:(lia)) as Hs. rewrite (JoinPath_clean _ segs) by done.
  destruct Hs as (H1 & _ & _ & H4). unfold ParseKeyPageUrl. cbn [Path WithPath]. rewrite mk_path_snoc, LastIndexByte_app by done.
  rewrite (proj2 (Z.ltb_ge _ 0)) by apply zlen_nonneg.
  replace (drop (Z.to_nat (zlen (mk_path segs) + 1)) (mk_path segs ++ slash :: FormatUint (i + 1))) with (FormatUint (i + 1)).
  - rewrite ParseUint_FormatUint by lia. rewrite (Identity_snoc _ (mk_path segs) (FormatUint (i + 1)));
      [by rewrite Hp|done|done|]. done.
  - unfold zlen. replace (Z.to_nat (Z.of_nat (length (mk_path segs)) + 1)) with (length (mk_path segs ++ [slash]))
      by (rewrite length_app; cbn; lia).
    replace (mk_path segs ++ slash :: FormatUint (i + 1)) with ((mk_path segs ++ [slash]) ++ FormatUint (i + 1))
      by (by rewrite <- app_assoc). by rewrite drop_app_length.
Qed.

(** ** Valid identities *)

Lemma HasSuffix_spec s p : HasSuffix s p = true <-> exists q, s = q ++ p.
Proof.
  unfold HasSuffix, HasPrefix. rewrite bytes_eqb_eq. split.
  - intros E. exists (rev (drop (length (rev p)) (rev s))).
    rewrite <- (rev_involutive p) at 2. rewrite <- E at 2. rewrite <- rev_app_distr, take_drop. by rewrite rev_involutive.
  - intros [q ->]. rewrite rev_app_distr. apply take_app_length.
Qed.

Lemma hex_decode_dot s t : is_Ok (hex_DecodeString (s ++ Byte.x2e :: t)) = false.
Proof.
  assert (Hn : forall n s, (length s <= n)%nat -> is_Ok (hex_DecodeString (s ++ Byte.x2e :: t)) = false);
    [|by apply (Hn (length s))]. clear s.
  induction n as [|n IH]; intros [|a [|b s]] Hl; cbn [app hex_DecodeString length] in *; try lia; try by destruct t.
  - by destruct (fromHexChar a).
  - destruct (fromHexChar a), (fromHexChar b); try done. specialize (IH s ltac:(lia)).
    by destruct (hex_DecodeString (s ++ Byte.x2e :: t)).
Qed.

Lemma if_app_nil {A} (c : bool) (l : list A) m : (if c then l ++ [m] else l) = [] <-> c = false /\ l = [].
Proof. destruct c; (split; [|by intros [? ?]]); [by intros [_ ?]%app_eq_nil|auto]. Qed.

Section ValidityFacts.
Context `{UnicodeTables}.

Lemma adi_characters_nil rs errs :
  adi_characters rs errs = [] <-> errs = [] /\ Forall (fun r => in_letter_number r = true \/ r = 45) rs.
Proof.
  revert errs. induction rs as [|r rs IH]; intros errs; cbn [adi_characters]; [split; [auto|by intros [? _]]|].
  destruct (in_letter_number r) eqn:El.
  { rewrite IH, Forall_cons. split; [intros [? ?]; auto|intros (? & _ & ?); auto]. }
  destruct errs as [|e errs]; cbn [andb].
  - destruct (Z.eqb_spec r 45); rewrite IH, Forall_cons;
      [split; [intros [? ?]; auto|intros (? & _ & ?); auto]|].
    split; [by intros [? _]|]. intros (_ & [?|?] & _); [congruence|done].
  - destruct ((r =? 46) || (r =? RuneError)); [rewrite IH; split; by intros [? _]|].
    destruct (r =? 45); rewrite IH; split; by intros [? _].
Qed.

(** What an accepted identity URL looks like. *)
Record valid_adi (u : URL) (label : bytes) : Prop := {
  va_host : Hostname u = label ++ TLD;
  va_label : label <> [];
  va_dots : Byte.x2e ∉ label;
  va_number : is_digits label = false;
  va_chars : Forall (fun r => in_letter_number r = true \/ r = 45) (runes label);
  va_utf8 : ValidUTF8 u = true;
  va_port : Port u = [];
  va_query : Query u = [];
  va_fragment : Fragment u = [];
  va_reserved : IsReserved u = false
}.

Lemma IsValidAdiUrl_iff u : IsValidAdiUrl u false = Ok tt <-> exists label, valid_adi u label.
Proof.
  transitivity (adi_errors u false = []).
  { unfold IsValidAdiUrl. by destruct (adi_errors u false). }
  unfold adi_errors. destruct (bytes_eqb (Hostname u) []) eqn:E0.
  { rewrite adi_characters_nil, !if_app_nil. split; [intros [(?&?&?&?&?&[_ ?]%app_eq_nil) _]; done|].
    intros [label []]. apply bytes_eqb_eq in E0. rewrite E0 in va_host0. by destruct label. }
  destruct (HasSuffix (Hostname u) TLD) eqn:Es; last first.
  { rewrite adi_characters_nil, !if_app_nil. split; [intros [(?&?&?&?&?&[_ ?]%app_eq_nil) _]; done|].
    intros [label []]. rewrite (proj2 (HasSuffix_spec _ _)) in Es by (by exists label). done. }
  apply HasSuffix_spec in Es as [q Eq]. rewrite Eq.
  assert (Ht : take (length (q ++ TLD) - length TLD) (q ++ TLD) = q).
  { rewrite length_app. replace (length q + length TLD - length TLD)%nat with (length q) by lia. apply take_app_length. }
  rewrite Ht, adi_characters_nil, !if_app_nil. cbn [negb andb].
  split.
  - intros [(Hr & Hf & Hq & Hd & Hn & He & Hp & Hu) Hc]. exists q. rewrite negb_false_iff in Hf, Hq, Hp.
    apply bytes_eqb_eq in Hf, Hq, Hp. apply bool_decide_eq_false in Hn.
    split; try done; [intros ->; done|]. by destruct (ValidUTF8 u).
  - intros [label []]. rewrite Eq in va_host0. apply app_inj_2 in va_host0 as [-> _]; [|done].
    rewrite va_utf9, va_port0, va_query0, va_fragment0, va_number0, va_reserved0. rewrite bool_decide_eq_false_2 by done.
    assert (bytes_eqb label [] = false) as -> by (by apply not_true_iff_false; rewrite bytes_eqb_eq). done.
Qed.

(** C37. An identity is accepted exactly when its host name is a label of letters, numbers
    and dashes that is not a number, followed by [.acme], with no port, query or
    fragment, and its URL is valid UTF-8 and not reserved; such a URL is never a lite
    address, a lite data address or the URL of a partition.  The path is not looked at, and
    the label may be 48 hexadecimal digits, although the comment of the function excludes
    both ([IsValidAdiUrl_path], [IsValidAdiUrl_hex]). *)
Theorem IsValidAdiUrl_correct (u : URL) :
  (IsValidAdiUrl u false = Ok tt <-> exists label, valid_adi u label) /\
  (IsValidAdiUrl u false = Ok tt ->
     is_Ok (Lite.ParseLiteAddress u) = false /\ is_Ok (Lite.ParseLiteDataAddress u) = false /\
     ParsePartitionUrl u = None /\ IsDnUrl u = false /\ Equal (Some (RootIdentity u)) (Some AcmeUrl) = false).
Proof.
  split; [apply IsValidAdiUrl_iff|]. intros [label []]%IsValidAdiUrl_iff.
  assert (Hx : is_Ok (hex_DecodeString (Hostname u)) = false) by (rewrite va_host0; apply hex_decode_dot).
  unfold IsReserved in va_reserved0. destruct (IsUnknown u); [done|]. apply orb_false_iff in va_reserved0 as [Hp Hd].
  apply orb_false_iff in Hd as [Hd Ha]. apply bool_decide_eq_false, eq_None_not_Some in Hp.
  split; [|split]; [..|done].
  - unfold Lite.ParseLiteAddress. by destruct (hex_DecodeString (Hostname u)).
  - unfold Lite.ParseLiteDataAddress. destruct (negb _); [done|]. by destruct (hex_DecodeString (Hostname u)).
Qed.

End ValidityFacts.

(** ASCII only: no character beyond is a letter. *)
Definition ascii_tables : UnicodeTables := Build_UnicodeTables (fun _ => false) (fun _ => false).

(** The comment of the function excludes a path and a name of 48 hexadecimal digits; the
    code accepts both. *)
Lemma IsValidAdiUrl_path : @IsValidAdiUrl ascii_tables (mkURL [] (str "red-wagon.acme") (str "/book/1") [] []) false = Ok tt.
Proof. vm_compute. reflexivity. Qed.

Lemma IsValidAdiUrl_hex :
  @IsValidAdiUrl ascii_tables (mkURL [] (str "0123456789abcdef0123456789abcdef0123456789abcdef.acme") [] [] []) false = Ok tt.
Proof. vm_compute. reflexivity. Qed.

Lemma IsValidAdiUrl_correct_witness :
  @IsValidAdiUrl ascii_tables (mkURL [] (str "red-wagon.acme") (str "/book") [] []) false = Ok tt /\
  is_Ok (Lite.ParseLiteAddress (mkURL [] (str "red-wagon.acme") (str "/book") [] [])) = false.
Proof.
  assert (H : @IsValidAdiUrl ascii_tables (mkURL [] (str "red-wagon.acme") (str "/book") [] []) false = Ok tt)
    by (vm_compute; reflexivity).
  split; [exact H|]. exact (proj1 (proj2 (@IsValidAdiUrl_correct ascii_tables _) H)).
Defined.
