(* ===== verification/KeyPages.v ===== *)
(** * Changing key pages and account authorities: [internal/chain/update_key_page.go],
      [update_key.go], [update_account_auth.go]

    The operations on a page and on an authority list; the handlers that load the
    accounts and store the result are in Executors. *)

From stdpp Require Import sorting.
From S2P Require Import Prelude SortUtil Url UrlProofs Accounts AccountsProofs.
Local Open Scope Z_scope.
Import Url.

(** [errors.Format(StatusUnknownError, "...: %w", err)]: the code of the cause. *)
Definition wrapf {A} (m : res A) (msg : string) : res A :=
  match m with Err e => Err (mkError (err_status e) (msg ++ ": " ++ err_msg e)) | _ => m end.

Lemma wrapf_Ok {A} (m : res A) msg x : wrapf m msg = Ok x <-> m = Ok x.
Proof. by destruct m. Qed.

(** ** Authorities *)

Definition verifyIsNotPage (auth : AccountAuth) (account : URL) : res unit :=
  match ParseKeyPageUrl account with
  | None => Ok tt
  | Some (book, _) =>
      let! e := GetAuthority book auth in
      match e with
      | None => Ok tt
      | Some _ => errors_new StatusBadRequest "a key page is not a valid authority"
      end
  end.

Inductive AccountAuthOperation :=
  | EnableAccountAuthOperation (Authority : option URL)
  | DisableAccountAuthOperation (Authority : option URL)
  | AddAccountAuthorityOperation (Authority : option URL)
  | RemoveAccountAuthorityOperation (Authority : option URL).

Definition set_disabled (b : bool) (i : Z) (a : AccountAuth) : AccountAuth :=
  mkAuth (alter (fun e => mkAuthority (auth_Url e) b) (Z.to_nat i) (Authorities a)).

(** One iteration of the loop of [UpdateAccountAuth.Validate]; [exists_] is whether
    the batch holds the account, [account] the URL of the principal. *)
Definition authOperation (exists_ : URL -> bool) (account : URL) (op : AccountAuthOperation)
    (auth : AccountAuth) : res AccountAuth :=
  let missing := errors_new StatusBadRequest "authority URL is missing" in
  match op with
  | EnableAccountAuthOperation None | DisableAccountAuthOperation None
  | AddAccountAuthorityOperation None | RemoveAccountAuthorityOperation None => missing
  | EnableAccountAuthOperation (Some u) =>
      let! e := GetAuthority u auth in
      match e with
      | None => errorf "not an authority"
      | Some i => Ok (set_disabled false i auth)
      end
  | DisableAccountAuthOperation (Some u) =>
      let! e := GetAuthority u auth in
      match e with
      | None => errorf "not an authority"
      | Some i => Ok (set_disabled true i auth)
      end
  | AddAccountAuthorityOperation (Some u) =>
      if LocalTo account u && negb (exists_ u) then errors_new StatusNotFound "account not found"
      else
        let! _ := wrapf (verifyIsNotPage auth u) "invalid authority" in
        let! (auth, new) := AddAuthority u auth in
        if negb new then errorf "duplicate authority" else Ok auth
  | RemoveAccountAuthorityOperation (Some u) =>
      let! (auth, removed) := RemoveAuthority u auth in
      if negb removed then errorf "no such authority"
      else if zlen (Authorities auth) =? 0 then
        errors_new StatusBadRequest "removing the last authority from an account is not allowed"
      else Ok auth
  end.

Fixpoint authOperations (exists_ : URL -> bool) (account : URL) (ops : list AccountAuthOperation)
    (auth : AccountAuth) : res AccountAuth :=
  match ops with
  | [] => Ok auth
  | op :: ops => let! auth := authOperation exists_ account op auth in authOperations exists_ account ops auth
  end.

(** ** Key pages *)

Definition TransactionTypeUpdateKeyPage : Z := 15.
Definition TransactionTypeUpdateAccountAuth : Z := 21.

Definition AllowedTransactionBit (typ : Z) : option Z :=
  if typ =? TransactionTypeUpdateKeyPage then Some 1
  else if typ =? TransactionTypeUpdateAccountAuth then Some 2
  else None.

Inductive KeyPageOperation :=
  | AddKeyOperation (Entry : KeySpecParams)
  | RemoveKeyOperation (Entry : KeySpecParams)
  | UpdateKeyOperation (OldEntry NewEntry : KeySpecParams)
  | SetThresholdKeyPageOperation (Threshold : Z)
  | UpdateAllowedKeyPageOperation (Allow Deny : list Z).

(** The index of the entry; [None] is not found. *)
Definition findKeyPageEntry (search : KeySpecParams) (page : KeyPage) : res (option Z) :=
  let! r := if 0 <? zlen (KeyHash search) then EntryByKeyHash (KeyHash search) page else Ok None in
  match r, kp_Delegate search with
  | Some i, _ => Ok (Some i)
  | None, Some d => Ok (EntryByDelegate d page)
  | None, None => Ok None
  end.

(** The checks of a delegate that an added and a changed entry share. *)
Definition check_delegate (page : KeyPage) (book : AccountAuth) (delegate : option URL) : res unit :=
  match delegate with
  | None => Ok tt
  | Some d =>
      if ParentOf d (kpg_Url page) then errorf "self-delegation is not allowed"
      else wrapf (verifyIsNotPage book d) "invalid delegate"
  end.

Definition updateKey (page : KeyPage) (book : AccountAuth) (old new : KeySpecParams)
    (preserveDelegate : bool) : res KeyPage :=
  if IsEmpty new then errorf "cannot add an empty entry"
  else
    let! _ := check_delegate page book (kp_Delegate new) in
    let! oldPos := findKeyPageEntry old page in
    match oldPos with
    | None => errorf "entry to be updated not found on the key page"
    | Some oldPos =>
        let! newPos := findKeyPageEntry new page in
        if bool_decide (is_Some newPos) && negb (bool_decide (newPos = Some oldPos)) then
          errorf "cannot have duplicate entries on key page"
        else
          let! entry := index (Keys page) oldPos in
          let d := if bool_decide (is_Some (kp_Delegate new)) || negb preserveDelegate
                   then kp_Delegate new else Delegate entry in
          let entry := mkKeySpec (KeyHash new) (ks_LastUsedOn entry) d in
          let page := set_Keys (<[Z.to_nat oldPos := entry]> (Keys page)) page in
          let! page := RemoveKeySpecAt oldPos page in
          AddKeySpec entry page
    end.

Fixpoint allow_all (f : Z -> Z -> Z) (txns : list Z) (v : Z) : res Z :=
  match txns with
  | [] => Ok v
  | txn :: txns =>
      match AllowedTransactionBit txn with
      | None => errorf "transaction type cannot be (dis)allowed"
      | Some bit => allow_all f txns (f bit v)
      end
  end.

Definition executeOperation (page : KeyPage) (book : AccountAuth) (op : KeyPageOperation) : res KeyPage :=
  match op with
  | AddKeyOperation entry =>
      if IsEmpty entry then errorf "cannot add an empty entry"
      else
        let! _ := check_delegate page book (kp_Delegate entry) in
        let! found := findKeyPageEntry entry page in
        match found with
        | Some _ => errorf "cannot have duplicate entries on key page"
        | None => AddKeySpec (mkKeySpec (KeyHash entry) 0 (kp_Delegate entry)) page
        end
  | RemoveKeyOperation entry =>
      let! found := findKeyPageEntry entry page in
      match found with
      | None => errorf "entry to be removed not found on the key page"
      | Some index =>
          match ParseKeyPageUrl (kpg_Url page) with
          | None => errors_new StatusInternalError "principal is not a key page"
          | Some (_, pageIndex) =>
              if (zlen (Keys page) =? 1) && (pageIndex =? 1) then
                errorf "cannot delete last key of the highest priority page of a key book"
              else
                let! page := RemoveKeySpecAt index page in
                if u64 (zlen (Keys page)) <? AcceptThreshold page
                then Ok (set_AcceptThreshold (u64 (zlen (Keys page))) page)
                else Ok page
          end
      end
  | UpdateKeyOperation old new => updateKey page book old new false
  | SetThresholdKeyPageOperation m => SetThreshold m page
  | UpdateAllowedKeyPageOperation allow deny =>
      let! v := allow_all Allowed_Clear allow (default 0 (TransactionBlacklist page)) in
      let! v := allow_all Allowed_Set deny v in
      Ok (set_Blacklist (if v =? 0 then None else Some v) page)
  end.

Fixpoint executeOperations (page : KeyPage) (book : AccountAuth) (ops : list KeyPageOperation) : res KeyPage :=
  match ops with
  | [] => Ok page
  | op :: ops => let! page := executeOperation page book op in executeOperations page book ops
  end.

Definition didUpdateKeyPage (page : KeyPage) : KeyPage :=
  mkKeyPage (kpg_Url page) (kpg_CreditBalance page) (AcceptThreshold page) (u64 (Version page + 1))
    ((fun k => mkKeySpec (PublicKeyHash k) 0 (Delegate k)) <$> Keys page) (TransactionBlacklist page).

(** ** Two ways to lose the intent of a key page *)

Definition demo_page_url : URL := mkURL [] (str "bar.acme") (str "/book/1") [] [].
Definition foreign_page : URL := mkURL [] (str "foo.acme") (str "/book/1") [] [].
Definition foreign_book : URL := mkURL [] (str "foo.acme") (str "/book") [] [].
Definition demo_page (keys : list KeySpec) (m : Z) : KeyPage := mkKeyPage demo_page_url 0 m 1 keys None.
Definition key_hash (b : byte) : bytes := replicate 32 b.

(** A delegate that is itself a key page is looked up as its book, so the
    duplicate check of [updateKey] misses it: changing a key entry into that
    delegate overwrites the entry already there, and the page is left with one key
    and a threshold of two. *)
Theorem updateKey_loses_entry :
  let page := demo_page [mkKeySpec [] 0 (Some foreign_page); mkKeySpec (key_hash Byte.x01) 0 None] 2 in
  executeOperation page (mkAuth [])
    (UpdateKeyOperation (mkParams (key_hash Byte.x01) None) (mkParams [] (Some foreign_page)))
  = Ok (demo_page [mkKeySpec [] 0 (Some foreign_page)] 2).
Proof. vm_compute. reflexivity. Qed.

(** The duplicate check of [updateKey] stops at the first match, by key hash:
    giving an entry a delegate that another entry already has is accepted when the
    key hash stays the same, although adding that delegate is refused as a
    duplicate. *)
Theorem updateKey_duplicates_delegate :
  let keys := [mkKeySpec [] 0 (Some foreign_book); mkKeySpec (key_hash Byte.x01) 0 None] in
  executeOperation (demo_page keys 1) (mkAuth [])
    (UpdateKeyOperation (mkParams (key_hash Byte.x01) None)
       (mkParams (key_hash Byte.x01) (Some foreign_book)))
  = Ok (demo_page [mkKeySpec [] 0 (Some foreign_book);
                   mkKeySpec (key_hash Byte.x01) 0 (Some foreign_book)] 1) /\
  executeOperation (demo_page keys 1) (mkAuth [])
    (AddKeyOperation (mkParams (key_hash Byte.x02) (Some foreign_book)))
  = errorf "cannot have duplicate entries on key page".
Proof. split; vm_compute; reflexivity. Qed.
