(* ===== verification/KeyPagesProofs.v ===== *)
(** * Invariants of key pages and authority lists

    The operations of [UpdateKeyPage] keep a page sorted, without repeated key
    hashes or empty entries and with a threshold its keys can meet; those of
    [UpdateAccountAuth] keep a sorted, non-empty list of authorities. *)

From stdpp Require Import sorting.
From S2P Require Import Prelude SortUtil Url UrlProofs Accounts AccountsProofs KeyPages.
Local Open Scope Z_scope.
Import Url.

(** ** Authorities *)

Lemma GetAuthority_ok u a :
  auth_sorted a -> exists r, GetAuthority u a = Ok r /\
    match r with
    | Some i => exists e, Authorities a !! Z.to_nat i = Some e /\ 0 <= i /\ Equal (Some (auth_Url e)) (Some u) = true
    | None => ~ has_authority u a
    end.
Proof.
  intros Hs. destruct (sorted_search auth_compare (Authorities a) (mkAuthority u false) Hs)
    as (i & b & E & Hm & Hx).
  unfold GetAuthority. change (fun e => Compare (auth_Url e) u) with (fun x => auth_compare x (mkAuthority u false)).
  rewrite E. cbn [res_bind]. destruct b; eexists; (split; [done|]).
  - destruct (Hx eq_refl) as (e & He & Hi & Hc). exists e. split; [done|]. split; [done|]. by apply Compare_zero.
  - intros Ha. by apply has_authority_iff, Hm in Ha.
Qed.

Lemma verifyIsNotPage_ok a u : auth_sorted a -> is_Panic (verifyIsNotPage a u) = false.
Proof.
  intros Hs. unfold verifyIsNotPage. destruct (ParseKeyPageUrl u) as [[book n]|]; [|done].
  destruct (GetAuthority_ok book a Hs) as (r & -> & _). by destruct r.
Qed.

Lemma set_disabled_urls b i a : auth_Url <$> Authorities (set_disabled b i a) = auth_Url <$> Authorities a.
Proof.
  unfold set_disabled. simpl. apply list_eq. intros j. rewrite !list_lookup_fmap.
  destruct (decide (j = Z.to_nat i)) as [->|Hne].
  - rewrite list_lookup_alter_eq. by destruct (Authorities a !! _).
  - by rewrite list_lookup_alter_ne.
Qed.

Lemma same_urls_sorted l l' :
  auth_Url <$> l' = auth_Url <$> l -> sorted auth_compare l -> sorted auth_compare l'.
Proof.
  intros E Hs. revert l' E. induction Hs as [|x l Hs IH Hx]; intros [|y l'] E; try done; [constructor|].
  rewrite !fmap_cons in E. apply (inj2 cons) in E as [E1 E2]. constructor; [by apply IH|].
  assert (Hall : forall u, u ∈ auth_Url <$> l -> Compare (auth_Url x) u < 0).
  { intros u (z & -> & Hz)%list_elem_of_fmap. rewrite Forall_forall in Hx. by apply Hx. }
  rewrite <- E2 in Hall. rewrite Forall_forall. intros z Hz. unfold lt_, auth_compare. rewrite E1.
  apply Hall. apply list_elem_of_fmap. by exists z.
Qed.

Lemma authOperation_ok exists_ account op a :
  auth_sorted a -> Authorities a <> [] ->
  match authOperation exists_ account op a with
  | Ok a' => auth_sorted a' /\ Authorities a' <> []
  | Err _ => True
  | Panic _ => False
  end.
Proof.
  intros Hs Hne.
  assert (Hset : forall b i, auth_sorted (set_disabled b i a) /\ Authorities (set_disabled b i a) <> []).
  { intros b i. pose proof (set_disabled_urls b i a) as E. split; [by eapply same_urls_sorted|].
    intros En. rewrite En in E. by destruct (Authorities a). }
  destruct op as [[u|]|[u|]|[u|]|[u|]]; cbn [authOperation]; try exact I.
  - destruct (GetAuthority_ok u a Hs) as (r & -> & _). destruct r; [apply Hset|done].
  - destruct (GetAuthority_ok u a Hs) as (r & -> & _). destruct r; [apply Hset|done].
  - destruct (LocalTo account u && negb (exists_ u)); [done|]. pose proof (verifyIsNotPage_ok a u Hs) as Hv.
    destruct (verifyIsNotPage a u); try done. cbn [wrapf res_bind].
    destruct (AddAuthority_ok u a Hs) as (a' & new & -> & Hs' & _ & Heq & Hm). cbn [res_bind].
    destruct new; [|done]. simpl. split; [done|]. intros En.
    assert (has_authority u a') as (e & He & _) by (apply Hm; left; apply EqualFold_refl).
    rewrite En in He. by apply not_elem_of_nil in He.
  - destruct (RemoveAuthority_ok u a Hs) as (a' & b & -> & Hs' & _ & _). cbn [res_bind].
    destruct b; [|done]. cbn [negb]. destruct (Z.eqb_spec (zlen (Authorities a')) 0) as [|Hz]; [done|].
    split; [done|]. intros En. by rewrite En in Hz.
Qed.

Lemma authOperations_ok exists_ account ops a :
  auth_sorted a -> Authorities a <> [] ->
  match authOperations exists_ account ops a with
  | Ok a' => auth_sorted a' /\ Authorities a' <> []
  | Err _ => True
  | Panic _ => False
  end.
Proof.
  revert a. induction ops as [|op ops IH]; intros a Hs Hne; [done|]. cbn [authOperations].
  pose proof (authOperation_ok exists_ account op a Hs Hne) as H.
  destruct (authOperation exists_ account op a) as [a'| |]; [|done|done]. cbn [res_bind].
  destruct H. by apply IH.
Qed.

(** [UpdateAccountAuth] keeps an account's authorities sorted, without
    duplicates and never empty: every sequence of its operations ends in an error or
    in such a list, and does not panic. *)
Theorem authOperations_inv exists_ account ops a :
  auth_sorted a -> Authorities a <> [] ->
  match authOperations exists_ account ops a with
  | Ok a' => auth_sorted a' /\ Authorities a' <> []
  | Err _ => True
  | Panic _ => False
  end.
Proof. apply authOperations_ok. Qed.

Definition demo_auth : AccountAuth := mkAuth [mkAuthority foreign_book false].

Lemma authOperations_inv_witness :
  auth_sorted demo_auth /\
  match authOperations (fun _ => true) demo_page_url
          [AddAccountAuthorityOperation (Some demo_page_url); RemoveAccountAuthorityOperation (Some foreign_book);
           DisableAccountAuthOperation (Some demo_page_url)] demo_auth with
  | Ok a' => auth_sorted a' /\ Authorities a' <> []
  | Err _ => True
  | Panic _ => False
  end.
Proof.
  assert (Hs : auth_sorted demo_auth) by (repeat constructor).
  split; [exact Hs|]. apply authOperations_inv; [exact Hs|discriminate].
Defined.

(** ** Key pages *)

(** The order of a page: by key hash, then by delegate, an entry without one
    first. *)
Definition key_compare : KeySpec -> KeySpec -> Z :=
  compare_lex (fun x y => bytes_compare (PublicKeyHash x) (PublicKeyHash y))
    (fun x y => compare_option Compare (Delegate x) (Delegate y)).

#[global] Instance key_compare_total : TotalCompare key_compare.
Proof.
  pose proof (compare_on PublicKeyHash bytes_compare). pose proof (compare_on Delegate (compare_option Compare)).
  unfold key_compare. apply _.
Qed.

Definition hash_distinct (x y : KeySpec) : Prop := PublicKeyHash x = PublicKeyHash y -> PublicKeyHash x = [].
Definition filled (k : KeySpec) : Prop := PublicKeyHash k <> [] \/ is_Some (Delegate k).
Definition by_book (d : option URL) : Prop := forall u, d = Some u -> ParseKeyPageUrl u = None.

Record keys_inv (l : list KeySpec) : Prop := {
  ki_sorted : sorted key_compare l;
  ki_distinct : StronglySorted hash_distinct l;
  ki_filled : Forall filled l;
  ki_books : Forall (fun k => by_book (Delegate k)) l
}.

Record page_inv (p : KeyPage) : Prop := {
  pi_keys : keys_inv (Keys p);
  pi_threshold : 0 <= AcceptThreshold p <= zlen (Keys p)
}.

Lemma key_compare_zero x y :
  key_compare x y = 0 <-> PublicKeyHash x = PublicKeyHash y /\ Equal (Delegate x) (Delegate y) = true.
Proof.
  unfold key_compare, compare_lex. destruct (Z.eqb_spec (bytes_compare (PublicKeyHash x) (PublicKeyHash y)) 0) as [E|E].
  - apply bytes_compare_eq in E. destruct (Delegate x), (Delegate y); simpl; try (split; [lia|by intros [_ ?]]);
      try (by split). rewrite Compare_zero. simpl. tauto.
  - split; [lia|]. intros [H _]. by apply bytes_compare_eq in H.
Qed.

Lemma distinct_lookup l i j x y :
  StronglySorted hash_distinct l -> l !! i = Some x -> l !! j = Some y ->
  PublicKeyHash x = PublicKeyHash y -> PublicKeyHash x <> [] -> i = j.
Proof.
  intros Hd. revert i j. induction Hd as [|a l Hd IH Ha]; [done|].
  intros [|i] [|j] Hx Hy E Hne; simplify_eq/=; [done| | |f_equal; eauto].
  - rewrite Forall_forall in Ha. destruct Hne. apply (Ha y); [by eapply list_elem_of_lookup_2|done].
  - rewrite Forall_forall in Ha. destruct Hne. rewrite E. apply (Ha x); [by eapply list_elem_of_lookup_2|done].
Qed.

(** *** Inserting and removing entries *)

Lemma keys_inv_insert l k n :
  keys_inv l -> first_ge (fun x => key_compare x k) l n -> ~ member key_compare k l ->
  (forall x, x ∈ l -> hash_distinct k x) -> filled k -> by_book (Delegate k) ->
  keys_inv (take n l ++ k :: drop n l).
Proof.
  intros [Hs Hd Hf Hb] Hn Hm Hh Hfk Hbk.
  assert (HF : forall P : KeySpec -> Prop, Forall P l -> P k -> Forall P (take n l ++ k :: drop n l)).
  { intros P HP Hk. rewrite <- (take_drop n l) in HP. apply Forall_app in HP as [? ?].
    apply Forall_app. split; [done|by constructor]. }
  split; [by apply (insert_sorted key_compare)| |by apply HF|by apply (HF (fun k => by_book (Delegate k)))].
  assert (Hsym : forall x y, hash_distinct x y -> hash_distinct y x).
  { intros x y H E. rewrite E. by apply H. }
  rewrite <- (take_drop n l) in Hd. rewrite StronglySorted_app in Hd. destruct Hd as (H12 & H1 & H2).
  assert (Hin : forall x, x ∈ take n l \/ x ∈ drop n l -> x ∈ l).
  { intros x Hx. rewrite <- (take_drop n l). apply elem_of_app. done. }
  rewrite StronglySorted_app, StronglySorted_cons, Forall_forall. split; [|split; [done|split; [|done]]].
  - intros x y Hx [->|Hy]%elem_of_cons; [apply Hsym, Hh, Hin; by left|by apply H12].
  - intros y Hy. apply Hh, Hin. by right.
Qed.

Lemma keys_inv_remove l n : keys_inv l -> keys_inv (take n l ++ drop (S n) l).
Proof.
  intros [Hs Hd Hf Hb].
  destruct (l !! n) as [x|] eqn:Hx; last first.
  { apply lookup_ge_None in Hx. rewrite take_ge, drop_ge, app_nil_r by lia. by split. }
  assert (HF : forall P : KeySpec -> Prop, Forall P l -> Forall P (take n l ++ drop (S n) l)).
  { intros P HP. rewrite <- (take_drop_middle l n x Hx) in HP. apply Forall_app in HP as [H1 H2].
    inversion H2. by apply Forall_app. }
  split; [by apply (remove_sorted key_compare)| |by apply HF|by apply HF].
  rewrite <- (take_drop_middle l n x Hx) in Hd. rewrite StronglySorted_app, StronglySorted_cons in Hd.
  destruct Hd as (H12 & H1 & _ & H2). rewrite StronglySorted_app. split; [|done].
  intros a b Ha Hb'. apply H12; [done|by right].
Qed.

(** [AddKeySpec] of an entry the page does not have. *)
Lemma AddKeySpec_ok k p :
  keys_inv (Keys p) -> ~ member key_compare k (Keys p) ->
  (forall x, x ∈ Keys p -> hash_distinct k x) -> filled k -> by_book (Delegate k) ->
  exists l, AddKeySpec k p = Ok (set_Keys l p) /\ keys_inv l /\ (forall x, x ∈ l -> x = k \/ x ∈ Keys p) /\
    zlen l = zlen (Keys p) + 1.
Proof.
  intros Hi Hm Hh Hf Hb. destruct (BinaryInsert_ok (mkKeySpec [] 0 None) (Keys p) (fun x => key_compare x k) k)
    as (n & Hn & H); [apply (sorted_ge_mono key_compare), Hi|].
  assert (Ec : BinaryInsert (mkKeySpec [] 0 None) (Keys p) (keyspec_cmp k) =
               BinaryInsert (mkKeySpec [] 0 None) (Keys p) (fun x => key_compare x k)).
  { apply BinaryInsert_ext. intros x Hx. unfold keyspec_cmp, key_compare, compare_lex, compare_option.
    destruct (Z.eqb_spec (bytes_compare (PublicKeyHash x) (PublicKeyHash k)) 0) as [E|E]; [|done].
    cbn [negb]. destruct (Delegate x) eqn:Ex, (Delegate k) eqn:Ek; try done.
    destruct Hm. exists x. split; [done|]. apply key_compare_zero. rewrite Ex, Ek.
    split; [by apply bytes_compare_eq|done]. }
  pose proof (found_member key_compare (Keys p) k n (ki_sorted _ Hi) Hn) as Hfm.
  assert (exists l', BinaryInsert (mkKeySpec [] 0 None) (Keys p) (fun x => key_compare x k) = Ok (l', Z.of_nat n, true)
    /\ store_at l' (Z.of_nat n) k = take n (Keys p) ++ k :: drop n (Keys p)) as (l' & E & Est).
  { destruct (Keys p !! n) as [x|]; [|exact H]. destruct (key_compare x k =? 0); [|exact H].
    destruct Hm. by apply Hfm. }
  unfold AddKeySpec. rewrite Ec, E. cbn [res_bind]. rewrite Est. eexists. split; [done|].
  split; [by apply keys_inv_insert|]. split.
  { intros x [Hx|[->|Hx]%elem_of_cons]%elem_of_app; [right|by left|right];
      rewrite <- (take_drop n (Keys p)); apply elem_of_app; auto. }
  unfold zlen. rewrite length_app. simpl. rewrite length_take, length_drop. destruct Hn as [Hn _]. lia.
Qed.

(** *** Finding entries *)

Lemma keys_hash_order l i j x y :
  keys_inv l -> (i < j)%nat -> l !! i = Some x -> l !! j = Some y ->
  bytes_compare (PublicKeyHash x) (PublicKeyHash y) <= 0.
Proof.
  intros Hi Hij Hx Hy. pose proof (sorted_lookup key_compare l i j x y (ki_sorted _ Hi) Hij Hx Hy) as H.
  unfold key_compare, compare_lex in H. case_match eqn:E; lia.
Qed.

Lemma EntryByKeyHash_ok h p :
  keys_inv (Keys p) -> exists r, EntryByKeyHash h p = Ok r /\
    match r with
    | Some i => exists x, Keys p !! Z.to_nat i = Some x /\ 0 <= i /\ PublicKeyHash x = h
    | None => forall x, x ∈ Keys p -> PublicKeyHash x <> h
    end.
Proof.
  intros Hi. destruct (search_major PublicKeyHash bytes_compare (Keys p) h) as (i & b & E & Ht & Hf).
  { intros i j x y. by apply keys_hash_order. }
  unfold EntryByKeyHash. rewrite E. cbn [res_bind]. destruct b; eexists; (split; [done|]).
  - destruct (Ht eq_refl) as (x & Hx & H0 & Hc). exists x. split; [done|]. split; [done|]. by apply bytes_compare_eq.
  - intros x Hx <-. destruct (Hf eq_refl x Hx). apply (compare_refl bytes_compare).
Qed.

Lemma delegate_index_ok d l n :
  0 <= n ->
  match delegate_index d l n with
  | Some i => n <= i /\ (exists x, l !! Z.to_nat (i - n) = Some x /\ Equal (Some d) (Delegate x) = true) /\
      forall j x, (j < Z.to_nat (i - n))%nat -> l !! j = Some x -> Equal (Some d) (Delegate x) = false
  | None => forall x, x ∈ l -> Equal (Some d) (Delegate x) = false
  end.
Proof.
  revert n. induction l as [|a l IH]; intros n Hn; cbn [delegate_index].
  { intros x Hx. by apply not_elem_of_nil in Hx. }
  destruct (Equal (Some d) (Delegate a)) eqn:E.
  { rewrite Z.sub_diag. split; [lia|]. split; [by exists a|]. intros j x Hj. simpl in Hj. lia. }
  specialize (IH (n + 1) ltac:(lia)). destruct (delegate_index d l (n + 1)) as [i|].
  - destruct IH as (H1 & (x & Hx & Ex) & Hlo). split; [lia|].
    replace (Z.to_nat (i - n)) with (S (Z.to_nat (i - (n + 1)))) by lia. split; [by exists x|].
    intros [|j] y Hj Hy; simplify_eq/=; [done|]. apply (Hlo j); [lia|done].
  - intros x [->|Hx]%elem_of_cons; [done|by apply IH].
Qed.

Lemma Equal_sym u v : Equal u v = Equal v u.
Proof.
  destruct u, v; try done. simpl. apply eq_true_iff_eq. rewrite !EqualFold_spec. done.
Qed.

Lemma Equal_trans u v w : Equal u v = true -> Equal v w = true -> Equal u w = true.
Proof. destruct u, v, w; try done. simpl. rewrite !EqualFold_spec. congruence. Qed.

(** An entry that repeats neither a key hash nor, without one, a delegate. *)
Definition fresh_in (l : list KeySpec) (k : KeySpec) : Prop :=
  forall x, x ∈ l -> PublicKeyHash x = PublicKeyHash k ->
    PublicKeyHash k = [] /\ Equal (Delegate x) (Delegate k) = false.

Lemma AddKeySpec_fresh k p :
  keys_inv (Keys p) -> fresh_in (Keys p) k -> filled k -> by_book (Delegate k) ->
  exists l, AddKeySpec k p = Ok (set_Keys l p) /\ keys_inv l /\ (forall x, x ∈ l -> x = k \/ x ∈ Keys p) /\
    zlen l = zlen (Keys p) + 1.
Proof.
  intros Hi Hfr. apply AddKeySpec_ok; [done| |].
  - intros (x & Hx & Hc). apply key_compare_zero in Hc as [Hh Hd].
    destruct (Hfr x Hx Hh) as [_ Hf]. by rewrite Hd in Hf.
  - intros x Hx Hh. by apply (Hfr x Hx).
Qed.

(** What [findKeyPageEntry] finds: an entry with the key hash or, failing that, the
    first one with the delegate. *)
Lemma findKeyPageEntry_ok s p :
  keys_inv (Keys p) -> by_book (kp_Delegate s) ->
  exists r, findKeyPageEntry s p = Ok r /\
    match r with
    | Some i => exists x, Keys p !! Z.to_nat i = Some x /\ 0 <= i /\
        (PublicKeyHash x = KeyHash s \/
         (forall y, KeyHash s <> [] -> y ∈ Keys p -> PublicKeyHash y <> KeyHash s) /\
         Equal (kp_Delegate s) (Delegate x) = true /\ is_Some (kp_Delegate s) /\
         forall j y, (j < Z.to_nat i)%nat -> Keys p !! j = Some y -> Equal (kp_Delegate s) (Delegate y) = false)
        /\ (PublicKeyHash x = KeyHash s -> KeyHash s <> [] \/
            (Equal (kp_Delegate s) (Delegate x) = true /\
             forall j y, (j < Z.to_nat i)%nat -> Keys p !! j = Some y -> Equal (kp_Delegate s) (Delegate y) = false))
    | None => forall x, x ∈ Keys p ->
        (KeyHash s <> [] -> PublicKeyHash x <> KeyHash s) /\
        (is_Some (kp_Delegate s) -> Equal (kp_Delegate s) (Delegate x) = false)
    end.
Proof.
  intros Hi Hb. unfold findKeyPageEntry.
  assert (Hdel : forall d, kp_Delegate s = Some d -> EntryByDelegate d p = delegate_index d (Keys p) 0).
  { intros d Hd. unfold EntryByDelegate. cbn [entry_by_delegate]. by rewrite (Hb d Hd). }
  assert (Hz : (0 <? zlen (KeyHash s)) = negb (bytes_eqb (KeyHash s) [])) by (by destruct (KeyHash s)).
  rewrite Hz. destruct (bytes_eqb (KeyHash s) []) eqn:Eh; cbn [negb].
  - apply bytes_eqb_eq in Eh. cbn [res_bind]. destruct (kp_Delegate s) as [d|] eqn:Ed.
    + eexists. split; [done|]. rewrite (Hdel d eq_refl).
      pose proof (delegate_index_ok d (Keys p) 0 ltac:(lia)) as H. destruct (delegate_index d (Keys p) 0) as [i|].
      * destruct H as (H0 & (x & Hx & Ex) & Hlo). rewrite Z.sub_0_r in *. exists x. rewrite Eh. split; [done|].
        split; [done|]. split; [right|intros _; right; by split].
        split; [intros y Hn; by destruct Hn|]. split; [done|]. split; [by eexists|done].
      * intros x Hx. split; [by rewrite Eh|]. intros _. by apply H.
    + eexists. split; [done|]. intros x Hx. split; [by rewrite Eh|by intros [? ?]].
  - assert (KeyHash s <> []) as Hne by (intros E; by rewrite E in Eh).
    destruct (EntryByKeyHash_ok (KeyHash s) p Hi) as (r & -> & Hr). cbn [res_bind]. destruct r as [i|].
    { eexists. split; [done|]. destruct Hr as (x & Hx & H0 & Ex). exists x.
      split; [done|]. split; [done|]. split; [by left|by left]. }
    destruct (kp_Delegate s) as [d|] eqn:Ed.
    + eexists. split; [done|]. rewrite (Hdel d eq_refl).
      pose proof (delegate_index_ok d (Keys p) 0 ltac:(lia)) as H. destruct (delegate_index d (Keys p) 0) as [i|].
      * destruct H as (H0 & (x & Hx & Ex) & Hlo). rewrite Z.sub_0_r in *. exists x. split; [done|].
        split; [done|]. split; [right|intros _; by left].
        split; [intros y _; by apply Hr|]. split; [done|]. split; [by eexists|done].
      * intros x Hx. split; [intros _; by apply Hr|]. intros _. by apply H.
    + eexists. split; [done|]. intros x Hx. split; [intros _; by apply Hr|by intros [? ?]].
Qed.

Lemma check_delegate_ok p book d : auth_sorted book -> is_Panic (check_delegate p book d) = false.
Proof.
  intros Hs. destruct d as [u|]; [|done]. cbn [check_delegate]. case_match; [done|].
  pose proof (verifyIsNotPage_ok book u Hs). by destruct (verifyIsNotPage book u).
Qed.

Lemma IsEmpty_false k : IsEmpty k = false -> KeyHash k <> [] \/ is_Some (kp_Delegate k).
Proof.
  unfold IsEmpty. destruct (KeyHash k), (kp_Delegate k); simpl; try done; intros _; auto; by right.
Qed.

Lemma RemoveKeySpecAt_ok i p x :
  0 <= i -> Keys p !! Z.to_nat i = Some x ->
  RemoveKeySpecAt i p = Ok (set_Keys (take (Z.to_nat i) (Keys p) ++ drop (S (Z.to_nat i)) (Keys p)) p).
Proof.
  intros Hi Hx. pose proof (lookup_lt_Some _ _ _ Hx). unfold RemoveKeySpecAt.
  rewrite <- (Z2Nat.id i) at 1 by done. by rewrite RemoveAt_ok.
Qed.

Lemma elem_of_rest {A} (l : list A) n x :
  x ∈ take n l ++ drop (S n) l -> exists j, j <> n /\ l !! j = Some x.
Proof.
  intros [(j & Hj)%list_elem_of_lookup|(j & Hj)%list_elem_of_lookup]%elem_of_app.
  - rewrite lookup_take in Hj. case_decide; [|done]. exists j. split; [lia|done].
  - rewrite lookup_drop in Hj. exists (S n + j)%nat. split; [lia|done].
Qed.

(** The changed entry is fresh among the others. *)
Lemma update_fresh p new i r e d :
  keys_inv (Keys p) -> by_book (kp_Delegate new) -> IsEmpty new = false ->
  Keys p !! Z.to_nat i = Some e -> 0 <= i ->
  findKeyPageEntry new p = Ok r -> r = None \/ r = Some i ->
  (KeyHash new = [] -> d = kp_Delegate new) ->
  fresh_in (take (Z.to_nat i) (Keys p) ++ drop (S (Z.to_nat i)) (Keys p)) (mkKeySpec (KeyHash new) (ks_LastUsedOn e) d).
Proof.
  intros Hi Hb He Hx Hi0 Hf Hr Hd. destruct (findKeyPageEntry_ok new p Hi Hb) as (r' & E & Hspec).
  rewrite Hf in E. injection E as <-. intros y (j & Hj & Hy)%elem_of_rest Hh. cbn [PublicKeyHash Delegate] in *.
  pose proof (list_elem_of_lookup_2 _ _ _ Hy) as Hin.
  destruct Hr as [->| ->].
  - destruct (Hspec y Hin) as [H1 H2]. destruct (decide (KeyHash new = [])) as [E|E]; [|by destruct (H1 E)].
    split; [done|]. rewrite Equal_sym, (Hd E). apply H2. by destruct (IsEmpty_false new He).
  - destruct Hspec as (x & Hx' & _ & Hcase & Hcase'). assert (x = e) as -> by congruence.
    assert (Hno : KeyHash new <> [] -> PublicKeyHash e = KeyHash new -> False).
    { intros Hne Ee. apply Hj. eapply distinct_lookup; [apply Hi|exact Hy|exact Hx|by rewrite Ee|by rewrite Hh]. }
    destruct (decide (KeyHash new = [])) as [E|Hne]; last first.
    { destruct Hcase as [Ee|(Hall & _)]; [by destruct (Hno Hne Ee)|]. by destruct (Hall y Hne Hin). }
    split; [done|]. rewrite (Hd E).
    assert (Hfirst : Equal (kp_Delegate new) (Delegate e) = true /\
      forall j y, (j < Z.to_nat i)%nat -> Keys p !! j = Some y -> Equal (kp_Delegate new) (Delegate y) = false).
    { destruct Hcase as [Ee|(_ & H1 & _ & H2)]; [|done]. destruct (Hcase' Ee) as [|H]; done. }
    destruct Hfirst as [Hee Hlo]. rewrite Equal_sym. destruct (decide (j < Z.to_nat i)%nat); [eauto|].
    destruct (Equal (kp_Delegate new) (Delegate y)) eqn:Ey; [|done].
    pose proof (sorted_lookup key_compare _ (Z.to_nat i) j e y (ki_sorted _ Hi) ltac:(lia) Hx Hy) as Hlt.
    pose proof (keys_hash_order _ (Z.to_nat i) j e y Hi ltac:(lia) Hx Hy) as Hle.
    assert (PublicKeyHash e = []) as He0.
    { rewrite Hh, E in Hle. destruct (PublicKeyHash e); [done|simpl in Hle; lia]. }
    assert (key_compare e y = 0) as Hz; [|lia]. apply key_compare_zero. rewrite He0, Hh, E. split; [done|].
    eapply Equal_trans; [rewrite Equal_sym; exact Hee|exact Ey].
Qed.

(** ** The operations *)

Definition params_by_book (s : KeySpecParams) : Prop := by_book (kp_Delegate s).

(** The delegates an operation names are books, not pages. *)
Definition op_by_book (op : KeyPageOperation) : Prop :=
  match op with
  | AddKeyOperation s | RemoveKeyOperation s => params_by_book s
  | UpdateKeyOperation old new => params_by_book old /\ params_by_book new
  | _ => True
  end.

(** The operation fails, or gives a page that keeps the invariant. *)
Definition keeps (P : KeyPage -> Prop) (r : res KeyPage) : Prop :=
  match r with Ok p => P p | Err _ => True | Panic _ => False end.

Lemma insert_rest (l : list KeySpec) n e :
  take n (<[n:=e]> l) ++ drop (S n) (<[n:=e]> l) = take n l ++ drop (S n) l.
Proof. rewrite take_insert_ge by lia. by rewrite drop_insert_lt by lia. Qed.

(** Whatever the delegate, the entry found is on the page. *)
Lemma findKeyPageEntry_index s p :
  keys_inv (Keys p) -> exists r, findKeyPageEntry s p = Ok r /\
    forall i, r = Some i -> 0 <= i /\ is_Some (Keys p !! Z.to_nat i).
Proof.
  intros Hi. unfold findKeyPageEntry.
  assert (Hd : forall d i, EntryByDelegate d p = Some i -> 0 <= i /\ is_Some (Keys p !! Z.to_nat i)).
  { intros d i. unfold EntryByDelegate. generalize (S (length (Path d))). intros n. revert d.
    induction n as [|n IH]; intros d; cbn [entry_by_delegate]; [done|].
    destruct (ParseKeyPageUrl d) as [[book k]|]; [apply IH|]. cbn [default].
    pose proof (delegate_index_ok d (Keys p) 0 ltac:(lia)) as H. intros E. cbn in E. rewrite E in H.
    destruct H as (H0 & (x & Hx & _) & _). rewrite Z.sub_0_r in Hx. split; [done|]. by exists x. }
  destruct (0 <? zlen (KeyHash s)); [|cbn [res_bind]; destruct (kp_Delegate s); eauto].
  - destruct (EntryByKeyHash_ok (KeyHash s) p Hi) as (r & -> & Hr). cbn [res_bind].
    destruct r as [i|]; [|destruct (kp_Delegate s); eauto].
    + eexists. split; [done|]. intros j [= <-]. destruct Hr as (x & Hx & H0 & _). split; [done|]. by exists x.
    + eexists. split; [done|]. done.
  - eexists. split; [done|]. done.
Qed.

Lemma updateKey_inv p book old new b :
  page_inv p -> auth_sorted book -> params_by_book new ->
  keeps page_inv (updateKey p book old new b).
Proof.
  intros [Hi Ht] Hs Hnb. unfold updateKey. destruct (IsEmpty new) eqn:He; [done|].
  pose proof (check_delegate_ok p book (kp_Delegate new) Hs) as Hc.
  destruct (check_delegate p book (kp_Delegate new)); [|done|done]. cbn [res_bind].
  destruct (findKeyPageEntry_index old p Hi) as (ro & -> & Ho). cbn [res_bind]. destruct ro as [i|]; [|done].
  destruct (Ho i eq_refl) as (H0 & e & Hx).
  destruct (findKeyPageEntry_ok new p Hi Hnb) as (rn & En & _). rewrite En. cbn [res_bind].
  destruct (bool_decide (is_Some rn) && negb (bool_decide (rn = Some i))) eqn:Ed; [done|].
  assert (Hr : rn = None \/ rn = Some i).
  { destruct rn as [j|]; [right|by left]. rewrite bool_decide_true in Ed by done. simpl in Ed.
    apply negb_false_iff, bool_decide_eq_true in Ed. done. }
  pose proof (index_ok _ _ _ Hx) as Hidx. rewrite Z2Nat.id in Hidx by done. rewrite Hidx. cbn [res_bind].
  set (d := if _ : bool then kp_Delegate new else Delegate e).
  assert (Hd : KeyHash new = [] -> d = kp_Delegate new).
  { intros E. destruct (IsEmpty_false new He) as [|Hsome]; [done|]. subst d. by rewrite bool_decide_true. }
  assert (Hdb : by_book d).
  { subst d. case_match; [done|]. pose proof (ki_books _ Hi) as Hb. rewrite Forall_forall in Hb.
    by eapply Hb, list_elem_of_lookup_2. }
  set (k := mkKeySpec (KeyHash new) (ks_LastUsedOn e) d).
  pose proof (lookup_lt_Some _ _ _ Hx) as Hlt.
  rewrite (RemoveKeySpecAt_ok i _ k) by (try done; cbn [Keys set_Keys]; by apply list_lookup_insert_eq).
  cbn [res_bind Keys set_Keys]. rewrite insert_rest.
  set (rest := take (Z.to_nat i) (Keys p) ++ drop (S (Z.to_nat i)) (Keys p)).
  destruct (AddKeySpec_fresh k (set_Keys rest p)) as (l & El & Hil & _ & Hlen); cbn [Keys set_Keys].
  - by apply keys_inv_remove.
  - eapply update_fresh; eauto.
  - unfold filled, k. simpl. destruct (IsEmpty_false new He) as [|Hsome]; [by left|].
    right. subst d. by rewrite bool_decide_true.
  - done.
  - cbn [set_Keys kpg_Url kpg_CreditBalance AcceptThreshold Version Keys TransactionBlacklist] in El.
    unfold set_Keys in *. cbn in El |- *. rewrite El. split; [done|]. cbn in *. rewrite Hlen. subst rest.
    unfold zlen in *. rewrite length_app, length_take, length_drop. lia.
Qed.

Lemma executeOperation_inv p book op :
  page_inv p -> auth_sorted book -> op_by_book op -> keeps page_inv (executeOperation p book op).
Proof.
  intros Hp Hs Hop. pose proof Hp as [Hi Ht]. destruct op as [s|s|old new|m|allow deny]; cbn [executeOperation op_by_book] in *.
  - destruct (IsEmpty s) eqn:He; [done|].
    pose proof (check_delegate_ok p book (kp_Delegate s) Hs) as Hc.
    destruct (check_delegate p book (kp_Delegate s)); [|done|done]. cbn [res_bind].
    destruct (findKeyPageEntry_ok s p Hi Hop) as (r & -> & Hr). cbn [res_bind]. destruct r as [i|]; [done|].
    destruct (AddKeySpec_fresh (mkKeySpec (KeyHash s) 0 (kp_Delegate s)) p Hi) as (l & -> & Hil & _ & Hlen).
    + intros x Hx Hh. cbn [PublicKeyHash Delegate] in *. destruct (Hr x Hx) as [H1 H2].
      destruct (decide (KeyHash s = [])) as [E|E]; [|by destruct (H1 E)]. split; [done|].
      rewrite Equal_sym. apply H2. by destruct (IsEmpty_false s He).
    + destruct (IsEmpty_false s He); [by left|by right].
    + done.
    + split; [done|]. cbn [set_Keys Keys AcceptThreshold]. lia.
  - destruct (findKeyPageEntry_ok s p Hi Hop) as (r & -> & Hr). cbn [res_bind]. destruct r as [i|]; [|done].
    destruct Hr as (x & Hx & H0 & _). destruct (ParseKeyPageUrl (kpg_Url p)) as [[bk n]|]; [|done].
    case_match; [done|]. rewrite (RemoveKeySpecAt_ok i p x H0 Hx). cbn [res_bind set_Keys Keys AcceptThreshold].
    pose proof (keys_inv_remove (Keys p) (Z.to_nat i) Hi) as Hi'. set (l := take _ _ ++ _) in *.
    assert (u64 (zlen l) <= zlen l) by (unfold u64; pose proof (zlen_nonneg l); apply Z.mod_le; lia).
    pose proof (u64_range (zlen l)) as Hu. unfold is_u64 in Hu.
    case_match; (split; [done|]); cbn [set_Keys set_AcceptThreshold Keys AcceptThreshold]; lia.
  - destruct Hop. by apply updateKey_inv.
  - unfold SetThreshold. case_match eqn:E; [|by case_match]. split; [done|].
    cbn [set_AcceptThreshold Keys AcceptThreshold].
    assert (u64 (zlen (Keys p)) <= zlen (Keys p)) by (unfold u64; pose proof (zlen_nonneg (Keys p)); apply Z.mod_le; lia).
    lia.
  - assert (Hall : forall f txns v, is_Panic (allow_all f txns v) = false).
    { intros f txns. induction txns as [|t txns IH]; intros v; [done|]. cbn [allow_all]. by case_match. }
    pose proof (Hall Allowed_Clear allow (default 0 (TransactionBlacklist p))) as Ha.
    destruct (allow_all Allowed_Clear allow _) as [v| |]; [|done|done]. cbn [res_bind].
    pose proof (Hall Allowed_Set deny v) as Hd. destruct (allow_all Allowed_Set deny v); [|done|done].
    cbn [res_bind]. by split.
Qed.

Lemma didUpdateKeyPage_inv p : page_inv p -> page_inv (didUpdateKeyPage p).
Proof.
  intros [[Hs Hd Hf Hb] Ht].
  assert (Hmap : forall R : KeySpec -> KeySpec -> Prop,
    (forall x y, R x y -> R (mkKeySpec (PublicKeyHash x) 0 (Delegate x)) (mkKeySpec (PublicKeyHash y) 0 (Delegate y))) ->
    StronglySorted R (Keys p) -> StronglySorted R (Keys (didUpdateKeyPage p))).
  { intros R HR. cbn [didUpdateKeyPage Keys]. generalize (Keys p). clear -HR. induction 1 as [|x l Hl IH Hx]; [constructor|].
    rewrite fmap_cons. constructor; [done|]. apply Forall_fmap. eapply Forall_impl; [exact Hx|].
    intros y Hy. by apply HR. }
  split.
  - split; [by apply (Hmap (lt_ key_compare))|by apply Hmap| |]; cbn [didUpdateKeyPage Keys];
      apply Forall_fmap; [exact Hf|exact Hb].
  - cbn [didUpdateKeyPage Keys AcceptThreshold]. unfold zlen. rewrite length_fmap. exact Ht.
Qed.

Lemma executeOperations_page ops p book :
  page_inv p -> auth_sorted book -> Forall op_by_book ops -> keeps page_inv (executeOperations p book ops).
Proof.
  intros Hp Hs Hops. revert p Hp. induction Hops as [|op ops Hop Hops IH]; intros p Hp; [done|].
  cbn [executeOperations]. pose proof (executeOperation_inv p book op Hp Hs Hop) as H.
  destruct (executeOperation p book op); [|done|done]. by apply IH.
Qed.

(** C35. A key page stays well formed under every sequence of [UpdateKeyPage]
    operations whose delegates are books: the sequence ends in an error or in a page
    whose entries are sorted by key hash and delegate, whose key hashes are distinct,
    with no empty entry and with a threshold no larger than its number of keys; it
    never panics, and on such a page [EntryByKeyHash] finds every key it has. *)
Theorem executeOperations_inv ops p book :
  page_inv p -> auth_sorted book -> Forall op_by_book ops ->
  keeps (fun p' => page_inv (didUpdateKeyPage p') /\
    forall h, exists r, EntryByKeyHash h p' = Ok r /\
      (is_Some r <-> exists x, x ∈ Keys p' /\ PublicKeyHash x = h))
    (executeOperations p book ops).
Proof.
  intros Hp Hs Hops. pose proof (executeOperations_page ops p book Hp Hs Hops) as H.
  destruct (executeOperations p book ops) as [p'| |]; [|done|done]. cbn [keeps] in *.
  split; [by apply didUpdateKeyPage_inv|]. intros h.
  destruct (EntryByKeyHash_ok h p' (pi_keys _ H)) as (r & -> & Hr). exists r. split; [done|].
  destruct r as [i|]; split.
  - intros _. destruct Hr as (x & Hx & _ & E). exists x. split; [by eapply list_elem_of_lookup_2|done].
  - by eexists.
  - by intros [? ?].
  - intros (x & Hx & E). by destruct (Hr x Hx).
Qed.

Lemma executeOperations_inv_witness :
  keeps (fun p' => page_inv (didUpdateKeyPage p') /\
    forall h, exists r, EntryByKeyHash h p' = Ok r /\
      (is_Some r <-> exists x, x ∈ Keys p' /\ PublicKeyHash x = h))
    (executeOperations (demo_page [mkKeySpec (key_hash Byte.x01) 0 None] 1) (mkAuth [])
       [AddKeyOperation (mkParams [] (Some foreign_book));
        UpdateKeyOperation (mkParams (key_hash Byte.x01) None) (mkParams (key_hash Byte.x02) None);
        SetThresholdKeyPageOperation 2; RemoveKeyOperation (mkParams [] (Some foreign_book))]).
Proof.
  assert (Hbook : by_book (Some foreign_book)).
  { intros u Hu. injection Hu as <-. vm_compute. reflexivity. }
  assert (Hnone : by_book None) by (intros u Hu; discriminate).
  apply executeOperations_inv.
  - split; [|vm_compute; split; discriminate].
    unfold demo_page. cbn [Keys]. split.
    + apply SSorted_cons; constructor.
    + apply SSorted_cons; constructor.
    + apply Forall_cons_2; [left; discriminate|constructor].
    + apply Forall_cons_2; [exact Hnone|constructor].
  - constructor.
  - repeat constructor; try exact Hbook; exact Hnone.
Defined.
