(* ===== verification/StateManager.v ===== *)
(** * The state a transaction executes against: [internal/chain/state.go],
      [state_cache.go], [state_state.go], [internal/database/record/set.go]

    The batch is a map from account identifiers to account states, with the main
    chain and the directory of every account; a chain is the list of its entries (the
    Merkle chain that stores it is the subject of Chain).  A method that changes the
    state manager returns the changed one. *)

From S2P Require Import Prelude Sha256 Encoding Codec Receipt DataEntry SortUtil Url UrlProofs Accounts AdiUrl KeyPages.
Local Open Scope Z_scope.
Import Url TxID.

(** ** Sets of records *)

Section RecordSet.
Context {T : Type} (zero : T) (compare : T -> T -> Z).

(** The value slot is written whether or not it is new. *)
Fixpoint Set_Add (v l : list T) : res (list T) :=
  match v with
  | [] => Ok l
  | x :: v =>
      let! (l, ptr, _) := BinaryInsert zero l (fun u => compare u x) in
      Set_Add v (store_at l ptr x)
  end.

Definition Set_Remove (v : T) (l : list T) : res (list T) :=
  let! (i, found) := Search l (fun u => compare u v) in
  if (found : bool) then
    let! p := slice_to l i in
    let! r := slice_from l (i + 1) in
    Ok (p ++ r)
  else Ok l.

Definition Set_Index (v : T) (l : list T) : res Z :=
  let! (i, found) := Search l (fun u => compare u v) in
  if (found : bool) then Ok i else errors_new StatusNotFound "entry not found".

Definition Set_Find (v : T) (l : list T) : res T :=
  let! (i, found) := Search l (fun u => compare u v) in
  if (found : bool) then index l i else errors_new StatusNotFound "entry not found".
End RecordSet.

(** ** Accounts *)

Record KeyBook := mkKeyBook { kb_Url : URL; BookType : Z; kb_AccountAuth : AccountAuth; PageCount : Z }.
Record SystemLedger := mkSystemLedger { sl_Url : URL; AcmeBurnt : Z }.

(** The account types the executors tell apart; [AOther] is any of the rest, without
    authorities. *)
Inductive Account :=
  | ATokenAccount (a : TokenAccount)
  | ALiteTokenAccount (a : LiteTokenAccount)
  | ATokenIssuer (a : TokenIssuer)
  | ALiteIdentity (a : LiteIdentity)
  | AKeyPage (a : KeyPage)
  | AKeyBook (a : KeyBook)
  | AADI (u : URL) (auth : AccountAuth)
  | ADataAccount (u : URL) (auth : AccountAuth) (entry : option DataEntry)
  | ASystemLedger (a : SystemLedger)
  | ALiteDataAccount (u : URL)
  | AOther (u : URL).

Definition GetUrl (a : Account) : URL :=
  match a with
  | ATokenAccount a => ta_Url a
  | ALiteTokenAccount a => lta_Url a
  | ATokenIssuer a => ti_Url a
  | ALiteIdentity a => li_Url a
  | AKeyPage a => kpg_Url a
  | AKeyBook a => kb_Url a
  | AADI u _ | ADataAccount u _ _ | ALiteDataAccount u => u
  | ASystemLedger a => sl_Url a
  | AOther u => u
  end.

(** [FullAccount.GetAuth]; [None] when the account is not a full account. *)
Definition GetAuth (a : Account) : option AccountAuth :=
  match a with
  | ATokenAccount a => Some (ta_AccountAuth a)
  | ATokenIssuer a => Some (ti_AccountAuth a)
  | AKeyBook a => Some (kb_AccountAuth a)
  | AADI _ auth | ADataAccount _ auth _ => Some auth
  | _ => None
  end.

Definition set_Auth (auth : AccountAuth) (a : Account) : Account :=
  match a with
  | ATokenAccount a => ATokenAccount (mkTokenAccount (ta_Url a) auth (ta_TokenUrl a) (ta_Balance a))
  | ATokenIssuer a => ATokenIssuer (mkTokenIssuer (ti_Url a) auth (Symbol a) (Precision a) (Properties a)
                                      (Issued a) (SupplyLimit a))
  | AKeyBook a => AKeyBook (mkKeyBook (kb_Url a) (BookType a) auth (PageCount a))
  | AADI u _ => AADI u auth
  | ADataAccount u _ e => ADataAccount u auth e
  | _ => a
  end.

(** ** Transactions *)

Record TokenRecipient := mkRecipient { rcp_Url : option URL; rcp_Amount : Z }.

(** [SyntheticOrigin], which every synthetic transaction embeds: what caused it, and who
    is refunded how much of the fee when it fails. *)
Record SyntheticOrigin := mkOrigin { so_Cause : option TxID; so_Initiator : option URL; so_FeeRefund : Z }.
Definition no_origin : SyntheticOrigin := mkOrigin None None 0.

(** [CreateToken], which is also the first half of a proof that a token exists. *)
Record CreateTokenBody := mkCreateToken {
  ct_Url : option URL; ct_Symbol : bytes; ct_Precision : Z; ct_Properties : option URL;
  ct_SupplyLimit : option Z; ct_Authorities : list (option URL) }.
Record TokenIssuerProof := mkProof { prf_Transaction : option CreateTokenBody; prf_Receipt : option Receipt }.

Inductive TransactionBody :=
  | SendTokens (To : list TokenRecipient)
  | IssueTokens (Recipient : option URL) (Amount : Z) (To : list TokenRecipient)
  | BurnTokens (Amount : Z)
  | AddCredits (Recipient : option URL) (Amount Oracle : Z)
  | UpdateKeyPage (Operation : list KeyPageOperation)
  | LockAccount (Height : Z)
  | UpdateAccountAuth (Operations : list AccountAuthOperation)
  | SyntheticDepositTokens (o : SyntheticOrigin) (Token : URL) (Amount : Z) (IsIssuer IsRefund : bool)
  | SyntheticDepositCredits (o : SyntheticOrigin) (Amount : Z) (AcmeRefundAmount : option Z) (IsRefund : bool)
  | SyntheticBurnTokens (o : SyntheticOrigin) (Amount : Z) (IsRefund : bool)
  | CreateIdentity (Url : option URL) (KeyHash : bytes) (KeyBookUrl : option URL) (Authorities : list (option URL))
  | CreateTokenAccount (Url TokenUrl : option URL) (Authorities : list (option URL)) (Proof : option TokenIssuerProof)
  | CreateDataAccount (Url : option URL) (Authorities : list (option URL))
  | WriteData (Entry : option DataEntry) (Scratch WriteToState : bool)
  | WriteDataTo (Recipient : option URL) (Entry : option DataEntry)
  | AcmeFaucet (Url : option URL)
  | CreateToken (b : CreateTokenBody)
  | CreateLiteTokenAccount
  | CreateKeyPage (Keys : list KeySpecParams)
  | CreateKeyBook (Url : option URL) (PublicKeyHash : bytes) (Authorities : list (option URL))
  | UpdateKey (NewKeyHash : bytes)
  | SyntheticCreateIdentity (o : SyntheticOrigin) (Accounts : list Account)
  | SyntheticWriteData (o : SyntheticOrigin) (Entry : option DataEntry)
  | SystemWriteData (Entry : option DataEntry) (WriteToState : bool).

Definition TransactionType (b : TransactionBody) : Z :=
  match b with
  | SendTokens _ => 3
  | IssueTokens _ _ _ => 9
  | BurnTokens _ => 10
  | AddCredits _ _ _ => 14
  | UpdateKeyPage _ => 15
  | LockAccount _ => 16
  | UpdateAccountAuth _ => 21
  | SyntheticDepositTokens _ _ _ _ _ => 51
  | SyntheticDepositCredits _ _ _ _ => 52
  | SyntheticBurnTokens _ _ _ => 53
  | CreateIdentity _ _ _ _ => 1
  | CreateTokenAccount _ _ _ _ => 2
  | CreateDataAccount _ _ => 4
  | WriteData _ _ _ => 5
  | WriteDataTo _ _ => 6
  | AcmeFaucet _ => 7
  | CreateToken _ => 8
  | CreateLiteTokenAccount => 11
  | CreateKeyPage _ => 12
  | CreateKeyBook _ _ _ => 13
  | UpdateKey _ => 22
  | SyntheticCreateIdentity _ _ => 49
  | SyntheticWriteData _ _ => 50
  | SystemWriteData _ _ => 99
  end.

Definition IsUser (t : Z) : bool := (0 <? t) && (t <=? 48).
Definition IsSynthetic (t : Z) : bool := (48 <? t) && (t <=? 95).
Definition IsSystem (t : Z) : bool := (95 <? t) && (t <=? 255).

(** ** The state manager *)

(** [dataEntries] and [dataTxns] are the data index of an account: the hashes of its
    entries, and for each the transaction that wrote it.  [dirty] are the accounts whose
    main state was put since the batch began. *)
Record Batch := mkBatch {
  accounts : gmap bytes Account;
  mainChains : gmap bytes (list bytes);
  directories : gmap bytes (list URL);
  dataEntries : gmap bytes (list bytes);
  dataTxns : gmap (bytes * bytes) bytes;
  dirty : gset bytes
}.

Definition set_accounts (m : gmap bytes Account) (d : gset bytes) (b : Batch) : Batch :=
  mkBatch m (mainChains b) (directories b) (dataEntries b) (dataTxns b) d.
Definition set_mainChains (m : gmap bytes (list bytes)) (b : Batch) : Batch :=
  mkBatch (accounts b) m (directories b) (dataEntries b) (dataTxns b) (dirty b).
Definition set_directories (m : gmap bytes (list URL)) (b : Batch) : Batch :=
  mkBatch (accounts b) (mainChains b) m (dataEntries b) (dataTxns b) (dirty b).
Definition set_data (m : gmap bytes (list bytes)) (t : gmap (bytes * bytes) bytes) (b : Batch) : Batch :=
  mkBatch (accounts b) (mainChains b) (directories b) m t (dirty b).

(** [ProcessTransactionState]: the produced transactions with their principals, the
    chain entries added (account and index) and those added to a synthetic ledger. *)
Record ProcessTransactionState := mkPTS {
  ProducedTxns : list (option URL * TransactionBody);
  ChainUpdates : list (URL * Z);
  SynthEntries : list (URL * Z)
}.

(** A queued write of a data entry. *)
Record addDataEntry := mkAddData {
  ade_url : URL; liteStateRec : option Account; ade_hash : bytes; ade_entry : option DataEntry }.

(** [ledgerUrl] is [NodeUrl(Ledger)], [oracle] is [Globals.Oracle.Price], [majorBlock]
    what [LoadIndexEntryFromEnd] returns for the major block chain, and [dnAnchors] the
    entries of the root anchor chain of the directory in the anchor pool. *)
Record StateManager := mkSM {
  Origin : option Account;
  OriginUrl : URL;
  txType : Z;
  txHash : bytes;
  oracle : Z;
  ledgerUrl : URL;
  majorBlock : option Z;
  Pretend : bool;
  chains : gmap bytes Account;
  batch : Batch;
  State : ProcessTransactionState;
  PartitionId : bytes;
  dnAnchors : list bytes;
  operations : list addDataEntry
}.

Definition set_Origin (a : Account) (st : StateManager) : StateManager :=
  mkSM (Some a) (OriginUrl st) (txType st) (txHash st) (oracle st) (ledgerUrl st) (majorBlock st) (Pretend st) (chains st) (batch st) (State st) (PartitionId st) (dnAnchors st) (operations st).
Definition set_chains (c : gmap bytes Account) (st : StateManager) : StateManager :=
  mkSM (Origin st) (OriginUrl st) (txType st) (txHash st) (oracle st) (ledgerUrl st) (majorBlock st) (Pretend st) c (batch st) (State st) (PartitionId st) (dnAnchors st) (operations st).
Definition set_batch (b : Batch) (st : StateManager) : StateManager :=
  mkSM (Origin st) (OriginUrl st) (txType st) (txHash st) (oracle st) (ledgerUrl st) (majorBlock st) (Pretend st) (chains st) b (State st) (PartitionId st) (dnAnchors st) (operations st).
Definition set_State (s : ProcessTransactionState) (st : StateManager) : StateManager :=
  mkSM (Origin st) (OriginUrl st) (txType st) (txHash st) (oracle st) (ledgerUrl st) (majorBlock st) (Pretend st) (chains st) (batch st) s (PartitionId st) (dnAnchors st) (operations st).
Definition set_operations (l : list addDataEntry) (st : StateManager) : StateManager :=
  mkSM (Origin st) (OriginUrl st) (txType st) (txHash st) (oracle st) (ledgerUrl st) (majorBlock st) (Pretend st) (chains st) (batch st) (State st) (PartitionId st) (dnAnchors st) l.

Definition DidProduceTxn (url : option URL) (body : TransactionBody) (s : ProcessTransactionState)
    : ProcessTransactionState :=
  mkPTS (ProducedTxns s ++ [(url, body)]) (ChainUpdates s) (SynthEntries s).

(** [Submit] panics when called by a synthetic transaction or without a URL. *)
Definition Submit (url : option URL) (body : TransactionBody) (st : StateManager) : res StateManager :=
  if IsSynthetic (txType st) then Panic "Called stateCache.Submit from a synthetic transaction!"
  else match url with
       | None => Panic "No destination URL specified!"
       | Some url => Ok (set_State (DidProduceTxn (Some url) body (State st)) st)
       end.

(** *** Loading *)

Definition GetState (u : URL) (b : Batch) : res Account :=
  match accounts b !! AccountID32 u with
  | Some a => Ok a
  | None => errors_new StatusNotFound "account not found"
  end.

Definition LoadUrl (account : URL) (st : StateManager) : res (Account * StateManager) :=
  match chains st !! AccountID32 account with
  | Some a => Ok (a, st)
  | None =>
      let! a := wrapf (GetState account (batch st)) "load" in
      Ok (a, set_chains (<[AccountID32 account := a]> (chains st)) st)
  end.

(** [cast] is the type of the pointer the state is loaded into. *)
Definition LoadUrlAs {A} (cast : Account -> option A) (account : URL) (st : StateManager)
    : res (A * StateManager) :=
  let! (a, st) := LoadUrl account st in
  match cast a with
  | Some x => Ok (x, st)
  | None => errorf "cannot set target: wrong account type"
  end.

(** *** Storing *)

(** [Account.PutState] of the database. *)
Definition PutState (key : URL) (a : Account) (b : Batch) : res Batch :=
  if negb (Equal (Some key) (Some (GetUrl a))) then errorf "mismatched url"
  else
    match GetAuth a with
    | Some (mkAuth []) => errorf "missing key book"
    | _ => Ok (set_accounts (<[AccountID32 key := a]> (accounts b)) ({[AccountID32 key]} ∪ dirty b) b)
    end.

(** [DidAddChainEntry] for a main chain. *)
Definition DidAddChainEntry (u : URL) (index : Z) (s : ProcessTransactionState) : ProcessTransactionState :=
  let synth :=
    match ParsePartitionUrl u with
    | Some partition => Equal (Some (WithPath (str "/synthetic") (PartitionUrl partition))) (Some u)
    | None => false
    end in
  mkPTS (ProducedTxns s) (ChainUpdates s ++ [(u, index)])
    (if synth then SynthEntries s ++ [(u, index)] else SynthEntries s).

(** [AddChainEntry] on the main chain of an account: a repeated entry changes
    nothing. *)
Definition AddChainEntry (u : URL) (entry : bytes) (st : StateManager) : StateManager :=
  let b := batch st in
  let id := AccountID32 u in
  let chain := default [] (mainChains b !! id) in
  if bool_decide (entry ∈ chain) then st
  else
    let b := set_mainChains (<[id := chain ++ [entry]]> (mainChains b)) b in
    set_State (DidAddChainEntry u (zlen chain) (State st)) (set_batch b st).

Definition AddDirectoryEntry (directory : URL) (u : list URL) (st : StateManager) : res StateManager :=
  let b := batch st in
  let id := AccountID32 directory in
  let! l := Set_Add nil_URL Compare u (default [] (directories b !! id)) in
  Ok (set_batch (set_directories (<[id := l]> (directories b)) b) st).

Definition AccountUrlMaxLength : Z := 500.

Definition createOrUpdate1 (isUpdate : bool) (account : Account) (st : StateManager) : res StateManager :=
  let isCreate := negb isUpdate in
  let u := GetUrl account in
  if AccountUrlMaxLength <? zlen (URL_String u) then
    errors_new StatusBadUrlLength "url specified exceeds maximum character length"
  else
    let exists_ := bool_decide (is_Some (accounts (batch st) !! AccountID32 u)) in
    if exists_ && isCreate then errors_new StatusConflict "account already exists"
    else if negb (IsSynthetic (txType st) || IsSystem (txType st)) && negb exists_ && isUpdate then
      errors_new StatusConflict "account does not exist"
    else if Pretend st then Ok st
    else
      let! b := wrapf (PutState u account (batch st)) "failed to update state" in
      let st := AddChainEntry u (txHash st) (set_batch b st) in
      if isCreate then wrapf (AddDirectoryEntry (Identity u) [u] st) "failed to add a directory entry"
      else Ok st.

Fixpoint createOrUpdate (isUpdate : bool) (l : list Account) (st : StateManager) : res StateManager :=
  match l with
  | [] => Ok st
  | a :: l => let! st := createOrUpdate1 isUpdate a st in createOrUpdate isUpdate l st
  end.

Definition Create : list Account -> StateManager -> res StateManager := createOrUpdate false.
Definition Update : list Account -> StateManager -> res StateManager := createOrUpdate true.

(** *** Authorities *)

Definition as_KeyBook (a : Account) : option KeyBook :=
  match a with AKeyBook b => Some b | _ => None end.

(** The account is a full account; its authorities are those of [GetAuth]. *)
Definition account_auth (a : Account) : AccountAuth := default (mkAuth []) (GetAuth a).

Definition SM_AddAuthority (account : Account) (authority : URL) (st : StateManager)
    : res (Account * StateManager) :=
  let! st :=
    if LocalTo (GetUrl account) authority then
      let! (_, st) := wrapf (LoadUrlAs as_KeyBook authority st) "load" in Ok st
    else Ok st in
  let! (auth, _) := AddAuthority authority (account_auth account) in
  Ok (set_Auth auth account, st).

Definition InheritAuth (account : Account) (st : StateManager) : res Account :=
  if negb (Equal (Some (RootIdentity (GetUrl account))) (Some (RootIdentity (OriginUrl st)))) then
    errors_new StatusBadRequest "cannot inherit from principal: belongs to a different root identity"
  else
    match mbind GetAuth (Origin st) with
    | None => errors_new StatusBadRequest "cannot inherit from principal: not a full account"
    | Some auth => Ok (set_Auth auth account)
    end.

Fixpoint add_authorities (account : Account) (authorities : list (option URL)) (st : StateManager)
    : res (Account * StateManager) :=
  match authorities with
  | [] => Ok (account, st)
  | None :: _ => errors_new StatusBadRequest "authority URL is nil"
  | Some u :: l =>
      let! (account, st) := SM_AddAuthority account u st in add_authorities account l st
  end.

Definition SetAuth (account : Account) (authorities : list (option URL)) (st : StateManager)
    : res (Account * StateManager) :=
  match authorities, Authorities (account_auth account) with
  | [], _ :: _ => Ok (account, st)
  | [], [] => let! account := InheritAuth account st in Ok (account, st)
  | _, _ => add_authorities account authorities st
  end.

(** *** Data entries and the commit *)

(** [UpdateData] queues the write. *)
Definition UpdateData (record : Account) (entryHash : bytes) (dataEntry : option DataEntry) (st : StateManager)
    : StateManager :=
  let rec := match record with ALiteDataAccount _ => Some record | _ => None end in
  set_operations (operations st ++ [mkAddData (GetUrl record) rec entryHash dataEntry]) st.

(** [DataIndexer.Put]: the entry is counted again when it was written before. *)
Definition Data_Put (u : URL) (entryHash txnHash : bytes) (b : Batch) : Batch :=
  let id := AccountID32 u in
  set_data (<[id := default [] (dataEntries b !! id) ++ [entryHash]]> (dataEntries b))
    (<[(id, entryHash) := txnHash]> (dataTxns b)) b.

Definition addDataEntry_Execute (op : addDataEntry) (st : StateManager) : res StateManager :=
  let! b :=
    match liteStateRec op, GetState (ade_url op) (batch st) with
    | Some a, Err _ => PutState (ade_url op) a (batch st)
    | _, _ => Ok (batch st)
    end in
  Ok (AddChainEntry (ade_url op) (txHash st) (set_batch (Data_Put (ade_url op) (ade_hash op) (txHash st) b) st)).

Fixpoint run_operations (ops : list addDataEntry) (st : StateManager) : res StateManager :=
  match ops with
  | [] => Ok st
  | op :: ops => let! st := addDataEntry_Execute op st in run_operations ops st
  end.

Section Commit.
Context `{UnicodeTables}.

(** [Account.Commit] for an account whose main state is dirty. *)
Definition Account_Commit (a : Account) : res unit :=
  if AccountUrlMaxLength <? zlen (URL_String (GetUrl a)) then
    errors_new StatusBadUrlLength "url specified exceeds maximum character length"
  else match IsValidAccountPath (Path (GetUrl a)) with
       | Err _ => errors_new StatusBadRequest "invalid path"
       | r => r
       end.

Fixpoint commit_accounts (l : list bytes) (b : Batch) : res unit :=
  match l with
  | [] => Ok tt
  | id :: l =>
      let! _ := match accounts b !! id with Some a => Account_Commit a | None => Ok tt end in
      commit_accounts l b
  end.

(** [Batch.Commit]: the parent takes the state over, nothing is dirty afterwards.  Go
    visits the dirty accounts in no particular order; any error aborts. *)
Definition Batch_Commit (b : Batch) : res Batch :=
  let! _ := commit_accounts (elements (dirty b)) b in
  Ok (set_accounts (accounts b) ∅ b).

Definition Commit (st : StateManager) : res (Batch * ProcessTransactionState) :=
  let! st := run_operations (operations st) st in
  let! b := Batch_Commit (batch st) in
  Ok (b, State st).

End Commit.
