(* ===== verification/Executors.v ===== *)
(** * Transaction executors: [internal/chain/send_tokens.go], [issue_tokens.go],
      [burn_tokens.go], [add_credits.go], [lock_account.go], [update_key_page.go],
      [update_account_auth.go], [synthetic_deposit_tokens.go],
      [synthetic_deposit_credits.go], [synthetic_burn_tokens.go]

    Each [Validate] takes the body and the state manager and returns the new state
    manager; [Execute] is [Validate] for these types.  The caller discards the state
    on an error. *)

From S2P Require Import Prelude Encoding Url Accounts AdiUrl KeyPages StateManager.
Local Open Scope Z_scope.
Import Url TxID.

(** The accounts that hold tokens. *)
Definition AccountWithTokens (a : Account) : option (URL * Z) :=
  match a with
  | ATokenAccount a => Some (ta_TokenUrl a, ta_Balance a)
  | ALiteTokenAccount a => Some (lta_TokenUrl a, lta_Balance a)
  | _ => None
  end.

Definition set_Balance (balance : Z) (a : Account) : Account :=
  match a with
  | ATokenAccount a => ATokenAccount (mkTokenAccount (ta_Url a) (ta_AccountAuth a) (ta_TokenUrl a) balance)
  | ALiteTokenAccount a => ALiteTokenAccount (mkLiteTokenAccount (lta_Url a) (lta_TokenUrl a) balance (LockHeight a))
  | _ => a
  end.

(** The token account the switch on the origin selects. *)
Definition token_origin (st : StateManager) : option (Account * URL * Z) :=
  match Origin st with
  | Some a => (fun p => (a, fst p, snd p)) <$> AccountWithTokens a
  | None => None
  end.

Definition GetLockHeight (a : Account) : Z := match a with ALiteTokenAccount a => LockHeight a | _ => 0 end.

(** The error of an origin of the wrong type; its message asks the origin for its
    type, which panics when there is none. *)
Definition invalid_principal {A} (st : StateManager) : res A :=
  match Origin st with
  | None => Panic "invalid memory address or nil pointer dereference"
  | Some _ => errorf "invalid principal"
  end.

(** [fmt.Errorf("...: %v", err)]: the status of the cause is lost. *)
Definition failed {A} (r : res A) (msg : string) : res A :=
  match r with Err _ => errorf msg | _ => r end.

(** ** Sending, issuing and burning *)

Fixpoint total_amount (to : list TokenRecipient) (total : Z) : res Z :=
  match to with
  | [] => Ok total
  | r :: to => if rcp_Amount r <? 0 then errorf "amount can't be a negative value"
               else total_amount to (total + rcp_Amount r)
  end.

(** The loop that produces the deposits; [m] is the set of recipients seen. *)
Fixpoint submit_deposits (deposit : Z -> TransactionBody) (to : list TokenRecipient) (m : gset bytes)
    (st : StateManager) : res StateManager :=
  match to with
  | [] => Ok st
  | r :: to =>
      match rcp_Url r with
      | None => errors_new StatusBadRequest "recipient URL is missing"
      | Some u =>
          let id := AccountID32 u in
          if bool_decide (id ∈ m) then errorf "duplicate recipient passed in request"
          else
            let! st := Submit (Some u) (deposit (rcp_Amount r)) st in
            submit_deposits deposit to ({[id]} ∪ m) st
      end
  end.

Definition check_lock (a : Account) (st : StateManager) : res unit :=
  if GetLockHeight a =? 0 then Ok tt
  else match majorBlock st with
       | None => errors_new StatusNotAllowed "account is locked"
       | Some i => if i <? GetLockHeight a then errors_new StatusNotAllowed "account is locked" else Ok tt
       end.

Definition SendTokens_Validate (body : TransactionBody) (st : StateManager) : res StateManager :=
  match body with
  | SendTokens to =>
      match token_origin st with
      | None => invalid_principal st
      | Some (account, token, balance) =>
          let! total := total_amount to 0 in
          let '(balance, ok) := DebitTokens (Some total) balance in
          if negb ok then errorf "insufficient balance"
          else
            let account := set_Balance balance account in
            let st := set_Origin account st in
            let! st := failed (Update [account] st) "failed to update account" in
            let! st := submit_deposits (fun a => SyntheticDepositTokens no_origin token a false false) to ∅ st in
            let! _ := check_lock account st in
            Ok st
      end
  | _ => errorf "invalid payload"
  end.

Definition BurnTokens_Validate (body : TransactionBody) (st : StateManager) : res StateManager :=
  match body with
  | BurnTokens amount =>
      match token_origin st with
      | None => invalid_principal st
      | Some (account, token, balance) =>
          if amount <? 0 then errorf "amount can't be a negative value"
          else if negb (CanDebitTokens (Some amount) balance) then
            errorf "cannot burn more tokens than is available in account"
          else
            let '(balance, ok) := DebitTokens (Some amount) balance in
            if negb ok then errorf "unable to debit balance from account"
            else
              let account := set_Balance balance account in
              let! st := Submit (Some token) (SyntheticBurnTokens no_origin amount false) (set_Origin account st) in
              failed (Update [account] st) "failed to update"
      end
  | _ => errorf "invalid payload"
  end.

Definition IssueTokens_Validate (body : TransactionBody) (st : StateManager) : res StateManager :=
  match body with
  | IssueTokens recipient amount to =>
      match Origin st with
      | Some (ATokenIssuer issuer) =>
          let recipients := match recipient with
                            | Some _ => mkRecipient recipient amount :: to
                            | None => to
                            end in
          if existsb (fun r => bool_decide (rcp_Url r = None)) recipients then
            errors_new StatusBadRequest "recipient URL is missing"
          else
            let! total := total_amount recipients 0 in
            let '(issuer, ok) := Issue total issuer in
            if negb ok then errorf "cannot exceed supply limit"
            else
              let st := set_Origin (ATokenIssuer issuer) st in
              let! st := failed (Update [ATokenIssuer issuer] st) "failed to update" in
              submit_deposits (fun a => SyntheticDepositTokens no_origin (ti_Url issuer) a true false) recipients ∅ st
      | _ => invalid_principal st
      end
  | _ => errorf "invalid payload"
  end.

Definition SyntheticBurnTokens_Validate (body : TransactionBody) (st : StateManager) : res StateManager :=
  match body with
  | SyntheticBurnTokens _ amount _ =>
      match Origin st with
      | Some (ATokenIssuer i) =>
          if amount <? 0 then errorf "amount can't be a negative value"
          else
            let issuer := ATokenIssuer (mkTokenIssuer (ti_Url i) (ti_AccountAuth i) (Symbol i) (Precision i)
                            (Properties i) (Issued i - amount) (SupplyLimit i)) in
            failed (Update [issuer] (set_Origin issuer st)) "failed to update"
      | _ => invalid_principal st
      end
  | _ => errorf "invalid payload"
  end.

(** ** Deposits *)

Definition as_LiteIdentity (a : Account) : option LiteIdentity :=
  match a with ALiteIdentity l => Some l | _ => None end.
Definition as_SystemLedger (a : Account) : option SystemLedger :=
  match a with ASystemLedger l => Some l | _ => None end.

(** The account of a deposit whose principal does not exist: a lite token account,
    whose lite identity is created with it. *)
Definition create_lite (token principal : URL) (st : StateManager) : res (Account * StateManager) :=
  match Lite.ParseLiteTokenAddress principal with
  | Err _ => errorf "invalid lite token account URL"
  | Panic s => Panic s
  | Ok None => errors_new StatusNotFound "could not find token account"
  | Ok (Some (_, tok)) =>
      if negb (Equal (Some token) (Some tok)) then errorf "token URL does not match lite token account URL"
      else
        let account := ALiteTokenAccount (mkLiteTokenAccount principal token 0 0) in
        let liteIdUrl := RootIdentity principal in
        let! st :=
          match LoadUrlAs as_LiteIdentity liteIdUrl st with
          | Ok (_, st) => Ok st
          | Err e =>
              if is_not_found e then
                failed (Update [ALiteIdentity (mkLiteIdentity liteIdUrl 0 0)] st) "failed to update"
              else Err e
          | Panic s => Panic s
          end in
        let! st := failed (AddDirectoryEntry liteIdUrl [principal] st)
                     "failed to add directory entries in lite token account" in
        Ok (account, st)
  end.

Definition SyntheticDepositTokens_Validate (body : TransactionBody) (st : StateManager) : res StateManager :=
  match body with
  | SyntheticDepositTokens _ token amount _ _ =>
      let! (account, st) :=
        match Origin st with
        | Some a =>
            match AccountWithTokens a with
            | None => errorf "invalid principal"
            | Some (t, _) =>
                if negb (Equal (Some t) (Some token)) then errorf "token type mismatch" else Ok (a, st)
            end
        | None => create_lite token (OriginUrl st) st
        end in
      if amount <? 0 then errorf "amount can't be a negative value"
      else
        let '(balance, ok) := CreditTokens (Some amount) (default 0 (snd <$> AccountWithTokens account)) in
        if negb ok then errorf "unable to add deposit balance to account"
        else
          let account := set_Balance balance account in
          failed (Update [account] (match Origin st with Some _ => set_Origin account st | None => st end))
            "failed to update"
  | _ => errorf "invalid payload"
  end.

(** [body.Cause.Account()] panics on a nil cause; [body.Source()] is nil then. *)
Definition cause_account (o : SyntheticOrigin) : res (option URL) :=
  match so_Cause o with
  | Some x => Ok (Some (url x))
  | None => Panic "invalid memory address or nil pointer dereference"
  end.

Definition SyntheticDepositTokens_DidFail (body : TransactionBody) (s : ProcessTransactionState)
    : res ProcessTransactionState :=
  match body with
  | SyntheticDepositTokens cause token amount isIssuer isRefund =>
      if isRefund then Ok s
      else
        let! u := cause_account cause in
        if isIssuer then Ok (DidProduceTxn u (SyntheticBurnTokens no_origin amount true) s)
        else Ok (DidProduceTxn u (SyntheticDepositTokens no_origin token amount false true) s)
  | _ => errorf "invalid payload"
  end.

Definition set_AcmeBurnt (v : Z) (l : SystemLedger) : SystemLedger := mkSystemLedger (sl_Url l) v.

Definition credit_page (amount : Z) (p : KeyPage) : KeyPage :=
  mkKeyPage (kpg_Url p) (CreditCredits amount (kpg_CreditBalance p)) (AcceptThreshold p) (Version p) (Keys p)
    (TransactionBlacklist p).

Definition SyntheticDepositCredits_Validate (body : TransactionBody) (st : StateManager) : res StateManager :=
  match body with
  | SyntheticDepositCredits _ amount refund _ =>
      let! (account, create) :=
        match Origin st with
        | None =>
            match Lite.ParseLiteIdentity (OriginUrl st) with
            | Ok (Some _) => Ok (ALiteIdentity (mkLiteIdentity (OriginUrl st) (CreditCredits amount 0) 0), true)
            | Panic s => Panic s
            | _ => errors_new StatusNotFound "not found"
            end
        | Some (ALiteIdentity l) =>
            Ok (ALiteIdentity (mkLiteIdentity (li_Url l) (CreditCredits amount (li_CreditBalance l)) (li_LastUsedOn l)), false)
        | Some (AKeyPage p) => Ok (AKeyPage (credit_page amount p), false)
        | Some _ => errorf "invalid principal"
        end in
      let st := if (create : bool) then st else set_Origin account st in
      let! (ledger, st) := LoadUrlAs as_SystemLedger (ledgerUrl st) st in
      let! st := match refund with
                 | None => Ok st
                 | Some r => Update [ASystemLedger (set_AcmeBurnt (AcmeBurnt ledger + r) ledger)] st
                 end in
      failed (if create then Create [account] st else Update [account] st) "failed to update"
  | _ => errorf "invalid payload"
  end.

Definition Source (o : SyntheticOrigin) : option URL := url <$> so_Cause o.

Definition SyntheticDepositCredits_DidFail (body : TransactionBody) (s : ProcessTransactionState)
    : res ProcessTransactionState :=
  match body with
  | SyntheticDepositCredits cause _ (Some refund) false =>
      Ok (DidProduceTxn (Source cause) (SyntheticDepositTokens no_origin AcmeUrl refund false true) s)
  | SyntheticDepositCredits _ _ _ _ => Ok s
  | _ => errorf "invalid payload"
  end.

(** ** Credits *)

Definition AcmePrecision : Z := 10 ^ 8.
Definition AcmeOraclePrecision : Z := 10000.
Definition CreditUnitsPerFiatUnit : Z := 100 * 100.
Definition MinimumCreditPurchase : Z := 100.

Record AddCreditsResult := mkAddCreditsResult { acr_Amount : Z; acr_Credits : Z; acr_Oracle : Z }.

(** [big.Int.Div]: Euclidean division, which panics on a zero divisor. *)
Definition big_Div (x y : Z) : res Z :=
  if y =? 0 then Panic "division by zero"
  else Ok (if 0 <? y then x / y else - (x / - y)).

(** [big.Int.Uint64]: the low 64 bits of the absolute value. *)
Definition big_Uint64 (x : Z) : Z := u64 (Z.abs x).

Definition AddCredits_Validate (body : TransactionBody) (st : StateManager)
    : res (AddCreditsResult * StateManager) :=
  match body with
  | AddCredits None _ _ => errorf "invalid payload: missing recipient"
  | AddCredits (Some recipient) amount oracle_ =>
      if amount <=? 0 then errorf "invalid ACME amount specified for credit purchase, must be greater than zero"
      else if oracle_ =? 0 then errorf "cannot purchase credits, transaction oracle must be greater than zero"
      else if oracle st =? 0 then errorf "cannot purchase credits: acme oracle price has not been set"
      else if negb (oracle_ =? oracle st) then errorf "oracle doesn't match"
      else
        let rate := i64 (u64 (CreditUnitsPerFiatUnit * oracle st)) in
        let! minSpend := big_Div (u64 (MinimumCreditPurchase * AcmeOraclePrecision * AcmePrecision)) rate in
        if amount <? minSpend then errorf "amount is less than minimum"
        else
          let! credits := big_Div (rate * amount) (AcmeOraclePrecision * AcmePrecision) in
          if i64 credits =? 0 then errorf "no credits can be purchased with specified ACME amount"
          else
            match token_origin st with
            | None => errorf "not a token account"
            | Some (account, token, balance) =>
                if negb (Equal (Some AcmeUrl) (Some token)) then
                  errorf "tokens cannot be converted into credits"
                else
                  let '(balance, ok) := DebitTokens (Some amount) balance in
                  if negb ok then errorf "insufficient balance"
                  else
                    let account := set_Balance balance account in
                    let! recipient := match Lite.ParseLiteTokenAddress recipient with
                                      | Ok (Some _) => Ok (RootIdentity recipient)
                                      | Ok None | Err _ => Ok recipient
                                      | Panic s => Panic s
                                      end in
                    let refund := if minSpend <? amount then Some (amount - minSpend) else None in
                    let! st := Submit (Some recipient) (SyntheticDepositCredits no_origin (big_Uint64 credits) refund false)
                                 (set_Origin account st) in
                    let! (ledger, st) := LoadUrlAs as_SystemLedger (ledgerUrl st) st in
                    let ledger := set_AcmeBurnt (AcmeBurnt ledger + minSpend) ledger in
                    let! st := failed (Update [account; ASystemLedger ledger] st) "failed to update accounts" in
                    Ok (mkAddCreditsResult amount (big_Uint64 credits) (oracle st), st)
            end
  | _ => errorf "invalid payload"
  end.

(** ** Locks, key pages and authorities *)

Definition LockAccount_Validate (body : TransactionBody) (st : StateManager) : res StateManager :=
  match body with
  | LockAccount height =>
      match Origin st with
      | Some (ALiteTokenAccount a) =>
          let! a := wrapf (SetLockHeight height a) "set lock height" in
          wrapf (Update [ALiteTokenAccount a] (set_Origin (ALiteTokenAccount a) st)) "store account state"
      | Some _ => errors_new StatusBadRequest "locking is not supported"
      | None => invalid_principal st
      end
  | _ => errorf "invalid payload"
  end.

Definition BookTypeValidator : Z := 1.

Definition UpdateKeyPage_Validate (body : TransactionBody) (st : StateManager) : res StateManager :=
  match body with
  | UpdateKeyPage operation =>
      match Origin st with
      | Some (AKeyPage page) =>
          match ParseKeyPageUrl (OriginUrl st) with
          | None => errorf "invalid principal: page url is invalid"
          | Some (bookUrl, _) =>
              match LoadUrlAs as_KeyBook bookUrl st with
              | Err _ => errorf "invalid key book"
              | Panic s => Panic s
              | Ok (book, st) =>
                  if BookType book =? BookTypeValidator then
                    errorf "UpdateKeyPage cannot be used to modify the validator key book"
                  else
                    let! page := executeOperations page (kb_AccountAuth book) operation in
                    let page := didUpdateKeyPage page in
                    failed (Update [AKeyPage page] (set_Origin (AKeyPage page) st)) "failed to update"
              end
          end
      | _ => invalid_principal st
      end
  | _ => errorf "invalid payload"
  end.

Definition UpdateAccountAuth_Validate (body : TransactionBody) (st : StateManager) : res StateManager :=
  match body with
  | UpdateAccountAuth operations =>
      match Origin st with
      | Some account =>
          match GetAuth account with
          | None => errorf "account type does not support advanced auth"
          | Some auth =>
              let exists_ u := bool_decide (is_Some (accounts (batch st) !! AccountID32 u)) in
              let! auth := authOperations exists_ (GetUrl account) operations auth in
              let account := set_Auth auth account in
              wrapf (Update [account] (set_Origin account st)) "failed to update"
          end
      | None => Panic "invalid memory address or nil pointer dereference"
      end
  | _ => errorf "invalid payload"
  end.
