(* ===== verification/ExecutorProofs.v ===== *)
(** * Token accounting of the executors

    Sending, issuing, burning and depositing tokens and buying credits neither create
    nor lose tokens: what leaves a balance is what the produced transactions carry,
    and what a failed deposit carried is sent back. *)

From S2P Require Import Prelude Sha256 Encoding SortUtil Url UrlProofs Accounts AdiUrl KeyPages StateManager Executors.
Local Open Scope Z_scope.
Import Url TxID.

(** ** What storing an account changes *)

(** The fields [Update] leaves alone. *)
Record same_context (st st' : StateManager) : Prop := {
  sc_origin : Origin st' = Origin st;
  sc_url : OriginUrl st' = OriginUrl st;
  sc_type : txType st' = txType st;
  sc_oracle : oracle st' = oracle st;
  sc_ledger : ledgerUrl st' = ledgerUrl st;
  sc_block : majorBlock st' = majorBlock st;
  sc_pretend : Pretend st' = Pretend st;
  sc_chains : chains st' = chains st;
  sc_dirs : directories (batch st') = directories (batch st);
  sc_produced : ProducedTxns (State st') = ProducedTxns (State st);
  sc_operations : operations st' = operations st
}.

Lemma same_context_refl st : same_context st st.
Proof. by split. Qed.

Lemma same_context_trans st1 st2 st3 : same_context st1 st2 -> same_context st2 st3 -> same_context st1 st3.
Proof. intros [] []. split; congruence. Qed.
#[global] Hint Resolve same_context_refl : core.

(** The accounts after storing [a]. *)
Definition stored (a : Account) (st : StateManager) : gmap bytes Account :=
  if Pretend st then accounts (batch st)
  else <[AccountID32 (GetUrl a) := a]> (accounts (batch st)).

Lemma failed_Ok {A} (m : res A) msg x : failed m msg = Ok x <-> m = Ok x.
Proof. by destruct m. Qed.

Lemma AddChainEntry_context u h st :
  same_context st (AddChainEntry u h st) /\ accounts (batch (AddChainEntry u h st)) = accounts (batch st).
Proof. unfold AddChainEntry. case_bool_decide; [done|]. by repeat split. Qed.

Lemma createOrUpdate1_update a st st' :
  createOrUpdate1 true a st = Ok st' -> same_context st st' /\ accounts (batch st') = stored a st.
Proof.
  unfold createOrUpdate1, stored. cbn [negb]. rewrite andb_false_r.
  destruct (AccountUrlMaxLength <? _); [by intros H|].
  destruct (negb (_ || _) && _ && true); [by intros H|]. destruct (Pretend st) eqn:Ep; [by intros [= <-]|].
  intros H1. inv_res. apply wrapf_Ok in Hv. unfold PutState in Hv.
  destruct (negb _); [done|].
  assert (v = set_accounts (<[AccountID32 (GetUrl a) := a]> (accounts (batch st)))
                ({[AccountID32 (GetUrl a)]} ∪ dirty (batch st)) (batch st)) as ->.
  { destruct (GetAuth a) as [[[|]]|]; by simplify_eq. }
  subst st'. destruct (AddChainEntry_context (GetUrl a) (txHash st)
    (set_batch (set_accounts (<[AccountID32 (GetUrl a) := a]> (accounts (batch st)))
       ({[AccountID32 (GetUrl a)]} ∪ dirty (batch st)) (batch st)) st)) as [Hc Ha].
  split; [|by rewrite Ha]. eapply same_context_trans; [|exact Hc]. by split.
Qed.

Lemma Update_one a st st' :
  Update [a] st = Ok st' -> same_context st st' /\ accounts (batch st') = stored a st.
Proof. unfold Update. cbn [createOrUpdate]. intros H. inv_res. subst. by apply createOrUpdate1_update. Qed.

Lemma Update_two a b st st' :
  Update [a; b] st = Ok st' ->
  same_context st st' /\
  accounts (batch st') = if Pretend st then accounts (batch st)
    else <[AccountID32 (GetUrl b) := b]> (<[AccountID32 (GetUrl a) := a]> (accounts (batch st))).
Proof.
  unfold Update. cbn [createOrUpdate]. intros H. inv_res. subst.
  apply createOrUpdate1_update in Hv as [H1 E1], Hv0 as [H2 E2].
  split; [by eapply same_context_trans|]. rewrite E2. unfold stored in *. rewrite (sc_pretend _ _ H1), E1.
  by destruct (Pretend st).
Qed.

(** ** Producing deposits *)

Definition amounts (to : list TokenRecipient) : Z := foldr Z.add 0 (rcp_Amount <$> to).

Lemma total_amount_ok to acc total :
  total_amount to acc = Ok total -> total = acc + amounts to /\ Forall (fun r => 0 <= rcp_Amount r) to.
Proof.
  revert acc. induction to as [|r to IH]; intros acc H; cbn [total_amount] in H.
  - inv_res. unfold amounts. simpl. split; [lia|constructor].
  - destruct (Z.ltb_spec (rcp_Amount r) 0); [done|]. apply IH in H as [-> HF].
    unfold amounts. rewrite fmap_cons. simpl. split; [lia|by constructor].
Qed.

Lemma amounts_nonneg to : Forall (fun r => 0 <= rcp_Amount r) to -> 0 <= amounts to.
Proof. induction 1; unfold amounts in *; [simpl; lia|]. rewrite fmap_cons. simpl. lia. Qed.

(** The recipients are distinct accounts, outside of [m]. *)
Definition distinct_recipients (to : list TokenRecipient) (m : gset bytes) : Prop :=
  exists us, rcp_Url <$> to = Some <$> us /\ NoDup (AccountID32 <$> us) /\
    forall u, u ∈ us -> AccountID32 u ∉ m.

Lemma submit_deposits_ok deposit to m st st' :
  submit_deposits deposit to m st = Ok st' ->
  distinct_recipients to m /\ Origin st' = Origin st /\ batch st' = batch st /\
  majorBlock st' = majorBlock st /\ operations st' = operations st /\
  ProducedTxns (State st') =
    ProducedTxns (State st) ++ ((fun r => (rcp_Url r, deposit (rcp_Amount r))) <$> to).
Proof.
  revert m st. induction to as [|r to IH]; intros m st H; cbn [submit_deposits] in H.
  { inv_res. subst. split; [exists []; split; [done|split; [constructor|]]|].
    - intros u Hu. by apply not_elem_of_nil in Hu.
    - by rewrite app_nil_r. }
  destruct (rcp_Url r) as [u|] eqn:Eu; [|done]. case_bool_decide as Hm; [done|]. inv_res.
  unfold Submit in Hv. destruct (IsSynthetic (txType st)); [done|]. inv_res. subst v.
  destruct (IH _ _ Hk) as ((us & E & Hnd & Hout) & HO & HB & HM & HS & HP).
  split; [|split; [done|split; [done|split; [done|split; [done|]]]]].
  - exists (u :: us). rewrite !fmap_cons, Eu, E. split; [done|]. split.
    + constructor; [|done]. intros (v & Hv & Hin)%list_elem_of_fmap. apply (Hout v Hin). rewrite <- Hv. set_solver.
    + intros v [->|Hv]%elem_of_cons; [done|]. specialize (Hout v Hv). set_solver.
  - rewrite HP. cbn [State set_State ProducedTxns DidProduceTxn]. rewrite fmap_cons, <- app_assoc, Eu. done.
Qed.

Lemma set_Balance_url b a : GetUrl (set_Balance b a) = GetUrl a.
Proof. by destruct a. Qed.

(** C32. [SendTokens] moves tokens and nothing else: when it succeeds, no amount is
    negative, the account keeps its balance less the total, one deposit of the
    account's token per recipient is produced with that recipient's amount, so that
    the deposits carry exactly what the balance lost; the recipients are different
    accounts, no other account changes, and a locked account has reached the major
    block that releases it. *)
Theorem SendTokens_conserves to st st' :
  SendTokens_Validate (SendTokens to) st = Ok st' ->
  exists a token balance,
    Origin st = Some a /\ AccountWithTokens a = Some (token, balance) /\
    Forall (fun r => 0 <= rcp_Amount r) to /\ 0 <= amounts to <= balance /\
    accounts (batch st') = stored (set_Balance (balance - amounts to) a) st /\
    ProducedTxns (State st') = ProducedTxns (State st) ++
      ((fun r => (rcp_Url r, SyntheticDepositTokens no_origin token (rcp_Amount r) false false)) <$> to) /\
    distinct_recipients to ∅ /\
    (GetLockHeight a = 0 \/ exists i, majorBlock st = Some i /\ GetLockHeight a <= i).
Proof.
  unfold SendTokens_Validate, token_origin. intros H.
  destruct (Origin st) as [a|] eqn:Eo; [|unfold invalid_principal in H; by rewrite Eo in H].
  destruct (AccountWithTokens a) as [[token balance]|] eqn:Ea; cbn in H;
    [|unfold invalid_principal in H; by rewrite Eo in H].
  inv_res. apply total_amount_ok in Hv as [-> HF]. pose proof (amounts_nonneg to HF).
  unfold DebitTokens, CanDebitTokens in Hk. destruct (Z.leb_spec (0 + amounts to) balance); [|done].
  cbn [negb] in Hk. change (default 0 (Some (0 + amounts to))) with (0 + amounts to) in Hk. inv_res. subst st'. apply failed_Ok, Update_one in Hv as [Hc Hacc].
  apply submit_deposits_ok in Hv0 as (Hd & HO & HB & HM & _ & HP).
  rewrite Z.add_0_l in *. exists a, token, balance. split; [done|]. split; [done|]. split; [done|].
  split; [lia|]. split; [rewrite HB, Hacc; done|].
  split; [rewrite HP; by rewrite (sc_produced _ _ Hc)|]. split; [done|].
  unfold check_lock in Hv1. replace (GetLockHeight (set_Balance (balance - amounts to) a)) with (GetLockHeight a) in Hv1
    by (by destruct a). destruct (Z.eqb_spec (GetLockHeight a) 0); [by left|right].
  rewrite HM, (sc_block _ _ Hc) in Hv1. cbn in Hv1. destruct (majorBlock st) as [i|]; [|done].
  exists i. split; [done|]. destruct (Z.ltb_spec i (GetLockHeight a)); [done|lia].
Qed.

(** A state to run the executors on: one account and a system ledger. *)
Definition demo_book : URL := mkURL [] (str "alice.acme") (str "/book") [] [].
Definition demo_account : Account :=
  ATokenAccount (mkTokenAccount (mkURL [] (str "alice.acme") (str "/tokens") [] [])
    (mkAuth [mkAuthority demo_book false]) AcmeUrl (10 ^ 12)).
Definition demo_ledger : Account := ASystemLedger (mkSystemLedger (mkURL [] (str "dn.acme") (str "/ledger") [] []) 0).
Definition demo_issuer : Account :=
  ATokenIssuer (mkTokenIssuer (mkURL [] (str "alice.acme") (str "/coin") [] [])
    (mkAuth [mkAuthority demo_book false]) (str "COIN") 8 None 0 (Some 1000)).
Definition demo_state (typ : Z) (a : Account) : StateManager :=
  mkSM (Some a) (GetUrl a) typ (key_hash Byte.x01) 500 (GetUrl demo_ledger) None false ∅
    (mkBatch {[AccountID32 (GetUrl a) := a; AccountID32 (GetUrl demo_ledger) := demo_ledger]} ∅ ∅ ∅ ∅ ∅)
    (mkPTS [] [] []) (str "BVN0") [] [].
Definition demo_to : list TokenRecipient :=
  [mkRecipient (Some (mkURL [] (str "bob.acme") (str "/tokens") [] [])) 100;
   mkRecipient (Some (mkURL [] (str "carol.acme") (str "/tokens") [] [])) 23].

Lemma demo_send_ok : is_Ok (SendTokens_Validate (SendTokens demo_to) (demo_state 3 demo_account)) = true.
Proof. vm_compute. reflexivity. Qed.

Lemma SendTokens_conserves_witness :
  exists st', SendTokens_Validate (SendTokens demo_to) (demo_state 3 demo_account) = Ok st' /\
    length (ProducedTxns (State st')) = 2%nat.
Proof.
  pose proof demo_send_ok as Hok.
  destruct (SendTokens_Validate (SendTokens demo_to) (demo_state 3 demo_account)) as [st'| |] eqn:E;
    [|discriminate Hok|discriminate Hok].
  exists st'. split; [reflexivity|].
  destruct (SendTokens_conserves _ _ _ E) as (a & token & balance & _ & _ & _ & _ & _ & HP & _).
  rewrite HP. reflexivity.
Defined.

(** ** Issuing and burning *)

(** [IssueTokens] creates what it hands out and respects the supply limit: when it
    succeeds the issuer's total grows by the sum of the amounts, which are not
    negative, one deposit from the issuer per recipient is produced with that amount,
    and a limited supply is not exceeded. *)
Theorem IssueTokens_supply recipient amount to st st' :
  IssueTokens_Validate (IssueTokens recipient amount to) st = Ok st' ->
  let recipients := match recipient with Some _ => mkRecipient recipient amount :: to | None => to end in
  exists i i', Origin st = Some (ATokenIssuer i) /\ Issued i' = Issued i + amounts recipients /\
    SupplyLimit i' = SupplyLimit i /\ 0 <= amounts recipients /\
    (forall limit, SupplyLimit i = Some limit -> Issued i' <= limit) /\
    accounts (batch st') = stored (ATokenIssuer i') st /\
    ProducedTxns (State st') = ProducedTxns (State st) ++
      ((fun r => (rcp_Url r, SyntheticDepositTokens no_origin (ti_Url i) (rcp_Amount r) true false)) <$> recipients) /\
    distinct_recipients recipients ∅.
Proof.
  intros H recipients. unfold IssueTokens_Validate in H.
  destruct (Origin st) as [a|] eqn:Eo; [|unfold invalid_principal in H; by rewrite Eo in H].
  destruct a as [| |i| | | | | | | |]; try (unfold invalid_principal in H; by rewrite Eo in H).
  fold recipients in H. destruct (existsb _ recipients); [done|]. inv_res.
  apply total_amount_ok in Hv as [-> HF]. rewrite Z.add_0_l in Hk. pose proof (amounts_nonneg _ HF).
  unfold Issue in Hk. destruct (match SupplyLimit i with Some limit => _ | None => true end) eqn:El;
    cbn [negb] in Hk; [|done].
  inv_res. apply failed_Ok, Update_one in Hv as [Hc Hacc].
  apply submit_deposits_ok in Hk0 as (Hd & HO & HB & HM & _ & HP). cbn [ti_Url] in HP.
  exists i, (fst (Issue (amounts recipients) i)). split; [done|]. split; [done|]. split; [done|]. split; [done|]. split.
  { intros limit Hl. rewrite Hl in El. cbn [Issue fst Issued]. lia. }
  split; [by rewrite HB, Hacc|]. split; [|done]. by rewrite HP, (sc_produced _ _ Hc).
Qed.

Lemma demo_issue_ok :
  is_Ok (IssueTokens_Validate (IssueTokens None 0 demo_to) (demo_state 9 demo_issuer)) = true.
Proof. vm_compute. reflexivity. Qed.

Lemma IssueTokens_supply_witness :
  exists st', IssueTokens_Validate (IssueTokens None 0 demo_to) (demo_state 9 demo_issuer) = Ok st' /\
    length (ProducedTxns (State st')) = 2%nat.
Proof.
  pose proof demo_issue_ok as Hok.
  destruct (IssueTokens_Validate (IssueTokens None 0 demo_to) (demo_state 9 demo_issuer)) as [st'| |] eqn:E;
    [|discriminate Hok|discriminate Hok].
  exists st'. split; [reflexivity|].
  destruct (IssueTokens_supply _ _ _ _ _ E) as (i & i' & _ & _ & _ & _ & _ & _ & HP & _).
  rewrite HP. reflexivity.
Defined.

(** Burning is accounted for twice: [BurnTokens] takes a non-negative amount, no
    more than the balance, off the account and sends it to the token's issuer, and the
    [SyntheticBurnTokens] it produces takes the same amount off the issued total. *)
Theorem BurnTokens_accounts amount st st' :
  BurnTokens_Validate (BurnTokens amount) st = Ok st' ->
  exists a token balance,
    Origin st = Some a /\ AccountWithTokens a = Some (token, balance) /\ 0 <= amount <= balance /\
    accounts (batch st') = stored (set_Balance (balance - amount) a) st /\
    ProducedTxns (State st') = ProducedTxns (State st) ++ [(Some token, SyntheticBurnTokens no_origin amount false)] /\
    forall sti sti' i, Origin sti = Some (ATokenIssuer i) ->
      SyntheticBurnTokens_Validate (SyntheticBurnTokens no_origin amount false) sti = Ok sti' ->
      exists i', accounts (batch sti') = stored (ATokenIssuer i') sti /\
        ti_Url i' = ti_Url i /\ Issued i' = Issued i - amount /\ ProducedTxns (State sti') = ProducedTxns (State sti).
Proof.
  unfold BurnTokens_Validate, token_origin. intros H.
  destruct (Origin st) as [a|] eqn:Eo; [|unfold invalid_principal in H; by rewrite Eo in H].
  destruct (AccountWithTokens a) as [[token balance]|] eqn:Ea; cbn in H;
    [|unfold invalid_principal in H; by rewrite Eo in H].
  destruct (Z.ltb_spec amount 0); [done|]. unfold DebitTokens, CanDebitTokens in H.
  destruct (Z.leb_spec amount balance); [|done]. cbn [negb] in H.
  change (default 0 (Some amount)) with amount in H. inv_res. unfold Submit in Hv.
  destruct (IsSynthetic _); [done|]. inv_res. subst v. apply failed_Ok, Update_one in Hk as [Hc Hacc].
  exists a, token, balance. split; [done|]. split; [done|]. split; [lia|].
  split; [by rewrite Hacc|]. split; [by rewrite (sc_produced _ _ Hc)|].
  intros sti sti' i Hi Hs. unfold SyntheticBurnTokens_Validate in Hs. rewrite Hi in Hs.
  rewrite (proj2 (Z.ltb_ge amount 0)) in Hs by lia. apply failed_Ok, Update_one in Hs as [Hc' Hacc'].
  eexists (mkTokenIssuer _ _ _ _ _ _ _). split; [rewrite Hacc'; reflexivity|]. split; [done|]. split; [done|].
  by rewrite (sc_produced _ _ Hc').
Qed.

Lemma demo_burn_ok : is_Ok (BurnTokens_Validate (BurnTokens 77) (demo_state 10 demo_account)) = true.
Proof. vm_compute. reflexivity. Qed.

Lemma BurnTokens_accounts_witness :
  exists st', BurnTokens_Validate (BurnTokens 77) (demo_state 10 demo_account) = Ok st' /\
    length (ProducedTxns (State st')) = 1%nat.
Proof.
  pose proof demo_burn_ok as Hok.
  destruct (BurnTokens_Validate (BurnTokens 77) (demo_state 10 demo_account)) as [st'| |] eqn:E;
    [|discriminate Hok|discriminate Hok].
  exists st'. split; [reflexivity|].
  destruct (BurnTokens_accounts _ _ _ E) as (a & token & balance & _ & _ & _ & _ & HP & _).
  rewrite HP. reflexivity.
Defined.

(** ** Deposits *)

Lemma LoadUrlAs_ok {A} (cast : Account -> option A) u st x st' :
  LoadUrlAs cast u st = Ok (x, st') ->
  batch st' = batch st /\ State st' = State st /\ Pretend st' = Pretend st /\ Origin st' = Origin st /\
  oracle st' = oracle st /\
  exists a, cast a = Some x /\
    (chains st !! AccountID32 u = Some a \/ accounts (batch st) !! AccountID32 u = Some a).
Proof.
  unfold LoadUrlAs, LoadUrl. intros H. destruct (chains st !! AccountID32 u) as [a|] eqn:Ec.
  - cbn [res_bind] in H. destruct (cast a) eqn:Ea; [|done]. simplify_eq. repeat (split; [done|]). exists a. auto.
  - unfold GetState in H. destruct (accounts (batch st) !! AccountID32 u) as [a|] eqn:Ea; cbn in H; [|done].
    destruct (cast a) eqn:Ev; [|done]. simplify_eq. repeat (split; [done|]). exists a. auto.
Qed.

Lemma AddDirectoryEntry_ok d l st st' :
  AddDirectoryEntry d l st = Ok st' ->
  accounts (batch st') = accounts (batch st) /\ State st' = State st /\ Pretend st' = Pretend st /\ Origin st' = Origin st.
Proof. unfold AddDirectoryEntry. intros H. inv_res. by subst. Qed.

Lemma create_lite_ok token u st a st' :
  create_lite token u st = Ok (a, st') ->
  a = ALiteTokenAccount (mkLiteTokenAccount u token 0 0) /\ Origin st' = Origin st /\
  Pretend st' = Pretend st /\ ProducedTxns (State st') = ProducedTxns (State st) /\
  exists k t, Lite.ParseLiteTokenAddress u = Ok (Some (k, t)) /\ Equal (Some token) (Some t) = true.
Proof.
  unfold create_lite. intros H.
  destruct (Lite.ParseLiteTokenAddress u) as [[[k t]|]| |]; try done.
  destruct (Equal (Some token) (Some t)) eqn:Et; [|done]. cbn [negb] in H. inv_res. simplify_eq.
  apply failed_Ok, AddDirectoryEntry_ok in Hv0 as (_ & HS & HPr & HO).
  split; [done|]. rewrite HS, HPr, HO. clear HS HPr HO.
  assert (Origin v = Origin st /\ Pretend v = Pretend st /\ ProducedTxns (State v) = ProducedTxns (State st)) as (-> & -> & ->).
  { destruct (LoadUrlAs as_LiteIdentity (RootIdentity u) st) as [[l stl]|e|] eqn:El; [|destruct (is_not_found e)|]; try done.
    - apply LoadUrlAs_ok in El as (HB & HS & HP & HO & _). injection Hv as <-. by rewrite HS.
    - apply failed_Ok, Update_one in Hv as [[] _]. done. }
  repeat (split; [done|]). eauto.
Qed.

(** C33. A token deposit settles once: when it succeeds, the tokens are of the
    account's kind and its balance grows by exactly the amount (a missing lite account
    is created with the amount as its balance), and nothing is produced; when it
    fails, [DidFail] sends exactly the amount back to the account that caused it, as a
    deposit or, for newly issued tokens, as a burn, unless the deposit was already a
    refund. *)
Theorem deposit_settles cause init fee token amount isIssuer isRefund :
  let body := SyntheticDepositTokens (mkOrigin (Some cause) init fee) token amount isIssuer isRefund in
  (forall st st', SyntheticDepositTokens_Validate body st = Ok st' ->
     0 <= amount /\ ProducedTxns (State st') = ProducedTxns (State st) /\
     match Origin st with
     | Some a => exists t balance, AccountWithTokens a = Some (t, balance) /\
         Equal (Some t) (Some token) = true /\
         accounts (batch st') = stored (set_Balance (balance + amount) a) st
     | None => (exists k t, Lite.ParseLiteTokenAddress (OriginUrl st) = Ok (Some (k, t)) /\
                  Equal (Some token) (Some t) = true) /\
         (Pretend st = false -> accounts (batch st') !! AccountID32 (OriginUrl st)
            = Some (ALiteTokenAccount (mkLiteTokenAccount (OriginUrl st) token amount 0)))
     end) /\
  (forall s, exists s', SyntheticDepositTokens_DidFail body s = Ok s' /\
     ProducedTxns s' = ProducedTxns s ++
       if isRefund then []
       else [(Some (url cause),
              if isIssuer then SyntheticBurnTokens no_origin amount true
              else SyntheticDepositTokens no_origin token amount false true)]).
Proof.
  intros body. split.
  - intros st st' H. unfold SyntheticDepositTokens_Validate, body in H. inv_res. destruct v as [a st1].
    destruct (Z.ltb_spec amount 0); [done|]. split; [done|]. unfold CreditTokens in Hk.
    rewrite (proj2 (Z.ltb_ge amount 0)) in Hk by done. cbn [negb] in Hk. apply failed_Ok, Update_one in Hk as [Hc Hacc].
    destruct (Origin st) as [o|] eqn:Eo.
    + destruct (AccountWithTokens o) as [[t balance]|] eqn:Ea; [|done].
      destruct (Equal (Some t) (Some token)) eqn:Et; [|done]. injection Hv as <- <-. rewrite Eo, Ea in *.
      split; [by rewrite (sc_produced _ _ Hc)|]. exists t, balance. split; [done|]. split; [done|]. by rewrite Hacc.
    + apply create_lite_ok in Hv as (-> & HO & HP & HS & Hk). rewrite HO, Eo in *.
      split; [by rewrite (sc_produced _ _ Hc)|]. split; [done|]. intros Hp. rewrite Hacc. unfold stored.
      rewrite HP, Hp. cbn. apply lookup_insert_eq.
  - intros s. unfold body, SyntheticDepositTokens_DidFail. destruct isRefund.
    { exists s. by rewrite app_nil_r. }
    cbn [cause_account so_Cause res_bind]. destruct isIssuer; eexists; (split; [done|]); done.
Qed.

Definition demo_cause : TxID := mkTxID demo_book (key_hash Byte.x07).

Lemma deposit_settles_witness :
  is_Ok (SyntheticDepositTokens_Validate (SyntheticDepositTokens (mkOrigin (Some demo_cause) None 0) AcmeUrl 5 false false)
           (demo_state 51 demo_account)) = true /\
  exists s', SyntheticDepositTokens_DidFail (SyntheticDepositTokens (mkOrigin (Some demo_cause) None 0) AcmeUrl 5 false false)
               (mkPTS [] [] []) = Ok s' /\
    ProducedTxns s' = [(Some demo_book, SyntheticDepositTokens no_origin AcmeUrl 5 false true)].
Proof.
  split; [vm_compute; reflexivity|].
  exact (proj2 (deposit_settles demo_cause None 0 AcmeUrl 5 false false) (mkPTS [] [] [])).
Defined.

(** ** Buying credits *)

(** C34. Buying credits burns what it takes: with an oracle price whose rate fits in 63
    bits, [AddCredits] debits the whole amount, adds the minimum spend to the burnt total
    of the partition's ledger as it was before, and puts the rest, if any, in the deposit as
    the refund; the deposit goes to the recipient of the body (for a lite token account, to
    its identity) and carries the amount's worth of credits at the oracle price, and if it
    fails its [DidFail] returns exactly that refund to the buyer. *)
Theorem AddCredits_accounts recipient amount price st r st' :
  AddCredits_Validate (AddCredits (Some recipient) amount price) st = Ok (r, st') ->
  0 <= price -> CreditUnitsPerFiatUnit * price < 2 ^ 63 ->
  exists a token balance ledger minSpend refund rcp credits,
    Origin st = Some a /\ AccountWithTokens a = Some (token, balance) /\
    Equal (Some AcmeUrl) (Some token) = true /\ 0 < amount <= balance /\
    minSpend = 10 ^ 14 / (CreditUnitsPerFiatUnit * price) /\
    amount = minSpend + default 0 refund /\
    (chains st !! AccountID32 (ledgerUrl st) = Some (ASystemLedger ledger) \/ accounts (batch st) !! AccountID32 (ledgerUrl st) = Some (ASystemLedger ledger)) /\
    rcp = match Lite.ParseLiteTokenAddress recipient with Ok (Some _) => RootIdentity recipient | _ => recipient end /\
    credits = u64 (CreditUnitsPerFiatUnit * price * amount / 10 ^ 12) /\ acr_Credits r = credits /\
    ProducedTxns (State st') = ProducedTxns (State st) ++
      [(Some rcp, SyntheticDepositCredits no_origin credits refund false)] /\
    (Pretend st = false ->
       accounts (batch st') =
       <[AccountID32 (sl_Url ledger) := ASystemLedger (set_AcmeBurnt (AcmeBurnt ledger + minSpend) ledger)]>
         (<[AccountID32 (GetUrl a) := set_Balance (balance - amount) a]> (accounts (batch st)))) /\
    (forall cause init fee s, exists s',
       SyntheticDepositCredits_DidFail (SyntheticDepositCredits (mkOrigin (Some cause) init fee) credits refund false) s = Ok s' /\
       ProducedTxns s' = ProducedTxns s ++
         match refund with
         | Some x => [(Some (url cause), SyntheticDepositTokens no_origin AcmeUrl x false true)]
         | None => []
         end).
Proof.
  unfold AddCredits_Validate. intros H Hp Hrate.
  destruct (Z.leb_spec amount 0); [done|]. destruct (Z.eqb_spec price 0); [done|].
  destruct (oracle st =? 0); [done|]. destruct (Z.eqb_spec price (oracle st)) as [Ep|]; [|done]. cbn [negb] in H.
  rewrite <- Ep in H. assert (0 < CreditUnitsPerFiatUnit * price) by (unfold CreditUnitsPerFiatUnit; lia).
  rewrite (u64_small (CreditUnitsPerFiatUnit * price)), i64_small in H by (unfold is_i64, is_u64; lia).
  set (rate := CreditUnitsPerFiatUnit * price) in *.
  change (u64 (MinimumCreditPurchase * AcmeOraclePrecision * AcmePrecision)) with (10 ^ 14) in H.
  change (AcmeOraclePrecision * AcmePrecision) with (10 ^ 12) in H. unfold big_Div in H.
  destruct (Z.eqb_spec rate 0); [lia|]. destruct (Z.ltb_spec 0 rate); [|lia]. cbn [res_bind] in H.
  change (10 ^ 12 =? 0) with false in H. change (0 <? 10 ^ 12) with true in H. cbn iota in H.
  destruct (Z.ltb_spec amount (10 ^ 14 / rate)); [done|]. cbn [res_bind] in H.
  destruct (i64 _ =? 0); [done|].
  unfold token_origin in H. destruct (Origin st) as [a|] eqn:Eo; [|done].
  destruct (AccountWithTokens a) as [[token balance]|] eqn:Ea; cbn [fmap option_fmap option_map fst snd] in H; [|done].
  destruct (Equal (Some AcmeUrl) (Some token)) eqn:Et; [|done]. cbn [negb] in H.
  unfold DebitTokens, CanDebitTokens in H. destruct (Z.leb_spec amount balance); [|done]. cbn [negb] in H.
  change (default 0 (Some amount)) with amount in H. inv_res.
  unfold Submit in Hv0. destruct (IsSynthetic _); [done|]. inv_res. subst v0. destruct v1 as [ledger st1]. inv_res.
  apply LoadUrlAs_ok in Hv1 as (HB & HS & HPr & HO & Hor & la & Hla & Hled). destruct la; try done. injection Hla as ->.
  apply failed_Ok, Update_two in Hv0 as [Hc Hacc]. simplify_eq.
  exists a, token, balance, ledger, (10 ^ 14 / rate),
    (if 10 ^ 14 / rate <? amount then Some (amount - 10 ^ 14 / rate) else None), v, (big_Uint64 (rate * amount / 10 ^ 12)).
  split; [done|]. split; [done|]. split; [done|]. split; [lia|]. split; [done|].
  split. { destruct (Z.ltb_spec (10 ^ 14 / rate) amount); simpl; lia. }
  split; [exact Hled|]. split. { destruct (Lite.ParseLiteTokenAddress recipient) as [[?|]| |]; congruence. }
  split. { unfold big_Uint64. by rewrite Z.abs_eq by (apply Z.div_pos; nia). }
  split; [done|]. split; [by rewrite (sc_produced _ _ Hc), HS|]. split.
  { intros Hpret. rewrite Hacc, HPr. cbn [Pretend set_State set_Origin]. rewrite Hpret, HB. by rewrite set_Balance_url. }
  intros cause s. destruct (10 ^ 14 / rate <? amount); eexists; (split; [done|]); [done|by rewrite app_nil_r].
Qed.

Definition demo_buy : TransactionBody := AddCredits (Some demo_book) (10 ^ 10) 500000.
Definition demo_buy_state : StateManager :=
  let s := demo_state 14 demo_account in
  mkSM (Origin s) (OriginUrl s) 14 (txHash s) 500000 (ledgerUrl s) None false ∅ (batch s) (State s) (PartitionId s) [] [].

Lemma demo_buy_ok : is_Ok (AddCredits_Validate demo_buy demo_buy_state) = true.
Proof. vm_compute. reflexivity. Qed.

Lemma AddCredits_accounts_witness :
  exists r st', AddCredits_Validate demo_buy demo_buy_state = Ok (r, st') /\ acr_Credits r = 50000000.
Proof.
  pose proof demo_buy_ok as Hok.
  destruct (AddCredits_Validate demo_buy demo_buy_state) as [[r st']| |] eqn:E;
    [|discriminate Hok|discriminate Hok].
  exists r, st'. split; [reflexivity|].
  destruct (AddCredits_accounts _ _ _ _ _ _ E) as (a & t & b & l & m & rf & rc & c & _ & _ & _ & _ & _ & _ & _ & _ & Hc & Hr & _).
  - lia.
  - vm_compute. reflexivity.
  - rewrite Hr, Hc. vm_compute. reflexivity.
Defined.
