(* ===== verification/Creation.v ===== *)
(** * Executors that create accounts and write data: [internal/chain/create_*.go],
      [write_data.go], [write_data_to.go], [acme_faucet.go], [update_key.go],
      [synthetic_create_identity.go], [synthetic_write_data.go],
      [system_write_data.go] and the generated [CreateToken.MarshalBinary]

    As in Executors: each [Validate] takes the body and the state manager and returns the
    new state manager; [Execute] is [Validate] except for UpdateKey. *)

From S2P Require Import Prelude Sha256 Encoding Codec Receipt DataEntry SortUtil Url Accounts AdiUrl KeyPages.
From S2P Require Import StateManager Executors.
Local Open Scope Z_scope.
Import Url TxID.

(** The error of a missing interface value: a method call on nil. *)
Definition nil_panic {A} : res A := Panic "invalid memory address or nil pointer dereference".

(** The message names the type of the origin. *)
Definition checkCreateAdiAccount (st : StateManager) (account : URL) : res unit :=
  match Origin st with
  | Some (AADI _ _) =>
      if negb (Equal (Some (Identity account)) (Some (OriginUrl st))) then
        errors_new StatusBadRequest "invalid principal: cannot create as a child"
      else Ok tt
  | Some _ => errors_new StatusBadRequest "invalid principal: want account type identity"
  | None => nil_panic
  end.

Definition check_authorities (authorities : list (option URL)) : res unit :=
  if existsb (fun u => bool_decide (u = None)) authorities then errors_new StatusBadRequest "authority URL is nil"
  else Ok tt.

(** What the creating executors check first: the URL, the authorities and the parent. *)
Definition check_create (u : option URL) (authorities : list (option URL)) (st : StateManager) : res URL :=
  match u with
  | None => errors_new StatusBadRequest "account URL is missing"
  | Some u =>
      let! _ := check_authorities authorities in
      let! _ := checkCreateAdiAccount st u in
      Ok u
  end.

(** ** Token accounts *)

Definition url_string (u : URL) : string := String.string_of_list_byte (URL_String u).

Definition write_opt {A} (v : option A) (f : A -> Writer -> Writer) (w : Writer) : Writer :=
  match v with Some x => f x w | None => w end.

Definition CreateToken_MarshalBinary (b : CreateTokenBody) : res bytes :=
  let w := WriteEnum 1 8 NewWriter in
  let w := write_opt (ct_Url b) (fun u => WriteUrl 2 (Some (url_string u))) w in
  let w := if negb (bytes_eqb (ct_Symbol b) []) then WriteString 4 (String.string_of_list_byte (ct_Symbol b)) w else w in
  let w := if negb (ct_Precision b =? 0) then WriteUint 5 (ct_Precision b) w else w in
  let w := write_opt (ct_Properties b) (fun u => WriteUrl 6 (Some (url_string u))) w in
  let w := write_opt (ct_SupplyLimit b) (fun v => WriteBigInt 7 v) w in
  let w := foldl (fun w u => WriteUrl 9 (url_string <$> u) w) w (ct_Authorities b) in
  finish w.

Definition is_issuer (a : Account) : bool := match a with ATokenIssuer _ => true | _ => false end.

Definition verifyCreateTokenAccountProof (tokenUrl : URL) (proof : option TokenIssuerProof) (st : StateManager)
    : res unit :=
  let local := LocalTo (OriginUrl st) tokenUrl in
  let! _ :=
    if local then
      match accounts (batch st) !! AccountID32 tokenUrl with
      | None => errors_new StatusBadRequest "invalid token url: not found"
      | Some a => if is_issuer a then Ok tt else errors_new StatusBadRequest "invalid token url: expected a token issuer"
      end
    else Ok tt in
  match proof with
  | None =>
      if Equal (Some tokenUrl) (Some AcmeUrl) then Ok tt
      else if local then Ok tt
      else errors_new StatusBadRequest "missing proof of existence for token issuer"
  | Some (mkProof None _) => errors_new StatusBadRequest "invalid proof: missing transaction"
  | Some (mkProof _ None) => errors_new StatusBadRequest "invalid proof: missing receipt"
  | Some (mkProof (Some txn) (Some receipt)) =>
      if negb (Validate receipt) then errors_new StatusBadRequest "proof is invalid"
      else if negb (Equal (Some tokenUrl) (ct_Url txn)) then
        errors_new StatusBadRequest "invalid proof: URL does not match token issuer URL"
      else
        match CreateToken_MarshalBinary txn with
        | Panic s => Panic s
        | Err _ => errors_new StatusInternalError "marshal proof state"
        | Ok b =>
            if negb (bytes_eqb (MerkleState.hb (Start receipt)) (sha256 b)) then
              errors_new StatusBadRequest "invalid proof: state hash does not match proof start"
            else if bool_decide (MerkleState.hb (Anchor receipt) ∈ dnAnchors st) then Ok tt
            else let! _ := slice_to (MerkleState.hb (Anchor receipt)) 4 in
                 errors_new StatusBadRequest "invalid proof: lookup DN anchor"
        end
  end.

Definition CreateTokenAccount_Validate (body : TransactionBody) (st : StateManager) : res StateManager :=
  match body with
  | CreateTokenAccount u tokenUrl authorities proof =>
      let! u := check_create u authorities st in
      match tokenUrl with
      | None => errors_new StatusBadRequest "token URL is missing"
      | Some tokenUrl =>
          let! _ := verifyCreateTokenAccountProof tokenUrl proof st in
          let account := ATokenAccount (mkTokenAccount u (mkAuth []) tokenUrl 0) in
          let! (account, st) := wrapf (SetAuth account authorities st) "set auth" in
          wrapf (Create [account] st) "create account"
      end
  | _ => errors_new StatusInternalError "invalid payload"
  end.

(** ** Data accounts and tokens *)

Definition CreateDataAccount_Validate (body : TransactionBody) (st : StateManager) : res StateManager :=
  match body with
  | CreateDataAccount u authorities =>
      let! u := check_create u authorities st in
      let! (account, st) := SetAuth (ADataAccount u (mkAuth []) None) authorities st in
      wrapf (Create [account] st) "failed to create"
  | _ => errorf "invalid payload"
  end.

Definition CreateToken_Validate (body : TransactionBody) (st : StateManager) : res StateManager :=
  match body with
  | CreateToken b =>
      let! u := check_create (ct_Url b) (ct_Authorities b) st in
      if 18 <? ct_Precision b then errorf "precision must be in range 0 to 18"
      else if match ct_SupplyLimit b with Some l => l <? 0 | None => false end then
        errorf "supply limit can't be a negative value"
      else
        let token := ATokenIssuer (mkTokenIssuer u (mkAuth []) (ct_Symbol b) (ct_Precision b) (ct_Properties b) 0
                                     (ct_SupplyLimit b)) in
        let! (token, st) := SetAuth token (ct_Authorities b) st in
        wrapf (Create [token] st) "failed to create"
  | _ => errorf "invalid payload"
  end.

(** ** Key books and pages *)

Definition check_key_hash (h : bytes) : res unit :=
  if zlen h =? 0 then errors_new StatusBadRequest "public key hash is missing"
  else if zlen h =? 32 then Ok tt
  else errors_new StatusBadRequest "public key hash length is invalid".

Definition CreateKeyBook_Validate (body : TransactionBody) (st : StateManager) : res StateManager :=
  match body with
  | CreateKeyBook u keyHash authorities =>
      let! u := check_create u authorities st in
      let! _ := check_key_hash keyHash in
      let! (auth, _) := AddAuthority u (mkAuth []) in
      let! (book, st) := SetAuth (AKeyBook (mkKeyBook u 0 auth 1)) authorities st in
      let page := AKeyPage (mkKeyPage (FormatKeyPageUrl u 0) 0 0 1 [mkKeySpec keyHash 0 None] None) in
      wrapf (Create [book; page] st) "failed to create"
  | _ => errorf "invalid payload"
  end.

(** The check for duplicate keys; [m] is the set of the hashes seen. *)
Fixpoint check_unique (keys : list KeySpecParams) (m : gset bytes) : res unit :=
  match keys with
  | [] => Ok tt
  | key :: keys =>
      let h := KeyHash key in
      if zlen h =? 0 then check_unique keys m
      else if zlen h =? 32 then
        if bool_decide (h ∈ m) then errorf "duplicate keys: signing keys of a keypage must be unique"
        else check_unique keys ({[h]} ∪ m)
      else errors_new StatusBadRequest "public key hash length is invalid"
  end.

(** Only the hash of the given entry is kept. *)
Fixpoint add_key_specs (keys : list KeySpecParams) (page : KeyPage) : res KeyPage :=
  match keys with
  | [] => Ok page
  | sig :: keys => let! page := AddKeySpec (mkKeySpec (KeyHash sig) 0 None) page in add_key_specs keys page
  end.

Definition CreateKeyPage_Validate (body : TransactionBody) (st : StateManager) : res StateManager :=
  match Origin st with
  | Some (AKeyBook book) =>
      match body with
      | CreateKeyPage keys =>
          if zlen keys =? 0 then errorf "cannot create empty sig spec"
          else
            let! _ := check_unique keys ∅ in
            let page := mkKeyPage (FormatKeyPageUrl (kb_Url book) (PageCount book)) 0 1 1 [] None in
            let book := AKeyBook (mkKeyBook (kb_Url book) (BookType book) (kb_AccountAuth book) (u64 (PageCount book + 1))) in
            let! page := add_key_specs keys page in
            let! st := wrapf (Update [book] (set_Origin book st)) "failed to update" in
            wrapf (Create [AKeyPage page] st) "failed to create"
      | _ => errorf "invalid payload"
      end
  | Some _ => errorf "invalid principal: want account type key book"
  | None => nil_panic
  end.

(** ** Identities *)

Section Identity.
Context `{UnicodeTables}.

Definition validateKeyBookUrl (bookUrl adiUrl : URL) : res unit :=
  match IsValidAdiUrl bookUrl false with
  | Err _ => errors_new StatusBadRequest "invalid KeyBook URL"
  | Panic s => Panic s
  | Ok _ =>
      let '(parent, ok) := Parent bookUrl in
      if negb ok then errors_new StatusBadRequest "invalid URL, the KeyBook URL must be adi_path/KeyBook"
      else if negb (Equal (Some parent) (Some adiUrl)) then
        errors_new StatusBadRequest "KeyBook must be a direct child of its ADI"
      else Ok tt
  end.

(** The accounts of a new key book: the identity with the book as its authority, the
    book and its first page. *)
Definition new_key_book (u bookUrl : URL) (keyHash : bytes) : res (Account * list Account) :=
  if zlen keyHash =? 0 then errors_new StatusBadRequest "missing PublicKey"
  else
    let! _ := validateKeyBookUrl bookUrl u in
    let! (idAuth, _) := AddAuthority bookUrl (mkAuth []) in
    let! (bookAuth, _) := AddAuthority bookUrl (mkAuth []) in
    if negb (zlen keyHash =? 32) then errors_new StatusBadRequest "invalid Key Hash: length must be equal to 32 bytes"
    else
      let! page := AddKeySpec (mkKeySpec keyHash 0 None)
                     (mkKeyPage (FormatKeyPageUrl bookUrl 0) 0 1 1 [] None) in
      Ok (AADI u idAuth, [AKeyBook (mkKeyBook bookUrl 0 bookAuth 1); AKeyPage page]).

Definition CreateIdentity_Validate (body : TransactionBody) (st : StateManager) : res StateManager :=
  match body with
  | CreateIdentity None _ _ _ => errors_new StatusBadRequest "account URL is missing"
  | CreateIdentity (Some u) keyHash bookUrl authorities =>
      let! _ := check_authorities authorities in
      let! _ := if negb (IsRootIdentity u) then checkCreateAdiAccount st u else Ok tt in
      if bool_decide (bookUrl = None) && (zlen authorities =? 0) && IsRootIdentity u then
        errors_new StatusBadRequest "a root identity cannot be created with an empty authority set"
      else
        match IsValidAdiUrl u false with
        | Err _ => errors_new StatusBadRequest "invalid URL"
        | Panic s => Panic s
        | Ok _ =>
            let! (identity, others) :=
              match bookUrl with
              | None => Ok (AADI u (mkAuth []), [])
              | Some b => new_key_book u b keyHash
              end in
            let! (identity, st) := SetAuth identity authorities st in
            if negb (LocalTo (OriginUrl st) u) then
              Submit (Some u) (SyntheticCreateIdentity no_origin (identity :: others)) st
            else failed (Create (identity :: others) st) "failed to create"
        end
  | _ => errors_new StatusInternalError "invalid payload"
  end.

End Identity.

(** The checks of one created account: its identity exists, it names its authorities,
    and the local ones are key books. *)
Fixpoint check_books (account : URL) (l : list AuthorityEntry) (st : StateManager) : res StateManager :=
  match l with
  | [] => Ok st
  | a :: l =>
      if negb (LocalTo account (auth_Url a)) then check_books account l st
      else
        let! (_, st) := failed (LoadUrlAs as_KeyBook (auth_Url a) st) "invalid key book" in
        check_books account l st
  end.

Fixpoint check_created (l : list Account) (st : StateManager) : res StateManager :=
  match l with
  | [] => Ok st
  | account :: l =>
      let u := GetUrl account in
      let! (record, st) := failed (LoadUrl u st) "internal error: failed to fetch pending record" in
      let! st :=
        match record with
        | AADI _ _ => Ok st
        | _ => let! (_, st) := failed (LoadUrl (Identity u) st) "missing identity" in Ok st
        end in
      let! st :=
        match GetAuth record with
        | None => Ok st
        | Some (mkAuth []) => errorf "does not specify a key book"
        | Some (mkAuth auths) => check_books (GetUrl record) auths st
        end in
      check_created l st
  end.

Definition SyntheticCreateIdentity_Validate (body : TransactionBody) (st : StateManager) : res StateManager :=
  match body with
  | SyntheticCreateIdentity (mkOrigin None _ _) _ => errorf "cause is missing"
  | SyntheticCreateIdentity (mkOrigin (Some _) _ _) l =>
      match Create l st with
      | Err e => let! _ := index l 0 in Err e
      | Panic s => Panic s
      | Ok st => check_created l st
      end
  | _ => errorf "invalid payload"
  end.

(** ** Lite token accounts *)

Definition CreateLiteTokenAccount_Validate (body : TransactionBody) (st : StateManager) : res StateManager :=
  match body with
  | CreateLiteTokenAccount =>
      match Lite.ParseLiteTokenAddress (OriginUrl st) with
      | Panic s => Panic s
      | Err _ | Ok None => errors_new StatusBadRequest "invalid lite token account URL"
      | Ok (Some (_, tok)) =>
          if negb (Equal (Some AcmeUrl) (Some tok)) then
            errors_new StatusBadRequest "creating non-ACME lite token accounts is not supported"
          else
            let! st := wrapf (Create [ALiteTokenAccount (mkLiteTokenAccount (OriginUrl st) tok 0 0)] st)
                         "create lite token account" in
            let root := RootIdentity (OriginUrl st) in
            match accounts (batch st) !! AccountID32 root with
            | Some (ALiteIdentity _) => Ok st
            | Some _ => errorf "load lite identity"
            | None => wrapf (Create [ALiteIdentity (mkLiteIdentity root 0 0)] st) "create lite identity"
            end
      end
  | _ => errors_new StatusInternalError "invalid payload"
  end.

(** ** The faucet *)

Definition AcmeFaucetAmount : Z := 10.

Definition as_LiteTokenAccount (a : Account) : option LiteTokenAccount :=
  match a with ALiteTokenAccount a => Some a | _ => None end.

(** The faucet's address derives from a fixed key of a package outside the repository. *)
Section Faucet.
Context (FaucetUrl : URL).

Definition check_faucet_recipient (u : URL) (st : StateManager) : res StateManager :=
  match LoadUrlAs as_LiteTokenAccount u st with
  | Ok (account, st) =>
      if negb (Equal (Some AcmeUrl) (Some (lta_TokenUrl account))) then errorf "invalid recipient: not an ACME account"
      else Ok st
  | Panic s => Panic s
  | Err e =>
      if is_not_found e then
        match Lite.ParseLiteTokenAddress u with
        | Panic s => Panic s
        | Err _ => errorf "error parsing lite address"
        | Ok None => errorf "invalid recipient: not a lite address"
        | Ok (Some (_, tok)) =>
            if negb (Equal (Some AcmeUrl) (Some tok)) then errorf "invalid recipient: not an ACME account" else Ok st
        end
      else errorf "invalid recipient"
  end.

Definition AcmeFaucet_Validate (body : TransactionBody) (st : StateManager) : res StateManager :=
  match body with
  | AcmeFaucet None => errors_new StatusBadRequest "recipient URL is missing"
  | AcmeFaucet (Some u) =>
      let! st := check_faucet_recipient u st in
      match LoadUrlAs as_LiteTokenAccount FaucetUrl st with
      | Panic s => Panic s
      | Err _ => errorf "failed to load faucet"
      | Ok (faucet, st) =>
          let amount := u64 (AcmeFaucetAmount * AcmePrecision) in
          let '(balance, ok) := DebitTokens (Some amount) (lta_Balance faucet) in
          if negb ok then errors_new StatusInsufficientBalance "the faucet is dry"
          else
            let faucet := ALiteTokenAccount (mkLiteTokenAccount (lta_Url faucet) (lta_TokenUrl faucet) balance (LockHeight faucet)) in
            let! st := failed (Update [faucet] st) "failed to update faucet" in
            Submit (Some u) (SyntheticDepositTokens no_origin AcmeUrl amount false false) st
      end
  | _ => errorf "invalid payload"
  end.

End Faucet.

(** ** Data *)

Record WriteDataResult := mkWriteDataResult { wdr_EntryHash : bytes; wdr_AccountUrl : URL; wdr_AccountID : bytes }.

(** [entry.Hash()] of a nil entry panics. *)
Definition entry_hash (entry : option DataEntry) : res bytes :=
  match entry with None => nil_panic | Some e => DataEntry.Hash e end.

Definition executeWriteLiteDataAccount (entry : option DataEntry) (st : StateManager)
    : res (WriteDataResult * StateManager) :=
  match Origin st with
  | Some (ALiteDataAccount u) =>
      let! id := Lite.ParseLiteDataAddress (OriginUrl st) in
      let! h := entry_hash entry in
      Ok (mkWriteDataResult h (OriginUrl st) id, UpdateData (ALiteDataAccount u) h entry st)
  | Some _ => errorf "invalid principal: want chain type lite data account"
  | None =>
      match Lite.ParseLiteDataAddress (OriginUrl st) with
      | Panic s => Panic s
      | Err _ => errorf "invalid lite data URL"
      | Ok _ =>
          let id := ComputeLiteDataAccountId entry in
          let! u := Lite.LiteDataAddress id in
          if negb (Equal (Some (OriginUrl st)) (Some u)) then errorf "first entry doesnt match chain id"
          else
            let! h := entry_hash entry in
            Ok (mkWriteDataResult h u id, UpdateData (ALiteDataAccount u) h entry st)
      end
  end.

Definition executeWriteFullDataAccount (entry : option DataEntry) (scratch writeToState : bool) (st : StateManager)
    : res (WriteDataResult * StateManager) :=
  match Origin st with
  | None => errors_new StatusNotFound "not found"
  | Some (ADataAccount u auth e) =>
      if writeToState && scratch then
        errors_new StatusBadRequest "writing scratch data to the account state is not permitted"
      else
        let account := ADataAccount u auth (if writeToState then entry else e) in
        let! st := if writeToState then wrapf (Update [account] (set_Origin account st)) "store account" else Ok st in
        let! h := entry_hash entry in
        Ok (mkWriteDataResult h (OriginUrl st) (AccountID32 (OriginUrl st)), UpdateData account h entry st)
  | Some _ => errors_new StatusBadRequest "invalid principal: want data account"
  end.

Definition WriteData_Validate (body : TransactionBody) (st : StateManager) : res (WriteDataResult * StateManager) :=
  match body with
  | WriteData None _ _ => errors_new StatusBadRequest "entry is missing"
  | WriteData (Some entry) scratch writeToState =>
      let! _ := CheckDataEntrySize entry in
      match Lite.ParseLiteDataAddress (OriginUrl st) with
      | Panic s => Panic s
      | Ok _ =>
          if writeToState then errors_new StatusBadRequest "cannot write data to the state of a lite data account"
          else executeWriteLiteDataAccount (Some entry) st
      | Err _ => executeWriteFullDataAccount (Some entry) scratch writeToState st
      end
  | _ => errors_new StatusInternalError "invalid payload"
  end.

Definition WriteDataTo_Validate (body : TransactionBody) (st : StateManager) : res StateManager :=
  match body with
  | WriteDataTo None _ => errors_new StatusBadRequest "recipient is missing"
  | WriteDataTo _ None => errors_new StatusBadRequest "entry is missing"
  | WriteDataTo (Some recipient) (Some entry) =>
      match Lite.ParseLiteDataAddress recipient with
      | Panic s => Panic s
      | Err _ => errors_new StatusBadRequest "only writes to lite data accounts supported"
      | Ok _ => Submit (Some recipient) (SyntheticWriteData no_origin (Some entry)) st
      end
  | _ => errors_new StatusInternalError "invalid payload"
  end.

Definition SyntheticWriteData_Validate (body : TransactionBody) (st : StateManager)
    : res (WriteDataResult * StateManager) :=
  match body with
  | SyntheticWriteData _ entry => executeWriteLiteDataAccount entry st
  | _ => errorf "invalid payload"
  end.

Definition SystemWriteData_Validate (body : TransactionBody) (st : StateManager)
    : res (WriteDataResult * StateManager) :=
  match body with
  | SystemWriteData entry writeToState =>
      match ParsePartitionUrl (OriginUrl st) with
      | None => errors_new StatusBadRequest "invalid principal: not a system account"
      | Some partition =>
          if negb (bytes_eqb partition (PartitionId st)) then
            errors_new StatusBadRequest "invalid principal: belongs to the wrong partition"
          else executeWriteFullDataAccount entry false writeToState st
      end
  | _ => errorf "invalid payload"
  end.

(** ** Replacing the signing key *)

(** The signature that initiated a transaction, as UpdateKey tells it apart: one with a
    key, one given on behalf of [delegate] (with a key, or itself delegated), or any
    other. *)
Inductive Initiator :=
  | InitKey (publicKeyHash : bytes)
  | InitDelegated (delegate : URL) (withKey : bool)
  | InitOther.

Definition UpdateKey_validate (body : TransactionBody) (st : StateManager)
    : res (bytes * KeyPage * KeyBook * StateManager) :=
  match body with
  | UpdateKey newKeyHash =>
      let! _ := check_key_hash newKeyHash in
      match Origin st with
      | Some (AKeyPage page) =>
          match ParseKeyPageUrl (OriginUrl st) with
          | None => errorf "invalid principal: page url is invalid"
          | Some (bookUrl, _) =>
              let! (book, st) := failed (LoadUrlAs as_KeyBook bookUrl st) "invalid key book" in
              if BookType book =? BookTypeValidator then
                errorf "UpdateKey cannot be used to modify the validator key book"
              else Ok (newKeyHash, page, book, st)
          end
      | _ => invalid_principal st
      end
  | _ => errorf "invalid payload"
  end.

Definition UpdateKey_Validate (body : TransactionBody) (st : StateManager) : res StateManager :=
  let! (_, _, _, st) := UpdateKey_validate body st in Ok st.

(** [initiator] is what the search over the stored signatures found. *)
Definition UpdateKey_Execute (initiator : option Initiator) (body : TransactionBody) (st : StateManager)
    : res StateManager :=
  let! (newKeyHash, page, book, st) := UpdateKey_validate body st in
  match initiator with
  | None => errors_new StatusInternalError "unable to locate initiator signature"
  | Some i =>
      let! page :=
        match i with
        | InitKey h =>
            updateKey page (kb_AccountAuth book) (mkParams h None) (mkParams newKeyHash None) true
        | InitDelegated d withKey =>
            let r := updateKey page (kb_AccountAuth book) (mkParams [] (Some d)) (mkParams newKeyHash None) true in
            match r with
            | Panic s => Panic s
            | _ => if negb withKey then errorf "cannot UpdateKey with a multi-level delegated signature" else r
            end
        | InitOther => errors_new StatusInternalError "UpdateKey does not support this kind of signature"
        end in
      failed (Update [AKeyPage page] (set_Origin (AKeyPage page) st)) "failed to update"
  end.

(** ** The executor of a transaction *)

(** [executor.Execute] for the executor the type of the body selects; the result of the
    transaction is left out.  The arguments are what lies outside of the state manager. *)
Section Dispatch.
Context `{UnicodeTables} (FaucetUrl : URL) (initiator : option Initiator).

Definition without_result {A} (r : res (A * StateManager)) : res StateManager := let! (_, st) := r in Ok st.

Definition Execute (body : TransactionBody) (st : StateManager) : res StateManager :=
  match body with
  | SendTokens _ => SendTokens_Validate body st
  | IssueTokens _ _ _ => IssueTokens_Validate body st
  | BurnTokens _ => BurnTokens_Validate body st
  | AddCredits _ _ _ => without_result (AddCredits_Validate body st)
  | UpdateKeyPage _ => UpdateKeyPage_Validate body st
  | LockAccount _ => LockAccount_Validate body st
  | UpdateAccountAuth _ => UpdateAccountAuth_Validate body st
  | SyntheticDepositTokens _ _ _ _ _ => SyntheticDepositTokens_Validate body st
  | SyntheticDepositCredits _ _ _ _ => SyntheticDepositCredits_Validate body st
  | SyntheticBurnTokens _ _ _ => SyntheticBurnTokens_Validate body st
  | CreateIdentity _ _ _ _ => CreateIdentity_Validate body st
  | CreateTokenAccount _ _ _ _ => CreateTokenAccount_Validate body st
  | CreateDataAccount _ _ => CreateDataAccount_Validate body st
  | WriteData _ _ _ => without_result (WriteData_Validate body st)
  | WriteDataTo _ _ => WriteDataTo_Validate body st
  | AcmeFaucet _ => AcmeFaucet_Validate FaucetUrl body st
  | CreateToken _ => CreateToken_Validate body st
  | CreateLiteTokenAccount => CreateLiteTokenAccount_Validate body st
  | CreateKeyPage _ => CreateKeyPage_Validate body st
  | CreateKeyBook _ _ _ => CreateKeyBook_Validate body st
  | UpdateKey _ => UpdateKey_Execute initiator body st
  | SyntheticCreateIdentity _ _ => SyntheticCreateIdentity_Validate body st
  | SyntheticWriteData _ _ => without_result (SyntheticWriteData_Validate body st)
  | SystemWriteData _ _ => without_result (SystemWriteData_Validate body st)
  end.

End Dispatch.
