(* ===== verification/WellFormed.v ===== *)
(** * Well-formed states and the tokens in circulation

    A well-formed state: every account is stored under the identifier of its URL and
    satisfies the invariant of its type, and every key book has its pages.  The
    circulation of a token is its balances less what its issuer has issued.  The file has
    the lemmas on loading, creating and updating accounts, and states what executing a
    transaction must leave behind ([post]). *)

From stdpp Require Import sorting.
From S2P Require Import Prelude Sha256 Encoding Codec Receipt DataEntry SortUtil Url UrlProofs Accounts.
From S2P Require Import AccountsProofs AdiUrl KeyPages KeyPagesProofs StateManager Executors ExecutorProofs.
From S2P Require Import Creation.
Local Open Scope Z_scope.
Import Url TxID.

(** ** Well-formed accounts and states *)

Definition AccountType (a : Account) : Z :=
  match a with
  | AADI _ _ => 2
  | ATokenIssuer _ => 3
  | ATokenAccount _ => 4
  | ALiteTokenAccount _ => 5
  | AKeyPage _ => 9
  | AKeyBook _ => 10
  | ADataAccount _ _ _ => 11
  | ALiteDataAccount _ => 12
  | ASystemLedger _ => 14
  | ALiteIdentity _ => 15
  | AOther _ => 0
  end.

Definition auth_ok (a : AccountAuth) : Prop := auth_sorted a /\ Authorities a <> [].

Definition wf_account (a : Account) : Prop :=
  match a with
  | ATokenAccount t => auth_ok (ta_AccountAuth t) /\ 0 <= ta_Balance t /\ url_ok (ta_TokenUrl t) = true
  | ALiteTokenAccount t => 0 <= lta_Balance t /\ url_ok (lta_TokenUrl t) = true
  | ATokenIssuer i => auth_ok (ti_AccountAuth i) /\ url_ok (ti_Url i) = true /\
      forall l, SupplyLimit i = Some l -> Issued i <= l
  | ALiteIdentity l => is_u64 (li_CreditBalance l)
  | AKeyPage p => page_inv p /\ is_u64 (kpg_CreditBalance p)
  | AKeyBook b => auth_ok (kb_AccountAuth b) /\ 0 <= PageCount b
  | AADI _ auth | ADataAccount _ auth _ => auth_ok auth
  | ALiteDataAccount _ | ASystemLedger _ | AOther _ => True
  end.

Abbreviation state := (gmap bytes Account).
Definition acc_id (a : Account) : bytes := AccountID32 (GetUrl a).

(** The pages of a book are stored. *)
Definition pages_in (m : state) (b : KeyBook) : Prop :=
  forall i, 0 <= i < PageCount b ->
    exists p, m !! AccountID32 (FormatKeyPageUrl (kb_Url b) i) = Some (AKeyPage p).

Record wf (m : state) : Prop := {
  wf_id : forall id a, m !! id = Some a -> acc_id a = id;
  wf_accounts : forall id a, m !! id = Some a -> wf_account a;
  wf_books : forall id b, m !! id = Some (AKeyBook b) -> pages_in m b
}.

(** Nothing is deleted, and types and URLs do not change. *)
Definition evolves (m m' : state) : Prop :=
  forall id a, m !! id = Some a ->
    exists a', m' !! id = Some a' /\ AccountType a' = AccountType a /\ GetUrl a' = GetUrl a.

Lemma evolves_refl m : evolves m m.
Proof. intros id a H. by exists a. Qed.

Lemma evolves_trans m1 m2 m3 : evolves m1 m2 -> evolves m2 m3 -> evolves m1 m3.
Proof.
  intros H1 H2 id a Ha. destruct (H1 id a Ha) as (b & Hb & E1 & E2). destruct (H2 id b Hb) as (c & Hc & E3 & E4).
  exists c. split; [done|]. split; congruence.
Qed.
#[global] Hint Resolve evolves_refl : core.

Lemma type_page a : AccountType a = 9 -> exists p, a = AKeyPage p.
Proof. destruct a; try done. by eexists. Qed.

Lemma pages_mono m m' b : evolves m m' -> pages_in m b -> pages_in m' b.
Proof.
  intros He Hp i Hi. destruct (Hp i Hi) as (p & Hl). destruct (He _ _ Hl) as (a & Ha & Ht & _).
  apply type_page in Ht as [q ->]. by exists q.
Qed.

(** ** Tokens in circulation *)

(** The part of a token's circulation an account stands for: a balance adds to it, what
    an issuer has issued is taken off.  A token is named by the identifier of its
    issuer's URL. *)
Definition ex (T : bytes) (a : Account) : Z :=
  match a with
  | ATokenAccount x => if decide (AccountID32 (ta_TokenUrl x) = T) then ta_Balance x else 0
  | ALiteTokenAccount x => if decide (AccountID32 (lta_TokenUrl x) = T) then lta_Balance x else 0
  | ATokenIssuer i => if decide (AccountID32 (ti_Url i) = T) then - Issued i else 0
  | _ => 0
  end.

(** All balances of a token less what was issued. *)
Definition excess (T : bytes) (m : state) : Z := map_fold (fun _ a s => ex T a + s) 0 m.

Definition ex_opt (T : bytes) (o : option Account) : Z := match o with Some a => ex T a | None => 0 end.

Lemma excess_insert (T : bytes) (m : state) i a :
  excess T (<[i := a]> m) = excess T m + (ex T a - ex_opt T (m !! i)).
Proof.
  unfold excess.
  assert (Hc : forall (m : state) i a, m !! i = None -> map_fold (fun _ a s => ex T a + s) 0 (<[i := a]> m)
    = ex T a + map_fold (fun _ a s => ex T a + s) 0 m).
  { intros n j b Hn. apply (map_fold_insert_L (fun _ a s => ex T a + s)); [intros; lia|done]. }
  rewrite <- insert_delete_eq, Hc by apply lookup_delete_eq.
  destruct (m !! i) as [b|] eqn:E; cbn [ex_opt].
  - rewrite <- (insert_delete_id m i b E) at 2. rewrite Hc by apply lookup_delete_eq. lia.
  - rewrite delete_id by done. lia.
Qed.

(** ** Storing one account *)

(** An account that may be stored: well formed, of the type and URL of the account it
    replaces, and not a book with other pages. *)
Definition fits (m : state) (a : Account) : Prop :=
  match m !! acc_id a with Some a0 => AccountType a0 = AccountType a /\ GetUrl a0 = GetUrl a | None => True end.
Definition keeps_pages (m : state) (a : Account) : Prop :=
  forall b, a = AKeyBook b -> exists b0, m !! acc_id a = Some (AKeyBook b0) /\ PageCount b0 = PageCount b.

Lemma evolves_put m a : fits m a -> evolves m (<[acc_id a := a]> m).
Proof.
  intros Hf id x Hx. destruct (decide (acc_id a = id)) as [<-|Hne].
  - unfold fits in Hf. rewrite Hx in Hf. exists a. rewrite lookup_insert_eq. destruct Hf. auto.
  - exists x. by rewrite lookup_insert_ne.
Qed.

Lemma wf_put m a : wf m -> wf_account a -> fits m a -> keeps_pages m a -> wf (<[acc_id a := a]> m).
Proof.
  intros [Hid Hac Hb] Ha Hf Hk. pose proof (evolves_put m a Hf) as He. split.
  - intros id x [[<- <-]|[_ Hx]]%lookup_insert_Some; eauto.
  - intros id x [[<- <-]|[_ Hx]]%lookup_insert_Some; eauto.
  - intros id b [[<- E]|[_ Hx]]%lookup_insert_Some; [|by apply (pages_mono m), (Hb id)].
    destruct (Hk b E) as (b0 & Hb0 & Ec). apply (pages_mono m); [done|].
    unfold fits in Hf. rewrite Hb0, E in Hf. destruct Hf as [_ Eu]. cbn in Eu.
    intros i Hi. rewrite <- Ec in Hi. destruct (Hb _ _ Hb0 i Hi) as (p & Hp). rewrite Eu in Hp. by exists p.
Qed.

(** What every step of an executor has to show about the accounts; [d] bounds what the
    step adds to the circulation of each token. *)
Definition fine (d : bytes -> Z) (m m' : state) : Prop :=
  wf m' /\ evolves m m' /\ forall T, excess T m' <= excess T m + d T.

Definition none (T : bytes) : Z := 0.

Lemma fine_refl m : wf m -> fine none m m.
Proof. intros Hw. split; [done|]. split; [done|]. intros T. unfold none. lia. Qed.

Lemma fine_weaken d d' m m' : fine d m m' -> (forall T, d T <= d' T) -> fine d' m m'.
Proof. intros (H1 & H2 & H3) H. split; [done|]. split; [done|]. intros T. specialize (H3 T). specialize (H T). lia. Qed.

Lemma fine_trans d1 d2 m1 m2 m3 : fine d1 m1 m2 -> fine d2 m2 m3 -> fine (fun T => d1 T + d2 T) m1 m3.
Proof.
  intros (_ & H1 & E1) (H2 & H3 & E2). split; [done|]. split; [by eapply evolves_trans|].
  intros T. specialize (E1 T). specialize (E2 T). lia.
Qed.

Lemma fine_trans_none m1 m2 m3 : fine none m1 m2 -> fine none m2 m3 -> fine none m1 m3.
Proof. intros H1 H2. eapply fine_weaken; [by eapply fine_trans|]. done. Qed.

Lemma fine_put m a : wf m -> wf_account a -> fits m a -> keeps_pages m a ->
  fine (fun T => ex T a - ex_opt T (m !! acc_id a)) m (<[acc_id a := a]> m).
Proof.
  intros. split; [by apply wf_put|]. split; [by apply evolves_put|]. intros T. by rewrite excess_insert.
Qed.

Definition acc (st : StateManager) : state := accounts (batch st).

Lemma Update_fine a st st' :
  Update [a] st = Ok st' -> Pretend st = false -> wf (acc st) -> wf_account a -> fits (acc st) a -> keeps_pages (acc st) a ->
  fine (fun T => ex T a - ex_opt T (acc st !! acc_id a)) (acc st) (acc st') /\ same_context st st'.
Proof.
  intros [Hc E]%Update_one Hpr Hw Ha Hf Hk. split; [|done]. unfold acc in *. rewrite E. unfold stored.
  rewrite Hpr. by apply fine_put.
Qed.

(** A changed copy of an account that is stored. *)
Lemma acc_id_changed m id a0 a : wf m -> m !! id = Some a0 -> GetUrl a0 = GetUrl a -> acc_id a = id.
Proof. intros Hw H0 Hu. unfold acc_id. rewrite <- Hu. by apply (wf_id _ Hw). Qed.

Lemma fits_changed m id a0 a :
  wf m -> m !! id = Some a0 -> AccountType a0 = AccountType a -> GetUrl a0 = GetUrl a -> fits m a.
Proof. intros Hw H0 Ht Hu. unfold fits. by rewrite (acc_id_changed m id a0 a Hw H0 Hu), H0. Qed.

Lemma not_book_pages m a : AccountType a <> 10 -> keeps_pages m a.
Proof. intros H b ->. done. Qed.

(** Storing a changed copy of the origin, which is not a book. *)
Lemma Update_changed a0 a id st st' :
  Update [a] st = Ok st' -> Pretend st = false -> wf (acc st) -> acc st !! id = Some a0 ->
  AccountType a0 = AccountType a -> GetUrl a0 = GetUrl a -> AccountType a <> 10 -> wf_account a ->
  fine (fun T => ex T a - ex T a0) (acc st) (acc st') /\ same_context st st'.
Proof.
  intros HU Hpr Hw H0 Ht Hu Hn Ha. apply (Update_fine a) in HU as [Hf Hc]; [|done..| |by apply not_book_pages].
  - split; [|done]. eapply fine_weaken; [exact Hf|]. intros T. cbv beta.
    by rewrite (acc_id_changed _ id a0 a Hw H0 Hu), H0.
  - by apply (fits_changed _ id a0).
Qed.

(** ** Loading *)

(** The cache agrees with the batch. *)
Definition cached (st : StateManager) : Prop :=
  forall id a, chains st !! id = Some a -> acc st !! id = Some a.

Lemma LoadUrl_ok u st a st' :
  cached st -> LoadUrl u st = Ok (a, st') ->
  acc st !! AccountID32 u = Some a /\ exists c, st' = set_chains c st /\ cached st'.
Proof.
  intros Hc H. unfold LoadUrl in H. destruct (chains st !! AccountID32 u) as [x|] eqn:Ex.
  - simplify_eq. split; [by apply Hc|]. exists (chains st'). split; [by destruct st'|done].
  - unfold GetState in H. destruct (accounts (batch st) !! AccountID32 u) as [x|] eqn:E; cbn in H; [|done].
    simplify_eq. split; [done|]. eexists. split; [done|]. intros id y.
    cbn [chains set_chains]. intros [[<- <-]|[_ Hy]]%lookup_insert_Some; [done|by apply Hc].
Qed.

Lemma LoadUrlAs_cached {A} (cast : Account -> option A) u st x st' :
  cached st -> LoadUrlAs cast u st = Ok (x, st') ->
  exists a c, cast a = Some x /\ acc st !! AccountID32 u = Some a /\ st' = set_chains c st /\ cached st'.
Proof.
  intros Hc H. unfold LoadUrlAs in H. inv_res. destruct v as [a st1]. apply LoadUrl_ok in Hv as (Ha & c & E & Hc'); [|done].
  destruct (cast a) eqn:Ea; [|done]. simplify_eq. by exists a, c.
Qed.

(** ** Creating accounts *)

Definition puts (l : list Account) (m : state) : state := foldl (fun m a => <[acc_id a := a]> m) m l.

Lemma AddDirectoryEntry_acc d l st st' :
  AddDirectoryEntry d l st = Ok st' -> acc st' = acc st /\ Pretend st' = Pretend st /\ State st' = State st /\ operations st' = operations st.
Proof. unfold AddDirectoryEntry. intros H. inv_res. by subst. Qed.

Lemma createOrUpdate1_create a st st' :
  createOrUpdate1 false a st = Ok st' ->
  acc st !! acc_id a = None /\ Pretend st' = Pretend st /\ ProducedTxns (State st') = ProducedTxns (State st) /\
  operations st' = operations st /\
  acc st' = if Pretend st then acc st else <[acc_id a := a]> (acc st).
Proof.
  unfold createOrUpdate1. cbn [negb]. destruct (AccountUrlMaxLength <? _); [done|].
  unfold acc_id, acc. case_bool_decide as Hex; [done|]. rewrite andb_false_r. cbn [andb].
  intros H. assert (Hn : accounts (batch st) !! AccountID32 (GetUrl a) = None) by (by apply eq_None_not_Some).
  destruct (Pretend st) eqn:Ep; [by injection H as <-|]. inv_res. apply wrapf_Ok in Hv. unfold PutState in Hv.
  destruct (negb _); [done|].
  assert (accounts v = <[AccountID32 (GetUrl a) := a]> (accounts (batch st))) as Ev.
  { destruct (GetAuth a) as [[[|]]|]; by simplify_eq. }
  apply wrapf_Ok, AddDirectoryEntry_acc in Hk as (Ea & Hp & Hs & Ho).
  destruct (AddChainEntry_context (GetUrl a) (txHash st) (set_batch v st)) as [Hcx Hac].
  unfold acc in Ea. rewrite Ea, Hac, Hs, Hp, Ho, (sc_pretend _ _ Hcx), (sc_produced _ _ Hcx), (sc_operations _ _ Hcx). cbn. by rewrite Ev.
Qed.

Lemma puts_lookup_ne l m id : (forall a, a ∈ l -> acc_id a <> id) -> puts l m !! id = m !! id.
Proof.
  revert m. induction l as [|a l IH]; intros m H; [done|]. cbn [puts foldl]. fold (puts l (<[acc_id a := a]> m)).
  rewrite IH by (intros b Hb; apply H; by right). rewrite lookup_insert_ne; [done|]. apply H. by left.
Qed.

Lemma puts_lookup l m a : NoDup (acc_id <$> l) -> a ∈ l -> puts l m !! acc_id a = Some a.
Proof.
  revert m. induction l as [|b l IH]; intros m Hn Ha; [by apply not_elem_of_nil in Ha|].
  rewrite fmap_cons, NoDup_cons in Hn. destruct Hn as [Hb Hn]. cbn [puts foldl]. fold (puts l (<[acc_id b := b]> m)).
  apply elem_of_cons in Ha as [->|Ha]; [|by apply IH].
  rewrite puts_lookup_ne, lookup_insert_eq; [done|]. intros c Hc E. apply Hb, list_elem_of_fmap. by exists c.
Qed.

Lemma Create_ok l : forall st st', Create l st = Ok st' ->
  Pretend st' = Pretend st /\ ProducedTxns (State st') = ProducedTxns (State st) /\ operations st' = operations st /\
  if Pretend st then acc st' = acc st
  else acc st' = puts l (acc st) /\ NoDup (acc_id <$> l) /\ forall a, a ∈ l -> acc st !! acc_id a = None.
Proof.
  unfold Create. induction l as [|a l IH]; intros st st' H; cbn [createOrUpdate] in H.
  { injection H as <-. split; [done|]. split; [done|]. split; [done|]. destruct (Pretend st); [done|]. split; [done|].
    split; [constructor|]. intros a Ha. by apply not_elem_of_nil in Ha. }
  inv_res. apply createOrUpdate1_create in Hv as (Hf & Hp & Hs & Ho & Ea). apply IH in Hk as (Hp' & Hs' & Ho' & E).
  rewrite Hp, Hs, Ho in *. split; [done|]. split; [done|]. split; [done|]. destruct (Pretend st); [congruence|].
  destruct E as (E & Hn & Hfr). rewrite Ea in E, Hfr. split; [done|]. rewrite fmap_cons. split.
  - constructor; [|done]. intros (b & Eb & Hb)%list_elem_of_fmap. specialize (Hfr b Hb).
    by rewrite <- Eb, lookup_insert_eq in Hfr.
  - intros b [->|Hb]%elem_of_cons; [done|]. specialize (Hfr b Hb). apply lookup_insert_None in Hfr. by destruct Hfr.
Qed.

(** Accounts created together: each well formed and without tokens, a book with its
    pages. *)
Definition family (l : list Account) : Prop :=
  Forall wf_account l /\ Forall (fun a => forall T, ex T a = 0) l /\
  forall b, AKeyBook b ∈ l -> forall i, 0 <= i < PageCount b ->
    exists p, AKeyPage p ∈ l /\ kpg_Url p = FormatKeyPageUrl (kb_Url b) i.

Lemma puts_Some l m id a : NoDup (acc_id <$> l) -> puts l m !! id = Some a ->
  (a ∈ l /\ id = acc_id a) \/ m !! id = Some a.
Proof.
  intros Hn H. destruct (decide (id ∈ acc_id <$> l)) as [(b & -> & Hb)%list_elem_of_fmap|Hni].
  - rewrite puts_lookup in H by done. simplify_eq. by left.
  - rewrite puts_lookup_ne in H; [by right|]. intros b Hb <-. apply Hni, list_elem_of_fmap. by exists b.
Qed.

Lemma excess_puts (T : bytes) l : forall m, NoDup (acc_id <$> l) -> (forall a, a ∈ l -> m !! acc_id a = None) ->
  Forall (fun a => forall T, ex T a = 0) l -> excess T (puts l m) = excess T m.
Proof.
  induction l as [|a l IH]; intros m Hn Hfr Hz; [done|]. rewrite fmap_cons, NoDup_cons in Hn. destruct Hn as [Ha Hn].
  apply Forall_cons in Hz as [Hza Hz]. cbn [puts foldl]. fold (puts l (<[acc_id a := a]> m)). rewrite IH; [|done| |done].
  - rewrite excess_insert, Hza, Hfr by left. cbn. lia.
  - intros b Hb. rewrite lookup_insert_ne; [apply Hfr; by right|]. intros E. apply Ha, list_elem_of_fmap. by exists b.
Qed.

Lemma Create_fine l st st' :
  Create l st = Ok st' -> Pretend st = false -> wf (acc st) -> family l ->
  fine none (acc st) (acc st') /\ ProducedTxns (State st') = ProducedTxns (State st) /\ operations st' = operations st.
Proof.
  intros (Hp & Hs & Ho & E)%Create_ok Hpr Hw (HF & Hz & Hb). split; [|done]. rewrite Hpr in E.
  destruct E as (-> & Hn & Hfr). rewrite Forall_forall in HF.
  assert (He : evolves (acc st) (puts l (acc st))).
  { intros id a Ha. exists a. rewrite puts_lookup_ne; [done|]. intros b Hbl <-. by rewrite Hfr in Ha. }
  split; [|split; [done|]]; cycle 1.
  { intros T. unfold none. rewrite excess_puts by done. lia. }
  split.
  - intros id a [[_ ->]|H]%puts_Some; [done| |done]. by apply (wf_id _ Hw).
  - intros id a [[H _]|H]%puts_Some; [by apply HF| |done]. by apply (wf_accounts _ Hw id).
  - intros id b [[H _]|H]%puts_Some; [| |done].
    + intros i Hi. destruct (Hb b H i Hi) as (p & Hp' & Eu). exists p.
      pose proof (puts_lookup l (acc st) (AKeyPage p) Hn Hp') as HL. unfold acc_id in HL. cbn in HL. by rewrite Eu in HL.
    + apply (pages_mono (acc st)); [done|]. by apply (wf_books _ Hw id).
Qed.

(** An account alone, not a book. *)
Lemma family_one a : AccountType a <> 10 -> wf_account a -> (forall T, ex T a = 0) -> family [a].
Proof.
  intros Ht Ha Hz. split; [by constructor|]. split; [by constructor|]. intros b Hb. exfalso. apply list_elem_of_singleton in Hb. by subst a.
Qed.

(** ** Authorities of a new account *)

Lemma GetAuth_set auth a : is_Some (GetAuth a) -> GetAuth (set_Auth auth a) = Some auth.
Proof. by destruct a; intros [? [=]]. Qed.

Lemma set_Auth_set x y a : set_Auth x (set_Auth y a) = set_Auth x a.
Proof. by destruct a. Qed.

Lemma set_Auth_same a : set_Auth (account_auth a) a = a.
Proof. by destruct a as [[]| |[]| | |[]| | | | |]. Qed.

Lemma account_auth_set auth a : is_Some (GetAuth a) -> account_auth (set_Auth auth a) = auth.
Proof. intros H. unfold account_auth. by rewrite GetAuth_set. Qed.

Lemma account_auth_wf a : wf_account a -> is_Some (GetAuth a) -> auth_ok (account_auth a).
Proof. destruct a; intros H [? [=]]; cbn in *; first [exact H|by destruct H]. Qed.

(** The accounts loaded are books; the others are not looked at. *)
Lemma SM_AddAuthority_ok account u st account' st' :
  SM_AddAuthority account u st = Ok (account', st') -> cached st -> is_Some (GetAuth account) ->
  auth_sorted (account_auth account) ->
  exists auth c, account' = set_Auth auth account /\ st' = set_chains c st /\ cached st' /\ auth_ok auth.
Proof.
  unfold SM_AddAuthority. intros H Hc Hs Ha. apply res_bind_Ok in H as (v & Hv & Hk).
  assert (exists c, v = set_chains c st /\ cached v) as (c & -> & Hc').
  { destruct (LocalTo (GetUrl account) u).
    - apply res_bind_Ok in Hv as ([b st1] & Hl & E). simplify_eq.
      apply wrapf_Ok, LoadUrlAs_cached in Hl as (x & c & _ & _ & -> & Hc'); [|done]. by exists c.
    - simplify_eq. exists (chains v). by destruct v. }
  destruct (AddAuthority_ok u (account_auth account) Ha) as (auth & new & E & Hs' & _ & _ & Hm).
  rewrite E in Hk. cbn [res_bind] in Hk. simplify_eq. exists auth, c. split; [done|]. split; [done|]. split; [done|].
  split; [done|]. intros En. assert (has_authority u auth) as (e & He & _) by (apply Hm; left; apply EqualFold_refl).
  rewrite En in He. by apply not_elem_of_nil in He.
Qed.

Lemma add_authorities_ok l : forall account st account' st',
  add_authorities account l st = Ok (account', st') -> cached st -> is_Some (GetAuth account) ->
  auth_sorted (account_auth account) -> l <> [] \/ auth_ok (account_auth account) ->
  exists auth c, account' = set_Auth auth account /\ st' = set_chains c st /\ cached st' /\ auth_ok auth.
Proof.
  induction l as [|[u|] l IH]; intros account st account' st' H Hc Hs Ha Hne; cbn [add_authorities] in H; [| |done].
  - simplify_eq. destruct Hne as [|Hok]; [done|]. exists (account_auth account'), (chains st').
    rewrite set_Auth_same. split; [done|]. split; [by destruct st'|done].
  - inv_res. destruct v as [acc1 st1]. apply SM_AddAuthority_ok in Hv as (auth & c & -> & -> & Hc' & Hok); [|done..].
    apply IH in Hk as (auth' & c' & -> & -> & Hc'' & Hok').
    + exists auth', c'. rewrite set_Auth_set. done.
    + done.
    + rewrite GetAuth_set; done.
    + rewrite account_auth_set by done. apply Hok.
    + right. by rewrite account_auth_set.
Qed.

Lemma SetAuth_ok account l st account' st' :
  SetAuth account l st = Ok (account', st') -> cached st -> is_Some (GetAuth account) ->
  auth_sorted (account_auth account) -> (forall a, Origin st = Some a -> wf_account a) ->
  exists auth c, account' = set_Auth auth account /\ st' = set_chains c st /\ cached st' /\ auth_ok auth.
Proof.
  unfold SetAuth. intros H Hc Hs Ha Ho. destruct l as [|x l]; [|by apply (add_authorities_ok (x :: l)) in H; auto].
  destruct (Authorities (account_auth account)) eqn:Ea.
  - inv_res. simplify_eq. unfold InheritAuth in Hv. destruct (negb _); [done|].
    destruct (Origin st') as [o|] eqn:Eo; cbn in Hv; [|done]. destruct (GetAuth o) as [auth|] eqn:Eg; [|done]. simplify_eq.
    exists auth, (chains st'). split; [done|]. split; [by destruct st'|]. split; [done|].
    pose proof (account_auth_wf o (Ho o eq_refl) (ex_intro _ auth Eg)) as Hw. unfold account_auth in Hw. by rewrite Eg in Hw.
  - simplify_eq. exists (account_auth account'), (chains st'). rewrite set_Auth_same. split; [done|].
    split; [by destruct st'|]. split; [done|]. split; [done|]. by rewrite Ea.
Qed.

(** ** What executing a transaction leaves behind *)

(** The bodies for which the state is kept well formed: amounts under way are not
    negative, token URLs are well formed, key pages are given books as delegates and keys
    that are not empty, and a created identity comes with its book's pages.  Every other
    body is unrestricted. *)
Definition body_ok (b : TransactionBody) : Prop :=
  match b with
  | UpdateKeyPage ops => Forall op_by_book ops
  | CreateKeyPage keys => Forall (fun k => KeyHash k <> []) keys
  | SyntheticCreateIdentity _ l => family l
  | CreateTokenAccount _ (Some t) _ _ => url_ok t = true
  | CreateToken b => forall u, ct_Url b = Some u -> url_ok u = true
  | SyntheticDepositTokens _ t x _ _ => url_ok t = true /\ 0 <= x
  | SyntheticBurnTokens _ x _ => 0 <= x
  | SyntheticDepositCredits _ _ (Some r) _ => 0 <= r
  | _ => True
  end.

(** A state manager as it is set up for executing a transaction. *)
Record ready (st : StateManager) : Prop := {
  rd_wf : wf (acc st);
  rd_origin : Origin st = acc st !! AccountID32 (OriginUrl st);
  rd_cached : cached st;
  rd_operations : operations st = [];
  rd_pretend : Pretend st = false;
  (** the token a lite address names has a well-formed URL *)
  rd_lite : forall k t, Lite.ParseLiteTokenAddress (OriginUrl st) = Ok (Some (k, t)) -> url_ok t = true;
  (** the identifiers of the principal and of its root identity do not collide *)
  rd_root : AccountID32 (RootIdentity (OriginUrl st)) = AccountID32 (OriginUrl st) -> IsRootIdentity (OriginUrl st) = true;
  (** the price of ACME keeps the conversion rate within an int64 *)
  rd_oracle : 0 <= CreditUnitsPerFiatUnit * oracle st < 2 ^ 63
}.

Definition op_ok (op : addDataEntry) : Prop :=
  forall a, liteStateRec op = Some a -> a = ALiteDataAccount (ade_url op).

(** The tokens a transaction under way carries: a deposit its amount, a burn what the
    issuer has not yet taken off, a deposit of credits the tokens it may refund. *)
Definition pend (T : bytes) (p : option URL * TransactionBody) : Z :=
  match snd p with
  | SyntheticDepositTokens _ t x _ _ => if decide (AccountID32 t = T) then x else 0
  | SyntheticBurnTokens _ x _ =>
      match fst p with Some u => if decide (AccountID32 u = T) then x else 0 | None => 0 end
  | SyntheticDepositCredits _ _ (Some r) _ => if decide (AccountID32 AcmeUrl = T) then r else 0
  | _ => 0
  end.

Definition pend_all (T : bytes) (l : list (option URL * TransactionBody)) : Z := foldr (fun p s => pend T p + s) 0 l.

(** A produced transaction: its body is well formed, and a deposit of newly issued tokens
    is of the token whose issuer is the principal. *)
Definition output_ok (origin : URL) (b : TransactionBody) : Prop :=
  body_ok b /\
  match b with SyntheticDepositTokens _ t _ true _ => AccountID32 t = AccountID32 origin | _ => True end.

Definition is_faucet (b : TransactionBody) : bool := match b with AcmeFaucet _ => true | _ => false end.

(** What a successful execution of [body] guarantees: a well-formed state, accounts that
    keep their type and URL, well-formed produced transactions, and no new tokens: the
    balances less the issued amounts, with what the produced transactions carry, are at
    most what they were with what the transaction carried. *)
Record post (body : TransactionBody) (st st' : StateManager) : Prop := {
  po_wf : wf (acc st');
  po_evolves : evolves (acc st) (acc st');
  po_outputs : exists l, ProducedTxns (State st') = ProducedTxns (State st) ++ l /\
    Forall (fun p => output_ok (OriginUrl st) (snd p)) l /\
    (is_faucet body = false ->
       forall T, excess T (acc st') + pend_all T l <= excess T (acc st) + pend T (Some (OriginUrl st), body));
  po_operations : Forall op_ok (operations st')
}.

(** The transaction stored accounts and produced [l]. *)
Lemma post_produced body d l st st' :
  ready st -> fine d (acc st) (acc st') -> ProducedTxns (State st') = ProducedTxns (State st) ++ l ->
  operations st' = operations st -> Forall (fun p => output_ok (OriginUrl st) (snd p)) l ->
  (is_faucet body = false -> forall T, d T + pend_all T l <= pend T (Some (OriginUrl st), body)) -> post body st st'.
Proof.
  intros Hr (H1 & H2 & H3) Hp Ho Hl Hd. split; [done|done| |].
  - exists l. split; [done|]. split; [done|]. intros Hf T. specialize (H3 T). specialize (Hd Hf T). lia.
  - rewrite Ho, (rd_operations _ Hr). constructor.
Qed.

(** It stored accounts and produced nothing. *)
Lemma post_update body st st' :
  fine none (acc st) (acc st') -> ProducedTxns (State st') = ProducedTxns (State st) -> operations st' = operations st ->
  ready st -> (forall T, pend T (Some (OriginUrl st), body) = 0) -> post body st st'.
Proof.
  intros Hf Hp Ho Hr H0. apply (post_produced body none []); try done; [by rewrite app_nil_r|].
  intros _ T. cbv beta. rewrite H0. done.
Qed.

Lemma ready_origin st a : ready st -> Origin st = Some a -> acc st !! AccountID32 (OriginUrl st) = Some a /\ wf_account a.
Proof.
  intros Hr Ho. rewrite (rd_origin _ Hr) in Ho. split; [done|]. by apply (wf_accounts _ (rd_wf _ Hr) _ _ Ho).
Qed.

(** Storing a changed origin that is not a book. *)
Lemma Update_origin a0 a st st1 st' :
  ready st -> Origin st = Some a0 -> acc st1 = acc st -> Pretend st1 = Pretend st -> Update [a] st1 = Ok st' ->
  AccountType a0 = AccountType a -> GetUrl a0 = GetUrl a -> AccountType a <> 10 -> wf_account a ->
  fine (fun T => ex T a - ex T a0) (acc st) (acc st') /\ same_context st1 st'.
Proof.
  intros Hr Ho E Ep HU Ht Hu Hn Ha. destruct (ready_origin st a0 Hr Ho) as [Hl _].
  rewrite <- E in Hl |- *. apply (Update_changed a0 a (AccountID32 (OriginUrl st))); try done.
  - rewrite Ep. apply Hr.
  - rewrite E. apply Hr.
Qed.

(** The same for a change that moves no tokens. *)
Lemma Update_origin_none a0 a st st1 st' :
  ready st -> Origin st = Some a0 -> acc st1 = acc st -> Pretend st1 = Pretend st -> Update [a] st1 = Ok st' ->
  AccountType a0 = AccountType a -> GetUrl a0 = GetUrl a -> AccountType a <> 10 -> wf_account a ->
  (forall T, ex T a = ex T a0) -> fine none (acc st) (acc st') /\ same_context st1 st'.
Proof.
  intros Hr Ho E Ep HU Ht Hu Hn Ha Hex. destruct (Update_origin a0 a st st1 st') as [Hf Hc]; try done. split; [|done].
  eapply fine_weaken; [exact Hf|]. intros T. cbv beta. rewrite Hex. unfold none. lia.
Qed.

Lemma token_origin_Some st a t b : token_origin st = Some (a, t, b) ->
  Origin st = Some a /\ AccountWithTokens a = Some (t, b).
Proof.
  unfold token_origin. destruct (Origin st) as [o|]; [|done]. destruct (AccountWithTokens o) as [[x y]|] eqn:E; cbn; [|done].
  intros [= <- <- <-]. done.
Qed.

Lemma set_Balance_wf x a t b :
  AccountWithTokens a = Some (t, b) -> wf_account a -> 0 <= x ->
  wf_account (set_Balance x a) /\ AccountType a = AccountType (set_Balance x a) /\
  GetUrl a = GetUrl (set_Balance x a) /\ AccountType (set_Balance x a) <> 10.
Proof.
  destruct a; try done; cbn; intros _ H Hx; (split; [|done]); [destruct H as (? & ? & ?)|destruct H]; by repeat split_and?.
Qed.

(** The circulation of a token account is its balance. *)
Lemma ex_tokens a t b : AccountWithTokens a = Some (t, b) -> forall T, ex T a = if decide (AccountID32 t = T) then b else 0.
Proof. by destruct a; try done; cbn; intros [= <- <-]. Qed.

Lemma ex_set_Balance x a t b : AccountWithTokens a = Some (t, b) ->
  forall T, ex T (set_Balance x a) = if decide (AccountID32 t = T) then x else 0.
Proof. by destruct a; try done; cbn; intros [= <- <-]. Qed.

Lemma DebitTokens_true m b b' : DebitTokens (Some m) b = (b', true) -> b' = b - m /\ 0 <= b'.
Proof.
  unfold DebitTokens, CanDebitTokens. destruct (Z.leb_spec m b); cbn; intros H1; simplify_eq. lia.
Qed.

Lemma wf_tokens a t b : AccountWithTokens a = Some (t, b) -> wf_account a -> 0 <= b /\ url_ok t = true.
Proof. destruct a; try done; cbn; intros [= <- <-] H; tauto. Qed.
