(* ===== verification/ExecuteInv.v ===== *)
(** * Every executor keeps the state well formed and creates no tokens

    One lemma per executor, and from them that executing any transaction, and committing
    it, keeps the state well formed, never deletes an account and never changes an
    account's type or URL, produces only transactions that keep it so as well, and adds
    nothing to the circulation of a token. *)

From stdpp Require Import sorting.
From S2P Require Import Prelude Sha256 Encoding Codec Receipt DataEntry SortUtil Url UrlProofs Accounts.
From S2P Require Import AccountsProofs AdiUrl KeyPages KeyPagesProofs StateManager Executors ExecutorProofs.
From S2P Require Import Creation WellFormed.
Local Open Scope Z_scope.
Import Url TxID.

(** ** The executors *)

(** Split the first step off a successful computation. *)
Tactic Notation "step" hyp(H) simple_intropattern(x) simple_intropattern(Hx) :=
  apply res_bind_Ok in H as (x & Hx & H).

(** What the deposits of a token carry. *)
Lemma pend_deposits T t flag to :
  pend_all T ((fun r => (rcp_Url r, SyntheticDepositTokens no_origin t (rcp_Amount r) flag false)) <$> to)
  = if decide (AccountID32 t = T) then amounts to else 0.
Proof.
  induction to as [|r to IH]; [by case_decide|]. rewrite fmap_cons. cbn [pend_all foldr].
  fold (pend_all T ((fun r => (rcp_Url r, SyntheticDepositTokens no_origin t (rcp_Amount r) flag false)) <$> to)).
  rewrite IH. unfold pend, amounts. cbn [snd]. rewrite fmap_cons. case_decide; simpl; lia.
Qed.

Lemma deposits_ok u t flag to : url_ok t = true -> Forall (fun r => 0 <= rcp_Amount r) to ->
  (flag = true -> AccountID32 t = AccountID32 u) ->
  Forall (fun p => output_ok u (snd p)) ((fun r => (rcp_Url r, SyntheticDepositTokens no_origin t (rcp_Amount r) flag false)) <$> to).
Proof. intros Ht HF Hi. apply Forall_fmap. eapply Forall_impl; [exact HF|]. intros r Hr. split; [by split|]. destruct flag; [by apply Hi|done]. Qed.

Lemma SendTokens_post to st st' : SendTokens_Validate (SendTokens to) st = Ok st' -> ready st -> post (SendTokens to) st st'.
Proof.
  intros H Hr. unfold SendTokens_Validate in H. destruct (token_origin st) as [[[a t] b]|] eqn:Eo;
    [|unfold invalid_principal in H; by destruct (Origin st)].
  apply token_origin_Some in Eo as [Eo Et]. destruct (ready_origin st a Hr Eo) as [_ Ha].
  step H total Htot. apply total_amount_ok in Htot as [-> HF].
  destruct (DebitTokens _ b) as [b' ok] eqn:Ed. destruct ok; [|done]. cbn [negb] in H.
  apply DebitTokens_true in Ed as [Eb Hb]. destruct (set_Balance_wf b' a t b Et Ha Hb) as (H1 & H2 & H3 & H4).
  step H st1 HU. step H st2 Hs. step H u Hl. injection H as <-.
  apply failed_Ok, (Update_origin a _ st) in HU as [Hf Hc]; try done.
  apply submit_deposits_ok in Hs as (_ & _ & HB & _ & HO & HP).
  eapply post_produced; [done|unfold acc in *; rewrite HB; exact Hf|by rewrite HP, (sc_produced _ _ Hc)|by rewrite HO, (sc_operations _ _ Hc)|..].
  - by apply deposits_ok; [apply (wf_tokens a t b)|..].
  - intros _ T. cbv beta. rewrite pend_deposits, (ex_set_Balance _ _ _ _ Et), (ex_tokens _ _ _ Et). cbn. case_decide; lia.
Qed.

Lemma Submit_ok u b st st' : Submit u b st = Ok st' ->
  exists v, u = Some v /\ st' = set_State (DidProduceTxn (Some v) b (State st)) st.
Proof. unfold Submit. destruct (IsSynthetic (txType st)); [done|]. destruct u as [v|]; [|done]. intros [= <-]. by exists v. Qed.

Lemma BurnTokens_post x st st' : BurnTokens_Validate (BurnTokens x) st = Ok st' -> ready st -> post (BurnTokens x) st st'.
Proof.
  intros H Hr. unfold BurnTokens_Validate in H. destruct (token_origin st) as [[[a t] b]|] eqn:Eo;
    [|unfold invalid_principal in H; by destruct (Origin st)].
  apply token_origin_Some in Eo as [Eo Et]. destruct (ready_origin st a Hr Eo) as [_ Ha].
  destruct (Z.ltb_spec x 0); [done|]. destruct (negb (CanDebitTokens _ _)); [done|].
  destruct (DebitTokens (Some x) b) as [b' ok] eqn:Ed. destruct ok; [|done]. cbn [negb] in H.
  apply DebitTokens_true in Ed as [Eb Hb]. destruct (set_Balance_wf b' a t b Et Ha Hb) as (H1 & H2 & H3 & H4).
  step H st1 HS. apply Submit_ok in HS as (v & Ev & ->). injection Ev as <-.
  apply failed_Ok, (Update_origin a _ st) in H as [Hf Hc]; try done.
  eapply post_produced; [done|exact Hf|by rewrite (sc_produced _ _ Hc)|by rewrite (sc_operations _ _ Hc)|by apply Forall_singleton|].
  intros _ T. cbv beta. rewrite (ex_set_Balance _ _ _ _ Et), (ex_tokens _ _ _ Et). unfold pend_all, pend. cbn. case_decide; lia.
Qed.

(** An issuer is stored under the identifier of its token. *)
Lemma issuer_id st i : ready st -> Origin st = Some (ATokenIssuer i) -> AccountID32 (ti_Url i) = AccountID32 (OriginUrl st).
Proof. intros Hr Ho. destruct (ready_origin st _ Hr Ho) as [Hl _]. exact (wf_id _ (rd_wf _ Hr) _ _ Hl). Qed.

Lemma IssueTokens_post r x to st st' :
  IssueTokens_Validate (IssueTokens r x to) st = Ok st' -> ready st -> post (IssueTokens r x to) st st'.
Proof.
  intros H Hr. unfold IssueTokens_Validate in H.
  destruct (Origin st) as [a|] eqn:Eo; [|unfold invalid_principal in H; by rewrite Eo in H].
  destruct a as [| |i| | | | | | | |]; try (unfold invalid_principal in H; by rewrite Eo in H).
  destruct (ready_origin st _ Hr Eo) as [_ (Hau & Hok0 & Hlim)].
  set (recipients := match r with Some _ => _ | None => to end) in H. destruct (existsb _ recipients); [done|].
  step H total Ht. apply total_amount_ok in Ht as [-> HF]. rewrite Z.add_0_l in H.
  destruct (Issue (amounts recipients) i) as [i' ok] eqn:Ei. destruct ok; [|done]. cbn [negb] in H.
  unfold Issue in Ei. injection Ei as Ei Hok. step H st1 HU.
  apply failed_Ok, (Update_origin (ATokenIssuer i) _ st) in HU as [Hf Hc]; try done; [| |].
  - apply submit_deposits_ok in H as (_ & _ & HB & _ & HO & HP).
    eapply post_produced; [done|unfold acc in *; rewrite HB; exact Hf|by rewrite HP, (sc_produced _ _ Hc)|by rewrite HO, (sc_operations _ _ Hc)|..].
    + apply deposits_ok; [by subst i'|done|]. intros _. subst i'. exact (issuer_id st i Hr Eo).
    + intros _ T. cbv beta. rewrite pend_deposits. subst i'. cbn. case_decide; lia.
  - by subst i'.
  - subst i'. cbn. split; [done|]. split; [done|]. intros l Hl. rewrite Hl in Hok. lia.
Qed.

Lemma SyntheticBurnTokens_post c x f st st' :
  SyntheticBurnTokens_Validate (SyntheticBurnTokens c x f) st = Ok st' -> ready st -> post (SyntheticBurnTokens c x f) st st'.
Proof.
  intros H Hr. unfold SyntheticBurnTokens_Validate in H.
  destruct (Origin st) as [a|] eqn:Eo; [|unfold invalid_principal in H; by rewrite Eo in H].
  destruct a as [| |i| | | | | | | |]; try (unfold invalid_principal in H; by rewrite Eo in H).
  destruct (ready_origin st _ Hr Eo) as [_ (Hau & Hok0 & Hlim)]. destruct (Z.ltb_spec x 0); [done|].
  apply failed_Ok, (Update_origin (ATokenIssuer i) _ st) in H as [Hf Hc]; try done.
  - eapply (post_produced _ _ []); [done|exact Hf|by rewrite (sc_produced _ _ Hc), app_nil_r|by rewrite (sc_operations _ _ Hc)|constructor|].
    intros _ T. cbv beta. unfold pend, pend_all. cbn. rewrite (issuer_id st i Hr Eo). case_decide; lia.
  - cbn. split; [done|]. split; [done|]. intros l Hl. specialize (Hlim l Hl). lia.
Qed.

(** *** Deposits and credits *)

Lemma fits_evolves m m' a : fits m a -> is_Some (m !! acc_id a) -> evolves m m' -> fits m' a.
Proof.
  intros Hf [a0 H0] He. unfold fits in *. rewrite H0 in Hf. destruct (He _ _ H0) as (a1 & -> & Ht & Hu).
  destruct Hf. split; congruence.
Qed.

Lemma Update_cons a l st st' : Update (a :: l) st = Ok st' -> exists st1, Update [a] st = Ok st1 /\ Update l st1 = Ok st'.
Proof.
  unfold Update. cbn [createOrUpdate]. intros H. step H st1 H1. exists st1. split; [|done]. by rewrite H1.
Qed.

Lemma LoadUrlAs_not_found {A} (cast : Account -> option A) u st e :
  LoadUrlAs cast u st = Err e -> is_not_found e = true -> acc st !! AccountID32 u = None.
Proof.
  unfold LoadUrlAs, LoadUrl, GetState, acc. intros H Hn. destruct (chains st !! AccountID32 u) as [a|]; cbn in H.
  - destruct (cast a); [done|]. injection H as <-. done.
  - destruct (accounts (batch st) !! AccountID32 u) as [a|]; cbn in H; [|done]. destruct (cast a); [done|].
    by injection H as <-.
Qed.

Lemma lite_not_root u k t : Lite.ParseLiteTokenAddress u = Ok (Some (k, t)) -> IsRootIdentity u = false.
Proof.
  unfold Lite.ParseLiteTokenAddress, IsRootIdentity. destruct (bytes_eqb (Path u) []); [done|]. cbn [orb].
  destruct (Z.eqb_spec (zlen (Path u)) 1) as [|Hl]; [done|]. intros _. apply not_true_iff_false. rewrite bytes_eqb_eq.
  intros E. by rewrite E in Hl.
Qed.

Lemma create_lite_fine token st a st' :
  create_lite token (OriginUrl st) st = Ok (a, st') -> ready st -> Origin st = None ->
  a = ALiteTokenAccount (mkLiteTokenAccount (OriginUrl st) token 0 0) /\ fine none (acc st) (acc st') /\
  acc st' !! AccountID32 (OriginUrl st) = None /\ Origin st' = None /\ Pretend st' = false /\
  ProducedTxns (State st') = ProducedTxns (State st) /\ operations st' = [].
Proof.
  intros H Hr Ho. unfold create_lite in H.
  destruct (Lite.ParseLiteTokenAddress (OriginUrl st)) as [[[k t]|]| |] eqn:Ep; try done.
  destruct (negb _); [done|]. step H st1 HL. step H st2 HD. simplify_eq. split; [done|].
  unfold AddDirectoryEntry in HD. apply failed_Ok in HD. inv_res. subst st'. cbn [State Origin operations set_batch Pretend].
  pose proof (rd_origin _ Hr) as Hro. rewrite Ho in Hro.
  destruct (LoadUrlAs as_LiteIdentity (RootIdentity (OriginUrl st)) st) as [[l st2]|e|] eqn:El; [| |done].
  - simplify_eq. apply LoadUrlAs_cached in El as (x & c & _ & _ & -> & _); [|apply Hr].
    split; [apply fine_refl, Hr|]. split; [done|]. split; [done|]. split; [apply Hr|]. split; [done|]. apply Hr.
  - destruct (is_not_found e) eqn:Ee; [|done]. pose proof (LoadUrlAs_not_found _ _ _ _ El Ee) as Hn.
    pose proof HL as HU. apply failed_Ok, Update_one in HU as [_ HS].
    apply failed_Ok, Update_fine in HL as [Hf Hc]; [|apply Hr|apply Hr|done| |by apply not_book_pages].
    + split; [eapply fine_weaken; [exact Hf|]; intros T; unfold acc_id; cbn; rewrite Hn; done|].
      split; [|rewrite (sc_origin _ _ Hc), (sc_produced _ _ Hc), (sc_operations _ _ Hc), (sc_pretend _ _ Hc);
                 split; [done|]; split; [apply Hr|]; split; [done|]; apply Hr].
      change (accounts (batch st1) !! AccountID32 (OriginUrl st) = None). rewrite HS. unfold stored.
      destruct (Pretend st); [done|]. apply lookup_insert_None. split; [done|]. cbn. intros E.
      apply (rd_root _ Hr) in E. by rewrite (lite_not_root _ _ _ Ep) in E.
    + unfold fits, acc_id. cbn. by rewrite Hn.
Qed.

Lemma CreditTokens_true m b b' : CreditTokens (Some m) b = (b', true) -> b' = b + m /\ 0 <= m.
Proof. unfold CreditTokens. destruct (Z.ltb_spec m 0); intros H1; simplify_eq. lia. Qed.

Lemma SyntheticDepositTokens_post c t x i r st st' :
  SyntheticDepositTokens_Validate (SyntheticDepositTokens c t x i r) st = Ok st' -> url_ok t = true -> ready st ->
  post (SyntheticDepositTokens c t x i r) st st'.
Proof.
  intros H Hut Hr. unfold SyntheticDepositTokens_Validate in H. step H [a st1] HO. destruct (x <? 0); [done|].
  destruct (CreditTokens _ _) as [b' ok] eqn:Ec. destruct ok; [|done]. cbn [negb] in H.
  apply CreditTokens_true in Ec as [-> Hx]. destruct (Origin st) as [o|] eqn:Eo.
  - destruct (ready_origin st o Hr Eo) as [_ Ha]. destruct (AccountWithTokens o) as [[t' b]|] eqn:Et; [|done].
    destruct (Equal (Some t') (Some t)) eqn:Eq; [|done]. cbn [negb] in HO. simplify_eq. rewrite Et, Eo in H.
    cbn [default fmap option_fmap option_map snd] in H.
    destruct (wf_tokens _ _ _ Et Ha) as [Hb Hut']. pose proof (Equal_AccountID _ _ Hut' Hut Eq) as Eid.
    destruct (set_Balance_wf (b + x) a t' b Et Ha ltac:(lia)) as (H1 & H2 & H3 & H4).
    apply failed_Ok, (Update_origin a _ st1) in H as [Hf Hc]; try done.
    eapply (post_produced _ _ []); [done|exact Hf|by rewrite (sc_produced _ _ Hc), app_nil_r|by rewrite (sc_operations _ _ Hc)|constructor|].
    intros _ T. cbv beta. rewrite (ex_set_Balance _ _ _ _ Et), (ex_tokens _ _ _ Et). unfold pend, pend_all. cbn. rewrite Eid. case_decide; lia.
  - apply create_lite_fine in HO as (-> & Hf & Hn & Ho & Hpr & Hp & Hops); [|done..]. rewrite Ho in H. cbn in H.
    apply failed_Ok, Update_fine in H as [Hf' Hc]; [|done|apply Hf|by split; [cbn; lia|]| |by apply not_book_pages].
    + eapply (post_produced _ _ []); [done|by eapply fine_trans|by rewrite (sc_produced _ _ Hc), Hp, app_nil_r| |constructor|].
      * rewrite (sc_operations _ _ Hc), Hops. symmetry. apply Hr.
      * intros _ T. cbv beta. unfold pend, pend_all, acc_id. cbn. rewrite Hn. unfold none. cbn. case_decide; lia.
    + unfold fits, acc_id. cbn. by rewrite Hn.
Qed.

(** Storing the system ledger that was loaded, with another total. *)
Lemma Update_ledger l v u st st' :
  Update [ASystemLedger (set_AcmeBurnt v l)] st = Ok st' -> Pretend st = false -> wf (acc st) ->
  acc st !! AccountID32 u = Some (ASystemLedger l) -> fine none (acc st) (acc st') /\ same_context st st'.
Proof. intros HU Hp Hw Hl. by apply (Update_changed (ASystemLedger l) (ASystemLedger (set_AcmeBurnt v l)) (AccountID32 u)). Qed.

Lemma as_SystemLedger_Some a l : as_SystemLedger a = Some l -> a = ASystemLedger l.
Proof. by destruct a; intros [= <-]. Qed.

(** An account found in a state is found in every later one, with the same circulation
    if it has none. *)
Lemma stored_none m m' id a0 a : wf m -> m !! id = Some a0 -> GetUrl a0 = GetUrl a -> evolves m m' ->
  (forall T x, AccountType x = AccountType a0 -> ex T x = 0) -> forall T, ex_opt T (m' !! acc_id a) = 0.
Proof.
  intros Hw H0 Hu He Hz T. rewrite (acc_id_changed m id a0 a Hw H0 Hu).
  destruct (He _ _ H0) as (x & -> & Ht & _). by apply Hz.
Qed.

Lemma SyntheticDepositCredits_post c x r f st st' :
  SyntheticDepositCredits_Validate (SyntheticDepositCredits c x r f) st = Ok st' ->
  body_ok (SyntheticDepositCredits c x r f) -> ready st -> post (SyntheticDepositCredits c x r f) st st'.
Proof.
  intros H Hbo Hr. unfold SyntheticDepositCredits_Validate in H. step H [a create] HO.
  assert (Ha : wf_account a /\ (AccountType a = 15 \/ AccountType a = 9) /\ if create then Origin st = None
    else exists a0, Origin st = Some a0 /\ AccountType a0 = AccountType a /\ GetUrl a0 = GetUrl a).
  { destruct (Origin st) as [o|] eqn:Eo.
    - destruct (ready_origin st o Hr Eo) as [_ Hwo]. destruct o; try done; simplify_eq; cbn in *.
      + split; [apply u64_range|]. split; [by left|]. by eexists.
      + split; [split; [by destruct Hwo as [[] _]|apply u64_range]|]. split; [by right|]. by eexists.
    - destruct (Lite.ParseLiteIdentity (OriginUrl st)) as [[k|]| |]; try done. simplify_eq. cbn.
      split; [apply u64_range|]. split; [by left|done]. }
  destruct Ha as (Hwa & Hty & Hcase). assert (Hex : forall y T, AccountType y = AccountType a -> ex T y = 0).
  { intros y T. by destruct Hty as [-> | ->]; destruct y. }
  step H [ledger st2] HL.
  apply LoadUrlAs_cached in HL as (y & ch & Hy & Hl & -> & _); [|destruct create; apply Hr].
  apply as_SystemLedger_Some in Hy as ->. step H st3 HU.
  set (st0 := if create then st else set_Origin a st) in *.
  assert (Hst : acc st0 = acc st /\ Pretend st0 = false /\ ProducedTxns (State st0) = ProducedTxns (State st) /\ operations st0 = operations st).
  { subst st0. destruct create; (split; [done|]; split; [apply Hr|done]). }
  destruct Hst as (Ea & Epr & Epp & Eop).
  assert (Hu : fine none (acc st) (acc st3) /\ Pretend st3 = false /\ ProducedTxns (State st3) = ProducedTxns (State st) /\ operations st3 = operations st).
  { destruct r as [v|].
    - apply (Update_ledger _ _ (ledgerUrl st0)) in HU as [Hf Hc]; [|done| |done].
      + unfold acc in Ea, Hf. cbn in Hf. rewrite Ea in Hf. split; [done|].
        rewrite (sc_produced _ _ Hc), (sc_operations _ _ Hc), (sc_pretend _ _ Hc). cbn. done.
      + change (wf (acc st0)). rewrite Ea. apply Hr.
    - simplify_eq. unfold acc in *. cbn. rewrite Ea. split; [apply fine_refl, Hr|done]. }
  destruct Hu as (Hf & Hpr3 & Hp & Hops). apply failed_Ok in H.
  assert (Hpend : forall T, 0 <= pend T (Some (OriginUrl st), SyntheticDepositCredits c x r f)).
  { intros T. unfold pend. cbn. destruct r; [|done]. cbn in Hbo. case_decide; lia. }
  assert (Hgoal : fine none (acc st3) (acc st') /\ ProducedTxns (State st') = ProducedTxns (State st3) /\ operations st' = operations st3).
  { destruct create.
    - apply Create_fine in H as (Hf' & Hp' & Hops'); [done|done|apply Hf|].
      apply family_one; [|done|intros T; by apply Hex]. by destruct Hty as [-> | ->].
    - destruct Hcase as (a0 & Ho & Ht & Hu). destruct (ready_origin st a0 Hr Ho) as [Hl0 _].
      assert (Hn10 : AccountType a <> 10) by (by destruct Hty as [-> | ->]).
      apply Update_fine in H as [Hf' Hc]; [|done|apply Hf|done| |by apply not_book_pages].
      + split; [|split; [apply (sc_produced _ _ Hc)|apply (sc_operations _ _ Hc)]].
        eapply fine_weaken; [exact Hf'|]. intros T. cbv beta. rewrite (Hex a T eq_refl).
        rewrite (stored_none (acc st) (acc st3) (AccountID32 (OriginUrl st)) a0 a); [done|apply Hr|done|done|apply Hf|].
        intros T' z Hz. apply Hex. congruence.
      + eapply fits_evolves; [apply (fits_changed _ (AccountID32 (OriginUrl st)) a0); [apply Hr|done..]| |apply Hf].
        exists a0. by rewrite (acc_id_changed _ (AccountID32 (OriginUrl st)) a0 a (rd_wf _ Hr) Hl0 Hu). }
  destruct Hgoal as (Hf' & Hp' & Hops').
  eapply (post_produced _ none []); [done|by eapply fine_trans_none|by rewrite Hp', Hp, app_nil_r|congruence|constructor|].
  intros _ T. cbv beta. specialize (Hpend T). unfold none, pend_all. cbn [foldr]. lia.
Qed.

Lemma AcmeUrl_ok : url_ok AcmeUrl = true.
Proof. vm_compute. reflexivity. Qed.

Lemma min_spend_nonneg price k :
  0 <= CreditUnitsPerFiatUnit * price < 2 ^ 63 ->
  big_Div (u64 (MinimumCreditPurchase * AcmeOraclePrecision * AcmePrecision)) (i64 (u64 (CreditUnitsPerFiatUnit * price))) = Ok k ->
  0 <= k.
Proof.
  intros Hp. rewrite (u64_small (CreditUnitsPerFiatUnit * price)), i64_small by (unfold is_i64, is_u64; lia). unfold big_Div.
  destruct (Z.eqb_spec (CreditUnitsPerFiatUnit * price) 0); [done|]. intros [= <-].
  destruct (Z.ltb_spec 0 (CreditUnitsPerFiatUnit * price)); [|lia]. apply Z.div_pos; [apply u64_range|done].
Qed.

Lemma AddCredits_post r x o st st' v :
  AddCredits_Validate (AddCredits r x o) st = Ok (v, st') -> ready st -> post (AddCredits r x o) st st'.
Proof.
  intros H Hr. unfold AddCredits_Validate in H. destruct r as [recipient|]; [|done].
  destruct (Z.leb_spec x 0); [done|]. destruct (o =? 0); [done|]. destruct (oracle st =? 0); [done|]. destruct (negb (o =? oracle st)); [done|].
  cbv zeta in H. step H minSpend Hm. destruct (Z.ltb_spec x minSpend); [done|]. step H credits Hcr. destruct (i64 credits =? 0); [done|].
  destruct (token_origin st) as [[[a t] b]|] eqn:Eo; [|done].
  apply token_origin_Some in Eo as [Eo Et]. destruct (ready_origin st a Hr Eo) as [Hla Ha].
  destruct (Equal (Some AcmeUrl) (Some t)) eqn:Eq; [|done]. cbn [negb] in H.
  destruct (wf_tokens _ _ _ Et Ha) as [_ Hut].
  destruct (DebitTokens (Some x) b) as [b' ok] eqn:Ed. destruct ok; [|done]. cbn [negb] in H.
  apply DebitTokens_true in Ed as [Eb Hb]. destruct (set_Balance_wf b' a t b Et Ha Hb) as (Hw1 & Hw2 & Hw3 & Hw4).
  step H rcp Hrc. step H st1 HS. apply Submit_ok in HS as (u & _ & ->). step H [ledger st2] HL.
  apply LoadUrlAs_cached in HL as (y & ch & Hy & Hl & -> & _); [|apply Hr]. apply as_SystemLedger_Some in Hy as ->.
  step H st3 HU. simplify_eq. apply failed_Ok, Update_cons in HU as (st4 & HU1 & HU2).
  apply (Update_origin a _ st) in HU1 as [Hf1 Hc1]; try done.
  assert (Hmin : 0 <= minSpend).
  { by apply (min_spend_nonneg _ _ (rd_oracle _ Hr)). }
  apply (Update_fine) in HU2 as [Hf2 Hc2]; [|rewrite (sc_pretend _ _ Hc1); apply Hr|apply Hf1|done| |by apply not_book_pages].
  - eapply post_produced; [done|by eapply fine_trans|by rewrite (sc_produced _ _ Hc2), (sc_produced _ _ Hc1)| | |].
    + by rewrite (sc_operations _ _ Hc2), (sc_operations _ _ Hc1).
    + apply Forall_singleton. split; [|done]. cbn. destruct (Z.ltb_spec minSpend x); [lia|done].
    + intros _ T. cbv beta. rewrite (ex_set_Balance _ _ _ _ Et), (ex_tokens _ _ _ Et).
      rewrite (stored_none (acc st) (acc st4) (AccountID32 (ledgerUrl st)) (ASystemLedger ledger)); [|apply Hr|done|done|apply Hf1|by intros ? []].
      cbn [ex]. rewrite <- (Equal_AccountID _ _ AcmeUrl_ok Hut Eq). unfold pend_all, pend. cbn [foldr snd]. destruct (Z.ltb_spec minSpend x); cbn; case_decide; lia.
  - eapply fits_evolves; [apply (fits_changed _ (AccountID32 (ledgerUrl st)) (ASystemLedger ledger)); [apply Hr|done..]| |apply Hf1].
    exists (ASystemLedger ledger). by rewrite (acc_id_changed _ (AccountID32 (ledgerUrl st)) (ASystemLedger ledger) _ (rd_wf _ Hr) Hl).
Qed.

(** *** Locks, keys and authorities *)

Lemma LockAccount_post h st st' : LockAccount_Validate (LockAccount h) st = Ok st' -> ready st -> post (LockAccount h) st st'.
Proof.
  intros H Hr. unfold LockAccount_Validate in H.
  destruct (Origin st) as [a|] eqn:Eo; [|unfold invalid_principal in H; by rewrite Eo in H].
  destruct a as [|a| | | | | | | | |]; try done. destruct (ready_origin st _ Hr Eo) as [_ Ha].
  step H a' Hl. apply wrapf_Ok in Hl. unfold SetLockHeight in Hl. destruct (h <? LockHeight a); [done|]. simplify_eq.
  apply wrapf_Ok, (Update_origin_none (ALiteTokenAccount a) _ st) in H as [Hf Hc]; try done.
  by apply post_update; [|apply (sc_produced _ _ Hc)|apply (sc_operations _ _ Hc)|..].
Qed.

Lemma as_KeyBook_Some a b : as_KeyBook a = Some b -> a = AKeyBook b.
Proof. by destruct a; intros [= <-]. Qed.

Lemma keeps_Ok P p r : keeps P r -> r = Ok p -> P p.
Proof. by intros H ->. Qed.

(** The operations do not touch the URL and the credits of a page. *)
Definition same_page (p p' : KeyPage) : Prop :=
  kpg_Url p' = kpg_Url p /\ kpg_CreditBalance p' = kpg_CreditBalance p.

Lemma AddKeySpec_page k p p' : AddKeySpec k p = Ok p' -> same_page p p'.
Proof. unfold AddKeySpec. intros H. step H [[l i] n] Hi. by injection H as <-. Qed.

Lemma updateKey_page p auth old new b p' : updateKey p auth old new b = Ok p' -> same_page p p'.
Proof.
  unfold updateKey. intros H. destruct (IsEmpty new); [done|]. step H u1 H1. step H o H2. destruct o as [i|]; [|done].
  step H n H3. destruct (_ && _); [done|]. step H e H4. cbv zeta in H. step H q H5.
  unfold RemoveKeySpecAt in H5. step H5 l H6. injection H5 as <-. by apply AddKeySpec_page in H.
Qed.

Lemma executeOperation_page op p auth p' : executeOperation p auth op = Ok p' -> same_page p p'.
Proof.
  destruct op as [s|s|old new|m|al de]; cbn [executeOperation]; intros H.
  - destruct (IsEmpty s); [done|]. step H u Hu. step H r Hr. destruct r; [done|]. by apply AddKeySpec_page in H.
  - step H r Hr. destruct r as [i|]; [|done]. destruct (ParseKeyPageUrl (kpg_Url p)) as [[bk n]|]; [|done].
    destruct (_ && _); [done|]. step H q Hq. unfold RemoveKeySpecAt in Hq. step Hq l Hl. injection Hq as <-.
    destruct (_ <? _); by injection H as <-.
  - by apply updateKey_page in H.
  - unfold SetThreshold in H. destruct (_ && _); [by injection H as <-|]. by destruct (m =? 0).
  - step H v Hv. step H w Hw. by injection H as <-.
Qed.

Lemma same_page_trans p q r : same_page p q -> same_page q r -> same_page p r.
Proof. intros [] []. split; congruence. Qed.

Lemma executeOperations_same ops : forall p auth p', executeOperations p auth ops = Ok p' -> same_page p p'.
Proof.
  induction ops as [|op ops IH]; intros p auth p' H; cbn [executeOperations] in H; [by injection H as <-|].
  step H q Hq. apply executeOperation_page in Hq. apply IH in H. by eapply same_page_trans.
Qed.

(** Storing a changed page. *)
Lemma page_post body p p' st st1 st' :
  ready st -> (forall T, pend T (Some (OriginUrl st), body) = 0) -> Origin st = Some (AKeyPage p) -> Update [AKeyPage p'] st1 = Ok st' -> acc st1 = acc st -> Pretend st1 = Pretend st ->
  State st1 = State st -> operations st1 = operations st -> same_page p p' -> page_inv p' -> post body st st'.
Proof.
  intros Hr Hpd Ho HU Ea Epr Es Eo [Hu Hcr] Hi. destruct (ready_origin st _ Hr Ho) as [_ [_ Hc]].
  apply (Update_origin_none (AKeyPage p) _ st) in HU as [Hf Hx]; try done.
  - apply post_update; [done|by rewrite (sc_produced _ _ Hx), Es|by rewrite (sc_operations _ _ Hx)|done..].
  - split; [done|]. by rewrite Hcr.
Qed.

(** The book of a page, as it is loaded. *)
Lemma load_book u st b st1 :
  ready st -> LoadUrlAs as_KeyBook u st = Ok (b, st1) -> auth_ok (kb_AccountAuth b) /\ exists c, st1 = set_chains c st.
Proof.
  intros Hr (a & c & Ha & Hl & -> & _)%LoadUrlAs_cached; [|apply Hr]. apply as_KeyBook_Some in Ha as ->.
  apply (wf_accounts _ (rd_wf _ Hr)) in Hl as [Hok _]. split; [done|]. by exists c.
Qed.

Lemma UpdateKeyPage_post ops st st' :
  UpdateKeyPage_Validate (UpdateKeyPage ops) st = Ok st' -> Forall op_by_book ops -> ready st -> post (UpdateKeyPage ops) st st'.
Proof.
  intros H Hops Hr. unfold UpdateKeyPage_Validate in H.
  destruct (Origin st) as [a|] eqn:Eo; [|unfold invalid_principal in H; by rewrite Eo in H].
  destruct a as [| | | |p| | | | | |]; try (unfold invalid_principal in H; by rewrite Eo in H).
  destruct (ParseKeyPageUrl (OriginUrl st)) as [[bu n]|]; [|done].
  destruct (LoadUrlAs as_KeyBook bu st) as [[book st1]| |] eqn:El; [|done|done].
  apply load_book in El as [[Hs _] [c ->]]; [|done]. destruct (BookType book =? BookTypeValidator); [done|].
  step H p' Hp. apply failed_Ok in H. destruct (ready_origin st _ Hr Eo) as [_ [Hi _]].
  pose proof (keeps_Ok _ _ _ (executeOperations_page ops p (kb_AccountAuth book) Hi Hs Hops) Hp) as Hi'.
  apply (page_post (UpdateKeyPage ops) p _ _ _ _ Hr ltac:(done) Eo H); try done; [|by apply didUpdateKeyPage_inv].
  by apply executeOperations_same in Hp.
Qed.

Lemma UpdateKey_post i k st st' : UpdateKey_Execute i (UpdateKey k) st = Ok st' -> ready st -> post (UpdateKey k) st st'.
Proof.
  intros H Hr. unfold UpdateKey_Execute, UpdateKey_validate in H. step H [[[k' p] book] st1] Hv. step Hv u1 H1.
  destruct (Origin st) as [a|] eqn:Eo; [|unfold invalid_principal in Hv; by rewrite Eo in Hv].
  destruct a as [| | | |p0| | | | | |]; try (unfold invalid_principal in Hv; by rewrite Eo in Hv).
  destruct (ParseKeyPageUrl (OriginUrl st)) as [[bu n]|]; [|done]. step Hv [b2 st2] El.
  apply failed_Ok, load_book in El as [[Hs _] [c ->]]; [|done]. destruct (BookType b2 =? BookTypeValidator); [done|]. simplify_eq.
  destruct i as [i|]; [|done]. step H p' Hp. apply failed_Ok in H. destruct (ready_origin st _ Hr Eo) as [_ [Hi _]].
  assert (exists old, updateKey p (kb_AccountAuth book) old (mkParams k' None) true = Ok p') as [old Hup].
  { destruct i as [h|d w|]; [by eexists| |done]. destruct (updateKey _ _ _ _ _) eqn:Eu; [| |done]; destruct w; try done.
    cbn [negb] in Hp. rewrite Hp in Eu. by eexists. }
  apply (page_post (UpdateKey k') p p' _ _ _ Hr ltac:(done) Eo H); try done; [by apply updateKey_page in Hup|].
  eapply keeps_Ok; [|exact Hup]. apply updateKey_inv; [done|done|]. by intros u Hu.
Qed.

Lemma ex_set_Auth T auth a : ex T (set_Auth auth a) = ex T a.
Proof. by destruct a. Qed.

Lemma UpdateAccountAuth_post ops st st' :
  UpdateAccountAuth_Validate (UpdateAccountAuth ops) st = Ok st' -> ready st -> post (UpdateAccountAuth ops) st st'.
Proof.
  intros H Hr. unfold UpdateAccountAuth_Validate in H. destruct (Origin st) as [a|] eqn:Eo; [|done].
  destruct (ready_origin st _ Hr Eo) as [Hl Ha]. destruct (GetAuth a) as [auth|] eqn:Eg; [|done]. cbv zeta in H.
  step H auth' Hau. apply wrapf_Ok in H.
  pose proof (account_auth_wf a Ha (ex_intro _ auth Eg)) as [Hs Hne]. unfold account_auth in Hs, Hne. rewrite Eg in Hs, Hne.
  cbn in Hs, Hne.
  pose proof (authOperations_ok (fun u => bool_decide (is_Some (accounts (batch st) !! AccountID32 u))) (GetUrl a) ops auth Hs Hne) as Hok.
  rewrite Hau in Hok. apply Update_fine in H as [Hf Hc].
  - apply post_update; [|apply (sc_produced _ _ Hc)|apply (sc_operations _ _ Hc)|done..].
    eapply fine_weaken; [exact Hf|]. intros T. cbv beta. rewrite ex_set_Auth.
    rewrite (acc_id_changed (acc st) _ a (set_Auth auth' a) (rd_wf _ Hr) Hl) by (by destruct a).
    unfold acc in *. cbn [batch set_Origin]. rewrite Hl. unfold none. cbn [ex_opt]. lia.
  - apply Hr.
  - apply Hr.
  - destruct a; try done; cbn in *; [by destruct Ha|by destruct Ha|by destruct Ha].
  - apply (fits_changed _ (AccountID32 (OriginUrl st)) a); [apply Hr|done|by destruct a|by destruct a].
  - intros b Eb. exists (match a with AKeyBook x => x | _ => b end). destruct a; try done. cbn in Eb. injection Eb as <-.
    split; [|done]. pose proof (wf_id _ (rd_wf _ Hr) _ _ Hl) as E. unfold acc_id in *. cbn in *. rewrite E. exact Hl.
Qed.

(** *** Creation *)

Lemma sorted_nil_auth : auth_sorted (mkAuth []).
Proof. constructor. Qed.

Lemma origin_wf st : ready st -> forall a, Origin st = Some a -> wf_account a.
Proof. intros Hr a Ho. by apply (ready_origin st a Hr Ho). Qed.

(** A new account, not a book, with its authorities set. *)
Lemma new_account_post body account l st account' st1 st' :
  ready st -> (forall T, pend T (Some (OriginUrl st), body) = 0) -> (forall auth T, ex T (set_Auth auth account) = 0) -> SetAuth account l st = Ok (account', st1) -> Create [account'] st1 = Ok st' ->
  GetAuth account = Some (mkAuth []) -> AccountType account <> 10 ->
  (forall auth, auth_ok auth -> wf_account (set_Auth auth account)) -> post body st st'.
Proof.
  intros Hr Hpd Hz HS HC Hg Ht Hw. apply SetAuth_ok in HS as (auth & c & -> & -> & _ & Ha); [|apply Hr|by eexists| |by apply origin_wf].
  - apply Create_fine in HC as (Hf & Hp & Ho); [by apply post_update|apply Hr|apply Hr|].
    apply family_one; [by destruct account|by apply Hw|done].
  - unfold account_auth. rewrite Hg. apply sorted_nil_auth.
Qed.

Lemma CreateTokenAccount_post u t l p st st' :
  CreateTokenAccount_Validate (CreateTokenAccount u t l p) st = Ok st' -> body_ok (CreateTokenAccount u t l p) -> ready st -> post (CreateTokenAccount u t l p) st st'.
Proof.
  intros H Hbo Hr. unfold CreateTokenAccount_Validate in H. step H v Hv. destruct t as [t|]; [|done].
  step H x Hx. cbv zeta in H. step H [a st1] HS. apply wrapf_Ok in HS, H.
  eapply new_account_post; [done|done| |exact HS|exact H|done|done|]; [intros au T; cbn; by case_decide|]. intros auth Ha. cbn in Hbo. by repeat split_and?.
Qed.

Lemma CreateDataAccount_post u l st st' :
  CreateDataAccount_Validate (CreateDataAccount u l) st = Ok st' -> ready st -> post (CreateDataAccount u l) st st'.
Proof.
  intros H Hr. unfold CreateDataAccount_Validate in H. step H v Hv. step H [a st1] HS. apply wrapf_Ok in H.
  eapply new_account_post; [done|done| |exact HS|exact H|done..]. done.
Qed.

Lemma CreateToken_post b st st' : CreateToken_Validate (CreateToken b) st = Ok st' -> body_ok (CreateToken b) -> ready st -> post (CreateToken b) st st'.
Proof.
  intros H Hbo Hr. unfold CreateToken_Validate in H. step H v Hv. destruct (18 <? ct_Precision b); [done|].
  destruct (match ct_SupplyLimit b with Some l => l <? 0 | None => false end) eqn:El; [done|]. cbv zeta in H.
  step H [a st1] HS. apply wrapf_Ok in H. eapply new_account_post; [done|done| |exact HS|exact H|done|done|]; [intros au T; cbn; by case_decide|].
  intros auth Ha. split; [done|]. split; [|cbn; intros l Hl; rewrite Hl in El; lia].
  unfold check_create in Hv. destruct (ct_Url b) as [w|] eqn:Eu; [|done]. step Hv x Hx. step Hv y Hy. injection Hv as <-. by apply Hbo.
Qed.

Lemma keys_inv_nil : keys_inv [].
Proof. split; constructor. Qed.

Lemma keys_inv_one k : filled k -> by_book (Delegate k) -> keys_inv [k].
Proof. intros Hf Hb. split; [by apply SSorted_cons; constructor|by apply SSorted_cons; constructor|by apply Forall_singleton|by apply Forall_singleton]. Qed.

Lemma no_delegate : by_book None.
Proof. by intros u Hu. Qed.

(** A book with one page, and that page. *)
Lemma family_book l b p :
  Forall wf_account l -> Forall (fun a => forall T, ex T a = 0) l -> (forall x, AKeyBook x ∈ l -> x = b) -> PageCount b = 1 -> AKeyPage p ∈ l ->
  kpg_Url p = FormatKeyPageUrl (kb_Url b) 0 -> family l.
Proof.
  intros HF Hz Hb Hc Hp Hu. split; [done|]. split; [done|]. intros x Hx i Hi. apply Hb in Hx as ->. assert (i = 0) as -> by lia. by exists p.
Qed.

Lemma CreateKeyBook_post u h l st st' :
  CreateKeyBook_Validate (CreateKeyBook u h l) st = Ok st' -> ready st -> post (CreateKeyBook u h l) st st'.
Proof.
  intros H Hr. unfold CreateKeyBook_Validate in H. step H v Hv. step H x Hx. step H [auth new] Ha. step H [a st1] HS.
  cbv zeta in H. apply wrapf_Ok in H.
  destruct (AddAuthority_ok v (mkAuth []) sorted_nil_auth) as (auth' & new' & E & Hs & _). rewrite Ha in E. injection E as <- <-.
  apply SetAuth_ok in HS as (auth2 & c & -> & -> & _ & Hok); [|apply Hr|by eexists|done|by apply origin_wf].
  apply Create_fine in H as (Hf & Hp & Ho); [by apply post_update|apply Hr|apply Hr|].
  cbn [set_Auth kb_Url BookType PageCount].
  apply (family_book _ (mkKeyBook v 0 auth2 1) (mkKeyPage (FormatKeyPageUrl v 0) 0 0 1 [mkKeySpec h 0 None] None)); try done.
  - constructor; [by split|]. constructor; [|constructor]. split; [|done]. split; [|cbn; unfold zlen; simpl; lia].
    apply keys_inv_one; [|apply no_delegate]. left. cbn. intros ->. done.
  - by repeat constructor.
  - intros y [E|[E|Hy]%elem_of_cons]%elem_of_cons; [by injection E|done|by apply not_elem_of_nil in Hy].
  - right. left.
Qed.

(** The keys given are distinct and not empty. *)
Lemma check_unique_ok keys : forall m, check_unique keys m = Ok tt -> Forall (fun k => KeyHash k <> []) keys ->
  NoDup (KeyHash <$> keys) /\ forall k, k ∈ keys -> KeyHash k ∉ m.
Proof.
  induction keys as [|k keys IH]; intros m H HF; cbn [check_unique] in H.
  { split; [constructor|]. intros k Hk. by apply not_elem_of_nil in Hk. }
  apply Forall_cons in HF as [Hk HF]. destruct (Z.eqb_spec (zlen (KeyHash k)) 0) as [E|_].
  { destruct Hk. by destruct (KeyHash k). }
  destruct (zlen (KeyHash k) =? 32); [|done]. case_bool_decide as Hm; [done|]. apply IH in H as [Hn Hout]; [|done].
  rewrite fmap_cons. split.
  - constructor; [|done]. intros (x & E & Hx)%list_elem_of_fmap. apply (Hout x Hx). rewrite <- E. set_solver.
  - intros x [->|Hx]%elem_of_cons; [done|]. specialize (Hout x Hx). set_solver.
Qed.

(** [AddKeySpec] of the keys of a new page. *)
Lemma add_key_specs_ok keys : forall p p', add_key_specs keys p = Ok p' ->
  Forall (fun k => KeyHash k <> []) keys -> NoDup (KeyHash <$> keys) -> keys_inv (Keys p) ->
  (forall x, x ∈ Keys p -> PublicKeyHash x ∉ KeyHash <$> keys) ->
  keys_inv (Keys p') /\ zlen (Keys p') = zlen (Keys p) + zlen keys /\ AcceptThreshold p' = AcceptThreshold p /\ same_page p p'.
Proof.
  induction keys as [|k keys IH]; intros p p' H HF Hn Hi Hout; cbn [add_key_specs] in H.
  { injection H as <-. split; [done|]. split; [unfold zlen; simpl; lia|]. done. }
  apply Forall_cons in HF as [Hk HF]. rewrite fmap_cons, NoDup_cons in Hn. destruct Hn as [Hnk Hn]. step H q Hq.
  destruct (AddKeySpec_fresh (mkKeySpec (KeyHash k) 0 None) p Hi) as (l & E & Hl & Hel & Hz).
  - intros x Hx Hh. cbn [PublicKeyHash] in Hh. destruct (Hout x Hx). rewrite fmap_cons, Hh. left.
  - by left.
  - apply no_delegate.
  - rewrite E in Hq. injection Hq as <-. apply IH in H as (H1 & H2 & H3 & H4); [|done|done|done|].
    + split; [done|]. split; [|done]. cbn [set_Keys Keys] in H2. rewrite zlen_cons. lia.
    + cbn [set_Keys Keys]. intros x Hx. destruct (Hel x Hx) as [->|Hx']; [done|]. intros Hin. apply (Hout x Hx').
      rewrite fmap_cons. by right.
Qed.

Lemma u64_le z : 0 <= z -> u64 z <= z.
Proof. intros H. unfold u64. by apply Z.mod_le. Qed.

Lemma CreateKeyPage_post keys st st' :
  CreateKeyPage_Validate (CreateKeyPage keys) st = Ok st' -> Forall (fun k => KeyHash k <> []) keys -> ready st -> post (CreateKeyPage keys) st st'.
Proof.
  intros H HF Hr. unfold CreateKeyPage_Validate in H. destruct (Origin st) as [a|] eqn:Eo; [|done].
  destruct a as [| | | | |b| | | | |]; try done. destruct (ready_origin st _ Hr Eo) as [Hl [Hau Hpc]].
  pose proof (wf_id _ (rd_wf _ Hr) _ _ Hl) as Eid. unfold acc_id in Eid. cbn in Eid.
  destruct (Z.eqb_spec (zlen keys) 0) as [|Hne]; [done|]. step H u Hu. destruct u. apply check_unique_ok in Hu as [Hn _]; [|done].
  cbv zeta in H. step H page Hp.
  apply add_key_specs_ok in Hp as (Hi & Hz & Ht & Hpu & Hpc0); [|done|done|apply keys_inv_nil|by intros x ?%not_elem_of_nil].
  cbn in Hz, Ht, Hpu, Hpc0. step H st1 HU. apply wrapf_Ok in HU, H.
  set (b' := mkKeyBook _ _ _ _) in HU. apply Update_one in HU as [Hc Hacc]. cbn [stored] in Hacc. unfold stored in Hacc. cbn in Hacc.
  apply Create_ok in H as (Hp1 & Hs1 & Ho1 & Hcr). apply post_update; [|by rewrite Hs1, (sc_produced _ _ Hc)|by rewrite Ho1, (sc_operations _ _ Hc)|done..].
  rewrite (sc_pretend _ _ Hc) in Hcr. cbn in Hcr. unfold acc in *. rewrite (rd_pretend _ Hr) in Hcr, Hacc.
  destruct Hcr as (Hm & _ & Hfr). rewrite Hm, Hacc. rewrite Hacc in Hfr.
  specialize (Hfr (AKeyPage page) ltac:(left)). cbn [puts foldl]. rewrite Eid in *.
  set (m := accounts (batch st)) in *. set (m1 := <[_ := AKeyBook b']> m) in *.
  assert (He1 : evolves m m1).
  { intros id x Hx. subst m1. destruct (decide (AccountID32 (OriginUrl st) = id)) as [<-|Hni].
    - exists (AKeyBook b'). rewrite lookup_insert_eq. rewrite Hl in Hx. by injection Hx as <-.
    - exists x. by rewrite lookup_insert_ne. }
  assert (He2 : evolves m1 (<[acc_id (AKeyPage page) := AKeyPage page]> m1)).
  { apply evolves_put. unfold fits. by rewrite Hfr. }
  split; [|split; [by eapply evolves_trans|intros T; rewrite excess_insert, Hfr; subst m1; rewrite excess_insert, Hl; unfold none; cbn; lia]].
  pose proof (rd_wf _ Hr) as Hw. fold m in Hw. split.
  - intros id x [[<- <-]|[_ [[<- <-]|[_ Hx]]%lookup_insert_Some]]%lookup_insert_Some; [done|by unfold acc_id|by apply (wf_id _ Hw)].
  - intros id x [[<- <-]|[_ [[<- <-]|[_ Hx]]%lookup_insert_Some]]%lookup_insert_Some.
    + split; [|by rewrite Hpc0]. split; [done|]. rewrite Ht, Hz. unfold zlen at 1. simpl. pose proof (zlen_nonneg keys). lia.
    + split; [done|]. apply u64_range.
    + by apply (wf_accounts _ Hw id).
  - intros id x [[_ E]|[_ [[_ E]|[_ Hx]]%lookup_insert_Some]]%lookup_insert_Some; [done| |].
    + injection E as <-. intros i Hi'. subst b'. cbn [PageCount kb_Url] in *. pose proof (u64_le (PageCount b + 1) ltac:(lia)).
      destruct (decide (i = PageCount b)) as [->|Hni].
      * exists page. unfold acc_id. cbn [GetUrl]. rewrite Hpu. apply lookup_insert_eq.
      * assert (Hpin : pages_in m b) by (by apply (wf_books _ Hw (AccountID32 (OriginUrl st)))).
        by apply (pages_mono m _ b (evolves_trans _ _ _ He1 He2) Hpin); lia.
    + apply (pages_mono m); [by eapply evolves_trans|]. by apply (wf_books _ Hw id).
Qed.

(** *** Identities *)

Section Identity.
Context `{UnicodeTables}.

(** The identity's account is complete once its authorities are set. *)
Lemma new_key_book_ok u b h id others :
  new_key_book u b h = Ok (id, others) -> exists auth, id = AADI u auth /\ auth_sorted auth /\
    forall auth', auth_ok auth' -> family (AADI u auth' :: others).
Proof.
  unfold new_key_book. intros Hn. destruct (Z.eqb_spec (zlen h) 0) as [|Hz]; [done|]. step Hn x Hx.
  step Hn [a1 n1] H1. step Hn [a2 n2] H2. destruct (negb _); [done|]. step Hn page Hp. injection Hn as <- <-.
  destruct (AddAuthority_ok b (mkAuth []) sorted_nil_auth) as (auth & new & E & Hs & _ & _ & Hm). rewrite H1 in H2. rewrite H1 in E.
  injection E as <- <-. injection H2 as <- <-. exists a1. split; [done|]. split; [done|]. intros auth' Ha'.
  destruct (AddKeySpec_fresh (mkKeySpec h 0 None) (mkKeyPage (FormatKeyPageUrl b 0) 0 1 1 [] None)) as (l & El & Hl & _ & Hzl).
  - apply keys_inv_nil.
  - by intros y ?%not_elem_of_nil.
  - left. cbn. by intros ->.
  - apply no_delegate.
  - rewrite El in Hp. injection Hp as <-.
    apply (family_book _ (mkKeyBook b 0 a1 1) (set_Keys l (mkKeyPage (FormatKeyPageUrl b 0) 0 1 1 [] None))); try done.
    + constructor; [done|]. constructor; [|constructor; [|constructor]].
      * split; [|done]. split; [done|]. intros En.
        assert (has_authority b a1) as (e & He & _) by (apply Hm; left; apply EqualFold_refl).
        cbn in En. rewrite En in He. by apply not_elem_of_nil in He.
      * split; [|done]. split; [done|]. change (zlen l = 1) in Hzl. cbn [set_Keys Keys AcceptThreshold]. rewrite Hzl. lia.
    + by repeat constructor.
    + intros y [E|[E|[E|Hy]%elem_of_cons]%elem_of_cons]%elem_of_cons; try done; [by injection E|by apply not_elem_of_nil in Hy].
    + right. right. left.
Qed.

Lemma CreateIdentity_post u h b l st st' :
  CreateIdentity_Validate (CreateIdentity u h b l) st = Ok st' -> ready st -> post (CreateIdentity u h b l) st st'.
Proof.
  intros Hv Hr. unfold CreateIdentity_Validate in Hv. destruct u as [u|]; [|done]. step Hv x Hx. step Hv y Hy.
  destruct (_ && _ && _); [done|]. destruct (IsValidAdiUrl u false); [|done|done]. step Hv [id others] Hid.
  assert (exists auth, id = AADI u auth /\ auth_sorted auth /\ forall auth', auth_ok auth' -> family (AADI u auth' :: others))
    as (auth & -> & Hs & Hfam).
  { destruct b as [b|]; [by apply new_key_book_ok in Hid|]. injection Hid as <- <-. exists (mkAuth []). split; [done|].
    split; [apply sorted_nil_auth|]. intros auth' Ha'. by apply family_one. }
  step Hv [id' st1] HS. apply SetAuth_ok in HS as (auth2 & c & -> & -> & _ & Hok); [|apply Hr|by eexists|done|by apply origin_wf].
  specialize (Hfam auth2 Hok). cbn [set_Auth] in Hv. destruct (negb (LocalTo _ _)).
  - apply Submit_ok in Hv as (v & _ & ->).
    eapply post_produced; [done|apply fine_refl, Hr|done|done|by apply Forall_singleton|done].
  - apply failed_Ok, Create_fine in Hv as (Hf & Hp & Ho); [by apply post_update|apply Hr|apply Hr|done].
Qed.

End Identity.

Lemma LoadUrl_chains u st a st' : LoadUrl u st = Ok (a, st') -> exists c, st' = set_chains c st.
Proof.
  unfold LoadUrl. destruct (chains st !! AccountID32 u); intros Hl.
  - injection Hl as <- <-. exists (chains st). by destruct st.
  - step Hl x Hx. injection Hl as <- <-. by eexists.
Qed.

Lemma check_books_chains u l : forall st st', check_books u l st = Ok st' -> exists c, st' = set_chains c st.
Proof.
  induction l as [|a l IH]; intros st st' H; cbn [check_books] in H; [injection H as <-; exists (chains st); by destruct st|].
  destruct (negb _); [by apply IH|]. step H [b st1] Hl. apply failed_Ok in Hl. unfold LoadUrlAs in Hl. step Hl [x st2] Hx.
  destruct (as_KeyBook x); [|done]. injection Hl as <- <-. apply LoadUrl_chains in Hx as [c ->].
  apply IH in H as [c' ->]. by exists c'.
Qed.

(** Checking what was created only loads accounts. *)
Lemma check_created_chains l : forall st st', check_created l st = Ok st' -> exists c, st' = set_chains c st.
Proof.
  induction l as [|a l IH]; intros st st' H; cbn [check_created] in H; [injection H as <-; exists (chains st); by destruct st|].
  step H [r st1] H1. apply failed_Ok, LoadUrl_chains in H1 as [c1 ->]. step H st2 H2.
  assert (exists c, st2 = set_chains c (set_chains c1 st)) as [c2 ->].
  { assert (forall s, Ok s = Ok st2 -> exists c, st2 = set_chains c s) as Hok by (intros s [= <-]; exists (chains s); by destruct s).
    destruct r; try by apply Hok. all: step H2 [y s] Hy; apply failed_Ok, LoadUrl_chains in Hy as [c2 ->]; injection H2 as <-; by exists c2. }
  step H st3 H3.
  assert (exists c, st3 = set_chains c st) as [c3 ->].
  { destruct (GetAuth r) as [[[|e es]]|]; [done| |injection H3 as <-; by exists c2].
    apply check_books_chains in H3 as [c3 ->]. by exists c3. }
  apply IH in H as [c4 ->]. by exists c4.
Qed.

Lemma SyntheticCreateIdentity_post c l st st' :
  SyntheticCreateIdentity_Validate (SyntheticCreateIdentity c l) st = Ok st' -> family l -> ready st -> post (SyntheticCreateIdentity c l) st st'.
Proof.
  intros H Hl Hr. unfold SyntheticCreateIdentity_Validate in H. destruct c as [[c|] i f]; [|done].
  destruct (Create l st) as [st1|e|] eqn:Ec; [|step H x Hx; done|done].
  apply check_created_chains in H as [ch ->]. apply Create_fine in Ec as (Hf & Hp & Ho); [|apply Hr|apply Hr|done].
  by apply post_update.
Qed.

(** *** Lite accounts, the faucet and data *)

Lemma CreateLiteTokenAccount_post st st' :
  CreateLiteTokenAccount_Validate CreateLiteTokenAccount st = Ok st' -> ready st -> post CreateLiteTokenAccount st st'.
Proof.
  intros H Hr. unfold CreateLiteTokenAccount_Validate in H.
  destruct (Lite.ParseLiteTokenAddress (OriginUrl st)) as [[[k t]|]| |] eqn:Ep; try done. destruct (negb _); [done|].
  step H st1 HC. pose proof HC as (Hpr & _)%wrapf_Ok%Create_ok. rewrite (rd_pretend _ Hr) in Hpr.
  apply wrapf_Ok, Create_fine in HC as (Hf & Hp & Ho); [|apply Hr|apply Hr|]; cycle 1.
  { apply family_one; [done|by split; [|apply (rd_lite _ Hr k)]|]. intros T. cbn. by case_decide. }
  destruct (accounts (batch st1) !! _) as [a|].
  - destruct a; try done. injection H as <-. by apply post_update.
  - apply wrapf_Ok, Create_fine in H as (Hf' & Hp' & Ho'); [|done|apply Hf|by apply family_one].
    apply post_update; [by eapply fine_trans_none|congruence|congruence|done..].
Qed.

(** The faucet account is debited, and a deposit of as much ACME is produced. *)
Lemma AcmeFaucet_ok FaucetUrl u st st' :
  AcmeFaucet_Validate FaucetUrl (AcmeFaucet u) st = Ok st' -> ready st ->
  exists f v, acc st !! AccountID32 FaucetUrl = Some (ALiteTokenAccount f) /\
    fine (fun T => if decide (AccountID32 (lta_TokenUrl f) = T) then - (AcmeFaucetAmount * AcmePrecision) else 0) (acc st) (acc st') /\
    ProducedTxns (State st') = ProducedTxns (State st) ++ [(v, SyntheticDepositTokens no_origin AcmeUrl (AcmeFaucetAmount * AcmePrecision) false false)] /\
    operations st' = operations st.
Proof.
  intros H Hr. unfold AcmeFaucet_Validate in H. destruct u as [u|]; [|done]. step H st1 H1.
  assert (exists c, st1 = set_chains c st /\ cached st1) as (c & -> & Hc1).
  { unfold check_faucet_recipient in H1. destruct (LoadUrlAs as_LiteTokenAccount u st) as [[a s]|e|] eqn:El; [| |done].
    - apply LoadUrlAs_cached in El as (x & c & _ & _ & -> & Hc); [|apply Hr]. destruct (negb _); [done|]. injection H1 as <-. by exists c.
    - destruct (is_not_found e); [|done]. destruct (Lite.ParseLiteTokenAddress u) as [[[k t]|]| |]; try done.
      destruct (negb _); [done|]. injection H1 as <-. exists (chains st). split; [by destruct st|apply Hr]. }
  destruct (LoadUrlAs as_LiteTokenAccount FaucetUrl (set_chains c st)) as [[f s]|e|] eqn:El; [|done|done].
  apply LoadUrlAs_cached in El as (x & c' & Hx & Hl & -> & _); [|done]. destruct x as [|x| | | | | | | | |]; try done.
  cbn in Hx. injection Hx as ->. cbv zeta in H. destruct (DebitTokens _ _) as [b' ok] eqn:Ed. destruct ok; [|done]. cbn [negb] in H.
  apply DebitTokens_true in Ed as [E Hb]. step H st2 HU. apply Submit_ok in H as (v & _ & ->).
  apply (wf_accounts _ (rd_wf _ Hr)) in Hl as Hwf. destruct Hwf as [_ Hut].
  apply failed_Ok, (Update_changed (ALiteTokenAccount f) _ (AccountID32 FaucetUrl)) in HU as [Hf Hc]; try done; [|apply Hr..].
  exists f, (Some v). split; [done|]. split; [|split; [cbn; by rewrite (sc_produced _ _ Hc)|cbn; by rewrite (sc_operations _ _ Hc)]].
  change (u64 (AcmeFaucetAmount * AcmePrecision)) with (AcmeFaucetAmount * AcmePrecision) in E.
  eapply fine_weaken; [exact Hf|]. intros T. subst b'. cbn [ex lta_TokenUrl lta_Balance]. case_decide; lia.
Qed.

Lemma AcmeFaucet_post FaucetUrl u st st' :
  AcmeFaucet_Validate FaucetUrl (AcmeFaucet u) st = Ok st' -> ready st -> post (AcmeFaucet u) st st'.
Proof.
  intros H Hr. destruct (AcmeFaucet_ok _ _ _ _ H Hr) as (f & v & _ & Hf & Hp & Ho).
  eapply post_produced; [done|exact Hf|exact Hp|exact Ho| |done].
  apply Forall_singleton. split; [split; [apply AcmeUrl_ok|done]|done].
Qed.

(** When the faucet account holds ACME, what it loses is what the deposit carries. *)
Lemma AcmeFaucet_tokens FaucetUrl u st st' :
  AcmeFaucet_Validate FaucetUrl (AcmeFaucet u) st = Ok st' -> ready st ->
  (forall f, acc st !! AccountID32 FaucetUrl = Some (ALiteTokenAccount f) -> AccountID32 (lta_TokenUrl f) = AccountID32 AcmeUrl) ->
  exists l, ProducedTxns (State st') = ProducedTxns (State st) ++ l /\
    forall T, excess T (acc st') + pend_all T l <= excess T (acc st).
Proof.
  intros H Hr Hacme. destruct (AcmeFaucet_ok _ _ _ _ H Hr) as (f & v & Hl & (_ & _ & Hf) & Hp & _).
  eexists. split; [exact Hp|]. intros T. specialize (Hf T). cbv beta in Hf. rewrite (Hacme f Hl) in Hf.
  unfold pend_all, pend. cbn [foldr snd]. case_decide; lia.
Qed.

Lemma UpdateData_post body r h e st st1 :
  post body st st1 -> post body st (UpdateData r h e st1).
Proof.
  intros [Hw Hev Ho Hop]. split; [done|done|done|]. unfold UpdateData. cbn [operations set_operations].
  apply Forall_app. split; [done|]. apply Forall_singleton. unfold op_ok. cbn. intros a. by destruct r; intros [= <-].
Qed.

(** The bodies that neither carry nor move tokens. *)
Definition idle (body : TransactionBody) : Prop := forall u T, pend T (u, body) = 0.

Lemma ready_post body st : idle body -> ready st -> post body st st.
Proof. intros Hi Hr. apply post_update; [apply fine_refl, Hr|done|done|done|]. intros T. apply Hi. Qed.

Lemma executeWriteLiteDataAccount_post body e st v st' :
  executeWriteLiteDataAccount e st = Ok (v, st') -> idle body -> ready st -> post body st st'.
Proof.
  intros H Hi Hr. unfold executeWriteLiteDataAccount in H. pose proof (ready_post body st Hi Hr) as Hp.
  destruct (Origin st) as [a|].
  - destruct a; try done. step H i Hid. step H h Hh. injection H as _ <-. by apply UpdateData_post.
  - destruct (Lite.ParseLiteDataAddress (OriginUrl st)); [|done|done]. cbv zeta in H. step H u Hu. destruct (negb _); [done|].
    step H h Hh. injection H as _ <-. by apply UpdateData_post.
Qed.

Lemma executeWriteFullDataAccount_post body e sc w st v st' :
  executeWriteFullDataAccount e sc w st = Ok (v, st') -> idle body -> ready st -> post body st st'.
Proof.
  intros H Hi Hr. unfold executeWriteFullDataAccount in H. destruct (Origin st) as [a|] eqn:Eo; [|done].
  destruct (ready_origin st _ Hr Eo) as [_ Ha]. destruct a; try done. destruct (w && sc); [done|]. cbv zeta in H.
  step H st1 HU. step H h Hh. injection H as _ <-. apply UpdateData_post. destruct w; [|injection HU as <-; by apply ready_post].
  apply wrapf_Ok, (Update_origin_none (ADataAccount u auth entry) _ st) in HU as [Hf Hc]; try done.
  by apply post_update; [|apply (sc_produced _ _ Hc)|apply (sc_operations _ _ Hc)|..].
Qed.

Lemma WriteData_post e sc w st v st' : WriteData_Validate (WriteData e sc w) st = Ok (v, st') -> ready st -> post (WriteData e sc w) st st'.
Proof.
  intros H Hr. unfold WriteData_Validate in H. destruct e as [e|]; [|done]. step H n Hn.
  destruct (Lite.ParseLiteDataAddress (OriginUrl st)); [destruct w; [done|]| |done].
  - by eapply executeWriteLiteDataAccount_post.
  - by eapply executeWriteFullDataAccount_post.
Qed.

Lemma WriteDataTo_post r e st st' : WriteDataTo_Validate (WriteDataTo r e) st = Ok st' -> ready st -> post (WriteDataTo r e) st st'.
Proof.
  intros H Hr. unfold WriteDataTo_Validate in H. destruct r as [r|]; [|done]. destruct e as [e|]; [|done].
  destruct (Lite.ParseLiteDataAddress r); [|done|done]. apply Submit_ok in H as (v & _ & ->).
  eapply post_produced; [done|apply fine_refl, Hr|done|done|by apply Forall_singleton|done].
Qed.

Lemma SystemWriteData_post e w st v st' :
  SystemWriteData_Validate (SystemWriteData e w) st = Ok (v, st') -> ready st -> post (SystemWriteData e w) st st'.
Proof.
  intros H Hr. unfold SystemWriteData_Validate in H. destruct (ParsePartitionUrl (OriginUrl st)); [|done].
  destruct (negb _); [done|]. by eapply executeWriteFullDataAccount_post.
Qed.

Lemma SyntheticWriteData_post o e st v st' :
  SyntheticWriteData_Validate (SyntheticWriteData o e) st = Ok (v, st') -> ready st -> post (SyntheticWriteData o e) st st'.
Proof. intros H Hr. by eapply executeWriteLiteDataAccount_post. Qed.

(** ** Any transaction *)

Lemma without_result_Ok {A} (r : res (A * StateManager)) st : without_result r = Ok st -> exists v, r = Ok (v, st).
Proof. unfold without_result. intros H. step H [v s] Hv. injection H as <-. by exists v. Qed.

Create HintDb executors.
#[global] Hint Resolve SendTokens_post IssueTokens_post BurnTokens_post LockAccount_post UpdateAccountAuth_post
  SyntheticDepositCredits_post SyntheticBurnTokens_post CreateIdentity_post CreateTokenAccount_post
  CreateDataAccount_post WriteDataTo_post AcmeFaucet_post CreateToken_post CreateLiteTokenAccount_post
  CreateKeyPage_post CreateKeyBook_post UpdateKey_post UpdateKeyPage_post SyntheticCreateIdentity_post
  AddCredits_post WriteData_post SyntheticWriteData_post SystemWriteData_post : executors.

Lemma Execute_post `{UnicodeTables} FaucetUrl init body st st' :
  Execute FaucetUrl init body st = Ok st' -> body_ok body -> ready st -> post body st st'.
Proof.
  intros HE Hb Hr. destruct body; cbn [Execute] in HE;
    try (apply without_result_Ok in HE as [v HE]); eauto with executors.
  destruct Hb. by eapply SyntheticDepositTokens_post.
Qed.

(** ** The commit *)

Lemma addDataEntry_Execute_fine op st st' :
  addDataEntry_Execute op st = Ok st' -> op_ok op -> wf (acc st) ->
  fine none (acc st) (acc st') /\ ProducedTxns (State st') = ProducedTxns (State st).
Proof.
  intros H Hop Hw. unfold addDataEntry_Execute in H. step H b Hb. injection H as <-.
  destruct (AddChainEntry_context (ade_url op) (txHash st)
    (set_batch (Data_Put (ade_url op) (ade_hash op) (txHash st) b) st)) as [Hc Ha].
  rewrite (sc_produced _ _ Hc). split; [|done]. unfold acc in *. rewrite Ha. cbn.
  assert (b = batch st -> fine none (accounts (batch st)) (accounts b)) as Hsame by (intros ->; by apply fine_refl).
  destruct (liteStateRec op) as [a|] eqn:El; [|injection Hb as <-; by apply Hsame].
  unfold GetState in Hb. destruct (accounts (batch st) !! AccountID32 (ade_url op)) eqn:Eg; [injection Hb as <-; by apply Hsame|].
  cbn in Hb. apply Hop in El as ->. unfold PutState in Hb. destruct (negb _); [done|]. cbn in Hb. injection Hb as <-.
  eapply fine_weaken; [apply (fine_put _ (ALiteDataAccount (ade_url op))); [done|done| |by apply not_book_pages]|].
  - unfold fits, acc_id. cbn. by rewrite Eg.
  - intros T. cbv beta. unfold acc_id. cbn. by rewrite Eg.
Qed.

Lemma run_operations_fine ops : forall st st',
  run_operations ops st = Ok st' -> Forall op_ok ops -> wf (acc st) ->
  fine none (acc st) (acc st') /\ ProducedTxns (State st') = ProducedTxns (State st).
Proof.
  induction ops as [|op ops IH]; intros st st' H HF Hw; cbn [run_operations] in H.
  { injection H as <-. split; [by apply fine_refl|done]. }
  apply Forall_cons in HF as [Hop HF]. step H st1 H1. apply addDataEntry_Execute_fine in H1 as [Hf Hp]; [|done|done].
  apply IH in H as [Hf' Hp']; [|done|apply Hf]. split; [by eapply fine_trans_none|congruence].
Qed.

Lemma Commit_fine `{UnicodeTables} st b s :
  Commit st = Ok (b, s) -> Forall op_ok (operations st) -> wf (acc st) ->
  fine none (acc st) (accounts b) /\ ProducedTxns s = ProducedTxns (State st).
Proof.
  unfold Commit. intros HC HF Hw. step HC st1 H1. apply run_operations_fine in H1 as [Hf Hp]; [|done|done].
  step HC b1 Hb. unfold Batch_Commit in Hb. step Hb u Hu. injection Hb as <-. injection HC as <- <-. done.
Qed.
