(* ===== verification/Signatures.v ===== *)
(** * Signatures and signers: [protocol/signature.go], [authority.go], [keys.go],
      [network_def.go], [factoid.go], [transaction.go] (the signers of a status),
      [internal/core/network_signer.go]

    The signature types, who signed, and the accounts that can sign.  URLs of a
    signature are present.  The marshalled form of a signature, the hash functions other
    than SHA-256 and the verification of a signature with a public key are arguments. *)

From S2P Require Import Prelude Sha256 Encoding Codec MerkleState Receipt Hasher SortUtil Url UrlProofs Accounts AdiUrl KeyPages StateManager.
Local Open Scope Z_scope.
Import Url TxID.

(** ** Signatures *)

Definition SignatureTypeLegacyED25519 : Z := 1.
Definition SignatureTypeED25519 : Z := 2.
Definition SignatureTypeRCD1 : Z := 3.
Definition SignatureTypeReceipt : Z := 4.
Definition SignatureTypePartition : Z := 5.
Definition SignatureTypeSet : Z := 6.
Definition SignatureTypeRemote : Z := 7.
Definition SignatureTypeBTC : Z := 8.
Definition SignatureTypeBTCLegacy : Z := 9.
Definition SignatureTypeETH : Z := 10.
Definition SignatureTypeDelegated : Z := 11.
Definition SignatureTypeInternal : Z := 12.

(** The six signatures with a key have the same fields. *)
Inductive KeySigType := KLegacyED25519 | KED25519 | KRCD1 | KBTC | KBTCLegacy | KETH.

Record KeySignature := mkKeySig {
  key_Type : KeySigType; PublicKey : bytes; SigBytes : bytes; key_Signer : URL; SignerVersion : Z;
  Timestamp : Z; key_Vote : Z; key_TransactionHash : bytes }.

Inductive Signature :=
  | SKey (k : KeySignature)
  | SReceipt (SourceNetwork : URL) (proof : Receipt) (TransactionHash : bytes)
  | SPartition (SourceNetwork DestinationNetwork : URL) (SequenceNumber : Z) (TransactionHash : bytes)
  | SSet (Vote : Z) (Signer : URL) (TransactionHash : bytes) (Signatures : list Signature)
  | SRemote (Destination : URL) (s : Signature)
  | SDelegated (s : Signature) (Delegator : URL)
  | SInternal (Cause TransactionHash : bytes).

Definition SignatureType (s : Signature) : Z :=
  match s with
  | SKey k =>
      match key_Type k with
      | KLegacyED25519 => SignatureTypeLegacyED25519
      | KED25519 => SignatureTypeED25519
      | KRCD1 => SignatureTypeRCD1
      | KBTC => SignatureTypeBTC
      | KBTCLegacy => SignatureTypeBTCLegacy
      | KETH => SignatureTypeETH
      end
  | SReceipt _ _ _ => SignatureTypeReceipt
  | SPartition _ _ _ _ => SignatureTypePartition
  | SSet _ _ _ _ => SignatureTypeSet
  | SRemote _ _ => SignatureTypeRemote
  | SDelegated _ _ => SignatureTypeDelegated
  | SInternal _ _ => SignatureTypeInternal
  end.

Definition IsSystemSig (t : Z) : bool :=
  (t =? SignatureTypePartition) || (t =? SignatureTypeReceipt) || (t =? SignatureTypeInternal).

Fixpoint GetSigner (s : Signature) : res URL :=
  match s with
  | SKey k => Ok (key_Signer k)
  | SReceipt _ _ _ => Panic "a receipt signature does not have a signer"
  | SPartition _ _ _ _ => Panic "a synthetic signature does not have a signer"
  | SSet _ u _ _ => Ok u
  | SRemote _ s | SDelegated s _ => GetSigner s
  | SInternal _ _ => Panic "a receipt signature does not have a signer"
  end.

Fixpoint RoutingLocation (s : Signature) : res URL :=
  match s with
  | SKey k => Ok (key_Signer k)
  | SReceipt _ _ _ | SInternal _ _ => Panic "a receipt signature does not have a routing location"
  | SPartition _ d _ _ => Ok d
  | SSet _ u _ _ => Ok u
  | SRemote d _ => Ok d
  | SDelegated s _ => RoutingLocation s
  end.

Definition zero_hash : bytes := replicate 32 Byte.x00.

(** The metadata clears the signature and, except for the BTC and ETH signatures, the
    transaction hash. *)
Definition key_Metadata (k : KeySignature) : KeySignature :=
  let h := match key_Type k with
           | KLegacyED25519 | KED25519 | KRCD1 => zero_hash
           | KBTC | KBTCLegacy | KETH => key_TransactionHash k
           end in
  mkKeySig (key_Type k) (PublicKey k) [] (key_Signer k) (SignerVersion k) (Timestamp k) (key_Vote k) h.

Fixpoint Metadata (s : Signature) : res Signature :=
  match s with
  | SKey k => Ok (SKey (key_Metadata k))
  | SReceipt src p _ => Ok (SReceipt src p zero_hash)
  | SPartition src dst n _ => Ok (SPartition src dst n zero_hash)
  | SInternal c _ => Ok (SInternal c zero_hash)
  | SDelegated s d => let! m := Metadata s in Ok (SDelegated m d)
  | SSet _ _ _ _ | SRemote _ _ => Panic "not supported"
  end.

Definition ErrCannotInitiate {A} : res A :=
  errors_new StatusBadRequest "signature cannot initiate a transaction: values are missing".

Fixpoint Initiator_hasher (s : Signature) : res Hasher :=
  match s with
  | SKey k =>
      if (zlen (PublicKey k) =? 0) || (SignerVersion k =? 0) || (Timestamp k =? 0) then ErrCannotInitiate
      else Ok (AddUint (AddUint (hasher_append (AddBytes [] (PublicKey k)) (URL_String (key_Signer k))) (SignerVersion k)) (Timestamp k))
  | SDelegated s d => let! h := Initiator_hasher s in Ok (hasher_append h (URL_String d))
  | SReceipt _ _ _ => errorf "a receipt signature cannot initiate a transaction"
  | SPartition _ _ _ _ => errors_new StatusBadRequest "use of the initiator hash for a synthetic signature is not supported"
  | SInternal _ _ => errors_new StatusBadRequest "use of the initiator hash for an internal signature is not supported"
  | SSet _ _ _ _ | SRemote _ _ => errorf "cannot initate a transaction"
  end.

Fixpoint unpackSignature (s : Signature) : list Signature :=
  match s with
  | SSet _ _ _ l => mbind unpackSignature l
  | SRemote _ s => unpackSignature s
  | SDelegated s d => (fun s => SDelegated s d) <$> unpackSignature s
  | _ => [s]
  end.

(** ** Hashes and verification *)

Class Crypto := {
  sig_MarshalBinary : Signature -> bytes;
  ripemd160 : bytes -> bytes;
  keccak256 : bytes -> bytes;
  ed25519_Verify : bytes -> bytes -> bytes -> bool;
  secp256k1_Verify : bytes -> bytes -> bytes -> bool
}.

Section Crypto.
Context `{Crypto}.

Definition signatureHash (s : Signature) : bytes := sha256 (sig_MarshalBinary s).

Definition BTCHash (pubKey : bytes) : bytes := ripemd160 (sha256 pubKey).
Definition ETHhash (pubKey : bytes) : bytes := drop 12 (keccak256 pubKey).

(** [copy] into 32 bytes, then the double hash of the version and the key. *)
Definition GetRCDHashFromPublicKey (pubKey : bytes) (version : byte) : bytes :=
  sha256 (sha256 (version :: copy32 pubKey)).

Definition GetPublicKeyHash (k : KeySignature) : bytes :=
  match key_Type k with
  | KLegacyED25519 | KED25519 => sha256 (PublicKey k)
  | KRCD1 => GetRCDHashFromPublicKey (PublicKey k) Byte.x01
  | KBTC | KBTCLegacy => BTCHash (PublicKey k)
  | KETH => ETHhash (PublicKey k)
  end.

(** [sigMdHash] is nil when the signature is not nested. *)
Definition key_Verify (k : KeySignature) (sigMdHash : option bytes) (txnHash : bytes) : bool :=
  let md := match sigMdHash with Some h => h | None => signatureHash (SKey (key_Metadata k)) end in
  match key_Type k with
  | KLegacyED25519 =>
      if negb (zlen (PublicKey k) =? 32) || negb (zlen (SigBytes k) =? 64) then false
      else ed25519_Verify (PublicKey k) (sha256 (md ++ Common.Uint64Bytes (Timestamp k) ++ txnHash)) (SigBytes k)
  | KED25519 | KRCD1 =>
      if negb (zlen (PublicKey k) =? 32) || negb (zlen (SigBytes k) =? 64) then false
      else ed25519_Verify (PublicKey k) (sha256 (md ++ txnHash)) (SigBytes k)
  | KBTC | KBTCLegacy | KETH => secp256k1_Verify (PublicKey k) (sha256 (md ++ txnHash)) (SigBytes k)
  end.

(** [DelegatedSignature.Verify] of the signature [s] delegates. *)
Fixpoint delegated_Verify (s : Signature) (sigMdHash : bytes) (hash : bytes) : bool :=
  match s with
  | SKey k => key_Verify k (Some sigMdHash) hash
  | SDelegated s _ => delegated_Verify s sigMdHash hash
  | _ => false
  end.

(** The first unpacked signature that initiated the transaction; a signature that cannot
    initiate ends the search. *)
Fixpoint find_initiator (l : list Signature) (txnInitHash : bytes) : res (option Signature) :=
  match l with
  | [] => Ok None
  | s :: l =>
      let! m := Metadata s in
      if bytes_eqb txnInitHash (signatureHash m) then Ok (Some s)
      else match Initiator_hasher s with
           | Err _ => Ok None
           | Panic s => Panic s
           | Ok h => if bytes_eqb txnInitHash (MerkleHash h) then Ok (Some s) else find_initiator l txnInitHash
           end
  end.

Definition SignatureDidInitiate (s : Signature) (txnInitHash : bytes) : res bool :=
  let! r := find_initiator (unpackSignature s) txnInitHash in Ok (bool_decide (is_Some r)).

End Crypto.

(** ** The network definition *)

Record ValidatorPartition := mkVP { vp_ID : bytes; Active : bool }.
Record ValidatorInfo := mkValidator { v_PublicKey : bytes; v_PublicKeyHash : bytes; v_Partitions : list ValidatorPartition }.
Record PartitionInfo := mkPartitionInfo { p_ID : bytes; p_Type : Z }.
Record NetworkDefinition := mkNetwork {
  nd_Version : Z; Partitions : list PartitionInfo; Validators : list ValidatorInfo }.

Definition nil_validator : ValidatorInfo := mkValidator [] [] [].
Definition set_Validators (l : list ValidatorInfo) (n : NetworkDefinition) : NetworkDefinition :=
  mkNetwork (nd_Version n) (Partitions n) l.

Definition valHashCmp (k : bytes) (v : ValidatorInfo) : Z := bytes_compare (v_PublicKeyHash v) k.

Definition AddPartition (id : bytes) (typ : Z) (n : NetworkDefinition) : res (NetworkDefinition * bool) :=
  let! (l, ptr, new) := BinaryInsert (mkPartitionInfo [] 0) (Partitions n)
                          (fun p => bytes_compare (ToLower (p_ID p)) (ToLower id)) in
  if negb new then Ok (n, false)
  else Ok (mkNetwork (nd_Version n) (store_at l ptr (mkPartitionInfo id typ)) (Validators n), true).

Definition ValidatorByHash (hash : bytes) (n : NetworkDefinition) : res (option (Z * ValidatorInfo)) :=
  let! (i, found) := Search (Validators n) (valHashCmp hash) in
  if (found : bool) then let! v := index (Validators n) i in Ok (Some (i, v)) else Ok None.

Fixpoint active_on (l : list ValidatorPartition) (partition : bytes) : bool :=
  match l with
  | [] => false
  | p :: l => if EqualFold (vp_ID p) partition then Active p else active_on l partition
  end.
Definition IsActiveOn (v : ValidatorInfo) (partition : bytes) : bool := active_on (v_Partitions v) partition.

Fixpoint set_active (l : list ValidatorPartition) (partition : bytes) (active : bool) : list ValidatorPartition :=
  match l with
  | [] => [mkVP partition active]
  | p :: l => if EqualFold (vp_ID p) partition then mkVP (vp_ID p) active :: l else p :: set_active l partition active
  end.

Definition AddValidator (key partition : bytes) (active : bool) (n : NetworkDefinition) : res NetworkDefinition :=
  let hash := sha256 key in
  let! (l, ptr, new) := BinaryInsert nil_validator (Validators n) (valHashCmp hash) in
  let l := if (new : bool) then store_at l ptr (mkValidator key hash []) else l in
  let! v := index l ptr in
  Ok (set_Validators (store_at l ptr (mkValidator (v_PublicKey v) (v_PublicKeyHash v) (set_active (v_Partitions v) partition active))) n).

Definition RemoveValidator (key : bytes) (n : NetworkDefinition) : res NetworkDefinition :=
  let! (i, found) := Search (Validators n) (valHashCmp (sha256 key)) in
  if (found : bool) then let! l := RemoveAt (Validators n) i in Ok (set_Validators l n) else Ok n.

(** The validator is a pointer: it is changed before the new list is built, so the
    network is changed in the error case too.  Returns the network and the error. *)
Definition UpdateValidatorKey (oldKey newKey : bytes) (n : NetworkDefinition) : res (NetworkDefinition * option error) :=
  let! (i, found) := Search (Validators n) (valHashCmp (sha256 oldKey)) in
  if negb found then Ok (n, Some (mkError StatusNotFound "validator not found"))
  else
    let newHash := sha256 newKey in
    let! v := index (Validators n) i in
    let v := mkValidator newKey newHash (v_Partitions v) in
    let changed := store_at (Validators n) i v in
    let! val := RemoveAt changed i in
    let! (val, ptr, new) := BinaryInsert nil_validator val (valHashCmp newHash) in
    if negb new then Ok (set_Validators changed n, Some (mkError StatusConflict "validator already exists"))
    else Ok (set_Validators (store_at val ptr v) n, None).

(** [Rational.Threshold]: the float computation is exact while the product is below
    2^26. *)
Definition Threshold (keyCount num denom : Z) : Z := (keyCount * num + denom - 1) / denom.

(** [memoizeValidators] and [ValidatorThreshold]: the number of active validators of a
    partition, and the threshold the globals set for it. *)
Definition active_entries (n : NetworkDefinition) : list bytes :=
  mbind (fun v => (fun p => ToLower (vp_ID p)) <$> filter (fun p => Active p = true) (v_Partitions v)) (Validators n).
Definition active_count (n : NetworkDefinition) (partition : bytes) : nat :=
  length (filter (fun id => id = ToLower partition) (active_entries n)).
Definition ValidatorThreshold (num denom : Z) (n : NetworkDefinition) (partition : bytes) : Z :=
  match active_count n partition with
  | O => 2 ^ 64 - 1
  | c => Threshold (Z.of_nat c) num denom
  end.

(** ** Signers *)

(** [protocol.Signer2]: the accounts that sign, a signer that is not known here, and the
    network's validators. *)
Inductive Signer :=
  | SgLite (a : LiteIdentity)
  | SgPage (p : KeyPage)
  | SgUnknown (u : URL) (version : Z)
  | SgNetwork (partition : bytes) (n : NetworkDefinition).

Definition as_Signer (a : Account) : option Signer :=
  match a with ALiteIdentity a => Some (SgLite a) | AKeyPage p => Some (SgPage p) | _ => None end.

Definition Network : bytes := str "network".
Definition network_url : URL := JoinPath [Network] DnUrl.

Definition signer_Url (s : Signer) : URL :=
  match s with
  | SgLite a => li_Url a
  | SgPage p => kpg_Url p
  | SgUnknown u _ => u
  | SgNetwork _ _ => network_url
  end.

Definition signer_Version (s : Signer) : Z :=
  match s with SgLite _ => 1 | SgPage p => Version p | SgUnknown _ v => v | SgNetwork _ n => nd_Version n end.

Definition signer_Threshold (s : Signer) : Z :=
  match s with
  | SgLite _ => 1
  | SgPage p => GetSignatureThreshold p
  | SgUnknown _ _ => 2 ^ 64 - 1
  | SgNetwork _ _ => 1
  end.

(** The index of the entry and when it was last used. *)
Definition signer_EntryByKeyHash (h : bytes) (s : Signer) : res (option (Z * Z)) :=
  match s with
  | SgLite a =>
      match Lite.ParseLiteIdentity (li_Url a) with
      | Ok (Some myKey) =>
          let! prefix := slice_to h 20 in
          if negb (bytes_eqb myKey prefix) then Ok None else Ok (Some (0, li_LastUsedOn a))
      | Panic s => Panic s
      | _ => Panic "lite identity URL is not valid"
      end
  | SgPage p =>
      let! r := EntryByKeyHash h p in
      match r with
      | None => Ok None
      | Some i => let! k := index (Keys p) i in Ok (Some (i, ks_LastUsedOn k))
      end
  | SgUnknown _ _ => Ok None
  | SgNetwork partition n =>
      let! r := ValidatorByHash h n in
      match r with
      | Some (i, v) => if IsActiveOn v partition then Ok (Some (i, 0)) else Ok None
      | None => Ok None
      end
  end.

Definition signer_EntryByDelegate (owner : URL) (s : Signer) : option Z :=
  match s with SgPage p => EntryByDelegate owner p | _ => None end.

(** [entry.SetLastUsedOn] of the entry at an index. *)
Definition set_LastUsedOn (i ts : Z) (s : Signer) : Signer :=
  match s with
  | SgLite a => SgLite (mkLiteIdentity (li_Url a) (li_CreditBalance a) ts)
  | SgPage p => SgPage (set_Keys (alter (fun k => mkKeySpec (PublicKeyHash k) ts (Delegate k)) (Z.to_nat i) (Keys p)) p)
  | _ => s
  end.

Definition signer_Credits (s : Signer) : Z :=
  match s with SgLite a => li_CreditBalance a | SgPage p => kpg_CreditBalance p | _ => 0 end.
Definition signer_DebitCredits (amount : Z) (s : Signer) : option Signer :=
  match s with
  | SgLite a =>
      let '(b, ok) := DebitCredits amount (li_CreditBalance a) in
      if (ok : bool) then Some (SgLite (mkLiteIdentity (li_Url a) b (li_LastUsedOn a))) else None
  | SgPage p =>
      let '(b, ok) := DebitCredits amount (kpg_CreditBalance p) in
      if (ok : bool) then Some (SgPage (mkKeyPage (kpg_Url p) b (AcceptThreshold p) (Version p) (Keys p) (TransactionBlacklist p)))
      else None
  | _ => None
  end.

Definition signer_account (s : Signer) : option Account :=
  match s with SgLite a => Some (ALiteIdentity a) | SgPage p => Some (AKeyPage p) | _ => None end.

Definition GetSigners (b : KeyBook) : list URL :=
  (fun i => FormatKeyPageUrl (kb_Url b) (Z.of_nat i)) <$> seq 0 (Z.to_nat (PageCount b)).

(** [MakeLiteSigner]: a page without its credits and keys, but with its delegates. *)
Definition MakeLiteSigner (s : Signer) : Signer :=
  match s with
  | SgPage p =>
      SgPage (mkKeyPage (kpg_Url p) 0 (AcceptThreshold p) (Version p)
                (omap (fun k => (fun d => mkKeySpec [] 0 (Some d)) <$> Delegate k) (Keys p)) (TransactionBlacklist p))
  | SgLite _ | SgUnknown _ _ => s
  | SgNetwork _ _ => SgUnknown (signer_Url s) (signer_Version s)
  end.

(** ** The signers of a transaction's status *)

Definition nil_signer : Signer := SgUnknown nil_URL 0.

Definition AddSigner (s : Signer) (l : list Signer) : res (list Signer) :=
  let! (l', ptr, new) := BinaryInsert nil_signer l (fun e => Compare (signer_Url e) (signer_Url s)) in
  if (new : bool) then Ok (store_at l' ptr (MakeLiteSigner s))
  else
    let! old := index l' ptr in
    if signer_Version s <=? signer_Version old then Ok l'
    else Ok (store_at l' ptr (MakeLiteSigner s)).

Definition status_GetSigner (u : URL) (l : list Signer) : res (option Signer) :=
  let! (i, found) := Search l (fun e => Compare (signer_Url e) u) in
  if (found : bool) then let! s := index l i in Ok (Some s) else Ok None.

Definition FindSigners (authority : URL) (l : list Signer) : res (list Signer) :=
  let! (i, found) := Search l (fun e => Compare (signer_Url e) authority) in
  if zlen l <=? i then Ok []
  else
    let! s := index l i in
    if (found : bool) then Ok [s]
    else if negb (ParentOf authority (signer_Url s)) then Ok []
    else
      let! j := sort_search (S (length l))
                  (fun i => let! e := index l i in
                            if Compare (signer_Url e) authority <? 0 then Ok false
                            else Ok (negb (ParentOf authority (signer_Url e)))) 0 (zlen l) in
      let! t := slice_to l j in slice_from t i.

(** [AddAnchorSigner]: the keys of the validators that signed an anchor. *)
Definition AddAnchorSigner (publicKey : bytes) (l : list bytes) : res (list bytes) :=
  let! (l', ptr, new) := BinaryInsert [] l (fun k => bytes_compare k publicKey) in
  Ok (if (new : bool) then store_at l' ptr publicKey else l').
