(* ===== verification/Fees.v ===== *)
(** * Fees and refunds: [protocol/fee_schedule.go]

    A fee is a [uint64].  The size of the marshalled transaction or signature is an
    argument. *)

From S2P Require Import Prelude Sha256 Encoding Receipt DataEntry Url UrlProofs Accounts AdiUrl KeyPages StateManager Signatures.
Local Open Scope Z_scope.
Import Url TxID.

Definition FeeFailedMaximum : Z := 100.
Definition FeeSignature : Z := 1.
Definition FeeCreateIdentity : Z := 50000.
Definition FeeCreateAccount : Z := 2500.
Definition FeeTransferTokens : Z := 300.
Definition FeeTransferTokensExtra : Z := 100.
Definition FeeCreateToken : Z := 500000.
Definition FeeGeneralSmall : Z := 10.
Definition FeeCreateKeyPage : Z := 10000.
Definition FeeCreateKeyPageExtra : Z := 100.
Definition FeeData : Z := 10.
Definition FeeScratchData : Z := 1.
Definition FeeUpdateAuth : Z := 300.
Definition FeeUpdateAuthExtra : Z := 100.

Definition SignatureSizeMax : Z := 1024.

(** The number of chunks of 256 bytes. *)
Definition dataCount (size : Z) : Z := size / 256 + if size mod 256 =? 0 then 0 else 1.

Fixpoint delegation_layers (s : Signature) : Z :=
  match s with SDelegated s _ => 1 + delegation_layers s | _ => 0 end.

Definition ComputeSignatureFee (size : Z) (s : Signature) : res Z :=
  let count := dataCount size in
  if SignatureSizeMax <? size then errors_new StatusBadRequest "signature size exceeds limit"
  else Ok (u64 (u64 (FeeSignature + u64 (FeeSignature * u64 (count - 1))) + FeeSignature * delegation_layers s)).

(** A base fee, an extra fee per item past the first, and the data surcharge. *)
Definition fee_with (base extra items count : Z) : Z :=
  u64 (base + u64 (extra * u64 (items - 1)) + u64 (FeeData * u64 (count - 1))).
Definition fee_data (base count : Z) : Z := u64 (base + u64 (FeeData * u64 (count - 1))).

(** [schedule] is nil or the sliding schedule for identities. *)
Definition identity_fee (schedule : option (list Z)) (u : option URL) : Z :=
  match schedule, u with
  | Some sliding, Some u =>
      if negb (IsRootIdentity u) || negb (HasSuffix (Authority u) TLD) then FeeCreateIdentity
      else
        let name := take (length (Authority u) - length TLD) (Authority u) in
        if zlen name =? 0 then FeeCreateIdentity
        else match sliding !! Z.to_nat (zlen name - 1) with Some f => f | None => FeeCreateIdentity end
  | _, _ => FeeCreateIdentity
  end.

Definition ComputeTransactionFee (schedule : option (list Z)) (principal : URL) (body : TransactionBody) (size : Z) : res Z :=
  match ParsePartitionUrl principal with
  | Some _ => Ok 0
  | None =>
      if negb (IsUser (TransactionType body)) then Ok 0
      else
        let count := dataCount size in
        if TransactionSizeMax <? size then errors_new StatusBadRequest "transaction size exceeds limit"
        else match body with
             | CreateToken _ => Ok (fee_data FeeCreateToken count)
             | CreateIdentity u _ _ _ => Ok (u64 (u64 (FeeData * u64 (count - 1)) + identity_fee schedule u))
             | CreateTokenAccount _ _ _ _ | CreateDataAccount _ _ => Ok (fee_data FeeCreateAccount count)
             | SendTokens to => Ok (fee_with FeeTransferTokens FeeTransferTokensExtra (zlen to) count)
             | IssueTokens _ _ to => Ok (fee_with FeeTransferTokens FeeTransferTokensExtra (zlen to) count)
             | CreateLiteTokenAccount => Ok (fee_data FeeTransferTokens count)
             | CreateKeyBook _ _ _ => Ok (fee_data FeeCreateKeyPage count)
             | CreateKeyPage keys => Ok (fee_with FeeCreateKeyPage FeeCreateKeyPageExtra (zlen keys) count)
             | UpdateKeyPage ops => Ok (fee_with FeeUpdateAuth FeeUpdateAuthExtra (zlen ops) count)
             | UpdateAccountAuth ops => Ok (fee_with FeeUpdateAuth FeeUpdateAuthExtra (zlen ops) count)
             | UpdateKey _ => Ok (fee_data FeeUpdateAuth count)
             | BurnTokens _ | LockAccount _ => Ok (fee_data FeeGeneralSmall count)
             | WriteData _ scratch toState =>
                 let fee := u64 (u64 count * if (scratch : bool) then FeeScratchData else FeeData) in
                 Ok (if (toState : bool) then u64 (fee * 2) else fee)
             | WriteDataTo _ _ => Ok (u64 (FeeData * u64 count))
             | AddCredits _ _ _ | AcmeFaucet _ => Ok 0
             | _ => errors_new StatusInternalError "unknown transaction type"
             end
  end.

Definition ComputeSyntheticRefund (schedule : option (list Z)) (principal : URL) (body : TransactionBody) (size synthCount : Z) : res Z :=
  let! paid := ComputeTransactionFee schedule principal body size in
  if paid <=? FeeFailedMaximum then Ok 0
  else match body with
       | SendTokens _ | IssueTokens _ _ _ => Ok FeeTransferTokensExtra
       | _ => if 1 <? synthCount then errors_new StatusUnknownError "cannot have multiple outputs"
              else Ok (u64 (paid - FeeFailedMaximum))
       end.

(** ** Refunds *)

(** The number of transactions [SendTokens] and [IssueTokens] produce. *)
Definition outputs (body : TransactionBody) (n : Z) : Prop :=
  match body with
  | SendTokens to => n = zlen to
  | IssueTokens (Some _) _ to => n = zlen to + 1
  | IssueTokens None _ to => n = zlen to
  | _ => 0 <= n
  end.

Definition small_body (body : TransactionBody) : Prop :=
  match body with SendTokens to | IssueTokens _ _ to => zlen to < 2 ^ 32 | _ => True end.

Lemma dataCount_bounds size : 0 < size <= TransactionSizeMax -> 1 <= dataCount size <= 80.
Proof.
  unfold TransactionSizeMax, dataCount. intros H. pose proof (Z.div_le_lower_bound size 256 0). pose proof (Z.div_le_upper_bound size 256 80).
  pose proof (Z_div_mod_eq_full size 256). pose proof (Z.mod_pos_bound size 256). case_match; lia.
Qed.

Lemma transfer_fee n count : 0 <= n < 2 ^ 33 -> 1 <= count <= 80 ->
  100 * n + 200 <= fee_with FeeTransferTokens FeeTransferTokensExtra n count.
Proof.
  intros Hn Hc. unfold fee_with, FeeTransferTokens, FeeTransferTokensExtra, FeeData.
  rewrite (u64_small (count - 1)), (u64_small (10 * (count - 1))) by (unfold is_u64; lia).
  destruct (decide (n = 0)) as [->|]; [|rewrite (u64_small (n - 1)), (u64_small (100 * (n - 1))), u64_small by (unfold is_u64; lia); lia].
  unfold u64. change (100 * ((0 - 1) mod 2 ^ 64)) with (100 * (2 ^ 64 - 1)).
  change ((100 * (2 ^ 64 - 1)) mod 2 ^ 64) with (2 ^ 64 - 100).
  replace (300 + (2 ^ 64 - 100) + 10 * (count - 1)) with (200 + 10 * (count - 1) + 1 * 2 ^ 64) by lia.
  rewrite Z.mod_add by lia. rewrite Z.mod_small by lia. lia.
Qed.

(** C38. Failing costs something: when every transaction that a transaction produced
    fails and is refunded, the refunds together are at most the fee that was paid less
    the fee of a failed transaction (and nothing is refunded below that fee). *)
Theorem refunds_bounded schedule principal body size n paid refund :
  0 < size -> small_body body -> outputs body n ->
  ComputeTransactionFee schedule principal body size = Ok paid ->
  ComputeSyntheticRefund schedule principal body size n = Ok refund ->
  n * refund <= Z.max 0 (paid - FeeFailedMaximum).
Proof.
  intros Hs Hb Ho Hp Hr. unfold ComputeSyntheticRefund in Hr. rewrite Hp in Hr. cbn [res_bind] in Hr. unfold FeeFailedMaximum in *.
  destruct (Z.leb_spec paid 100); [injection Hr as <-; lia|].
  assert (Hone : 0 <= n -> (if 1 <? n then errors_new StatusUnknownError "cannot have multiple outputs" else Ok (u64 (paid - 100))) = Ok refund ->
    n * refund <= Z.max 0 (paid - 100)).
  { intros H0. destruct (Z.ltb_spec 1 n); [done|]. intros [= <-]. unfold u64. pose proof (Z.mod_le (paid - 100) (2 ^ 64)). nia. }
  assert (Hfee : forall to m, zlen to < 2 ^ 32 -> m <= zlen to + 1 -> ComputeTransactionFee schedule principal (SendTokens to) size = Ok paid ->
    refund = 100 -> m * refund <= Z.max 0 (paid - 100)).
  { intros to m Hto Hm HP ->. unfold ComputeTransactionFee in HP. destruct (ParsePartitionUrl principal); [injection HP as <-; lia|].
    cbn [TransactionType IsUser negb] in HP. change (negb (IsUser 3)) with false in HP. cbv iota in HP.
    destruct (Z.ltb_spec TransactionSizeMax size); [done|]. injection HP as <-.
    pose proof (transfer_fee (zlen to) (dataCount size) ltac:(pose proof (zlen_nonneg to); lia) (dataCount_bounds size ltac:(lia))). lia. }
  destruct body; try (apply Hone; [exact Ho|exact Hr]).
  - injection Hr as <-. cbn in Ho. apply (Hfee To); [done|lia|exact Hp|done].
  - injection Hr as <-. apply (Hfee To); [done| |exact Hp|done]. destruct Recipient; cbn in Ho; lia.
Qed.

Definition demo_sender : URL := mkURL [] (str "foo.acme") (str "/tokens") [] [].

Lemma refunds_bounded_witness :
  ComputeTransactionFee None demo_sender (IssueTokens (Some demo_sender) 5 []) 200 = Ok 200 /\
  1 * 100 <= Z.max 0 (200 - FeeFailedMaximum).
Proof.
  split; [vm_compute; reflexivity|].
  apply (refunds_bounded None demo_sender (IssueTokens (Some demo_sender) 5 []) 200 1 200 100); vm_compute; reflexivity.
Defined.

(** A transaction that only names its recipient in the deprecated field costs less than
    one with a list of one recipient. *)
Lemma issue_fee_wraps :
  ComputeTransactionFee None demo_sender (IssueTokens (Some demo_sender) 5 []) 200 = Ok 200 /\
  ComputeTransactionFee None demo_sender (IssueTokens None 0 [mkRecipient (Some demo_sender) 5]) 200 = Ok 300.
Proof. split; vm_compute; reflexivity. Qed.
