(* ===== verification/Signing.v ===== *)
(** * Processing signatures and deciding whether a transaction may be executed:
      [internal/block/signature.go], [transaction.go] (user transactions),
      [internal/database/signature_set.go], the signer checks of [internal/chain]

    The records of one transaction: its status, the signature set of every signer, the
    stored signatures and the signature chains.  A signature that fails is discarded with
    its batch. *)

From S2P Require Import Prelude Sha256 Encoding Codec MerkleState Receipt Hasher DataEntry SortUtil Url.
From S2P Require Import UrlProofs Accounts AdiUrl KeyPages StateManager Executors Creation Signatures Fees.
Local Open Scope Z_scope.
Import Url TxID.

(** ** Signature sets *)

Record SigSetEntry := mkSigEntry {
  se_Type : Z; KeyEntryIndex : Z; SignatureHash : bytes; ValidatorKeyHash : option bytes }.
Record sigSetData := mkSigSet { ss_Version : Z; ss_Entries : list SigSetEntry }.

Definition empty_set : sigSetData := mkSigSet 0 [].
Definition nil_entry : SigSetEntry := mkSigEntry 0 0 [] None.

Definition entry_Compare (s t : SigSetEntry) : Z :=
  match IsSystemSig (se_Type s), IsSystemSig (se_Type t) with
  | true, true => bytes_compare (SignatureHash s) (SignatureHash t)
  | true, false => -1
  | false, true => 1
  | false, false =>
      match ValidatorKeyHash s, ValidatorKeyHash t with
      | Some a, Some b => bytes_compare a b
      | Some _, None => -1
      | None, Some _ => 1
      | None, None => i64 (i64 (KeyEntryIndex s) - i64 (KeyEntryIndex t))
      end
  end.

(** A new version of the signer drops every entry but those of the system and of
    validators. *)
Definition sigset_Reset (version : Z) (s : sigSetData) : sigSetData :=
  mkSigSet version (filter (fun e => IsSystemSig (se_Type e) = true \/ ValidatorKeyHash e <> None) (ss_Entries s)).

(** Whether the entry is new; an entry for the same key is replaced in memory only, and
    an entry for another version is ignored. *)
Definition sigset_Add (e : SigSetEntry) (s : Signature) (d : sigSetData) : res (sigSetData * bool) :=
  let stale := match s with
               | SKey k => bool_decide (ValidatorKeyHash e = None) && negb (ss_Version d =? SignerVersion k)
               | _ => false
               end in
  if stale then Ok (d, false)
  else
    let! (l, ptr, new) := BinaryInsert nil_entry (ss_Entries d) (fun x => entry_Compare x e) in
    Ok (mkSigSet (ss_Version d) (store_at l ptr e), new).

(** ** The records of a transaction *)

Record Transaction := mkTxn { Principal : URL; InitHash : bytes; Body : TransactionBody; TxHash : bytes }.

Record TxStatus := mkTxStatus {
  ts_Initiator : option URL;
  ts_Signers : list Signer;
  ts_AnchorSigners : list bytes;
  ts_SourceNetwork : option URL;
  ts_DestinationNetwork : option URL;
  ts_SequenceNumber : Z;
  ts_Proof : option Receipt;
  ts_GotDirectoryReceipt : bool
}.
Definition new_status : TxStatus := mkTxStatus None [] [] None None 0 None false.

Definition set_Signers (l : list Signer) (s : TxStatus) : TxStatus :=
  mkTxStatus (ts_Initiator s) l (ts_AnchorSigners s) (ts_SourceNetwork s) (ts_DestinationNetwork s) (ts_SequenceNumber s) (ts_Proof s) (ts_GotDirectoryReceipt s).
Definition set_AnchorSigners (l : list bytes) (s : TxStatus) : TxStatus :=
  mkTxStatus (ts_Initiator s) (ts_Signers s) l (ts_SourceNetwork s) (ts_DestinationNetwork s) (ts_SequenceNumber s) (ts_Proof s) (ts_GotDirectoryReceipt s).
Definition set_Initiator (u : option URL) (s : TxStatus) : TxStatus :=
  mkTxStatus u (ts_Signers s) (ts_AnchorSigners s) (ts_SourceNetwork s) (ts_DestinationNetwork s) (ts_SequenceNumber s) (ts_Proof s) (ts_GotDirectoryReceipt s).
Definition set_Sequence (src dst : URL) (n : Z) (s : TxStatus) : TxStatus :=
  mkTxStatus (ts_Initiator s) (ts_Signers s) (ts_AnchorSigners s) (Some src) (Some dst) n (ts_Proof s) (ts_GotDirectoryReceipt s).
Definition set_Proof (p : option Receipt) (got : bool) (s : TxStatus) : TxStatus :=
  mkTxStatus (ts_Initiator s) (ts_Signers s) (ts_AnchorSigners s) (ts_SourceNetwork s) (ts_DestinationNetwork s) (ts_SequenceNumber s) p got.

(** The batch: the accounts, the status and signature sets of the transaction (by the
    identifier of the signer), the stored signatures (by hash), the signature chains (by
    account), and whether the transaction is stored. *)
Record SigBatch := mkSB {
  sb_batch : Batch;
  sb_status : TxStatus;
  sb_sets : gmap bytes sigSetData;
  sb_sigs : gmap bytes Signature;
  sb_chains : gmap bytes (list bytes);
  sb_stored : bool
}.

Definition set_sb_batch (b : Batch) (s : SigBatch) : SigBatch := mkSB b (sb_status s) (sb_sets s) (sb_sigs s) (sb_chains s) (sb_stored s).
Definition set_sb_status (t : TxStatus) (s : SigBatch) : SigBatch := mkSB (sb_batch s) t (sb_sets s) (sb_sigs s) (sb_chains s) (sb_stored s).
Definition set_sb_sets (m : gmap bytes sigSetData) (s : SigBatch) : SigBatch := mkSB (sb_batch s) (sb_status s) m (sb_sigs s) (sb_chains s) (sb_stored s).
Definition set_sb_sigs (m : gmap bytes Signature) (s : SigBatch) : SigBatch := mkSB (sb_batch s) (sb_status s) (sb_sets s) m (sb_chains s) (sb_stored s).
Definition set_sb_chains (m : gmap bytes (list bytes)) (s : SigBatch) : SigBatch := mkSB (sb_batch s) (sb_status s) (sb_sets s) (sb_sigs s) m (sb_stored s).
Definition set_sb_stored (b : bool) (s : SigBatch) : SigBatch := mkSB (sb_batch s) (sb_status s) (sb_sets s) (sb_sigs s) (sb_chains s) b.

(** [ReadSignaturesForSigner] and [SignaturesForSigner]: only a set opened for writing is
    reset when the version of the signer changed. *)
Definition ReadSignaturesForSigner (signer : Signer) (b : SigBatch) : sigSetData :=
  default empty_set (sb_sets b !! AccountID32 (signer_Url signer)).
Definition SignaturesForSigner (signer : Signer) (b : SigBatch) : sigSetData :=
  let s := ReadSignaturesForSigner signer b in
  if negb (ss_Version s =? signer_Version signer) then sigset_Reset (signer_Version signer) s else s.

(** [chain.AddEntry(hash, true)] on an account's signature chain. *)
Definition add_signature_chain (u : URL) (h : bytes) (b : SigBatch) : SigBatch :=
  let c := default [] (sb_chains b !! AccountID32 u) in
  if bool_decide (h ∈ c) then b else set_sb_chains (<[AccountID32 u := c ++ [h]]> (sb_chains b)) b.

Fixpoint load_signatures (l : list SigSetEntry) (b : SigBatch) : res (list Signature) :=
  match l with
  | [] => Ok []
  | e :: l =>
      match sb_sigs b !! SignatureHash e with
      | None => errors_new StatusNotFound "load signature entry"
      | Some s => let! r := load_signatures l b in Ok (s :: r)
      end
  end.
Definition GetSignaturesForSigner (signer : Signer) (b : SigBatch) : res (list Signature) :=
  load_signatures (ss_Entries (ReadSignaturesForSigner signer b)) b.

(** ** The executor *)

Record SigMetadata := mkMd { Location : option URL; IsInitiator : bool; Delegated : bool; Forwarded : bool }.
Definition SetDelegated (d : SigMetadata) : SigMetadata := mkMd (Location d) (IsInitiator d) true (Forwarded d).
Definition SetForwarded (d : SigMetadata) : SigMetadata := mkMd (Location d) (IsInitiator d) (Delegated d) true.
Definition Nested (d : SigMetadata) : bool := Delegated d || Forwarded d.

(** The parts of a delivery and of the executor that signatures depend on; [x_Route] is
    [Router.RouteAccount], [x_size] the size of the marshalled transaction. *)
Record Context_ := mkCtx {
  x_PartitionId : bytes; x_NodeUrl : URL; x_Network : NetworkDefinition; x_Schedule : option (list Z);
  x_Route : URL -> res bytes; x_size : Z; x_Internal : bool; x_IsForwarded : bool }.

(** [u.LocalTo(location)]; a nil location panics. *)
Definition local_to (u : URL) (location : option URL) : res bool :=
  match location with
  | None => Panic "invalid memory address or nil pointer dereference"
  | Some v => Ok (LocalTo u v)
  end.

Definition lite_signer_url (u : URL) : res URL :=
  match Lite.ParseLiteTokenAddress u with
  | Ok (Some _) => Ok (RootIdentity u)
  | Panic s => Panic s
  | _ => Ok u
  end.

Definition RequireAuthorization (typ : Z) : bool := typ =? 21.

(** *** The authorities of an account *)

(** [shared.GetAccountAuthoritySet]: the authorities, or the book to look at. *)
Definition shared_AuthoritySet (a : Account) : res (AccountAuth + URL) :=
  match a with
  | ALiteIdentity a => Ok (inl (mkAuth [mkAuthority (li_Url a) false]))
  | ALiteTokenAccount a => Ok (inl (mkAuth [mkAuthority (RootIdentity (lta_Url a)) false]))
  | AKeyPage p =>
      match ParseKeyPageUrl (kpg_Url p) with
      | None => errors_new StatusInternalError "invalid key page URL"
      | Some (book, _) => Ok (inr book)
      end
  | _ => Ok (inl (default (mkAuth []) (GetAuth a)))
  end.

(** The book of a page has a shorter path than the page. *)
Fixpoint authority_set (fuel : nat) (a : Account) (b : Batch) : res AccountAuth :=
  match fuel with
  | O => Panic "out of fuel"
  | S fuel =>
      let! r := shared_AuthoritySet a in
      match r with
      | inl auth => Ok auth
      | inr u => let! a := GetState u b in authority_set fuel a b
      end
  end.
Definition GetAccountAuthoritySet (a : Account) (b : Batch) : res AccountAuth :=
  authority_set (S (length (Path (GetUrl a)))) a b.

(** *** Authorization of a signer *)

Definition verifyPageIsAuthorized (txn : Transaction) (signer : Signer) (b : Batch) : res unit :=
  let! principal := GetState (Principal txn) b in
  let! auth := GetAccountAuthoritySet principal b in
  match ParseKeyPageUrl (signer_Url signer) with
  | None => errors_new StatusInternalError "invalid key page URL"
  | Some (signerBook, _) =>
      let! found := GetAuthority signerBook auth in
      if bool_decide (is_Some found) then Ok tt
      else if AuthDisabled auth && negb (RequireAuthorization (TransactionType (Body txn))) then Ok tt
      else errors_new StatusUnauthorized "not authorized to sign transactions"
  end.

Definition SignerIsAuthorized (txn : Transaction) (signer : Signer) (checkAuthz : bool) (b : Batch) : res unit :=
  match signer with
  | SgLite a =>
      if negb (Equal (Some (li_Url a)) (Some (RootIdentity (Principal txn)))) then
        errors_new StatusUnauthorized "not authorized to sign transactions"
      else Ok tt
  | SgPage p =>
      let denied := match AllowedTransactionBit (TransactionType (Body txn)) with
                    | Some bit => Allowed_IsSet bit (TransactionBlacklist p)
                    | None => false
                    end in
      if denied then errors_new StatusUnauthorized "page is not authorized to sign"
      else if negb checkAuthz then Ok tt
      else verifyPageIsAuthorized txn signer b
  | SgUnknown _ _ => if negb checkAuthz then Ok tt else verifyPageIsAuthorized txn signer b
  | SgNetwork _ _ => errors_new StatusInternalError "unknown signer type"
  end.

(** [additionalAuthorities.SignerIsAuthorized]; the result is whether to fall back to
    the general check. *)
Fixpoint additional_book (book : URL) (l : list (option URL)) : bool :=
  match l with
  | [] => false
  | a :: l => Equal a (Some book) || additional_book book l
  end.
Definition additional_SignerIsAuthorized (l : list (option URL)) (txn : Transaction) (signer : Signer) (b : Batch) : res bool :=
  match ParseKeyPageUrl (signer_Url signer) with
  | None => Ok true
  | Some (book, _) =>
      if additional_book book l then let! _ := SignerIsAuthorized txn signer false b in Ok false else Ok true
  end.

(** The authorities [UpdateAccountAuth] adds; a missing URL is an error. *)
Fixpoint update_auth_signer (ops : list AccountAuthOperation) (book : URL) : res bool :=
  match ops with
  | [] => Ok false
  | AddAccountAuthorityOperation None :: _ => errorf "invalid payload: authority is nil"
  | AddAccountAuthorityOperation (Some u) :: ops => if Equal (Some u) (Some book) then Ok true else update_auth_signer ops book
  | _ :: ops => update_auth_signer ops book
  end.

(** The delegates that [UpdateKeyPage] adds to the page. *)
Fixpoint new_owners (ops : list KeyPageOperation) (page : KeyPage) : res (list URL) :=
  match ops with
  | [] => Ok []
  | AddKeyOperation e :: ops =>
      let! l := new_owners ops page in Ok (match kp_Delegate e with Some d => d :: l | None => l end)
  | UpdateKeyOperation old new :: ops =>
      match kp_Delegate new with
      | None => new_owners ops page
      | Some d =>
          let! i := findKeyPageEntry old page in
          let! same := match i with
                       | None => Ok false
                       | Some i => let! k := index (Keys page) i in
                                   Ok (match Delegate k with Some o => Equal (Some o) (Some d) | None => false end)
                       end in
          let! l := new_owners ops page in Ok (if (same : bool) then l else d :: l)
      end
  | _ :: ops => new_owners ops page
  end.
Definition getNewOwners (txn : Transaction) (b : Batch) : res (list URL) :=
  match Body txn with
  | UpdateKeyPage ops =>
      let! a := GetState (Principal txn) b in
      match a with AKeyPage page => new_owners ops page | _ => errorf "load principal: wrong account type" end
  | _ => errorf "invalid payload"
  end.

Definition is_update_allowed (op : KeyPageOperation) : bool := match op with UpdateAllowedKeyPageOperation _ _ => true | _ => false end.

Definition UpdateKeyPage_SignerIsAuthorized (ops : list KeyPageOperation) (txn : Transaction) (signer : Signer) (md : SigMetadata) (b : Batch) : res bool :=
  match ParseKeyPageUrl (Principal txn) with
  | None => errors_new StatusBadRequest "principal is not a key page"
  | Some (principalBook, principalIdx) =>
      match ParseKeyPageUrl (signer_Url signer) with
      | None => Ok true
      | Some (signerBook, signerIdx) =>
          let same := Equal (Some principalBook) (Some signerBook) in
          if same && (principalIdx <? signerIdx) then errors_new StatusUnauthorized "signer is lower priority than the principal"
          else if same && (signerIdx =? principalIdx) && existsb is_update_allowed ops then
            errors_new StatusUnauthorized "cannot modify its own allowed operations"
          else
            let! local := match Location md with
                          | Some l => Ok (LocalTo l (Principal txn))
                          | None => Panic "invalid memory address or nil pointer dereference"
                          end in
            if negb local then Ok true
            else
              let! owners := getNewOwners txn b in
              if existsb (fun o => Equal (Some o) (Some signerBook)) owners then
                let! _ := SignerIsAuthorized txn signer false b in Ok false
              else Ok true
      end
  end.

Definition isWriteToLiteDataAccount (txn : Transaction) (b : Batch) : res bool :=
  match Body txn with
  | WriteData entry _ _ =>
      match Lite.ParseLiteDataAddress (Principal txn) with
      | Err _ => Ok false
      | Panic s => Panic s
      | Ok chainId =>
          match GetState (Principal txn) b with
          | Ok a => Ok (match a with ALiteDataAccount _ => true | _ => false end)
          | Err e => if is_not_found e then Ok (HasPrefix (ComputeLiteDataAccountId entry) chainId) else Err e
          | Panic s => Panic s
          end
      end
  | _ => errors_new StatusInternalError "invalid payload"
  end.

(** [SignerValidator.SignerIsAuthorized] of the executor of the body; [None] when it has
    none.  [CreateIdentity] asks a nil URL whether it is a root identity, which
    panics. *)
Definition validator_SignerIsAuthorized (txn : Transaction) (signer : Signer) (md : SigMetadata) (b : Batch) : option (res bool) :=
  match Body txn with
  | CreateIdentity u _ _ auth =>
      Some match u with
           | None => Panic "invalid memory address or nil pointer dereference"
           | Some u => if IsRootIdentity u then Ok false else additional_SignerIsAuthorized auth txn signer b
           end
  | CreateTokenAccount _ _ auth _ => Some (additional_SignerIsAuthorized auth txn signer b)
  | CreateDataAccount _ auth => Some (additional_SignerIsAuthorized auth txn signer b)
  | CreateKeyBook _ _ auth => Some (additional_SignerIsAuthorized auth txn signer b)
  | CreateToken t => Some (additional_SignerIsAuthorized (ct_Authorities t) txn signer b)
  | CreateLiteTokenAccount =>
      Some match Lite.ParseLiteTokenAddress (Principal txn) with
           | Ok (Some _) => Ok false
           | Ok None => errors_new StatusBadRequest "invalid lite token account URL"
           | Err e => Err e
           | Panic s => Panic s
           end
  | UpdateAccountAuth ops =>
      Some match ParseKeyPageUrl (signer_Url signer) with
           | None => Ok true
           | Some (book, _) =>
               let! found := update_auth_signer ops book in
               if (found : bool) then let! _ := SignerIsAuthorized txn signer false b in Ok false else Ok true
           end
  | UpdateKeyPage ops => Some (UpdateKeyPage_SignerIsAuthorized ops txn signer md b)
  | WriteData _ _ _ => Some (let! lite := isWriteToLiteDataAccount txn b in Ok (negb lite))
  | _ => None
  end.

Definition loadSigner (u : URL) (b : Batch) : res Signer :=
  let! a := wrapf (GetState u b) "load signer" in
  match as_Signer a with
  | Some s => Ok s
  | None => errors_new StatusBadRequest "invalid signer"
  end.

Definition validateSigner (txn : Transaction) (signerUrl : URL) (location : option URL) (checkAuthz : bool) (md : SigMetadata) (b : Batch) : res Signer :=
  let! u := lite_signer_url signerUrl in
  let! local := local_to u location in
  let! signer := if (local : bool) then loadSigner u b else Ok (SgUnknown u 0) in
  let! fallback := match validator_SignerIsAuthorized txn signer md b with Some r => r | None => Ok true end in
  if negb fallback then Ok signer
  else if negb (IsUser (TransactionType (Body txn))) then Ok signer
  else let! _ := SignerIsAuthorized txn signer checkAuthz b in Ok signer.

(** *** Key signatures *)

Section Process.
Context `{Crypto}.

(** The index of the key's entry. *)
Definition validateKeySignature (txn : Transaction) (signer : Signer) (k : KeySignature) : res Z :=
  if IsUser (TransactionType (Body txn)) && negb (SignerVersion k =? signer_Version signer) then
    errors_new StatusBadSignerVersion "invalid version"
  else
    let! r := signer_EntryByKeyHash (GetPublicKeyHash k) signer in
    match r with
    | None => errors_new StatusUnauthorized "key does not belong to signer"
    | Some (i, lastUsedOn) =>
        if negb (TransactionType (Body txn) =? 7) && negb (Timestamp k =? 0) && (Timestamp k <=? lastUsedOn) then
          errors_new StatusBadTimestamp "invalid timestamp"
        else Ok i
    end.

Definition computeSignerFee (x : Context_) (txn : Transaction) (k : KeySignature) (md : SigMetadata) : res Z :=
  if bool_decide (is_Some (ParsePartitionUrl (key_Signer k))) || IsDnUrl (key_Signer k) then Ok 0
  else
    let! fee := ComputeSignatureFee (zlen (sig_MarshalBinary (SKey k))) (SKey k) in
    if negb (IsInitiator md) then Ok fee
    else
      let! txnFee := ComputeTransactionFee (x_Schedule x) (Principal txn) (Body txn) (x_size x) in
      Ok (u64 (fee + u64 (txnFee - FeeSignature))).

Definition add_status_signer (signer : Signer) (b : SigBatch) : res SigBatch :=
  let! l := AddSigner signer (ts_Signers (sb_status b)) in
  Ok (set_sb_status (set_Signers l (sb_status b)) b).

Definition processSigner (txn : Transaction) (s : Signature) (md : SigMetadata) (checkAuthz : bool) (b : SigBatch) : res (Signer * SigBatch) :=
  let! u := GetSigner s in
  let! signer := validateSigner txn u (Location md) checkAuthz md (sb_batch b) in
  let! local := local_to (Principal txn) (Location md) in
  if negb local then Ok (signer, b)
  else let! b := add_status_signer signer b in Ok (signer, b).

Definition put_signer (signer : Signer) (b : SigBatch) : res SigBatch :=
  match signer_account signer with
  | Some a => let! b' := wrapf (PutState (signer_Url signer) a (sb_batch b)) "store signer" in Ok (set_sb_batch b' b)
  | None => errors_new StatusUnknownError "store signer"
  end.

Definition processKeySignature (x : Context_) (txn : Transaction) (k : KeySignature) (md : SigMetadata) (checkAuthz : bool) (b : SigBatch)
    : res (Signer * SigBatch) :=
  let! (signer, b) := processSigner txn (SKey k) md checkAuthz b in
  let! entry := validateKeySignature txn signer k in
  if negb (IsUser (TransactionType (Body txn))) then Ok (signer, b)
  else
    let! fee := match computeSignerFee x txn k md with
                | Err e => Err (mkError StatusBadRequest ("calculating fee: " ++ err_msg e))
                | r => r
                end in
    match signer_DebitCredits fee signer with
    | None => errors_new StatusInsufficientCredits "insufficient credits"
    | Some signer =>
        let signer := if negb (Timestamp k =? 0) then set_LastUsedOn entry (Timestamp k) signer else signer in
        let! b := put_signer signer b in Ok (signer, b)
    end.

(** *** System signatures *)

Definition is_synth_or_system (txn : Transaction) : bool :=
  IsSynthetic (TransactionType (Body txn)) || IsSystem (TransactionType (Body txn)).

Definition verifyPartitionSignature (x : Context_) (txn : Transaction) (dst : URL) (md : SigMetadata) : res unit :=
  if Nested md then errors_new StatusBadRequest "partition signatures cannot be nested within another signature"
  else if negb (is_synth_or_system txn) then errorf "partition signatures are not valid for this transaction"
  else if negb (IsInitiator md) then errorf "partition signatures must be the initiator"
  else if negb (Equal (Some (x_NodeUrl x)) (Some dst)) then errorf "wrong destination network"
  else Ok tt.

Definition verifyReceiptSignature (txn : Transaction) (proof : Receipt) (md : SigMetadata) : res unit :=
  if Nested md then errors_new StatusBadRequest "a receipt signature cannot be nested within another signature"
  else if negb (is_synth_or_system txn) then errorf "receipt signatures are not valid for this transaction"
  else if IsInitiator md then errorf "receipt signatures must not be the initiator"
  else if negb (Validate proof) then errorf "invalid receipt"
  else Ok tt.

Definition verifyInternalSignature (x : Context_) (md : SigMetadata) : res unit :=
  if Nested md then errors_new StatusBadRequest "internal signatures cannot be nested within another signature"
  else if negb (x_Internal x) then errors_new StatusBadRequest "internal signatures can only be used for transactions produced by a system transaction"
  else if x_IsForwarded x then errors_new StatusBadRequest "internal signatures cannot be forwarded"
  else Ok tt.

Definition validatePartitionSignature (x : Context_) (k : KeySignature) (status : TxStatus) : res Signer :=
  match ts_SourceNetwork status with
  | None => errors_new StatusBadRequest "missing partition signature"
  | Some src =>
      match ParsePartitionUrl src with
      | None => errors_new StatusBadRequest "partition signature source is not a partition"
      | Some partition =>
          let signer := SgNetwork partition (x_Network x) in
          let! r := signer_EntryByKeyHash (GetPublicKeyHash k) signer in
          if bool_decide (is_Some r) then Ok signer
          else errors_new StatusUnauthorized "key is not an active validator"
      end
  end.

Definition IsAnchor (typ : Z) : bool := (typ =? 97) || (typ =? 98).

Definition processPartitionSignature (x : Context_) (txn : Transaction) (k : KeySignature) (b : SigBatch) : res (Signer * SigBatch) :=
  let! signer := validatePartitionSignature x k (sb_status b) in
  let! b := add_status_signer signer b in
  let! l := if IsAnchor (TransactionType (Body txn)) then AddAnchorSigner (PublicKey k) (ts_AnchorSigners (sb_status b))
            else Ok (ts_AnchorSigners (sb_status b)) in
  Ok (signer, set_sb_status (set_AnchorSigners l (sb_status b)) b).

Definition validateInitialSignature (s : Signature) (md : SigMetadata) : res unit :=
  match s with
  | SKey k => if IsInitiator md && (Timestamp k =? 0) then errors_new StatusBadTimestamp "initial signature does not have a timestamp" else Ok tt
  | _ => Ok tt
  end.

(** *** Readiness of a signer and of an authority *)

Definition SignerIsSatisfied (signer : Signer) (b : SigBatch) : bool :=
  let l := ss_Entries (ReadSignaturesForSigner signer b) in
  existsb (fun e => se_Type e =? SignatureTypeSet) l || (signer_Threshold signer <=? u64 (zlen l)).

Definition AuthorityIsSatisfied (authority : URL) (b : SigBatch) : res bool :=
  let! l := FindSigners authority (ts_Signers (sb_status b)) in
  Ok (existsb (fun s => SignerIsSatisfied s b) l).

(** *** Storing a signature *)

(** What a signature changes in the status. *)
Definition capture_status (txn : Transaction) (s : Signature) (st : TxStatus) : res TxStatus :=
  match s with
  | SPartition src dst n _ => Ok (set_Sequence src dst n st)
  | SReceipt src proof _ =>
      let got := ts_GotDirectoryReceipt st || Equal (Some src) (Some DnUrl) in
      match ts_Proof st with
      | None =>
          if negb (bytes_eqb (TxHash txn) (hb (Start proof))) then errors_new StatusUnauthorized "receipt does not match transaction"
          else Ok (set_Proof (Some proof) got st)
      | Some p =>
          if Contains p proof then Ok (set_Proof (Some p) got st)
          else match Receipt_Combine p proof with
               | Ok r => Ok (set_Proof (Some r) got st)
               | Err _ => errors_new StatusUnauthorized "combine receipts"
               | Panic m => Panic m
               end
      end
  | _ => Ok st
  end.

Definition record_initiator (s : Signature) (signer : Signer) (md : SigMetadata) (st : TxStatus) : res TxStatus :=
  if negb (IsInitiator md) then Ok st
  else
    let! u := if IsSystemSig (SignatureType s) then Ok (signer_Url signer)
              else let! u := GetSigner s in lite_signer_url u in
    match ts_Initiator st with
    | Some v => if negb (Equal (Some v) (Some u)) then errors_new StatusInternalError "initiator is already set and does not match the signature"
                else Ok (set_Initiator (Some u) st)
    | None => Ok (set_Initiator (Some u) st)
    end.

(** The index under which the signature enters its signer's set: that of the key or of
    the delegate. *)
Definition entry_index (s : Signature) (signer : Signer) (delegate : option Signer) : res Z :=
  match s with
  | SDelegated _ _ =>
      Ok (match delegate with
          | Some d => u64 (default (-1) (signer_EntryByDelegate (signer_Url d) signer))
          | None => u64 (-1)
          end)
  | SKey k =>
      let! r := signer_EntryByKeyHash (GetPublicKeyHash k) signer in
      Ok (match r with
          | Some (i, _) => u64 i
          | None => match signer with SgNetwork _ _ => 0 | _ => u64 (-1) end
          end)
  | _ => Ok 0
  end.

(** [SignatureSet.Add]. *)
Definition add_to_set (index_ : Z) (s : Signature) (signer : Signer) (b : SigBatch) : res SigBatch :=
  let! validator := match s with
                    | SKey k => Ok (if Equal (Some network_url) (Some (key_Signer k)) then Some (GetPublicKeyHash k) else None)
                    | _ => Ok None
                    end in
  let! (d, new) := sigset_Add (mkSigEntry (SignatureType s) index_ (signatureHash s) validator) s (SignaturesForSigner signer b) in
  if negb new then Ok b
  else let! b := add_status_signer signer b in Ok (set_sb_sets (<[AccountID32 (signer_Url signer) := d]> (sb_sets b)) b).

(** The part of [processSignature] after the switch on the type.  [to_store] is the
    signature that is kept, which differs for a satisfied delegate. *)
Definition store_signature (x : Context_) (txn : Transaction) (s to_store : Signature) (signer : Signer) (delegate : option Signer)
    (md : SigMetadata) (st : TxStatus) (b : SigBatch) : res SigBatch :=
  let! st := record_initiator s signer md st in
  let b := set_sb_status st b in
  let h := signatureHash s in
  let b := set_sb_sigs (<[h := to_store]> (sb_sigs b)) b in
  let isUserTxn := IsUser (TransactionType (Body txn)) && negb (x_Internal x) in
  let! signer_local := if isUserTxn then local_to (signer_Url signer) (Location md) else Ok false in
  let b := if (signer_local : bool) then add_signature_chain (signer_Url signer) h b else b in
  let! txn_local := if IsSystemSig (SignatureType s) then Ok false else local_to (Principal txn) (Location md) in
  let b := if isUserTxn && txn_local then add_signature_chain (Principal txn) h b else b in
  let! i := entry_index s signer delegate in
  add_to_set i s signer b.

Definition finish_signature (x : Context_) (txn : Transaction) (s : Signature) (signer : Signer) (delegate : option Signer)
    (md : SigMetadata) (b : SigBatch) : res (option Signer * SigBatch) :=
  let! _ := validateInitialSignature s md in
  let! txn_local := if IsSystemSig (SignatureType s) then Ok false else local_to (Principal txn) (Location md) in
  let b := if (txn_local : bool) then set_sb_stored true b else b in
  let! st := capture_status txn s (sb_status b) in
  match s, delegate with
  | SDelegated _ delegator, Some d =>
      let! local := local_to (signer_Url d) (Location md) in
      if negb local then let! b := store_signature x txn s s signer delegate md st b in Ok (Some signer, b)
      else if negb (SignerIsSatisfied d b) then Ok (Some signer, b)
      else
        let! l := GetSignaturesForSigner d b in
        let to_store := SDelegated (SSet 0 (signer_Url signer) (TxHash txn) l) delegator in
        let! b := store_signature x txn s to_store signer delegate md st b in Ok (Some signer, b)
  | _, _ => let! b := store_signature x txn s s signer delegate md st b in Ok (Some signer, b)
  end.

Definition network_signer (x : Context_) : Signer := SgNetwork (x_PartitionId x) (x_Network x).

(** The delegate is an account, and an entry of the delegator. *)
Definition check_delegation (signer : Signer) (delegate : option Signer) : res Signer :=
  match delegate with
  | None | Some (SgNetwork _ _) => errors_new StatusInternalError "delegate is not an account"
  | Some d => if bool_decide (is_Some (signer_EntryByDelegate (signer_Url d) signer)) then Ok d
              else errors_new StatusUnauthorized "not authorized to sign for the delegator"
  end.

Fixpoint processSignature (x : Context_) (txn : Transaction) (s : Signature) (md : SigMetadata) (b : SigBatch)
    : res (option Signer * SigBatch) :=
  match s with
  | SPartition _ dst _ _ =>
      let! _ := verifyPartitionSignature x txn dst md in
      finish_signature x txn s (network_signer x) None md b
  | SReceipt _ proof _ =>
      let! _ := verifyReceiptSignature txn proof md in
      finish_signature x txn s (network_signer x) None md b
  | SInternal _ _ =>
      let! _ := verifyInternalSignature x md in
      finish_signature x txn s (network_signer x) None md b
  | SSet _ _ _ _ =>
      if negb (x_IsForwarded x) then errors_new StatusBadRequest "a signature set is not allowed outside of a forwarded transaction"
      else if negb (Forwarded md) then errors_new StatusBadRequest "a signature set must be nested within another signature"
      else
        let! here := match Location md with
                     | Some l => Ok (LocalTo l (Principal txn))
                     | None => if Delegated md then Ok false else Panic "invalid memory address or nil pointer dereference"
                     end in
        let! (signer, b) := processSigner txn s md (negb (Delegated md) && here) b in
        if Delegated md then Ok (Some signer, b) else finish_signature x txn s signer None md b
  | SRemote _ inner =>
      if Nested md then errors_new StatusBadRequest "a remote signature cannot be nested within another signature"
      else if negb (x_IsForwarded x) then errors_new StatusBadRequest "a remote signature is not allowed outside of a forwarded transaction"
      else processSignature x txn inner (SetForwarded md) b
  | SDelegated inner delegator =>
      let! (r, b) := wrapf (processSignature x txn inner (SetDelegated md) b) "process delegated signature" in
      let! valid := if Nested md then Ok true
                    else let! m := Metadata s in Ok (delegated_Verify inner (signatureHash m) (TxHash txn)) in
      if negb valid then errors_new StatusBadRequest "invalid signature"
      else
        let! local := local_to delegator (Location md) in
        if negb local then Ok (None, b)
        else
          let! signer := validateSigner txn delegator (Location md) false md (sb_batch b) in
          let! d := check_delegation signer r in
          finish_signature x txn s signer (Some d) md b
  | SKey k =>
      if negb (Nested md) && negb (key_Verify k None (TxHash txn)) then errors_new StatusBadRequest "invalid signature"
      else if IsUser (TransactionType (Body txn)) then
        let! local := if Delegated md then Ok false else local_to (Principal txn) (Location md) in
        let! (signer, b) := processKeySignature x txn k md local b in
        if Forwarded md && Delegated md then Ok (Some signer, b) else finish_signature x txn s signer None md b
      else
        let! (signer, b) := processPartitionSignature x txn k b in
        finish_signature x txn s signer None md b
  end.

(** [checkRouting]: a user's signature must be for this partition. *)
Definition checkRouting (x : Context_) (txn : Transaction) (s : Signature) : res unit :=
  if IsSystemSig (SignatureType s) then Ok tt
  else if IsUser (TransactionType (Body txn)) then
    let! u := RoutingLocation s in
    let! partition := x_Route x u in
    if negb (EqualFold partition (x_PartitionId x)) then errors_new StatusBadRequest "signature submitted to another partition" else Ok tt
  else Ok tt.

Definition ProcessSignature (x : Context_) (txn : Transaction) (s : Signature) (b : SigBatch) : res SigBatch :=
  let! _ := checkRouting x txn s in
  let! init := SignatureDidInitiate s (InitHash txn) in
  let! loc := if IsSystemSig (SignatureType s) then Ok None else let! u := RoutingLocation s in Ok (Some u) in
  let! (_, b) := processSignature x txn s (mkMd loc init false false) b in
  Ok b.

(** *** Readiness of a user transaction *)

Fixpoint all_satisfied (l : list (option URL)) (b : SigBatch) : res bool :=
  match l with
  | [] => Ok true
  | None :: _ => if zlen (ts_Signers (sb_status b)) =? 0 then Ok false else Panic "invalid memory address or nil pointer dereference"
  | Some u :: l => let! ok := AuthorityIsSatisfied u b in if negb ok then Ok false else all_satisfied l b
  end.

(** The authorities [UpdateAccountAuth] adds must sign. *)
Fixpoint added_satisfied (ops : list AccountAuthOperation) (b : SigBatch) : res bool :=
  match ops with
  | [] => Ok true
  | AddAccountAuthorityOperation None :: _ => errorf "invalid payload: authority is nil"
  | AddAccountAuthorityOperation (Some u) :: ops =>
      let! ok := AuthorityIsSatisfied u b in if negb ok then Ok false else added_satisfied ops b
  | _ :: ops => added_satisfied ops b
  end.

(** [SignerValidator.TransactionIsReady]: [None] when the executor has none; otherwise
    whether the transaction is ready, or [None] to fall back to the general rule. *)
Definition additional_ready (l : list (option URL)) (b : SigBatch) : res (option bool) :=
  let! ok := all_satisfied l b in Ok (if (ok : bool) then None else Some false).

Definition validator_TransactionIsReady (txn : Transaction) (b : SigBatch) : option (res (option bool)) :=
  match Body txn with
  | CreateIdentity u _ _ auth =>
      Some (let! r := additional_ready auth b in
            match r, u with
            | Some v, _ => Ok (Some v)
            | None, None => Panic "invalid memory address or nil pointer dereference"
            | None, Some u => Ok (if IsRootIdentity u then Some true else None)
            end)
  | CreateTokenAccount _ _ auth _ => Some (additional_ready auth b)
  | CreateDataAccount _ auth => Some (additional_ready auth b)
  | CreateKeyBook _ _ auth => Some (additional_ready auth b)
  | CreateToken t => Some (additional_ready (ct_Authorities t) b)
  | CreateLiteTokenAccount =>
      Some match Lite.ParseLiteTokenAddress (Principal txn) with
           | Ok (Some _) => Ok (Some true)
           | Ok None => errors_new StatusBadRequest "invalid lite token account URL"
           | Err e => Err e
           | Panic s => Panic s
           end
  | UpdateAccountAuth ops => Some (let! ok := added_satisfied ops b in Ok (if (ok : bool) then None else Some false))
  | UpdateKeyPage _ =>
      Some (let! owners := getNewOwners txn (sb_batch b) in additional_ready (Some <$> owners) b)
  | WriteData _ _ _ =>
      Some (let! lite := isWriteToLiteDataAccount txn (sb_batch b) in
            Ok (if (lite : bool) then Some (0 <? zlen (ts_Signers (sb_status b))) else None))
  | _ => None
  end.

(** [PrincipalValidator.AllowMissingPrincipal]; false when the executor has none. *)
Definition AllowMissingPrincipal (txn : Transaction) : bool :=
  match Body txn with
  | CreateIdentity _ _ _ _ => IsRootIdentity (Principal txn)
  | CreateLiteTokenAccount => true
  | WriteData _ _ _ => match Lite.ParseLiteDataAddress (Principal txn) with Ok _ => true | _ => false end
  | _ => false
  end.

Fixpoint authorities_ready (force : bool) (l : list AuthorityEntry) (b : SigBatch) : res bool :=
  match l with
  | [] => Ok (0 <? zlen (ts_Signers (sb_status b)))
  | e :: l =>
      if Disabled e && negb force then authorities_ready force l b
      else let! ok := AuthorityIsSatisfied (auth_Url e) b in if negb ok then Ok false else authorities_ready force l b
  end.

Definition userTransactionIsReady (x : Context_) (txn : Transaction) (principal : option Account) (b : SigBatch) : res bool :=
  match ts_Initiator (sb_status b) with
  | None => Ok false
  | Some init =>
      if bool_decide (principal = None) && negb (AllowMissingPrincipal txn) then errors_new StatusNotFound "missing principal"
      else if x_Internal x then Ok true
      else if TransactionType (Body txn) =? 22 then
        let n := zlen (ss_Entries (default empty_set (sb_sets b !! AccountID32 init))) in
        match GetState init (sb_batch b) with
        | Ok a => match as_Signer a with
                  | None => errorf "load initiator signatures: wrong account type"
                  | Some _ => if n =? 0 then errorf "missing initiator signature" else Ok true
                  end
        | Err e => if is_not_found e then if n =? 0 then errorf "missing initiator signature" else Ok true else Err e
        | Panic s => Panic s
        end
      else
        let! r := match validator_TransactionIsReady txn b with Some r => r | None => Ok None end in
        match r, principal with
        | Some ready, _ => Ok ready
        | None, None => errors_new StatusNotFound "missing principal"
        | None, Some a =>
            let! auth := GetAccountAuthoritySet a (sb_batch b) in
            authorities_ready (RequireAuthorization (TransactionType (Body txn))) (Authorities auth) b
        end
  end.

End Process.
