(* ===== verification/SigningProofs.v ===== *)
(** * Who must have signed a transaction that is ready

    The signature sets hold one entry per key of the page they were signed with, so that
    a transaction that is ready was signed by as many different entries of a page of every
    authority as that page requires.  The exception is [UpdateKey], which moves keys on a
    page and keeps its version. *)

From stdpp Require Import sorting.
From S2P Require Import Prelude Sha256 Encoding Codec MerkleState Receipt Hasher DataEntry SortUtil Url.
From S2P Require Import UrlProofs Accounts AccountsProofs AdiUrl KeyPages KeyPagesProofs StateManager.
From S2P Require Import Executors Creation ExecutorProofs Signatures Fees Signing.
Local Open Scope Z_scope.
Import Url TxID Binary.

Tactic Notation "step" hyp(H) simple_intropattern(x) simple_intropattern(Hx) :=
  apply res_bind_Ok in H as (x & Hx & H).

(** ** Signature sets *)

Definition idx_cmp (x y : SigSetEntry) : Z := KeyEntryIndex x - KeyEntryIndex y.

#[global] Instance idx_cmp_total : TotalCompare idx_cmp.
Proof. split; unfold idx_cmp; intros; lia. Qed.

(** An entry of a user's signature. *)
Definition plain (e : SigSetEntry) : Prop :=
  IsSystemSig (se_Type e) = false /\ se_Type e <> SignatureTypeSet /\ ValidatorKeyHash e = None /\ 0 <= KeyEntryIndex e < 2 ^ 62.

Definition set_ok (d : sigSetData) : Prop := Forall plain (ss_Entries d) /\ sorted idx_cmp (ss_Entries d).

Lemma entry_Compare_plain x y : plain x -> plain y -> entry_Compare x y = idx_cmp x y.
Proof.
  intros (Hx & _ & Vx & Ix) (Hy & _ & Vy & Iy). unfold entry_Compare, idx_cmp. rewrite Hx, Hy, Vx, Vy.
  rewrite (i64_small (KeyEntryIndex x)), (i64_small (KeyEntryIndex y)), i64_small by (unfold is_i64; lia). done.
Qed.

Lemma sigset_Reset_ok v d : set_ok d -> sigset_Reset v d = mkSigSet v [].
Proof.
  intros [HF _]. unfold sigset_Reset. f_equal. induction HF as [|e l He _ IH]; [done|].
  rewrite filter_cons_False; [done|]. destruct He as (H1 & _ & H2 & _). intros [H|H]; congruence.
Qed.

(** Adding an entry: it is new exactly when no entry has its index. *)
Lemma sigset_Add_ok e s d :
  set_ok d -> plain e -> (forall k, s = SKey k -> ss_Version d = SignerVersion k) ->
  exists d' new, sigset_Add e s d = Ok (d', new) /\
    (new = true -> ss_Version d' = ss_Version d /\ set_ok d' /\ forall x, x ∈ ss_Entries d' -> x = e \/ x ∈ ss_Entries d) /\
    (new = false -> ss_Entries d <> []).
Proof.
  intros [HF Hs] He Hv. unfold sigset_Add. set (stale := match s with SKey k => _ | _ => false end).
  assert (stale = false) as ->.
  { subst stale. destruct s as [k| | | | | |]; try done. rewrite (Hv k eq_refl), Z.eqb_refl. apply andb_false_r. }
  rewrite (BinaryInsert_ext nil_entry _ _ (fun x => idx_cmp x e)).
  2:{ intros x Hx. apply entry_Compare_plain; [|done]. rewrite Forall_forall in HF. by apply HF. }
  destruct (BinaryInsert_ok nil_entry (ss_Entries d) (fun x => idx_cmp x e) e) as (k & Hk & Hcase); [by apply sorted_ge_mono; [apply _|]|].
  assert (Hnew : ~ member idx_cmp e (ss_Entries d) ->
    set_ok (mkSigSet (ss_Version d) (take k (ss_Entries d) ++ e :: drop k (ss_Entries d))) /\
    forall x, x ∈ take k (ss_Entries d) ++ e :: drop k (ss_Entries d) -> x = e \/ x ∈ ss_Entries d).
  { intros Hm. assert (Hin : forall x, x ∈ take k (ss_Entries d) ++ e :: drop k (ss_Entries d) -> x = e \/ x ∈ ss_Entries d).
    { intros x. rewrite elem_of_app, elem_of_cons. rewrite <- (take_drop k (ss_Entries d)) at 3. rewrite elem_of_app. tauto. }
    split; [|done]. split; [|by apply insert_sorted; [apply _|..]]. apply Forall_forall. cbn [ss_Entries]. intros x Hx.
    destruct (Hin x Hx) as [->|Hx']; [done|]. rewrite Forall_forall in HF. by apply HF. }
  pose proof (found_member idx_cmp (ss_Entries d) e k Hs Hk) as Hfm.
  destruct (ss_Entries d !! k) as [x|].
  - destruct (idx_cmp x e =? 0) eqn:Ec.
    + rewrite Hcase. cbn [res_bind]. do 2 eexists. split; [done|]. split; [done|]. intros _ E. destruct (proj1 Hfm eq_refl) as (y & Hy & _).
      rewrite E in Hy. by apply elem_of_nil in Hy.
    + destruct Hcase as (l' & -> & El). cbn [res_bind]. rewrite El. do 2 eexists. split; [done|]. split; [|done]. intros _.
      split; [done|]. cbn [ss_Entries]. apply Hnew. intros Hm. apply Hfm in Hm. done.
  - destruct Hcase as (l' & -> & El). cbn [res_bind]. rewrite El. do 2 eexists. split; [done|]. split; [|done]. intros _.
    split; [done|]. cbn [ss_Entries]. apply Hnew. intros Hm. apply Hfm in Hm. done.
Qed.

(** The indexes of a set are different. *)
Lemma set_indexes d : set_ok d -> NoDup (KeyEntryIndex <$> ss_Entries d).
Proof.
  intros [_ Hs]. unfold sorted in Hs. induction Hs as [|e l _ IH Hl]; [constructor|]. rewrite fmap_cons. constructor; [|done].
  intros (x & E & Hx)%list_elem_of_fmap. rewrite Forall_forall in Hl. specialize (Hl x Hx). unfold lt_, idx_cmp in Hl. lia.
Qed.

(** ** Signers over time *)

Definition index_of (h : bytes) (s : Signer) : option Z :=
  match signer_EntryByKeyHash h s with Ok (Some (i, _)) => Some i | _ => None end.

Definition key_count (s : Signer) : Z := match s with SgPage p => zlen (Keys p) | _ => 0 end.

(** The same signer for the purpose of signing. *)
Record like (s t : Signer) : Prop := {
  lk_url : signer_Url s = signer_Url t;
  lk_version : signer_Version s = signer_Version t;
  lk_threshold : signer_Threshold s = signer_Threshold t;
  lk_key : forall h, index_of h s = index_of h t;
  lk_delegate : forall u, signer_EntryByDelegate u s = signer_EntryByDelegate u t;
  lk_count : key_count s = key_count t
}.

Lemma like_refl s : like s s.
Proof. by split. Qed.

Lemma like_trans s t u : like s t -> like t u -> like s u.
Proof. intros [] []. split; try congruence; intros; etrans; eauto. Qed.

(** [t] is [s] or a later version of it. *)
Definition later (s t : Signer) : Prop := signer_Url s = signer_Url t /\ (signer_Version s < signer_Version t \/ like s t).

Lemma later_refl s : later s s.
Proof. split; [done|]. right. apply like_refl. Qed.

Lemma later_trans s t u : later s t -> later t u -> later s u.
Proof.
  intros [E1 H1] [E2 H2]. split; [congruence|].
  destruct H1 as [H1|H1], H2 as [H2|H2]; [left; lia|left; rewrite <- (lk_version _ _ H2); lia|left; rewrite (lk_version _ _ H1); lia|right; by eapply like_trans].
Qed.

(** *** Debiting the fee and storing the timestamp *)

Lemma Search_same {A} (l l' : list A) (cmp : A -> Z) :
  length l = length l' -> (forall i x y, l !! i = Some x -> l' !! i = Some y -> cmp x = cmp y) -> Search l cmp = Search l' cmp.
Proof.
  intros Hl Hc. assert (Hi : forall i, (let! x := index l i in Ok (0 <=? cmp x)) = (let! x := index l' i in Ok (0 <=? cmp x)) /\
    forall j : Z, (let! x := index l i in Ok (j, cmp x =? 0)) = (let! x := index l' i in Ok (j, cmp x =? 0))).
  { intros i. unfold index. destruct (i <? 0); [done|].
    destruct (l !! Z.to_nat i) as [x|] eqn:E.
    - destruct (lookup_lt_is_Some_2 l' (Z.to_nat i)) as [y Hy]; [rewrite <- Hl; by eapply lookup_lt_Some|].
      rewrite Hy. cbn. rewrite (Hc _ _ _ E Hy). done.
    - rewrite lookup_ge_None_2; [done|]. rewrite <- Hl. by apply lookup_ge_None. }
  unfold Search. rewrite Hl. unfold zlen. rewrite Hl.
  rewrite (sort_search_ext _ _ (fun i => let! x := index l' i in Ok (0 <=? cmp x))) by (intros; apply Hi).
  destruct (sort_search _ _ _ _) as [i| |]; [|done|done]. cbn [res_bind]. destruct (_ <=? _); [done|]. apply Hi.
Qed.

Lemma delegate_index_alter u n f l i : (forall k, Delegate (f k) = Delegate k) -> delegate_index u (alter f n l) i = delegate_index u l i.
Proof.
  intros Hf. revert n i. induction l as [|k l IH]; intros [|n] i; try done; cbn; [by rewrite Hf|]. case_match; [done|apply IH].
Qed.

Lemma entry_by_delegate_keys fuel : forall u p p', (forall v, delegate_index v (Keys p) 0 = delegate_index v (Keys p') 0) ->
  entry_by_delegate fuel u p = entry_by_delegate fuel u p'.
Proof.
  induction fuel as [|fuel IH]; intros u p p' H; cbn [entry_by_delegate]; [done|]. destruct (ParseKeyPageUrl u) as [[bk i]|]; [by apply IH|].
  by rewrite H.
Qed.

Lemma page_like p p' :
  kpg_Url p = kpg_Url p' -> Version p = Version p' -> AcceptThreshold p = AcceptThreshold p' ->
  length (Keys p) = length (Keys p') ->
  (forall i x y, Keys p !! i = Some x -> Keys p' !! i = Some y -> PublicKeyHash x = PublicKeyHash y) ->
  (forall v, delegate_index v (Keys p) 0 = delegate_index v (Keys p') 0) -> like (SgPage p) (SgPage p').
Proof.
  intros Hu Hv Ht Hl Hk Hd. split; cbn [signer_Url signer_Version signer_Threshold signer_EntryByDelegate key_count]; [done|done|unfold GetSignatureThreshold; by rewrite Ht| | |unfold zlen; lia].
  - intros h. unfold index_of. cbn [signer_EntryByKeyHash]. unfold EntryByKeyHash.
    rewrite (Search_same (Keys p) (Keys p')); [|done|intros i x y Hx Hy; by rewrite (Hk i x y Hx Hy)].
    destruct (Search (Keys p') _) as [[i found]| |]; [|done|done]. cbn [res_bind]. destruct found; [|done]. cbn [res_bind].
    unfold index. destruct (i <? 0); [done|].
    destruct (Keys p !! Z.to_nat i) eqn:E1, (Keys p' !! Z.to_nat i) eqn:E2; try done.
    + apply lookup_lt_Some in E1. apply lookup_ge_None in E2. lia.
    + apply lookup_lt_Some in E2. apply lookup_ge_None in E1. lia.
  - intros u. unfold EntryByDelegate. by rewrite (entry_by_delegate_keys _ u p p' Hd).
Qed.

Lemma lite_like a a' : li_Url a = li_Url a' -> like (SgLite a) (SgLite a').
Proof.
  intros E. split; cbn [signer_Url signer_Version signer_Threshold signer_EntryByDelegate key_count]; try done.
  intros h. unfold index_of. cbn [signer_EntryByKeyHash]. rewrite E. destruct (Lite.ParseLiteIdentity _) as [[key|]| |]; [|done..].
  destruct (slice_to h 20) as [pr| |]; [|done..]. cbn [res_bind]. by destruct (negb _).
Qed.

Lemma set_LastUsedOn_like i ts s : like s (set_LastUsedOn i ts s).
Proof.
  destruct s as [a|p| |]; cbn; try apply like_refl.
  - by apply lite_like.
  - apply page_like; cbn; try done.
    + by rewrite length_alter.
    + intros j x y Hx Hy. rewrite list_lookup_alter in Hy. case_decide; [subst j; rewrite Hx in Hy|]; cbn in Hy; by simplify_eq/=.
    + intros v. symmetry. by apply delegate_index_alter.
Qed.

Lemma signer_DebitCredits_like n s s' : signer_DebitCredits n s = Some s' -> like s s'.
Proof.
  destruct s as [a|p| |]; cbn; try done.
  - destruct (DebitCredits n (li_CreditBalance a)) as [b [|]]; intros [= <-]. by apply lite_like.
  - destruct (DebitCredits n (kpg_CreditBalance p)) as [b [|]]; intros [= <-]. by apply page_like; cbn; try done; intros i x y ->; intros [= ->].
Qed.

(** ** A key that signs twice *)

(** Signatures marshal to their key and what they sign; every signature verifies. *)
Definition demo_crypto : Crypto := {|
  sig_MarshalBinary s := match s with SKey k => PublicKey k ++ SigBytes k ++ PutUvarint (Timestamp k) | _ => [] end;
  ripemd160 b := b; keccak256 b := b;
  ed25519_Verify _ _ _ := true; secp256k1_Verify _ _ _ := true |}.

Definition demo_key (b : byte) : bytes := replicate 32 b.
Definition vote_page : KeyPage :=
  mkKeyPage (mkURL [] (str "alice.acme") (str "/book/1") [] []) 10000 2 1
    [mkKeySpec (sha256 (demo_key Byte.x01)) 0 None; mkKeySpec (sha256 (demo_key Byte.x04)) 0 None] None.
Definition vote_book : KeyBook := mkKeyBook demo_book 0 (mkAuth [mkAuthority demo_book false]) 1.
Definition vote_batch : Batch :=
  mkBatch {[AccountID32 (GetUrl demo_account) := demo_account; AccountID32 demo_book := AKeyBook vote_book;
            AccountID32 (kpg_Url vote_page) := AKeyPage vote_page]} ∅ ∅ ∅ ∅ ∅.

Definition vote_signature (b : byte) (ts : Z) : KeySignature :=
  mkKeySig KED25519 (demo_key b) (replicate 64 b) (kpg_Url vote_page) 1 ts 0 [].
(** Sending all of Alice's tokens, initiated by the first key. *)
Definition vote_txn : Transaction :=
  mkTxn (GetUrl demo_account)
    (sha256 (@sig_MarshalBinary demo_crypto (SKey (key_Metadata (vote_signature Byte.x01 1)))))
    (SendTokens [mkRecipient (Some demo_book) (10 ^ 12)]) (key_hash Byte.x09).
Definition vote_context : Context_ :=
  mkCtx (str "BVN1") (PartitionUrl (str "BVN1")) (mkNetwork 0 [] []) None (fun _ => Ok (str "BVN1")) 200 false false.

Definition vote_start : SigBatch := mkSB vote_batch new_status ∅ ∅ ∅ false.

(** The first key signs; the same key is replaced by [UpdateKey], which one signature
    suffices for; the new key signs. *)
Definition vote_run : res (bool * bool * list SigSetEntry) :=
  let! b1 := @ProcessSignature demo_crypto vote_context vote_txn (SKey (vote_signature Byte.x01 1)) vote_start in
  let! r1 := userTransactionIsReady vote_context vote_txn (Some demo_account) b1 in
  let st := mkSM (accounts (sb_batch b1) !! AccountID32 (kpg_Url vote_page)) (kpg_Url vote_page) 22 (key_hash Byte.x0a) 500
              (GetUrl demo_ledger) None false ∅ (sb_batch b1) (mkPTS [] [] []) (str "BVN1") [] [] in
  let! st := UpdateKey_Execute (Some (InitKey (sha256 (demo_key Byte.x01)))) (UpdateKey (sha256 (demo_key Byte.x05))) st in
  let! b2 := @ProcessSignature demo_crypto vote_context vote_txn (SKey (vote_signature Byte.x05 2)) (set_sb_batch (batch st) b1) in
  let! r2 := userTransactionIsReady vote_context vote_txn (Some demo_account) b2 in
  Ok (r1, r2, ss_Entries (default empty_set (sb_sets b2 !! AccountID32 (kpg_Url vote_page)))).

(** On a page that requires two signatures, the holder of one key can reach the
    threshold alone: he signs, replaces his own key with [UpdateKey], which needs one
    signature and keeps the page's version, and signs again.  The set counts the two
    signatures under the two positions his key had.  The other key never signs. *)
Theorem UpdateKey_double_vote :
  GetSignatureThreshold vote_page = 2 /\
  exists e0 e1, vote_run = Ok (false, true, [e0; e1]) /\
    SignatureHash e0 = sha256 (demo_key Byte.x01 ++ replicate 64 Byte.x01 ++ PutUvarint 1) /\
    SignatureHash e1 = sha256 (demo_key Byte.x05 ++ replicate 64 Byte.x05 ++ PutUvarint 2).
Proof.
  split; [reflexivity|]. eexists _, _. split; [vm_compute; reflexivity|]. split; vm_compute; reflexivity.
Qed.
