(* ===== verification/Authorization.v ===== *)
(** * A transaction that is ready was authorized

    An invariant of the records of a transaction over any sequence of accepted
    signatures and of changes to the accounts: every signature set belongs to one version
    of its signer, each of its entries is a vote of a different key or delegate of that
    version, and the status lists the signer with that version's threshold. *)

From stdpp Require Import sorting.
From S2P Require Import Prelude Sha256 Encoding Codec MerkleState Receipt Hasher DataEntry SortUtil Url.
From S2P Require Import UrlProofs Accounts AccountsProofs AdiUrl KeyPages KeyPagesProofs StateManager.
From S2P Require Import Executors Creation ExecutorProofs Signatures Fees Signing SigningProofs.
Local Open Scope Z_scope.
Import Url TxID Binary.

(** ** The signers of a status *)

Definition scmp (s t : Signer) : Z := Compare (signer_Url s) (signer_Url t).

#[global] Instance scmp_total : TotalCompare scmp.
Proof. apply (compare_on signer_Url Compare). Qed.

Lemma MakeLite_url s : signer_Url (MakeLiteSigner s) = signer_Url s.
Proof. by destruct s. Qed.

(** The signer is in the list afterwards, unless a version at least as new is; nothing
    older with its URL is. *)
Lemma AddSigner_ok s l l' :
  sorted scmp l -> AddSigner s l = Ok l' ->
  sorted scmp l' /\
  forall t, t ∈ l' -> (t ∈ l /\ (scmp t s <> 0 \/ signer_Version s <= signer_Version t)) \/ t = MakeLiteSigner s.
Proof.
  intros Hs. unfold AddSigner. change (fun e => Compare (signer_Url e) (signer_Url s)) with (fun e => scmp e s).
  destruct (BinaryInsert_ok nil_signer l (fun e => scmp e s) (MakeLiteSigner s)) as (k & Hk & Hcase); [by apply sorted_ge_mono; [apply _|]|].
  pose proof (found_member scmp l s k Hs Hk) as Hfm. pose proof (first_ge_split scmp l s k Hs Hk) as [Hlo Hhi].
  assert (Hnew : forall l1, store_at l1 (Z.of_nat k) (MakeLiteSigner s) = take k l ++ MakeLiteSigner s :: drop k l -> ~ member scmp s l ->
    sorted scmp (store_at l1 (Z.of_nat k) (MakeLiteSigner s)) /\
    forall t, t ∈ store_at l1 (Z.of_nat k) (MakeLiteSigner s) -> (t ∈ l /\ (scmp t s <> 0 \/ signer_Version s <= signer_Version t)) \/ t = MakeLiteSigner s).
  { intros l1 -> Hm. assert (E : forall y, scmp y (MakeLiteSigner s) = scmp y s) by (intros; unfold scmp; by rewrite MakeLite_url). split.
    - apply insert_sorted; [apply _|done| |].
      + destruct Hk as (? & H1 & H2). split_and!; [done|..]; intros; rewrite E; eauto.
      + intros (y & Hy & Ey). apply Hm. exists y. by rewrite <- E.
    - intros t. rewrite elem_of_app, elem_of_cons. intros Ht.
      assert (t = MakeLiteSigner s \/ t ∈ l) as [->|Hl] by (rewrite <- (take_drop k l), elem_of_app; tauto); [by right|].
      left. split; [done|]. left. intros Ec. apply Hm. by exists t. }
  destruct (l !! k) as [y|] eqn:Hy; [destruct (scmp y s =? 0) eqn:Ec|]; [rewrite Hcase|destruct Hcase as (l1 & -> & El)..]; cbn [res_bind].
  - rewrite (index_ok _ _ _ Hy). cbn [res_bind]. clear Hnew.
    assert (Hne : forall j t, l !! j = Some t -> j <> k -> scmp t s <> 0).
    { intros j t Ht Hj. destruct (decide (j < k)%nat) as [Hjk|Hjk].
      - assert (scmp t s < 0); [|lia]. apply Hlo, list_elem_of_lookup. exists j. rewrite lookup_take. by case_decide.
      - assert (0 < scmp t s); [|lia]. apply Hhi, list_elem_of_lookup. exists (j - S k)%nat. rewrite lookup_drop.
        by replace (S k + (j - S k))%nat with j by lia. }
    destruct (signer_Version s <=? signer_Version y) eqn:Ev; intros [= <-].
    + split; [done|]. intros t Ht. left. split; [done|]. apply list_elem_of_lookup in Ht as [j Hj].
      destruct (decide (j = k)) as [->|Hjk]; [right; simplify_eq; lia|left; by eapply Hne].
    + unfold store_at. rewrite Nat2Z.id. split.
      * rewrite insert_take_drop by (by eapply lookup_lt_Some). rewrite <- (take_drop_middle l k y Hy) in Hs.
        unfold sorted in *. rewrite StronglySorted_app, StronglySorted_cons, Forall_forall in *. destruct Hs as (H1 & H2 & H3 & H4).
        assert (Ey : equiv_ scmp y (MakeLiteSigner s)) by (unfold equiv_, scmp in *; rewrite MakeLite_url; lia).
        split_and!; [|done| |done].
        -- intros a c Ha [->|Hc]%elem_of_cons; [|apply H1; [done|by right]]. rewrite <- Ey. apply H1; [done|by left].
        -- intros c Hc. rewrite <- Ey. by apply H3.
      * intros t Ht. apply list_elem_of_lookup in Ht as [j Hj]. apply list_lookup_insert_Some in Hj as [(_ & -> & _)|[Hjk Hj]]; [by right|].
        left. split; [by eapply list_elem_of_lookup_2|]. left. eapply Hne; [done|congruence].
  - intros [= <-]. apply Hnew; [done|]. intros Hm. by apply Hfm in Hm.
  - intros [= <-]. apply Hnew; [done|]. intros Hm. by apply Hfm in Hm.
Qed.

(** Neither before an authority nor one of its children. *)
Definition past (u : URL) (s : Signer) : Z :=
  if (Compare (signer_Url s) u <? 0) || ParentOf u (signer_Url s) then -1 else 0.

Lemma past_iff u s : 0 <= past u s <-> 0 <= Compare (signer_Url s) u /\ ParentOf u (signer_Url s) = false.
Proof. unfold past. destruct (Z.ltb_spec (Compare (signer_Url s) u) 0), (ParentOf u (signer_Url s)); cbn [orb]; split; try lia; by intros []. Qed.

(** At most one signer has a URL. *)
Lemma signer_unique u l i j s t :
  sorted scmp l -> l !! i = Some s -> l !! j = Some t -> Compare (signer_Url s) u = 0 -> Compare (signer_Url t) u = 0 -> i = j.
Proof.
  intros Hs Hi Hj Es Et. assert (E : forall a b, Compare (signer_Url a) u = 0 -> Compare (signer_Url b) u = 0 -> scmp a b = 0).
  { intros a b Ea Eb. change (equiv_ Compare (signer_Url a) (signer_Url b)). etrans; [exact Ea|]. symmetry. exact Eb. }
  destruct (Nat.lt_total i j) as [Hlt|[->|Hlt]]; [|done|].
  - pose proof (sorted_lookup scmp l i j s t Hs Hlt Hi Hj). specialize (E s t Es Et). lia.
  - pose proof (sorted_lookup scmp l j i t s Hs Hlt Hj Hi). specialize (E t s Et Es). lia.
Qed.

(** When the children of an authority are next to each other in the signers of a
    status, [FindSigners] returns the authority if it signed itself, and otherwise
    exactly its children. *)
Theorem FindSigners_correct u l :
  sorted scmp l -> ge_mono (past u) l ->
  exists r, FindSigners u l = Ok r /\ forall s, s ∈ r <-> s ∈ l /\ 0 <= Compare (signer_Url s) u /\
    if existsb (fun t => Compare (signer_Url t) u =? 0) l then Compare (signer_Url s) u = 0 else ParentOf u (signer_Url s) = true.
Proof.
  intros Hs Hm. set (c := fun s => Compare (signer_Url s) u). assert (Hc : ge_mono c l) by apply (sorted_ge_mono scmp l (SgUnknown u 0) Hs).
  unfold FindSigners. fold c. destruct (Search_ok l c Hc) as (k & Hk & ->). cbn [res_bind].
  pose proof (fun j t => first_ge_iff l c k j t Hc Hk) as Hge. destruct Hk as [Hk _].
  destruct (Z.leb_spec (zlen l) (Z.of_nat k)) as [Hlen|Hlen]; unfold zlen in Hlen.
  { eexists. split; [done|]. intros s. split; [by intros ?%elem_of_nil|]. intros ([j Hj]%list_elem_of_lookup & H0 & _).
    apply (Hge j s Hj) in H0. apply lookup_lt_Some in Hj. lia. }
  destruct (lookup_lt_is_Some_2 l k) as [y Hy]; [lia|]. rewrite (index_ok _ _ _ Hy), Hy. cbn [res_bind].
  assert (existsb (fun t => Compare (signer_Url t) u =? 0) l = (c y =? 0)) as ->.
  { apply eq_true_iff_eq. rewrite existsb_exists, Z.eqb_eq. split; [|intros H0; exists y; split; [apply list_elem_of_In; by eapply list_elem_of_lookup_2|by apply Z.eqb_eq]].
    intros (t & [j Hj]%list_elem_of_In%list_elem_of_lookup & H0%Z.eqb_eq). assert (Hkj : (k <= j)%nat) by (apply (Hge j t Hj); unfold c; lia).
    pose proof (proj2 (Hge k y Hy) ltac:(done)). destruct (decide (j = k)) as [->|]; [simplify_eq; done|].
    pose proof (sorted_lookup scmp l k j y t Hs ltac:(lia) Hy Hj) as Hlt.
    pose proof (compare_lt_le scmp y t (SgUnknown u 0) Hlt ltac:(unfold scmp; cbn [signer_Url]; lia)) as Hlt'.
    unfold scmp in Hlt'. cbn [signer_Url] in Hlt'. unfold c in *. lia. }
  destruct (Z.eqb_spec (c y) 0) as [E0|E0].
  { eexists. split; [done|]. intros t. rewrite list_elem_of_singleton. split.
    - intros ->. split; [by eapply list_elem_of_lookup_2|]. unfold c in E0. lia.
    - intros ([j Hj]%list_elem_of_lookup & _ & H0). assert (j = k) as -> by (by eapply signer_unique). congruence. }
  destruct (ParentOf u (signer_Url y)) eqn:Epar; cbn [negb]; last first.
  { eexists. split; [done|]. intros t. split; [by intros ?%elem_of_nil|]. intros ([j Hj]%list_elem_of_lookup & H0 & Hp).
    assert (Hpt : 0 <= past u t); [|apply past_iff in Hpt as [_ ?]; congruence].
    eapply (Hm k j); [by apply (Hge j t Hj)|done..|]. apply past_iff. split; [|done]. by apply (Hge k y Hy). }
  rewrite (sort_search_ext _ _ (fun i => let! t := index l i in Ok (0 <=? past u t))); last first.
  { intros i. destruct (index l i) as [t| |]; [|done..]. cbn [res_bind]. unfold past. destruct (Compare _ _ <? 0); [done|]. destruct (ParentOf u (signer_Url t)); reflexivity. }
  destruct (sort_search_ok l (past u) (S (length l)) 0 (length l)) as (k2 & Hk2 & E2); [done|lia..| |].
  { intros t Ht. apply lookup_lt_Some in Ht. lia. }
  change (Z.of_nat 0) with 0 in E2. unfold zlen. rewrite E2. cbn [res_bind].
  pose proof (fun j t => first_ge_iff l (past u) k2 j t Hm Hk2) as Hge2. destruct Hk2 as [Hk2 _].
  assert (Hkk : (k < k2)%nat).
  { destruct (decide (k2 <= k)%nat) as [Hn|]; [|lia]. apply (Hge2 k y Hy), past_iff in Hn as [_ ?]. congruence. }
  rewrite slice_to_ok by (unfold zlen; lia). cbn [res_bind]. rewrite slice_from_ok by (unfold zlen; rewrite length_take; lia).
  eexists. split; [done|]. rewrite !Nat2Z.id. intros t. split.
  - intros [j Hj]%list_elem_of_lookup. rewrite lookup_drop, lookup_take in Hj. case_decide as Hjk; [|done].
    split; [by eapply list_elem_of_lookup_2|]. assert (H0 : 0 <= c t) by (apply (Hge _ _ Hj); lia). split; [done|].
    destruct (ParentOf u (signer_Url t)) eqn:Et; [done|]. pose proof (proj2 (past_iff u t) (conj H0 Et)) as Hp. apply (Hge2 _ _ Hj) in Hp. lia.
  - intros ([j Hj]%list_elem_of_lookup & H0 & Hp). pose proof (proj1 (Hge j t Hj) H0). apply list_elem_of_lookup. exists (j - k)%nat.
    rewrite lookup_drop, lookup_take. replace (k + (j - k))%nat with j by lia. rewrite decide_True; [done|].
    destruct (decide (k2 <= j)%nat) as [Hn|]; [|lia]. apply (Hge2 j t Hj), past_iff in Hn as [_ ?]. congruence.
Qed.

Definition demo_page (name : string) : Signer := SgUnknown (mkURL [] (str "alice.acme") (str name) [] []) 1.

Lemma FindSigners_correct_witness :
  exists r, FindSigners demo_book [demo_page "/book/1"; demo_page "/book/2"; demo_page "/savings/1"] = Ok r /\ demo_page "/book/2" ∈ r.
Proof.
  destruct (FindSigners_correct demo_book [demo_page "/book/1"; demo_page "/book/2"; demo_page "/savings/1"]) as (r & Er & Hr).
  - repeat first [apply SSorted_nil | apply SSorted_cons | apply Forall_nil_2 | apply Forall_cons_2]; vm_compute; reflexivity.
  - intros i j y z Hij Hy Hz. destruct i as [|[|[|i]]]; [..|done]; destruct j as [|[|[|j]]]; [..|done]; try lia; simplify_eq/=;
      vm_compute; congruence.
  - exists r. split; [exact Er|]. apply Hr. split; [right; left|]. split; [vm_compute; congruence|]. vm_compute. reflexivity.
Defined.

(** They need not be: the page [book-2/1] of another book sorts between [book] and
    [book/1].  Once it signed too, the signers of [book] are not found. *)
Theorem FindSigners_misses :
  let l := [demo_page "/book-2/1"; demo_page "/book/1"] in
  sorted scmp l /\ ParentOf demo_book (signer_Url (demo_page "/book/1")) = true /\ FindSigners demo_book l = Ok [].
Proof.
  split; [|vm_compute; done]. repeat first [apply SSorted_nil | apply SSorted_cons | apply Forall_nil_2 | apply Forall_cons_2]; vm_compute; reflexivity.
Qed.

(** ** Votes *)

(** The key signature within delegations, and the delegators. *)
Fixpoint core (s : Signature) : option KeySignature :=
  match s with SKey k => Some k | SDelegated s _ => core s | _ => None end.
Fixpoint delegators (s : Signature) : list URL :=
  match s with SDelegated s d => d :: delegators s | _ => [] end.

(** The signer that a URL names. *)
Definition names (u : URL) (s : Signer) : Prop :=
  exists v, lite_signer_url u = Ok v /\ AccountID32 v = AccountID32 (signer_Url s).

Section Authorization.
Context `{Crypto} (txn : Transaction).

(** The signature of the key verifies. *)
Definition verified (s : Signature) : Prop :=
  match s with
  | SKey k => key_Verify k None (TxHash txn) = true
  | SDelegated inner _ => exists m, Metadata s = Ok m /\ delegated_Verify inner (signatureHash m) (TxHash txn) = true
  | _ => False
  end.

(** Entry [i] of a signer signed, given the signatures that were accepted: its key did,
    for this version of the signer, or it is a delegate that itself has as many votes as
    it requires.  The votes of a delegate may be those of an earlier version of it. *)
Inductive ballot (hist : list Signature) : Signer -> Z -> Prop :=
  | by_key P i s k :
      s ∈ hist -> verified s -> core s = Some k -> names (key_Signer k) P -> SignerVersion k = signer_Version P ->
      index_of (GetPublicKeyHash k) P = Some i -> ballot hist P i
  | by_delegate P i s u Q D :
      s ∈ hist -> verified s -> u ∈ delegators s -> names u P -> signer_EntryByDelegate (signer_Url D) P = Some i ->
      later Q D -> quorum hist Q (signer_Threshold D) -> ballot hist P i
with quorum (hist : list Signature) : Signer -> Z -> Prop :=
  | votes P n l : NoDup l -> n <= Z.of_nat (length l) -> (forall i, i ∈ l -> ballot hist P i) -> quorum hist P n.

Scheme ballot_rec := Minimality for ballot Sort Prop
  with quorum_rec := Minimality for quorum Sort Prop.

Lemma ballot_mono hist hist' P i : hist ⊆ hist' -> ballot hist P i -> ballot hist' P i.
Proof.
  intros Hs Hb. apply (ballot_rec hist (ballot hist') (quorum hist')); [..|done].
  - intros. eapply by_key; eauto.
  - intros. eapply by_delegate; eauto.
  - intros. eapply votes; eauto.
Qed.

Lemma names_like u s t : signer_Url s = signer_Url t -> names u s -> names u t.
Proof. intros E (v & Hv & Ev). exists v. by rewrite <- E. Qed.

Lemma ballot_like hist P P' i : like P P' -> ballot hist P i -> ballot hist P' i.
Proof.
  intros Hl Hb. inversion Hb; subst.
  - eapply by_key; eauto; [by eapply names_like; [apply Hl|]|by rewrite <- (lk_version _ _ Hl)|by rewrite <- (lk_key _ _ Hl)].
  - eapply by_delegate; eauto; [by eapply names_like; [apply Hl|]|by rewrite <- (lk_delegate _ _ Hl)].
Qed.

(** ** The invariant *)

Abbreviation state := (gmap bytes Account).
Definition signer_at (m : state) (id : bytes) : option Signer := m !! id ≫= as_Signer.

(** A signer is stored under its URL. *)
Definition accs_ok (m : state) : Prop :=
  forall id s, signer_at m id = Some s -> AccountID32 (signer_Url s) = id /\ key_count s < 2 ^ 62.

(** The same signer, version and threshold. *)
Definition desc (C s : Signer) : Prop :=
  signer_Url s = signer_Url C /\ signer_Version s = signer_Version C /\ signer_Threshold s = signer_Threshold C.

(** [vs] has the version of each signer that its set is for; [exc] are signers of the
    status whose set is not yet stored. *)
Record inv (exc : Signer -> Prop) (hist : list Signature) (vs : gmap bytes Signer) (b : SigBatch) : Prop := {
  i_accs : accs_ok (accounts (sb_batch b));
  i_sorted : sorted scmp (ts_Signers (sb_status b));
  i_versions : forall id P, vs !! id = Some P ->
    exists C, signer_at (accounts (sb_batch b)) id = Some C /\ later P C;
  i_sets : forall id d, sb_sets b !! id = Some d ->
    exists P, vs !! id = Some P /\ ss_Version d = signer_Version P /\ set_ok d /\
      forall e, e ∈ ss_Entries d -> ballot hist P (KeyEntryIndex e);
  i_status : forall s, s ∈ ts_Signers (sb_status b) ->
    exc s \/ exists P, vs !! AccountID32 (signer_Url s) = Some P /\ desc P s
}.

Definition settled (s : Signer) : Prop := False.

Lemma desc_like P C s : like P C -> desc C s -> desc P s.
Proof. intros Hl (E1 & E2 & E3). split_and!; [rewrite (lk_url _ _ Hl)|rewrite (lk_version _ _ Hl)|rewrite (lk_threshold _ _ Hl)]; done. Qed.

Lemma desc_MakeLite C : (forall p n, C <> SgNetwork p n) -> desc C (MakeLiteSigner C).
Proof. destruct C; try done. intros Hn. by destruct (Hn _ _ eq_refl). Qed.

Lemma like_sym s t : like s t -> like t s.
Proof. intros []. by split. Qed.

Lemma signer_at_account m id C : signer_at m id = Some C -> forall p n, C <> SgNetwork p n.
Proof. unfold signer_at. destruct (m !! id) as [[]|]; try done; intros [= <-]; done. Qed.

Lemma set_ok_nil v : set_ok (mkSigSet v []).
Proof. by split; constructor. Qed.

(** The set of a stored signer, opened for writing: its entries are votes of the current
    version. *)
Lemma SignaturesForSigner_inv exc hist vs b C :
  inv exc hist vs b -> signer_at (accounts (sb_batch b)) (AccountID32 (signer_Url C)) = Some C ->
  let d := SignaturesForSigner C b in
  set_ok d /\ ss_Version d = signer_Version C /\
  (ss_Entries d <> [] -> exists P, vs !! AccountID32 (signer_Url C) = Some P /\ like P C) /\
  (forall P, vs !! AccountID32 (signer_Url C) = Some P -> signer_Url P = signer_Url C /\ (like P C \/ signer_Version P < signer_Version C)) /\
  (forall e, e ∈ ss_Entries d -> ballot hist C (KeyEntryIndex e)).
Proof.
  intros Hi HC. set (key := AccountID32 (signer_Url C)) in *.
  assert (Hlat : forall P, vs !! key = Some P -> signer_Url P = signer_Url C /\ (like P C \/ signer_Version P < signer_Version C)).
  { intros P HP. destruct (i_versions _ _ _ _ Hi key P HP) as (C' & HC' & HU & HL). rewrite HC in HC'. simplify_eq. tauto. }
  assert (Hno : forall e v, e ∈ ss_Entries (mkSigSet v []) -> ballot hist C (KeyEntryIndex e)) by (intros e v He; by apply elem_of_nil in He).
  pose proof set_ok_nil as Hnil. unfold SignaturesForSigner, ReadSignaturesForSigner. fold key.
  destruct (sb_sets b !! key) as [d|] eqn:Ed; cbn [default from_option]; unfold Datatypes.id.
  - destruct (i_sets _ _ _ _ Hi key d Ed) as (P & HP & Hv & Hok & Hbl).
    destruct (ss_Version d =? signer_Version C) eqn:Ev; cbn [negb].
    + assert (HL : like P C) by (destruct (Hlat P HP) as [_ []]; [done|lia]). split_and!; [done|lia|eauto|done|].
      intros e He. eapply ballot_like; eauto.
    + rewrite sigset_Reset_ok by done. split_and!; eauto. done.
  - unfold empty_set. cbn [ss_Version]. destruct (0 =? signer_Version C) eqn:Ev; cbn [negb].
    + split_and!; eauto; [cbn; lia|done].
    + rewrite sigset_Reset_ok by done. split_and!; eauto. done.
Qed.

(** Adding an entry to the set of a signer as it is stored, which the status may
    already list. *)
Lemma add_to_set_inv hist vs b b' i s C :
  inv (desc C) hist vs b -> signer_at (accounts (sb_batch b)) (AccountID32 (signer_Url C)) = Some C ->
  plain (mkSigEntry (SignatureType s) i (signatureHash s) None) -> ballot hist C i ->
  (forall k, s = SKey k -> SignerVersion k = signer_Version C /\ Equal (Some network_url) (Some (key_Signer k)) = false) ->
  add_to_set i s C b = Ok b' -> exists vs', inv settled hist vs' b' /\ sb_batch b' = sb_batch b.
Proof.
  intros Hi HC Hp Hb Hk. unfold add_to_set.
  assert ((match s with SKey k => Ok (if Equal (Some network_url) (Some (key_Signer k)) then Some (GetPublicKeyHash k) else None) | _ => Ok None end)
    = (Ok None : res (option bytes))) as ->.
  { destruct s as [k| | | | | |]; try done. by destruct (Hk k eq_refl) as [_ ->]. }
  cbn [res_bind]. destruct (SignaturesForSigner_inv _ _ _ _ _ Hi HC) as (Hok & Hv & Hne & Hlat & Hbl).
  set (key := AccountID32 (signer_Url C)) in *. set (d0 := SignaturesForSigner C b) in *.
  destruct (sigset_Add_ok (mkSigEntry (SignatureType s) i (signatureHash s) None) s d0 Hok Hp) as (d & new & -> & Hnew & Hold).
  { intros k Ek. rewrite Hv. symmetry. by apply Hk. }
  cbn [res_bind]. destruct new; cbn [negb]; last first.
  { intros [= <-]. exists vs. split; [|done]. destruct (Hne (Hold eq_refl)) as (P & HP & HL). destruct Hi as [H1 H2 H3 H4 H5]. split; try done.
    intros t Ht. right. destruct (H5 t Ht) as [Hd|HP']; [|done]. exists P. split; [|by eapply desc_like].
    destruct Hd as [-> _]. done. }
  unfold add_status_signer. intros Hb'. step Hb' b1 Hb1. step Hb1 l Hl. simplify_eq/=.
  destruct (Hnew eq_refl) as (Hv' & Hok' & Hin).
  destruct (AddSigner_ok C _ l (i_sorted _ _ _ _ Hi) Hl) as [Hs Hel]. clear Hl.
  exists (<[key := C]> vs). split; [|done]. destruct Hi as [H1 H2 H3 H4 H5]. split; cbn; try done.
  - intros id' P [[<- <-]|[Hn HP]]%lookup_insert_Some; [exists C; split; [done|apply later_refl]|eauto].
  - intros id' d' [[<- <-]|[Hn Hd]]%lookup_insert_Some.
    + exists C. rewrite lookup_insert_eq. split_and!; [done|congruence|done|]. intros e [->|He]%Hin; [done|by apply Hbl].
    + destruct (H4 id' d' Hd) as (P & HP & ?). exists P. by rewrite lookup_insert_ne.
  - intros t Ht. right. assert (Hd : desc C t -> exists P, <[key:=C]> vs !! AccountID32 (signer_Url t) = Some P /\ desc P t).
    { intros Hd. exists C. split; [|done]. destruct Hd as [-> _]. apply lookup_insert_eq. }
    destruct (Hel t Ht) as [[Ht' Hnew'] | -> ]; [|apply Hd, desc_MakeLite; by eapply signer_at_account].
    destruct (H5 t Ht') as [|(P & HP & HD)]; [auto|].
    destruct (decide (key = AccountID32 (signer_Url t))) as [E|Hn]; [|exists P; by rewrite lookup_insert_ne].
    rewrite <- E in HP. destruct (Hlat P HP) as (EU & [HL|HL]); [apply Hd; by eapply desc_like; [apply like_sym|]|].
    destruct HD as (E1 & E2 & _). destruct Hnew' as [Hc|Hc]; [|lia]. exfalso. apply Hc. unfold scmp. rewrite E1, EU. apply compare_refl; apply _.
Qed.

Lemma inv_frame exc hist vs b b' :
  inv exc hist vs b -> sb_batch b' = sb_batch b -> sb_sets b' = sb_sets b -> ts_Signers (sb_status b') = ts_Signers (sb_status b) ->
  inv exc hist vs b'.
Proof. intros [] E1 E2 E3. split; rewrite ?E1, ?E2, ?E3; done. Qed.

Lemma record_initiator_signers s C md st st' : record_initiator s C md st = Ok st' -> ts_Signers st' = ts_Signers st.
Proof.
  unfold record_initiator. destruct (negb _); [by intros [= ->]|]. intros H1. step H1 u Hu. destruct (ts_Initiator st).
  - destruct (negb _); [done|by simplify_eq].
  - by simplify_eq.
Qed.

Lemma add_chain_frame u h b :
  let b' := add_signature_chain u h b in sb_batch b' = sb_batch b /\ sb_sets b' = sb_sets b /\ sb_status b' = sb_status b.
Proof. unfold add_signature_chain. by case_bool_decide. Qed.

Lemma store_signature_inv x hist vs b b' st s to_store C delegate md :
  inv (desc C) hist vs b -> signer_at (accounts (sb_batch b)) (AccountID32 (signer_Url C)) = Some C ->
  ts_Signers st = ts_Signers (sb_status b) ->
  (forall i, entry_index s C delegate = Ok i -> plain (mkSigEntry (SignatureType s) i (signatureHash s) None) /\ ballot hist C i) ->
  (forall k, s = SKey k -> SignerVersion k = signer_Version C /\ Equal (Some network_url) (Some (key_Signer k)) = false) ->
  store_signature x txn s to_store C delegate md st b = Ok b' -> exists vs', inv settled hist vs' b' /\ sb_batch b' = sb_batch b.
Proof.
  intros Hi HC Est He Hk Hr. unfold store_signature in Hr. step Hr st' Hst. apply record_initiator_signers in Hst.
  set (b1 := set_sb_sigs _ (set_sb_status st' b)) in Hr.
  assert (Hi1 : inv (desc C) hist vs b1) by (eapply inv_frame; [done..|]; cbn; congruence).
  step Hr l1 Hl1. set (b2 := if l1 then _ else b1) in Hr.
  assert (E2 : sb_batch b2 = sb_batch b1 /\ sb_sets b2 = sb_sets b1 /\ sb_status b2 = sb_status b1) by (subst b2; destruct l1; [apply add_chain_frame|done]).
  step Hr l2 Hl2. set (b3 := if _ && l2 then _ else b2) in Hr.
  assert (E3 : sb_batch b3 = sb_batch b2 /\ sb_sets b3 = sb_sets b2 /\ sb_status b3 = sb_status b2) by (subst b3; destruct (_ && l2); [apply add_chain_frame|done]).
  destruct E2 as (A1 & A2 & A3), E3 as (B1 & B2 & B3). step Hr i Hidx. destruct (He i Hidx) as [Hp Hb].
  destruct (add_to_set_inv hist vs b3 b' i s C) as (vs' & Hi' & Eb); try done.
  - eapply inv_frame; [exact Hi1|congruence..].
  - rewrite B1, A1. done.
  - exists vs'. split; [done|]. rewrite Eb, B1, A1. done.
Qed.

(** *** Loading and storing a signer *)

Lemma loadSigner_ok u B C : loadSigner u B = Ok C -> signer_at (accounts B) (AccountID32 u) = Some C.
Proof.
  unfold loadSigner, GetState, signer_at. destruct (accounts B !! AccountID32 u) as [a|]; cbn; [|done].
  destruct (as_Signer a); [by intros [= ->]|done].
Qed.

Lemma validateSigner_ok u loc ca md B C :
  validateSigner txn u loc ca md B = Ok C ->
  exists v, lite_signer_url u = Ok v /\
    ((local_to v loc = Ok true /\ signer_at (accounts B) (AccountID32 v) = Some C) \/ C = SgUnknown v 0).
Proof.
  unfold validateSigner. intros Hr. step Hr v Hv. exists v. split; [done|]. step Hr local Hl. step Hr C' HC. step Hr fb Hf.
  assert (C' = C) as ->.
  { destruct (negb fb); [by simplify_eq|]. destruct (negb _); [by simplify_eq|]. step Hr ? _. by simplify_eq. }
  destruct local; [left; split; [done|by apply loadSigner_ok]|right; by simplify_eq].
Qed.

Lemma index_range h C i j : key_count C < 2 ^ 62 -> (forall p n, C <> SgNetwork p n) -> signer_EntryByKeyHash h C = Ok (Some (i, j)) -> 0 <= i < 2 ^ 62.
Proof.
  intros Hc Hn. destruct C as [a|p| |q n]; cbn [signer_EntryByKeyHash key_count] in *; [| |done|by destruct (Hn q n)].
  - destruct (Lite.ParseLiteIdentity _) as [[key|]| |]; try done. intros Hr. step Hr pr Hp. destruct (negb _); simplify_eq. lia.
  - intros Hr. step Hr o Ho. destruct o as [z|]; [|done]. step Hr ks Hk. simplify_eq. unfold index in Hk.
    destruct (i <? 0) eqn:Ei; [done|]. destruct (Keys p !! Z.to_nat i) eqn:E; [|done]. apply lookup_lt_Some in E. unfold zlen in *. lia.
Qed.

Lemma delegate_range u C i : key_count C < 2 ^ 62 -> signer_EntryByDelegate u C = Some i -> 0 <= i < 2 ^ 62.
Proof.
  intros Hc. destruct C as [a|p| |q n]; cbn [signer_EntryByDelegate key_count] in *; try done. unfold EntryByDelegate.
  generalize (S (length (Path u))). intros fuel. revert u. induction fuel as [|fuel IH]; intros u; cbn [entry_by_delegate]; [done|].
  destruct (ParseKeyPageUrl u) as [[bk j]|]; [apply IH|]. cbn. intros E.
  pose proof (delegate_index_ok u (Keys p) 0 ltac:(lia)) as Hd. rewrite E in Hd. destruct Hd as (H0 & (y & Hy & _) & _).
  apply lookup_lt_Some in Hy. unfold zlen in *. lia.
Qed.

(** Signers keep their URLs. *)
Definition urls_kept (m m' : state) : Prop :=
  forall id C', signer_at m' id = Some C' -> exists C, signer_at m id = Some C /\ signer_Url C = signer_Url C'.

Lemma urls_refl m : urls_kept m m.
Proof. intros id C HC. by exists C. Qed.

Lemma urls_trans m1 m2 m3 : urls_kept m1 m2 -> urls_kept m2 m3 -> urls_kept m1 m3.
Proof. intros H1 H2 id C HC. destruct (H2 id C HC) as (D & HD & E). destruct (H1 id D HD) as (D' & HD' & E'). exists D'. split; [done|congruence]. Qed.

Lemma put_signer_inv exc hist vs b b' C C' :
  inv exc hist vs b -> signer_at (accounts (sb_batch b)) (AccountID32 (signer_Url C)) = Some C -> like C C' -> put_signer C' b = Ok b' ->
  inv exc hist vs b' /\ signer_at (accounts (sb_batch b')) (AccountID32 (signer_Url C')) = Some C' /\
  urls_kept (accounts (sb_batch b)) (accounts (sb_batch b')).
Proof.
  intros Hi HC HL. unfold put_signer. destruct (signer_account C') as [a|] eqn:Ea; [|done]. intros Hr. step Hr B HB. simplify_eq/=.
  assert (Has : as_Signer a = Some C') by (by destruct C'; simplify_eq/=).
  assert (EB : accounts B = <[AccountID32 (signer_Url C') := a]> (accounts (sb_batch b))).
  { unfold PutState in HB. destruct (negb _); [done|]. destruct (GetAuth a) as [[[|]]|]; by simplify_eq/=. }
  assert (Hat : forall id, signer_at (accounts B) id = if decide (AccountID32 (signer_Url C') = id) then Some C' else signer_at (accounts (sb_batch b)) id).
  { intros id. unfold signer_at. rewrite EB. case_decide; simplify_map_eq; done. }
  destruct Hi as [H1 H2 H3 H4 H5]. split_and!.
  - split; cbn; try done.
    + intros id s. rewrite Hat. case_decide; [intros [= <-]|apply H1]. split; [done|]. rewrite <- (lk_count _ _ HL). by apply (H1 _ _ HC).
    + intros id P HP. destruct (H3 id P HP) as (D & HD & HPD). rewrite Hat. case_decide as E; [|by exists D].
      exists C'. split; [done|]. rewrite <- (lk_url _ _ HL) in E. rewrite <- E, HC in HD. simplify_eq.
      eapply later_trans; [done|]. split; [apply HL|by right].
  - rewrite Hat. by rewrite decide_True.
  - intros id D. rewrite Hat. case_decide as E; [|by exists D]. intros [= <-]. exists C. rewrite <- E, <- (lk_url _ _ HL). split; [done|done].
Qed.

Lemma status_inv hist vs b b' C :
  inv settled hist vs b -> signer_at (accounts (sb_batch b)) (AccountID32 (signer_Url C)) = Some C ->
  add_status_signer C b = Ok b' -> inv (desc C) hist vs b' /\ sb_batch b' = sb_batch b.
Proof.
  intros Hi HC Hr. unfold add_status_signer in Hr. step Hr l Hl. simplify_eq/=. split; [|done].
  destruct (AddSigner_ok C _ l (i_sorted _ _ _ _ Hi) Hl) as [Hs Hel]. destruct Hi as [H1 H2 H3 H4 H5]. split; cbn; try done.
  intros t Ht. destruct (Hel t Ht) as [[Ht' _] | -> ]; [|left; apply desc_MakeLite; by eapply signer_at_account].
  destruct (H5 t Ht') as [|?]; [done|by right].
Qed.

Lemma inv_weaken exc hist vs b : inv settled hist vs b -> inv exc hist vs b.
Proof. intros [H1 H2 H3 H4 H5]. split; try done. intros s Hs. destruct (H5 s Hs) as [[]|]; auto. Qed.

(** The signer of a key signature, as it is stored when the signature is accepted. *)
Lemma processKeySignature_inv x hist vs b b' k md ca C' :
  IsUser (TransactionType (Body txn)) = true -> inv settled hist vs b -> processKeySignature x txn k md ca b = Ok (C', b') ->
  inv (desc C') hist vs b' /\ signer_at (accounts (sb_batch b')) (AccountID32 (signer_Url C')) = Some C' /\
  urls_kept (accounts (sb_batch b)) (accounts (sb_batch b')) /\ SignerVersion k = signer_Version C' /\
  (exists i j, signer_EntryByKeyHash (GetPublicKeyHash k) C' = Ok (Some (i, j))) /\
  exists v, lite_signer_url (key_Signer k) = Ok v /\ AccountID32 v = AccountID32 (signer_Url C') /\ local_to v (Location md) = Ok true.
Proof.
  intros HU Hi Hr. unfold processKeySignature in Hr. step Hr [C b1] H1. step Hr i Hki. rewrite HU in Hr. cbn [negb] in Hr.
  step Hr fee _. destruct (signer_DebitCredits fee C) as [C1|] eqn:Hd; [|done].
  set (C2 := if negb (Timestamp k =? 0) then _ else C1) in Hr.
  assert (HL : like C C2).
  { apply signer_DebitCredits_like in Hd. subst C2. destruct (negb _); [|done]. eapply like_trans; [done|apply set_LastUsedOn_like]. }
  clearbody C2. step Hr b2 Hp. injection Hr as <- <-.
  unfold validateKeySignature in Hki. rewrite HU in Hki. cbn [andb] in Hki. destruct (negb (SignerVersion k =? _)) eqn:Ev; [done|].
  step Hki o Ho. destruct o as [[i' j]|]; [|done].
  unfold processSigner in H1. cbn [GetSigner res_bind] in H1. step H1 C0 HC. step H1 loc Hloc.
  destruct (validateSigner_ok _ _ _ _ _ _ HC) as (v & Hv & [[Hlv Hat]| -> ]); last first.
  { destruct (negb loc); [by simplify_eq|]. step H1 ? _. by simplify_eq. }
  destruct (i_accs _ _ _ _ Hi _ _ Hat) as [Eid Hcnt].
  assert (C0 = C /\ inv (desc C) hist vs b1 /\ sb_batch b1 = sb_batch b) as (-> & Hi1 & Eb).
  { destruct (negb loc).
    - simplify_eq. split; [done|]. split; [by apply inv_weaken|done].
    - step H1 b1' Ha. simplify_eq. split; [done|]. eapply status_inv; [done| |done]. by rewrite Eid. }
  rewrite <- Eid in Hat. rewrite <- Eb in Hat. destruct (put_signer_inv _ _ _ _ _ _ _ Hi1 Hat HL Hp) as (Hi2 & Hat2 & Hu).
  rewrite <- Eb. split_and!; try done.
  - destruct Hi2 as [A1 A2 A3 A4 A5]. split; try done. intros s Hs. destruct (A5 s Hs) as [Hd'|]; [left|by right]. by eapply desc_like; [apply like_sym|].
  - rewrite <- (lk_version _ _ HL). lia.
  - pose proof (lk_key _ _ HL (GetPublicKeyHash k)) as Ek. unfold index_of in Ek. rewrite Ho in Ek.
    destruct (signer_EntryByKeyHash _ C2) as [[[i2 j2]|]| |]; try done. by do 2 eexists.
  - exists v. rewrite <- (lk_url _ _ HL). done.
Qed.

(** *** Delegates *)

Lemma no_votes hist P n : n <= 0 -> quorum hist P n.
Proof. intros Hn. apply (votes _ _ _ []); [apply NoDup_nil_2|done|]. intros i Hi. by apply elem_of_nil in Hi. Qed.

(** The entries of the set of a satisfied signer are a quorum of the version the set is
    for. *)
Lemma satisfied_quorum exc hist vs b D :
  inv exc hist vs b -> SignerIsSatisfied D b = true ->
  signer_Threshold D <= 0 \/ exists P, vs !! AccountID32 (signer_Url D) = Some P /\ quorum hist P (signer_Threshold D).
Proof.
  intros Hi. unfold SignerIsSatisfied, ReadSignaturesForSigner. destruct (sb_sets b !! AccountID32 (signer_Url D)) as [d|] eqn:Ed;
    cbn [default from_option]; unfold Datatypes.id; last by (intros Hn; left; apply Z.leb_le in Hn).
  destruct (i_sets _ _ _ _ Hi _ d Ed) as (P & HP & _ & Hok & Hb). intros [(e & He & Et)%existsb_exists|Hn]%orb_true_iff; right.
  - destruct Hok as [HF _]. apply list_elem_of_In in He. rewrite Forall_forall in HF. destruct (HF e He) as (_ & Hne & _). lia.
  - exists P. split; [done|]. apply (votes _ _ _ (KeyEntryIndex <$> ss_Entries d)); [by apply set_indexes| |].
    + rewrite length_fmap. unfold u64, zlen in Hn. pose proof (Z.mod_le (Z.of_nat (length (ss_Entries d))) (2 ^ 64) ltac:(lia) ltac:(lia)). lia.
    + intros i (e & -> & He)%list_elem_of_fmap. by apply Hb.
Qed.

(** For a stored signer the version is the current or an earlier one. *)
Lemma stored_quorum exc hist vs b D :
  inv exc hist vs b -> signer_at (accounts (sb_batch b)) (AccountID32 (signer_Url D)) = Some D -> SignerIsSatisfied D b = true ->
  exists Q, later Q D /\ quorum hist Q (signer_Threshold D).
Proof.
  intros Hi HD Hs. destruct (satisfied_quorum _ _ _ _ _ Hi Hs) as [Hn|(P & HP & Hq)].
  - exists D. split; [apply later_refl|by apply no_votes].
  - destruct (i_versions _ _ _ _ Hi _ P HP) as (C & HC & HL). rewrite HD in HC. simplify_eq. eauto.
Qed.

(** The account under the URL a signature names is in the same identity. *)
Definition honest (m : state) (u : URL) : Prop :=
  forall v C, lite_signer_url u = Ok v -> signer_at m (AccountID32 v) = Some C -> LocalTo (signer_Url C) v = true.

Lemma honest_mono m m' u : urls_kept m m' -> honest m u -> honest m' u.
Proof. intros Hu Hh v C Hv HC. destruct (Hu _ _ HC) as (D & HD & <-). by apply Hh. Qed.

Lemma LocalTo_trans u v w : LocalTo u v = true -> LocalTo v w = true -> LocalTo u w = true.
Proof.
  unfold LocalTo. rewrite <- !Compare_zero. intros H1 H2. change (equiv_ Compare (RootIdentity u) (RootIdentity w)).
  etrans; [exact H1|exact H2].
Qed.

Lemma check_delegation_ok C r D : check_delegation C r = Ok D -> r = Some D /\ is_Some (signer_EntryByDelegate (signer_Url D) C).
Proof. unfold check_delegation. destruct r as [[]|]; try done; case_bool_decide; intros [= <-]; done. Qed.

Definition local_signer (m : state) (md : SigMetadata) (D : Signer) : Prop :=
  signer_at m (AccountID32 (signer_Url D)) = Some D /\ local_to (signer_Url D) (Location md) = Ok true.

Lemma honest_local m u v md C :
  honest m u -> lite_signer_url u = Ok v -> AccountID32 v = AccountID32 (signer_Url C) ->
  signer_at m (AccountID32 (signer_Url C)) = Some C -> local_to v (Location md) = Ok true -> local_signer m md C.
Proof.
  intros Hh Hv E HC Hl. split; [done|]. unfold local_to in *. destruct (Location md) as [loc|]; [|done]. injection Hl as Hl. f_equal.
  eapply LocalTo_trans; [|exact Hl]. apply Hh; [done|]. by rewrite E.
Qed.

(** A delegated signature, after the signature within. *)
Lemma finish_delegated_inv x hist vs b b' r s inner u C D md :
  s ∈ hist -> verified s -> u ∈ delegators s -> names u C ->
  inv settled hist vs b -> signer_at (accounts (sb_batch b)) (AccountID32 (signer_Url C)) = Some C ->
  local_signer (accounts (sb_batch b)) md D -> is_Some (signer_EntryByDelegate (signer_Url D) C) ->
  finish_signature x txn (SDelegated inner u) C (Some D) md b = Ok (r, b') ->
  r = Some C /\ exists vs', inv settled hist vs' b' /\ sb_batch b' = sb_batch b.
Proof.
  intros Hs Hv Hu Hn Hi HC [HD Hloc] [i Hidx] Hr. unfold finish_signature in Hr. cbn [validateInitialSignature res_bind] in Hr.
  step Hr tl _. set (b1 := if tl then set_sb_stored true b else b) in Hr. cbn [capture_status res_bind] in Hr.
  assert (E1 : sb_batch b1 = sb_batch b /\ sb_sets b1 = sb_sets b /\ sb_status b1 = sb_status b) by (by subst b1; destruct tl).
  destruct E1 as (E1 & E2 & E3). clearbody b1.
  assert (Hi1 : inv settled hist vs b1) by (eapply inv_frame; [done..|]; congruence). rewrite <- E1 in HC, HD.
  rewrite Hloc in Hr. cbn [res_bind negb] in Hr. destruct (SignerIsSatisfied D b1) eqn:Hsat; cbn [negb] in Hr; [|simplify_eq; eauto].
  step Hr l _. step Hr b2 Hb2. injection Hr as <- <-. split; [done|]. destruct (stored_quorum _ _ _ _ _ Hi1 HD Hsat) as (Q & HQ & Hq).
  rewrite <- E1. eapply store_signature_inv; [..|exact Hb2]; [by apply inv_weaken|done|done| |done].
  intros j. cbn [entry_index]. rewrite Hidx. cbn [default from_option]. intros [= <-].
  destruct (i_accs _ _ _ _ Hi1 _ _ HC) as [_ Hcnt]. pose proof (delegate_range _ _ _ Hcnt Hidx). unfold Datatypes.id. rewrite u64_small by (unfold is_u64; lia).
  split; [by split_and!; cbn; try lia|]. by eapply by_delegate.
Qed.

Lemma processSignature_inv x hist s :
  IsUser (TransactionType (Body txn)) = true -> x_IsForwarded x = false -> x_Internal x = false -> s ∈ hist -> verified s ->
  forall s' md vs b r b',
  core s' = core s -> delegators s' ⊆ delegators s -> Forwarded md = false ->
  (forall k, core s = Some k -> Equal (Some network_url) (Some (key_Signer k)) = false /\ honest (accounts (sb_batch b)) (key_Signer k)) ->
  (forall u, u ∈ delegators s -> honest (accounts (sb_batch b)) u) ->
  inv settled hist vs b -> processSignature x txn s' md b = Ok (r, b') ->
  exists vs', inv settled hist vs' b' /\ urls_kept (accounts (sb_batch b)) (accounts (sb_batch b')) /\
    forall D, r = Some D -> local_signer (accounts (sb_batch b')) md D.
Proof.
  intros HU HF HI Hs Hv. assert (Hsys : is_synth_or_system txn = false).
  { unfold is_synth_or_system. revert HU. unfold IsUser, IsSynthetic, IsSystem. lia. }
  induction s' as [k|src proof h|src dst n h|vt sg h ss|dst s' IH|inner IH u|c h]; intros md vs b r b' Hcore Hdel Hfw Hkey Hhon Hi Hr; cbn [processSignature] in Hr.
  - destruct (negb (Nested md) && _); [done|]. rewrite HU in Hr. step Hr loc _. step Hr [C b1] Hk. rewrite Hfw in Hr. cbn [andb] in Hr.
    destruct (processKeySignature_inv _ _ _ _ _ _ _ _ _ HU Hi Hk) as (Hi1 & HC & Hu & Hver & (i & j & Hidx) & v & Hlv & Eid & Hlv').
    destruct (Hkey k (eq_sym Hcore)) as [Hnet Hh].
    unfold finish_signature in Hr. step Hr ? _. step Hr tl _. set (b2 := if tl then set_sb_stored true b1 else b1) in Hr.
    assert (E2 : sb_batch b2 = sb_batch b1 /\ sb_sets b2 = sb_sets b1 /\ sb_status b2 = sb_status b1) by (by subst b2; destruct tl).
    destruct E2 as (E1 & E2 & E3). clearbody b2. cbn [capture_status res_bind] in Hr. step Hr b3 Hst. injection Hr as <- <-.
    destruct (store_signature_inv x hist vs b2 b3 (sb_status b2) (SKey k) (SKey k) C None md) as (vs' & Hi' & Eb); try done.
    + eapply inv_frame; [done..|]; congruence.
    + by rewrite E1.
    + intros z. cbn [entry_index]. rewrite Hidx. cbn [res_bind]. intros [= <-].
      destruct (i_accs _ _ _ _ Hi1 _ _ HC) as [_ Hcnt]. pose proof (index_range _ _ _ _ Hcnt (signer_at_account _ _ _ HC) Hidx).
      rewrite u64_small by (unfold is_u64; lia). split; [by destruct k as [[]]; split_and!; cbn; try lia|].
      eapply by_key; [done..| | |]; [by exists v|done|]. unfold index_of. by rewrite Hidx.
    + intros k' [= <-]. done.
    + exists vs'. rewrite Eb, E1. split; [done|]. split; [done|]. intros D [= <-].
      eapply honest_local; [by eapply honest_mono|done..].
  - unfold verifyReceiptSignature in Hr. destruct (Nested md); [done|]. by rewrite Hsys in Hr.
  - unfold verifyPartitionSignature in Hr. destruct (Nested md); [done|]. by rewrite Hsys in Hr.
  - by rewrite HF in Hr.
  - destruct (Nested md); [done|]. by rewrite HF in Hr.
  - step Hr [r1 b1] H1. apply wrapf_Ok in H1. destruct (IH (SetDelegated md) vs b r1 b1) as (vs1 & Hi1 & Hu1 & Hr1); try done.
    { set_solver. }
    step Hr valid _. destruct (negb valid); [done|]. step Hr local Hl. destruct local; cbn [negb] in Hr; [|simplify_eq; by exists vs1].
    step Hr C HC. step Hr D HD. apply check_delegation_ok in HD as [-> Hisd]. destruct (Hr1 D eq_refl) as [HD1 HD2].
    destruct (validateSigner_ok _ _ _ _ _ _ HC) as (v & Hlv & [[Hll Hat]| -> ]); [|by destruct Hisd].
    destruct (i_accs _ _ _ _ Hi1 _ _ Hat) as [Eid _]. rewrite <- Eid in Hat.
    assert (Hu : u ∈ delegators s) by (apply Hdel; cbn; by left).
    destruct (finish_delegated_inv x hist vs1 b1 b' r s inner u C D md) as (-> & vs' & Hi' & Eb); try done; [by exists v|].
    exists vs'. rewrite Eb. split; [done|]. split; [done|]. intros D' [= <-]. eapply honest_local; [by eapply honest_mono; [|apply Hhon]|done..].
  - unfold verifyInternalSignature in Hr. destruct (Nested md); [done|]. by rewrite HI in Hr.
Qed.

(** ** Runs *)

(** An accepted signature verifies. *)
Lemma processSignature_verified x s md b r b' :
  IsUser (TransactionType (Body txn)) = true -> x_IsForwarded x = false -> x_Internal x = false -> Nested md = false ->
  processSignature x txn s md b = Ok (r, b') -> verified s.
Proof.
  intros HU HF HI Hn. assert (Hsys : is_synth_or_system txn = false).
  { unfold is_synth_or_system. revert HU. unfold IsUser, IsSynthetic, IsSystem. lia. }
  destruct s; cbn [processSignature]; intros Hr; cbn [verified].
  - rewrite Hn in Hr. cbn [negb andb] in Hr. by destruct (key_Verify _ _ _).
  - unfold verifyReceiptSignature in Hr. by rewrite Hn, Hsys in Hr.
  - unfold verifyPartitionSignature in Hr. by rewrite Hn, Hsys in Hr.
  - by rewrite HF in Hr.
  - by rewrite Hn, HF in Hr.
  - step Hr [r1 b1] _. rewrite Hn in Hr. step Hr valid Hv. step Hv m Hm. exists m. split; [done|]. injection Hv as Hv. rewrite Hv. by destruct valid.
  - unfold verifyInternalSignature in Hr. by rewrite Hn, HI in Hr.
Qed.

(** The signatures of a run are not forwarded from another partition, are not made with
    the keys of validators, and name accounts of the identity they are stored in. *)
Definition admissible (x : Context_) (s : Signature) (b : SigBatch) : Prop :=
  x_IsForwarded x = false /\ x_Internal x = false /\
  (forall k, core s = Some k -> Equal (Some network_url) (Some (key_Signer k)) = false /\ honest (accounts (sb_batch b)) (key_Signer k)) /\
  (forall u, u ∈ delegators s -> honest (accounts (sb_batch b)) u).

(** The records of the transaction after the signatures [hist] were accepted, latest
    first.  In between, other transactions change the accounts; a change to a signer's
    keys, delegates or threshold comes with a new version. *)
Inductive reach : list Signature -> SigBatch -> Prop :=
  | reach_new B : accs_ok (accounts B) -> reach [] (mkSB B new_status ∅ ∅ ∅ false)
  | reach_sign hist b x s b' :
      reach hist b -> admissible x s b -> ProcessSignature x txn s b = Ok b' -> reach (s :: hist) b'
  | reach_accounts hist b B :
      reach hist b -> accs_ok (accounts B) ->
      (forall id C, signer_at (accounts (sb_batch b)) id = Some C -> exists C', signer_at (accounts B) id = Some C' /\ later C C') ->
      reach hist (set_sb_batch B b).

Lemma inv_mono exc hist hist' vs b : hist ⊆ hist' -> inv exc hist vs b -> inv exc hist' vs b.
Proof.
  intros Hs [H1 H2 H3 H4 H5]. split; try done. intros id d Hd. destruct (H4 id d Hd) as (P & HP & Hv & Hok & Hb).
  exists P. split_and!; try done. intros e He. eapply ballot_mono; eauto.
Qed.

Lemma reach_inv hist b : IsUser (TransactionType (Body txn)) = true -> reach hist b -> exists vs, inv settled hist vs b.
Proof.
  intros HU. induction 1 as [B HB|hist b x s b' _ [vs Hi] (HF & HI & Hk & Hd) Hp|hist b B _ [vs Hi] HB Hl].
  - exists ∅. split; cbn; try done; [constructor|]. intros s Hs. by apply elem_of_nil in Hs.
  - unfold ProcessSignature in Hp. step Hp ? _. step Hp init _. step Hp loc _. step Hp [r b1] Hp'. simplify_eq.
    pose proof (processSignature_verified x s (mkMd loc init false false) b r _ HU HF HI eq_refl Hp') as Hv.
    apply (inv_mono _ _ (s :: hist)) in Hi; [|set_solver].
    destruct (processSignature_inv x (s :: hist) s HU HF HI (list_elem_of_here _ _) Hv s (mkMd loc init false false) vs b r _ eq_refl (reflexivity _) eq_refl Hk Hd Hi Hp') as (vs' & Hi' & _).
    by exists vs'.
  - exists vs. destruct Hi as [H1 H2 H3 H4 H5]. split; cbn; try done. intros id P HP. destruct (H3 id P HP) as (C & HC & HL).
    destruct (Hl id C HC) as (C' & HC' & HL'). exists C'. split; [done|]. by eapply later_trans.
Qed.

(** ** The theorem *)

(** A signer under an authority: the authority itself, one of its children, or one whose URL is
    between two children that signed as well. *)
Definition under (u : URL) (l : list Signer) (s : Signer) : Prop :=
  s ∈ l /\ (Compare (signer_Url s) u = 0 \/ ParentOf u (signer_Url s) = true \/
    exists t1 t2, t1 ∈ l /\ t2 ∈ l /\ ParentOf u (signer_Url t1) = true /\ ParentOf u (signer_Url t2) = true /\
      Compare (signer_Url t1) (signer_Url s) < 0 /\ Compare (signer_Url s) (signer_Url t2) < 0).

Lemma FindSigners_under u l r s : sorted scmp l -> FindSigners u l = Ok r -> s ∈ r -> under u l s.
Proof.
  intros Hs. set (c := fun s => Compare (signer_Url s) u). assert (Hc : ge_mono c l) by apply (sorted_ge_mono scmp l (SgUnknown u 0) Hs).
  unfold FindSigners. fold c. destruct (Search_ok l c Hc) as (k & Hk & ->). cbn [res_bind]. pose proof (fun j t => first_ge_iff l c k j t Hc Hk) as Hge.
  destruct (Z.leb_spec (zlen l) (Z.of_nat k)) as [_|Hlen]; [by intros [= <-] ?%elem_of_nil|]. unfold zlen in Hlen.
  destruct (lookup_lt_is_Some_2 l k) as [y Hy]; [lia|]. rewrite (index_ok _ _ _ Hy), Hy. cbn [res_bind].
  destruct (Z.eqb_spec (c y) 0) as [E0|E0]; [intros [= <-] ->%list_elem_of_singleton; split; [by eapply list_elem_of_lookup_2|by left]|].
  destruct (ParentOf u (signer_Url y)) eqn:Epar; cbn [negb]; [|by intros [= <-] ?%elem_of_nil]. intros Hr Hin. step Hr j Hj.
  apply sort_search_edge in Hj as (Hjr & Hlo & _); [|unfold zlen; lia]. rewrite slice_to_ok in Hr by lia. cbn [res_bind] in Hr.
  destruct (Z_lt_dec j (Z.of_nat k)) as [Hjk|Hjk].
  { unfold slice_from, zlen in Hr. rewrite length_take in Hr. rewrite (proj2 (Z.leb_gt (Z.of_nat k) _)) in Hr by (unfold zlen in Hjr; lia). by rewrite andb_false_r in Hr. }
  rewrite slice_from_ok in Hr by (unfold zlen in *; rewrite length_take; lia). injection Hr as <-. rewrite Nat2Z.id in Hin.
  apply list_elem_of_lookup in Hin as [q Hq]. rewrite lookup_drop, lookup_take in Hq. case_decide as Hqj; [|done]. split; [by eapply list_elem_of_lookup_2|]. right.
  destruct (decide (q = O)) as [->|Hq0]; [left; rewrite Nat.add_0_r in Hq; by simplify_eq|].
  destruct Hlo as [->|Hf]; [lia|]. destruct (lookup_lt_is_Some_2 l (Z.to_nat (j - 1))) as [t Ht]; [unfold zlen in Hjr; lia|].
  pose proof (index_ok _ _ _ Ht) as Hit. rewrite Z2Nat.id in Hit by lia. rewrite Hit in Hf. cbn [res_bind] in Hf.
  assert (Hct : 0 <= c t) by (apply (Hge _ _ Ht); lia). change (Compare (signer_Url t) u) with (c t) in Hf. rewrite (proj2 (Z.ltb_ge _ _)) in Hf by done. injection Hf as Hp%negb_false_iff.
  destruct (decide (k + q = Z.to_nat (j - 1))%nat) as [Ej|Hne]; [left; rewrite Ej in Hq; by simplify_eq|right].
  exists y, t. split; [by eapply list_elem_of_lookup_2|]. split; [by eapply list_elem_of_lookup_2|]. split; [done|]. split; [done|].
  split; [apply (sorted_lookup scmp l k (k + q) y s Hs); [lia|done|done]|apply (sorted_lookup scmp l (k + q) (Z.to_nat (j - 1)) s t Hs); [lia|done|done]].
Qed.

Lemma authority_satisfied u hist vs b :
  inv settled hist vs b -> AuthorityIsSatisfied u b = Ok true ->
  exists s P, under u (ts_Signers (sb_status b)) s /\ desc P s /\ quorum hist P (signer_Threshold s).
Proof.
  intros Hi Hr. unfold AuthorityIsSatisfied in Hr. step Hr l Hl. injection Hr as (s & Hs & Hsat)%existsb_exists.
  apply list_elem_of_In in Hs. pose proof (FindSigners_under _ _ _ _ (i_sorted _ _ _ _ Hi) Hl Hs) as Hu. destruct (i_status _ _ _ _ Hi s (proj1 Hu)) as [[]|(P & HP & HD)].
  exists s, P. split_and!; [done..|].
  destruct (satisfied_quorum _ _ _ _ _ Hi Hsat) as [Hn|(P' & HP' & Hq)]; [by apply no_votes|]. rewrite HP in HP'. by simplify_eq.
Qed.

Lemma authorities_ready_all force l b e :
  authorities_ready force l b = Ok true -> e ∈ l -> Disabled e = false \/ force = true -> AuthorityIsSatisfied (auth_Url e) b = Ok true.
Proof.
  intros Hr He Hd. revert Hr. induction He as [e l|e e' l He IH]; cbn [authorities_ready]; intros Hr.
  - destruct (Disabled e && negb force) eqn:E; [destruct Hd as [Hd|Hd]; rewrite Hd in E; by rewrite ?andb_false_r in E|].
    step Hr ok Hok. by destruct ok.
  - destruct (_ && _); [auto|]. step Hr ok Hok. destruct ok; [auto|done].
Qed.

(** C2. Whoever signs, in whatever order: when a transaction that follows the general rule is
    ready, then for every authority of its principal that is enabled (or every one, when the
    type demands it) some signer under that authority (the authority itself, a child of it, or
    a signer whose URL is between two of its children) has as many votes as its threshold,
    each of a different entry of one version of that signer.  A vote is a signature that
    verifies for the entry's key, or a quorum of the delegate the entry names.  In between,
    other transactions may change the accounts, as long as a signer whose entries or threshold
    change gets a new version (which [UpdateKey] does not do); the signatures are not
    forwarded, not made with the keys of validators, and name signers by the URL they are
    stored with ([admissible]). *)
Theorem ready_is_authorized x a auth e hist b :
  IsUser (TransactionType (Body txn)) = true -> TransactionType (Body txn) <> 22 -> x_Internal x = false ->
  reach hist b -> default (Ok None) (validator_TransactionIsReady txn b) = Ok None ->
  GetAccountAuthoritySet a (sb_batch b) = Ok auth ->
  userTransactionIsReady x txn (Some a) b = Ok true ->
  e ∈ Authorities auth -> Disabled e = false \/ RequireAuthorization (TransactionType (Body txn)) = true ->
  exists s P, under (auth_Url e) (ts_Signers (sb_status b)) s /\ desc P s /\ quorum hist P (signer_Threshold s).
Proof.
  intros HU H22 HI Hreach Hval Hauth Hr He Hd. destruct (reach_inv hist b HU Hreach) as [vs Hi].
  eapply authority_satisfied; [done|]. unfold userTransactionIsReady in Hr. destruct (ts_Initiator _); [|done].
  rewrite HI in Hr. destruct (bool_decide _ && _); [done|]. destruct (Z.eqb_spec (TransactionType (Body txn)) 22); [done|].
  destruct (validator_TransactionIsReady txn b) as [r|]; cbn in Hval; [rewrite Hval in Hr|]; cbn [res_bind] in Hr; rewrite Hauth in Hr;
    by eapply authorities_ready_all.
Qed.

End Authorization.

(** Both keys of the page sign. *)
Definition signed (b : SigBatch) (s : KeySignature) : SigBatch :=
  match @ProcessSignature demo_crypto vote_context vote_txn (SKey s) b with Ok b => b | _ => b end.
Definition vote_one : SigBatch := signed vote_start (vote_signature Byte.x01 1).
Definition vote_two : SigBatch := signed vote_one (vote_signature Byte.x04 2).
Definition two_votes : list Signature := [SKey (vote_signature Byte.x04 2); SKey (vote_signature Byte.x01 1)].

Lemma vote_accs : accs_ok (accounts vote_batch).
Proof.
  intros id s. unfold signer_at, vote_batch. cbn [accounts]. rewrite !lookup_insert, lookup_singleton.
  repeat case_decide; subst; cbn [as_Signer mbind option_bind]; try done.
  intros [= <-]. split; [done|]. by vm_compute.
Qed.

Lemma vote_admissible b k :
  key_Signer k = kpg_Url vote_page -> (forall C, signer_at (accounts (sb_batch b)) (AccountID32 (kpg_Url vote_page)) = Some C -> signer_Url C = kpg_Url vote_page) ->
  admissible vote_context (SKey k) b.
Proof.
  intros Ek Hat. split_and!; [done..| |by intros u Hu; apply elem_of_nil in Hu]. intros k' [= <-]. rewrite Ek. split; [by vm_compute|].
  intros v C Hv HC. assert (v = kpg_Url vote_page) as -> by (vm_compute in Hv; by injection Hv). rewrite (Hat C HC). by vm_compute.
Qed.

Lemma signed_ok b s :
  (match @ProcessSignature demo_crypto vote_context vote_txn (SKey s) b with Ok _ => true | _ => false end) = true ->
  @ProcessSignature demo_crypto vote_context vote_txn (SKey s) b = Ok (signed b s).
Proof. unfold signed. by destruct (ProcessSignature _ _ _ _). Qed.

Lemma vote_page_url b : bool_decide (signer_Url <$> signer_at (accounts (sb_batch b)) (AccountID32 (kpg_Url vote_page)) = Some (kpg_Url vote_page)) = true ->
  forall C, signer_at (accounts (sb_batch b)) (AccountID32 (kpg_Url vote_page)) = Some C -> signer_Url C = kpg_Url vote_page.
Proof. intros Hb%bool_decide_eq_true C HC. rewrite HC in Hb. by injection Hb. Qed.

Lemma vote_reach : reach (H := demo_crypto) vote_txn two_votes vote_two.
Proof.
  refine (reach_sign _ [SKey (vote_signature Byte.x01 1)] vote_one vote_context _ _ _ _ (signed_ok _ _ _)).
  - refine (reach_sign _ [] vote_start vote_context _ _ (reach_new _ _ vote_accs) _ (signed_ok _ _ _)).
    + apply vote_admissible; [reflexivity|]. apply vote_page_url. vm_compute. reflexivity.
    + vm_compute. reflexivity.
  - apply vote_admissible; [reflexivity|]. apply vote_page_url. vm_compute. reflexivity.
  - vm_compute. reflexivity.
Qed.

Lemma ready_is_authorized_witness :
  userTransactionIsReady vote_context vote_txn (Some demo_account) vote_two = Ok true /\
  exists s P, under demo_book (ts_Signers (sb_status vote_two)) s /\ desc P s /\
    quorum (H := demo_crypto) vote_txn two_votes P (signer_Threshold s).
Proof.
  assert (Hr : userTransactionIsReady vote_context vote_txn (Some demo_account) vote_two = Ok true) by (vm_compute; reflexivity).
  split; [exact Hr|].
  apply (ready_is_authorized (H := demo_crypto) vote_txn vote_context demo_account (mkAuth [mkAuthority demo_book false]) (mkAuthority demo_book false) two_votes vote_two);
    [reflexivity|discriminate|reflexivity|exact vote_reach|reflexivity|reflexivity|exact Hr|by left|by left].
Defined.
