(* ===== verification/Ledger.v ===== *)
(** * The exchange ledger between two partitions: [protocol/ledger.go], [protocol/system.go]

    Per source partition a ledger keeps the highest numbers received and delivered and
    the transactions that came out of order.  Under receptions past the delivered number
    and deliveries in order it implements a window of sequence numbers. *)

From S2P Require Import Prelude SortUtil Url Accounts.
Local Open Scope Z_scope.
Import Url TxID.

(** ** The exchange ledger *)

Record TransactionExchangeLedger := mkExchange {
  tel_Url : URL; Produced : Z; Acknowledged : Z; Received : Z; Delivered : Z; Pending : list (option TxID) }.

Definition set_Produced (n : Z) (s : TransactionExchangeLedger) :=
  mkExchange (tel_Url s) n (Acknowledged s) (Received s) (Delivered s) (Pending s).
Definition set_Received (n : Z) (s : TransactionExchangeLedger) :=
  mkExchange (tel_Url s) (Produced s) (Acknowledged s) n (Delivered s) (Pending s).
Definition set_Delivered (n : Z) (s : TransactionExchangeLedger) :=
  mkExchange (tel_Url s) (Produced s) (Acknowledged s) (Received s) n (Pending s).
Definition set_Pending (l : list (option TxID)) (s : TransactionExchangeLedger) :=
  mkExchange (tel_Url s) (Produced s) (Acknowledged s) (Received s) (Delivered s) l.

(** [make([]*url.TxID, n)] panics when the slice does not fit the address space of 2^48
    bytes. *)
Definition make_txids (n : Z) : res (list (option TxID)) :=
  if 2 ^ 45 <? n then Panic "makeslice: len out of range" else Ok (replicate (Z.to_nat n) None).

Definition Ledger_Add (delivered : bool) (sequenceNumber : Z) (txid : TxID) (s : TransactionExchangeLedger)
    : res (TransactionExchangeLedger * bool) :=
  let '(s, dirty) := if Received s <? sequenceNumber then (set_Received sequenceNumber s, true) else (s, false) in
  if delivered then
    let '(s, dirty) := if Delivered s <? sequenceNumber then (set_Delivered sequenceNumber s, true) else (s, dirty) in
    match Pending s with
    | [] => Ok (s, dirty)
    | _ :: l => Ok (set_Pending l s, true)
    end
  else
    let n := u64 (Received s - Delivered s - zlen (Pending s)) in
    let! (s, dirty) := if 0 <? n then let! l := make_txids n in Ok (set_Pending (Pending s ++ l) s, true)
                       else Ok (s, dirty) in
    if sequenceNumber <=? Delivered s then Panic "already delivered"
    else
      let i := u64 (sequenceNumber - Delivered s - 1) in
      let! p := index (Pending s) i in
      match p with
      | None => Ok (set_Pending (<[Z.to_nat i := Some txid]> (Pending s)) s, true)
      | Some _ => Ok (s, dirty)
      end.

Definition Ledger_Get (sequenceNumber : Z) (s : TransactionExchangeLedger) : res (option TxID) :=
  if (sequenceNumber <=? Delivered s) || (Received s <? sequenceNumber) then Ok None
  else index (Pending s) (u64 (sequenceNumber - Delivered s - 1)).

(** A ledger account has an exchange ledger per partition, sorted by URL. *)
Definition nil_exchange : TransactionExchangeLedger := mkExchange nil_URL 0 0 0 0 [].

(** The position of the partition's ledger, which is added if it is missing. *)
Definition Ledger_Partition (u : URL) (l : list TransactionExchangeLedger) : res (list TransactionExchangeLedger * Z) :=
  let! (l, ptr, create) := BinaryInsert nil_exchange l (fun e => Compare (tel_Url e) u) in
  Ok (if (create : bool) then store_at l ptr (mkExchange u 0 0 0 0 []) else l, ptr).

(** The numbering of a produced transaction in [buildSynthTxn]. *)
Definition next_sequence (s : TransactionExchangeLedger) : TransactionExchangeLedger * Z :=
  let s := set_Produced (u64 (Produced s + 1)) s in (s, Produced s).

(** ** The window of numbers *)

Record exch_inv (e : TransactionExchangeLedger) : Prop := {
  ei_delivered : 0 <= Delivered e <= Received e;
  ei_pending : zlen (Pending e) = Received e - Delivered e;
  ei_bound : Received e <= Delivered e + 2 ^ 45;
  ei_word : Received e < 2 ^ 64
}.

(** The slot of the transaction with number [n], from [Delivered + 1] on. *)
Definition slot (e : TransactionExchangeLedger) (n : Z) : option TxID :=
  match Pending e !! Z.to_nat (n - Delivered e - 1) with Some o => o | None => None end.

Lemma lookup_pad {A} (l : list (option A)) k i :
  match (l ++ replicate k None) !! i with Some o => o | None => None end = match l !! i with Some o => o | None => None end.
Proof.
  destruct (decide (i < length l)%nat); [by rewrite lookup_app_l|].
  rewrite lookup_app_r by lia. rewrite (lookup_ge_None_2 l) by lia. destruct (_ !! _) as [o|] eqn:E; [|done].
  by apply lookup_replicate in E as [-> _].
Qed.

(** A transaction that is not delivered takes its slot, unless the slot is taken. *)
Lemma Ledger_Add_waiting e n t :
  exch_inv e -> Delivered e < n -> n <= Delivered e + 2 ^ 45 -> n < 2 ^ 64 ->
  exists e' d, Ledger_Add false n t e = Ok (e', d) /\ exch_inv e' /\ (d = false -> e' = e) /\
    Delivered e' = Delivered e /\ Received e' = Z.max n (Received e) /\
    forall m, Delivered e < m ->
      slot e' m = if decide (m = n) then Some (default t (slot e n)) else slot e m.
Proof.
  intros [Hd Hp Hb Hw] Hn Hn1 Hn2. unfold Ledger_Add.
  set (s1 := if Received e <? n then (set_Received n e, true) else (e, false)).
  assert (exists R d, s1 = (set_Received R e, d) /\ R = Z.max n (Received e) /\ (d = false -> R = Received e)) as (R & d0 & -> & HR & Hd0).
  { subst s1. destruct (Z.ltb_spec (Received e) n).
    - exists n, true. split; [done|]. split; [lia|done].
    - exists (Received e), false. split; [by destruct e|]. split; [lia|done]. }
  cbn [set_Received Received Delivered Pending]. rewrite u64_small by (unfold is_u64; lia).
  set (k := R - Delivered e - zlen (Pending e)).
  assert (exists e2 d2, (if 0 <? k then let! l := make_txids k in Ok (set_Pending (Pending e ++ l) (set_Received R e), true)
            else Ok (set_Received R e, d0)) = Ok (e2, d2) /\
    Delivered e2 = Delivered e /\ Received e2 = R /\ zlen (Pending e2) = R - Delivered e /\
    (forall i, match Pending e2 !! i with Some o => o | None => None end = match Pending e !! i with Some o => o | None => None end) /\
    (d2 = false -> e2 = e)) as (e2 & d2 & -> & E1 & E2 & E3 & E4 & E5).
  { destruct (Z.ltb_spec 0 k).
    - unfold make_txids. destruct (Z.ltb_spec (2 ^ 45) k); [lia|]. cbn [res_bind]. do 2 eexists. split; [done|].
      split; [done|]. split; [done|]. cbn [set_Pending Pending]. split; [|split; [|done]].
      + rewrite zlen_app. unfold zlen at 2. rewrite length_replicate. lia.
      + intros i. apply lookup_pad.
    - do 2 eexists. split; [done|]. split; [done|]. split; [done|]. cbn [set_Received Pending]. split; [lia|]. split; [done|].
      intros ->. rewrite Hd0 by done. by destruct e. }
  cbn [res_bind]. rewrite E1. destruct (Z.leb_spec n (Delivered e)); [lia|]. rewrite u64_small by (unfold is_u64; lia).
  set (i := n - Delivered e - 1).
  assert (Hi : (Z.to_nat i < length (Pending e2))%nat) by (unfold zlen in E3; lia).
  destruct (lookup_lt_is_Some_2 _ _ Hi) as [o Ho]. unfold index. destruct (Z.ltb_spec i 0); [lia|]. rewrite Ho. cbn [res_bind].
  assert (Hslot : slot e n = o) by (unfold slot; rewrite <- E4; fold i; by rewrite Ho).
  assert (Hinv : forall l, length l = length (Pending e2) -> exch_inv (set_Pending l e2)).
  { intros l Hl. split; cbn [set_Pending Delivered Received Pending]; [lia| |lia|lia]. unfold zlen in *. lia. }
  destruct o as [t0|].
  - exists e2, d2. split; [done|]. split; [split; lia|]. split; [done|]. split; [done|]. split; [congruence|]. intros m Hm.
    rewrite Hslot. cbn [default]. unfold slot at 1. rewrite E1, E4. fold (slot e m). case_decide; [by subst m|done].
  - do 2 eexists. split; [done|]. split; [apply Hinv; by rewrite length_insert|]. split; [done|]. split; [done|]. split; [cbn; congruence|].
    intros m Hm. rewrite Hslot. cbn [default]. unfold slot. cbn [set_Pending Pending Delivered]. rewrite E1. case_decide as Hc.
    + subst m. fold i. by rewrite list_lookup_insert_eq.
    + rewrite list_lookup_insert_ne by lia. apply E4.
Qed.

(** Delivering the next transaction moves the window by one. *)
Lemma Ledger_Add_next e t :
  exch_inv e -> Delivered e + 1 < 2 ^ 64 ->
  exists e' d, Ledger_Add true (Delivered e + 1) t e = Ok (e', d) /\ exch_inv e' /\ (d = false -> e' = e) /\
    Delivered e' = Delivered e + 1 /\ Received e' = Z.max (Delivered e + 1) (Received e) /\
    forall m, Delivered e + 1 < m -> slot e' m = slot e m.
Proof.
  intros [Hd Hp Hb Hw] Hlt. unfold Ledger_Add.
  set (s1 := if Received e <? Delivered e + 1 then (set_Received (Delivered e + 1) e, true) else (e, false)).
  assert (exists d0, s1 = (set_Received (Z.max (Delivered e + 1) (Received e)) e, d0)) as [d0 ->].
  { subst s1. destruct (Z.ltb_spec (Received e) (Delivered e + 1)).
    - exists true. by rewrite Z.max_l by lia.
    - exists false. rewrite Z.max_r by lia. by destruct e. }
  cbn [set_Received Delivered]. destruct (Z.ltb_spec (Delivered e) (Delivered e + 1)); [|lia].
  cbn [set_Delivered set_Received Pending]. destruct (Pending e) as [|o l] eqn:El.
  - do 2 eexists. split; [done|]. change (zlen []) with 0 in Hp. split; [|split; [done|split; [done|split; [done|]]]].
    + split; cbn; [lia|rewrite El; unfold zlen; simpl; lia|lia|lia].
    + intros m Hm. unfold slot. cbn. by rewrite El.
  - do 2 eexists. split; [done|]. rewrite zlen_cons in Hp. pose proof (zlen_nonneg l).
    split; [|split; [done|split; [done|split; [done|]]]].
    + split; cbn; lia.
    + intros m Hm. unfold slot. cbn [set_Pending Pending Delivered set_Delivered set_Received]. rewrite El.
      replace (Z.to_nat (m - Delivered e - 1)) with (S (Z.to_nat (m - (Delivered e + 1) - 1))) by lia. done.
Qed.

Lemma Ledger_Get_ok e n :
  exch_inv e -> Delivered e < n -> n < 2 ^ 64 -> Ledger_Get n e = Ok (slot e n).
Proof.
  intros [Hd Hp Hb Hr] Hn Hw. unfold Ledger_Get, slot. destruct (Z.leb_spec n (Delivered e)); [lia|]. cbn [orb].
  destruct (Z.ltb_spec (Received e) n).
  - rewrite lookup_ge_None_2; [done|]. unfold zlen in Hp. lia.
  - rewrite u64_small by (unfold is_u64; lia). unfold index. destruct (Z.ltb_spec (n - Delivered e - 1) 0); [lia|].
    destruct (lookup_lt_is_Some_2 (Pending e) (Z.to_nat (n - Delivered e - 1))) as [o ->]; [unfold zlen in Hp; lia|done].
Qed.

(** ** The ledger implements a window *)

Inductive LedgerEvent := Receive (n : Z) (x : TxID) | Deliver (n : Z) (x : TxID).

Definition run_event (e : LedgerEvent) (s : TransactionExchangeLedger) : res TransactionExchangeLedger :=
  let! (s, _) := match e with
                 | Receive n x => Ledger_Add false n x s
                 | Deliver n x => Ledger_Add true n x s
                 end in Ok s.

Fixpoint run_events (es : list LedgerEvent) (s : TransactionExchangeLedger) : res TransactionExchangeLedger :=
  match es with [] => Ok s | e :: es => let! s := run_event e s in run_events es s end.

(** The specification: the last delivered number and the transactions received
    beyond it; the first identifier received for a number stays. *)
Definition Window : Type := Z * gmap Z TxID.

Definition window_step (w : Window) (e : LedgerEvent) : Window :=
  match e with
  | Receive n x => (fst w, match snd w !! n with Some _ => snd w | None => <[n := x]> (snd w) end)
  | Deliver n _ => (n, delete n (snd w))
  end.

(** Receptions are past the delivered number, by at most 2^45; deliveries are in
    order. *)
Definition event_ok (w : Window) (e : LedgerEvent) : bool :=
  match e with
  | Receive n _ => (fst w <? n) && (n <=? fst w + 2 ^ 45) && (n <? 2 ^ 64)
  | Deliver n _ => (n =? fst w + 1) && (n <? 2 ^ 64)
  end.

Fixpoint events_ok (w : Window) (es : list LedgerEvent) : bool :=
  match es with [] => true | e :: es => event_ok w e && events_ok (window_step w e) es end.

Record window_inv (s : TransactionExchangeLedger) (w : Window) : Prop := {
  wi_exch : exch_inv s;
  wi_delivered : Delivered s = fst w;
  wi_slot n : Delivered s < n -> snd w !! n = slot s n;
  wi_dom n : is_Some (snd w !! n) -> Delivered s < n
}.

Lemma window_event s w e :
  window_inv s w -> event_ok w e = true ->
  exists s', run_event e s = Ok s' /\ window_inv s' (window_step w e).
Proof.
  intros [He Hd Hs Hdom] Hok. destruct e as [n x|n x]; cbn in Hok; rewrite <- Hd in Hok; unfold run_event.
  - destruct (Ledger_Add_waiting s n x He) as (s' & d & -> & He' & _ & ED & _ & Hslot); [lia..|].
    cbn [res_bind]. exists s'. split; [done|]. cbn [window_step]. rewrite (Hs n) by lia.
    split; cbn [fst snd]; [done|congruence| |]; rewrite ED.
    + intros m Hm. rewrite Hslot by lia. destruct (slot s n) as [y|] eqn:Ey; case_decide as Hc; try subst m; cbn [default].
      * by rewrite Hs, Ey by lia.
      * by apply Hs.
      * apply lookup_insert_eq.
      * rewrite lookup_insert_ne by done. by apply Hs.
    + intros m. destruct (slot s n); [apply Hdom|]. destruct (decide (m = n)) as [->|]; [lia|].
      rewrite lookup_insert_ne by done. apply Hdom.
  - assert (n = Delivered s + 1) as -> by lia.
    destruct (Ledger_Add_next s x He) as (s' & d & -> & He' & _ & ED & _ & Hslot); [lia|].
    cbn [res_bind]. exists s'. split; [done|]. split; cbn [window_step fst snd]; [done|done| |]; rewrite ED.
    + intros m Hm. rewrite lookup_delete_ne, Hslot by lia. apply Hs. lia.
    + intros m Hm. destruct (decide (m = Delivered s + 1)) as [->|]; [by rewrite lookup_delete_eq in Hm; destruct Hm|].
      rewrite lookup_delete_ne in Hm by done. pose proof (Hdom m Hm). lia.
Qed.

Lemma window_get s w n : window_inv s w -> n < 2 ^ 64 -> Ledger_Get n s = Ok (snd w !! n).
Proof.
  intros [He Hd Hs Hdom] Hn. destruct (Z.lt_ge_cases (Delivered s) n) as [H|H].
  - rewrite Hs by done. by apply Ledger_Get_ok.
  - unfold Ledger_Get. rewrite (proj2 (Z.leb_le n _) H). cbn [orb].
    destruct (snd w !! n) eqn:E; [|done]. pose proof (Hdom n (mk_is_Some _ _ E)). lia.
Qed.

Lemma window_events es s w :
  window_inv s w -> events_ok w es = true ->
  exists s', run_events es s = Ok s' /\ window_inv s' (foldl window_step w es).
Proof.
  revert s w. induction es as [|e es IH]; intros s w Hi Hok; [by exists s|].
  cbn [events_ok] in Hok. apply andb_prop in Hok as [He Hok].
  destruct (window_event s w e Hi He) as (s1 & E & Hi1). cbn [run_events foldl]. rewrite E. by apply IH.
Qed.

(** C39. The exchange ledger is a window of sequence numbers: under any sequence of
    receptions past the delivered number and in-order deliveries from an empty
    ledger, [Add] never panics (its unsigned arithmetic never underflows and no
    index is out of range), and [Get] returns exactly the first identifier received
    for each number not yet delivered. *)
Theorem Ledger_window u es :
  events_ok (0, ∅) es = true ->
  exists s, run_events es (mkExchange u 0 0 0 0 []) = Ok s /\
    let w := foldl window_step (0, ∅) es in
    Delivered s = fst w /\ zlen (Pending s) = Received s - Delivered s /\
    forall n, n < 2 ^ 64 -> Ledger_Get n s = Ok (snd w !! n).
Proof.
  intros Hok. destruct (window_events es (mkExchange u 0 0 0 0 []) (0, ∅)) as (s & E & Hi); [|done|].
  { split; [by split; unfold zlen; cbn; lia|done|done|]. cbn. intros n [x Hx]. by rewrite lookup_empty in Hx. }
  exists s. split; [done|]. cbn zeta. split; [apply Hi|]. split; [apply Hi|].
  intros n. by apply window_get.
Qed.

Definition demo_txid (b : byte) : TxID := mkTxID (mkURL [] (str "foo.acme") [] [] []) (replicate 32 b).
Definition demo_events : list LedgerEvent :=
  [Receive 2 (demo_txid Byte.x02); Receive 3 (demo_txid Byte.x03); Receive 2 (demo_txid Byte.x09);
   Deliver 1 (demo_txid Byte.x01)].

Lemma Ledger_window_witness :
  exists s, run_events demo_events (mkExchange nil_URL 0 0 0 0 []) = Ok s /\ Delivered s = 1 /\
    Ledger_Get 2 s = Ok (Some (demo_txid Byte.x02)).
Proof.
  destruct (Ledger_window nil_URL demo_events ltac:(vm_compute; reflexivity)) as (s & E & Hd & _ & Hg).
  exists s. split; [exact E|]. split; [exact Hd|]. rewrite Hg by lia. reflexivity.
Defined.
