(* ===== verification/Exchange.v ===== *)
(** * Sequencing of synthetic transactions: [internal/block/transaction.go] (readiness and recording of synthetic transactions),
      [internal/block/block_execute.go] (the loop over additional transactions),
      [internal/block/signature.go] (the receipts that come with a transaction)

    A partition numbers the transactions it produces for another one.  The receiver
    keeps, per source, the numbers received and delivered and the transactions that came
    out of order; it executes a transaction only when it is the next one.  The theorems
    are about any order of arrival, with repetitions. *)

From S2P Require Import Prelude Sha256 Encoding MerkleState Receipt SortUtil Url Accounts AdiUrl StateManager Ledger.
Local Open Scope Z_scope.
Import Url TxID.

(** ** The receiving partition *)

(** What the status of a synthetic transaction holds; [Code] is [None] for 0. *)
Record Status := mkStatus {
  Code : option status; SequenceNumber : Z; Proof : option Receipt; GotDirectoryReceipt : bool }.

Definition Success (c : option status) : bool :=
  match c with
  | None | Some StatusDelivered | Some StatusPending | Some StatusRemote => true
  | Some _ => false
  end.
Definition status_Failed (s : Status) : bool := negb (Success (Code s)).
Definition status_Pending (s : Status) : bool := bool_decide (Code s = Some StatusPending).
Definition status_Delivered (s : Status) : bool := bool_decide (Code s = Some StatusDelivered) || status_Failed s.

(** The part of a partition's state the sequencing of one source uses: its exchange
    ledger, the stored transaction statuses, the entries of the directory's root anchor
    chain, and the transactions executed so far. *)
Record Receiver := mkReceiver {
  exchange : TransactionExchangeLedger;
  statuses : gmap bytes Status;
  anchors : list bytes;
  executed : list TxID
}.

Definition set_status (h : bytes) (s : Status) (r : Receiver) : Receiver :=
  mkReceiver (exchange r) (<[h := s]> (statuses r)) (anchors r) (executed r).
Definition set_exchange (e : TransactionExchangeLedger) (r : Receiver) : Receiver :=
  mkReceiver e (statuses r) (anchors r) (executed r).
Definition did_execute (t : TxID) (r : Receiver) : Receiver :=
  mkReceiver (exchange r) (statuses r) (anchors r) (executed r ++ [t]).

(** The transaction has a receipt from the directory that ends in a known anchor. *)
Definition proven (s : Status) (anchors : list bytes) : bool :=
  match Proof s with
  | Some p => GotDirectoryReceipt s && bool_decide (hb (Anchor p) ∈ anchors)
  | None => false
  end.

(** ** The signatures of a synthetic transaction *)

(** An envelope is refused with an error of the package [errors], which is stored as the
    status of the transaction, or with another one, which leaves nothing behind. *)
Inductive refusal := Coded (e : error) | Plain.

(** A receipt of a network, or a signature of another type, whose processing is refused or
    changes neither the receipt nor the execution of the transaction. *)
Inductive SynthSignature :=
  | ReceiptSignature (SourceNetwork : URL) (p : Receipt)
  | OtherSignature (refused : option refusal).

(** The receipt of a status and whether one came from the directory, after one more. *)
Definition capture_receipt (h : bytes) (source : URL) (p : Receipt) (g : option Receipt * bool) : option Receipt * bool + refusal :=
  if negb (Validate p) then inr Plain
  else
    let got := snd g || Equal (Some source) (Some DnUrl) in
    match fst g with
    | None =>
        if negb (bytes_eqb h (hb (Start p))) then inr (Coded (mkError StatusUnauthorized "receipt does not match transaction"))
        else inl (Some p, got)
    | Some q =>
        if Contains q p then inl (Some q, got)
        else
          match Receipt_Combine q p with
          | Ok c => inl (Some c, got)
          | _ => inr (Coded (mkError StatusUnauthorized "combine receipts"))
          end
    end.

Definition process_signature (h : bytes) (s : SynthSignature) (g : option Receipt * bool) : option Receipt * bool + refusal :=
  match s with
  | ReceiptSignature source p => capture_receipt h source p g
  | OtherSignature (Some e) => inr e
  | OtherSignature None => inl g
  end.

Fixpoint process_signatures (h : bytes) (l : list SynthSignature) (g : option Receipt * bool) : option Receipt * bool + refusal :=
  match l with
  | [] => inl g
  | s :: l => match process_signature h s g with inl g => process_signatures h l g | inr e => inr e end
  end.

Section Receiver.
(** Whether the principal of a transaction exists or may be missing, and how executing a
    transaction ends: with [StatusDelivered] or with an error, of its executor or of the
    checks of its signatures before ([processSyntheticTransaction]).  Both may depend on
    everything that happened before. *)
Context (principal_ok : TxID -> Receiver -> bool) (outcome : TxID -> Receiver -> option error).

Definition synthTransactionIsReady (t : TxID) (sta : Status) (r : Receiver) : res bool :=
  if negb (proven sta (anchors r)) then Ok false
  else
    let ledger := exchange r in
    if SequenceNumber sta <=? Delivered ledger then
      errors_new StatusDelivered "synthetic transaction has been delivered"
    else if negb (u64 (Delivered ledger + 1) =? SequenceNumber sta) then Ok false
    else if principal_ok t r then Ok true
    else errors_new StatusNotFound "missing principal".

(** [recordTransaction] for a synthetic transaction; also returns the next transaction
    of the source if it is waiting. *)
Definition recordTransaction (t : TxID) (sta : Status) (code : option status) (r : Receiver)
    : res (Receiver * option TxID) :=
  let sta := mkStatus code (SequenceNumber sta) (Proof sta) (GotDirectoryReceipt sta) in
  let r := set_status (hash t) sta r in
  let ledger := exchange r in
  let n := SequenceNumber sta in
  if status_Pending sta && (n <=? Delivered ledger) then
    errors_new StatusFatalError "synthetic transactions executed out of order"
  else
    let! (ledger, dirty) := Ledger_Add (negb (status_Pending sta)) n t ledger in
    let r := if (dirty : bool) then set_exchange ledger r else r in
    let! next := Ledger_Get (u64 (n + 1)) ledger in
    Ok (r, next).

(** [status.Set(failure)]. *)
Definition failure_code (e : error) : option status := Some (err_status e).

(** [ProcessTransaction] of a synthetic transaction. *)
Definition ProcessSynthetic (t : TxID) (sta : Status) (r : Receiver) : res (Receiver * option TxID) :=
  match synthTransactionIsReady t sta r with
  | Err e =>
      if bool_decide (err_status e = StatusDelivered) then Ok (r, None)
      else recordTransaction t sta (failure_code e) (did_execute t r)
  | Panic s => Panic s
  | Ok false => recordTransaction t sta (Some StatusPending) r
  | Ok true =>
      match outcome t r with
      | Some e => recordTransaction t sta (failure_code e) (did_execute t r)
      | None => recordTransaction t sta (Some StatusDelivered) (did_execute t r)
      end
  end.

(** [executeEnvelope] of a transaction that was stored before, once its signatures are
    processed. *)
Definition execute_stored (t : TxID) (r : Receiver) : res (Receiver * list TxID) :=
  match statuses r !! hash t with
  | None => errors_new StatusNotFound "load transaction"
  | Some sta =>
      if status_Delivered sta then Ok (r, [])
      else if SequenceNumber sta =? 0 then errors_new StatusInternalError "synthetic transaction sequence number is missing"
      else
        let! (r, next) := ProcessSynthetic t sta r in
        Ok (r, match next with Some t => [t] | None => [] end)
  end.

Fixpoint execute_all (l : list TxID) (r : Receiver) : res (Receiver * list TxID) :=
  match l with
  | [] => Ok (r, [])
  | t :: l =>
      let! (r, a) := execute_stored t r in
      let! (r, b) := execute_all l r in
      Ok (r, a ++ b)
  end.

(** The loop of [ExecuteEnvelope] over the additional transactions. *)
Fixpoint additional_loop (fuel : nat) (additional : list TxID) (r : Receiver) : res Receiver :=
  match additional, fuel with
  | [], _ => Ok r
  | _, O => Panic "out of fuel"
  | _, S fuel => let! (r, next) := execute_all additional r in additional_loop fuel next r
  end.

Definition new_status : Status := mkStatus None 0 None false.

(** [ExecuteEnvelope] of a transaction with its signatures.  The first one is that of the
    source partition, which sets the sequence number, and the others may add to the receipt.
    A transaction that was delivered before is left alone.  So it is when its signatures are
    refused: the error is reported as the result, and if it is one of the package [errors] it
    becomes the status of the transaction. *)
Definition deliver (fuel : nat) (t : TxID) (n : Z) (signatures : list SynthSignature) (r : Receiver) : res Receiver :=
  let old := default new_status (statuses r !! hash t) in
  if status_Delivered old then Ok r
  else
    match process_signatures (hash t) signatures (Proof old, GotDirectoryReceipt old) with
    | inr Plain => Ok r
    | inr (Coded e) => Ok (set_status (hash t) (mkStatus (failure_code e) 0 None false) r)
    | inl (proof, got) =>
        let r := set_status (hash t) (mkStatus (Code old) n proof got) r in
        let! (r, next) := execute_stored t r in
        additional_loop fuel next r
    end.

End Receiver.
