(* ===== verification/ExchangeProofs.v ===== *)
(** * Synthetic transactions are executed in order, once, and none is lost

    The invariant of the receiver, that the loop over the additional transactions ends,
    that the executed transactions are always a prefix of those the source sent, and that
    all of them are executed when all have arrived, in whatever order. *)

From S2P Require Import Prelude Sha256 Encoding MerkleState Receipt SortUtil Url Accounts AdiUrl StateManager Ledger Exchange.
Local Open Scope Z_scope.
Import Url TxID.

(** ** The receiver *)

Section Receiving.
Context (principal_ok : TxID -> Receiver -> bool) (outcome : TxID -> Receiver -> option error).
(** An error of an executor is a failure. *)
Context (outcome_fails : forall t r e, outcome t r = Some e -> Success (Some (err_status e)) = false).

(** What the source sent: the transaction at position [k] has number [k + 1]. *)
Context (sent : list TxID) (sent_distinct : NoDup (hash <$> sent)) (sent_bound : zlen sent < 2 ^ 45).

Definition del (r : Receiver) : nat := Z.to_nat (Delivered (exchange r)).
Definition number (k : nat) : Z := Z.of_nat k + 1.

(** The number of delivered transactions is that of the executed ones, which are the
    first ones of the source; a delivered transaction is marked as such, and a stored one
    that is not marked (also because its signatures were refused) has its number; a waiting
    transaction is stored and in its slot. *)
Record seq_inv (r : Receiver) : Prop := {
  si_exch : exch_inv (exchange r);
  si_sent : Received (exchange r) <= zlen sent;
  si_executed : executed r = take (del r) sent;
  si_status : forall k t s, sent !! k = Some t -> statuses r !! hash t = Some s ->
    ((k < del r)%nat -> status_Delivered s = true) /\ (status_Delivered s = false -> SequenceNumber s = number k);
  si_stored : forall k t, sent !! k = Some t -> (k < del r)%nat -> is_Some (statuses r !! hash t);
  si_slot : forall k t, (del r <= k)%nat -> slot (exchange r) (number k) = Some t ->
    sent !! k = Some t /\ is_Some (statuses r !! hash t)
}.

Lemma sent_inj i j t u : sent !! i = Some t -> sent !! j = Some u -> hash t = hash u -> i = j.
Proof.
  intros Hi Hj E. apply (NoDup_lookup (hash <$> sent) i j (hash t)); [done|..]; rewrite list_lookup_fmap; [by rewrite Hi|rewrite Hj; cbn; by rewrite E].
Qed.

Lemma del_Z r : seq_inv r -> Delivered (exchange r) = Z.of_nat (del r).
Proof. intros Hi. unfold del. pose proof (ei_delivered _ (si_exch _ Hi)). lia. Qed.

Lemma sent_lt k t : sent !! k = Some t -> Z.of_nat k < zlen sent.
Proof. intros H%lookup_lt_Some. unfold zlen. lia. Qed.

(** Recording changes neither the anchors, nor which transactions are stored, nor their
    receipts, and marks no transaction as delivered that was not executed. *)
Record kept (r r' : Receiver) : Prop := {
  kp_del : (del r <= del r')%nat;
  kp_anchors : anchors r' = anchors r;
  kp_stored : forall h, is_Some (statuses r !! h) -> is_Some (statuses r' !! h);
  kp_proof : forall h x, statuses r' !! h = Some x ->
    exists y, statuses r !! h = Some y /\ Proof x = Proof y /\ GotDirectoryReceipt x = GotDirectoryReceipt y;
  kp_open : forall k t x y, sent !! k = Some t -> (del r' <= k)%nat ->
    statuses r !! hash t = Some y -> statuses r' !! hash t = Some x -> status_Delivered x = status_Delivered y
}.

Lemma kept_refl r : kept r r.
Proof. split; [done|done|done| |]; [intros h x Hx; by exists x|congruence]. Qed.

Lemma kept_trans r1 r2 r3 : kept r1 r2 -> kept r2 r3 -> kept r1 r3.
Proof.
  intros [D1 A1 B1 C1 O1] [D2 A2 B2 C2 O2]. split; [lia|congruence|auto| |].
  - intros h x Hx. destruct (C2 h x Hx) as (y & Hy & E1 & E2). destruct (C1 h y Hy) as (z & Hz & E3 & E4). exists z. split; [done|]. split; congruence.
  - intros k t x z Ht Hk Hz Hx. destruct (B1 (hash t) ltac:(by rewrite Hz)) as [y Hy]. rewrite (O2 k t x y Ht Hk Hy Hx). apply (O1 k t); [done|lia|done|done].
Qed.

Lemma kept_status r h s s' e x :
  statuses r !! h = Some s -> Proof s' = Proof s -> GotDirectoryReceipt s' = GotDirectoryReceipt s -> Delivered (exchange r) <= Delivered e ->
  status_Delivered s' = status_Delivered s \/ (forall k t, sent !! k = Some t -> hash t = h -> (k < Z.to_nat (Delivered e))%nat) ->
  kept r (mkReceiver e (<[h := s']> (statuses r)) (anchors r) x).
Proof.
  intros Hs Hp Hg Hle Ho. split; [unfold del; cbn; lia|done| | |].
  - intros g Hg'. cbn. destruct (decide (h = g)) as [<-|]; [by rewrite lookup_insert_eq|]. by rewrite lookup_insert_ne.
  - intros g y Hy. cbn in Hy. apply lookup_insert_Some in Hy as [[<- <-]|[_ Hy]]; [by exists s|by exists y].
  - intros k t y z Ht Hk Hz Hy. cbn in Hy, Hk. apply lookup_insert_Some in Hy as [[E <-]|[_ Hy]]; [|congruence].
    rewrite <- E in Hz. rewrite Hs in Hz. injection Hz as <-. destruct Ho as [?|Ho]; [done|]. specialize (Ho k t Ht (eq_sym E)). unfold del in Hk. cbn in Hk. lia.
Qed.

(** Recording a transaction that must wait. *)
Lemma record_waiting k t s r :
  seq_inv r -> sent !! k = Some t -> statuses r !! hash t = Some s -> status_Delivered s = false -> (del r <= k)%nat ->
  exists r' next, recordTransaction t s (Some StatusPending) r = Ok (r', next) /\ seq_inv r' /\
    del r' = del r /\ kept r r' /\
    slot (exchange r') (number k) = Some t /\
    (forall j, (del r <= j)%nat -> is_Some (slot (exchange r) (number j)) -> is_Some (slot (exchange r') (number j))) /\
    next = slot (exchange r') (number (S k)).
Proof.
  intros Hi Ht Hs Ho Hk. pose proof (del_Z r Hi) as HD. pose proof (sent_lt k t Ht) as Hlt.
  pose proof (proj2 (si_status _ Hi k t s Ht Hs) Ho) as Hn.
  unfold recordTransaction. cbn [SequenceNumber status_Pending Code set_status exchange]. rewrite Hn.
  change (status_Pending (mkStatus (Some StatusPending) (number k) (Proof s) (GotDirectoryReceipt s))) with true. cbn [andb].
  destruct (Z.leb_spec (number k) (Delivered (exchange r))); [unfold number in *; lia|]. cbn [negb].
  destruct (Ledger_Add_waiting (exchange r) (number k) t (si_exch _ Hi)) as (e' & d & -> & He & Hd & ED & ER & Hslot); [unfold number; lia..|].
  cbn [res_bind]. rewrite u64_small by (unfold is_u64, number; lia).
  replace (number k + 1) with (number (S k)) by (unfold number; lia).
  rewrite Ledger_Get_ok by (try done; unfold number; lia). cbn [res_bind].
  assert (Hsame : forall rr, (if d then set_exchange e' rr else rr) = set_exchange (if d then e' else exchange rr) rr).
  { intros rr. destruct d; [done|]. by destruct rr. }
  rewrite Hsame. set (r1 := set_exchange _ _). assert (Ex : exchange r1 = e').
  { subst r1. cbn. destruct d; [done|]. symmetry. by apply Hd. }
  assert (Ex' : (if d then e' else exchange r) = e') by (destruct d; [done|symmetry; by apply Hd]).
  assert (Edel : del r1 = del r) by (unfold del; by rewrite Ex, ED).
  assert (Hown : slot e' (number k) = Some t).
  { rewrite Hslot by (unfold number; lia). rewrite decide_True by done. destruct (slot (exchange r) (number k)) as [u|] eqn:Eu; [|done].
    destruct (si_slot _ Hi k u Hk Eu) as [Hu _]. rewrite Ht in Hu. by injection Hu as <-. }
  assert (Hkeep : forall j, (del r <= j)%nat -> j <> k -> slot e' (number j) = slot (exchange r) (number j)).
  { intros j Hj Hne. rewrite Hslot by (unfold number; lia). rewrite decide_False; [done|]. unfold number. lia. }
  exists r1, (slot e' (number (S k))). split; [done|]. rewrite Ex. split; [|split; [done|split; [unfold r1, set_exchange, set_status; cbn [statuses anchors executed exchange]; apply (kept_status r (hash t) s); try done; [rewrite Ex'; lia|left; by rewrite Ho]|split; [done|split; [|done]]]]].
  - split.
    + by rewrite Ex.
    + rewrite Ex, ER. pose proof (si_sent _ Hi). unfold number. lia.
    + rewrite Edel. apply Hi.
    + intros j u x Hj Hx. rewrite Edel. cbn in Hx. apply lookup_insert_Some in Hx as [[Eh <-]|[Hne Hx]].
      * assert (j = k) as -> by (by apply (sent_inj j k u t)). split; [lia|done].
      * by apply (si_status _ Hi j u).
    + intros j u Hj Hlj. cbn. rewrite Edel in Hlj. destruct (decide (hash t = hash u)) as [->|]; [by rewrite lookup_insert_eq|].
      rewrite lookup_insert_ne by done. by apply (si_stored _ Hi j).
    + intros j u Hj Hx. rewrite Edel in Hj. rewrite Ex in Hx. cbn.
      assert (sent !! j = Some u /\ is_Some (statuses r !! hash u)) as [Hu Hst].
      { destruct (decide (j = k)) as [->|Hne]; [|rewrite Hkeep in Hx by done; by apply (si_slot _ Hi)].
        rewrite Hown in Hx. injection Hx as <-. by rewrite Hs. }
      split; [done|]. destruct (decide (hash t = hash u)) as [->|]; [by rewrite lookup_insert_eq|]. by rewrite lookup_insert_ne.
  - intros j Hj [u Hu]. destruct (decide (j = k)) as [->|]; [by rewrite Hown|]. by rewrite Hkeep.
Qed.

(** Recording the next transaction once it was executed. *)
Lemma record_done t s code r :
  seq_inv r -> sent !! del r = Some t -> statuses r !! hash t = Some s -> status_Delivered s = false ->
  (code = Some StatusDelivered \/ Success code = false) ->
  exists r' next, recordTransaction t s code (did_execute t r) = Ok (r', next) /\ seq_inv r' /\
    del r' = S (del r) /\ kept r r' /\
    (forall j, (del r < j)%nat -> slot (exchange r') (number j) = slot (exchange r) (number j)) /\
    next = slot (exchange r') (number (del r')).
Proof.
  intros Hi Ht Hs Ho Hc. pose proof (del_Z r Hi) as HD. pose proof (sent_lt _ t Ht) as Hlt.
  pose proof (proj2 (si_status _ Hi _ t s Ht Hs) Ho) as Hn.
  unfold recordTransaction. set (s' := mkStatus code _ _ _). cbn [set_status exchange did_execute].
  assert (SequenceNumber s' = Delivered (exchange r) + 1) as -> by (cbn; rewrite Hn; unfold number; lia).
  assert (status_Pending s' = false /\ status_Delivered s' = true) as [Hp Hdl].
  { unfold status_Pending, status_Delivered, status_Failed. subst s'. cbn [Code]. destruct Hc as [->|Hc]; [done|]. rewrite Hc. cbn.
    split; [|apply orb_true_r]. apply bool_decide_eq_false. by intros ->. }
  rewrite Hp. cbn [andb negb].
  destruct (Ledger_Add_next (exchange r) t (si_exch _ Hi)) as (e' & d & -> & He & Hd & ED & ER & Hslot); [lia|].
  cbn [res_bind]. rewrite u64_small by (unfold is_u64; lia). rewrite Ledger_Get_ok by (try done; lia). cbn [res_bind].
  set (r1 := if d then _ else _).
  assert (r1 = mkReceiver e' (<[hash t := s']> (statuses r)) (anchors r) (executed r ++ [t])) as E1.
  { subst r1. destruct d; [done|]. rewrite Hd by done. by destruct r. }
  rewrite E1. clear r1 E1. set (r1 := mkReceiver _ _ _ _).
  assert (Edel : del r1 = S (del r)) by (unfold del, r1; cbn; rewrite ED; unfold del in HD; lia).
  assert (Hkeep : forall j, (del r < j)%nat -> slot e' (number j) = slot (exchange r) (number j)).
  { intros j Hj. apply Hslot. unfold number. lia. }
  exists r1, (slot e' (number (del r1))). split; [repeat f_equal; unfold number; lia|].
  split; [|split; [done|split; [unfold r1, set_exchange, set_status; cbn [statuses anchors executed exchange]; apply (kept_status r (hash t) s); try done; [lia|right]|split; [done|done]]]].
  2:{ intros j u Hj Eh. assert (j = del r) as -> by (by apply (sent_inj j (del r) u t)). unfold del in *. lia. }
  split.
  - done.
  - cbn. rewrite ER. pose proof (si_sent _ Hi). lia.
  - rewrite Edel. cbn [r1 executed]. rewrite (si_executed _ Hi). by rewrite (take_S_r _ _ t).
  - intros j u x Hj Hx. rewrite Edel. cbn in Hx. apply lookup_insert_Some in Hx as [[Eh <-]|[Hne Hx]].
    + assert (j = del r) as -> by (by apply (sent_inj j (del r) u t)). by rewrite Hdl.
    + destruct (si_status _ Hi j u x Hj Hx) as [H1 H2]. split; [|done]. intros Hlj. apply H1.
      assert (j <> del r); [|lia]. intros ->. rewrite Ht in Hj. by injection Hj as <-.
  - intros j u Hj Hlj. cbn. destruct (decide (hash t = hash u)) as [->|Hne]; [by rewrite lookup_insert_eq|].
    rewrite lookup_insert_ne by done. apply (si_stored _ Hi j); [done|]. rewrite Edel in Hlj.
    assert (j <> del r); [|lia]. intros ->. rewrite Ht in Hj. by injection Hj as <-.
  - intros j u Hj Hx. rewrite Edel in Hj. cbn [r1 exchange] in Hx. rewrite Hkeep in Hx by lia.
    destruct (si_slot _ Hi j u ltac:(lia) Hx) as [Hu Hst]. split; [done|]. cbn.
    destruct (decide (hash t = hash u)) as [->|]; [by rewrite lookup_insert_eq|]. by rewrite lookup_insert_ne.
Qed.

Local Abbreviation Process := (ProcessSynthetic principal_ok outcome).

(** Processing a stored transaction that was not delivered: it is executed if it is the
    next one and proven, and waits otherwise. *)
Lemma process_step k t s r :
  seq_inv r -> sent !! k = Some t -> statuses r !! hash t = Some s -> status_Delivered s = false -> (del r <= k)%nat ->
  exists r' next, Process t s r = Ok (r', next) /\ seq_inv r' /\ kept r r' /\
    next = slot (exchange r') (number (S k)) /\
    (forall j, (del r' <= j)%nat -> is_Some (slot (exchange r) (number j)) -> is_Some (slot (exchange r') (number j))) /\
    if decide (k = del r) then
      if proven s (anchors r) then del r' = S (del r) else del r' = del r /\ is_Some (slot (exchange r') (number k))
    else del r' = del r /\ is_Some (slot (exchange r') (number k)).
Proof.
  intros Hi Ht Hs Ho Hk. pose proof (del_Z r Hi) as HD. pose proof (sent_lt _ t Ht) as Hlt.
  pose proof (proj2 (si_status _ Hi k t s Ht Hs) Ho) as Hn. unfold ProcessSynthetic, synthTransactionIsReady. rewrite Hn.
  assert (Hwait : exists r' next, recordTransaction t s (Some StatusPending) r = Ok (r', next) /\ seq_inv r' /\ kept r r' /\
    next = slot (exchange r') (number (S k)) /\
    (forall j, (del r' <= j)%nat -> is_Some (slot (exchange r) (number j)) -> is_Some (slot (exchange r') (number j))) /\
    del r' = del r /\ is_Some (slot (exchange r') (number k))).
  { destruct (record_waiting k t s r Hi Ht Hs Ho Hk) as (r' & next & E & Hi' & Ed & Hkp & Hown & Hsl & En).
    exists r', next. rewrite Ed. rewrite Hown. by repeat split_and?. }
  destruct (proven s (anchors r)) eqn:Ep; cbn [negb].
  2:{ destruct Hwait as (r' & next & -> & ? & ? & ? & ? & ?). exists r', next. repeat split_and?; try done. by case_decide. }
  destruct (Z.leb_spec (number k) (Delivered (exchange r))); [unfold number in *; lia|].
  rewrite u64_small by (unfold is_u64; lia). destruct (Z.eqb_spec (Delivered (exchange r) + 1) (number k)) as [E|Hne]; cbn [negb].
  2:{ destruct Hwait as (r' & next & -> & ? & ? & ? & ? & ?). exists r', next. repeat split_and?; try done.
      rewrite decide_False; [done|]. intros ->. unfold number in Hne. lia. }
  assert (k = del r) as -> by (unfold number in E; lia).
  assert (Hdone : forall code, code = Some StatusDelivered \/ Success code = false ->
    exists r' next, recordTransaction t s code (did_execute t r) = Ok (r', next) /\ seq_inv r' /\ kept r r' /\
      next = slot (exchange r') (number (S (del r))) /\
      (forall j, (del r' <= j)%nat -> is_Some (slot (exchange r) (number j)) -> is_Some (slot (exchange r') (number j))) /\
      del r' = S (del r)).
  { intros code Hc. destruct (record_done t s code r Hi Ht Hs Ho Hc) as (r' & next & Er & Hi' & Ed & Hkp & Hsl & En).
    exists r', next. rewrite <- Ed. repeat split_and?; try done. intros j Hj. rewrite Hsl by lia. done. }
  destruct (decide (del r = del r)) as [_|]; [|done]. destruct (principal_ok t r); [|cbn; apply Hdone; by right].
  destruct (outcome t r) as [e|] eqn:Eo; apply Hdone; [right; by apply (outcome_fails t r)|by left].
Qed.

(** What is known of a transaction, and whether it is marked as delivered. *)
Definition status_of (r : Receiver) (t : TxID) : Status := default new_status (statuses r !! hash t).
Definition gathered (r : Receiver) (t : TxID) : option Receipt * bool := (Proof (status_of r t), GotDirectoryReceipt (status_of r t)).
Definition open (r : Receiver) (t : TxID) : Prop := status_Delivered (status_of r t) = false.

(** A receipt of the directory that ends in a known anchor. *)
Definition proven_by (g : option Receipt * bool) (known : list bytes) : Prop := proven (mkStatus None 0 (fst g) (snd g)) known = true.

(** Everything stored that is not marked as delivered is in its slot, but for number [k]. *)
Definition waits (r : Receiver) (k : nat) : Prop :=
  forall j t, sent !! j = Some t -> (del r <= j)%nat -> j <> k -> is_Some (statuses r !! hash t) -> open r t ->
    is_Some (slot (exchange r) (number j)).
Definition waits_all (r : Receiver) : Prop := forall k, waits r k.

(** [G] are the transactions that arrived with their proof: those that are not delivered are stored
    with a receipt that ends in a known anchor, and not refused. *)
Definition good (G : nat -> Prop) (r : Receiver) : Prop :=
  forall k t, G k -> sent !! k = Some t -> (del r <= k)%nat -> is_Some (statuses r !! hash t) /\ open r t /\ proven_by (gathered r t) (anchors r).

(** What recording does not change. *)
Lemma kept_same r r' k t :
  kept r r' -> sent !! k = Some t -> (del r' <= k)%nat ->
  (is_Some (statuses r !! hash t) <-> is_Some (statuses r' !! hash t)) /\ gathered r' t = gathered r t /\ (open r' t <-> open r t).
Proof.
  intros Hk Ht Hd. unfold gathered, open, status_of. destruct (statuses r' !! hash t) as [x|] eqn:Ex.
  - destruct (kp_proof _ _ Hk _ _ Ex) as (y & Ey & E1 & E2). rewrite Ey. cbn. rewrite E1, E2, (kp_open _ _ Hk k t x y Ht Hd Ey Ex). done.
  - destruct (statuses r !! hash t) as [y|] eqn:Ey; [|done]. destruct (kp_stored _ _ Hk (hash t) ltac:(by rewrite Ey)). congruence.
Qed.

Lemma kept_good G r r' : kept r r' -> good G r -> good G r'.
Proof.
  intros Hk Hp k t HG Ht Hle. pose proof (kp_del _ _ Hk). destruct (kept_same r r' k t Hk Ht Hle) as (Es & Eg & Eo).
  rewrite Eg, Eo, <- Es, (kp_anchors _ _ Hk). apply (Hp k); [done|done|lia].
Qed.

(** The loop: [t] is the transaction number [k], and so on.  Afterwards the next transaction has
    not arrived with its proof. *)
Lemma loop_ok fuel : forall k t r,
  seq_inv r -> sent !! k = Some t -> is_Some (statuses r !! hash t) -> (length sent - k <= fuel)%nat ->
  exists r', additional_loop principal_ok outcome fuel [t] r = Ok r' /\ seq_inv r' /\ kept r r' /\
    (forall G, (forall j, G j -> is_Some (sent !! j)) -> waits r k -> good G r -> k = del r \/ ~ G (del r) -> waits_all r' /\ ~ G (del r')).
Proof.
  induction fuel as [|fuel IH]; intros k t r Hi Ht [s Hs] Hf; pose proof (lookup_lt_Some _ _ _ Ht); [lia|].
  cbn [additional_loop execute_all]. unfold execute_stored. rewrite Hs. assert (Est : status_of r t = s) by (unfold status_of; by rewrite Hs).
  destruct (status_Delivered s) eqn:Hd.
  { cbn [res_bind app]. exists r. split; [by destruct fuel|]. split; [done|]. split; [apply kept_refl|].
    intros G HG Hw Hp Hc. split.
    - intros kk j u Hu Hj _ Hst Ho. destruct (decide (j = k)) as [->|]; [|by apply (Hw j u)]. rewrite Ht in Hu. injection Hu as <-. unfold open in Ho. by rewrite Est, Hd in Ho.
    - destruct Hc as [->|?]; [|done]. intros HGd. destruct (Hp (del r) t HGd Ht ltac:(lia)) as (_ & Ho & _). unfold open in Ho. by rewrite Est, Hd in Ho. }
  destruct (si_status _ Hi k t s Ht Hs) as [Hlt Hn]. specialize (Hn Hd).
  assert (Hle : (del r <= k)%nat) by (destruct (decide (k < del r)%nat) as [Hk|]; [rewrite Hlt in Hd by done; done|lia]).
  destruct (Z.eqb_spec (SequenceNumber s) 0); [rewrite Hn in *; unfold number in *; lia|].
  destruct (process_step k t s r Hi Ht Hs Hd Hle) as (r1 & next & -> & Hi1 & Hk1 & En & Hsl & Hcase). cbn [res_bind]. rewrite app_nil_r.
  assert (Hnk : (k = del r /\ del r1 = S k) \/ (del r1 = del r /\ is_Some (slot (exchange r1) (number k)) /\ (k = del r -> proven s (anchors r) = false))).
  { case_decide as Ek; [|right; split_and!; [apply Hcase|apply Hcase|done]]. destruct (proven s (anchors r)); [left; split; [done|lia]|right; split_and!; [apply Hcase|apply Hcase|done]]. }
  assert (Hdd : (del r <= del r1 <= S k)%nat) by (destruct Hnk as [[? ?]|(? & _ & _)]; lia).
  assert (Hlive : forall G, (forall j, G j -> is_Some (sent !! j)) -> waits r k -> good G r -> k = del r \/ ~ G (del r) -> waits_all r1 /\ (del r1 = S k \/ ~ G (del r1))).
  { intros G _ Hw Hp Hc. split.
    - intros kk j u Hu Hj _ Hst Ho. destruct (decide (j = k)) as [->|Hne].
      + destruct Hnk as [[_ E]|(_ & Hk & _)]; [lia|done].
      + destruct (kept_same r r1 j u Hk1 Hu Hj) as (Es & _ & Eo). apply Hsl; [done|]. apply (Hw j u); [done|destruct Hnk as [[-> E]|(E & _)]; lia|done|by apply Es|by apply Eo].
    - destruct Hnk as [[_ E]|(E & _ & Hne)]; [by left|right]. rewrite E. destruct Hc as [Hc|Hc]; [|done]. intros HG. rewrite Hc in Ht.
      destruct (Hp (del r) t HG Ht ltac:(lia)) as (_ & _ & Hpy). specialize (Hne Hc). unfold proven_by, gathered in Hpy. rewrite Est in Hpy. unfold proven in *. cbn in Hpy. by rewrite Hne in Hpy. }
  destruct next as [t'|]; symmetry in En.
  - destruct (si_slot _ Hi1 (S k) t' ltac:(lia) En) as [Ht' Hst'].
    destruct (IH (S k) t' r1 Hi1 Ht' Hst' ltac:(lia)) as (r2 & -> & Hi2 & Hk2 & Hl2). exists r2.
    split; [done|]. split; [done|]. split; [by eapply kept_trans|]. intros G HG Hw Hp Hc.
    destruct (Hlive G HG Hw Hp Hc) as [Hwa Hcase']. apply Hl2; [done|apply Hwa|by eapply kept_good|]. destruct Hcase' as [->|?]; [by left|by right].
  - exists r1. split; [by destruct fuel|]. split; [done|]. split; [done|]. intros G HG Hw Hp Hc.
    destruct (Hlive G HG Hw Hp Hc) as [Hwa Hcase']. split; [done|]. destruct Hcase' as [E|?]; [|done]. rewrite E. intros HSk.
    destruct (HG (S k) HSk) as [u Hu]. destruct (kept_good G r r1 Hk1 Hp (S k) u HSk Hu ltac:(lia)) as (Hx & Ho & _).
    destruct (Hwa O (S k) u Hu ltac:(lia) ltac:(lia) Hx Ho) as [y Hy]. congruence.
Qed.

(** ** Arrivals *)

Local Abbreviation Deliver := (deliver principal_ok outcome (length sent)).

Lemma open_late r k t : seq_inv r -> sent !! k = Some t -> open r t -> (del r <= k)%nat.
Proof.
  intros Hi Ht Ho. destruct (decide (k < del r)%nat) as [Hlt|]; [|lia]. destruct (si_stored _ Hi k t Ht Hlt) as [s Hs].
  unfold open, status_of in Ho. rewrite Hs in Ho. cbn in Ho. by rewrite (proj1 (si_status _ Hi k t s Ht Hs) Hlt) in Ho.
Qed.

(** Storing the status of an arriving transaction, with its number or marked as delivered. *)
Lemma arrive_inv k t s r :
  seq_inv r -> sent !! k = Some t -> (del r <= k)%nat -> status_Delivered s = true \/ SequenceNumber s = number k -> seq_inv (set_status (hash t) s r).
Proof.
  intros [H1 H2 H3 H4 H5 H6] Ht Hk Hs. split; cbn [exchange executed statuses set_status]; try done.
  - intros j u x Hu Hx. apply lookup_insert_Some in Hx as [[Eh <-]|[_ Hx]]; [|by apply (H4 j u)].
    assert (j = k) as -> by (by apply (sent_inj j k u t)). split; [unfold del in *; cbn; lia|]. destruct Hs as [->|?]; [done|done].
  - intros j u Hu Hj. destruct (decide (hash t = hash u)) as [->|]; [by rewrite lookup_insert_eq|]. rewrite lookup_insert_ne by done. by apply (H5 j).
  - intros j u Hj Hu. destruct (H6 j u Hj Hu) as [Hu' Hst]. split; [done|].
    destruct (decide (hash t = hash u)) as [->|]; [by rewrite lookup_insert_eq|]. by rewrite lookup_insert_ne.
Qed.

Lemma status_of_set t s r : status_of (set_status (hash t) s r) t = s.
Proof. unfold status_of. cbn. by rewrite lookup_insert_eq. Qed.
Lemma status_of_other t u s r : hash t <> hash u -> status_of (set_status (hash t) s r) u = status_of r u.
Proof. intros Hne. unfold status_of. cbn. by rewrite lookup_insert_ne. Qed.

(** Between two events: what arrived with its proof is stored, everything stored waits in its slot,
    and the next transaction has not arrived with its proof. *)
Record live (G : nat -> Prop) (r : Receiver) : Prop := {
  lv_sent k : G k -> is_Some (sent !! k);
  lv_good : good G r;
  lv_waits : waits_all r;
  lv_next : ~ G (del r)
}.

(** The receipts that came with [t], after the signatures [l] as well, end in a known anchor. *)
Definition proves (t : TxID) (l : list SynthSignature) (r : Receiver) : Prop :=
  exists g, process_signatures (hash t) l (gathered r t) = inl g /\ proven_by g (anchors r).

(** The transactions that arrived with their proof after one more arrival. *)
Definition and_proven (G : nat -> Prop) (k : nat) (t : TxID) (l : list SynthSignature) (r : Receiver) (j : nat) : Prop :=
  j <> k /\ G j \/ j = k /\ proves t l r.

(** What an arrival of number [k] leaves as it was, and what it adds. *)
Record arrived (k : nat) (t : TxID) (l : list SynthSignature) (r r' : Receiver) : Prop := {
  av_anchors : anchors r' = anchors r;
  av_del : (del r <= del r')%nat;
  av_other j u : sent !! j = Some u -> j <> k -> (del r' <= j)%nat -> gathered r' u = gathered r u /\ (open r u -> open r' u);
  av_own g : (del r' <= k)%nat -> open r t -> process_signatures (hash t) l (gathered r t) = inl g -> gathered r' t = g /\ open r' t;
  av_live G : live G r -> open r t -> live (and_proven G k t l r) r'
}.

(** The errors with which signatures are refused are failures. *)
Definition refused_fails (s : SynthSignature) : Prop :=
  match s with OtherSignature (Some (Coded e)) => Success (Some (err_status e)) = false | _ => True end.

Lemma refused_code h l g e : Forall refused_fails l -> process_signatures h l g = inr (Coded e) -> Success (Some (err_status e)) = false.
Proof.
  intros Hl. revert g. induction Hl as [|s l Hs _ IH]; intros g; [done|]. cbn [process_signatures].
  destruct (process_signature h s g) as [g'|e'] eqn:E; [apply IH|]. intros [= ->]. destruct s as [u p|[e'|]]; cbn in E; simplify_eq; [|done].
  unfold capture_receipt in E. repeat case_match; by simplify_eq.
Qed.

(** The signatures are refused with an error that is stored, or with another one. *)
Lemma refused_arrived k t l r r' :
  sent !! k = Some t -> (forall g, process_signatures (hash t) l (gathered r t) <> inl g) ->
  r' = r \/ (exists s, r' = set_status (hash t) s r /\ status_Delivered s = true) -> arrived k t l r r'.
Proof.
  intros Ht Hno Hr. assert (Hx : forall j u, sent !! j = Some u -> j <> k -> hash t <> hash u) by (intros j u Hu Hne E; apply Hne; by apply (sent_inj j k u t)).
  assert (Hd : del r' = del r) by (by destruct Hr as [->|(s & -> & _)]).
  assert (Hs : forall j u, sent !! j = Some u -> j <> k -> status_of r' u = status_of r u /\ statuses r' !! hash u = statuses r !! hash u).
  { intros j u Hu Hne. specialize (Hx j u Hu Hne). destruct Hr as [->|(s & -> & _)]; [done|]. rewrite status_of_other by done. cbn. by rewrite lookup_insert_ne. }
  assert (Ha : anchors r' = anchors r) by (by destruct Hr as [->|(s & -> & _)]).
  split; [done|lia| |by intros g _ _ ?%Hno|].
  - intros j u Hu Hne _. unfold gathered, open. by rewrite (proj1 (Hs j u Hu Hne)).
  - intros G [L1 L2 L3 L4] Ho. assert (Hsub : forall j, and_proven G k t l r j -> j <> k /\ G j) by (intros j [?|(_ & g & ?%Hno & _)]; done).
    split; [intros j [_ HG]%Hsub; by apply L1| | |rewrite Hd; by intros [_ ?]%Hsub].
    + intros j u [Hne HG]%Hsub Hu Hj. rewrite Hd in Hj. specialize (L2 j u HG Hu Hj). unfold gathered, open in *. destruct (Hs j u Hu Hne) as [-> ->]. by rewrite Ha.
    + intros kk j u Hu Hj Hne Hst Hop. rewrite Hd in Hj. assert (slot (exchange r') (number j) = slot (exchange r) (number j)) as -> by (by destruct Hr as [->|(s & -> & _)]).
      destruct (decide (j = k)) as [->|Hjk]; [|unfold open in Hop; destruct (Hs j u Hu Hjk) as [E E']; rewrite E in Hop; rewrite E' in Hst; by apply (L3 kk j u)].
      rewrite Ht in Hu. injection Hu as <-. destruct Hr as [->|(s & -> & Hds)]; [by apply (L3 kk k t)|]. unfold open in Hop. rewrite status_of_set in Hop. congruence.
Qed.

(** A delivery ends, keeps the invariant, and leaves nothing executable behind. *)
Lemma deliver_ok k t l r :
  seq_inv r -> sent !! k = Some t -> Forall refused_fails l ->
  exists r', Deliver t (number k) l r = Ok r' /\ seq_inv r' /\ (r' = r /\ ~ open r t \/ open r t /\ arrived k t l r r').
Proof.
  intros Hi Ht Hl. unfold deliver. fold (status_of r t). fold (gathered r t). destruct (status_Delivered (status_of r t)) eqn:Ed.
  { exists r. split; [done|]. split; [done|]. left. split; [done|]. unfold open. by rewrite Ed. }
  assert (Ho : open r t) by exact Ed. pose proof (open_late r k t Hi Ht Ho) as Hk.
  destruct (process_signatures (hash t) l (gathered r t)) as [[p got]|[e|]] eqn:Ep.
  2:{ eexists. split; [done|]. assert (Hf : status_Delivered (mkStatus (failure_code e) 0 None false) = true).
      { unfold status_Delivered, status_Failed. cbn [Code]. unfold failure_code. rewrite (refused_code _ _ _ _ Hl Ep). apply orb_true_r. }
      split; [by apply (arrive_inv k); [..|left]|]. right. split; [done|]. apply refused_arrived; [done|by rewrite Ep|]. right. eexists. by split. }
  2:{ exists r. split; [done|]. split; [done|]. right. split; [done|]. apply refused_arrived; [done|by rewrite Ep|by left]. }
  set (s0 := mkStatus _ _ _ _). set (r0 := set_status _ _ r). pose proof (arrive_inv k t s0 r Hi Ht Hk (or_intror eq_refl)) as Hi0. fold r0 in Hi0.
  assert (Es : status_of r0 t = s0) by apply status_of_set.
  assert (Hx : forall j u, sent !! j = Some u -> j <> k -> status_of r0 u = status_of r u /\ statuses r0 !! hash u = statuses r !! hash u).
  { intros j u Hu Hne. assert (hash t <> hash u) by (intros E; apply Hne; by apply (sent_inj j k u t)). unfold r0. rewrite status_of_other by done. cbn. by rewrite lookup_insert_ne. }
  assert (Hst0 : is_Some (statuses r0 !! hash t)) by (cbn; by rewrite lookup_insert_eq).
  destruct (loop_ok (S (length sent)) k t r0 Hi0 Ht Hst0 ltac:(lia)) as (r' & E & Hi' & Hkp & Hlp).
  cbn [additional_loop execute_all] in E. unfold res_bind at 1 2 in E.
  destruct (execute_stored principal_ok outcome t r0) as [[r1 next]| |] eqn:Ee; [|done|done]. cbn [res_bind] in E |- *. rewrite app_nil_r in E.
  exists r'. split; [done|]. split; [done|]. right. split; [done|]. assert (Hd0 : open r0 t) by (unfold open; by rewrite Es). assert (Hg0 : gathered r0 t = (p, got)) by (unfold gathered; by rewrite Es).
  split; [apply (kp_anchors _ _ Hkp)|apply (kp_del _ _ Hkp)| | |].
  - intros j u Hu Hne Hj. destruct (kept_same _ _ j u Hkp Hu Hj) as (_ & Eg & Eo). rewrite Eg. split; [|intros ?; apply Eo]; unfold gathered, open in *; by rewrite (proj1 (Hx j u Hu Hne)).
  - intros g Hj _ Eg. assert (g = (p, got)) as -> by congruence. destruct (kept_same _ _ k t Hkp Ht Hj) as (_ & -> & Eo). split; [done|by apply Eo].
  - intros G [L1 L2 L3 L4] _. set (G' := and_proven _ _ _ _ _).
    assert (HG' : forall j, G' j -> is_Some (sent !! j)) by (intros j [[_ HG]|[-> _]]; [by apply L1|by rewrite Ht]).
    assert (Hgood : good G' r0).
    { intros j u [[Hne HG]|[-> (g & Eg & Hg)]] Hu Hj.
      - specialize (L2 j u HG Hu Hj). unfold gathered, open in *. by destruct (Hx j u Hu Hne) as [-> ->].
      - rewrite Ht in Hu. injection Hu as <-. split; [done|]. split; [done|]. rewrite Hg0. rewrite Ep in Eg. by injection Eg as ->. }
    destruct (Hlp G' HG') as [Hwa Hnx]; [|done| |split; [done|by eapply kept_good|done|done]].
    + intros j u Hu Hj Hne Hst Hop. unfold open in Hop. destruct (Hx j u Hu Hne) as [E1 E2]. rewrite E1 in Hop. rewrite E2 in Hst. by apply (L3 k j u).
    + change (del r0) with (del r). destruct (decide (k = del r)) as [->|Hne]; [by left|right]. intros [[_ HG]|[E' _]]; [done|by apply Hne].
Qed.

(** The events at the receiver: a transaction arrives with its number and signatures, or the
    directory's anchor chain grows. *)
Inductive event := Arrive (t : TxID) (n : Z) (signatures : list SynthSignature) | NewAnchor (a : bytes).

Definition handle (e : event) (r : Receiver) : res Receiver :=
  match e with
  | Arrive t n l => Deliver t n l r
  | NewAnchor a => Ok (mkReceiver (exchange r) (statuses r) (anchors r ++ [a]) (executed r))
  end.

Fixpoint handle_all (l : list event) (r : Receiver) : res Receiver :=
  match l with [] => Ok r | e :: l => let! r := handle e r in handle_all l r end.

(** What arrives was sent, with its number. *)
Definition honest (e : event) : Prop :=
  match e with Arrive t n l => (exists k, sent !! k = Some t /\ n = number k) /\ Forall refused_fails l | NewAnchor _ => True end.

(** [g] is the receipt that [t] has so far.  From now on, whatever comes with [t] is not refused,
    and its receipt ends in an anchor that is known then. *)
Fixpoint clean (t : TxID) (g : option Receipt * bool) (known : list bytes) (l : list event) : Prop :=
  match l with
  | [] => True
  | Arrive u _ ss :: l =>
      if decide (hash u = hash t) then exists g', process_signatures (hash t) ss g = inl g' /\ proven_by g' known /\ clean t g' known l
      else clean t g known l
  | NewAnchor a :: l => clean t g (known ++ [a]) l
  end.

(** No arrival of [t] is refused, and at some arrival, and from then on, the receipts that came
    with it so far end in an anchor that is known then. *)
Fixpoint coming (t : TxID) (g : option Receipt * bool) (known : list bytes) (l : list event) : Prop :=
  match l with
  | [] => False
  | Arrive u _ ss :: l =>
      if decide (hash u = hash t) then
        exists g', process_signatures (hash t) ss g = inl g' /\ (proven_by g' known /\ clean t g' known l \/ coming t g' known l)
      else coming t g known l
  | NewAnchor a :: l => coming t g (known ++ [a]) l
  end.

Definition fresh (u : URL) (known : list bytes) : Receiver := mkReceiver (mkExchange u 0 0 0 0 []) ∅ known [].

Lemma fresh_inv u known : seq_inv (fresh u known).
Proof.
  split.
  - split; cbn; [lia|done|lia|lia].
  - cbn. pose proof (zlen_nonneg sent). lia.
  - done.
  - intros k t s _ Hs. cbn in Hs. by rewrite lookup_empty in Hs.
  - intros k t _ Hk. unfold del in Hk. cbn in Hk. lia.
  - intros k t _ Hs. unfold slot in Hs. cbn in Hs. by rewrite lookup_nil in Hs.
Qed.

Lemma anchor_inv a r : seq_inv r -> seq_inv (mkReceiver (exchange r) (statuses r) (anchors r ++ [a]) (executed r)).
Proof. intros [H1 H2 H3 H4 H5 H6]. by split. Qed.

Lemma proven_mono g l l' : proven_by g l -> l ⊆ l' -> proven_by g l'.
Proof. unfold proven_by, proven. cbn. destruct (fst g); [|done]. intros [-> H%bool_decide_eq_true]%andb_prop Hl. apply bool_decide_eq_true. by apply Hl. Qed.

(** What is left to arrive. *)
Definition due (G : nat -> Prop) (r : Receiver) (l : list event) : Prop :=
  forall k t, sent !! k = Some t -> (del r <= k)%nat ->
    open r t /\ (G k /\ clean t (gathered r t) (anchors r) l \/ coming t (gathered r t) (anchors r) l).

Lemma due_arrived G k t n ss r r' l :
  sent !! k = Some t -> arrived k t ss r r' -> due G r (Arrive t n ss :: l) -> due (and_proven G k t ss r) r' l.
Proof.
  intros Ht [A1 A2 A3 A4 _] Hd j u Hu Hj. destruct (Hd j u Hu ltac:(lia)) as [Ho Hc]. cbn [clean coming] in Hc. rewrite A1. destruct (decide (j = k)) as [->|Hne].
  - rewrite Ht in Hu. injection Hu as <-. rewrite !decide_True in Hc by done. destruct Hc as [(_ & g & Eg & Hp & Hc)|(g & Eg & Hc)]; destruct (A4 g Hj Ho Eg) as [-> Ho']; (split; [done|]).
    + left. split; [|done]. right. split; [done|]. by exists g.
    + destruct Hc as [[Hp Hc]|Hc]; [left|by right]. split; [|done]. right. split; [done|]. by exists g.
  - assert (hash t <> hash u) by (intros E; apply Hne; by apply (sent_inj j k u t)). rewrite !decide_False in Hc by done.
    destruct (A3 j u Hu Hne Hj) as [-> Ho']. split; [auto|]. destruct Hc as [[HG Hc]|Hc]; [left|by right]. split; [by left|done].
Qed.

Lemma handle_all_ok l : forall r, seq_inv r -> Forall honest l ->
  exists r', handle_all l r = Ok r' /\ seq_inv r' /\
    (forall G, live G r -> due G r l -> exists G', live G' r' /\ due G' r' []).
Proof.
  induction l as [|e l IH]; intros r Hi Hh.
  { exists r. split; [done|]. split; [done|]. intros G HL Hd. by exists G. }
  apply Forall_cons in Hh as [He Hh]. cbn [handle_all]. destruct e as [t n ss|a]; cbn [handle].
  - destruct He as [(k & Hk & ->) Hss]. destruct (deliver_ok k t ss r Hi Hk Hss) as (r1 & -> & Hi1 & Hcase). cbn [res_bind].
    destruct (IH r1 Hi1 Hh) as (r' & E & Hi' & Hl'). exists r'. split; [done|]. split; [done|]. intros G HL Hd. destruct Hcase as [[-> Hno]|[Ho Ha]].
    + apply (Hl' G HL). intros j u Hu Hj. destruct (Hd j u Hu Hj) as [Ho Hc]. cbn [clean coming] in Hc. split; [done|].
      rewrite !decide_False in Hc; [done|..]; intros Eh; apply Hno; assert (j = k) as -> by (by apply (sent_inj j k u t)); rewrite Hk in Hu; by injection Hu as <-.
    + apply (Hl' (and_proven G k t ss r)); [by apply (av_live _ _ _ _ _ Ha)|by apply (due_arrived G k t (number k) ss r)].
  - cbn [res_bind]. set (r1 := mkReceiver _ _ _ _). destruct (IH r1 (anchor_inv a r Hi) Hh) as (r' & E & Hi' & Hl'). exists r'. split; [done|]. split; [done|].
    intros G [L1 L2 L3 L4] Hd. apply (Hl' G).
    + split; [done| |done|done]. intros k t HG Ht Hle. destruct (L2 k t HG Ht Hle) as (Hs & Ho & Hp). split; [done|]. split; [done|].
      apply (proven_mono _ (anchors r)); [done|cbn; set_solver].
    + intros k t Ht Hj. exact (Hd k t Ht Hj).
Qed.

Lemma executed_take r : seq_inv r -> Delivered (exchange r) = zlen (executed r) /\ executed r `prefix_of` sent.
Proof.
  intros Hi. rewrite (si_executed _ Hi). split; [|apply prefix_take]. rewrite (del_Z r Hi). unfold zlen. rewrite length_take.
  pose proof (si_sent _ Hi) as H1. pose proof (ei_delivered _ (si_exch _ Hi)) as H2. unfold zlen in H1. unfold del. lia.
Qed.

(** C4. Whatever arrives from a partition, in whatever order, repeated or not, with or
    without receipts, also ones that do not fit, and with signatures that are refused or not,
    as long as each transaction carries the number it was given: the processing of every
    arrival ends without an error or a panic, and the transactions executed are at every
    moment the first ones the source sent, each once and in the order of their numbers; the
    ledger counts them. *)
Theorem synthetic_in_order u known l :
  Forall honest l ->
  exists r, handle_all l (fresh u known) = Ok r /\
    executed r `prefix_of` sent /\ Delivered (exchange r) = zlen (executed r).
Proof.
  intros Hh. destruct (handle_all_ok l (fresh u known) (fresh_inv u known) Hh) as (r & E & Hi & _).
  exists r. destruct (executed_take r Hi). done.
Qed.

(** C5. If of every transaction at least one arrival finds it proven, with the receipts that came
    with it so far making up a receipt of the directory that ends in an anchor that is known by
    then, and the receipts that come with it later keep it so, and if no arrival of it is
    refused, then, in whatever order the transactions and the anchors arrive, and however often,
    with or without receipts, all of them are executed, in the order of their numbers.  (A
    transaction one arrival of which is refused may never be executed,
    [refused_never_executed].) *)
Theorem synthetic_all_delivered u known l :
  Forall honest l -> (forall t, t ∈ sent -> coming t (None, false) known l) ->
  exists r, handle_all l (fresh u known) = Ok r /\ executed r = sent.
Proof.
  intros Hh Ha. destruct (handle_all_ok l (fresh u known) (fresh_inv u known) Hh) as (r & E & Hi & Hl).
  destruct (Hl (fun _ => False)) as (G & HL & HG).
  - split; [done|by intros k t []| |tauto]. intros k j t _ _ _ [x Hx]. cbn in Hx. by rewrite lookup_empty in Hx.
  - intros k t Ht _. unfold open, gathered, status_of. cbn [statuses fresh]. rewrite lookup_empty. split; [done|]. right. apply Ha. by eapply list_elem_of_lookup_2.
  - exists r. split; [done|]. rewrite (si_executed _ Hi). apply take_ge. destruct (sent !! del r) as [t|] eqn:Et; [|by apply lookup_ge_None in Et].
    destruct (lv_next _ _ HL). by destruct (HG (del r) t Et ltac:(done)) as [_ [[? _]|[]]].
Qed.

(** A transaction whose signatures were once refused with an error of the package [errors] counts
    as delivered: whatever arrives of it later is not looked at. *)
Lemma refused_never_executed fuel t n n' l l' r e :
  open r t -> process_signatures (hash t) l (gathered r t) = inr (Coded e) -> Success (Some (err_status e)) = false ->
  exists r', deliver principal_ok outcome fuel t n l r = Ok r' /\ executed r' = executed r /\
    deliver principal_ok outcome fuel t n' l' r' = Ok r'.
Proof.
  intros Ho Hp He. unfold deliver at 1. fold (status_of r t). fold (gathered r t). rewrite Ho, Hp.
  eexists. split; [done|]. split; [done|]. unfold deliver. fold (status_of (set_status (hash t) (mkStatus (failure_code e) 0 None false) r) t).
  rewrite status_of_set. unfold status_Delivered, status_Failed, failure_code. cbn [Code]. by rewrite He, orb_true_r.
Qed.

End Receiving.

(** ** An example: three transactions arriving as 3, 3, 1, 3, 2, some without receipts; the
    receipt of the first comes in two parts, and the second one fails. *)

Definition demo_synth (b : byte) : TxID := mkTxID (mkURL [] (str "foo.acme") [] [] []) (replicate 32 b).
Definition demo_sent : list TxID := [demo_synth Byte.x01; demo_synth Byte.x02; demo_synth Byte.x03].
Definition demo_outcome (t : TxID) (r : Receiver) : option error :=
  if bool_decide (hash t = replicate 32 Byte.x02) then Some (mkError StatusBadRequest "fails") else None.
Definition demo_entry (b : byte) : ReceiptEntry := mkEntry true (Some (replicate 32 b)).
Definition demo_receipt (start : Hash) (b : byte) : Receipt := mkReceipt start 0 start 0 (Apply (demo_entry b) start) [demo_entry b].
Definition demo_part (b : byte) : Receipt := demo_receipt (Some (replicate 32 b)) b.
Definition demo_source : URL := mkURL [] (str "bvn-BVN0.acme") [] [] [].
Definition demo_anchor (p : Receipt) : bytes := hb (Anchor p).
Definition demo_two : Receipt := demo_receipt (Anchor (demo_part Byte.x01)) Byte.x07.
Definition demo_events : list event :=
  [Arrive (demo_synth Byte.x03) 3 [OtherSignature None]; NewAnchor (demo_anchor (demo_part Byte.x03)); NewAnchor (demo_anchor demo_two);
   Arrive (demo_synth Byte.x03) 3 [ReceiptSignature DnUrl (demo_part Byte.x03)];
   Arrive (demo_synth Byte.x01) 1 [ReceiptSignature demo_source (demo_part Byte.x01); ReceiptSignature DnUrl demo_two];
   Arrive (demo_synth Byte.x03) 3 []; NewAnchor (demo_anchor (demo_part Byte.x02));
   Arrive (demo_synth Byte.x02) 2 [ReceiptSignature DnUrl (demo_part Byte.x02)]].

Lemma demo_outcome_fails t r e : demo_outcome t r = Some e -> Success (Some (err_status e)) = false.
Proof. unfold demo_outcome. case_bool_decide; intros [= <-]. done. Qed.

Lemma demo_distinct : NoDup (hash <$> demo_sent).
Proof. apply (bool_decide_unpack _). vm_compute. exact I. Qed.

Lemma demo_honest : Forall (honest demo_sent) demo_events.
Proof.
  repeat apply Forall_cons_2; try exact I; [..|apply Forall_nil_2]; (split; [|by repeat constructor]);
    [by exists 2%nat|by exists 2%nat|by exists 0%nat|by exists 2%nat|by exists 1%nat].
Qed.

(** Evaluation of [clean] and [coming]. *)
Fixpoint check_clean (t : TxID) (g : option Receipt * bool) (known : list bytes) (l : list event) : bool :=
  match l with
  | [] => true
  | Arrive u _ ss :: l =>
      if decide (hash u = hash t) then
        match process_signatures (hash t) ss g with inl g' => proven (mkStatus None 0 (fst g') (snd g')) known && check_clean t g' known l | inr _ => false end
      else check_clean t g known l
  | NewAnchor a :: l => check_clean t g (known ++ [a]) l
  end.

Fixpoint check_coming (t : TxID) (g : option Receipt * bool) (known : list bytes) (l : list event) : bool :=
  match l with
  | [] => false
  | Arrive u _ ss :: l =>
      if decide (hash u = hash t) then
        match process_signatures (hash t) ss g with
        | inl g' => proven (mkStatus None 0 (fst g') (snd g')) known && check_clean t g' known l || check_coming t g' known l
        | inr _ => false
        end
      else check_coming t g known l
  | NewAnchor a :: l => check_coming t g (known ++ [a]) l
  end.

Lemma check_clean_ok t l : forall g known, check_clean t g known l = true -> clean t g known l.
Proof.
  induction l as [|[u n ss|a] l IH]; intros g known; cbn [check_clean clean]; [done| |apply IH]. case_decide; [|apply IH].
  destruct (process_signatures _ _ _) as [g'|]; [|done]. intros [Hp Hc]%andb_prop. exists g'. split; [done|]. split; [exact Hp|by apply IH].
Qed.

Lemma check_coming_ok t l : forall g known, check_coming t g known l = true -> coming t g known l.
Proof.
  induction l as [|[u n ss|a] l IH]; intros g known; cbn [check_coming coming]; [done| |apply IH]. case_decide; [|apply IH].
  destruct (process_signatures _ _ _) as [g'|]; [|done]. intros [[Hp Hc%check_clean_ok]%andb_prop|Hc%IH]%orb_prop; exists g'; (split; [done|]); [left|by right].
  by split.
Qed.

Lemma demo_coming t : t ∈ demo_sent -> coming t (None, false) [] demo_events.
Proof.
  intros H. apply check_coming_ok. repeat (apply elem_of_cons in H as [->|H]); [| | |by apply not_elem_of_nil in H]; vm_compute; reflexivity.
Qed.

Lemma synthetic_in_order_witness :
  Forall (honest demo_sent) demo_events /\
  exists r, handle_all (fun _ _ => true) demo_outcome demo_sent demo_events (fresh DnUrl []) = Ok r /\
    executed r `prefix_of` demo_sent /\ Delivered (exchange r) = zlen (executed r).
Proof.
  split; [exact demo_honest|].
  exact (synthetic_in_order (fun _ _ => true) demo_outcome demo_outcome_fails demo_sent demo_distinct ltac:(done) DnUrl []
           demo_events demo_honest).
Defined.

Lemma synthetic_all_delivered_witness :
  exists r, handle_all (fun _ _ => true) demo_outcome demo_sent demo_events (fresh DnUrl []) = Ok r /\ executed r = demo_sent.
Proof.
  exact (synthetic_all_delivered (fun _ _ => true) demo_outcome demo_outcome_fails demo_sent demo_distinct ltac:(done) DnUrl []
           demo_events demo_honest demo_coming).
Defined.
