(* ===== verification/Routing.v ===== *)
(** * Routing of accounts to partitions: [internal/routing/tree.go], [simple.go],
      [router.go]

    A routing table gives partitions to prefixes of the 64-bit routing number of an
    account's root identity, with overrides for some identities.  [NewRouteTree] turns
    the table into a prefix tree; [Route] walks it.  The theorems show that on a table
    whose prefixes are a complete prefix code the tree is built and answers like the
    table itself, and that [BuildSimpleTable] produces such tables. *)

From stdpp Require Import sorting.
From S2P Require Import Prelude Encoding SortUtil Url AdiUrl StateManager.
Local Open Scope Z_scope.
Import Url.

(** ** The program *)

Record Route := mkRoute { Length : Z; Value : Z; Partition : bytes }.
Record RouteOverride := mkOverride { ov_Account : URL; ov_Partition : bytes }.
Record RoutingTable := mkTable { Overrides : list RouteOverride; Routes : list Route }.

(** Shifts of a [uint64]: a shift by 64 bits or more gives zero. *)
Definition shl64 (v n : Z) : Z := if 64 <=? n then 0 else u64 (Z.shiftl v n).
Definition shr64 (v n : Z) : Z := if 64 <=? n then 0 else Z.shiftr v n.

(** A child is nil until it is built. *)
Inductive prefixTreeNode :=
  | prefixTreeBranch (bits : Z) (children : list (option prefixTreeNode))
  | prefixTreeLeaf (partition : bytes).

(** The value aligned to the left, by which [sort.Slice] sorts; the order of routes
    with the same key is not specified by Go. *)
Definition route_key (r : Route) : Z := shl64 (Value r) (u64 (64 - Length r)).
Definition route_le (r s : Route) : Prop := route_key r <= route_key s.
#[global] Instance route_le_dec : RelDecision route_le.
Proof. intros r s. unfold route_le. apply _. Defined.

Fixpoint min_length (offset : Z) (routes : list Route) : Z :=
  match routes with
  | [] => offset
  | r :: routes => min_length (if Length r <? offset then Length r else offset) routes
  end.

(** The index [sort.Search] finds for child [i]. *)
Definition child_end (offset mask i : Z) (routes : list Route) : res Z :=
  sort_search (S (length routes))
    (fun j => let! r := index routes j in
              Ok (i <? Z.land (shr64 (Value r) (u64 (Length r - offset))) mask)) 0 (zlen routes).

(** The loop over the children, from child [i] of [n]; [k] bounds the iterations, each
    of which uses up a route. *)
Fixpoint build_children (build : list Route -> Z -> res prefixTreeNode) (offset mask : Z) (k : nat) (i n : Z)
    (routes : list Route) : res (list (option prefixTreeNode)) :=
  if n <=? i then Ok []
  else match k with
       | O => Panic "out of fuel"
       | S k =>
           let! e := child_end offset mask i routes in
           if e =? 0 then errors_new StatusInternalError "expected values, found none"
           else
             let! l := slice_to routes e in
             let! c := build l offset in
             let! rest := slice_from routes e in
             let! cs := build_children build offset mask k (i + 1) n rest in
             Ok (Some c :: cs)
       end.

(** The recursion does not end when two routes have the same prefix: Go's stack
    overflows, here the fuel runs out. *)
Fixpoint buildPrefixTree (fuel : nat) (routes : list Route) (depth : Z) : res prefixTreeNode :=
  match fuel with
  | O => Panic "stack overflow"
  | S fuel =>
      match routes with
      | [r] =>
          if negb (Length r =? depth) then errors_new StatusInternalError "unexpected offset"
          else Ok (prefixTreeLeaf (Partition r))
      | [] => Panic "index out of range"
      | r0 :: rest =>
          let offset := min_length (Length r0) rest in
          let bits := (u64 (offset - depth)) mod 2 ^ 16 in
          let! _ := Encoding.go_make (i64 (shl64 1 bits)) 16 in
          let mask := u64 (shl64 1 bits - 1) in
          let! cs := build_children (buildPrefixTree fuel) offset mask (S (length routes)) 0 (shl64 1 bits) routes in
          Ok (prefixTreeBranch bits cs)
      end
  end.

Record RouteTree := mkTree { overrides : gmap bytes bytes; root : prefixTreeNode }.

Definition route_fuel : nat := 66.

Definition NewRouteTree (table : RoutingTable) : res RouteTree :=
  let m := foldl (fun m o => <[IdentityAccountID32 (ov_Account o) := ov_Partition o]> m) ∅ (Overrides table) in
  let routes := merge_sort route_le (Routes table) in
  let! root := buildPrefixTree route_fuel routes 0 in
  Ok (mkTree m root).

(** [prefixTreeBranch.route] and [prefixTreeLeaf.route]; [pos] is a [uint16]. *)
Fixpoint route (node : prefixTreeNode) (rn pos : Z) : res bytes :=
  match node with
  | prefixTreeLeaf p => Ok p
  | prefixTreeBranch bits children =>
      let npos := (pos + bits) mod 2 ^ 16 in
      let i := Z.land (shr64 rn (u64 ((64 - npos) mod 2 ^ 16))) (u64 (shl64 1 bits - 1)) in
      (fix at_child (cs : list (option prefixTreeNode)) (k : nat) : res bytes :=
         match cs, k with
         | [], _ => Panic "index out of range"
         | Some c :: _, O => route c rn npos
         | None :: _, O => errors_new StatusInternalError "invalid routing table"
         | _ :: cs, S k => at_child cs k
         end) children (Z.to_nat i)
  end.

Definition RouteTree_Route (r : RouteTree) (u : URL) : res bytes :=
  match overrides r !! IdentityAccountID32 u with
  | Some s => Ok s
  | None => route (root r) (Routing u) 0
  end.

(** [None] is a router whose table has not been loaded. *)
Definition RouteAccount (tree : option RouteTree) (account : URL) : res bytes :=
  match tree with
  | None => errors_new StatusInternalError "the routing table has not been initialized"
  | Some tree =>
      if IsUnknown account then errors_new StatusBadRequest "URL is unknown, cannot route"
      else RouteTree_Route tree account
  end.

(** The loops of [RouteEnvelopes]; an envelope is the list of the routing locations of
    its signatures, and an empty route is one not found yet. *)
Fixpoint route_signatures (routeAccount : URL -> res bytes) (sigs : list URL) (r : bytes) : res bytes :=
  match sigs with
  | [] => Ok r
  | s :: sigs =>
      let! sigRoute := routeAccount s in
      if bytes_eqb r [] then route_signatures routeAccount sigs sigRoute
      else if negb (bytes_eqb r sigRoute) then
        errors_new StatusBadRequest "cannot route envelope(s): conflicting routes"
      else route_signatures routeAccount sigs r
  end.

Fixpoint route_envelopes (routeAccount : URL -> res bytes) (envs : list (list URL)) (r : bytes) : res bytes :=
  match envs with
  | [] => Ok r
  | env :: envs =>
      match env with
      | [] => errors_new StatusBadRequest "cannot route envelope: no signatures"
      | _ => let! r := route_signatures routeAccount env r in route_envelopes routeAccount envs r
      end
  end.

Definition RouteEnvelopes (routeAccount : URL -> res bytes) (envs : list (list URL)) : res bytes :=
  match envs with
  | [] => errors_new StatusBadRequest "nothing to route"
  | _ => route_envelopes routeAccount envs []
  end.

(** [buildSimpleTable]: the recursion halves the list. *)
Fixpoint buildSimpleTable (fuel : nat) (bvns : list bytes) (value depth : Z) : res (list Route) :=
  match fuel with
  | O => Panic "stack overflow"
  | S fuel =>
      if 1 <? zlen bvns then
        let value := shl64 value 1 in
        let depth := u64 (depth + 1) in
        let i := (length bvns / 2)%nat in
        let! a := buildSimpleTable fuel (take i bvns) (Z.lor value 0) depth in
        let! b := buildSimpleTable fuel (drop i bvns) (Z.lor value 1) depth in
        Ok (a ++ b)
      else
        let! p := index bvns 0 in Ok [mkRoute depth value p]
  end.

Definition BuildSimpleTable (bvns : list bytes) : res (list Route) :=
  buildSimpleTable (S (length bvns)) bvns 0 0.

(** ** Prefixes *)

(** The routing number starts with the prefix. *)
Definition matches (rn : Z) (r : Route) : Prop := rn / 2 ^ (64 - Length r) = Value r.
#[global] Instance matches_dec rn r : Decision (matches rn r).
Proof. unfold matches. apply _. Defined.

(** A prefix that extends the [d]-bit prefix [p]. *)
Record wf_route (d p : Z) (r : Route) : Prop := {
  wf_length : 0 <= d /\ d <= Length r <= 64;
  wf_value : 0 <= Value r < 2 ^ Length r;
  wf_prefix : Value r / 2 ^ (Length r - d) = p
}.

(** Every number that starts with [p] starts with exactly one of the prefixes. *)
Record complete (d p : Z) (routes : list Route) : Prop := {
  cp_wf : Forall (wf_route d p) routes;
  cp_one : forall rn, 0 <= rn < 2 ^ 64 -> rn / 2 ^ (64 - d) = p ->
    length (filter (matches rn) routes) = 1%nat
}.

Definition complete_table (routes : list Route) : Prop := complete 0 0 routes.

Lemma div_pow2_div a x y : 0 <= x -> 0 <= y -> a / 2 ^ x / 2 ^ y = a / 2 ^ (x + y).
Proof. intros Hx Hy. rewrite Z.div_div by lia. by rewrite Z.pow_add_r. Qed.

Lemma shr64_div v n : 0 <= v < 2 ^ 64 -> 0 <= n -> shr64 v n = v / 2 ^ n.
Proof.
  intros Hv Hn. unfold shr64. destruct (Z.leb_spec 64 n).
  - symmetry. apply Z.div_small. split; [lia|]. apply (Z.lt_le_trans _ (2 ^ 64)); [lia|].
    apply Z.pow_le_mono_r; lia.
  - by apply Z.shiftr_div_pow2.
Qed.

Section WfRoute.
Context (d p : Z) (r : Route) (Hw : wf_route d p r).

Lemma wf_value64 : 0 <= Value r < 2 ^ 64.
Proof.
  destruct Hw as [? Hv _]. split; [lia|]. apply (Z.lt_le_trans _ (2 ^ Length r)); [lia|].
  apply Z.pow_le_mono_r; lia.
Qed.

Lemma route_key_eq : route_key r = Value r * 2 ^ (64 - Length r).
Proof.
  destruct Hw as [Hl Hv _]. unfold route_key. rewrite u64_small by (unfold is_u64; lia).
  unfold shl64. destruct (Z.leb_spec 64 (64 - Length r)).
  - assert (Length r = 0) as E by lia. rewrite E in *. change (2 ^ 0) with 1 in Hv. nia.
  - rewrite Z.shiftl_mul_pow2 by lia. apply u64_small. unfold is_u64. split; [nia|].
    replace (2 ^ 64) with (2 ^ Length r * 2 ^ (64 - Length r)) by (rewrite <- Z.pow_add_r by lia; f_equal; lia).
    apply Z.mul_lt_mono_pos_r; lia.
Qed.

Lemma route_key_range : 0 <= route_key r < 2 ^ 64.
Proof.
  pose proof (wf_length _ _ _ Hw) as Hl. pose proof (wf_value _ _ _ Hw) as Hv. rewrite route_key_eq. split; [nia|].
  replace (2 ^ 64) with (2 ^ Length r * 2 ^ (64 - Length r)) by (rewrite <- Z.pow_add_r by lia; f_equal; lia).
  apply Z.mul_lt_mono_pos_r; lia.
Qed.

Lemma route_key_matches : matches (route_key r) r.
Proof.
  pose proof (wf_length _ _ _ Hw). unfold matches. rewrite route_key_eq. apply Z.div_mul. lia.
Qed.

(** The prefix of a route at a shorter length is that of every number it matches. *)
Lemma matches_prefix rn m : matches rn r -> 0 <= m <= Length r ->
  Value r / 2 ^ (Length r - m) = rn / 2 ^ (64 - m).
Proof.
  intros <- Hm. pose proof (wf_length _ _ _ Hw). rewrite div_pow2_div by lia. f_equal. f_equal. lia.
Qed.
End WfRoute.

Lemma matches_in_prefix d p r rn : 0 <= d -> wf_route d p r -> matches rn r -> rn / 2 ^ (64 - d) = p.
Proof.
  intros Hd Hw Hm. pose proof (wf_length _ _ _ Hw).
  rewrite <- (matches_prefix d p r Hw rn d) by (done || lia). apply (wf_prefix _ _ _ Hw).
Qed.

(** Two routes of a complete code cannot match the same number. *)
Lemma complete_two d p r s l : 0 <= d -> complete d p (r :: s :: l) ->
  ~ exists rn, 0 <= rn < 2 ^ 64 /\ matches rn r /\ matches rn s.
Proof.
  intros Hd Hc (rn & Hrn & Hr & Hs). pose proof (cp_wf _ _ _ Hc) as Hw. apply Forall_cons in Hw as [Hw _].
  pose proof (cp_one _ _ _ Hc rn Hrn (matches_in_prefix d p r rn Hd Hw Hr)) as H1.
  rewrite !filter_cons_True in H1 by done. by simpl in H1.
Qed.

Lemma complete_perm d p l k : l ≡ₚ k -> complete d p l -> complete d p k.
Proof.
  intros Hp Hc. destruct Hc as [Hw Ho]. split; [by rewrite <- Hp|]. intros rn H1 H2. rewrite <- Hp. auto.
Qed.

(** A complete code with one route is that of the whole prefix. *)
Lemma complete_one d p r : 0 <= d -> complete d p [r] -> Length r = d.
Proof.
  intros Hd Hc. pose proof (cp_wf _ _ _ Hc) as Hw. apply Forall_cons in Hw as [Hw _].
  pose proof (wf_length _ _ _ Hw) as Hl. pose proof (wf_value _ _ _ Hw) as Hv.
  destruct (Z.eq_dec (Length r) d) as [|Hne]; [done|exfalso]. set (L := Length r) in *.
  set (v := Z.lxor (Value r) 1).
  assert (Hhalf : v / 2 = Value r / 2).
  { unfold v. rewrite <- !Z.div2_div, !Z.div2_spec, Z.shiftr_lxor. by rewrite Z.lxor_0_r. }
  assert (Hneq : v <> Value r).
  { intros E. assert (E2 : Z.lxor (Value r) v = 0) by (rewrite E; apply Z.lxor_nilpotent).
    unfold v in E2. by rewrite <- Z.lxor_assoc, Z.lxor_nilpotent, Z.lxor_0_l in E2. }
  assert (Hvr : 0 <= v < 2 ^ L).
  { replace (2 ^ L) with (2 * 2 ^ (L - 1)) in * by (rewrite <- Z.pow_succ_r by lia; f_equal; lia).
    assert (Value r / 2 < 2 ^ (L - 1)) by (apply Z.div_lt_upper_bound; lia).
    pose proof (Z.div_mod v 2 ltac:(lia)). pose proof (Z.mod_pos_bound v 2 ltac:(lia)).
    assert (0 <= Value r / 2) by (apply Z.div_pos; lia). lia. }
  set (rn := v * 2 ^ (64 - L)).
  assert (Hpow : 2 ^ 64 = 2 ^ L * 2 ^ (64 - L)) by (rewrite <- Z.pow_add_r by lia; f_equal; lia).
  assert (Hrn : 0 <= rn < 2 ^ 64) by (unfold rn; rewrite Hpow; split; [nia|apply Z.mul_lt_mono_pos_r; lia]).
  assert (Hdiv : rn / 2 ^ (64 - L) = v) by (apply Z.div_mul; lia).
  assert (Hpre : rn / 2 ^ (64 - d) = p).
  { rewrite <- (wf_prefix _ _ _ Hw). fold L. replace (64 - d) with ((64 - L) + (L - d)) by lia.
    rewrite <- div_pow2_div, Hdiv by lia. replace (L - d) with (1 + (L - d - 1)) by lia.
    rewrite <- !div_pow2_div by lia. change (2 ^ 1) with 2. by rewrite Hhalf. }
  pose proof (cp_one _ _ _ Hc rn Hrn Hpre) as H1. rewrite filter_cons_False in H1; [done|].
  unfold matches. fold L. by rewrite Hdiv.
Qed.

Lemma min_length_spec l : forall o, let m := min_length o l in
  m <= o /\ Forall (fun r => m <= Length r) l /\ (m = o \/ exists r, r ∈ l /\ Length r = m).
Proof.
  induction l as [|r l IH]; intros o; simpl; [split_and!; [lia|constructor|by left]|].
  destruct (IH (if Length r <? o then Length r else o)) as (H1 & H2 & H3).
  destruct (Z.ltb_spec (Length r) o).
  - split_and!; [lia|by constructor|]. right. destruct H3 as [->|(s & Hs & E)].
    + exists r. split; [left|done].
    + exists s. split; [by right|done].
  - split_and!; [lia|constructor; [lia|done]|]. destruct H3 as [->|(s & Hs & E)]; [by left|].
    right. exists s. split; [by right|done].
Qed.

(** ** Building the tree *)

(** The routes left when the children from [i] on are still to be built. *)
Record tail_code (d p m i : Z) (l : list Route) : Prop := {
  tc_wf : Forall (wf_route d p) l;
  tc_len : Forall (fun r => m <= Length r) l;
  tc_sorted : StronglySorted route_le l;
  tc_ge : Forall (fun r => p * 2 ^ (m - d) + i <= route_key r / 2 ^ (64 - m)) l;
  tc_one : forall rn, 0 <= rn < 2 ^ 64 -> rn / 2 ^ (64 - d) = p -> p * 2 ^ (m - d) + i <= rn / 2 ^ (64 - m) ->
    length (filter (matches rn) l) = 1%nat
}.

Lemma StronglySorted_le_lookup (l : list Route) i j r s :
  StronglySorted route_le l -> (i <= j)%nat -> l !! i = Some r -> l !! j = Some s -> route_key r <= route_key s.
Proof.
  intros Hs. revert i j. induction Hs as [|x l Hs IH Hf]; intros i j Hij Hi Hj; [done|].
  destruct i as [|i], j as [|j]; simpl in *; simplify_eq; [lia| |lia|by apply (IH i j); [lia|..]].
  rewrite Forall_lookup in Hf. by apply (Hf j).
Qed.

Lemma StronglySorted_take_drop (l : list Route) n :
  StronglySorted route_le l -> StronglySorted route_le (take n l) /\ StronglySorted route_le (drop n l).
Proof.
  intros Hs. revert n. induction Hs as [|x l Hs IH Hf]; intros [|n]; simpl;
    try (split; by repeat constructor). destruct (IH n) as [H1 H2]. split; [|done].
  constructor; [done|]. by apply Forall_take.
Qed.

Lemma filter_none {A} (P : A -> Prop) `{!forall x, Decision (P x)} l : (forall x, x ∈ l -> ~ P x) -> filter P l = [].
Proof.
  intros Hn. induction l as [|x l IH]; [done|]. rewrite filter_cons_False by (apply Hn; left).
  apply IH. intros y Hy. apply Hn. by right.
Qed.

Section Split.
Context (d p m i : Z) (l : list Route) (Hd : 0 <= d) (Hm : d < m <= 64) (Hi : 0 <= i < 2 ^ (m - d)).
Context (Hp0 : 0 <= p < 2 ^ d) (Hl : tail_code d p m i l).

Definition part (r : Route) : Z := route_key r / 2 ^ (64 - m).

Lemma tail_in r : r ∈ l -> wf_route d p r /\ m <= Length r /\ p * 2 ^ (m - d) + i <= part r.
Proof.
  intros Hr. pose proof (tc_wf _ _ _ _ _ Hl) as H1. pose proof (tc_len _ _ _ _ _ Hl) as H2.
  pose proof (tc_ge _ _ _ _ _ Hl) as H3. rewrite Forall_forall in H1, H2, H3. split_and!; [by apply H1|by apply H2|by apply H3].
Qed.

Lemma part_matches r rn : r ∈ l -> matches rn r -> part r = rn / 2 ^ (64 - m).
Proof.
  intros Hr Hrn. destruct (tail_in r Hr) as (Hw & Hlen & _). unfold part.
  rewrite <- (matches_prefix d p r Hw rn m) by (done || lia).
  by rewrite <- (matches_prefix d p r Hw (route_key r) m) by (apply (route_key_matches d p r Hw) || lia).
Qed.

(** What the search looks at. *)
Lemma part_land r : r ∈ l ->
  Z.land (shr64 (Value r) (u64 (Length r - m))) (2 ^ (m - d) - 1) = part r - p * 2 ^ (m - d).
Proof.
  intros Hr. destruct (tail_in r Hr) as (Hw & Hlen & _). pose proof (wf_length _ _ _ Hw).
  rewrite u64_small by (unfold is_u64; lia). rewrite shr64_div by (lia || by apply (wf_value64 d p r Hw)).
  rewrite (matches_prefix d p r Hw (route_key r) m) by (apply (route_key_matches d p r Hw) || lia).
  fold (part r).
  replace (2 ^ (m - d) - 1) with (Z.ones (m - d)) by (rewrite Z.ones_equiv; lia). rewrite Z.land_ones by lia.
  assert (Hp : part r / 2 ^ (m - d) = p).
  { unfold part. rewrite div_pow2_div by lia. replace (64 - m + (m - d)) with (64 - d) by lia.
    apply (matches_in_prefix d p r); [done..|]. by apply (route_key_matches d p r Hw). }
  pose proof (Z.div_mod (part r) (2 ^ (m - d)) ltac:(lia)) as E. rewrite Hp in E. lia.
Qed.

Lemma child_end_ok : exists e, child_end m (2 ^ (m - d) - 1) i l = Ok (Z.of_nat e) /\ (e <= length l)%nat /\
  (forall j r, l !! j = Some r -> (j < e)%nat <-> part r = p * 2 ^ (m - d) + i).
Proof.
  set (cmp r := part r - p * 2 ^ (m - d) - i - 1).
  assert (Hmono : ge_mono cmp l).
  { intros j k r s Hjk Hj Hk. unfold cmp, part.
    pose proof (StronglySorted_le_lookup l j k r s (tc_sorted _ _ _ _ _ Hl) Hjk Hj Hk) as Hle.
    pose proof (Z.div_le_mono _ _ (2 ^ (64 - m)) ltac:(lia) Hle). lia. }
  destruct (sort_search_ok l cmp (S (length l)) 0 (length l)) as (e & (He & Hlo & Hhi) & E);
    [done|lia|lia|lia|intros x Hx%lookup_lt_Some; lia|].
  exists e. split; [|split; [done|]].
  - rewrite <- E. unfold child_end. apply sort_search_ext. intros j.
    destruct (index l j) as [r| |] eqn:Ej; [|done..]. cbn [res_bind]. f_equal.
    assert (Hr : r ∈ l).
    { unfold index in Ej. case_match; [done|]. case_match eqn:Er; [|done]. simplify_eq.
      by eapply list_elem_of_lookup_2. }
    rewrite part_land by done. unfold cmp. destruct (Z.ltb_spec i (part r - p * 2 ^ (m - d)));
      destruct (Z.leb_spec 0 (part r - p * 2 ^ (m - d) - i - 1)); lia.
  - intros j r Hj. assert (Hr : r ∈ l) by (by eapply list_elem_of_lookup_2).
    destruct (tail_in r Hr) as (_ & _ & Hge). split.
    + intros Hlt. pose proof (Hlo j r Hlt Hj). unfold cmp in *. lia.
    + intros Heq. destruct (Nat.lt_ge_cases j e) as [|Hje]; [done|exfalso].
      destruct (lookup_lt_is_Some_2 l e) as [s Hs]; [apply lookup_lt_Some in Hj; lia|].
      pose proof (Hmono e j s r Hje Hs Hj (Hhi s Hs)). unfold cmp in *. lia.
Qed.

Lemma child_prefix : 0 <= p * 2 ^ (m - d) + i < 2 ^ m.
Proof.
  replace (2 ^ m) with (2 ^ d * 2 ^ (m - d)) by (rewrite <- Z.pow_add_r by lia; f_equal; lia).
  split; [nia|]. assert (p + 1 <= 2 ^ d) by lia. nia.
Qed.

(** Child [i] gets the routes of its prefix, the rest those of the later children. *)
Lemma child_split : exists e, child_end m (2 ^ (m - d) - 1) i l = Ok (Z.of_nat e) /\ (0 < e <= length l)%nat /\
  complete m (p * 2 ^ (m - d) + i) (take e l) /\ StronglySorted route_le (take e l) /\
  tail_code d p m (i + 1) (drop e l).
Proof.
  destruct child_end_ok as (e & E & He & Hpart).
  assert (Htake : forall r, r ∈ take e l -> r ∈ l /\ part r = p * 2 ^ (m - d) + i).
  { intros r (j & Hj)%list_elem_of_lookup_1. apply lookup_take_Some in Hj as [Hj Hlt].
    split; [by eapply list_elem_of_lookup_2|]. by apply (Hpart j). }
  assert (Hdrop : forall r, r ∈ drop e l -> r ∈ l /\ p * 2 ^ (m - d) + (i + 1) <= part r).
  { intros r (j & Hj)%list_elem_of_lookup_1. rewrite lookup_drop in Hj.
    assert (Hr : r ∈ l) by (by eapply list_elem_of_lookup_2). split; [done|].
    destruct (tail_in r Hr) as (_ & _ & Hge). destruct (Hpart _ r Hj) as [_ Hne].
    destruct (Z.eq_dec (part r) (p * 2 ^ (m - d) + i)) as [Heq|]; [specialize (Hne Heq); lia|lia]. }
  assert (Hsplit : forall rn, filter (matches rn) l = filter (matches rn) (take e l) ++ filter (matches rn) (drop e l)).
  { intros rn. by rewrite <- filter_app, take_drop. }
  assert (Hone : forall rn, 0 <= rn < 2 ^ 64 -> rn / 2 ^ (64 - m) = p * 2 ^ (m - d) + i ->
    length (filter (matches rn) (take e l)) = 1%nat).
  { intros rn Hrn Hq.
    assert (Hp : rn / 2 ^ (64 - d) = p).
    { replace (64 - d) with (64 - m + (m - d)) by lia. rewrite <- div_pow2_div, Hq by lia.
      rewrite Z.add_comm, Z.div_add, Z.div_small by lia. done. }
    pose proof (tc_one _ _ _ _ _ Hl rn Hrn Hp ltac:(lia)) as H1. rewrite Hsplit, (filter_none _ (drop e l)), app_nil_r in H1; [done|].
    intros r Hr Hm1. destruct (Hdrop r Hr) as [Hin Hge]. rewrite (part_matches r rn Hin Hm1) in Hge. lia. }
  exists e. split; [done|].
  assert (Hpos : (0 < e)%nat).
  { destruct e as [|e]; [exfalso|lia]. set (q := p * 2 ^ (m - d) + i).
    destruct (decide (0 <= q * 2 ^ (64 - m) < 2 ^ 64)) as [Hr|Hr].
    - pose proof (Hone (q * 2 ^ (64 - m)) Hr ltac:(rewrite Z.div_mul; lia)) as H1. by rewrite take_0 in H1.
    - apply Hr. pose proof child_prefix as Hq. fold q in Hq. split; [nia|].
      replace (2 ^ 64) with (2 ^ m * 2 ^ (64 - m)) by (rewrite <- Z.pow_add_r by lia; f_equal; lia).
      apply Z.mul_lt_mono_pos_r; lia. }
  split; [lia|]. destruct (StronglySorted_take_drop l e (tc_sorted _ _ _ _ _ Hl)) as [Hs1 Hs2]. split; [|split; [done|]].
  - split; [|done]. apply Forall_forall. intros r Hr. destruct (Htake r Hr) as [Hin Hq].
    destruct (tail_in r Hin) as (Hw & Hlen & _). pose proof (wf_length _ _ _ Hw). split; [lia|apply Hw|].
    rewrite (matches_prefix d p r Hw (route_key r) m) by (apply (route_key_matches d p r Hw) || lia). exact Hq.
  - split; [apply Forall_drop, Hl|apply Forall_drop, Hl|done| |].
    + apply Forall_forall. intros r Hr. by destruct (Hdrop r Hr).
    + intros rn Hrn Hp Hge. pose proof (tc_one _ _ _ _ _ Hl rn Hrn Hp ltac:(lia)) as H1.
      rewrite Hsplit, (filter_none _ (take e l)) in H1; [done|]. intros r Hr Hm1.
      destruct (Htake r Hr) as [Hin Hq]. rewrite (part_matches r rn Hin Hm1) in Hq. lia.
Qed.
End Split.

(** There are at least as many routes as children. *)
Lemma tail_count d p m n : forall i l, 0 <= d -> d < m <= 64 -> 0 <= p < 2 ^ d -> 0 <= i ->
  i + Z.of_nat n = 2 ^ (m - d) -> tail_code d p m i l -> Z.of_nat n <= zlen l.
Proof.
  induction n as [|n IH]; intros i l Hd Hm Hp Hi Hn Hl; [unfold zlen; lia|].
  destruct (child_split d p m i l Hd Hm ltac:(lia) Hp Hl) as (e & _ & He & _ & _ & Hl').
  pose proof (IH (i + 1) _ Hd Hm Hp ltac:(lia) ltac:(lia) Hl') as Hz. unfold zlen in *. rewrite length_drop in Hz. lia.
Qed.

(** What the tree of a code answers. *)
Definition routes_like (m q : Z) (routes : list Route) (t : prefixTreeNode) : Prop :=
  forall rn, 0 <= rn < 2 ^ 64 -> rn / 2 ^ (64 - m) = q ->
    exists r, r ∈ routes /\ matches rn r /\ route t rn m = Ok (Partition r).

Lemma build_children_ok build d p m :
  0 <= d -> d < m <= 64 -> 0 <= p < 2 ^ d ->
  (forall q l, 0 <= q < 2 ^ m -> complete m q l -> StronglySorted route_le l -> zlen l <= 2 ^ 44 ->
     exists t, build l m = Ok t /\ routes_like m q l t) ->
  forall k i l, 0 <= i <= 2 ^ (m - d) -> tail_code d p m i l -> (length l < k)%nat -> zlen l <= 2 ^ 44 ->
  exists cs, build_children build m (2 ^ (m - d) - 1) k i (2 ^ (m - d)) l = Ok cs /\
    forall j, i <= j < 2 ^ (m - d) ->
      exists c, cs !! Z.to_nat (j - i) = Some (Some c) /\ routes_like m (p * 2 ^ (m - d) + j) l c.
Proof.
  intros Hd Hm Hp Hb. induction k as [|k IH]; intros i l Hi Hl Hk Hz; [lia|]. cbn [build_children].
  destruct (Z.leb_spec (2 ^ (m - d)) i) as [Hend|Hlt]; [exists []; split; [done|lia]|].
  destruct (child_split d p m i l Hd Hm ltac:(lia) Hp Hl) as (e & -> & He & Hc & Hs & Hl'). cbn [res_bind].
  rewrite (proj2 (Z.eqb_neq _ _)) by lia. rewrite slice_to_ok, slice_from_ok by (unfold zlen; lia). rewrite !Nat2Z.id. cbn [res_bind].
  destruct (Hb (p * 2 ^ (m - d) + i) (take e l)) as (t & -> & Ht); [apply child_prefix; done || lia|done|done| |].
  { unfold zlen in *. rewrite length_take. lia. }
  cbn [res_bind]. destruct (IH (i + 1) (drop e l)) as (cs & -> & Hcs); [lia|done|rewrite length_drop; lia| |].
  { unfold zlen in *. rewrite length_drop. lia. }
  cbn [res_bind]. exists (Some t :: cs). split; [done|]. intros j Hj.
  destruct (Z.eq_dec j i) as [->|Hne].
  - exists t. rewrite Z.sub_diag. split; [done|]. intros rn Hrn Hq. destruct (Ht rn Hrn Hq) as (r & Hr & ? & ?).
    exists r. split; [|done]. rewrite <- (take_drop e l). apply elem_of_app. by left.
  - destruct (Hcs j ltac:(lia)) as (c & Hc' & Hr'). exists c.
    replace (Z.to_nat (j - i)) with (S (Z.to_nat (j - (i + 1)))) by lia. split; [done|].
    intros rn Hrn Hq. destruct (Hr' rn Hrn Hq) as (r & Hr & ? & ?). exists r. split; [|done].
    rewrite <- (take_drop e l). apply elem_of_app. by right.
Qed.

Lemma route_branch bits cs rn pos :
  route (prefixTreeBranch bits cs) rn pos =
  let npos := (pos + bits) mod 2 ^ 16 in
  let i := Z.land (shr64 rn (u64 ((64 - npos) mod 2 ^ 16))) (u64 (shl64 1 bits - 1)) in
  match cs !! Z.to_nat i with
  | Some (Some c) => route c rn npos
  | Some None => errors_new StatusInternalError "invalid routing table"
  | None => Panic "index out of range"
  end.
Proof.
  cbn [route]. cbv zeta. generalize (Z.to_nat (Z.land (shr64 rn (u64 ((64 - (pos + bits) mod 2 ^ 16) mod 2 ^ 16)))
    (u64 (shl64 1 bits - 1)))) as k.
  induction cs as [|[c|] cs IH]; intros [|k]; simpl; done || apply IH.
Qed.

(** The shortest prefix of a code with several routes is longer than the common one. *)
Lemma complete_offset d p r s l : 0 <= d -> complete d p (r :: s :: l) ->
  d < min_length (Length r) (s :: l) <= 64.
Proof.
  intros Hd Hc. pose proof (cp_wf _ _ _ Hc) as Hw. set (m := min_length (Length r) (s :: l)).
  destruct (min_length_spec (s :: l) (Length r)) as (H1 & H2 & H3). fold m in H1, H2, H3.
  assert (Hall : exists x others, r :: s :: l ≡ₚ x :: others /\ others <> [] /\ Length x = m).
  { destruct H3 as [E|(x & Hx & E)]; [exists r, (s :: l); split_and!; done|].
    apply list_elem_of_split in Hx as (l1 & l2 & E2). exists x, (r :: l1 ++ l2). split_and!; [|done|done].
    rewrite E2. by rewrite <- Permutation_middle, (Permutation_swap x r). }
  destruct Hall as (x & [|y others] & Hperm & ? & Ex); [done|]. apply (complete_perm _ _ _ _ Hperm) in Hc.
  rewrite Hperm, !Forall_cons in Hw. destruct Hw as (Hwx & Hwy & _). pose proof (wf_length _ _ _ Hwx).
  split; [|lia]. destruct (Z.eq_dec m d) as [E|]; [exfalso|lia].
  apply (complete_two d p x y others Hd Hc). exists (route_key y). split; [by apply (route_key_range d p)|].
  split; [|by apply (route_key_matches d p)]. unfold matches.
  pose proof (matches_in_prefix d p y (route_key y) Hd Hwy (route_key_matches d p y Hwy)) as E2.
  rewrite Ex, E, E2, <- (wf_prefix _ _ _ Hwx), Ex, E, Z.sub_diag. change (2 ^ 0) with 1. by rewrite Z.div_1_r.
Qed.

Lemma complete_exists d p l : 0 <= d <= 64 -> 0 <= p < 2 ^ d -> complete d p l -> l <> [].
Proof.
  intros Hd Hp Hc ->. assert (Hr : 0 <= p * 2 ^ (64 - d) < 2 ^ 64).
  { split; [nia|]. replace (2 ^ 64) with (2 ^ d * 2 ^ (64 - d)) by (rewrite <- Z.pow_add_r by lia; f_equal; lia).
    apply Z.mul_lt_mono_pos_r; lia. }
  pose proof (cp_one _ _ _ Hc _ Hr ltac:(rewrite Z.div_mul; lia)) as H1. done.
Qed.

Lemma shl64_1 n : 0 <= n < 64 -> shl64 1 n = 2 ^ n.
Proof.
  intros Hn. unfold shl64. rewrite (proj2 (Z.leb_gt _ _)), Z.shiftl_1_l by lia. apply u64_small. unfold is_u64.
  split; [lia|]. apply Z.pow_lt_mono_r; lia.
Qed.

(** The tree of the children answers for the branch. *)
Lemma branch_routes d p m cs l : 0 <= d -> d < m <= 64 -> m - d < 64 ->
  (forall j, 0 <= j < 2 ^ (m - d) ->
     exists c, cs !! Z.to_nat j = Some (Some c) /\ routes_like m (p * 2 ^ (m - d) + j) l c) ->
  routes_like d p l (prefixTreeBranch (m - d) cs).
Proof.
  intros Hd Hm Hb Hcs rn Hrn Hp. rewrite route_branch. cbv zeta.
  replace (d + (m - d)) with m by lia. rewrite (Z.mod_small m) by lia. rewrite (Z.mod_small (64 - m)) by lia.
  rewrite u64_small by (unfold is_u64; lia). rewrite shr64_div by lia.
  assert (H64 : 2 ^ (m - d) < 2 ^ 64) by (apply Z.pow_lt_mono_r; lia).
  rewrite shl64_1, u64_small by (unfold is_u64; lia).
  replace (2 ^ (m - d) - 1) with (Z.ones (m - d)) by (rewrite Z.ones_equiv; lia). rewrite Z.land_ones by lia.
  set (j := rn / 2 ^ (64 - m) mod 2 ^ (m - d)). assert (Hj : 0 <= j < 2 ^ (m - d)) by (apply Z.mod_pos_bound; lia).
  destruct (Hcs j Hj) as (c & -> & Hr). apply Hr; [done|].
  pose proof (Z.div_mod (rn / 2 ^ (64 - m)) (2 ^ (m - d)) ltac:(lia)) as E.
  rewrite div_pow2_div in E by lia. replace (64 - m + (m - d)) with (64 - d) in E by lia. rewrite Hp in E.
  unfold j. lia.
Qed.

Lemma buildPrefixTree_ok fuel : forall d p l, 0 <= d <= 64 -> 64 - d < Z.of_nat fuel -> 0 <= p < 2 ^ d ->
  complete d p l -> StronglySorted route_le l -> zlen l <= 2 ^ 44 ->
  exists t, buildPrefixTree fuel l d = Ok t /\ routes_like d p l t.
Proof.
  induction fuel as [|fuel IH]; intros d p l Hd Hf Hp Hc Hs Hz; [lia|]. cbn [buildPrefixTree].
  destruct l as [|r [|s l]].
  - by apply complete_exists in Hc.
  - pose proof (complete_one d p r ltac:(lia) Hc) as El. rewrite (proj2 (Z.eqb_eq _ _) El). cbn [negb].
    eexists. split; [done|]. intros rn Hrn Hpre. exists r. split; [left|]. split; [|done].
    pose proof (cp_one _ _ _ Hc rn Hrn Hpre) as H1. destruct (decide (matches rn r)) as [|Hn]; [done|].
    by rewrite filter_cons_False in H1.
  - pose proof (complete_offset d p r s l ltac:(lia) Hc) as Hm. set (m := min_length (Length r) (s :: l)) in *.
    destruct (min_length_spec (s :: l) (Length r)) as (H1 & H2 & _). fold m in H1, H2.
    assert (Hl : tail_code d p m 0 (r :: s :: l)).
    { split; [apply Hc|by constructor|done| |intros rn Hrn Hpre _; by apply Hc].
      pose proof (cp_wf _ _ _ Hc) as Hw. apply (Forall_impl _ _ _ Hw). intros x Hx.
      pose proof (matches_in_prefix d p x _ ltac:(lia) Hx (route_key_matches d p x Hx)) as E.
      replace (64 - d) with (64 - m + (m - d)) in E by lia. rewrite <- div_pow2_div in E by lia.
      pose proof (Z.mul_div_le (route_key x / 2 ^ (64 - m)) (2 ^ (m - d)) ltac:(lia)). rewrite E in *. lia. }
    pose proof (tail_count d p m (Z.to_nat (2 ^ (m - d))) 0 _ ltac:(lia) Hm Hp ltac:(lia) ltac:(lia) Hl) as Hcount.
    assert (Hbits : m - d <= 44).
    { apply (Z.pow_le_mono_r_iff 2); [lia..|]. lia. }
    rewrite (u64_small (m - d)) by (unfold is_u64; lia). rewrite (Z.mod_small (m - d)) by lia.
    assert (H64 : 2 ^ (m - d) <= 2 ^ 44) by (apply Z.pow_le_mono_r; lia).
    rewrite shl64_1 by lia. rewrite i64_small by (unfold is_i64; lia). rewrite u64_small by (unfold is_u64; lia).
    unfold Encoding.go_make. rewrite (proj2 (Z.ltb_ge _ 0)), (proj2 (Z.ltb_ge (2 ^ 48) _)) by lia. cbn [orb res_bind].
    destruct (build_children_ok (buildPrefixTree fuel) d p m ltac:(lia) Hm Hp) with (k := S (length (r :: s :: l)))
      (i := 0) (l := r :: s :: l) as (cs & -> & Hcs); [|lia|done|lia|done|].
    { intros q k Hq Hk Hsk Hzk. apply (IH m q k); done || lia. }
    eexists. split; [done|]. apply (branch_routes d p m cs); [lia|done|lia|]. intros j Hj.
    destruct (Hcs j Hj) as (c & E & Hr). rewrite Z.sub_0_r in E. by exists c.
Qed.

(** ** The table as a function *)

(** The last override of the account's root identity. *)
Definition override_of (table : RoutingTable) (u : URL) : option bytes :=
  ov_Partition <$> last (filter (fun o => IdentityAccountID32 (ov_Account o) = IdentityAccountID32 u) (Overrides table)).

Lemma override_lookup l u : forall m : gmap bytes bytes,
  foldl (fun m o => <[IdentityAccountID32 (ov_Account o) := ov_Partition o]> m) m l !! IdentityAccountID32 u =
  match last (filter (fun o => IdentityAccountID32 (ov_Account o) = IdentityAccountID32 u) l) with
  | Some o => Some (ov_Partition o)
  | None => m !! IdentityAccountID32 u
  end.
Proof.
  induction l as [|o l IH]; intros m; [done|]. cbn [foldl]. rewrite IH.
  destruct (decide (IdentityAccountID32 (ov_Account o) = IdentityAccountID32 u)) as [E|E].
  - rewrite filter_cons_True by done. rewrite last_cons.
    destruct (last _); [done|]. rewrite E. by rewrite lookup_insert_eq.
  - rewrite filter_cons_False by done. destruct (last _); [done|]. by rewrite lookup_insert_ne.
Qed.

Lemma be_value_range l : 0 <= Binary.be_value l < 2 ^ (8 * Z.of_nat (length l)).
Proof.
  induction l as [|b l IH] using rev_ind; [done|]. rewrite Binary.be_value_snoc, length_app. simpl length.
  pose proof (b2z_range b). replace (8 * Z.of_nat (length l + 1)) with (8 + 8 * Z.of_nat (length l)) by lia.
  rewrite Z.pow_add_r by lia. change (2 ^ 8) with 256. lia.
Qed.

Lemma Routing_range u : 0 <= Routing u < 2 ^ 64.
Proof.
  unfold Routing. pose proof (be_value_range (take 8 (IdentityAccountID32 u))) as Hr.
  rewrite length_take in Hr. split; [lia|]. eapply Z.lt_le_trans; [apply Hr|]. apply Z.pow_le_mono_r; lia.
Qed.

#[global] Instance route_le_trans : Transitive route_le.
Proof. intros r s t. unfold route_le. lia. Qed.
#[global] Instance route_le_total : Total route_le.
Proof. intros r s. unfold route_le. lia. Qed.

(** The tree of a complete table, sorted first. *)
Lemma NewRouteTree_ok table : complete_table (Routes table) -> zlen (Routes table) <= 2 ^ 44 ->
  exists tree, NewRouteTree table = Ok tree /\ routes_like 0 0 (Routes table) (root tree) /\
    forall u, overrides tree !! IdentityAccountID32 u = override_of table u.
Proof.
  intros Hc Hz. unfold NewRouteTree. pose proof (merge_sort_Permutation route_le (Routes table)) as Hp.
  destruct (buildPrefixTree_ok route_fuel 0 0 (merge_sort route_le (Routes table))) as (t & -> & Ht);
    [lia|done|lia|by apply (complete_perm _ _ (Routes table))|apply (StronglySorted_merge_sort route_le _)|
     unfold zlen in *; by rewrite Hp|].
  eexists. split; [done|]. split.
  - intros rn Hrn Hq. destruct (Ht rn Hrn Hq) as (r & Hr). exists r. by rewrite <- Hp.
  - intros u. cbn [overrides]. rewrite (override_lookup (Overrides table) u ∅). unfold override_of.
    by destruct (last _).
Qed.

(** ** The simple table *)

Lemma complete_leaf d v p : 0 <= d <= 64 -> 0 <= v < 2 ^ d -> complete d v [mkRoute d v p].
Proof.
  intros Hd Hv. split.
  - constructor; [|done]. split; cbn; [lia|done|]. rewrite Z.sub_diag. apply Z.div_1_r.
  - intros rn Hrn Hp. by rewrite filter_cons_True.
Qed.

Lemma complete_app d v a b : 0 <= d < 64 -> complete (d + 1) (2 * v) a -> complete (d + 1) (2 * v + 1) b ->
  complete d v (a ++ b).
Proof.
  intros Hd Ha Hb.
  assert (Hwf : forall q l, q = 2 * v \/ q = 2 * v + 1 -> complete (d + 1) q l -> Forall (wf_route d v) l).
  { intros q l Hq [Hw _]. apply (Forall_impl _ _ _ Hw). intros r [Hl Hv Hp]. split; [lia|done|].
    replace (Length r - d) with (Length r - (d + 1) + 1) by lia. rewrite <- div_pow2_div, Hp by lia.
    change (2 ^ 1) with 2. destruct Hq as [-> | ->].
    - rewrite Z.mul_comm. by apply Z.div_mul.
    - rewrite Z.add_comm, (Z.mul_comm 2 v), Z.div_add by lia. done. }
  assert (Hno : forall q q' l rn, complete (d + 1) q' l -> rn / 2 ^ (64 - (d + 1)) = q -> q <> q' ->
    filter (matches rn) l = []).
  { intros q q' l rn [Hw _] Hq Hne. apply filter_none. intros r Hr Hm. rewrite Forall_forall in Hw.
    pose proof (matches_in_prefix (d + 1) q' r rn ltac:(lia) (Hw r Hr) Hm). congruence. }
  split; [apply Forall_app; split; [by apply (Hwf (2 * v)); [left|]|by apply (Hwf (2 * v + 1)); [right|]]|].
  intros rn Hrn Hp. rewrite filter_app, length_app.
  replace (64 - d) with (64 - (d + 1) + 1) in Hp by lia. rewrite <- div_pow2_div in Hp by lia. change (2 ^ 1) with 2 in Hp.
  set (q := rn / 2 ^ (64 - (d + 1))) in *. pose proof (Z.div_mod q 2 ltac:(lia)) as Eq.
  pose proof (Z.mod_pos_bound q 2 ltac:(lia)). destruct (Z.eq_dec (q mod 2) 0).
  - rewrite (cp_one _ _ _ Ha rn Hrn) by (fold q; lia). by rewrite (Hno q (2 * v + 1) b rn Hb eq_refl) by lia.
  - rewrite (cp_one _ _ _ Hb rn Hrn) by (fold q; lia). by rewrite (Hno q (2 * v) a rn Ha eq_refl) by lia.
Qed.

Lemma buildSimpleTable_ok fuel : forall bvns v d k, 0 <= d -> 0 <= k -> d + k <= 64 -> 0 <= v < 2 ^ d ->
  (0 < length bvns <= fuel)%nat -> zlen bvns <= 2 ^ k ->
  exists routes, buildSimpleTable fuel bvns v d = Ok routes /\ complete d v routes /\ Partition <$> routes = bvns.
Proof.
  induction fuel as [|fuel IH]; intros bvns v d k Hd Hk Hdk Hv Hn Hz; [lia|]. cbn [buildSimpleTable].
  destruct (Z.ltb_spec 1 (zlen bvns)) as [Hlt|Hge].
  - assert (Hk1 : 1 <= k) by (destruct (Z.eq_dec k 0) as [->|]; [change (2 ^ 0) with 1 in Hz; lia|lia]).
    assert (H2v : 2 ^ (d + 1) = 2 * 2 ^ d) by (rewrite Z.pow_add_r by lia; lia).
    assert (H2k : 2 ^ k = 2 * 2 ^ (k - 1)) by (rewrite <- Z.pow_succ_r by lia; f_equal; lia).
    assert (H64 : 2 ^ (d + 1) <= 2 ^ 64) by (apply Z.pow_le_mono_r; lia).
    assert (Ev : shl64 v 1 = 2 * v).
    { unfold shl64. cbn. rewrite Z.shiftl_mul_pow2 by lia. change (2 ^ 1) with 2. rewrite Z.mul_comm.
      apply u64_small. unfold is_u64. lia. }
    rewrite Ev, Z.lor_0_r, (u64_small (d + 1)) by (unfold is_u64; lia).
    assert (El : Z.lor (2 * v) 1 = 2 * v + 1).
    { symmetry. apply Z.add_nocarry_lor. change 1 with (Z.ones 1). rewrite Z.land_ones by lia.
      rewrite Z.mul_comm. by apply Z.mod_mul. }
    rewrite El. set (i := (length bvns / 2)%nat). unfold zlen in *.
    assert (Hi : (2 * i <= length bvns < 2 * i + 2)%nat).
    { unfold i. pose proof (Nat.div_mod_eq (length bvns) 2). pose proof (Nat.mod_upper_bound (length bvns) 2). lia. }
    destruct (IH (take i bvns) (2 * v) (d + 1) (k - 1)) as (a & -> & Ha & Pa);
      [lia|lia|lia|lia|rewrite length_take; lia|rewrite length_take; lia|].
    destruct (IH (drop i bvns) (2 * v + 1) (d + 1) (k - 1)) as (b & -> & Hb & Pb);
      [lia|lia|lia|lia|rewrite length_drop; lia|rewrite length_drop; lia|].
    cbn [res_bind]. exists (a ++ b). split; [done|]. split; [apply complete_app; [lia|done|done]|].
    by rewrite fmap_app, Pa, Pb, take_drop.
  - unfold zlen in *. destruct bvns as [|p [|q bvns]]; simpl in Hn, Hge; [lia| |lia].
    cbn [index res_bind]. eexists. split; [done|]. split; [apply complete_leaf; [lia|done]|done].
Qed.

(** A table of three partitions, its last route first. *)
Definition demo_routes : list Route :=
  [mkRoute 2 3 (str "Chandrayaan"); mkRoute 1 0 (str "Apollo"); mkRoute 2 2 (str "Yutu")].

Lemma demo_routes_complete : complete_table demo_routes.
Proof.
  apply (complete_perm 0 0 [mkRoute 1 0 (str "Apollo"); mkRoute 2 2 (str "Yutu"); mkRoute 2 3 (str "Chandrayaan")]).
  { exact (Permutation_app_comm [_; _] [_]). }
  apply (complete_app 0 0 [_] [_; _]); [lia|apply complete_leaf; done|].
  apply (complete_app 1 1 [_] [_]); [lia|apply complete_leaf; done..].
Qed.

(** C36. On a table whose prefixes are a complete prefix code, in any order, the prefix tree
    is built, and [Route] answers like the table: the last override of the account's
    root identity, otherwise the partition of the one prefix the account's routing
    number starts with. *)
Theorem Route_correct (table : RoutingTable) (Hc : complete_table (Routes table)) (Hz : zlen (Routes table) <= 2 ^ 44) :
  exists tree, NewRouteTree table = Ok tree /\ forall u,
    match override_of table u with
    | Some p => RouteTree_Route tree u = Ok p
    | None => exists r, filter (matches (Routing u)) (Routes table) = [r] /\ RouteTree_Route tree u = Ok (Partition r)
    end.
Proof.
  destruct (NewRouteTree_ok table Hc Hz) as (tree & E & Ht & Ho). exists tree. split; [done|]. intros u.
  unfold RouteTree_Route. rewrite Ho. destruct (override_of table u); [done|]. pose proof (Routing_range u) as Hr.
  assert (H0 : Routing u / 2 ^ (64 - 0) = 0) by (change (64 - 0) with 64; by apply Z.div_small).
  destruct (Ht (Routing u) Hr H0) as (r & Hin & Hm & Er). exists r. split; [|done].
  pose proof (cp_one _ _ _ Hc (Routing u) Hr H0) as H1.
  assert (Hf : r ∈ filter (matches (Routing u)) (Routes table)) by (by apply list_elem_of_filter).
  destruct (filter _ _) as [|x [|]]; [done| |done]. by apply list_elem_of_singleton in Hf as ->.
Qed.

Lemma Route_correct_witness :
  exists tree, NewRouteTree (mkTable [mkOverride DnUrl (str "Directory")] demo_routes) = Ok tree /\
    RouteTree_Route tree DnUrl = Ok (str "Directory").
Proof.
  destruct (Route_correct (mkTable [mkOverride DnUrl (str "Directory")] demo_routes) demo_routes_complete
    ltac:(vm_compute; discriminate)) as (tree & E & Hr).
  exists tree. split; [exact E|]. exact (Hr DnUrl).
Defined.

(** [BuildSimpleTable] gives every partition one prefix, and the prefixes are a complete
    prefix code: with it every account is routed to one of the partitions. *)
Theorem BuildSimpleTable_complete (bvns : list bytes) (Hne : bvns <> []) (Hz : zlen bvns <= 2 ^ 44) :
  exists routes, BuildSimpleTable bvns = Ok routes /\ Partition <$> routes = bvns /\ complete_table routes /\
    exists tree, NewRouteTree (mkTable [] routes) = Ok tree /\
      forall u, exists p, RouteTree_Route tree u = Ok p /\ p ∈ bvns.
Proof.
  destruct (buildSimpleTable_ok (S (length bvns)) bvns 0 0 44) as (routes & E & Hc & Hp);
    [lia|lia|lia|lia|destruct bvns; [done|simpl; lia]|done|].
  exists routes. split; [done|]. split; [done|]. split; [done|].
  assert (Hl : length routes = length bvns) by (by rewrite <- Hp, length_fmap).
  destruct (NewRouteTree_ok (mkTable [] routes) Hc) as (tree & Ht & Hr & Ho); [cbn; unfold zlen in *; lia|].
  exists tree. split; [done|]. intros u. unfold RouteTree_Route. rewrite Ho. cbn [override_of Overrides].
  destruct (Hr (Routing u) (Routing_range u)) as (r & Hin & _ & Er);
    [change (64 - 0) with 64; apply Z.div_small, Routing_range|].
  exists (Partition r). split; [done|]. rewrite <- Hp. apply list_elem_of_fmap. by exists r.
Qed.

Lemma BuildSimpleTable_complete_witness :
  exists routes, BuildSimpleTable [str "Apollo"; str "Yutu"; str "Chandrayaan"] = Ok routes /\ length routes = 3%nat.
Proof.
  destruct (BuildSimpleTable_complete [str "Apollo"; str "Yutu"; str "Chandrayaan"] ltac:(discriminate)
    ltac:(vm_compute; discriminate)) as (routes & E & Hp & _).
  exists routes. split; [exact E|]. rewrite <- (length_fmap Partition), Hp. reflexivity.
Defined.

(** Two routes with the same prefix are not refused: building the tree does not end. *)
Theorem buildPrefixTree_duplicate (a b : bytes) (fuel : nat) :
  is_Panic (buildPrefixTree fuel [mkRoute 0 0 a; mkRoute 0 0 b] 0) = true.
Proof.
  induction fuel as [|fuel IH]; [done|]. cbn [buildPrefixTree].
  generalize dependent (buildPrefixTree fuel). intros build Hb. revert Hb. vm_compute.
  destruct (build _ _); done.
Qed.

(** Envelopes that are routed together go where each of their signatures goes. *)
Theorem RouteEnvelopes_agree routeAccount envs r :
  RouteEnvelopes routeAccount envs = Ok r -> (forall u, routeAccount u <> Ok []) ->
  envs <> [] /\ Forall (fun env => env <> [] /\ Forall (fun u => routeAccount u = Ok r) env) envs.
Proof.
  intros H Hne.
  assert (Hs : forall sigs r0 r1, route_signatures routeAccount sigs r0 = Ok r1 ->
    (r0 = [] /\ sigs = [] /\ r1 = [] \/ r0 = [] /\ r1 <> [] \/ r0 <> [] /\ r1 = r0) /\
    Forall (fun u => routeAccount u = Ok r1) sigs).
  { induction sigs as [|s sigs IH]; intros r0 r1; cbn [route_signatures].
    - intros [= <-]. split; [|constructor]. destruct r0; [by left|by right; right].
    - intros Hr. inv_res. unfold bytes_eqb in Hk. case_bool_decide as E0.
      + apply IH in Hk as [Hc HF]. assert (v <> []) by (intros ->; by apply (Hne s)).
        destruct Hc as [(?&?&?)|[(?&?)|(_ & ->)]]; [done|done|]. split; [by right; left|by constructor].
      + case_bool_decide as E1; [|done]. cbn [negb] in Hk. apply IH in Hk as [Hc HF].
        destruct Hc as [(?&?&?)|[(?&?)|(_ & ->)]]; [done|done|]. split; [by right; right|].
        constructor; [by rewrite Hv, E1|done]. }
  assert (He : forall envs r0, route_envelopes routeAccount envs r0 = Ok r ->
    (r0 = [] \/ r = r0) /\ Forall (fun env => env <> [] /\ Forall (fun u => routeAccount u = Ok r) env) envs).
  { clear H. intros es. induction es as [|env es IH]; intros r0; cbn [route_envelopes].
    - intros Hr. injection Hr as ->. split; [by right|constructor].
    - destruct env as [|s env]; [done|]. intros Hr. inv_res. apply Hs in Hv as [Hc HF]. apply IH in Hk as [Hr HR].
      assert (v <> []). { apply Forall_cons in HF as [Hs1 _]. intros ->. by apply (Hne s). }
      destruct Hr as [?| ->]; [done|]. split; [|by constructor].
      destruct Hc as [(?&?&?)|[(?&?)|(? & ->)]]; [done|by left|by right]. }
  unfold RouteEnvelopes in H. destruct envs as [|env envs]; [done|]. split; [done|]. by apply (He _ []).
Qed.
