(* ===== verification/Enums.v ===== *)
(** * Enumerations: [protocol/enums_gen.go], [smt/managed/enums_gen.go],
      [internal/errors/enums_gen.go], [internal/api/v2/query/enums_gen.go]

    The values of an enumeration are unsigned integers.  [SetEnumValue] tells which ones
    are accepted from the wire, [String] and [ByName] convert to and from the names used
    in JSON.  Every enumeration accepts the values it names, and only those. *)

From Stdlib Require Import DecimalString.
From S2P Require Import Prelude.
Local Open Scope string_scope.
Local Open Scope Z_scope.

Definition decimal (v : Z) : string := NilZero.string_of_uint (N.to_uint (Z.to_N v)).

(** [strings.ToLower], on the characters of ASCII. *)
Definition lower_ascii (c : Ascii.ascii) : Ascii.ascii :=
  let n := Ascii.nat_of_ascii c in
  if (65 <=? n)%nat && (n <=? 90)%nat then Ascii.ascii_of_nat (n + 32) else c.

Fixpoint strings_ToLower (s : string) : string :=
  match s with
  | EmptyString => EmptyString
  | String c s => String (lower_ascii c) (strings_ToLower s)
  end.

(** ** protocol *)

Definition AccountAuthOperationTypeUnknown : Z := 0.
Definition AccountAuthOperationTypeEnable : Z := 1.
Definition AccountAuthOperationTypeDisable : Z := 2.
Definition AccountAuthOperationTypeAddAuthority : Z := 3.
Definition AccountAuthOperationTypeRemoveAuthority : Z := 4.

Definition AccountAuthOperationType_SetEnumValue (id : Z) : bool := existsb (Z.eqb id)
  [AccountAuthOperationTypeUnknown; AccountAuthOperationTypeEnable; AccountAuthOperationTypeDisable;
  AccountAuthOperationTypeAddAuthority; AccountAuthOperationTypeRemoveAuthority].

Definition AccountAuthOperationType_String (v : Z) : string :=
  if v =? AccountAuthOperationTypeUnknown then "unknown" else
  if v =? AccountAuthOperationTypeEnable then "enable" else
  if v =? AccountAuthOperationTypeDisable then "disable" else
  if v =? AccountAuthOperationTypeAddAuthority then "addAuthority" else
  if v =? AccountAuthOperationTypeRemoveAuthority then "removeAuthority" else
  ("AccountAuthOperationType:" ++ decimal v)%string.

Definition AccountAuthOperationTypeByName (name : string) : option Z :=
  let name := strings_ToLower name in
  if String.eqb name "unknown" then Some AccountAuthOperationTypeUnknown else
  if String.eqb name "enable" then Some AccountAuthOperationTypeEnable else
  if String.eqb name "disable" then Some AccountAuthOperationTypeDisable else
  if String.eqb name "addauthority" then Some AccountAuthOperationTypeAddAuthority else
  if String.eqb name "removeauthority" then Some AccountAuthOperationTypeRemoveAuthority else
  None.

Definition AccountTypeUnknown : Z := 0.
Definition AccountTypeAnchorLedger : Z := 1.
Definition AccountTypeIdentity : Z := 2.
Definition AccountTypeTokenIssuer : Z := 3.
Definition AccountTypeTokenAccount : Z := 4.
Definition AccountTypeLiteTokenAccount : Z := 5.
Definition AccountTypeBlockLedger : Z := 6.
Definition AccountTypeKeyPage : Z := 9.
Definition AccountTypeKeyBook : Z := 10.
Definition AccountTypeDataAccount : Z := 11.
Definition AccountTypeLiteDataAccount : Z := 12.
Definition AccountTypeUnknownSigner : Z := 13.
Definition AccountTypeSystemLedger : Z := 14.
Definition AccountTypeLiteIdentity : Z := 15.
Definition AccountTypeSyntheticLedger : Z := 16.

Definition AccountType_SetEnumValue (id : Z) : bool := existsb (Z.eqb id) [AccountTypeUnknown;
  AccountTypeAnchorLedger; AccountTypeIdentity; AccountTypeTokenIssuer; AccountTypeTokenAccount;
  AccountTypeLiteTokenAccount; AccountTypeBlockLedger; AccountTypeKeyPage; AccountTypeKeyBook;
  AccountTypeDataAccount; AccountTypeLiteDataAccount; AccountTypeUnknownSigner; AccountTypeSystemLedger;
  AccountTypeLiteIdentity; AccountTypeSyntheticLedger].

Definition AccountType_String (v : Z) : string :=
  if v =? AccountTypeUnknown then "unknown" else
  if v =? AccountTypeAnchorLedger then "anchorLedger" else
  if v =? AccountTypeIdentity then "identity" else
  if v =? AccountTypeTokenIssuer then "tokenIssuer" else
  if v =? AccountTypeTokenAccount then "tokenAccount" else
  if v =? AccountTypeLiteTokenAccount then "liteTokenAccount" else
  if v =? AccountTypeBlockLedger then "blockLedger" else
  if v =? AccountTypeKeyPage then "keyPage" else
  if v =? AccountTypeKeyBook then "keyBook" else
  if v =? AccountTypeDataAccount then "dataAccount" else
  if v =? AccountTypeLiteDataAccount then "liteDataAccount" else
  if v =? AccountTypeUnknownSigner then "unknownSigner" else
  if v =? AccountTypeSystemLedger then "systemLedger" else
  if v =? AccountTypeLiteIdentity then "liteIdentity" else
  if v =? AccountTypeSyntheticLedger then "syntheticLedger" else
  ("AccountType:" ++ decimal v)%string.

Definition AccountTypeByName (name : string) : option Z :=
  let name := strings_ToLower name in
  if String.eqb name "unknown" then Some AccountTypeUnknown else
  if String.eqb name "anchorledger" then Some AccountTypeAnchorLedger else
  if String.eqb name "identity" then Some AccountTypeIdentity else
  if String.eqb name "tokenissuer" then Some AccountTypeTokenIssuer else
  if String.eqb name "token" then Some AccountTypeTokenIssuer else
  if String.eqb name "tokenaccount" then Some AccountTypeTokenAccount else
  if String.eqb name "litetokenaccount" then Some AccountTypeLiteTokenAccount else
  if String.eqb name "blockledger" then Some AccountTypeBlockLedger else
  if String.eqb name "keypage" then Some AccountTypeKeyPage else
  if String.eqb name "keybook" then Some AccountTypeKeyBook else
  if String.eqb name "dataaccount" then Some AccountTypeDataAccount else
  if String.eqb name "litedataaccount" then Some AccountTypeLiteDataAccount else
  if String.eqb name "unknownsigner" then Some AccountTypeUnknownSigner else
  if String.eqb name "systemledger" then Some AccountTypeSystemLedger else
  if String.eqb name "liteidentity" then Some AccountTypeLiteIdentity else
  if String.eqb name "syntheticledger" then Some AccountTypeSyntheticLedger else
  None.

Definition AllowedTransactionBitUpdateKeyPage : Z := 1.
Definition AllowedTransactionBitUpdateAccountAuth : Z := 2.

Definition AllowedTransactionBit_SetEnumValue (id : Z) : bool := existsb (Z.eqb id)
  [AllowedTransactionBitUpdateKeyPage; AllowedTransactionBitUpdateAccountAuth].

Definition AllowedTransactionBit_String (v : Z) : string :=
  if v =? AllowedTransactionBitUpdateKeyPage then "updateKeyPage" else
  if v =? AllowedTransactionBitUpdateAccountAuth then "updateAccountAuth" else
  ("AllowedTransactionBit:" ++ decimal v)%string.

Definition AllowedTransactionBitByName (name : string) : option Z :=
  let name := strings_ToLower name in
  if String.eqb name "updatekeypage" then Some AllowedTransactionBitUpdateKeyPage else
  if String.eqb name "updateaccountauth" then Some AllowedTransactionBitUpdateAccountAuth else
  None.

Definition BookTypeNormal : Z := 0.
Definition BookTypeValidator : Z := 1.
Definition BookTypeOperator : Z := 2.

Definition BookType_SetEnumValue (id : Z) : bool := existsb (Z.eqb id) [BookTypeNormal; BookTypeValidator;
  BookTypeOperator].

Definition BookType_String (v : Z) : string :=
  if v =? BookTypeNormal then "normal" else
  if v =? BookTypeValidator then "validator" else
  if v =? BookTypeOperator then "operator" else
  ("BookType:" ++ decimal v)%string.

Definition BookTypeByName (name : string) : option Z :=
  let name := strings_ToLower name in
  if String.eqb name "normal" then Some BookTypeNormal else
  if String.eqb name "validator" then Some BookTypeValidator else
  if String.eqb name "operator" then Some BookTypeOperator else
  None.

Definition DataEntryTypeUnknown : Z := 0.
Definition DataEntryTypeFactom : Z := 1.
Definition DataEntryTypeAccumulate : Z := 2.

Definition DataEntryType_SetEnumValue (id : Z) : bool := existsb (Z.eqb id) [DataEntryTypeUnknown;
  DataEntryTypeFactom; DataEntryTypeAccumulate].

Definition DataEntryType_String (v : Z) : string :=
  if v =? DataEntryTypeUnknown then "unknown" else
  if v =? DataEntryTypeFactom then "factom" else
  if v =? DataEntryTypeAccumulate then "accumulate" else
  ("DataEntryType:" ++ decimal v)%string.

Definition DataEntryTypeByName (name : string) : option Z :=
  let name := strings_ToLower name in
  if String.eqb name "unknown" then Some DataEntryTypeUnknown else
  if String.eqb name "factom" then Some DataEntryTypeFactom else
  if String.eqb name "accumulate" then Some DataEntryTypeAccumulate else
  None.

Definition ErrorCodeOK : Z := 0.
Definition ErrorCodeEncodingError : Z := 1.
Definition ErrorCodeFailed : Z := 2.
Definition ErrorCodeDidPanic : Z := 3.
Definition ErrorCodeUnknownError : Z := 4.

Definition ErrorCode_SetEnumValue (id : Z) : bool := existsb (Z.eqb id) [ErrorCodeOK; ErrorCodeEncodingError;
  ErrorCodeFailed; ErrorCodeDidPanic; ErrorCodeUnknownError].

Definition ErrorCode_String (v : Z) : string :=
  if v =? ErrorCodeOK then "ok" else
  if v =? ErrorCodeEncodingError then "encodingError" else
  if v =? ErrorCodeFailed then "failed" else
  if v =? ErrorCodeDidPanic then "didPanic" else
  if v =? ErrorCodeUnknownError then "unknownError" else
  ("ErrorCode:" ++ decimal v)%string.

Definition ErrorCodeByName (name : string) : option Z :=
  let name := strings_ToLower name in
  if String.eqb name "ok" then Some ErrorCodeOK else
  if String.eqb name "encodingerror" then Some ErrorCodeEncodingError else
  if String.eqb name "failed" then Some ErrorCodeFailed else
  if String.eqb name "didpanic" then Some ErrorCodeDidPanic else
  if String.eqb name "unknownerror" then Some ErrorCodeUnknownError else
  None.

Definition KeyPageOperationTypeUnknown : Z := 0.
Definition KeyPageOperationTypeUpdate : Z := 1.
Definition KeyPageOperationTypeRemove : Z := 2.
Definition KeyPageOperationTypeAdd : Z := 3.
Definition KeyPageOperationTypeSetThreshold : Z := 4.
Definition KeyPageOperationTypeUpdateAllowed : Z := 5.

Definition KeyPageOperationType_SetEnumValue (id : Z) : bool := existsb (Z.eqb id) [KeyPageOperationTypeUnknown;
  KeyPageOperationTypeUpdate; KeyPageOperationTypeRemove; KeyPageOperationTypeAdd; KeyPageOperationTypeSetThreshold;
  KeyPageOperationTypeUpdateAllowed].

Definition KeyPageOperationType_String (v : Z) : string :=
  if v =? KeyPageOperationTypeUnknown then "unknown" else
  if v =? KeyPageOperationTypeUpdate then "update" else
  if v =? KeyPageOperationTypeRemove then "remove" else
  if v =? KeyPageOperationTypeAdd then "add" else
  if v =? KeyPageOperationTypeSetThreshold then "setThreshold" else
  if v =? KeyPageOperationTypeUpdateAllowed then "updateAllowed" else
  ("KeyPageOperationType:" ++ decimal v)%string.

Definition KeyPageOperationTypeByName (name : string) : option Z :=
  let name := strings_ToLower name in
  if String.eqb name "unknown" then Some KeyPageOperationTypeUnknown else
  if String.eqb name "update" then Some KeyPageOperationTypeUpdate else
  if String.eqb name "remove" then Some KeyPageOperationTypeRemove else
  if String.eqb name "add" then Some KeyPageOperationTypeAdd else
  if String.eqb name "setthreshold" then Some KeyPageOperationTypeSetThreshold else
  if String.eqb name "updateallowed" then Some KeyPageOperationTypeUpdateAllowed else
  None.

Definition ObjectTypeUnknown : Z := 0.
Definition ObjectTypeAccount : Z := 1.
Definition ObjectTypeTransaction : Z := 2.

Definition ObjectType_SetEnumValue (id : Z) : bool := existsb (Z.eqb id) [ObjectTypeUnknown; ObjectTypeAccount;
  ObjectTypeTransaction].

Definition ObjectType_String (v : Z) : string :=
  if v =? ObjectTypeUnknown then "unknown" else
  if v =? ObjectTypeAccount then "account" else
  if v =? ObjectTypeTransaction then "transaction" else
  ("ObjectType:" ++ decimal v)%string.

Definition ObjectTypeByName (name : string) : option Z :=
  let name := strings_ToLower name in
  if String.eqb name "unknown" then Some ObjectTypeUnknown else
  if String.eqb name "account" then Some ObjectTypeAccount else
  if String.eqb name "transaction" then Some ObjectTypeTransaction else
  None.

Definition PartitionTypeDirectory : Z := 1.
Definition PartitionTypeBlockValidator : Z := 2.

Definition PartitionType_SetEnumValue (id : Z) : bool := existsb (Z.eqb id) [PartitionTypeDirectory;
  PartitionTypeBlockValidator].

Definition PartitionType_String (v : Z) : string :=
  if v =? PartitionTypeDirectory then "directory" else
  if v =? PartitionTypeBlockValidator then "blockValidator" else
  ("PartitionType:" ++ decimal v)%string.

Definition PartitionTypeByName (name : string) : option Z :=
  let name := strings_ToLower name in
  if String.eqb name "directory" then Some PartitionTypeDirectory else
  if String.eqb name "blockvalidator" then Some PartitionTypeBlockValidator else
  if String.eqb name "block-validator" then Some PartitionTypeBlockValidator else
  None.

Definition SignatureTypeUnknown : Z := 0.
Definition SignatureTypeLegacyED25519 : Z := 1.
Definition SignatureTypeED25519 : Z := 2.
Definition SignatureTypeRCD1 : Z := 3.
Definition SignatureTypeReceipt : Z := 4.
Definition SignatureTypePartition : Z := 5.
Definition SignatureTypeSet : Z := 6.
Definition SignatureTypeRemote : Z := 7.
Definition SignatureTypeBTC : Z := 8.
Definition SignatureTypeBTCLegacy : Z := 9.
Definition SignatureTypeETH : Z := 10.
Definition SignatureTypeDelegated : Z := 11.
Definition SignatureTypeInternal : Z := 12.

Definition SignatureType_SetEnumValue (id : Z) : bool := existsb (Z.eqb id) [SignatureTypeUnknown;
  SignatureTypeLegacyED25519; SignatureTypeED25519; SignatureTypeRCD1; SignatureTypeReceipt; SignatureTypePartition;
  SignatureTypeSet; SignatureTypeRemote; SignatureTypeBTC; SignatureTypeBTCLegacy; SignatureTypeETH;
  SignatureTypeDelegated; SignatureTypeInternal].

Definition SignatureType_String (v : Z) : string :=
  if v =? SignatureTypeUnknown then "unknown" else
  if v =? SignatureTypeLegacyED25519 then "legacyED25519" else
  if v =? SignatureTypeED25519 then "ed25519" else
  if v =? SignatureTypeRCD1 then "rcd1" else
  if v =? SignatureTypeReceipt then "receipt" else
  if v =? SignatureTypePartition then "partition" else
  if v =? SignatureTypeSet then "set" else
  if v =? SignatureTypeRemote then "remote" else
  if v =? SignatureTypeBTC then "btc" else
  if v =? SignatureTypeBTCLegacy then "btclegacy" else
  if v =? SignatureTypeETH then "eth" else
  if v =? SignatureTypeDelegated then "delegated" else
  if v =? SignatureTypeInternal then "internal" else
  ("SignatureType:" ++ decimal v)%string.

Definition SignatureTypeByName (name : string) : option Z :=
  let name := strings_ToLower name in
  if String.eqb name "unknown" then Some SignatureTypeUnknown else
  if String.eqb name "legacyed25519" then Some SignatureTypeLegacyED25519 else
  if String.eqb name "ed25519" then Some SignatureTypeED25519 else
  if String.eqb name "rcd1" then Some SignatureTypeRCD1 else
  if String.eqb name "receipt" then Some SignatureTypeReceipt else
  if String.eqb name "partition" then Some SignatureTypePartition else
  if String.eqb name "synthetic" then Some SignatureTypePartition else
  if String.eqb name "set" then Some SignatureTypeSet else
  if String.eqb name "remote" then Some SignatureTypeRemote else
  if String.eqb name "btc" then Some SignatureTypeBTC else
  if String.eqb name "btclegacy" then Some SignatureTypeBTCLegacy else
  if String.eqb name "eth" then Some SignatureTypeETH else
  if String.eqb name "delegated" then Some SignatureTypeDelegated else
  if String.eqb name "internal" then Some SignatureTypeInternal else
  None.

Definition TransactionMaxUser : Z := 48.
Definition TransactionMaxSynthetic : Z := 95.
Definition TransactionMaxSystem : Z := 255.

Definition TransactionMax_SetEnumValue (id : Z) : bool := existsb (Z.eqb id) [TransactionMaxUser;
  TransactionMaxSynthetic; TransactionMaxSystem].

Definition TransactionMax_String (v : Z) : string :=
  if v =? TransactionMaxUser then "user" else
  if v =? TransactionMaxSynthetic then "synthetic" else
  if v =? TransactionMaxSystem then "system" else
  ("TransactionMax:" ++ decimal v)%string.

Definition TransactionMaxByName (name : string) : option Z :=
  let name := strings_ToLower name in
  if String.eqb name "user" then Some TransactionMaxUser else
  if String.eqb name "synthetic" then Some TransactionMaxSynthetic else
  if String.eqb name "system" then Some TransactionMaxSystem else
  None.

Definition TransactionTypeUnknown : Z := 0.
Definition TransactionTypeCreateIdentity : Z := 1.
Definition TransactionTypeCreateTokenAccount : Z := 2.
Definition TransactionTypeSendTokens : Z := 3.
Definition TransactionTypeCreateDataAccount : Z := 4.
Definition TransactionTypeWriteData : Z := 5.
Definition TransactionTypeWriteDataTo : Z := 6.
Definition TransactionTypeAcmeFaucet : Z := 7.
Definition TransactionTypeCreateToken : Z := 8.
Definition TransactionTypeIssueTokens : Z := 9.
Definition TransactionTypeBurnTokens : Z := 10.
Definition TransactionTypeCreateLiteTokenAccount : Z := 11.
Definition TransactionTypeCreateKeyPage : Z := 12.
Definition TransactionTypeCreateKeyBook : Z := 13.
Definition TransactionTypeAddCredits : Z := 14.
Definition TransactionTypeUpdateKeyPage : Z := 15.
Definition TransactionTypeLockAccount : Z := 16.
Definition TransactionTypeUpdateAccountAuth : Z := 21.
Definition TransactionTypeUpdateKey : Z := 22.
Definition TransactionTypeRemote : Z := 48.
Definition TransactionTypeSyntheticCreateIdentity : Z := 49.
Definition TransactionTypeSyntheticWriteData : Z := 50.
Definition TransactionTypeSyntheticDepositTokens : Z := 51.
Definition TransactionTypeSyntheticDepositCredits : Z := 52.
Definition TransactionTypeSyntheticBurnTokens : Z := 53.
Definition TransactionTypeSyntheticForwardTransaction : Z := 54.
Definition TransactionTypeSystemGenesis : Z := 96.
Definition TransactionTypeDirectoryAnchor : Z := 97.
Definition TransactionTypeBlockValidatorAnchor : Z := 98.
Definition TransactionTypeSystemWriteData : Z := 99.

Definition TransactionType_SetEnumValue (id : Z) : bool := existsb (Z.eqb id) [TransactionTypeUnknown;
  TransactionTypeCreateIdentity; TransactionTypeCreateTokenAccount; TransactionTypeSendTokens;
  TransactionTypeCreateDataAccount; TransactionTypeWriteData; TransactionTypeWriteDataTo; TransactionTypeAcmeFaucet;
  TransactionTypeCreateToken; TransactionTypeIssueTokens; TransactionTypeBurnTokens;
  TransactionTypeCreateLiteTokenAccount; TransactionTypeCreateKeyPage; TransactionTypeCreateKeyBook;
  TransactionTypeAddCredits; TransactionTypeUpdateKeyPage; TransactionTypeLockAccount;
  TransactionTypeUpdateAccountAuth; TransactionTypeUpdateKey; TransactionTypeRemote;
  TransactionTypeSyntheticCreateIdentity; TransactionTypeSyntheticWriteData; TransactionTypeSyntheticDepositTokens;
  TransactionTypeSyntheticDepositCredits; TransactionTypeSyntheticBurnTokens;
  TransactionTypeSyntheticForwardTransaction; TransactionTypeSystemGenesis; TransactionTypeDirectoryAnchor;
  TransactionTypeBlockValidatorAnchor; TransactionTypeSystemWriteData].

Definition TransactionType_String (v : Z) : string :=
  if v =? TransactionTypeUnknown then "unknown" else
  if v =? TransactionTypeCreateIdentity then "createIdentity" else
  if v =? TransactionTypeCreateTokenAccount then "createTokenAccount" else
  if v =? TransactionTypeSendTokens then "sendTokens" else
  if v =? TransactionTypeCreateDataAccount then "createDataAccount" else
  if v =? TransactionTypeWriteData then "writeData" else
  if v =? TransactionTypeWriteDataTo then "writeDataTo" else
  if v =? TransactionTypeAcmeFaucet then "acmeFaucet" else
  if v =? TransactionTypeCreateToken then "createToken" else
  if v =? TransactionTypeIssueTokens then "issueTokens" else
  if v =? TransactionTypeBurnTokens then "burnTokens" else
  if v =? TransactionTypeCreateLiteTokenAccount then "createLiteTokenAccount" else
  if v =? TransactionTypeCreateKeyPage then "createKeyPage" else
  if v =? TransactionTypeCreateKeyBook then "createKeyBook" else
  if v =? TransactionTypeAddCredits then "addCredits" else
  if v =? TransactionTypeUpdateKeyPage then "updateKeyPage" else
  if v =? TransactionTypeLockAccount then "lockAccount" else
  if v =? TransactionTypeUpdateAccountAuth then "updateAccountAuth" else
  if v =? TransactionTypeUpdateKey then "updateKey" else
  if v =? TransactionTypeRemote then "remote" else
  if v =? TransactionTypeSyntheticCreateIdentity then "syntheticCreateIdentity" else
  if v =? TransactionTypeSyntheticWriteData then "syntheticWriteData" else
  if v =? TransactionTypeSyntheticDepositTokens then "syntheticDepositTokens" else
  if v =? TransactionTypeSyntheticDepositCredits then "syntheticDepositCredits" else
  if v =? TransactionTypeSyntheticBurnTokens then "syntheticBurnTokens" else
  if v =? TransactionTypeSyntheticForwardTransaction then "syntheticForwardTransaction" else
  if v =? TransactionTypeSystemGenesis then "systemGenesis" else
  if v =? TransactionTypeDirectoryAnchor then "directoryAnchor" else
  if v =? TransactionTypeBlockValidatorAnchor then "blockValidatorAnchor" else
  if v =? TransactionTypeSystemWriteData then "systemWriteData" else
  ("TransactionType:" ++ decimal v)%string.

Definition TransactionTypeByName (name : string) : option Z :=
  let name := strings_ToLower name in
  if String.eqb name "unknown" then Some TransactionTypeUnknown else
  if String.eqb name "createidentity" then Some TransactionTypeCreateIdentity else
  if String.eqb name "createtokenaccount" then Some TransactionTypeCreateTokenAccount else
  if String.eqb name "sendtokens" then Some TransactionTypeSendTokens else
  if String.eqb name "createdataaccount" then Some TransactionTypeCreateDataAccount else
  if String.eqb name "writedata" then Some TransactionTypeWriteData else
  if String.eqb name "writedatato" then Some TransactionTypeWriteDataTo else
  if String.eqb name "acmefaucet" then Some TransactionTypeAcmeFaucet else
  if String.eqb name "createtoken" then Some TransactionTypeCreateToken else
  if String.eqb name "issuetokens" then Some TransactionTypeIssueTokens else
  if String.eqb name "burntokens" then Some TransactionTypeBurnTokens else
  if String.eqb name "createlitetokenaccount" then Some TransactionTypeCreateLiteTokenAccount else
  if String.eqb name "createkeypage" then Some TransactionTypeCreateKeyPage else
  if String.eqb name "createkeybook" then Some TransactionTypeCreateKeyBook else
  if String.eqb name "addcredits" then Some TransactionTypeAddCredits else
  if String.eqb name "updatekeypage" then Some TransactionTypeUpdateKeyPage else
  if String.eqb name "lockaccount" then Some TransactionTypeLockAccount else
  if String.eqb name "updateaccountauth" then Some TransactionTypeUpdateAccountAuth else
  if String.eqb name "updatekey" then Some TransactionTypeUpdateKey else
  if String.eqb name "remote" then Some TransactionTypeRemote else
  if String.eqb name "signPending" then Some TransactionTypeRemote else
  if String.eqb name "syntheticcreateidentity" then Some TransactionTypeSyntheticCreateIdentity else
  if String.eqb name "syntheticwritedata" then Some TransactionTypeSyntheticWriteData else
  if String.eqb name "syntheticdeposittokens" then Some TransactionTypeSyntheticDepositTokens else
  if String.eqb name "syntheticdepositcredits" then Some TransactionTypeSyntheticDepositCredits else
  if String.eqb name "syntheticburntokens" then Some TransactionTypeSyntheticBurnTokens else
  if String.eqb name "syntheticforwardtransaction" then Some TransactionTypeSyntheticForwardTransaction else
  if String.eqb name "systemgenesis" then Some TransactionTypeSystemGenesis else
  if String.eqb name "directoryanchor" then Some TransactionTypeDirectoryAnchor else
  if String.eqb name "blockvalidatoranchor" then Some TransactionTypeBlockValidatorAnchor else
  if String.eqb name "systemwritedata" then Some TransactionTypeSystemWriteData else
  None.

Definition VoteTypeAccept : Z := 0.
Definition VoteTypeReject : Z := 1.
Definition VoteTypeAbstain : Z := 2.
Definition VoteTypeSuggest : Z := 3.

Definition VoteType_SetEnumValue (id : Z) : bool := existsb (Z.eqb id) [VoteTypeAccept; VoteTypeReject;
  VoteTypeAbstain; VoteTypeSuggest].

Definition VoteType_String (v : Z) : string :=
  if v =? VoteTypeAccept then "accept" else
  if v =? VoteTypeReject then "reject" else
  if v =? VoteTypeAbstain then "abstain" else
  if v =? VoteTypeSuggest then "suggest" else
  ("VoteType:" ++ decimal v)%string.

Definition VoteTypeByName (name : string) : option Z :=
  let name := strings_ToLower name in
  if String.eqb name "accept" then Some VoteTypeAccept else
  if String.eqb name "reject" then Some VoteTypeReject else
  if String.eqb name "abstain" then Some VoteTypeAbstain else
  if String.eqb name "suggest" then Some VoteTypeSuggest else
  None.

(** ** smt/managed *)

Module managed.

Definition ChainTypeUnknown : Z := 0.
Definition ChainTypeTransaction : Z := 1.
Definition ChainTypeAnchor : Z := 2.
Definition ChainTypeIndex : Z := 4.

Definition ChainType_SetEnumValue (id : Z) : bool := existsb (Z.eqb id) [ChainTypeUnknown; ChainTypeTransaction;
  ChainTypeAnchor; ChainTypeIndex].

Definition ChainType_String (v : Z) : string :=
  if v =? ChainTypeUnknown then "unknown" else
  if v =? ChainTypeTransaction then "transaction" else
  if v =? ChainTypeAnchor then "anchor" else
  if v =? ChainTypeIndex then "index" else
  ("ChainType:" ++ decimal v)%string.

Definition ChainTypeByName (name : string) : option Z :=
  let name := strings_ToLower name in
  if String.eqb name "unknown" then Some ChainTypeUnknown else
  if String.eqb name "transaction" then Some ChainTypeTransaction else
  if String.eqb name "anchor" then Some ChainTypeAnchor else
  if String.eqb name "index" then Some ChainTypeIndex else
  None.

End managed.

(** ** internal/errors *)

Module errors.

Definition StatusOK : Z := 200.
Definition StatusDelivered : Z := 201.
Definition StatusPending : Z := 202.
Definition StatusRemote : Z := 203.
Definition StatusWrongPartition : Z := 301.
Definition StatusBadRequest : Z := 400.
Definition StatusUnauthenticated : Z := 401.
Definition StatusInsufficientCredits : Z := 402.
Definition StatusUnauthorized : Z := 403.
Definition StatusNotFound : Z := 404.
Definition StatusNotAllowed : Z := 405.
Definition StatusConflict : Z := 409.
Definition StatusBadSignerVersion : Z := 411.
Definition StatusBadTimestamp : Z := 412.
Definition StatusBadUrlLength : Z := 413.
Definition StatusIncompleteChain : Z := 414.
Definition StatusInsufficientBalance : Z := 415.
Definition StatusInternalError : Z := 500.
Definition StatusUnknownError : Z := 501.
Definition StatusEncodingError : Z := 502.
Definition StatusFatalError : Z := 503.

Definition Status_SetEnumValue (id : Z) : bool := existsb (Z.eqb id) [StatusOK; StatusDelivered; StatusPending;
  StatusRemote; StatusWrongPartition; StatusBadRequest; StatusUnauthenticated; StatusInsufficientCredits;
  StatusUnauthorized; StatusNotFound; StatusNotAllowed; StatusConflict; StatusBadSignerVersion; StatusBadTimestamp;
  StatusBadUrlLength; StatusIncompleteChain; StatusInsufficientBalance; StatusInternalError; StatusUnknownError;
  StatusEncodingError; StatusFatalError].

Definition Status_String (v : Z) : string :=
  if v =? StatusOK then "ok" else
  if v =? StatusDelivered then "delivered" else
  if v =? StatusPending then "pending" else
  if v =? StatusRemote then "remote" else
  if v =? StatusWrongPartition then "wrongPartition" else
  if v =? StatusBadRequest then "badRequest" else
  if v =? StatusUnauthenticated then "unauthenticated" else
  if v =? StatusInsufficientCredits then "insufficientCredits" else
  if v =? StatusUnauthorized then "unauthorized" else
  if v =? StatusNotFound then "notFound" else
  if v =? StatusNotAllowed then "notAllowed" else
  if v =? StatusConflict then "conflict" else
  if v =? StatusBadSignerVersion then "badSignerVersion" else
  if v =? StatusBadTimestamp then "badTimestamp" else
  if v =? StatusBadUrlLength then "badUrlLength" else
  if v =? StatusIncompleteChain then "incompleteChain" else
  if v =? StatusInsufficientBalance then "insufficientBalance" else
  if v =? StatusInternalError then "internalError" else
  if v =? StatusUnknownError then "unknownError" else
  if v =? StatusEncodingError then "encodingError" else
  if v =? StatusFatalError then "fatalError" else
  ("Status:" ++ decimal v)%string.

Definition StatusByName (name : string) : option Z :=
  let name := strings_ToLower name in
  if String.eqb name "ok" then Some StatusOK else
  if String.eqb name "delivered" then Some StatusDelivered else
  if String.eqb name "pending" then Some StatusPending else
  if String.eqb name "remote" then Some StatusRemote else
  if String.eqb name "wrongpartition" then Some StatusWrongPartition else
  if String.eqb name "badrequest" then Some StatusBadRequest else
  if String.eqb name "unauthenticated" then Some StatusUnauthenticated else
  if String.eqb name "insufficientcredits" then Some StatusInsufficientCredits else
  if String.eqb name "unauthorized" then Some StatusUnauthorized else
  if String.eqb name "notfound" then Some StatusNotFound else
  if String.eqb name "notallowed" then Some StatusNotAllowed else
  if String.eqb name "conflict" then Some StatusConflict else
  if String.eqb name "badsignerversion" then Some StatusBadSignerVersion else
  if String.eqb name "badtimestamp" then Some StatusBadTimestamp else
  if String.eqb name "badurllength" then Some StatusBadUrlLength else
  if String.eqb name "incompletechain" then Some StatusIncompleteChain else
  if String.eqb name "insufficientbalance" then Some StatusInsufficientBalance else
  if String.eqb name "internalerror" then Some StatusInternalError else
  if String.eqb name "unknownerror" then Some StatusUnknownError else
  if String.eqb name "encodingerror" then Some StatusEncodingError else
  if String.eqb name "fatalerror" then Some StatusFatalError else
  None.

End errors.

(** ** internal/api/v2/query *)

Module query.

Definition BlockFilterModeExcludeNone : Z := 0.
Definition BlockFilterModeExcludeEmpty : Z := 1.

Definition BlockFilterMode_SetEnumValue (id : Z) : bool := existsb (Z.eqb id) [BlockFilterModeExcludeNone;
  BlockFilterModeExcludeEmpty].

Definition BlockFilterMode_String (v : Z) : string :=
  if v =? BlockFilterModeExcludeNone then "excludeNone" else
  if v =? BlockFilterModeExcludeEmpty then "excludeEmpty" else
  ("BlockFilterMode:" ++ decimal v)%string.

Definition BlockFilterModeByName (name : string) : option Z :=
  let name := strings_ToLower name in
  if String.eqb name "excludenone" then Some BlockFilterModeExcludeNone else
  if String.eqb name "excludeempty" then Some BlockFilterModeExcludeEmpty else
  None.

Definition QueryTypeUnknown : Z := 0.
Definition QueryTypeUrl : Z := 1.
Definition QueryTypeChainId : Z := 2.
Definition QueryTypeTxId : Z := 3.
Definition QueryTypeTxHistory : Z := 4.
Definition QueryTypeDirectoryUrl : Z := 5.
Definition QueryTypeData : Z := 6.
Definition QueryTypeDataSet : Z := 7.
Definition QueryTypeKeyPageIndex : Z := 8.
Definition QueryTypeMinorBlocks : Z := 9.
Definition QueryTypeSynth : Z := 10.
Definition QueryTypeMajorBlocks : Z := 11.

Definition QueryType_SetEnumValue (id : Z) : bool := existsb (Z.eqb id) [QueryTypeUnknown; QueryTypeUrl;
  QueryTypeChainId; QueryTypeTxId; QueryTypeTxHistory; QueryTypeDirectoryUrl; QueryTypeData; QueryTypeDataSet;
  QueryTypeKeyPageIndex; QueryTypeMinorBlocks; QueryTypeSynth; QueryTypeMajorBlocks].

Definition QueryType_String (v : Z) : string :=
  if v =? QueryTypeUnknown then "unknown" else
  if v =? QueryTypeUrl then "url" else
  if v =? QueryTypeChainId then "chainId" else
  if v =? QueryTypeTxId then "txId" else
  if v =? QueryTypeTxHistory then "txHistory" else
  if v =? QueryTypeDirectoryUrl then "directoryUrl" else
  if v =? QueryTypeData then "data" else
  if v =? QueryTypeDataSet then "dataSet" else
  if v =? QueryTypeKeyPageIndex then "keyPageIndex" else
  if v =? QueryTypeMinorBlocks then "minorBlocks" else
  if v =? QueryTypeSynth then "synth" else
  if v =? QueryTypeMajorBlocks then "majorBlocks" else
  ("QueryType:" ++ decimal v)%string.

Definition QueryTypeByName (name : string) : option Z :=
  let name := strings_ToLower name in
  if String.eqb name "unknown" then Some QueryTypeUnknown else
  if String.eqb name "url" then Some QueryTypeUrl else
  if String.eqb name "chainid" then Some QueryTypeChainId else
  if String.eqb name "txid" then Some QueryTypeTxId else
  if String.eqb name "txhistory" then Some QueryTypeTxHistory else
  if String.eqb name "directoryurl" then Some QueryTypeDirectoryUrl else
  if String.eqb name "data" then Some QueryTypeData else
  if String.eqb name "dataset" then Some QueryTypeDataSet else
  if String.eqb name "keypageindex" then Some QueryTypeKeyPageIndex else
  if String.eqb name "minorblocks" then Some QueryTypeMinorBlocks else
  if String.eqb name "synth" then Some QueryTypeSynth else
  if String.eqb name "majorblocks" then Some QueryTypeMajorBlocks else
  None.

Definition TxFetchModeExpand : Z := 0.
Definition TxFetchModeIds : Z := 1.
Definition TxFetchModeCountOnly : Z := 2.
Definition TxFetchModeOmit : Z := 3.

Definition TxFetchMode_SetEnumValue (id : Z) : bool := existsb (Z.eqb id) [TxFetchModeExpand; TxFetchModeIds;
  TxFetchModeCountOnly; TxFetchModeOmit].

Definition TxFetchMode_String (v : Z) : string :=
  if v =? TxFetchModeExpand then "expand" else
  if v =? TxFetchModeIds then "ids" else
  if v =? TxFetchModeCountOnly then "countOnly" else
  if v =? TxFetchModeOmit then "omit" else
  ("TxFetchMode:" ++ decimal v)%string.

Definition TxFetchModeByName (name : string) : option Z :=
  let name := strings_ToLower name in
  if String.eqb name "expand" then Some TxFetchModeExpand else
  if String.eqb name "ids" then Some TxFetchModeIds else
  if String.eqb name "countonly" then Some TxFetchModeCountOnly else
  if String.eqb name "omit" then Some TxFetchModeOmit else
  None.

End query.

(** Two enumerations of plain integers. *)
Definition Fee_SetEnumValue (v : Z) : bool := true.
Definition AllowedTransactions_SetEnumValue (u : Z) : bool := true.

(** ** Names *)

Record Enumeration := mkEnumeration {
  SetEnumValue : Z -> bool;
  enum_String : Z -> string;
  ByName : string -> option Z
}.

Definition enumerations : list Enumeration := [

  mkEnumeration AccountAuthOperationType_SetEnumValue AccountAuthOperationType_String AccountAuthOperationTypeByName;
  mkEnumeration AccountType_SetEnumValue AccountType_String AccountTypeByName;
  mkEnumeration AllowedTransactionBit_SetEnumValue AllowedTransactionBit_String AllowedTransactionBitByName;
  mkEnumeration BookType_SetEnumValue BookType_String BookTypeByName;
  mkEnumeration DataEntryType_SetEnumValue DataEntryType_String DataEntryTypeByName;
  mkEnumeration ErrorCode_SetEnumValue ErrorCode_String ErrorCodeByName;
  mkEnumeration KeyPageOperationType_SetEnumValue KeyPageOperationType_String KeyPageOperationTypeByName;
  mkEnumeration ObjectType_SetEnumValue ObjectType_String ObjectTypeByName;
  mkEnumeration PartitionType_SetEnumValue PartitionType_String PartitionTypeByName;
  mkEnumeration SignatureType_SetEnumValue SignatureType_String SignatureTypeByName;
  mkEnumeration TransactionMax_SetEnumValue TransactionMax_String TransactionMaxByName;
  mkEnumeration TransactionType_SetEnumValue TransactionType_String TransactionTypeByName;
  mkEnumeration VoteType_SetEnumValue VoteType_String VoteTypeByName;
  mkEnumeration managed.ChainType_SetEnumValue managed.ChainType_String managed.ChainTypeByName;
  mkEnumeration errors.Status_SetEnumValue errors.Status_String errors.StatusByName;
  mkEnumeration query.BlockFilterMode_SetEnumValue query.BlockFilterMode_String query.BlockFilterModeByName;
  mkEnumeration query.QueryType_SetEnumValue query.QueryType_String query.QueryTypeByName;
  mkEnumeration query.TxFetchMode_SetEnumValue query.TxFetchMode_String query.TxFetchModeByName].

Lemma existsb_eqb v l : existsb (Z.eqb v) l = true -> v ∈ l.
Proof. intros (x & Hx & Heq)%existsb_exists. apply Z.eqb_eq in Heq as ->. by apply list_elem_of_In. Qed.

Lemma named_values (P : Z -> Prop) (l : list Z) :
  Forall P l -> forall v, existsb (Z.eqb v) l = true -> P v.
Proof. intros Hl v Hv. rewrite Forall_forall in Hl. by apply Hl, existsb_eqb. Qed.

(** The names of every enumeration of the protocol round trip: an accepted value is the
    one its name stands for, and a name, in any case of letters, stands for an accepted
    value. *)
Theorem enumeration_names (e : Enumeration) (He : e ∈ enumerations) :
  (forall v, SetEnumValue e v = true -> ByName e (enum_String e v) = Some v) /\
  (forall name v, ByName e name = Some v -> SetEnumValue e v = true).
Proof.
  revert e He. rewrite <- Forall_forall. unfold enumerations.
  repeat (apply Forall_cons; split); [..|apply Forall_nil]; try done; cbn [SetEnumValue enum_String ByName];
    (split;
     [ match goal with |- forall v, ?f v = true -> _ => unfold f end;
       apply named_values; repeat (apply Forall_cons; split); [..|apply Forall_nil]; vm_compute; reflexivity
     | intros name v; match goal with |- ?f name = _ -> _ => unfold f end;
       repeat (case_match; [intros [= <-]; vm_compute; reflexivity|]); done ]).
Qed.

Lemma enumeration_names_witness :
  exists e, e ∈ enumerations /\ SetEnumValue e 5 = true /\ ByName e (enum_String e 5) = Some 5.
Proof.
  exists (mkEnumeration AccountType_SetEnumValue AccountType_String AccountTypeByName).
  assert (He : mkEnumeration AccountType_SetEnumValue AccountType_String AccountTypeByName ∈ enumerations)
    by (unfold enumerations; set_solver).
  split; [exact He|]. split; [vm_compute; reflexivity|].
  apply (proj1 (enumeration_names _ He)). vm_compute. reflexivity.
Defined.
