(* ===== verification/Wire.v ===== *)
(** * The generated marshallers: building blocks and their laws

    The methods [MarshalBinary] and [UnmarshalBinaryFrom] of the generated types
    ([types_gen.go]) are sequences of calls of the [Writer] and the [Reader], one or a
    loop per field.  This file has the pieces those methods are made of, and for each
    piece what it writes and what it reads back, so that the round trip of a type is
    the composition of the laws of its fields. *)

From S2P Require Import Prelude Encoding Codec CodecProofs Url UrlParse.
Local Open Scope Z_scope.
Import Binary Url TxID.

(** ** The pieces *)

Definition url_String (u : URL) : string := String.string_of_list_byte (URL_String u).
Definition txid_String (t : TxID) : string := String.string_of_list_byte (TxID_String t).

(** The calls on a writer, in order. *)
Declare Scope wire_scope.
Notation "w '|>' f" := (f w) (at level 50, left associativity, only parsing) : wire_scope.
Open Scope wire_scope.

(** [if c { writer.Write…(…) }] *)
Definition when (c : bool) (f : Writer -> Writer) (w : Writer) : Writer := if c then f w else w.

(** [for _, v := range l { writer.Write…(…) }] *)
Definition range {A} (l : list A) (f : A -> Writer -> Writer) (w : Writer) : Writer :=
  foldl (fun w x => f x w) w l.

Definition is_nil {A} (o : option A) : bool := match o with Some _ => false | None => true end.
Definition is_empty {A} (l : list A) : bool := match l with [] => true | _ => false end.

(** The zero values of [[32]byte] and of [time.Time], as seconds since 1970. *)
Definition hash_zero : bytes := replicate 32 Byte.x00.
Definition time_zero : Z := FromUnix (-62135596800).

Definition writeUrl (n : Z) (u : option URL) : Writer -> Writer := WriteUrl n (url_String <$> u).
Definition writeTxid (n : Z) (t : option TxID) : Writer -> Writer := WriteUrl n (txid_String <$> t).

(** [writer.WriteValue(n, v.MarshalBinary)] *)
Definition writeValue (n : Z) (m : res bytes) : Writer -> Writer :=
  WriteValue n (match m with Ok b => inl b | Err e => inr (err_msg e) | Panic s => inr s end).

(** A pointer that was read replaces the old one. *)
Definition or_else {A} (x old : option A) : option A := match x with Some _ => x | None => old end.

(** A dereferenced pointer: the calls are behind a check for nil. *)
Definition deref {A} (o : option A) (f : A -> Writer -> Writer) (w : Writer) : Writer :=
  match o with Some x => f x w | None => w end.

(** [_, _, err := writer.Reset(…)], and the unknown fields that were read. *)
Definition finish (extraData : bytes) (w : Writer) : res bytes :=
  let '(_, _, err, b) := Writer_Reset w in
  match err with None => Ok (b ++ extraData) | Some e => errorf e end.

Definition parsed {U} (r : res U) : option U := match r with Ok u => Some u | _ => None end.

Definition readUrl (n : Z) : Reader -> option (option URL) * Reader :=
  ReadUrl (fun s => parsed (Parse (String.list_byte_of_string s))) n.
Definition readTxid (n : Z) : Reader -> option (option TxID) * Reader :=
  ReadUrl (fun s => parsed (ParseTxID (String.list_byte_of_string s))) n.

(** [reader.ReadValue(n, v.UnmarshalBinary)] *)
Definition readValue {A} (n : Z) (unmarshal : bytes -> res A) : Reader -> option A * Reader :=
  ReadValue (fun b => match unmarshal b with Ok v => Some v | _ => None end) n.

(** [for { if x, ok := reader.Read…(n); ok { l = append(l, x) } else { break } }]; an
    iteration that goes on has read at least one byte. *)
Fixpoint read_loop {A} (fuel : nat) (f : Reader -> option A * Reader) (r : Reader) : list A * Reader :=
  match fuel with
  | O => ([], set_err 0 "out of fuel" r)
  | S fuel =>
      match f r with
      | (Some x, r) => let '(l, r) := read_loop fuel f r in (x :: l, r)
      | (None, r) => ([], r)
      end
  end.

Definition read_list {A} (f : Reader -> option A * Reader) (r : Reader) : list A * Reader :=
  read_loop (S (S (length (r_data r)))) f r.

(** [seen, err := reader.Reset(…)] and [reader.ReadAll()]; [make] gets the unknown
    fields. *)
Definition finish_read {A} (make : bytes -> A) (r : Reader) : res A :=
  let '(_, err, r) := Reader_Reset r in
  match err with Some e => errorf e | None => Ok (make (ReadAll r)) end.

(** [UnmarshalEnumType] reads the type of a value in front of it. *)
Definition UnmarshalEnumType (SetEnumValue : Z -> bool) (data : bytes) : res Z :=
  let '(v, reader) := ReadUint 1 (NewReader data) in
  let '(_, err, _) := Reader_Reset reader in
  match err, v with
  | Some e, _ => errorf e
  | None, None => errorf "field Type: missing"
  | None, Some v => if SetEnumValue v then Ok v else errorf "field Type: invalid value"
  end.

(** Comparison of pointers and of slices. *)
Definition option_eq {A} (eq : A -> A -> bool) (x y : option A) : bool :=
  match x, y with Some x, Some y => eq x y | None, None => true | _, _ => false end.

Fixpoint list_eq {A} (eq : A -> A -> bool) (l k : list A) : bool :=
  match l, k with
  | [], [] => true
  | x :: l, y :: k => eq x y && list_eq eq l k
  | _, _ => false
  end.

Definition txid_Equal : option TxID -> option TxID -> bool := option_eq TxID_Equal.

(** An interface with several implementations, for types that contain it: how its
    values are written and read, which ones implement the narrower interface of
    [UnmarshalAnchorBody], and which ones survive. *)
Class Union (A : Type) := {
  u_Marshal : A -> res bytes;
  u_Unmarshal : bytes -> res A;
  u_narrow : A -> bool;
  u_Copy : A -> A;
  u_ok : A -> Prop
}.

(** No values, for a nesting that is too deep. *)
Definition empty_union : Union Empty_set := {|
  u_Marshal := fun x : Empty_set => match x with end; u_Unmarshal := fun _ => errorf "nested too deep";
  u_narrow := fun x : Empty_set => match x with end; u_Copy := fun x => x;
  u_ok := fun x : Empty_set => match x with end |}.

(** ** What is written *)

Definition written (w : Writer) (fs : list (Z * FieldValue)) : Prop :=
  w_err w = None /\ w_buf w = enc_all fs /\ w_written w = zlen (enc_all fs).

(** A field that is there unless [c]. *)
Definition seg (c : bool) (n : Z) (v : FieldValue) : list (Z * FieldValue) := if c then [] else [(n, v)].

Lemma written_new : written NewWriter [].
Proof. done. Qed.

Lemma written_value n v w fs :
  written w fs -> field_ok n -> value_ok v -> written (write_value n v w) (fs ++ [(n, v)]).
Proof.
  intros (He & Hb & Hw) Hn Hv. rewrite write_value_ok by done. unfold wrote.
  assert (Ee : enc_all (fs ++ [(n, v)]) = enc_all fs ++ enc (n, v)).
  { unfold enc_all. rewrite fmap_app, join_app. cbn. by rewrite app_nil_r. }
  split; [done|]. cbn [w_buf w_written]. rewrite Ee, Hb, Hw, zlen_app. done.
Qed.

Lemma written_when c f w fs n v :
  written w fs -> (forall w fs, written w fs -> c = false -> written (f w) (fs ++ [(n, v)])) ->
  written (when (negb c) f w) (fs ++ seg c n v).
Proof. intros Hw Hf. destruct c; cbn [when negb seg]; [by rewrite app_nil_r|by apply Hf]. Qed.

Lemma written_range {A} (l : list A) f n (e : A -> FieldValue) w fs :
  written w fs -> (forall x w fs, x ∈ l -> written w fs -> written (f x w) (fs ++ [(n, e x)])) ->
  written (range l f w) (fs ++ ((fun x => (n, e x)) <$> l)).
Proof.
  unfold range. revert w fs. induction l as [|x l IH]; intros w fs Hw Hf; cbn [foldl fmap list_fmap].
  { by rewrite app_nil_r. }
  replace (fs ++ (n, e x) :: ((fun x => (n, e x)) <$> l)) with ((fs ++ [(n, e x)]) ++ ((fun x => (n, e x)) <$> l))
    by by rewrite <- app_assoc.
  apply IH; [apply Hf; [left|done]|]. intros y w' fs' Hy. apply Hf. by right.
Qed.

(** The bytes of a structure. *)
Definition image (fs : list (Z * FieldValue)) : bytes :=
  match fs with [] => [z2b EmptyObject] | _ => enc_all fs end.

Lemma enc_all_nonempty f fs : 0 < zlen (enc_all (f :: fs)).
Proof.
  rewrite enc_all_cons, !zlen_app. pose proof (zlen_PutUvarint (fst f)).
  pose proof (zlen_nonneg (payload (snd f))). pose proof (zlen_nonneg (enc_all fs)). lia.
Qed.

Lemma finish_written w fs : written w fs -> finish [] w = Ok (image fs).
Proof.
  intros (He & Hb & Hw). unfold finish, Writer_Reset. rewrite Hw. destruct fs as [|f fs].
  - destruct w as [buf err lst n]. cbn in *. by subst.
  - pose proof (enc_all_nonempty f fs). rewrite (proj2 (Z.eqb_neq _ _)) by lia. rewrite He, Hb, app_nil_r. done.
Qed.

(** ** What is read *)

Definition reading (r : Reader) (fs : list (Z * FieldValue)) : Prop := exists ns, ready r fs ns.

(** Nothing is left. *)
Definition finished (r : Reader) : Prop := r_err r = None /\ ReadAll r = [].

Definition above (n : Z) (fs : list (Z * FieldValue)) : Prop := Forall (fun f => n < fst f <= 32) fs.

Definition left_with (r : Reader) (fs : list (Z * FieldValue)) : Prop :=
  reading r fs /\ (fs = [] -> finished r).

(** The method [f] for field [n] reads the value [v] as [x], and reads nothing when the
    field is not there. *)
Definition reads {A} (n : Z) (f : Reader -> option A * Reader) (v : FieldValue) (x : A) : Prop :=
  forall r fs, reading r ((n, v) :: fs) -> exists r', f r = (Some x, r') /\ left_with r' fs.
Definition misses {A} (n : Z) (f : Reader -> option A * Reader) : Prop :=
  forall r fs, above n fs -> reading r fs -> exists r', f r = (None, r') /\ left_with r' fs.

Lemma reading_new fs : reading (NewReader (image fs)) fs.
Proof. exists []. destruct fs as [|[n v] fs]; [right; right|left]; done. Qed.

Lemma rstate_left r fs ns : rstate r (enc_all fs) 0 (seen_of ns) -> left_with r fs.
Proof.
  intros Hr. split.
  - exists ns. destruct fs as [|[n v] fs]; by left.
  - intros ->. destruct Hr as (Hd & Hc & Hs & He). split; [done|]. unfold ReadAll. by rewrite Hc, Hd.
Qed.

Lemma readField_misses n r fs :
  field_ok n -> above n fs -> reading r fs -> exists r', readField n r = (false, r') /\ left_with r' fs.
Proof.
  intros Hn Ha [ns Hr]. destruct (readField_miss n fs r ns Hn Ha Hr) as (r' & E & Hr'). exists r'. split; [done|].
  split; [by exists ns|]. intros ->. unfold readField in E. cbn in Hr.
  assert (He : r_err r = None) by (destruct Hr as [Hr|[[d Hr]|[_ Hr]]]; apply Hr).
  rewrite He, field_guard in E by done. unfold field_ok in Hn.
  destruct Hr as [(Hd & Hc & Hs & _)|[[d (Hd & Hc & Hs & _)]|[-> (Hd & Hc & Hs & _)]]]; rewrite Hc in E.
  - cbn in E. unfold nextField in E. rewrite Hd in E.
    assert (Hfin : finished r) by (split; [done|]; unfold ReadAll; by rewrite Hc, Hd).
    destruct (r_seen r) eqn:Es; cbn in E; injection E as <-; [done|].
    split; [done|]. unfold ReadAll. cbn. rewrite Hc. done.
  - unfold EmptyObject in *. cbn [Z.eqb negb] in E. rewrite Hc in E.
    rewrite (proj2 (Z.ltb_ge _ _)), (proj2 (Z.ltb_lt _ _)) in E by lia. injection E as <-. split; [done|].
    unfold ReadAll. by rewrite Hc.
  - cbn in E. unfold nextField in E. rewrite Hs, Hd in E. cbn in E. injection E as <-. split; [done|]. done.
Qed.

Lemma read_value_reads n v : field_ok n -> value_ok v -> reads n (read_value n (kind_of v)) v v.
Proof.
  intros Hn Hv r fs [ns Hr]. destruct (readField_hit n v fs r ns Hn Hr) as (r1 & E1 & Hr1).
  destruct (read_value_ok n v _ r r1 0 _ E1 Hr1 Hv) as (r2 & E2 & Hr2). exists r2. split; [done|].
  by eapply rstate_left.
Qed.

Lemma read_value_misses n k : field_ok n -> misses n (read_value n k).
Proof.
  intros Hn r fs Ha Hr. destruct (readField_misses n r fs Hn Ha Hr) as (r' & E & Hl). exists r'.
  split; [by apply read_value_miss|done].
Qed.

(** A method that reads a value and converts it. *)
Lemma reads_map {A B} n (f : Reader -> option A * Reader) (g : A -> B) v x :
  (forall a b, g a = g b -> a = b) -> reads n (fun r => omap_fst g (f r)) v (g x) -> reads n f v x.
Proof.
  intros Hg Hf r fs Hr. destruct (Hf r fs Hr) as (r' & E & Hl). exists r'. split; [|done].
  unfold omap_fst in E. destruct (f r) as [[y|] r1]; cbn in E; [|done].
  assert (g y = g x) as E1 by congruence. apply Hg in E1. congruence.
Qed.

Lemma misses_map {A B} n (f : Reader -> option A * Reader) (g : A -> B) :
  misses n (fun r => omap_fst g (f r)) -> misses n f.
Proof.
  intros Hf r fs Ha Hr. destruct (Hf r fs Ha Hr) as (r' & E & Hl). exists r'. split; [|done].
  unfold omap_fst in E. destruct (f r) as [[y|] r1]; cbn in E; congruence.
Qed.

(** ** The laws of the methods *)

(** The conditions under which a field survives; a value is written only if it is not the
    zero value of its type. *)
Definition bytes_ok (b : bytes) : Prop := zlen b < MaxValueSize.
Definition string_ok (s : string) : Prop := zlen (String.list_byte_of_string s) < MaxValueSize.
Definition hash_ok (h : bytes) : Prop := length h = 32%nat.
Definition big_ok (v : Z) : Prop := 0 <= v /\ zlen (big_Bytes v) < MaxValueSize.
Definition enum_ok (set : Z -> bool) (v : Z) : Prop := is_u64 v /\ set v = true.
Definition url_ok (o : option URL) : Prop :=
  match o with Some u => canonical u = true /\ string_ok (url_String u) | None => True end.
Definition txid_ok (o : option TxID) : Prop :=
  match o with
  | Some t => canonical (url t) = true /\ UserInfo (url t) = [] /\ hash_ok (hash t) /\ string_ok (txid_String t)
  | None => True
  end.

(** The encoding of a nested value. *)
Definition bytes_of (m : res bytes) : bytes := match m with Ok b => b | _ => [] end.
Definition fits (m : res bytes) : Prop := zlen (bytes_of m) < MaxValueSize.
Definition survives {A} (m : A -> res bytes) (u : bytes -> res A) (x : A) : Prop :=
  exists b, m x = Ok b /\ u b = Ok x.

Class UnionLaws (A : Type) `{Union A} := {
  u_survives (x : A) : u_ok x -> survives u_Marshal u_Unmarshal x;
  u_copied (x : A) : u_ok x -> u_Copy x = x
}.

(** The encoding starts with the type [c]. *)
Definition tagged {A} (m : A -> res bytes) (c : Z) (x : A) : Prop :=
  exists fs, m x = Ok (image ((1, FUint c) :: fs)).

Section Laws.
Context (n : Z) (Hn : field_ok n).

Lemma written_Uint v w fs : written w fs -> is_u64 v -> written (WriteUint n v w) (fs ++ [(n, FUint v)]).
Proof. intros Hw Hv. by apply (written_value n (FUint v)). Qed.
Lemma written_Enum v w fs : written w fs -> is_u64 v -> written (WriteEnum n v w) (fs ++ [(n, FUint v)]).
Proof. intros Hw Hv. by apply (written_value n (FUint v)). Qed.
Lemma written_Int v w fs : written w fs -> is_i64 v -> written (WriteInt n v w) (fs ++ [(n, FInt v)]).
Proof. intros Hw Hv. by apply (written_value n (FInt v)). Qed.
Lemma WriteTime_truncate t w : WriteTime n (truncate t) w = WriteTime n t w.
Proof. unfold WriteTime, truncate. by rewrite Unix_FromUnix. Qed.

Lemma written_Time v w fs : written w fs -> time_ok v -> written (WriteTime n v w) (fs ++ [(n, FTime v)]).
Proof. intros Hw Hv. by apply (written_value n (FTime v)). Qed.
Lemma written_Bool v w fs : written w fs -> written (WriteBool n v w) (fs ++ [(n, FBool v)]).
Proof. intros Hw. by apply (written_value n (FBool v)). Qed.
Lemma written_Bytes v w fs : written w fs -> bytes_ok v -> written (WriteBytes n v w) (fs ++ [(n, FBytes v)]).
Proof. intros Hw Hv. by apply (written_value n (FBytes v)). Qed.
Lemma written_String v w fs : written w fs -> string_ok v -> written (WriteString n v w) (fs ++ [(n, FString v)]).
Proof. intros Hw Hv. by apply (written_value n (FString v)). Qed.
Lemma written_Hash v w fs : written w fs -> hash_ok v -> written (WriteHash n v w) (fs ++ [(n, FHash v)]).
Proof. intros Hw Hv. by apply (written_value n (FHash v)). Qed.
Lemma written_BigInt v w fs : written w fs -> big_ok v -> written (WriteBigInt n v w) (fs ++ [(n, FBig v)]).
Proof. intros Hw Hv. by apply (written_value n (FBig v)). Qed.

Lemma written_Url o w fs :
  written w fs -> url_ok o -> written (writeUrl n o w) (fs ++ [(n, FString (default "" (url_String <$> o))%string)]).
Proof. intros Hw Ho. apply (written_value n (FString _)); [done..|]. destruct o as [u|]; [apply Ho|done]. Qed.
Lemma written_Txid o w fs :
  written w fs -> txid_ok o -> written (writeTxid n o w) (fs ++ [(n, FString (default "" (txid_String <$> o))%string)]).
Proof. intros Hw Ho. apply (written_value n (FString _)); [done..|]. destruct o as [u|]; [apply Ho|done]. Qed.

Lemma written_nested {A} (m : A -> res bytes) u x w fs :
  written w fs -> survives m u x -> fits (m x) -> written (writeValue n (m x) w) (fs ++ [(n, FBytes (bytes_of (m x)))]).
Proof.
  intros Hw (b & E & _) Hf. unfold writeValue, WriteValue, didMarshal, unless_err. rewrite E in *. cbn in *.
  replace (match w_err w with Some _ => w | None => w end) with w by by destruct (w_err w).
  by apply (written_value n (FBytes b)).
Qed.

Lemma reads_Uint v : is_u64 v -> reads n (ReadUint n) (FUint v) v.
Proof. intros Hv. apply (reads_map _ _ FUint); [congruence|]. by apply (read_value_reads n (FUint v)). Qed.
Lemma reads_Int v : is_i64 v -> reads n (ReadInt n) (FInt v) v.
Proof. intros Hv. apply (reads_map _ _ FInt); [congruence|]. by apply (read_value_reads n (FInt v)). Qed.
Lemma reads_Time v : time_ok v -> reads n (ReadTime n) (FTime v) v.
Proof. intros Hv. apply (reads_map _ _ FTime); [congruence|]. by apply (read_value_reads n (FTime v)). Qed.
Lemma reads_Bool v : reads n (ReadBool n) (FBool v) v.
Proof. apply (reads_map _ _ FBool); [congruence|]. by apply (read_value_reads n (FBool v)). Qed.
Lemma reads_Bytes v : bytes_ok v -> reads n (ReadBytes n) (FBytes v) v.
Proof. intros Hv. apply (reads_map _ _ FBytes); [congruence|]. by apply (read_value_reads n (FBytes v)). Qed.
Lemma reads_String v : string_ok v -> reads n (ReadString n) (FString v) v.
Proof. intros Hv. apply (reads_map _ _ FString); [congruence|]. by apply (read_value_reads n (FString v)). Qed.
Lemma reads_Hash v : hash_ok v -> reads n (ReadHash n) (FHash v) v.
Proof. intros Hv. apply (reads_map _ _ FHash); [congruence|]. by apply (read_value_reads n (FHash v)). Qed.
Lemma reads_BigInt v : big_ok v -> reads n (ReadBigInt n) (FBig v) v.
Proof. intros Hv. apply (reads_map _ _ FBig); [congruence|]. by apply (read_value_reads n (FBig v)). Qed.

Lemma misses_Uint : misses n (ReadUint n).
Proof. apply (misses_map _ _ FUint). by apply (read_value_misses n KUint64). Qed.
Lemma misses_Int : misses n (ReadInt n).
Proof. apply (misses_map _ _ FInt). by apply (read_value_misses n KInt64). Qed.
Lemma misses_Time : misses n (ReadTime n).
Proof. apply (misses_map _ _ FTime). by apply (read_value_misses n KTime). Qed.
Lemma misses_Bool : misses n (ReadBool n).
Proof. apply (misses_map _ _ FBool). by apply (read_value_misses n KBool). Qed.
Lemma misses_Bytes : misses n (ReadBytes n).
Proof. apply (misses_map _ _ FBytes). by apply (read_value_misses n KBin). Qed.
Lemma misses_String : misses n (ReadString n).
Proof. apply (misses_map _ _ FString). by apply (read_value_misses n KStr). Qed.
Lemma misses_Hash : misses n (ReadHash n).
Proof. apply (misses_map _ _ FHash). by apply (read_value_misses n KHash). Qed.
Lemma misses_BigInt : misses n (ReadBigInt n).
Proof. apply (misses_map _ _ FBig). by apply (read_value_misses n KBig). Qed.

Lemma reads_Enum set v : enum_ok set v -> reads n (ReadEnum set n) (FUint v) v.
Proof.
  intros [Hv Hs] r fs Hr. destruct (reads_Uint v Hv r fs Hr) as (r' & E & Hl). exists r'. split; [|done].
  unfold ReadEnum. by rewrite E, Hs.
Qed.
Lemma misses_Enum set : misses n (ReadEnum set n).
Proof.
  intros r fs Ha Hr. destruct (misses_Uint r fs Ha Hr) as (r' & E & Hl). exists r'. split; [|done].
  unfold ReadEnum. by rewrite E.
Qed.

(** Only the last field number changes. *)
Lemma left_with_didRead r fs : left_with r fs -> left_with (didRead n None r) fs.
Proof.
  intros [[ns Hr] Hf]. unfold didRead. destruct (r_err r) eqn:E; [by split; [exists ns|]|].
  split; [exists ns|].
  - destruct fs as [|[m v] fs]; cbn in *.
    + destruct Hr as [Hr|[[d Hr]|[-> Hr]]]; [left|right; left; exists d|right; right; split; [done|]]; by destruct Hr as (?&?&?&?).
    + destruct Hr as [Hr|Hr]; [left|right]; by destruct Hr as (?&?&?&?).
  - intros ->. destruct (Hf eq_refl) as [_ Hd]. done.
Qed.

Lemma reads_parsed {U} (parse : string -> option U) (o : option U) s :
  string_ok s -> match o with Some u => s <> ""%string /\ parse s = Some u | None => s = ""%string end ->
  reads n (ReadUrl parse n) (FString s) o.
Proof.
  intros Hs Ho r fs Hr. destruct (reads_String s Hs r fs Hr) as (r' & E & Hl). unfold ReadUrl. rewrite E.
  destruct o as [u|].
  - destruct Ho as [Hne Hp]. rewrite bool_decide_eq_false_2 by done. rewrite Hp.
    eexists. split; [done|]. by apply left_with_didRead.
  - rewrite bool_decide_eq_true_2 by done. by eexists.
Qed.
Lemma misses_parsed {U} (parse : string -> option U) : misses n (ReadUrl parse n).
Proof.
  intros r fs Ha Hr. destruct (misses_String r fs Ha Hr) as (r' & E & Hl). exists r'. split; [|done].
  unfold ReadUrl. by rewrite E.
Qed.

Lemma reads_Url o : url_ok o -> reads n (readUrl n) (FString (default "" (url_String <$> o))%string) o.
Proof.
  intros Ho. apply reads_parsed; destruct o as [u|]; try done; [apply Ho|]. split; [done|]. simpl.
  unfold url_String. by rewrite String.list_byte_of_string_of_list_byte, Parse_canonical by apply Ho.
Qed.
Lemma reads_Txid o : txid_ok o -> reads n (readTxid n) (FString (default "" (txid_String <$> o))%string) o.
Proof.
  intros Ho. apply reads_parsed; destruct o as [t|]; try done; [apply Ho|]. split; [done|]. simpl.
  unfold txid_String. by rewrite String.list_byte_of_string_of_list_byte, ParseTxID_canonical by apply Ho.
Qed.

Lemma reads_nested {A} (m : A -> res bytes) (u : bytes -> res A) x :
  survives m u x -> fits (m x) -> reads n (readValue n u) (FBytes (bytes_of (m x))) x.
Proof.
  intros (b & E & Hu) Hf r fs Hr. unfold fits in Hf. rewrite E in *. cbn in *.
  destruct (reads_Bytes b Hf r fs Hr) as (r' & Er & Hl). unfold readValue, ReadValue. rewrite Er, Hu.
  eexists. split; [done|]. by apply left_with_didRead.
Qed.
Lemma misses_nested {A} (u : bytes -> res A) : misses n (readValue n u).
Proof.
  intros r fs Ha Hr. destruct (misses_Bytes r fs Ha Hr) as (r' & E & Hl). exists r'. split; [|done].
  unfold readValue, ReadValue. by rewrite E.
Qed.

(** *** Optional fields and lists *)

Lemma read_seg {A} (f : Reader -> option A * Reader) c v x fs r :
  reading r (seg c n v ++ fs) -> (c = false -> reads n f v x) -> misses n f -> above n fs ->
  exists r', f r = (if c then None else Some x, r') /\ left_with r' fs.
Proof. intros Hr Hf Hm Ha. destruct c; cbn in Hr; [by apply Hm|by apply (Hf eq_refl)]. Qed.

Lemma read_loop_ok {A} (f : Reader -> option A * Reader) (e : A -> FieldValue) fs l : misses n f -> above n fs ->
  forall fuel r, (length l < fuel)%nat -> reading r (((fun x => (n, e x)) <$> l) ++ fs) ->
  (forall x, x ∈ l -> reads n f (e x) x) -> exists r', read_loop fuel f r = (l, r') /\ left_with r' fs.
Proof.
  intros Hm Ha. induction l as [|x l IH]; intros [|fuel] r Hl Hr Hf; cbn in *; try lia.
  - destruct (Hm r fs Ha Hr) as (r' & -> & Hr'). by exists r'.
  - destruct (Hf x (list_elem_of_here _ _) r _ Hr) as (r1 & -> & Hr1).
    destruct (IH fuel r1) as (r2 & -> & Hr2); [lia|apply Hr1|intros y Hy; apply Hf; by right|]. by exists r2.
Qed.

Lemma payload_bounds m v fs r : reading r ((m, v) :: fs) -> (length (enc_all fs) <= length (r_data r))%nat.
Proof.
  intros [ns [Hr|Hr]]; destruct Hr as (-> & _); [rewrite enc_all_cons|]; rewrite ?length_app; lia.
Qed.

Lemma enc_all_length fs : (length fs <= length (enc_all fs))%nat.
Proof.
  induction fs as [|f fs IH]; [done|]. rewrite enc_all_cons, !length_app. pose proof (zlen_PutUvarint (fst f)) as Hl.
  unfold zlen in Hl. cbn [length]. lia.
Qed.

Lemma read_list_ok {A} (f : Reader -> option A * Reader) (e : A -> FieldValue) fs l r :
  reading r (((fun x => (n, e x)) <$> l) ++ fs) -> (forall x, x ∈ l -> reads n f (e x) x) -> misses n f -> above n fs ->
  exists r', read_list f r = (l, r') /\ left_with r' fs.
Proof.
  intros Hr Hf Hm Ha. apply (read_loop_ok f e fs l); try done.
  destruct l as [|x l]; [cbn; lia|]. cbn in Hr. pose proof (payload_bounds _ _ _ _ Hr) as Hb.
  pose proof (enc_all_length (((fun x => (n, e x)) <$> l) ++ fs)) as He. rewrite length_app, length_fmap in He. cbn [length]. lia.
Qed.

End Laws.

Lemma finish_read_ok {A} (make : bytes -> A) r : finished r -> finish_read make r = Ok (make []).
Proof. intros [He Hr]. unfold finish_read, Reader_Reset. rewrite He. do 2 f_equal. exact Hr. Qed.

(** ** Automation

    [wire_write] finds the fields that a marshaller writes, [wire_read] follows the
    unmarshaller through them. *)

Lemma survives_intro {A} (m : A -> res bytes) (u : bytes -> res A) x w fs :
  m x = finish [] w -> written w fs ->
  (forall r data, reading r (fs ++ []) -> NewReader data = r -> u data = Ok x) -> survives m u x.
Proof.
  intros Hm Hw Hu. exists (image fs). rewrite Hm. split; [by apply finish_written|].
  eapply Hu; [|done]. rewrite app_nil_r. apply reading_new.
Qed.

Lemma above_nil n : above n [].
Proof. constructor. Qed.
Lemma above_seg n c m v fs : n < m <= 32 -> above n fs -> above n (seg c m v ++ fs).
Proof. intros Hm Ha. destruct c; [done|]. by constructor. Qed.
Lemma above_cons n m v fs : n < m <= 32 -> above n fs -> above n ([(m, v)] ++ fs).
Proof. intros Hm Ha. by constructor. Qed.
Lemma above_list {A} n m (e : A -> FieldValue) (l : list A) fs :
  n < m <= 32 -> above n fs -> above n (((fun x => (m, e x)) <$> l) ++ fs).
Proof. intros Hm Ha. apply Forall_app. split; [|done]. apply Forall_fmap, Forall_true. done. Qed.

(** A field that was left out was zero. *)
Lemma from_seg {A} (c : bool) (x d : A) : (c = true -> x = d) -> default d (if c then None else Some x) = x.
Proof. intros Hd. destruct c; cbn; [|done]. by rewrite Hd. Qed.
Lemma from_seg_Some {A} (c : bool) (o : option A) (x : A) :
  (if c then o = None else o = Some x) -> (if c then None else Some x) = o.
Proof. by destruct c. Qed.

Lemma or_else_nil {A} (o : option A) : or_else o None = o.
Proof. by destruct o. Qed.
Lemma is_nil_None {A} (o : option A) : is_nil o = true -> o = None.
Proof. by destruct o. Qed.
Lemma is_empty_nil {A} (l : list A) : is_empty l = true -> l = [].
Proof. by destruct l. Qed.
Lemma string_eqb_empty s : String.eqb s "" = true -> s = ""%string.
Proof. apply String.eqb_eq. Qed.
Lemma eqb_zero x y : (x =? y) = true -> x = y.
Proof. apply Z.eqb_eq. Qed.
Lemma negb_false b : negb b = true -> b = false.
Proof. by destruct b. Qed.
Lemma hash_eqb_zero (h z : bytes) : bytes_eqb h z = true -> h = z.
Proof. apply bytes_eqb_eq. Qed.

(** A pointer: the value is there unless it is nil. *)
Definition pointed {A} (e : A -> FieldValue) (o : option A) : FieldValue :=
  match o with Some x => e x | None => FBool false end.

Lemma written_deref {A} n (o : option A) f (e : A -> FieldValue) w fs :
  written w fs -> (forall x w fs, o = Some x -> written w fs -> written (f x w) (fs ++ [(n, e x)])) ->
  written (when (negb (is_nil o)) (deref o f) w) (fs ++ seg (is_nil o) n (pointed e o)).
Proof. intros Hw Hf. apply written_when; [done|]. intros w' fs' Hw'. destruct o; [|done]. intros _. by apply Hf. Qed.

Lemma written_ranges {A} n (l : list A) f (e : A -> FieldValue) w fs :
  written w fs -> (forall x w fs, x ∈ l -> written w fs -> written (f x w) (fs ++ [(n, e x)])) ->
  written (when (negb (is_empty l)) (range l f) w) (fs ++ ((fun x => (n, e x)) <$> l)).
Proof.
  intros Hw Hf. destruct l as [|x l]; [by rewrite app_nil_r|]. by apply (written_range (x :: l)).
Qed.

Lemma read_pointed {A} n (f : Reader -> option A * Reader) (e : A -> FieldValue) (o : option A) fs r :
  reading r (seg (is_nil o) n (pointed e o) ++ fs) -> (forall x, o = Some x -> reads n f (e x) x) ->
  misses n f -> above n fs -> exists r', f r = (o, r') /\ left_with r' fs.
Proof. intros Hr Hf Hm Ha. destruct o as [x|]; cbn in Hr; [by apply (Hf x)|by apply Hm]. Qed.

(** An enumeration whose zero value is not written. *)
Definition enum_or_zero (set : Z -> bool) (v : Z) : Prop := v = 0 \/ enum_ok set v.
Lemma enum_nonzero set v : enum_or_zero set v -> (v =? 0) = false -> enum_ok set v.
Proof. intros [->|H]; done. Qed.

Lemma enum_or_zero_u64 set v : enum_or_zero set v -> is_u64 v.
Proof. intros [->|[H _]]; done. Qed.
Lemma enum_ok_u64 set v : enum_ok set v -> is_u64 v.
Proof. intros [H _]. done. Qed.

Create HintDb wire.
Create HintDb copies discriminated.
#[export] Hint Constants Opaque : copies.
#[export] Hint Resolve enum_or_zero_u64 enum_ok_u64 enum_nonzero : wire.

Ltac wire_side :=
  cbv beta in *;
  first [ assumption
        | solve [eauto 4 with wire]
        | solve [clear; split; vm_compute; congruence]
        | solve [clear; split; [split; vm_compute; congruence | reflexivity]] ].

Ltac wire_field := solve [clear; split; vm_compute; congruence].

(** One call of the writer. *)
Ltac wire_write_one rec :=
  lazymatch goal with
  | |- written (WriteUint _ _ _) _ => eapply written_Uint; [wire_field | rec | wire_side]
  | |- written (WriteEnum _ _ _) _ => eapply written_Enum; [wire_field | rec | wire_side]
  | |- written (WriteTime _ _ _) _ => eapply written_Time; [wire_field | rec | wire_side]
  | |- written (WriteInt _ _ _) _ => eapply written_Int; [wire_field | rec | wire_side]
  | |- written (WriteBytes _ _ _) _ => eapply written_Bytes; [wire_field | rec | wire_side]
  | |- written (WriteString _ _ _) _ => eapply written_String; [wire_field | rec | wire_side]
  | |- written (WriteHash _ _ _) _ => eapply written_Hash; [wire_field | rec | wire_side]
  | |- written (WriteBigInt _ _ _) _ => eapply written_BigInt; [wire_field | rec | wire_side]
  | |- written (WriteBool _ _ _) _ => eapply written_Bool; [wire_field | rec]
  | |- written (writeUrl _ _ _) _ => eapply written_Url; [wire_field | rec | wire_side]
  | |- written (writeTxid _ _ _) _ => eapply written_Txid; [wire_field | rec | wire_side]
  | |- written (writeValue _ _ _) _ => eapply written_nested; [wire_field | rec | wire_side | wire_side]
  end.

Ltac wire_write :=
  lazymatch goal with
  | H : written ?w _ |- written ?w _ => exact H
  | |- written NewWriter _ => apply written_new
  | |- written (when (negb (is_empty ?l)) (range ?l _) _) _ =>
      eapply written_ranges; [wire_write | intros ? ? ? ? ?; wire_write_one ltac:(idtac; wire_write)]
  | |- written (when (negb (is_nil ?o)) (deref ?o _) _) _ =>
      eapply written_deref; [wire_write | intros ? ? ? ? ?; wire_write_one ltac:(idtac; wire_write)]
  | |- written (when (negb _) _ _) _ =>
      eapply written_when; [wire_write | intros ? ? ? ?; wire_write_one ltac:(idtac; wire_write)]
  | _ => wire_write_one ltac:(idtac; wire_write)
  end.

Ltac wire_reads :=
  lazymatch goal with
  | |- reads _ (ReadUint _) _ _ => eapply reads_Uint; [wire_field | wire_side]
  | |- reads _ (ReadEnum _ _) _ _ => eapply reads_Enum; [wire_field | wire_side]
  | |- reads _ (ReadTime _) _ _ => eapply reads_Time; [wire_field | wire_side]
  | |- reads _ (ReadInt _) _ _ => eapply reads_Int; [wire_field | wire_side]
  | |- reads _ (ReadBytes _) _ _ => eapply reads_Bytes; [wire_field | wire_side]
  | |- reads _ (ReadString _) _ _ => eapply reads_String; [wire_field | wire_side]
  | |- reads _ (ReadHash _) _ _ => eapply reads_Hash; [wire_field | wire_side]
  | |- reads _ (ReadBigInt _) _ _ => eapply reads_BigInt; [wire_field | wire_side]
  | |- reads _ (ReadBool _) _ _ => eapply reads_Bool; wire_field
  | |- reads _ (readUrl _) _ _ => eapply reads_Url; [wire_field | wire_side]
  | |- reads _ (readTxid _) _ _ => eapply reads_Txid; [wire_field | wire_side]
  | |- reads _ (readValue _ _) _ _ => eapply reads_nested; [wire_field | wire_side | wire_side]
  end.

Ltac wire_misses :=
  lazymatch goal with
  | |- misses _ (ReadUint _) => apply misses_Uint; wire_field
  | |- misses _ (ReadEnum _ _) => apply misses_Enum; wire_field
  | |- misses _ (ReadTime _) => apply misses_Time; wire_field
  | |- misses _ (ReadInt _) => apply misses_Int; wire_field
  | |- misses _ (ReadBytes _) => apply misses_Bytes; wire_field
  | |- misses _ (ReadString _) => apply misses_String; wire_field
  | |- misses _ (ReadHash _) => apply misses_Hash; wire_field
  | |- misses _ (ReadBigInt _) => apply misses_BigInt; wire_field
  | |- misses _ (ReadBool _) => apply misses_Bool; wire_field
  | |- misses _ (readUrl _) => apply misses_parsed; wire_field
  | |- misses _ (readTxid _) => apply misses_parsed; wire_field
  | |- misses _ (readValue _ _) => apply misses_nested; wire_field
  end.

Ltac wire_above :=
  repeat first [ apply above_nil
               | apply above_seg; [wire_field|] | apply above_cons; [wire_field|] | apply above_list; [wire_field|] ].

(** One field: the hypothesis [Hr] says what is left to read. *)
Ltac wire_read_one :=
  let r' := fresh "r" in let E := fresh "E" in let Hl := fresh "Hl" in let Hr' := fresh "Hr" in let Hf := fresh "Hfin" in
  match goal with
  | Hr : reading ?r (seg (is_nil ?o) ?n (pointed ?e ?o) ++ ?fs) |- context [?f ?r] =>
      destruct (read_pointed n f e o fs r Hr) as (r' & E & Hl);
        [intros ? ?; wire_reads | wire_misses | wire_above | rewrite E; clear E Hr; destruct Hl as [Hr' Hf]]
  | Hr : reading ?r (seg ?c ?n ?v ++ ?fs) |- context [?f ?r] =>
      let Hd := fresh "Hd" in
      eassert (Hd : c = false -> reads n f v _) by (intros ?; wire_reads);
      destruct (read_seg n f c v _ fs r Hr Hd) as (r' & E & Hl);
        [wire_misses | wire_above | rewrite E; clear E Hr Hd; destruct Hl as [Hr' Hf]]
  | Hr : reading ?r (((fun x => (?n, @?e x)) <$> ?l) ++ ?fs) |- context [read_list ?f ?r] =>
      destruct (read_list_ok n f e fs l r Hr) as (r' & E & Hl);
        [intros ? ?; wire_reads | wire_misses | wire_above | rewrite E; clear E Hr; destruct Hl as [Hr' Hf]]
  | Hr : reading ?r ([(?n, ?v)] ++ ?fs) |- context [?f ?r] =>
      let Hd := fresh "Hd" in
      eassert (Hd : reads n f v _) by wire_reads; destruct (Hd r fs Hr) as (r' & E & Hl);
        rewrite E; clear E Hr Hd; destruct Hl as [Hr' Hf]
  end; cbn beta iota zeta match.

Ltac wire_zero :=
  first [ apply eqb_zero | apply is_nil_None | apply is_empty_nil | apply string_eqb_empty | apply negb_false
        | apply hash_eqb_zero | solve [eauto with wire] ].

Ltac head_of t := lazymatch t with ?f _ => head_of f | _ => t end.

(** The round trip of a type: what is written is read back. *)
Ltac wire_roundtrip :=
  let Hok := fresh "Hok" in let Hx := fresh "Hx" in let Hr := fresh "Hr" in
  intros Hok; pose proof Hok as Hx; hnf in Hx; destruct_and? Hx;
  lazymatch goal with
  | |- survives ?m ?u ?v =>
      let hm := head_of m in let hu := head_of u in
      eapply survives_intro;
      [ unfold hm; match goal with H : _ v = [] |- _ => rewrite H end; exact eq_refl
      | wire_write
      | let r := fresh "r" in let E := fresh "E" in
        intros r ? Hr E; unfold hu; rewrite E; clear E; rewrite <- ?app_assoc, ?app_nil_l in Hr;
        cbn beta iota zeta match;
        repeat (wire_read_one; try match goal with |- context [negb (?a =? default 0 (Some ?b))] =>
                                 change (negb (a =? default 0 (Some b))) with false; cbn beta iota zeta match end);
        match goal with H : [] = [] -> finished _ |- _ => rewrite (finish_read_ok _ _ (H eq_refl)) end;
        repeat (rewrite from_seg by wire_zero);
        match goal with H : _ v = [] |- _ => clear -H; destruct v; cbn in *; subst end; rewrite ?or_else_nil; reflexivity ]
  end.

(** The type in front. *)
Lemma tagged_intro {A} (m : A -> res bytes) c x w fs fs' :
  m x = finish [] w -> written w fs -> fs = (1, FUint c) :: fs' -> tagged m c x.
Proof. intros Hm Hw ->. exists fs'. rewrite Hm. by apply finish_written. Qed.

Ltac wire_tagged :=
  let Hok := fresh "Hok" in
  intros Hok; hnf in Hok; destruct_and? Hok;
  lazymatch goal with
  | |- tagged ?m _ ?v =>
      let hm := head_of m in
      eapply tagged_intro;
      [ unfold hm; match goal with H : _ v = [] |- _ => rewrite H end; exact eq_refl
      | wire_write
      | rewrite <- ?app_assoc; exact eq_refl ]
  end.

Lemma tagged_type {A} (m : A -> res bytes) c x set b :
  tagged m c x -> m x = Ok b -> enum_ok set c -> UnmarshalEnumType set b = Ok c.
Proof.
  intros [fs E] Eb [Hc Hs]. assert (b = image ((1, FUint c) :: fs)) as -> by congruence.
  destruct (reads_Uint 1 ltac:(wire_field) c Hc (NewReader (image ((1, FUint c) :: fs))) fs (reading_new _)) as (r & Er & Hl).
  unfold UnmarshalEnumType. rewrite Er. unfold Reader_Reset.
  assert (r_err r = None) as ->; [|by rewrite Hs].
  destruct Hl as [[ns Hr] _]. destruct fs as [|[n v] fs]; cbn in Hr;
    [destruct Hr as [Hr|[[d Hr]|[_ Hr]]]|destruct Hr as [Hr|Hr]]; apply Hr.
Qed.

#[export] Hint Resolve u_survives : wire.
#[export] Hint Resolve u_copied : copies.

(** A union: the type in front selects the implementation. *)
Ltac wire_union :=
  let Hok := fresh "Hok" in let b := fresh "b" in let Em := fresh "Em" in let Eu := fresh "Eu" in
  intros Hok; hnf in Hok;
  lazymatch goal with
  | |- survives ?m ?u (?C ?v) =>
      let Hs := fresh "Hs" in let Ht := fresh "Ht" in
      let hu := head_of u in
      eassert (Hs : survives _ _ v) by eauto 2 with wire;
      eassert (Ht : tagged _ _ v) by eauto 2 with wire;
      destruct Hs as (b & Em & Eu); exists b; split; [exact Em|]; unfold hu;
      rewrite (tagged_type _ _ v _ b Ht Em) by (split; [split; vm_compute; congruence|vm_compute; reflexivity]);
      cbn [res_bind];
      repeat match goal with |- context [?x =? ?y] =>
        let r := eval vm_compute in (x =? y) in change (x =? y) with r; cbn iota end;
      rewrite Eu; reflexivity
  end.

(** A value that is [Equal] to the zero value is the zero value. *)
Ltac wire_equal_new :=
  let Hok := fresh "Hok" in let Heq := fresh "Heq" in
  intros Hok Heq; hnf in Hok; destruct_and? Hok;
  match type of Heq with ?e = true => let h := head_of e in unfold h in Heq end;
  match goal with v : _ |- ?v = _ => destruct v end; cbn in *;
  rewrite ?andb_true_iff in Heq; destruct_and? Heq;
  repeat match goal with
  | H : bytes_eqb _ _ = true |- _ => apply bytes_eqb_eq in H
  | H : (_ =? _) = true |- _ => apply Z.eqb_eq in H
  | H : String.eqb _ _ = true |- _ => apply String.eqb_eq in H
  | H : Equal ?o None = true |- _ => destruct o; [discriminate H|clear H]
  | H : list_eq _ ?l [] = true |- _ => destruct l; [clear H|discriminate H]
  end; subst; reflexivity.

(** A copy has the same fields; only the unknown ones are left out. *)
Lemma fmap_list_id {A} (f : A -> A) (l : list A) : (forall x, x ∈ l -> f x = x) -> f <$> l = l.
Proof.
  intros Hf. induction l as [|x l IH]; [done|]. cbn. rewrite (Hf x) by left. f_equal. apply IH. intros y Hy.
  apply Hf. by right.
Qed.
Lemma fmap_option_id {A} (f : A -> A) (o : option A) : (forall x, o = Some x -> f x = x) -> f <$> o = o.
Proof. intros Hf. destruct o as [x|]; [|done]. cbn. by rewrite (Hf x). Qed.

Ltac wire_copy :=
  let Hok := fresh "Hok" in
  intros Hok; hnf in Hok; destruct_and? Hok;
  match goal with |- ?c = ?v =>
    let h := head_of c in unfold h;
    repeat match goal with
    | |- context [?f <$> ?l] => rewrite (fmap_list_id f l) by eauto 4 with copies
    | |- context [?f <$> ?o] => rewrite (fmap_option_id f o) by eauto 4 with copies
    end;
    repeat match goal with
    | |- context [?f (?p v)] => progress replace (f (p v)) with (p v) by (symmetry; eauto 3 with copies)
    end;
    match goal with H : _ v = [] |- _ => clear -H; destruct v; cbn in *; subst; reflexivity end
  end.

(** ** Concrete values

    The conditions of a type for a value that is given. *)

Ltac wire_ok_step :=
  match goal with
  | |- _ /\ _ => split
  | |- forall x, x ∈ ?l -> @?P x => apply (proj1 (Forall_forall P l)); cbv beta
  | |- Forall _ _ => first [apply Forall_nil_2|apply Forall_cons_2]
  | |- forall x, _ = Some x -> _ => intros ? [=]; subst
  | |- fits _ => vm_compute; reflexivity
  | |- url_ok _ => unfold url_ok
  | |- string_ok _ => vm_compute; reflexivity
  | |- bytes_ok _ => vm_compute; reflexivity
  | |- hash_ok _ => reflexivity
  | |- _ = _ => vm_compute; reflexivity
  | |- _ \/ _ => first [left; vm_compute; reflexivity|right]
  | |- True => exact I
  | |- _ <= _ => vm_compute; congruence
  | |- _ < _ => vm_compute; reflexivity
  | |- _ => progress hnf
  end.
Ltac wire_ok := repeat wire_ok_step.
