(* ===== verification/TypesGeneral.v ===== *)
(** * Generated types: data shared by accounts and transactions

    The structures of [protocol/types_gen.go] that are parts of others, with the receipts
    of [smt/managed/types_gen.go] and the errors of [internal/errors/types_gen.go].  Per
    type: the structure, its zero value, [MarshalBinary], [UnmarshalBinary] into a
    receiver (the method [UnmarshalBinaryFrom] on the bytes), the values that survive the
    format, and the round trip.  The flags of the fields that were read, used by
    [IsValid] only, are not kept. *)

From S2P Require Import Prelude Encoding Codec CodecProofs DataEntry Url Enums Wire.
Local Open Scope Z_scope.
Import Url TxID.

Record ReceiptEntry := { ReceiptEntry_Right : bool; ReceiptEntry_Hash : bytes; ReceiptEntry_extraData : bytes }.
Definition new_ReceiptEntry : ReceiptEntry := Build_ReceiptEntry false [] [].

Definition ReceiptEntry_Equal (v u : ReceiptEntry) : bool :=
  Bool.eqb (ReceiptEntry_Right v) (ReceiptEntry_Right u) &&
  bytes_eqb (ReceiptEntry_Hash v) (ReceiptEntry_Hash u).

Definition ReceiptEntry_Copy (v : ReceiptEntry) : ReceiptEntry := Build_ReceiptEntry (ReceiptEntry_Right v)
  (ReceiptEntry_Hash v) [].

Definition ReceiptEntry_MarshalBinary (v : ReceiptEntry) : res bytes :=
  finish (ReceiptEntry_extraData v) (
    NewWriter
    |> when (negb (negb (ReceiptEntry_Right v))) (WriteBool 1 (ReceiptEntry_Right v))
    |> when (negb (is_empty (ReceiptEntry_Hash v))) (WriteBytes 2 (ReceiptEntry_Hash v))).

Definition ReceiptEntry_UnmarshalBinary (v : ReceiptEntry) (data : bytes) : res ReceiptEntry :=
  let reader := NewReader data in
  let '(xRight, reader) := ReadBool 1 reader in
  let '(xHash, reader) := ReadBytes 2 reader in
  finish_read (Build_ReceiptEntry (default (ReceiptEntry_Right v) xRight) (default (ReceiptEntry_Hash v) xHash))
    reader.

Definition ReceiptEntry_ok (v : ReceiptEntry) : Prop :=
  bytes_ok (ReceiptEntry_Hash v) /\ ReceiptEntry_extraData v = [].

Lemma ReceiptEntry_survives (v : ReceiptEntry) :
  ReceiptEntry_ok v -> survives ReceiptEntry_MarshalBinary (ReceiptEntry_UnmarshalBinary new_ReceiptEntry) v.
Proof. wire_roundtrip. Qed.
#[export] Hint Resolve ReceiptEntry_survives : wire.
Lemma ReceiptEntry_copied (v : ReceiptEntry) : ReceiptEntry_ok v -> ReceiptEntry_Copy v = v.
Proof. wire_copy. Qed.
#[export] Hint Resolve ReceiptEntry_copied : copies.

Record Receipt := { Receipt_Start : bytes; Receipt_StartIndex : Z; Receipt_End : bytes; Receipt_EndIndex : Z;
  Receipt_Anchor : bytes; Receipt_Entries : list ReceiptEntry; Receipt_extraData : bytes }.
Definition new_Receipt : Receipt := Build_Receipt [] 0 [] 0 [] [] [].

Definition Receipt_Equal (v u : Receipt) : bool :=
  bytes_eqb (Receipt_Start v) (Receipt_Start u) &&
  Z.eqb (Receipt_StartIndex v) (Receipt_StartIndex u) &&
  bytes_eqb (Receipt_End v) (Receipt_End u) &&
  Z.eqb (Receipt_EndIndex v) (Receipt_EndIndex u) &&
  bytes_eqb (Receipt_Anchor v) (Receipt_Anchor u) &&
  list_eq ReceiptEntry_Equal (Receipt_Entries v) (Receipt_Entries u).

Definition Receipt_Copy (v : Receipt) : Receipt := Build_Receipt (Receipt_Start v) (Receipt_StartIndex v)
  (Receipt_End v) (Receipt_EndIndex v) (Receipt_Anchor v) (ReceiptEntry_Copy <$> Receipt_Entries v) [].

Definition Receipt_MarshalBinary (v : Receipt) : res bytes :=
  finish (Receipt_extraData v) (
    NewWriter
    |> when (negb (is_empty (Receipt_Start v))) (WriteBytes 1 (Receipt_Start v))
    |> when (negb (Receipt_StartIndex v =? 0)) (WriteInt 2 (Receipt_StartIndex v))
    |> when (negb (is_empty (Receipt_End v))) (WriteBytes 3 (Receipt_End v))
    |> when (negb (Receipt_EndIndex v =? 0)) (WriteInt 4 (Receipt_EndIndex v))
    |> when (negb (is_empty (Receipt_Anchor v))) (WriteBytes 5 (Receipt_Anchor v))
    |> when (negb (is_empty (Receipt_Entries v))) (range (Receipt_Entries v) (fun v => writeValue 6
       (ReceiptEntry_MarshalBinary v)))).

Definition Receipt_UnmarshalBinary (v : Receipt) (data : bytes) : res Receipt :=
  let reader := NewReader data in
  let '(xStart, reader) := ReadBytes 1 reader in
  let '(xStartIndex, reader) := ReadInt 2 reader in
  let '(xEnd, reader) := ReadBytes 3 reader in
  let '(xEndIndex, reader) := ReadInt 4 reader in
  let '(xAnchor, reader) := ReadBytes 5 reader in
  let '(xEntries, reader) := read_list (readValue 6 (ReceiptEntry_UnmarshalBinary new_ReceiptEntry)) reader in
  finish_read (Build_Receipt (default (Receipt_Start v) xStart) (default (Receipt_StartIndex v) xStartIndex)
    (default (Receipt_End v) xEnd) (default (Receipt_EndIndex v) xEndIndex) (default (Receipt_Anchor v) xAnchor)
    (Receipt_Entries v ++ xEntries)) reader.

Definition Receipt_ok (v : Receipt) : Prop :=
  bytes_ok (Receipt_Start v) /\ is_i64 (Receipt_StartIndex v) /\ bytes_ok (Receipt_End v) /\ is_i64
  (Receipt_EndIndex v) /\ bytes_ok (Receipt_Anchor v) /\ (forall x, x ∈ Receipt_Entries v -> ReceiptEntry_ok x) /\
  (forall x, x ∈ Receipt_Entries v -> fits (ReceiptEntry_MarshalBinary x)) /\ Receipt_extraData v = [].

Lemma Receipt_survives (v : Receipt) :
  Receipt_ok v -> survives Receipt_MarshalBinary (Receipt_UnmarshalBinary new_Receipt) v.
Proof. wire_roundtrip. Qed.
#[export] Hint Resolve Receipt_survives : wire.
Lemma Receipt_copied (v : Receipt) : Receipt_ok v -> Receipt_Copy v = v.
Proof. wire_copy. Qed.
#[export] Hint Resolve Receipt_copied : copies.

Lemma Receipt_Equal_new (v : Receipt) : Receipt_ok v -> Receipt_Equal v new_Receipt = true -> v = new_Receipt.
Proof. wire_equal_new. Qed.
#[export] Hint Resolve Receipt_Equal_new : wire.

Record CallSite := { CallSite_FuncName : string; CallSite_File : string; CallSite_Line : Z; CallSite_extraData :
  bytes }.
Definition new_CallSite : CallSite := Build_CallSite "" "" 0 [].

Definition CallSite_Copy (v : CallSite) : CallSite := Build_CallSite (CallSite_FuncName v) (CallSite_File v)
  (CallSite_Line v) [].

Definition CallSite_MarshalBinary (v : CallSite) : res bytes :=
  finish (CallSite_extraData v) (
    NewWriter
    |> when (negb (String.eqb (CallSite_FuncName v) "")) (WriteString 1 (CallSite_FuncName v))
    |> when (negb (String.eqb (CallSite_File v) "")) (WriteString 2 (CallSite_File v))
    |> when (negb (CallSite_Line v =? 0)) (WriteInt 3 (CallSite_Line v))).

Definition CallSite_UnmarshalBinary (v : CallSite) (data : bytes) : res CallSite :=
  let reader := NewReader data in
  let '(xFuncName, reader) := ReadString 1 reader in
  let '(xFile, reader) := ReadString 2 reader in
  let '(xLine, reader) := ReadInt 3 reader in
  finish_read (Build_CallSite (default (CallSite_FuncName v) xFuncName) (default (CallSite_File v) xFile) (default
    (CallSite_Line v) xLine)) reader.

Definition CallSite_ok (v : CallSite) : Prop :=
  string_ok (CallSite_FuncName v) /\ string_ok (CallSite_File v) /\ is_i64 (CallSite_Line v) /\ CallSite_extraData v
  = [].

Lemma CallSite_survives (v : CallSite) :
  CallSite_ok v -> survives CallSite_MarshalBinary (CallSite_UnmarshalBinary new_CallSite) v.
Proof. wire_roundtrip. Qed.
#[export] Hint Resolve CallSite_survives : wire.
Lemma CallSite_copied (v : CallSite) : CallSite_ok v -> CallSite_Copy v = v.
Proof. wire_copy. Qed.
#[export] Hint Resolve CallSite_copied : copies.

Record AuthorityEntry := { AuthorityEntry_Url : option URL; AuthorityEntry_Disabled : bool; AuthorityEntry_extraData
  : bytes }.
Definition new_AuthorityEntry : AuthorityEntry := Build_AuthorityEntry None false [].

Definition AuthorityEntry_Copy (v : AuthorityEntry) : AuthorityEntry := Build_AuthorityEntry (AuthorityEntry_Url v)
  (AuthorityEntry_Disabled v) [].

Definition AuthorityEntry_MarshalBinary (v : AuthorityEntry) : res bytes :=
  finish (AuthorityEntry_extraData v) (
    NewWriter
    |> when (negb (is_nil (AuthorityEntry_Url v))) (writeUrl 1 (AuthorityEntry_Url v))
    |> when (negb (negb (AuthorityEntry_Disabled v))) (WriteBool 2 (AuthorityEntry_Disabled v))).

Definition AuthorityEntry_UnmarshalBinary (v : AuthorityEntry) (data : bytes) : res AuthorityEntry :=
  let reader := NewReader data in
  let '(xUrl, reader) := readUrl 1 reader in
  let '(xDisabled, reader) := ReadBool 2 reader in
  finish_read (Build_AuthorityEntry (default (AuthorityEntry_Url v) xUrl) (default (AuthorityEntry_Disabled v)
    xDisabled)) reader.

Definition AuthorityEntry_ok (v : AuthorityEntry) : Prop :=
  url_ok (AuthorityEntry_Url v) /\ AuthorityEntry_extraData v = [].

Lemma AuthorityEntry_survives (v : AuthorityEntry) :
  AuthorityEntry_ok v -> survives AuthorityEntry_MarshalBinary (AuthorityEntry_UnmarshalBinary new_AuthorityEntry)
    v.
Proof. wire_roundtrip. Qed.
#[export] Hint Resolve AuthorityEntry_survives : wire.
Lemma AuthorityEntry_copied (v : AuthorityEntry) : AuthorityEntry_ok v -> AuthorityEntry_Copy v = v.
Proof. wire_copy. Qed.
#[export] Hint Resolve AuthorityEntry_copied : copies.

Record AccountAuth := { AccountAuth_Authorities : list AuthorityEntry; AccountAuth_extraData : bytes }.
Definition new_AccountAuth : AccountAuth := Build_AccountAuth [] [].

Definition AccountAuth_Copy (v : AccountAuth) : AccountAuth := Build_AccountAuth (AuthorityEntry_Copy <$>
  AccountAuth_Authorities v) [].

Definition AccountAuth_MarshalBinary (v : AccountAuth) : res bytes :=
  finish (AccountAuth_extraData v) (
    NewWriter
    |> when (negb (is_empty (AccountAuth_Authorities v))) (range (AccountAuth_Authorities v) (fun v => writeValue 1
       (AuthorityEntry_MarshalBinary v)))).

Definition AccountAuth_UnmarshalBinary (v : AccountAuth) (data : bytes) : res AccountAuth :=
  let reader := NewReader data in
  let '(xAuthorities, reader) := read_list (readValue 1 (AuthorityEntry_UnmarshalBinary new_AuthorityEntry)) reader
    in
  finish_read (Build_AccountAuth (AccountAuth_Authorities v ++ xAuthorities)) reader.

Definition AccountAuth_ok (v : AccountAuth) : Prop :=
  (forall x, x ∈ AccountAuth_Authorities v -> AuthorityEntry_ok x) /\ (forall x, x ∈ AccountAuth_Authorities v ->
  fits (AuthorityEntry_MarshalBinary x)) /\ AccountAuth_extraData v = [].

Lemma AccountAuth_survives (v : AccountAuth) :
  AccountAuth_ok v -> survives AccountAuth_MarshalBinary (AccountAuth_UnmarshalBinary new_AccountAuth) v.
Proof. wire_roundtrip. Qed.
#[export] Hint Resolve AccountAuth_survives : wire.
Lemma AccountAuth_copied (v : AccountAuth) : AccountAuth_ok v -> AccountAuth_Copy v = v.
Proof. wire_copy. Qed.
#[export] Hint Resolve AccountAuth_copied : copies.

Record AccumulateDataEntry := { AccumulateDataEntry_Data : list bytes; AccumulateDataEntry_extraData : bytes }.
Definition new_AccumulateDataEntry : AccumulateDataEntry := Build_AccumulateDataEntry [] [].

Definition AccumulateDataEntry_Copy (v : AccumulateDataEntry) : AccumulateDataEntry := Build_AccumulateDataEntry
  (AccumulateDataEntry_Data v) [].

Definition AccumulateDataEntry_MarshalBinary (v : AccumulateDataEntry) : res bytes :=
  finish (AccumulateDataEntry_extraData v) (
    NewWriter
    |> WriteEnum 1 DataEntryTypeAccumulate
    |> when (negb (is_empty (AccumulateDataEntry_Data v))) (range (AccumulateDataEntry_Data v) (fun v => WriteBytes
       2 v))).

Definition AccumulateDataEntry_UnmarshalBinary (v : AccumulateDataEntry) (data : bytes) : res AccumulateDataEntry :=
  let reader := NewReader data in
  let '(vType, reader) := ReadEnum DataEntryType_SetEnumValue 1 reader in
  if negb (DataEntryTypeAccumulate =? default 0 vType) then errorf "field Type: not equal" else
  let '(xData, reader) := read_list (ReadBytes 2) reader in
  finish_read (Build_AccumulateDataEntry (AccumulateDataEntry_Data v ++ xData)) reader.

Definition AccumulateDataEntry_ok (v : AccumulateDataEntry) : Prop :=
  (forall x, x ∈ AccumulateDataEntry_Data v -> bytes_ok x) /\ AccumulateDataEntry_extraData v = [].

Lemma AccumulateDataEntry_survives (v : AccumulateDataEntry) :
  AccumulateDataEntry_ok v -> survives AccumulateDataEntry_MarshalBinary (AccumulateDataEntry_UnmarshalBinary
    new_AccumulateDataEntry) v.
Proof. wire_roundtrip. Qed.
#[export] Hint Resolve AccumulateDataEntry_survives : wire.
Lemma AccumulateDataEntry_copied (v : AccumulateDataEntry) : AccumulateDataEntry_ok v -> AccumulateDataEntry_Copy v
    = v.
Proof. wire_copy. Qed.
#[export] Hint Resolve AccumulateDataEntry_copied : copies.
Lemma AccumulateDataEntry_tagged (v : AccumulateDataEntry) : AccumulateDataEntry_ok v -> tagged
    AccumulateDataEntry_MarshalBinary DataEntryTypeAccumulate v.
Proof. wire_tagged. Qed.
#[export] Hint Resolve AccumulateDataEntry_tagged : wire.

Record AcmeOracle := { AcmeOracle_Price : Z; AcmeOracle_extraData : bytes }.
Definition new_AcmeOracle : AcmeOracle := Build_AcmeOracle 0 [].

Definition AcmeOracle_Copy (v : AcmeOracle) : AcmeOracle := Build_AcmeOracle (AcmeOracle_Price v) [].

Definition AcmeOracle_MarshalBinary (v : AcmeOracle) : res bytes :=
  finish (AcmeOracle_extraData v) (
    NewWriter
    |> when (negb (AcmeOracle_Price v =? 0)) (WriteUint 1 (AcmeOracle_Price v))).

Definition AcmeOracle_UnmarshalBinary (v : AcmeOracle) (data : bytes) : res AcmeOracle :=
  let reader := NewReader data in
  let '(xPrice, reader) := ReadUint 1 reader in
  finish_read (Build_AcmeOracle (default (AcmeOracle_Price v) xPrice)) reader.

Definition AcmeOracle_ok (v : AcmeOracle) : Prop :=
  is_u64 (AcmeOracle_Price v) /\ AcmeOracle_extraData v = [].

Lemma AcmeOracle_survives (v : AcmeOracle) :
  AcmeOracle_ok v -> survives AcmeOracle_MarshalBinary (AcmeOracle_UnmarshalBinary new_AcmeOracle) v.
Proof. wire_roundtrip. Qed.
#[export] Hint Resolve AcmeOracle_survives : wire.
Lemma AcmeOracle_copied (v : AcmeOracle) : AcmeOracle_ok v -> AcmeOracle_Copy v = v.
Proof. wire_copy. Qed.
#[export] Hint Resolve AcmeOracle_copied : copies.

Record KeySpecParams := { KeySpecParams_KeyHash : bytes; KeySpecParams_Delegate : option URL;
  KeySpecParams_extraData : bytes }.
Definition new_KeySpecParams : KeySpecParams := Build_KeySpecParams [] None [].

Definition KeySpecParams_Equal (v u : KeySpecParams) : bool :=
  bytes_eqb (KeySpecParams_KeyHash v) (KeySpecParams_KeyHash u) &&
  Equal (KeySpecParams_Delegate v) (KeySpecParams_Delegate u).

Definition KeySpecParams_Copy (v : KeySpecParams) : KeySpecParams := Build_KeySpecParams (KeySpecParams_KeyHash v)
  (KeySpecParams_Delegate v) [].

Definition KeySpecParams_MarshalBinary (v : KeySpecParams) : res bytes :=
  finish (KeySpecParams_extraData v) (
    NewWriter
    |> when (negb (is_empty (KeySpecParams_KeyHash v))) (WriteBytes 1 (KeySpecParams_KeyHash v))
    |> when (negb (is_nil (KeySpecParams_Delegate v))) (writeUrl 2 (KeySpecParams_Delegate v))).

Definition KeySpecParams_UnmarshalBinary (v : KeySpecParams) (data : bytes) : res KeySpecParams :=
  let reader := NewReader data in
  let '(xKeyHash, reader) := ReadBytes 1 reader in
  let '(xDelegate, reader) := readUrl 2 reader in
  finish_read (Build_KeySpecParams (default (KeySpecParams_KeyHash v) xKeyHash) (default (KeySpecParams_Delegate v)
    xDelegate)) reader.

Definition KeySpecParams_ok (v : KeySpecParams) : Prop :=
  bytes_ok (KeySpecParams_KeyHash v) /\ url_ok (KeySpecParams_Delegate v) /\ KeySpecParams_extraData v = [].

Lemma KeySpecParams_survives (v : KeySpecParams) :
  KeySpecParams_ok v -> survives KeySpecParams_MarshalBinary (KeySpecParams_UnmarshalBinary new_KeySpecParams) v.
Proof. wire_roundtrip. Qed.
#[export] Hint Resolve KeySpecParams_survives : wire.
Lemma KeySpecParams_copied (v : KeySpecParams) : KeySpecParams_ok v -> KeySpecParams_Copy v = v.
Proof. wire_copy. Qed.
#[export] Hint Resolve KeySpecParams_copied : copies.

Lemma KeySpecParams_Equal_new (v : KeySpecParams) : KeySpecParams_ok v -> KeySpecParams_Equal v new_KeySpecParams = true -> v = new_KeySpecParams.
Proof. wire_equal_new. Qed.
#[export] Hint Resolve KeySpecParams_Equal_new : wire.

Record TransactionExchangeLedger := { TransactionExchangeLedger_Url : option URL; TransactionExchangeLedger_Produced
  : Z; TransactionExchangeLedger_Acknowledged : Z; TransactionExchangeLedger_Received : Z;
  TransactionExchangeLedger_Delivered : Z; TransactionExchangeLedger_Pending : list (option TxID);
  TransactionExchangeLedger_extraData : bytes }.
Definition new_TransactionExchangeLedger : TransactionExchangeLedger := Build_TransactionExchangeLedger None 0 0 0 0
  [] [].

Definition TransactionExchangeLedger_Copy (v : TransactionExchangeLedger) : TransactionExchangeLedger :=
  Build_TransactionExchangeLedger (TransactionExchangeLedger_Url v) (TransactionExchangeLedger_Produced v)
  (TransactionExchangeLedger_Acknowledged v) (TransactionExchangeLedger_Received v)
  (TransactionExchangeLedger_Delivered v) (TransactionExchangeLedger_Pending v) [].

Definition TransactionExchangeLedger_MarshalBinary (v : TransactionExchangeLedger) : res bytes :=
  finish (TransactionExchangeLedger_extraData v) (
    NewWriter
    |> when (negb (is_nil (TransactionExchangeLedger_Url v))) (writeUrl 1 (TransactionExchangeLedger_Url v))
    |> when (negb (TransactionExchangeLedger_Produced v =? 0)) (WriteUint 2 (TransactionExchangeLedger_Produced v))
    |> when (negb (TransactionExchangeLedger_Acknowledged v =? 0)) (WriteUint 3
       (TransactionExchangeLedger_Acknowledged v))
    |> when (negb (TransactionExchangeLedger_Received v =? 0)) (WriteUint 4 (TransactionExchangeLedger_Received v))
    |> when (negb (TransactionExchangeLedger_Delivered v =? 0)) (WriteUint 5 (TransactionExchangeLedger_Delivered
       v))
    |> when (negb (is_empty (TransactionExchangeLedger_Pending v))) (range (TransactionExchangeLedger_Pending v)
       (fun v => writeTxid 6 v))).

Definition TransactionExchangeLedger_UnmarshalBinary (v : TransactionExchangeLedger) (data : bytes) : res
    TransactionExchangeLedger :=
  let reader := NewReader data in
  let '(xUrl, reader) := readUrl 1 reader in
  let '(xProduced, reader) := ReadUint 2 reader in
  let '(xAcknowledged, reader) := ReadUint 3 reader in
  let '(xReceived, reader) := ReadUint 4 reader in
  let '(xDelivered, reader) := ReadUint 5 reader in
  let '(xPending, reader) := read_list (readTxid 6) reader in
  finish_read (Build_TransactionExchangeLedger (default (TransactionExchangeLedger_Url v) xUrl) (default
    (TransactionExchangeLedger_Produced v) xProduced) (default (TransactionExchangeLedger_Acknowledged v)
    xAcknowledged) (default (TransactionExchangeLedger_Received v) xReceived) (default
    (TransactionExchangeLedger_Delivered v) xDelivered) (TransactionExchangeLedger_Pending v ++ xPending)) reader.

Definition TransactionExchangeLedger_ok (v : TransactionExchangeLedger) : Prop :=
  url_ok (TransactionExchangeLedger_Url v) /\ is_u64 (TransactionExchangeLedger_Produced v) /\ is_u64
  (TransactionExchangeLedger_Acknowledged v) /\ is_u64 (TransactionExchangeLedger_Received v) /\ is_u64
  (TransactionExchangeLedger_Delivered v) /\ (forall x, x ∈ TransactionExchangeLedger_Pending v -> txid_ok x) /\
  TransactionExchangeLedger_extraData v = [].

Lemma TransactionExchangeLedger_survives (v : TransactionExchangeLedger) :
  TransactionExchangeLedger_ok v -> survives TransactionExchangeLedger_MarshalBinary
    (TransactionExchangeLedger_UnmarshalBinary new_TransactionExchangeLedger) v.
Proof. wire_roundtrip. Qed.
#[export] Hint Resolve TransactionExchangeLedger_survives : wire.
Lemma TransactionExchangeLedger_copied (v : TransactionExchangeLedger) : TransactionExchangeLedger_ok v ->
    TransactionExchangeLedger_Copy v = v.
Proof. wire_copy. Qed.
#[export] Hint Resolve TransactionExchangeLedger_copied : copies.

Record ChainMetadata := { ChainMetadata_Name : string; ChainMetadata_Type : Z; ChainMetadata_extraData : bytes }.
Definition new_ChainMetadata : ChainMetadata := Build_ChainMetadata "" 0 [].

Definition ChainMetadata_Copy (v : ChainMetadata) : ChainMetadata := Build_ChainMetadata (ChainMetadata_Name v)
  (ChainMetadata_Type v) [].

Definition ChainMetadata_MarshalBinary (v : ChainMetadata) : res bytes :=
  finish (ChainMetadata_extraData v) (
    NewWriter
    |> when (negb (String.eqb (ChainMetadata_Name v) "")) (WriteString 1 (ChainMetadata_Name v))
    |> when (negb (ChainMetadata_Type v =? 0)) (WriteEnum 2 (ChainMetadata_Type v))).

Definition ChainMetadata_UnmarshalBinary (v : ChainMetadata) (data : bytes) : res ChainMetadata :=
  let reader := NewReader data in
  let '(xName, reader) := ReadString 1 reader in
  let '(xType, reader) := ReadEnum managed.ChainType_SetEnumValue 2 reader in
  finish_read (Build_ChainMetadata (default (ChainMetadata_Name v) xName) (default (ChainMetadata_Type v) xType))
    reader.

Definition ChainMetadata_ok (v : ChainMetadata) : Prop :=
  string_ok (ChainMetadata_Name v) /\ enum_or_zero managed.ChainType_SetEnumValue (ChainMetadata_Type v) /\
  ChainMetadata_extraData v = [].

Lemma ChainMetadata_survives (v : ChainMetadata) :
  ChainMetadata_ok v -> survives ChainMetadata_MarshalBinary (ChainMetadata_UnmarshalBinary new_ChainMetadata) v.
Proof. wire_roundtrip. Qed.
#[export] Hint Resolve ChainMetadata_survives : wire.
Lemma ChainMetadata_copied (v : ChainMetadata) : ChainMetadata_ok v -> ChainMetadata_Copy v = v.
Proof. wire_copy. Qed.
#[export] Hint Resolve ChainMetadata_copied : copies.

Record AnchorMetadata := { AnchorMetadata_ChainMetadata : ChainMetadata; AnchorMetadata_Account : option URL;
  AnchorMetadata_Index : Z; AnchorMetadata_SourceIndex : Z; AnchorMetadata_SourceBlock : Z; AnchorMetadata_Entry :
  bytes; AnchorMetadata_extraData : bytes }.
Definition new_AnchorMetadata : AnchorMetadata := Build_AnchorMetadata new_ChainMetadata None 0 0 0 [] [].

Definition AnchorMetadata_Copy (v : AnchorMetadata) : AnchorMetadata := Build_AnchorMetadata (ChainMetadata_Copy
  (AnchorMetadata_ChainMetadata v)) (AnchorMetadata_Account v) (AnchorMetadata_Index v) (AnchorMetadata_SourceIndex
  v) (AnchorMetadata_SourceBlock v) (AnchorMetadata_Entry v) [].

Definition AnchorMetadata_MarshalBinary (v : AnchorMetadata) : res bytes :=
  finish (AnchorMetadata_extraData v) (
    NewWriter
    |> writeValue 1 (ChainMetadata_MarshalBinary (AnchorMetadata_ChainMetadata v))
    |> when (negb (is_nil (AnchorMetadata_Account v))) (writeUrl 2 (AnchorMetadata_Account v))
    |> when (negb (AnchorMetadata_Index v =? 0)) (WriteUint 3 (AnchorMetadata_Index v))
    |> when (negb (AnchorMetadata_SourceIndex v =? 0)) (WriteUint 4 (AnchorMetadata_SourceIndex v))
    |> when (negb (AnchorMetadata_SourceBlock v =? 0)) (WriteUint 5 (AnchorMetadata_SourceBlock v))
    |> when (negb (is_empty (AnchorMetadata_Entry v))) (WriteBytes 6 (AnchorMetadata_Entry v))).

Definition AnchorMetadata_UnmarshalBinary (v : AnchorMetadata) (data : bytes) : res AnchorMetadata :=
  let reader := NewReader data in
  let '(xChainMetadata, reader) := readValue 1 (ChainMetadata_UnmarshalBinary (AnchorMetadata_ChainMetadata v))
    reader in
  let '(xAccount, reader) := readUrl 2 reader in
  let '(xIndex, reader) := ReadUint 3 reader in
  let '(xSourceIndex, reader) := ReadUint 4 reader in
  let '(xSourceBlock, reader) := ReadUint 5 reader in
  let '(xEntry, reader) := ReadBytes 6 reader in
  finish_read (Build_AnchorMetadata (default (AnchorMetadata_ChainMetadata v) xChainMetadata) (default
    (AnchorMetadata_Account v) xAccount) (default (AnchorMetadata_Index v) xIndex) (default
    (AnchorMetadata_SourceIndex v) xSourceIndex) (default (AnchorMetadata_SourceBlock v) xSourceBlock) (default
    (AnchorMetadata_Entry v) xEntry)) reader.

Definition AnchorMetadata_ok (v : AnchorMetadata) : Prop :=
  ChainMetadata_ok (AnchorMetadata_ChainMetadata v) /\ fits (ChainMetadata_MarshalBinary
  (AnchorMetadata_ChainMetadata v)) /\ url_ok (AnchorMetadata_Account v) /\ is_u64 (AnchorMetadata_Index v) /\
  is_u64 (AnchorMetadata_SourceIndex v) /\ is_u64 (AnchorMetadata_SourceBlock v) /\ bytes_ok (AnchorMetadata_Entry
  v) /\ AnchorMetadata_extraData v = [].

Lemma AnchorMetadata_survives (v : AnchorMetadata) :
  AnchorMetadata_ok v -> survives AnchorMetadata_MarshalBinary (AnchorMetadata_UnmarshalBinary new_AnchorMetadata)
    v.
Proof. wire_roundtrip. Qed.
#[export] Hint Resolve AnchorMetadata_survives : wire.
Lemma AnchorMetadata_copied (v : AnchorMetadata) : AnchorMetadata_ok v -> AnchorMetadata_Copy v = v.
Proof. wire_copy. Qed.
#[export] Hint Resolve AnchorMetadata_copied : copies.

Record BlockEntry := { BlockEntry_Account : option URL; BlockEntry_Chain : string; BlockEntry_Index : Z;
  BlockEntry_extraData : bytes }.
Definition new_BlockEntry : BlockEntry := Build_BlockEntry None "" 0 [].

Definition BlockEntry_Copy (v : BlockEntry) : BlockEntry := Build_BlockEntry (BlockEntry_Account v)
  (BlockEntry_Chain v) (BlockEntry_Index v) [].

Definition BlockEntry_MarshalBinary (v : BlockEntry) : res bytes :=
  finish (BlockEntry_extraData v) (
    NewWriter
    |> when (negb (is_nil (BlockEntry_Account v))) (writeUrl 1 (BlockEntry_Account v))
    |> when (negb (String.eqb (BlockEntry_Chain v) "")) (WriteString 2 (BlockEntry_Chain v))
    |> WriteUint 3 (BlockEntry_Index v)).

Definition BlockEntry_UnmarshalBinary (v : BlockEntry) (data : bytes) : res BlockEntry :=
  let reader := NewReader data in
  let '(xAccount, reader) := readUrl 1 reader in
  let '(xChain, reader) := ReadString 2 reader in
  let '(xIndex, reader) := ReadUint 3 reader in
  finish_read (Build_BlockEntry (default (BlockEntry_Account v) xAccount) (default (BlockEntry_Chain v) xChain)
    (default (BlockEntry_Index v) xIndex)) reader.

Definition BlockEntry_ok (v : BlockEntry) : Prop :=
  url_ok (BlockEntry_Account v) /\ string_ok (BlockEntry_Chain v) /\ is_u64 (BlockEntry_Index v) /\
  BlockEntry_extraData v = [].

Lemma BlockEntry_survives (v : BlockEntry) :
  BlockEntry_ok v -> survives BlockEntry_MarshalBinary (BlockEntry_UnmarshalBinary new_BlockEntry) v.
Proof. wire_roundtrip. Qed.
#[export] Hint Resolve BlockEntry_survives : wire.
Lemma BlockEntry_copied (v : BlockEntry) : BlockEntry_ok v -> BlockEntry_Copy v = v.
Proof. wire_copy. Qed.
#[export] Hint Resolve BlockEntry_copied : copies.

Record PartitionAnchor := { PartitionAnchor_Source : option URL; PartitionAnchor_MajorBlockIndex : Z;
  PartitionAnchor_MinorBlockIndex : Z; PartitionAnchor_RootChainIndex : Z; PartitionAnchor_RootChainAnchor : bytes;
  PartitionAnchor_StateTreeAnchor : bytes; PartitionAnchor_Synthetic : list TransactionExchangeLedger;
  PartitionAnchor_extraData : bytes }.
Definition new_PartitionAnchor : PartitionAnchor := Build_PartitionAnchor None 0 0 0 hash_zero hash_zero [] [].

Definition PartitionAnchor_Copy (v : PartitionAnchor) : PartitionAnchor := Build_PartitionAnchor
  (PartitionAnchor_Source v) (PartitionAnchor_MajorBlockIndex v) (PartitionAnchor_MinorBlockIndex v)
  (PartitionAnchor_RootChainIndex v) (PartitionAnchor_RootChainAnchor v) (PartitionAnchor_StateTreeAnchor v)
  (TransactionExchangeLedger_Copy <$> PartitionAnchor_Synthetic v) [].

Definition PartitionAnchor_MarshalBinary (v : PartitionAnchor) : res bytes :=
  finish (PartitionAnchor_extraData v) (
    NewWriter
    |> when (negb (is_nil (PartitionAnchor_Source v))) (writeUrl 1 (PartitionAnchor_Source v))
    |> when (negb (PartitionAnchor_MajorBlockIndex v =? 0)) (WriteUint 2 (PartitionAnchor_MajorBlockIndex v))
    |> when (negb (PartitionAnchor_MinorBlockIndex v =? 0)) (WriteUint 3 (PartitionAnchor_MinorBlockIndex v))
    |> when (negb (PartitionAnchor_RootChainIndex v =? 0)) (WriteUint 4 (PartitionAnchor_RootChainIndex v))
    |> when (negb (bytes_eqb (PartitionAnchor_RootChainAnchor v) hash_zero)) (WriteHash 5
       (PartitionAnchor_RootChainAnchor v))
    |> when (negb (bytes_eqb (PartitionAnchor_StateTreeAnchor v) hash_zero)) (WriteHash 6
       (PartitionAnchor_StateTreeAnchor v))
    |> when (negb (is_empty (PartitionAnchor_Synthetic v))) (range (PartitionAnchor_Synthetic v) (fun v =>
       writeValue 7 (TransactionExchangeLedger_MarshalBinary v)))).

Definition PartitionAnchor_UnmarshalBinary (v : PartitionAnchor) (data : bytes) : res PartitionAnchor :=
  let reader := NewReader data in
  let '(xSource, reader) := readUrl 1 reader in
  let '(xMajorBlockIndex, reader) := ReadUint 2 reader in
  let '(xMinorBlockIndex, reader) := ReadUint 3 reader in
  let '(xRootChainIndex, reader) := ReadUint 4 reader in
  let '(xRootChainAnchor, reader) := ReadHash 5 reader in
  let '(xStateTreeAnchor, reader) := ReadHash 6 reader in
  let '(xSynthetic, reader) := read_list (readValue 7 (TransactionExchangeLedger_UnmarshalBinary
    new_TransactionExchangeLedger)) reader in
  finish_read (Build_PartitionAnchor (default (PartitionAnchor_Source v) xSource) (default
    (PartitionAnchor_MajorBlockIndex v) xMajorBlockIndex) (default (PartitionAnchor_MinorBlockIndex v)
    xMinorBlockIndex) (default (PartitionAnchor_RootChainIndex v) xRootChainIndex) (default
    (PartitionAnchor_RootChainAnchor v) xRootChainAnchor) (default (PartitionAnchor_StateTreeAnchor v)
    xStateTreeAnchor) (PartitionAnchor_Synthetic v ++ xSynthetic)) reader.

Definition PartitionAnchor_ok (v : PartitionAnchor) : Prop :=
  url_ok (PartitionAnchor_Source v) /\ is_u64 (PartitionAnchor_MajorBlockIndex v) /\ is_u64
  (PartitionAnchor_MinorBlockIndex v) /\ is_u64 (PartitionAnchor_RootChainIndex v) /\ hash_ok
  (PartitionAnchor_RootChainAnchor v) /\ hash_ok (PartitionAnchor_StateTreeAnchor v) /\ (forall x, x ∈
  PartitionAnchor_Synthetic v -> TransactionExchangeLedger_ok x) /\ (forall x, x ∈ PartitionAnchor_Synthetic v ->
  fits (TransactionExchangeLedger_MarshalBinary x)) /\ PartitionAnchor_extraData v = [].

Lemma PartitionAnchor_survives (v : PartitionAnchor) :
  PartitionAnchor_ok v -> survives PartitionAnchor_MarshalBinary (PartitionAnchor_UnmarshalBinary
    new_PartitionAnchor) v.
Proof. wire_roundtrip. Qed.
#[export] Hint Resolve PartitionAnchor_survives : wire.
Lemma PartitionAnchor_copied (v : PartitionAnchor) : PartitionAnchor_ok v -> PartitionAnchor_Copy v = v.
Proof. wire_copy. Qed.
#[export] Hint Resolve PartitionAnchor_copied : copies.

Record ChainParams := { ChainParams_Data : bytes; ChainParams_IsUpdate : bool; ChainParams_extraData : bytes }.
Definition new_ChainParams : ChainParams := Build_ChainParams [] false [].

Definition ChainParams_Copy (v : ChainParams) : ChainParams := Build_ChainParams (ChainParams_Data v)
  (ChainParams_IsUpdate v) [].

Definition ChainParams_MarshalBinary (v : ChainParams) : res bytes :=
  finish (ChainParams_extraData v) (
    NewWriter
    |> when (negb (is_empty (ChainParams_Data v))) (WriteBytes 1 (ChainParams_Data v))
    |> when (negb (negb (ChainParams_IsUpdate v))) (WriteBool 2 (ChainParams_IsUpdate v))).

Definition ChainParams_UnmarshalBinary (v : ChainParams) (data : bytes) : res ChainParams :=
  let reader := NewReader data in
  let '(xData, reader) := ReadBytes 1 reader in
  let '(xIsUpdate, reader) := ReadBool 2 reader in
  finish_read (Build_ChainParams (default (ChainParams_Data v) xData) (default (ChainParams_IsUpdate v) xIsUpdate))
    reader.

Definition ChainParams_ok (v : ChainParams) : Prop :=
  bytes_ok (ChainParams_Data v) /\ ChainParams_extraData v = [].

Lemma ChainParams_survives (v : ChainParams) :
  ChainParams_ok v -> survives ChainParams_MarshalBinary (ChainParams_UnmarshalBinary new_ChainParams) v.
Proof. wire_roundtrip. Qed.
#[export] Hint Resolve ChainParams_survives : wire.
Lemma ChainParams_copied (v : ChainParams) : ChainParams_ok v -> ChainParams_Copy v = v.
Proof. wire_copy. Qed.
#[export] Hint Resolve ChainParams_copied : copies.

(** The entries of Factom have a format of their own. *)
Definition new_FactomDataEntry : FactomDataEntry := mkFactom hash_zero [] [].

Definition FactomDataEntry_Copy (e : FactomDataEntry) : FactomDataEntry := mkFactom (AccountId e) (fde_Data e) (ExtIds e).

Lemma FactomDataEntry_copied e : FactomDataEntry_Copy e = e.
Proof. by destruct e. Qed.
#[export] Hint Resolve FactomDataEntry_copied : copies.

Definition FactomDataEntry_ok (e : FactomDataEntry) : Prop :=
  length (AccountId e) = 32%nat /\ (exists b, FactomDataEntry_MarshalBinary e = Ok b /\ zlen b < 2 ^ 16).

Lemma FactomDataEntry_survives e :
  FactomDataEntry_ok e -> survives FactomDataEntry_MarshalBinary FactomDataEntry_UnmarshalBinary e.
Proof.
  intros (Hid & b & Em & Hb). exists b. split; [done|]. pose proof (zlen_marshal _ _ Em).
  apply (factom_roundtrip e b Hid); [lia|done|unfold MaxInt32; lia].
Qed.
#[export] Hint Resolve FactomDataEntry_survives : wire.


Record FactomDataEntryWrapper := { FactomDataEntryWrapper_FactomDataEntry : FactomDataEntry;
  FactomDataEntryWrapper_extraData : bytes }.
Definition new_FactomDataEntryWrapper : FactomDataEntryWrapper := Build_FactomDataEntryWrapper new_FactomDataEntry
  [].

Definition FactomDataEntryWrapper_Copy (v : FactomDataEntryWrapper) : FactomDataEntryWrapper :=
  Build_FactomDataEntryWrapper (FactomDataEntry_Copy (FactomDataEntryWrapper_FactomDataEntry v)) [].

Definition FactomDataEntryWrapper_MarshalBinary (v : FactomDataEntryWrapper) : res bytes :=
  finish (FactomDataEntryWrapper_extraData v) (
    NewWriter
    |> WriteEnum 1 DataEntryTypeFactom
    |> writeValue 2 (FactomDataEntry_MarshalBinary (FactomDataEntryWrapper_FactomDataEntry v))).

Definition FactomDataEntryWrapper_UnmarshalBinary (v : FactomDataEntryWrapper) (data : bytes) : res
    FactomDataEntryWrapper :=
  let reader := NewReader data in
  let '(vType, reader) := ReadEnum DataEntryType_SetEnumValue 1 reader in
  if negb (DataEntryTypeFactom =? default 0 vType) then errorf "field Type: not equal" else
  let '(xFactomDataEntry, reader) := readValue 2 FactomDataEntry_UnmarshalBinary reader in
  finish_read (Build_FactomDataEntryWrapper (default (FactomDataEntryWrapper_FactomDataEntry v) xFactomDataEntry))
    reader.

Definition FactomDataEntryWrapper_ok (v : FactomDataEntryWrapper) : Prop :=
  FactomDataEntry_ok (FactomDataEntryWrapper_FactomDataEntry v) /\ fits (FactomDataEntry_MarshalBinary
  (FactomDataEntryWrapper_FactomDataEntry v)) /\ FactomDataEntryWrapper_extraData v = [].

Lemma FactomDataEntryWrapper_survives (v : FactomDataEntryWrapper) :
  FactomDataEntryWrapper_ok v -> survives FactomDataEntryWrapper_MarshalBinary
    (FactomDataEntryWrapper_UnmarshalBinary new_FactomDataEntryWrapper) v.
Proof. wire_roundtrip. Qed.
#[export] Hint Resolve FactomDataEntryWrapper_survives : wire.
Lemma FactomDataEntryWrapper_copied (v : FactomDataEntryWrapper) : FactomDataEntryWrapper_ok v ->
    FactomDataEntryWrapper_Copy v = v.
Proof. wire_copy. Qed.
#[export] Hint Resolve FactomDataEntryWrapper_copied : copies.
Lemma FactomDataEntryWrapper_tagged (v : FactomDataEntryWrapper) : FactomDataEntryWrapper_ok v -> tagged
    FactomDataEntryWrapper_MarshalBinary DataEntryTypeFactom v.
Proof. wire_tagged. Qed.
#[export] Hint Resolve FactomDataEntryWrapper_tagged : wire.

Inductive DataEntry :=
  | DataEntry_AccumulateDataEntry (v : AccumulateDataEntry)
  | DataEntry_FactomDataEntryWrapper (v : FactomDataEntryWrapper).

Definition DataEntry_MarshalBinary (v : DataEntry) : res bytes :=
  match v with
  | DataEntry_AccumulateDataEntry v => AccumulateDataEntry_MarshalBinary v
  | DataEntry_FactomDataEntryWrapper v => FactomDataEntryWrapper_MarshalBinary v
  end.

Definition UnmarshalDataEntry (data : bytes) : res DataEntry :=
  let! typ := UnmarshalEnumType DataEntryType_SetEnumValue data in
  if typ =? DataEntryTypeAccumulate then let! v := AccumulateDataEntry_UnmarshalBinary new_AccumulateDataEntry data in Ok (DataEntry_AccumulateDataEntry v) else
  if typ =? DataEntryTypeFactom then let! v := FactomDataEntryWrapper_UnmarshalBinary new_FactomDataEntryWrapper data in Ok (DataEntry_FactomDataEntryWrapper v) else
  errorf "unknown type".

Definition DataEntry_ok (v : DataEntry) : Prop :=
  match v with
  | DataEntry_AccumulateDataEntry v => AccumulateDataEntry_ok v
  | DataEntry_FactomDataEntryWrapper v => FactomDataEntryWrapper_ok v
  end.

Definition DataEntry_Copy (v : DataEntry) : DataEntry :=
  match v with
  | DataEntry_AccumulateDataEntry v => DataEntry_AccumulateDataEntry (AccumulateDataEntry_Copy v)
  | DataEntry_FactomDataEntryWrapper v => DataEntry_FactomDataEntryWrapper (FactomDataEntryWrapper_Copy v)
  end.

Lemma DataEntry_copied (v : DataEntry) : DataEntry_ok v -> DataEntry_Copy v = v.
Proof. destruct v; cbn; intros; f_equal; eauto 2 with copies. Qed.
#[export] Hint Resolve DataEntry_copied : copies.

Lemma DataEntry_survives (v : DataEntry) : DataEntry_ok v -> survives DataEntry_MarshalBinary UnmarshalDataEntry v.
Proof. destruct v; wire_union. Qed.
#[export] Hint Resolve DataEntry_survives : wire.

Record NetworkAccountUpdate (TB : Type) := { NetworkAccountUpdate_Name : string; NetworkAccountUpdate_Body : option
  TB; NetworkAccountUpdate_extraData : bytes }.
Arguments Build_NetworkAccountUpdate {TB}.
Arguments NetworkAccountUpdate_Name {TB}.
Arguments NetworkAccountUpdate_Body {TB}.
Arguments NetworkAccountUpdate_extraData {TB}.
Definition new_NetworkAccountUpdate {TB : Type} : NetworkAccountUpdate TB := Build_NetworkAccountUpdate "" None [].

Definition NetworkAccountUpdate_Copy `{Union TB} (v : NetworkAccountUpdate TB) : NetworkAccountUpdate TB :=
  Build_NetworkAccountUpdate (NetworkAccountUpdate_Name v) (u_Copy <$> NetworkAccountUpdate_Body v) [].

Definition NetworkAccountUpdate_MarshalBinary `{Union TB} (v : NetworkAccountUpdate TB) : res bytes :=
  finish (NetworkAccountUpdate_extraData v) (
    NewWriter
    |> when (negb (String.eqb (NetworkAccountUpdate_Name v) "")) (WriteString 1 (NetworkAccountUpdate_Name v))
    |> when (negb (is_nil (NetworkAccountUpdate_Body v))) (deref (NetworkAccountUpdate_Body v) (fun v => writeValue
       2 (u_Marshal v)))).

Definition NetworkAccountUpdate_UnmarshalBinary `{Union TB} (v : NetworkAccountUpdate TB) (data : bytes) : res
    (NetworkAccountUpdate TB) :=
  let reader := NewReader data in
  let '(xName, reader) := ReadString 1 reader in
  let '(xBody, reader) := readValue 2 u_Unmarshal reader in
  finish_read (Build_NetworkAccountUpdate (default (NetworkAccountUpdate_Name v) xName) (or_else xBody
    (NetworkAccountUpdate_Body v))) reader.

Definition NetworkAccountUpdate_ok `{Union TB} (v : NetworkAccountUpdate TB) : Prop :=
  string_ok (NetworkAccountUpdate_Name v) /\ (forall x, NetworkAccountUpdate_Body v = Some x -> u_ok x) /\ (forall
  x, NetworkAccountUpdate_Body v = Some x -> fits (u_Marshal x)) /\ NetworkAccountUpdate_extraData v = [].

Lemma NetworkAccountUpdate_survives `{Union TB} `{!UnionLaws TB} (v : NetworkAccountUpdate TB) :
  NetworkAccountUpdate_ok v -> survives NetworkAccountUpdate_MarshalBinary (NetworkAccountUpdate_UnmarshalBinary
    new_NetworkAccountUpdate) v.
Proof. wire_roundtrip. Qed.
#[export] Hint Resolve NetworkAccountUpdate_survives : wire.
Lemma NetworkAccountUpdate_copied `{Union TB} `{!UnionLaws TB} (v : NetworkAccountUpdate TB) :
    NetworkAccountUpdate_ok v -> NetworkAccountUpdate_Copy v = v.
Proof. wire_copy. Qed.
#[export] Hint Resolve NetworkAccountUpdate_copied : copies.

Record PartitionAnchorReceipt := { PartitionAnchorReceipt_Anchor : option PartitionAnchor;
  PartitionAnchorReceipt_SequenceNumber : Z; PartitionAnchorReceipt_RootChainReceipt : option Receipt;
  PartitionAnchorReceipt_extraData : bytes }.
Definition new_PartitionAnchorReceipt : PartitionAnchorReceipt := Build_PartitionAnchorReceipt None 0 None [].

Definition PartitionAnchorReceipt_Copy (v : PartitionAnchorReceipt) : PartitionAnchorReceipt :=
  Build_PartitionAnchorReceipt (PartitionAnchor_Copy <$> PartitionAnchorReceipt_Anchor v)
  (PartitionAnchorReceipt_SequenceNumber v) (Receipt_Copy <$> PartitionAnchorReceipt_RootChainReceipt v) [].

Definition PartitionAnchorReceipt_MarshalBinary (v : PartitionAnchorReceipt) : res bytes :=
  finish (PartitionAnchorReceipt_extraData v) (
    NewWriter
    |> when (negb (is_nil (PartitionAnchorReceipt_Anchor v))) (deref (PartitionAnchorReceipt_Anchor v) (fun v =>
       writeValue 1 (PartitionAnchor_MarshalBinary v)))
    |> when (negb (PartitionAnchorReceipt_SequenceNumber v =? 0)) (WriteUint 2
       (PartitionAnchorReceipt_SequenceNumber v))
    |> when (negb (is_nil (PartitionAnchorReceipt_RootChainReceipt v))) (deref
       (PartitionAnchorReceipt_RootChainReceipt v) (fun v => writeValue 3 (Receipt_MarshalBinary v)))).

Definition PartitionAnchorReceipt_UnmarshalBinary (v : PartitionAnchorReceipt) (data : bytes) : res
    PartitionAnchorReceipt :=
  let reader := NewReader data in
  let '(xAnchor, reader) := readValue 1 (PartitionAnchor_UnmarshalBinary new_PartitionAnchor) reader in
  let '(xSequenceNumber, reader) := ReadUint 2 reader in
  let '(xRootChainReceipt, reader) := readValue 3 (Receipt_UnmarshalBinary new_Receipt) reader in
  finish_read (Build_PartitionAnchorReceipt (or_else xAnchor (PartitionAnchorReceipt_Anchor v)) (default
    (PartitionAnchorReceipt_SequenceNumber v) xSequenceNumber) (or_else xRootChainReceipt
    (PartitionAnchorReceipt_RootChainReceipt v))) reader.

Definition PartitionAnchorReceipt_ok (v : PartitionAnchorReceipt) : Prop :=
  (forall x, PartitionAnchorReceipt_Anchor v = Some x -> PartitionAnchor_ok x) /\ (forall x,
  PartitionAnchorReceipt_Anchor v = Some x -> fits (PartitionAnchor_MarshalBinary x)) /\ is_u64
  (PartitionAnchorReceipt_SequenceNumber v) /\ (forall x, PartitionAnchorReceipt_RootChainReceipt v = Some x ->
  Receipt_ok x) /\ (forall x, PartitionAnchorReceipt_RootChainReceipt v = Some x -> fits (Receipt_MarshalBinary x))
  /\ PartitionAnchorReceipt_extraData v = [].

Lemma PartitionAnchorReceipt_survives (v : PartitionAnchorReceipt) :
  PartitionAnchorReceipt_ok v -> survives PartitionAnchorReceipt_MarshalBinary
    (PartitionAnchorReceipt_UnmarshalBinary new_PartitionAnchorReceipt) v.
Proof. wire_roundtrip. Qed.
#[export] Hint Resolve PartitionAnchorReceipt_survives : wire.
Lemma PartitionAnchorReceipt_copied (v : PartitionAnchorReceipt) : PartitionAnchorReceipt_ok v ->
    PartitionAnchorReceipt_Copy v = v.
Proof. wire_copy. Qed.
#[export] Hint Resolve PartitionAnchorReceipt_copied : copies.

Record TransactionHeader := { TransactionHeader_Principal : option URL; TransactionHeader_Initiator : bytes;
  TransactionHeader_Memo : string; TransactionHeader_Metadata : bytes; TransactionHeader_extraData : bytes }.
Definition new_TransactionHeader : TransactionHeader := Build_TransactionHeader None hash_zero "" [] [].

Definition TransactionHeader_Equal (v u : TransactionHeader) : bool :=
  Equal (TransactionHeader_Principal v) (TransactionHeader_Principal u) &&
  bytes_eqb (TransactionHeader_Initiator v) (TransactionHeader_Initiator u) &&
  String.eqb (TransactionHeader_Memo v) (TransactionHeader_Memo u) &&
  bytes_eqb (TransactionHeader_Metadata v) (TransactionHeader_Metadata u).

Definition TransactionHeader_Copy (v : TransactionHeader) : TransactionHeader := Build_TransactionHeader
  (TransactionHeader_Principal v) (TransactionHeader_Initiator v) (TransactionHeader_Memo v)
  (TransactionHeader_Metadata v) [].

Definition TransactionHeader_MarshalBinary (v : TransactionHeader) : res bytes :=
  finish (TransactionHeader_extraData v) (
    NewWriter
    |> when (negb (is_nil (TransactionHeader_Principal v))) (writeUrl 1 (TransactionHeader_Principal v))
    |> when (negb (bytes_eqb (TransactionHeader_Initiator v) hash_zero)) (WriteHash 2 (TransactionHeader_Initiator
       v))
    |> when (negb (String.eqb (TransactionHeader_Memo v) "")) (WriteString 3 (TransactionHeader_Memo v))
    |> when (negb (is_empty (TransactionHeader_Metadata v))) (WriteBytes 4 (TransactionHeader_Metadata v))).

Definition TransactionHeader_UnmarshalBinary (v : TransactionHeader) (data : bytes) : res TransactionHeader :=
  let reader := NewReader data in
  let '(xPrincipal, reader) := readUrl 1 reader in
  let '(xInitiator, reader) := ReadHash 2 reader in
  let '(xMemo, reader) := ReadString 3 reader in
  let '(xMetadata, reader) := ReadBytes 4 reader in
  finish_read (Build_TransactionHeader (default (TransactionHeader_Principal v) xPrincipal) (default
    (TransactionHeader_Initiator v) xInitiator) (default (TransactionHeader_Memo v) xMemo) (default
    (TransactionHeader_Metadata v) xMetadata)) reader.

Definition TransactionHeader_ok (v : TransactionHeader) : Prop :=
  url_ok (TransactionHeader_Principal v) /\ hash_ok (TransactionHeader_Initiator v) /\ string_ok
  (TransactionHeader_Memo v) /\ bytes_ok (TransactionHeader_Metadata v) /\ TransactionHeader_extraData v = [].

Lemma TransactionHeader_survives (v : TransactionHeader) :
  TransactionHeader_ok v -> survives TransactionHeader_MarshalBinary (TransactionHeader_UnmarshalBinary
    new_TransactionHeader) v.
Proof. wire_roundtrip. Qed.
#[export] Hint Resolve TransactionHeader_survives : wire.
Lemma TransactionHeader_copied (v : TransactionHeader) : TransactionHeader_ok v -> TransactionHeader_Copy v = v.
Proof. wire_copy. Qed.
#[export] Hint Resolve TransactionHeader_copied : copies.

Lemma TransactionHeader_Equal_new (v : TransactionHeader) : TransactionHeader_ok v -> TransactionHeader_Equal v new_TransactionHeader = true -> v = new_TransactionHeader.
Proof. wire_equal_new. Qed.
#[export] Hint Resolve TransactionHeader_Equal_new : wire.

Record FeeSchedule := { FeeSchedule_CreateIdentitySliding : list Z; FeeSchedule_extraData : bytes }.
Definition new_FeeSchedule : FeeSchedule := Build_FeeSchedule [] [].

Definition FeeSchedule_Copy (v : FeeSchedule) : FeeSchedule := Build_FeeSchedule (FeeSchedule_CreateIdentitySliding
  v) [].

Definition FeeSchedule_MarshalBinary (v : FeeSchedule) : res bytes :=
  finish (FeeSchedule_extraData v) (
    NewWriter
    |> when (negb (is_empty (FeeSchedule_CreateIdentitySliding v))) (range (FeeSchedule_CreateIdentitySliding v)
       (fun v => WriteEnum 1 v))).

Definition FeeSchedule_UnmarshalBinary (v : FeeSchedule) (data : bytes) : res FeeSchedule :=
  let reader := NewReader data in
  let '(xCreateIdentitySliding, reader) := read_list (ReadEnum Fee_SetEnumValue 1) reader in
  finish_read (Build_FeeSchedule (FeeSchedule_CreateIdentitySliding v ++ xCreateIdentitySliding)) reader.

Definition FeeSchedule_ok (v : FeeSchedule) : Prop :=
  (forall x, x ∈ FeeSchedule_CreateIdentitySliding v -> enum_ok Fee_SetEnumValue x) /\ FeeSchedule_extraData v = [].

Lemma FeeSchedule_survives (v : FeeSchedule) :
  FeeSchedule_ok v -> survives FeeSchedule_MarshalBinary (FeeSchedule_UnmarshalBinary new_FeeSchedule) v.
Proof. wire_roundtrip. Qed.
#[export] Hint Resolve FeeSchedule_survives : wire.
Lemma FeeSchedule_copied (v : FeeSchedule) : FeeSchedule_ok v -> FeeSchedule_Copy v = v.
Proof. wire_copy. Qed.
#[export] Hint Resolve FeeSchedule_copied : copies.

Record IndexEntry := { IndexEntry_Source : Z; IndexEntry_Anchor : Z; IndexEntry_BlockIndex : Z; IndexEntry_BlockTime
  : option Z; IndexEntry_RootIndexIndex : Z; IndexEntry_extraData : bytes }.
Definition new_IndexEntry : IndexEntry := Build_IndexEntry 0 0 0 None 0 [].

Definition IndexEntry_Copy (v : IndexEntry) : IndexEntry := Build_IndexEntry (IndexEntry_Source v)
  (IndexEntry_Anchor v) (IndexEntry_BlockIndex v) (IndexEntry_BlockTime v) (IndexEntry_RootIndexIndex v) [].

Definition IndexEntry_MarshalBinary (v : IndexEntry) : res bytes :=
  finish (IndexEntry_extraData v) (
    NewWriter
    |> when (negb (IndexEntry_Source v =? 0)) (WriteUint 1 (IndexEntry_Source v))
    |> when (negb (IndexEntry_Anchor v =? 0)) (WriteUint 2 (IndexEntry_Anchor v))
    |> when (negb (IndexEntry_BlockIndex v =? 0)) (WriteUint 3 (IndexEntry_BlockIndex v))
    |> when (negb (is_nil (IndexEntry_BlockTime v))) (deref (IndexEntry_BlockTime v) (fun v => WriteTime 4 v))
    |> when (negb (IndexEntry_RootIndexIndex v =? 0)) (WriteUint 5 (IndexEntry_RootIndexIndex v))).

Definition IndexEntry_UnmarshalBinary (v : IndexEntry) (data : bytes) : res IndexEntry :=
  let reader := NewReader data in
  let '(xSource, reader) := ReadUint 1 reader in
  let '(xAnchor, reader) := ReadUint 2 reader in
  let '(xBlockIndex, reader) := ReadUint 3 reader in
  let '(xBlockTime, reader) := ReadTime 4 reader in
  let '(xRootIndexIndex, reader) := ReadUint 5 reader in
  finish_read (Build_IndexEntry (default (IndexEntry_Source v) xSource) (default (IndexEntry_Anchor v) xAnchor)
    (default (IndexEntry_BlockIndex v) xBlockIndex) (or_else xBlockTime (IndexEntry_BlockTime v)) (default
    (IndexEntry_RootIndexIndex v) xRootIndexIndex)) reader.

Definition IndexEntry_ok (v : IndexEntry) : Prop :=
  is_u64 (IndexEntry_Source v) /\ is_u64 (IndexEntry_Anchor v) /\ is_u64 (IndexEntry_BlockIndex v) /\ (forall x,
  IndexEntry_BlockTime v = Some x -> time_ok x) /\ is_u64 (IndexEntry_RootIndexIndex v) /\ IndexEntry_extraData v =
  [].

Lemma IndexEntry_survives (v : IndexEntry) :
  IndexEntry_ok v -> survives IndexEntry_MarshalBinary (IndexEntry_UnmarshalBinary new_IndexEntry) v.
Proof. wire_roundtrip. Qed.
#[export] Hint Resolve IndexEntry_survives : wire.
Lemma IndexEntry_copied (v : IndexEntry) : IndexEntry_ok v -> IndexEntry_Copy v = v.
Proof. wire_copy. Qed.
#[export] Hint Resolve IndexEntry_copied : copies.

Record TokenRecipient := { TokenRecipient_Url : option URL; TokenRecipient_Amount : Z; TokenRecipient_extraData :
  bytes }.
Definition new_TokenRecipient : TokenRecipient := Build_TokenRecipient None 0 [].

Definition TokenRecipient_Copy (v : TokenRecipient) : TokenRecipient := Build_TokenRecipient (TokenRecipient_Url v)
  (TokenRecipient_Amount v) [].

Definition TokenRecipient_MarshalBinary (v : TokenRecipient) : res bytes :=
  finish (TokenRecipient_extraData v) (
    NewWriter
    |> when (negb (is_nil (TokenRecipient_Url v))) (writeUrl 1 (TokenRecipient_Url v))
    |> when (negb (TokenRecipient_Amount v =? 0)) (WriteBigInt 2 (TokenRecipient_Amount v))).

Definition TokenRecipient_UnmarshalBinary (v : TokenRecipient) (data : bytes) : res TokenRecipient :=
  let reader := NewReader data in
  let '(xUrl, reader) := readUrl 1 reader in
  let '(xAmount, reader) := ReadBigInt 2 reader in
  finish_read (Build_TokenRecipient (default (TokenRecipient_Url v) xUrl) (default (TokenRecipient_Amount v)
    xAmount)) reader.

Definition TokenRecipient_ok (v : TokenRecipient) : Prop :=
  url_ok (TokenRecipient_Url v) /\ big_ok (TokenRecipient_Amount v) /\ TokenRecipient_extraData v = [].

Lemma TokenRecipient_survives (v : TokenRecipient) :
  TokenRecipient_ok v -> survives TokenRecipient_MarshalBinary (TokenRecipient_UnmarshalBinary new_TokenRecipient)
    v.
Proof. wire_roundtrip. Qed.
#[export] Hint Resolve TokenRecipient_survives : wire.
Lemma TokenRecipient_copied (v : TokenRecipient) : TokenRecipient_ok v -> TokenRecipient_Copy v = v.
Proof. wire_copy. Qed.
#[export] Hint Resolve TokenRecipient_copied : copies.

Record KeySpec := { KeySpec_PublicKeyHash : bytes; KeySpec_LastUsedOn : Z; KeySpec_Delegate : option URL;
  KeySpec_extraData : bytes }.
Definition new_KeySpec : KeySpec := Build_KeySpec [] 0 None [].

Definition KeySpec_Copy (v : KeySpec) : KeySpec := Build_KeySpec (KeySpec_PublicKeyHash v) (KeySpec_LastUsedOn v)
  (KeySpec_Delegate v) [].

Definition KeySpec_MarshalBinary (v : KeySpec) : res bytes :=
  finish (KeySpec_extraData v) (
    NewWriter
    |> when (negb (is_empty (KeySpec_PublicKeyHash v))) (WriteBytes 1 (KeySpec_PublicKeyHash v))
    |> when (negb (KeySpec_LastUsedOn v =? 0)) (WriteUint 2 (KeySpec_LastUsedOn v))
    |> when (negb (is_nil (KeySpec_Delegate v))) (writeUrl 3 (KeySpec_Delegate v))).

Definition KeySpec_UnmarshalBinary (v : KeySpec) (data : bytes) : res KeySpec :=
  let reader := NewReader data in
  let '(xPublicKeyHash, reader) := ReadBytes 1 reader in
  let '(xLastUsedOn, reader) := ReadUint 2 reader in
  let '(xDelegate, reader) := readUrl 3 reader in
  finish_read (Build_KeySpec (default (KeySpec_PublicKeyHash v) xPublicKeyHash) (default (KeySpec_LastUsedOn v)
    xLastUsedOn) (default (KeySpec_Delegate v) xDelegate)) reader.

Definition KeySpec_ok (v : KeySpec) : Prop :=
  bytes_ok (KeySpec_PublicKeyHash v) /\ is_u64 (KeySpec_LastUsedOn v) /\ url_ok (KeySpec_Delegate v) /\
  KeySpec_extraData v = [].

Lemma KeySpec_survives (v : KeySpec) :
  KeySpec_ok v -> survives KeySpec_MarshalBinary (KeySpec_UnmarshalBinary new_KeySpec) v.
Proof. wire_roundtrip. Qed.
#[export] Hint Resolve KeySpec_survives : wire.
Lemma KeySpec_copied (v : KeySpec) : KeySpec_ok v -> KeySpec_Copy v = v.
Proof. wire_copy. Qed.
#[export] Hint Resolve KeySpec_copied : copies.

Record PartitionInfo := { PartitionInfo_ID : string; PartitionInfo_Type : Z; PartitionInfo_extraData : bytes }.
Definition new_PartitionInfo : PartitionInfo := Build_PartitionInfo "" 0 [].

Definition PartitionInfo_Copy (v : PartitionInfo) : PartitionInfo := Build_PartitionInfo (PartitionInfo_ID v)
  (PartitionInfo_Type v) [].

Definition PartitionInfo_MarshalBinary (v : PartitionInfo) : res bytes :=
  finish (PartitionInfo_extraData v) (
    NewWriter
    |> when (negb (String.eqb (PartitionInfo_ID v) "")) (WriteString 1 (PartitionInfo_ID v))
    |> when (negb (PartitionInfo_Type v =? 0)) (WriteEnum 2 (PartitionInfo_Type v))).

Definition PartitionInfo_UnmarshalBinary (v : PartitionInfo) (data : bytes) : res PartitionInfo :=
  let reader := NewReader data in
  let '(xID, reader) := ReadString 1 reader in
  let '(xType, reader) := ReadEnum PartitionType_SetEnumValue 2 reader in
  finish_read (Build_PartitionInfo (default (PartitionInfo_ID v) xID) (default (PartitionInfo_Type v) xType))
    reader.

Definition PartitionInfo_ok (v : PartitionInfo) : Prop :=
  string_ok (PartitionInfo_ID v) /\ enum_or_zero PartitionType_SetEnumValue (PartitionInfo_Type v) /\
  PartitionInfo_extraData v = [].

Lemma PartitionInfo_survives (v : PartitionInfo) :
  PartitionInfo_ok v -> survives PartitionInfo_MarshalBinary (PartitionInfo_UnmarshalBinary new_PartitionInfo) v.
Proof. wire_roundtrip. Qed.
#[export] Hint Resolve PartitionInfo_survives : wire.
Lemma PartitionInfo_copied (v : PartitionInfo) : PartitionInfo_ok v -> PartitionInfo_Copy v = v.
Proof. wire_copy. Qed.
#[export] Hint Resolve PartitionInfo_copied : copies.

Record ValidatorPartitionInfo := { ValidatorPartitionInfo_ID : string; ValidatorPartitionInfo_Active : bool;
  ValidatorPartitionInfo_extraData : bytes }.
Definition new_ValidatorPartitionInfo : ValidatorPartitionInfo := Build_ValidatorPartitionInfo "" false [].

Definition ValidatorPartitionInfo_Copy (v : ValidatorPartitionInfo) : ValidatorPartitionInfo :=
  Build_ValidatorPartitionInfo (ValidatorPartitionInfo_ID v) (ValidatorPartitionInfo_Active v) [].

Definition ValidatorPartitionInfo_MarshalBinary (v : ValidatorPartitionInfo) : res bytes :=
  finish (ValidatorPartitionInfo_extraData v) (
    NewWriter
    |> when (negb (String.eqb (ValidatorPartitionInfo_ID v) "")) (WriteString 1 (ValidatorPartitionInfo_ID v))
    |> WriteBool 2 (ValidatorPartitionInfo_Active v)).

Definition ValidatorPartitionInfo_UnmarshalBinary (v : ValidatorPartitionInfo) (data : bytes) : res
    ValidatorPartitionInfo :=
  let reader := NewReader data in
  let '(xID, reader) := ReadString 1 reader in
  let '(xActive, reader) := ReadBool 2 reader in
  finish_read (Build_ValidatorPartitionInfo (default (ValidatorPartitionInfo_ID v) xID) (default
    (ValidatorPartitionInfo_Active v) xActive)) reader.

Definition ValidatorPartitionInfo_ok (v : ValidatorPartitionInfo) : Prop :=
  string_ok (ValidatorPartitionInfo_ID v) /\ ValidatorPartitionInfo_extraData v = [].

Lemma ValidatorPartitionInfo_survives (v : ValidatorPartitionInfo) :
  ValidatorPartitionInfo_ok v -> survives ValidatorPartitionInfo_MarshalBinary
    (ValidatorPartitionInfo_UnmarshalBinary new_ValidatorPartitionInfo) v.
Proof. wire_roundtrip. Qed.
#[export] Hint Resolve ValidatorPartitionInfo_survives : wire.
Lemma ValidatorPartitionInfo_copied (v : ValidatorPartitionInfo) : ValidatorPartitionInfo_ok v ->
    ValidatorPartitionInfo_Copy v = v.
Proof. wire_copy. Qed.
#[export] Hint Resolve ValidatorPartitionInfo_copied : copies.

Record ValidatorInfo := { ValidatorInfo_PublicKey : bytes; ValidatorInfo_PublicKeyHash : bytes;
  ValidatorInfo_Operator : option URL; ValidatorInfo_Partitions : list ValidatorPartitionInfo;
  ValidatorInfo_extraData : bytes }.
Definition new_ValidatorInfo : ValidatorInfo := Build_ValidatorInfo [] hash_zero None [] [].

Definition ValidatorInfo_Copy (v : ValidatorInfo) : ValidatorInfo := Build_ValidatorInfo (ValidatorInfo_PublicKey v)
  (ValidatorInfo_PublicKeyHash v) (ValidatorInfo_Operator v) (ValidatorPartitionInfo_Copy <$>
  ValidatorInfo_Partitions v) [].

Definition ValidatorInfo_MarshalBinary (v : ValidatorInfo) : res bytes :=
  finish (ValidatorInfo_extraData v) (
    NewWriter
    |> when (negb (is_empty (ValidatorInfo_PublicKey v))) (WriteBytes 1 (ValidatorInfo_PublicKey v))
    |> when (negb (bytes_eqb (ValidatorInfo_PublicKeyHash v) hash_zero)) (WriteHash 2 (ValidatorInfo_PublicKeyHash
       v))
    |> when (negb (is_nil (ValidatorInfo_Operator v))) (writeUrl 3 (ValidatorInfo_Operator v))
    |> when (negb (is_empty (ValidatorInfo_Partitions v))) (range (ValidatorInfo_Partitions v) (fun v => writeValue
       4 (ValidatorPartitionInfo_MarshalBinary v)))).

Definition ValidatorInfo_UnmarshalBinary (v : ValidatorInfo) (data : bytes) : res ValidatorInfo :=
  let reader := NewReader data in
  let '(xPublicKey, reader) := ReadBytes 1 reader in
  let '(xPublicKeyHash, reader) := ReadHash 2 reader in
  let '(xOperator, reader) := readUrl 3 reader in
  let '(xPartitions, reader) := read_list (readValue 4 (ValidatorPartitionInfo_UnmarshalBinary
    new_ValidatorPartitionInfo)) reader in
  finish_read (Build_ValidatorInfo (default (ValidatorInfo_PublicKey v) xPublicKey) (default
    (ValidatorInfo_PublicKeyHash v) xPublicKeyHash) (default (ValidatorInfo_Operator v) xOperator)
    (ValidatorInfo_Partitions v ++ xPartitions)) reader.

Definition ValidatorInfo_ok (v : ValidatorInfo) : Prop :=
  bytes_ok (ValidatorInfo_PublicKey v) /\ hash_ok (ValidatorInfo_PublicKeyHash v) /\ url_ok (ValidatorInfo_Operator
  v) /\ (forall x, x ∈ ValidatorInfo_Partitions v -> ValidatorPartitionInfo_ok x) /\ (forall x, x ∈
  ValidatorInfo_Partitions v -> fits (ValidatorPartitionInfo_MarshalBinary x)) /\ ValidatorInfo_extraData v = [].

Lemma ValidatorInfo_survives (v : ValidatorInfo) :
  ValidatorInfo_ok v -> survives ValidatorInfo_MarshalBinary (ValidatorInfo_UnmarshalBinary new_ValidatorInfo) v.
Proof. wire_roundtrip. Qed.
#[export] Hint Resolve ValidatorInfo_survives : wire.
Lemma ValidatorInfo_copied (v : ValidatorInfo) : ValidatorInfo_ok v -> ValidatorInfo_Copy v = v.
Proof. wire_copy. Qed.
#[export] Hint Resolve ValidatorInfo_copied : copies.

Record NetworkDefinition := { NetworkDefinition_NetworkName : string; NetworkDefinition_Version : Z;
  NetworkDefinition_Partitions : list PartitionInfo; NetworkDefinition_Validators : list ValidatorInfo;
  NetworkDefinition_extraData : bytes }.
Definition new_NetworkDefinition : NetworkDefinition := Build_NetworkDefinition "" 0 [] [] [].

Definition NetworkDefinition_Copy (v : NetworkDefinition) : NetworkDefinition := Build_NetworkDefinition
  (NetworkDefinition_NetworkName v) (NetworkDefinition_Version v) (PartitionInfo_Copy <$>
  NetworkDefinition_Partitions v) (ValidatorInfo_Copy <$> NetworkDefinition_Validators v) [].

Definition NetworkDefinition_MarshalBinary (v : NetworkDefinition) : res bytes :=
  finish (NetworkDefinition_extraData v) (
    NewWriter
    |> when (negb (String.eqb (NetworkDefinition_NetworkName v) "")) (WriteString 1 (NetworkDefinition_NetworkName
       v))
    |> when (negb (NetworkDefinition_Version v =? 0)) (WriteUint 2 (NetworkDefinition_Version v))
    |> when (negb (is_empty (NetworkDefinition_Partitions v))) (range (NetworkDefinition_Partitions v) (fun v =>
       writeValue 3 (PartitionInfo_MarshalBinary v)))
    |> when (negb (is_empty (NetworkDefinition_Validators v))) (range (NetworkDefinition_Validators v) (fun v =>
       writeValue 4 (ValidatorInfo_MarshalBinary v)))).

Definition NetworkDefinition_UnmarshalBinary (v : NetworkDefinition) (data : bytes) : res NetworkDefinition :=
  let reader := NewReader data in
  let '(xNetworkName, reader) := ReadString 1 reader in
  let '(xVersion, reader) := ReadUint 2 reader in
  let '(xPartitions, reader) := read_list (readValue 3 (PartitionInfo_UnmarshalBinary new_PartitionInfo)) reader in
  let '(xValidators, reader) := read_list (readValue 4 (ValidatorInfo_UnmarshalBinary new_ValidatorInfo)) reader in
  finish_read (Build_NetworkDefinition (default (NetworkDefinition_NetworkName v) xNetworkName) (default
    (NetworkDefinition_Version v) xVersion) (NetworkDefinition_Partitions v ++ xPartitions)
    (NetworkDefinition_Validators v ++ xValidators)) reader.

Definition NetworkDefinition_ok (v : NetworkDefinition) : Prop :=
  string_ok (NetworkDefinition_NetworkName v) /\ is_u64 (NetworkDefinition_Version v) /\ (forall x, x ∈
  NetworkDefinition_Partitions v -> PartitionInfo_ok x) /\ (forall x, x ∈ NetworkDefinition_Partitions v -> fits
  (PartitionInfo_MarshalBinary x)) /\ (forall x, x ∈ NetworkDefinition_Validators v -> ValidatorInfo_ok x) /\
  (forall x, x ∈ NetworkDefinition_Validators v -> fits (ValidatorInfo_MarshalBinary x)) /\
  NetworkDefinition_extraData v = [].

Lemma NetworkDefinition_survives (v : NetworkDefinition) :
  NetworkDefinition_ok v -> survives NetworkDefinition_MarshalBinary (NetworkDefinition_UnmarshalBinary
    new_NetworkDefinition) v.
Proof. wire_roundtrip. Qed.
#[export] Hint Resolve NetworkDefinition_survives : wire.
Lemma NetworkDefinition_copied (v : NetworkDefinition) : NetworkDefinition_ok v -> NetworkDefinition_Copy v = v.
Proof. wire_copy. Qed.
#[export] Hint Resolve NetworkDefinition_copied : copies.

Record Rational := { Rational_Numerator : Z; Rational_Denominator : Z; Rational_extraData : bytes }.
Definition new_Rational : Rational := Build_Rational 0 0 [].

Definition Rational_Equal (v u : Rational) : bool :=
  Z.eqb (Rational_Numerator v) (Rational_Numerator u) &&
  Z.eqb (Rational_Denominator v) (Rational_Denominator u).

Definition Rational_Copy (v : Rational) : Rational := Build_Rational (Rational_Numerator v) (Rational_Denominator v)
  [].

Definition Rational_MarshalBinary (v : Rational) : res bytes :=
  finish (Rational_extraData v) (
    NewWriter
    |> when (negb (Rational_Numerator v =? 0)) (WriteUint 1 (Rational_Numerator v))
    |> when (negb (Rational_Denominator v =? 0)) (WriteUint 2 (Rational_Denominator v))).

Definition Rational_UnmarshalBinary (v : Rational) (data : bytes) : res Rational :=
  let reader := NewReader data in
  let '(xNumerator, reader) := ReadUint 1 reader in
  let '(xDenominator, reader) := ReadUint 2 reader in
  finish_read (Build_Rational (default (Rational_Numerator v) xNumerator) (default (Rational_Denominator v)
    xDenominator)) reader.

Definition Rational_ok (v : Rational) : Prop :=
  is_u64 (Rational_Numerator v) /\ is_u64 (Rational_Denominator v) /\ Rational_extraData v = [].

Lemma Rational_survives (v : Rational) :
  Rational_ok v -> survives Rational_MarshalBinary (Rational_UnmarshalBinary new_Rational) v.
Proof. wire_roundtrip. Qed.
#[export] Hint Resolve Rational_survives : wire.
Lemma Rational_copied (v : Rational) : Rational_ok v -> Rational_Copy v = v.
Proof. wire_copy. Qed.
#[export] Hint Resolve Rational_copied : copies.

Lemma Rational_Equal_new (v : Rational) : Rational_ok v -> Rational_Equal v new_Rational = true -> v = new_Rational.
Proof. wire_equal_new. Qed.
#[export] Hint Resolve Rational_Equal_new : wire.

Record NetworkGlobals := { NetworkGlobals_OperatorAcceptThreshold : Rational;
  NetworkGlobals_ValidatorAcceptThreshold : Rational; NetworkGlobals_MajorBlockSchedule : string;
  NetworkGlobals_AnchorEmptyBlocks : bool; NetworkGlobals_FeeSchedule : option FeeSchedule; NetworkGlobals_extraData
  : bytes }.
Definition new_NetworkGlobals : NetworkGlobals := Build_NetworkGlobals new_Rational new_Rational "" false None [].

Definition NetworkGlobals_Copy (v : NetworkGlobals) : NetworkGlobals := Build_NetworkGlobals (Rational_Copy
  (NetworkGlobals_OperatorAcceptThreshold v)) (Rational_Copy (NetworkGlobals_ValidatorAcceptThreshold v))
  (NetworkGlobals_MajorBlockSchedule v) (NetworkGlobals_AnchorEmptyBlocks v) (FeeSchedule_Copy <$>
  NetworkGlobals_FeeSchedule v) [].

Definition NetworkGlobals_MarshalBinary (v : NetworkGlobals) : res bytes :=
  finish (NetworkGlobals_extraData v) (
    NewWriter
    |> when (negb (Rational_Equal (NetworkGlobals_OperatorAcceptThreshold v) new_Rational)) (writeValue 1
       (Rational_MarshalBinary (NetworkGlobals_OperatorAcceptThreshold v)))
    |> when (negb (Rational_Equal (NetworkGlobals_ValidatorAcceptThreshold v) new_Rational)) (writeValue 2
       (Rational_MarshalBinary (NetworkGlobals_ValidatorAcceptThreshold v)))
    |> when (negb (String.eqb (NetworkGlobals_MajorBlockSchedule v) "")) (WriteString 3
       (NetworkGlobals_MajorBlockSchedule v))
    |> when (negb (negb (NetworkGlobals_AnchorEmptyBlocks v))) (WriteBool 4 (NetworkGlobals_AnchorEmptyBlocks v))
    |> when (negb (is_nil (NetworkGlobals_FeeSchedule v))) (deref (NetworkGlobals_FeeSchedule v) (fun v =>
       writeValue 5 (FeeSchedule_MarshalBinary v)))).

Definition NetworkGlobals_UnmarshalBinary (v : NetworkGlobals) (data : bytes) : res NetworkGlobals :=
  let reader := NewReader data in
  let '(xOperatorAcceptThreshold, reader) := readValue 1 (Rational_UnmarshalBinary new_Rational) reader in
  let '(xValidatorAcceptThreshold, reader) := readValue 2 (Rational_UnmarshalBinary new_Rational) reader in
  let '(xMajorBlockSchedule, reader) := ReadString 3 reader in
  let '(xAnchorEmptyBlocks, reader) := ReadBool 4 reader in
  let '(xFeeSchedule, reader) := readValue 5 (FeeSchedule_UnmarshalBinary new_FeeSchedule) reader in
  finish_read (Build_NetworkGlobals (default (NetworkGlobals_OperatorAcceptThreshold v) xOperatorAcceptThreshold)
    (default (NetworkGlobals_ValidatorAcceptThreshold v) xValidatorAcceptThreshold) (default
    (NetworkGlobals_MajorBlockSchedule v) xMajorBlockSchedule) (default (NetworkGlobals_AnchorEmptyBlocks v)
    xAnchorEmptyBlocks) (or_else xFeeSchedule (NetworkGlobals_FeeSchedule v))) reader.

Definition NetworkGlobals_ok (v : NetworkGlobals) : Prop :=
  Rational_ok (NetworkGlobals_OperatorAcceptThreshold v) /\ fits (Rational_MarshalBinary
  (NetworkGlobals_OperatorAcceptThreshold v)) /\ Rational_ok (NetworkGlobals_ValidatorAcceptThreshold v) /\ fits
  (Rational_MarshalBinary (NetworkGlobals_ValidatorAcceptThreshold v)) /\ string_ok
  (NetworkGlobals_MajorBlockSchedule v) /\ (forall x, NetworkGlobals_FeeSchedule v = Some x -> FeeSchedule_ok x) /\
  (forall x, NetworkGlobals_FeeSchedule v = Some x -> fits (FeeSchedule_MarshalBinary x)) /\
  NetworkGlobals_extraData v = [].

Lemma NetworkGlobals_survives (v : NetworkGlobals) :
  NetworkGlobals_ok v -> survives NetworkGlobals_MarshalBinary (NetworkGlobals_UnmarshalBinary new_NetworkGlobals)
    v.
Proof. wire_roundtrip. Qed.
#[export] Hint Resolve NetworkGlobals_survives : wire.
Lemma NetworkGlobals_copied (v : NetworkGlobals) : NetworkGlobals_ok v -> NetworkGlobals_Copy v = v.
Proof. wire_copy. Qed.
#[export] Hint Resolve NetworkGlobals_copied : copies.

Record Route := { Route_Length : Z; Route_Value : Z; Route_Partition : string; Route_extraData : bytes }.
Definition new_Route : Route := Build_Route 0 0 "" [].

Definition Route_Copy (v : Route) : Route := Build_Route (Route_Length v) (Route_Value v) (Route_Partition v) [].

Definition Route_MarshalBinary (v : Route) : res bytes :=
  finish (Route_extraData v) (
    NewWriter
    |> when (negb (Route_Length v =? 0)) (WriteUint 1 (Route_Length v))
    |> when (negb (Route_Value v =? 0)) (WriteUint 2 (Route_Value v))
    |> when (negb (String.eqb (Route_Partition v) "")) (WriteString 3 (Route_Partition v))).

Definition Route_UnmarshalBinary (v : Route) (data : bytes) : res Route :=
  let reader := NewReader data in
  let '(xLength, reader) := ReadUint 1 reader in
  let '(xValue, reader) := ReadUint 2 reader in
  let '(xPartition, reader) := ReadString 3 reader in
  finish_read (Build_Route (default (Route_Length v) xLength) (default (Route_Value v) xValue) (default
    (Route_Partition v) xPartition)) reader.

Definition Route_ok (v : Route) : Prop :=
  is_u64 (Route_Length v) /\ is_u64 (Route_Value v) /\ string_ok (Route_Partition v) /\ Route_extraData v = [].

Lemma Route_survives (v : Route) :
  Route_ok v -> survives Route_MarshalBinary (Route_UnmarshalBinary new_Route) v.
Proof. wire_roundtrip. Qed.
#[export] Hint Resolve Route_survives : wire.
Lemma Route_copied (v : Route) : Route_ok v -> Route_Copy v = v.
Proof. wire_copy. Qed.
#[export] Hint Resolve Route_copied : copies.

Record RouteOverride := { RouteOverride_Account : option URL; RouteOverride_Partition : string;
  RouteOverride_extraData : bytes }.
Definition new_RouteOverride : RouteOverride := Build_RouteOverride None "" [].

Definition RouteOverride_Copy (v : RouteOverride) : RouteOverride := Build_RouteOverride (RouteOverride_Account v)
  (RouteOverride_Partition v) [].

Definition RouteOverride_MarshalBinary (v : RouteOverride) : res bytes :=
  finish (RouteOverride_extraData v) (
    NewWriter
    |> when (negb (is_nil (RouteOverride_Account v))) (writeUrl 1 (RouteOverride_Account v))
    |> when (negb (String.eqb (RouteOverride_Partition v) "")) (WriteString 2 (RouteOverride_Partition v))).

Definition RouteOverride_UnmarshalBinary (v : RouteOverride) (data : bytes) : res RouteOverride :=
  let reader := NewReader data in
  let '(xAccount, reader) := readUrl 1 reader in
  let '(xPartition, reader) := ReadString 2 reader in
  finish_read (Build_RouteOverride (default (RouteOverride_Account v) xAccount) (default (RouteOverride_Partition v)
    xPartition)) reader.

Definition RouteOverride_ok (v : RouteOverride) : Prop :=
  url_ok (RouteOverride_Account v) /\ string_ok (RouteOverride_Partition v) /\ RouteOverride_extraData v = [].

Lemma RouteOverride_survives (v : RouteOverride) :
  RouteOverride_ok v -> survives RouteOverride_MarshalBinary (RouteOverride_UnmarshalBinary new_RouteOverride) v.
Proof. wire_roundtrip. Qed.
#[export] Hint Resolve RouteOverride_survives : wire.
Lemma RouteOverride_copied (v : RouteOverride) : RouteOverride_ok v -> RouteOverride_Copy v = v.
Proof. wire_copy. Qed.
#[export] Hint Resolve RouteOverride_copied : copies.

Record RoutingTable := { RoutingTable_Overrides : list RouteOverride; RoutingTable_Routes : list Route;
  RoutingTable_extraData : bytes }.
Definition new_RoutingTable : RoutingTable := Build_RoutingTable [] [] [].

Definition RoutingTable_Copy (v : RoutingTable) : RoutingTable := Build_RoutingTable (RouteOverride_Copy <$>
  RoutingTable_Overrides v) (Route_Copy <$> RoutingTable_Routes v) [].

Definition RoutingTable_MarshalBinary (v : RoutingTable) : res bytes :=
  finish (RoutingTable_extraData v) (
    NewWriter
    |> when (negb (is_empty (RoutingTable_Overrides v))) (range (RoutingTable_Overrides v) (fun v => writeValue 1
       (RouteOverride_MarshalBinary v)))
    |> when (negb (is_empty (RoutingTable_Routes v))) (range (RoutingTable_Routes v) (fun v => writeValue 2
       (Route_MarshalBinary v)))).

Definition RoutingTable_UnmarshalBinary (v : RoutingTable) (data : bytes) : res RoutingTable :=
  let reader := NewReader data in
  let '(xOverrides, reader) := read_list (readValue 1 (RouteOverride_UnmarshalBinary new_RouteOverride)) reader in
  let '(xRoutes, reader) := read_list (readValue 2 (Route_UnmarshalBinary new_Route)) reader in
  finish_read (Build_RoutingTable (RoutingTable_Overrides v ++ xOverrides) (RoutingTable_Routes v ++ xRoutes))
    reader.

Definition RoutingTable_ok (v : RoutingTable) : Prop :=
  (forall x, x ∈ RoutingTable_Overrides v -> RouteOverride_ok x) /\ (forall x, x ∈ RoutingTable_Overrides v -> fits
  (RouteOverride_MarshalBinary x)) /\ (forall x, x ∈ RoutingTable_Routes v -> Route_ok x) /\ (forall x, x ∈
  RoutingTable_Routes v -> fits (Route_MarshalBinary x)) /\ RoutingTable_extraData v = [].

Lemma RoutingTable_survives (v : RoutingTable) :
  RoutingTable_ok v -> survives RoutingTable_MarshalBinary (RoutingTable_UnmarshalBinary new_RoutingTable) v.
Proof. wire_roundtrip. Qed.
#[export] Hint Resolve RoutingTable_survives : wire.
Lemma RoutingTable_copied (v : RoutingTable) : RoutingTable_ok v -> RoutingTable_Copy v = v.
Proof. wire_copy. Qed.
#[export] Hint Resolve RoutingTable_copied : copies.

Record SyntheticOrigin := { SyntheticOrigin_Cause : option TxID; SyntheticOrigin_Initiator : option URL;
  SyntheticOrigin_FeeRefund : Z; SyntheticOrigin_extraData : bytes }.
Definition new_SyntheticOrigin : SyntheticOrigin := Build_SyntheticOrigin None None 0 [].

Definition SyntheticOrigin_Copy (v : SyntheticOrigin) : SyntheticOrigin := Build_SyntheticOrigin
  (SyntheticOrigin_Cause v) (SyntheticOrigin_Initiator v) (SyntheticOrigin_FeeRefund v) [].

Definition SyntheticOrigin_MarshalBinary (v : SyntheticOrigin) : res bytes :=
  finish (SyntheticOrigin_extraData v) (
    NewWriter
    |> when (negb (is_nil (SyntheticOrigin_Cause v))) (writeTxid 1 (SyntheticOrigin_Cause v))
    |> when (negb (is_nil (SyntheticOrigin_Initiator v))) (writeUrl 3 (SyntheticOrigin_Initiator v))
    |> when (negb (SyntheticOrigin_FeeRefund v =? 0)) (WriteUint 4 (SyntheticOrigin_FeeRefund v))).

Definition SyntheticOrigin_UnmarshalBinary (v : SyntheticOrigin) (data : bytes) : res SyntheticOrigin :=
  let reader := NewReader data in
  let '(xCause, reader) := readTxid 1 reader in
  let '(xInitiator, reader) := readUrl 3 reader in
  let '(xFeeRefund, reader) := ReadUint 4 reader in
  finish_read (Build_SyntheticOrigin (default (SyntheticOrigin_Cause v) xCause) (default (SyntheticOrigin_Initiator
    v) xInitiator) (default (SyntheticOrigin_FeeRefund v) xFeeRefund)) reader.

Definition SyntheticOrigin_ok (v : SyntheticOrigin) : Prop :=
  txid_ok (SyntheticOrigin_Cause v) /\ url_ok (SyntheticOrigin_Initiator v) /\ is_u64 (SyntheticOrigin_FeeRefund v)
  /\ SyntheticOrigin_extraData v = [].

Lemma SyntheticOrigin_survives (v : SyntheticOrigin) :
  SyntheticOrigin_ok v -> survives SyntheticOrigin_MarshalBinary (SyntheticOrigin_UnmarshalBinary
    new_SyntheticOrigin) v.
Proof. wire_roundtrip. Qed.
#[export] Hint Resolve SyntheticOrigin_survives : wire.
Lemma SyntheticOrigin_copied (v : SyntheticOrigin) : SyntheticOrigin_ok v -> SyntheticOrigin_Copy v = v.
Proof. wire_copy. Qed.
#[export] Hint Resolve SyntheticOrigin_copied : copies.

Record TxIdSet := { TxIdSet_Entries : list (option TxID); TxIdSet_extraData : bytes }.
Definition new_TxIdSet : TxIdSet := Build_TxIdSet [] [].

Definition TxIdSet_Copy (v : TxIdSet) : TxIdSet := Build_TxIdSet (TxIdSet_Entries v) [].

Definition TxIdSet_MarshalBinary (v : TxIdSet) : res bytes :=
  finish (TxIdSet_extraData v) (
    NewWriter
    |> when (negb (is_empty (TxIdSet_Entries v))) (range (TxIdSet_Entries v) (fun v => writeTxid 1 v))).

Definition TxIdSet_UnmarshalBinary (v : TxIdSet) (data : bytes) : res TxIdSet :=
  let reader := NewReader data in
  let '(xEntries, reader) := read_list (readTxid 1) reader in
  finish_read (Build_TxIdSet (TxIdSet_Entries v ++ xEntries)) reader.

Definition TxIdSet_ok (v : TxIdSet) : Prop :=
  (forall x, x ∈ TxIdSet_Entries v -> txid_ok x) /\ TxIdSet_extraData v = [].

Lemma TxIdSet_survives (v : TxIdSet) :
  TxIdSet_ok v -> survives TxIdSet_MarshalBinary (TxIdSet_UnmarshalBinary new_TxIdSet) v.
Proof. wire_roundtrip. Qed.
#[export] Hint Resolve TxIdSet_survives : wire.
Lemma TxIdSet_copied (v : TxIdSet) : TxIdSet_ok v -> TxIdSet_Copy v = v.
Proof. wire_copy. Qed.
#[export] Hint Resolve TxIdSet_copied : copies.
