(* ===== verification/Globals.v ===== *)
(** * The network's parameters: [internal/core/globals.go]

    The price of ACME, the network globals, the network definition and the routing table,
    each the one record of the entry of a data account, in the binary format of its type.
    The values are there: [Load] has been called. *)

From S2P Require Import Prelude Encoding Codec Wire TypesGeneral.
From S2P Require Import Sha256 DataEntry Url UrlProofs Accounts AdiUrl KeyPages StateManager.
Local Open Scope Z_scope.
Import Url.

Record GlobalValues := mkGlobalValues {
  gv_Oracle : AcmeOracle; gv_Globals : NetworkGlobals; gv_Network : NetworkDefinition; gv_Routing : RoutingTable }.

Definition set_Oracle (v : AcmeOracle) (g : GlobalValues) : GlobalValues :=
  mkGlobalValues v (gv_Globals g) (gv_Network g) (gv_Routing g).
Definition set_Globals (v : NetworkGlobals) (g : GlobalValues) : GlobalValues :=
  mkGlobalValues (gv_Oracle g) v (gv_Network g) (gv_Routing g).
Definition set_Network (v : NetworkDefinition) (g : GlobalValues) : GlobalValues :=
  mkGlobalValues (gv_Oracle g) (gv_Globals g) v (gv_Routing g).
Definition set_Routing (v : RoutingTable) (g : GlobalValues) : GlobalValues :=
  mkGlobalValues (gv_Oracle g) (gv_Globals g) (gv_Network g) v.

(** ** Parsing and formatting *)

Definition parseEntryAs {T} (unmarshal : bytes -> res T) (entry : option DataEntry) : res T :=
  match entry with
  | None => errors_new StatusBadRequest "entry is missing"
  | Some e =>
      match GetData e with
      | [data] =>
          match unmarshal data with
          | Err e => errors_new StatusBadRequest (err_msg e)
          | r => r
          end
      | _ => errors_new StatusBadRequest "want 1 record"
      end
  end.

Definition formatEntry (m : res bytes) : res DataEntry :=
  match m with
  | Ok data => Ok (AccumulateDataEntry [data])
  | Err e => Panic (err_msg e)
  | Panic s => Panic s
  end.

(** [parseEntryAs] into a field: the field is not changed when there is an error. *)
Definition parse_into {T} (r : res T) (set : T -> GlobalValues -> GlobalValues) (g : GlobalValues) : GlobalValues * res unit :=
  match r with
  | Ok v => (set v g, Ok tt)
  | Err e => (g, Err e)
  | Panic s => (g, Panic s)
  end.

Definition unmarshal_oracle : bytes -> res AcmeOracle := AcmeOracle_UnmarshalBinary new_AcmeOracle.
Definition unmarshal_globals : bytes -> res NetworkGlobals := NetworkGlobals_UnmarshalBinary new_NetworkGlobals.
Definition unmarshal_network : bytes -> res NetworkDefinition := NetworkDefinition_UnmarshalBinary new_NetworkDefinition.
Definition unmarshal_routing : bytes -> res RoutingTable := RoutingTable_UnmarshalBinary new_RoutingTable.

Definition ParseOracle (entry : option DataEntry) (g : GlobalValues) : GlobalValues * res unit :=
  parse_into (parseEntryAs unmarshal_oracle entry) set_Oracle g.
Definition ParseGlobals (entry : option DataEntry) (g : GlobalValues) : GlobalValues * res unit :=
  parse_into (parseEntryAs unmarshal_globals entry) set_Globals g.

(** The new definition is kept even when its version did not increase. *)
Definition ParseNetwork (entry : option DataEntry) (g : GlobalValues) : GlobalValues * res unit :=
  let version := NetworkDefinition_Version (gv_Network g) in
  let '(g, r) := parse_into (parseEntryAs unmarshal_network entry) set_Network g in
  (g, let! _ := r in
      if NetworkDefinition_Version (gv_Network g) <=? version then errors_new StatusBadRequest "version must increase" else Ok tt).
Definition ParseRouting (entry : option DataEntry) (g : GlobalValues) : GlobalValues * res unit :=
  parse_into (parseEntryAs unmarshal_routing entry) set_Routing g.

Definition FormatOracle (g : GlobalValues) : res DataEntry := formatEntry (AcmeOracle_MarshalBinary (gv_Oracle g)).
Definition FormatGlobals (g : GlobalValues) : res DataEntry := formatEntry (NetworkGlobals_MarshalBinary (gv_Globals g)).
Definition FormatNetwork (g : GlobalValues) : res DataEntry := formatEntry (NetworkDefinition_MarshalBinary (gv_Network g)).
Definition FormatRouting (g : GlobalValues) : res DataEntry := formatEntry (RoutingTable_MarshalBinary (gv_Routing g)).

(** ** Loading and storing

    [getState] and [putState] are those of a batch. *)

Definition loadAccount {T} (u : URL) (unmarshal : bytes -> res T) (b : Batch) : res T :=
  let! a := wrapf (GetState u b) "load" in
  match a with
  | ADataAccount _ _ entry => parseEntryAs unmarshal entry
  | _ => errors_new StatusUnknownError "load: wrong account type"
  end.

Definition storeAccount (u : URL) (entry : res DataEntry) (b : Batch) : res Batch :=
  match GetState u b with
  | Ok (ADataAccount v auth _) =>
      let! e := entry in
      match PutState u (ADataAccount v auth (Some e)) b with
      | Err e => errors_new StatusBadRequest (err_msg e)
      | r => r
      end
  | Ok _ => errors_new StatusBadRequest "load: wrong account type"
  | Err e => errors_new StatusBadRequest (err_msg e)
  | Panic s => Panic s
  end.

Definition oracle_path : bytes := str "oracle".
Definition globals_path : bytes := str "globals".
Definition network_path : bytes := str "network".
Definition routing_path : bytes := str "routing".

Definition Load (net : URL) (b : Batch) : res GlobalValues :=
  let! oracle := loadAccount (JoinPath [oracle_path] net) unmarshal_oracle b in
  let! globals := loadAccount (JoinPath [globals_path] net) unmarshal_globals b in
  let! network := loadAccount (JoinPath [network_path] net) unmarshal_network b in
  let! routing := loadAccount (JoinPath [routing_path] net) unmarshal_routing b in
  Ok (mkGlobalValues oracle globals network routing).

(** With the [getState] and [putState] of a batch, and all four values set: the code skips
    the network definition when it is nil, which happens only while genesis is built. *)
Definition Store (net : URL) (g : GlobalValues) (b : Batch) : res Batch :=
  let! b := storeAccount (JoinPath [oracle_path] net) (FormatOracle g) b in
  let! b := storeAccount (JoinPath [globals_path] net) (FormatGlobals g) b in
  let! b := storeAccount (JoinPath [network_path] net) (FormatNetwork g) b in
  storeAccount (JoinPath [routing_path] net) (FormatRouting g) b.

(** ** Properties *)

Definition values_ok (g : GlobalValues) : Prop :=
  AcmeOracle_ok (gv_Oracle g) /\ NetworkGlobals_ok (gv_Globals g) /\ NetworkDefinition_ok (gv_Network g) /\
  RoutingTable_ok (gv_Routing g).

Lemma format_parse {T} (m : T -> res bytes) u x : survives m u x ->
  exists e, formatEntry (m x) = Ok e /\ parseEntryAs u (Some e) = Ok x.
Proof. intros (b & -> & Hu). exists (AccumulateDataEntry [b]). split; [done|]. cbn. by rewrite Hu. Qed.

(** The account of a parameter: a data account with authorities, under its own URL. *)
Definition parameter_account (u : URL) (b : Batch) : Prop :=
  exists v auth e, GetState u b = Ok (ADataAccount v auth e) /\ Equal (Some u) (Some v) = true /\ Authorities auth <> [].

Lemma GetState_insert u v a b :
  GetState v (set_accounts (<[AccountID32 u := a]> (accounts b)) ({[AccountID32 u]} ∪ dirty b) b) =
  if decide (AccountID32 v = AccountID32 u) then Ok a else GetState v b.
Proof.
  unfold GetState. cbn [accounts set_accounts]. case_decide as E; [by rewrite E, lookup_insert_eq|].
  by rewrite lookup_insert_ne by congruence.
Qed.

(** Storing a value changes the entry of its account and no other account. *)
Lemma storeAccount_ok {T} u (m : T -> res bytes) unm x b :
  survives m unm x -> parameter_account u b ->
  exists b', storeAccount u (formatEntry (m x)) b = Ok b' /\ loadAccount u unm b' = Ok x /\
    (forall v, AccountID32 v <> AccountID32 u -> GetState v b' = GetState v b).
Proof.
  intros Hs (v & auth & e & Hg & Hv & Ha). destruct (format_parse m unm x Hs) as (e' & Ef & Ep).
  assert (Hp : PutState u (ADataAccount v auth (Some e')) b =
    Ok (set_accounts (<[AccountID32 u := ADataAccount v auth (Some e')]> (accounts b)) ({[AccountID32 u]} ∪ dirty b) b)).
  { unfold PutState. cbn [GetUrl GetAuth]. rewrite Hv. cbn [negb]. destruct auth as [[|]]; [done|done]. }
  eexists. unfold storeAccount. rewrite Hg, Ef. cbn [res_bind]. rewrite Hp. split; [done|]. split.
  - unfold loadAccount. rewrite GetState_insert, decide_True by done. cbn [wrapf res_bind]. exact Ep.
  - intros w Hw. by rewrite GetState_insert, decide_False.
Qed.

Definition parameter_urls (net : URL) : list URL := (fun p => JoinPath [p] net) <$> [oracle_path; globals_path; network_path; routing_path].

Lemma parameter_account_other u b b' :
  GetState u b' = GetState u b -> parameter_account u b -> parameter_account u b'.
Proof. unfold parameter_account. by intros ->. Qed.
Lemma loadAccount_other {T} u (unm : bytes -> res T) b b' :
  GetState u b' = GetState u b -> loadAccount u unm b' = loadAccount u unm b.
Proof. unfold loadAccount. by intros ->. Qed.

(** C20. The parameters of the network that are stored are those that are loaded:
    [Store] succeeds when the four accounts are there, and [Load] then returns the same
    values, field by field, as the partition that reads them will. *)
Theorem Store_Load (net : URL) (g : GlobalValues) (b : Batch) :
  values_ok g -> Forall (fun u => parameter_account u b) (parameter_urls net) ->
  NoDup (AccountID32 <$> parameter_urls net) ->
  exists b', Store net g b = Ok b' /\ Load net b' = Ok g /\
    forall u, AccountID32 u ∉ AccountID32 <$> parameter_urls net -> GetState u b' = GetState u b.
Proof.
  intros (H1 & H2 & H3 & H4). unfold parameter_urls, Store, Load. cbn [fmap list_fmap].
  set (u1 := JoinPath [oracle_path] net). set (u2 := JoinPath [globals_path] net).
  set (u3 := JoinPath [network_path] net). set (u4 := JoinPath [routing_path] net).
  rewrite !Forall_cons, !NoDup_cons, !not_elem_of_cons. intros (P1 & P2 & P3 & P4 & _) ((N12 & N13 & N14 & _) & (N23 & N24 & _) & (N34 & _) & _).
  destruct (storeAccount_ok u1 AcmeOracle_MarshalBinary unmarshal_oracle (gv_Oracle g) b) as (b1 & E1 & L1 & O1);
    [by apply AcmeOracle_survives|done|].
  destruct (storeAccount_ok u2 NetworkGlobals_MarshalBinary unmarshal_globals (gv_Globals g) b1) as (b2 & E2 & L2 & O2);
    [by apply NetworkGlobals_survives|eapply parameter_account_other; [|done]; apply O1; congruence|].
  destruct (storeAccount_ok u3 NetworkDefinition_MarshalBinary unmarshal_network (gv_Network g) b2) as (b3 & E3 & L3 & O3);
    [by apply NetworkDefinition_survives|eapply parameter_account_other; [|done]; rewrite O2, O1 by congruence; done|].
  destruct (storeAccount_ok u4 RoutingTable_MarshalBinary unmarshal_routing (gv_Routing g) b3) as (b4 & E4 & L4 & O4);
    [by apply RoutingTable_survives|eapply parameter_account_other; [|done]; rewrite O3, O2, O1 by congruence; done|].
  exists b4. unfold FormatOracle, FormatGlobals, FormatNetwork, FormatRouting. rewrite E1. cbn [res_bind]. rewrite E2. cbn [res_bind].
  rewrite E3. cbn [res_bind]. split; [done|]. split.
  - rewrite (loadAccount_other u1 _ b1 b4), L1 by (rewrite O4, O3, O2 by congruence; done). cbn [res_bind].
    rewrite (loadAccount_other u2 _ b2 b4), L2 by (rewrite O4, O3 by congruence; done). cbn [res_bind].
    rewrite (loadAccount_other u3 _ b3 b4), L3 by (rewrite O4 by congruence; done). cbn [res_bind]. rewrite L4. by destruct g.
  - intros u Hu. rewrite !not_elem_of_cons in Hu. destruct Hu as (? & ? & ? & ? & _). by rewrite O4, O3, O2, O1.
Qed.

(** ** The parameters of a network *)

Definition demo_dn : URL := DnUrl.
Definition demo_parameter (p : bytes) : Account :=
  ADataAccount (JoinPath [p] demo_dn) (mkAuth [mkAuthority (JoinPath [str "operators"] demo_dn) false]) None.
Definition demo_parameters : Batch :=
  mkBatch (list_to_map ((fun p => (AccountID32 (JoinPath [p] demo_dn), demo_parameter p)) <$> [oracle_path; globals_path; network_path; routing_path]))
    ∅ ∅ ∅ ∅ ∅.
Definition demo_global_values : GlobalValues :=
  mkGlobalValues (Build_AcmeOracle 500 [])
    (Build_NetworkGlobals (Build_Rational 2 3 []) (Build_Rational 2 3 []) "0 */12 * * *" true (Some (Build_FeeSchedule [4800; 2400] [])) [])
    (Build_NetworkDefinition "testnet" 7 [Build_PartitionInfo "Directory" 1 []]
       [Build_ValidatorInfo (replicate 32 Byte.x01) (replicate 32 Byte.x02) None [Build_ValidatorPartitionInfo "Directory" true []] []] [])
    (Build_RoutingTable [] [Build_Route 1 0 "BVN0" []; Build_Route 1 1 "BVN1" []] []).

Lemma demo_values_ok : values_ok demo_global_values.
Proof. split; [|split; [|split]]; wire_ok. Qed.

Lemma demo_parameter_accounts : Forall (fun u => parameter_account u demo_parameters) (parameter_urls demo_dn).
Proof.
  apply Forall_forall. intros u Hu. apply list_elem_of_fmap in Hu as (p & -> & Hp).
  exists (JoinPath [p] demo_dn), (mkAuth [mkAuthority (JoinPath [str "operators"] demo_dn) false]), None.
  apply list_elem_of_In in Hp. destruct Hp as [<-|[<-|[<-|[<-|[]]]]]; (split; [vm_compute; reflexivity|]); split; try done; vm_compute; reflexivity.
Qed.

Lemma Store_Load_witness :
  exists b, Store demo_dn demo_global_values demo_parameters = Ok b /\ Load demo_dn b = Ok demo_global_values.
Proof.
  destruct (Store_Load demo_dn demo_global_values demo_parameters demo_values_ok demo_parameter_accounts) as (b & E & E' & _).
  - apply (bool_decide_eq_true_1 (NoDup (AccountID32 <$> parameter_urls demo_dn))). vm_compute. reflexivity.
  - exists b. by split.
Defined.
