(* ===== verification/Process.v ===== *)
(** * Executing a transaction in a block: [internal/block/transaction.go],
      [network_accounts.go], [synthetic.go],
      [NewStateManager] and [LoadStateManager] of [internal/chain/state.go]

    What happens to a transaction that is ready: it is executed and its changes are
    committed, it may then still be refused as a change of the network's own accounts, and
    it produces transactions when it succeeds and refunds when it fails.  The transactions
    it produces are given their cause and their share of the refund. *)

From S2P Require Import Prelude Wire TypesGeneral.
From S2P Require Import Sha256 Encoding Codec MerkleState Receipt Hasher DataEntry SortUtil Url.
From S2P Require Import UrlProofs Accounts AdiUrl KeyPages StateManager Executors Creation Signatures Fees.
From S2P Require Import Globals.
Local Open Scope Z_scope.
Import Url TxID.

(** ** The executor *)

(** What the executor knows: its partition, and the parameters of the network, those in
    force and those that will be at the end of the block. *)
Record Env := mkEnv {
  e_PartitionId : bytes; e_NodeUrl : URL; e_Directory : bool; e_Ledger : URL; e_FaucetUrl : URL;
  e_majorBlock : option Z; e_dnAnchors : list bytes; e_Active : GlobalValues; e_Pending : GlobalValues }.

Definition set_Pending (g : GlobalValues) (x : Env) : Env :=
  mkEnv (e_PartitionId x) (e_NodeUrl x) (e_Directory x) (e_Ledger x) (e_FaucetUrl x) (e_majorBlock x) (e_dnAnchors x) (e_Active x) g.

(** [EndBlock]: the pending parameters come into force. *)
Definition activate (x : Env) : Env :=
  mkEnv (e_PartitionId x) (e_NodeUrl x) (e_Directory x) (e_Ledger x) (e_FaucetUrl x) (e_majorBlock x) (e_dnAnchors x) (e_Pending x) (e_Pending x).

(** A transaction as it is executed: its principal, hash and body, the size of its
    encoding, who initiated it and the signers of its status, how it initiated
    [UpdateKey], and whether it was pushed by the directory. *)
Record Delivery := mkDelivery {
  d_Principal : URL; d_Hash : bytes; d_Body : TransactionBody; d_size : Z; d_Initiator : option URL; d_Signers : list Signer;
  d_initkey : option Initiator; d_Pushed : bool }.

Definition new_state : ProcessTransactionState := mkPTS [] [] [].

Definition NewStateManager (x : Env) (b : Batch) (principal : option Account) (d : Delivery) : StateManager :=
  mkSM principal (d_Principal d) (TransactionType (d_Body d)) (d_Hash d) (AcmeOracle_Price (gv_Oracle (e_Active x))) (e_Ledger x) (e_majorBlock x) false ∅ b
    new_state (e_PartitionId x) (e_dnAnchors x) [].

(** The signer of a user transaction must exist, or be one of the remote signers. *)
Definition LoadStateManager (x : Env) (b : Batch) (principal : option Account) (d : Delivery) : res StateManager :=
  if negb (IsUser (TransactionType (d_Body d))) then Ok (NewStateManager x b principal d)
  else
    match d_Initiator d with
    | None => Panic "invalid memory address or nil pointer dereference"
    | Some init =>
        match GetState init b with
        | Ok a => match as_Signer a with Some _ => Ok (NewStateManager x b principal d) | None => errorf "load signer" end
        | Err e =>
            if negb (is_not_found e) then errorf "load signer"
            else if LocalTo (d_Principal d) init then errorf "load signer"
            else
              let! s := status_GetSigner init (d_Signers d) in
              match s with
              | None => errorf "transaction signer set does not include the initiator"
              | Some _ => Ok (NewStateManager x b principal d)
              end
        | Panic s => Panic s
        end
    end.

Section Process.
Context `{UnicodeTables}.

Definition target_name (u : URL) : bytes := ToLower (Trim (Path u) slash).

(** What a change of a network account does to the pending parameters, and the name
    under which it is written to the ledger.  [u] is the URL of the principal, [current]
    its contents after the execution. *)
Definition check_update (x : Env) (u : URL) (current : option Account) (body : TransactionBody) : Env * res (option bytes) :=
  let name := target_name u in
  match body with
  | UpdateKeyPage _ =>
      (x, if bytes_eqb name (str "operators/1") then
            match current with
            | Some (AKeyPage page) =>
                let r := NetworkGlobals_OperatorAcceptThreshold (gv_Globals (e_Active x)) in
                if negb (AcceptThreshold page =? Threshold (zlen (Keys page)) (Rational_Numerator r) (Rational_Denominator r)) then
                  errors_new StatusBadRequest "incorrect accept threshold"
                else Ok (Some (str "operators"))
            | _ => errors_new StatusInternalError "not a key page"
            end
          else Ok (Some name))
  | UpdateAccountAuth _ => (x, errors_new StatusBadRequest "the authority set of a network account cannot be updated")
  | WriteData entry _ writeToState =>
      let parse :=
        if bytes_eqb name (str "oracle") then Some (ParseOracle entry)
        else if bytes_eqb name (str "globals") then Some (ParseGlobals entry)
        else if bytes_eqb name (str "network") then Some (ParseNetwork entry)
        else if bytes_eqb name (str "routing") then Some (ParseRouting entry)
        else None in
      match parse with
      | Some p =>
          let '(g, r) := p (e_Pending x) in
          (set_Pending g x,
           let! _ := r in
           if negb writeToState then errors_new StatusBadRequest "must write to state" else Ok (Some name))
      | None =>
          (x, if bytes_eqb name (str "votes") || bytes_eqb name (str "evidence") then errors_new StatusBadRequest "cannot be updated directly"
              else Ok None)
      end
  | _ => (x, Ok (Some name))
  end.

(** [processNetworkAccountUpdates]: the update that is pushed to the other partitions is
    added to the pending updates of the ledger.  The executor changed the principal in
    place, from [principal] to [current]; no executor changes its URL. *)
Definition processNetworkAccountUpdates (x : Env) (d : Delivery) (principal current : option Account) (b : Batch)
    : Env * res (Batch * list (bytes * TransactionBody)) :=
  match principal with
  | None => (x, Ok (b, []))
  | Some a =>
      if negb (bool_decide (PrefixOf (e_NodeUrl x) (GetUrl a) = Some true)) || IsSystem (TransactionType (d_Body d)) then (x, Ok (b, []))
      else
        let '(x, r) := check_update x (GetUrl a) current (d_Body d) in
        (x, let! name := r in
            match name with
            | None => Ok (b, [])
            | Some name =>
                if negb (e_Directory x) then
                  if negb (d_Pushed d) then errors_new StatusBadRequest "cannot be updated directly" else Ok (b, [])
                else
                  let! l := wrapf (GetState (e_Ledger x) b) "load ledger" in
                  match as_SystemLedger l with
                  | None => errors_new StatusUnknownError "load ledger"
                  | Some _ => let! b := wrapf (PutState (e_Ledger x) l b) "store ledger" in Ok (b, [(name, d_Body d)])
                  end
            end)
  end.

(** ** Failure *)

(** The fees of identities by length, when there is a schedule. *)
Definition fee_schedule (g : GlobalValues) : option (list Z) :=
  FeeSchedule_CreateIdentitySliding <$> NetworkGlobals_FeeSchedule (gv_Globals g).


Definition synth_origin (body : TransactionBody) : option SyntheticOrigin :=
  match body with
  | SyntheticCreateIdentity o _ | SyntheticDepositTokens o _ _ _ _ | SyntheticDepositCredits o _ _ _
  | SyntheticBurnTokens o _ _ | SyntheticWriteData o _ => Some o
  | _ => None
  end.

Definition DidFail (body : TransactionBody) (s : ProcessTransactionState) : res ProcessTransactionState :=
  match body with
  | SyntheticDepositTokens _ _ _ _ _ => SyntheticDepositTokens_DidFail body s
  | SyntheticDepositCredits _ _ _ _ => SyntheticDepositCredits_DidFail body s
  | _ => Ok s
  end.

Definition credit_refund (amount : Z) : TransactionBody := SyntheticDepositCredits no_origin amount None false.

(** What [recordFailedTransaction] produces: the refund of a synthetic transaction, what
    the executor sends back, and the refund of a user's fee. *)
Definition failed_state (x : Env) (d : Delivery) : res ProcessTransactionState :=
  let s := match synth_origin (d_Body d) with
           | Some o => if 0 <? so_FeeRefund o then DidProduceTxn (so_Initiator o) (credit_refund (so_FeeRefund o)) new_state else new_state
           | None => new_state
           end in
  let! s := DidFail (d_Body d) s in
  match d_Initiator d with
  | None => Ok s
  | Some init =>
      if negb (IsUser (TransactionType (d_Body d))) then Ok s
      else
        let! paid := ComputeTransactionFee (fee_schedule (e_Active x)) (d_Principal d) (d_Body d) (d_size d) in
        if paid <=? FeeFailedMaximum then Ok s
        else Ok (DidProduceTxn (Some init) (credit_refund (u64 (paid - FeeFailedMaximum))) s)
  end.

(** ** Execution *)

Record Outcome := mkOutcome { o_env : Env; o_batch : Batch; o_failure : option error; o_state : ProcessTransactionState }.

Definition fail_with (x : Env) (b : Batch) (d : Delivery) (e : error) : res Outcome :=
  let! s := failed_state x d in Ok (mkOutcome x b (Some e) s).

(** [ProcessTransaction] once the transaction is ready.  The state manager works on a
    batch of its own, which is committed to [b]; the check of the network's accounts comes
    after that. *)
Definition ProcessTransaction (x : Env) (b : Batch) (d : Delivery) : res Outcome :=
  let principal := accounts b !! AccountID32 (d_Principal d) in
  match LoadStateManager x b principal d with
  | Panic s => Panic s
  | Err e => fail_with x b d e
  | Ok st =>
      match Execute (e_FaucetUrl x) (d_initkey d) (d_Body d) st with
      | Panic s => Panic s
      | Err e => fail_with x b d e
      | Ok st =>
          match Commit st with
          | Panic s => Panic s
          | Err e => fail_with x b d e
          | Ok (b, s) =>
              match processNetworkAccountUpdates x d principal (Origin st) b with
              | (x, Panic m) => Panic m
              | (x, Err e) => fail_with x b d e
              | (x, Ok (b, _)) => Ok (mkOutcome x b None s)
              end
          end
      end
  end.

(** ** The transactions produced *)

Definition set_synth_origin (o : SyntheticOrigin) (body : TransactionBody) : TransactionBody :=
  match body with
  | SyntheticCreateIdentity _ l => SyntheticCreateIdentity o l
  | SyntheticDepositTokens _ t a i r => SyntheticDepositTokens o t a i r
  | SyntheticDepositCredits _ a f r => SyntheticDepositCredits o a f r
  | SyntheticBurnTokens _ a r => SyntheticBurnTokens o a r
  | SyntheticWriteData _ e => SyntheticWriteData o e
  | _ => body
  end.

Definition setSyntheticOrigin (x : Env) (d : Delivery) (produced : list (option URL * TransactionBody)) : res (list (option URL * TransactionBody)) :=
  let n := zlen (filter (fun p => is_Some (synth_origin (snd p))) produced) in
  if n =? 0 then Ok produced
  else
    let! refund := ComputeSyntheticRefund (fee_schedule (e_Active x)) (d_Principal d) (d_Body d) (d_size d) n in
    let o := mkOrigin (Some (mkTxID (d_Principal d) (d_Hash d))) (d_Initiator d) refund in
    Ok ((fun p => (fst p, set_synth_origin o (snd p))) <$> produced).

End Process.
