(* ===== verification/ProcessProofs.v ===== *)
(** * Tokens and accounts across the network

    Executing a transaction keeps the accounts well formed and never creates tokens: what
    the accounts of all partitions hold, with what the transactions under way carry, never
    grows beyond what was issued.  The one exception the code has is proved too: a change
    of a network account that is refused after it was committed. *)

From stdpp Require Import sorting.
From S2P Require Import Prelude Wire TypesGeneral.
From S2P Require Import Sha256 Encoding Codec MerkleState Receipt Hasher DataEntry SortUtil Url.
From S2P Require Import UrlProofs Accounts AccountsProofs AdiUrl KeyPages KeyPagesProofs StateManager.
From S2P Require Import Executors ExecutorProofs Creation WellFormed ExecuteInv Signatures Fees.
From S2P Require Import Globals Process.
Local Open Scope Z_scope.
Import Url TxID.

Tactic Notation "step" hyp(H) simple_intropattern(x) simple_intropattern(Hx) :=
  apply res_bind_Ok in H as (x & Hx & H).

Section Process.
Context `{UnicodeTables}.

(** What is assumed of a transaction's principal, and of the price of ACME. *)
Record executable (x : Env) (d : Delivery) : Prop := {
  ex_body : body_ok (d_Body d);
  ex_lite : forall k t, Lite.ParseLiteTokenAddress (d_Principal d) = Ok (Some (k, t)) -> url_ok t = true;
  ex_root : AccountID32 (RootIdentity (d_Principal d)) = AccountID32 (d_Principal d) -> IsRootIdentity (d_Principal d) = true;
  ex_oracle : 0 <= CreditUnitsPerFiatUnit * AcmeOracle_Price (gv_Oracle (e_Active x)) < 2 ^ 63
}.

Lemma NewStateManager_ready x b d :
  wf (accounts b) -> executable x d -> ready (NewStateManager x b (accounts b !! AccountID32 (d_Principal d)) d).
Proof. intros Hw []. split; try done. Qed.

Lemma LoadStateManager_Ok x b p d st : LoadStateManager x b p d = Ok st -> st = NewStateManager x b p d.
Proof.
  unfold LoadStateManager. destruct (negb _); [by intros [= <-]|]. destruct (d_Initiator d) as [u|]; [|done].
  destruct (GetState u b) as [a|e|]; [destruct (as_Signer a); [by intros [= <-]|done]| |done].
  destruct (negb _); [done|]. destruct (LocalTo _ _); [done|]. intros Hr. step Hr s Hs. destruct s; [by simplify_eq|done].
Qed.

(** Writing the ledger back changes no account. *)
Lemma processNetworkAccountUpdates_accounts x d p c b x' b' l :
  processNetworkAccountUpdates x d p c b = (x', Ok (b', l)) -> accounts b' = accounts b.
Proof.
  unfold processNetworkAccountUpdates. destruct p as [a|]; [|by intros [= <- <- <-]]. destruct (_ || _); [by intros [= <- <- <-]|].
  destruct (check_update _ _ _ _) as [x1 r]. intros [= <- Hr]. step Hr name _. destruct name as [n|]; [|by simplify_eq].
  destruct (negb (e_Directory x1)); [destruct (negb (d_Pushed d)); by simplify_eq|]. step Hr a' Ha. apply wrapf_Ok in Ha.
  destruct (as_SystemLedger a'); [|done]. step Hr b1 Hb. apply wrapf_Ok in Hb. simplify_eq.
  unfold GetState in Ha. destruct (accounts b !! _) eqn:E; simplify_eq. unfold PutState in Hb. destruct (negb _); [done|].
  destruct (GetAuth a') as [[[|]]|]; simplify_eq/=; by apply insert_id.
Qed.

(** The principal is not an account of the network itself. *)
Definition ordinary (x : Env) (b : Batch) (d : Delivery) : Prop :=
  forall a, accounts b !! AccountID32 (d_Principal d) = Some a -> PrefixOf (e_NodeUrl x) (GetUrl a) <> Some true.

Lemma ordinary_update x d c b : ordinary x b d -> forall b',
  processNetworkAccountUpdates x d (accounts b !! AccountID32 (d_Principal d)) c b' = (x, Ok (b', [])).
Proof.
  intros Ho b'. unfold processNetworkAccountUpdates. destruct (accounts b !! _) as [a|] eqn:E; [|done].
  rewrite bool_decide_false; [done|]. by apply Ho.
Qed.

(** The account the faucet pays from, if it is an account of tokens, holds ACME. *)
Definition faucet_ok (x : Env) (m : state) (b : TransactionBody) : Prop :=
  is_faucet b = true -> forall f, m !! AccountID32 (e_FaucetUrl x) = Some (ALiteTokenAccount f) -> AccountID32 (lta_TokenUrl f) = AccountID32 AcmeUrl.

(** *** Success *)

(** The execution and the commit of [body] took [m] to [m'] and produced [l]. *)
Record done_ok (x : Env) (d : Delivery) (m m' : state) (l : list (option URL * TransactionBody)) : Prop := {
  dn_wf : wf m';
  dn_evolves : evolves m m';
  dn_outputs : Forall (fun p => output_ok (d_Principal d) (snd p)) l;
  dn_tokens : faucet_ok x m (d_Body d) -> forall T, excess T m' + pend_all T l <= excess T m + pend T (Some (d_Principal d), d_Body d)
}.

Lemma Execute_tokens x init body st st' :
  Execute (e_FaucetUrl x) init body st = Ok st' -> body_ok body -> ready st -> faucet_ok x (acc st) body ->
  exists l, ProducedTxns (State st') = ProducedTxns (State st) ++ l /\
    forall T, excess T (acc st') + pend_all T l <= excess T (acc st) + pend T (Some (OriginUrl st), body).
Proof.
  intros HE Hb Hr Hf. destruct (is_faucet body) eqn:Ef.
  - destruct body; try done. destruct (AcmeFaucet_tokens _ _ _ _ HE Hr (Hf Ef)) as (l & Hp & Ht).
    exists l. split; [exact Hp|]. intros T. specialize (Ht T). unfold pend. cbn [snd]. lia.
  - destruct (Execute_post _ _ _ _ _ HE Hb Hr) as [_ _ (l & Hp & _ & Ht) _]. exists l. auto.
Qed.

Lemma Execute_Commit_ok x b d st st' b' s :
  wf (accounts b) -> executable x d -> LoadStateManager x b (accounts b !! AccountID32 (d_Principal d)) d = Ok st ->
  Execute (e_FaucetUrl x) (d_initkey d) (d_Body d) st = Ok st' -> Commit st' = Ok (b', s) ->
  done_ok x d (accounts b) (accounts b') (ProducedTxns s).
Proof.
  intros Hw Hx ->%LoadStateManager_Ok HE HC. pose proof (NewStateManager_ready x b d Hw Hx) as Hr.
  pose proof (Execute_tokens _ _ _ _ _ HE (ex_body _ _ Hx) Hr) as Ht.
  apply Execute_post in HE as [P1 P2 (l & P3 & P4 & _) P6]; [|apply Hx|done].
  apply Commit_fine in HC as [(F1 & F2 & F3) Es]; [|done|done].
  assert (El : ProducedTxns s = l) by (rewrite Es, P3; done). rewrite El. split; [done|by eapply evolves_trans|done|].
  intros Hf T. destruct (Ht Hf) as (l' & P5 & P7). rewrite P3 in P5. apply (inj _) in P5 as <-.
  specialize (P7 T). specialize (F3 T). unfold none in F3. unfold acc in *. cbn in *. lia.
Qed.

(** *** Failure *)

(** A deposit of issued tokens names its issuer as the cause. *)
Definition cause_ok (b : TransactionBody) : Prop :=
  match b with
  | SyntheticDepositTokens o t _ true false => exists c, so_Cause o = Some c /\ AccountID32 (url c) = AccountID32 t
  | _ => True
  end.

Definition unissued (b : TransactionBody) : Prop := match b with SyntheticDepositTokens _ _ _ true _ => False | _ => True end.

Lemma pend_nonneg T u b : body_ok b -> 0 <= pend T (u, b).
Proof.
  unfold pend. destruct b; cbn [snd fst body_ok]; intros Hb; try apply Z.le_refl.
  - case_decide; lia.
  - destruct AcmeRefundAmount; [|apply Z.le_refl]. case_decide; lia.
  - destruct u; [|apply Z.le_refl]. case_decide; lia.
Qed.

Lemma pend_all_app T l k : pend_all T (l ++ k) = pend_all T l + pend_all T k.
Proof. induction l as [|p l IH]; [done|]. cbn [app pend_all foldr]. unfold pend_all in IH. rewrite IH. unfold pend_all. lia. Qed.

(** Transactions a failure may produce, which carry at most what [p] did. *)
Definition returns (p : option URL * TransactionBody) (l : list (option URL * TransactionBody)) : Prop :=
  Forall (fun q => body_ok (snd q) /\ unissued (snd q)) l /\ forall T, pend_all T l <= pend T p.

(** Refunds of fees carry no tokens. *)
Lemma returns_refund p l u n : returns p l -> returns p (l ++ [(u, credit_refund n)]).
Proof.
  intros [HF Hp]. split; [apply Forall_app; split; [done|by apply Forall_singleton]|].
  intros T. rewrite pend_all_app. specialize (Hp T). unfold pend_all, pend in *. cbn [foldr snd credit_refund]. lia.
Qed.

Lemma returns_one p q : body_ok (snd q) -> unissued (snd q) -> (forall T, pend T q <= pend T p) -> returns p [q].
Proof. intros Hb Hu Hp. split; [by apply Forall_singleton|]. intros T. specialize (Hp T). unfold pend_all. cbn. lia. Qed.

Lemma returns_none p : body_ok (snd p) -> returns p [].
Proof. intros Hb. split; [constructor|]. intros T. destruct p as [u b]. by apply pend_nonneg. Qed.

(** What the executor sends back. *)
Lemma DidFail_returns u body s s' :
  DidFail body s = Ok s' -> body_ok body -> cause_ok body ->
  exists l, ProducedTxns s' = ProducedTxns s ++ l /\ returns (u, body) l.
Proof.
  intros HD Hb Hc. assert (Hnone : s' = s -> exists l, ProducedTxns s' = ProducedTxns s ++ l /\ returns (u, body) l).
  { intros ->. exists []. split; [by rewrite app_nil_r|by apply returns_none]. }
  destruct body as [| | | | | | |o t a i r|o c f r|o a r| | | | | | | | | | | | | |]; cbn [DidFail] in HD; try (apply Hnone; congruence).
  - cbn in HD. destruct r; [apply Hnone; congruence|]. destruct Hb as [Ht Ha]. step HD v Hv. unfold cause_account in Hv.
    destruct (so_Cause o) as [cz|] eqn:Eo; [|done]. simplify_eq. destruct i; simplify_eq/=; eexists; (split; [done|]); apply returns_one; try done.
    intros T. destruct Hc as (c & Ec & E). cbn in Ec. simplify_eq. unfold pend. cbn [snd fst]. by rewrite E.
  - cbn [SyntheticDepositCredits_DidFail] in HD. destruct f as [f|]; [destruct r|]; [by apply Hnone; injection HD| |by apply Hnone; injection HD].
    injection HD as <-. cbn [ProducedTxns DidProduceTxn].
    eexists. split; [done|]. apply returns_one; [split; [apply AcmeUrl_ok|exact Hb]|exact I|].
    intros T. unfold pend. cbn [snd]. apply Z.le_refl.
Qed.

Lemma failed_state_returns x d s :
  failed_state x d = Ok s -> body_ok (d_Body d) -> cause_ok (d_Body d) -> returns (Some (d_Principal d), d_Body d) (ProducedTxns s).
Proof.
  intros HF Hb Hc. unfold failed_state in HF. set (s0 := match synth_origin _ with Some o => _ | None => _ end) in HF.
  step HF s1 H1. apply (DidFail_returns (Some (d_Principal d))) in H1 as (l & El & HR); [|done..].
  assert (HR1 : returns (Some (d_Principal d), d_Body d) (ProducedTxns s1)).
  { rewrite El. assert (ProducedTxns s0 = [] \/ exists u n, ProducedTxns s0 = [(u, credit_refund n)]) as [->|(u & n & ->)].
    { subst s0. destruct (synth_origin _) as [o|]; [|by left]. destruct (0 <? _); [right; by do 2 eexists|by left]. }
    - done.
    - destruct HR as [HF' Hp]. split; [by apply Forall_cons|]. intros T. specialize (Hp T). unfold pend_all in *. cbn [foldr pend snd credit_refund app]. lia. }
  destruct (d_Initiator d) as [init|]; [|by simplify_eq]. destruct (negb _); [by simplify_eq|]. step HF paid _.
  destruct (paid <=? FeeFailedMaximum); [by simplify_eq|]. simplify_eq/=. by apply returns_refund.
Qed.

(** *** Both *)

(** A transaction succeeds; or it fails and what it carried is returned.  A failure
    leaves the accounts as they were, unless a change of a network account is refused. *)
Lemma ProcessTransaction_cases x b d o :
  ProcessTransaction x b d = Ok o -> wf (accounts b) -> executable x d -> cause_ok (d_Body d) ->
  (o_failure o = None /\ done_ok x d (accounts b) (accounts (o_batch o)) (ProducedTxns (o_state o))) \/
  (o_failure o <> None /\ returns (Some (d_Principal d), d_Body d) (ProducedTxns (o_state o)) /\
   (accounts (o_batch o) = accounts b \/ ~ ordinary x b d /\ exists l, done_ok x d (accounts b) (accounts (o_batch o)) l)).
Proof.
  intros HP Hw Hx Hc. assert (Hfail : forall x' b' e, fail_with x' b' d e = Ok o ->
    o_batch o = b' /\ o_failure o <> None /\ returns (Some (d_Principal d), d_Body d) (ProducedTxns (o_state o))).
  { intros x' b' e Hf. unfold fail_with in Hf. step Hf s Hs. simplify_eq/=. split; [done|]. split; [done|].
    eapply failed_state_returns; [done|apply Hx|done]. }
  assert (Hsame : forall x' e, fail_with x' b d e = Ok o -> o_failure o <> None /\ returns (Some (d_Principal d), d_Body d) (ProducedTxns (o_state o)) /\
    (accounts (o_batch o) = accounts b \/ ~ ordinary x b d /\ exists l, done_ok x d (accounts b) (accounts (o_batch o)) l)).
  { intros x' e Hf. destruct (Hfail _ _ _ Hf) as (-> & ? & ?). auto. }
  unfold ProcessTransaction in HP. destruct (LoadStateManager _ _ _ _) as [st|e|] eqn:HL; [|right; eauto|done].
  destruct (Execute _ _ _ _) as [st'|e|] eqn:HE; [|right; eauto|done].
  destruct (Commit st') as [[b' s]|e|] eqn:HC; [|right; eauto|done].
  pose proof (Execute_Commit_ok _ _ _ _ _ _ _ Hw Hx HL HE HC) as Hd.
  destruct (processNetworkAccountUpdates _ _ _ _ _) as [x' [[b'' ups]|e|]] eqn:HN; [|right|done].
  - left. simplify_eq/=. split; [done|]. by rewrite (processNetworkAccountUpdates_accounts _ _ _ _ _ _ _ _ HN).
  - destruct (Hfail _ _ _ HP) as (-> & Hf & Hr). split; [done|]. split; [done|]. right. split; [|eauto].
    intros Ho. by rewrite (ordinary_update _ _ _ _ Ho) in HN.
Qed.

(** C3. Executing a transaction, whether it succeeds or fails, keeps the accounts well
    formed: each is stored under its URL, with sorted authorities, balances that are not
    negative, an issuer below its supply limit, a page with its keys in order and a book
    with its pages.  Accounts are not deleted and keep their type and URL.  The conditions
    on the transaction are [executable], [body_ok] and [cause_ok]: the delegates that the
    operations of an [UpdateKeyPage] name are books and not pages (a delegate given as a
    page breaks the order of the keys, [updateKey_loses_entry]); the keys of a
    [CreateKeyPage] are not empty; the token URLs a body or a lite principal names are
    well formed; a [SyntheticCreateIdentity] creates its books with their pages; the
    amounts of deposits, burns and refunds are not negative; a deposit of issued tokens
    names its issuer as its cause; the principal's identifier does not collide with that
    of its root identity; and the price of ACME keeps the conversion rate within an
    int64.  Other bodies are unrestricted.  The transactions it produces satisfy the
    same condition on their bodies. *)
Theorem ProcessTransaction_wf x b d o :
  ProcessTransaction x b d = Ok o -> wf (accounts b) -> executable x d -> cause_ok (d_Body d) ->
  wf (accounts (o_batch o)) /\ evolves (accounts b) (accounts (o_batch o)) /\
  Forall (fun p => body_ok (snd p)) (ProducedTxns (o_state o)).
Proof.
  intros HP Hw Hx Hc. destruct (ProcessTransaction_cases _ _ _ _ HP Hw Hx Hc) as [(_ & [H1 H2 H3 _])|(_ & [HF _] & Hcase)].
  - split; [done|]. split; [done|]. eapply Forall_impl; [exact H3|]. by intros p [].
  - split_and!; [| |eapply Forall_impl; [exact HF|]; by intros p []].
    + destruct Hcase as [->|(_ & l & [])]; done.
    + destruct Hcase as [->|(_ & l & [])]; done.
Qed.

(** ** The network *)

(** The cause and the refund of a produced transaction do not change what it carries. *)
Lemma pend_set_origin T o p : pend T (fst p, set_synth_origin o (snd p)) = pend T p.
Proof. destruct p as [u []]; reflexivity. Qed.

Lemma pend_all_set_origin T o l : pend_all T ((fun p => (fst p, set_synth_origin o (snd p))) <$> l) = pend_all T l.
Proof. induction l as [|p l IH]; [done|]. rewrite fmap_cons. cbn [pend_all foldr]. rewrite pend_set_origin. unfold pend_all in IH. by rewrite IH. Qed.

Definition pending_ok (p : option URL * TransactionBody) : Prop := body_ok (snd p) /\ cause_ok (snd p).

Lemma setSyntheticOrigin_ok x d l l' :
  setSyntheticOrigin x d l = Ok l' -> Forall (fun p => output_ok (d_Principal d) (snd p)) l ->
  Forall pending_ok l' /\ forall T, pend_all T l' = pend_all T l.
Proof.
  unfold setSyntheticOrigin. intros HS HF. destruct (zlen _ =? 0) eqn:En.
  - simplify_eq. split; [|done]. apply Forall_forall. intros p Hp. rewrite Forall_forall in HF. specialize (HF p Hp) as [Hb _]. split; [done|].
    assert (Hn : ~ is_Some (synth_origin (snd p))).
    { intros Hs. assert (Hin : p ∈ filter (fun p => is_Some (synth_origin (snd p))) l') by (by apply list_elem_of_filter).
      revert Hin En. destruct (filter _ l'); [by intros ?%elem_of_nil|]. unfold zlen. cbn [length]. intros _ En%Z.eqb_eq. lia. }
    destruct p as [u []]; try exact I. exfalso. apply Hn. cbn. eauto.
  - step HS r _. simplify_eq. split; [|intros T; apply pend_all_set_origin]. apply Forall_fmap. eapply Forall_impl; [exact HF|].
    intros [u body] [Hb Hi]. cbn in Hb, Hi. split; [by destruct body|]. destruct body; try exact I. cbn in *.
    destruct IsIssuer; [|exact I]. destruct IsRefund; [exact I|]. eexists. split; [done|]. by symmetry.
Qed.

(** The partitions, and the transactions that were produced and not yet executed. *)
Record network := mkNet { parts : list Batch; pool : list (option URL * TransactionBody) }.

(** A user transaction is executed on a partition, or a pending one is, in any order,
    whether it succeeds or fails.  The parameters of the executor may change between
    steps.  A transaction on an account of the network itself must succeed: when such a
    change is refused the accounts keep it ([refused_credits_kept]). *)
Inductive net_step : network -> network -> Prop :=
  | step_user n i x b d o l :
      parts n !! i = Some b -> IsUser (TransactionType (d_Body d)) = true -> faucet_ok x (accounts b) (d_Body d) ->
      executable x d -> ProcessTransaction x b d = Ok o -> ordinary x b d \/ o_failure o = None ->
      setSyntheticOrigin x d (ProducedTxns (o_state o)) = Ok l ->
      net_step n (mkNet (<[i := o_batch o]> (parts n)) (pool n ++ l))
  | step_pending n i k x b d o l :
      parts n !! i = Some b -> pool n !! k = Some (Some (d_Principal d), d_Body d) -> IsUser (TransactionType (d_Body d)) = false ->
      executable x d -> ProcessTransaction x b d = Ok o -> ordinary x b d \/ o_failure o = None ->
      setSyntheticOrigin x d (ProducedTxns (o_state o)) = Ok l ->
      net_step n (mkNet (<[i := o_batch o]> (parts n)) (delete k (pool n) ++ l)).

Record net_ok (n : network) : Prop := {
  n_parts : Forall (fun b => wf (accounts b)) (parts n);
  n_pool : Forall pending_ok (pool n)
}.

(** All balances of a token less what was issued, with what is under way. *)
Definition holdings (T : bytes) (l : list Batch) : Z := foldr (fun b s => excess T (accounts b) + s) 0 l.
Definition outstanding (T : bytes) (n : network) : Z := holdings T (parts n) + pend_all T (pool n).

Lemma holdings_app T l k : holdings T (l ++ k) = holdings T l + holdings T k.
Proof. induction l as [|b l IH]; [done|]. cbn [app holdings foldr]. unfold holdings in IH. rewrite IH. unfold holdings. lia. Qed.

Lemma holdings_insert T l i b b' : l !! i = Some b -> holdings T (<[i := b']> l) = holdings T l - excess T (accounts b) + excess T (accounts b').
Proof.
  intros Hi. rewrite insert_take_drop by (by eapply lookup_lt_Some). rewrite <- (take_drop_middle l i b Hi) at 3.
  rewrite !holdings_app. unfold holdings. cbn [foldr]. lia.
Qed.

Lemma pend_all_delete T l k p : l !! k = Some p -> pend_all T (delete k l) = pend_all T l - pend T p.
Proof.
  intros Hk. rewrite <- (take_drop_middle l k p Hk) at 2. rewrite delete_take_drop, !pend_all_app. unfold pend_all. cbn. lia.
Qed.

Lemma user_pend T u b : IsUser (TransactionType b) = true -> pend T (u, b) = 0 /\ cause_ok b.
Proof. by destruct b. Qed.

Lemma unissued_output u (p : option URL * TransactionBody) : body_ok (snd p) /\ unissued (snd p) -> output_ok u (snd p).
Proof. intros [Hb Hu]. split; [done|]. destruct (snd p); try exact I. by destruct IsIssuer. Qed.

(** What one execution does to the totals. *)
Lemma execution_ok x b d o l :
  wf (accounts b) -> executable x d -> cause_ok (d_Body d) -> faucet_ok x (accounts b) (d_Body d) ->
  ProcessTransaction x b d = Ok o -> ordinary x b d \/ o_failure o = None -> setSyntheticOrigin x d (ProducedTxns (o_state o)) = Ok l ->
  wf (accounts (o_batch o)) /\ Forall pending_ok l /\
  forall T, excess T (accounts (o_batch o)) + pend_all T l <= excess T (accounts b) + pend T (Some (d_Principal d), d_Body d).
Proof.
  intros Hw Hx Hc Hf HP Ho HS. destruct (ProcessTransaction_cases _ _ _ _ HP Hw Hx Hc) as [(_ & [H1 H2 H3 H4])|(Hn & [HF Hp] & [E|[Hn' _]])]; [| |by destruct Ho].
  - destruct (setSyntheticOrigin_ok _ _ _ _ HS H3) as [Hl El]. split_and!; [done|done|]. intros T. rewrite El. by apply H4.
  - assert (Ho' : Forall (fun p => output_ok (d_Principal d) (snd p)) (ProducedTxns (o_state o))) by (eapply Forall_impl; [exact HF|]; intros p; apply unissued_output).
    destruct (setSyntheticOrigin_ok _ _ _ _ HS Ho') as [Hl El]. rewrite E. split_and!; [done|done|]. intros T. rewrite El. specialize (Hp T). lia.
Qed.

Lemma net_step_ok n n' : net_ok n -> net_step n n' -> net_ok n' /\ forall T, outstanding T n' <= outstanding T n.
Proof.
  intros [HP HQ] Hs. destruct Hs as [n i x b d o l Hi Hu Hf Hx HT Ho HS|n i k x b d o l Hi Hk Hu Hx HT Ho HS].
  - assert (Hw : wf (accounts b)) by (rewrite Forall_forall in HP; apply HP; by eapply list_elem_of_lookup_2).
    destruct (execution_ok x b d o l) as (H1 & H2 & H3); try done; [by apply (user_pend [] None)|].
    split; [split; cbn; [by apply Forall_insert|by apply Forall_app]|].
    intros T. unfold outstanding. cbn [parts pool]. rewrite (holdings_insert _ _ _ b), pend_all_app by done. specialize (H3 T).
    destruct (user_pend T (Some (d_Principal d)) (d_Body d) Hu) as [E _]. lia.
  - assert (Hw : wf (accounts b)) by (rewrite Forall_forall in HP; apply HP; by eapply list_elem_of_lookup_2).
    assert (Hpk : pending_ok (Some (d_Principal d), d_Body d)) by (rewrite Forall_forall in HQ; apply HQ; by eapply list_elem_of_lookup_2).
    destruct (execution_ok x b d o l) as (H1 & H2 & H3); try done; [apply Hpk|by intros Hf; destruct (d_Body d)|].
    split; [split; cbn; [by apply Forall_insert|apply Forall_app; split; [by apply Forall_delete|done]]|].
    intros T. unfold outstanding. cbn [parts pool]. rewrite (holdings_insert _ _ _ b), pend_all_app, (pend_all_delete _ _ _ _ Hk) by done. specialize (H3 T). lia.
Qed.

(** C1. Over a run of the network, with user transactions and the transactions they
    produce executed on any partition in any order and succeeding or failing, every
    partition stays well formed, and no tokens come into being: the balances of all
    partitions together with what the pending deposits, burns and refunds carry, less what
    the issuers record as issued, never grows.  The steps of a run ([net_step]) are those
    whose transaction meets the conditions of [executable] (those of
    [ProcessTransaction_wf] on the body, the principal and the price of ACME), whose
    faucet, if it is a faucet transaction, pays from an account that holds ACME, and which
    succeed when the principal is an account of the network itself.  The last condition
    cannot be dropped: the code keeps the change of such a transaction when it refuses it,
    and refunds what it carried ([refused_credits_kept]). *)
Theorem tokens_conserved n n' :
  rtc net_step n n' -> net_ok n -> net_ok n' /\ forall T, outstanding T n' <= outstanding T n.
Proof.
  induction 1 as [n|n1 n2 n3 Hs _ IH]; intros Hn; [split; [done|]; intros T; lia|].
  destruct (net_step_ok _ _ Hn Hs) as [Hn2 H2]. destruct (IH Hn2) as [Hn3 H3]. split; [done|].
  intros T. specialize (H2 T). specialize (H3 T). lia.
Qed.

End Process.

(** ** A run *)

Definition batch_of (l : list Account) : Batch := mkBatch (list_to_map ((fun a => (acc_id a, a)) <$> l)) ∅ ∅ ∅ ∅ ∅.

Lemma batch_of_wf l : Forall (fun a => wf_account a /\ AccountType a <> 10) l -> wf (accounts (batch_of l)).
Proof.
  intros HF. rewrite Forall_forall in HF.
  assert (Hl : forall id a, accounts (batch_of l) !! id = Some a -> id = acc_id a /\ wf_account a /\ AccountType a <> 10).
  { intros id a (a' & [= -> ->] & Ha)%elem_of_list_to_map_2%list_elem_of_fmap. split; [done|by apply HF]. }
  split.
  - intros id a Ha. by destruct (Hl id a Ha).
  - intros id a Ha. by destruct (Hl id a Ha) as (_ & ? & _).
  - intros id b Hb. by destruct (Hl id _ Hb) as (_ & _ & []).
Qed.

Definition signer_url : URL := mkURL [] (str "alice.acme") (str "/signer") [] [].
Definition bob_url : URL := mkURL [] (str "bob.acme") (str "/tokens") [] [].
Definition bob_account : Account := ATokenAccount (mkTokenAccount bob_url (mkAuth [mkAuthority (mkURL [] (str "bob.acme") (str "/book") [] []) false]) AcmeUrl 7).
Definition alice_batch : Batch := batch_of [demo_account; ALiteIdentity (mkLiteIdentity signer_url 1000 0)].
Definition bob_batch : Batch := batch_of [bob_account].

Definition demo_values : GlobalValues := 
  mkGlobalValues (Build_AcmeOracle 500 []) (Build_NetworkGlobals (Build_Rational 2 3 []) (Build_Rational 2 3 []) "" false None [])
    (Build_NetworkDefinition "" 1 [] [] []) (Build_RoutingTable [] [] []).
Definition demo_env : Env :=
  mkEnv (str "BVN0") (PartitionUrl (str "BVN0")) false (GetUrl demo_ledger) (mkURL [] (str "faucet") [] [] []) None [] demo_values demo_values.

Definition demo_send : Delivery :=
  mkDelivery (GetUrl demo_account) (key_hash Byte.x01) (SendTokens [mkRecipient (Some bob_url) 100]) 200 (Some signer_url) [] None false.

(** The outcome and the transactions it sends out. *)
Definition executed (b : Batch) (d : Delivery) : option (Batch * list (option URL * TransactionBody)) :=
  match @ProcessTransaction ascii_tables demo_env b d with
  | Ok o => match setSyntheticOrigin demo_env d (ProducedTxns (o_state o)) with Ok l => Some (o_batch o, l) | _ => None end
  | _ => None
  end.
Definition after (b : Batch) (d : Delivery) : Batch * list (option URL * TransactionBody) := default (b, []) (executed b d).

Definition demo_deposit : Delivery :=
  mkDelivery bob_url (key_hash Byte.x02)
    (SyntheticDepositTokens (mkOrigin (Some (mkTxID (GetUrl demo_account) (key_hash Byte.x01))) (Some signer_url) 100) AcmeUrl 100 false false) 200 None [] None false.

Definition demo_net : network := mkNet [alice_batch; bob_batch] [].
Definition sent_net : network := mkNet [fst (after alice_batch demo_send); bob_batch] (snd (after alice_batch demo_send)).
Definition settled_net : network :=
  mkNet [fst (after alice_batch demo_send); fst (after bob_batch demo_deposit)] (snd (after bob_batch demo_deposit)).

Lemma executed_Some b d r : executed b d = Some r ->
  exists o, @ProcessTransaction ascii_tables demo_env b d = Ok o /\ o_batch o = fst r /\
    setSyntheticOrigin demo_env d (ProducedTxns (o_state o)) = Ok (snd r).
Proof.
  unfold executed. destruct (ProcessTransaction _ _ _) as [o| |]; [|done..]. destruct (setSyntheticOrigin _ _ _) as [l| |] eqn:E; [|done..].
  intros [= <-]. by exists o.
Qed.

Lemma after_ok b d : bool_decide (is_Some (executed b d)) = true -> executed b d = Some (after b d).
Proof. unfold after. by intros [r ->]%bool_decide_eq_true. Qed.

Lemma demo_executable d :
  body_ok (d_Body d) -> (match Lite.ParseLiteTokenAddress (d_Principal d) with Ok (Some _) => false | _ => true end) = true ->
  bytes_eqb (AccountID32 (RootIdentity (d_Principal d))) (AccountID32 (d_Principal d)) = false -> executable demo_env d.
Proof.
  intros Hb Hl Hr. split; [done| | |by vm_compute].
  - intros k t E. by rewrite E in Hl.
  - intros E. rewrite E in Hr. by rewrite bytes_eqb_refl in Hr.
Qed.

Lemma demo_ordinary b d :
  (match accounts b !! AccountID32 (d_Principal d) with
   | Some a => bool_decide (PrefixOf (e_NodeUrl demo_env) (GetUrl a) = Some true) | None => false end) = false -> ordinary demo_env b d.
Proof. intros Hd a Ha. rewrite Ha in Hd. by apply bool_decide_eq_false in Hd. Qed.

Lemma alice_wf : wf (accounts alice_batch).
Proof.
  apply batch_of_wf. repeat apply Forall_cons_2; [| |apply Forall_nil_2]; (split; [|done]).
  - split; [|split; [done|by vm_compute]]. split; [|done]. apply SSorted_cons; [apply SSorted_nil|apply Forall_nil_2].
  - cbn. unfold is_u64. lia.
Qed.

Lemma bob_wf : wf (accounts bob_batch).
Proof.
  apply batch_of_wf. apply Forall_cons_2; [|apply Forall_nil_2]. split; [|done].
  split; [|split; [done|by vm_compute]]. split; [|done]. apply SSorted_cons; [apply SSorted_nil|apply Forall_nil_2].
Qed.

Lemma send_executed : executed alice_batch demo_send = Some (after alice_batch demo_send).
Proof. apply after_ok. vm_compute. reflexivity. Qed.

Lemma deposit_executed : executed bob_batch demo_deposit = Some (after bob_batch demo_deposit).
Proof. apply after_ok. vm_compute. reflexivity. Qed.

Lemma send_ordinary : ordinary demo_env alice_batch demo_send.
Proof. apply demo_ordinary. vm_compute. reflexivity. Qed.

Lemma send_no_faucet : faucet_ok demo_env (accounts alice_batch) (d_Body demo_send).
Proof. intros Hf. discriminate Hf. Qed.

Lemma deposit_ordinary : ordinary demo_env bob_batch demo_deposit.
Proof. apply demo_ordinary. vm_compute. reflexivity. Qed.

Lemma deposit_executable : executable demo_env demo_deposit.
Proof. apply demo_executable; [split; [exact AcmeUrl_ok|done]|vm_compute; reflexivity..]. Qed.

Lemma send_executable : executable demo_env demo_send.
Proof. apply demo_executable; [exact I|vm_compute; reflexivity..]. Qed.

Lemma ProcessTransaction_wf_witness :
  exists o, @ProcessTransaction ascii_tables demo_env alice_batch demo_send = Ok o /\
    wf (accounts (o_batch o)) /\ evolves (accounts alice_batch) (accounts (o_batch o)).
Proof.
  destruct (executed_Some alice_batch demo_send _ send_executed) as (o & Ho & _).
  exists o. split; [exact Ho|].
  destruct (ProcessTransaction_wf demo_env alice_batch demo_send o Ho alice_wf send_executable I) as (H1 & H2 & _). split; [exact H1|exact H2].
Defined.

(** Alice sends 100 to Bob, whose partition executes the deposit. *)
Lemma demo_run : rtc (@net_step ascii_tables) demo_net settled_net.
Proof.
  apply rtc_l with sent_net; [|apply rtc_l with settled_net; [|apply rtc_refl]].
  - destruct (executed_Some alice_batch demo_send _ send_executed) as (o & Ho & Eb & Hl).
    pose proof (step_user demo_net 0 demo_env alice_batch demo_send o _ eq_refl eq_refl send_no_faucet send_executable
      Ho (or_introl send_ordinary) Hl) as Hstep. rewrite Eb in Hstep. exact Hstep.
  - destruct (executed_Some bob_batch demo_deposit _ deposit_executed) as (o & Ho & Eb & Hl).
    assert (Hk : pool sent_net !! 0%nat = Some (Some (d_Principal demo_deposit), d_Body demo_deposit)) by (vm_compute; reflexivity).
    pose proof (step_pending sent_net 1 0 demo_env bob_batch demo_deposit o _ eq_refl Hk eq_refl deposit_executable Ho (or_introl deposit_ordinary) Hl) as Hstep.
    assert (Hd : delete 0%nat (pool sent_net) = []) by (vm_compute; reflexivity). rewrite Eb, Hd in Hstep. exact Hstep.
Qed.

Lemma tokens_conserved_witness : outstanding (AccountID32 AcmeUrl) settled_net <= 10 ^ 12 + 7.
Proof.
  assert (Hok : net_ok demo_net) by (split; [apply Forall_cons_2; [exact alice_wf|apply Forall_cons_2; [exact bob_wf|apply Forall_nil_2]]|apply Forall_nil_2]).
  pose proof (proj2 (@tokens_conserved ascii_tables demo_net settled_net demo_run Hok) (AccountID32 AcmeUrl)) as Hc.
  assert (E : outstanding (AccountID32 AcmeUrl) demo_net = 10 ^ 12 + 7) by (vm_compute; reflexivity). rewrite E in Hc. exact Hc.
Defined.

(** ** Refused updates *)

Definition operators_url : URL := mkURL [] (str "bvn-BVN0.acme") (str "/operators/1") [] [].
Definition operators_page (credits : Z) : Account := AKeyPage (mkKeyPage operators_url credits 1 1 [mkKeySpec (key_hash Byte.x01) 0 None] None).

Definition credits_of (b : Batch) (u : URL) : option Z :=
  match accounts b !! AccountID32 u with Some (AKeyPage p) => Some (kpg_CreditBalance p) | _ => None end.

Definition operators_batch : Batch := batch_of [operators_page 5; demo_ledger].
Definition credit_operators : Delivery :=
  mkDelivery operators_url (key_hash Byte.x03) (SyntheticDepositCredits (mkOrigin (Some demo_cause) (Some signer_url) 0) 500 (Some 1000) false)
    200 None [] None false.

Lemma credits_outcome :
  match @ProcessTransaction ascii_tables demo_env operators_batch credit_operators with
  | Ok o => Some (err_status <$> o_failure o, credits_of (o_batch o) operators_url, ProducedTxns (o_state o))
  | _ => None
  end = Some (Some StatusBadRequest, Some 505, [(Some demo_book, SyntheticDepositTokens no_origin AcmeUrl 1000 false true)]).
Proof. vm_compute. reflexivity. Qed.

(** The accounts of a partition's own operators take a deposit of credits, which is
    then refused because the account cannot be updated directly.  The deposit stays, since
    it was committed before the check, and the 1000 tokens it was bought with are sent
    back as well. *)
Theorem refused_credits_kept :
  credits_of operators_batch operators_url = Some 5 /\
  exists o, @ProcessTransaction ascii_tables demo_env operators_batch credit_operators = Ok o /\
    err_status <$> o_failure o = Some StatusBadRequest /\ credits_of (o_batch o) operators_url = Some 505 /\
    ProducedTxns (o_state o) = [(Some demo_book, SyntheticDepositTokens no_origin AcmeUrl 1000 false true)].
Proof.
  split; [vm_compute; reflexivity|].
  pose proof credits_outcome as Hs. destruct (ProcessTransaction demo_env operators_batch credit_operators) as [o| |]; [|discriminate..].
  exists o. apply (inj Some), pair_equal_spec in Hs as [[H1 H2]%pair_equal_spec H3]. split; [reflexivity|]. split; [exact H1|]. split; [exact H2|exact H3].
Qed.

Definition oracle_url : URL := mkURL [] (str "dn.acme") (str "/oracle") [] [].
Definition oracle_account : Account := ADataAccount oracle_url (mkAuth [mkAuthority (mkURL [] (str "dn.acme") (str "/operators") [] []) false]) None.
Definition directory_env : Env :=
  mkEnv (str "Directory") (mkURL [] (str "dn.acme") [] [] []) true (GetUrl demo_ledger) (mkURL [] (str "faucet") [] [] []) None [] demo_values demo_values.
Definition oracle_batch : Batch := batch_of [oracle_account; ALiteIdentity (mkLiteIdentity signer_url 1000 0)].
Definition write_oracle : Delivery :=
  mkDelivery oracle_url (key_hash Byte.x04) (WriteData (Some (AccumulateDataEntry [[Byte.x01; Byte.x81; Byte.x04]])) false false) 200 (Some signer_url) [] None false.

Lemma oracle_outcome :
  match @ProcessTransaction ascii_tables directory_env oracle_batch write_oracle with
  | Ok o => Some (err_status <$> o_failure o, accounts (o_batch o) !! AccountID32 oracle_url, AcmeOracle_Price (gv_Oracle (e_Active (activate (o_env o)))))
  | _ => None
  end = Some (Some StatusBadRequest, Some oracle_account, 513).
Proof. vm_compute. reflexivity. Qed.

(** A new price of ACME that is not written to the state of the oracle account is
    refused, but comes into force at the end of the block all the same. *)
Theorem refused_oracle_active :
  exists o, @ProcessTransaction ascii_tables directory_env oracle_batch write_oracle = Ok o /\
    err_status <$> o_failure o = Some StatusBadRequest /\ accounts (o_batch o) !! AccountID32 oracle_url = Some oracle_account /\
    AcmeOracle_Price (gv_Oracle (e_Active directory_env)) = 500 /\ AcmeOracle_Price (gv_Oracle (e_Active (activate (o_env o)))) = 513.
Proof.
  pose proof oracle_outcome as Hs. destruct (ProcessTransaction directory_env oracle_batch write_oracle) as [o| |]; [|discriminate..].
  exists o. apply (inj Some), pair_equal_spec in Hs as [[H1 H2]%pair_equal_spec H3]. split; [reflexivity|]. split; [exact H1|]. split; [exact H2|]. split; [reflexivity|exact H3].
Qed.
