(* ===== verification/TypesAccounts.v ===== *)
(** * Generated types: accounts

    The account types of [protocol/types_gen.go] and the union [Account] of
    [protocol/unions_gen.go].  The type parameter [TB] stands for transaction bodies,
    which the system ledger contains. *)

From S2P Require Import Prelude Encoding Codec CodecProofs DataEntry Url Enums Wire TypesGeneral.
Local Open Scope Z_scope.
Import Url TxID.

Record ADI := { ADI_Url : option URL; ADI_AccountAuth : AccountAuth; ADI_extraData : bytes }.
Definition new_ADI : ADI := Build_ADI None new_AccountAuth [].

Definition ADI_Copy (v : ADI) : ADI := Build_ADI (ADI_Url v) (AccountAuth_Copy (ADI_AccountAuth v)) [].

Definition ADI_MarshalBinary (v : ADI) : res bytes :=
  finish (ADI_extraData v) (
    NewWriter
    |> WriteEnum 1 AccountTypeIdentity
    |> when (negb (is_nil (ADI_Url v))) (writeUrl 2 (ADI_Url v))
    |> writeValue 3 (AccountAuth_MarshalBinary (ADI_AccountAuth v))).

Definition ADI_UnmarshalBinary (v : ADI) (data : bytes) : res ADI :=
  let reader := NewReader data in
  let '(vType, reader) := ReadEnum AccountType_SetEnumValue 1 reader in
  if negb (AccountTypeIdentity =? default 0 vType) then errorf "field Type: not equal" else
  let '(xUrl, reader) := readUrl 2 reader in
  let '(xAccountAuth, reader) := readValue 3 (AccountAuth_UnmarshalBinary (ADI_AccountAuth v)) reader in
  finish_read (Build_ADI (default (ADI_Url v) xUrl) (default (ADI_AccountAuth v) xAccountAuth)) reader.

Definition ADI_ok (v : ADI) : Prop :=
  url_ok (ADI_Url v) /\ AccountAuth_ok (ADI_AccountAuth v) /\ fits (AccountAuth_MarshalBinary (ADI_AccountAuth v))
  /\ ADI_extraData v = [].

Lemma ADI_survives (v : ADI) :
  ADI_ok v -> survives ADI_MarshalBinary (ADI_UnmarshalBinary new_ADI) v.
Proof. wire_roundtrip. Qed.
#[export] Hint Resolve ADI_survives : wire.
Lemma ADI_copied (v : ADI) : ADI_ok v -> ADI_Copy v = v.
Proof. wire_copy. Qed.
#[export] Hint Resolve ADI_copied : copies.
Lemma ADI_tagged (v : ADI) : ADI_ok v -> tagged ADI_MarshalBinary AccountTypeIdentity v.
Proof. wire_tagged. Qed.
#[export] Hint Resolve ADI_tagged : wire.

Record AnchorLedger := { AnchorLedger_Url : option URL; AnchorLedger_MajorBlockIndex : Z;
  AnchorLedger_MajorBlockTime : Z; AnchorLedger_PendingMajorBlockAnchors : list (option URL); AnchorLedger_Exchange
  : list TransactionExchangeLedger; AnchorLedger_extraData : bytes }.
Definition new_AnchorLedger : AnchorLedger := Build_AnchorLedger None 0 time_zero [] [] [].

Definition AnchorLedger_Copy (v : AnchorLedger) : AnchorLedger := Build_AnchorLedger (AnchorLedger_Url v)
  (AnchorLedger_MajorBlockIndex v) (AnchorLedger_MajorBlockTime v) (AnchorLedger_PendingMajorBlockAnchors v)
  (TransactionExchangeLedger_Copy <$> AnchorLedger_Exchange v) [].

Definition AnchorLedger_MarshalBinary (v : AnchorLedger) : res bytes :=
  finish (AnchorLedger_extraData v) (
    NewWriter
    |> WriteEnum 1 AccountTypeAnchorLedger
    |> when (negb (is_nil (AnchorLedger_Url v))) (writeUrl 2 (AnchorLedger_Url v))
    |> when (negb (AnchorLedger_MajorBlockIndex v =? 0)) (WriteUint 3 (AnchorLedger_MajorBlockIndex v))
    |> when (negb (AnchorLedger_MajorBlockTime v =? time_zero)) (WriteTime 4 (AnchorLedger_MajorBlockTime v))
    |> when (negb (is_empty (AnchorLedger_PendingMajorBlockAnchors v))) (range
       (AnchorLedger_PendingMajorBlockAnchors v) (fun v => writeUrl 5 v))
    |> when (negb (is_empty (AnchorLedger_Exchange v))) (range (AnchorLedger_Exchange v) (fun v => writeValue 6
       (TransactionExchangeLedger_MarshalBinary v)))).

Definition AnchorLedger_UnmarshalBinary (v : AnchorLedger) (data : bytes) : res AnchorLedger :=
  let reader := NewReader data in
  let '(vType, reader) := ReadEnum AccountType_SetEnumValue 1 reader in
  if negb (AccountTypeAnchorLedger =? default 0 vType) then errorf "field Type: not equal" else
  let '(xUrl, reader) := readUrl 2 reader in
  let '(xMajorBlockIndex, reader) := ReadUint 3 reader in
  let '(xMajorBlockTime, reader) := ReadTime 4 reader in
  let '(xPendingMajorBlockAnchors, reader) := read_list (readUrl 5) reader in
  let '(xExchange, reader) := read_list (readValue 6 (TransactionExchangeLedger_UnmarshalBinary
    new_TransactionExchangeLedger)) reader in
  finish_read (Build_AnchorLedger (default (AnchorLedger_Url v) xUrl) (default (AnchorLedger_MajorBlockIndex v)
    xMajorBlockIndex) (default (AnchorLedger_MajorBlockTime v) xMajorBlockTime)
    (AnchorLedger_PendingMajorBlockAnchors v ++ xPendingMajorBlockAnchors) (AnchorLedger_Exchange v ++ xExchange))
    reader.

Definition AnchorLedger_ok (v : AnchorLedger) : Prop :=
  url_ok (AnchorLedger_Url v) /\ is_u64 (AnchorLedger_MajorBlockIndex v) /\ time_ok (AnchorLedger_MajorBlockTime v)
  /\ (forall x, x ∈ AnchorLedger_PendingMajorBlockAnchors v -> url_ok x) /\ (forall x, x ∈ AnchorLedger_Exchange v
  -> TransactionExchangeLedger_ok x) /\ (forall x, x ∈ AnchorLedger_Exchange v -> fits
  (TransactionExchangeLedger_MarshalBinary x)) /\ AnchorLedger_extraData v = [].

Lemma AnchorLedger_survives (v : AnchorLedger) :
  AnchorLedger_ok v -> survives AnchorLedger_MarshalBinary (AnchorLedger_UnmarshalBinary new_AnchorLedger) v.
Proof. wire_roundtrip. Qed.
#[export] Hint Resolve AnchorLedger_survives : wire.
Lemma AnchorLedger_copied (v : AnchorLedger) : AnchorLedger_ok v -> AnchorLedger_Copy v = v.
Proof. wire_copy. Qed.
#[export] Hint Resolve AnchorLedger_copied : copies.
Lemma AnchorLedger_tagged (v : AnchorLedger) : AnchorLedger_ok v -> tagged AnchorLedger_MarshalBinary
    AccountTypeAnchorLedger v.
Proof. wire_tagged. Qed.
#[export] Hint Resolve AnchorLedger_tagged : wire.

Record BlockLedger := { BlockLedger_Url : option URL; BlockLedger_Index : Z; BlockLedger_Time : Z;
  BlockLedger_Entries : list BlockEntry; BlockLedger_extraData : bytes }.
Definition new_BlockLedger : BlockLedger := Build_BlockLedger None 0 time_zero [] [].

Definition BlockLedger_Copy (v : BlockLedger) : BlockLedger := Build_BlockLedger (BlockLedger_Url v)
  (BlockLedger_Index v) (BlockLedger_Time v) (BlockEntry_Copy <$> BlockLedger_Entries v) [].

Definition BlockLedger_MarshalBinary (v : BlockLedger) : res bytes :=
  finish (BlockLedger_extraData v) (
    NewWriter
    |> WriteEnum 1 AccountTypeBlockLedger
    |> when (negb (is_nil (BlockLedger_Url v))) (writeUrl 2 (BlockLedger_Url v))
    |> when (negb (BlockLedger_Index v =? 0)) (WriteUint 3 (BlockLedger_Index v))
    |> when (negb (BlockLedger_Time v =? time_zero)) (WriteTime 4 (BlockLedger_Time v))
    |> when (negb (is_empty (BlockLedger_Entries v))) (range (BlockLedger_Entries v) (fun v => writeValue 5
       (BlockEntry_MarshalBinary v)))).

Definition BlockLedger_UnmarshalBinary (v : BlockLedger) (data : bytes) : res BlockLedger :=
  let reader := NewReader data in
  let '(vType, reader) := ReadEnum AccountType_SetEnumValue 1 reader in
  if negb (AccountTypeBlockLedger =? default 0 vType) then errorf "field Type: not equal" else
  let '(xUrl, reader) := readUrl 2 reader in
  let '(xIndex, reader) := ReadUint 3 reader in
  let '(xTime, reader) := ReadTime 4 reader in
  let '(xEntries, reader) := read_list (readValue 5 (BlockEntry_UnmarshalBinary new_BlockEntry)) reader in
  finish_read (Build_BlockLedger (default (BlockLedger_Url v) xUrl) (default (BlockLedger_Index v) xIndex) (default
    (BlockLedger_Time v) xTime) (BlockLedger_Entries v ++ xEntries)) reader.

Definition BlockLedger_ok (v : BlockLedger) : Prop :=
  url_ok (BlockLedger_Url v) /\ is_u64 (BlockLedger_Index v) /\ time_ok (BlockLedger_Time v) /\ (forall x, x ∈
  BlockLedger_Entries v -> BlockEntry_ok x) /\ (forall x, x ∈ BlockLedger_Entries v -> fits
  (BlockEntry_MarshalBinary x)) /\ BlockLedger_extraData v = [].

Lemma BlockLedger_survives (v : BlockLedger) :
  BlockLedger_ok v -> survives BlockLedger_MarshalBinary (BlockLedger_UnmarshalBinary new_BlockLedger) v.
Proof. wire_roundtrip. Qed.
#[export] Hint Resolve BlockLedger_survives : wire.
Lemma BlockLedger_copied (v : BlockLedger) : BlockLedger_ok v -> BlockLedger_Copy v = v.
Proof. wire_copy. Qed.
#[export] Hint Resolve BlockLedger_copied : copies.
Lemma BlockLedger_tagged (v : BlockLedger) : BlockLedger_ok v -> tagged BlockLedger_MarshalBinary
    AccountTypeBlockLedger v.
Proof. wire_tagged. Qed.
#[export] Hint Resolve BlockLedger_tagged : wire.

Record DataAccount := { DataAccount_Url : option URL; DataAccount_AccountAuth : AccountAuth; DataAccount_Entry :
  option DataEntry; DataAccount_extraData : bytes }.
Definition new_DataAccount : DataAccount := Build_DataAccount None new_AccountAuth None [].

Definition DataAccount_Copy (v : DataAccount) : DataAccount := Build_DataAccount (DataAccount_Url v)
  (AccountAuth_Copy (DataAccount_AccountAuth v)) (DataEntry_Copy <$> DataAccount_Entry v) [].

Definition DataAccount_MarshalBinary (v : DataAccount) : res bytes :=
  finish (DataAccount_extraData v) (
    NewWriter
    |> WriteEnum 1 AccountTypeDataAccount
    |> when (negb (is_nil (DataAccount_Url v))) (writeUrl 2 (DataAccount_Url v))
    |> writeValue 3 (AccountAuth_MarshalBinary (DataAccount_AccountAuth v))
    |> when (negb (is_nil (DataAccount_Entry v))) (deref (DataAccount_Entry v) (fun v => writeValue 4
       (DataEntry_MarshalBinary v)))).

Definition DataAccount_UnmarshalBinary (v : DataAccount) (data : bytes) : res DataAccount :=
  let reader := NewReader data in
  let '(vType, reader) := ReadEnum AccountType_SetEnumValue 1 reader in
  if negb (AccountTypeDataAccount =? default 0 vType) then errorf "field Type: not equal" else
  let '(xUrl, reader) := readUrl 2 reader in
  let '(xAccountAuth, reader) := readValue 3 (AccountAuth_UnmarshalBinary (DataAccount_AccountAuth v)) reader in
  let '(xEntry, reader) := readValue 4 UnmarshalDataEntry reader in
  finish_read (Build_DataAccount (default (DataAccount_Url v) xUrl) (default (DataAccount_AccountAuth v)
    xAccountAuth) (or_else xEntry (DataAccount_Entry v))) reader.

Definition DataAccount_ok (v : DataAccount) : Prop :=
  url_ok (DataAccount_Url v) /\ AccountAuth_ok (DataAccount_AccountAuth v) /\ fits (AccountAuth_MarshalBinary
  (DataAccount_AccountAuth v)) /\ (forall x, DataAccount_Entry v = Some x -> DataEntry_ok x) /\ (forall x,
  DataAccount_Entry v = Some x -> fits (DataEntry_MarshalBinary x)) /\ DataAccount_extraData v = [].

Lemma DataAccount_survives (v : DataAccount) :
  DataAccount_ok v -> survives DataAccount_MarshalBinary (DataAccount_UnmarshalBinary new_DataAccount) v.
Proof. wire_roundtrip. Qed.
#[export] Hint Resolve DataAccount_survives : wire.
Lemma DataAccount_copied (v : DataAccount) : DataAccount_ok v -> DataAccount_Copy v = v.
Proof. wire_copy. Qed.
#[export] Hint Resolve DataAccount_copied : copies.
Lemma DataAccount_tagged (v : DataAccount) : DataAccount_ok v -> tagged DataAccount_MarshalBinary
    AccountTypeDataAccount v.
Proof. wire_tagged. Qed.
#[export] Hint Resolve DataAccount_tagged : wire.

Record KeyBook := { KeyBook_Url : option URL; KeyBook_BookType : Z; KeyBook_AccountAuth : AccountAuth;
  KeyBook_PageCount : Z; KeyBook_extraData : bytes }.
Definition new_KeyBook : KeyBook := Build_KeyBook None 0 new_AccountAuth 0 [].

Definition KeyBook_Copy (v : KeyBook) : KeyBook := Build_KeyBook (KeyBook_Url v) (KeyBook_BookType v)
  (AccountAuth_Copy (KeyBook_AccountAuth v)) (KeyBook_PageCount v) [].

Definition KeyBook_MarshalBinary (v : KeyBook) : res bytes :=
  finish (KeyBook_extraData v) (
    NewWriter
    |> WriteEnum 1 AccountTypeKeyBook
    |> when (negb (is_nil (KeyBook_Url v))) (writeUrl 2 (KeyBook_Url v))
    |> when (negb (KeyBook_BookType v =? 0)) (WriteEnum 3 (KeyBook_BookType v))
    |> writeValue 4 (AccountAuth_MarshalBinary (KeyBook_AccountAuth v))
    |> when (negb (KeyBook_PageCount v =? 0)) (WriteUint 5 (KeyBook_PageCount v))).

Definition KeyBook_UnmarshalBinary (v : KeyBook) (data : bytes) : res KeyBook :=
  let reader := NewReader data in
  let '(vType, reader) := ReadEnum AccountType_SetEnumValue 1 reader in
  if negb (AccountTypeKeyBook =? default 0 vType) then errorf "field Type: not equal" else
  let '(xUrl, reader) := readUrl 2 reader in
  let '(xBookType, reader) := ReadEnum BookType_SetEnumValue 3 reader in
  let '(xAccountAuth, reader) := readValue 4 (AccountAuth_UnmarshalBinary (KeyBook_AccountAuth v)) reader in
  let '(xPageCount, reader) := ReadUint 5 reader in
  finish_read (Build_KeyBook (default (KeyBook_Url v) xUrl) (default (KeyBook_BookType v) xBookType) (default
    (KeyBook_AccountAuth v) xAccountAuth) (default (KeyBook_PageCount v) xPageCount)) reader.

Definition KeyBook_ok (v : KeyBook) : Prop :=
  url_ok (KeyBook_Url v) /\ enum_or_zero BookType_SetEnumValue (KeyBook_BookType v) /\ AccountAuth_ok
  (KeyBook_AccountAuth v) /\ fits (AccountAuth_MarshalBinary (KeyBook_AccountAuth v)) /\ is_u64 (KeyBook_PageCount
  v) /\ KeyBook_extraData v = [].

Lemma KeyBook_survives (v : KeyBook) :
  KeyBook_ok v -> survives KeyBook_MarshalBinary (KeyBook_UnmarshalBinary new_KeyBook) v.
Proof. wire_roundtrip. Qed.
#[export] Hint Resolve KeyBook_survives : wire.
Lemma KeyBook_copied (v : KeyBook) : KeyBook_ok v -> KeyBook_Copy v = v.
Proof. wire_copy. Qed.
#[export] Hint Resolve KeyBook_copied : copies.
Lemma KeyBook_tagged (v : KeyBook) : KeyBook_ok v -> tagged KeyBook_MarshalBinary AccountTypeKeyBook v.
Proof. wire_tagged. Qed.
#[export] Hint Resolve KeyBook_tagged : wire.

Record KeyPage := { KeyPage_Url : option URL; KeyPage_CreditBalance : Z; KeyPage_AcceptThreshold : Z;
  KeyPage_RejectThreshold : Z; KeyPage_ResponseThreshold : Z; KeyPage_BlockThreshold : Z; KeyPage_Version : Z;
  KeyPage_Keys : list KeySpec; KeyPage_TransactionBlacklist : option Z; KeyPage_extraData : bytes }.
Definition new_KeyPage : KeyPage := Build_KeyPage None 0 0 0 0 0 0 [] None [].

Definition KeyPage_Copy (v : KeyPage) : KeyPage := Build_KeyPage (KeyPage_Url v) (KeyPage_CreditBalance v)
  (KeyPage_AcceptThreshold v) (KeyPage_RejectThreshold v) (KeyPage_ResponseThreshold v) (KeyPage_BlockThreshold v)
  (KeyPage_Version v) (KeySpec_Copy <$> KeyPage_Keys v) (KeyPage_TransactionBlacklist v) [].

Definition KeyPage_MarshalBinary (v : KeyPage) : res bytes :=
  finish (KeyPage_extraData v) (
    NewWriter
    |> WriteEnum 1 AccountTypeKeyPage
    |> when (negb (is_nil (KeyPage_Url v))) (writeUrl 2 (KeyPage_Url v))
    |> when (negb (KeyPage_CreditBalance v =? 0)) (WriteUint 3 (KeyPage_CreditBalance v))
    |> when (negb (KeyPage_AcceptThreshold v =? 0)) (WriteUint 4 (KeyPage_AcceptThreshold v))
    |> when (negb (KeyPage_RejectThreshold v =? 0)) (WriteUint 5 (KeyPage_RejectThreshold v))
    |> when (negb (KeyPage_ResponseThreshold v =? 0)) (WriteUint 6 (KeyPage_ResponseThreshold v))
    |> when (negb (KeyPage_BlockThreshold v =? 0)) (WriteUint 7 (KeyPage_BlockThreshold v))
    |> when (negb (KeyPage_Version v =? 0)) (WriteUint 8 (KeyPage_Version v))
    |> when (negb (is_empty (KeyPage_Keys v))) (range (KeyPage_Keys v) (fun v => writeValue 9 (KeySpec_MarshalBinary
       v)))
    |> when (negb (is_nil (KeyPage_TransactionBlacklist v))) (deref (KeyPage_TransactionBlacklist v) (fun v =>
       WriteEnum 10 v))).

Definition KeyPage_UnmarshalBinary (v : KeyPage) (data : bytes) : res KeyPage :=
  let reader := NewReader data in
  let '(vType, reader) := ReadEnum AccountType_SetEnumValue 1 reader in
  if negb (AccountTypeKeyPage =? default 0 vType) then errorf "field Type: not equal" else
  let '(xUrl, reader) := readUrl 2 reader in
  let '(xCreditBalance, reader) := ReadUint 3 reader in
  let '(xAcceptThreshold, reader) := ReadUint 4 reader in
  let '(xRejectThreshold, reader) := ReadUint 5 reader in
  let '(xResponseThreshold, reader) := ReadUint 6 reader in
  let '(xBlockThreshold, reader) := ReadUint 7 reader in
  let '(xVersion, reader) := ReadUint 8 reader in
  let '(xKeys, reader) := read_list (readValue 9 (KeySpec_UnmarshalBinary new_KeySpec)) reader in
  let '(xTransactionBlacklist, reader) := ReadEnum AllowedTransactions_SetEnumValue 10 reader in
  finish_read (Build_KeyPage (default (KeyPage_Url v) xUrl) (default (KeyPage_CreditBalance v) xCreditBalance)
    (default (KeyPage_AcceptThreshold v) xAcceptThreshold) (default (KeyPage_RejectThreshold v) xRejectThreshold)
    (default (KeyPage_ResponseThreshold v) xResponseThreshold) (default (KeyPage_BlockThreshold v) xBlockThreshold)
    (default (KeyPage_Version v) xVersion) (KeyPage_Keys v ++ xKeys) (or_else xTransactionBlacklist
    (KeyPage_TransactionBlacklist v))) reader.

Definition KeyPage_ok (v : KeyPage) : Prop :=
  url_ok (KeyPage_Url v) /\ is_u64 (KeyPage_CreditBalance v) /\ is_u64 (KeyPage_AcceptThreshold v) /\ is_u64
  (KeyPage_RejectThreshold v) /\ is_u64 (KeyPage_ResponseThreshold v) /\ is_u64 (KeyPage_BlockThreshold v) /\ is_u64
  (KeyPage_Version v) /\ (forall x, x ∈ KeyPage_Keys v -> KeySpec_ok x) /\ (forall x, x ∈ KeyPage_Keys v -> fits
  (KeySpec_MarshalBinary x)) /\ (forall x, KeyPage_TransactionBlacklist v = Some x -> enum_ok
  AllowedTransactions_SetEnumValue x) /\ KeyPage_extraData v = [].

Lemma KeyPage_survives (v : KeyPage) :
  KeyPage_ok v -> survives KeyPage_MarshalBinary (KeyPage_UnmarshalBinary new_KeyPage) v.
Proof. wire_roundtrip. Qed.
#[export] Hint Resolve KeyPage_survives : wire.
Lemma KeyPage_copied (v : KeyPage) : KeyPage_ok v -> KeyPage_Copy v = v.
Proof. wire_copy. Qed.
#[export] Hint Resolve KeyPage_copied : copies.
Lemma KeyPage_tagged (v : KeyPage) : KeyPage_ok v -> tagged KeyPage_MarshalBinary AccountTypeKeyPage v.
Proof. wire_tagged. Qed.
#[export] Hint Resolve KeyPage_tagged : wire.

Record LiteDataAccount := { LiteDataAccount_Url : option URL; LiteDataAccount_extraData : bytes }.
Definition new_LiteDataAccount : LiteDataAccount := Build_LiteDataAccount None [].

Definition LiteDataAccount_Copy (v : LiteDataAccount) : LiteDataAccount := Build_LiteDataAccount
  (LiteDataAccount_Url v) [].

Definition LiteDataAccount_MarshalBinary (v : LiteDataAccount) : res bytes :=
  finish (LiteDataAccount_extraData v) (
    NewWriter
    |> WriteEnum 1 AccountTypeLiteDataAccount
    |> when (negb (is_nil (LiteDataAccount_Url v))) (writeUrl 2 (LiteDataAccount_Url v))).

Definition LiteDataAccount_UnmarshalBinary (v : LiteDataAccount) (data : bytes) : res LiteDataAccount :=
  let reader := NewReader data in
  let '(vType, reader) := ReadEnum AccountType_SetEnumValue 1 reader in
  if negb (AccountTypeLiteDataAccount =? default 0 vType) then errorf "field Type: not equal" else
  let '(xUrl, reader) := readUrl 2 reader in
  finish_read (Build_LiteDataAccount (default (LiteDataAccount_Url v) xUrl)) reader.

Definition LiteDataAccount_ok (v : LiteDataAccount) : Prop :=
  url_ok (LiteDataAccount_Url v) /\ LiteDataAccount_extraData v = [].

Lemma LiteDataAccount_survives (v : LiteDataAccount) :
  LiteDataAccount_ok v -> survives LiteDataAccount_MarshalBinary (LiteDataAccount_UnmarshalBinary
    new_LiteDataAccount) v.
Proof. wire_roundtrip. Qed.
#[export] Hint Resolve LiteDataAccount_survives : wire.
Lemma LiteDataAccount_copied (v : LiteDataAccount) : LiteDataAccount_ok v -> LiteDataAccount_Copy v = v.
Proof. wire_copy. Qed.
#[export] Hint Resolve LiteDataAccount_copied : copies.
Lemma LiteDataAccount_tagged (v : LiteDataAccount) : LiteDataAccount_ok v -> tagged LiteDataAccount_MarshalBinary
    AccountTypeLiteDataAccount v.
Proof. wire_tagged. Qed.
#[export] Hint Resolve LiteDataAccount_tagged : wire.

Record LiteIdentity := { LiteIdentity_Url : option URL; LiteIdentity_CreditBalance : Z; LiteIdentity_LastUsedOn : Z;
  LiteIdentity_extraData : bytes }.
Definition new_LiteIdentity : LiteIdentity := Build_LiteIdentity None 0 0 [].

Definition LiteIdentity_Copy (v : LiteIdentity) : LiteIdentity := Build_LiteIdentity (LiteIdentity_Url v)
  (LiteIdentity_CreditBalance v) (LiteIdentity_LastUsedOn v) [].

Definition LiteIdentity_MarshalBinary (v : LiteIdentity) : res bytes :=
  finish (LiteIdentity_extraData v) (
    NewWriter
    |> WriteEnum 1 AccountTypeLiteIdentity
    |> when (negb (is_nil (LiteIdentity_Url v))) (writeUrl 2 (LiteIdentity_Url v))
    |> when (negb (LiteIdentity_CreditBalance v =? 0)) (WriteUint 3 (LiteIdentity_CreditBalance v))
    |> when (negb (LiteIdentity_LastUsedOn v =? 0)) (WriteUint 4 (LiteIdentity_LastUsedOn v))).

Definition LiteIdentity_UnmarshalBinary (v : LiteIdentity) (data : bytes) : res LiteIdentity :=
  let reader := NewReader data in
  let '(vType, reader) := ReadEnum AccountType_SetEnumValue 1 reader in
  if negb (AccountTypeLiteIdentity =? default 0 vType) then errorf "field Type: not equal" else
  let '(xUrl, reader) := readUrl 2 reader in
  let '(xCreditBalance, reader) := ReadUint 3 reader in
  let '(xLastUsedOn, reader) := ReadUint 4 reader in
  finish_read (Build_LiteIdentity (default (LiteIdentity_Url v) xUrl) (default (LiteIdentity_CreditBalance v)
    xCreditBalance) (default (LiteIdentity_LastUsedOn v) xLastUsedOn)) reader.

Definition LiteIdentity_ok (v : LiteIdentity) : Prop :=
  url_ok (LiteIdentity_Url v) /\ is_u64 (LiteIdentity_CreditBalance v) /\ is_u64 (LiteIdentity_LastUsedOn v) /\
  LiteIdentity_extraData v = [].

Lemma LiteIdentity_survives (v : LiteIdentity) :
  LiteIdentity_ok v -> survives LiteIdentity_MarshalBinary (LiteIdentity_UnmarshalBinary new_LiteIdentity) v.
Proof. wire_roundtrip. Qed.
#[export] Hint Resolve LiteIdentity_survives : wire.
Lemma LiteIdentity_copied (v : LiteIdentity) : LiteIdentity_ok v -> LiteIdentity_Copy v = v.
Proof. wire_copy. Qed.
#[export] Hint Resolve LiteIdentity_copied : copies.
Lemma LiteIdentity_tagged (v : LiteIdentity) : LiteIdentity_ok v -> tagged LiteIdentity_MarshalBinary
    AccountTypeLiteIdentity v.
Proof. wire_tagged. Qed.
#[export] Hint Resolve LiteIdentity_tagged : wire.

Record LiteTokenAccount := { LiteTokenAccount_Url : option URL; LiteTokenAccount_TokenUrl : option URL;
  LiteTokenAccount_Balance : Z; LiteTokenAccount_LockHeight : Z; LiteTokenAccount_extraData : bytes }.
Definition new_LiteTokenAccount : LiteTokenAccount := Build_LiteTokenAccount None None 0 0 [].

Definition LiteTokenAccount_Copy (v : LiteTokenAccount) : LiteTokenAccount := Build_LiteTokenAccount
  (LiteTokenAccount_Url v) (LiteTokenAccount_TokenUrl v) (LiteTokenAccount_Balance v) (LiteTokenAccount_LockHeight
  v) [].

Definition LiteTokenAccount_MarshalBinary (v : LiteTokenAccount) : res bytes :=
  finish (LiteTokenAccount_extraData v) (
    NewWriter
    |> WriteEnum 1 AccountTypeLiteTokenAccount
    |> when (negb (is_nil (LiteTokenAccount_Url v))) (writeUrl 2 (LiteTokenAccount_Url v))
    |> when (negb (is_nil (LiteTokenAccount_TokenUrl v))) (writeUrl 3 (LiteTokenAccount_TokenUrl v))
    |> when (negb (LiteTokenAccount_Balance v =? 0)) (WriteBigInt 4 (LiteTokenAccount_Balance v))
    |> when (negb (LiteTokenAccount_LockHeight v =? 0)) (WriteUint 5 (LiteTokenAccount_LockHeight v))).

Definition LiteTokenAccount_UnmarshalBinary (v : LiteTokenAccount) (data : bytes) : res LiteTokenAccount :=
  let reader := NewReader data in
  let '(vType, reader) := ReadEnum AccountType_SetEnumValue 1 reader in
  if negb (AccountTypeLiteTokenAccount =? default 0 vType) then errorf "field Type: not equal" else
  let '(xUrl, reader) := readUrl 2 reader in
  let '(xTokenUrl, reader) := readUrl 3 reader in
  let '(xBalance, reader) := ReadBigInt 4 reader in
  let '(xLockHeight, reader) := ReadUint 5 reader in
  finish_read (Build_LiteTokenAccount (default (LiteTokenAccount_Url v) xUrl) (default (LiteTokenAccount_TokenUrl v)
    xTokenUrl) (default (LiteTokenAccount_Balance v) xBalance) (default (LiteTokenAccount_LockHeight v)
    xLockHeight)) reader.

Definition LiteTokenAccount_ok (v : LiteTokenAccount) : Prop :=
  url_ok (LiteTokenAccount_Url v) /\ url_ok (LiteTokenAccount_TokenUrl v) /\ big_ok (LiteTokenAccount_Balance v) /\
  is_u64 (LiteTokenAccount_LockHeight v) /\ LiteTokenAccount_extraData v = [].

Lemma LiteTokenAccount_survives (v : LiteTokenAccount) :
  LiteTokenAccount_ok v -> survives LiteTokenAccount_MarshalBinary (LiteTokenAccount_UnmarshalBinary
    new_LiteTokenAccount) v.
Proof. wire_roundtrip. Qed.
#[export] Hint Resolve LiteTokenAccount_survives : wire.
Lemma LiteTokenAccount_copied (v : LiteTokenAccount) : LiteTokenAccount_ok v -> LiteTokenAccount_Copy v = v.
Proof. wire_copy. Qed.
#[export] Hint Resolve LiteTokenAccount_copied : copies.
Lemma LiteTokenAccount_tagged (v : LiteTokenAccount) : LiteTokenAccount_ok v -> tagged
    LiteTokenAccount_MarshalBinary AccountTypeLiteTokenAccount v.
Proof. wire_tagged. Qed.
#[export] Hint Resolve LiteTokenAccount_tagged : wire.

Record SyntheticLedger := { SyntheticLedger_Url : option URL; SyntheticLedger_Exchange : list
  TransactionExchangeLedger; SyntheticLedger_extraData : bytes }.
Definition new_SyntheticLedger : SyntheticLedger := Build_SyntheticLedger None [] [].

Definition SyntheticLedger_Copy (v : SyntheticLedger) : SyntheticLedger := Build_SyntheticLedger
  (SyntheticLedger_Url v) (TransactionExchangeLedger_Copy <$> SyntheticLedger_Exchange v) [].

Definition SyntheticLedger_MarshalBinary (v : SyntheticLedger) : res bytes :=
  finish (SyntheticLedger_extraData v) (
    NewWriter
    |> WriteEnum 1 AccountTypeSyntheticLedger
    |> when (negb (is_nil (SyntheticLedger_Url v))) (writeUrl 2 (SyntheticLedger_Url v))
    |> when (negb (is_empty (SyntheticLedger_Exchange v))) (range (SyntheticLedger_Exchange v) (fun v => writeValue
       3 (TransactionExchangeLedger_MarshalBinary v)))).

Definition SyntheticLedger_UnmarshalBinary (v : SyntheticLedger) (data : bytes) : res SyntheticLedger :=
  let reader := NewReader data in
  let '(vType, reader) := ReadEnum AccountType_SetEnumValue 1 reader in
  if negb (AccountTypeSyntheticLedger =? default 0 vType) then errorf "field Type: not equal" else
  let '(xUrl, reader) := readUrl 2 reader in
  let '(xExchange, reader) := read_list (readValue 3 (TransactionExchangeLedger_UnmarshalBinary
    new_TransactionExchangeLedger)) reader in
  finish_read (Build_SyntheticLedger (default (SyntheticLedger_Url v) xUrl) (SyntheticLedger_Exchange v ++
    xExchange)) reader.

Definition SyntheticLedger_ok (v : SyntheticLedger) : Prop :=
  url_ok (SyntheticLedger_Url v) /\ (forall x, x ∈ SyntheticLedger_Exchange v -> TransactionExchangeLedger_ok x) /\
  (forall x, x ∈ SyntheticLedger_Exchange v -> fits (TransactionExchangeLedger_MarshalBinary x)) /\
  SyntheticLedger_extraData v = [].

Lemma SyntheticLedger_survives (v : SyntheticLedger) :
  SyntheticLedger_ok v -> survives SyntheticLedger_MarshalBinary (SyntheticLedger_UnmarshalBinary
    new_SyntheticLedger) v.
Proof. wire_roundtrip. Qed.
#[export] Hint Resolve SyntheticLedger_survives : wire.
Lemma SyntheticLedger_copied (v : SyntheticLedger) : SyntheticLedger_ok v -> SyntheticLedger_Copy v = v.
Proof. wire_copy. Qed.
#[export] Hint Resolve SyntheticLedger_copied : copies.
Lemma SyntheticLedger_tagged (v : SyntheticLedger) : SyntheticLedger_ok v -> tagged SyntheticLedger_MarshalBinary
    AccountTypeSyntheticLedger v.
Proof. wire_tagged. Qed.
#[export] Hint Resolve SyntheticLedger_tagged : wire.

(** [UnmarshalAnchorBody]: the body of an anchor. *)
Definition UnmarshalAnchorBody `{Union TB} (data : bytes) : res TB :=
  let! body := u_Unmarshal data in
  if u_narrow body then Ok body else errors_new StatusEncodingError "not an anchor body".

Lemma AnchorBody_survives `{Union TB} `{!UnionLaws TB} (x : TB) :
  u_ok x -> u_narrow x = true -> survives u_Marshal UnmarshalAnchorBody x.
Proof.
  intros Hx Hn. destruct (u_survives x Hx) as (b & Em & Eu). exists b. split; [done|].
  unfold UnmarshalAnchorBody. rewrite Eu. cbn [res_bind]. by rewrite Hn.
Qed.
#[export] Hint Resolve AnchorBody_survives : wire.


Record SystemLedger (TB : Type) := { SystemLedger_Url : option URL; SystemLedger_Index : Z; SystemLedger_Timestamp :
  Z; SystemLedger_AcmeBurnt : Z; SystemLedger_PendingUpdates : list (NetworkAccountUpdate TB); SystemLedger_Anchor :
  option TB; SystemLedger_extraData : bytes }.
Arguments Build_SystemLedger {TB}.
Arguments SystemLedger_Url {TB}.
Arguments SystemLedger_Index {TB}.
Arguments SystemLedger_Timestamp {TB}.
Arguments SystemLedger_AcmeBurnt {TB}.
Arguments SystemLedger_PendingUpdates {TB}.
Arguments SystemLedger_Anchor {TB}.
Arguments SystemLedger_extraData {TB}.
Definition new_SystemLedger {TB : Type} : SystemLedger TB := Build_SystemLedger None 0 time_zero 0 [] None [].

Definition SystemLedger_Copy `{Union TB} (v : SystemLedger TB) : SystemLedger TB := Build_SystemLedger
  (SystemLedger_Url v) (SystemLedger_Index v) (SystemLedger_Timestamp v) (SystemLedger_AcmeBurnt v)
  (NetworkAccountUpdate_Copy <$> SystemLedger_PendingUpdates v) (u_Copy <$> SystemLedger_Anchor v) [].

Definition SystemLedger_MarshalBinary `{Union TB} (v : SystemLedger TB) : res bytes :=
  finish (SystemLedger_extraData v) (
    NewWriter
    |> WriteEnum 1 AccountTypeSystemLedger
    |> when (negb (is_nil (SystemLedger_Url v))) (writeUrl 2 (SystemLedger_Url v))
    |> when (negb (SystemLedger_Index v =? 0)) (WriteUint 3 (SystemLedger_Index v))
    |> when (negb (SystemLedger_Timestamp v =? time_zero)) (WriteTime 4 (SystemLedger_Timestamp v))
    |> when (negb (SystemLedger_AcmeBurnt v =? 0)) (WriteBigInt 5 (SystemLedger_AcmeBurnt v))
    |> when (negb (is_empty (SystemLedger_PendingUpdates v))) (range (SystemLedger_PendingUpdates v) (fun v =>
       writeValue 6 (NetworkAccountUpdate_MarshalBinary v)))
    |> when (negb (is_nil (SystemLedger_Anchor v))) (deref (SystemLedger_Anchor v) (fun v => writeValue 7 (u_Marshal
       v)))).

Definition SystemLedger_UnmarshalBinary `{Union TB} (v : SystemLedger TB) (data : bytes) : res (SystemLedger TB) :=
  let reader := NewReader data in
  let '(vType, reader) := ReadEnum AccountType_SetEnumValue 1 reader in
  if negb (AccountTypeSystemLedger =? default 0 vType) then errorf "field Type: not equal" else
  let '(xUrl, reader) := readUrl 2 reader in
  let '(xIndex, reader) := ReadUint 3 reader in
  let '(xTimestamp, reader) := ReadTime 4 reader in
  let '(xAcmeBurnt, reader) := ReadBigInt 5 reader in
  let '(xPendingUpdates, reader) := read_list (readValue 6 (NetworkAccountUpdate_UnmarshalBinary
    new_NetworkAccountUpdate)) reader in
  let '(xAnchor, reader) := readValue 7 UnmarshalAnchorBody reader in
  finish_read (Build_SystemLedger (default (SystemLedger_Url v) xUrl) (default (SystemLedger_Index v) xIndex)
    (default (SystemLedger_Timestamp v) xTimestamp) (default (SystemLedger_AcmeBurnt v) xAcmeBurnt)
    (SystemLedger_PendingUpdates v ++ xPendingUpdates) (or_else xAnchor (SystemLedger_Anchor v))) reader.

Definition SystemLedger_ok `{Union TB} (v : SystemLedger TB) : Prop :=
  url_ok (SystemLedger_Url v) /\ is_u64 (SystemLedger_Index v) /\ time_ok (SystemLedger_Timestamp v) /\ big_ok
  (SystemLedger_AcmeBurnt v) /\ (forall x, x ∈ SystemLedger_PendingUpdates v -> NetworkAccountUpdate_ok x) /\
  (forall x, x ∈ SystemLedger_PendingUpdates v -> fits (NetworkAccountUpdate_MarshalBinary x)) /\ (forall x,
  SystemLedger_Anchor v = Some x -> u_ok x) /\ (forall x, SystemLedger_Anchor v = Some x -> u_narrow x = true) /\
  (forall x, SystemLedger_Anchor v = Some x -> fits (u_Marshal x)) /\ SystemLedger_extraData v = [].

Lemma SystemLedger_survives `{Union TB} `{!UnionLaws TB} (v : SystemLedger TB) :
  SystemLedger_ok v -> survives SystemLedger_MarshalBinary (SystemLedger_UnmarshalBinary new_SystemLedger) v.
Proof. wire_roundtrip. Qed.
#[export] Hint Resolve SystemLedger_survives : wire.
Lemma SystemLedger_copied `{Union TB} `{!UnionLaws TB} (v : SystemLedger TB) : SystemLedger_ok v ->
    SystemLedger_Copy v = v.
Proof. wire_copy. Qed.
#[export] Hint Resolve SystemLedger_copied : copies.
Lemma SystemLedger_tagged `{Union TB} `{!UnionLaws TB} (v : SystemLedger TB) : SystemLedger_ok v -> tagged
    SystemLedger_MarshalBinary AccountTypeSystemLedger v.
Proof. wire_tagged. Qed.
#[export] Hint Resolve SystemLedger_tagged : wire.

Record TokenAccount := { TokenAccount_Url : option URL; TokenAccount_AccountAuth : AccountAuth;
  TokenAccount_TokenUrl : option URL; TokenAccount_Balance : Z; TokenAccount_extraData : bytes }.
Definition new_TokenAccount : TokenAccount := Build_TokenAccount None new_AccountAuth None 0 [].

Definition TokenAccount_Copy (v : TokenAccount) : TokenAccount := Build_TokenAccount (TokenAccount_Url v)
  (AccountAuth_Copy (TokenAccount_AccountAuth v)) (TokenAccount_TokenUrl v) (TokenAccount_Balance v) [].

Definition TokenAccount_MarshalBinary (v : TokenAccount) : res bytes :=
  finish (TokenAccount_extraData v) (
    NewWriter
    |> WriteEnum 1 AccountTypeTokenAccount
    |> when (negb (is_nil (TokenAccount_Url v))) (writeUrl 2 (TokenAccount_Url v))
    |> writeValue 3 (AccountAuth_MarshalBinary (TokenAccount_AccountAuth v))
    |> when (negb (is_nil (TokenAccount_TokenUrl v))) (writeUrl 4 (TokenAccount_TokenUrl v))
    |> when (negb (TokenAccount_Balance v =? 0)) (WriteBigInt 5 (TokenAccount_Balance v))).

Definition TokenAccount_UnmarshalBinary (v : TokenAccount) (data : bytes) : res TokenAccount :=
  let reader := NewReader data in
  let '(vType, reader) := ReadEnum AccountType_SetEnumValue 1 reader in
  if negb (AccountTypeTokenAccount =? default 0 vType) then errorf "field Type: not equal" else
  let '(xUrl, reader) := readUrl 2 reader in
  let '(xAccountAuth, reader) := readValue 3 (AccountAuth_UnmarshalBinary (TokenAccount_AccountAuth v)) reader in
  let '(xTokenUrl, reader) := readUrl 4 reader in
  let '(xBalance, reader) := ReadBigInt 5 reader in
  finish_read (Build_TokenAccount (default (TokenAccount_Url v) xUrl) (default (TokenAccount_AccountAuth v)
    xAccountAuth) (default (TokenAccount_TokenUrl v) xTokenUrl) (default (TokenAccount_Balance v) xBalance)) reader.

Definition TokenAccount_ok (v : TokenAccount) : Prop :=
  url_ok (TokenAccount_Url v) /\ AccountAuth_ok (TokenAccount_AccountAuth v) /\ fits (AccountAuth_MarshalBinary
  (TokenAccount_AccountAuth v)) /\ url_ok (TokenAccount_TokenUrl v) /\ big_ok (TokenAccount_Balance v) /\
  TokenAccount_extraData v = [].

Lemma TokenAccount_survives (v : TokenAccount) :
  TokenAccount_ok v -> survives TokenAccount_MarshalBinary (TokenAccount_UnmarshalBinary new_TokenAccount) v.
Proof. wire_roundtrip. Qed.
#[export] Hint Resolve TokenAccount_survives : wire.
Lemma TokenAccount_copied (v : TokenAccount) : TokenAccount_ok v -> TokenAccount_Copy v = v.
Proof. wire_copy. Qed.
#[export] Hint Resolve TokenAccount_copied : copies.
Lemma TokenAccount_tagged (v : TokenAccount) : TokenAccount_ok v -> tagged TokenAccount_MarshalBinary
    AccountTypeTokenAccount v.
Proof. wire_tagged. Qed.
#[export] Hint Resolve TokenAccount_tagged : wire.

Record TokenIssuer := { TokenIssuer_Url : option URL; TokenIssuer_AccountAuth : AccountAuth; TokenIssuer_Symbol :
  string; TokenIssuer_Precision : Z; TokenIssuer_Properties : option URL; TokenIssuer_Issued : Z;
  TokenIssuer_SupplyLimit : option Z; TokenIssuer_extraData : bytes }.
Definition new_TokenIssuer : TokenIssuer := Build_TokenIssuer None new_AccountAuth "" 0 None 0 None [].

Definition TokenIssuer_Copy (v : TokenIssuer) : TokenIssuer := Build_TokenIssuer (TokenIssuer_Url v)
  (AccountAuth_Copy (TokenIssuer_AccountAuth v)) (TokenIssuer_Symbol v) (TokenIssuer_Precision v)
  (TokenIssuer_Properties v) (TokenIssuer_Issued v) (TokenIssuer_SupplyLimit v) [].

Definition TokenIssuer_MarshalBinary (v : TokenIssuer) : res bytes :=
  finish (TokenIssuer_extraData v) (
    NewWriter
    |> WriteEnum 1 AccountTypeTokenIssuer
    |> when (negb (is_nil (TokenIssuer_Url v))) (writeUrl 2 (TokenIssuer_Url v))
    |> writeValue 3 (AccountAuth_MarshalBinary (TokenIssuer_AccountAuth v))
    |> when (negb (String.eqb (TokenIssuer_Symbol v) "")) (WriteString 4 (TokenIssuer_Symbol v))
    |> when (negb (TokenIssuer_Precision v =? 0)) (WriteUint 5 (TokenIssuer_Precision v))
    |> when (negb (is_nil (TokenIssuer_Properties v))) (writeUrl 6 (TokenIssuer_Properties v))
    |> when (negb (TokenIssuer_Issued v =? 0)) (WriteBigInt 7 (TokenIssuer_Issued v))
    |> when (negb (is_nil (TokenIssuer_SupplyLimit v))) (deref (TokenIssuer_SupplyLimit v) (fun v => WriteBigInt 8
       v))).

Definition TokenIssuer_UnmarshalBinary (v : TokenIssuer) (data : bytes) : res TokenIssuer :=
  let reader := NewReader data in
  let '(vType, reader) := ReadEnum AccountType_SetEnumValue 1 reader in
  if negb (AccountTypeTokenIssuer =? default 0 vType) then errorf "field Type: not equal" else
  let '(xUrl, reader) := readUrl 2 reader in
  let '(xAccountAuth, reader) := readValue 3 (AccountAuth_UnmarshalBinary (TokenIssuer_AccountAuth v)) reader in
  let '(xSymbol, reader) := ReadString 4 reader in
  let '(xPrecision, reader) := ReadUint 5 reader in
  let '(xProperties, reader) := readUrl 6 reader in
  let '(xIssued, reader) := ReadBigInt 7 reader in
  let '(xSupplyLimit, reader) := ReadBigInt 8 reader in
  finish_read (Build_TokenIssuer (default (TokenIssuer_Url v) xUrl) (default (TokenIssuer_AccountAuth v)
    xAccountAuth) (default (TokenIssuer_Symbol v) xSymbol) (default (TokenIssuer_Precision v) xPrecision) (default
    (TokenIssuer_Properties v) xProperties) (default (TokenIssuer_Issued v) xIssued) (or_else xSupplyLimit
    (TokenIssuer_SupplyLimit v))) reader.

Definition TokenIssuer_ok (v : TokenIssuer) : Prop :=
  url_ok (TokenIssuer_Url v) /\ AccountAuth_ok (TokenIssuer_AccountAuth v) /\ fits (AccountAuth_MarshalBinary
  (TokenIssuer_AccountAuth v)) /\ string_ok (TokenIssuer_Symbol v) /\ is_u64 (TokenIssuer_Precision v) /\ url_ok
  (TokenIssuer_Properties v) /\ big_ok (TokenIssuer_Issued v) /\ (forall x, TokenIssuer_SupplyLimit v = Some x ->
  big_ok x) /\ TokenIssuer_extraData v = [].

Lemma TokenIssuer_survives (v : TokenIssuer) :
  TokenIssuer_ok v -> survives TokenIssuer_MarshalBinary (TokenIssuer_UnmarshalBinary new_TokenIssuer) v.
Proof. wire_roundtrip. Qed.
#[export] Hint Resolve TokenIssuer_survives : wire.
Lemma TokenIssuer_copied (v : TokenIssuer) : TokenIssuer_ok v -> TokenIssuer_Copy v = v.
Proof. wire_copy. Qed.
#[export] Hint Resolve TokenIssuer_copied : copies.
Lemma TokenIssuer_tagged (v : TokenIssuer) : TokenIssuer_ok v -> tagged TokenIssuer_MarshalBinary
    AccountTypeTokenIssuer v.
Proof. wire_tagged. Qed.
#[export] Hint Resolve TokenIssuer_tagged : wire.

Record UnknownAccount := { UnknownAccount_Url : option URL; UnknownAccount_extraData : bytes }.
Definition new_UnknownAccount : UnknownAccount := Build_UnknownAccount None [].

Definition UnknownAccount_Copy (v : UnknownAccount) : UnknownAccount := Build_UnknownAccount (UnknownAccount_Url v)
  [].

Definition UnknownAccount_MarshalBinary (v : UnknownAccount) : res bytes :=
  finish (UnknownAccount_extraData v) (
    NewWriter
    |> WriteEnum 1 AccountTypeUnknown
    |> when (negb (is_nil (UnknownAccount_Url v))) (writeUrl 2 (UnknownAccount_Url v))).

Definition UnknownAccount_UnmarshalBinary (v : UnknownAccount) (data : bytes) : res UnknownAccount :=
  let reader := NewReader data in
  let '(vType, reader) := ReadEnum AccountType_SetEnumValue 1 reader in
  if negb (AccountTypeUnknown =? default 0 vType) then errorf "field Type: not equal" else
  let '(xUrl, reader) := readUrl 2 reader in
  finish_read (Build_UnknownAccount (default (UnknownAccount_Url v) xUrl)) reader.

Definition UnknownAccount_ok (v : UnknownAccount) : Prop :=
  url_ok (UnknownAccount_Url v) /\ UnknownAccount_extraData v = [].

Lemma UnknownAccount_survives (v : UnknownAccount) :
  UnknownAccount_ok v -> survives UnknownAccount_MarshalBinary (UnknownAccount_UnmarshalBinary new_UnknownAccount)
    v.
Proof. wire_roundtrip. Qed.
#[export] Hint Resolve UnknownAccount_survives : wire.
Lemma UnknownAccount_copied (v : UnknownAccount) : UnknownAccount_ok v -> UnknownAccount_Copy v = v.
Proof. wire_copy. Qed.
#[export] Hint Resolve UnknownAccount_copied : copies.
Lemma UnknownAccount_tagged (v : UnknownAccount) : UnknownAccount_ok v -> tagged UnknownAccount_MarshalBinary
    AccountTypeUnknown v.
Proof. wire_tagged. Qed.
#[export] Hint Resolve UnknownAccount_tagged : wire.

Record UnknownSigner := { UnknownSigner_Url : option URL; UnknownSigner_Version : Z; UnknownSigner_extraData : bytes
  }.
Definition new_UnknownSigner : UnknownSigner := Build_UnknownSigner None 0 [].

Definition UnknownSigner_Copy (v : UnknownSigner) : UnknownSigner := Build_UnknownSigner (UnknownSigner_Url v)
  (UnknownSigner_Version v) [].

Definition UnknownSigner_MarshalBinary (v : UnknownSigner) : res bytes :=
  finish (UnknownSigner_extraData v) (
    NewWriter
    |> WriteEnum 1 AccountTypeUnknownSigner
    |> when (negb (is_nil (UnknownSigner_Url v))) (writeUrl 2 (UnknownSigner_Url v))
    |> when (negb (UnknownSigner_Version v =? 0)) (WriteUint 3 (UnknownSigner_Version v))).

Definition UnknownSigner_UnmarshalBinary (v : UnknownSigner) (data : bytes) : res UnknownSigner :=
  let reader := NewReader data in
  let '(vType, reader) := ReadEnum AccountType_SetEnumValue 1 reader in
  if negb (AccountTypeUnknownSigner =? default 0 vType) then errorf "field Type: not equal" else
  let '(xUrl, reader) := readUrl 2 reader in
  let '(xVersion, reader) := ReadUint 3 reader in
  finish_read (Build_UnknownSigner (default (UnknownSigner_Url v) xUrl) (default (UnknownSigner_Version v)
    xVersion)) reader.

Definition UnknownSigner_ok (v : UnknownSigner) : Prop :=
  url_ok (UnknownSigner_Url v) /\ is_u64 (UnknownSigner_Version v) /\ UnknownSigner_extraData v = [].

Lemma UnknownSigner_survives (v : UnknownSigner) :
  UnknownSigner_ok v -> survives UnknownSigner_MarshalBinary (UnknownSigner_UnmarshalBinary new_UnknownSigner) v.
Proof. wire_roundtrip. Qed.
#[export] Hint Resolve UnknownSigner_survives : wire.
Lemma UnknownSigner_copied (v : UnknownSigner) : UnknownSigner_ok v -> UnknownSigner_Copy v = v.
Proof. wire_copy. Qed.
#[export] Hint Resolve UnknownSigner_copied : copies.
Lemma UnknownSigner_tagged (v : UnknownSigner) : UnknownSigner_ok v -> tagged UnknownSigner_MarshalBinary
    AccountTypeUnknownSigner v.
Proof. wire_tagged. Qed.
#[export] Hint Resolve UnknownSigner_tagged : wire.

Inductive Account (TB : Type) :=
  | Account_ADI (v : ADI)
  | Account_AnchorLedger (v : AnchorLedger)
  | Account_BlockLedger (v : BlockLedger)
  | Account_DataAccount (v : DataAccount)
  | Account_KeyBook (v : KeyBook)
  | Account_KeyPage (v : KeyPage)
  | Account_LiteDataAccount (v : LiteDataAccount)
  | Account_LiteIdentity (v : LiteIdentity)
  | Account_LiteTokenAccount (v : LiteTokenAccount)
  | Account_SyntheticLedger (v : SyntheticLedger)
  | Account_SystemLedger (v : SystemLedger TB)
  | Account_TokenAccount (v : TokenAccount)
  | Account_TokenIssuer (v : TokenIssuer)
  | Account_UnknownAccount (v : UnknownAccount)
  | Account_UnknownSigner (v : UnknownSigner).
Arguments Account_ADI {TB}.
Arguments Account_AnchorLedger {TB}.
Arguments Account_BlockLedger {TB}.
Arguments Account_DataAccount {TB}.
Arguments Account_KeyBook {TB}.
Arguments Account_KeyPage {TB}.
Arguments Account_LiteDataAccount {TB}.
Arguments Account_LiteIdentity {TB}.
Arguments Account_LiteTokenAccount {TB}.
Arguments Account_SyntheticLedger {TB}.
Arguments Account_SystemLedger {TB}.
Arguments Account_TokenAccount {TB}.
Arguments Account_TokenIssuer {TB}.
Arguments Account_UnknownAccount {TB}.
Arguments Account_UnknownSigner {TB}.

Definition Account_MarshalBinary `{Union TB} (v : Account TB) : res bytes :=
  match v with
  | Account_ADI v => ADI_MarshalBinary v
  | Account_AnchorLedger v => AnchorLedger_MarshalBinary v
  | Account_BlockLedger v => BlockLedger_MarshalBinary v
  | Account_DataAccount v => DataAccount_MarshalBinary v
  | Account_KeyBook v => KeyBook_MarshalBinary v
  | Account_KeyPage v => KeyPage_MarshalBinary v
  | Account_LiteDataAccount v => LiteDataAccount_MarshalBinary v
  | Account_LiteIdentity v => LiteIdentity_MarshalBinary v
  | Account_LiteTokenAccount v => LiteTokenAccount_MarshalBinary v
  | Account_SyntheticLedger v => SyntheticLedger_MarshalBinary v
  | Account_SystemLedger v => SystemLedger_MarshalBinary v
  | Account_TokenAccount v => TokenAccount_MarshalBinary v
  | Account_TokenIssuer v => TokenIssuer_MarshalBinary v
  | Account_UnknownAccount v => UnknownAccount_MarshalBinary v
  | Account_UnknownSigner v => UnknownSigner_MarshalBinary v
  end.

Definition UnmarshalAccount `{Union TB} (data : bytes) : res (Account TB) :=
  let! typ := UnmarshalEnumType AccountType_SetEnumValue data in
  if typ =? AccountTypeIdentity then let! v := ADI_UnmarshalBinary new_ADI data in Ok (Account_ADI v) else
  if typ =? AccountTypeAnchorLedger then let! v := AnchorLedger_UnmarshalBinary new_AnchorLedger data in Ok (Account_AnchorLedger v) else
  if typ =? AccountTypeBlockLedger then let! v := BlockLedger_UnmarshalBinary new_BlockLedger data in Ok (Account_BlockLedger v) else
  if typ =? AccountTypeDataAccount then let! v := DataAccount_UnmarshalBinary new_DataAccount data in Ok (Account_DataAccount v) else
  if typ =? AccountTypeKeyBook then let! v := KeyBook_UnmarshalBinary new_KeyBook data in Ok (Account_KeyBook v) else
  if typ =? AccountTypeKeyPage then let! v := KeyPage_UnmarshalBinary new_KeyPage data in Ok (Account_KeyPage v) else
  if typ =? AccountTypeLiteDataAccount then let! v := LiteDataAccount_UnmarshalBinary new_LiteDataAccount data in Ok (Account_LiteDataAccount v) else
  if typ =? AccountTypeLiteIdentity then let! v := LiteIdentity_UnmarshalBinary new_LiteIdentity data in Ok (Account_LiteIdentity v) else
  if typ =? AccountTypeLiteTokenAccount then let! v := LiteTokenAccount_UnmarshalBinary new_LiteTokenAccount data in Ok (Account_LiteTokenAccount v) else
  if typ =? AccountTypeSyntheticLedger then let! v := SyntheticLedger_UnmarshalBinary new_SyntheticLedger data in Ok (Account_SyntheticLedger v) else
  if typ =? AccountTypeSystemLedger then let! v := SystemLedger_UnmarshalBinary new_SystemLedger data in Ok (Account_SystemLedger v) else
  if typ =? AccountTypeTokenAccount then let! v := TokenAccount_UnmarshalBinary new_TokenAccount data in Ok (Account_TokenAccount v) else
  if typ =? AccountTypeTokenIssuer then let! v := TokenIssuer_UnmarshalBinary new_TokenIssuer data in Ok (Account_TokenIssuer v) else
  if typ =? AccountTypeUnknown then let! v := UnknownAccount_UnmarshalBinary new_UnknownAccount data in Ok (Account_UnknownAccount v) else
  if typ =? AccountTypeUnknownSigner then let! v := UnknownSigner_UnmarshalBinary new_UnknownSigner data in Ok (Account_UnknownSigner v) else
  errorf "unknown type".

Definition Account_ok `{Union TB} (v : Account TB) : Prop :=
  match v with
  | Account_ADI v => ADI_ok v
  | Account_AnchorLedger v => AnchorLedger_ok v
  | Account_BlockLedger v => BlockLedger_ok v
  | Account_DataAccount v => DataAccount_ok v
  | Account_KeyBook v => KeyBook_ok v
  | Account_KeyPage v => KeyPage_ok v
  | Account_LiteDataAccount v => LiteDataAccount_ok v
  | Account_LiteIdentity v => LiteIdentity_ok v
  | Account_LiteTokenAccount v => LiteTokenAccount_ok v
  | Account_SyntheticLedger v => SyntheticLedger_ok v
  | Account_SystemLedger v => SystemLedger_ok v
  | Account_TokenAccount v => TokenAccount_ok v
  | Account_TokenIssuer v => TokenIssuer_ok v
  | Account_UnknownAccount v => UnknownAccount_ok v
  | Account_UnknownSigner v => UnknownSigner_ok v
  end.

Definition Account_Copy `{Union TB} (v : Account TB) : Account TB :=
  match v with
  | Account_ADI v => Account_ADI (ADI_Copy v)
  | Account_AnchorLedger v => Account_AnchorLedger (AnchorLedger_Copy v)
  | Account_BlockLedger v => Account_BlockLedger (BlockLedger_Copy v)
  | Account_DataAccount v => Account_DataAccount (DataAccount_Copy v)
  | Account_KeyBook v => Account_KeyBook (KeyBook_Copy v)
  | Account_KeyPage v => Account_KeyPage (KeyPage_Copy v)
  | Account_LiteDataAccount v => Account_LiteDataAccount (LiteDataAccount_Copy v)
  | Account_LiteIdentity v => Account_LiteIdentity (LiteIdentity_Copy v)
  | Account_LiteTokenAccount v => Account_LiteTokenAccount (LiteTokenAccount_Copy v)
  | Account_SyntheticLedger v => Account_SyntheticLedger (SyntheticLedger_Copy v)
  | Account_SystemLedger v => Account_SystemLedger (SystemLedger_Copy v)
  | Account_TokenAccount v => Account_TokenAccount (TokenAccount_Copy v)
  | Account_TokenIssuer v => Account_TokenIssuer (TokenIssuer_Copy v)
  | Account_UnknownAccount v => Account_UnknownAccount (UnknownAccount_Copy v)
  | Account_UnknownSigner v => Account_UnknownSigner (UnknownSigner_Copy v)
  end.

Lemma Account_copied `{Union TB} `{!UnionLaws TB} (v : Account TB) : Account_ok v -> Account_Copy v = v.
Proof. destruct v; cbn; intros; f_equal; eauto 2 with copies. Qed.
#[export] Hint Resolve Account_copied : copies.

Lemma Account_survives `{Union TB} `{!UnionLaws TB} (v : Account TB) : Account_ok v -> survives
    Account_MarshalBinary UnmarshalAccount v.
Proof. destruct v; wire_union. Qed.
#[export] Hint Resolve Account_survives : wire.

(** A signer is an account that can sign. *)
Definition is_Signer {TB} (a : Account TB) : bool :=
  match a with Account_LiteIdentity _ | Account_KeyPage _ | Account_UnknownSigner _ => true | _ => false end.

Definition UnmarshalSigner `{Union TB} (data : bytes) : res (Account TB) :=
  let! account := UnmarshalAccount data in
  if is_Signer account then Ok account else errorf "account type is not a signer".

Lemma Signer_survives `{Union TB} `{!UnionLaws TB} (a : Account TB) :
  Account_ok a -> is_Signer a = true -> survives Account_MarshalBinary UnmarshalSigner a.
Proof.
  intros Ha Hs. destruct (Account_survives a Ha) as (b & Em & Eu). exists b. split; [done|].
  unfold UnmarshalSigner. rewrite Eu. cbn [res_bind]. by rewrite Hs.
Qed.
#[export] Hint Resolve Signer_survives : wire.
