(* ===== verification/TypesSignatures.v ===== *)
(** * Generated types: signatures

    The signature types of [protocol/types_gen.go] and the union [Signature] of
    [protocol/unions_gen.go].  A delegated signature contains a signature: the types have
    a parameter [SG] for it, and [SignatureAt d] are the signatures nested at most [d]
    deep. *)

From S2P Require Import Prelude Encoding Codec CodecProofs DataEntry Url Enums Wire TypesGeneral TypesAccounts.
Local Open Scope Z_scope.
Import Url TxID.

Record BTCLegacySignature := { BTCLegacySignature_PublicKey : bytes; BTCLegacySignature_Signature : bytes;
  BTCLegacySignature_Signer : option URL; BTCLegacySignature_SignerVersion : Z; BTCLegacySignature_Timestamp : Z;
  BTCLegacySignature_Vote : Z; BTCLegacySignature_TransactionHash : bytes; BTCLegacySignature_extraData : bytes }.
Definition new_BTCLegacySignature : BTCLegacySignature := Build_BTCLegacySignature [] [] None 0 0 0 hash_zero [].

Definition BTCLegacySignature_Copy (v : BTCLegacySignature) : BTCLegacySignature := Build_BTCLegacySignature
  (BTCLegacySignature_PublicKey v) (BTCLegacySignature_Signature v) (BTCLegacySignature_Signer v)
  (BTCLegacySignature_SignerVersion v) (BTCLegacySignature_Timestamp v) (BTCLegacySignature_Vote v)
  (BTCLegacySignature_TransactionHash v) [].

Definition BTCLegacySignature_MarshalBinary (v : BTCLegacySignature) : res bytes :=
  finish (BTCLegacySignature_extraData v) (
    NewWriter
    |> WriteEnum 1 SignatureTypeBTCLegacy
    |> when (negb (is_empty (BTCLegacySignature_PublicKey v))) (WriteBytes 2 (BTCLegacySignature_PublicKey v))
    |> when (negb (is_empty (BTCLegacySignature_Signature v))) (WriteBytes 3 (BTCLegacySignature_Signature v))
    |> when (negb (is_nil (BTCLegacySignature_Signer v))) (writeUrl 4 (BTCLegacySignature_Signer v))
    |> when (negb (BTCLegacySignature_SignerVersion v =? 0)) (WriteUint 5 (BTCLegacySignature_SignerVersion v))
    |> when (negb (BTCLegacySignature_Timestamp v =? 0)) (WriteUint 6 (BTCLegacySignature_Timestamp v))
    |> when (negb (BTCLegacySignature_Vote v =? 0)) (WriteEnum 7 (BTCLegacySignature_Vote v))
    |> when (negb (bytes_eqb (BTCLegacySignature_TransactionHash v) hash_zero)) (WriteHash 8
       (BTCLegacySignature_TransactionHash v))).

Definition BTCLegacySignature_UnmarshalBinary (v : BTCLegacySignature) (data : bytes) : res BTCLegacySignature :=
  let reader := NewReader data in
  let '(vType, reader) := ReadEnum SignatureType_SetEnumValue 1 reader in
  if negb (SignatureTypeBTCLegacy =? default 0 vType) then errorf "field Type: not equal" else
  let '(xPublicKey, reader) := ReadBytes 2 reader in
  let '(xSignature, reader) := ReadBytes 3 reader in
  let '(xSigner, reader) := readUrl 4 reader in
  let '(xSignerVersion, reader) := ReadUint 5 reader in
  let '(xTimestamp, reader) := ReadUint 6 reader in
  let '(xVote, reader) := ReadEnum VoteType_SetEnumValue 7 reader in
  let '(xTransactionHash, reader) := ReadHash 8 reader in
  finish_read (Build_BTCLegacySignature (default (BTCLegacySignature_PublicKey v) xPublicKey) (default
    (BTCLegacySignature_Signature v) xSignature) (default (BTCLegacySignature_Signer v) xSigner) (default
    (BTCLegacySignature_SignerVersion v) xSignerVersion) (default (BTCLegacySignature_Timestamp v) xTimestamp)
    (default (BTCLegacySignature_Vote v) xVote) (default (BTCLegacySignature_TransactionHash v) xTransactionHash))
    reader.

Definition BTCLegacySignature_ok (v : BTCLegacySignature) : Prop :=
  bytes_ok (BTCLegacySignature_PublicKey v) /\ bytes_ok (BTCLegacySignature_Signature v) /\ url_ok
  (BTCLegacySignature_Signer v) /\ is_u64 (BTCLegacySignature_SignerVersion v) /\ is_u64
  (BTCLegacySignature_Timestamp v) /\ enum_or_zero VoteType_SetEnumValue (BTCLegacySignature_Vote v) /\ hash_ok
  (BTCLegacySignature_TransactionHash v) /\ BTCLegacySignature_extraData v = [].

Lemma BTCLegacySignature_survives (v : BTCLegacySignature) :
  BTCLegacySignature_ok v -> survives BTCLegacySignature_MarshalBinary (BTCLegacySignature_UnmarshalBinary
    new_BTCLegacySignature) v.
Proof. wire_roundtrip. Qed.
#[export] Hint Resolve BTCLegacySignature_survives : wire.
Lemma BTCLegacySignature_copied (v : BTCLegacySignature) : BTCLegacySignature_ok v -> BTCLegacySignature_Copy v = v.
Proof. wire_copy. Qed.
#[export] Hint Resolve BTCLegacySignature_copied : copies.
Lemma BTCLegacySignature_tagged (v : BTCLegacySignature) : BTCLegacySignature_ok v -> tagged
    BTCLegacySignature_MarshalBinary SignatureTypeBTCLegacy v.
Proof. wire_tagged. Qed.
#[export] Hint Resolve BTCLegacySignature_tagged : wire.

Record BTCSignature := { BTCSignature_PublicKey : bytes; BTCSignature_Signature : bytes; BTCSignature_Signer :
  option URL; BTCSignature_SignerVersion : Z; BTCSignature_Timestamp : Z; BTCSignature_Vote : Z;
  BTCSignature_TransactionHash : bytes; BTCSignature_extraData : bytes }.
Definition new_BTCSignature : BTCSignature := Build_BTCSignature [] [] None 0 0 0 hash_zero [].

Definition BTCSignature_Copy (v : BTCSignature) : BTCSignature := Build_BTCSignature (BTCSignature_PublicKey v)
  (BTCSignature_Signature v) (BTCSignature_Signer v) (BTCSignature_SignerVersion v) (BTCSignature_Timestamp v)
  (BTCSignature_Vote v) (BTCSignature_TransactionHash v) [].

Definition BTCSignature_MarshalBinary (v : BTCSignature) : res bytes :=
  finish (BTCSignature_extraData v) (
    NewWriter
    |> WriteEnum 1 SignatureTypeBTC
    |> when (negb (is_empty (BTCSignature_PublicKey v))) (WriteBytes 2 (BTCSignature_PublicKey v))
    |> when (negb (is_empty (BTCSignature_Signature v))) (WriteBytes 3 (BTCSignature_Signature v))
    |> when (negb (is_nil (BTCSignature_Signer v))) (writeUrl 4 (BTCSignature_Signer v))
    |> when (negb (BTCSignature_SignerVersion v =? 0)) (WriteUint 5 (BTCSignature_SignerVersion v))
    |> when (negb (BTCSignature_Timestamp v =? 0)) (WriteUint 6 (BTCSignature_Timestamp v))
    |> when (negb (BTCSignature_Vote v =? 0)) (WriteEnum 7 (BTCSignature_Vote v))
    |> when (negb (bytes_eqb (BTCSignature_TransactionHash v) hash_zero)) (WriteHash 8 (BTCSignature_TransactionHash
       v))).

Definition BTCSignature_UnmarshalBinary (v : BTCSignature) (data : bytes) : res BTCSignature :=
  let reader := NewReader data in
  let '(vType, reader) := ReadEnum SignatureType_SetEnumValue 1 reader in
  if negb (SignatureTypeBTC =? default 0 vType) then errorf "field Type: not equal" else
  let '(xPublicKey, reader) := ReadBytes 2 reader in
  let '(xSignature, reader) := ReadBytes 3 reader in
  let '(xSigner, reader) := readUrl 4 reader in
  let '(xSignerVersion, reader) := ReadUint 5 reader in
  let '(xTimestamp, reader) := ReadUint 6 reader in
  let '(xVote, reader) := ReadEnum VoteType_SetEnumValue 7 reader in
  let '(xTransactionHash, reader) := ReadHash 8 reader in
  finish_read (Build_BTCSignature (default (BTCSignature_PublicKey v) xPublicKey) (default (BTCSignature_Signature
    v) xSignature) (default (BTCSignature_Signer v) xSigner) (default (BTCSignature_SignerVersion v) xSignerVersion)
    (default (BTCSignature_Timestamp v) xTimestamp) (default (BTCSignature_Vote v) xVote) (default
    (BTCSignature_TransactionHash v) xTransactionHash)) reader.

Definition BTCSignature_ok (v : BTCSignature) : Prop :=
  bytes_ok (BTCSignature_PublicKey v) /\ bytes_ok (BTCSignature_Signature v) /\ url_ok (BTCSignature_Signer v) /\
  is_u64 (BTCSignature_SignerVersion v) /\ is_u64 (BTCSignature_Timestamp v) /\ enum_or_zero VoteType_SetEnumValue
  (BTCSignature_Vote v) /\ hash_ok (BTCSignature_TransactionHash v) /\ BTCSignature_extraData v = [].

Lemma BTCSignature_survives (v : BTCSignature) :
  BTCSignature_ok v -> survives BTCSignature_MarshalBinary (BTCSignature_UnmarshalBinary new_BTCSignature) v.
Proof. wire_roundtrip. Qed.
#[export] Hint Resolve BTCSignature_survives : wire.
Lemma BTCSignature_copied (v : BTCSignature) : BTCSignature_ok v -> BTCSignature_Copy v = v.
Proof. wire_copy. Qed.
#[export] Hint Resolve BTCSignature_copied : copies.
Lemma BTCSignature_tagged (v : BTCSignature) : BTCSignature_ok v -> tagged BTCSignature_MarshalBinary
    SignatureTypeBTC v.
Proof. wire_tagged. Qed.
#[export] Hint Resolve BTCSignature_tagged : wire.

Record DelegatedSignature (SG : Type) := { DelegatedSignature_Signature : option SG; DelegatedSignature_Delegator :
  option URL; DelegatedSignature_extraData : bytes }.
Arguments Build_DelegatedSignature {SG}.
Arguments DelegatedSignature_Signature {SG}.
Arguments DelegatedSignature_Delegator {SG}.
Arguments DelegatedSignature_extraData {SG}.
Definition new_DelegatedSignature {SG : Type} : DelegatedSignature SG := Build_DelegatedSignature None None [].

Definition DelegatedSignature_Copy `{Union SG} (v : DelegatedSignature SG) : DelegatedSignature SG :=
  Build_DelegatedSignature (u_Copy <$> DelegatedSignature_Signature v) (DelegatedSignature_Delegator v) [].

Definition DelegatedSignature_MarshalBinary `{Union SG} (v : DelegatedSignature SG) : res bytes :=
  finish (DelegatedSignature_extraData v) (
    NewWriter
    |> WriteEnum 1 SignatureTypeDelegated
    |> when (negb (is_nil (DelegatedSignature_Signature v))) (deref (DelegatedSignature_Signature v) (fun v =>
       writeValue 2 (u_Marshal v)))
    |> when (negb (is_nil (DelegatedSignature_Delegator v))) (writeUrl 3 (DelegatedSignature_Delegator v))).

Definition DelegatedSignature_UnmarshalBinary `{Union SG} (v : DelegatedSignature SG) (data : bytes) : res
    (DelegatedSignature SG) :=
  let reader := NewReader data in
  let '(vType, reader) := ReadEnum SignatureType_SetEnumValue 1 reader in
  if negb (SignatureTypeDelegated =? default 0 vType) then errorf "field Type: not equal" else
  let '(xSignature, reader) := readValue 2 u_Unmarshal reader in
  let '(xDelegator, reader) := readUrl 3 reader in
  finish_read (Build_DelegatedSignature (or_else xSignature (DelegatedSignature_Signature v)) (default
    (DelegatedSignature_Delegator v) xDelegator)) reader.

Definition DelegatedSignature_ok `{Union SG} (v : DelegatedSignature SG) : Prop :=
  (forall x, DelegatedSignature_Signature v = Some x -> u_ok x) /\ (forall x, DelegatedSignature_Signature v = Some
  x -> fits (u_Marshal x)) /\ url_ok (DelegatedSignature_Delegator v) /\ DelegatedSignature_extraData v = [].

Lemma DelegatedSignature_survives `{Union SG} `{!UnionLaws SG} (v : DelegatedSignature SG) :
  DelegatedSignature_ok v -> survives DelegatedSignature_MarshalBinary (DelegatedSignature_UnmarshalBinary
    new_DelegatedSignature) v.
Proof. wire_roundtrip. Qed.
#[export] Hint Resolve DelegatedSignature_survives : wire.
Lemma DelegatedSignature_copied `{Union SG} `{!UnionLaws SG} (v : DelegatedSignature SG) : DelegatedSignature_ok v
    -> DelegatedSignature_Copy v = v.
Proof. wire_copy. Qed.
#[export] Hint Resolve DelegatedSignature_copied : copies.
Lemma DelegatedSignature_tagged `{Union SG} `{!UnionLaws SG} (v : DelegatedSignature SG) : DelegatedSignature_ok v
    -> tagged DelegatedSignature_MarshalBinary SignatureTypeDelegated v.
Proof. wire_tagged. Qed.
#[export] Hint Resolve DelegatedSignature_tagged : wire.

Record ED25519Signature := { ED25519Signature_PublicKey : bytes; ED25519Signature_Signature : bytes;
  ED25519Signature_Signer : option URL; ED25519Signature_SignerVersion : Z; ED25519Signature_Timestamp : Z;
  ED25519Signature_Vote : Z; ED25519Signature_TransactionHash : bytes; ED25519Signature_extraData : bytes }.
Definition new_ED25519Signature : ED25519Signature := Build_ED25519Signature [] [] None 0 0 0 hash_zero [].

Definition ED25519Signature_Copy (v : ED25519Signature) : ED25519Signature := Build_ED25519Signature
  (ED25519Signature_PublicKey v) (ED25519Signature_Signature v) (ED25519Signature_Signer v)
  (ED25519Signature_SignerVersion v) (ED25519Signature_Timestamp v) (ED25519Signature_Vote v)
  (ED25519Signature_TransactionHash v) [].

Definition ED25519Signature_MarshalBinary (v : ED25519Signature) : res bytes :=
  finish (ED25519Signature_extraData v) (
    NewWriter
    |> WriteEnum 1 SignatureTypeED25519
    |> when (negb (is_empty (ED25519Signature_PublicKey v))) (WriteBytes 2 (ED25519Signature_PublicKey v))
    |> when (negb (is_empty (ED25519Signature_Signature v))) (WriteBytes 3 (ED25519Signature_Signature v))
    |> when (negb (is_nil (ED25519Signature_Signer v))) (writeUrl 4 (ED25519Signature_Signer v))
    |> when (negb (ED25519Signature_SignerVersion v =? 0)) (WriteUint 5 (ED25519Signature_SignerVersion v))
    |> when (negb (ED25519Signature_Timestamp v =? 0)) (WriteUint 6 (ED25519Signature_Timestamp v))
    |> when (negb (ED25519Signature_Vote v =? 0)) (WriteEnum 7 (ED25519Signature_Vote v))
    |> when (negb (bytes_eqb (ED25519Signature_TransactionHash v) hash_zero)) (WriteHash 8
       (ED25519Signature_TransactionHash v))).

Definition ED25519Signature_UnmarshalBinary (v : ED25519Signature) (data : bytes) : res ED25519Signature :=
  let reader := NewReader data in
  let '(vType, reader) := ReadEnum SignatureType_SetEnumValue 1 reader in
  if negb (SignatureTypeED25519 =? default 0 vType) then errorf "field Type: not equal" else
  let '(xPublicKey, reader) := ReadBytes 2 reader in
  let '(xSignature, reader) := ReadBytes 3 reader in
  let '(xSigner, reader) := readUrl 4 reader in
  let '(xSignerVersion, reader) := ReadUint 5 reader in
  let '(xTimestamp, reader) := ReadUint 6 reader in
  let '(xVote, reader) := ReadEnum VoteType_SetEnumValue 7 reader in
  let '(xTransactionHash, reader) := ReadHash 8 reader in
  finish_read (Build_ED25519Signature (default (ED25519Signature_PublicKey v) xPublicKey) (default
    (ED25519Signature_Signature v) xSignature) (default (ED25519Signature_Signer v) xSigner) (default
    (ED25519Signature_SignerVersion v) xSignerVersion) (default (ED25519Signature_Timestamp v) xTimestamp) (default
    (ED25519Signature_Vote v) xVote) (default (ED25519Signature_TransactionHash v) xTransactionHash)) reader.

Definition ED25519Signature_ok (v : ED25519Signature) : Prop :=
  bytes_ok (ED25519Signature_PublicKey v) /\ bytes_ok (ED25519Signature_Signature v) /\ url_ok
  (ED25519Signature_Signer v) /\ is_u64 (ED25519Signature_SignerVersion v) /\ is_u64 (ED25519Signature_Timestamp v)
  /\ enum_or_zero VoteType_SetEnumValue (ED25519Signature_Vote v) /\ hash_ok (ED25519Signature_TransactionHash v) /\
  ED25519Signature_extraData v = [].

Lemma ED25519Signature_survives (v : ED25519Signature) :
  ED25519Signature_ok v -> survives ED25519Signature_MarshalBinary (ED25519Signature_UnmarshalBinary
    new_ED25519Signature) v.
Proof. wire_roundtrip. Qed.
#[export] Hint Resolve ED25519Signature_survives : wire.
Lemma ED25519Signature_copied (v : ED25519Signature) : ED25519Signature_ok v -> ED25519Signature_Copy v = v.
Proof. wire_copy. Qed.
#[export] Hint Resolve ED25519Signature_copied : copies.
Lemma ED25519Signature_tagged (v : ED25519Signature) : ED25519Signature_ok v -> tagged
    ED25519Signature_MarshalBinary SignatureTypeED25519 v.
Proof. wire_tagged. Qed.
#[export] Hint Resolve ED25519Signature_tagged : wire.

Record ETHSignature := { ETHSignature_PublicKey : bytes; ETHSignature_Signature : bytes; ETHSignature_Signer :
  option URL; ETHSignature_SignerVersion : Z; ETHSignature_Timestamp : Z; ETHSignature_Vote : Z;
  ETHSignature_TransactionHash : bytes; ETHSignature_extraData : bytes }.
Definition new_ETHSignature : ETHSignature := Build_ETHSignature [] [] None 0 0 0 hash_zero [].

Definition ETHSignature_Copy (v : ETHSignature) : ETHSignature := Build_ETHSignature (ETHSignature_PublicKey v)
  (ETHSignature_Signature v) (ETHSignature_Signer v) (ETHSignature_SignerVersion v) (ETHSignature_Timestamp v)
  (ETHSignature_Vote v) (ETHSignature_TransactionHash v) [].

Definition ETHSignature_MarshalBinary (v : ETHSignature) : res bytes :=
  finish (ETHSignature_extraData v) (
    NewWriter
    |> WriteEnum 1 SignatureTypeETH
    |> when (negb (is_empty (ETHSignature_PublicKey v))) (WriteBytes 2 (ETHSignature_PublicKey v))
    |> when (negb (is_empty (ETHSignature_Signature v))) (WriteBytes 3 (ETHSignature_Signature v))
    |> when (negb (is_nil (ETHSignature_Signer v))) (writeUrl 4 (ETHSignature_Signer v))
    |> when (negb (ETHSignature_SignerVersion v =? 0)) (WriteUint 5 (ETHSignature_SignerVersion v))
    |> when (negb (ETHSignature_Timestamp v =? 0)) (WriteUint 6 (ETHSignature_Timestamp v))
    |> when (negb (ETHSignature_Vote v =? 0)) (WriteEnum 7 (ETHSignature_Vote v))
    |> when (negb (bytes_eqb (ETHSignature_TransactionHash v) hash_zero)) (WriteHash 8 (ETHSignature_TransactionHash
       v))).

Definition ETHSignature_UnmarshalBinary (v : ETHSignature) (data : bytes) : res ETHSignature :=
  let reader := NewReader data in
  let '(vType, reader) := ReadEnum SignatureType_SetEnumValue 1 reader in
  if negb (SignatureTypeETH =? default 0 vType) then errorf "field Type: not equal" else
  let '(xPublicKey, reader) := ReadBytes 2 reader in
  let '(xSignature, reader) := ReadBytes 3 reader in
  let '(xSigner, reader) := readUrl 4 reader in
  let '(xSignerVersion, reader) := ReadUint 5 reader in
  let '(xTimestamp, reader) := ReadUint 6 reader in
  let '(xVote, reader) := ReadEnum VoteType_SetEnumValue 7 reader in
  let '(xTransactionHash, reader) := ReadHash 8 reader in
  finish_read (Build_ETHSignature (default (ETHSignature_PublicKey v) xPublicKey) (default (ETHSignature_Signature
    v) xSignature) (default (ETHSignature_Signer v) xSigner) (default (ETHSignature_SignerVersion v) xSignerVersion)
    (default (ETHSignature_Timestamp v) xTimestamp) (default (ETHSignature_Vote v) xVote) (default
    (ETHSignature_TransactionHash v) xTransactionHash)) reader.

Definition ETHSignature_ok (v : ETHSignature) : Prop :=
  bytes_ok (ETHSignature_PublicKey v) /\ bytes_ok (ETHSignature_Signature v) /\ url_ok (ETHSignature_Signer v) /\
  is_u64 (ETHSignature_SignerVersion v) /\ is_u64 (ETHSignature_Timestamp v) /\ enum_or_zero VoteType_SetEnumValue
  (ETHSignature_Vote v) /\ hash_ok (ETHSignature_TransactionHash v) /\ ETHSignature_extraData v = [].

Lemma ETHSignature_survives (v : ETHSignature) :
  ETHSignature_ok v -> survives ETHSignature_MarshalBinary (ETHSignature_UnmarshalBinary new_ETHSignature) v.
Proof. wire_roundtrip. Qed.
#[export] Hint Resolve ETHSignature_survives : wire.
Lemma ETHSignature_copied (v : ETHSignature) : ETHSignature_ok v -> ETHSignature_Copy v = v.
Proof. wire_copy. Qed.
#[export] Hint Resolve ETHSignature_copied : copies.
Lemma ETHSignature_tagged (v : ETHSignature) : ETHSignature_ok v -> tagged ETHSignature_MarshalBinary
    SignatureTypeETH v.
Proof. wire_tagged. Qed.
#[export] Hint Resolve ETHSignature_tagged : wire.

Record InternalSignature := { InternalSignature_Cause : bytes; InternalSignature_TransactionHash : bytes;
  InternalSignature_extraData : bytes }.
Definition new_InternalSignature : InternalSignature := Build_InternalSignature hash_zero hash_zero [].

Definition InternalSignature_Copy (v : InternalSignature) : InternalSignature := Build_InternalSignature
  (InternalSignature_Cause v) (InternalSignature_TransactionHash v) [].

Definition InternalSignature_MarshalBinary (v : InternalSignature) : res bytes :=
  finish (InternalSignature_extraData v) (
    NewWriter
    |> WriteEnum 1 SignatureTypeInternal
    |> when (negb (bytes_eqb (InternalSignature_Cause v) hash_zero)) (WriteHash 2 (InternalSignature_Cause v))
    |> when (negb (bytes_eqb (InternalSignature_TransactionHash v) hash_zero)) (WriteHash 3
       (InternalSignature_TransactionHash v))).

Definition InternalSignature_UnmarshalBinary (v : InternalSignature) (data : bytes) : res InternalSignature :=
  let reader := NewReader data in
  let '(vType, reader) := ReadEnum SignatureType_SetEnumValue 1 reader in
  if negb (SignatureTypeInternal =? default 0 vType) then errorf "field Type: not equal" else
  let '(xCause, reader) := ReadHash 2 reader in
  let '(xTransactionHash, reader) := ReadHash 3 reader in
  finish_read (Build_InternalSignature (default (InternalSignature_Cause v) xCause) (default
    (InternalSignature_TransactionHash v) xTransactionHash)) reader.

Definition InternalSignature_ok (v : InternalSignature) : Prop :=
  hash_ok (InternalSignature_Cause v) /\ hash_ok (InternalSignature_TransactionHash v) /\
  InternalSignature_extraData v = [].

Lemma InternalSignature_survives (v : InternalSignature) :
  InternalSignature_ok v -> survives InternalSignature_MarshalBinary (InternalSignature_UnmarshalBinary
    new_InternalSignature) v.
Proof. wire_roundtrip. Qed.
#[export] Hint Resolve InternalSignature_survives : wire.
Lemma InternalSignature_copied (v : InternalSignature) : InternalSignature_ok v -> InternalSignature_Copy v = v.
Proof. wire_copy. Qed.
#[export] Hint Resolve InternalSignature_copied : copies.
Lemma InternalSignature_tagged (v : InternalSignature) : InternalSignature_ok v -> tagged
    InternalSignature_MarshalBinary SignatureTypeInternal v.
Proof. wire_tagged. Qed.
#[export] Hint Resolve InternalSignature_tagged : wire.

Record LegacyED25519Signature := { LegacyED25519Signature_Timestamp : Z; LegacyED25519Signature_PublicKey : bytes;
  LegacyED25519Signature_Signature : bytes; LegacyED25519Signature_Signer : option URL;
  LegacyED25519Signature_SignerVersion : Z; LegacyED25519Signature_Vote : Z; LegacyED25519Signature_TransactionHash
  : bytes; LegacyED25519Signature_extraData : bytes }.
Definition new_LegacyED25519Signature : LegacyED25519Signature := Build_LegacyED25519Signature 0 [] [] None 0 0
  hash_zero [].

Definition LegacyED25519Signature_Copy (v : LegacyED25519Signature) : LegacyED25519Signature :=
  Build_LegacyED25519Signature (LegacyED25519Signature_Timestamp v) (LegacyED25519Signature_PublicKey v)
  (LegacyED25519Signature_Signature v) (LegacyED25519Signature_Signer v) (LegacyED25519Signature_SignerVersion v)
  (LegacyED25519Signature_Vote v) (LegacyED25519Signature_TransactionHash v) [].

Definition LegacyED25519Signature_MarshalBinary (v : LegacyED25519Signature) : res bytes :=
  finish (LegacyED25519Signature_extraData v) (
    NewWriter
    |> WriteEnum 1 SignatureTypeLegacyED25519
    |> when (negb (LegacyED25519Signature_Timestamp v =? 0)) (WriteUint 2 (LegacyED25519Signature_Timestamp v))
    |> when (negb (is_empty (LegacyED25519Signature_PublicKey v))) (WriteBytes 3 (LegacyED25519Signature_PublicKey
       v))
    |> when (negb (is_empty (LegacyED25519Signature_Signature v))) (WriteBytes 4 (LegacyED25519Signature_Signature
       v))
    |> when (negb (is_nil (LegacyED25519Signature_Signer v))) (writeUrl 5 (LegacyED25519Signature_Signer v))
    |> when (negb (LegacyED25519Signature_SignerVersion v =? 0)) (WriteUint 6 (LegacyED25519Signature_SignerVersion
       v))
    |> when (negb (LegacyED25519Signature_Vote v =? 0)) (WriteEnum 7 (LegacyED25519Signature_Vote v))
    |> when (negb (bytes_eqb (LegacyED25519Signature_TransactionHash v) hash_zero)) (WriteHash 8
       (LegacyED25519Signature_TransactionHash v))).

Definition LegacyED25519Signature_UnmarshalBinary (v : LegacyED25519Signature) (data : bytes) : res
    LegacyED25519Signature :=
  let reader := NewReader data in
  let '(vType, reader) := ReadEnum SignatureType_SetEnumValue 1 reader in
  if negb (SignatureTypeLegacyED25519 =? default 0 vType) then errorf "field Type: not equal" else
  let '(xTimestamp, reader) := ReadUint 2 reader in
  let '(xPublicKey, reader) := ReadBytes 3 reader in
  let '(xSignature, reader) := ReadBytes 4 reader in
  let '(xSigner, reader) := readUrl 5 reader in
  let '(xSignerVersion, reader) := ReadUint 6 reader in
  let '(xVote, reader) := ReadEnum VoteType_SetEnumValue 7 reader in
  let '(xTransactionHash, reader) := ReadHash 8 reader in
  finish_read (Build_LegacyED25519Signature (default (LegacyED25519Signature_Timestamp v) xTimestamp) (default
    (LegacyED25519Signature_PublicKey v) xPublicKey) (default (LegacyED25519Signature_Signature v) xSignature)
    (default (LegacyED25519Signature_Signer v) xSigner) (default (LegacyED25519Signature_SignerVersion v)
    xSignerVersion) (default (LegacyED25519Signature_Vote v) xVote) (default (LegacyED25519Signature_TransactionHash
    v) xTransactionHash)) reader.

Definition LegacyED25519Signature_ok (v : LegacyED25519Signature) : Prop :=
  is_u64 (LegacyED25519Signature_Timestamp v) /\ bytes_ok (LegacyED25519Signature_PublicKey v) /\ bytes_ok
  (LegacyED25519Signature_Signature v) /\ url_ok (LegacyED25519Signature_Signer v) /\ is_u64
  (LegacyED25519Signature_SignerVersion v) /\ enum_or_zero VoteType_SetEnumValue (LegacyED25519Signature_Vote v) /\
  hash_ok (LegacyED25519Signature_TransactionHash v) /\ LegacyED25519Signature_extraData v = [].

Lemma LegacyED25519Signature_survives (v : LegacyED25519Signature) :
  LegacyED25519Signature_ok v -> survives LegacyED25519Signature_MarshalBinary
    (LegacyED25519Signature_UnmarshalBinary new_LegacyED25519Signature) v.
Proof. wire_roundtrip. Qed.
#[export] Hint Resolve LegacyED25519Signature_survives : wire.
Lemma LegacyED25519Signature_copied (v : LegacyED25519Signature) : LegacyED25519Signature_ok v ->
    LegacyED25519Signature_Copy v = v.
Proof. wire_copy. Qed.
#[export] Hint Resolve LegacyED25519Signature_copied : copies.
Lemma LegacyED25519Signature_tagged (v : LegacyED25519Signature) : LegacyED25519Signature_ok v -> tagged
    LegacyED25519Signature_MarshalBinary SignatureTypeLegacyED25519 v.
Proof. wire_tagged. Qed.
#[export] Hint Resolve LegacyED25519Signature_tagged : wire.

Record PartitionSignature := { PartitionSignature_SourceNetwork : option URL; PartitionSignature_DestinationNetwork
  : option URL; PartitionSignature_SequenceNumber : Z; PartitionSignature_TransactionHash : bytes;
  PartitionSignature_extraData : bytes }.
Definition new_PartitionSignature : PartitionSignature := Build_PartitionSignature None None 0 hash_zero [].

Definition PartitionSignature_Copy (v : PartitionSignature) : PartitionSignature := Build_PartitionSignature
  (PartitionSignature_SourceNetwork v) (PartitionSignature_DestinationNetwork v) (PartitionSignature_SequenceNumber
  v) (PartitionSignature_TransactionHash v) [].

Definition PartitionSignature_MarshalBinary (v : PartitionSignature) : res bytes :=
  finish (PartitionSignature_extraData v) (
    NewWriter
    |> WriteEnum 1 SignatureTypePartition
    |> when (negb (is_nil (PartitionSignature_SourceNetwork v))) (writeUrl 2 (PartitionSignature_SourceNetwork v))
    |> when (negb (is_nil (PartitionSignature_DestinationNetwork v))) (writeUrl 3
       (PartitionSignature_DestinationNetwork v))
    |> when (negb (PartitionSignature_SequenceNumber v =? 0)) (WriteUint 4 (PartitionSignature_SequenceNumber v))
    |> when (negb (bytes_eqb (PartitionSignature_TransactionHash v) hash_zero)) (WriteHash 5
       (PartitionSignature_TransactionHash v))).

Definition PartitionSignature_UnmarshalBinary (v : PartitionSignature) (data : bytes) : res PartitionSignature :=
  let reader := NewReader data in
  let '(vType, reader) := ReadEnum SignatureType_SetEnumValue 1 reader in
  if negb (SignatureTypePartition =? default 0 vType) then errorf "field Type: not equal" else
  let '(xSourceNetwork, reader) := readUrl 2 reader in
  let '(xDestinationNetwork, reader) := readUrl 3 reader in
  let '(xSequenceNumber, reader) := ReadUint 4 reader in
  let '(xTransactionHash, reader) := ReadHash 5 reader in
  finish_read (Build_PartitionSignature (default (PartitionSignature_SourceNetwork v) xSourceNetwork) (default
    (PartitionSignature_DestinationNetwork v) xDestinationNetwork) (default (PartitionSignature_SequenceNumber v)
    xSequenceNumber) (default (PartitionSignature_TransactionHash v) xTransactionHash)) reader.

Definition PartitionSignature_ok (v : PartitionSignature) : Prop :=
  url_ok (PartitionSignature_SourceNetwork v) /\ url_ok (PartitionSignature_DestinationNetwork v) /\ is_u64
  (PartitionSignature_SequenceNumber v) /\ hash_ok (PartitionSignature_TransactionHash v) /\
  PartitionSignature_extraData v = [].

Lemma PartitionSignature_survives (v : PartitionSignature) :
  PartitionSignature_ok v -> survives PartitionSignature_MarshalBinary (PartitionSignature_UnmarshalBinary
    new_PartitionSignature) v.
Proof. wire_roundtrip. Qed.
#[export] Hint Resolve PartitionSignature_survives : wire.
Lemma PartitionSignature_copied (v : PartitionSignature) : PartitionSignature_ok v -> PartitionSignature_Copy v = v.
Proof. wire_copy. Qed.
#[export] Hint Resolve PartitionSignature_copied : copies.
Lemma PartitionSignature_tagged (v : PartitionSignature) : PartitionSignature_ok v -> tagged
    PartitionSignature_MarshalBinary SignatureTypePartition v.
Proof. wire_tagged. Qed.
#[export] Hint Resolve PartitionSignature_tagged : wire.

Record RCD1Signature := { RCD1Signature_PublicKey : bytes; RCD1Signature_Signature : bytes; RCD1Signature_Signer :
  option URL; RCD1Signature_SignerVersion : Z; RCD1Signature_Timestamp : Z; RCD1Signature_Vote : Z;
  RCD1Signature_TransactionHash : bytes; RCD1Signature_extraData : bytes }.
Definition new_RCD1Signature : RCD1Signature := Build_RCD1Signature [] [] None 0 0 0 hash_zero [].

Definition RCD1Signature_Copy (v : RCD1Signature) : RCD1Signature := Build_RCD1Signature (RCD1Signature_PublicKey v)
  (RCD1Signature_Signature v) (RCD1Signature_Signer v) (RCD1Signature_SignerVersion v) (RCD1Signature_Timestamp v)
  (RCD1Signature_Vote v) (RCD1Signature_TransactionHash v) [].

Definition RCD1Signature_MarshalBinary (v : RCD1Signature) : res bytes :=
  finish (RCD1Signature_extraData v) (
    NewWriter
    |> WriteEnum 1 SignatureTypeRCD1
    |> when (negb (is_empty (RCD1Signature_PublicKey v))) (WriteBytes 2 (RCD1Signature_PublicKey v))
    |> when (negb (is_empty (RCD1Signature_Signature v))) (WriteBytes 3 (RCD1Signature_Signature v))
    |> when (negb (is_nil (RCD1Signature_Signer v))) (writeUrl 4 (RCD1Signature_Signer v))
    |> when (negb (RCD1Signature_SignerVersion v =? 0)) (WriteUint 5 (RCD1Signature_SignerVersion v))
    |> when (negb (RCD1Signature_Timestamp v =? 0)) (WriteUint 6 (RCD1Signature_Timestamp v))
    |> when (negb (RCD1Signature_Vote v =? 0)) (WriteEnum 7 (RCD1Signature_Vote v))
    |> when (negb (bytes_eqb (RCD1Signature_TransactionHash v) hash_zero)) (WriteHash 8
       (RCD1Signature_TransactionHash v))).

Definition RCD1Signature_UnmarshalBinary (v : RCD1Signature) (data : bytes) : res RCD1Signature :=
  let reader := NewReader data in
  let '(vType, reader) := ReadEnum SignatureType_SetEnumValue 1 reader in
  if negb (SignatureTypeRCD1 =? default 0 vType) then errorf "field Type: not equal" else
  let '(xPublicKey, reader) := ReadBytes 2 reader in
  let '(xSignature, reader) := ReadBytes 3 reader in
  let '(xSigner, reader) := readUrl 4 reader in
  let '(xSignerVersion, reader) := ReadUint 5 reader in
  let '(xTimestamp, reader) := ReadUint 6 reader in
  let '(xVote, reader) := ReadEnum VoteType_SetEnumValue 7 reader in
  let '(xTransactionHash, reader) := ReadHash 8 reader in
  finish_read (Build_RCD1Signature (default (RCD1Signature_PublicKey v) xPublicKey) (default
    (RCD1Signature_Signature v) xSignature) (default (RCD1Signature_Signer v) xSigner) (default
    (RCD1Signature_SignerVersion v) xSignerVersion) (default (RCD1Signature_Timestamp v) xTimestamp) (default
    (RCD1Signature_Vote v) xVote) (default (RCD1Signature_TransactionHash v) xTransactionHash)) reader.

Definition RCD1Signature_ok (v : RCD1Signature) : Prop :=
  bytes_ok (RCD1Signature_PublicKey v) /\ bytes_ok (RCD1Signature_Signature v) /\ url_ok (RCD1Signature_Signer v) /\
  is_u64 (RCD1Signature_SignerVersion v) /\ is_u64 (RCD1Signature_Timestamp v) /\ enum_or_zero VoteType_SetEnumValue
  (RCD1Signature_Vote v) /\ hash_ok (RCD1Signature_TransactionHash v) /\ RCD1Signature_extraData v = [].

Lemma RCD1Signature_survives (v : RCD1Signature) :
  RCD1Signature_ok v -> survives RCD1Signature_MarshalBinary (RCD1Signature_UnmarshalBinary new_RCD1Signature) v.
Proof. wire_roundtrip. Qed.
#[export] Hint Resolve RCD1Signature_survives : wire.
Lemma RCD1Signature_copied (v : RCD1Signature) : RCD1Signature_ok v -> RCD1Signature_Copy v = v.
Proof. wire_copy. Qed.
#[export] Hint Resolve RCD1Signature_copied : copies.
Lemma RCD1Signature_tagged (v : RCD1Signature) : RCD1Signature_ok v -> tagged RCD1Signature_MarshalBinary
    SignatureTypeRCD1 v.
Proof. wire_tagged. Qed.
#[export] Hint Resolve RCD1Signature_tagged : wire.

Record ReceiptSignature := { ReceiptSignature_SourceNetwork : option URL; ReceiptSignature_Proof : Receipt;
  ReceiptSignature_TransactionHash : bytes; ReceiptSignature_extraData : bytes }.
Definition new_ReceiptSignature : ReceiptSignature := Build_ReceiptSignature None new_Receipt hash_zero [].

Definition ReceiptSignature_Copy (v : ReceiptSignature) : ReceiptSignature := Build_ReceiptSignature
  (ReceiptSignature_SourceNetwork v) (Receipt_Copy (ReceiptSignature_Proof v)) (ReceiptSignature_TransactionHash v)
  [].

Definition ReceiptSignature_MarshalBinary (v : ReceiptSignature) : res bytes :=
  finish (ReceiptSignature_extraData v) (
    NewWriter
    |> WriteEnum 1 SignatureTypeReceipt
    |> when (negb (is_nil (ReceiptSignature_SourceNetwork v))) (writeUrl 2 (ReceiptSignature_SourceNetwork v))
    |> when (negb (Receipt_Equal (ReceiptSignature_Proof v) new_Receipt)) (writeValue 3 (Receipt_MarshalBinary
       (ReceiptSignature_Proof v)))
    |> when (negb (bytes_eqb (ReceiptSignature_TransactionHash v) hash_zero)) (WriteHash 4
       (ReceiptSignature_TransactionHash v))).

Definition ReceiptSignature_UnmarshalBinary (v : ReceiptSignature) (data : bytes) : res ReceiptSignature :=
  let reader := NewReader data in
  let '(vType, reader) := ReadEnum SignatureType_SetEnumValue 1 reader in
  if negb (SignatureTypeReceipt =? default 0 vType) then errorf "field Type: not equal" else
  let '(xSourceNetwork, reader) := readUrl 2 reader in
  let '(xProof, reader) := readValue 3 (Receipt_UnmarshalBinary new_Receipt) reader in
  let '(xTransactionHash, reader) := ReadHash 4 reader in
  finish_read (Build_ReceiptSignature (default (ReceiptSignature_SourceNetwork v) xSourceNetwork) (default
    (ReceiptSignature_Proof v) xProof) (default (ReceiptSignature_TransactionHash v) xTransactionHash)) reader.

Definition ReceiptSignature_ok (v : ReceiptSignature) : Prop :=
  url_ok (ReceiptSignature_SourceNetwork v) /\ Receipt_ok (ReceiptSignature_Proof v) /\ fits (Receipt_MarshalBinary
  (ReceiptSignature_Proof v)) /\ hash_ok (ReceiptSignature_TransactionHash v) /\ ReceiptSignature_extraData v = [].

Lemma ReceiptSignature_survives (v : ReceiptSignature) :
  ReceiptSignature_ok v -> survives ReceiptSignature_MarshalBinary (ReceiptSignature_UnmarshalBinary
    new_ReceiptSignature) v.
Proof. wire_roundtrip. Qed.
#[export] Hint Resolve ReceiptSignature_survives : wire.
Lemma ReceiptSignature_copied (v : ReceiptSignature) : ReceiptSignature_ok v -> ReceiptSignature_Copy v = v.
Proof. wire_copy. Qed.
#[export] Hint Resolve ReceiptSignature_copied : copies.
Lemma ReceiptSignature_tagged (v : ReceiptSignature) : ReceiptSignature_ok v -> tagged
    ReceiptSignature_MarshalBinary SignatureTypeReceipt v.
Proof. wire_tagged. Qed.
#[export] Hint Resolve ReceiptSignature_tagged : wire.

Record RemoteSignature (SG : Type) := { RemoteSignature_Destination : option URL; RemoteSignature_Signature : option
  SG; RemoteSignature_extraData : bytes }.
Arguments Build_RemoteSignature {SG}.
Arguments RemoteSignature_Destination {SG}.
Arguments RemoteSignature_Signature {SG}.
Arguments RemoteSignature_extraData {SG}.
Definition new_RemoteSignature {SG : Type} : RemoteSignature SG := Build_RemoteSignature None None [].

Definition RemoteSignature_Copy `{Union SG} (v : RemoteSignature SG) : RemoteSignature SG := Build_RemoteSignature
  (RemoteSignature_Destination v) (u_Copy <$> RemoteSignature_Signature v) [].

Definition RemoteSignature_MarshalBinary `{Union SG} (v : RemoteSignature SG) : res bytes :=
  finish (RemoteSignature_extraData v) (
    NewWriter
    |> WriteEnum 1 SignatureTypeRemote
    |> when (negb (is_nil (RemoteSignature_Destination v))) (writeUrl 2 (RemoteSignature_Destination v))
    |> when (negb (is_nil (RemoteSignature_Signature v))) (deref (RemoteSignature_Signature v) (fun v => writeValue
       3 (u_Marshal v)))).

Definition RemoteSignature_UnmarshalBinary `{Union SG} (v : RemoteSignature SG) (data : bytes) : res
    (RemoteSignature SG) :=
  let reader := NewReader data in
  let '(vType, reader) := ReadEnum SignatureType_SetEnumValue 1 reader in
  if negb (SignatureTypeRemote =? default 0 vType) then errorf "field Type: not equal" else
  let '(xDestination, reader) := readUrl 2 reader in
  let '(xSignature, reader) := readValue 3 u_Unmarshal reader in
  finish_read (Build_RemoteSignature (default (RemoteSignature_Destination v) xDestination) (or_else xSignature
    (RemoteSignature_Signature v))) reader.

Definition RemoteSignature_ok `{Union SG} (v : RemoteSignature SG) : Prop :=
  url_ok (RemoteSignature_Destination v) /\ (forall x, RemoteSignature_Signature v = Some x -> u_ok x) /\ (forall x,
  RemoteSignature_Signature v = Some x -> fits (u_Marshal x)) /\ RemoteSignature_extraData v = [].

Lemma RemoteSignature_survives `{Union SG} `{!UnionLaws SG} (v : RemoteSignature SG) :
  RemoteSignature_ok v -> survives RemoteSignature_MarshalBinary (RemoteSignature_UnmarshalBinary
    new_RemoteSignature) v.
Proof. wire_roundtrip. Qed.
#[export] Hint Resolve RemoteSignature_survives : wire.
Lemma RemoteSignature_copied `{Union SG} `{!UnionLaws SG} (v : RemoteSignature SG) : RemoteSignature_ok v ->
    RemoteSignature_Copy v = v.
Proof. wire_copy. Qed.
#[export] Hint Resolve RemoteSignature_copied : copies.
Lemma RemoteSignature_tagged `{Union SG} `{!UnionLaws SG} (v : RemoteSignature SG) : RemoteSignature_ok v -> tagged
    RemoteSignature_MarshalBinary SignatureTypeRemote v.
Proof. wire_tagged. Qed.
#[export] Hint Resolve RemoteSignature_tagged : wire.

Record SignatureSet (SG : Type) := { SignatureSet_Vote : Z; SignatureSet_Signer : option URL;
  SignatureSet_TransactionHash : bytes; SignatureSet_Signatures : list SG; SignatureSet_extraData : bytes }.
Arguments Build_SignatureSet {SG}.
Arguments SignatureSet_Vote {SG}.
Arguments SignatureSet_Signer {SG}.
Arguments SignatureSet_TransactionHash {SG}.
Arguments SignatureSet_Signatures {SG}.
Arguments SignatureSet_extraData {SG}.
Definition new_SignatureSet {SG : Type} : SignatureSet SG := Build_SignatureSet 0 None hash_zero [] [].

Definition SignatureSet_Copy `{Union SG} (v : SignatureSet SG) : SignatureSet SG := Build_SignatureSet
  (SignatureSet_Vote v) (SignatureSet_Signer v) (SignatureSet_TransactionHash v) (u_Copy <$> SignatureSet_Signatures
  v) [].

Definition SignatureSet_MarshalBinary `{Union SG} (v : SignatureSet SG) : res bytes :=
  finish (SignatureSet_extraData v) (
    NewWriter
    |> WriteEnum 1 SignatureTypeSet
    |> when (negb (SignatureSet_Vote v =? 0)) (WriteEnum 2 (SignatureSet_Vote v))
    |> when (negb (is_nil (SignatureSet_Signer v))) (writeUrl 3 (SignatureSet_Signer v))
    |> when (negb (bytes_eqb (SignatureSet_TransactionHash v) hash_zero)) (WriteHash 4 (SignatureSet_TransactionHash
       v))
    |> when (negb (is_empty (SignatureSet_Signatures v))) (range (SignatureSet_Signatures v) (fun v => writeValue 5
       (u_Marshal v)))).

Definition SignatureSet_UnmarshalBinary `{Union SG} (v : SignatureSet SG) (data : bytes) : res (SignatureSet SG) :=
  let reader := NewReader data in
  let '(vType, reader) := ReadEnum SignatureType_SetEnumValue 1 reader in
  if negb (SignatureTypeSet =? default 0 vType) then errorf "field Type: not equal" else
  let '(xVote, reader) := ReadEnum VoteType_SetEnumValue 2 reader in
  let '(xSigner, reader) := readUrl 3 reader in
  let '(xTransactionHash, reader) := ReadHash 4 reader in
  let '(xSignatures, reader) := read_list (readValue 5 u_Unmarshal) reader in
  finish_read (Build_SignatureSet (default (SignatureSet_Vote v) xVote) (default (SignatureSet_Signer v) xSigner)
    (default (SignatureSet_TransactionHash v) xTransactionHash) (SignatureSet_Signatures v ++ xSignatures)) reader.

Definition SignatureSet_ok `{Union SG} (v : SignatureSet SG) : Prop :=
  enum_or_zero VoteType_SetEnumValue (SignatureSet_Vote v) /\ url_ok (SignatureSet_Signer v) /\ hash_ok
  (SignatureSet_TransactionHash v) /\ (forall x, x ∈ SignatureSet_Signatures v -> u_ok x) /\ (forall x, x ∈
  SignatureSet_Signatures v -> fits (u_Marshal x)) /\ SignatureSet_extraData v = [].

Lemma SignatureSet_survives `{Union SG} `{!UnionLaws SG} (v : SignatureSet SG) :
  SignatureSet_ok v -> survives SignatureSet_MarshalBinary (SignatureSet_UnmarshalBinary new_SignatureSet) v.
Proof. wire_roundtrip. Qed.
#[export] Hint Resolve SignatureSet_survives : wire.
Lemma SignatureSet_copied `{Union SG} `{!UnionLaws SG} (v : SignatureSet SG) : SignatureSet_ok v ->
    SignatureSet_Copy v = v.
Proof. wire_copy. Qed.
#[export] Hint Resolve SignatureSet_copied : copies.
Lemma SignatureSet_tagged `{Union SG} `{!UnionLaws SG} (v : SignatureSet SG) : SignatureSet_ok v -> tagged
    SignatureSet_MarshalBinary SignatureTypeSet v.
Proof. wire_tagged. Qed.
#[export] Hint Resolve SignatureSet_tagged : wire.

Inductive Signature (SG : Type) :=
  | Signature_BTCLegacySignature (v : BTCLegacySignature)
  | Signature_BTCSignature (v : BTCSignature)
  | Signature_DelegatedSignature (v : DelegatedSignature SG)
  | Signature_ED25519Signature (v : ED25519Signature)
  | Signature_ETHSignature (v : ETHSignature)
  | Signature_InternalSignature (v : InternalSignature)
  | Signature_LegacyED25519Signature (v : LegacyED25519Signature)
  | Signature_PartitionSignature (v : PartitionSignature)
  | Signature_RCD1Signature (v : RCD1Signature)
  | Signature_ReceiptSignature (v : ReceiptSignature)
  | Signature_RemoteSignature (v : RemoteSignature SG)
  | Signature_SignatureSet (v : SignatureSet SG).
Arguments Signature_BTCLegacySignature {SG}.
Arguments Signature_BTCSignature {SG}.
Arguments Signature_DelegatedSignature {SG}.
Arguments Signature_ED25519Signature {SG}.
Arguments Signature_ETHSignature {SG}.
Arguments Signature_InternalSignature {SG}.
Arguments Signature_LegacyED25519Signature {SG}.
Arguments Signature_PartitionSignature {SG}.
Arguments Signature_RCD1Signature {SG}.
Arguments Signature_ReceiptSignature {SG}.
Arguments Signature_RemoteSignature {SG}.
Arguments Signature_SignatureSet {SG}.

Definition Signature_MarshalBinary `{Union SG} (v : Signature SG) : res bytes :=
  match v with
  | Signature_BTCLegacySignature v => BTCLegacySignature_MarshalBinary v
  | Signature_BTCSignature v => BTCSignature_MarshalBinary v
  | Signature_DelegatedSignature v => DelegatedSignature_MarshalBinary v
  | Signature_ED25519Signature v => ED25519Signature_MarshalBinary v
  | Signature_ETHSignature v => ETHSignature_MarshalBinary v
  | Signature_InternalSignature v => InternalSignature_MarshalBinary v
  | Signature_LegacyED25519Signature v => LegacyED25519Signature_MarshalBinary v
  | Signature_PartitionSignature v => PartitionSignature_MarshalBinary v
  | Signature_RCD1Signature v => RCD1Signature_MarshalBinary v
  | Signature_ReceiptSignature v => ReceiptSignature_MarshalBinary v
  | Signature_RemoteSignature v => RemoteSignature_MarshalBinary v
  | Signature_SignatureSet v => SignatureSet_MarshalBinary v
  end.

Definition UnmarshalSignature `{Union SG} (data : bytes) : res (Signature SG) :=
  let! typ := UnmarshalEnumType SignatureType_SetEnumValue data in
  if typ =? SignatureTypeBTCLegacy then let! v := BTCLegacySignature_UnmarshalBinary new_BTCLegacySignature data in Ok (Signature_BTCLegacySignature v) else
  if typ =? SignatureTypeBTC then let! v := BTCSignature_UnmarshalBinary new_BTCSignature data in Ok (Signature_BTCSignature v) else
  if typ =? SignatureTypeDelegated then let! v := DelegatedSignature_UnmarshalBinary new_DelegatedSignature data in Ok (Signature_DelegatedSignature v) else
  if typ =? SignatureTypeED25519 then let! v := ED25519Signature_UnmarshalBinary new_ED25519Signature data in Ok (Signature_ED25519Signature v) else
  if typ =? SignatureTypeETH then let! v := ETHSignature_UnmarshalBinary new_ETHSignature data in Ok (Signature_ETHSignature v) else
  if typ =? SignatureTypeInternal then let! v := InternalSignature_UnmarshalBinary new_InternalSignature data in Ok (Signature_InternalSignature v) else
  if typ =? SignatureTypeLegacyED25519 then let! v := LegacyED25519Signature_UnmarshalBinary new_LegacyED25519Signature data in Ok (Signature_LegacyED25519Signature v) else
  if typ =? SignatureTypePartition then let! v := PartitionSignature_UnmarshalBinary new_PartitionSignature data in Ok (Signature_PartitionSignature v) else
  if typ =? SignatureTypeRCD1 then let! v := RCD1Signature_UnmarshalBinary new_RCD1Signature data in Ok (Signature_RCD1Signature v) else
  if typ =? SignatureTypeReceipt then let! v := ReceiptSignature_UnmarshalBinary new_ReceiptSignature data in Ok (Signature_ReceiptSignature v) else
  if typ =? SignatureTypeRemote then let! v := RemoteSignature_UnmarshalBinary new_RemoteSignature data in Ok (Signature_RemoteSignature v) else
  if typ =? SignatureTypeSet then let! v := SignatureSet_UnmarshalBinary new_SignatureSet data in Ok (Signature_SignatureSet v) else
  errorf "unknown type".

Definition Signature_ok `{Union SG} (v : Signature SG) : Prop :=
  match v with
  | Signature_BTCLegacySignature v => BTCLegacySignature_ok v
  | Signature_BTCSignature v => BTCSignature_ok v
  | Signature_DelegatedSignature v => DelegatedSignature_ok v
  | Signature_ED25519Signature v => ED25519Signature_ok v
  | Signature_ETHSignature v => ETHSignature_ok v
  | Signature_InternalSignature v => InternalSignature_ok v
  | Signature_LegacyED25519Signature v => LegacyED25519Signature_ok v
  | Signature_PartitionSignature v => PartitionSignature_ok v
  | Signature_RCD1Signature v => RCD1Signature_ok v
  | Signature_ReceiptSignature v => ReceiptSignature_ok v
  | Signature_RemoteSignature v => RemoteSignature_ok v
  | Signature_SignatureSet v => SignatureSet_ok v
  end.

Definition Signature_Copy `{Union SG} (v : Signature SG) : Signature SG :=
  match v with
  | Signature_BTCLegacySignature v => Signature_BTCLegacySignature (BTCLegacySignature_Copy v)
  | Signature_BTCSignature v => Signature_BTCSignature (BTCSignature_Copy v)
  | Signature_DelegatedSignature v => Signature_DelegatedSignature (DelegatedSignature_Copy v)
  | Signature_ED25519Signature v => Signature_ED25519Signature (ED25519Signature_Copy v)
  | Signature_ETHSignature v => Signature_ETHSignature (ETHSignature_Copy v)
  | Signature_InternalSignature v => Signature_InternalSignature (InternalSignature_Copy v)
  | Signature_LegacyED25519Signature v => Signature_LegacyED25519Signature (LegacyED25519Signature_Copy v)
  | Signature_PartitionSignature v => Signature_PartitionSignature (PartitionSignature_Copy v)
  | Signature_RCD1Signature v => Signature_RCD1Signature (RCD1Signature_Copy v)
  | Signature_ReceiptSignature v => Signature_ReceiptSignature (ReceiptSignature_Copy v)
  | Signature_RemoteSignature v => Signature_RemoteSignature (RemoteSignature_Copy v)
  | Signature_SignatureSet v => Signature_SignatureSet (SignatureSet_Copy v)
  end.

Lemma Signature_copied `{Union SG} `{!UnionLaws SG} (v : Signature SG) : Signature_ok v -> Signature_Copy v = v.
Proof. destruct v; cbn; intros; f_equal; eauto 2 with copies. Qed.
#[export] Hint Resolve Signature_copied : copies.

Lemma Signature_survives `{Union SG} `{!UnionLaws SG} (v : Signature SG) : Signature_ok v -> survives
    Signature_MarshalBinary UnmarshalSignature v.
Proof. destruct v; wire_union. Qed.
#[export] Hint Resolve Signature_survives : wire.

(** ** Nested signatures *)

#[export] Instance Signature_union `{Union SG} : Union (Signature SG) := {|
  u_Marshal := Signature_MarshalBinary; u_Unmarshal := UnmarshalSignature;
  u_narrow := fun _ => true; u_Copy := Signature_Copy; u_ok := Signature_ok |}.

#[export] Instance Signature_laws `{Union SG} `{!UnionLaws SG} : UnionLaws (Signature SG).
Proof. split; intros x; [apply Signature_survives|apply Signature_copied]. Qed.

Fixpoint SignatureAt (depth : nat) : Type :=
  match depth with O => Empty_set | S d => Signature (SignatureAt d) end.

#[export] Instance SignatureAt_union : forall depth, Union (SignatureAt depth) :=
  fix at_ depth := match depth with O => empty_union | S d => @Signature_union _ (at_ d) end.

#[export] Instance SignatureAt_laws depth : UnionLaws (SignatureAt depth).
Proof. induction depth as [|d IH]; [split; intros []|]. exact Signature_laws. Qed.
