(* ===== verification/TypesTransactions.v ===== *)
(** * Generated types: transactions

    Transaction bodies, their union, transactions and envelopes of
    [protocol/types_gen.go] and [protocol/unions_gen.go].  A body can contain bodies (in
    forwarded transactions, anchors and system ledgers): the types have a parameter [TB],
    and [TransactionBodyAt d] are the bodies nested at most [d] deep. *)

From S2P Require Import Prelude Encoding Codec CodecProofs DataEntry Url Enums Wire TypesGeneral TypesAccounts TypesSignatures.
Local Open Scope Z_scope.
Import Url TxID.

Record AcmeFaucet := { AcmeFaucet_Url : option URL; AcmeFaucet_extraData : bytes }.
Definition new_AcmeFaucet : AcmeFaucet := Build_AcmeFaucet None [].

Definition AcmeFaucet_Copy (v : AcmeFaucet) : AcmeFaucet := Build_AcmeFaucet (AcmeFaucet_Url v) [].

Definition AcmeFaucet_MarshalBinary (v : AcmeFaucet) : res bytes :=
  finish (AcmeFaucet_extraData v) (
    NewWriter
    |> WriteEnum 1 TransactionTypeAcmeFaucet
    |> when (negb (is_nil (AcmeFaucet_Url v))) (writeUrl 2 (AcmeFaucet_Url v))).

Definition AcmeFaucet_UnmarshalBinary (v : AcmeFaucet) (data : bytes) : res AcmeFaucet :=
  let reader := NewReader data in
  let '(vType, reader) := ReadEnum TransactionType_SetEnumValue 1 reader in
  if negb (TransactionTypeAcmeFaucet =? default 0 vType) then errorf "field Type: not equal" else
  let '(xUrl, reader) := readUrl 2 reader in
  finish_read (Build_AcmeFaucet (default (AcmeFaucet_Url v) xUrl)) reader.

Definition AcmeFaucet_ok (v : AcmeFaucet) : Prop :=
  url_ok (AcmeFaucet_Url v) /\ AcmeFaucet_extraData v = [].

Lemma AcmeFaucet_survives (v : AcmeFaucet) :
  AcmeFaucet_ok v -> survives AcmeFaucet_MarshalBinary (AcmeFaucet_UnmarshalBinary new_AcmeFaucet) v.
Proof. wire_roundtrip. Qed.
#[export] Hint Resolve AcmeFaucet_survives : wire.
Lemma AcmeFaucet_copied (v : AcmeFaucet) : AcmeFaucet_ok v -> AcmeFaucet_Copy v = v.
Proof. wire_copy. Qed.
#[export] Hint Resolve AcmeFaucet_copied : copies.
Lemma AcmeFaucet_tagged (v : AcmeFaucet) : AcmeFaucet_ok v -> tagged AcmeFaucet_MarshalBinary
    TransactionTypeAcmeFaucet v.
Proof. wire_tagged. Qed.
#[export] Hint Resolve AcmeFaucet_tagged : wire.

Record AddAccountAuthorityOperation := { AddAccountAuthorityOperation_Authority : option URL;
  AddAccountAuthorityOperation_extraData : bytes }.
Definition new_AddAccountAuthorityOperation : AddAccountAuthorityOperation := Build_AddAccountAuthorityOperation
  None [].

Definition AddAccountAuthorityOperation_Copy (v : AddAccountAuthorityOperation) : AddAccountAuthorityOperation :=
  Build_AddAccountAuthorityOperation (AddAccountAuthorityOperation_Authority v) [].

Definition AddAccountAuthorityOperation_MarshalBinary (v : AddAccountAuthorityOperation) : res bytes :=
  finish (AddAccountAuthorityOperation_extraData v) (
    NewWriter
    |> WriteEnum 1 AccountAuthOperationTypeAddAuthority
    |> when (negb (is_nil (AddAccountAuthorityOperation_Authority v))) (writeUrl 2
       (AddAccountAuthorityOperation_Authority v))).

Definition AddAccountAuthorityOperation_UnmarshalBinary (v : AddAccountAuthorityOperation) (data : bytes) : res
    AddAccountAuthorityOperation :=
  let reader := NewReader data in
  let '(vType, reader) := ReadEnum AccountAuthOperationType_SetEnumValue 1 reader in
  if negb (AccountAuthOperationTypeAddAuthority =? default 0 vType) then errorf "field Type: not equal" else
  let '(xAuthority, reader) := readUrl 2 reader in
  finish_read (Build_AddAccountAuthorityOperation (default (AddAccountAuthorityOperation_Authority v) xAuthority))
    reader.

Definition AddAccountAuthorityOperation_ok (v : AddAccountAuthorityOperation) : Prop :=
  url_ok (AddAccountAuthorityOperation_Authority v) /\ AddAccountAuthorityOperation_extraData v = [].

Lemma AddAccountAuthorityOperation_survives (v : AddAccountAuthorityOperation) :
  AddAccountAuthorityOperation_ok v -> survives AddAccountAuthorityOperation_MarshalBinary
    (AddAccountAuthorityOperation_UnmarshalBinary new_AddAccountAuthorityOperation) v.
Proof. wire_roundtrip. Qed.
#[export] Hint Resolve AddAccountAuthorityOperation_survives : wire.
Lemma AddAccountAuthorityOperation_copied (v : AddAccountAuthorityOperation) : AddAccountAuthorityOperation_ok v ->
    AddAccountAuthorityOperation_Copy v = v.
Proof. wire_copy. Qed.
#[export] Hint Resolve AddAccountAuthorityOperation_copied : copies.
Lemma AddAccountAuthorityOperation_tagged (v : AddAccountAuthorityOperation) : AddAccountAuthorityOperation_ok v ->
    tagged AddAccountAuthorityOperation_MarshalBinary AccountAuthOperationTypeAddAuthority v.
Proof. wire_tagged. Qed.
#[export] Hint Resolve AddAccountAuthorityOperation_tagged : wire.

Record AddCredits := { AddCredits_Recipient : option URL; AddCredits_Amount : Z; AddCredits_Oracle : Z;
  AddCredits_extraData : bytes }.
Definition new_AddCredits : AddCredits := Build_AddCredits None 0 0 [].

Definition AddCredits_Copy (v : AddCredits) : AddCredits := Build_AddCredits (AddCredits_Recipient v)
  (AddCredits_Amount v) (AddCredits_Oracle v) [].

Definition AddCredits_MarshalBinary (v : AddCredits) : res bytes :=
  finish (AddCredits_extraData v) (
    NewWriter
    |> WriteEnum 1 TransactionTypeAddCredits
    |> when (negb (is_nil (AddCredits_Recipient v))) (writeUrl 2 (AddCredits_Recipient v))
    |> when (negb (AddCredits_Amount v =? 0)) (WriteBigInt 3 (AddCredits_Amount v))
    |> when (negb (AddCredits_Oracle v =? 0)) (WriteUint 4 (AddCredits_Oracle v))).

Definition AddCredits_UnmarshalBinary (v : AddCredits) (data : bytes) : res AddCredits :=
  let reader := NewReader data in
  let '(vType, reader) := ReadEnum TransactionType_SetEnumValue 1 reader in
  if negb (TransactionTypeAddCredits =? default 0 vType) then errorf "field Type: not equal" else
  let '(xRecipient, reader) := readUrl 2 reader in
  let '(xAmount, reader) := ReadBigInt 3 reader in
  let '(xOracle, reader) := ReadUint 4 reader in
  finish_read (Build_AddCredits (default (AddCredits_Recipient v) xRecipient) (default (AddCredits_Amount v)
    xAmount) (default (AddCredits_Oracle v) xOracle)) reader.

Definition AddCredits_ok (v : AddCredits) : Prop :=
  url_ok (AddCredits_Recipient v) /\ big_ok (AddCredits_Amount v) /\ is_u64 (AddCredits_Oracle v) /\
  AddCredits_extraData v = [].

Lemma AddCredits_survives (v : AddCredits) :
  AddCredits_ok v -> survives AddCredits_MarshalBinary (AddCredits_UnmarshalBinary new_AddCredits) v.
Proof. wire_roundtrip. Qed.
#[export] Hint Resolve AddCredits_survives : wire.
Lemma AddCredits_copied (v : AddCredits) : AddCredits_ok v -> AddCredits_Copy v = v.
Proof. wire_copy. Qed.
#[export] Hint Resolve AddCredits_copied : copies.
Lemma AddCredits_tagged (v : AddCredits) : AddCredits_ok v -> tagged AddCredits_MarshalBinary
    TransactionTypeAddCredits v.
Proof. wire_tagged. Qed.
#[export] Hint Resolve AddCredits_tagged : wire.

Record AddKeyOperation := { AddKeyOperation_Entry : KeySpecParams; AddKeyOperation_extraData : bytes }.
Definition new_AddKeyOperation : AddKeyOperation := Build_AddKeyOperation new_KeySpecParams [].

Definition AddKeyOperation_Copy (v : AddKeyOperation) : AddKeyOperation := Build_AddKeyOperation (KeySpecParams_Copy
  (AddKeyOperation_Entry v)) [].

Definition AddKeyOperation_MarshalBinary (v : AddKeyOperation) : res bytes :=
  finish (AddKeyOperation_extraData v) (
    NewWriter
    |> WriteEnum 1 KeyPageOperationTypeAdd
    |> when (negb (KeySpecParams_Equal (AddKeyOperation_Entry v) new_KeySpecParams)) (writeValue 2
       (KeySpecParams_MarshalBinary (AddKeyOperation_Entry v)))).

Definition AddKeyOperation_UnmarshalBinary (v : AddKeyOperation) (data : bytes) : res AddKeyOperation :=
  let reader := NewReader data in
  let '(vType, reader) := ReadEnum KeyPageOperationType_SetEnumValue 1 reader in
  if negb (KeyPageOperationTypeAdd =? default 0 vType) then errorf "field Type: not equal" else
  let '(xEntry, reader) := readValue 2 (KeySpecParams_UnmarshalBinary new_KeySpecParams) reader in
  finish_read (Build_AddKeyOperation (default (AddKeyOperation_Entry v) xEntry)) reader.

Definition AddKeyOperation_ok (v : AddKeyOperation) : Prop :=
  KeySpecParams_ok (AddKeyOperation_Entry v) /\ fits (KeySpecParams_MarshalBinary (AddKeyOperation_Entry v)) /\
  AddKeyOperation_extraData v = [].

Lemma AddKeyOperation_survives (v : AddKeyOperation) :
  AddKeyOperation_ok v -> survives AddKeyOperation_MarshalBinary (AddKeyOperation_UnmarshalBinary
    new_AddKeyOperation) v.
Proof. wire_roundtrip. Qed.
#[export] Hint Resolve AddKeyOperation_survives : wire.
Lemma AddKeyOperation_copied (v : AddKeyOperation) : AddKeyOperation_ok v -> AddKeyOperation_Copy v = v.
Proof. wire_copy. Qed.
#[export] Hint Resolve AddKeyOperation_copied : copies.
Lemma AddKeyOperation_tagged (v : AddKeyOperation) : AddKeyOperation_ok v -> tagged AddKeyOperation_MarshalBinary
    KeyPageOperationTypeAdd v.
Proof. wire_tagged. Qed.
#[export] Hint Resolve AddKeyOperation_tagged : wire.

Record BlockValidatorAnchor := { BlockValidatorAnchor_PartitionAnchor : PartitionAnchor;
  BlockValidatorAnchor_AcmeBurnt : Z; BlockValidatorAnchor_extraData : bytes }.
Definition new_BlockValidatorAnchor : BlockValidatorAnchor := Build_BlockValidatorAnchor new_PartitionAnchor 0 [].

Definition BlockValidatorAnchor_Copy (v : BlockValidatorAnchor) : BlockValidatorAnchor := Build_BlockValidatorAnchor
  (PartitionAnchor_Copy (BlockValidatorAnchor_PartitionAnchor v)) (BlockValidatorAnchor_AcmeBurnt v) [].

Definition BlockValidatorAnchor_MarshalBinary (v : BlockValidatorAnchor) : res bytes :=
  finish (BlockValidatorAnchor_extraData v) (
    NewWriter
    |> WriteEnum 1 TransactionTypeBlockValidatorAnchor
    |> writeValue 2 (PartitionAnchor_MarshalBinary (BlockValidatorAnchor_PartitionAnchor v))
    |> when (negb (BlockValidatorAnchor_AcmeBurnt v =? 0)) (WriteBigInt 3 (BlockValidatorAnchor_AcmeBurnt v))).

Definition BlockValidatorAnchor_UnmarshalBinary (v : BlockValidatorAnchor) (data : bytes) : res BlockValidatorAnchor
    :=
  let reader := NewReader data in
  let '(vType, reader) := ReadEnum TransactionType_SetEnumValue 1 reader in
  if negb (TransactionTypeBlockValidatorAnchor =? default 0 vType) then errorf "field Type: not equal" else
  let '(xPartitionAnchor, reader) := readValue 2 (PartitionAnchor_UnmarshalBinary
    (BlockValidatorAnchor_PartitionAnchor v)) reader in
  let '(xAcmeBurnt, reader) := ReadBigInt 3 reader in
  finish_read (Build_BlockValidatorAnchor (default (BlockValidatorAnchor_PartitionAnchor v) xPartitionAnchor)
    (default (BlockValidatorAnchor_AcmeBurnt v) xAcmeBurnt)) reader.

Definition BlockValidatorAnchor_ok (v : BlockValidatorAnchor) : Prop :=
  PartitionAnchor_ok (BlockValidatorAnchor_PartitionAnchor v) /\ fits (PartitionAnchor_MarshalBinary
  (BlockValidatorAnchor_PartitionAnchor v)) /\ big_ok (BlockValidatorAnchor_AcmeBurnt v) /\
  BlockValidatorAnchor_extraData v = [].

Lemma BlockValidatorAnchor_survives (v : BlockValidatorAnchor) :
  BlockValidatorAnchor_ok v -> survives BlockValidatorAnchor_MarshalBinary (BlockValidatorAnchor_UnmarshalBinary
    new_BlockValidatorAnchor) v.
Proof. wire_roundtrip. Qed.
#[export] Hint Resolve BlockValidatorAnchor_survives : wire.
Lemma BlockValidatorAnchor_copied (v : BlockValidatorAnchor) : BlockValidatorAnchor_ok v ->
    BlockValidatorAnchor_Copy v = v.
Proof. wire_copy. Qed.
#[export] Hint Resolve BlockValidatorAnchor_copied : copies.
Lemma BlockValidatorAnchor_tagged (v : BlockValidatorAnchor) : BlockValidatorAnchor_ok v -> tagged
    BlockValidatorAnchor_MarshalBinary TransactionTypeBlockValidatorAnchor v.
Proof. wire_tagged. Qed.
#[export] Hint Resolve BlockValidatorAnchor_tagged : wire.

Record BurnTokens := { BurnTokens_Amount : Z; BurnTokens_extraData : bytes }.
Definition new_BurnTokens : BurnTokens := Build_BurnTokens 0 [].

Definition BurnTokens_Copy (v : BurnTokens) : BurnTokens := Build_BurnTokens (BurnTokens_Amount v) [].

Definition BurnTokens_MarshalBinary (v : BurnTokens) : res bytes :=
  finish (BurnTokens_extraData v) (
    NewWriter
    |> WriteEnum 1 TransactionTypeBurnTokens
    |> when (negb (BurnTokens_Amount v =? 0)) (WriteBigInt 2 (BurnTokens_Amount v))).

Definition BurnTokens_UnmarshalBinary (v : BurnTokens) (data : bytes) : res BurnTokens :=
  let reader := NewReader data in
  let '(vType, reader) := ReadEnum TransactionType_SetEnumValue 1 reader in
  if negb (TransactionTypeBurnTokens =? default 0 vType) then errorf "field Type: not equal" else
  let '(xAmount, reader) := ReadBigInt 2 reader in
  finish_read (Build_BurnTokens (default (BurnTokens_Amount v) xAmount)) reader.

Definition BurnTokens_ok (v : BurnTokens) : Prop :=
  big_ok (BurnTokens_Amount v) /\ BurnTokens_extraData v = [].

Lemma BurnTokens_survives (v : BurnTokens) :
  BurnTokens_ok v -> survives BurnTokens_MarshalBinary (BurnTokens_UnmarshalBinary new_BurnTokens) v.
Proof. wire_roundtrip. Qed.
#[export] Hint Resolve BurnTokens_survives : wire.
Lemma BurnTokens_copied (v : BurnTokens) : BurnTokens_ok v -> BurnTokens_Copy v = v.
Proof. wire_copy. Qed.
#[export] Hint Resolve BurnTokens_copied : copies.
Lemma BurnTokens_tagged (v : BurnTokens) : BurnTokens_ok v -> tagged BurnTokens_MarshalBinary
    TransactionTypeBurnTokens v.
Proof. wire_tagged. Qed.
#[export] Hint Resolve BurnTokens_tagged : wire.

Record CreateDataAccount := { CreateDataAccount_Url : option URL; CreateDataAccount_Authorities : list (option URL);
  CreateDataAccount_extraData : bytes }.
Definition new_CreateDataAccount : CreateDataAccount := Build_CreateDataAccount None [] [].

Definition CreateDataAccount_Copy (v : CreateDataAccount) : CreateDataAccount := Build_CreateDataAccount
  (CreateDataAccount_Url v) (CreateDataAccount_Authorities v) [].

Definition CreateDataAccount_MarshalBinary (v : CreateDataAccount) : res bytes :=
  finish (CreateDataAccount_extraData v) (
    NewWriter
    |> WriteEnum 1 TransactionTypeCreateDataAccount
    |> when (negb (is_nil (CreateDataAccount_Url v))) (writeUrl 2 (CreateDataAccount_Url v))
    |> when (negb (is_empty (CreateDataAccount_Authorities v))) (range (CreateDataAccount_Authorities v) (fun v =>
       writeUrl 3 v))).

Definition CreateDataAccount_UnmarshalBinary (v : CreateDataAccount) (data : bytes) : res CreateDataAccount :=
  let reader := NewReader data in
  let '(vType, reader) := ReadEnum TransactionType_SetEnumValue 1 reader in
  if negb (TransactionTypeCreateDataAccount =? default 0 vType) then errorf "field Type: not equal" else
  let '(xUrl, reader) := readUrl 2 reader in
  let '(xAuthorities, reader) := read_list (readUrl 3) reader in
  finish_read (Build_CreateDataAccount (default (CreateDataAccount_Url v) xUrl) (CreateDataAccount_Authorities v ++
    xAuthorities)) reader.

Definition CreateDataAccount_ok (v : CreateDataAccount) : Prop :=
  url_ok (CreateDataAccount_Url v) /\ (forall x, x ∈ CreateDataAccount_Authorities v -> url_ok x) /\
  CreateDataAccount_extraData v = [].

Lemma CreateDataAccount_survives (v : CreateDataAccount) :
  CreateDataAccount_ok v -> survives CreateDataAccount_MarshalBinary (CreateDataAccount_UnmarshalBinary
    new_CreateDataAccount) v.
Proof. wire_roundtrip. Qed.
#[export] Hint Resolve CreateDataAccount_survives : wire.
Lemma CreateDataAccount_copied (v : CreateDataAccount) : CreateDataAccount_ok v -> CreateDataAccount_Copy v = v.
Proof. wire_copy. Qed.
#[export] Hint Resolve CreateDataAccount_copied : copies.
Lemma CreateDataAccount_tagged (v : CreateDataAccount) : CreateDataAccount_ok v -> tagged
    CreateDataAccount_MarshalBinary TransactionTypeCreateDataAccount v.
Proof. wire_tagged. Qed.
#[export] Hint Resolve CreateDataAccount_tagged : wire.

Record CreateIdentity := { CreateIdentity_Url : option URL; CreateIdentity_KeyHash : bytes;
  CreateIdentity_KeyBookUrl : option URL; CreateIdentity_Authorities : list (option URL); CreateIdentity_extraData :
  bytes }.
Definition new_CreateIdentity : CreateIdentity := Build_CreateIdentity None [] None [] [].

Definition CreateIdentity_Copy (v : CreateIdentity) : CreateIdentity := Build_CreateIdentity (CreateIdentity_Url v)
  (CreateIdentity_KeyHash v) (CreateIdentity_KeyBookUrl v) (CreateIdentity_Authorities v) [].

Definition CreateIdentity_MarshalBinary (v : CreateIdentity) : res bytes :=
  finish (CreateIdentity_extraData v) (
    NewWriter
    |> WriteEnum 1 TransactionTypeCreateIdentity
    |> when (negb (is_nil (CreateIdentity_Url v))) (writeUrl 2 (CreateIdentity_Url v))
    |> when (negb (is_empty (CreateIdentity_KeyHash v))) (WriteBytes 3 (CreateIdentity_KeyHash v))
    |> when (negb (is_nil (CreateIdentity_KeyBookUrl v))) (writeUrl 4 (CreateIdentity_KeyBookUrl v))
    |> when (negb (is_empty (CreateIdentity_Authorities v))) (range (CreateIdentity_Authorities v) (fun v =>
       writeUrl 6 v))).

Definition CreateIdentity_UnmarshalBinary (v : CreateIdentity) (data : bytes) : res CreateIdentity :=
  let reader := NewReader data in
  let '(vType, reader) := ReadEnum TransactionType_SetEnumValue 1 reader in
  if negb (TransactionTypeCreateIdentity =? default 0 vType) then errorf "field Type: not equal" else
  let '(xUrl, reader) := readUrl 2 reader in
  let '(xKeyHash, reader) := ReadBytes 3 reader in
  let '(xKeyBookUrl, reader) := readUrl 4 reader in
  let '(xAuthorities, reader) := read_list (readUrl 6) reader in
  finish_read (Build_CreateIdentity (default (CreateIdentity_Url v) xUrl) (default (CreateIdentity_KeyHash v)
    xKeyHash) (default (CreateIdentity_KeyBookUrl v) xKeyBookUrl) (CreateIdentity_Authorities v ++ xAuthorities))
    reader.

Definition CreateIdentity_ok (v : CreateIdentity) : Prop :=
  url_ok (CreateIdentity_Url v) /\ bytes_ok (CreateIdentity_KeyHash v) /\ url_ok (CreateIdentity_KeyBookUrl v) /\
  (forall x, x ∈ CreateIdentity_Authorities v -> url_ok x) /\ CreateIdentity_extraData v = [].

Lemma CreateIdentity_survives (v : CreateIdentity) :
  CreateIdentity_ok v -> survives CreateIdentity_MarshalBinary (CreateIdentity_UnmarshalBinary new_CreateIdentity)
    v.
Proof. wire_roundtrip. Qed.
#[export] Hint Resolve CreateIdentity_survives : wire.
Lemma CreateIdentity_copied (v : CreateIdentity) : CreateIdentity_ok v -> CreateIdentity_Copy v = v.
Proof. wire_copy. Qed.
#[export] Hint Resolve CreateIdentity_copied : copies.
Lemma CreateIdentity_tagged (v : CreateIdentity) : CreateIdentity_ok v -> tagged CreateIdentity_MarshalBinary
    TransactionTypeCreateIdentity v.
Proof. wire_tagged. Qed.
#[export] Hint Resolve CreateIdentity_tagged : wire.

Record CreateKeyBook := { CreateKeyBook_Url : option URL; CreateKeyBook_PublicKeyHash : bytes;
  CreateKeyBook_Authorities : list (option URL); CreateKeyBook_extraData : bytes }.
Definition new_CreateKeyBook : CreateKeyBook := Build_CreateKeyBook None [] [] [].

Definition CreateKeyBook_Copy (v : CreateKeyBook) : CreateKeyBook := Build_CreateKeyBook (CreateKeyBook_Url v)
  (CreateKeyBook_PublicKeyHash v) (CreateKeyBook_Authorities v) [].

Definition CreateKeyBook_MarshalBinary (v : CreateKeyBook) : res bytes :=
  finish (CreateKeyBook_extraData v) (
    NewWriter
    |> WriteEnum 1 TransactionTypeCreateKeyBook
    |> when (negb (is_nil (CreateKeyBook_Url v))) (writeUrl 2 (CreateKeyBook_Url v))
    |> when (negb (is_empty (CreateKeyBook_PublicKeyHash v))) (WriteBytes 3 (CreateKeyBook_PublicKeyHash v))
    |> when (negb (is_empty (CreateKeyBook_Authorities v))) (range (CreateKeyBook_Authorities v) (fun v => writeUrl
       5 v))).

Definition CreateKeyBook_UnmarshalBinary (v : CreateKeyBook) (data : bytes) : res CreateKeyBook :=
  let reader := NewReader data in
  let '(vType, reader) := ReadEnum TransactionType_SetEnumValue 1 reader in
  if negb (TransactionTypeCreateKeyBook =? default 0 vType) then errorf "field Type: not equal" else
  let '(xUrl, reader) := readUrl 2 reader in
  let '(xPublicKeyHash, reader) := ReadBytes 3 reader in
  let '(xAuthorities, reader) := read_list (readUrl 5) reader in
  finish_read (Build_CreateKeyBook (default (CreateKeyBook_Url v) xUrl) (default (CreateKeyBook_PublicKeyHash v)
    xPublicKeyHash) (CreateKeyBook_Authorities v ++ xAuthorities)) reader.

Definition CreateKeyBook_ok (v : CreateKeyBook) : Prop :=
  url_ok (CreateKeyBook_Url v) /\ bytes_ok (CreateKeyBook_PublicKeyHash v) /\ (forall x, x ∈
  CreateKeyBook_Authorities v -> url_ok x) /\ CreateKeyBook_extraData v = [].

Lemma CreateKeyBook_survives (v : CreateKeyBook) :
  CreateKeyBook_ok v -> survives CreateKeyBook_MarshalBinary (CreateKeyBook_UnmarshalBinary new_CreateKeyBook) v.
Proof. wire_roundtrip. Qed.
#[export] Hint Resolve CreateKeyBook_survives : wire.
Lemma CreateKeyBook_copied (v : CreateKeyBook) : CreateKeyBook_ok v -> CreateKeyBook_Copy v = v.
Proof. wire_copy. Qed.
#[export] Hint Resolve CreateKeyBook_copied : copies.
Lemma CreateKeyBook_tagged (v : CreateKeyBook) : CreateKeyBook_ok v -> tagged CreateKeyBook_MarshalBinary
    TransactionTypeCreateKeyBook v.
Proof. wire_tagged. Qed.
#[export] Hint Resolve CreateKeyBook_tagged : wire.

Record CreateKeyPage := { CreateKeyPage_Keys : list KeySpecParams; CreateKeyPage_extraData : bytes }.
Definition new_CreateKeyPage : CreateKeyPage := Build_CreateKeyPage [] [].

Definition CreateKeyPage_Copy (v : CreateKeyPage) : CreateKeyPage := Build_CreateKeyPage (KeySpecParams_Copy <$>
  CreateKeyPage_Keys v) [].

Definition CreateKeyPage_MarshalBinary (v : CreateKeyPage) : res bytes :=
  finish (CreateKeyPage_extraData v) (
    NewWriter
    |> WriteEnum 1 TransactionTypeCreateKeyPage
    |> when (negb (is_empty (CreateKeyPage_Keys v))) (range (CreateKeyPage_Keys v) (fun v => writeValue 2
       (KeySpecParams_MarshalBinary v)))).

Definition CreateKeyPage_UnmarshalBinary (v : CreateKeyPage) (data : bytes) : res CreateKeyPage :=
  let reader := NewReader data in
  let '(vType, reader) := ReadEnum TransactionType_SetEnumValue 1 reader in
  if negb (TransactionTypeCreateKeyPage =? default 0 vType) then errorf "field Type: not equal" else
  let '(xKeys, reader) := read_list (readValue 2 (KeySpecParams_UnmarshalBinary new_KeySpecParams)) reader in
  finish_read (Build_CreateKeyPage (CreateKeyPage_Keys v ++ xKeys)) reader.

Definition CreateKeyPage_ok (v : CreateKeyPage) : Prop :=
  (forall x, x ∈ CreateKeyPage_Keys v -> KeySpecParams_ok x) /\ (forall x, x ∈ CreateKeyPage_Keys v -> fits
  (KeySpecParams_MarshalBinary x)) /\ CreateKeyPage_extraData v = [].

Lemma CreateKeyPage_survives (v : CreateKeyPage) :
  CreateKeyPage_ok v -> survives CreateKeyPage_MarshalBinary (CreateKeyPage_UnmarshalBinary new_CreateKeyPage) v.
Proof. wire_roundtrip. Qed.
#[export] Hint Resolve CreateKeyPage_survives : wire.
Lemma CreateKeyPage_copied (v : CreateKeyPage) : CreateKeyPage_ok v -> CreateKeyPage_Copy v = v.
Proof. wire_copy. Qed.
#[export] Hint Resolve CreateKeyPage_copied : copies.
Lemma CreateKeyPage_tagged (v : CreateKeyPage) : CreateKeyPage_ok v -> tagged CreateKeyPage_MarshalBinary
    TransactionTypeCreateKeyPage v.
Proof. wire_tagged. Qed.
#[export] Hint Resolve CreateKeyPage_tagged : wire.

Record CreateLiteTokenAccount := { CreateLiteTokenAccount_extraData : bytes }.
Definition new_CreateLiteTokenAccount : CreateLiteTokenAccount := Build_CreateLiteTokenAccount [].

Definition CreateLiteTokenAccount_Copy (v : CreateLiteTokenAccount) : CreateLiteTokenAccount :=
  Build_CreateLiteTokenAccount [].

Definition CreateLiteTokenAccount_MarshalBinary (v : CreateLiteTokenAccount) : res bytes :=
  finish (CreateLiteTokenAccount_extraData v) (
    NewWriter
    |> WriteEnum 1 TransactionTypeCreateLiteTokenAccount).

Definition CreateLiteTokenAccount_UnmarshalBinary (v : CreateLiteTokenAccount) (data : bytes) : res
    CreateLiteTokenAccount :=
  let reader := NewReader data in
  let '(vType, reader) := ReadEnum TransactionType_SetEnumValue 1 reader in
  if negb (TransactionTypeCreateLiteTokenAccount =? default 0 vType) then errorf "field Type: not equal" else
  finish_read Build_CreateLiteTokenAccount reader.

Definition CreateLiteTokenAccount_ok (v : CreateLiteTokenAccount) : Prop :=
  CreateLiteTokenAccount_extraData v = [].

Lemma CreateLiteTokenAccount_survives (v : CreateLiteTokenAccount) :
  CreateLiteTokenAccount_ok v -> survives CreateLiteTokenAccount_MarshalBinary
    (CreateLiteTokenAccount_UnmarshalBinary new_CreateLiteTokenAccount) v.
Proof. wire_roundtrip. Qed.
#[export] Hint Resolve CreateLiteTokenAccount_survives : wire.
Lemma CreateLiteTokenAccount_copied (v : CreateLiteTokenAccount) : CreateLiteTokenAccount_ok v ->
    CreateLiteTokenAccount_Copy v = v.
Proof. wire_copy. Qed.
#[export] Hint Resolve CreateLiteTokenAccount_copied : copies.
Lemma CreateLiteTokenAccount_tagged (v : CreateLiteTokenAccount) : CreateLiteTokenAccount_ok v -> tagged
    CreateLiteTokenAccount_MarshalBinary TransactionTypeCreateLiteTokenAccount v.
Proof. wire_tagged. Qed.
#[export] Hint Resolve CreateLiteTokenAccount_tagged : wire.

Record CreateToken := { CreateToken_Url : option URL; CreateToken_Symbol : string; CreateToken_Precision : Z;
  CreateToken_Properties : option URL; CreateToken_SupplyLimit : option Z; CreateToken_Authorities : list (option
  URL); CreateToken_extraData : bytes }.
Definition new_CreateToken : CreateToken := Build_CreateToken None "" 0 None None [] [].

Definition CreateToken_Copy (v : CreateToken) : CreateToken := Build_CreateToken (CreateToken_Url v)
  (CreateToken_Symbol v) (CreateToken_Precision v) (CreateToken_Properties v) (CreateToken_SupplyLimit v)
  (CreateToken_Authorities v) [].

Definition CreateToken_MarshalBinary (v : CreateToken) : res bytes :=
  finish (CreateToken_extraData v) (
    NewWriter
    |> WriteEnum 1 TransactionTypeCreateToken
    |> when (negb (is_nil (CreateToken_Url v))) (writeUrl 2 (CreateToken_Url v))
    |> when (negb (String.eqb (CreateToken_Symbol v) "")) (WriteString 4 (CreateToken_Symbol v))
    |> when (negb (CreateToken_Precision v =? 0)) (WriteUint 5 (CreateToken_Precision v))
    |> when (negb (is_nil (CreateToken_Properties v))) (writeUrl 6 (CreateToken_Properties v))
    |> when (negb (is_nil (CreateToken_SupplyLimit v))) (deref (CreateToken_SupplyLimit v) (fun v => WriteBigInt 7
       v))
    |> when (negb (is_empty (CreateToken_Authorities v))) (range (CreateToken_Authorities v) (fun v => writeUrl 9
       v))).

Definition CreateToken_UnmarshalBinary (v : CreateToken) (data : bytes) : res CreateToken :=
  let reader := NewReader data in
  let '(vType, reader) := ReadEnum TransactionType_SetEnumValue 1 reader in
  if negb (TransactionTypeCreateToken =? default 0 vType) then errorf "field Type: not equal" else
  let '(xUrl, reader) := readUrl 2 reader in
  let '(xSymbol, reader) := ReadString 4 reader in
  let '(xPrecision, reader) := ReadUint 5 reader in
  let '(xProperties, reader) := readUrl 6 reader in
  let '(xSupplyLimit, reader) := ReadBigInt 7 reader in
  let '(xAuthorities, reader) := read_list (readUrl 9) reader in
  finish_read (Build_CreateToken (default (CreateToken_Url v) xUrl) (default (CreateToken_Symbol v) xSymbol)
    (default (CreateToken_Precision v) xPrecision) (default (CreateToken_Properties v) xProperties) (or_else
    xSupplyLimit (CreateToken_SupplyLimit v)) (CreateToken_Authorities v ++ xAuthorities)) reader.

Definition CreateToken_ok (v : CreateToken) : Prop :=
  url_ok (CreateToken_Url v) /\ string_ok (CreateToken_Symbol v) /\ is_u64 (CreateToken_Precision v) /\ url_ok
  (CreateToken_Properties v) /\ (forall x, CreateToken_SupplyLimit v = Some x -> big_ok x) /\ (forall x, x ∈
  CreateToken_Authorities v -> url_ok x) /\ CreateToken_extraData v = [].

Lemma CreateToken_survives (v : CreateToken) :
  CreateToken_ok v -> survives CreateToken_MarshalBinary (CreateToken_UnmarshalBinary new_CreateToken) v.
Proof. wire_roundtrip. Qed.
#[export] Hint Resolve CreateToken_survives : wire.
Lemma CreateToken_copied (v : CreateToken) : CreateToken_ok v -> CreateToken_Copy v = v.
Proof. wire_copy. Qed.
#[export] Hint Resolve CreateToken_copied : copies.
Lemma CreateToken_tagged (v : CreateToken) : CreateToken_ok v -> tagged CreateToken_MarshalBinary
    TransactionTypeCreateToken v.
Proof. wire_tagged. Qed.
#[export] Hint Resolve CreateToken_tagged : wire.

Record TokenIssuerProof := { TokenIssuerProof_Transaction : option CreateToken; TokenIssuerProof_Receipt : option
  Receipt; TokenIssuerProof_extraData : bytes }.
Definition new_TokenIssuerProof : TokenIssuerProof := Build_TokenIssuerProof None None [].

Definition TokenIssuerProof_Copy (v : TokenIssuerProof) : TokenIssuerProof := Build_TokenIssuerProof
  (CreateToken_Copy <$> TokenIssuerProof_Transaction v) (Receipt_Copy <$> TokenIssuerProof_Receipt v) [].

Definition TokenIssuerProof_MarshalBinary (v : TokenIssuerProof) : res bytes :=
  finish (TokenIssuerProof_extraData v) (
    NewWriter
    |> when (negb (is_nil (TokenIssuerProof_Transaction v))) (deref (TokenIssuerProof_Transaction v) (fun v =>
       writeValue 1 (CreateToken_MarshalBinary v)))
    |> when (negb (is_nil (TokenIssuerProof_Receipt v))) (deref (TokenIssuerProof_Receipt v) (fun v => writeValue 2
       (Receipt_MarshalBinary v)))).

Definition TokenIssuerProof_UnmarshalBinary (v : TokenIssuerProof) (data : bytes) : res TokenIssuerProof :=
  let reader := NewReader data in
  let '(xTransaction, reader) := readValue 1 (CreateToken_UnmarshalBinary new_CreateToken) reader in
  let '(xReceipt, reader) := readValue 2 (Receipt_UnmarshalBinary new_Receipt) reader in
  finish_read (Build_TokenIssuerProof (or_else xTransaction (TokenIssuerProof_Transaction v)) (or_else xReceipt
    (TokenIssuerProof_Receipt v))) reader.

Definition TokenIssuerProof_ok (v : TokenIssuerProof) : Prop :=
  (forall x, TokenIssuerProof_Transaction v = Some x -> CreateToken_ok x) /\ (forall x, TokenIssuerProof_Transaction
  v = Some x -> fits (CreateToken_MarshalBinary x)) /\ (forall x, TokenIssuerProof_Receipt v = Some x -> Receipt_ok
  x) /\ (forall x, TokenIssuerProof_Receipt v = Some x -> fits (Receipt_MarshalBinary x)) /\
  TokenIssuerProof_extraData v = [].

Lemma TokenIssuerProof_survives (v : TokenIssuerProof) :
  TokenIssuerProof_ok v -> survives TokenIssuerProof_MarshalBinary (TokenIssuerProof_UnmarshalBinary
    new_TokenIssuerProof) v.
Proof. wire_roundtrip. Qed.
#[export] Hint Resolve TokenIssuerProof_survives : wire.
Lemma TokenIssuerProof_copied (v : TokenIssuerProof) : TokenIssuerProof_ok v -> TokenIssuerProof_Copy v = v.
Proof. wire_copy. Qed.
#[export] Hint Resolve TokenIssuerProof_copied : copies.

Record CreateTokenAccount := { CreateTokenAccount_Url : option URL; CreateTokenAccount_TokenUrl : option URL;
  CreateTokenAccount_Authorities : list (option URL); CreateTokenAccount_Proof : option TokenIssuerProof;
  CreateTokenAccount_extraData : bytes }.
Definition new_CreateTokenAccount : CreateTokenAccount := Build_CreateTokenAccount None None [] None [].

Definition CreateTokenAccount_Copy (v : CreateTokenAccount) : CreateTokenAccount := Build_CreateTokenAccount
  (CreateTokenAccount_Url v) (CreateTokenAccount_TokenUrl v) (CreateTokenAccount_Authorities v)
  (TokenIssuerProof_Copy <$> CreateTokenAccount_Proof v) [].

Definition CreateTokenAccount_MarshalBinary (v : CreateTokenAccount) : res bytes :=
  finish (CreateTokenAccount_extraData v) (
    NewWriter
    |> WriteEnum 1 TransactionTypeCreateTokenAccount
    |> when (negb (is_nil (CreateTokenAccount_Url v))) (writeUrl 2 (CreateTokenAccount_Url v))
    |> when (negb (is_nil (CreateTokenAccount_TokenUrl v))) (writeUrl 3 (CreateTokenAccount_TokenUrl v))
    |> when (negb (is_empty (CreateTokenAccount_Authorities v))) (range (CreateTokenAccount_Authorities v) (fun v =>
       writeUrl 7 v))
    |> when (negb (is_nil (CreateTokenAccount_Proof v))) (deref (CreateTokenAccount_Proof v) (fun v => writeValue 8
       (TokenIssuerProof_MarshalBinary v)))).

Definition CreateTokenAccount_UnmarshalBinary (v : CreateTokenAccount) (data : bytes) : res CreateTokenAccount :=
  let reader := NewReader data in
  let '(vType, reader) := ReadEnum TransactionType_SetEnumValue 1 reader in
  if negb (TransactionTypeCreateTokenAccount =? default 0 vType) then errorf "field Type: not equal" else
  let '(xUrl, reader) := readUrl 2 reader in
  let '(xTokenUrl, reader) := readUrl 3 reader in
  let '(xAuthorities, reader) := read_list (readUrl 7) reader in
  let '(xProof, reader) := readValue 8 (TokenIssuerProof_UnmarshalBinary new_TokenIssuerProof) reader in
  finish_read (Build_CreateTokenAccount (default (CreateTokenAccount_Url v) xUrl) (default
    (CreateTokenAccount_TokenUrl v) xTokenUrl) (CreateTokenAccount_Authorities v ++ xAuthorities) (or_else xProof
    (CreateTokenAccount_Proof v))) reader.

Definition CreateTokenAccount_ok (v : CreateTokenAccount) : Prop :=
  url_ok (CreateTokenAccount_Url v) /\ url_ok (CreateTokenAccount_TokenUrl v) /\ (forall x, x ∈
  CreateTokenAccount_Authorities v -> url_ok x) /\ (forall x, CreateTokenAccount_Proof v = Some x ->
  TokenIssuerProof_ok x) /\ (forall x, CreateTokenAccount_Proof v = Some x -> fits (TokenIssuerProof_MarshalBinary
  x)) /\ CreateTokenAccount_extraData v = [].

Lemma CreateTokenAccount_survives (v : CreateTokenAccount) :
  CreateTokenAccount_ok v -> survives CreateTokenAccount_MarshalBinary (CreateTokenAccount_UnmarshalBinary
    new_CreateTokenAccount) v.
Proof. wire_roundtrip. Qed.
#[export] Hint Resolve CreateTokenAccount_survives : wire.
Lemma CreateTokenAccount_copied (v : CreateTokenAccount) : CreateTokenAccount_ok v -> CreateTokenAccount_Copy v = v.
Proof. wire_copy. Qed.
#[export] Hint Resolve CreateTokenAccount_copied : copies.
Lemma CreateTokenAccount_tagged (v : CreateTokenAccount) : CreateTokenAccount_ok v -> tagged
    CreateTokenAccount_MarshalBinary TransactionTypeCreateTokenAccount v.
Proof. wire_tagged. Qed.
#[export] Hint Resolve CreateTokenAccount_tagged : wire.

Record DirectoryAnchor (TB : Type) := { DirectoryAnchor_PartitionAnchor : PartitionAnchor; DirectoryAnchor_Updates :
  list (NetworkAccountUpdate TB); DirectoryAnchor_Receipts : list PartitionAnchorReceipt;
  DirectoryAnchor_MakeMajorBlock : Z; DirectoryAnchor_MakeMajorBlockTime : Z; DirectoryAnchor_extraData : bytes }.
Arguments Build_DirectoryAnchor {TB}.
Arguments DirectoryAnchor_PartitionAnchor {TB}.
Arguments DirectoryAnchor_Updates {TB}.
Arguments DirectoryAnchor_Receipts {TB}.
Arguments DirectoryAnchor_MakeMajorBlock {TB}.
Arguments DirectoryAnchor_MakeMajorBlockTime {TB}.
Arguments DirectoryAnchor_extraData {TB}.
Definition new_DirectoryAnchor {TB : Type} : DirectoryAnchor TB := Build_DirectoryAnchor new_PartitionAnchor [] [] 0
  time_zero [].

Definition DirectoryAnchor_Copy `{Union TB} (v : DirectoryAnchor TB) : DirectoryAnchor TB := Build_DirectoryAnchor
  (PartitionAnchor_Copy (DirectoryAnchor_PartitionAnchor v)) (NetworkAccountUpdate_Copy <$> DirectoryAnchor_Updates
  v) (PartitionAnchorReceipt_Copy <$> DirectoryAnchor_Receipts v) (DirectoryAnchor_MakeMajorBlock v)
  (DirectoryAnchor_MakeMajorBlockTime v) [].

Definition DirectoryAnchor_MarshalBinary `{Union TB} (v : DirectoryAnchor TB) : res bytes :=
  finish (DirectoryAnchor_extraData v) (
    NewWriter
    |> WriteEnum 1 TransactionTypeDirectoryAnchor
    |> writeValue 2 (PartitionAnchor_MarshalBinary (DirectoryAnchor_PartitionAnchor v))
    |> when (negb (is_empty (DirectoryAnchor_Updates v))) (range (DirectoryAnchor_Updates v) (fun v => writeValue 3
       (NetworkAccountUpdate_MarshalBinary v)))
    |> when (negb (is_empty (DirectoryAnchor_Receipts v))) (range (DirectoryAnchor_Receipts v) (fun v => writeValue
       4 (PartitionAnchorReceipt_MarshalBinary v)))
    |> when (negb (DirectoryAnchor_MakeMajorBlock v =? 0)) (WriteUint 5 (DirectoryAnchor_MakeMajorBlock v))
    |> when (negb (DirectoryAnchor_MakeMajorBlockTime v =? time_zero)) (WriteTime 6
       (DirectoryAnchor_MakeMajorBlockTime v))).

Definition DirectoryAnchor_UnmarshalBinary `{Union TB} (v : DirectoryAnchor TB) (data : bytes) : res
    (DirectoryAnchor TB) :=
  let reader := NewReader data in
  let '(vType, reader) := ReadEnum TransactionType_SetEnumValue 1 reader in
  if negb (TransactionTypeDirectoryAnchor =? default 0 vType) then errorf "field Type: not equal" else
  let '(xPartitionAnchor, reader) := readValue 2 (PartitionAnchor_UnmarshalBinary (DirectoryAnchor_PartitionAnchor
    v)) reader in
  let '(xUpdates, reader) := read_list (readValue 3 (NetworkAccountUpdate_UnmarshalBinary new_NetworkAccountUpdate))
    reader in
  let '(xReceipts, reader) := read_list (readValue 4 (PartitionAnchorReceipt_UnmarshalBinary
    new_PartitionAnchorReceipt)) reader in
  let '(xMakeMajorBlock, reader) := ReadUint 5 reader in
  let '(xMakeMajorBlockTime, reader) := ReadTime 6 reader in
  finish_read (Build_DirectoryAnchor (default (DirectoryAnchor_PartitionAnchor v) xPartitionAnchor)
    (DirectoryAnchor_Updates v ++ xUpdates) (DirectoryAnchor_Receipts v ++ xReceipts) (default
    (DirectoryAnchor_MakeMajorBlock v) xMakeMajorBlock) (default (DirectoryAnchor_MakeMajorBlockTime v)
    xMakeMajorBlockTime)) reader.

Definition DirectoryAnchor_ok `{Union TB} (v : DirectoryAnchor TB) : Prop :=
  PartitionAnchor_ok (DirectoryAnchor_PartitionAnchor v) /\ fits (PartitionAnchor_MarshalBinary
  (DirectoryAnchor_PartitionAnchor v)) /\ (forall x, x ∈ DirectoryAnchor_Updates v -> NetworkAccountUpdate_ok x) /\
  (forall x, x ∈ DirectoryAnchor_Updates v -> fits (NetworkAccountUpdate_MarshalBinary x)) /\ (forall x, x ∈
  DirectoryAnchor_Receipts v -> PartitionAnchorReceipt_ok x) /\ (forall x, x ∈ DirectoryAnchor_Receipts v -> fits
  (PartitionAnchorReceipt_MarshalBinary x)) /\ is_u64 (DirectoryAnchor_MakeMajorBlock v) /\ time_ok
  (DirectoryAnchor_MakeMajorBlockTime v) /\ DirectoryAnchor_extraData v = [].

Lemma DirectoryAnchor_survives `{Union TB} `{!UnionLaws TB} (v : DirectoryAnchor TB) :
  DirectoryAnchor_ok v -> survives DirectoryAnchor_MarshalBinary (DirectoryAnchor_UnmarshalBinary
    new_DirectoryAnchor) v.
Proof. wire_roundtrip. Qed.
#[export] Hint Resolve DirectoryAnchor_survives : wire.
Lemma DirectoryAnchor_copied `{Union TB} `{!UnionLaws TB} (v : DirectoryAnchor TB) : DirectoryAnchor_ok v ->
    DirectoryAnchor_Copy v = v.
Proof. wire_copy. Qed.
#[export] Hint Resolve DirectoryAnchor_copied : copies.
Lemma DirectoryAnchor_tagged `{Union TB} `{!UnionLaws TB} (v : DirectoryAnchor TB) : DirectoryAnchor_ok v -> tagged
    DirectoryAnchor_MarshalBinary TransactionTypeDirectoryAnchor v.
Proof. wire_tagged. Qed.
#[export] Hint Resolve DirectoryAnchor_tagged : wire.

Record DisableAccountAuthOperation := { DisableAccountAuthOperation_Authority : option URL;
  DisableAccountAuthOperation_extraData : bytes }.
Definition new_DisableAccountAuthOperation : DisableAccountAuthOperation := Build_DisableAccountAuthOperation None
  [].

Definition DisableAccountAuthOperation_Copy (v : DisableAccountAuthOperation) : DisableAccountAuthOperation :=
  Build_DisableAccountAuthOperation (DisableAccountAuthOperation_Authority v) [].

Definition DisableAccountAuthOperation_MarshalBinary (v : DisableAccountAuthOperation) : res bytes :=
  finish (DisableAccountAuthOperation_extraData v) (
    NewWriter
    |> WriteEnum 1 AccountAuthOperationTypeDisable
    |> when (negb (is_nil (DisableAccountAuthOperation_Authority v))) (writeUrl 2
       (DisableAccountAuthOperation_Authority v))).

Definition DisableAccountAuthOperation_UnmarshalBinary (v : DisableAccountAuthOperation) (data : bytes) : res
    DisableAccountAuthOperation :=
  let reader := NewReader data in
  let '(vType, reader) := ReadEnum AccountAuthOperationType_SetEnumValue 1 reader in
  if negb (AccountAuthOperationTypeDisable =? default 0 vType) then errorf "field Type: not equal" else
  let '(xAuthority, reader) := readUrl 2 reader in
  finish_read (Build_DisableAccountAuthOperation (default (DisableAccountAuthOperation_Authority v) xAuthority))
    reader.

Definition DisableAccountAuthOperation_ok (v : DisableAccountAuthOperation) : Prop :=
  url_ok (DisableAccountAuthOperation_Authority v) /\ DisableAccountAuthOperation_extraData v = [].

Lemma DisableAccountAuthOperation_survives (v : DisableAccountAuthOperation) :
  DisableAccountAuthOperation_ok v -> survives DisableAccountAuthOperation_MarshalBinary
    (DisableAccountAuthOperation_UnmarshalBinary new_DisableAccountAuthOperation) v.
Proof. wire_roundtrip. Qed.
#[export] Hint Resolve DisableAccountAuthOperation_survives : wire.
Lemma DisableAccountAuthOperation_copied (v : DisableAccountAuthOperation) : DisableAccountAuthOperation_ok v ->
    DisableAccountAuthOperation_Copy v = v.
Proof. wire_copy. Qed.
#[export] Hint Resolve DisableAccountAuthOperation_copied : copies.
Lemma DisableAccountAuthOperation_tagged (v : DisableAccountAuthOperation) : DisableAccountAuthOperation_ok v ->
    tagged DisableAccountAuthOperation_MarshalBinary AccountAuthOperationTypeDisable v.
Proof. wire_tagged. Qed.
#[export] Hint Resolve DisableAccountAuthOperation_tagged : wire.

Record EnableAccountAuthOperation := { EnableAccountAuthOperation_Authority : option URL;
  EnableAccountAuthOperation_extraData : bytes }.
Definition new_EnableAccountAuthOperation : EnableAccountAuthOperation := Build_EnableAccountAuthOperation None [].

Definition EnableAccountAuthOperation_Copy (v : EnableAccountAuthOperation) : EnableAccountAuthOperation :=
  Build_EnableAccountAuthOperation (EnableAccountAuthOperation_Authority v) [].

Definition EnableAccountAuthOperation_MarshalBinary (v : EnableAccountAuthOperation) : res bytes :=
  finish (EnableAccountAuthOperation_extraData v) (
    NewWriter
    |> WriteEnum 1 AccountAuthOperationTypeEnable
    |> when (negb (is_nil (EnableAccountAuthOperation_Authority v))) (writeUrl 2
       (EnableAccountAuthOperation_Authority v))).

Definition EnableAccountAuthOperation_UnmarshalBinary (v : EnableAccountAuthOperation) (data : bytes) : res
    EnableAccountAuthOperation :=
  let reader := NewReader data in
  let '(vType, reader) := ReadEnum AccountAuthOperationType_SetEnumValue 1 reader in
  if negb (AccountAuthOperationTypeEnable =? default 0 vType) then errorf "field Type: not equal" else
  let '(xAuthority, reader) := readUrl 2 reader in
  finish_read (Build_EnableAccountAuthOperation (default (EnableAccountAuthOperation_Authority v) xAuthority))
    reader.

Definition EnableAccountAuthOperation_ok (v : EnableAccountAuthOperation) : Prop :=
  url_ok (EnableAccountAuthOperation_Authority v) /\ EnableAccountAuthOperation_extraData v = [].

Lemma EnableAccountAuthOperation_survives (v : EnableAccountAuthOperation) :
  EnableAccountAuthOperation_ok v -> survives EnableAccountAuthOperation_MarshalBinary
    (EnableAccountAuthOperation_UnmarshalBinary new_EnableAccountAuthOperation) v.
Proof. wire_roundtrip. Qed.
#[export] Hint Resolve EnableAccountAuthOperation_survives : wire.
Lemma EnableAccountAuthOperation_copied (v : EnableAccountAuthOperation) : EnableAccountAuthOperation_ok v ->
    EnableAccountAuthOperation_Copy v = v.
Proof. wire_copy. Qed.
#[export] Hint Resolve EnableAccountAuthOperation_copied : copies.
Lemma EnableAccountAuthOperation_tagged (v : EnableAccountAuthOperation) : EnableAccountAuthOperation_ok v -> tagged
    EnableAccountAuthOperation_MarshalBinary AccountAuthOperationTypeEnable v.
Proof. wire_tagged. Qed.
#[export] Hint Resolve EnableAccountAuthOperation_tagged : wire.

Record Transaction (TB : Type) := { Transaction_Header : TransactionHeader; Transaction_Body : option TB;
  Transaction_extraData : bytes }.
Arguments Build_Transaction {TB}.
Arguments Transaction_Header {TB}.
Arguments Transaction_Body {TB}.
Arguments Transaction_extraData {TB}.
Definition new_Transaction {TB : Type} : Transaction TB := Build_Transaction new_TransactionHeader None [].

Definition Transaction_Copy `{Union TB} (v : Transaction TB) : Transaction TB := Build_Transaction
  (TransactionHeader_Copy (Transaction_Header v)) (u_Copy <$> Transaction_Body v) [].

Definition Transaction_MarshalBinary `{Union TB} (v : Transaction TB) : res bytes :=
  finish (Transaction_extraData v) (
    NewWriter
    |> when (negb (TransactionHeader_Equal (Transaction_Header v) new_TransactionHeader)) (writeValue 1
       (TransactionHeader_MarshalBinary (Transaction_Header v)))
    |> when (negb (is_nil (Transaction_Body v))) (deref (Transaction_Body v) (fun v => writeValue 2 (u_Marshal v)))).

Definition Transaction_UnmarshalBinary `{Union TB} (v : Transaction TB) (data : bytes) : res (Transaction TB) :=
  let reader := NewReader data in
  let '(xHeader, reader) := readValue 1 (TransactionHeader_UnmarshalBinary new_TransactionHeader) reader in
  let '(xBody, reader) := readValue 2 u_Unmarshal reader in
  finish_read (Build_Transaction (default (Transaction_Header v) xHeader) (or_else xBody (Transaction_Body v)))
    reader.

Definition Transaction_ok `{Union TB} (v : Transaction TB) : Prop :=
  TransactionHeader_ok (Transaction_Header v) /\ fits (TransactionHeader_MarshalBinary (Transaction_Header v)) /\
  (forall x, Transaction_Body v = Some x -> u_ok x) /\ (forall x, Transaction_Body v = Some x -> fits (u_Marshal x))
  /\ Transaction_extraData v = [].

Lemma Transaction_survives `{Union TB} `{!UnionLaws TB} (v : Transaction TB) :
  Transaction_ok v -> survives Transaction_MarshalBinary (Transaction_UnmarshalBinary new_Transaction) v.
Proof. wire_roundtrip. Qed.
#[export] Hint Resolve Transaction_survives : wire.
Lemma Transaction_copied `{Union TB} `{!UnionLaws TB} (v : Transaction TB) : Transaction_ok v -> Transaction_Copy v
    = v.
Proof. wire_copy. Qed.
#[export] Hint Resolve Transaction_copied : copies.

Record Envelope (SG : Type) (TB : Type) := { Envelope_Signatures : list SG; Envelope_TxHash : bytes;
  Envelope_Transaction : list (Transaction TB); Envelope_extraData : bytes }.
Arguments Build_Envelope {SG} {TB}.
Arguments Envelope_Signatures {SG} {TB}.
Arguments Envelope_TxHash {SG} {TB}.
Arguments Envelope_Transaction {SG} {TB}.
Arguments Envelope_extraData {SG} {TB}.
Definition new_Envelope {SG : Type} {TB : Type} : Envelope SG TB := Build_Envelope [] [] [] [].

Definition Envelope_Copy `{Union SG, Union TB} (v : Envelope SG TB) : Envelope SG TB := Build_Envelope (u_Copy <$>
  Envelope_Signatures v) (Envelope_TxHash v) (Transaction_Copy <$> Envelope_Transaction v) [].

Definition Envelope_MarshalBinary `{Union SG, Union TB} (v : Envelope SG TB) : res bytes :=
  finish (Envelope_extraData v) (
    NewWriter
    |> when (negb (is_empty (Envelope_Signatures v))) (range (Envelope_Signatures v) (fun v => writeValue 1
       (u_Marshal v)))
    |> when (negb (is_empty (Envelope_TxHash v))) (WriteBytes 2 (Envelope_TxHash v))
    |> when (negb (is_empty (Envelope_Transaction v))) (range (Envelope_Transaction v) (fun v => writeValue 3
       (Transaction_MarshalBinary v)))).

Definition Envelope_UnmarshalBinary `{Union SG, Union TB} (v : Envelope SG TB) (data : bytes) : res (Envelope SG TB)
    :=
  let reader := NewReader data in
  let '(xSignatures, reader) := read_list (readValue 1 u_Unmarshal) reader in
  let '(xTxHash, reader) := ReadBytes 2 reader in
  let '(xTransaction, reader) := read_list (readValue 3 (Transaction_UnmarshalBinary new_Transaction)) reader in
  finish_read (Build_Envelope (Envelope_Signatures v ++ xSignatures) (default (Envelope_TxHash v) xTxHash)
    (Envelope_Transaction v ++ xTransaction)) reader.

Definition Envelope_ok `{Union SG, Union TB} (v : Envelope SG TB) : Prop :=
  (forall x, x ∈ Envelope_Signatures v -> u_ok x) /\ (forall x, x ∈ Envelope_Signatures v -> fits (u_Marshal x)) /\
  bytes_ok (Envelope_TxHash v) /\ (forall x, x ∈ Envelope_Transaction v -> Transaction_ok x) /\ (forall x, x ∈
  Envelope_Transaction v -> fits (Transaction_MarshalBinary x)) /\ Envelope_extraData v = [].

Lemma Envelope_survives `{Union SG, Union TB} `{!UnionLaws SG, !UnionLaws TB} (v : Envelope SG TB) :
  Envelope_ok v -> survives Envelope_MarshalBinary (Envelope_UnmarshalBinary new_Envelope) v.
Proof. wire_roundtrip. Qed.
#[export] Hint Resolve Envelope_survives : wire.
Lemma Envelope_copied `{Union SG, Union TB} `{!UnionLaws SG, !UnionLaws TB} (v : Envelope SG TB) : Envelope_ok v ->
    Envelope_Copy v = v.
Proof. wire_copy. Qed.
#[export] Hint Resolve Envelope_copied : copies.

Record IssueTokens := { IssueTokens_Recipient : option URL; IssueTokens_Amount : Z; IssueTokens_To : list
  TokenRecipient; IssueTokens_extraData : bytes }.
Definition new_IssueTokens : IssueTokens := Build_IssueTokens None 0 [] [].

Definition IssueTokens_Copy (v : IssueTokens) : IssueTokens := Build_IssueTokens (IssueTokens_Recipient v)
  (IssueTokens_Amount v) (TokenRecipient_Copy <$> IssueTokens_To v) [].

Definition IssueTokens_MarshalBinary (v : IssueTokens) : res bytes :=
  finish (IssueTokens_extraData v) (
    NewWriter
    |> WriteEnum 1 TransactionTypeIssueTokens
    |> when (negb (is_nil (IssueTokens_Recipient v))) (writeUrl 2 (IssueTokens_Recipient v))
    |> when (negb (IssueTokens_Amount v =? 0)) (WriteBigInt 3 (IssueTokens_Amount v))
    |> when (negb (is_empty (IssueTokens_To v))) (range (IssueTokens_To v) (fun v => writeValue 4
       (TokenRecipient_MarshalBinary v)))).

Definition IssueTokens_UnmarshalBinary (v : IssueTokens) (data : bytes) : res IssueTokens :=
  let reader := NewReader data in
  let '(vType, reader) := ReadEnum TransactionType_SetEnumValue 1 reader in
  if negb (TransactionTypeIssueTokens =? default 0 vType) then errorf "field Type: not equal" else
  let '(xRecipient, reader) := readUrl 2 reader in
  let '(xAmount, reader) := ReadBigInt 3 reader in
  let '(xTo, reader) := read_list (readValue 4 (TokenRecipient_UnmarshalBinary new_TokenRecipient)) reader in
  finish_read (Build_IssueTokens (default (IssueTokens_Recipient v) xRecipient) (default (IssueTokens_Amount v)
    xAmount) (IssueTokens_To v ++ xTo)) reader.

Definition IssueTokens_ok (v : IssueTokens) : Prop :=
  url_ok (IssueTokens_Recipient v) /\ big_ok (IssueTokens_Amount v) /\ (forall x, x ∈ IssueTokens_To v ->
  TokenRecipient_ok x) /\ (forall x, x ∈ IssueTokens_To v -> fits (TokenRecipient_MarshalBinary x)) /\
  IssueTokens_extraData v = [].

Lemma IssueTokens_survives (v : IssueTokens) :
  IssueTokens_ok v -> survives IssueTokens_MarshalBinary (IssueTokens_UnmarshalBinary new_IssueTokens) v.
Proof. wire_roundtrip. Qed.
#[export] Hint Resolve IssueTokens_survives : wire.
Lemma IssueTokens_copied (v : IssueTokens) : IssueTokens_ok v -> IssueTokens_Copy v = v.
Proof. wire_copy. Qed.
#[export] Hint Resolve IssueTokens_copied : copies.
Lemma IssueTokens_tagged (v : IssueTokens) : IssueTokens_ok v -> tagged IssueTokens_MarshalBinary
    TransactionTypeIssueTokens v.
Proof. wire_tagged. Qed.
#[export] Hint Resolve IssueTokens_tagged : wire.

Record LockAccount := { LockAccount_Height : Z; LockAccount_extraData : bytes }.
Definition new_LockAccount : LockAccount := Build_LockAccount 0 [].

Definition LockAccount_Copy (v : LockAccount) : LockAccount := Build_LockAccount (LockAccount_Height v) [].

Definition LockAccount_MarshalBinary (v : LockAccount) : res bytes :=
  finish (LockAccount_extraData v) (
    NewWriter
    |> WriteEnum 1 TransactionTypeLockAccount
    |> when (negb (LockAccount_Height v =? 0)) (WriteUint 2 (LockAccount_Height v))).

Definition LockAccount_UnmarshalBinary (v : LockAccount) (data : bytes) : res LockAccount :=
  let reader := NewReader data in
  let '(vType, reader) := ReadEnum TransactionType_SetEnumValue 1 reader in
  if negb (TransactionTypeLockAccount =? default 0 vType) then errorf "field Type: not equal" else
  let '(xHeight, reader) := ReadUint 2 reader in
  finish_read (Build_LockAccount (default (LockAccount_Height v) xHeight)) reader.

Definition LockAccount_ok (v : LockAccount) : Prop :=
  is_u64 (LockAccount_Height v) /\ LockAccount_extraData v = [].

Lemma LockAccount_survives (v : LockAccount) :
  LockAccount_ok v -> survives LockAccount_MarshalBinary (LockAccount_UnmarshalBinary new_LockAccount) v.
Proof. wire_roundtrip. Qed.
#[export] Hint Resolve LockAccount_survives : wire.
Lemma LockAccount_copied (v : LockAccount) : LockAccount_ok v -> LockAccount_Copy v = v.
Proof. wire_copy. Qed.
#[export] Hint Resolve LockAccount_copied : copies.
Lemma LockAccount_tagged (v : LockAccount) : LockAccount_ok v -> tagged LockAccount_MarshalBinary
    TransactionTypeLockAccount v.
Proof. wire_tagged. Qed.
#[export] Hint Resolve LockAccount_tagged : wire.

Record RemoteTransaction := { RemoteTransaction_Hash : bytes; RemoteTransaction_extraData : bytes }.
Definition new_RemoteTransaction : RemoteTransaction := Build_RemoteTransaction hash_zero [].

Definition RemoteTransaction_Copy (v : RemoteTransaction) : RemoteTransaction := Build_RemoteTransaction
  (RemoteTransaction_Hash v) [].

Definition RemoteTransaction_MarshalBinary (v : RemoteTransaction) : res bytes :=
  finish (RemoteTransaction_extraData v) (
    NewWriter
    |> WriteEnum 1 TransactionTypeRemote
    |> when (negb (bytes_eqb (RemoteTransaction_Hash v) hash_zero)) (WriteHash 2 (RemoteTransaction_Hash v))).

Definition RemoteTransaction_UnmarshalBinary (v : RemoteTransaction) (data : bytes) : res RemoteTransaction :=
  let reader := NewReader data in
  let '(vType, reader) := ReadEnum TransactionType_SetEnumValue 1 reader in
  if negb (TransactionTypeRemote =? default 0 vType) then errorf "field Type: not equal" else
  let '(xHash, reader) := ReadHash 2 reader in
  finish_read (Build_RemoteTransaction (default (RemoteTransaction_Hash v) xHash)) reader.

Definition RemoteTransaction_ok (v : RemoteTransaction) : Prop :=
  hash_ok (RemoteTransaction_Hash v) /\ RemoteTransaction_extraData v = [].

Lemma RemoteTransaction_survives (v : RemoteTransaction) :
  RemoteTransaction_ok v -> survives RemoteTransaction_MarshalBinary (RemoteTransaction_UnmarshalBinary
    new_RemoteTransaction) v.
Proof. wire_roundtrip. Qed.
#[export] Hint Resolve RemoteTransaction_survives : wire.
Lemma RemoteTransaction_copied (v : RemoteTransaction) : RemoteTransaction_ok v -> RemoteTransaction_Copy v = v.
Proof. wire_copy. Qed.
#[export] Hint Resolve RemoteTransaction_copied : copies.
Lemma RemoteTransaction_tagged (v : RemoteTransaction) : RemoteTransaction_ok v -> tagged
    RemoteTransaction_MarshalBinary TransactionTypeRemote v.
Proof. wire_tagged. Qed.
#[export] Hint Resolve RemoteTransaction_tagged : wire.

Record RemoveAccountAuthorityOperation := { RemoveAccountAuthorityOperation_Authority : option URL;
  RemoveAccountAuthorityOperation_extraData : bytes }.
Definition new_RemoveAccountAuthorityOperation : RemoveAccountAuthorityOperation :=
  Build_RemoveAccountAuthorityOperation None [].

Definition RemoveAccountAuthorityOperation_Copy (v : RemoveAccountAuthorityOperation) :
  RemoveAccountAuthorityOperation := Build_RemoveAccountAuthorityOperation
  (RemoveAccountAuthorityOperation_Authority v) [].

Definition RemoveAccountAuthorityOperation_MarshalBinary (v : RemoveAccountAuthorityOperation) : res bytes :=
  finish (RemoveAccountAuthorityOperation_extraData v) (
    NewWriter
    |> WriteEnum 1 AccountAuthOperationTypeRemoveAuthority
    |> when (negb (is_nil (RemoveAccountAuthorityOperation_Authority v))) (writeUrl 2
       (RemoveAccountAuthorityOperation_Authority v))).

Definition RemoveAccountAuthorityOperation_UnmarshalBinary (v : RemoveAccountAuthorityOperation) (data : bytes) :
    res RemoveAccountAuthorityOperation :=
  let reader := NewReader data in
  let '(vType, reader) := ReadEnum AccountAuthOperationType_SetEnumValue 1 reader in
  if negb (AccountAuthOperationTypeRemoveAuthority =? default 0 vType) then errorf "field Type: not equal" else
  let '(xAuthority, reader) := readUrl 2 reader in
  finish_read (Build_RemoveAccountAuthorityOperation (default (RemoveAccountAuthorityOperation_Authority v)
    xAuthority)) reader.

Definition RemoveAccountAuthorityOperation_ok (v : RemoveAccountAuthorityOperation) : Prop :=
  url_ok (RemoveAccountAuthorityOperation_Authority v) /\ RemoveAccountAuthorityOperation_extraData v = [].

Lemma RemoveAccountAuthorityOperation_survives (v : RemoveAccountAuthorityOperation) :
  RemoveAccountAuthorityOperation_ok v -> survives RemoveAccountAuthorityOperation_MarshalBinary
    (RemoveAccountAuthorityOperation_UnmarshalBinary new_RemoveAccountAuthorityOperation) v.
Proof. wire_roundtrip. Qed.
#[export] Hint Resolve RemoveAccountAuthorityOperation_survives : wire.
Lemma RemoveAccountAuthorityOperation_copied (v : RemoveAccountAuthorityOperation) :
    RemoveAccountAuthorityOperation_ok v -> RemoveAccountAuthorityOperation_Copy v = v.
Proof. wire_copy. Qed.
#[export] Hint Resolve RemoveAccountAuthorityOperation_copied : copies.
Lemma RemoveAccountAuthorityOperation_tagged (v : RemoveAccountAuthorityOperation) :
    RemoveAccountAuthorityOperation_ok v -> tagged RemoveAccountAuthorityOperation_MarshalBinary
    AccountAuthOperationTypeRemoveAuthority v.
Proof. wire_tagged. Qed.
#[export] Hint Resolve RemoveAccountAuthorityOperation_tagged : wire.

Record RemoveKeyOperation := { RemoveKeyOperation_Entry : KeySpecParams; RemoveKeyOperation_extraData : bytes }.
Definition new_RemoveKeyOperation : RemoveKeyOperation := Build_RemoveKeyOperation new_KeySpecParams [].

Definition RemoveKeyOperation_Copy (v : RemoveKeyOperation) : RemoveKeyOperation := Build_RemoveKeyOperation
  (KeySpecParams_Copy (RemoveKeyOperation_Entry v)) [].

Definition RemoveKeyOperation_MarshalBinary (v : RemoveKeyOperation) : res bytes :=
  finish (RemoveKeyOperation_extraData v) (
    NewWriter
    |> WriteEnum 1 KeyPageOperationTypeRemove
    |> when (negb (KeySpecParams_Equal (RemoveKeyOperation_Entry v) new_KeySpecParams)) (writeValue 2
       (KeySpecParams_MarshalBinary (RemoveKeyOperation_Entry v)))).

Definition RemoveKeyOperation_UnmarshalBinary (v : RemoveKeyOperation) (data : bytes) : res RemoveKeyOperation :=
  let reader := NewReader data in
  let '(vType, reader) := ReadEnum KeyPageOperationType_SetEnumValue 1 reader in
  if negb (KeyPageOperationTypeRemove =? default 0 vType) then errorf "field Type: not equal" else
  let '(xEntry, reader) := readValue 2 (KeySpecParams_UnmarshalBinary new_KeySpecParams) reader in
  finish_read (Build_RemoveKeyOperation (default (RemoveKeyOperation_Entry v) xEntry)) reader.

Definition RemoveKeyOperation_ok (v : RemoveKeyOperation) : Prop :=
  KeySpecParams_ok (RemoveKeyOperation_Entry v) /\ fits (KeySpecParams_MarshalBinary (RemoveKeyOperation_Entry v))
  /\ RemoveKeyOperation_extraData v = [].

Lemma RemoveKeyOperation_survives (v : RemoveKeyOperation) :
  RemoveKeyOperation_ok v -> survives RemoveKeyOperation_MarshalBinary (RemoveKeyOperation_UnmarshalBinary
    new_RemoveKeyOperation) v.
Proof. wire_roundtrip. Qed.
#[export] Hint Resolve RemoveKeyOperation_survives : wire.
Lemma RemoveKeyOperation_copied (v : RemoveKeyOperation) : RemoveKeyOperation_ok v -> RemoveKeyOperation_Copy v = v.
Proof. wire_copy. Qed.
#[export] Hint Resolve RemoveKeyOperation_copied : copies.
Lemma RemoveKeyOperation_tagged (v : RemoveKeyOperation) : RemoveKeyOperation_ok v -> tagged
    RemoveKeyOperation_MarshalBinary KeyPageOperationTypeRemove v.
Proof. wire_tagged. Qed.
#[export] Hint Resolve RemoveKeyOperation_tagged : wire.

Record SendTokens := { SendTokens_Hash : bytes; SendTokens_Meta : bytes; SendTokens_To : list TokenRecipient;
  SendTokens_extraData : bytes }.
Definition new_SendTokens : SendTokens := Build_SendTokens hash_zero [] [] [].

Definition SendTokens_Copy (v : SendTokens) : SendTokens := Build_SendTokens (SendTokens_Hash v) (SendTokens_Meta v)
  (TokenRecipient_Copy <$> SendTokens_To v) [].

Definition SendTokens_MarshalBinary (v : SendTokens) : res bytes :=
  finish (SendTokens_extraData v) (
    NewWriter
    |> WriteEnum 1 TransactionTypeSendTokens
    |> when (negb (bytes_eqb (SendTokens_Hash v) hash_zero)) (WriteHash 2 (SendTokens_Hash v))
    |> when (negb (is_empty (SendTokens_Meta v))) (WriteBytes 3 (SendTokens_Meta v))
    |> when (negb (is_empty (SendTokens_To v))) (range (SendTokens_To v) (fun v => writeValue 4
       (TokenRecipient_MarshalBinary v)))).

Definition SendTokens_UnmarshalBinary (v : SendTokens) (data : bytes) : res SendTokens :=
  let reader := NewReader data in
  let '(vType, reader) := ReadEnum TransactionType_SetEnumValue 1 reader in
  if negb (TransactionTypeSendTokens =? default 0 vType) then errorf "field Type: not equal" else
  let '(xHash, reader) := ReadHash 2 reader in
  let '(xMeta, reader) := ReadBytes 3 reader in
  let '(xTo, reader) := read_list (readValue 4 (TokenRecipient_UnmarshalBinary new_TokenRecipient)) reader in
  finish_read (Build_SendTokens (default (SendTokens_Hash v) xHash) (default (SendTokens_Meta v) xMeta)
    (SendTokens_To v ++ xTo)) reader.

Definition SendTokens_ok (v : SendTokens) : Prop :=
  hash_ok (SendTokens_Hash v) /\ bytes_ok (SendTokens_Meta v) /\ (forall x, x ∈ SendTokens_To v -> TokenRecipient_ok
  x) /\ (forall x, x ∈ SendTokens_To v -> fits (TokenRecipient_MarshalBinary x)) /\ SendTokens_extraData v = [].

Lemma SendTokens_survives (v : SendTokens) :
  SendTokens_ok v -> survives SendTokens_MarshalBinary (SendTokens_UnmarshalBinary new_SendTokens) v.
Proof. wire_roundtrip. Qed.
#[export] Hint Resolve SendTokens_survives : wire.
Lemma SendTokens_copied (v : SendTokens) : SendTokens_ok v -> SendTokens_Copy v = v.
Proof. wire_copy. Qed.
#[export] Hint Resolve SendTokens_copied : copies.
Lemma SendTokens_tagged (v : SendTokens) : SendTokens_ok v -> tagged SendTokens_MarshalBinary
    TransactionTypeSendTokens v.
Proof. wire_tagged. Qed.
#[export] Hint Resolve SendTokens_tagged : wire.

Record SetThresholdKeyPageOperation := { SetThresholdKeyPageOperation_Threshold : Z;
  SetThresholdKeyPageOperation_extraData : bytes }.
Definition new_SetThresholdKeyPageOperation : SetThresholdKeyPageOperation := Build_SetThresholdKeyPageOperation 0
  [].

Definition SetThresholdKeyPageOperation_Copy (v : SetThresholdKeyPageOperation) : SetThresholdKeyPageOperation :=
  Build_SetThresholdKeyPageOperation (SetThresholdKeyPageOperation_Threshold v) [].

Definition SetThresholdKeyPageOperation_MarshalBinary (v : SetThresholdKeyPageOperation) : res bytes :=
  finish (SetThresholdKeyPageOperation_extraData v) (
    NewWriter
    |> WriteEnum 1 KeyPageOperationTypeSetThreshold
    |> when (negb (SetThresholdKeyPageOperation_Threshold v =? 0)) (WriteUint 2
       (SetThresholdKeyPageOperation_Threshold v))).

Definition SetThresholdKeyPageOperation_UnmarshalBinary (v : SetThresholdKeyPageOperation) (data : bytes) : res
    SetThresholdKeyPageOperation :=
  let reader := NewReader data in
  let '(vType, reader) := ReadEnum KeyPageOperationType_SetEnumValue 1 reader in
  if negb (KeyPageOperationTypeSetThreshold =? default 0 vType) then errorf "field Type: not equal" else
  let '(xThreshold, reader) := ReadUint 2 reader in
  finish_read (Build_SetThresholdKeyPageOperation (default (SetThresholdKeyPageOperation_Threshold v) xThreshold))
    reader.

Definition SetThresholdKeyPageOperation_ok (v : SetThresholdKeyPageOperation) : Prop :=
  is_u64 (SetThresholdKeyPageOperation_Threshold v) /\ SetThresholdKeyPageOperation_extraData v = [].

Lemma SetThresholdKeyPageOperation_survives (v : SetThresholdKeyPageOperation) :
  SetThresholdKeyPageOperation_ok v -> survives SetThresholdKeyPageOperation_MarshalBinary
    (SetThresholdKeyPageOperation_UnmarshalBinary new_SetThresholdKeyPageOperation) v.
Proof. wire_roundtrip. Qed.
#[export] Hint Resolve SetThresholdKeyPageOperation_survives : wire.
Lemma SetThresholdKeyPageOperation_copied (v : SetThresholdKeyPageOperation) : SetThresholdKeyPageOperation_ok v ->
    SetThresholdKeyPageOperation_Copy v = v.
Proof. wire_copy. Qed.
#[export] Hint Resolve SetThresholdKeyPageOperation_copied : copies.
Lemma SetThresholdKeyPageOperation_tagged (v : SetThresholdKeyPageOperation) : SetThresholdKeyPageOperation_ok v ->
    tagged SetThresholdKeyPageOperation_MarshalBinary KeyPageOperationTypeSetThreshold v.
Proof. wire_tagged. Qed.
#[export] Hint Resolve SetThresholdKeyPageOperation_tagged : wire.

Record SyntheticBurnTokens := { SyntheticBurnTokens_SyntheticOrigin : SyntheticOrigin; SyntheticBurnTokens_Amount :
  Z; SyntheticBurnTokens_IsRefund : bool; SyntheticBurnTokens_extraData : bytes }.
Definition new_SyntheticBurnTokens : SyntheticBurnTokens := Build_SyntheticBurnTokens new_SyntheticOrigin 0 false
  [].

Definition SyntheticBurnTokens_Copy (v : SyntheticBurnTokens) : SyntheticBurnTokens := Build_SyntheticBurnTokens
  (SyntheticOrigin_Copy (SyntheticBurnTokens_SyntheticOrigin v)) (SyntheticBurnTokens_Amount v)
  (SyntheticBurnTokens_IsRefund v) [].

Definition SyntheticBurnTokens_MarshalBinary (v : SyntheticBurnTokens) : res bytes :=
  finish (SyntheticBurnTokens_extraData v) (
    NewWriter
    |> WriteEnum 1 TransactionTypeSyntheticBurnTokens
    |> writeValue 2 (SyntheticOrigin_MarshalBinary (SyntheticBurnTokens_SyntheticOrigin v))
    |> when (negb (SyntheticBurnTokens_Amount v =? 0)) (WriteBigInt 3 (SyntheticBurnTokens_Amount v))
    |> when (negb (negb (SyntheticBurnTokens_IsRefund v))) (WriteBool 4 (SyntheticBurnTokens_IsRefund v))).

Definition SyntheticBurnTokens_UnmarshalBinary (v : SyntheticBurnTokens) (data : bytes) : res SyntheticBurnTokens :=
  let reader := NewReader data in
  let '(vType, reader) := ReadEnum TransactionType_SetEnumValue 1 reader in
  if negb (TransactionTypeSyntheticBurnTokens =? default 0 vType) then errorf "field Type: not equal" else
  let '(xSyntheticOrigin, reader) := readValue 2 (SyntheticOrigin_UnmarshalBinary
    (SyntheticBurnTokens_SyntheticOrigin v)) reader in
  let '(xAmount, reader) := ReadBigInt 3 reader in
  let '(xIsRefund, reader) := ReadBool 4 reader in
  finish_read (Build_SyntheticBurnTokens (default (SyntheticBurnTokens_SyntheticOrigin v) xSyntheticOrigin) (default
    (SyntheticBurnTokens_Amount v) xAmount) (default (SyntheticBurnTokens_IsRefund v) xIsRefund)) reader.

Definition SyntheticBurnTokens_ok (v : SyntheticBurnTokens) : Prop :=
  SyntheticOrigin_ok (SyntheticBurnTokens_SyntheticOrigin v) /\ fits (SyntheticOrigin_MarshalBinary
  (SyntheticBurnTokens_SyntheticOrigin v)) /\ big_ok (SyntheticBurnTokens_Amount v) /\ SyntheticBurnTokens_extraData
  v = [].

Lemma SyntheticBurnTokens_survives (v : SyntheticBurnTokens) :
  SyntheticBurnTokens_ok v -> survives SyntheticBurnTokens_MarshalBinary (SyntheticBurnTokens_UnmarshalBinary
    new_SyntheticBurnTokens) v.
Proof. wire_roundtrip. Qed.
#[export] Hint Resolve SyntheticBurnTokens_survives : wire.
Lemma SyntheticBurnTokens_copied (v : SyntheticBurnTokens) : SyntheticBurnTokens_ok v -> SyntheticBurnTokens_Copy v
    = v.
Proof. wire_copy. Qed.
#[export] Hint Resolve SyntheticBurnTokens_copied : copies.
Lemma SyntheticBurnTokens_tagged (v : SyntheticBurnTokens) : SyntheticBurnTokens_ok v -> tagged
    SyntheticBurnTokens_MarshalBinary TransactionTypeSyntheticBurnTokens v.
Proof. wire_tagged. Qed.
#[export] Hint Resolve SyntheticBurnTokens_tagged : wire.

Record SyntheticCreateIdentity (TB : Type) := { SyntheticCreateIdentity_SyntheticOrigin : SyntheticOrigin;
  SyntheticCreateIdentity_Accounts : list (Account TB); SyntheticCreateIdentity_extraData : bytes }.
Arguments Build_SyntheticCreateIdentity {TB}.
Arguments SyntheticCreateIdentity_SyntheticOrigin {TB}.
Arguments SyntheticCreateIdentity_Accounts {TB}.
Arguments SyntheticCreateIdentity_extraData {TB}.
Definition new_SyntheticCreateIdentity {TB : Type} : SyntheticCreateIdentity TB := Build_SyntheticCreateIdentity
  new_SyntheticOrigin [] [].

Definition SyntheticCreateIdentity_Copy `{Union TB} (v : SyntheticCreateIdentity TB) : SyntheticCreateIdentity TB :=
  Build_SyntheticCreateIdentity (SyntheticOrigin_Copy (SyntheticCreateIdentity_SyntheticOrigin v)) (Account_Copy <$>
  SyntheticCreateIdentity_Accounts v) [].

Definition SyntheticCreateIdentity_MarshalBinary `{Union TB} (v : SyntheticCreateIdentity TB) : res bytes :=
  finish (SyntheticCreateIdentity_extraData v) (
    NewWriter
    |> WriteEnum 1 TransactionTypeSyntheticCreateIdentity
    |> writeValue 2 (SyntheticOrigin_MarshalBinary (SyntheticCreateIdentity_SyntheticOrigin v))
    |> when (negb (is_empty (SyntheticCreateIdentity_Accounts v))) (range (SyntheticCreateIdentity_Accounts v) (fun
       v => writeValue 3 (Account_MarshalBinary v)))).

Definition SyntheticCreateIdentity_UnmarshalBinary `{Union TB} (v : SyntheticCreateIdentity TB) (data : bytes) : res
    (SyntheticCreateIdentity TB) :=
  let reader := NewReader data in
  let '(vType, reader) := ReadEnum TransactionType_SetEnumValue 1 reader in
  if negb (TransactionTypeSyntheticCreateIdentity =? default 0 vType) then errorf "field Type: not equal" else
  let '(xSyntheticOrigin, reader) := readValue 2 (SyntheticOrigin_UnmarshalBinary
    (SyntheticCreateIdentity_SyntheticOrigin v)) reader in
  let '(xAccounts, reader) := read_list (readValue 3 UnmarshalAccount) reader in
  finish_read (Build_SyntheticCreateIdentity (default (SyntheticCreateIdentity_SyntheticOrigin v) xSyntheticOrigin)
    (SyntheticCreateIdentity_Accounts v ++ xAccounts)) reader.

Definition SyntheticCreateIdentity_ok `{Union TB} (v : SyntheticCreateIdentity TB) : Prop :=
  SyntheticOrigin_ok (SyntheticCreateIdentity_SyntheticOrigin v) /\ fits (SyntheticOrigin_MarshalBinary
  (SyntheticCreateIdentity_SyntheticOrigin v)) /\ (forall x, x ∈ SyntheticCreateIdentity_Accounts v -> Account_ok x)
  /\ (forall x, x ∈ SyntheticCreateIdentity_Accounts v -> fits (Account_MarshalBinary x)) /\
  SyntheticCreateIdentity_extraData v = [].

Lemma SyntheticCreateIdentity_survives `{Union TB} `{!UnionLaws TB} (v : SyntheticCreateIdentity TB) :
  SyntheticCreateIdentity_ok v -> survives SyntheticCreateIdentity_MarshalBinary
    (SyntheticCreateIdentity_UnmarshalBinary new_SyntheticCreateIdentity) v.
Proof. wire_roundtrip. Qed.
#[export] Hint Resolve SyntheticCreateIdentity_survives : wire.
Lemma SyntheticCreateIdentity_copied `{Union TB} `{!UnionLaws TB} (v : SyntheticCreateIdentity TB) :
    SyntheticCreateIdentity_ok v -> SyntheticCreateIdentity_Copy v = v.
Proof. wire_copy. Qed.
#[export] Hint Resolve SyntheticCreateIdentity_copied : copies.
Lemma SyntheticCreateIdentity_tagged `{Union TB} `{!UnionLaws TB} (v : SyntheticCreateIdentity TB) :
    SyntheticCreateIdentity_ok v -> tagged SyntheticCreateIdentity_MarshalBinary
    TransactionTypeSyntheticCreateIdentity v.
Proof. wire_tagged. Qed.
#[export] Hint Resolve SyntheticCreateIdentity_tagged : wire.

Record SyntheticDepositCredits := { SyntheticDepositCredits_SyntheticOrigin : SyntheticOrigin;
  SyntheticDepositCredits_Amount : Z; SyntheticDepositCredits_AcmeRefundAmount : option Z;
  SyntheticDepositCredits_IsRefund : bool; SyntheticDepositCredits_extraData : bytes }.
Definition new_SyntheticDepositCredits : SyntheticDepositCredits := Build_SyntheticDepositCredits
  new_SyntheticOrigin 0 None false [].

Definition SyntheticDepositCredits_Copy (v : SyntheticDepositCredits) : SyntheticDepositCredits :=
  Build_SyntheticDepositCredits (SyntheticOrigin_Copy (SyntheticDepositCredits_SyntheticOrigin v))
  (SyntheticDepositCredits_Amount v) (SyntheticDepositCredits_AcmeRefundAmount v) (SyntheticDepositCredits_IsRefund
  v) [].

Definition SyntheticDepositCredits_MarshalBinary (v : SyntheticDepositCredits) : res bytes :=
  finish (SyntheticDepositCredits_extraData v) (
    NewWriter
    |> WriteEnum 1 TransactionTypeSyntheticDepositCredits
    |> writeValue 2 (SyntheticOrigin_MarshalBinary (SyntheticDepositCredits_SyntheticOrigin v))
    |> when (negb (SyntheticDepositCredits_Amount v =? 0)) (WriteUint 3 (SyntheticDepositCredits_Amount v))
    |> when (negb (is_nil (SyntheticDepositCredits_AcmeRefundAmount v))) (deref
       (SyntheticDepositCredits_AcmeRefundAmount v) (fun v => WriteBigInt 4 v))
    |> when (negb (negb (SyntheticDepositCredits_IsRefund v))) (WriteBool 5 (SyntheticDepositCredits_IsRefund v))).

Definition SyntheticDepositCredits_UnmarshalBinary (v : SyntheticDepositCredits) (data : bytes) : res
    SyntheticDepositCredits :=
  let reader := NewReader data in
  let '(vType, reader) := ReadEnum TransactionType_SetEnumValue 1 reader in
  if negb (TransactionTypeSyntheticDepositCredits =? default 0 vType) then errorf "field Type: not equal" else
  let '(xSyntheticOrigin, reader) := readValue 2 (SyntheticOrigin_UnmarshalBinary
    (SyntheticDepositCredits_SyntheticOrigin v)) reader in
  let '(xAmount, reader) := ReadUint 3 reader in
  let '(xAcmeRefundAmount, reader) := ReadBigInt 4 reader in
  let '(xIsRefund, reader) := ReadBool 5 reader in
  finish_read (Build_SyntheticDepositCredits (default (SyntheticDepositCredits_SyntheticOrigin v) xSyntheticOrigin)
    (default (SyntheticDepositCredits_Amount v) xAmount) (or_else xAcmeRefundAmount
    (SyntheticDepositCredits_AcmeRefundAmount v)) (default (SyntheticDepositCredits_IsRefund v) xIsRefund)) reader.

Definition SyntheticDepositCredits_ok (v : SyntheticDepositCredits) : Prop :=
  SyntheticOrigin_ok (SyntheticDepositCredits_SyntheticOrigin v) /\ fits (SyntheticOrigin_MarshalBinary
  (SyntheticDepositCredits_SyntheticOrigin v)) /\ is_u64 (SyntheticDepositCredits_Amount v) /\ (forall x,
  SyntheticDepositCredits_AcmeRefundAmount v = Some x -> big_ok x) /\ SyntheticDepositCredits_extraData v = [].

Lemma SyntheticDepositCredits_survives (v : SyntheticDepositCredits) :
  SyntheticDepositCredits_ok v -> survives SyntheticDepositCredits_MarshalBinary
    (SyntheticDepositCredits_UnmarshalBinary new_SyntheticDepositCredits) v.
Proof. wire_roundtrip. Qed.
#[export] Hint Resolve SyntheticDepositCredits_survives : wire.
Lemma SyntheticDepositCredits_copied (v : SyntheticDepositCredits) : SyntheticDepositCredits_ok v ->
    SyntheticDepositCredits_Copy v = v.
Proof. wire_copy. Qed.
#[export] Hint Resolve SyntheticDepositCredits_copied : copies.
Lemma SyntheticDepositCredits_tagged (v : SyntheticDepositCredits) : SyntheticDepositCredits_ok v -> tagged
    SyntheticDepositCredits_MarshalBinary TransactionTypeSyntheticDepositCredits v.
Proof. wire_tagged. Qed.
#[export] Hint Resolve SyntheticDepositCredits_tagged : wire.

Record SyntheticDepositTokens := { SyntheticDepositTokens_SyntheticOrigin : SyntheticOrigin;
  SyntheticDepositTokens_Token : option URL; SyntheticDepositTokens_Amount : Z; SyntheticDepositTokens_IsIssuer :
  bool; SyntheticDepositTokens_IsRefund : bool; SyntheticDepositTokens_extraData : bytes }.
Definition new_SyntheticDepositTokens : SyntheticDepositTokens := Build_SyntheticDepositTokens new_SyntheticOrigin
  None 0 false false [].

Definition SyntheticDepositTokens_Copy (v : SyntheticDepositTokens) : SyntheticDepositTokens :=
  Build_SyntheticDepositTokens (SyntheticOrigin_Copy (SyntheticDepositTokens_SyntheticOrigin v))
  (SyntheticDepositTokens_Token v) (SyntheticDepositTokens_Amount v) (SyntheticDepositTokens_IsIssuer v)
  (SyntheticDepositTokens_IsRefund v) [].

Definition SyntheticDepositTokens_MarshalBinary (v : SyntheticDepositTokens) : res bytes :=
  finish (SyntheticDepositTokens_extraData v) (
    NewWriter
    |> WriteEnum 1 TransactionTypeSyntheticDepositTokens
    |> writeValue 2 (SyntheticOrigin_MarshalBinary (SyntheticDepositTokens_SyntheticOrigin v))
    |> when (negb (is_nil (SyntheticDepositTokens_Token v))) (writeUrl 3 (SyntheticDepositTokens_Token v))
    |> when (negb (SyntheticDepositTokens_Amount v =? 0)) (WriteBigInt 4 (SyntheticDepositTokens_Amount v))
    |> when (negb (negb (SyntheticDepositTokens_IsIssuer v))) (WriteBool 5 (SyntheticDepositTokens_IsIssuer v))
    |> when (negb (negb (SyntheticDepositTokens_IsRefund v))) (WriteBool 6 (SyntheticDepositTokens_IsRefund v))).

Definition SyntheticDepositTokens_UnmarshalBinary (v : SyntheticDepositTokens) (data : bytes) : res
    SyntheticDepositTokens :=
  let reader := NewReader data in
  let '(vType, reader) := ReadEnum TransactionType_SetEnumValue 1 reader in
  if negb (TransactionTypeSyntheticDepositTokens =? default 0 vType) then errorf "field Type: not equal" else
  let '(xSyntheticOrigin, reader) := readValue 2 (SyntheticOrigin_UnmarshalBinary
    (SyntheticDepositTokens_SyntheticOrigin v)) reader in
  let '(xToken, reader) := readUrl 3 reader in
  let '(xAmount, reader) := ReadBigInt 4 reader in
  let '(xIsIssuer, reader) := ReadBool 5 reader in
  let '(xIsRefund, reader) := ReadBool 6 reader in
  finish_read (Build_SyntheticDepositTokens (default (SyntheticDepositTokens_SyntheticOrigin v) xSyntheticOrigin)
    (default (SyntheticDepositTokens_Token v) xToken) (default (SyntheticDepositTokens_Amount v) xAmount) (default
    (SyntheticDepositTokens_IsIssuer v) xIsIssuer) (default (SyntheticDepositTokens_IsRefund v) xIsRefund)) reader.

Definition SyntheticDepositTokens_ok (v : SyntheticDepositTokens) : Prop :=
  SyntheticOrigin_ok (SyntheticDepositTokens_SyntheticOrigin v) /\ fits (SyntheticOrigin_MarshalBinary
  (SyntheticDepositTokens_SyntheticOrigin v)) /\ url_ok (SyntheticDepositTokens_Token v) /\ big_ok
  (SyntheticDepositTokens_Amount v) /\ SyntheticDepositTokens_extraData v = [].

Lemma SyntheticDepositTokens_survives (v : SyntheticDepositTokens) :
  SyntheticDepositTokens_ok v -> survives SyntheticDepositTokens_MarshalBinary
    (SyntheticDepositTokens_UnmarshalBinary new_SyntheticDepositTokens) v.
Proof. wire_roundtrip. Qed.
#[export] Hint Resolve SyntheticDepositTokens_survives : wire.
Lemma SyntheticDepositTokens_copied (v : SyntheticDepositTokens) : SyntheticDepositTokens_ok v ->
    SyntheticDepositTokens_Copy v = v.
Proof. wire_copy. Qed.
#[export] Hint Resolve SyntheticDepositTokens_copied : copies.
Lemma SyntheticDepositTokens_tagged (v : SyntheticDepositTokens) : SyntheticDepositTokens_ok v -> tagged
    SyntheticDepositTokens_MarshalBinary TransactionTypeSyntheticDepositTokens v.
Proof. wire_tagged. Qed.
#[export] Hint Resolve SyntheticDepositTokens_tagged : wire.

Record SyntheticForwardTransaction (SG : Type) (TB : Type) := { SyntheticForwardTransaction_Signatures : list
  (RemoteSignature SG); SyntheticForwardTransaction_Transaction : option (Transaction TB);
  SyntheticForwardTransaction_extraData : bytes }.
Arguments Build_SyntheticForwardTransaction {SG} {TB}.
Arguments SyntheticForwardTransaction_Signatures {SG} {TB}.
Arguments SyntheticForwardTransaction_Transaction {SG} {TB}.
Arguments SyntheticForwardTransaction_extraData {SG} {TB}.
Definition new_SyntheticForwardTransaction {SG : Type} {TB : Type} : SyntheticForwardTransaction SG TB :=
  Build_SyntheticForwardTransaction [] None [].

Definition SyntheticForwardTransaction_Copy `{Union SG, Union TB} (v : SyntheticForwardTransaction SG TB) :
  SyntheticForwardTransaction SG TB := Build_SyntheticForwardTransaction (RemoteSignature_Copy <$>
  SyntheticForwardTransaction_Signatures v) (Transaction_Copy <$> SyntheticForwardTransaction_Transaction v) [].

Definition SyntheticForwardTransaction_MarshalBinary `{Union SG, Union TB} (v : SyntheticForwardTransaction SG TB) :
    res bytes :=
  finish (SyntheticForwardTransaction_extraData v) (
    NewWriter
    |> WriteEnum 1 TransactionTypeSyntheticForwardTransaction
    |> when (negb (is_empty (SyntheticForwardTransaction_Signatures v))) (range
       (SyntheticForwardTransaction_Signatures v) (fun v => writeValue 2 (RemoteSignature_MarshalBinary v)))
    |> when (negb (is_nil (SyntheticForwardTransaction_Transaction v))) (deref
       (SyntheticForwardTransaction_Transaction v) (fun v => writeValue 3 (Transaction_MarshalBinary v)))).

Definition SyntheticForwardTransaction_UnmarshalBinary `{Union SG, Union TB} (v : SyntheticForwardTransaction SG TB)
    (data : bytes) : res (SyntheticForwardTransaction SG TB) :=
  let reader := NewReader data in
  let '(vType, reader) := ReadEnum TransactionType_SetEnumValue 1 reader in
  if negb (TransactionTypeSyntheticForwardTransaction =? default 0 vType) then errorf "field Type: not equal" else
  let '(xSignatures, reader) := read_list (readValue 2 (RemoteSignature_UnmarshalBinary new_RemoteSignature)) reader
    in
  let '(xTransaction, reader) := readValue 3 (Transaction_UnmarshalBinary new_Transaction) reader in
  finish_read (Build_SyntheticForwardTransaction (SyntheticForwardTransaction_Signatures v ++ xSignatures) (or_else
    xTransaction (SyntheticForwardTransaction_Transaction v))) reader.

Definition SyntheticForwardTransaction_ok `{Union SG, Union TB} (v : SyntheticForwardTransaction SG TB) : Prop :=
  (forall x, x ∈ SyntheticForwardTransaction_Signatures v -> RemoteSignature_ok x) /\ (forall x, x ∈
  SyntheticForwardTransaction_Signatures v -> fits (RemoteSignature_MarshalBinary x)) /\ (forall x,
  SyntheticForwardTransaction_Transaction v = Some x -> Transaction_ok x) /\ (forall x,
  SyntheticForwardTransaction_Transaction v = Some x -> fits (Transaction_MarshalBinary x)) /\
  SyntheticForwardTransaction_extraData v = [].

Lemma SyntheticForwardTransaction_survives `{Union SG, Union TB} `{!UnionLaws SG, !UnionLaws TB} (v :
    SyntheticForwardTransaction SG TB) :
  SyntheticForwardTransaction_ok v -> survives SyntheticForwardTransaction_MarshalBinary
    (SyntheticForwardTransaction_UnmarshalBinary new_SyntheticForwardTransaction) v.
Proof. wire_roundtrip. Qed.
#[export] Hint Resolve SyntheticForwardTransaction_survives : wire.
Lemma SyntheticForwardTransaction_copied `{Union SG, Union TB} `{!UnionLaws SG, !UnionLaws TB} (v :
    SyntheticForwardTransaction SG TB) : SyntheticForwardTransaction_ok v -> SyntheticForwardTransaction_Copy v = v.
Proof. wire_copy. Qed.
#[export] Hint Resolve SyntheticForwardTransaction_copied : copies.
Lemma SyntheticForwardTransaction_tagged `{Union SG, Union TB} `{!UnionLaws SG, !UnionLaws TB} (v :
    SyntheticForwardTransaction SG TB) : SyntheticForwardTransaction_ok v -> tagged
    SyntheticForwardTransaction_MarshalBinary TransactionTypeSyntheticForwardTransaction v.
Proof. wire_tagged. Qed.
#[export] Hint Resolve SyntheticForwardTransaction_tagged : wire.

Record SyntheticWriteData := { SyntheticWriteData_SyntheticOrigin : SyntheticOrigin; SyntheticWriteData_Entry :
  option DataEntry; SyntheticWriteData_extraData : bytes }.
Definition new_SyntheticWriteData : SyntheticWriteData := Build_SyntheticWriteData new_SyntheticOrigin None [].

Definition SyntheticWriteData_Copy (v : SyntheticWriteData) : SyntheticWriteData := Build_SyntheticWriteData
  (SyntheticOrigin_Copy (SyntheticWriteData_SyntheticOrigin v)) (DataEntry_Copy <$> SyntheticWriteData_Entry v) [].

Definition SyntheticWriteData_MarshalBinary (v : SyntheticWriteData) : res bytes :=
  finish (SyntheticWriteData_extraData v) (
    NewWriter
    |> WriteEnum 1 TransactionTypeSyntheticWriteData
    |> writeValue 2 (SyntheticOrigin_MarshalBinary (SyntheticWriteData_SyntheticOrigin v))
    |> when (negb (is_nil (SyntheticWriteData_Entry v))) (deref (SyntheticWriteData_Entry v) (fun v => writeValue 3
       (DataEntry_MarshalBinary v)))).

Definition SyntheticWriteData_UnmarshalBinary (v : SyntheticWriteData) (data : bytes) : res SyntheticWriteData :=
  let reader := NewReader data in
  let '(vType, reader) := ReadEnum TransactionType_SetEnumValue 1 reader in
  if negb (TransactionTypeSyntheticWriteData =? default 0 vType) then errorf "field Type: not equal" else
  let '(xSyntheticOrigin, reader) := readValue 2 (SyntheticOrigin_UnmarshalBinary
    (SyntheticWriteData_SyntheticOrigin v)) reader in
  let '(xEntry, reader) := readValue 3 UnmarshalDataEntry reader in
  finish_read (Build_SyntheticWriteData (default (SyntheticWriteData_SyntheticOrigin v) xSyntheticOrigin) (or_else
    xEntry (SyntheticWriteData_Entry v))) reader.

Definition SyntheticWriteData_ok (v : SyntheticWriteData) : Prop :=
  SyntheticOrigin_ok (SyntheticWriteData_SyntheticOrigin v) /\ fits (SyntheticOrigin_MarshalBinary
  (SyntheticWriteData_SyntheticOrigin v)) /\ (forall x, SyntheticWriteData_Entry v = Some x -> DataEntry_ok x) /\
  (forall x, SyntheticWriteData_Entry v = Some x -> fits (DataEntry_MarshalBinary x)) /\
  SyntheticWriteData_extraData v = [].

Lemma SyntheticWriteData_survives (v : SyntheticWriteData) :
  SyntheticWriteData_ok v -> survives SyntheticWriteData_MarshalBinary (SyntheticWriteData_UnmarshalBinary
    new_SyntheticWriteData) v.
Proof. wire_roundtrip. Qed.
#[export] Hint Resolve SyntheticWriteData_survives : wire.
Lemma SyntheticWriteData_copied (v : SyntheticWriteData) : SyntheticWriteData_ok v -> SyntheticWriteData_Copy v = v.
Proof. wire_copy. Qed.
#[export] Hint Resolve SyntheticWriteData_copied : copies.
Lemma SyntheticWriteData_tagged (v : SyntheticWriteData) : SyntheticWriteData_ok v -> tagged
    SyntheticWriteData_MarshalBinary TransactionTypeSyntheticWriteData v.
Proof. wire_tagged. Qed.
#[export] Hint Resolve SyntheticWriteData_tagged : wire.

Record SystemGenesis := { SystemGenesis_extraData : bytes }.
Definition new_SystemGenesis : SystemGenesis := Build_SystemGenesis [].

Definition SystemGenesis_Copy (v : SystemGenesis) : SystemGenesis := Build_SystemGenesis [].

Definition SystemGenesis_MarshalBinary (v : SystemGenesis) : res bytes :=
  finish (SystemGenesis_extraData v) (
    NewWriter
    |> WriteEnum 1 TransactionTypeSystemGenesis).

Definition SystemGenesis_UnmarshalBinary (v : SystemGenesis) (data : bytes) : res SystemGenesis :=
  let reader := NewReader data in
  let '(vType, reader) := ReadEnum TransactionType_SetEnumValue 1 reader in
  if negb (TransactionTypeSystemGenesis =? default 0 vType) then errorf "field Type: not equal" else
  finish_read Build_SystemGenesis reader.

Definition SystemGenesis_ok (v : SystemGenesis) : Prop :=
  SystemGenesis_extraData v = [].

Lemma SystemGenesis_survives (v : SystemGenesis) :
  SystemGenesis_ok v -> survives SystemGenesis_MarshalBinary (SystemGenesis_UnmarshalBinary new_SystemGenesis) v.
Proof. wire_roundtrip. Qed.
#[export] Hint Resolve SystemGenesis_survives : wire.
Lemma SystemGenesis_copied (v : SystemGenesis) : SystemGenesis_ok v -> SystemGenesis_Copy v = v.
Proof. wire_copy. Qed.
#[export] Hint Resolve SystemGenesis_copied : copies.
Lemma SystemGenesis_tagged (v : SystemGenesis) : SystemGenesis_ok v -> tagged SystemGenesis_MarshalBinary
    TransactionTypeSystemGenesis v.
Proof. wire_tagged. Qed.
#[export] Hint Resolve SystemGenesis_tagged : wire.

Record SystemWriteData := { SystemWriteData_Entry : option DataEntry; SystemWriteData_WriteToState : bool;
  SystemWriteData_extraData : bytes }.
Definition new_SystemWriteData : SystemWriteData := Build_SystemWriteData None false [].

Definition SystemWriteData_Copy (v : SystemWriteData) : SystemWriteData := Build_SystemWriteData (DataEntry_Copy <$>
  SystemWriteData_Entry v) (SystemWriteData_WriteToState v) [].

Definition SystemWriteData_MarshalBinary (v : SystemWriteData) : res bytes :=
  finish (SystemWriteData_extraData v) (
    NewWriter
    |> WriteEnum 1 TransactionTypeSystemWriteData
    |> when (negb (is_nil (SystemWriteData_Entry v))) (deref (SystemWriteData_Entry v) (fun v => writeValue 2
       (DataEntry_MarshalBinary v)))
    |> when (negb (negb (SystemWriteData_WriteToState v))) (WriteBool 3 (SystemWriteData_WriteToState v))).

Definition SystemWriteData_UnmarshalBinary (v : SystemWriteData) (data : bytes) : res SystemWriteData :=
  let reader := NewReader data in
  let '(vType, reader) := ReadEnum TransactionType_SetEnumValue 1 reader in
  if negb (TransactionTypeSystemWriteData =? default 0 vType) then errorf "field Type: not equal" else
  let '(xEntry, reader) := readValue 2 UnmarshalDataEntry reader in
  let '(xWriteToState, reader) := ReadBool 3 reader in
  finish_read (Build_SystemWriteData (or_else xEntry (SystemWriteData_Entry v)) (default
    (SystemWriteData_WriteToState v) xWriteToState)) reader.

Definition SystemWriteData_ok (v : SystemWriteData) : Prop :=
  (forall x, SystemWriteData_Entry v = Some x -> DataEntry_ok x) /\ (forall x, SystemWriteData_Entry v = Some x ->
  fits (DataEntry_MarshalBinary x)) /\ SystemWriteData_extraData v = [].

Lemma SystemWriteData_survives (v : SystemWriteData) :
  SystemWriteData_ok v -> survives SystemWriteData_MarshalBinary (SystemWriteData_UnmarshalBinary
    new_SystemWriteData) v.
Proof. wire_roundtrip. Qed.
#[export] Hint Resolve SystemWriteData_survives : wire.
Lemma SystemWriteData_copied (v : SystemWriteData) : SystemWriteData_ok v -> SystemWriteData_Copy v = v.
Proof. wire_copy. Qed.
#[export] Hint Resolve SystemWriteData_copied : copies.
Lemma SystemWriteData_tagged (v : SystemWriteData) : SystemWriteData_ok v -> tagged SystemWriteData_MarshalBinary
    TransactionTypeSystemWriteData v.
Proof. wire_tagged. Qed.
#[export] Hint Resolve SystemWriteData_tagged : wire.

Inductive AccountAuthOperation :=
  | AccountAuthOperation_AddAccountAuthorityOperation (v : AddAccountAuthorityOperation)
  | AccountAuthOperation_DisableAccountAuthOperation (v : DisableAccountAuthOperation)
  | AccountAuthOperation_EnableAccountAuthOperation (v : EnableAccountAuthOperation)
  | AccountAuthOperation_RemoveAccountAuthorityOperation (v : RemoveAccountAuthorityOperation).

Definition AccountAuthOperation_MarshalBinary (v : AccountAuthOperation) : res bytes :=
  match v with
  | AccountAuthOperation_AddAccountAuthorityOperation v => AddAccountAuthorityOperation_MarshalBinary v
  | AccountAuthOperation_DisableAccountAuthOperation v => DisableAccountAuthOperation_MarshalBinary v
  | AccountAuthOperation_EnableAccountAuthOperation v => EnableAccountAuthOperation_MarshalBinary v
  | AccountAuthOperation_RemoveAccountAuthorityOperation v => RemoveAccountAuthorityOperation_MarshalBinary v
  end.

Definition UnmarshalAccountAuthOperation (data : bytes) : res AccountAuthOperation :=
  let! typ := UnmarshalEnumType AccountAuthOperationType_SetEnumValue data in
  if typ =? AccountAuthOperationTypeAddAuthority then let! v := AddAccountAuthorityOperation_UnmarshalBinary new_AddAccountAuthorityOperation data in Ok (AccountAuthOperation_AddAccountAuthorityOperation v) else
  if typ =? AccountAuthOperationTypeDisable then let! v := DisableAccountAuthOperation_UnmarshalBinary new_DisableAccountAuthOperation data in Ok (AccountAuthOperation_DisableAccountAuthOperation v) else
  if typ =? AccountAuthOperationTypeEnable then let! v := EnableAccountAuthOperation_UnmarshalBinary new_EnableAccountAuthOperation data in Ok (AccountAuthOperation_EnableAccountAuthOperation v) else
  if typ =? AccountAuthOperationTypeRemoveAuthority then let! v := RemoveAccountAuthorityOperation_UnmarshalBinary new_RemoveAccountAuthorityOperation data in Ok (AccountAuthOperation_RemoveAccountAuthorityOperation v) else
  errorf "unknown type".

Definition AccountAuthOperation_ok (v : AccountAuthOperation) : Prop :=
  match v with
  | AccountAuthOperation_AddAccountAuthorityOperation v => AddAccountAuthorityOperation_ok v
  | AccountAuthOperation_DisableAccountAuthOperation v => DisableAccountAuthOperation_ok v
  | AccountAuthOperation_EnableAccountAuthOperation v => EnableAccountAuthOperation_ok v
  | AccountAuthOperation_RemoveAccountAuthorityOperation v => RemoveAccountAuthorityOperation_ok v
  end.

Definition AccountAuthOperation_Copy (v : AccountAuthOperation) : AccountAuthOperation :=
  match v with
  | AccountAuthOperation_AddAccountAuthorityOperation v => AccountAuthOperation_AddAccountAuthorityOperation (AddAccountAuthorityOperation_Copy v)
  | AccountAuthOperation_DisableAccountAuthOperation v => AccountAuthOperation_DisableAccountAuthOperation (DisableAccountAuthOperation_Copy v)
  | AccountAuthOperation_EnableAccountAuthOperation v => AccountAuthOperation_EnableAccountAuthOperation (EnableAccountAuthOperation_Copy v)
  | AccountAuthOperation_RemoveAccountAuthorityOperation v => AccountAuthOperation_RemoveAccountAuthorityOperation (RemoveAccountAuthorityOperation_Copy v)
  end.

Lemma AccountAuthOperation_copied (v : AccountAuthOperation) : AccountAuthOperation_ok v ->
    AccountAuthOperation_Copy v = v.
Proof. destruct v; cbn; intros; f_equal; eauto 2 with copies. Qed.
#[export] Hint Resolve AccountAuthOperation_copied : copies.

Lemma AccountAuthOperation_survives (v : AccountAuthOperation) : AccountAuthOperation_ok v -> survives
    AccountAuthOperation_MarshalBinary UnmarshalAccountAuthOperation v.
Proof. destruct v; wire_union. Qed.
#[export] Hint Resolve AccountAuthOperation_survives : wire.

Record UpdateAccountAuth := { UpdateAccountAuth_Operations : list AccountAuthOperation; UpdateAccountAuth_extraData
  : bytes }.
Definition new_UpdateAccountAuth : UpdateAccountAuth := Build_UpdateAccountAuth [] [].

Definition UpdateAccountAuth_Copy (v : UpdateAccountAuth) : UpdateAccountAuth := Build_UpdateAccountAuth
  (AccountAuthOperation_Copy <$> UpdateAccountAuth_Operations v) [].

Definition UpdateAccountAuth_MarshalBinary (v : UpdateAccountAuth) : res bytes :=
  finish (UpdateAccountAuth_extraData v) (
    NewWriter
    |> WriteEnum 1 TransactionTypeUpdateAccountAuth
    |> when (negb (is_empty (UpdateAccountAuth_Operations v))) (range (UpdateAccountAuth_Operations v) (fun v =>
       writeValue 2 (AccountAuthOperation_MarshalBinary v)))).

Definition UpdateAccountAuth_UnmarshalBinary (v : UpdateAccountAuth) (data : bytes) : res UpdateAccountAuth :=
  let reader := NewReader data in
  let '(vType, reader) := ReadEnum TransactionType_SetEnumValue 1 reader in
  if negb (TransactionTypeUpdateAccountAuth =? default 0 vType) then errorf "field Type: not equal" else
  let '(xOperations, reader) := read_list (readValue 2 UnmarshalAccountAuthOperation) reader in
  finish_read (Build_UpdateAccountAuth (UpdateAccountAuth_Operations v ++ xOperations)) reader.

Definition UpdateAccountAuth_ok (v : UpdateAccountAuth) : Prop :=
  (forall x, x ∈ UpdateAccountAuth_Operations v -> AccountAuthOperation_ok x) /\ (forall x, x ∈
  UpdateAccountAuth_Operations v -> fits (AccountAuthOperation_MarshalBinary x)) /\ UpdateAccountAuth_extraData v =
  [].

Lemma UpdateAccountAuth_survives (v : UpdateAccountAuth) :
  UpdateAccountAuth_ok v -> survives UpdateAccountAuth_MarshalBinary (UpdateAccountAuth_UnmarshalBinary
    new_UpdateAccountAuth) v.
Proof. wire_roundtrip. Qed.
#[export] Hint Resolve UpdateAccountAuth_survives : wire.
Lemma UpdateAccountAuth_copied (v : UpdateAccountAuth) : UpdateAccountAuth_ok v -> UpdateAccountAuth_Copy v = v.
Proof. wire_copy. Qed.
#[export] Hint Resolve UpdateAccountAuth_copied : copies.
Lemma UpdateAccountAuth_tagged (v : UpdateAccountAuth) : UpdateAccountAuth_ok v -> tagged
    UpdateAccountAuth_MarshalBinary TransactionTypeUpdateAccountAuth v.
Proof. wire_tagged. Qed.
#[export] Hint Resolve UpdateAccountAuth_tagged : wire.

Record UpdateAllowedKeyPageOperation := { UpdateAllowedKeyPageOperation_Allow : list Z;
  UpdateAllowedKeyPageOperation_Deny : list Z; UpdateAllowedKeyPageOperation_extraData : bytes }.
Definition new_UpdateAllowedKeyPageOperation : UpdateAllowedKeyPageOperation := Build_UpdateAllowedKeyPageOperation
  [] [] [].

Definition UpdateAllowedKeyPageOperation_Copy (v : UpdateAllowedKeyPageOperation) : UpdateAllowedKeyPageOperation :=
  Build_UpdateAllowedKeyPageOperation (UpdateAllowedKeyPageOperation_Allow v) (UpdateAllowedKeyPageOperation_Deny v)
  [].

Definition UpdateAllowedKeyPageOperation_MarshalBinary (v : UpdateAllowedKeyPageOperation) : res bytes :=
  finish (UpdateAllowedKeyPageOperation_extraData v) (
    NewWriter
    |> WriteEnum 1 KeyPageOperationTypeUpdateAllowed
    |> when (negb (is_empty (UpdateAllowedKeyPageOperation_Allow v))) (range (UpdateAllowedKeyPageOperation_Allow v)
       (fun v => WriteEnum 2 v))
    |> when (negb (is_empty (UpdateAllowedKeyPageOperation_Deny v))) (range (UpdateAllowedKeyPageOperation_Deny v)
       (fun v => WriteEnum 3 v))).

Definition UpdateAllowedKeyPageOperation_UnmarshalBinary (v : UpdateAllowedKeyPageOperation) (data : bytes) : res
    UpdateAllowedKeyPageOperation :=
  let reader := NewReader data in
  let '(vType, reader) := ReadEnum KeyPageOperationType_SetEnumValue 1 reader in
  if negb (KeyPageOperationTypeUpdateAllowed =? default 0 vType) then errorf "field Type: not equal" else
  let '(xAllow, reader) := read_list (ReadEnum TransactionType_SetEnumValue 2) reader in
  let '(xDeny, reader) := read_list (ReadEnum TransactionType_SetEnumValue 3) reader in
  finish_read (Build_UpdateAllowedKeyPageOperation (UpdateAllowedKeyPageOperation_Allow v ++ xAllow)
    (UpdateAllowedKeyPageOperation_Deny v ++ xDeny)) reader.

Definition UpdateAllowedKeyPageOperation_ok (v : UpdateAllowedKeyPageOperation) : Prop :=
  (forall x, x ∈ UpdateAllowedKeyPageOperation_Allow v -> enum_ok TransactionType_SetEnumValue x) /\ (forall x, x ∈
  UpdateAllowedKeyPageOperation_Deny v -> enum_ok TransactionType_SetEnumValue x) /\
  UpdateAllowedKeyPageOperation_extraData v = [].

Lemma UpdateAllowedKeyPageOperation_survives (v : UpdateAllowedKeyPageOperation) :
  UpdateAllowedKeyPageOperation_ok v -> survives UpdateAllowedKeyPageOperation_MarshalBinary
    (UpdateAllowedKeyPageOperation_UnmarshalBinary new_UpdateAllowedKeyPageOperation) v.
Proof. wire_roundtrip. Qed.
#[export] Hint Resolve UpdateAllowedKeyPageOperation_survives : wire.
Lemma UpdateAllowedKeyPageOperation_copied (v : UpdateAllowedKeyPageOperation) : UpdateAllowedKeyPageOperation_ok v
    -> UpdateAllowedKeyPageOperation_Copy v = v.
Proof. wire_copy. Qed.
#[export] Hint Resolve UpdateAllowedKeyPageOperation_copied : copies.
Lemma UpdateAllowedKeyPageOperation_tagged (v : UpdateAllowedKeyPageOperation) : UpdateAllowedKeyPageOperation_ok v
    -> tagged UpdateAllowedKeyPageOperation_MarshalBinary KeyPageOperationTypeUpdateAllowed v.
Proof. wire_tagged. Qed.
#[export] Hint Resolve UpdateAllowedKeyPageOperation_tagged : wire.

Record UpdateKey := { UpdateKey_NewKeyHash : bytes; UpdateKey_extraData : bytes }.
Definition new_UpdateKey : UpdateKey := Build_UpdateKey [] [].

Definition UpdateKey_Copy (v : UpdateKey) : UpdateKey := Build_UpdateKey (UpdateKey_NewKeyHash v) [].

Definition UpdateKey_MarshalBinary (v : UpdateKey) : res bytes :=
  finish (UpdateKey_extraData v) (
    NewWriter
    |> WriteEnum 1 TransactionTypeUpdateKey
    |> when (negb (is_empty (UpdateKey_NewKeyHash v))) (WriteBytes 2 (UpdateKey_NewKeyHash v))).

Definition UpdateKey_UnmarshalBinary (v : UpdateKey) (data : bytes) : res UpdateKey :=
  let reader := NewReader data in
  let '(vType, reader) := ReadEnum TransactionType_SetEnumValue 1 reader in
  if negb (TransactionTypeUpdateKey =? default 0 vType) then errorf "field Type: not equal" else
  let '(xNewKeyHash, reader) := ReadBytes 2 reader in
  finish_read (Build_UpdateKey (default (UpdateKey_NewKeyHash v) xNewKeyHash)) reader.

Definition UpdateKey_ok (v : UpdateKey) : Prop :=
  bytes_ok (UpdateKey_NewKeyHash v) /\ UpdateKey_extraData v = [].

Lemma UpdateKey_survives (v : UpdateKey) :
  UpdateKey_ok v -> survives UpdateKey_MarshalBinary (UpdateKey_UnmarshalBinary new_UpdateKey) v.
Proof. wire_roundtrip. Qed.
#[export] Hint Resolve UpdateKey_survives : wire.
Lemma UpdateKey_copied (v : UpdateKey) : UpdateKey_ok v -> UpdateKey_Copy v = v.
Proof. wire_copy. Qed.
#[export] Hint Resolve UpdateKey_copied : copies.
Lemma UpdateKey_tagged (v : UpdateKey) : UpdateKey_ok v -> tagged UpdateKey_MarshalBinary TransactionTypeUpdateKey
    v.
Proof. wire_tagged. Qed.
#[export] Hint Resolve UpdateKey_tagged : wire.

Record UpdateKeyOperation := { UpdateKeyOperation_OldEntry : KeySpecParams; UpdateKeyOperation_NewEntry :
  KeySpecParams; UpdateKeyOperation_extraData : bytes }.
Definition new_UpdateKeyOperation : UpdateKeyOperation := Build_UpdateKeyOperation new_KeySpecParams
  new_KeySpecParams [].

Definition UpdateKeyOperation_Copy (v : UpdateKeyOperation) : UpdateKeyOperation := Build_UpdateKeyOperation
  (KeySpecParams_Copy (UpdateKeyOperation_OldEntry v)) (KeySpecParams_Copy (UpdateKeyOperation_NewEntry v)) [].

Definition UpdateKeyOperation_MarshalBinary (v : UpdateKeyOperation) : res bytes :=
  finish (UpdateKeyOperation_extraData v) (
    NewWriter
    |> WriteEnum 1 KeyPageOperationTypeUpdate
    |> when (negb (KeySpecParams_Equal (UpdateKeyOperation_OldEntry v) new_KeySpecParams)) (writeValue 2
       (KeySpecParams_MarshalBinary (UpdateKeyOperation_OldEntry v)))
    |> when (negb (KeySpecParams_Equal (UpdateKeyOperation_NewEntry v) new_KeySpecParams)) (writeValue 3
       (KeySpecParams_MarshalBinary (UpdateKeyOperation_NewEntry v)))).

Definition UpdateKeyOperation_UnmarshalBinary (v : UpdateKeyOperation) (data : bytes) : res UpdateKeyOperation :=
  let reader := NewReader data in
  let '(vType, reader) := ReadEnum KeyPageOperationType_SetEnumValue 1 reader in
  if negb (KeyPageOperationTypeUpdate =? default 0 vType) then errorf "field Type: not equal" else
  let '(xOldEntry, reader) := readValue 2 (KeySpecParams_UnmarshalBinary new_KeySpecParams) reader in
  let '(xNewEntry, reader) := readValue 3 (KeySpecParams_UnmarshalBinary new_KeySpecParams) reader in
  finish_read (Build_UpdateKeyOperation (default (UpdateKeyOperation_OldEntry v) xOldEntry) (default
    (UpdateKeyOperation_NewEntry v) xNewEntry)) reader.

Definition UpdateKeyOperation_ok (v : UpdateKeyOperation) : Prop :=
  KeySpecParams_ok (UpdateKeyOperation_OldEntry v) /\ fits (KeySpecParams_MarshalBinary (UpdateKeyOperation_OldEntry
  v)) /\ KeySpecParams_ok (UpdateKeyOperation_NewEntry v) /\ fits (KeySpecParams_MarshalBinary
  (UpdateKeyOperation_NewEntry v)) /\ UpdateKeyOperation_extraData v = [].

Lemma UpdateKeyOperation_survives (v : UpdateKeyOperation) :
  UpdateKeyOperation_ok v -> survives UpdateKeyOperation_MarshalBinary (UpdateKeyOperation_UnmarshalBinary
    new_UpdateKeyOperation) v.
Proof. wire_roundtrip. Qed.
#[export] Hint Resolve UpdateKeyOperation_survives : wire.
Lemma UpdateKeyOperation_copied (v : UpdateKeyOperation) : UpdateKeyOperation_ok v -> UpdateKeyOperation_Copy v = v.
Proof. wire_copy. Qed.
#[export] Hint Resolve UpdateKeyOperation_copied : copies.
Lemma UpdateKeyOperation_tagged (v : UpdateKeyOperation) : UpdateKeyOperation_ok v -> tagged
    UpdateKeyOperation_MarshalBinary KeyPageOperationTypeUpdate v.
Proof. wire_tagged. Qed.
#[export] Hint Resolve UpdateKeyOperation_tagged : wire.

Inductive KeyPageOperation :=
  | KeyPageOperation_AddKeyOperation (v : AddKeyOperation)
  | KeyPageOperation_RemoveKeyOperation (v : RemoveKeyOperation)
  | KeyPageOperation_SetThresholdKeyPageOperation (v : SetThresholdKeyPageOperation)
  | KeyPageOperation_UpdateAllowedKeyPageOperation (v : UpdateAllowedKeyPageOperation)
  | KeyPageOperation_UpdateKeyOperation (v : UpdateKeyOperation).

Definition KeyPageOperation_MarshalBinary (v : KeyPageOperation) : res bytes :=
  match v with
  | KeyPageOperation_AddKeyOperation v => AddKeyOperation_MarshalBinary v
  | KeyPageOperation_RemoveKeyOperation v => RemoveKeyOperation_MarshalBinary v
  | KeyPageOperation_SetThresholdKeyPageOperation v => SetThresholdKeyPageOperation_MarshalBinary v
  | KeyPageOperation_UpdateAllowedKeyPageOperation v => UpdateAllowedKeyPageOperation_MarshalBinary v
  | KeyPageOperation_UpdateKeyOperation v => UpdateKeyOperation_MarshalBinary v
  end.

Definition UnmarshalKeyPageOperation (data : bytes) : res KeyPageOperation :=
  let! typ := UnmarshalEnumType KeyPageOperationType_SetEnumValue data in
  if typ =? KeyPageOperationTypeAdd then let! v := AddKeyOperation_UnmarshalBinary new_AddKeyOperation data in Ok (KeyPageOperation_AddKeyOperation v) else
  if typ =? KeyPageOperationTypeRemove then let! v := RemoveKeyOperation_UnmarshalBinary new_RemoveKeyOperation data in Ok (KeyPageOperation_RemoveKeyOperation v) else
  if typ =? KeyPageOperationTypeSetThreshold then let! v := SetThresholdKeyPageOperation_UnmarshalBinary new_SetThresholdKeyPageOperation data in Ok (KeyPageOperation_SetThresholdKeyPageOperation v) else
  if typ =? KeyPageOperationTypeUpdateAllowed then let! v := UpdateAllowedKeyPageOperation_UnmarshalBinary new_UpdateAllowedKeyPageOperation data in Ok (KeyPageOperation_UpdateAllowedKeyPageOperation v) else
  if typ =? KeyPageOperationTypeUpdate then let! v := UpdateKeyOperation_UnmarshalBinary new_UpdateKeyOperation data in Ok (KeyPageOperation_UpdateKeyOperation v) else
  errorf "unknown type".

Definition KeyPageOperation_ok (v : KeyPageOperation) : Prop :=
  match v with
  | KeyPageOperation_AddKeyOperation v => AddKeyOperation_ok v
  | KeyPageOperation_RemoveKeyOperation v => RemoveKeyOperation_ok v
  | KeyPageOperation_SetThresholdKeyPageOperation v => SetThresholdKeyPageOperation_ok v
  | KeyPageOperation_UpdateAllowedKeyPageOperation v => UpdateAllowedKeyPageOperation_ok v
  | KeyPageOperation_UpdateKeyOperation v => UpdateKeyOperation_ok v
  end.

Definition KeyPageOperation_Copy (v : KeyPageOperation) : KeyPageOperation :=
  match v with
  | KeyPageOperation_AddKeyOperation v => KeyPageOperation_AddKeyOperation (AddKeyOperation_Copy v)
  | KeyPageOperation_RemoveKeyOperation v => KeyPageOperation_RemoveKeyOperation (RemoveKeyOperation_Copy v)
  | KeyPageOperation_SetThresholdKeyPageOperation v => KeyPageOperation_SetThresholdKeyPageOperation (SetThresholdKeyPageOperation_Copy v)
  | KeyPageOperation_UpdateAllowedKeyPageOperation v => KeyPageOperation_UpdateAllowedKeyPageOperation (UpdateAllowedKeyPageOperation_Copy v)
  | KeyPageOperation_UpdateKeyOperation v => KeyPageOperation_UpdateKeyOperation (UpdateKeyOperation_Copy v)
  end.

Lemma KeyPageOperation_copied (v : KeyPageOperation) : KeyPageOperation_ok v -> KeyPageOperation_Copy v = v.
Proof. destruct v; cbn; intros; f_equal; eauto 2 with copies. Qed.
#[export] Hint Resolve KeyPageOperation_copied : copies.

Lemma KeyPageOperation_survives (v : KeyPageOperation) : KeyPageOperation_ok v -> survives
    KeyPageOperation_MarshalBinary UnmarshalKeyPageOperation v.
Proof. destruct v; wire_union. Qed.
#[export] Hint Resolve KeyPageOperation_survives : wire.

Record UpdateKeyPage := { UpdateKeyPage_Operation : list KeyPageOperation; UpdateKeyPage_extraData : bytes }.
Definition new_UpdateKeyPage : UpdateKeyPage := Build_UpdateKeyPage [] [].

Definition UpdateKeyPage_Copy (v : UpdateKeyPage) : UpdateKeyPage := Build_UpdateKeyPage (KeyPageOperation_Copy <$>
  UpdateKeyPage_Operation v) [].

Definition UpdateKeyPage_MarshalBinary (v : UpdateKeyPage) : res bytes :=
  finish (UpdateKeyPage_extraData v) (
    NewWriter
    |> WriteEnum 1 TransactionTypeUpdateKeyPage
    |> when (negb (is_empty (UpdateKeyPage_Operation v))) (range (UpdateKeyPage_Operation v) (fun v => writeValue 2
       (KeyPageOperation_MarshalBinary v)))).

Definition UpdateKeyPage_UnmarshalBinary (v : UpdateKeyPage) (data : bytes) : res UpdateKeyPage :=
  let reader := NewReader data in
  let '(vType, reader) := ReadEnum TransactionType_SetEnumValue 1 reader in
  if negb (TransactionTypeUpdateKeyPage =? default 0 vType) then errorf "field Type: not equal" else
  let '(xOperation, reader) := read_list (readValue 2 UnmarshalKeyPageOperation) reader in
  finish_read (Build_UpdateKeyPage (UpdateKeyPage_Operation v ++ xOperation)) reader.

Definition UpdateKeyPage_ok (v : UpdateKeyPage) : Prop :=
  (forall x, x ∈ UpdateKeyPage_Operation v -> KeyPageOperation_ok x) /\ (forall x, x ∈ UpdateKeyPage_Operation v ->
  fits (KeyPageOperation_MarshalBinary x)) /\ UpdateKeyPage_extraData v = [].

Lemma UpdateKeyPage_survives (v : UpdateKeyPage) :
  UpdateKeyPage_ok v -> survives UpdateKeyPage_MarshalBinary (UpdateKeyPage_UnmarshalBinary new_UpdateKeyPage) v.
Proof. wire_roundtrip. Qed.
#[export] Hint Resolve UpdateKeyPage_survives : wire.
Lemma UpdateKeyPage_copied (v : UpdateKeyPage) : UpdateKeyPage_ok v -> UpdateKeyPage_Copy v = v.
Proof. wire_copy. Qed.
#[export] Hint Resolve UpdateKeyPage_copied : copies.
Lemma UpdateKeyPage_tagged (v : UpdateKeyPage) : UpdateKeyPage_ok v -> tagged UpdateKeyPage_MarshalBinary
    TransactionTypeUpdateKeyPage v.
Proof. wire_tagged. Qed.
#[export] Hint Resolve UpdateKeyPage_tagged : wire.

Record WriteData := { WriteData_Entry : option DataEntry; WriteData_Scratch : bool; WriteData_WriteToState : bool;
  WriteData_extraData : bytes }.
Definition new_WriteData : WriteData := Build_WriteData None false false [].

Definition WriteData_Copy (v : WriteData) : WriteData := Build_WriteData (DataEntry_Copy <$> WriteData_Entry v)
  (WriteData_Scratch v) (WriteData_WriteToState v) [].

Definition WriteData_MarshalBinary (v : WriteData) : res bytes :=
  finish (WriteData_extraData v) (
    NewWriter
    |> WriteEnum 1 TransactionTypeWriteData
    |> when (negb (is_nil (WriteData_Entry v))) (deref (WriteData_Entry v) (fun v => writeValue 2
       (DataEntry_MarshalBinary v)))
    |> when (negb (negb (WriteData_Scratch v))) (WriteBool 3 (WriteData_Scratch v))
    |> when (negb (negb (WriteData_WriteToState v))) (WriteBool 4 (WriteData_WriteToState v))).

Definition WriteData_UnmarshalBinary (v : WriteData) (data : bytes) : res WriteData :=
  let reader := NewReader data in
  let '(vType, reader) := ReadEnum TransactionType_SetEnumValue 1 reader in
  if negb (TransactionTypeWriteData =? default 0 vType) then errorf "field Type: not equal" else
  let '(xEntry, reader) := readValue 2 UnmarshalDataEntry reader in
  let '(xScratch, reader) := ReadBool 3 reader in
  let '(xWriteToState, reader) := ReadBool 4 reader in
  finish_read (Build_WriteData (or_else xEntry (WriteData_Entry v)) (default (WriteData_Scratch v) xScratch)
    (default (WriteData_WriteToState v) xWriteToState)) reader.

Definition WriteData_ok (v : WriteData) : Prop :=
  (forall x, WriteData_Entry v = Some x -> DataEntry_ok x) /\ (forall x, WriteData_Entry v = Some x -> fits
  (DataEntry_MarshalBinary x)) /\ WriteData_extraData v = [].

Lemma WriteData_survives (v : WriteData) :
  WriteData_ok v -> survives WriteData_MarshalBinary (WriteData_UnmarshalBinary new_WriteData) v.
Proof. wire_roundtrip. Qed.
#[export] Hint Resolve WriteData_survives : wire.
Lemma WriteData_copied (v : WriteData) : WriteData_ok v -> WriteData_Copy v = v.
Proof. wire_copy. Qed.
#[export] Hint Resolve WriteData_copied : copies.
Lemma WriteData_tagged (v : WriteData) : WriteData_ok v -> tagged WriteData_MarshalBinary TransactionTypeWriteData
    v.
Proof. wire_tagged. Qed.
#[export] Hint Resolve WriteData_tagged : wire.

Record WriteDataTo := { WriteDataTo_Recipient : option URL; WriteDataTo_Entry : option DataEntry;
  WriteDataTo_extraData : bytes }.
Definition new_WriteDataTo : WriteDataTo := Build_WriteDataTo None None [].

Definition WriteDataTo_Copy (v : WriteDataTo) : WriteDataTo := Build_WriteDataTo (WriteDataTo_Recipient v)
  (DataEntry_Copy <$> WriteDataTo_Entry v) [].

Definition WriteDataTo_MarshalBinary (v : WriteDataTo) : res bytes :=
  finish (WriteDataTo_extraData v) (
    NewWriter
    |> WriteEnum 1 TransactionTypeWriteDataTo
    |> when (negb (is_nil (WriteDataTo_Recipient v))) (writeUrl 2 (WriteDataTo_Recipient v))
    |> when (negb (is_nil (WriteDataTo_Entry v))) (deref (WriteDataTo_Entry v) (fun v => writeValue 3
       (DataEntry_MarshalBinary v)))).

Definition WriteDataTo_UnmarshalBinary (v : WriteDataTo) (data : bytes) : res WriteDataTo :=
  let reader := NewReader data in
  let '(vType, reader) := ReadEnum TransactionType_SetEnumValue 1 reader in
  if negb (TransactionTypeWriteDataTo =? default 0 vType) then errorf "field Type: not equal" else
  let '(xRecipient, reader) := readUrl 2 reader in
  let '(xEntry, reader) := readValue 3 UnmarshalDataEntry reader in
  finish_read (Build_WriteDataTo (default (WriteDataTo_Recipient v) xRecipient) (or_else xEntry (WriteDataTo_Entry
    v))) reader.

Definition WriteDataTo_ok (v : WriteDataTo) : Prop :=
  url_ok (WriteDataTo_Recipient v) /\ (forall x, WriteDataTo_Entry v = Some x -> DataEntry_ok x) /\ (forall x,
  WriteDataTo_Entry v = Some x -> fits (DataEntry_MarshalBinary x)) /\ WriteDataTo_extraData v = [].

Lemma WriteDataTo_survives (v : WriteDataTo) :
  WriteDataTo_ok v -> survives WriteDataTo_MarshalBinary (WriteDataTo_UnmarshalBinary new_WriteDataTo) v.
Proof. wire_roundtrip. Qed.
#[export] Hint Resolve WriteDataTo_survives : wire.
Lemma WriteDataTo_copied (v : WriteDataTo) : WriteDataTo_ok v -> WriteDataTo_Copy v = v.
Proof. wire_copy. Qed.
#[export] Hint Resolve WriteDataTo_copied : copies.
Lemma WriteDataTo_tagged (v : WriteDataTo) : WriteDataTo_ok v -> tagged WriteDataTo_MarshalBinary
    TransactionTypeWriteDataTo v.
Proof. wire_tagged. Qed.
#[export] Hint Resolve WriteDataTo_tagged : wire.

Inductive TransactionBody (SG : Type) (TB : Type) :=
  | TransactionBody_AcmeFaucet (v : AcmeFaucet)
  | TransactionBody_AddCredits (v : AddCredits)
  | TransactionBody_BlockValidatorAnchor (v : BlockValidatorAnchor)
  | TransactionBody_BurnTokens (v : BurnTokens)
  | TransactionBody_CreateDataAccount (v : CreateDataAccount)
  | TransactionBody_CreateIdentity (v : CreateIdentity)
  | TransactionBody_CreateKeyBook (v : CreateKeyBook)
  | TransactionBody_CreateKeyPage (v : CreateKeyPage)
  | TransactionBody_CreateLiteTokenAccount (v : CreateLiteTokenAccount)
  | TransactionBody_CreateToken (v : CreateToken)
  | TransactionBody_CreateTokenAccount (v : CreateTokenAccount)
  | TransactionBody_DirectoryAnchor (v : DirectoryAnchor TB)
  | TransactionBody_IssueTokens (v : IssueTokens)
  | TransactionBody_LockAccount (v : LockAccount)
  | TransactionBody_RemoteTransaction (v : RemoteTransaction)
  | TransactionBody_SendTokens (v : SendTokens)
  | TransactionBody_SyntheticBurnTokens (v : SyntheticBurnTokens)
  | TransactionBody_SyntheticCreateIdentity (v : SyntheticCreateIdentity TB)
  | TransactionBody_SyntheticDepositCredits (v : SyntheticDepositCredits)
  | TransactionBody_SyntheticDepositTokens (v : SyntheticDepositTokens)
  | TransactionBody_SyntheticForwardTransaction (v : SyntheticForwardTransaction SG TB)
  | TransactionBody_SyntheticWriteData (v : SyntheticWriteData)
  | TransactionBody_SystemGenesis (v : SystemGenesis)
  | TransactionBody_SystemWriteData (v : SystemWriteData)
  | TransactionBody_UpdateAccountAuth (v : UpdateAccountAuth)
  | TransactionBody_UpdateKey (v : UpdateKey)
  | TransactionBody_UpdateKeyPage (v : UpdateKeyPage)
  | TransactionBody_WriteData (v : WriteData)
  | TransactionBody_WriteDataTo (v : WriteDataTo).
Arguments TransactionBody_AcmeFaucet {SG} {TB}.
Arguments TransactionBody_AddCredits {SG} {TB}.
Arguments TransactionBody_BlockValidatorAnchor {SG} {TB}.
Arguments TransactionBody_BurnTokens {SG} {TB}.
Arguments TransactionBody_CreateDataAccount {SG} {TB}.
Arguments TransactionBody_CreateIdentity {SG} {TB}.
Arguments TransactionBody_CreateKeyBook {SG} {TB}.
Arguments TransactionBody_CreateKeyPage {SG} {TB}.
Arguments TransactionBody_CreateLiteTokenAccount {SG} {TB}.
Arguments TransactionBody_CreateToken {SG} {TB}.
Arguments TransactionBody_CreateTokenAccount {SG} {TB}.
Arguments TransactionBody_DirectoryAnchor {SG} {TB}.
Arguments TransactionBody_IssueTokens {SG} {TB}.
Arguments TransactionBody_LockAccount {SG} {TB}.
Arguments TransactionBody_RemoteTransaction {SG} {TB}.
Arguments TransactionBody_SendTokens {SG} {TB}.
Arguments TransactionBody_SyntheticBurnTokens {SG} {TB}.
Arguments TransactionBody_SyntheticCreateIdentity {SG} {TB}.
Arguments TransactionBody_SyntheticDepositCredits {SG} {TB}.
Arguments TransactionBody_SyntheticDepositTokens {SG} {TB}.
Arguments TransactionBody_SyntheticForwardTransaction {SG} {TB}.
Arguments TransactionBody_SyntheticWriteData {SG} {TB}.
Arguments TransactionBody_SystemGenesis {SG} {TB}.
Arguments TransactionBody_SystemWriteData {SG} {TB}.
Arguments TransactionBody_UpdateAccountAuth {SG} {TB}.
Arguments TransactionBody_UpdateKey {SG} {TB}.
Arguments TransactionBody_UpdateKeyPage {SG} {TB}.
Arguments TransactionBody_WriteData {SG} {TB}.
Arguments TransactionBody_WriteDataTo {SG} {TB}.

Definition TransactionBody_MarshalBinary `{Union SG, Union TB} (v : TransactionBody SG TB) : res bytes :=
  match v with
  | TransactionBody_AcmeFaucet v => AcmeFaucet_MarshalBinary v
  | TransactionBody_AddCredits v => AddCredits_MarshalBinary v
  | TransactionBody_BlockValidatorAnchor v => BlockValidatorAnchor_MarshalBinary v
  | TransactionBody_BurnTokens v => BurnTokens_MarshalBinary v
  | TransactionBody_CreateDataAccount v => CreateDataAccount_MarshalBinary v
  | TransactionBody_CreateIdentity v => CreateIdentity_MarshalBinary v
  | TransactionBody_CreateKeyBook v => CreateKeyBook_MarshalBinary v
  | TransactionBody_CreateKeyPage v => CreateKeyPage_MarshalBinary v
  | TransactionBody_CreateLiteTokenAccount v => CreateLiteTokenAccount_MarshalBinary v
  | TransactionBody_CreateToken v => CreateToken_MarshalBinary v
  | TransactionBody_CreateTokenAccount v => CreateTokenAccount_MarshalBinary v
  | TransactionBody_DirectoryAnchor v => DirectoryAnchor_MarshalBinary v
  | TransactionBody_IssueTokens v => IssueTokens_MarshalBinary v
  | TransactionBody_LockAccount v => LockAccount_MarshalBinary v
  | TransactionBody_RemoteTransaction v => RemoteTransaction_MarshalBinary v
  | TransactionBody_SendTokens v => SendTokens_MarshalBinary v
  | TransactionBody_SyntheticBurnTokens v => SyntheticBurnTokens_MarshalBinary v
  | TransactionBody_SyntheticCreateIdentity v => SyntheticCreateIdentity_MarshalBinary v
  | TransactionBody_SyntheticDepositCredits v => SyntheticDepositCredits_MarshalBinary v
  | TransactionBody_SyntheticDepositTokens v => SyntheticDepositTokens_MarshalBinary v
  | TransactionBody_SyntheticForwardTransaction v => SyntheticForwardTransaction_MarshalBinary v
  | TransactionBody_SyntheticWriteData v => SyntheticWriteData_MarshalBinary v
  | TransactionBody_SystemGenesis v => SystemGenesis_MarshalBinary v
  | TransactionBody_SystemWriteData v => SystemWriteData_MarshalBinary v
  | TransactionBody_UpdateAccountAuth v => UpdateAccountAuth_MarshalBinary v
  | TransactionBody_UpdateKey v => UpdateKey_MarshalBinary v
  | TransactionBody_UpdateKeyPage v => UpdateKeyPage_MarshalBinary v
  | TransactionBody_WriteData v => WriteData_MarshalBinary v
  | TransactionBody_WriteDataTo v => WriteDataTo_MarshalBinary v
  end.

Definition UnmarshalTransactionBody `{Union SG, Union TB} (data : bytes) : res (TransactionBody SG TB) :=
  let! typ := UnmarshalEnumType TransactionType_SetEnumValue data in
  if typ =? TransactionTypeAcmeFaucet then let! v := AcmeFaucet_UnmarshalBinary new_AcmeFaucet data in Ok (TransactionBody_AcmeFaucet v) else
  if typ =? TransactionTypeAddCredits then let! v := AddCredits_UnmarshalBinary new_AddCredits data in Ok (TransactionBody_AddCredits v) else
  if typ =? TransactionTypeBlockValidatorAnchor then let! v := BlockValidatorAnchor_UnmarshalBinary new_BlockValidatorAnchor data in Ok (TransactionBody_BlockValidatorAnchor v) else
  if typ =? TransactionTypeBurnTokens then let! v := BurnTokens_UnmarshalBinary new_BurnTokens data in Ok (TransactionBody_BurnTokens v) else
  if typ =? TransactionTypeCreateDataAccount then let! v := CreateDataAccount_UnmarshalBinary new_CreateDataAccount data in Ok (TransactionBody_CreateDataAccount v) else
  if typ =? TransactionTypeCreateIdentity then let! v := CreateIdentity_UnmarshalBinary new_CreateIdentity data in Ok (TransactionBody_CreateIdentity v) else
  if typ =? TransactionTypeCreateKeyBook then let! v := CreateKeyBook_UnmarshalBinary new_CreateKeyBook data in Ok (TransactionBody_CreateKeyBook v) else
  if typ =? TransactionTypeCreateKeyPage then let! v := CreateKeyPage_UnmarshalBinary new_CreateKeyPage data in Ok (TransactionBody_CreateKeyPage v) else
  if typ =? TransactionTypeCreateLiteTokenAccount then let! v := CreateLiteTokenAccount_UnmarshalBinary new_CreateLiteTokenAccount data in Ok (TransactionBody_CreateLiteTokenAccount v) else
  if typ =? TransactionTypeCreateToken then let! v := CreateToken_UnmarshalBinary new_CreateToken data in Ok (TransactionBody_CreateToken v) else
  if typ =? TransactionTypeCreateTokenAccount then let! v := CreateTokenAccount_UnmarshalBinary new_CreateTokenAccount data in Ok (TransactionBody_CreateTokenAccount v) else
  if typ =? TransactionTypeDirectoryAnchor then let! v := DirectoryAnchor_UnmarshalBinary new_DirectoryAnchor data in Ok (TransactionBody_DirectoryAnchor v) else
  if typ =? TransactionTypeIssueTokens then let! v := IssueTokens_UnmarshalBinary new_IssueTokens data in Ok (TransactionBody_IssueTokens v) else
  if typ =? TransactionTypeLockAccount then let! v := LockAccount_UnmarshalBinary new_LockAccount data in Ok (TransactionBody_LockAccount v) else
  if typ =? TransactionTypeRemote then let! v := RemoteTransaction_UnmarshalBinary new_RemoteTransaction data in Ok (TransactionBody_RemoteTransaction v) else
  if typ =? TransactionTypeSendTokens then let! v := SendTokens_UnmarshalBinary new_SendTokens data in Ok (TransactionBody_SendTokens v) else
  if typ =? TransactionTypeSyntheticBurnTokens then let! v := SyntheticBurnTokens_UnmarshalBinary new_SyntheticBurnTokens data in Ok (TransactionBody_SyntheticBurnTokens v) else
  if typ =? TransactionTypeSyntheticCreateIdentity then let! v := SyntheticCreateIdentity_UnmarshalBinary new_SyntheticCreateIdentity data in Ok (TransactionBody_SyntheticCreateIdentity v) else
  if typ =? TransactionTypeSyntheticDepositCredits then let! v := SyntheticDepositCredits_UnmarshalBinary new_SyntheticDepositCredits data in Ok (TransactionBody_SyntheticDepositCredits v) else
  if typ =? TransactionTypeSyntheticDepositTokens then let! v := SyntheticDepositTokens_UnmarshalBinary new_SyntheticDepositTokens data in Ok (TransactionBody_SyntheticDepositTokens v) else
  if typ =? TransactionTypeSyntheticForwardTransaction then let! v := SyntheticForwardTransaction_UnmarshalBinary new_SyntheticForwardTransaction data in Ok (TransactionBody_SyntheticForwardTransaction v) else
  if typ =? TransactionTypeSyntheticWriteData then let! v := SyntheticWriteData_UnmarshalBinary new_SyntheticWriteData data in Ok (TransactionBody_SyntheticWriteData v) else
  if typ =? TransactionTypeSystemGenesis then let! v := SystemGenesis_UnmarshalBinary new_SystemGenesis data in Ok (TransactionBody_SystemGenesis v) else
  if typ =? TransactionTypeSystemWriteData then let! v := SystemWriteData_UnmarshalBinary new_SystemWriteData data in Ok (TransactionBody_SystemWriteData v) else
  if typ =? TransactionTypeUpdateAccountAuth then let! v := UpdateAccountAuth_UnmarshalBinary new_UpdateAccountAuth data in Ok (TransactionBody_UpdateAccountAuth v) else
  if typ =? TransactionTypeUpdateKey then let! v := UpdateKey_UnmarshalBinary new_UpdateKey data in Ok (TransactionBody_UpdateKey v) else
  if typ =? TransactionTypeUpdateKeyPage then let! v := UpdateKeyPage_UnmarshalBinary new_UpdateKeyPage data in Ok (TransactionBody_UpdateKeyPage v) else
  if typ =? TransactionTypeWriteData then let! v := WriteData_UnmarshalBinary new_WriteData data in Ok (TransactionBody_WriteData v) else
  if typ =? TransactionTypeWriteDataTo then let! v := WriteDataTo_UnmarshalBinary new_WriteDataTo data in Ok (TransactionBody_WriteDataTo v) else
  errorf "unknown type".

Definition TransactionBody_ok `{Union SG, Union TB} (v : TransactionBody SG TB) : Prop :=
  match v with
  | TransactionBody_AcmeFaucet v => AcmeFaucet_ok v
  | TransactionBody_AddCredits v => AddCredits_ok v
  | TransactionBody_BlockValidatorAnchor v => BlockValidatorAnchor_ok v
  | TransactionBody_BurnTokens v => BurnTokens_ok v
  | TransactionBody_CreateDataAccount v => CreateDataAccount_ok v
  | TransactionBody_CreateIdentity v => CreateIdentity_ok v
  | TransactionBody_CreateKeyBook v => CreateKeyBook_ok v
  | TransactionBody_CreateKeyPage v => CreateKeyPage_ok v
  | TransactionBody_CreateLiteTokenAccount v => CreateLiteTokenAccount_ok v
  | TransactionBody_CreateToken v => CreateToken_ok v
  | TransactionBody_CreateTokenAccount v => CreateTokenAccount_ok v
  | TransactionBody_DirectoryAnchor v => DirectoryAnchor_ok v
  | TransactionBody_IssueTokens v => IssueTokens_ok v
  | TransactionBody_LockAccount v => LockAccount_ok v
  | TransactionBody_RemoteTransaction v => RemoteTransaction_ok v
  | TransactionBody_SendTokens v => SendTokens_ok v
  | TransactionBody_SyntheticBurnTokens v => SyntheticBurnTokens_ok v
  | TransactionBody_SyntheticCreateIdentity v => SyntheticCreateIdentity_ok v
  | TransactionBody_SyntheticDepositCredits v => SyntheticDepositCredits_ok v
  | TransactionBody_SyntheticDepositTokens v => SyntheticDepositTokens_ok v
  | TransactionBody_SyntheticForwardTransaction v => SyntheticForwardTransaction_ok v
  | TransactionBody_SyntheticWriteData v => SyntheticWriteData_ok v
  | TransactionBody_SystemGenesis v => SystemGenesis_ok v
  | TransactionBody_SystemWriteData v => SystemWriteData_ok v
  | TransactionBody_UpdateAccountAuth v => UpdateAccountAuth_ok v
  | TransactionBody_UpdateKey v => UpdateKey_ok v
  | TransactionBody_UpdateKeyPage v => UpdateKeyPage_ok v
  | TransactionBody_WriteData v => WriteData_ok v
  | TransactionBody_WriteDataTo v => WriteDataTo_ok v
  end.

Definition TransactionBody_Copy `{Union SG, Union TB} (v : TransactionBody SG TB) : TransactionBody SG TB :=
  match v with
  | TransactionBody_AcmeFaucet v => TransactionBody_AcmeFaucet (AcmeFaucet_Copy v)
  | TransactionBody_AddCredits v => TransactionBody_AddCredits (AddCredits_Copy v)
  | TransactionBody_BlockValidatorAnchor v => TransactionBody_BlockValidatorAnchor (BlockValidatorAnchor_Copy v)
  | TransactionBody_BurnTokens v => TransactionBody_BurnTokens (BurnTokens_Copy v)
  | TransactionBody_CreateDataAccount v => TransactionBody_CreateDataAccount (CreateDataAccount_Copy v)
  | TransactionBody_CreateIdentity v => TransactionBody_CreateIdentity (CreateIdentity_Copy v)
  | TransactionBody_CreateKeyBook v => TransactionBody_CreateKeyBook (CreateKeyBook_Copy v)
  | TransactionBody_CreateKeyPage v => TransactionBody_CreateKeyPage (CreateKeyPage_Copy v)
  | TransactionBody_CreateLiteTokenAccount v => TransactionBody_CreateLiteTokenAccount (CreateLiteTokenAccount_Copy v)
  | TransactionBody_CreateToken v => TransactionBody_CreateToken (CreateToken_Copy v)
  | TransactionBody_CreateTokenAccount v => TransactionBody_CreateTokenAccount (CreateTokenAccount_Copy v)
  | TransactionBody_DirectoryAnchor v => TransactionBody_DirectoryAnchor (DirectoryAnchor_Copy v)
  | TransactionBody_IssueTokens v => TransactionBody_IssueTokens (IssueTokens_Copy v)
  | TransactionBody_LockAccount v => TransactionBody_LockAccount (LockAccount_Copy v)
  | TransactionBody_RemoteTransaction v => TransactionBody_RemoteTransaction (RemoteTransaction_Copy v)
  | TransactionBody_SendTokens v => TransactionBody_SendTokens (SendTokens_Copy v)
  | TransactionBody_SyntheticBurnTokens v => TransactionBody_SyntheticBurnTokens (SyntheticBurnTokens_Copy v)
  | TransactionBody_SyntheticCreateIdentity v => TransactionBody_SyntheticCreateIdentity (SyntheticCreateIdentity_Copy v)
  | TransactionBody_SyntheticDepositCredits v => TransactionBody_SyntheticDepositCredits (SyntheticDepositCredits_Copy v)
  | TransactionBody_SyntheticDepositTokens v => TransactionBody_SyntheticDepositTokens (SyntheticDepositTokens_Copy v)
  | TransactionBody_SyntheticForwardTransaction v => TransactionBody_SyntheticForwardTransaction (SyntheticForwardTransaction_Copy v)
  | TransactionBody_SyntheticWriteData v => TransactionBody_SyntheticWriteData (SyntheticWriteData_Copy v)
  | TransactionBody_SystemGenesis v => TransactionBody_SystemGenesis (SystemGenesis_Copy v)
  | TransactionBody_SystemWriteData v => TransactionBody_SystemWriteData (SystemWriteData_Copy v)
  | TransactionBody_UpdateAccountAuth v => TransactionBody_UpdateAccountAuth (UpdateAccountAuth_Copy v)
  | TransactionBody_UpdateKey v => TransactionBody_UpdateKey (UpdateKey_Copy v)
  | TransactionBody_UpdateKeyPage v => TransactionBody_UpdateKeyPage (UpdateKeyPage_Copy v)
  | TransactionBody_WriteData v => TransactionBody_WriteData (WriteData_Copy v)
  | TransactionBody_WriteDataTo v => TransactionBody_WriteDataTo (WriteDataTo_Copy v)
  end.

Lemma TransactionBody_copied `{Union SG, Union TB} `{!UnionLaws SG, !UnionLaws TB} (v : TransactionBody SG TB) :
    TransactionBody_ok v -> TransactionBody_Copy v = v.
Proof. destruct v; cbn; intros; f_equal; eauto 2 with copies. Qed.
#[export] Hint Resolve TransactionBody_copied : copies.

Lemma TransactionBody_survives `{Union SG, Union TB} `{!UnionLaws SG, !UnionLaws TB} (v : TransactionBody SG TB) :
    TransactionBody_ok v -> survives TransactionBody_MarshalBinary UnmarshalTransactionBody v.
Proof. destruct v; wire_union. Qed.
#[export] Hint Resolve TransactionBody_survives : wire.

(** ** Nested bodies *)

(** [DirectoryAnchor] and [BlockValidatorAnchor] have a partition anchor. *)
Definition is_AnchorBody {SG TB} (b : TransactionBody SG TB) : bool :=
  match b with TransactionBody_DirectoryAnchor _ | TransactionBody_BlockValidatorAnchor _ => true | _ => false end.

#[export] Instance TransactionBody_union `{Union SG, Union TB} : Union (TransactionBody SG TB) := {|
  u_Marshal := TransactionBody_MarshalBinary; u_Unmarshal := UnmarshalTransactionBody;
  u_narrow := is_AnchorBody; u_Copy := TransactionBody_Copy; u_ok := TransactionBody_ok |}.

#[export] Instance TransactionBody_laws `{Union SG, Union TB} `{!UnionLaws SG, !UnionLaws TB} :
  UnionLaws (TransactionBody SG TB).
Proof. split; intros x; [apply TransactionBody_survives|apply TransactionBody_copied]. Qed.

Fixpoint TransactionBodyAt (SG : Type) (depth : nat) : Type :=
  match depth with O => Empty_set | S d => TransactionBody SG (TransactionBodyAt SG d) end.

#[export] Instance TransactionBodyAt_union `{Union SG} : forall depth, Union (TransactionBodyAt SG depth) :=
  fix at_ depth := match depth with O => empty_union | S d => @TransactionBody_union _ _ _ (at_ d) end.

#[export] Instance TransactionBodyAt_laws `{Union SG} `{!UnionLaws SG} depth :
  UnionLaws (TransactionBodyAt SG depth).
Proof. induction depth as [|d IH]; [split; intros []|]. exact TransactionBody_laws. Qed.
