(* ===== verification/TypesStatus.v ===== *)
(** * Generated types: results and status of transactions

    [TransactionStatus] with its results, signers and errors.  An error has a cause,
    which is an error: [ErrorAt d] are the chains of at most [d] errors. *)

From S2P Require Import Prelude Encoding Codec CodecProofs DataEntry Url Enums Wire TypesGeneral TypesAccounts TypesSignatures TypesTransactions.
Local Open Scope Z_scope.
Import Url TxID.

Record Error (ER : Type) := { Error_Message : string; Error_Code : Z; Error_Cause : option ER; Error_CallStack :
  list CallSite; Error_extraData : bytes }.
Arguments Build_Error {ER}.
Arguments Error_Message {ER}.
Arguments Error_Code {ER}.
Arguments Error_Cause {ER}.
Arguments Error_CallStack {ER}.
Arguments Error_extraData {ER}.
Definition new_Error {ER : Type} : Error ER := Build_Error "" 0 None [] [].

Definition Error_Copy `{Union ER} (v : Error ER) : Error ER := Build_Error (Error_Message v) (Error_Code v) (u_Copy
  <$> Error_Cause v) (CallSite_Copy <$> Error_CallStack v) [].

Definition Error_MarshalBinary `{Union ER} (v : Error ER) : res bytes :=
  finish (Error_extraData v) (
    NewWriter
    |> when (negb (String.eqb (Error_Message v) "")) (WriteString 1 (Error_Message v))
    |> when (negb (Error_Code v =? 0)) (WriteEnum 2 (Error_Code v))
    |> when (negb (is_nil (Error_Cause v))) (deref (Error_Cause v) (fun v => writeValue 3 (u_Marshal v)))
    |> when (negb (is_empty (Error_CallStack v))) (range (Error_CallStack v) (fun v => writeValue 4
       (CallSite_MarshalBinary v)))).

Definition Error_UnmarshalBinary `{Union ER} (v : Error ER) (data : bytes) : res (Error ER) :=
  let reader := NewReader data in
  let '(xMessage, reader) := ReadString 1 reader in
  let '(xCode, reader) := ReadEnum errors.Status_SetEnumValue 2 reader in
  let '(xCause, reader) := readValue 3 u_Unmarshal reader in
  let '(xCallStack, reader) := read_list (readValue 4 (CallSite_UnmarshalBinary new_CallSite)) reader in
  finish_read (Build_Error (default (Error_Message v) xMessage) (default (Error_Code v) xCode) (or_else xCause
    (Error_Cause v)) (Error_CallStack v ++ xCallStack)) reader.

Definition Error_ok `{Union ER} (v : Error ER) : Prop :=
  string_ok (Error_Message v) /\ enum_or_zero errors.Status_SetEnumValue (Error_Code v) /\ (forall x, Error_Cause v
  = Some x -> u_ok x) /\ (forall x, Error_Cause v = Some x -> fits (u_Marshal x)) /\ (forall x, x ∈ Error_CallStack
  v -> CallSite_ok x) /\ (forall x, x ∈ Error_CallStack v -> fits (CallSite_MarshalBinary x)) /\ Error_extraData v =
  [].

Lemma Error_survives `{Union ER} `{!UnionLaws ER} (v : Error ER) :
  Error_ok v -> survives Error_MarshalBinary (Error_UnmarshalBinary new_Error) v.
Proof. wire_roundtrip. Qed.
#[export] Hint Resolve Error_survives : wire.
Lemma Error_copied `{Union ER} `{!UnionLaws ER} (v : Error ER) : Error_ok v -> Error_Copy v = v.
Proof. wire_copy. Qed.
#[export] Hint Resolve Error_copied : copies.

#[export] Instance Error_union `{Union ER} : Union (Error ER) := {|
  u_Marshal := Error_MarshalBinary; u_Unmarshal := Error_UnmarshalBinary new_Error;
  u_narrow := fun _ => true; u_Copy := Error_Copy; u_ok := Error_ok |}.

#[export] Instance Error_laws `{Union ER} `{!UnionLaws ER} : UnionLaws (Error ER).
Proof. split; intros x; [apply Error_survives|apply Error_copied]. Qed.

Fixpoint ErrorAt (depth : nat) : Type :=
  match depth with O => Empty_set | S d => Error (ErrorAt d) end.

#[export] Instance ErrorAt_union : forall depth, Union (ErrorAt depth) :=
  fix at_ depth := match depth with O => empty_union | S d => @Error_union _ (at_ d) end.

#[export] Instance ErrorAt_laws depth : UnionLaws (ErrorAt depth).
Proof. induction depth as [|d IH]; [split; intros []|]. exact Error_laws. Qed.

Record AddCreditsResult := { AddCreditsResult_Amount : Z; AddCreditsResult_Credits : Z; AddCreditsResult_Oracle : Z;
  AddCreditsResult_extraData : bytes }.
Definition new_AddCreditsResult : AddCreditsResult := Build_AddCreditsResult 0 0 0 [].

Definition AddCreditsResult_Copy (v : AddCreditsResult) : AddCreditsResult := Build_AddCreditsResult
  (AddCreditsResult_Amount v) (AddCreditsResult_Credits v) (AddCreditsResult_Oracle v) [].

Definition AddCreditsResult_MarshalBinary (v : AddCreditsResult) : res bytes :=
  finish (AddCreditsResult_extraData v) (
    NewWriter
    |> WriteEnum 1 TransactionTypeAddCredits
    |> when (negb (AddCreditsResult_Amount v =? 0)) (WriteBigInt 2 (AddCreditsResult_Amount v))
    |> when (negb (AddCreditsResult_Credits v =? 0)) (WriteUint 3 (AddCreditsResult_Credits v))
    |> when (negb (AddCreditsResult_Oracle v =? 0)) (WriteUint 4 (AddCreditsResult_Oracle v))).

Definition AddCreditsResult_UnmarshalBinary (v : AddCreditsResult) (data : bytes) : res AddCreditsResult :=
  let reader := NewReader data in
  let '(vType, reader) := ReadEnum TransactionType_SetEnumValue 1 reader in
  if negb (TransactionTypeAddCredits =? default 0 vType) then errorf "field Type: not equal" else
  let '(xAmount, reader) := ReadBigInt 2 reader in
  let '(xCredits, reader) := ReadUint 3 reader in
  let '(xOracle, reader) := ReadUint 4 reader in
  finish_read (Build_AddCreditsResult (default (AddCreditsResult_Amount v) xAmount) (default
    (AddCreditsResult_Credits v) xCredits) (default (AddCreditsResult_Oracle v) xOracle)) reader.

Definition AddCreditsResult_ok (v : AddCreditsResult) : Prop :=
  big_ok (AddCreditsResult_Amount v) /\ is_u64 (AddCreditsResult_Credits v) /\ is_u64 (AddCreditsResult_Oracle v) /\
  AddCreditsResult_extraData v = [].

Lemma AddCreditsResult_survives (v : AddCreditsResult) :
  AddCreditsResult_ok v -> survives AddCreditsResult_MarshalBinary (AddCreditsResult_UnmarshalBinary
    new_AddCreditsResult) v.
Proof. wire_roundtrip. Qed.
#[export] Hint Resolve AddCreditsResult_survives : wire.
Lemma AddCreditsResult_copied (v : AddCreditsResult) : AddCreditsResult_ok v -> AddCreditsResult_Copy v = v.
Proof. wire_copy. Qed.
#[export] Hint Resolve AddCreditsResult_copied : copies.
Lemma AddCreditsResult_tagged (v : AddCreditsResult) : AddCreditsResult_ok v -> tagged
    AddCreditsResult_MarshalBinary TransactionTypeAddCredits v.
Proof. wire_tagged. Qed.
#[export] Hint Resolve AddCreditsResult_tagged : wire.

Record EmptyResult := { EmptyResult_extraData : bytes }.
Definition new_EmptyResult : EmptyResult := Build_EmptyResult [].

Definition EmptyResult_Copy (v : EmptyResult) : EmptyResult := Build_EmptyResult [].

Definition EmptyResult_MarshalBinary (v : EmptyResult) : res bytes :=
  finish (EmptyResult_extraData v) (
    NewWriter
    |> WriteEnum 1 TransactionTypeUnknown).

Definition EmptyResult_UnmarshalBinary (v : EmptyResult) (data : bytes) : res EmptyResult :=
  let reader := NewReader data in
  let '(vType, reader) := ReadEnum TransactionType_SetEnumValue 1 reader in
  if negb (TransactionTypeUnknown =? default 0 vType) then errorf "field Type: not equal" else
  finish_read Build_EmptyResult reader.

Definition EmptyResult_ok (v : EmptyResult) : Prop :=
  EmptyResult_extraData v = [].

Lemma EmptyResult_survives (v : EmptyResult) :
  EmptyResult_ok v -> survives EmptyResult_MarshalBinary (EmptyResult_UnmarshalBinary new_EmptyResult) v.
Proof. wire_roundtrip. Qed.
#[export] Hint Resolve EmptyResult_survives : wire.
Lemma EmptyResult_copied (v : EmptyResult) : EmptyResult_ok v -> EmptyResult_Copy v = v.
Proof. wire_copy. Qed.
#[export] Hint Resolve EmptyResult_copied : copies.
Lemma EmptyResult_tagged (v : EmptyResult) : EmptyResult_ok v -> tagged EmptyResult_MarshalBinary
    TransactionTypeUnknown v.
Proof. wire_tagged. Qed.
#[export] Hint Resolve EmptyResult_tagged : wire.

Record WriteDataResult := { WriteDataResult_EntryHash : bytes; WriteDataResult_AccountUrl : option URL;
  WriteDataResult_AccountID : bytes; WriteDataResult_extraData : bytes }.
Definition new_WriteDataResult : WriteDataResult := Build_WriteDataResult hash_zero None [] [].

Definition WriteDataResult_Copy (v : WriteDataResult) : WriteDataResult := Build_WriteDataResult
  (WriteDataResult_EntryHash v) (WriteDataResult_AccountUrl v) (WriteDataResult_AccountID v) [].

Definition WriteDataResult_MarshalBinary (v : WriteDataResult) : res bytes :=
  finish (WriteDataResult_extraData v) (
    NewWriter
    |> WriteEnum 1 TransactionTypeWriteData
    |> when (negb (bytes_eqb (WriteDataResult_EntryHash v) hash_zero)) (WriteHash 2 (WriteDataResult_EntryHash v))
    |> when (negb (is_nil (WriteDataResult_AccountUrl v))) (writeUrl 3 (WriteDataResult_AccountUrl v))
    |> when (negb (is_empty (WriteDataResult_AccountID v))) (WriteBytes 4 (WriteDataResult_AccountID v))).

Definition WriteDataResult_UnmarshalBinary (v : WriteDataResult) (data : bytes) : res WriteDataResult :=
  let reader := NewReader data in
  let '(vType, reader) := ReadEnum TransactionType_SetEnumValue 1 reader in
  if negb (TransactionTypeWriteData =? default 0 vType) then errorf "field Type: not equal" else
  let '(xEntryHash, reader) := ReadHash 2 reader in
  let '(xAccountUrl, reader) := readUrl 3 reader in
  let '(xAccountID, reader) := ReadBytes 4 reader in
  finish_read (Build_WriteDataResult (default (WriteDataResult_EntryHash v) xEntryHash) (default
    (WriteDataResult_AccountUrl v) xAccountUrl) (default (WriteDataResult_AccountID v) xAccountID)) reader.

Definition WriteDataResult_ok (v : WriteDataResult) : Prop :=
  hash_ok (WriteDataResult_EntryHash v) /\ url_ok (WriteDataResult_AccountUrl v) /\ bytes_ok
  (WriteDataResult_AccountID v) /\ WriteDataResult_extraData v = [].

Lemma WriteDataResult_survives (v : WriteDataResult) :
  WriteDataResult_ok v -> survives WriteDataResult_MarshalBinary (WriteDataResult_UnmarshalBinary
    new_WriteDataResult) v.
Proof. wire_roundtrip. Qed.
#[export] Hint Resolve WriteDataResult_survives : wire.
Lemma WriteDataResult_copied (v : WriteDataResult) : WriteDataResult_ok v -> WriteDataResult_Copy v = v.
Proof. wire_copy. Qed.
#[export] Hint Resolve WriteDataResult_copied : copies.
Lemma WriteDataResult_tagged (v : WriteDataResult) : WriteDataResult_ok v -> tagged WriteDataResult_MarshalBinary
    TransactionTypeWriteData v.
Proof. wire_tagged. Qed.
#[export] Hint Resolve WriteDataResult_tagged : wire.

Inductive TransactionResult :=
  | TransactionResult_WriteDataResult (v : WriteDataResult)
  | TransactionResult_AddCreditsResult (v : AddCreditsResult)
  | TransactionResult_EmptyResult (v : EmptyResult).

Definition TransactionResult_MarshalBinary (v : TransactionResult) : res bytes :=
  match v with
  | TransactionResult_WriteDataResult v => WriteDataResult_MarshalBinary v
  | TransactionResult_AddCreditsResult v => AddCreditsResult_MarshalBinary v
  | TransactionResult_EmptyResult v => EmptyResult_MarshalBinary v
  end.

Definition UnmarshalTransactionResult (data : bytes) : res TransactionResult :=
  let! typ := UnmarshalEnumType TransactionType_SetEnumValue data in
  if typ =? TransactionTypeWriteData then let! v := WriteDataResult_UnmarshalBinary new_WriteDataResult data in Ok (TransactionResult_WriteDataResult v) else
  if typ =? TransactionTypeAddCredits then let! v := AddCreditsResult_UnmarshalBinary new_AddCreditsResult data in Ok (TransactionResult_AddCreditsResult v) else
  let! v := EmptyResult_UnmarshalBinary new_EmptyResult data in Ok (TransactionResult_EmptyResult v).

Definition TransactionResult_ok (v : TransactionResult) : Prop :=
  match v with
  | TransactionResult_WriteDataResult v => WriteDataResult_ok v
  | TransactionResult_AddCreditsResult v => AddCreditsResult_ok v
  | TransactionResult_EmptyResult v => EmptyResult_ok v
  end.

Definition TransactionResult_Copy (v : TransactionResult) : TransactionResult :=
  match v with
  | TransactionResult_WriteDataResult v => TransactionResult_WriteDataResult (WriteDataResult_Copy v)
  | TransactionResult_AddCreditsResult v => TransactionResult_AddCreditsResult (AddCreditsResult_Copy v)
  | TransactionResult_EmptyResult v => TransactionResult_EmptyResult (EmptyResult_Copy v)
  end.

Lemma TransactionResult_copied (v : TransactionResult) : TransactionResult_ok v -> TransactionResult_Copy v = v.
Proof. destruct v; cbn; intros; f_equal; eauto 2 with copies. Qed.
#[export] Hint Resolve TransactionResult_copied : copies.

Lemma TransactionResult_survives (v : TransactionResult) : TransactionResult_ok v -> survives
    TransactionResult_MarshalBinary UnmarshalTransactionResult v.
Proof. destruct v; wire_union. Qed.
#[export] Hint Resolve TransactionResult_survives : wire.

Record TransactionStatus (TB : Type) (ER : Type) := { TransactionStatus_TxID : option TxID; TransactionStatus_Code :
  Z; TransactionStatus_Error : option ER; TransactionStatus_Result : option TransactionResult;
  TransactionStatus_Received : Z; TransactionStatus_Initiator : option URL; TransactionStatus_Signers : list
  (Account TB); TransactionStatus_AnchorSigners : list bytes; TransactionStatus_SourceNetwork : option URL;
  TransactionStatus_DestinationNetwork : option URL; TransactionStatus_SequenceNumber : Z;
  TransactionStatus_GotDirectoryReceipt : bool; TransactionStatus_Proof : option Receipt;
  TransactionStatus_extraData : bytes }.
Arguments Build_TransactionStatus {TB} {ER}.
Arguments TransactionStatus_TxID {TB} {ER}.
Arguments TransactionStatus_Code {TB} {ER}.
Arguments TransactionStatus_Error {TB} {ER}.
Arguments TransactionStatus_Result {TB} {ER}.
Arguments TransactionStatus_Received {TB} {ER}.
Arguments TransactionStatus_Initiator {TB} {ER}.
Arguments TransactionStatus_Signers {TB} {ER}.
Arguments TransactionStatus_AnchorSigners {TB} {ER}.
Arguments TransactionStatus_SourceNetwork {TB} {ER}.
Arguments TransactionStatus_DestinationNetwork {TB} {ER}.
Arguments TransactionStatus_SequenceNumber {TB} {ER}.
Arguments TransactionStatus_GotDirectoryReceipt {TB} {ER}.
Arguments TransactionStatus_Proof {TB} {ER}.
Arguments TransactionStatus_extraData {TB} {ER}.
Definition new_TransactionStatus {TB : Type} {ER : Type} : TransactionStatus TB ER := Build_TransactionStatus None 0
  None None 0 None [] [] None None 0 false None [].

Definition TransactionStatus_Copy `{Union TB, Union ER} (v : TransactionStatus TB ER) : TransactionStatus TB ER :=
  Build_TransactionStatus (TransactionStatus_TxID v) (TransactionStatus_Code v) (u_Copy <$> TransactionStatus_Error
  v) (TransactionResult_Copy <$> TransactionStatus_Result v) (TransactionStatus_Received v)
  (TransactionStatus_Initiator v) (Account_Copy <$> TransactionStatus_Signers v) (TransactionStatus_AnchorSigners v)
  (TransactionStatus_SourceNetwork v) (TransactionStatus_DestinationNetwork v) (TransactionStatus_SequenceNumber v)
  (TransactionStatus_GotDirectoryReceipt v) (Receipt_Copy <$> TransactionStatus_Proof v) [].

Definition TransactionStatus_MarshalBinary `{Union TB, Union ER} (v : TransactionStatus TB ER) : res bytes :=
  finish (TransactionStatus_extraData v) (
    NewWriter
    |> when (negb (is_nil (TransactionStatus_TxID v))) (writeTxid 1 (TransactionStatus_TxID v))
    |> when (negb (TransactionStatus_Code v =? 0)) (WriteEnum 2 (TransactionStatus_Code v))
    |> when (negb (is_nil (TransactionStatus_Error v))) (deref (TransactionStatus_Error v) (fun v => writeValue 3
       (u_Marshal v)))
    |> when (negb (is_nil (TransactionStatus_Result v))) (deref (TransactionStatus_Result v) (fun v => writeValue 4
       (TransactionResult_MarshalBinary v)))
    |> when (negb (TransactionStatus_Received v =? 0)) (WriteUint 5 (TransactionStatus_Received v))
    |> when (negb (is_nil (TransactionStatus_Initiator v))) (writeUrl 6 (TransactionStatus_Initiator v))
    |> when (negb (is_empty (TransactionStatus_Signers v))) (range (TransactionStatus_Signers v) (fun v =>
       writeValue 7 (Account_MarshalBinary v)))
    |> when (negb (is_empty (TransactionStatus_AnchorSigners v))) (range (TransactionStatus_AnchorSigners v) (fun v
       => WriteBytes 8 v))
    |> when (negb (is_nil (TransactionStatus_SourceNetwork v))) (writeUrl 9 (TransactionStatus_SourceNetwork v))
    |> when (negb (is_nil (TransactionStatus_DestinationNetwork v))) (writeUrl 10
       (TransactionStatus_DestinationNetwork v))
    |> when (negb (TransactionStatus_SequenceNumber v =? 0)) (WriteUint 11 (TransactionStatus_SequenceNumber v))
    |> when (negb (negb (TransactionStatus_GotDirectoryReceipt v))) (WriteBool 12
       (TransactionStatus_GotDirectoryReceipt v))
    |> when (negb (is_nil (TransactionStatus_Proof v))) (deref (TransactionStatus_Proof v) (fun v => writeValue 13
       (Receipt_MarshalBinary v)))).

Definition TransactionStatus_UnmarshalBinary `{Union TB, Union ER} (v : TransactionStatus TB ER) (data : bytes) :
    res (TransactionStatus TB ER) :=
  let reader := NewReader data in
  let '(xTxID, reader) := readTxid 1 reader in
  let '(xCode, reader) := ReadEnum errors.Status_SetEnumValue 2 reader in
  let '(xError, reader) := readValue 3 u_Unmarshal reader in
  let '(xResult, reader) := readValue 4 UnmarshalTransactionResult reader in
  let '(xReceived, reader) := ReadUint 5 reader in
  let '(xInitiator, reader) := readUrl 6 reader in
  let '(xSigners, reader) := read_list (readValue 7 UnmarshalSigner) reader in
  let '(xAnchorSigners, reader) := read_list (ReadBytes 8) reader in
  let '(xSourceNetwork, reader) := readUrl 9 reader in
  let '(xDestinationNetwork, reader) := readUrl 10 reader in
  let '(xSequenceNumber, reader) := ReadUint 11 reader in
  let '(xGotDirectoryReceipt, reader) := ReadBool 12 reader in
  let '(xProof, reader) := readValue 13 (Receipt_UnmarshalBinary new_Receipt) reader in
  finish_read (Build_TransactionStatus (default (TransactionStatus_TxID v) xTxID) (default (TransactionStatus_Code
    v) xCode) (or_else xError (TransactionStatus_Error v)) (or_else xResult (TransactionStatus_Result v)) (default
    (TransactionStatus_Received v) xReceived) (default (TransactionStatus_Initiator v) xInitiator)
    (TransactionStatus_Signers v ++ xSigners) (TransactionStatus_AnchorSigners v ++ xAnchorSigners) (default
    (TransactionStatus_SourceNetwork v) xSourceNetwork) (default (TransactionStatus_DestinationNetwork v)
    xDestinationNetwork) (default (TransactionStatus_SequenceNumber v) xSequenceNumber) (default
    (TransactionStatus_GotDirectoryReceipt v) xGotDirectoryReceipt) (or_else xProof (TransactionStatus_Proof v)))
    reader.

Definition TransactionStatus_ok `{Union TB, Union ER} (v : TransactionStatus TB ER) : Prop :=
  txid_ok (TransactionStatus_TxID v) /\ enum_or_zero errors.Status_SetEnumValue (TransactionStatus_Code v) /\
  (forall x, TransactionStatus_Error v = Some x -> u_ok x) /\ (forall x, TransactionStatus_Error v = Some x -> fits
  (u_Marshal x)) /\ (forall x, TransactionStatus_Result v = Some x -> TransactionResult_ok x) /\ (forall x,
  TransactionStatus_Result v = Some x -> fits (TransactionResult_MarshalBinary x)) /\ is_u64
  (TransactionStatus_Received v) /\ url_ok (TransactionStatus_Initiator v) /\ (forall x, x ∈
  TransactionStatus_Signers v -> Account_ok x) /\ (forall x, x ∈ TransactionStatus_Signers v -> is_Signer x = true)
  /\ (forall x, x ∈ TransactionStatus_Signers v -> fits (Account_MarshalBinary x)) /\ (forall x, x ∈
  TransactionStatus_AnchorSigners v -> bytes_ok x) /\ url_ok (TransactionStatus_SourceNetwork v) /\ url_ok
  (TransactionStatus_DestinationNetwork v) /\ is_u64 (TransactionStatus_SequenceNumber v) /\ (forall x,
  TransactionStatus_Proof v = Some x -> Receipt_ok x) /\ (forall x, TransactionStatus_Proof v = Some x -> fits
  (Receipt_MarshalBinary x)) /\ TransactionStatus_extraData v = [].

Lemma TransactionStatus_survives `{Union TB, Union ER} `{!UnionLaws TB, !UnionLaws ER} (v : TransactionStatus TB ER)
    :
  TransactionStatus_ok v -> survives TransactionStatus_MarshalBinary (TransactionStatus_UnmarshalBinary
    new_TransactionStatus) v.
Proof. wire_roundtrip. Qed.
#[export] Hint Resolve TransactionStatus_survives : wire.
Lemma TransactionStatus_copied `{Union TB, Union ER} `{!UnionLaws TB, !UnionLaws ER} (v : TransactionStatus TB ER) :
    TransactionStatus_ok v -> TransactionStatus_Copy v = v.
Proof. wire_copy. Qed.
#[export] Hint Resolve TransactionStatus_copied : copies.

Record TransactionResultSet (TB : Type) (ER : Type) := { TransactionResultSet_Results : list (TransactionStatus TB
  ER); TransactionResultSet_extraData : bytes }.
Arguments Build_TransactionResultSet {TB} {ER}.
Arguments TransactionResultSet_Results {TB} {ER}.
Arguments TransactionResultSet_extraData {TB} {ER}.
Definition new_TransactionResultSet {TB : Type} {ER : Type} : TransactionResultSet TB ER :=
  Build_TransactionResultSet [] [].

Definition TransactionResultSet_Copy `{Union TB, Union ER} (v : TransactionResultSet TB ER) : TransactionResultSet
  TB ER := Build_TransactionResultSet (TransactionStatus_Copy <$> TransactionResultSet_Results v) [].

Definition TransactionResultSet_MarshalBinary `{Union TB, Union ER} (v : TransactionResultSet TB ER) : res bytes :=
  finish (TransactionResultSet_extraData v) (
    NewWriter
    |> when (negb (is_empty (TransactionResultSet_Results v))) (range (TransactionResultSet_Results v) (fun v =>
       writeValue 1 (TransactionStatus_MarshalBinary v)))).

Definition TransactionResultSet_UnmarshalBinary `{Union TB, Union ER} (v : TransactionResultSet TB ER) (data :
    bytes) : res (TransactionResultSet TB ER) :=
  let reader := NewReader data in
  let '(xResults, reader) := read_list (readValue 1 (TransactionStatus_UnmarshalBinary new_TransactionStatus))
    reader in
  finish_read (Build_TransactionResultSet (TransactionResultSet_Results v ++ xResults)) reader.

Definition TransactionResultSet_ok `{Union TB, Union ER} (v : TransactionResultSet TB ER) : Prop :=
  (forall x, x ∈ TransactionResultSet_Results v -> TransactionStatus_ok x) /\ (forall x, x ∈
  TransactionResultSet_Results v -> fits (TransactionStatus_MarshalBinary x)) /\ TransactionResultSet_extraData v =
  [].

Lemma TransactionResultSet_survives `{Union TB, Union ER} `{!UnionLaws TB, !UnionLaws ER} (v : TransactionResultSet
    TB ER) :
  TransactionResultSet_ok v -> survives TransactionResultSet_MarshalBinary (TransactionResultSet_UnmarshalBinary
    new_TransactionResultSet) v.
Proof. wire_roundtrip. Qed.
#[export] Hint Resolve TransactionResultSet_survives : wire.
Lemma TransactionResultSet_copied `{Union TB, Union ER} `{!UnionLaws TB, !UnionLaws ER} (v : TransactionResultSet TB
    ER) : TransactionResultSet_ok v -> TransactionResultSet_Copy v = v.
Proof. wire_copy. Qed.
#[export] Hint Resolve TransactionResultSet_copied : copies.
