(* ===== verification/TypesDatabase.v ===== *)
(** * Generated types: records of the database and of snapshots

    [internal/database/types_gen.go] (entries of signature sets, stored signatures and
    transactions) and [internal/database/snapshot/types_gen.go] (accounts, chains,
    transactions and signatures as they are written to a snapshot). *)

From S2P Require Import Prelude Encoding Codec CodecProofs DataEntry Url Enums Wire TypesGeneral.
From S2P Require Import TypesAccounts TypesSignatures TypesTransactions TypesStatus.
Local Open Scope Z_scope.
Import Url TxID.

Record BlockStateSynthTxnEntry := { BlockStateSynthTxnEntry_Account : option URL;
  BlockStateSynthTxnEntry_Transaction : bytes; BlockStateSynthTxnEntry_ChainEntry : Z;
  BlockStateSynthTxnEntry_extraData : bytes }.
Definition new_BlockStateSynthTxnEntry : BlockStateSynthTxnEntry := Build_BlockStateSynthTxnEntry None [] 0 [].

Definition BlockStateSynthTxnEntry_Copy (v : BlockStateSynthTxnEntry) : BlockStateSynthTxnEntry :=
  Build_BlockStateSynthTxnEntry (BlockStateSynthTxnEntry_Account v) (BlockStateSynthTxnEntry_Transaction v)
  (BlockStateSynthTxnEntry_ChainEntry v) [].

Definition BlockStateSynthTxnEntry_MarshalBinary (v : BlockStateSynthTxnEntry) : res bytes :=
  finish (BlockStateSynthTxnEntry_extraData v) (
    NewWriter
    |> when (negb (is_nil (BlockStateSynthTxnEntry_Account v))) (writeUrl 1 (BlockStateSynthTxnEntry_Account v))
    |> when (negb (is_empty (BlockStateSynthTxnEntry_Transaction v))) (WriteBytes 2
       (BlockStateSynthTxnEntry_Transaction v))
    |> when (negb (BlockStateSynthTxnEntry_ChainEntry v =? 0)) (WriteUint 3 (BlockStateSynthTxnEntry_ChainEntry v))).

Definition BlockStateSynthTxnEntry_UnmarshalBinary (v : BlockStateSynthTxnEntry) (data : bytes) : res
    BlockStateSynthTxnEntry :=
  let reader := NewReader data in
  let '(xAccount, reader) := readUrl 1 reader in
  let '(xTransaction, reader) := ReadBytes 2 reader in
  let '(xChainEntry, reader) := ReadUint 3 reader in
  finish_read (Build_BlockStateSynthTxnEntry (default (BlockStateSynthTxnEntry_Account v) xAccount) (default
    (BlockStateSynthTxnEntry_Transaction v) xTransaction) (default (BlockStateSynthTxnEntry_ChainEntry v)
    xChainEntry)) reader.

Definition BlockStateSynthTxnEntry_ok (v : BlockStateSynthTxnEntry) : Prop :=
  url_ok (BlockStateSynthTxnEntry_Account v) /\ bytes_ok (BlockStateSynthTxnEntry_Transaction v) /\ is_u64
  (BlockStateSynthTxnEntry_ChainEntry v) /\ BlockStateSynthTxnEntry_extraData v = [].

Lemma BlockStateSynthTxnEntry_survives (v : BlockStateSynthTxnEntry) :
  BlockStateSynthTxnEntry_ok v -> survives BlockStateSynthTxnEntry_MarshalBinary
    (BlockStateSynthTxnEntry_UnmarshalBinary new_BlockStateSynthTxnEntry) v.
Proof. wire_roundtrip. Qed.
#[export] Hint Resolve BlockStateSynthTxnEntry_survives : wire.
Lemma BlockStateSynthTxnEntry_copied (v : BlockStateSynthTxnEntry) : BlockStateSynthTxnEntry_ok v ->
    BlockStateSynthTxnEntry_Copy v = v.
Proof. wire_copy. Qed.
#[export] Hint Resolve BlockStateSynthTxnEntry_copied : copies.

Record SigOrTxn (SG : Type) (TB : Type) := { SigOrTxn_Transaction : option (Transaction TB); SigOrTxn_Signature :
  option SG; SigOrTxn_Txid : option TxID; SigOrTxn_extraData : bytes }.
Arguments Build_SigOrTxn {SG} {TB}.
Arguments SigOrTxn_Transaction {SG} {TB}.
Arguments SigOrTxn_Signature {SG} {TB}.
Arguments SigOrTxn_Txid {SG} {TB}.
Arguments SigOrTxn_extraData {SG} {TB}.
Definition new_SigOrTxn {SG : Type} {TB : Type} : SigOrTxn SG TB := Build_SigOrTxn None None None [].

Definition SigOrTxn_Copy `{Union SG, Union TB} (v : SigOrTxn SG TB) : SigOrTxn SG TB := Build_SigOrTxn
  (Transaction_Copy <$> SigOrTxn_Transaction v) (u_Copy <$> SigOrTxn_Signature v) (SigOrTxn_Txid v) [].

Definition SigOrTxn_MarshalBinary `{Union SG, Union TB} (v : SigOrTxn SG TB) : res bytes :=
  finish (SigOrTxn_extraData v) (
    NewWriter
    |> when (negb (is_nil (SigOrTxn_Transaction v))) (deref (SigOrTxn_Transaction v) (fun v => writeValue 1
       (Transaction_MarshalBinary v)))
    |> when (negb (is_nil (SigOrTxn_Signature v))) (deref (SigOrTxn_Signature v) (fun v => writeValue 2 (u_Marshal
       v)))
    |> when (negb (is_nil (SigOrTxn_Txid v))) (writeTxid 3 (SigOrTxn_Txid v))).

Definition SigOrTxn_UnmarshalBinary `{Union SG, Union TB} (v : SigOrTxn SG TB) (data : bytes) : res (SigOrTxn SG TB)
    :=
  let reader := NewReader data in
  let '(xTransaction, reader) := readValue 1 (Transaction_UnmarshalBinary new_Transaction) reader in
  let '(xSignature, reader) := readValue 2 u_Unmarshal reader in
  let '(xTxid, reader) := readTxid 3 reader in
  finish_read (Build_SigOrTxn (or_else xTransaction (SigOrTxn_Transaction v)) (or_else xSignature
    (SigOrTxn_Signature v)) (default (SigOrTxn_Txid v) xTxid)) reader.

Definition SigOrTxn_ok `{Union SG, Union TB} (v : SigOrTxn SG TB) : Prop :=
  (forall x, SigOrTxn_Transaction v = Some x -> Transaction_ok x) /\ (forall x, SigOrTxn_Transaction v = Some x ->
  fits (Transaction_MarshalBinary x)) /\ (forall x, SigOrTxn_Signature v = Some x -> u_ok x) /\ (forall x,
  SigOrTxn_Signature v = Some x -> fits (u_Marshal x)) /\ txid_ok (SigOrTxn_Txid v) /\ SigOrTxn_extraData v = [].

Lemma SigOrTxn_survives `{Union SG, Union TB} `{!UnionLaws SG, !UnionLaws TB} (v : SigOrTxn SG TB) :
  SigOrTxn_ok v -> survives SigOrTxn_MarshalBinary (SigOrTxn_UnmarshalBinary new_SigOrTxn) v.
Proof. wire_roundtrip. Qed.
#[export] Hint Resolve SigOrTxn_survives : wire.
Lemma SigOrTxn_copied `{Union SG, Union TB} `{!UnionLaws SG, !UnionLaws TB} (v : SigOrTxn SG TB) : SigOrTxn_ok v ->
    SigOrTxn_Copy v = v.
Proof. wire_copy. Qed.
#[export] Hint Resolve SigOrTxn_copied : copies.

Record SigSetEntry := { SigSetEntry_Type : Z; SigSetEntry_KeyEntryIndex : Z; SigSetEntry_SignatureHash : bytes;
  SigSetEntry_ValidatorKeyHash : option bytes; SigSetEntry_extraData : bytes }.
Definition new_SigSetEntry : SigSetEntry := Build_SigSetEntry 0 0 hash_zero None [].

Definition SigSetEntry_Copy (v : SigSetEntry) : SigSetEntry := Build_SigSetEntry (SigSetEntry_Type v)
  (SigSetEntry_KeyEntryIndex v) (SigSetEntry_SignatureHash v) (SigSetEntry_ValidatorKeyHash v) [].

Definition SigSetEntry_MarshalBinary (v : SigSetEntry) : res bytes :=
  finish (SigSetEntry_extraData v) (
    NewWriter
    |> when (negb (SigSetEntry_Type v =? 0)) (WriteEnum 1 (SigSetEntry_Type v))
    |> when (negb (SigSetEntry_KeyEntryIndex v =? 0)) (WriteUint 2 (SigSetEntry_KeyEntryIndex v))
    |> when (negb (bytes_eqb (SigSetEntry_SignatureHash v) hash_zero)) (WriteHash 3 (SigSetEntry_SignatureHash v))
    |> when (negb (is_nil (SigSetEntry_ValidatorKeyHash v))) (deref (SigSetEntry_ValidatorKeyHash v) (fun v =>
       WriteHash 4 v))).

Definition SigSetEntry_UnmarshalBinary (v : SigSetEntry) (data : bytes) : res SigSetEntry :=
  let reader := NewReader data in
  let '(xType, reader) := ReadEnum SignatureType_SetEnumValue 1 reader in
  let '(xKeyEntryIndex, reader) := ReadUint 2 reader in
  let '(xSignatureHash, reader) := ReadHash 3 reader in
  let '(xValidatorKeyHash, reader) := ReadHash 4 reader in
  finish_read (Build_SigSetEntry (default (SigSetEntry_Type v) xType) (default (SigSetEntry_KeyEntryIndex v)
    xKeyEntryIndex) (default (SigSetEntry_SignatureHash v) xSignatureHash) (or_else xValidatorKeyHash
    (SigSetEntry_ValidatorKeyHash v))) reader.

Definition SigSetEntry_ok (v : SigSetEntry) : Prop :=
  enum_or_zero SignatureType_SetEnumValue (SigSetEntry_Type v) /\ is_u64 (SigSetEntry_KeyEntryIndex v) /\ hash_ok
  (SigSetEntry_SignatureHash v) /\ (forall x, SigSetEntry_ValidatorKeyHash v = Some x -> hash_ok x) /\
  SigSetEntry_extraData v = [].

Lemma SigSetEntry_survives (v : SigSetEntry) :
  SigSetEntry_ok v -> survives SigSetEntry_MarshalBinary (SigSetEntry_UnmarshalBinary new_SigSetEntry) v.
Proof. wire_roundtrip. Qed.
#[export] Hint Resolve SigSetEntry_survives : wire.
Lemma SigSetEntry_copied (v : SigSetEntry) : SigSetEntry_ok v -> SigSetEntry_Copy v = v.
Proof. wire_copy. Qed.
#[export] Hint Resolve SigSetEntry_copied : copies.

Record TransactionChainEntry := { TransactionChainEntry_Account : option URL; TransactionChainEntry_Chain : string;
  TransactionChainEntry_ChainIndex : Z; TransactionChainEntry_AnchorIndex : Z; TransactionChainEntry_extraData :
  bytes }.
Definition new_TransactionChainEntry : TransactionChainEntry := Build_TransactionChainEntry None "" 0 0 [].

Definition TransactionChainEntry_Copy (v : TransactionChainEntry) : TransactionChainEntry :=
  Build_TransactionChainEntry (TransactionChainEntry_Account v) (TransactionChainEntry_Chain v)
  (TransactionChainEntry_ChainIndex v) (TransactionChainEntry_AnchorIndex v) [].

Definition TransactionChainEntry_MarshalBinary (v : TransactionChainEntry) : res bytes :=
  finish (TransactionChainEntry_extraData v) (
    NewWriter
    |> when (negb (is_nil (TransactionChainEntry_Account v))) (writeUrl 1 (TransactionChainEntry_Account v))
    |> when (negb (String.eqb (TransactionChainEntry_Chain v) "")) (WriteString 2 (TransactionChainEntry_Chain v))
    |> when (negb (TransactionChainEntry_ChainIndex v =? 0)) (WriteUint 3 (TransactionChainEntry_ChainIndex v))
    |> when (negb (TransactionChainEntry_AnchorIndex v =? 0)) (WriteUint 4 (TransactionChainEntry_AnchorIndex v))).

Definition TransactionChainEntry_UnmarshalBinary (v : TransactionChainEntry) (data : bytes) : res
    TransactionChainEntry :=
  let reader := NewReader data in
  let '(xAccount, reader) := readUrl 1 reader in
  let '(xChain, reader) := ReadString 2 reader in
  let '(xChainIndex, reader) := ReadUint 3 reader in
  let '(xAnchorIndex, reader) := ReadUint 4 reader in
  finish_read (Build_TransactionChainEntry (default (TransactionChainEntry_Account v) xAccount) (default
    (TransactionChainEntry_Chain v) xChain) (default (TransactionChainEntry_ChainIndex v) xChainIndex) (default
    (TransactionChainEntry_AnchorIndex v) xAnchorIndex)) reader.

Definition TransactionChainEntry_ok (v : TransactionChainEntry) : Prop :=
  url_ok (TransactionChainEntry_Account v) /\ string_ok (TransactionChainEntry_Chain v) /\ is_u64
  (TransactionChainEntry_ChainIndex v) /\ is_u64 (TransactionChainEntry_AnchorIndex v) /\
  TransactionChainEntry_extraData v = [].

Lemma TransactionChainEntry_survives (v : TransactionChainEntry) :
  TransactionChainEntry_ok v -> survives TransactionChainEntry_MarshalBinary (TransactionChainEntry_UnmarshalBinary
    new_TransactionChainEntry) v.
Proof. wire_roundtrip. Qed.
#[export] Hint Resolve TransactionChainEntry_survives : wire.
Lemma TransactionChainEntry_copied (v : TransactionChainEntry) : TransactionChainEntry_ok v ->
    TransactionChainEntry_Copy v = v.
Proof. wire_copy. Qed.
#[export] Hint Resolve TransactionChainEntry_copied : copies.

Record sigSetData := { sigSetData_Version : Z; sigSetData_Entries : list SigSetEntry; sigSetData_extraData : bytes
  }.
Definition new_sigSetData : sigSetData := Build_sigSetData 0 [] [].

Definition sigSetData_Copy (v : sigSetData) : sigSetData := Build_sigSetData (sigSetData_Version v)
  (SigSetEntry_Copy <$> sigSetData_Entries v) [].

Definition sigSetData_MarshalBinary (v : sigSetData) : res bytes :=
  finish (sigSetData_extraData v) (
    NewWriter
    |> when (negb (sigSetData_Version v =? 0)) (WriteUint 1 (sigSetData_Version v))
    |> when (negb (is_empty (sigSetData_Entries v))) (range (sigSetData_Entries v) (fun v => writeValue 2
       (SigSetEntry_MarshalBinary v)))).

Definition sigSetData_UnmarshalBinary (v : sigSetData) (data : bytes) : res sigSetData :=
  let reader := NewReader data in
  let '(xVersion, reader) := ReadUint 1 reader in
  let '(xEntries, reader) := read_list (readValue 2 (SigSetEntry_UnmarshalBinary new_SigSetEntry)) reader in
  finish_read (Build_sigSetData (default (sigSetData_Version v) xVersion) (sigSetData_Entries v ++ xEntries))
    reader.

Definition sigSetData_ok (v : sigSetData) : Prop :=
  is_u64 (sigSetData_Version v) /\ (forall x, x ∈ sigSetData_Entries v -> SigSetEntry_ok x) /\ (forall x, x ∈
  sigSetData_Entries v -> fits (SigSetEntry_MarshalBinary x)) /\ sigSetData_extraData v = [].

Lemma sigSetData_survives (v : sigSetData) :
  sigSetData_ok v -> survives sigSetData_MarshalBinary (sigSetData_UnmarshalBinary new_sigSetData) v.
Proof. wire_roundtrip. Qed.
#[export] Hint Resolve sigSetData_survives : wire.
Lemma sigSetData_copied (v : sigSetData) : sigSetData_ok v -> sigSetData_Copy v = v.
Proof. wire_copy. Qed.
#[export] Hint Resolve sigSetData_copied : copies.

Record Chain := { Chain_Name : string; Chain_Type : Z; Chain_Count : Z; Chain_Pending : list bytes; Chain_Entries :
  list bytes; Chain_extraData : bytes }.
Definition new_Chain : Chain := Build_Chain "" 0 0 [] [] [].

Definition Chain_Copy (v : Chain) : Chain := Build_Chain (Chain_Name v) (Chain_Type v) (Chain_Count v)
  (Chain_Pending v) (Chain_Entries v) [].

Definition Chain_MarshalBinary (v : Chain) : res bytes :=
  finish (Chain_extraData v) (
    NewWriter
    |> when (negb (String.eqb (Chain_Name v) "")) (WriteString 1 (Chain_Name v))
    |> when (negb (Chain_Type v =? 0)) (WriteEnum 2 (Chain_Type v))
    |> when (negb (Chain_Count v =? 0)) (WriteUint 3 (Chain_Count v))
    |> when (negb (is_empty (Chain_Pending v))) (range (Chain_Pending v) (fun v => WriteBytes 4 v))
    |> when (negb (is_empty (Chain_Entries v))) (range (Chain_Entries v) (fun v => WriteBytes 5 v))).

Definition Chain_UnmarshalBinary (v : Chain) (data : bytes) : res Chain :=
  let reader := NewReader data in
  let '(xName, reader) := ReadString 1 reader in
  let '(xType, reader) := ReadEnum managed.ChainType_SetEnumValue 2 reader in
  let '(xCount, reader) := ReadUint 3 reader in
  let '(xPending, reader) := read_list (ReadBytes 4) reader in
  let '(xEntries, reader) := read_list (ReadBytes 5) reader in
  finish_read (Build_Chain (default (Chain_Name v) xName) (default (Chain_Type v) xType) (default (Chain_Count v)
    xCount) (Chain_Pending v ++ xPending) (Chain_Entries v ++ xEntries)) reader.

Definition Chain_ok (v : Chain) : Prop :=
  string_ok (Chain_Name v) /\ enum_or_zero managed.ChainType_SetEnumValue (Chain_Type v) /\ is_u64 (Chain_Count v)
  /\ (forall x, x ∈ Chain_Pending v -> bytes_ok x) /\ (forall x, x ∈ Chain_Entries v -> bytes_ok x) /\
  Chain_extraData v = [].

Lemma Chain_survives (v : Chain) :
  Chain_ok v -> survives Chain_MarshalBinary (Chain_UnmarshalBinary new_Chain) v.
Proof. wire_roundtrip. Qed.
#[export] Hint Resolve Chain_survives : wire.
Lemma Chain_copied (v : Chain) : Chain_ok v -> Chain_Copy v = v.
Proof. wire_copy. Qed.
#[export] Hint Resolve Chain_copied : copies.

Record Header := { Header_Version : Z; Header_Height : Z; Header_RootHash : bytes; Header_extraData : bytes }.
Definition new_Header : Header := Build_Header 0 0 hash_zero [].

Definition Header_Copy (v : Header) : Header := Build_Header (Header_Version v) (Header_Height v) (Header_RootHash
  v) [].

Definition Header_MarshalBinary (v : Header) : res bytes :=
  finish (Header_extraData v) (
    NewWriter
    |> when (negb (Header_Version v =? 0)) (WriteUint 1 (Header_Version v))
    |> when (negb (Header_Height v =? 0)) (WriteUint 2 (Header_Height v))
    |> when (negb (bytes_eqb (Header_RootHash v) hash_zero)) (WriteHash 3 (Header_RootHash v))).

Definition Header_UnmarshalBinary (v : Header) (data : bytes) : res Header :=
  let reader := NewReader data in
  let '(xVersion, reader) := ReadUint 1 reader in
  let '(xHeight, reader) := ReadUint 2 reader in
  let '(xRootHash, reader) := ReadHash 3 reader in
  finish_read (Build_Header (default (Header_Version v) xVersion) (default (Header_Height v) xHeight) (default
    (Header_RootHash v) xRootHash)) reader.

Definition Header_ok (v : Header) : Prop :=
  is_u64 (Header_Version v) /\ is_u64 (Header_Height v) /\ hash_ok (Header_RootHash v) /\ Header_extraData v = [].

Lemma Header_survives (v : Header) :
  Header_ok v -> survives Header_MarshalBinary (Header_UnmarshalBinary new_Header) v.
Proof. wire_roundtrip. Qed.
#[export] Hint Resolve Header_survives : wire.
Lemma Header_copied (v : Header) : Header_ok v -> Header_Copy v = v.
Proof. wire_copy. Qed.
#[export] Hint Resolve Header_copied : copies.

Record snapshot_Signature (SG : Type) := { snapshot_Signature_Txid : option TxID; snapshot_Signature_Signature :
  option SG; snapshot_Signature_extraData : bytes }.
Arguments Build_snapshot_Signature {SG}.
Arguments snapshot_Signature_Txid {SG}.
Arguments snapshot_Signature_Signature {SG}.
Arguments snapshot_Signature_extraData {SG}.
Definition new_snapshot_Signature {SG : Type} : snapshot_Signature SG := Build_snapshot_Signature None None [].

Definition snapshot_Signature_Copy `{Union SG} (v : snapshot_Signature SG) : snapshot_Signature SG :=
  Build_snapshot_Signature (snapshot_Signature_Txid v) (u_Copy <$> snapshot_Signature_Signature v) [].

Definition snapshot_Signature_MarshalBinary `{Union SG} (v : snapshot_Signature SG) : res bytes :=
  finish (snapshot_Signature_extraData v) (
    NewWriter
    |> when (negb (is_nil (snapshot_Signature_Txid v))) (writeTxid 1 (snapshot_Signature_Txid v))
    |> when (negb (is_nil (snapshot_Signature_Signature v))) (deref (snapshot_Signature_Signature v) (fun v =>
       writeValue 2 (u_Marshal v)))).

Definition snapshot_Signature_UnmarshalBinary `{Union SG} (v : snapshot_Signature SG) (data : bytes) : res
    (snapshot_Signature SG) :=
  let reader := NewReader data in
  let '(xTxid, reader) := readTxid 1 reader in
  let '(xSignature, reader) := readValue 2 u_Unmarshal reader in
  finish_read (Build_snapshot_Signature (default (snapshot_Signature_Txid v) xTxid) (or_else xSignature
    (snapshot_Signature_Signature v))) reader.

Definition snapshot_Signature_ok `{Union SG} (v : snapshot_Signature SG) : Prop :=
  txid_ok (snapshot_Signature_Txid v) /\ (forall x, snapshot_Signature_Signature v = Some x -> u_ok x) /\ (forall x,
  snapshot_Signature_Signature v = Some x -> fits (u_Marshal x)) /\ snapshot_Signature_extraData v = [].

Lemma snapshot_Signature_survives `{Union SG} `{!UnionLaws SG} (v : snapshot_Signature SG) :
  snapshot_Signature_ok v -> survives snapshot_Signature_MarshalBinary (snapshot_Signature_UnmarshalBinary
    new_snapshot_Signature) v.
Proof. wire_roundtrip. Qed.
#[export] Hint Resolve snapshot_Signature_survives : wire.
Lemma snapshot_Signature_copied `{Union SG} `{!UnionLaws SG} (v : snapshot_Signature SG) : snapshot_Signature_ok v
    -> snapshot_Signature_Copy v = v.
Proof. wire_copy. Qed.
#[export] Hint Resolve snapshot_Signature_copied : copies.

Record TxnSigSet := { TxnSigSet_Signer : option URL; TxnSigSet_Version : Z; TxnSigSet_Entries : list SigSetEntry;
  TxnSigSet_extraData : bytes }.
Definition new_TxnSigSet : TxnSigSet := Build_TxnSigSet None 0 [] [].

Definition TxnSigSet_Copy (v : TxnSigSet) : TxnSigSet := Build_TxnSigSet (TxnSigSet_Signer v) (TxnSigSet_Version v)
  (SigSetEntry_Copy <$> TxnSigSet_Entries v) [].

Definition TxnSigSet_MarshalBinary (v : TxnSigSet) : res bytes :=
  finish (TxnSigSet_extraData v) (
    NewWriter
    |> when (negb (is_nil (TxnSigSet_Signer v))) (writeUrl 1 (TxnSigSet_Signer v))
    |> when (negb (TxnSigSet_Version v =? 0)) (WriteUint 2 (TxnSigSet_Version v))
    |> when (negb (is_empty (TxnSigSet_Entries v))) (range (TxnSigSet_Entries v) (fun v => writeValue 3
       (SigSetEntry_MarshalBinary v)))).

Definition TxnSigSet_UnmarshalBinary (v : TxnSigSet) (data : bytes) : res TxnSigSet :=
  let reader := NewReader data in
  let '(xSigner, reader) := readUrl 1 reader in
  let '(xVersion, reader) := ReadUint 2 reader in
  let '(xEntries, reader) := read_list (readValue 3 (SigSetEntry_UnmarshalBinary new_SigSetEntry)) reader in
  finish_read (Build_TxnSigSet (default (TxnSigSet_Signer v) xSigner) (default (TxnSigSet_Version v) xVersion)
    (TxnSigSet_Entries v ++ xEntries)) reader.

Definition TxnSigSet_ok (v : TxnSigSet) : Prop :=
  url_ok (TxnSigSet_Signer v) /\ is_u64 (TxnSigSet_Version v) /\ (forall x, x ∈ TxnSigSet_Entries v ->
  SigSetEntry_ok x) /\ (forall x, x ∈ TxnSigSet_Entries v -> fits (SigSetEntry_MarshalBinary x)) /\
  TxnSigSet_extraData v = [].

Lemma TxnSigSet_survives (v : TxnSigSet) :
  TxnSigSet_ok v -> survives TxnSigSet_MarshalBinary (TxnSigSet_UnmarshalBinary new_TxnSigSet) v.
Proof. wire_roundtrip. Qed.
#[export] Hint Resolve TxnSigSet_survives : wire.
Lemma TxnSigSet_copied (v : TxnSigSet) : TxnSigSet_ok v -> TxnSigSet_Copy v = v.
Proof. wire_copy. Qed.
#[export] Hint Resolve TxnSigSet_copied : copies.

Record snapshot_Transaction (TB : Type) (ER : Type) := { snapshot_Transaction_Transaction : option (Transaction TB);
  snapshot_Transaction_Status : option (TransactionStatus TB ER); snapshot_Transaction_SignatureSets : list
  TxnSigSet; snapshot_Transaction_extraData : bytes }.
Arguments Build_snapshot_Transaction {TB} {ER}.
Arguments snapshot_Transaction_Transaction {TB} {ER}.
Arguments snapshot_Transaction_Status {TB} {ER}.
Arguments snapshot_Transaction_SignatureSets {TB} {ER}.
Arguments snapshot_Transaction_extraData {TB} {ER}.
Definition new_snapshot_Transaction {TB : Type} {ER : Type} : snapshot_Transaction TB ER :=
  Build_snapshot_Transaction None None [] [].

Definition snapshot_Transaction_Copy `{Union TB, Union ER} (v : snapshot_Transaction TB ER) : snapshot_Transaction
  TB ER := Build_snapshot_Transaction (Transaction_Copy <$> snapshot_Transaction_Transaction v)
  (TransactionStatus_Copy <$> snapshot_Transaction_Status v) (TxnSigSet_Copy <$> snapshot_Transaction_SignatureSets
  v) [].

Definition snapshot_Transaction_MarshalBinary `{Union TB, Union ER} (v : snapshot_Transaction TB ER) : res bytes :=
  finish (snapshot_Transaction_extraData v) (
    NewWriter
    |> when (negb (is_nil (snapshot_Transaction_Transaction v))) (deref (snapshot_Transaction_Transaction v) (fun v
       => writeValue 2 (Transaction_MarshalBinary v)))
    |> when (negb (is_nil (snapshot_Transaction_Status v))) (deref (snapshot_Transaction_Status v) (fun v =>
       writeValue 3 (TransactionStatus_MarshalBinary v)))
    |> when (negb (is_empty (snapshot_Transaction_SignatureSets v))) (range (snapshot_Transaction_SignatureSets v)
       (fun v => writeValue 4 (TxnSigSet_MarshalBinary v)))).

Definition snapshot_Transaction_UnmarshalBinary `{Union TB, Union ER} (v : snapshot_Transaction TB ER) (data :
    bytes) : res (snapshot_Transaction TB ER) :=
  let reader := NewReader data in
  let '(xTransaction, reader) := readValue 2 (Transaction_UnmarshalBinary new_Transaction) reader in
  let '(xStatus, reader) := readValue 3 (TransactionStatus_UnmarshalBinary new_TransactionStatus) reader in
  let '(xSignatureSets, reader) := read_list (readValue 4 (TxnSigSet_UnmarshalBinary new_TxnSigSet)) reader in
  finish_read (Build_snapshot_Transaction (or_else xTransaction (snapshot_Transaction_Transaction v)) (or_else
    xStatus (snapshot_Transaction_Status v)) (snapshot_Transaction_SignatureSets v ++ xSignatureSets)) reader.

Definition snapshot_Transaction_ok `{Union TB, Union ER} (v : snapshot_Transaction TB ER) : Prop :=
  (forall x, snapshot_Transaction_Transaction v = Some x -> Transaction_ok x) /\ (forall x,
  snapshot_Transaction_Transaction v = Some x -> fits (Transaction_MarshalBinary x)) /\ (forall x,
  snapshot_Transaction_Status v = Some x -> TransactionStatus_ok x) /\ (forall x, snapshot_Transaction_Status v =
  Some x -> fits (TransactionStatus_MarshalBinary x)) /\ (forall x, x ∈ snapshot_Transaction_SignatureSets v ->
  TxnSigSet_ok x) /\ (forall x, x ∈ snapshot_Transaction_SignatureSets v -> fits (TxnSigSet_MarshalBinary x)) /\
  snapshot_Transaction_extraData v = [].

Lemma snapshot_Transaction_survives `{Union TB, Union ER} `{!UnionLaws TB, !UnionLaws ER} (v : snapshot_Transaction
    TB ER) :
  snapshot_Transaction_ok v -> survives snapshot_Transaction_MarshalBinary (snapshot_Transaction_UnmarshalBinary
    new_snapshot_Transaction) v.
Proof. wire_roundtrip. Qed.
#[export] Hint Resolve snapshot_Transaction_survives : wire.
Lemma snapshot_Transaction_copied `{Union TB, Union ER} `{!UnionLaws TB, !UnionLaws ER} (v : snapshot_Transaction TB
    ER) : snapshot_Transaction_ok v -> snapshot_Transaction_Copy v = v.
Proof. wire_copy. Qed.
#[export] Hint Resolve snapshot_Transaction_copied : copies.

Record sigSection (SG : Type) := { sigSection_Signatures : list (snapshot_Signature SG); sigSection_extraData :
  bytes }.
Arguments Build_sigSection {SG}.
Arguments sigSection_Signatures {SG}.
Arguments sigSection_extraData {SG}.
Definition new_sigSection {SG : Type} : sigSection SG := Build_sigSection [] [].

Definition sigSection_Copy `{Union SG} (v : sigSection SG) : sigSection SG := Build_sigSection
  (snapshot_Signature_Copy <$> sigSection_Signatures v) [].

Definition sigSection_MarshalBinary `{Union SG} (v : sigSection SG) : res bytes :=
  finish (sigSection_extraData v) (
    NewWriter
    |> when (negb (is_empty (sigSection_Signatures v))) (range (sigSection_Signatures v) (fun v => writeValue 1
       (snapshot_Signature_MarshalBinary v)))).

Definition sigSection_UnmarshalBinary `{Union SG} (v : sigSection SG) (data : bytes) : res (sigSection SG) :=
  let reader := NewReader data in
  let '(xSignatures, reader) := read_list (readValue 1 (snapshot_Signature_UnmarshalBinary new_snapshot_Signature))
    reader in
  finish_read (Build_sigSection (sigSection_Signatures v ++ xSignatures)) reader.

Definition sigSection_ok `{Union SG} (v : sigSection SG) : Prop :=
  (forall x, x ∈ sigSection_Signatures v -> snapshot_Signature_ok x) /\ (forall x, x ∈ sigSection_Signatures v ->
  fits (snapshot_Signature_MarshalBinary x)) /\ sigSection_extraData v = [].

Lemma sigSection_survives `{Union SG} `{!UnionLaws SG} (v : sigSection SG) :
  sigSection_ok v -> survives sigSection_MarshalBinary (sigSection_UnmarshalBinary new_sigSection) v.
Proof. wire_roundtrip. Qed.
#[export] Hint Resolve sigSection_survives : wire.
Lemma sigSection_copied `{Union SG} `{!UnionLaws SG} (v : sigSection SG) : sigSection_ok v -> sigSection_Copy v = v.
Proof. wire_copy. Qed.
#[export] Hint Resolve sigSection_copied : copies.

Record txnSection (TB : Type) (ER : Type) := { txnSection_Transactions : list (snapshot_Transaction TB ER);
  txnSection_extraData : bytes }.
Arguments Build_txnSection {TB} {ER}.
Arguments txnSection_Transactions {TB} {ER}.
Arguments txnSection_extraData {TB} {ER}.
Definition new_txnSection {TB : Type} {ER : Type} : txnSection TB ER := Build_txnSection [] [].

Definition txnSection_Copy `{Union TB, Union ER} (v : txnSection TB ER) : txnSection TB ER := Build_txnSection
  (snapshot_Transaction_Copy <$> txnSection_Transactions v) [].

Definition txnSection_MarshalBinary `{Union TB, Union ER} (v : txnSection TB ER) : res bytes :=
  finish (txnSection_extraData v) (
    NewWriter
    |> when (negb (is_empty (txnSection_Transactions v))) (range (txnSection_Transactions v) (fun v => writeValue 1
       (snapshot_Transaction_MarshalBinary v)))).

Definition txnSection_UnmarshalBinary `{Union TB, Union ER} (v : txnSection TB ER) (data : bytes) : res (txnSection
    TB ER) :=
  let reader := NewReader data in
  let '(xTransactions, reader) := read_list (readValue 1 (snapshot_Transaction_UnmarshalBinary
    new_snapshot_Transaction)) reader in
  finish_read (Build_txnSection (txnSection_Transactions v ++ xTransactions)) reader.

Definition txnSection_ok `{Union TB, Union ER} (v : txnSection TB ER) : Prop :=
  (forall x, x ∈ txnSection_Transactions v -> snapshot_Transaction_ok x) /\ (forall x, x ∈ txnSection_Transactions v
  -> fits (snapshot_Transaction_MarshalBinary x)) /\ txnSection_extraData v = [].

Lemma txnSection_survives `{Union TB, Union ER} `{!UnionLaws TB, !UnionLaws ER} (v : txnSection TB ER) :
  txnSection_ok v -> survives txnSection_MarshalBinary (txnSection_UnmarshalBinary new_txnSection) v.
Proof. wire_roundtrip. Qed.
#[export] Hint Resolve txnSection_survives : wire.
Lemma txnSection_copied `{Union TB, Union ER} `{!UnionLaws TB, !UnionLaws ER} (v : txnSection TB ER) : txnSection_ok
    v -> txnSection_Copy v = v.
Proof. wire_copy. Qed.
#[export] Hint Resolve txnSection_copied : copies.
