(* ===== verification/TypesQuery.v ===== *)
(** * Generated types: queries

    Requests and responses of [internal/api/v2/query/types_gen.go], which a node sends
    over the network, and the union [Request] of [unions_gen.go]. *)

From S2P Require Import Prelude Encoding Codec CodecProofs DataEntry Url Enums Wire TypesGeneral.
From S2P Require Import TypesAccounts TypesSignatures TypesTransactions TypesStatus TypesDatabase.
Local Open Scope Z_scope.
Import Url TxID.

Record ChainState := { ChainState_Name : string; ChainState_Type : Z; ChainState_Height : Z; ChainState_Roots : list
  bytes; ChainState_extraData : bytes }.
Definition new_ChainState : ChainState := Build_ChainState "" 0 0 [] [].

Definition ChainState_Copy (v : ChainState) : ChainState := Build_ChainState (ChainState_Name v) (ChainState_Type v)
  (ChainState_Height v) (ChainState_Roots v) [].

Definition ChainState_MarshalBinary (v : ChainState) : res bytes :=
  finish (ChainState_extraData v) (
    NewWriter
    |> when (negb (String.eqb (ChainState_Name v) "")) (WriteString 1 (ChainState_Name v))
    |> when (negb (ChainState_Type v =? 0)) (WriteEnum 2 (ChainState_Type v))
    |> when (negb (ChainState_Height v =? 0)) (WriteUint 3 (ChainState_Height v))
    |> when (negb (is_empty (ChainState_Roots v))) (range (ChainState_Roots v) (fun v => WriteBytes 4 v))).

Definition ChainState_UnmarshalBinary (v : ChainState) (data : bytes) : res ChainState :=
  let reader := NewReader data in
  let '(xName, reader) := ReadString 1 reader in
  let '(xType, reader) := ReadEnum managed.ChainType_SetEnumValue 2 reader in
  let '(xHeight, reader) := ReadUint 3 reader in
  let '(xRoots, reader) := read_list (ReadBytes 4) reader in
  finish_read (Build_ChainState (default (ChainState_Name v) xName) (default (ChainState_Type v) xType) (default
    (ChainState_Height v) xHeight) (ChainState_Roots v ++ xRoots)) reader.

Definition ChainState_ok (v : ChainState) : Prop :=
  string_ok (ChainState_Name v) /\ enum_or_zero managed.ChainType_SetEnumValue (ChainState_Type v) /\ is_u64
  (ChainState_Height v) /\ (forall x, x ∈ ChainState_Roots v -> bytes_ok x) /\ ChainState_extraData v = [].

Lemma ChainState_survives (v : ChainState) :
  ChainState_ok v -> survives ChainState_MarshalBinary (ChainState_UnmarshalBinary new_ChainState) v.
Proof. wire_roundtrip. Qed.
#[export] Hint Resolve ChainState_survives : wire.
Lemma ChainState_copied (v : ChainState) : ChainState_ok v -> ChainState_Copy v = v.
Proof. wire_copy. Qed.
#[export] Hint Resolve ChainState_copied : copies.

Record DirectoryQueryResult (TB : Type) := { DirectoryQueryResult_Entries : list string;
  DirectoryQueryResult_ExpandedEntries : list (Account TB); DirectoryQueryResult_Total : Z;
  DirectoryQueryResult_extraData : bytes }.
Arguments Build_DirectoryQueryResult {TB}.
Arguments DirectoryQueryResult_Entries {TB}.
Arguments DirectoryQueryResult_ExpandedEntries {TB}.
Arguments DirectoryQueryResult_Total {TB}.
Arguments DirectoryQueryResult_extraData {TB}.
Definition new_DirectoryQueryResult {TB : Type} : DirectoryQueryResult TB := Build_DirectoryQueryResult [] [] 0 [].

Definition DirectoryQueryResult_Copy `{Union TB} (v : DirectoryQueryResult TB) : DirectoryQueryResult TB :=
  Build_DirectoryQueryResult (DirectoryQueryResult_Entries v) (Account_Copy <$> DirectoryQueryResult_ExpandedEntries
  v) (DirectoryQueryResult_Total v) [].

Definition DirectoryQueryResult_MarshalBinary `{Union TB} (v : DirectoryQueryResult TB) : res bytes :=
  finish (DirectoryQueryResult_extraData v) (
    NewWriter
    |> when (negb (is_empty (DirectoryQueryResult_Entries v))) (range (DirectoryQueryResult_Entries v) (fun v =>
       WriteString 1 v))
    |> when (negb (is_empty (DirectoryQueryResult_ExpandedEntries v))) (range (DirectoryQueryResult_ExpandedEntries
       v) (fun v => writeValue 2 (Account_MarshalBinary v)))
    |> WriteUint 3 (DirectoryQueryResult_Total v)).

Definition DirectoryQueryResult_UnmarshalBinary `{Union TB} (v : DirectoryQueryResult TB) (data : bytes) : res
    (DirectoryQueryResult TB) :=
  let reader := NewReader data in
  let '(xEntries, reader) := read_list (ReadString 1) reader in
  let '(xExpandedEntries, reader) := read_list (readValue 2 UnmarshalAccount) reader in
  let '(xTotal, reader) := ReadUint 3 reader in
  finish_read (Build_DirectoryQueryResult (DirectoryQueryResult_Entries v ++ xEntries)
    (DirectoryQueryResult_ExpandedEntries v ++ xExpandedEntries) (default (DirectoryQueryResult_Total v) xTotal))
    reader.

Definition DirectoryQueryResult_ok `{Union TB} (v : DirectoryQueryResult TB) : Prop :=
  (forall x, x ∈ DirectoryQueryResult_Entries v -> string_ok x) /\ (forall x, x ∈
  DirectoryQueryResult_ExpandedEntries v -> Account_ok x) /\ (forall x, x ∈ DirectoryQueryResult_ExpandedEntries v
  -> fits (Account_MarshalBinary x)) /\ is_u64 (DirectoryQueryResult_Total v) /\ DirectoryQueryResult_extraData v =
  [].

Lemma DirectoryQueryResult_survives `{Union TB} `{!UnionLaws TB} (v : DirectoryQueryResult TB) :
  DirectoryQueryResult_ok v -> survives DirectoryQueryResult_MarshalBinary (DirectoryQueryResult_UnmarshalBinary
    new_DirectoryQueryResult) v.
Proof. wire_roundtrip. Qed.
#[export] Hint Resolve DirectoryQueryResult_survives : wire.
Lemma DirectoryQueryResult_copied `{Union TB} `{!UnionLaws TB} (v : DirectoryQueryResult TB) :
    DirectoryQueryResult_ok v -> DirectoryQueryResult_Copy v = v.
Proof. wire_copy. Qed.
#[export] Hint Resolve DirectoryQueryResult_copied : copies.

Record GeneralReceipt := { GeneralReceipt_LocalBlock : Z; GeneralReceipt_DirectoryBlock : Z;
  GeneralReceipt_MajorBlock : Z; GeneralReceipt_Proof : Receipt; GeneralReceipt_Error : string;
  GeneralReceipt_extraData : bytes }.
Definition new_GeneralReceipt : GeneralReceipt := Build_GeneralReceipt 0 0 0 new_Receipt "" [].

Definition GeneralReceipt_Copy (v : GeneralReceipt) : GeneralReceipt := Build_GeneralReceipt
  (GeneralReceipt_LocalBlock v) (GeneralReceipt_DirectoryBlock v) (GeneralReceipt_MajorBlock v) (Receipt_Copy
  (GeneralReceipt_Proof v)) (GeneralReceipt_Error v) [].

Definition GeneralReceipt_MarshalBinary (v : GeneralReceipt) : res bytes :=
  finish (GeneralReceipt_extraData v) (
    NewWriter
    |> when (negb (GeneralReceipt_LocalBlock v =? 0)) (WriteUint 1 (GeneralReceipt_LocalBlock v))
    |> when (negb (GeneralReceipt_DirectoryBlock v =? 0)) (WriteUint 2 (GeneralReceipt_DirectoryBlock v))
    |> when (negb (GeneralReceipt_MajorBlock v =? 0)) (WriteUint 3 (GeneralReceipt_MajorBlock v))
    |> when (negb (Receipt_Equal (GeneralReceipt_Proof v) new_Receipt)) (writeValue 4 (Receipt_MarshalBinary
       (GeneralReceipt_Proof v)))
    |> when (negb (String.eqb (GeneralReceipt_Error v) "")) (WriteString 5 (GeneralReceipt_Error v))).

Definition GeneralReceipt_UnmarshalBinary (v : GeneralReceipt) (data : bytes) : res GeneralReceipt :=
  let reader := NewReader data in
  let '(xLocalBlock, reader) := ReadUint 1 reader in
  let '(xDirectoryBlock, reader) := ReadUint 2 reader in
  let '(xMajorBlock, reader) := ReadUint 3 reader in
  let '(xProof, reader) := readValue 4 (Receipt_UnmarshalBinary new_Receipt) reader in
  let '(xError, reader) := ReadString 5 reader in
  finish_read (Build_GeneralReceipt (default (GeneralReceipt_LocalBlock v) xLocalBlock) (default
    (GeneralReceipt_DirectoryBlock v) xDirectoryBlock) (default (GeneralReceipt_MajorBlock v) xMajorBlock) (default
    (GeneralReceipt_Proof v) xProof) (default (GeneralReceipt_Error v) xError)) reader.

Definition GeneralReceipt_ok (v : GeneralReceipt) : Prop :=
  is_u64 (GeneralReceipt_LocalBlock v) /\ is_u64 (GeneralReceipt_DirectoryBlock v) /\ is_u64
  (GeneralReceipt_MajorBlock v) /\ Receipt_ok (GeneralReceipt_Proof v) /\ fits (Receipt_MarshalBinary
  (GeneralReceipt_Proof v)) /\ string_ok (GeneralReceipt_Error v) /\ GeneralReceipt_extraData v = [].

Lemma GeneralReceipt_survives (v : GeneralReceipt) :
  GeneralReceipt_ok v -> survives GeneralReceipt_MarshalBinary (GeneralReceipt_UnmarshalBinary new_GeneralReceipt)
    v.
Proof. wire_roundtrip. Qed.
#[export] Hint Resolve GeneralReceipt_survives : wire.
Lemma GeneralReceipt_copied (v : GeneralReceipt) : GeneralReceipt_ok v -> GeneralReceipt_Copy v = v.
Proof. wire_copy. Qed.
#[export] Hint Resolve GeneralReceipt_copied : copies.

Record MultiResponse := { MultiResponse_Type : string; MultiResponse_Items : list string; MultiResponse_Start : Z;
  MultiResponse_Count : Z; MultiResponse_Total : Z; MultiResponse_extraData : bytes }.
Definition new_MultiResponse : MultiResponse := Build_MultiResponse "" [] 0 0 0 [].

Definition MultiResponse_MarshalBinary (v : MultiResponse) : res bytes :=
  finish (MultiResponse_extraData v) (
    NewWriter
    |> when (negb (String.eqb (MultiResponse_Type v) "")) (WriteString 1 (MultiResponse_Type v))
    |> when (negb (is_empty (MultiResponse_Items v))) (range (MultiResponse_Items v) (fun v => WriteString 2 v))
    |> WriteUint 3 (MultiResponse_Start v)
    |> WriteUint 4 (MultiResponse_Count v)
    |> WriteUint 5 (MultiResponse_Total v)).

Definition MultiResponse_UnmarshalBinary (v : MultiResponse) (data : bytes) : res MultiResponse :=
  let reader := NewReader data in
  let '(xType, reader) := ReadString 1 reader in
  let '(xItems, reader) := read_list (ReadString 2) reader in
  let '(xStart, reader) := ReadUint 3 reader in
  let '(xCount, reader) := ReadUint 4 reader in
  let '(xTotal, reader) := ReadUint 5 reader in
  finish_read (Build_MultiResponse (default (MultiResponse_Type v) xType) (MultiResponse_Items v ++ xItems) (default
    (MultiResponse_Start v) xStart) (default (MultiResponse_Count v) xCount) (default (MultiResponse_Total v)
    xTotal)) reader.

Definition MultiResponse_ok (v : MultiResponse) : Prop :=
  string_ok (MultiResponse_Type v) /\ (forall x, x ∈ MultiResponse_Items v -> string_ok x) /\ is_u64
  (MultiResponse_Start v) /\ is_u64 (MultiResponse_Count v) /\ is_u64 (MultiResponse_Total v) /\
  MultiResponse_extraData v = [].

Lemma MultiResponse_survives (v : MultiResponse) :
  MultiResponse_ok v -> survives MultiResponse_MarshalBinary (MultiResponse_UnmarshalBinary new_MultiResponse) v.
Proof. wire_roundtrip. Qed.
#[export] Hint Resolve MultiResponse_survives : wire.

Record RequestByChainId := { RequestByChainId_ChainId : bytes; RequestByChainId_extraData : bytes }.
Definition new_RequestByChainId : RequestByChainId := Build_RequestByChainId hash_zero [].

Definition RequestByChainId_Copy (v : RequestByChainId) : RequestByChainId := Build_RequestByChainId
  (RequestByChainId_ChainId v) [].

Definition RequestByChainId_MarshalBinary (v : RequestByChainId) : res bytes :=
  finish (RequestByChainId_extraData v) (
    NewWriter
    |> WriteEnum 1 query.QueryTypeChainId
    |> when (negb (bytes_eqb (RequestByChainId_ChainId v) hash_zero)) (WriteHash 2 (RequestByChainId_ChainId v))).

Definition RequestByChainId_UnmarshalBinary (v : RequestByChainId) (data : bytes) : res RequestByChainId :=
  let reader := NewReader data in
  let '(vType, reader) := ReadEnum query.QueryType_SetEnumValue 1 reader in
  if negb (query.QueryTypeChainId =? default 0 vType) then errorf "field Type: not equal" else
  let '(xChainId, reader) := ReadHash 2 reader in
  finish_read (Build_RequestByChainId (default (RequestByChainId_ChainId v) xChainId)) reader.

Definition RequestByChainId_ok (v : RequestByChainId) : Prop :=
  hash_ok (RequestByChainId_ChainId v) /\ RequestByChainId_extraData v = [].

Lemma RequestByChainId_survives (v : RequestByChainId) :
  RequestByChainId_ok v -> survives RequestByChainId_MarshalBinary (RequestByChainId_UnmarshalBinary
    new_RequestByChainId) v.
Proof. wire_roundtrip. Qed.
#[export] Hint Resolve RequestByChainId_survives : wire.
Lemma RequestByChainId_copied (v : RequestByChainId) : RequestByChainId_ok v -> RequestByChainId_Copy v = v.
Proof. wire_copy. Qed.
#[export] Hint Resolve RequestByChainId_copied : copies.
Lemma RequestByChainId_tagged (v : RequestByChainId) : RequestByChainId_ok v -> tagged
    RequestByChainId_MarshalBinary query.QueryTypeChainId v.
Proof. wire_tagged. Qed.
#[export] Hint Resolve RequestByChainId_tagged : wire.

Record RequestByTxId := { RequestByTxId_TxId : bytes; RequestByTxId_extraData : bytes }.
Definition new_RequestByTxId : RequestByTxId := Build_RequestByTxId hash_zero [].

Definition RequestByTxId_Copy (v : RequestByTxId) : RequestByTxId := Build_RequestByTxId (RequestByTxId_TxId v) [].

Definition RequestByTxId_MarshalBinary (v : RequestByTxId) : res bytes :=
  finish (RequestByTxId_extraData v) (
    NewWriter
    |> WriteEnum 1 query.QueryTypeTxId
    |> when (negb (bytes_eqb (RequestByTxId_TxId v) hash_zero)) (WriteHash 2 (RequestByTxId_TxId v))).

Definition RequestByTxId_UnmarshalBinary (v : RequestByTxId) (data : bytes) : res RequestByTxId :=
  let reader := NewReader data in
  let '(vType, reader) := ReadEnum query.QueryType_SetEnumValue 1 reader in
  if negb (query.QueryTypeTxId =? default 0 vType) then errorf "field Type: not equal" else
  let '(xTxId, reader) := ReadHash 2 reader in
  finish_read (Build_RequestByTxId (default (RequestByTxId_TxId v) xTxId)) reader.

Definition RequestByTxId_ok (v : RequestByTxId) : Prop :=
  hash_ok (RequestByTxId_TxId v) /\ RequestByTxId_extraData v = [].

Lemma RequestByTxId_survives (v : RequestByTxId) :
  RequestByTxId_ok v -> survives RequestByTxId_MarshalBinary (RequestByTxId_UnmarshalBinary new_RequestByTxId) v.
Proof. wire_roundtrip. Qed.
#[export] Hint Resolve RequestByTxId_survives : wire.
Lemma RequestByTxId_copied (v : RequestByTxId) : RequestByTxId_ok v -> RequestByTxId_Copy v = v.
Proof. wire_copy. Qed.
#[export] Hint Resolve RequestByTxId_copied : copies.
Lemma RequestByTxId_tagged (v : RequestByTxId) : RequestByTxId_ok v -> tagged RequestByTxId_MarshalBinary
    query.QueryTypeTxId v.
Proof. wire_tagged. Qed.
#[export] Hint Resolve RequestByTxId_tagged : wire.

Record RequestByUrl := { RequestByUrl_Url : option URL; RequestByUrl_Scratch : bool; RequestByUrl_extraData : bytes
  }.
Definition new_RequestByUrl : RequestByUrl := Build_RequestByUrl None false [].

Definition RequestByUrl_Copy (v : RequestByUrl) : RequestByUrl := Build_RequestByUrl (RequestByUrl_Url v)
  (RequestByUrl_Scratch v) [].

Definition RequestByUrl_MarshalBinary (v : RequestByUrl) : res bytes :=
  finish (RequestByUrl_extraData v) (
    NewWriter
    |> WriteEnum 1 query.QueryTypeUrl
    |> when (negb (is_nil (RequestByUrl_Url v))) (writeUrl 2 (RequestByUrl_Url v))
    |> when (negb (negb (RequestByUrl_Scratch v))) (WriteBool 3 (RequestByUrl_Scratch v))).

Definition RequestByUrl_UnmarshalBinary (v : RequestByUrl) (data : bytes) : res RequestByUrl :=
  let reader := NewReader data in
  let '(vType, reader) := ReadEnum query.QueryType_SetEnumValue 1 reader in
  if negb (query.QueryTypeUrl =? default 0 vType) then errorf "field Type: not equal" else
  let '(xUrl, reader) := readUrl 2 reader in
  let '(xScratch, reader) := ReadBool 3 reader in
  finish_read (Build_RequestByUrl (default (RequestByUrl_Url v) xUrl) (default (RequestByUrl_Scratch v) xScratch))
    reader.

Definition RequestByUrl_ok (v : RequestByUrl) : Prop :=
  url_ok (RequestByUrl_Url v) /\ RequestByUrl_extraData v = [].

Lemma RequestByUrl_survives (v : RequestByUrl) :
  RequestByUrl_ok v -> survives RequestByUrl_MarshalBinary (RequestByUrl_UnmarshalBinary new_RequestByUrl) v.
Proof. wire_roundtrip. Qed.
#[export] Hint Resolve RequestByUrl_survives : wire.
Lemma RequestByUrl_copied (v : RequestByUrl) : RequestByUrl_ok v -> RequestByUrl_Copy v = v.
Proof. wire_copy. Qed.
#[export] Hint Resolve RequestByUrl_copied : copies.
Lemma RequestByUrl_tagged (v : RequestByUrl) : RequestByUrl_ok v -> tagged RequestByUrl_MarshalBinary
    query.QueryTypeUrl v.
Proof. wire_tagged. Qed.
#[export] Hint Resolve RequestByUrl_tagged : wire.

Record RequestDataEntry := { RequestDataEntry_Url : option URL; RequestDataEntry_EntryHash : bytes;
  RequestDataEntry_extraData : bytes }.
Definition new_RequestDataEntry : RequestDataEntry := Build_RequestDataEntry None hash_zero [].

Definition RequestDataEntry_Copy (v : RequestDataEntry) : RequestDataEntry := Build_RequestDataEntry
  (RequestDataEntry_Url v) (RequestDataEntry_EntryHash v) [].

Definition RequestDataEntry_MarshalBinary (v : RequestDataEntry) : res bytes :=
  finish (RequestDataEntry_extraData v) (
    NewWriter
    |> WriteEnum 1 query.QueryTypeData
    |> when (negb (is_nil (RequestDataEntry_Url v))) (writeUrl 2 (RequestDataEntry_Url v))
    |> when (negb (bytes_eqb (RequestDataEntry_EntryHash v) hash_zero)) (WriteHash 3 (RequestDataEntry_EntryHash v))).

Definition RequestDataEntry_UnmarshalBinary (v : RequestDataEntry) (data : bytes) : res RequestDataEntry :=
  let reader := NewReader data in
  let '(vType, reader) := ReadEnum query.QueryType_SetEnumValue 1 reader in
  if negb (query.QueryTypeData =? default 0 vType) then errorf "field Type: not equal" else
  let '(xUrl, reader) := readUrl 2 reader in
  let '(xEntryHash, reader) := ReadHash 3 reader in
  finish_read (Build_RequestDataEntry (default (RequestDataEntry_Url v) xUrl) (default (RequestDataEntry_EntryHash
    v) xEntryHash)) reader.

Definition RequestDataEntry_ok (v : RequestDataEntry) : Prop :=
  url_ok (RequestDataEntry_Url v) /\ hash_ok (RequestDataEntry_EntryHash v) /\ RequestDataEntry_extraData v = [].

Lemma RequestDataEntry_survives (v : RequestDataEntry) :
  RequestDataEntry_ok v -> survives RequestDataEntry_MarshalBinary (RequestDataEntry_UnmarshalBinary
    new_RequestDataEntry) v.
Proof. wire_roundtrip. Qed.
#[export] Hint Resolve RequestDataEntry_survives : wire.
Lemma RequestDataEntry_copied (v : RequestDataEntry) : RequestDataEntry_ok v -> RequestDataEntry_Copy v = v.
Proof. wire_copy. Qed.
#[export] Hint Resolve RequestDataEntry_copied : copies.
Lemma RequestDataEntry_tagged (v : RequestDataEntry) : RequestDataEntry_ok v -> tagged
    RequestDataEntry_MarshalBinary query.QueryTypeData v.
Proof. wire_tagged. Qed.
#[export] Hint Resolve RequestDataEntry_tagged : wire.

Record RequestDataEntrySet := { RequestDataEntrySet_Url : option URL; RequestDataEntrySet_Start : Z;
  RequestDataEntrySet_Count : Z; RequestDataEntrySet_ExpandChains : bool; RequestDataEntrySet_extraData : bytes }.
Definition new_RequestDataEntrySet : RequestDataEntrySet := Build_RequestDataEntrySet None 0 0 false [].

Definition RequestDataEntrySet_Copy (v : RequestDataEntrySet) : RequestDataEntrySet := Build_RequestDataEntrySet
  (RequestDataEntrySet_Url v) (RequestDataEntrySet_Start v) (RequestDataEntrySet_Count v)
  (RequestDataEntrySet_ExpandChains v) [].

Definition RequestDataEntrySet_MarshalBinary (v : RequestDataEntrySet) : res bytes :=
  finish (RequestDataEntrySet_extraData v) (
    NewWriter
    |> WriteEnum 1 query.QueryTypeDataSet
    |> when (negb (is_nil (RequestDataEntrySet_Url v))) (writeUrl 2 (RequestDataEntrySet_Url v))
    |> when (negb (RequestDataEntrySet_Start v =? 0)) (WriteUint 3 (RequestDataEntrySet_Start v))
    |> when (negb (RequestDataEntrySet_Count v =? 0)) (WriteUint 4 (RequestDataEntrySet_Count v))
    |> when (negb (negb (RequestDataEntrySet_ExpandChains v))) (WriteBool 5 (RequestDataEntrySet_ExpandChains v))).

Definition RequestDataEntrySet_UnmarshalBinary (v : RequestDataEntrySet) (data : bytes) : res RequestDataEntrySet :=
  let reader := NewReader data in
  let '(vType, reader) := ReadEnum query.QueryType_SetEnumValue 1 reader in
  if negb (query.QueryTypeDataSet =? default 0 vType) then errorf "field Type: not equal" else
  let '(xUrl, reader) := readUrl 2 reader in
  let '(xStart, reader) := ReadUint 3 reader in
  let '(xCount, reader) := ReadUint 4 reader in
  let '(xExpandChains, reader) := ReadBool 5 reader in
  finish_read (Build_RequestDataEntrySet (default (RequestDataEntrySet_Url v) xUrl) (default
    (RequestDataEntrySet_Start v) xStart) (default (RequestDataEntrySet_Count v) xCount) (default
    (RequestDataEntrySet_ExpandChains v) xExpandChains)) reader.

Definition RequestDataEntrySet_ok (v : RequestDataEntrySet) : Prop :=
  url_ok (RequestDataEntrySet_Url v) /\ is_u64 (RequestDataEntrySet_Start v) /\ is_u64 (RequestDataEntrySet_Count v)
  /\ RequestDataEntrySet_extraData v = [].

Lemma RequestDataEntrySet_survives (v : RequestDataEntrySet) :
  RequestDataEntrySet_ok v -> survives RequestDataEntrySet_MarshalBinary (RequestDataEntrySet_UnmarshalBinary
    new_RequestDataEntrySet) v.
Proof. wire_roundtrip. Qed.
#[export] Hint Resolve RequestDataEntrySet_survives : wire.
Lemma RequestDataEntrySet_copied (v : RequestDataEntrySet) : RequestDataEntrySet_ok v -> RequestDataEntrySet_Copy v
    = v.
Proof. wire_copy. Qed.
#[export] Hint Resolve RequestDataEntrySet_copied : copies.
Lemma RequestDataEntrySet_tagged (v : RequestDataEntrySet) : RequestDataEntrySet_ok v -> tagged
    RequestDataEntrySet_MarshalBinary query.QueryTypeDataSet v.
Proof. wire_tagged. Qed.
#[export] Hint Resolve RequestDataEntrySet_tagged : wire.

Record RequestDirectory := { RequestDirectory_Url : option URL; RequestDirectory_Start : Z; RequestDirectory_Limit :
  Z; RequestDirectory_ExpandChains : bool; RequestDirectory_extraData : bytes }.
Definition new_RequestDirectory : RequestDirectory := Build_RequestDirectory None 0 0 false [].

Definition RequestDirectory_Copy (v : RequestDirectory) : RequestDirectory := Build_RequestDirectory
  (RequestDirectory_Url v) (RequestDirectory_Start v) (RequestDirectory_Limit v) (RequestDirectory_ExpandChains v)
  [].

Definition RequestDirectory_MarshalBinary (v : RequestDirectory) : res bytes :=
  finish (RequestDirectory_extraData v) (
    NewWriter
    |> WriteEnum 1 query.QueryTypeDirectoryUrl
    |> when (negb (is_nil (RequestDirectory_Url v))) (writeUrl 2 (RequestDirectory_Url v))
    |> when (negb (RequestDirectory_Start v =? 0)) (WriteUint 3 (RequestDirectory_Start v))
    |> when (negb (RequestDirectory_Limit v =? 0)) (WriteUint 4 (RequestDirectory_Limit v))
    |> when (negb (negb (RequestDirectory_ExpandChains v))) (WriteBool 5 (RequestDirectory_ExpandChains v))).

Definition RequestDirectory_UnmarshalBinary (v : RequestDirectory) (data : bytes) : res RequestDirectory :=
  let reader := NewReader data in
  let '(vType, reader) := ReadEnum query.QueryType_SetEnumValue 1 reader in
  if negb (query.QueryTypeDirectoryUrl =? default 0 vType) then errorf "field Type: not equal" else
  let '(xUrl, reader) := readUrl 2 reader in
  let '(xStart, reader) := ReadUint 3 reader in
  let '(xLimit, reader) := ReadUint 4 reader in
  let '(xExpandChains, reader) := ReadBool 5 reader in
  finish_read (Build_RequestDirectory (default (RequestDirectory_Url v) xUrl) (default (RequestDirectory_Start v)
    xStart) (default (RequestDirectory_Limit v) xLimit) (default (RequestDirectory_ExpandChains v) xExpandChains))
    reader.

Definition RequestDirectory_ok (v : RequestDirectory) : Prop :=
  url_ok (RequestDirectory_Url v) /\ is_u64 (RequestDirectory_Start v) /\ is_u64 (RequestDirectory_Limit v) /\
  RequestDirectory_extraData v = [].

Lemma RequestDirectory_survives (v : RequestDirectory) :
  RequestDirectory_ok v -> survives RequestDirectory_MarshalBinary (RequestDirectory_UnmarshalBinary
    new_RequestDirectory) v.
Proof. wire_roundtrip. Qed.
#[export] Hint Resolve RequestDirectory_survives : wire.
Lemma RequestDirectory_copied (v : RequestDirectory) : RequestDirectory_ok v -> RequestDirectory_Copy v = v.
Proof. wire_copy. Qed.
#[export] Hint Resolve RequestDirectory_copied : copies.
Lemma RequestDirectory_tagged (v : RequestDirectory) : RequestDirectory_ok v -> tagged
    RequestDirectory_MarshalBinary query.QueryTypeDirectoryUrl v.
Proof. wire_tagged. Qed.
#[export] Hint Resolve RequestDirectory_tagged : wire.

Record RequestKeyPageIndex := { RequestKeyPageIndex_Url : option URL; RequestKeyPageIndex_Key : bytes;
  RequestKeyPageIndex_extraData : bytes }.
Definition new_RequestKeyPageIndex : RequestKeyPageIndex := Build_RequestKeyPageIndex None [] [].

Definition RequestKeyPageIndex_Copy (v : RequestKeyPageIndex) : RequestKeyPageIndex := Build_RequestKeyPageIndex
  (RequestKeyPageIndex_Url v) (RequestKeyPageIndex_Key v) [].

Definition RequestKeyPageIndex_MarshalBinary (v : RequestKeyPageIndex) : res bytes :=
  finish (RequestKeyPageIndex_extraData v) (
    NewWriter
    |> WriteEnum 1 query.QueryTypeKeyPageIndex
    |> when (negb (is_nil (RequestKeyPageIndex_Url v))) (writeUrl 2 (RequestKeyPageIndex_Url v))
    |> when (negb (is_empty (RequestKeyPageIndex_Key v))) (WriteBytes 3 (RequestKeyPageIndex_Key v))).

Definition RequestKeyPageIndex_UnmarshalBinary (v : RequestKeyPageIndex) (data : bytes) : res RequestKeyPageIndex :=
  let reader := NewReader data in
  let '(vType, reader) := ReadEnum query.QueryType_SetEnumValue 1 reader in
  if negb (query.QueryTypeKeyPageIndex =? default 0 vType) then errorf "field Type: not equal" else
  let '(xUrl, reader) := readUrl 2 reader in
  let '(xKey, reader) := ReadBytes 3 reader in
  finish_read (Build_RequestKeyPageIndex (default (RequestKeyPageIndex_Url v) xUrl) (default
    (RequestKeyPageIndex_Key v) xKey)) reader.

Definition RequestKeyPageIndex_ok (v : RequestKeyPageIndex) : Prop :=
  url_ok (RequestKeyPageIndex_Url v) /\ bytes_ok (RequestKeyPageIndex_Key v) /\ RequestKeyPageIndex_extraData v =
  [].

Lemma RequestKeyPageIndex_survives (v : RequestKeyPageIndex) :
  RequestKeyPageIndex_ok v -> survives RequestKeyPageIndex_MarshalBinary (RequestKeyPageIndex_UnmarshalBinary
    new_RequestKeyPageIndex) v.
Proof. wire_roundtrip. Qed.
#[export] Hint Resolve RequestKeyPageIndex_survives : wire.
Lemma RequestKeyPageIndex_copied (v : RequestKeyPageIndex) : RequestKeyPageIndex_ok v -> RequestKeyPageIndex_Copy v
    = v.
Proof. wire_copy. Qed.
#[export] Hint Resolve RequestKeyPageIndex_copied : copies.
Lemma RequestKeyPageIndex_tagged (v : RequestKeyPageIndex) : RequestKeyPageIndex_ok v -> tagged
    RequestKeyPageIndex_MarshalBinary query.QueryTypeKeyPageIndex v.
Proof. wire_tagged. Qed.
#[export] Hint Resolve RequestKeyPageIndex_tagged : wire.

Record RequestMajorBlocks := { RequestMajorBlocks_Account : option URL; RequestMajorBlocks_Start : Z;
  RequestMajorBlocks_Limit : Z; RequestMajorBlocks_extraData : bytes }.
Definition new_RequestMajorBlocks : RequestMajorBlocks := Build_RequestMajorBlocks None 0 0 [].

Definition RequestMajorBlocks_Copy (v : RequestMajorBlocks) : RequestMajorBlocks := Build_RequestMajorBlocks
  (RequestMajorBlocks_Account v) (RequestMajorBlocks_Start v) (RequestMajorBlocks_Limit v) [].

Definition RequestMajorBlocks_MarshalBinary (v : RequestMajorBlocks) : res bytes :=
  finish (RequestMajorBlocks_extraData v) (
    NewWriter
    |> WriteEnum 1 query.QueryTypeMajorBlocks
    |> when (negb (is_nil (RequestMajorBlocks_Account v))) (writeUrl 2 (RequestMajorBlocks_Account v))
    |> when (negb (RequestMajorBlocks_Start v =? 0)) (WriteUint 3 (RequestMajorBlocks_Start v))
    |> when (negb (RequestMajorBlocks_Limit v =? 0)) (WriteUint 4 (RequestMajorBlocks_Limit v))).

Definition RequestMajorBlocks_UnmarshalBinary (v : RequestMajorBlocks) (data : bytes) : res RequestMajorBlocks :=
  let reader := NewReader data in
  let '(vType, reader) := ReadEnum query.QueryType_SetEnumValue 1 reader in
  if negb (query.QueryTypeMajorBlocks =? default 0 vType) then errorf "field Type: not equal" else
  let '(xAccount, reader) := readUrl 2 reader in
  let '(xStart, reader) := ReadUint 3 reader in
  let '(xLimit, reader) := ReadUint 4 reader in
  finish_read (Build_RequestMajorBlocks (default (RequestMajorBlocks_Account v) xAccount) (default
    (RequestMajorBlocks_Start v) xStart) (default (RequestMajorBlocks_Limit v) xLimit)) reader.

Definition RequestMajorBlocks_ok (v : RequestMajorBlocks) : Prop :=
  url_ok (RequestMajorBlocks_Account v) /\ is_u64 (RequestMajorBlocks_Start v) /\ is_u64 (RequestMajorBlocks_Limit
  v) /\ RequestMajorBlocks_extraData v = [].

Lemma RequestMajorBlocks_survives (v : RequestMajorBlocks) :
  RequestMajorBlocks_ok v -> survives RequestMajorBlocks_MarshalBinary (RequestMajorBlocks_UnmarshalBinary
    new_RequestMajorBlocks) v.
Proof. wire_roundtrip. Qed.
#[export] Hint Resolve RequestMajorBlocks_survives : wire.
Lemma RequestMajorBlocks_copied (v : RequestMajorBlocks) : RequestMajorBlocks_ok v -> RequestMajorBlocks_Copy v = v.
Proof. wire_copy. Qed.
#[export] Hint Resolve RequestMajorBlocks_copied : copies.
Lemma RequestMajorBlocks_tagged (v : RequestMajorBlocks) : RequestMajorBlocks_ok v -> tagged
    RequestMajorBlocks_MarshalBinary query.QueryTypeMajorBlocks v.
Proof. wire_tagged. Qed.
#[export] Hint Resolve RequestMajorBlocks_tagged : wire.

Record RequestMinorBlocks := { RequestMinorBlocks_Account : option URL; RequestMinorBlocks_Start : Z;
  RequestMinorBlocks_Limit : Z; RequestMinorBlocks_TxFetchMode : Z; RequestMinorBlocks_BlockFilterMode : Z;
  RequestMinorBlocks_extraData : bytes }.
Definition new_RequestMinorBlocks : RequestMinorBlocks := Build_RequestMinorBlocks None 0 0 0 0 [].

Definition RequestMinorBlocks_Copy (v : RequestMinorBlocks) : RequestMinorBlocks := Build_RequestMinorBlocks
  (RequestMinorBlocks_Account v) (RequestMinorBlocks_Start v) (RequestMinorBlocks_Limit v)
  (RequestMinorBlocks_TxFetchMode v) (RequestMinorBlocks_BlockFilterMode v) [].

Definition RequestMinorBlocks_MarshalBinary (v : RequestMinorBlocks) : res bytes :=
  finish (RequestMinorBlocks_extraData v) (
    NewWriter
    |> WriteEnum 1 query.QueryTypeMinorBlocks
    |> when (negb (is_nil (RequestMinorBlocks_Account v))) (writeUrl 2 (RequestMinorBlocks_Account v))
    |> when (negb (RequestMinorBlocks_Start v =? 0)) (WriteUint 3 (RequestMinorBlocks_Start v))
    |> when (negb (RequestMinorBlocks_Limit v =? 0)) (WriteUint 4 (RequestMinorBlocks_Limit v))
    |> when (negb (RequestMinorBlocks_TxFetchMode v =? 0)) (WriteEnum 5 (RequestMinorBlocks_TxFetchMode v))
    |> when (negb (RequestMinorBlocks_BlockFilterMode v =? 0)) (WriteEnum 6 (RequestMinorBlocks_BlockFilterMode v))).

Definition RequestMinorBlocks_UnmarshalBinary (v : RequestMinorBlocks) (data : bytes) : res RequestMinorBlocks :=
  let reader := NewReader data in
  let '(vType, reader) := ReadEnum query.QueryType_SetEnumValue 1 reader in
  if negb (query.QueryTypeMinorBlocks =? default 0 vType) then errorf "field Type: not equal" else
  let '(xAccount, reader) := readUrl 2 reader in
  let '(xStart, reader) := ReadUint 3 reader in
  let '(xLimit, reader) := ReadUint 4 reader in
  let '(xTxFetchMode, reader) := ReadEnum query.TxFetchMode_SetEnumValue 5 reader in
  let '(xBlockFilterMode, reader) := ReadEnum query.BlockFilterMode_SetEnumValue 6 reader in
  finish_read (Build_RequestMinorBlocks (default (RequestMinorBlocks_Account v) xAccount) (default
    (RequestMinorBlocks_Start v) xStart) (default (RequestMinorBlocks_Limit v) xLimit) (default
    (RequestMinorBlocks_TxFetchMode v) xTxFetchMode) (default (RequestMinorBlocks_BlockFilterMode v)
    xBlockFilterMode)) reader.

Definition RequestMinorBlocks_ok (v : RequestMinorBlocks) : Prop :=
  url_ok (RequestMinorBlocks_Account v) /\ is_u64 (RequestMinorBlocks_Start v) /\ is_u64 (RequestMinorBlocks_Limit
  v) /\ enum_or_zero query.TxFetchMode_SetEnumValue (RequestMinorBlocks_TxFetchMode v) /\ enum_or_zero
  query.BlockFilterMode_SetEnumValue (RequestMinorBlocks_BlockFilterMode v) /\ RequestMinorBlocks_extraData v = [].

Lemma RequestMinorBlocks_survives (v : RequestMinorBlocks) :
  RequestMinorBlocks_ok v -> survives RequestMinorBlocks_MarshalBinary (RequestMinorBlocks_UnmarshalBinary
    new_RequestMinorBlocks) v.
Proof. wire_roundtrip. Qed.
#[export] Hint Resolve RequestMinorBlocks_survives : wire.
Lemma RequestMinorBlocks_copied (v : RequestMinorBlocks) : RequestMinorBlocks_ok v -> RequestMinorBlocks_Copy v = v.
Proof. wire_copy. Qed.
#[export] Hint Resolve RequestMinorBlocks_copied : copies.
Lemma RequestMinorBlocks_tagged (v : RequestMinorBlocks) : RequestMinorBlocks_ok v -> tagged
    RequestMinorBlocks_MarshalBinary query.QueryTypeMinorBlocks v.
Proof. wire_tagged. Qed.
#[export] Hint Resolve RequestMinorBlocks_tagged : wire.

Record RequestSynth := { RequestSynth_Source : option URL; RequestSynth_Destination : option URL;
  RequestSynth_SequenceNumber : Z; RequestSynth_Anchor : bool; RequestSynth_extraData : bytes }.
Definition new_RequestSynth : RequestSynth := Build_RequestSynth None None 0 false [].

Definition RequestSynth_Copy (v : RequestSynth) : RequestSynth := Build_RequestSynth (RequestSynth_Source v)
  (RequestSynth_Destination v) (RequestSynth_SequenceNumber v) (RequestSynth_Anchor v) [].

Definition RequestSynth_MarshalBinary (v : RequestSynth) : res bytes :=
  finish (RequestSynth_extraData v) (
    NewWriter
    |> WriteEnum 1 query.QueryTypeSynth
    |> when (negb (is_nil (RequestSynth_Source v))) (writeUrl 2 (RequestSynth_Source v))
    |> when (negb (is_nil (RequestSynth_Destination v))) (writeUrl 3 (RequestSynth_Destination v))
    |> when (negb (RequestSynth_SequenceNumber v =? 0)) (WriteUint 4 (RequestSynth_SequenceNumber v))
    |> when (negb (negb (RequestSynth_Anchor v))) (WriteBool 5 (RequestSynth_Anchor v))).

Definition RequestSynth_UnmarshalBinary (v : RequestSynth) (data : bytes) : res RequestSynth :=
  let reader := NewReader data in
  let '(vType, reader) := ReadEnum query.QueryType_SetEnumValue 1 reader in
  if negb (query.QueryTypeSynth =? default 0 vType) then errorf "field Type: not equal" else
  let '(xSource, reader) := readUrl 2 reader in
  let '(xDestination, reader) := readUrl 3 reader in
  let '(xSequenceNumber, reader) := ReadUint 4 reader in
  let '(xAnchor, reader) := ReadBool 5 reader in
  finish_read (Build_RequestSynth (default (RequestSynth_Source v) xSource) (default (RequestSynth_Destination v)
    xDestination) (default (RequestSynth_SequenceNumber v) xSequenceNumber) (default (RequestSynth_Anchor v)
    xAnchor)) reader.

Definition RequestSynth_ok (v : RequestSynth) : Prop :=
  url_ok (RequestSynth_Source v) /\ url_ok (RequestSynth_Destination v) /\ is_u64 (RequestSynth_SequenceNumber v) /\
  RequestSynth_extraData v = [].

Lemma RequestSynth_survives (v : RequestSynth) :
  RequestSynth_ok v -> survives RequestSynth_MarshalBinary (RequestSynth_UnmarshalBinary new_RequestSynth) v.
Proof. wire_roundtrip. Qed.
#[export] Hint Resolve RequestSynth_survives : wire.
Lemma RequestSynth_copied (v : RequestSynth) : RequestSynth_ok v -> RequestSynth_Copy v = v.
Proof. wire_copy. Qed.
#[export] Hint Resolve RequestSynth_copied : copies.
Lemma RequestSynth_tagged (v : RequestSynth) : RequestSynth_ok v -> tagged RequestSynth_MarshalBinary
    query.QueryTypeSynth v.
Proof. wire_tagged. Qed.
#[export] Hint Resolve RequestSynth_tagged : wire.

Record RequestTxHistory := { RequestTxHistory_Account : option URL; RequestTxHistory_Start : Z;
  RequestTxHistory_Limit : Z; RequestTxHistory_Scratch : bool; RequestTxHistory_extraData : bytes }.
Definition new_RequestTxHistory : RequestTxHistory := Build_RequestTxHistory None 0 0 false [].

Definition RequestTxHistory_Copy (v : RequestTxHistory) : RequestTxHistory := Build_RequestTxHistory
  (RequestTxHistory_Account v) (RequestTxHistory_Start v) (RequestTxHistory_Limit v) (RequestTxHistory_Scratch v)
  [].

Definition RequestTxHistory_MarshalBinary (v : RequestTxHistory) : res bytes :=
  finish (RequestTxHistory_extraData v) (
    NewWriter
    |> WriteEnum 1 query.QueryTypeTxHistory
    |> when (negb (is_nil (RequestTxHistory_Account v))) (writeUrl 2 (RequestTxHistory_Account v))
    |> when (negb (RequestTxHistory_Start v =? 0)) (WriteUint 3 (RequestTxHistory_Start v))
    |> when (negb (RequestTxHistory_Limit v =? 0)) (WriteUint 4 (RequestTxHistory_Limit v))
    |> when (negb (negb (RequestTxHistory_Scratch v))) (WriteBool 5 (RequestTxHistory_Scratch v))).

Definition RequestTxHistory_UnmarshalBinary (v : RequestTxHistory) (data : bytes) : res RequestTxHistory :=
  let reader := NewReader data in
  let '(vType, reader) := ReadEnum query.QueryType_SetEnumValue 1 reader in
  if negb (query.QueryTypeTxHistory =? default 0 vType) then errorf "field Type: not equal" else
  let '(xAccount, reader) := readUrl 2 reader in
  let '(xStart, reader) := ReadUint 3 reader in
  let '(xLimit, reader) := ReadUint 4 reader in
  let '(xScratch, reader) := ReadBool 5 reader in
  finish_read (Build_RequestTxHistory (default (RequestTxHistory_Account v) xAccount) (default
    (RequestTxHistory_Start v) xStart) (default (RequestTxHistory_Limit v) xLimit) (default
    (RequestTxHistory_Scratch v) xScratch)) reader.

Definition RequestTxHistory_ok (v : RequestTxHistory) : Prop :=
  url_ok (RequestTxHistory_Account v) /\ is_u64 (RequestTxHistory_Start v) /\ is_u64 (RequestTxHistory_Limit v) /\
  RequestTxHistory_extraData v = [].

Lemma RequestTxHistory_survives (v : RequestTxHistory) :
  RequestTxHistory_ok v -> survives RequestTxHistory_MarshalBinary (RequestTxHistory_UnmarshalBinary
    new_RequestTxHistory) v.
Proof. wire_roundtrip. Qed.
#[export] Hint Resolve RequestTxHistory_survives : wire.
Lemma RequestTxHistory_copied (v : RequestTxHistory) : RequestTxHistory_ok v -> RequestTxHistory_Copy v = v.
Proof. wire_copy. Qed.
#[export] Hint Resolve RequestTxHistory_copied : copies.
Lemma RequestTxHistory_tagged (v : RequestTxHistory) : RequestTxHistory_ok v -> tagged
    RequestTxHistory_MarshalBinary query.QueryTypeTxHistory v.
Proof. wire_tagged. Qed.
#[export] Hint Resolve RequestTxHistory_tagged : wire.

Record ResponseAccount (TB : Type) := { ResponseAccount_Account : option (Account TB); ResponseAccount_ChainState :
  list ChainState; ResponseAccount_Receipt : option GeneralReceipt; ResponseAccount_extraData : bytes }.
Arguments Build_ResponseAccount {TB}.
Arguments ResponseAccount_Account {TB}.
Arguments ResponseAccount_ChainState {TB}.
Arguments ResponseAccount_Receipt {TB}.
Arguments ResponseAccount_extraData {TB}.
Definition new_ResponseAccount {TB : Type} : ResponseAccount TB := Build_ResponseAccount None [] None [].

Definition ResponseAccount_Copy `{Union TB} (v : ResponseAccount TB) : ResponseAccount TB := Build_ResponseAccount
  (Account_Copy <$> ResponseAccount_Account v) (ChainState_Copy <$> ResponseAccount_ChainState v)
  (GeneralReceipt_Copy <$> ResponseAccount_Receipt v) [].

Definition ResponseAccount_MarshalBinary `{Union TB} (v : ResponseAccount TB) : res bytes :=
  finish (ResponseAccount_extraData v) (
    NewWriter
    |> when (negb (is_nil (ResponseAccount_Account v))) (deref (ResponseAccount_Account v) (fun v => writeValue 1
       (Account_MarshalBinary v)))
    |> when (negb (is_empty (ResponseAccount_ChainState v))) (range (ResponseAccount_ChainState v) (fun v =>
       writeValue 2 (ChainState_MarshalBinary v)))
    |> when (negb (is_nil (ResponseAccount_Receipt v))) (deref (ResponseAccount_Receipt v) (fun v => writeValue 3
       (GeneralReceipt_MarshalBinary v)))).

Definition ResponseAccount_UnmarshalBinary `{Union TB} (v : ResponseAccount TB) (data : bytes) : res
    (ResponseAccount TB) :=
  let reader := NewReader data in
  let '(xAccount, reader) := readValue 1 UnmarshalAccount reader in
  let '(xChainState, reader) := read_list (readValue 2 (ChainState_UnmarshalBinary new_ChainState)) reader in
  let '(xReceipt, reader) := readValue 3 (GeneralReceipt_UnmarshalBinary new_GeneralReceipt) reader in
  finish_read (Build_ResponseAccount (or_else xAccount (ResponseAccount_Account v)) (ResponseAccount_ChainState v ++
    xChainState) (or_else xReceipt (ResponseAccount_Receipt v))) reader.

Definition ResponseAccount_ok `{Union TB} (v : ResponseAccount TB) : Prop :=
  (forall x, ResponseAccount_Account v = Some x -> Account_ok x) /\ (forall x, ResponseAccount_Account v = Some x ->
  fits (Account_MarshalBinary x)) /\ (forall x, x ∈ ResponseAccount_ChainState v -> ChainState_ok x) /\ (forall x, x
  ∈ ResponseAccount_ChainState v -> fits (ChainState_MarshalBinary x)) /\ (forall x, ResponseAccount_Receipt v =
  Some x -> GeneralReceipt_ok x) /\ (forall x, ResponseAccount_Receipt v = Some x -> fits
  (GeneralReceipt_MarshalBinary x)) /\ ResponseAccount_extraData v = [].

Lemma ResponseAccount_survives `{Union TB} `{!UnionLaws TB} (v : ResponseAccount TB) :
  ResponseAccount_ok v -> survives ResponseAccount_MarshalBinary (ResponseAccount_UnmarshalBinary
    new_ResponseAccount) v.
Proof. wire_roundtrip. Qed.
#[export] Hint Resolve ResponseAccount_survives : wire.
Lemma ResponseAccount_copied `{Union TB} `{!UnionLaws TB} (v : ResponseAccount TB) : ResponseAccount_ok v ->
    ResponseAccount_Copy v = v.
Proof. wire_copy. Qed.
#[export] Hint Resolve ResponseAccount_copied : copies.

Record TxReceipt := { TxReceipt_GeneralReceipt : GeneralReceipt; TxReceipt_Account : option URL; TxReceipt_Chain :
  string; TxReceipt_extraData : bytes }.
Definition new_TxReceipt : TxReceipt := Build_TxReceipt new_GeneralReceipt None "" [].

Definition TxReceipt_Copy (v : TxReceipt) : TxReceipt := Build_TxReceipt (GeneralReceipt_Copy
  (TxReceipt_GeneralReceipt v)) (TxReceipt_Account v) (TxReceipt_Chain v) [].

Definition TxReceipt_MarshalBinary (v : TxReceipt) : res bytes :=
  finish (TxReceipt_extraData v) (
    NewWriter
    |> writeValue 1 (GeneralReceipt_MarshalBinary (TxReceipt_GeneralReceipt v))
    |> when (negb (is_nil (TxReceipt_Account v))) (writeUrl 2 (TxReceipt_Account v))
    |> when (negb (String.eqb (TxReceipt_Chain v) "")) (WriteString 3 (TxReceipt_Chain v))).

Definition TxReceipt_UnmarshalBinary (v : TxReceipt) (data : bytes) : res TxReceipt :=
  let reader := NewReader data in
  let '(xGeneralReceipt, reader) := readValue 1 (GeneralReceipt_UnmarshalBinary (TxReceipt_GeneralReceipt v)) reader
    in
  let '(xAccount, reader) := readUrl 2 reader in
  let '(xChain, reader) := ReadString 3 reader in
  finish_read (Build_TxReceipt (default (TxReceipt_GeneralReceipt v) xGeneralReceipt) (default (TxReceipt_Account v)
    xAccount) (default (TxReceipt_Chain v) xChain)) reader.

Definition TxReceipt_ok (v : TxReceipt) : Prop :=
  GeneralReceipt_ok (TxReceipt_GeneralReceipt v) /\ fits (GeneralReceipt_MarshalBinary (TxReceipt_GeneralReceipt v))
  /\ url_ok (TxReceipt_Account v) /\ string_ok (TxReceipt_Chain v) /\ TxReceipt_extraData v = [].

Lemma TxReceipt_survives (v : TxReceipt) :
  TxReceipt_ok v -> survives TxReceipt_MarshalBinary (TxReceipt_UnmarshalBinary new_TxReceipt) v.
Proof. wire_roundtrip. Qed.
#[export] Hint Resolve TxReceipt_survives : wire.
Lemma TxReceipt_copied (v : TxReceipt) : TxReceipt_ok v -> TxReceipt_Copy v = v.
Proof. wire_copy. Qed.
#[export] Hint Resolve TxReceipt_copied : copies.

Record query_SignatureSet (SG : Type) (TB : Type) := { query_SignatureSet_Account : option (Account TB);
  query_SignatureSet_Signatures : list SG; query_SignatureSet_extraData : bytes }.
Arguments Build_query_SignatureSet {SG} {TB}.
Arguments query_SignatureSet_Account {SG} {TB}.
Arguments query_SignatureSet_Signatures {SG} {TB}.
Arguments query_SignatureSet_extraData {SG} {TB}.
Definition new_query_SignatureSet {SG : Type} {TB : Type} : query_SignatureSet SG TB := Build_query_SignatureSet
  None [] [].

Definition query_SignatureSet_Copy `{Union SG, Union TB} (v : query_SignatureSet SG TB) : query_SignatureSet SG TB
  := Build_query_SignatureSet (Account_Copy <$> query_SignatureSet_Account v) (u_Copy <$>
  query_SignatureSet_Signatures v) [].

Definition query_SignatureSet_MarshalBinary `{Union SG, Union TB} (v : query_SignatureSet SG TB) : res bytes :=
  finish (query_SignatureSet_extraData v) (
    NewWriter
    |> when (negb (is_nil (query_SignatureSet_Account v))) (deref (query_SignatureSet_Account v) (fun v =>
       writeValue 1 (Account_MarshalBinary v)))
    |> when (negb (is_empty (query_SignatureSet_Signatures v))) (range (query_SignatureSet_Signatures v) (fun v =>
       writeValue 2 (u_Marshal v)))).

Definition query_SignatureSet_UnmarshalBinary `{Union SG, Union TB} (v : query_SignatureSet SG TB) (data : bytes) :
    res (query_SignatureSet SG TB) :=
  let reader := NewReader data in
  let '(xAccount, reader) := readValue 1 UnmarshalAccount reader in
  let '(xSignatures, reader) := read_list (readValue 2 u_Unmarshal) reader in
  finish_read (Build_query_SignatureSet (or_else xAccount (query_SignatureSet_Account v))
    (query_SignatureSet_Signatures v ++ xSignatures)) reader.

Definition query_SignatureSet_ok `{Union SG, Union TB} (v : query_SignatureSet SG TB) : Prop :=
  (forall x, query_SignatureSet_Account v = Some x -> Account_ok x) /\ (forall x, query_SignatureSet_Account v =
  Some x -> fits (Account_MarshalBinary x)) /\ (forall x, x ∈ query_SignatureSet_Signatures v -> u_ok x) /\ (forall
  x, x ∈ query_SignatureSet_Signatures v -> fits (u_Marshal x)) /\ query_SignatureSet_extraData v = [].

Lemma query_SignatureSet_survives `{Union SG, Union TB} `{!UnionLaws SG, !UnionLaws TB} (v : query_SignatureSet SG
    TB) :
  query_SignatureSet_ok v -> survives query_SignatureSet_MarshalBinary (query_SignatureSet_UnmarshalBinary
    new_query_SignatureSet) v.
Proof. wire_roundtrip. Qed.
#[export] Hint Resolve query_SignatureSet_survives : wire.
Lemma query_SignatureSet_copied `{Union SG, Union TB} `{!UnionLaws SG, !UnionLaws TB} (v : query_SignatureSet SG TB)
    : query_SignatureSet_ok v -> query_SignatureSet_Copy v = v.
Proof. wire_copy. Qed.
#[export] Hint Resolve query_SignatureSet_copied : copies.

Record ResponseByTxId (SG : Type) (TB : Type) (ER : Type) := { ResponseByTxId_TxId : option TxID;
  ResponseByTxId_Envelope : option (Envelope SG TB); ResponseByTxId_Status : option (TransactionStatus TB ER);
  ResponseByTxId_Produced : list (option TxID); ResponseByTxId_Height : Z; ResponseByTxId_ChainState : list bytes;
  ResponseByTxId_Receipts : list TxReceipt; ResponseByTxId_Signers : list (query_SignatureSet SG TB);
  ResponseByTxId_extraData : bytes }.
Arguments Build_ResponseByTxId {SG} {TB} {ER}.
Arguments ResponseByTxId_TxId {SG} {TB} {ER}.
Arguments ResponseByTxId_Envelope {SG} {TB} {ER}.
Arguments ResponseByTxId_Status {SG} {TB} {ER}.
Arguments ResponseByTxId_Produced {SG} {TB} {ER}.
Arguments ResponseByTxId_Height {SG} {TB} {ER}.
Arguments ResponseByTxId_ChainState {SG} {TB} {ER}.
Arguments ResponseByTxId_Receipts {SG} {TB} {ER}.
Arguments ResponseByTxId_Signers {SG} {TB} {ER}.
Arguments ResponseByTxId_extraData {SG} {TB} {ER}.
Definition new_ResponseByTxId {SG : Type} {TB : Type} {ER : Type} : ResponseByTxId SG TB ER := Build_ResponseByTxId
  None None None [] 0 [] [] [] [].

Definition ResponseByTxId_Copy `{Union SG, Union TB, Union ER} (v : ResponseByTxId SG TB ER) : ResponseByTxId SG TB
  ER := Build_ResponseByTxId (ResponseByTxId_TxId v) (Envelope_Copy <$> ResponseByTxId_Envelope v)
  (TransactionStatus_Copy <$> ResponseByTxId_Status v) (ResponseByTxId_Produced v) (ResponseByTxId_Height v)
  (ResponseByTxId_ChainState v) (TxReceipt_Copy <$> ResponseByTxId_Receipts v) (query_SignatureSet_Copy <$>
  ResponseByTxId_Signers v) [].

Definition ResponseByTxId_MarshalBinary `{Union SG, Union TB, Union ER} (v : ResponseByTxId SG TB ER) : res bytes :=
  finish (ResponseByTxId_extraData v) (
    NewWriter
    |> when (negb (is_nil (ResponseByTxId_TxId v))) (writeTxid 1 (ResponseByTxId_TxId v))
    |> when (negb (is_nil (ResponseByTxId_Envelope v))) (deref (ResponseByTxId_Envelope v) (fun v => writeValue 2
       (Envelope_MarshalBinary v)))
    |> when (negb (is_nil (ResponseByTxId_Status v))) (deref (ResponseByTxId_Status v) (fun v => writeValue 3
       (TransactionStatus_MarshalBinary v)))
    |> when (negb (is_empty (ResponseByTxId_Produced v))) (range (ResponseByTxId_Produced v) (fun v => writeTxid 4
       v))
    |> WriteUint 5 (ResponseByTxId_Height v)
    |> when (negb (is_empty (ResponseByTxId_ChainState v))) (range (ResponseByTxId_ChainState v) (fun v =>
       WriteBytes 6 v))
    |> when (negb (is_empty (ResponseByTxId_Receipts v))) (range (ResponseByTxId_Receipts v) (fun v => writeValue 7
       (TxReceipt_MarshalBinary v)))
    |> when (negb (is_empty (ResponseByTxId_Signers v))) (range (ResponseByTxId_Signers v) (fun v => writeValue 8
       (query_SignatureSet_MarshalBinary v)))).

Definition ResponseByTxId_UnmarshalBinary `{Union SG, Union TB, Union ER} (v : ResponseByTxId SG TB ER) (data :
    bytes) : res (ResponseByTxId SG TB ER) :=
  let reader := NewReader data in
  let '(xTxId, reader) := readTxid 1 reader in
  let '(xEnvelope, reader) := readValue 2 (Envelope_UnmarshalBinary new_Envelope) reader in
  let '(xStatus, reader) := readValue 3 (TransactionStatus_UnmarshalBinary new_TransactionStatus) reader in
  let '(xProduced, reader) := read_list (readTxid 4) reader in
  let '(xHeight, reader) := ReadUint 5 reader in
  let '(xChainState, reader) := read_list (ReadBytes 6) reader in
  let '(xReceipts, reader) := read_list (readValue 7 (TxReceipt_UnmarshalBinary new_TxReceipt)) reader in
  let '(xSigners, reader) := read_list (readValue 8 (query_SignatureSet_UnmarshalBinary new_query_SignatureSet))
    reader in
  finish_read (Build_ResponseByTxId (default (ResponseByTxId_TxId v) xTxId) (or_else xEnvelope
    (ResponseByTxId_Envelope v)) (or_else xStatus (ResponseByTxId_Status v)) (ResponseByTxId_Produced v ++
    xProduced) (default (ResponseByTxId_Height v) xHeight) (ResponseByTxId_ChainState v ++ xChainState)
    (ResponseByTxId_Receipts v ++ xReceipts) (ResponseByTxId_Signers v ++ xSigners)) reader.

Definition ResponseByTxId_ok `{Union SG, Union TB, Union ER} (v : ResponseByTxId SG TB ER) : Prop :=
  txid_ok (ResponseByTxId_TxId v) /\ (forall x, ResponseByTxId_Envelope v = Some x -> Envelope_ok x) /\ (forall x,
  ResponseByTxId_Envelope v = Some x -> fits (Envelope_MarshalBinary x)) /\ (forall x, ResponseByTxId_Status v =
  Some x -> TransactionStatus_ok x) /\ (forall x, ResponseByTxId_Status v = Some x -> fits
  (TransactionStatus_MarshalBinary x)) /\ (forall x, x ∈ ResponseByTxId_Produced v -> txid_ok x) /\ is_u64
  (ResponseByTxId_Height v) /\ (forall x, x ∈ ResponseByTxId_ChainState v -> bytes_ok x) /\ (forall x, x ∈
  ResponseByTxId_Receipts v -> TxReceipt_ok x) /\ (forall x, x ∈ ResponseByTxId_Receipts v -> fits
  (TxReceipt_MarshalBinary x)) /\ (forall x, x ∈ ResponseByTxId_Signers v -> query_SignatureSet_ok x) /\ (forall x,
  x ∈ ResponseByTxId_Signers v -> fits (query_SignatureSet_MarshalBinary x)) /\ ResponseByTxId_extraData v = [].

Lemma ResponseByTxId_survives `{Union SG, Union TB, Union ER} `{!UnionLaws SG, !UnionLaws TB, !UnionLaws ER} (v :
    ResponseByTxId SG TB ER) :
  ResponseByTxId_ok v -> survives ResponseByTxId_MarshalBinary (ResponseByTxId_UnmarshalBinary new_ResponseByTxId)
    v.
Proof. wire_roundtrip. Qed.
#[export] Hint Resolve ResponseByTxId_survives : wire.
Lemma ResponseByTxId_copied `{Union SG, Union TB, Union ER} `{!UnionLaws SG, !UnionLaws TB, !UnionLaws ER} (v :
    ResponseByTxId SG TB ER) : ResponseByTxId_ok v -> ResponseByTxId_Copy v = v.
Proof. wire_copy. Qed.
#[export] Hint Resolve ResponseByTxId_copied : copies.

Record ResponseChainEntry := { ResponseChainEntry_Type : Z; ResponseChainEntry_Height : Z; ResponseChainEntry_Entry
  : bytes; ResponseChainEntry_State : list bytes; ResponseChainEntry_Receipt : option GeneralReceipt;
  ResponseChainEntry_extraData : bytes }.
Definition new_ResponseChainEntry : ResponseChainEntry := Build_ResponseChainEntry 0 0 [] [] None [].

Definition ResponseChainEntry_Copy (v : ResponseChainEntry) : ResponseChainEntry := Build_ResponseChainEntry
  (ResponseChainEntry_Type v) (ResponseChainEntry_Height v) (ResponseChainEntry_Entry v) (ResponseChainEntry_State
  v) (GeneralReceipt_Copy <$> ResponseChainEntry_Receipt v) [].

Definition ResponseChainEntry_MarshalBinary (v : ResponseChainEntry) : res bytes :=
  finish (ResponseChainEntry_extraData v) (
    NewWriter
    |> when (negb (ResponseChainEntry_Type v =? 0)) (WriteEnum 1 (ResponseChainEntry_Type v))
    |> WriteUint 2 (ResponseChainEntry_Height v)
    |> when (negb (is_empty (ResponseChainEntry_Entry v))) (WriteBytes 3 (ResponseChainEntry_Entry v))
    |> when (negb (is_empty (ResponseChainEntry_State v))) (range (ResponseChainEntry_State v) (fun v => WriteBytes
       4 v))
    |> when (negb (is_nil (ResponseChainEntry_Receipt v))) (deref (ResponseChainEntry_Receipt v) (fun v =>
       writeValue 5 (GeneralReceipt_MarshalBinary v)))).

Definition ResponseChainEntry_UnmarshalBinary (v : ResponseChainEntry) (data : bytes) : res ResponseChainEntry :=
  let reader := NewReader data in
  let '(xType, reader) := ReadEnum managed.ChainType_SetEnumValue 1 reader in
  let '(xHeight, reader) := ReadUint 2 reader in
  let '(xEntry, reader) := ReadBytes 3 reader in
  let '(xState, reader) := read_list (ReadBytes 4) reader in
  let '(xReceipt, reader) := readValue 5 (GeneralReceipt_UnmarshalBinary new_GeneralReceipt) reader in
  finish_read (Build_ResponseChainEntry (default (ResponseChainEntry_Type v) xType) (default
    (ResponseChainEntry_Height v) xHeight) (default (ResponseChainEntry_Entry v) xEntry) (ResponseChainEntry_State v
    ++ xState) (or_else xReceipt (ResponseChainEntry_Receipt v))) reader.

Definition ResponseChainEntry_ok (v : ResponseChainEntry) : Prop :=
  enum_or_zero managed.ChainType_SetEnumValue (ResponseChainEntry_Type v) /\ is_u64 (ResponseChainEntry_Height v) /\
  bytes_ok (ResponseChainEntry_Entry v) /\ (forall x, x ∈ ResponseChainEntry_State v -> bytes_ok x) /\ (forall x,
  ResponseChainEntry_Receipt v = Some x -> GeneralReceipt_ok x) /\ (forall x, ResponseChainEntry_Receipt v = Some x
  -> fits (GeneralReceipt_MarshalBinary x)) /\ ResponseChainEntry_extraData v = [].

Lemma ResponseChainEntry_survives (v : ResponseChainEntry) :
  ResponseChainEntry_ok v -> survives ResponseChainEntry_MarshalBinary (ResponseChainEntry_UnmarshalBinary
    new_ResponseChainEntry) v.
Proof. wire_roundtrip. Qed.
#[export] Hint Resolve ResponseChainEntry_survives : wire.
Lemma ResponseChainEntry_copied (v : ResponseChainEntry) : ResponseChainEntry_ok v -> ResponseChainEntry_Copy v = v.
Proof. wire_copy. Qed.
#[export] Hint Resolve ResponseChainEntry_copied : copies.

Record ResponseChainRange := { ResponseChainRange_Type : Z; ResponseChainRange_Start : Z; ResponseChainRange_End :
  Z; ResponseChainRange_Total : Z; ResponseChainRange_Entries : list bytes; ResponseChainRange_extraData : bytes }.
Definition new_ResponseChainRange : ResponseChainRange := Build_ResponseChainRange 0 0 0 0 [] [].

Definition ResponseChainRange_Copy (v : ResponseChainRange) : ResponseChainRange := Build_ResponseChainRange
  (ResponseChainRange_Type v) (ResponseChainRange_Start v) (ResponseChainRange_End v) (ResponseChainRange_Total v)
  (ResponseChainRange_Entries v) [].

Definition ResponseChainRange_MarshalBinary (v : ResponseChainRange) : res bytes :=
  finish (ResponseChainRange_extraData v) (
    NewWriter
    |> when (negb (ResponseChainRange_Type v =? 0)) (WriteEnum 1 (ResponseChainRange_Type v))
    |> WriteInt 2 (ResponseChainRange_Start v)
    |> WriteInt 3 (ResponseChainRange_End v)
    |> WriteInt 4 (ResponseChainRange_Total v)
    |> when (negb (is_empty (ResponseChainRange_Entries v))) (range (ResponseChainRange_Entries v) (fun v =>
       WriteBytes 5 v))).

Definition ResponseChainRange_UnmarshalBinary (v : ResponseChainRange) (data : bytes) : res ResponseChainRange :=
  let reader := NewReader data in
  let '(xType, reader) := ReadEnum managed.ChainType_SetEnumValue 1 reader in
  let '(xStart, reader) := ReadInt 2 reader in
  let '(xEnd, reader) := ReadInt 3 reader in
  let '(xTotal, reader) := ReadInt 4 reader in
  let '(xEntries, reader) := read_list (ReadBytes 5) reader in
  finish_read (Build_ResponseChainRange (default (ResponseChainRange_Type v) xType) (default
    (ResponseChainRange_Start v) xStart) (default (ResponseChainRange_End v) xEnd) (default
    (ResponseChainRange_Total v) xTotal) (ResponseChainRange_Entries v ++ xEntries)) reader.

Definition ResponseChainRange_ok (v : ResponseChainRange) : Prop :=
  enum_or_zero managed.ChainType_SetEnumValue (ResponseChainRange_Type v) /\ is_i64 (ResponseChainRange_Start v) /\
  is_i64 (ResponseChainRange_End v) /\ is_i64 (ResponseChainRange_Total v) /\ (forall x, x ∈
  ResponseChainRange_Entries v -> bytes_ok x) /\ ResponseChainRange_extraData v = [].

Lemma ResponseChainRange_survives (v : ResponseChainRange) :
  ResponseChainRange_ok v -> survives ResponseChainRange_MarshalBinary (ResponseChainRange_UnmarshalBinary
    new_ResponseChainRange) v.
Proof. wire_roundtrip. Qed.
#[export] Hint Resolve ResponseChainRange_survives : wire.
Lemma ResponseChainRange_copied (v : ResponseChainRange) : ResponseChainRange_ok v -> ResponseChainRange_Copy v = v.
Proof. wire_copy. Qed.
#[export] Hint Resolve ResponseChainRange_copied : copies.

Record ResponseDataEntry := { ResponseDataEntry_EntryHash : bytes; ResponseDataEntry_Entry : option DataEntry;
  ResponseDataEntry_extraData : bytes }.
Definition new_ResponseDataEntry : ResponseDataEntry := Build_ResponseDataEntry hash_zero None [].

Definition ResponseDataEntry_Copy (v : ResponseDataEntry) : ResponseDataEntry := Build_ResponseDataEntry
  (ResponseDataEntry_EntryHash v) (DataEntry_Copy <$> ResponseDataEntry_Entry v) [].

Definition ResponseDataEntry_MarshalBinary (v : ResponseDataEntry) : res bytes :=
  finish (ResponseDataEntry_extraData v) (
    NewWriter
    |> when (negb (bytes_eqb (ResponseDataEntry_EntryHash v) hash_zero)) (WriteHash 1 (ResponseDataEntry_EntryHash
       v))
    |> when (negb (is_nil (ResponseDataEntry_Entry v))) (deref (ResponseDataEntry_Entry v) (fun v => writeValue 2
       (DataEntry_MarshalBinary v)))).

Definition ResponseDataEntry_UnmarshalBinary (v : ResponseDataEntry) (data : bytes) : res ResponseDataEntry :=
  let reader := NewReader data in
  let '(xEntryHash, reader) := ReadHash 1 reader in
  let '(xEntry, reader) := readValue 2 UnmarshalDataEntry reader in
  finish_read (Build_ResponseDataEntry (default (ResponseDataEntry_EntryHash v) xEntryHash) (or_else xEntry
    (ResponseDataEntry_Entry v))) reader.

Definition ResponseDataEntry_ok (v : ResponseDataEntry) : Prop :=
  hash_ok (ResponseDataEntry_EntryHash v) /\ (forall x, ResponseDataEntry_Entry v = Some x -> DataEntry_ok x) /\
  (forall x, ResponseDataEntry_Entry v = Some x -> fits (DataEntry_MarshalBinary x)) /\ ResponseDataEntry_extraData
  v = [].

Lemma ResponseDataEntry_survives (v : ResponseDataEntry) :
  ResponseDataEntry_ok v -> survives ResponseDataEntry_MarshalBinary (ResponseDataEntry_UnmarshalBinary
    new_ResponseDataEntry) v.
Proof. wire_roundtrip. Qed.
#[export] Hint Resolve ResponseDataEntry_survives : wire.
Lemma ResponseDataEntry_copied (v : ResponseDataEntry) : ResponseDataEntry_ok v -> ResponseDataEntry_Copy v = v.
Proof. wire_copy. Qed.
#[export] Hint Resolve ResponseDataEntry_copied : copies.

Record ResponseDataEntrySet := { ResponseDataEntrySet_DataEntries : list ResponseDataEntry;
  ResponseDataEntrySet_Total : Z; ResponseDataEntrySet_extraData : bytes }.
Definition new_ResponseDataEntrySet : ResponseDataEntrySet := Build_ResponseDataEntrySet [] 0 [].

Definition ResponseDataEntrySet_Copy (v : ResponseDataEntrySet) : ResponseDataEntrySet := Build_ResponseDataEntrySet
  (ResponseDataEntry_Copy <$> ResponseDataEntrySet_DataEntries v) (ResponseDataEntrySet_Total v) [].

Definition ResponseDataEntrySet_MarshalBinary (v : ResponseDataEntrySet) : res bytes :=
  finish (ResponseDataEntrySet_extraData v) (
    NewWriter
    |> when (negb (is_empty (ResponseDataEntrySet_DataEntries v))) (range (ResponseDataEntrySet_DataEntries v) (fun
       v => writeValue 1 (ResponseDataEntry_MarshalBinary v)))
    |> when (negb (ResponseDataEntrySet_Total v =? 0)) (WriteUint 2 (ResponseDataEntrySet_Total v))).

Definition ResponseDataEntrySet_UnmarshalBinary (v : ResponseDataEntrySet) (data : bytes) : res ResponseDataEntrySet
    :=
  let reader := NewReader data in
  let '(xDataEntries, reader) := read_list (readValue 1 (ResponseDataEntry_UnmarshalBinary new_ResponseDataEntry))
    reader in
  let '(xTotal, reader) := ReadUint 2 reader in
  finish_read (Build_ResponseDataEntrySet (ResponseDataEntrySet_DataEntries v ++ xDataEntries) (default
    (ResponseDataEntrySet_Total v) xTotal)) reader.

Definition ResponseDataEntrySet_ok (v : ResponseDataEntrySet) : Prop :=
  (forall x, x ∈ ResponseDataEntrySet_DataEntries v -> ResponseDataEntry_ok x) /\ (forall x, x ∈
  ResponseDataEntrySet_DataEntries v -> fits (ResponseDataEntry_MarshalBinary x)) /\ is_u64
  (ResponseDataEntrySet_Total v) /\ ResponseDataEntrySet_extraData v = [].

Lemma ResponseDataEntrySet_survives (v : ResponseDataEntrySet) :
  ResponseDataEntrySet_ok v -> survives ResponseDataEntrySet_MarshalBinary (ResponseDataEntrySet_UnmarshalBinary
    new_ResponseDataEntrySet) v.
Proof. wire_roundtrip. Qed.
#[export] Hint Resolve ResponseDataEntrySet_survives : wire.
Lemma ResponseDataEntrySet_copied (v : ResponseDataEntrySet) : ResponseDataEntrySet_ok v ->
    ResponseDataEntrySet_Copy v = v.
Proof. wire_copy. Qed.
#[export] Hint Resolve ResponseDataEntrySet_copied : copies.

Record ResponseKeyPageIndex := { ResponseKeyPageIndex_Authority : option URL; ResponseKeyPageIndex_Signer : option
  URL; ResponseKeyPageIndex_Index : Z; ResponseKeyPageIndex_extraData : bytes }.
Definition new_ResponseKeyPageIndex : ResponseKeyPageIndex := Build_ResponseKeyPageIndex None None 0 [].

Definition ResponseKeyPageIndex_Copy (v : ResponseKeyPageIndex) : ResponseKeyPageIndex := Build_ResponseKeyPageIndex
  (ResponseKeyPageIndex_Authority v) (ResponseKeyPageIndex_Signer v) (ResponseKeyPageIndex_Index v) [].

Definition ResponseKeyPageIndex_MarshalBinary (v : ResponseKeyPageIndex) : res bytes :=
  finish (ResponseKeyPageIndex_extraData v) (
    NewWriter
    |> when (negb (is_nil (ResponseKeyPageIndex_Authority v))) (writeUrl 1 (ResponseKeyPageIndex_Authority v))
    |> when (negb (is_nil (ResponseKeyPageIndex_Signer v))) (writeUrl 2 (ResponseKeyPageIndex_Signer v))
    |> WriteUint 3 (ResponseKeyPageIndex_Index v)).

Definition ResponseKeyPageIndex_UnmarshalBinary (v : ResponseKeyPageIndex) (data : bytes) : res ResponseKeyPageIndex
    :=
  let reader := NewReader data in
  let '(xAuthority, reader) := readUrl 1 reader in
  let '(xSigner, reader) := readUrl 2 reader in
  let '(xIndex, reader) := ReadUint 3 reader in
  finish_read (Build_ResponseKeyPageIndex (default (ResponseKeyPageIndex_Authority v) xAuthority) (default
    (ResponseKeyPageIndex_Signer v) xSigner) (default (ResponseKeyPageIndex_Index v) xIndex)) reader.

Definition ResponseKeyPageIndex_ok (v : ResponseKeyPageIndex) : Prop :=
  url_ok (ResponseKeyPageIndex_Authority v) /\ url_ok (ResponseKeyPageIndex_Signer v) /\ is_u64
  (ResponseKeyPageIndex_Index v) /\ ResponseKeyPageIndex_extraData v = [].

Lemma ResponseKeyPageIndex_survives (v : ResponseKeyPageIndex) :
  ResponseKeyPageIndex_ok v -> survives ResponseKeyPageIndex_MarshalBinary (ResponseKeyPageIndex_UnmarshalBinary
    new_ResponseKeyPageIndex) v.
Proof. wire_roundtrip. Qed.
#[export] Hint Resolve ResponseKeyPageIndex_survives : wire.
Lemma ResponseKeyPageIndex_copied (v : ResponseKeyPageIndex) : ResponseKeyPageIndex_ok v ->
    ResponseKeyPageIndex_Copy v = v.
Proof. wire_copy. Qed.
#[export] Hint Resolve ResponseKeyPageIndex_copied : copies.

Record ResponseMinorEntry (SG : Type) (TB : Type) (ER : Type) := { ResponseMinorEntry_BlockIndex : Z;
  ResponseMinorEntry_BlockTime : option Z; ResponseMinorEntry_TxCount : Z; ResponseMinorEntry_TxIds : list bytes;
  ResponseMinorEntry_Transactions : list (ResponseByTxId SG TB ER); ResponseMinorEntry_extraData : bytes }.
Arguments Build_ResponseMinorEntry {SG} {TB} {ER}.
Arguments ResponseMinorEntry_BlockIndex {SG} {TB} {ER}.
Arguments ResponseMinorEntry_BlockTime {SG} {TB} {ER}.
Arguments ResponseMinorEntry_TxCount {SG} {TB} {ER}.
Arguments ResponseMinorEntry_TxIds {SG} {TB} {ER}.
Arguments ResponseMinorEntry_Transactions {SG} {TB} {ER}.
Arguments ResponseMinorEntry_extraData {SG} {TB} {ER}.
Definition new_ResponseMinorEntry {SG : Type} {TB : Type} {ER : Type} : ResponseMinorEntry SG TB ER :=
  Build_ResponseMinorEntry 0 None 0 [] [] [].

Definition ResponseMinorEntry_Copy `{Union SG, Union TB, Union ER} (v : ResponseMinorEntry SG TB ER) :
  ResponseMinorEntry SG TB ER := Build_ResponseMinorEntry (ResponseMinorEntry_BlockIndex v)
  (ResponseMinorEntry_BlockTime v) (ResponseMinorEntry_TxCount v) (ResponseMinorEntry_TxIds v) (ResponseByTxId_Copy
  <$> ResponseMinorEntry_Transactions v) [].

Definition ResponseMinorEntry_MarshalBinary `{Union SG, Union TB, Union ER} (v : ResponseMinorEntry SG TB ER) : res
    bytes :=
  finish (ResponseMinorEntry_extraData v) (
    NewWriter
    |> when (negb (ResponseMinorEntry_BlockIndex v =? 0)) (WriteUint 1 (ResponseMinorEntry_BlockIndex v))
    |> when (negb (is_nil (ResponseMinorEntry_BlockTime v))) (deref (ResponseMinorEntry_BlockTime v) (fun v =>
       WriteTime 2 v))
    |> when (negb (ResponseMinorEntry_TxCount v =? 0)) (WriteUint 3 (ResponseMinorEntry_TxCount v))
    |> when (negb (is_empty (ResponseMinorEntry_TxIds v))) (range (ResponseMinorEntry_TxIds v) (fun v => WriteBytes
       4 v))
    |> when (negb (is_empty (ResponseMinorEntry_Transactions v))) (range (ResponseMinorEntry_Transactions v) (fun v
       => writeValue 5 (ResponseByTxId_MarshalBinary v)))).

Definition ResponseMinorEntry_UnmarshalBinary `{Union SG, Union TB, Union ER} (v : ResponseMinorEntry SG TB ER)
    (data : bytes) : res (ResponseMinorEntry SG TB ER) :=
  let reader := NewReader data in
  let '(xBlockIndex, reader) := ReadUint 1 reader in
  let '(xBlockTime, reader) := ReadTime 2 reader in
  let '(xTxCount, reader) := ReadUint 3 reader in
  let '(xTxIds, reader) := read_list (ReadBytes 4) reader in
  let '(xTransactions, reader) := read_list (readValue 5 (ResponseByTxId_UnmarshalBinary new_ResponseByTxId)) reader
    in
  finish_read (Build_ResponseMinorEntry (default (ResponseMinorEntry_BlockIndex v) xBlockIndex) (or_else xBlockTime
    (ResponseMinorEntry_BlockTime v)) (default (ResponseMinorEntry_TxCount v) xTxCount) (ResponseMinorEntry_TxIds v
    ++ xTxIds) (ResponseMinorEntry_Transactions v ++ xTransactions)) reader.

Definition ResponseMinorEntry_ok `{Union SG, Union TB, Union ER} (v : ResponseMinorEntry SG TB ER) : Prop :=
  is_u64 (ResponseMinorEntry_BlockIndex v) /\ (forall x, ResponseMinorEntry_BlockTime v = Some x -> time_ok x) /\
  is_u64 (ResponseMinorEntry_TxCount v) /\ (forall x, x ∈ ResponseMinorEntry_TxIds v -> bytes_ok x) /\ (forall x, x
  ∈ ResponseMinorEntry_Transactions v -> ResponseByTxId_ok x) /\ (forall x, x ∈ ResponseMinorEntry_Transactions v ->
  fits (ResponseByTxId_MarshalBinary x)) /\ ResponseMinorEntry_extraData v = [].

Lemma ResponseMinorEntry_survives `{Union SG, Union TB, Union ER} `{!UnionLaws SG, !UnionLaws TB, !UnionLaws ER} (v
    : ResponseMinorEntry SG TB ER) :
  ResponseMinorEntry_ok v -> survives ResponseMinorEntry_MarshalBinary (ResponseMinorEntry_UnmarshalBinary
    new_ResponseMinorEntry) v.
Proof. wire_roundtrip. Qed.
#[export] Hint Resolve ResponseMinorEntry_survives : wire.
Lemma ResponseMinorEntry_copied `{Union SG, Union TB, Union ER} `{!UnionLaws SG, !UnionLaws TB, !UnionLaws ER} (v :
    ResponseMinorEntry SG TB ER) : ResponseMinorEntry_ok v -> ResponseMinorEntry_Copy v = v.
Proof. wire_copy. Qed.
#[export] Hint Resolve ResponseMinorEntry_copied : copies.

Record ResponseMajorEntry (SG : Type) (TB : Type) (ER : Type) := { ResponseMajorEntry_MajorBlockIndex : Z;
  ResponseMajorEntry_MajorBlockTime : option Z; ResponseMajorEntry_MinorBlocks : list (ResponseMinorEntry SG TB ER);
  ResponseMajorEntry_extraData : bytes }.
Arguments Build_ResponseMajorEntry {SG} {TB} {ER}.
Arguments ResponseMajorEntry_MajorBlockIndex {SG} {TB} {ER}.
Arguments ResponseMajorEntry_MajorBlockTime {SG} {TB} {ER}.
Arguments ResponseMajorEntry_MinorBlocks {SG} {TB} {ER}.
Arguments ResponseMajorEntry_extraData {SG} {TB} {ER}.
Definition new_ResponseMajorEntry {SG : Type} {TB : Type} {ER : Type} : ResponseMajorEntry SG TB ER :=
  Build_ResponseMajorEntry 0 None [] [].

Definition ResponseMajorEntry_Copy `{Union SG, Union TB, Union ER} (v : ResponseMajorEntry SG TB ER) :
  ResponseMajorEntry SG TB ER := Build_ResponseMajorEntry (ResponseMajorEntry_MajorBlockIndex v)
  (ResponseMajorEntry_MajorBlockTime v) (ResponseMinorEntry_Copy <$> ResponseMajorEntry_MinorBlocks v) [].

Definition ResponseMajorEntry_MarshalBinary `{Union SG, Union TB, Union ER} (v : ResponseMajorEntry SG TB ER) : res
    bytes :=
  finish (ResponseMajorEntry_extraData v) (
    NewWriter
    |> when (negb (ResponseMajorEntry_MajorBlockIndex v =? 0)) (WriteUint 1 (ResponseMajorEntry_MajorBlockIndex v))
    |> when (negb (is_nil (ResponseMajorEntry_MajorBlockTime v))) (deref (ResponseMajorEntry_MajorBlockTime v) (fun
       v => WriteTime 2 v))
    |> when (negb (is_empty (ResponseMajorEntry_MinorBlocks v))) (range (ResponseMajorEntry_MinorBlocks v) (fun v =>
       writeValue 3 (ResponseMinorEntry_MarshalBinary v)))).

Definition ResponseMajorEntry_UnmarshalBinary `{Union SG, Union TB, Union ER} (v : ResponseMajorEntry SG TB ER)
    (data : bytes) : res (ResponseMajorEntry SG TB ER) :=
  let reader := NewReader data in
  let '(xMajorBlockIndex, reader) := ReadUint 1 reader in
  let '(xMajorBlockTime, reader) := ReadTime 2 reader in
  let '(xMinorBlocks, reader) := read_list (readValue 3 (ResponseMinorEntry_UnmarshalBinary new_ResponseMinorEntry))
    reader in
  finish_read (Build_ResponseMajorEntry (default (ResponseMajorEntry_MajorBlockIndex v) xMajorBlockIndex) (or_else
    xMajorBlockTime (ResponseMajorEntry_MajorBlockTime v)) (ResponseMajorEntry_MinorBlocks v ++ xMinorBlocks))
    reader.

Definition ResponseMajorEntry_ok `{Union SG, Union TB, Union ER} (v : ResponseMajorEntry SG TB ER) : Prop :=
  is_u64 (ResponseMajorEntry_MajorBlockIndex v) /\ (forall x, ResponseMajorEntry_MajorBlockTime v = Some x ->
  time_ok x) /\ (forall x, x ∈ ResponseMajorEntry_MinorBlocks v -> ResponseMinorEntry_ok x) /\ (forall x, x ∈
  ResponseMajorEntry_MinorBlocks v -> fits (ResponseMinorEntry_MarshalBinary x)) /\ ResponseMajorEntry_extraData v =
  [].

Lemma ResponseMajorEntry_survives `{Union SG, Union TB, Union ER} `{!UnionLaws SG, !UnionLaws TB, !UnionLaws ER} (v
    : ResponseMajorEntry SG TB ER) :
  ResponseMajorEntry_ok v -> survives ResponseMajorEntry_MarshalBinary (ResponseMajorEntry_UnmarshalBinary
    new_ResponseMajorEntry) v.
Proof. wire_roundtrip. Qed.
#[export] Hint Resolve ResponseMajorEntry_survives : wire.
Lemma ResponseMajorEntry_copied `{Union SG, Union TB, Union ER} `{!UnionLaws SG, !UnionLaws TB, !UnionLaws ER} (v :
    ResponseMajorEntry SG TB ER) : ResponseMajorEntry_ok v -> ResponseMajorEntry_Copy v = v.
Proof. wire_copy. Qed.
#[export] Hint Resolve ResponseMajorEntry_copied : copies.

Record ResponseMajorBlocks (SG : Type) (TB : Type) (ER : Type) := { ResponseMajorBlocks_TotalBlocks : Z;
  ResponseMajorBlocks_Entries : list (ResponseMajorEntry SG TB ER); ResponseMajorBlocks_extraData : bytes }.
Arguments Build_ResponseMajorBlocks {SG} {TB} {ER}.
Arguments ResponseMajorBlocks_TotalBlocks {SG} {TB} {ER}.
Arguments ResponseMajorBlocks_Entries {SG} {TB} {ER}.
Arguments ResponseMajorBlocks_extraData {SG} {TB} {ER}.
Definition new_ResponseMajorBlocks {SG : Type} {TB : Type} {ER : Type} : ResponseMajorBlocks SG TB ER :=
  Build_ResponseMajorBlocks 0 [] [].

Definition ResponseMajorBlocks_Copy `{Union SG, Union TB, Union ER} (v : ResponseMajorBlocks SG TB ER) :
  ResponseMajorBlocks SG TB ER := Build_ResponseMajorBlocks (ResponseMajorBlocks_TotalBlocks v)
  (ResponseMajorEntry_Copy <$> ResponseMajorBlocks_Entries v) [].

Definition ResponseMajorBlocks_MarshalBinary `{Union SG, Union TB, Union ER} (v : ResponseMajorBlocks SG TB ER) :
    res bytes :=
  finish (ResponseMajorBlocks_extraData v) (
    NewWriter
    |> WriteUint 1 (ResponseMajorBlocks_TotalBlocks v)
    |> when (negb (is_empty (ResponseMajorBlocks_Entries v))) (range (ResponseMajorBlocks_Entries v) (fun v =>
       writeValue 2 (ResponseMajorEntry_MarshalBinary v)))).

Definition ResponseMajorBlocks_UnmarshalBinary `{Union SG, Union TB, Union ER} (v : ResponseMajorBlocks SG TB ER)
    (data : bytes) : res (ResponseMajorBlocks SG TB ER) :=
  let reader := NewReader data in
  let '(xTotalBlocks, reader) := ReadUint 1 reader in
  let '(xEntries, reader) := read_list (readValue 2 (ResponseMajorEntry_UnmarshalBinary new_ResponseMajorEntry))
    reader in
  finish_read (Build_ResponseMajorBlocks (default (ResponseMajorBlocks_TotalBlocks v) xTotalBlocks)
    (ResponseMajorBlocks_Entries v ++ xEntries)) reader.

Definition ResponseMajorBlocks_ok `{Union SG, Union TB, Union ER} (v : ResponseMajorBlocks SG TB ER) : Prop :=
  is_u64 (ResponseMajorBlocks_TotalBlocks v) /\ (forall x, x ∈ ResponseMajorBlocks_Entries v ->
  ResponseMajorEntry_ok x) /\ (forall x, x ∈ ResponseMajorBlocks_Entries v -> fits (ResponseMajorEntry_MarshalBinary
  x)) /\ ResponseMajorBlocks_extraData v = [].

Lemma ResponseMajorBlocks_survives `{Union SG, Union TB, Union ER} `{!UnionLaws SG, !UnionLaws TB, !UnionLaws ER} (v
    : ResponseMajorBlocks SG TB ER) :
  ResponseMajorBlocks_ok v -> survives ResponseMajorBlocks_MarshalBinary (ResponseMajorBlocks_UnmarshalBinary
    new_ResponseMajorBlocks) v.
Proof. wire_roundtrip. Qed.
#[export] Hint Resolve ResponseMajorBlocks_survives : wire.
Lemma ResponseMajorBlocks_copied `{Union SG, Union TB, Union ER} `{!UnionLaws SG, !UnionLaws TB, !UnionLaws ER} (v :
    ResponseMajorBlocks SG TB ER) : ResponseMajorBlocks_ok v -> ResponseMajorBlocks_Copy v = v.
Proof. wire_copy. Qed.
#[export] Hint Resolve ResponseMajorBlocks_copied : copies.

Record ResponseMinorBlocks (SG : Type) (TB : Type) (ER : Type) := { ResponseMinorBlocks_TotalBlocks : Z;
  ResponseMinorBlocks_Entries : list (ResponseMinorEntry SG TB ER); ResponseMinorBlocks_extraData : bytes }.
Arguments Build_ResponseMinorBlocks {SG} {TB} {ER}.
Arguments ResponseMinorBlocks_TotalBlocks {SG} {TB} {ER}.
Arguments ResponseMinorBlocks_Entries {SG} {TB} {ER}.
Arguments ResponseMinorBlocks_extraData {SG} {TB} {ER}.
Definition new_ResponseMinorBlocks {SG : Type} {TB : Type} {ER : Type} : ResponseMinorBlocks SG TB ER :=
  Build_ResponseMinorBlocks 0 [] [].

Definition ResponseMinorBlocks_Copy `{Union SG, Union TB, Union ER} (v : ResponseMinorBlocks SG TB ER) :
  ResponseMinorBlocks SG TB ER := Build_ResponseMinorBlocks (ResponseMinorBlocks_TotalBlocks v)
  (ResponseMinorEntry_Copy <$> ResponseMinorBlocks_Entries v) [].

Definition ResponseMinorBlocks_MarshalBinary `{Union SG, Union TB, Union ER} (v : ResponseMinorBlocks SG TB ER) :
    res bytes :=
  finish (ResponseMinorBlocks_extraData v) (
    NewWriter
    |> WriteUint 1 (ResponseMinorBlocks_TotalBlocks v)
    |> when (negb (is_empty (ResponseMinorBlocks_Entries v))) (range (ResponseMinorBlocks_Entries v) (fun v =>
       writeValue 2 (ResponseMinorEntry_MarshalBinary v)))).

Definition ResponseMinorBlocks_UnmarshalBinary `{Union SG, Union TB, Union ER} (v : ResponseMinorBlocks SG TB ER)
    (data : bytes) : res (ResponseMinorBlocks SG TB ER) :=
  let reader := NewReader data in
  let '(xTotalBlocks, reader) := ReadUint 1 reader in
  let '(xEntries, reader) := read_list (readValue 2 (ResponseMinorEntry_UnmarshalBinary new_ResponseMinorEntry))
    reader in
  finish_read (Build_ResponseMinorBlocks (default (ResponseMinorBlocks_TotalBlocks v) xTotalBlocks)
    (ResponseMinorBlocks_Entries v ++ xEntries)) reader.

Definition ResponseMinorBlocks_ok `{Union SG, Union TB, Union ER} (v : ResponseMinorBlocks SG TB ER) : Prop :=
  is_u64 (ResponseMinorBlocks_TotalBlocks v) /\ (forall x, x ∈ ResponseMinorBlocks_Entries v ->
  ResponseMinorEntry_ok x) /\ (forall x, x ∈ ResponseMinorBlocks_Entries v -> fits (ResponseMinorEntry_MarshalBinary
  x)) /\ ResponseMinorBlocks_extraData v = [].

Lemma ResponseMinorBlocks_survives `{Union SG, Union TB, Union ER} `{!UnionLaws SG, !UnionLaws TB, !UnionLaws ER} (v
    : ResponseMinorBlocks SG TB ER) :
  ResponseMinorBlocks_ok v -> survives ResponseMinorBlocks_MarshalBinary (ResponseMinorBlocks_UnmarshalBinary
    new_ResponseMinorBlocks) v.
Proof. wire_roundtrip. Qed.
#[export] Hint Resolve ResponseMinorBlocks_survives : wire.
Lemma ResponseMinorBlocks_copied `{Union SG, Union TB, Union ER} `{!UnionLaws SG, !UnionLaws TB, !UnionLaws ER} (v :
    ResponseMinorBlocks SG TB ER) : ResponseMinorBlocks_ok v -> ResponseMinorBlocks_Copy v = v.
Proof. wire_copy. Qed.
#[export] Hint Resolve ResponseMinorBlocks_copied : copies.

Record ResponsePending := { ResponsePending_Transactions : list (option TxID); ResponsePending_extraData : bytes }.
Definition new_ResponsePending : ResponsePending := Build_ResponsePending [] [].

Definition ResponsePending_Copy (v : ResponsePending) : ResponsePending := Build_ResponsePending
  (ResponsePending_Transactions v) [].

Definition ResponsePending_MarshalBinary (v : ResponsePending) : res bytes :=
  finish (ResponsePending_extraData v) (
    NewWriter
    |> when (negb (is_empty (ResponsePending_Transactions v))) (range (ResponsePending_Transactions v) (fun v =>
       writeTxid 1 v))).

Definition ResponsePending_UnmarshalBinary (v : ResponsePending) (data : bytes) : res ResponsePending :=
  let reader := NewReader data in
  let '(xTransactions, reader) := read_list (readTxid 1) reader in
  finish_read (Build_ResponsePending (ResponsePending_Transactions v ++ xTransactions)) reader.

Definition ResponsePending_ok (v : ResponsePending) : Prop :=
  (forall x, x ∈ ResponsePending_Transactions v -> txid_ok x) /\ ResponsePending_extraData v = [].

Lemma ResponsePending_survives (v : ResponsePending) :
  ResponsePending_ok v -> survives ResponsePending_MarshalBinary (ResponsePending_UnmarshalBinary
    new_ResponsePending) v.
Proof. wire_roundtrip. Qed.
#[export] Hint Resolve ResponsePending_survives : wire.
Lemma ResponsePending_copied (v : ResponsePending) : ResponsePending_ok v -> ResponsePending_Copy v = v.
Proof. wire_copy. Qed.
#[export] Hint Resolve ResponsePending_copied : copies.

Record ResponseTxHistory (SG : Type) (TB : Type) (ER : Type) := { ResponseTxHistory_Start : Z; ResponseTxHistory_End
  : Z; ResponseTxHistory_Total : Z; ResponseTxHistory_Transactions : list (ResponseByTxId SG TB ER);
  ResponseTxHistory_extraData : bytes }.
Arguments Build_ResponseTxHistory {SG} {TB} {ER}.
Arguments ResponseTxHistory_Start {SG} {TB} {ER}.
Arguments ResponseTxHistory_End {SG} {TB} {ER}.
Arguments ResponseTxHistory_Total {SG} {TB} {ER}.
Arguments ResponseTxHistory_Transactions {SG} {TB} {ER}.
Arguments ResponseTxHistory_extraData {SG} {TB} {ER}.
Definition new_ResponseTxHistory {SG : Type} {TB : Type} {ER : Type} : ResponseTxHistory SG TB ER :=
  Build_ResponseTxHistory 0 0 0 [] [].

Definition ResponseTxHistory_Copy `{Union SG, Union TB, Union ER} (v : ResponseTxHistory SG TB ER) :
  ResponseTxHistory SG TB ER := Build_ResponseTxHistory (ResponseTxHistory_Start v) (ResponseTxHistory_End v)
  (ResponseTxHistory_Total v) (ResponseByTxId_Copy <$> ResponseTxHistory_Transactions v) [].

Definition ResponseTxHistory_MarshalBinary `{Union SG, Union TB, Union ER} (v : ResponseTxHistory SG TB ER) : res
    bytes :=
  finish (ResponseTxHistory_extraData v) (
    NewWriter
    |> WriteUint 1 (ResponseTxHistory_Start v)
    |> WriteUint 2 (ResponseTxHistory_End v)
    |> WriteUint 3 (ResponseTxHistory_Total v)
    |> when (negb (is_empty (ResponseTxHistory_Transactions v))) (range (ResponseTxHistory_Transactions v) (fun v =>
       writeValue 4 (ResponseByTxId_MarshalBinary v)))).

Definition ResponseTxHistory_UnmarshalBinary `{Union SG, Union TB, Union ER} (v : ResponseTxHistory SG TB ER) (data
    : bytes) : res (ResponseTxHistory SG TB ER) :=
  let reader := NewReader data in
  let '(xStart, reader) := ReadUint 1 reader in
  let '(xEnd, reader) := ReadUint 2 reader in
  let '(xTotal, reader) := ReadUint 3 reader in
  let '(xTransactions, reader) := read_list (readValue 4 (ResponseByTxId_UnmarshalBinary new_ResponseByTxId)) reader
    in
  finish_read (Build_ResponseTxHistory (default (ResponseTxHistory_Start v) xStart) (default (ResponseTxHistory_End
    v) xEnd) (default (ResponseTxHistory_Total v) xTotal) (ResponseTxHistory_Transactions v ++ xTransactions))
    reader.

Definition ResponseTxHistory_ok `{Union SG, Union TB, Union ER} (v : ResponseTxHistory SG TB ER) : Prop :=
  is_u64 (ResponseTxHistory_Start v) /\ is_u64 (ResponseTxHistory_End v) /\ is_u64 (ResponseTxHistory_Total v) /\
  (forall x, x ∈ ResponseTxHistory_Transactions v -> ResponseByTxId_ok x) /\ (forall x, x ∈
  ResponseTxHistory_Transactions v -> fits (ResponseByTxId_MarshalBinary x)) /\ ResponseTxHistory_extraData v = [].

Lemma ResponseTxHistory_survives `{Union SG, Union TB, Union ER} `{!UnionLaws SG, !UnionLaws TB, !UnionLaws ER} (v :
    ResponseTxHistory SG TB ER) :
  ResponseTxHistory_ok v -> survives ResponseTxHistory_MarshalBinary (ResponseTxHistory_UnmarshalBinary
    new_ResponseTxHistory) v.
Proof. wire_roundtrip. Qed.
#[export] Hint Resolve ResponseTxHistory_survives : wire.
Lemma ResponseTxHistory_copied `{Union SG, Union TB, Union ER} `{!UnionLaws SG, !UnionLaws TB, !UnionLaws ER} (v :
    ResponseTxHistory SG TB ER) : ResponseTxHistory_ok v -> ResponseTxHistory_Copy v = v.
Proof. wire_copy. Qed.
#[export] Hint Resolve ResponseTxHistory_copied : copies.

Record UnknownRequest := { UnknownRequest_extraData : bytes }.
Definition new_UnknownRequest : UnknownRequest := Build_UnknownRequest [].

Definition UnknownRequest_Copy (v : UnknownRequest) : UnknownRequest := Build_UnknownRequest [].

Definition UnknownRequest_MarshalBinary (v : UnknownRequest) : res bytes :=
  finish (UnknownRequest_extraData v) (
    NewWriter
    |> WriteEnum 1 query.QueryTypeUnknown).

Definition UnknownRequest_UnmarshalBinary (v : UnknownRequest) (data : bytes) : res UnknownRequest :=
  let reader := NewReader data in
  let '(vType, reader) := ReadEnum query.QueryType_SetEnumValue 1 reader in
  if negb (query.QueryTypeUnknown =? default 0 vType) then errorf "field Type: not equal" else
  finish_read Build_UnknownRequest reader.

Definition UnknownRequest_ok (v : UnknownRequest) : Prop :=
  UnknownRequest_extraData v = [].

Lemma UnknownRequest_survives (v : UnknownRequest) :
  UnknownRequest_ok v -> survives UnknownRequest_MarshalBinary (UnknownRequest_UnmarshalBinary new_UnknownRequest)
    v.
Proof. wire_roundtrip. Qed.
#[export] Hint Resolve UnknownRequest_survives : wire.
Lemma UnknownRequest_copied (v : UnknownRequest) : UnknownRequest_ok v -> UnknownRequest_Copy v = v.
Proof. wire_copy. Qed.
#[export] Hint Resolve UnknownRequest_copied : copies.
Lemma UnknownRequest_tagged (v : UnknownRequest) : UnknownRequest_ok v -> tagged UnknownRequest_MarshalBinary
    query.QueryTypeUnknown v.
Proof. wire_tagged. Qed.
#[export] Hint Resolve UnknownRequest_tagged : wire.

Inductive Request :=
  | Request_RequestByChainId (v : RequestByChainId)
  | Request_RequestByTxId (v : RequestByTxId)
  | Request_RequestByUrl (v : RequestByUrl)
  | Request_RequestDataEntry (v : RequestDataEntry)
  | Request_RequestDataEntrySet (v : RequestDataEntrySet)
  | Request_RequestDirectory (v : RequestDirectory)
  | Request_RequestKeyPageIndex (v : RequestKeyPageIndex)
  | Request_RequestMajorBlocks (v : RequestMajorBlocks)
  | Request_RequestMinorBlocks (v : RequestMinorBlocks)
  | Request_RequestSynth (v : RequestSynth)
  | Request_RequestTxHistory (v : RequestTxHistory)
  | Request_UnknownRequest (v : UnknownRequest).

Definition Request_MarshalBinary (v : Request) : res bytes :=
  match v with
  | Request_RequestByChainId v => RequestByChainId_MarshalBinary v
  | Request_RequestByTxId v => RequestByTxId_MarshalBinary v
  | Request_RequestByUrl v => RequestByUrl_MarshalBinary v
  | Request_RequestDataEntry v => RequestDataEntry_MarshalBinary v
  | Request_RequestDataEntrySet v => RequestDataEntrySet_MarshalBinary v
  | Request_RequestDirectory v => RequestDirectory_MarshalBinary v
  | Request_RequestKeyPageIndex v => RequestKeyPageIndex_MarshalBinary v
  | Request_RequestMajorBlocks v => RequestMajorBlocks_MarshalBinary v
  | Request_RequestMinorBlocks v => RequestMinorBlocks_MarshalBinary v
  | Request_RequestSynth v => RequestSynth_MarshalBinary v
  | Request_RequestTxHistory v => RequestTxHistory_MarshalBinary v
  | Request_UnknownRequest v => UnknownRequest_MarshalBinary v
  end.

Definition UnmarshalRequest (data : bytes) : res Request :=
  let! typ := UnmarshalEnumType query.QueryType_SetEnumValue data in
  if typ =? query.QueryTypeChainId then let! v := RequestByChainId_UnmarshalBinary new_RequestByChainId data in Ok (Request_RequestByChainId v) else
  if typ =? query.QueryTypeTxId then let! v := RequestByTxId_UnmarshalBinary new_RequestByTxId data in Ok (Request_RequestByTxId v) else
  if typ =? query.QueryTypeUrl then let! v := RequestByUrl_UnmarshalBinary new_RequestByUrl data in Ok (Request_RequestByUrl v) else
  if typ =? query.QueryTypeData then let! v := RequestDataEntry_UnmarshalBinary new_RequestDataEntry data in Ok (Request_RequestDataEntry v) else
  if typ =? query.QueryTypeDataSet then let! v := RequestDataEntrySet_UnmarshalBinary new_RequestDataEntrySet data in Ok (Request_RequestDataEntrySet v) else
  if typ =? query.QueryTypeDirectoryUrl then let! v := RequestDirectory_UnmarshalBinary new_RequestDirectory data in Ok (Request_RequestDirectory v) else
  if typ =? query.QueryTypeKeyPageIndex then let! v := RequestKeyPageIndex_UnmarshalBinary new_RequestKeyPageIndex data in Ok (Request_RequestKeyPageIndex v) else
  if typ =? query.QueryTypeMajorBlocks then let! v := RequestMajorBlocks_UnmarshalBinary new_RequestMajorBlocks data in Ok (Request_RequestMajorBlocks v) else
  if typ =? query.QueryTypeMinorBlocks then let! v := RequestMinorBlocks_UnmarshalBinary new_RequestMinorBlocks data in Ok (Request_RequestMinorBlocks v) else
  if typ =? query.QueryTypeSynth then let! v := RequestSynth_UnmarshalBinary new_RequestSynth data in Ok (Request_RequestSynth v) else
  if typ =? query.QueryTypeTxHistory then let! v := RequestTxHistory_UnmarshalBinary new_RequestTxHistory data in Ok (Request_RequestTxHistory v) else
  if typ =? query.QueryTypeUnknown then let! v := UnknownRequest_UnmarshalBinary new_UnknownRequest data in Ok (Request_UnknownRequest v) else
  errorf "unknown type".

Definition Request_ok (v : Request) : Prop :=
  match v with
  | Request_RequestByChainId v => RequestByChainId_ok v
  | Request_RequestByTxId v => RequestByTxId_ok v
  | Request_RequestByUrl v => RequestByUrl_ok v
  | Request_RequestDataEntry v => RequestDataEntry_ok v
  | Request_RequestDataEntrySet v => RequestDataEntrySet_ok v
  | Request_RequestDirectory v => RequestDirectory_ok v
  | Request_RequestKeyPageIndex v => RequestKeyPageIndex_ok v
  | Request_RequestMajorBlocks v => RequestMajorBlocks_ok v
  | Request_RequestMinorBlocks v => RequestMinorBlocks_ok v
  | Request_RequestSynth v => RequestSynth_ok v
  | Request_RequestTxHistory v => RequestTxHistory_ok v
  | Request_UnknownRequest v => UnknownRequest_ok v
  end.

Definition Request_Copy (v : Request) : Request :=
  match v with
  | Request_RequestByChainId v => Request_RequestByChainId (RequestByChainId_Copy v)
  | Request_RequestByTxId v => Request_RequestByTxId (RequestByTxId_Copy v)
  | Request_RequestByUrl v => Request_RequestByUrl (RequestByUrl_Copy v)
  | Request_RequestDataEntry v => Request_RequestDataEntry (RequestDataEntry_Copy v)
  | Request_RequestDataEntrySet v => Request_RequestDataEntrySet (RequestDataEntrySet_Copy v)
  | Request_RequestDirectory v => Request_RequestDirectory (RequestDirectory_Copy v)
  | Request_RequestKeyPageIndex v => Request_RequestKeyPageIndex (RequestKeyPageIndex_Copy v)
  | Request_RequestMajorBlocks v => Request_RequestMajorBlocks (RequestMajorBlocks_Copy v)
  | Request_RequestMinorBlocks v => Request_RequestMinorBlocks (RequestMinorBlocks_Copy v)
  | Request_RequestSynth v => Request_RequestSynth (RequestSynth_Copy v)
  | Request_RequestTxHistory v => Request_RequestTxHistory (RequestTxHistory_Copy v)
  | Request_UnknownRequest v => Request_UnknownRequest (UnknownRequest_Copy v)
  end.

Lemma Request_copied (v : Request) : Request_ok v -> Request_Copy v = v.
Proof. destruct v; cbn; intros; f_equal; eauto 2 with copies. Qed.
#[export] Hint Resolve Request_copied : copies.

Lemma Request_survives (v : Request) : Request_ok v -> survives Request_MarshalBinary UnmarshalRequest v.
Proof. destruct v; wire_union. Qed.
#[export] Hint Resolve Request_survives : wire.
