(* ===== verification/TransactionHash.v ===== *)
(** * The hash of a transaction: [protocol/transaction_hash.go]

    A transaction is signed and identified by its hash, made of the hashes of the header
    and of the body.  For every body but those that write data the hash binds the whole
    transaction, up to collisions of SHA-256; for those that write data it binds the body
    and the hash of the entry, and that hash does not tell an entry of two parts from one
    whose only part is the two hashes. *)

From S2P Require Import Prelude Sha256 Encoding Codec CodecProofs MerkleTree MerkleState Hasher DataEntry Url.
From S2P Require Import AdiUrl Enums Wire TypesGeneral TypesAccounts TypesSignatures TypesTransactions.
Local Open Scope Z_scope.
Import Url TxID.

(** ** Hashing *)

Definition entry_Hash (e : DataEntry) : res bytes :=
  match e with
  | DataEntry_AccumulateDataEntry e => DataEntry.Hash (DataEntry.AccumulateDataEntry (AccumulateDataEntry_Data e))
  | DataEntry_FactomDataEntryWrapper e => FactomDataEntry_Hash (FactomDataEntryWrapper_FactomDataEntry e)
  end.

Definition hashWriteData (withoutEntry : res bytes) (entry : option DataEntry) : res bytes :=
  match withoutEntry with
  | Ok data =>
      let! h := match entry with None => Ok hash_zero | Some e => entry_Hash e end in
      Ok (MerkleHash (AddHash (AddBytes [] data) h))
  | Err e => Panic (err_msg e)
  | Panic s => Panic s
  end.

(** [x := w.Copy(); x.Entry = nil]: the unknown fields are not copied. *)
Definition WriteData_without (w : WriteData) : WriteData :=
  let x := WriteData_Copy w in
  Build_WriteData None (WriteData_Scratch x) (WriteData_WriteToState x) (WriteData_extraData x).
Definition WriteDataTo_without (w : WriteDataTo) : WriteDataTo :=
  let x := WriteDataTo_Copy w in Build_WriteDataTo (WriteDataTo_Recipient x) None (WriteDataTo_extraData x).
Definition SyntheticWriteData_without (w : SyntheticWriteData) : SyntheticWriteData :=
  let x := SyntheticWriteData_Copy w in
  Build_SyntheticWriteData (SyntheticWriteData_SyntheticOrigin x) None (SyntheticWriteData_extraData x).
Definition SystemWriteData_without (w : SystemWriteData) : SystemWriteData :=
  let x := SystemWriteData_Copy w in
  Build_SystemWriteData None (SystemWriteData_WriteToState x) (SystemWriteData_extraData x).

Definition WriteData_GetHash (w : WriteData) : res bytes :=
  hashWriteData (WriteData_MarshalBinary (WriteData_without w)) (WriteData_Entry w).
Definition WriteDataTo_GetHash (w : WriteDataTo) : res bytes :=
  hashWriteData (WriteDataTo_MarshalBinary (WriteDataTo_without w)) (WriteDataTo_Entry w).
Definition SyntheticWriteData_GetHash (w : SyntheticWriteData) : res bytes :=
  hashWriteData (SyntheticWriteData_MarshalBinary (SyntheticWriteData_without w)) (SyntheticWriteData_Entry w).
Definition SystemWriteData_GetHash (w : SystemWriteData) : res bytes :=
  hashWriteData (SystemWriteData_MarshalBinary (SystemWriteData_without w)) (SystemWriteData_Entry w).

Section Hashing.
Context `{Union SG, Union TB}.

Definition getBodyHash (body : TransactionBody SG TB) : res bytes :=
  match body with
  | TransactionBody_WriteData w => WriteData_GetHash w
  | TransactionBody_WriteDataTo w => WriteDataTo_GetHash w
  | TransactionBody_SyntheticWriteData w => SyntheticWriteData_GetHash w
  | TransactionBody_SystemWriteData w => SystemWriteData_GetHash w
  | _ =>
      match TransactionBody_MarshalBinary body with
      | Ok data => Ok (sha256 data)
      | Err e => Panic (err_msg e)
      | Panic s => Panic s
      end
  end.

(** The result is kept in the transaction; here it is computed anew. *)
Definition GetHash (t : Transaction (TransactionBody SG TB)) : res bytes :=
  match Transaction_Body t with
  | Some (TransactionBody_RemoteTransaction r) => Ok (RemoteTransaction_Hash r)
  | body =>
      match TransactionHeader_MarshalBinary (Transaction_Header t) with
      | Ok header =>
          match body with
          | None => Panic "invalid memory address or nil pointer dereference"
          | Some body => let! b := getBodyHash body in Ok (sha256 (sha256 header ++ b))
          end
      | Err e => Panic (err_msg e)
      | Panic s => Panic s
      end
  end.

Definition ID (t : Transaction (TransactionBody SG TB)) : res TxID :=
  let! h := GetHash t in
  Ok (WithTxID (default (mkURL [] Unknown [] [] []) (TransactionHeader_Principal (Transaction_Header t))) h).

(** ** What the hash binds *)

(** A body that is hashed as a whole. *)
Definition plain (body : TransactionBody SG TB) : bool :=
  match body with
  | TransactionBody_WriteData _ | TransactionBody_WriteDataTo _ | TransactionBody_SyntheticWriteData _
  | TransactionBody_SystemWriteData _ | TransactionBody_RemoteTransaction _ => false
  | _ => true
  end.

(** The byte strings that are hashed. *)
Definition hashed (t : Transaction (TransactionBody SG TB)) : list bytes :=
  let header := bytes_of (TransactionHeader_MarshalBinary (Transaction_Header t)) in
  let body := match Transaction_Body t with Some b => bytes_of (TransactionBody_MarshalBinary b) | None => [] end in
  [header; body; sha256 header ++ sha256 body].

Definition collision_free (l : list bytes) : Prop :=
  forall x y, x ∈ l -> y ∈ l -> sha256 x = sha256 y -> x = y.

Context `{!UnionLaws SG, !UnionLaws TB}.

Lemma survives_inj {A} (m : A -> res bytes) u x y : survives m u x -> survives m u y -> m x = m y -> x = y.
Proof. intros (b & E1 & U1) (c & E2 & U2) E. congruence. Qed.

Lemma GetHash_plain t body :
  Transaction_ok t -> Transaction_Body t = Some body -> plain body = true ->
  GetHash t = Ok (sha256 (sha256 (bytes_of (TransactionHeader_MarshalBinary (Transaction_Header t))) ++
                          sha256 (bytes_of (TransactionBody_MarshalBinary body)))).
Proof.
  intros (Hh & _ & Hb & _) Eb Hp. destruct (TransactionHeader_survives _ Hh) as (hb & Eh & _).
  destruct (TransactionBody_survives body (Hb _ Eb)) as (bb & Em & _).
  unfold GetHash. rewrite Eb, Eh, Em. cbn [bytes_of].
  assert (Hg : getBodyHash body = Ok (sha256 bb)) by (unfold getBodyHash; rewrite Em; by destruct body).
  destruct body; try done; by rewrite Hg.
Qed.

Lemma app_inv_32 (a b c d : bytes) : length a = 32%nat -> length c = 32%nat -> a ++ b = c ++ d -> a = c /\ b = d.
Proof. intros Ha Hc E. apply app_inj_1 in E; [done|congruence]. Qed.

(** C12. The hash identifies the transaction: two full transactions that have the same hash
    are the same, unless the strings that are hashed for them exhibit a collision of SHA-256.
    Their bodies are [plain]: they do not write data (such bodies are hashed by their parts),
    and they are not the placeholders of remote transactions, whose hash is the one they
    hold.  The transactions are ones that can be written ([Transaction_ok]): numbers of
    their width, URLs that are parsed from what they are written as, values below the limit
    of 1 MiB, and no unknown fields. *)
Theorem GetHash_binding t u tb ub :
  Transaction_ok t -> Transaction_ok u -> Transaction_Body t = Some tb -> Transaction_Body u = Some ub ->
  plain tb = true -> plain ub = true -> collision_free (hashed t ++ hashed u) ->
  GetHash t = GetHash u -> t = u.
Proof.
  intros Ht Hu Etb Eub Hpt Hpu Hc E. rewrite (GetHash_plain t tb), (GetHash_plain u ub) in E by done.
  unfold hashed in Hc. rewrite Etb, Eub in Hc. injection E as E. apply Hc in E; [|set_solver..].
  apply app_inv_32 in E as [Eh Eb]; [|apply sha256_length..].
  apply Hc in Eh; [|set_solver..]. apply Hc in Eb; [|set_solver..].
  pose proof Ht as (Hht & _ & Hbt & _ & Hxt). pose proof Hu as (Hhu & _ & Hbu & _ & Hxu).
  assert (Transaction_Header t = Transaction_Header u).
  { eapply survives_inj; [by apply TransactionHeader_survives..|].
    destruct (TransactionHeader_survives _ Hht) as (b & E1 & _), (TransactionHeader_survives _ Hhu) as (c & E2 & _).
    rewrite E1, E2 in Eh |- *. cbn in Eh. congruence. }
  assert (tb = ub) as ->.
  { eapply survives_inj; [apply TransactionBody_survives, Hbt, Etb|apply TransactionBody_survives, Hbu, Eub|].
    destruct (TransactionBody_survives _ (Hbt _ Etb)) as (b & E1 & _), (TransactionBody_survives _ (Hbu _ Eub)) as (c & E2 & _).
    rewrite E1, E2 in Eb |- *. cbn in Eb. congruence. }
  destruct t, u. cbn in *. congruence.
Qed.

End Hashing.

(** ** Entries *)

#[local] Existing Instance empty_union.

Lemma MerkleHash_one x : MerkleHash [Some x] = x.
Proof. exact (MerkleHash_mth [x] ltac:(done) ltac:(done)). Qed.
Lemma MerkleHash_two x y : MerkleHash [Some x; Some y] = sha256 (x ++ y).
Proof. exact (MerkleHash_mth [x; y] ltac:(done) ltac:(done)). Qed.

Definition write_data (header : TransactionHeader) (data : list bytes) : Transaction (TransactionBody Empty_set Empty_set) :=
  Build_Transaction header (Some (TransactionBody_WriteData (Build_WriteData
    (Some (DataEntry_AccumulateDataEntry (Build_AccumulateDataEntry data []))) false false []))) [].

(** The hash does not bind the entry of a transaction that writes data: the entries with
    the parts [a] and [b] and with the single part [sha256 a ++ sha256 b] are different,
    and give transactions with the same hash, so that the signatures of one are valid for
    the other. *)
Theorem write_data_ambiguous (header : TransactionHeader) (a b : bytes) :
  TransactionHeader_ok header ->
  write_data header [a; b] <> write_data header [sha256 a ++ sha256 b] /\
  exists h, GetHash (write_data header [a; b]) = Ok h /\
            GetHash (write_data header [sha256 a ++ sha256 b]) = Ok h.
Proof.
  intros Hh. split; [intros [=]|]. destruct (TransactionHeader_survives _ Hh) as (hb & Eh & _).
  unfold GetHash, write_data. cbn [Transaction_Body Transaction_Header]. rewrite Eh.
  unfold getBodyHash, WriteData_GetHash, WriteData_without. cbn [WriteData_Entry].
  change (WriteData_MarshalBinary _) with (Ok [Byte.x01; Byte.x05]).
  unfold hashWriteData, entry_Hash, DataEntry.Hash. cbn [AccumulateDataEntry_Data foldl AddBytes hasher_append app res_bind].
  rewrite MerkleHash_one, MerkleHash_two. by eexists.
Qed.

(** ** Concrete transactions *)

Lemma collision_free_check (l : list bytes) :
  forallb (fun x => forallb (fun y => negb (bytes_eqb (sha256 x) (sha256 y)) || bytes_eqb x y) l) l = true ->
  collision_free l.
Proof.
  rewrite forallb_forall. intros H x y Hx Hy E. apply list_elem_of_In in Hx, Hy. specialize (H x Hx).
  rewrite forallb_forall in H. specialize (H y Hy). rewrite E, bytes_eqb_refl in H. by apply bytes_eqb_eq.
Qed.

Definition demo_header : TransactionHeader := Build_TransactionHeader None (replicate 32 Byte.x07) "memo" [] [].
Definition burn_tokens : Transaction (TransactionBody Empty_set Empty_set) :=
  Build_Transaction demo_header (Some (TransactionBody_BurnTokens (Build_BurnTokens 300 []))) [].

Lemma demo_header_ok : TransactionHeader_ok demo_header.
Proof. by repeat split. Qed.

Lemma burn_tokens_ok : Transaction_ok burn_tokens.
Proof.
  split; [exact demo_header_ok|]. split; [done|]. split; [|split; [|done]].
  - intros x [= <-]. by repeat split.
  - by intros x [= <-].
Qed.

#[local] Instance empty_laws : @UnionLaws Empty_set empty_union.
Proof. split; intros []. Qed.

(** What was read has the same hash and is the transaction that was written. *)
Lemma GetHash_binding_witness :
  exists b u, Transaction_MarshalBinary burn_tokens = Ok b /\
    Transaction_UnmarshalBinary new_Transaction b = Ok u /\
    u = burn_tokens.
Proof.
  eexists. eexists. split; [vm_compute; reflexivity|]. split; [vm_compute; reflexivity|].
  eapply (GetHash_binding burn_tokens);
    [exact burn_tokens_ok|exact burn_tokens_ok|reflexivity..| |reflexivity].
  apply collision_free_check. vm_compute. reflexivity.
Defined.

Lemma write_data_ambiguous_witness :
  exists h, GetHash (write_data demo_header [[Byte.x01]; [Byte.x02]]) = Ok h /\
    GetHash
      (write_data demo_header [sha256 [Byte.x01] ++ sha256 [Byte.x02]]) = Ok h.
Proof. exact (proj2 (write_data_ambiguous demo_header [Byte.x01] [Byte.x02] demo_header_ok)). Defined.
