(* ===== verification/TypesProps.v ===== *)
(** * The types of the protocol on the wire

    What is sent to a node, stored by it and asked of it survives its binary format and
    is its own copy, whatever the nesting: the depth bounds how far delegated signatures,
    anchors inside bodies and causes of errors are nested, and is an argument. *)

From S2P Require Import Prelude Encoding Codec CodecProofs Url UrlParse Enums Wire TypesGeneral TypesAccounts TypesSignatures.
From S2P Require Import TypesTransactions TypesStatus TypesQuery.
Local Open Scope Z_scope.
Import Url TxID.

(** C11. What is sent to a node survives its binary format: an envelope with signatures
    delegated to any depth, and transactions with bodies nested to any depth, is read back from
    its encoding as it was, and is its own copy.  The values have to be writable
    ([Envelope_ok]): numbers of their width, enumeration values that exist, URLs that are
    parsed from what they are written as, values below the limit of 1 MiB, times of whole
    seconds, and no unknown fields. *)
Theorem Envelope_roundtrip (sigs bodies : nat) (e : Envelope (SignatureAt sigs) (TransactionBodyAt (SignatureAt sigs) bodies)) :
  Envelope_ok e ->
  (exists b, Envelope_MarshalBinary e = Ok b /\ Envelope_UnmarshalBinary new_Envelope b = Ok e) /\ Envelope_Copy e = e.
Proof. intros H. split; [by apply Envelope_survives|by apply Envelope_copied]. Qed.

(** An account as it is stored: the times of the ledgers lose their fractions of a second. *)
Definition whole_seconds {TB} (a : Account TB) : Account TB :=
  match a with
  | Account_SystemLedger l => Account_SystemLedger (Build_SystemLedger (SystemLedger_Url l) (SystemLedger_Index l)
      (truncate (SystemLedger_Timestamp l)) (SystemLedger_AcmeBurnt l) (SystemLedger_PendingUpdates l) (SystemLedger_Anchor l) (SystemLedger_extraData l))
  | Account_BlockLedger l => Account_BlockLedger (Build_BlockLedger (BlockLedger_Url l) (BlockLedger_Index l)
      (truncate (BlockLedger_Time l)) (BlockLedger_Entries l) (BlockLedger_extraData l))
  | Account_AnchorLedger l => Account_AnchorLedger (Build_AnchorLedger (AnchorLedger_Url l) (AnchorLedger_MajorBlockIndex l)
      (truncate (AnchorLedger_MajorBlockTime l)) (AnchorLedger_PendingMajorBlockAnchors l) (AnchorLedger_Exchange l) (AnchorLedger_extraData l))
  | _ => a
  end.

(** A time that is not set, or since 1970. *)
Definition stamped (t : Z) : Prop := t = time_zero \/ 0 <= t.
Definition account_stamped {TB} (a : Account TB) : Prop :=
  match a with
  | Account_SystemLedger l => stamped (SystemLedger_Timestamp l)
  | Account_BlockLedger l => stamped (BlockLedger_Time l)
  | Account_AnchorLedger l => stamped (AnchorLedger_MajorBlockTime l)
  | _ => True
  end.

Lemma stamped_zero t : stamped t -> (truncate t =? time_zero) = (t =? time_zero).
Proof.
  intros [->|H]; [done|]. assert (0 <= truncate t) by (unfold truncate, FromUnix, Unix; pose proof (Z.div_pos t (10 ^ 9)); lia).
  rewrite !(proj2 (Z.eqb_neq _ _)); [done|intros ->; by apply H|]. intros E. rewrite E in *. by vm_compute in H0.
Qed.

Lemma when_time c n t w : when c (WriteTime n (truncate t)) w = when c (WriteTime n t) w.
Proof. destruct c; [apply WriteTime_truncate|done]. Qed.

Lemma Marshal_whole_seconds `{Union TB} (a : Account TB) : account_stamped a -> Account_MarshalBinary (whole_seconds a) = Account_MarshalBinary a.
Proof.
  destruct a as [|l|l| | | | | | | |l| | | |]; try done; cbn [whole_seconds account_stamped Account_MarshalBinary]; intros Hs.
  - unfold AnchorLedger_MarshalBinary. cbn [AnchorLedger_Url AnchorLedger_MajorBlockIndex AnchorLedger_MajorBlockTime
      AnchorLedger_PendingMajorBlockAnchors AnchorLedger_Exchange AnchorLedger_extraData]. by rewrite stamped_zero, when_time.
  - unfold BlockLedger_MarshalBinary. cbn [BlockLedger_Url BlockLedger_Index BlockLedger_Time BlockLedger_Entries BlockLedger_extraData].
    by rewrite stamped_zero, when_time.
  - unfold SystemLedger_MarshalBinary. cbn [SystemLedger_Url SystemLedger_Index SystemLedger_Timestamp SystemLedger_AcmeBurnt
      SystemLedger_PendingUpdates SystemLedger_Anchor SystemLedger_extraData]. by rewrite stamped_zero, when_time.
Qed.

Lemma Copy_whole_seconds `{Union TB} (a : Account TB) : Account_Copy (whole_seconds a) = whole_seconds a -> Account_Copy a = a.
Proof.
  destruct a as [|l|l| | | | | | | |l| | | |]; try done; cbn [whole_seconds Account_Copy]; destruct l; intros [=]; unfold AnchorLedger_Copy, BlockLedger_Copy, SystemLedger_Copy;
    cbn in *; by subst; f_equal; f_equal.
Qed.

Lemma truncate_truncate t : truncate (truncate t) = truncate t.
Proof. unfold truncate. by rewrite Unix_FromUnix. Qed.

Lemma whole_seconds_idem {TB} (a : Account TB) : whole_seconds (whole_seconds a) = whole_seconds a.
Proof. destruct a; try done; cbn; by rewrite truncate_truncate. Qed.

Lemma stamped_truncate t : stamped t -> stamped (truncate t).
Proof. intros [->|H]; [by left|right]. unfold truncate, FromUnix, Unix. pose proof (Z.div_pos t (10 ^ 9)). lia. Qed.

Lemma whole_seconds_stamped {TB} (a : Account TB) : account_stamped a -> account_stamped (whole_seconds a).
Proof. destruct a; try done; apply stamped_truncate. Qed.

(** C15. Accounts survive the store: an account of any of the 15 types, whatever the nesting of
    anchors in the ledgers, is read back from its encoding as it was, except that the times of
    the system, block and anchor ledgers lose their fractions of a second; and it is its own
    copy.  The values have to be writable ([Account_ok]): numbers of their width, enumeration
    values that exist, URLs that are parsed from what they are written as, values below the
    limit of 1 MiB, whole seconds for the times inside an anchor that a ledger holds, and no
    unknown fields; the time of a ledger is not set, or since 1970. *)
Theorem Account_roundtrip (sigs bodies : nat) (a : Account (TransactionBodyAt (SignatureAt sigs) bodies)) :
  Account_ok (whole_seconds a) -> account_stamped a ->
  (exists b, Account_MarshalBinary a = Ok b /\ UnmarshalAccount b = Ok (whole_seconds a)) /\ Account_Copy a = a.
Proof.
  intros H Hs. split; [rewrite <- Marshal_whole_seconds by done; by apply Account_survives|]. by apply Copy_whole_seconds, Account_copied.
Qed.

(** The status of a transaction, with its error and the causes of that error to
    any depth, its signers, result and proof, is read back from its encoding as it was,
    and is its own copy. *)
Theorem TransactionStatus_roundtrip (sigs bodies causes : nat)
    (s : TransactionStatus (TransactionBodyAt (SignatureAt sigs) bodies) (ErrorAt causes)) :
  TransactionStatus_ok s ->
  (exists b, TransactionStatus_MarshalBinary s = Ok b /\ TransactionStatus_UnmarshalBinary new_TransactionStatus b = Ok s) /\
  TransactionStatus_Copy s = s.
Proof. intros H. split; [by apply TransactionStatus_survives|by apply TransactionStatus_copied]. Qed.

(** Every request of the query interface is read back from its encoding as it
    was, and is its own copy. *)
Theorem Request_roundtrip (r : Request) :
  Request_ok r ->
  (exists b, Request_MarshalBinary r = Ok b /\ UnmarshalRequest b = Ok r) /\ Request_Copy r = r.
Proof. intros H. split; [by apply Request_survives|by apply Request_copied]. Qed.

(** ** Concrete values *)

Definition demo_account (path : string) : URL := mkURL [] (str "alice.acme") (str path) [] [].
Definition demo_key : SignatureAt 1 := Signature_ED25519Signature
  (Build_ED25519Signature (replicate 32 Byte.x01) (replicate 64 Byte.x02) (Some (demo_account "/book/1")) 1 5 0 hash_zero []).
Definition demo_delegated : SignatureAt 2 := Signature_DelegatedSignature
  (Build_DelegatedSignature (Some demo_key) (Some (demo_account "/book")) []).
Definition demo_send : TransactionBodyAt (SignatureAt 2) 1 := TransactionBody_SendTokens
  (Build_SendTokens hash_zero [] [Build_TokenRecipient (Some (mkURL [] (str "bob.acme") (str "/tokens") [] [])) 300 []] []).
Definition demo_envelope : Envelope (SignatureAt 2) (TransactionBodyAt (SignatureAt 2) 1) :=
  Build_Envelope [demo_delegated] []
    [Build_Transaction (Build_TransactionHeader (Some (demo_account "/tokens")) (replicate 32 Byte.x07) "memo" [] [])
       (Some demo_send) []] [].

Lemma Envelope_roundtrip_witness :
  exists b, Envelope_MarshalBinary demo_envelope = Ok b /\ Envelope_UnmarshalBinary new_Envelope b = Ok demo_envelope.
Proof. refine (proj1 (Envelope_roundtrip 2 1 demo_envelope _)). wire_ok. Defined.

(** A ledger with a time of a second and a half. *)
Definition demo_block : Account (TransactionBodyAt (SignatureAt 1) 1) := Account_BlockLedger
  (Build_BlockLedger (Some (demo_account "/ledger/7")) 7 1500000000 [Build_BlockEntry (Some (demo_account "/tokens")) "main" 3 []] []).

Definition demo_page : Account (TransactionBodyAt (SignatureAt 1) 1) := Account_KeyPage
  (Build_KeyPage (Some (demo_account "/book/1")) 1000 2 0 0 0 3
     [Build_KeySpec (replicate 32 Byte.x01) 5 None []; Build_KeySpec [] 0 (Some (demo_account "/other")) []] (Some 4) []).

Lemma Account_roundtrip_witness :
  (exists b, Account_MarshalBinary demo_page = Ok b /\ UnmarshalAccount b = Ok demo_page) /\
  (exists b, Account_MarshalBinary demo_block = Ok b /\ UnmarshalAccount b = Ok (whole_seconds demo_block)).
Proof.
  split; [refine (proj1 (Account_roundtrip 1 1 demo_page _ I)); wire_ok|refine (proj1 (Account_roundtrip 1 1 demo_block _ _)); [wire_ok|by right]].
Defined.

Definition demo_status : TransactionStatus (TransactionBodyAt (SignatureAt 1) 1) (ErrorAt 2) :=
  Build_TransactionStatus (Some (mkTxID (demo_account "/tokens") (replicate 32 Byte.x09))) 401
    (Some (Build_Error "refused" 401 (Some (Build_Error "no key" 404 None [Build_CallSite "f" "a.go" 7 []] [])) [] [])) None
    12 (Some (demo_account "/book/1")) [demo_page] [] None None 0 false None [].

Lemma TransactionStatus_roundtrip_witness :
  exists b, TransactionStatus_MarshalBinary demo_status = Ok b /\
    TransactionStatus_UnmarshalBinary new_TransactionStatus b = Ok demo_status.
Proof. refine (proj1 (TransactionStatus_roundtrip 1 1 2 demo_status _)). wire_ok. Defined.

Definition demo_request : Request := Request_RequestDirectory
  (Build_RequestDirectory (Some (demo_account "")) 10 50 true []).

Lemma Request_roundtrip_witness :
  exists b, Request_MarshalBinary demo_request = Ok b /\ UnmarshalRequest b = Ok demo_request.
Proof. refine (proj1 (Request_roundtrip demo_request _)). wire_ok. Defined.
