(* ===== verification/Records.v ===== *)
(** * The record layer: [internal/database/record] and the batches of
      [internal/database/batch.go]

    A batch keeps the records of the data model it has touched, each with a status.  A
    record is loaded from the store of its batch when it is first read: from the bytes of
    the key-value store for an outermost batch, and from the record with the same key of
    the parent for a nested one, which loads it in turn.  Committing a batch writes its
    dirty records to its store.

    The contents of the records are values of one type, [V]; what a record does with its
    contents (Go's [encodableValue], chosen when the record is made) is its [Schema].
    The batches that are open are a list, the innermost first.  The contents are values:
    what a caller does to a value it has read shows when it is put.

    Committing is the generated [baseCommit].  What [Account.Commit] does before it, the
    checks of the main state and the updates of the account's URL and of its index of
    synthetic anchors, is reading and writing records of the same batch; the entries of the
    Patricia tree are kept beside the records, under other keys. *)

From S2P Require Import Prelude Sha256 Encoding Storage.
Local Open Scope Z_scope.

(** ** Records *)

Inductive valueStatus := valueUndefined | valueNotFound | valueClean | valueDirty.

(** What [NewValue] is given: [encodableValue] and whether the value may be missing.
    [is_a] is the type assertion on the contents of another record. *)
Record Schema (V : Type) := mkSchema {
  allowMissing : bool;
  setNew : V;
  copyValue : V -> V;
  MarshalBinary : V -> res bytes;
  UnmarshalBinary : bytes -> res V;
  is_a : V -> bool
}.
Arguments mkSchema {V}.
Arguments allowMissing {V}.
Arguments setNew {V}.
Arguments copyValue {V}.
Arguments MarshalBinary {V}.
Arguments UnmarshalBinary {V}.
Arguments is_a {V}.

(** The code holds pointers, and callers that change what they got in place would change
    the record; here the values are immutable, so that only [Put] changes a record. *)
Record Value (V : Type) := mkValue { schema : Schema V; status : valueStatus; value : V }.
Arguments mkValue {V}.
Arguments schema {V}.
Arguments status {V}.
Arguments value {V}.

Definition NewValue {V} (sc : Schema V) : Value V := mkValue sc valueUndefined (setNew sc).

Definition Value_Put {V} (u : V) (v : Value V) : Value V := mkValue (schema v) valueDirty u.
Definition Value_IsDirty {V} (v : Value V) : bool := match status v with valueDirty => true | _ => false end.

(** [LoadValue]: what [GetValue] of the other record returned. *)
Definition LoadValue {V} (other : Schema V) (u : V) (put : bool) (v : Value V) : res (Value V) :=
  if negb (is_a (schema v) u) then errors_new StatusInternalError "store: invalid value"
  else if put then Ok (mkValue (schema v) valueDirty u)
  else Ok (mkValue (schema v) valueClean (copyValue other u)).

Definition LoadBytes {V} (data : bytes) (v : Value V) : res (Value V) :=
  let! u := UnmarshalBinary (schema v) data in Ok (mkValue (schema v) valueClean u).

Definition ErrNotFound : error := mkError StatusNotFound "not found".

(** ** Batches *)

Section Batches.
Context {V K S : Type} `{Countable K} `{KeyValueTxn S}.

(** The storage key of a record's key, and the data model: the record a key stands for. *)
Context (key_Hash : K -> Storage.Key) (resolve : K -> res (Schema V)).

Record Batch := mkBatch { done : bool; records : gmap K (Value V) }.

Definition NewBatch : Batch := mkBatch false ∅.
Definition put_record (k : K) (v : Value V) (b : Batch) : Batch := mkBatch (done b) (<[k := v]> (records b)).

(** [getOrCreateField] and [getOrCreateMap]. *)
Definition getOrCreate (k : K) (sc : Schema V) (b : Batch) : Value V := default (NewValue sc) (records b !! k).

(** [KvStore.GetValue] *)
Definition kv_GetValue (k : K) (v : Value V) (kv : S) : res (Value V) :=
  let! b := kv_Get (key_Hash k) kv in
  match b with [] => Err ErrNotFound | _ => LoadBytes b v end.

(** [KvStore.PutValue]; the value is not missing. *)
Definition kv_PutValue (k : K) (v : Value V) (kv : S) : res S :=
  let! b := MarshalBinary (schema v) (value v) in kv_Put (key_Hash k) b kv.

(** The end of [Value.Get]: what [store.GetValue] did to the record [v]. *)
Definition did_load (v : Value V) (loaded : res (Value V)) : res V * Value V :=
  match loaded with
  | Ok u => (Ok (value u), mkValue (schema u) valueClean (value u))
  | Err e =>
      if negb (is_not_found e) then (Err e, v)
      else if allowMissing (schema v) then
        (Ok (setNew (schema v)), mkValue (schema v) valueClean (setNew (schema v)))
      else (Err ErrNotFound, mkValue (schema v) valueNotFound (value v))
  | Panic s => (Panic s, v)
  end.

(** [Value.Get] of the record with the key [k] and the schema [sc] of the innermost batch;
    the records of the batches change.  The store of a nested batch is its parent, whose
    [GetValue] resolves the key and reads that record. *)
Fixpoint Value_Get (k : K) (sc : Schema V) (bs : list Batch) (kv : S) : res V * list Batch :=
  match bs with
  | [] => (Panic "no batch", [])
  | b :: parents =>
      let v := getOrCreate k sc b in
      match status v with
      | valueNotFound => (Err ErrNotFound, bs)
      | valueClean | valueDirty => (Ok (value v), bs)
      | valueUndefined =>
          let '(loaded, parents) :=
            match parents with
            | [] => (kv_GetValue k v kv, [])
            | p :: _ =>
                if done p then (Panic "attempted to use a commited or discarded batch", parents)
                else
                  match resolve k with
                  | Ok sc' =>
                      let '(r, parents) := Value_Get k sc' parents kv in
                      (let! u := r in LoadValue sc' u false v, parents)
                  | Err e => (Err e, parents)
                  | Panic s => (Panic s, parents)
                  end
            end in
          let '(r, v) := did_load v loaded in
          (r, put_record k v b :: parents)
      end
  end.

(** [Value.Put] in the innermost batch. *)
Definition Put (k : K) (sc : Schema V) (u : V) (bs : list Batch) : list Batch :=
  match bs with
  | [] => []
  | b :: parents => put_record k (Value_Put u (getOrCreate k sc b)) b :: parents
  end.

(** [Value.Commit]: the parent's [PutValue] or that of the key-value store. *)
Definition Value_Commit (k : K) (v : Value V) (st : list Batch * S) : res (list Batch * S) :=
  let '(parents, kv) := st in
  if negb (Value_IsDirty v) then Ok st
  else
    match parents with
    | [] => let! kv := kv_PutValue k v kv in Ok ([], kv)
    | p :: rest =>
        if done p then Panic "attempted to use a commited or discarded batch"
        else
          let! sc' := resolve k in
          let! u := LoadValue (schema v) (value v) true (getOrCreate k sc' p) in
          Ok (put_record k u p :: rest, kv)
    end.

(** [commitField] of every record, in some order; after an error the rest is skipped. *)
Fixpoint commit_records (l : list (K * Value V)) (st : list Batch * S) : res unit * (list Batch * S) :=
  match l with
  | [] => (Ok tt, st)
  | (k, v) :: l =>
      match Value_Commit k v st with
      | Ok st => commit_records l st
      | Err e => (Err e, st)
      | Panic s => (Panic s, st)
      end
  end.

(** The order in which the records are visited; Go's maps have none. *)
Context (order : gmap K (Value V) -> list (K * Value V)).

(** [Batch.Commit] of the innermost batch, which is not used afterwards: the records. *)
Definition Commit (bs : list Batch) (kv : S) : res unit * (list Batch * S) :=
  match bs with
  | [] => (Panic "no batch", ([], kv))
  | b :: parents =>
      if done b then (Panic "attempted to use a commited or discarded batch", (parents, kv))
      else commit_records (order (records b)) (parents, kv)
  end.

Definition Begin (bs : list Batch) : list Batch := NewBatch :: bs.
Definition Discard (bs : list Batch) : list Batch := tail bs.

End Batches.
