(* ===== verification/RecordsProofs.v ===== *)
(** * The record layer implements a stack of maps

    [seen]: what a batch reads for a key: the contents of the nearest dirty record, else
    the decoded bytes of the key-value store, else the new value of a record that may be
    missing.  The invariant [coherent] says that every record that is clean or known to be
    missing agrees with what the store of its batch sees, so that no operation depends on
    what was read before.  The specification, [Spec], is a stack of maps in which reading
    has no effect; every run of operations gives the same answers on both. *)

From S2P Require Import Prelude Sha256 Encoding Storage Records.
Local Open Scope Z_scope.

(** ** Data models *)

Section Model.
Context {V K : Type} `{Equiv V} (key_Hash : K -> Storage.Key) (resolve : K -> res (Schema V)) (used : K -> bool).

(** What the layer relies on: the contents that a record of the data model may have
    survive its format, which is never empty, and are their own copies, up to an
    equivalence; and different records that are used are stored under different keys. *)
Record ModelLaws (ok : K -> V -> Prop) : Prop := mkModelLaws {
  law_new k sc : resolve k = Ok sc -> allowMissing sc = true -> ok k (setNew sc);
  law_copy k sc u : resolve k = Ok sc -> ok k u -> copyValue sc u ≡ u /\ ok k (copyValue sc u);
  law_is k sc u : resolve k = Ok sc -> ok k u -> is_a sc u = true;
  law_survives k sc u : resolve k = Ok sc -> ok k u ->
    exists b u', MarshalBinary sc u = Ok b /\ b <> [] /\ UnmarshalBinary sc b = Ok u' /\ u' ≡ u /\ ok k u';
  law_hash k k' : used k = true -> used k' = true -> key_Hash k = key_Hash k' -> k = k'
}.

End Model.

(** ** The specification *)

Section Spec.
Context {V K : Type} `{EqDecision K}.

Definition View : Type := K -> option V.

Inductive Op :=
| OBegin
| OGet (k : K)
| OPut (k : K) (u : V)
| OCommit
| ODiscard.

(** What an operation answers; only reading answers something. *)
Inductive Answer := Nothing | Found (u : V) | Missing | Failed.

(** The views of the open batches, the innermost first, and below them what is stored. *)
Definition Spec : Type := list View * View.

Definition spec_top (s : Spec) : View := match s with (m :: _, _) => m | ([], m) => m end.

Definition view_put (k : K) (u : V) (m : View) : View := fun k' => if decide (k' = k) then Some u else m k'.

Definition spec_step (o : Op) (s : Spec) : Answer * Spec :=
  match o, s with
  | OBegin, (ms, m0) => (Nothing, (spec_top s :: ms, m0))
  | OGet k, (_ :: _, _) => (match spec_top s k with Some u => Found u | None => Missing end, s)
  | OPut k u, (m :: ms, m0) => (Nothing, (view_put k u m :: ms, m0))
  | OCommit, (m :: _ :: ms, m0) => (Nothing, (m :: ms, m0))
  | OCommit, ([m], m0) => (Nothing, ([], m))
  | ODiscard, (_ :: ms, m0) => (Nothing, (ms, m0))
  | _, ([], _) => (Failed, s)
  end.

Fixpoint spec_run (os : list Op) (s : Spec) : list Answer :=
  match os with [] => [] | o :: os => let '(a, s) := spec_step o s in a :: spec_run os s end.

End Spec.
Arguments Op : clear implicits.
Arguments Answer : clear implicits.
Arguments View : clear implicits.
Arguments Spec : clear implicits.

Section Refinement.
Context {V K S : Type} `{!Equiv V} `{!Equivalence (≡@{V})} `{Countable K} `{KeyValueLaws S}.
Context (key_Hash : K -> Storage.Key) (resolve : K -> res (Schema V)) (order : gmap K (Value V) -> list (K * Value V)).

(** The keys that are used. *)
Context (used : K -> bool).

(** ** Running the operations *)

Definition State : Type := list (@Batch V K _ _) * S.

Definition answer (r : res V) : Answer V :=
  match r with Ok u => Found u | Err e => if is_not_found e then Missing else Failed | Panic _ => Failed end.

Definition step (o : Op V K) (st : State) : Answer V * State :=
  let '(bs, kv) := st in
  match o, bs with
  | OBegin, _ => (Nothing, (Begin bs, kv))
  | _, [] => (Failed, st)
  | OGet k, _ =>
      match resolve k with
      | Ok sc => let '(r, bs) := Value_Get key_Hash resolve k sc bs kv in (answer r, (bs, kv))
      | _ => (Failed, st)
      end
  | OPut k u, _ =>
      match resolve k with Ok sc => (Nothing, (Put k sc u bs, kv)) | _ => (Failed, st) end
  | OCommit, _ =>
      let '(r, st) := Commit key_Hash resolve order bs kv in
      (match r with Ok _ => Nothing | _ => Failed end, st)
  | ODiscard, _ => (Nothing, (Discard bs, kv))
  end.

Fixpoint run (os : list (Op V K)) (st : State) : list (Answer V) :=
  match os with [] => [] | o :: os => let '(a, st) := step o st in a :: run os st end.

(** ** What a batch sees *)

Fixpoint stored (k : K) (sc : Schema V) (bs : list (@Batch V K _ _)) (kv : S) : option V :=
  match bs with
  | [] =>
      match kv_view kv !! key_Hash k with
      | Some (c :: b) => match UnmarshalBinary sc (c :: b) with Ok u => Some u | _ => None end
      | _ => None
      end
  | b :: parents =>
      match records b !! k with
      | Some v => if Value_IsDirty v then Some (value v) else stored k sc parents kv
      | None => stored k sc parents kv
      end
  end.

Definition or_new (sc : Schema V) (o : option V) : option V :=
  match o with Some u => Some u | None => if allowMissing sc then Some (setNew sc) else None end.

Definition seen (bs : list (@Batch V K _ _)) (kv : S) (k : K) : option V :=
  match resolve k with
  | Ok sc => if used k then or_new sc (stored k sc bs kv) else None
  | _ => None
  end.

Context (ok : K -> V -> Prop) (Hlaws : ModelLaws key_Hash resolve used ok).

(** A record agrees with what the store of its batch sees. *)
Definition agrees (k : K) (v : Value V) (below : option V) : Prop :=
  used k = true /\ resolve k = Ok (schema v) /\
  match status v with
  | valueUndefined => True
  | valueNotFound => below = None
  | valueClean => below ≡ Some (value v) /\ ok k (value v)
  | valueDirty => ok k (value v)
  end.

Definition kv_ok (kv : S) : Prop :=
  kv_writable kv /\
  forall k sc c b, used k = true -> resolve k = Ok sc -> kv_view kv !! key_Hash k = Some (c :: b) ->
    exists u, UnmarshalBinary sc (c :: b) = Ok u /\ ok k u.

Fixpoint coherent (bs : list (@Batch V K _ _)) (kv : S) : Prop :=
  match bs with
  | [] => kv_ok kv
  | b :: parents =>
      done b = false /\ coherent parents kv /\
      forall k v, records b !! k = Some v -> agrees k v (seen parents kv k)
  end.

(** ** Lemmas *)

Lemma seen_cons b p kv k :
  seen (b :: p) kv k =
  match resolve k, used k, records b !! k with
  | Ok _, true, Some v => if Value_IsDirty v then Some (value v) else seen p kv k
  | _, _, _ => seen p kv k
  end.
Proof.
  unfold seen. destruct (resolve k); [|done..]. simpl. destruct (used k); [|done].
  destruct (records b !! k) as [v|]; [|done]. by destruct (Value_IsDirty v).
Qed.

Lemma seen_put b p kv k v k' sc :
  used k = true -> resolve k = Ok sc ->
  seen (put_record k v b :: p) kv k' =
  if decide (k' = k) then (if Value_IsDirty v then Some (value v) else seen p kv k) else seen (b :: p) kv k'.
Proof.
  intros Hu Hk. rewrite !seen_cons. simpl. destruct (decide (k' = k)) as [->|Hne].
  - by rewrite Hk, Hu, lookup_insert_eq.
  - by rewrite lookup_insert_ne.
Qed.

Lemma stored_ok bs kv k sc u :
  coherent bs kv -> used k = true -> resolve k = Ok sc -> stored k sc bs kv = Some u -> ok k u.
Proof.
  induction bs as [|b p IH]; simpl.
  - intros [_ Hkv] Hu Hk. destruct (kv_view kv !! key_Hash k) as [[|c d]|] eqn:E; try done.
    destruct (Hkv k sc c d Hu Hk E) as (x & -> & Hx). by intros [= <-].
  - intros (_ & Hp & Hr) Hu Hk. destruct (records b !! k) as [v|] eqn:E; [|by auto].
    destruct (Value_IsDirty v) eqn:Hd; [|by auto]. intros [= <-]. destruct (Hr k v E) as (_ & _ & Ha).
    unfold Value_IsDirty in Hd. by destruct (status v).
Qed.

Lemma seen_ok bs kv k u : coherent bs kv -> seen bs kv k = Some u -> ok k u.
Proof.
  unfold seen. intros Hc. destruct (resolve k) as [sc| |] eqn:Hk; try done. destruct (used k) eqn:Hu; [|done].
  unfold or_new. destruct (stored k sc bs kv) eqn:E; [intros [= <-]; by eapply stored_ok|].
  destruct (allowMissing sc) eqn:Ha; [|done]. intros [= <-]. by eapply law_new.
Qed.

(** The views of two lists of batches, level by level. *)
Fixpoint same (kv : S) (bs cs : list (@Batch V K _ _)) : Prop :=
  match bs, cs with
  | [], [] => True
  | b :: p, c :: q => (forall k, seen (b :: p) kv k ≡ seen (c :: q) kv k) /\ same kv p q
  | _, _ => False
  end.

Lemma same_refl kv bs : same kv bs bs.
Proof. induction bs; simpl; auto. Qed.

Lemma same_seen kv bs cs k : same kv bs cs -> seen bs kv k ≡ seen cs kv k.
Proof. destruct bs, cs; simpl; try done. intros [Hs _]. apply Hs. Qed.

(** ** Reading *)

Definition found (o : option V) : res V := match o with Some u => Ok u | None => Err ErrNotFound end.

(** The record after it was loaded from a store that sees [o]. *)
Definition loaded_value (v : Value V) (o : option V) : Value V :=
  match o with
  | Some u => mkValue (schema v) valueClean u
  | None => mkValue (schema v) valueNotFound (value v)
  end.

Lemma did_load_kv k v kv sc :
  kv_ok kv -> used k = true -> resolve k = Ok sc -> schema v = sc ->
  did_load v (kv_GetValue key_Hash k v kv) = (found (seen [] kv k), loaded_value v (seen [] kv k)).
Proof.
  intros [Hw Hkv] Hu Hk Hsc. unfold seen, kv_GetValue. rewrite Hk, Hu. simpl. pose proof (kv_Get_view (key_Hash k) kv Hw) as Hg.
  assert (Hmiss : did_load v (Err ErrNotFound) = (found (or_new sc None), loaded_value v (or_new sc None))).
  { unfold did_load. change (is_not_found ErrNotFound) with true. cbn [negb]. subst sc. unfold or_new.
    by destruct (allowMissing (schema v)). }
  destruct (kv_view kv !! key_Hash k) as [[|c d]|] eqn:E.
  - rewrite Hg. exact Hmiss.
  - rewrite Hg. destruct (Hkv k sc c d Hu Hk E) as (u & Eu & _). cbn [res_bind]. unfold LoadBytes. subst sc. by rewrite Eu.
  - destruct Hg as (e & -> & He). cbn [res_bind]. unfold did_load in *. rewrite He. exact Hmiss.
Qed.

Lemma did_load_parent k v sc o :
  resolve k = Ok sc -> schema v = sc -> (forall u, o = Some u -> ok k u) -> (o = None -> allowMissing sc = false) ->
  exists o', did_load v (let! u := found o in LoadValue sc u false v) = (found o', loaded_value v o') /\ o' ≡ o /\
    forall u, o' = Some u -> ok k u.
Proof.
  intros Hk Hsc Ho Hm. destruct o as [u|]; cbn [found res_bind].
  - unfold LoadValue. subst sc. rewrite (law_is _ _ _ _ Hlaws _ _ _ Hk (Ho u eq_refl)).
    destruct (law_copy _ _ _ _ Hlaws _ _ _ Hk (Ho u eq_refl)) as [Hc Hok].
    exists (Some (copyValue (schema v) u)). split; [done|]. split; [by constructor|]. by intros ? [= <-].
  - exists None. unfold did_load. change (is_not_found ErrNotFound) with true. cbn [negb]. subst sc.
    rewrite (Hm eq_refl). split; [done|]. split; [done|]. done.
Qed.

Lemma seen_missing bs kv k sc : used k = true -> resolve k = Ok sc -> seen bs kv k = None -> allowMissing sc = false.
Proof. unfold seen. intros -> ->. unfold or_new. destruct (stored _ _ _ _), (allowMissing sc); done. Qed.

Lemma put_loaded b p p' kv k v sc o :
  coherent (b :: p) kv -> used k = true -> resolve k = Ok sc -> schema v = sc -> v = getOrCreate k sc b ->
  status v = valueUndefined -> same kv p' p -> coherent p' kv -> o ≡ seen p kv k -> (forall u, o = Some u -> ok k u) ->
  let b' := put_record k (loaded_value v o) b in
  coherent (b' :: p') kv /\ same kv (b' :: p') (b :: p).
Proof.
  intros (Hd & _ & Hr) Hu Hk Hsc Hv Hst Hs Hc Ho Hok. cbv zeta.
  assert (Hseen : forall k', seen p' kv k' ≡ seen p kv k') by (intros; by apply same_seen).
  assert (Hdirty : Value_IsDirty (loaded_value v o) = false) by (by destruct o).
  split.
  - split; [done|]. split; [done|]. simpl. intros k' w. destruct (decide (k' = k)) as [->|Hne].
    + rewrite lookup_insert_eq. intros [= <-]. split; [done|]. unfold loaded_value.
      destruct o as [u|]; simpl; (split; [by rewrite Hsc|]).
      * split; [by rewrite Hseen, <- Ho|by apply Hok].
      * apply None_equiv_eq. by rewrite Hseen, <- Ho.
    + rewrite lookup_insert_ne by done. intros E. destruct (Hr k' w E) as (Hu' & Hk' & Ha). split; [done|]. split; [done|].
      destruct (status w); try done.
      * apply None_equiv_eq. by rewrite Hseen, Ha.
      * by rewrite Hseen.
  - split; [|done]. intros k'. rewrite (seen_put _ _ _ _ _ _ _ Hu Hk), Hdirty. rewrite !seen_cons.
    destruct (decide (k' = k)) as [->|Hne].
    + rewrite Hk, Hu, Hseen. destruct (records b !! k) as [w|] eqn:E; [|done].
      unfold getOrCreate in Hv. rewrite E in Hv. simpl in Hv. subst w. unfold Value_IsDirty. by rewrite Hst.
    + destruct (resolve k'), (used k'), (records b !! k') as [w|]; try apply Hseen. destruct (Value_IsDirty w); [done|apply Hseen].
Qed.

(** What the status of a record says about what its batch sees. *)
Lemma getOrCreate_seen k sc b p kv :
  used k = true -> resolve k = Ok sc -> coherent (b :: p) kv ->
  let v := getOrCreate k sc b in
  schema v = sc /\
  match status v with
  | valueUndefined => seen (b :: p) kv k = seen p kv k
  | valueNotFound => seen (b :: p) kv k = None
  | valueClean | valueDirty => seen (b :: p) kv k ≡ Some (value v) /\ ok k (value v)
  end.
Proof.
  intros Hu Hk (_ & _ & Hr). cbv zeta. unfold getOrCreate. rewrite seen_cons, Hk, Hu. destruct (records b !! k) as [v|] eqn:E; [|done].
  destruct (Hr k v E) as (_ & Hsc & Ha). rewrite Hk in Hsc. injection Hsc as ->. split; [done|].
  unfold Value_IsDirty. simpl. by destruct (status v).
Qed.

Lemma Value_Get_cons k sc b p kv :
  Value_Get key_Hash resolve k sc (b :: p) kv =
  let v := getOrCreate k sc b in
  match status v with
  | valueNotFound => (Err ErrNotFound, b :: p)
  | valueClean | valueDirty => (Ok (value v), b :: p)
  | valueUndefined =>
      let '(loaded, p) :=
        match p with
        | [] => (kv_GetValue key_Hash k v kv, [])
        | q :: _ =>
            if done q then (Panic "attempted to use a commited or discarded batch", p)
            else
              match resolve k with
              | Ok sc' => let '(r, p) := Value_Get key_Hash resolve k sc' p kv in (let! u := r in LoadValue sc' u false v, p)
              | Err e => (Err e, p)
              | Panic s => (Panic s, p)
              end
        end in
      let '(r, v) := did_load v loaded in
      (r, put_record k v b :: p)
  end.
Proof. done. Qed.

(** Reading a record answers what the batch sees and changes nothing that is seen. *)
Lemma Value_Get_spec k sc b p kv :
  used k = true -> resolve k = Ok sc -> coherent (b :: p) kv ->
  exists o cs, Value_Get key_Hash resolve k sc (b :: p) kv = (found o, cs) /\ o ≡ seen (b :: p) kv k /\
    (forall u, o = Some u -> ok k u) /\ coherent cs kv /\ same kv cs (b :: p).
Proof.
  intros Hu Hk. revert b. induction p as [|q p IH]; intros b Hc.
  all: pose proof (getOrCreate_seen k sc b _ kv Hu Hk Hc) as [Hsc Hst]; pose proof Hc as (Hd & Hp & Hr).
  all: rewrite Value_Get_cons; cbv zeta; set (v := getOrCreate k sc b) in *; destruct (status v) eqn:Est.
  all: try (exists None; eexists; split; [reflexivity|]; split; [by rewrite Hst|];
            split; [done|]; split; [done|apply same_refl]).
  all: try (destruct Hst as [Hst Hok]; exists (Some (value v)); eexists; split; [reflexivity|]; split; [by rewrite Hst|];
            split; [by intros ? [= <-]|]; split; [done|apply same_refl]).
  - rewrite (did_load_kv k v kv sc Hp Hu Hk Hsc). rewrite Hst.
    assert (Hok : forall u, seen [] kv k = Some u -> ok k u) by (intros u; by apply seen_ok).
    exists (seen [] kv k). eexists. split; [reflexivity|]. split; [done|]. split; [done|].
    apply (put_loaded b [] [] kv k v sc); done.
  - pose proof Hp as (Hdq & _). rewrite Hdq, Hk. destruct (IH q Hp) as (o & cs & E & Ho & Hok & Hcs & Hsame). rewrite E.
    destruct (did_load_parent k v sc o Hk Hsc Hok) as (o' & -> & Ho' & Hok').
    { intros ->. apply (seen_missing (q :: p) kv k sc Hu Hk). by apply None_equiv_eq. }
    exists o'. eexists. split; [reflexivity|]. assert (Hoo : o' ≡ seen (q :: p) kv k) by by rewrite Ho'.
    split; [by rewrite Hst|]. split; [done|]. by apply (put_loaded b (q :: p) cs kv k v sc).
Qed.

(** ** Writing *)

Lemma Put_spec k sc u b p kv :
  used k = true -> resolve k = Ok sc -> ok k u -> coherent (b :: p) kv ->
  exists c, Put k sc u (b :: p) = c :: p /\ coherent (c :: p) kv /\
    forall k', seen (c :: p) kv k' = if decide (k' = k) then Some u else seen (b :: p) kv k'.
Proof.
  intros Hused Hk Hu Hc. pose proof (getOrCreate_seen k sc b p kv Hused Hk Hc) as [Hsc _]. destruct Hc as (Hd & Hp & Hr).
  eexists. split; [reflexivity|]. split.
  - split; [done|]. split; [done|]. simpl. intros k' w. destruct (decide (k' = k)) as [->|Hne].
    + rewrite lookup_insert_eq. intros [= <-]. split; [done|]. split; [simpl; by rewrite Hsc|done].
    + rewrite lookup_insert_ne by done. apply Hr.
  - intros k'. by rewrite (seen_put _ _ _ _ _ _ _ Hused Hk).
Qed.

(** ** Committing *)

(** The state after some records were committed. *)
Definition committed (l : list (K * Value V)) (st st' : State) : Prop :=
  coherent st'.1 st'.2 /\
  (forall k, seen st'.1 st'.2 k ≡
     match (list_to_map l : gmap K (Value V)) !! k with
     | Some v => if Value_IsDirty v then Some (value v) else seen st.1 st.2 k
     | None => seen st.1 st.2 k
     end) /\
  match st.1, st'.1 with
  | [], [] => True
  | _ :: p, _ :: p' => p' = p /\ st'.2 = st.2
  | _, _ => False
  end.

Lemma Value_Commit_spec k v bs kv :
  coherent bs kv -> used k = true -> resolve k = Ok (schema v) -> (Value_IsDirty v = true -> ok k (value v)) ->
  exists st', Value_Commit key_Hash resolve k v (bs, kv) = Ok st' /\ committed [(k, v)] (bs, kv) st'.
Proof.
  intros Hc Hu Hk Hok. unfold Value_Commit. destruct (Value_IsDirty v) eqn:Hd; cbn [negb].
  2:{ eexists. split; [done|]. split; [done|]. split.
      - intros k'. simpl. destruct (decide (k' = k)) as [->|Hne].
        + by rewrite lookup_insert_eq, Hd.
        + by rewrite lookup_insert_ne.
      - simpl. by destruct bs. }
  specialize (Hok eq_refl). destruct bs as [|p rest].
  - destruct Hc as [Hw Hkv]. destruct (law_survives _ _ _ _ Hlaws _ _ _ Hk Hok) as (b & u' & Em & Hne & Eu & Heqv & Hok').
    unfold kv_PutValue. rewrite Em. cbn [res_bind].
    destruct (kv_Put_view (key_Hash k) b kv Hw) as (kv' & -> & Hw' & Hview). eexists. split; [done|].
    assert (Hother : forall k', used k' = true -> k' <> k -> kv_view kv' !! key_Hash k' = kv_view kv !! key_Hash k').
    { intros k' Hk' Hkk. rewrite Hview, lookup_insert_ne; [done|]. intros E. apply Hkk. symmetry.
      by eapply (law_hash _ _ _ _ Hlaws). }
    split; [split; [done|]|split; [|done]]; simpl.
    + intros k' sc' c d Hu' Hk' E. destruct (decide (k' = k)) as [->|Hkk].
      * rewrite Hview, lookup_insert_eq in E. injection E as ->. rewrite Hk' in Hk. injection Hk as ->. eauto.
      * rewrite (Hother _ Hu' Hkk) in E. by eapply Hkv.
    + intros k'. destruct (decide (k' = k)) as [->|Hkk].
      * rewrite lookup_insert_eq, Hd. unfold seen. rewrite Hk, Hu. simpl. rewrite Hview, lookup_insert_eq.
        destruct b as [|c b]; [done|]. rewrite Eu. by constructor.
      * rewrite lookup_insert_ne, lookup_empty by done. unfold seen. destruct (resolve k') as [sc'| |]; try done.
        destruct (used k') eqn:Hu'; [|done]. simpl. by rewrite (Hother _ Hu' Hkk).
  - pose proof Hc as (Hdp & Hp & Hr). rewrite Hdp, Hk. cbn [res_bind].
    pose proof (getOrCreate_seen k (schema v) p rest kv Hu Hk Hc) as [Hsc _].
    unfold LoadValue. rewrite Hsc, (law_is _ _ _ _ Hlaws _ _ _ Hk Hok). cbn [negb res_bind].
    eexists. split; [done|]. split; [|split; [|done]]; simpl.
    + split; [done|]. split; [done|]. intros k' w. destruct (decide (k' = k)) as [->|Hne].
      * rewrite lookup_insert_eq. by intros [= <-].
      * rewrite lookup_insert_ne by done. apply Hr.
    + intros k'. rewrite (seen_put _ _ _ _ _ _ _ Hu Hk). destruct (decide (k' = k)) as [->|Hne].
      * by rewrite lookup_insert_eq, Hd.
      * by rewrite lookup_insert_ne, lookup_empty.
Qed.

Lemma committed_cons k v l st st1 st2 :
  k ∉ l.*1 -> committed [(k, v)] st st1 -> committed l st1 st2 -> committed ((k, v) :: l) st st2.
Proof.
  intros Hn (_ & Hs1 & Hp1) (Hc2 & Hs2 & Hp2). split; [done|]. split.
  - intros k'. rewrite Hs2. specialize (Hs1 k'). simpl in *. destruct (decide (k' = k)) as [->|Hne].
    + rewrite lookup_insert_eq in Hs1 |- *. by rewrite not_elem_of_list_to_map_1.
    + rewrite lookup_insert_ne in Hs1 |- * by done. rewrite lookup_empty in Hs1.
      destruct (_ !! k') as [w|]; [|done]. by destruct (Value_IsDirty w).
  - destruct (st.1), (st1.1), (st2.1); try done. naive_solver congruence.
Qed.

Lemma commit_records_spec l bs kv :
  coherent bs kv -> NoDup l.*1 ->
  (forall k v, (k, v) ∈ l -> used k = true /\ resolve k = Ok (schema v) /\ (Value_IsDirty v = true -> ok k (value v))) ->
  exists st', commit_records key_Hash resolve l (bs, kv) = (Ok tt, st') /\ committed l (bs, kv) st'.
Proof.
  revert bs kv. induction l as [|[k v] l IH]; intros bs kv Hc Hnd Hl.
  { eexists. split; [done|]. split; [done|]. split; [|simpl; by destruct bs]. intros k. simpl. by rewrite lookup_empty. }
  rewrite fmap_cons, NoDup_cons in Hnd. destruct Hnd as [Hn Hnd].
  destruct (Hl k v ltac:(set_solver)) as (Hu & Hk & Hok).
  destruct (Value_Commit_spec k v bs kv Hc Hu Hk Hok) as ([bs1 kv1] & E1 & Hcom1).
  destruct (IH bs1 kv1 (proj1 Hcom1) Hnd) as (st2 & E2 & Hcom2); [set_solver|].
  exists st2. cbn [commit_records]. rewrite E1. split; [done|]. by eapply committed_cons.
Qed.

Context (Horder : forall m, order m ≡ₚ map_to_list m).

(** Committing a batch gives its store the view that the batch had. *)
Lemma Commit_spec b p kv :
  coherent (b :: p) kv ->
  exists p' kv', Commit key_Hash resolve order (b :: p) kv = (Ok tt, (p', kv')) /\ coherent p' kv' /\
    (forall k, seen p' kv' k ≡ seen (b :: p) kv k) /\
    match p, p' with
    | [], [] => True
    | _ :: r, _ :: r' => r' = r /\ kv' = kv
    | _, _ => False
    end.
Proof.
  intros Hc. pose proof Hc as (Hd & Hp & Hr). unfold Commit. rewrite Hd.
  assert (Hnd : NoDup (order (records b)).*1) by (rewrite Horder; apply NoDup_fst_map_to_list).
  assert (Hin : forall k v, (k, v) ∈ order (records b) -> records b !! k = Some v).
  { intros k v. rewrite Horder. apply elem_of_map_to_list. }
  destruct (commit_records_spec (order (records b)) p kv Hp Hnd) as ([p' kv'] & E & Hc' & Hs & Hshape).
  { intros k v Hkv. destruct (Hr k v (Hin k v Hkv)) as (Hu & Hk & Ha). split; [done|]. split; [done|].
    unfold Value_IsDirty. by destruct (status v). }
  exists p', kv'. split; [done|]. split; [done|]. split; [|exact Hshape].
  intros k. rewrite Hs, seen_cons. simpl.
  assert (Em : (list_to_map (order (records b)) : gmap K (Value V)) !! k = records b !! k).
  { rewrite (list_to_map_proper _ _ Hnd (Horder _)). by rewrite list_to_map_to_list. }
  rewrite Em. destruct (records b !! k) as [v|] eqn:Ek; [|by destruct (resolve k), (used k)].
  destruct (Hr k v Ek) as (-> & -> & _). done.
Qed.

(** ** The simulation *)

Fixpoint views (bs : list (@Batch V K _ _)) (kv : S) (ms : list (View V K)) : Prop :=
  match bs, ms with
  | [], [] => True
  | b :: p, m :: ms => (forall k, seen (b :: p) kv k ≡ m k) /\ views p kv ms
  | _, _ => False
  end.

(** The views of the specification are those of the batches and of the store. *)
Definition implements (st : State) (s : Spec V K) : Prop :=
  coherent st.1 st.2 /\ views st.1 st.2 s.1 /\ (forall k, seen [] st.2 k ≡ s.2 k).

(** The keys are those of the data model, and the contents are proper ones. *)
Definition proper_op (o : Op V K) : Prop :=
  match o with
  | OGet k => used k = true /\ exists sc, resolve k = Ok sc
  | OPut k u => used k = true /\ (exists sc, resolve k = Ok sc) /\ ok k u
  | _ => True
  end.

Lemma views_same bs cs kv ms : same kv cs bs -> views bs kv ms -> views cs kv ms.
Proof.
  revert cs ms. induction bs as [|b p IH]; intros [|c q] [|m ms]; simpl; try done.
  intros [Hs Hq] [Hv Hp]. split; [|by apply IH]. intros k. rewrite Hs. apply Hv.
Qed.

Lemma implements_top bs kv ms m0 k :
  implements (bs, kv) (ms, m0) -> seen bs kv k ≡ spec_top (ms, m0) k.
Proof. intros (_ & Hv & Hm0). destruct bs, ms; simpl in *; try done. destruct Hv as [Hv _]. apply Hv. Qed.

(** Equal answers, up to the equivalence of contents. *)
Inductive answer_eqv : Answer V -> Answer V -> Prop :=
| eqv_found u u' : u ≡ u' -> answer_eqv (Found u) (Found u')
| eqv_same a : answer_eqv a a.

Lemma answer_found o o' :
  o ≡ o' -> answer_eqv (answer (found o)) (match o' with Some u => Found u | None => Missing end).
Proof. intros [u u' Hu|]; by constructor. Qed.

Lemma step_refines o st s :
  implements st s -> proper_op o ->
  answer_eqv (step o st).1 (spec_step o s).1 /\ implements (step o st).2 (spec_step o s).2.
Proof.
  intros Hi Ho. destruct st as [bs kv], s as [ms m0]. pose proof Hi as (Hc & Hv & Hm0). cbn [fst snd] in *.
  destruct o as [|k|k u| |].
  - split; [constructor|]. split; [|split; [|done]].
    + split; [done|]. split; [done|]. intros k v. simpl. by rewrite lookup_empty.
    + split; [|done]. intros k. rewrite seen_cons. simpl. rewrite lookup_empty. destruct (resolve k), (used k);
        by rewrite (implements_top _ _ _ _ _ Hi).
  - destruct bs as [|b p], ms as [|m ms]; [by split; [constructor|]|done..|]. destruct Ho as (Hu & sc & Hk).
    cbn [step spec_step]. rewrite Hk. destruct (Value_Get_spec k sc b p kv Hu Hk Hc) as (o & cs & -> & Ho & _ & Hcs & Hs).
    cbn [fst snd]. split; [apply answer_found; by rewrite Ho, (implements_top _ _ _ _ k Hi)|].
    split; [done|]. split; [|done]. by eapply views_same.
  - destruct bs as [|b p], ms as [|m ms]; [by split; [constructor|]|done..|]. destruct Ho as (Hused & [sc Hk] & Hu).
    cbn [step spec_step]. rewrite Hk. destruct (Put_spec k sc u b p kv Hused Hk Hu Hc) as (c & -> & Hcs & Hs).
    destruct Hv as [Hv Hvp]. split; [constructor|]. split; [done|]. split; [|done]. split; [|done].
    intros k'. rewrite Hs. unfold view_put. destruct (decide (k' = k)); [done|]. apply Hv.
  - destruct bs as [|b p], ms as [|m ms]; [by split; [constructor|]|done..|].
    cbn [step spec_step]. destruct (Commit_spec b p kv Hc) as (p' & kv' & -> & Hc' & Hs & Hshape).
    destruct Hv as [Hv Hvp]. destruct p as [|q r], p' as [|q' r'], ms as [|m1 ms]; try done.
    + split; [constructor|]. split; [done|]. split; [done|]. intros k. by rewrite Hs, Hv.
    + destruct Hshape as [-> ->]. destruct Hvp as [Hv1 Hvp]. split; [constructor|]. split; [done|]. split; [|done].
      split; [|done]. intros k. by rewrite Hs, Hv.
  - destruct bs as [|b p], ms as [|m ms]; [by split; [constructor|]|done..|]. destruct Hv as [Hv Hvp], Hc as (_ & Hc & _).
    split; [constructor|]. by split.
Qed.

Lemma run_refines os st s : implements st s -> Forall proper_op os -> Forall2 answer_eqv (run os st) (spec_run os s).
Proof.
  revert st s. induction os as [|o os IH]; intros st s Hi Ho; [constructor|]. apply Forall_cons in Ho as [Ho Hos].
  destruct (step_refines o st s Hi Ho) as [Ha Hi']. simpl. destruct (step o st), (spec_step o s).
  constructor; [done|]. by apply IH.
Qed.

(** The operations of the record layer implement the specification. *)
Lemma batches_refine os kv :
  kv_ok kv -> Forall proper_op os -> Forall2 answer_eqv (run os ([], kv)) (spec_run os ([], seen [] kv)).
Proof. intros Hkv Ho. by apply run_refines; [split; [done|split]|]. Qed.

End Refinement.
