(* ===== verification/DataModel.v ===== *)
(** * The data model of the database: [internal/database/model_gen.go],
      [smt/managed/model_gen.go], [account_chains.go] and the encodable values of
      [internal/database/record] ([wrapped.go], [helpers.go], [set.go], [value.go])

    Which record a key stands for, and how the contents of each record are copied and
    written.  A URL in a key is given by its account identifier: that is what the maps of
    the data model are indexed by and what the storage key is made from.  The fields that
    are sets of values are single records whose contents are sorted lists. *)

From S2P Require Import Prelude Sha256 Encoding Codec CodecProofs Storage MerkleState Url UrlParse Enums Wire.
From S2P Require Import TypesGeneral TypesAccounts TypesSignatures TypesTransactions TypesStatus TypesDatabase.
From S2P Require Import Chain ChainProofs Records RecordsProofs.
Local Open Scope Z_scope.
Import Url TxID.

(** ** Keys *)

Inductive Part :=
| PString (s : string)
| PUrl (id : bytes)
| PHash (h : bytes)
| PBytes (b : bytes)
| PUint (v : Z)
| PInt (v : Z).

#[export] Instance Part_eq_dec : EqDecision Part.
Proof. solve_decision. Defined.
#[export] Instance Part_countable : Countable Part.
Proof.
  refine (inj_countable' (fun p => match p with
    | PString s => inl (inl s) | PUrl b => inl (inr (0%Z, b)) | PHash b => inl (inr (1%Z, b)) | PBytes b => inl (inr (2%Z, b))
    | PUint v => inr (true, v) | PInt v => inr (false, v) end)
   (fun x => match x with
    | inl (inl s) => PString s
    | inl (inr (t, b)) => if t =? 0 then PUrl b else if t =? 1 then PHash b else PBytes b
    | inr (true, v) => PUint v | inr (false, v) => PInt v end) _).
  by intros [].
Defined.

Definition RecordKey : Type := list Part.

Definition key_part (p : Part) : KeyPart :=
  match p with
  | PString s => KString s
  | PUrl b | PHash b | PBytes b => KBytes b
  | PUint v => KUint v
  | PInt v => KInt v
  end.

(** [Key.Hash] *)
Definition Key_Hash (k : RecordKey) : Storage.Key := MakeKey (key_part <$> k).

(** ** Encodable values *)

Record Encodable (T : Type) := mkEncodable {
  e_copy : T -> T; e_marshal : T -> res bytes; e_unmarshal : bytes -> res T }.
Arguments mkEncodable {T}.
Arguments e_copy {T}.
Arguments e_marshal {T}.
Arguments e_unmarshal {T}.

(** [marshalAsString] and [unmarshalFromString] *)
Definition marshalAsString {T} (String_ : T -> bytes) (v : T) : res bytes :=
  Ok (Encoding.StringMarshalBinary (String.string_of_list_byte (String_ v))).
Definition unmarshalFromString {T} (parse : bytes -> res T) (data : bytes) : res T :=
  let! s := Encoding.StringUnmarshalBinary data in parse (String.list_byte_of_string s).

Definition UintWrapper : Encodable Z :=
  mkEncodable (fun v => v) (fun v => Ok (Encoding.UvarintMarshalBinary v)) Encoding.UvarintUnmarshalBinary.
Definition BytesWrapper : Encodable bytes :=
  mkEncodable (fun v => v) (fun v => Ok (Encoding.BytesMarshalBinary v))
    (fun data => let! b := Encoding.BytesUnmarshalBinary data in Ok (default [] b)).
Definition HashWrapper : Encodable bytes :=
  mkEncodable (fun v => v) (fun v => Ok (Encoding.ChainMarshalBinary v)) Encoding.ChainUnmarshalBinary.
Definition UrlWrapper : Encodable URL :=
  mkEncodable (fun v => v) (marshalAsString URL_String) (unmarshalFromString Parse).
Definition TxidWrapper : Encodable TxID :=
  mkEncodable (fun v => v) (marshalAsString TxID_String) (unmarshalFromString ParseTxID).

(** [sliceValue]: a field 1 per element.  A panic of the decoder of an element is an
    error here. *)
Definition marshalSlice {T} (e : Encodable T) (l : list T) : res bytes :=
  Wire.finish [] (range l (fun u => writeValue 1 (e_marshal e u)) NewWriter).
Definition unmarshalSlice {T} (e : Encodable T) (data : bytes) : res (list T) :=
  let '(l, r) := read_list (readValue 1 (e_unmarshal e)) (NewReader data) in
  let '(_, err, _) := Reader_Reset r in
  match err with Some e => errorf e | None => Ok l end.
Definition sliceValue {T} (e : Encodable T) : Encodable (list T) :=
  mkEncodable (fmap (e_copy e)) (marshalSlice e) (unmarshalSlice e).

Section Model.
Context {SG TB ER : Type} `{Union SG, Union TB, Union ER}.

(** [Struct] and [Union] of the types that are stored. *)
Definition StateStruct : Encodable MerkleState :=
  mkEncodable MerkleState_Copy MerkleState_Marshal MerkleState_UnMarshal.
Definition ChainMetadataStruct : Encodable ChainMetadata :=
  mkEncodable ChainMetadata_Copy ChainMetadata_MarshalBinary (ChainMetadata_UnmarshalBinary new_ChainMetadata).
Definition SigOrTxnStruct : Encodable (SigOrTxn SG TB) :=
  mkEncodable SigOrTxn_Copy SigOrTxn_MarshalBinary (SigOrTxn_UnmarshalBinary new_SigOrTxn).
Definition StatusStruct : Encodable (TransactionStatus TB ER) :=
  mkEncodable TransactionStatus_Copy TransactionStatus_MarshalBinary (TransactionStatus_UnmarshalBinary new_TransactionStatus).
Definition sigSetStruct : Encodable sigSetData :=
  mkEncodable sigSetData_Copy sigSetData_MarshalBinary (sigSetData_UnmarshalBinary new_sigSetData).
Definition ChainEntryStruct : Encodable TransactionChainEntry :=
  mkEncodable TransactionChainEntry_Copy TransactionChainEntry_MarshalBinary
    (TransactionChainEntry_UnmarshalBinary new_TransactionChainEntry).
Definition AccountUnion : Encodable (Account TB) :=
  mkEncodable Account_Copy Account_MarshalBinary UnmarshalAccount.

(** The contents of the records; [VNil] is the zero value of a pointer or an interface. *)
Inductive DbValue :=
| VNil
| VUint (v : Z)
| VBytes (b : bytes)
| VHash (h : bytes)
| VUrl (u : URL)
| VAccount (a : Account TB)
| VState (s : MerkleState)
| VSigOrTxn (x : SigOrTxn SG TB)
| VStatus (s : TransactionStatus TB ER)
| VSigSet (d : sigSetData)
| VTxids (l : list TxID)
| VUrls (l : list URL)
| VHashes (l : list bytes)
| VChains (l : list ChainMetadata)
| VEntries (l : list TransactionChainEntry).

(** A value record of a given type, from the type's encodable value. *)
Definition schema_for {T} (e : Encodable T) (missing : bool) (new : DbValue) (make : T -> DbValue) (cast : DbValue -> option T)
  : Schema DbValue :=
  mkSchema missing new
    (fun v => match cast v with Some x => make (e_copy e x) | None => v end)
    (fun v => match cast v with Some x => e_marshal e x | None => Panic "invalid memory address or nil pointer dereference" end)
    (fun b => let! x := e_unmarshal e b in Ok (make x))
    (fun v => match v with VNil => true | _ => match cast v with Some _ => true | None => false end end).

Inductive Kind :=
| KindUint | KindBytes | KindHash | KindUrl | KindAccount | KindState | KindSigOrTxn | KindStatus | KindSigSet
| KindTxids | KindUrls | KindHashes | KindChains | KindEntries.

Definition kind_schema (missing : bool) (k : Kind) : Schema DbValue :=
  match k with
  | KindUint => schema_for UintWrapper missing (VUint 0) VUint (fun v => match v with VUint x => Some x | _ => None end)
  | KindBytes => schema_for BytesWrapper missing (VBytes []) VBytes (fun v => match v with VBytes x => Some x | _ => None end)
  | KindHash => schema_for HashWrapper missing (VHash hash_zero) VHash (fun v => match v with VHash x => Some x | _ => None end)
  | KindUrl => schema_for UrlWrapper missing VNil VUrl (fun v => match v with VUrl x => Some x | _ => None end)
  | KindAccount => schema_for AccountUnion missing VNil VAccount (fun v => match v with VAccount x => Some x | _ => None end)
  | KindState => schema_for StateStruct missing (VState newMerkleState) VState (fun v => match v with VState x => Some x | _ => None end)
  | KindSigOrTxn => schema_for SigOrTxnStruct missing (VSigOrTxn new_SigOrTxn) VSigOrTxn (fun v => match v with VSigOrTxn x => Some x | _ => None end)
  | KindStatus => schema_for StatusStruct missing (VStatus new_TransactionStatus) VStatus (fun v => match v with VStatus x => Some x | _ => None end)
  | KindSigSet => schema_for sigSetStruct missing (VSigSet new_sigSetData) VSigSet (fun v => match v with VSigSet x => Some x | _ => None end)
  | KindTxids => schema_for (sliceValue TxidWrapper) missing (VTxids []) VTxids (fun v => match v with VTxids x => Some x | _ => None end)
  | KindUrls => schema_for (sliceValue UrlWrapper) missing (VUrls []) VUrls (fun v => match v with VUrls x => Some x | _ => None end)
  | KindHashes => schema_for (sliceValue HashWrapper) missing (VHashes []) VHashes (fun v => match v with VHashes x => Some x | _ => None end)
  | KindChains => schema_for (sliceValue ChainMetadataStruct) missing (VChains []) VChains (fun v => match v with VChains x => Some x | _ => None end)
  | KindEntries => schema_for (sliceValue ChainEntryStruct) missing (VEntries []) VEntries (fun v => match v with VEntries x => Some x | _ => None end)
  end.

End Model.
Arguments DbValue : clear implicits.

(** ** Records *)

(** A value record: whether it may be missing, and what it holds.  [NewSet] makes a
    record that may be missing. *)
Record RecordKind := mkRecord { missing : bool; kind : Kind }.
Definition NewSet (k : Kind) : RecordKind := mkRecord true k.
Definition Required (k : Kind) : RecordKind := mkRecord false k.
Definition Optional (k : Kind) : RecordKind := mkRecord true k.

Definition bad_key {A} : res A := errors_new StatusInternalError "bad key".

(** [Value.Resolve] *)
Definition Value_Resolve (r : RecordKind) (key : RecordKey) : res RecordKind :=
  match key with [] => Ok r | _ => bad_key end.

(** [Counted.Resolve]: the count and the elements. *)
Definition Counted_Resolve (k : Kind) (key : RecordKey) : res RecordKind :=
  match key with
  | [] => Ok (Optional KindUint)
  | [PInt i] => if i <? 0 then Panic "index out of range" else Ok (Required k)
  | _ => bad_key
  end.

(** [Chain.Resolve] of [smt/managed] *)
Definition Chain_Resolve (key : RecordKey) : res RecordKind :=
  match key with
  | PString name :: key =>
      if String.eqb name "Head" then Value_Resolve (Optional KindState) key
      else if String.eqb name "States" then
        match key with PUint _ :: key => Value_Resolve (Required KindState) key | _ => bad_key end
      else if String.eqb name "ElementIndex" then
        match key with PBytes _ :: key => Value_Resolve (Required KindUint) key | _ => bad_key end
      else if String.eqb name "Element" then
        match key with PUint _ :: key => Value_Resolve (Required KindBytes) key | _ => bad_key end
      else bad_key
  | _ => bad_key
  end.

(** [Chain2.Resolve]: an index chain has no index chain of its own. *)
Definition Chain2_Resolve (index : bool) (key : RecordKey) : res RecordKind :=
  match key with
  | PString name :: rest =>
      if String.eqb name "Index" then
        if index then Panic "cannot index an index chain"
        else
          match rest with
          | PString name :: _ => if String.eqb name "Index" then Panic "cannot index an index chain" else Chain_Resolve rest
          | _ => Chain_Resolve rest
          end
      else Chain_Resolve key
  | _ => Chain_Resolve key
  end.

(** [AccountAnchorChain.Resolve] *)
Definition AnchorChain_Resolve (key : RecordKey) : res RecordKind :=
  match key with
  | PString name :: key =>
      if String.eqb name "Root" then Chain2_Resolve false key
      else if String.eqb name "BPT" then Chain2_Resolve false key
      else bad_key
  | _ => bad_key
  end.

(** [AccountData.Resolve] *)
Definition Data_Resolve (key : RecordKey) : res RecordKind :=
  match key with
  | PString name :: key =>
      if String.eqb name "Entry" then Counted_Resolve KindHash key
      else if String.eqb name "Transaction" then
        match key with PHash _ :: key => Value_Resolve (Required KindHash) key | _ => bad_key end
      else bad_key
  | _ => bad_key
  end.

(** [Account.Resolve] *)
Definition Account_Resolve (key : RecordKey) : res RecordKind :=
  match key with
  | PString name :: key =>
      if String.eqb name "Url" then Value_Resolve (Required KindUrl) key
      else if String.eqb name "Main" then Value_Resolve (Required KindAccount) key
      else if String.eqb name "Pending" then Value_Resolve (NewSet KindTxids) key
      else if String.eqb name "SyntheticForAnchor" then
        match key with PHash _ :: key => Value_Resolve (NewSet KindTxids) key | _ => bad_key end
      else if String.eqb name "Directory" then Value_Resolve (NewSet KindUrls) key
      else if String.eqb name "MainChain" then Chain2_Resolve false key
      else if String.eqb name "ScratchChain" then Chain2_Resolve false key
      else if String.eqb name "SignatureChain" then Chain2_Resolve false key
      else if String.eqb name "RootChain" then Chain2_Resolve false key
      else if String.eqb name "AnchorSequenceChain" then Chain2_Resolve false key
      else if String.eqb name "MajorBlockChain" then Chain2_Resolve true key
      else if String.eqb name "SyntheticSequenceChain" then
        match key with PString _ :: key => Chain2_Resolve false key | _ => bad_key end
      else if String.eqb name "AnchorChain" then
        match key with PString _ :: key => AnchorChain_Resolve key | _ => bad_key end
      else if String.eqb name "Chains" then Value_Resolve (NewSet KindChains) key
      else if String.eqb name "SyntheticAnchors" then Value_Resolve (NewSet KindHashes) key
      else if String.eqb name "Data" then Data_Resolve key
      else bad_key
  | _ => bad_key
  end.

(** [Transaction.Resolve] *)
Definition Transaction_Resolve (key : RecordKey) : res RecordKind :=
  match key with
  | PString name :: key =>
      if String.eqb name "Main" then Value_Resolve (Required KindSigOrTxn) key
      else if String.eqb name "Status" then Value_Resolve (Optional KindStatus) key
      else if String.eqb name "Produced" then Value_Resolve (NewSet KindTxids) key
      else if String.eqb name "Signatures" then
        match key with PUrl _ :: key => Value_Resolve (Optional KindSigSet) key | _ => bad_key end
      else if String.eqb name "Chains" then Value_Resolve (NewSet KindEntries) key
      else bad_key
  | _ => bad_key
  end.

(** [SystemData.Resolve] *)
Definition SystemData_Resolve (key : RecordKey) : res RecordKind :=
  match key with
  | PString name :: key =>
      if String.eqb name "SyntheticIndexIndex" then
        match key with PUint _ :: key => Value_Resolve (Required KindUint) key | _ => bad_key end
      else bad_key
  | _ => bad_key
  end.

(** [Batch.Resolve], and [resolveValue], which follows a key to its end. *)
Definition resolveValue (key : RecordKey) : res RecordKind :=
  match key with
  | PString name :: key =>
      if String.eqb name "Account" then match key with PUrl _ :: key => Account_Resolve key | _ => bad_key end
      else if String.eqb name "Transaction" then match key with PHash _ :: key => Transaction_Resolve key | _ => bad_key end
      else if String.eqb name "SystemData" then match key with PString _ :: key => SystemData_Resolve key | _ => bad_key end
      else bad_key
  | _ => bad_key
  end.

(** The record of the data model that a key stands for. *)
Definition resolve {SG TB ER} `{Union SG, Union TB, Union ER} (key : RecordKey) : res (Schema (DbValue SG TB ER)) :=
  let! r := resolveValue key in Ok (kind_schema (missing r) (kind r)).

(** ** Accessors

    The methods of the data model that return a record, with the key they give it. *)

Inductive ChainName :=
| MainChain | ScratchChain | SignatureChain | RootChain | AnchorSequenceChain | MajorBlockChain
| SyntheticSequenceChain (partition : string) | AnchorRootChain (partition : string) | AnchorBPTChain (partition : string).

Inductive ChainRecord := Head | States (index : Z) | ElementIndex (hash : bytes) | Element (index : Z).

Inductive Accessor :=
| Account_getUrl (id : bytes)
| Account_Main (id : bytes)
| Account_Pending (id : bytes)
| Account_SyntheticForAnchor (id anchor : bytes)
| Account_Directory (id : bytes)
| Account_Chain (id : bytes) (c : ChainName) (index : bool) (r : ChainRecord)
| Account_Chains (id : bytes)
| Account_SyntheticAnchors (id : bytes)
| Account_Data_Entry (id : bytes) (i : option Z)
| Account_Data_Transaction (id entryHash : bytes)
| Transaction_Main (hash : bytes)
| Transaction_Status (hash : bytes)
| Transaction_Produced (hash : bytes)
| Transaction_getSignatures (hash signer : bytes)
| Transaction_Chains (hash : bytes)
| SystemData_SyntheticIndexIndex (partition : string) (block : Z).

Definition chain_name_key (c : ChainName) : RecordKey :=
  match c with
  | MainChain => [PString "MainChain"]
  | ScratchChain => [PString "ScratchChain"]
  | SignatureChain => [PString "SignatureChain"]
  | RootChain => [PString "RootChain"]
  | AnchorSequenceChain => [PString "AnchorSequenceChain"]
  | MajorBlockChain => [PString "MajorBlockChain"]
  | SyntheticSequenceChain p => [PString "SyntheticSequenceChain"; PString p]
  | AnchorRootChain p => [PString "AnchorChain"; PString p; PString "Root"]
  | AnchorBPTChain p => [PString "AnchorChain"; PString p; PString "BPT"]
  end.

Definition chain_record_key (r : ChainRecord) : RecordKey :=
  match r with
  | Head => [PString "Head"]
  | States i => [PString "States"; PUint i]
  | ElementIndex h => [PString "ElementIndex"; PBytes h]
  | Element i => [PString "Element"; PUint i]
  end.

Definition account_key (id : bytes) : RecordKey := [PString "Account"; PUrl id].
Definition transaction_key (h : bytes) : RecordKey := [PString "Transaction"; PHash h].

Definition accessor_key (a : Accessor) : RecordKey :=
  match a with
  | Account_getUrl id => account_key id ++ [PString "Url"]
  | Account_Main id => account_key id ++ [PString "Main"]
  | Account_Pending id => account_key id ++ [PString "Pending"]
  | Account_SyntheticForAnchor id h => account_key id ++ [PString "SyntheticForAnchor"; PHash h]
  | Account_Directory id => account_key id ++ [PString "Directory"]
  | Account_Chain id c index r =>
      account_key id ++ chain_name_key c ++ (if index then [PString "Index"] else []) ++ chain_record_key r
  | Account_Chains id => account_key id ++ [PString "Chains"]
  | Account_SyntheticAnchors id => account_key id ++ [PString "SyntheticAnchors"]
  | Account_Data_Entry id None => account_key id ++ [PString "Data"; PString "Entry"]
  | Account_Data_Entry id (Some i) => account_key id ++ [PString "Data"; PString "Entry"; PInt i]
  | Account_Data_Transaction id h => account_key id ++ [PString "Data"; PString "Transaction"; PHash h]
  | Transaction_Main h => transaction_key h ++ [PString "Main"]
  | Transaction_Status h => transaction_key h ++ [PString "Status"]
  | Transaction_Produced h => transaction_key h ++ [PString "Produced"]
  | Transaction_getSignatures h id => transaction_key h ++ [PString "Signatures"; PUrl id]
  | Transaction_Chains h => transaction_key h ++ [PString "Chains"]
  | SystemData_SyntheticIndexIndex p b => [PString "SystemData"; PString p; PString "SyntheticIndexIndex"; PUint b]
  end.

Definition chain_record_kind (r : ChainRecord) : RecordKind :=
  match r with
  | Head => Optional KindState
  | States _ => Required KindState
  | ElementIndex _ => Required KindUint
  | Element _ => Required KindBytes
  end.

Definition accessor_kind (a : Accessor) : RecordKind :=
  match a with
  | Account_getUrl _ => Required KindUrl
  | Account_Main _ => Required KindAccount
  | Account_Pending _ | Account_SyntheticForAnchor _ _ => NewSet KindTxids
  | Account_Directory _ => NewSet KindUrls
  | Account_Chain _ _ _ r => chain_record_kind r
  | Account_Chains _ => NewSet KindChains
  | Account_SyntheticAnchors _ => NewSet KindHashes
  | Account_Data_Entry _ None => Optional KindUint
  | Account_Data_Entry _ (Some _) => Required KindHash
  | Account_Data_Transaction _ _ => Required KindHash
  | Transaction_Main _ => Required KindSigOrTxn
  | Transaction_Status _ => Optional KindStatus
  | Transaction_Produced _ => NewSet KindTxids
  | Transaction_getSignatures _ _ => Optional KindSigSet
  | Transaction_Chains _ => NewSet KindEntries
  | SystemData_SyntheticIndexIndex _ _ => Required KindUint
  end.

(** The major block chain is an index chain and has no index; elements are numbered from
    zero. *)
Definition accessor_ok (a : Accessor) : bool :=
  match a with
  | Account_Chain _ MajorBlockChain true _ => false
  | Account_Data_Entry _ (Some i) => 0 <=? i
  | _ => true
  end.

Lemma accessor_resolves a : accessor_ok a = true -> resolveValue (accessor_key a) = Ok (accessor_kind a).
Proof.
  destruct a as [| | | | |id c [] r| | |id [i|]| | | | | | |]; try done.
  - by destruct c, r.
  - by destruct c, r.
  - simpl. intros Hi%Z.leb_le. by rewrite (proj2 (Z.ltb_ge _ _)) by done.
Qed.

Lemma chain_record_key_inj r r' : chain_record_key r = chain_record_key r' -> r = r'.
Proof. destruct r, r'; simpl; intros E; by simplify_eq. Qed.

Lemma chain_key_inj c i r c' i' r' :
  chain_name_key c ++ (if i : bool then [PString "Index"] else []) ++ chain_record_key r =
  chain_name_key c' ++ (if i' : bool then [PString "Index"] else []) ++ chain_record_key r' ->
  c = c' /\ i = i' /\ r = r'.
Proof.
  intros E.
  assert (c = c' /\ (if i : bool then [PString "Index"] else []) ++ chain_record_key r =
                    (if i' : bool then [PString "Index"] else []) ++ chain_record_key r') as [-> E'].
  { destruct c, c'; simpl in E; by simplify_eq. }
  split; [done|]. destruct i, i'; simpl in E'.
  - injection E' as E'. split; [done|]. by apply chain_record_key_inj.
  - by destruct r'.
  - by destruct r.
  - split; [done|]. by apply chain_record_key_inj.
Qed.

(** The data model is consistent: every record is found under the key that its
    accessor gives it, with the same type and the same treatment of a missing value, so
    that a nested batch reads and writes the record of its parent, and different accessors
    have different keys. *)
Theorem accessors_consistent a b :
  accessor_ok a = true ->
  resolveValue (accessor_key a) = Ok (accessor_kind a) /\ (accessor_key a = accessor_key b -> a = b).
Proof.
  intros Ha. split; [by apply accessor_resolves|]. clear Ha. intros E.
  destruct a as [| | | | |? c ? r| | |? [|]| | | | | | |], b as [| | | | |? c' ? r'| | |? [|]| | | | | | |];
    simpl in E; try (by simplify_eq); try (by destruct c; simplify_eq); try (by destruct c'; simplify_eq).
  injection E as -> E. by apply chain_key_inj in E as (-> & -> & ->).
Qed.

Lemma accessors_consistent_witness :
  resolveValue (accessor_key (Account_Chain [] MainChain true Head)) = Ok (Optional KindState).
Proof.
  exact (proj1 (accessors_consistent (Account_Chain [] MainChain true Head) (Account_Main []) eq_refl)).
Defined.
