(* ===== verification/DataModelProofs.v ===== *)
(** * The database as a whole

    Every kind of content survives its format and its copies, up to the nils at the end of
    the pending hashes of a Merkle state, so that the record layer with this data model
    over a key-value store implements a stack of maps. *)

From S2P Require Import Prelude Sha256 Encoding Codec CodecProofs Storage MerkleTree MerkleState Url UrlParse Enums Wire.
From S2P Require Import TypesGeneral TypesAccounts TypesSignatures TypesTransactions TypesStatus TypesDatabase TypesProps.
From S2P Require Import Chain ChainProofs Records RecordsProofs DataModel.
Local Open Scope Z_scope.
Import Url TxID Binary.

(** ** Encodable values *)

(** [x] is written as something that is read back as [y]. *)
Definition encodes {T} (e : Encodable T) (x y : T) : Prop :=
  exists b, e_marshal e x = Ok b /\ b <> [] /\ e_unmarshal e b = Ok y.

(** An element of a slice: its encoding may be empty. *)
Definition element_ok {T} (e : Encodable T) (x : T) : Prop :=
  survives (e_marshal e) (e_unmarshal e) x /\ fits (e_marshal e x) /\ e_copy e x = x.

Lemma image_nonempty fs : image fs <> [].
Proof.
  destruct fs as [|f fs]; [done|]. intros E. pose proof (enc_all_nonempty f fs) as Hl.
  unfold image in E. rewrite E in Hl. done.
Qed.

Lemma PutUvarint_nonempty v : PutUvarint v <> [].
Proof. intros E. pose proof (zlen_PutUvarint v) as Hl. rewrite E in Hl. unfold zlen in Hl. simpl in Hl. lia. Qed.

Lemma slice_encodes {T} (e : Encodable T) l : (forall x, x ∈ l -> element_ok e x) -> encodes (sliceValue e) l l.
Proof.
  intros Hl. unfold encodes, sliceValue. cbn [e_marshal e_unmarshal].
  set (fs := (fun x => (1, FBytes (bytes_of (e_marshal e x)))) <$> l).
  assert (Hw : written (range l (fun u => writeValue 1 (e_marshal e u)) NewWriter) fs).
  { apply (written_range l _ 1 (fun x => FBytes (bytes_of (e_marshal e x))) NewWriter []); [apply written_new|].
    intros x w fs' Hx Hw. destruct (Hl x Hx) as (Hs & Hf & _). by eapply (written_nested 1 ltac:(wire_field)). }
  exists (image fs). split; [by apply finish_written|]. split; [apply image_nonempty|].
  unfold unmarshalSlice.
  destruct (read_list_ok 1 (readValue 1 (e_unmarshal e)) (fun x => FBytes (bytes_of (e_marshal e x))) [] l
              (NewReader (image fs))) as (r & -> & Hr).
  - rewrite app_nil_r. apply reading_new.
  - intros x Hx. destruct (Hl x Hx) as (Hs & Hf & _). by apply (reads_nested 1 ltac:(wire_field)).
  - apply (misses_nested 1 ltac:(wire_field)).
  - apply above_nil.
  - destruct Hr as [_ Hfin]. destruct (Hfin eq_refl) as [He _]. unfold Reader_Reset. by rewrite He.
Qed.

Lemma slice_copies {T} (e : Encodable T) l : (forall x, x ∈ l -> element_ok e x) -> e_copy (sliceValue e) l = l.
Proof. intros Hl. apply fmap_list_id. intros x Hx. by destruct (Hl x Hx) as (_ & _ & ?). Qed.

(** ** Wrapped values *)

Lemma string_nonempty s : Encoding.StringMarshalBinary s <> [].
Proof.
  unfold Encoding.StringMarshalBinary, Encoding.BytesMarshalBinary, Common.SliceBytes.
  intros [E _]%app_nil. by apply PutUvarint_nonempty in E.
Qed.

Lemma as_string_ok {T} (String_ : T -> bytes) parse x :
  parse (String_ x) = Ok x -> is_i64 (zlen (String_ x)) ->
  exists b, marshalAsString String_ x = Ok b /\ b <> [] /\ unmarshalFromString parse b = Ok x.
Proof.
  intros Hp Hl. eexists. split; [done|]. split; [apply string_nonempty|]. unfold unmarshalFromString.
  rewrite <- (app_nil_r (Encoding.StringMarshalBinary _)), Encoding.StringUnmarshalBinary_ok; cbn [res_bind];
    by rewrite String.list_byte_of_string_of_list_byte.
Qed.

Definition url_value (u : URL) : Prop := canonical u = true /\ is_i64 (zlen (URL_String u)).
Definition txid_value (t : TxID) : Prop :=
  canonical (url t) = true /\ UserInfo (url t) = [] /\ length (hash t) = 32%nat /\ is_i64 (zlen (TxID_String t)).

Lemma url_encodes u : url_value u -> encodes UrlWrapper u u.
Proof. intros [Hc Hl]. apply as_string_ok; [by apply Parse_canonical|done]. Qed.
Lemma txid_encodes t : txid_value t -> encodes TxidWrapper t t.
Proof. intros (Hc & Hu & Hh & Hl). apply as_string_ok; [by apply ParseTxID_canonical|done]. Qed.
Lemma hash_encodes h : length h = 32%nat -> encodes HashWrapper h h.
Proof.
  intros Hh. exists h. split; [done|]. split; [by intros ->|]. cbn. unfold Encoding.ChainUnmarshalBinary, zlen.
  rewrite Hh. cbn. by rewrite take_ge by lia.
Qed.
Lemma uint_encodes v : is_u64 v -> encodes UintWrapper v v.
Proof.
  intros Hv. exists (Encoding.UvarintMarshalBinary v). split; [done|]. split; [apply PutUvarint_nonempty|].
  change (Encoding.UvarintUnmarshalBinary (Encoding.UvarintMarshalBinary v) = Ok v).
  rewrite <- (app_nil_r (Encoding.UvarintMarshalBinary v)). by apply Encoding.UvarintUnmarshalBinary_ok.
Qed.
Lemma bytes_encodes b : is_i64 (zlen b) -> encodes BytesWrapper b b.
Proof.
  intros Hb. exists (Encoding.BytesMarshalBinary b). split; [done|]. split.
  - unfold Encoding.BytesMarshalBinary, Common.SliceBytes. intros [E _]%app_nil. by apply PutUvarint_nonempty in E.
  - change ((let! x := Encoding.BytesUnmarshalBinary (Encoding.BytesMarshalBinary b) in Ok (default [] x)) = Ok b).
    rewrite <- (app_nil_r (Encoding.BytesMarshalBinary b)), Encoding.BytesUnmarshalBinary_ok by done. by destruct b.
Qed.

(** ** Structures

    The writer counts what it writes, and an object without fields is written as one byte,
    so that the encoding of a structure is never empty. *)

Definition counted (w : Writer) : Prop := w_written w = zlen (w_buf w).
Definition counting (f : Writer -> Writer) : Prop := forall w, counted w -> counted (f w).

Lemma counting_did_write n b : counting (did_write n b).
Proof. intros w Hw. unfold counted in *. cbn. rewrite zlen_app. lia. Qed.
Lemma counting_unless_err f : counting f -> counting (unless_err f).
Proof. intros Hf w Hw. unfold unless_err. destruct (w_err w); [done|by apply Hf]. Qed.
Lemma counting_writeUint n v : counting (writeUint n v).
Proof. apply counting_unless_err, counting_did_write. Qed.
Lemma counting_writeInt n v : counting (writeInt n v).
Proof. apply counting_unless_err, counting_did_write. Qed.
Lemma counting_writeRaw n v : counting (writeRaw n v).
Proof. apply counting_unless_err. intros w Hw. case_match; [done|by apply counting_did_write]. Qed.
Lemma counting_writeField n : counting (writeField n).
Proof. apply counting_unless_err. intros w Hw. case_match; [done|by apply counting_did_write]. Qed.
Lemma counting_didMarshal n e : counting (didMarshal n e).
Proof. apply counting_unless_err. intros w Hw. by destruct e. Qed.

Lemma counting_when c f : counting f -> counting (when c f).
Proof. intros Hf w Hw. destruct c; [by apply Hf|done]. Qed.
Lemma counting_range {A} (l : list A) f : (forall x, counting (f x)) -> counting (range l f).
Proof.
  intros Hf w Hw. unfold range. revert w Hw. induction l as [|x l IH]; intros w Hw; [done|]. cbn. by apply IH, Hf.
Qed.
Lemma counting_deref {A} (o : option A) f : (forall x, counting (f x)) -> counting (deref o f).
Proof. intros Hf w Hw. destruct o as [x|]; [by apply Hf|done]. Qed.

(** Through the calls of the writer. *)
Ltac count :=
  repeat first
    [ apply counting_writeUint | apply counting_writeInt | apply counting_writeRaw | apply counting_writeField
    | apply counting_didMarshal ]; try done.

Lemma counting_WriteBytes n v : counting (WriteBytes n v).
Proof. intros w Hw. unfold WriteBytes. count. Qed.
Lemma counting_WriteString n v : counting (WriteString n v).
Proof. intros w Hw. unfold WriteString. count. Qed.
Lemma counting_WriteValue n m : counting (writeValue n m).
Proof. intros w Hw. unfold writeValue, WriteValue. destruct m; apply counting_WriteBytes; count. Qed.
Lemma counting_WriteUint n v : counting (WriteUint n v).
Proof. intros w Hw. unfold WriteUint. count. Qed.
Lemma counting_WriteTime n v : counting (WriteTime n v).
Proof. intros w Hw. unfold WriteTime. count. Qed.
Lemma counting_WriteBool n v : counting (WriteBool n v).
Proof. intros w Hw. unfold WriteBool. count. Qed.
Lemma counting_WriteHash n v : counting (WriteHash n v).
Proof. intros w Hw. unfold WriteHash. count. Qed.
Lemma counting_WriteBigInt n v : counting (WriteBigInt n v).
Proof. intros w Hw. unfold WriteBigInt. case_match; [done|by apply counting_WriteBytes]. Qed.

Lemma finish_nonempty extra w b : counted w -> finish extra w = Ok b -> b <> [].
Proof.
  intros Hw. unfold finish, Writer_Reset. destruct (Z.eqb_spec (w_written w) 0) as [Hz|Hz]; destruct w as [buf [] lst n]; cbn; try done.
  all: intros E ->; injection E as [E _]%app_nil; unfold counted in Hw; cbn in *.
  - by apply app_nil in E as [_ E].
  - subst buf. done.
Qed.

(** Down the fields of a structure. *)
Ltac count_fields :=
  repeat first
    [ apply counting_when | apply counting_range; intros | apply counting_deref; intros
    | apply counting_WriteUint | apply counting_WriteString | apply counting_WriteValue | apply counting_WriteTime
    | apply counting_WriteBool | apply counting_WriteHash | apply counting_WriteBytes | apply counting_WriteBigInt
    | progress unfold WriteEnum, writeUrl, writeTxid, WriteUrl ]; try done.

Lemma survives_encodes {T} (e : Encodable T) x :
  survives (e_marshal e) (e_unmarshal e) x -> (forall b, e_marshal e x = Ok b -> b <> []) -> encodes e x x.
Proof. intros (b & E & E') Hn. exists b. split; [done|]. split; [by apply Hn|done]. Qed.

Ltac structure := intros ? Hb; eapply finish_nonempty; [|exact Hb]; count_fields.

Section Contents.
Context {SG TB ER : Type} `{!Union SG, !Union TB, !Union ER} `{!UnionLaws SG, !UnionLaws TB, !UnionLaws ER}.

Lemma SigOrTxn_encodes (x : SigOrTxn SG TB) : SigOrTxn_ok x -> encodes SigOrTxnStruct x x.
Proof. intros Hx. apply survives_encodes; [by apply SigOrTxn_survives|]. structure. Qed.
Lemma Status_encodes (x : TransactionStatus TB ER) : TransactionStatus_ok x -> encodes StatusStruct x x.
Proof. intros Hx. apply survives_encodes; [by apply TransactionStatus_survives|]. structure. Qed.
Lemma sigSet_encodes x : sigSetData_ok x -> encodes sigSetStruct x x.
Proof. intros Hx. apply survives_encodes; [by apply sigSetData_survives|]. structure. Qed.
(** An account that can be written, but for the fractions of a second of its times. *)
Definition account_value (x : Account TB) : Prop := Account_ok (whole_seconds x) /\ account_stamped x.

Lemma Account_encodes (x : Account TB) : account_value x -> encodes AccountUnion x (whole_seconds x).
Proof.
  intros [Hx Hs]. apply Account_survives in Hx as (b & E & E'). rewrite Marshal_whole_seconds in E by done.
  exists b. split; [exact E|]. split; [|exact E']. clear Hs E'. revert b E. destruct x; cbn [Account_MarshalBinary].
  all: structure.
Qed.
Lemma account_value_whole x : account_value x -> account_value (whole_seconds x).
Proof. intros [Hx Hs]. split; [by rewrite whole_seconds_idem|by apply whole_seconds_stamped]. Qed.
Lemma account_value_copied x : account_value x -> Account_Copy x = x.
Proof. intros [Hx Hs]. by apply Copy_whole_seconds, Account_copied. Qed.

Lemma drop_nils_idem p : drop_nils (drop_nils p) = drop_nils p.
Proof. induction p as [|[b|] p IH]; done. Qed.
Lemma Trim_Trim m : MerkleState.Trim (MerkleState.Trim m) = MerkleState.Trim m.
Proof. unfold MerkleState.Trim. cbn. by rewrite rev_involutive, drop_nils_idem. Qed.

(** The state of a Merkle tree with some entries. *)
Definition state_value (m : MerkleState) : Prop :=
  exists l, Represents m l /\ Forall (fun h => length h = 32%nat) l /\ zlen l < 2 ^ 63 /\
    Forall proper_hash (HashList m) /\ zlen (HashList m) <= 2 ^ 43.

Lemma state_encodes m : state_value m -> encodes StateStruct m (MerkleState.Trim m).
Proof.
  intros (l & Hr & Hl & Hn & Hh & Hc). destruct (Marshal_UnMarshal m l Hr Hl Hn Hh Hc) as (b & E & E'). exists b.
  split; [done|]. split; [|done]. unfold MerkleState_Marshal in E. destruct (SparseHashList_MarshalBinary _ _); try done.
  injection E as <-. intros [E _]%app_nil. by apply PutUvarint_nonempty in E.
Qed.
Lemma state_value_Trim m : state_value m -> state_value (MerkleState.Trim m).
Proof. intros (l & Hr & Hrest). exists l. split; [by apply Represents_Trim|done]. Qed.

(** ** The contents of the records *)

Definition elements {T} (e : Encodable T) (P : T -> Prop) (l : list T) : Prop :=
  forall x, x ∈ l -> P x /\ fits (e_marshal e x).

Definition kind_ok (k : Kind) (v : DbValue SG TB ER) : Prop :=
  match k, v with
  | KindUint, VUint x => is_u64 x
  | KindBytes, VBytes x => is_i64 (zlen x)
  | KindHash, VHash x => length x = 32%nat
  | KindUrl, VUrl x => url_value x
  | KindAccount, VAccount x => account_value x
  | KindState, VState x => state_value x
  | KindSigOrTxn, VSigOrTxn x => SigOrTxn_ok x
  | KindStatus, VStatus x => TransactionStatus_ok x
  | KindSigSet, VSigSet x => sigSetData_ok x
  | KindTxids, VTxids l => elements TxidWrapper txid_value l
  | KindUrls, VUrls l => elements UrlWrapper url_value l
  | KindHashes, VHashes l => elements HashWrapper (fun h => length h = 32%nat) l
  | KindChains, VChains l => elements ChainMetadataStruct ChainMetadata_ok l
  | KindEntries, VEntries l => elements ChainEntryStruct TransactionChainEntry_ok l
  | _, _ => False
  end.

(** Merkle states that differ by nils at the end of the pending hashes are the same, and
    accounts whose times differ by fractions of a second are. *)
Definition norm (v : DbValue SG TB ER) : DbValue SG TB ER :=
  match v with VState m => VState (MerkleState.Trim m) | VAccount a => VAccount (whole_seconds a) | _ => v end.
#[global] Instance DbValue_equiv : Equiv (DbValue SG TB ER) := fun v w => norm v = norm w.
#[global] Instance DbValue_equivalence : Equivalence (≡@{DbValue SG TB ER}).
Proof. split; unfold equiv, DbValue_equiv; congruence. Qed.

(** What a record of some type does with its contents. *)
Definition content_ok (sc : Schema (DbValue SG TB ER)) (P : DbValue SG TB ER -> Prop) (v : DbValue SG TB ER) : Prop :=
  copyValue sc v = v /\ is_a sc v = true /\
  exists b w, MarshalBinary sc v = Ok b /\ b <> [] /\ UnmarshalBinary sc b = Ok w /\ w ≡ v /\ P w.

Lemma schema_content {T} (e : Encodable T) m new make cast (P : DbValue SG TB ER -> Prop) x y :
  cast (make x) = Some x -> e_copy e x = x -> encodes e x y -> make y ≡ make x -> P (make y) ->
  content_ok (schema_for e m new make cast) P (make x).
Proof.
  intros Hc Hcp (b & E & Hb & E') Hy HP. unfold content_ok, schema_for. cbn. rewrite Hc, Hcp, E.
  split; [done|]. split; [by destruct (make x)|]. exists b, (make y). rewrite E'. done.
Qed.

Lemma slice_content {T} (e : Encodable T) m new make cast (Q : DbValue SG TB ER -> Prop) (P : T -> Prop) l :
  cast (make l) = Some l -> (forall x, P x -> survives (e_marshal e) (e_unmarshal e) x /\ e_copy e x = x) ->
  elements e P l -> Q (make l) ->
  content_ok (schema_for (sliceValue e) m new make cast) Q (make l).
Proof.
  intros Hc HP Hl HQ.
  assert (Hel : forall x, x ∈ l -> element_ok e x).
  { intros x Hx. destruct (Hl x Hx) as [Hx' Hf]. destruct (HP x Hx') as [Hs Hcp]. done. }
  apply schema_content with (y := l); try done; [by apply slice_copies|by apply slice_encodes].
Qed.

Lemma encodes_survives {T} (e : Encodable T) x : encodes e x x -> survives (e_marshal e) (e_unmarshal e) x.
Proof. intros (b & E & _ & E'). by exists b. Qed.

Lemma kind_content m k v : kind_ok k v -> content_ok (kind_schema m k) (kind_ok k) v.
Proof.
  destruct k, v; try done; cbn [kind_ok kind_schema]; intros Hv.
  - by apply schema_content with (y := v); [..|apply uint_encodes| |].
  - by apply schema_content with (y := b); [..|apply bytes_encodes| |].
  - by apply schema_content with (y := h); [..|apply hash_encodes| |].
  - by apply schema_content with (y := u); [..|apply url_encodes| |].
  - apply schema_content with (y := whole_seconds a); [done|by apply account_value_copied|by apply Account_encodes| |by apply account_value_whole].
    unfold equiv, DbValue_equiv. cbn. by rewrite whole_seconds_idem.
  - apply schema_content with (y := MerkleState.Trim s); [done|apply MerkleState_Copy_id|by apply state_encodes| |by apply state_value_Trim].
    unfold equiv, DbValue_equiv. cbn. by rewrite Trim_Trim.
  - by apply schema_content with (y := x); [|apply SigOrTxn_copied|apply SigOrTxn_encodes| |].
  - by apply schema_content with (y := s); [|apply TransactionStatus_copied|apply Status_encodes| |].
  - by apply schema_content with (y := d); [|apply sigSetData_copied|apply sigSet_encodes| |].
  - apply slice_content with (P := txid_value); try done. intros x Hx. split; [|done]. by apply encodes_survives, txid_encodes.
  - apply slice_content with (P := url_value); try done. intros x Hx. split; [|done]. by apply encodes_survives, url_encodes.
  - apply slice_content with (P := fun h => length h = 32%nat); try done. intros x Hx. split; [|done].
    by apply encodes_survives, hash_encodes.
  - apply slice_content with (P := ChainMetadata_ok); try done. intros x Hx.
    split; [by apply ChainMetadata_survives|by apply ChainMetadata_copied].
  - apply slice_content with (P := TransactionChainEntry_ok); try done. intros x Hx.
    split; [by apply TransactionChainEntry_survives|by apply TransactionChainEntry_copied].
Qed.

End Contents.

(** ** The data model *)

(** A record that may be missing has a proper value then. *)
Definition has_new (r : res RecordKind) : Prop :=
  match r with
  | Ok r =>
      missing r = false \/
      match kind r with KindBytes | KindHash | KindUrl | KindAccount | KindSigOrTxn => False | _ => True end
  | _ => True
  end.

Lemma Value_has_new r key : has_new (Ok r) -> has_new (Value_Resolve r key).
Proof. by destruct key. Qed.
Lemma Chain_has_new key : has_new (Chain_Resolve key).
Proof. unfold Chain_Resolve. repeat case_match; try done; apply Value_has_new; first [by left|by right]. Qed.
Lemma Chain2_has_new index key : has_new (Chain2_Resolve index key).
Proof. unfold Chain2_Resolve. repeat case_match; try done; apply Chain_has_new. Qed.
Lemma Data_has_new key : has_new (Data_Resolve key).
Proof.
  unfold Data_Resolve, Counted_Resolve. repeat case_match; try done; try apply Value_has_new; first [by left|by right].
Qed.
Lemma Account_has_new key : has_new (Account_Resolve key).
Proof.
  unfold Account_Resolve, AnchorChain_Resolve.
  repeat case_match; try done; first [apply Chain2_has_new|apply Data_has_new|apply Value_has_new; first [by left|by right]].
Qed.
Lemma Transaction_has_new key : has_new (Transaction_Resolve key).
Proof. unfold Transaction_Resolve. repeat case_match; try done; apply Value_has_new; first [by left|by right]. Qed.
Lemma resolve_has_new key : has_new (resolveValue key).
Proof.
  unfold resolveValue, SystemData_Resolve.
  repeat case_match; try done;
    first [apply Account_has_new|apply Transaction_has_new|apply Value_has_new; first [by left|by right]].
Qed.

Section Laws.
Context {SG TB ER : Type} `{!Union SG, !Union TB, !Union ER} `{!UnionLaws SG, !UnionLaws TB, !UnionLaws ER}.

(** The contents that the record with a key may have. *)
Definition record_ok (k : RecordKey) (v : DbValue SG TB ER) : Prop :=
  exists r, resolveValue k = Ok r /\ kind_ok (kind r) v.

Definition used_keys (keys : list RecordKey) (k : RecordKey) : bool := bool_decide (k ∈ keys).

(** SHA-256 tells the keys apart. *)
Definition no_collisions (keys : list RecordKey) : Prop :=
  forall k k', k ∈ keys -> k' ∈ keys -> Key_Hash k = Key_Hash k' -> k = k'.

Lemma new_state_value : state_value newMerkleState.
Proof. exists []. split; [apply Represents_new|]. split; [constructor|]. split; [done|]. by split; [constructor|]. Qed.

Lemma kind_new k m : has_new (Ok (mkRecord true k)) -> kind_ok k (setNew (kind_schema (SG := SG) (TB := TB) (ER := ER) m k)).
Proof.
  intros [H|H]; [done|]. destruct k; try done; cbn; try (intros x Hx; by apply elem_of_nil in Hx).
  - apply new_state_value.
  - wire_ok.
  - wire_ok.
Qed.

Lemma model_laws keys : no_collisions keys -> ModelLaws Key_Hash resolve (used_keys keys) record_ok.
Proof.
  intros Hk. split.
  - intros k sc E Hm. unfold resolve in E. destruct (resolveValue k) as [r| |] eqn:Er; try done. injection E as <-.
    exists r. split; [done|]. apply kind_new. pose proof (resolve_has_new k) as Hn. rewrite Er in Hn.
    assert (Hr : missing r = true) by (destruct r as [m []]; exact Hm). by destruct r; cbn in *; subst.
  - intros k sc v E (r & Er & Hv). unfold resolve in E. rewrite Er in E. injection E as <-.
    destruct (kind_content (missing r) _ _ Hv) as (-> & _). split; [done|]. by exists r.
  - intros k sc v E (r & Er & Hv). unfold resolve in E. rewrite Er in E. injection E as <-.
    by destruct (kind_content (missing r) _ _ Hv) as (_ & -> & _).
  - intros k sc v E (r & Er & Hv). unfold resolve in E. rewrite Er in E. injection E as <-.
    destruct (kind_content (missing r) _ _ Hv) as (_ & _ & b & w & Em & Hb & Eu & Hw & Hok).
    exists b, w. do 4 (split; [done|]). by exists r.
  - intros k k' Hu Hu'. unfold used_keys in *. apply bool_decide_eq_true in Hu, Hu'. by apply Hk.
Qed.

(** C18. The database is a stack of maps: whatever batches are opened, read, written,
    committed and discarded, in any order and however the records are visited when a batch
    is committed, every read answers what the innermost of a stack of maps would, where
    opening a batch copies the map, committing replaces the one below and discarding drops
    it.  What was read, cached or loaded before, the formats of the contents and the copies
    between batches do not show, except for nils at the end of the pending hashes of a
    Merkle state and fractions of a second in the times of the ledgers ([answer_eqv]).  The keys that are read and written are those of records of
    the data model, without a collision of SHA-256 among them; the contents that are put, and
    those that the store holds at the start, are of the record's type and can be written
    ([record_ok]): numbers of their width, URLs that are parsed from what they are written as,
    values below the limit of 1 MiB, no unknown fields, times of ledgers that are not set or
    since 1970, and whole seconds for the times inside the bodies of transactions.  What a
    commit adds on its own, the URL and the index of synthetic anchors of an account, is
    written like any other record, and the Patricia tree is not part of this. *)
Theorem database_refines_maps (order : gmap RecordKey (Value (DbValue SG TB ER)) -> list (RecordKey * Value (DbValue SG TB ER)))
    (keys : list RecordKey) (kv : Txn) (os : list (Op (DbValue SG TB ER) RecordKey)) :
  (forall m, order m ≡ₚ map_to_list m) -> no_collisions keys ->
  kv_ok Key_Hash resolve (used_keys keys) record_ok kv -> Forall (proper_op resolve (used_keys keys) record_ok) os ->
  Forall2 answer_eqv (run Key_Hash resolve order os ([], kv))
    (spec_run os ([], seen Key_Hash resolve (used_keys keys) [] kv)).
Proof. intros Ho Hk Hkv Hos. eapply batches_refine; [by apply model_laws|done..]. Qed.

End Laws.

(** ** A run *)

Abbreviation DemoValue := (DbValue (SignatureAt 1) (TransactionBodyAt (SignatureAt 1) 1) (ErrorAt 1)).
Definition demo_txn : Txn := Storage.Batch true (Some ∅) (Base DB_New).
Definition demo_main : RecordKey := accessor_key (Account_Main (replicate 32 Byte.x01)).
Definition demo_head : RecordKey := accessor_key (Account_Chain (replicate 32 Byte.x01) MainChain false Head).
Definition demo_entry : MerkleState := AddToMerkleTree newMerkleState (Some (replicate 32 Byte.x05)).

(** An account and the head of its chain: written in an inner batch that is committed and
    one that is discarded, and read again after everything was committed. *)
Definition demo_ops : list (Op DemoValue RecordKey) :=
  [OBegin; OGet demo_main; OGet demo_head; OBegin; OPut demo_main (VAccount demo_page); OPut demo_head (VState demo_entry);
   OCommit; OGet demo_main; OBegin; OPut demo_head (VState newMerkleState); OGet demo_head; ODiscard; OCommit;
   OBegin; OGet demo_main; OGet demo_head].

Lemma hashes_no_collisions keys : bool_decide (NoDup (Key_Hash <$> keys)) = true -> no_collisions keys.
Proof.
  intros Hd%bool_decide_eq_true k k' (i & Hi)%list_elem_of_lookup (j & Hj)%list_elem_of_lookup E.
  assert (i = j) as ->; [|congruence].
  apply (NoDup_lookup (Key_Hash <$> keys) i j (Key_Hash k)); [done|..]; rewrite list_lookup_fmap; [by rewrite Hi|by rewrite Hj, E].
Qed.

Definition demo_answers : list (Answer DemoValue) :=
  [Nothing; Missing; Found (VState newMerkleState); Nothing; Nothing; Nothing; Nothing; Found (VAccount demo_page);
   Nothing; Nothing; Found (VState newMerkleState); Nothing; Nothing; Nothing; Found (VAccount demo_page);
   Found (VState demo_entry)].

Lemma demo_spec :
  spec_run demo_ops ([], seen Key_Hash resolve (used_keys [demo_main; demo_head]) [] demo_txn) = demo_answers.
Proof. vm_compute. reflexivity. Qed.

Lemma demo_kv_ok keys : kv_ok Key_Hash (resolve : _ -> res (Schema DemoValue)) (used_keys keys) record_ok demo_txn.
Proof.
  split.
  - split; [by split; [eexists|]|]. by eexists _, _.
  - intros k sc c b _ _. assert (E : kv_view demo_txn = ∅) by (vm_compute; reflexivity). rewrite E, lookup_empty. done.
Qed.

Lemma database_refines_maps_witness : Forall2 answer_eqv (run Key_Hash resolve map_to_list demo_ops ([], demo_txn)) demo_answers.
Proof.
  rewrite <- demo_spec. apply database_refines_maps; [done|apply hashes_no_collisions; vm_compute; reflexivity|apply demo_kv_ok|].
  repeat constructor; try (by eexists); eexists (mkRecord _ _); (split; [vm_compute; reflexivity|]); cbn [kind kind_ok].
  - split; [cbn [whole_seconds demo_page]; wire_ok|exact I].
  - exists [replicate 32 Byte.x05]. split; [by apply (Represents_add_all newMerkleState [] [_]); [apply Represents_new|]|].
    split; [by repeat constructor|]. split; [done|]. split; [|done]. repeat constructor. by eexists.
  - apply new_state_value.
Defined.
