(* ===== verification/DbChain.v ===== *)
(** * The chains of an account: [internal/database/chain.go] and [account_chains.go]

    The wrapper around the chain manager that the executors, the queries and the snapshots
    use, and the names of the chains.  The head that the wrapper keeps is the record the
    manager updates in place, so it is read from the store here; [RestoreHead], which
    replaces the record, is the last operation on a wrapper. *)

From S2P Require Import Prelude Sha256 Encoding MerkleTree MerkleState Receipt Chain ChainProofs Url UrlProofs AdiUrl DataModel.
Local Open Scope Z_scope.
Import Url.

(** ** [chain.go] *)

(** [markPower] of [database.go]. *)
Definition dbChain : Chain := NewChain 8.

Section Wrapper.
Context {S : Type} `{!ChainStore S}.

Definition Chain_Height (s : S) : res Z := let! head := Head_Get s in Ok (Count head).
Definition Chain_Entry (height : Z) (s : S) : res Hash := Get height s.

(** The loop of [Entries]: [None] when it is still running. *)
Fixpoint entries_loop (fuel : nat) (start end_ : Z) (entries : list Hash) (s : S) : option (res (list Hash)) :=
  if negb (start <? end_) then Some (Ok entries)
  else
    match fuel with
    | O => None
    | Datatypes.S fuel =>
        match GetRange dbChain start end_ s with
        | Ok h => entries_loop fuel (i64 (start + zlen h)) end_ (entries ++ h) s
        | Err e => Some (Err e)
        | Panic m => Some (Panic m)
        end
    end.

(** [make([][]byte, 0, n)] does not panic: [n] slices of three words fit in the address space
    of [2 ^ 48] bytes. *)
Definition make_ok (n : Z) : bool := (0 <=? n) && (24 * n <=? 2 ^ 48).

Definition Chain_Entries (fuel : nat) (start end_ : Z) (s : S) : option (res (list Hash)) :=
  match Chain_Height s with
  | Ok height =>
      let end_ := if height <? end_ then height else end_ in
      if end_ <? start then Some (errors_new StatusBadRequest "invalid range: start is greater than end")
      else if negb (make_ok (i64 (end_ - start))) then Some (Panic "makeslice: cap out of range")
      else entries_loop fuel start end_ [] s
  | Err e => Some (Err e)
  | Panic m => Some (Panic m)
  end.

Definition Chain_State (height : Z) (s : S) : res MerkleState := GetAnyState dbChain height s.
Definition CurrentState (s : S) : res MerkleState := Head_Get s.
Definition HeightOf (hash : bytes) (s : S) : res Z := GetElementIndex hash s.
Definition Chain_Anchor (s : S) : res Hash := let! head := Head_Get s in Ok (GetMDRoot head).
Definition AnchorAt (height : Z) (s : S) : res Hash := let! ms := Chain_State (i64 height) s in Ok (GetMDRoot ms).
Definition Chain_Pending (s : S) : res (list Hash) := let! head := Head_Get s in Ok (Pending head).

(** An entry of less than 32 bytes is padded. *)
Definition pad_entry (entry : bytes) : bytes :=
  if zlen entry <? 32 then entry ++ Byte.x20 :: replicate (31 - length entry) Byte.x00 else entry.

Definition AddEntry (entry : Hash) (unique : bool) (s : S) : res S :=
  match entry with
  | None => Panic "attempted to add a nil entry to a chain"
  | Some entry =>
      if 32 <? zlen entry then Panic "Entry is too big" else AddHash dbChain (Some (pad_entry entry)) unique s
  end.

(** The method [Receipt]. *)
Definition Chain_Receipt (from to : Z) (s : S) : res Receipt :=
  if from <? 0 then errorf "invalid range: from < 0"
  else if to <? 0 then errorf "invalid range: to < 0"
  else
    let! height := Chain_Height s in
    if height <? from then errorf "invalid range: from > height"
    else if height <? to then errorf "invalid range: to > height"
    else if to <? from then errorf "invalid range: from > to"
    else
      let! start := Chain_Entry from s in
      let! end_ := Chain_Entry to s in
      if (from =? 0) && (to =? 0) then Ok (mkReceipt start from end_ to start [])
      else BuildReceipt dbChain (mkReceipt start from end_ to None []) s.

Definition RestoreHead (head : MerkleState) (s : S) : res S := Head_Put head s.

End Wrapper.

(** ** Names *)

(** [NewChain]: the name of a chain of an account; [Chain2.Index] appends to it.  The name
    of an index chain is a format once more, so that the partition has no percent sign. *)
Definition chain_name (c : ChainName) : bytes :=
  match c with
  | MainChain => str "main"
  | ScratchChain => str "scratch"
  | SignatureChain => str "signature"
  | RootChain => str "root"
  | AnchorSequenceChain => str "anchor-sequence"
  | MajorBlockChain => str "major-block"
  | SyntheticSequenceChain p => str "synthetic-sequence(" ++ str p ++ str ")"
  | AnchorRootChain p => str "anchor(" ++ str p ++ str ")-root"
  | AnchorBPTChain p => str "anchor(" ++ str p ++ str ")-bpt"
  end.
(** For partitions without percent signs, [NewChain] uses the name of an index chain as it is. *)
Definition Chain2_Name (c : ChainName) (index : bool) : bytes :=
  chain_name c ++ (if index then str "-index" else []).

Definition lower_partition (p : bytes) : string := String.string_of_list_byte (ToLower p).

(** [chainByName]: nil when there is no such chain. *)
Definition chainByName (name : bytes) : res (option ChainName) :=
  if bytes_eqb name (str "main") then Ok (Some MainChain)
  else if bytes_eqb name (str "signature") then Ok (Some SignatureChain)
  else if bytes_eqb name (str "scratch") then Ok (Some ScratchChain)
  else if bytes_eqb name (str "root") then Ok (Some RootChain)
  else if bytes_eqb name (str "anchor-sequence") then Ok (Some AnchorSequenceChain)
  else if bytes_eqb name (str "major-block") then Ok (Some MajorBlockChain)
  else
    let i := IndexByte name Byte.x28 in
    let j := IndexByte name Byte.x29 in
    if (i <? 0) || (j <? 0) then Ok None
    else
      let! upto := slice_to name j in
      let! arg := slice_from upto (i + 1) in
      let! kind := slice_to name i in
      let! suffix := slice_from name (j + 1) in
      if bytes_eqb kind (str "anchor") then
        if bytes_eqb suffix (str "-root") then Ok (Some (AnchorRootChain (lower_partition arg)))
        else if bytes_eqb suffix (str "-bpt") then Ok (Some (AnchorBPTChain (lower_partition arg)))
        else Ok None
      else if bytes_eqb kind (str "synthetic-sequence") then Ok (Some (SyntheticSequenceChain (lower_partition arg)))
      else Ok None.

(** [ChainByName]: the chain, and whether it is the index chain of that chain. *)
Definition ChainByName (name : bytes) : res (ChainName * bool) :=
  let name := ToLower name in
  let index := HasSuffix name (str "-index") in
  let name := if index then take (length name - length (str "-index")) name else name in
  let! c := chainByName name in
  match c with
  | None => errors_new StatusNotFound "account chain not found"
  | Some c =>
      match c, index with
      | MajorBlockChain, true => Panic "cannot index an index chain"
      | _, _ => Ok (c, index)
      end
  end.

(** ** Properties of the wrapper *)

Section WrapperFacts.
Context {S : Type} `{ChainStoreLaws S} (s : S) (l : list bytes).
Context (Hi : chain_inv dbChain s l) (Hl : zlen l < 2 ^ 62).

Lemma Height_ok : Chain_Height s = Ok (zlen l).
Proof. unfold Chain_Height. rewrite Head_Get_view, (inv_head _ _ _ Hi). cbn [res_bind]. unfold dbChain. by rewrite Count_chain_head. Qed.

Lemma entries_loop_ok fuel start end_ :
  0 <= start <= end_ -> end_ <= zlen l ->
  entries_loop (Datatypes.S fuel) start end_ [] s = Some (Ok (Some <$> take (Z.to_nat (end_ - start)) (drop (Z.to_nat start) l))).
Proof.
  intros Hs He. cbn [entries_loop]. destruct (Z.ltb_spec start end_) as [Hlt|Hge]; cbn [negb].
  - unfold dbChain. rewrite (GetRange_ok 8 ltac:(lia) s l) by (done || lia). rewrite Z.min_l by lia. cbn [app].
    set (h := Some <$> _).
    assert (Hh : zlen h = end_ - start).
    { unfold h, zlen. rewrite length_fmap, length_take, length_drop. unfold zlen in He. lia. }
    rewrite Hh. replace (start + (end_ - start)) with end_ by lia. rewrite i64_small by (unfold is_i64; lia). destruct fuel; cbn [entries_loop]; by rewrite Z.ltb_irrefl.
  - replace (Z.to_nat (end_ - start)) with O by lia. done.
Qed.

(** The length of a range, also when it does not fit in 64 bits. *)
Lemma make_range_ok start stop : is_i64 start -> is_i64 stop -> start <= stop -> make_ok (i64 (stop - start)) = (24 * (stop - start) <=? 2 ^ 48).
Proof using.
  unfold make_ok, is_i64, i64. intros H1 H2 H3. destruct (Z_lt_dec (stop - start) (2 ^ 63)) as [Hlt|Hge].
  - rewrite Z.mod_small by lia. rewrite (proj2 (Z.leb_le 0 _)) by lia. by replace (stop - start + 2 ^ 63 - 2 ^ 63) with (stop - start) by lia.
  - replace (stop - start + 2 ^ 63) with (stop - start - 2 ^ 63 + 1 * 2 ^ 64) by lia. rewrite Z.mod_add, Z.mod_small by lia.
    rewrite (proj2 (Z.leb_gt 0 _)), (proj2 (Z.leb_gt (24 * (stop - start)) _)) by lia. done.
Qed.

Lemma Entry_ok i : 0 <= i -> i < 2 ^ 63 -> Chain_Entry i s = found (Some <$> l !! Z.to_nat i).
Proof. intros Hi0 Hi1. unfold Chain_Entry. rewrite <- (Z2Nat.id i) at 1 by lia. apply (Get_inv 8); [done|done|lia]. Qed.

End WrapperFacts.

(** C24. [Chain.Entries], for any two 64-bit integers, returns the entries from [start] up to
    [end], or to the last entry if that comes first, after one iteration of its loop, across any
    number of mark points (the comment in the code expects several); it refuses a range that
    ends before it starts, and one that starts before the first entry unless it is empty.
    Before that it allocates the slice: a range whose length is out of range, as with a very
    negative [start], panics. *)
Theorem Entries_correct {S} `{ChainStoreLaws S} (s : S) (l : list bytes) (fuel : nat) (start end_ : Z) :
  chain_inv dbChain s l -> zlen l < 2 ^ 62 -> is_i64 start -> is_i64 end_ ->
  let stop := Z.min end_ (zlen l) in
  if decide (stop < start) then exists e, Chain_Entries (Datatypes.S fuel) start end_ s = Some (Err e)
  else if decide (2 ^ 48 < 24 * (stop - start)) then exists m, Chain_Entries (Datatypes.S fuel) start end_ s = Some (Panic m)
  else if decide (0 <= start \/ start = stop) then
    Chain_Entries (Datatypes.S fuel) start end_ s =
    Some (Ok (Some <$> take (Z.to_nat (stop - start)) (drop (Z.to_nat start) l)))
  else exists e, Chain_Entries (Datatypes.S fuel) start end_ s = Some (Err e).
Proof.
  intros Hi Hl Hs He stop. unfold Chain_Entries. rewrite (Height_ok s l Hi Hl).
  assert (Es : (if zlen l <? end_ then zlen l else end_) = stop).
  { unfold stop. destruct (Z.ltb_spec (zlen l) end_); lia. }
  rewrite Es. case_decide as Hlt; [rewrite (proj2 (Z.ltb_lt _ _)) by done; by eexists|].
  rewrite (proj2 (Z.ltb_ge _ _)) by lia. pose proof (zlen_nonneg l) as Hz. rewrite (make_range_ok start stop) by (unfold is_i64, stop in *; lia).
  case_decide as Hc; [rewrite (proj2 (Z.leb_gt _ _)) by lia; by eexists|]. rewrite (proj2 (Z.leb_le _ _)) by lia. cbn [negb]. case_decide as Hr.
  - destruct Hr as [Hs0|Hse]; [apply entries_loop_ok; done || unfold stop; lia|].
    rewrite <- Hse. rewrite Z.sub_diag. cbn [entries_loop]. by rewrite Z.ltb_irrefl.
  - cbn [entries_loop]. rewrite (proj2 (Z.ltb_lt _ _)) by lia. cbn [negb]. unfold GetRange. rewrite Head_Get_view. cbn [res_bind].
    rewrite (proj2 (Z.ltb_lt start 0)) by lia. rewrite !orb_true_r. by eexists.
Qed.

(** [Chain.Receipt] from one entry of a chain to a later one returns a receipt
    that validates, from the entry to the Merkle root of all entries up to the other; for
    any other pair of indices it returns an error. *)
Theorem Chain_Receipt_correct {S} `{ChainStoreLaws S} (s : S) (l : list bytes) (from to : Z) :
  chain_inv dbChain s l -> zlen l < 2 ^ 62 ->
  if decide (0 <= from <= to /\ to < zlen l) then
    exists r x, l !! Z.to_nat from = Some x /\ Chain_Receipt from to s = Ok r /\ Validate r = true /\
      Start r = Some x /\ Receipt.Anchor r = Some (mth (take (Z.to_nat to + 1) l))
  else exists e, Chain_Receipt from to s = Err e.
Proof.
  intros Hi Hl. unfold Chain_Receipt. pose proof (zlen_nonneg l).
  destruct (Z.ltb_spec from 0); [rewrite decide_False by lia; by eexists|].
  destruct (Z.ltb_spec to 0); [rewrite decide_False by lia; by eexists|].
  rewrite (Height_ok s l Hi Hl). cbn [res_bind].
  destruct (Z.ltb_spec (zlen l) from); [rewrite decide_False by lia; by eexists|].
  destruct (Z.ltb_spec (zlen l) to); [rewrite decide_False by lia; by eexists|].
  destruct (Z.ltb_spec to from); [rewrite decide_False by lia; by eexists|].
  rewrite !(Entry_ok s l Hi Hl) by lia.
  destruct (l !! Z.to_nat from) as [x|] eqn:Hx.
  2:{ rewrite decide_False; [by eexists|]. apply lookup_ge_None in Hx. unfold zlen in *. lia. }
  destruct (l !! Z.to_nat to) as [y|] eqn:Hy.
  2:{ rewrite decide_False; [by eexists|]. apply lookup_ge_None in Hy. unfold zlen in *. lia. }
  apply lookup_lt_Some in Hy as Hlen. rewrite decide_True by (unfold zlen; lia). cbn [fmap option_fmap option_map found res_bind].
  destruct ((from =? 0) && (to =? 0)) eqn:E0.
  - apply andb_true_iff in E0 as [->%Z.eqb_eq ->%Z.eqb_eq]. destruct l as [|z l]; [done|]. injection Hx as ->.
    eexists _, x. split; [done|]. split; [done|]. split; [|done].
    apply Validate_iff. done.
  - destruct (BuildReceipt_ok 8 ltac:(lia) s l (Z.to_nat from) (Z.to_nat to) x (Some y)) as (r & E & ? & ? & ? & ? & ? & ?); try done; [lia|].
    rewrite !Z2Nat.id in E by lia. exists r, x. done.
Qed.

Lemma zeros_cut (n m : nat) (a b : bytes) :
  replicate n Byte.x00 ++ Byte.x20 :: a = replicate m Byte.x00 ++ Byte.x20 :: b -> a = b.
Proof. revert m. induction n as [|n IH]; intros [|m] [=]; [done|]. by eapply IH. Qed.

Lemma pad_entry_inj a b : (length a < 32)%nat -> (length b < 32)%nat -> pad_entry a = pad_entry b -> a = b.
Proof.
  intros Ha Hb. unfold pad_entry, zlen. rewrite !(proj2 (Z.ltb_lt _ _)) by lia. intros E.
  apply (f_equal reverse) in E. rewrite !reverse_app, !reverse_cons, !reverse_replicate, <- !app_assoc in E.
  apply zeros_cut in E. by apply (inj reverse) in E.
Qed.

Lemma pad_entry_length e : (length e <= 32)%nat -> length (pad_entry e) = 32%nat.
Proof.
  intros He. unfold pad_entry, zlen. destruct (Z.ltb_spec (Z.of_nat (length e)) 32); [|lia].
  rewrite length_app. cbn [length]. rewrite length_replicate. lia.
Qed.

(** [Chain.AddEntry] appends an entry of at most 32 bytes, padded to 32 bytes,
    which is what [Entry] then reads at the old height, except that an entry that must be
    unique and is on the chain is not added again.  Padding keeps entries of less than 32
    bytes apart. *)
Theorem AddEntry_correct {S} `{ChainStoreLaws S} (s : S) (l : list bytes) (entry : bytes) (unique : bool) :
  chain_inv dbChain s l -> zlen l + 1 < 2 ^ 62 -> (length entry <= 32)%nat ->
  (exists s', AddEntry (Some entry) unique s = Ok s' /\
    if decide (unique = true /\ pad_entry entry ∈ l) then s' = s
    else chain_inv dbChain s' (l ++ [pad_entry entry]) /\ Chain_Entry (zlen l) s' = Ok (Some (pad_entry entry))) /\
  forall other, (length entry < 32)%nat -> (length other < 32)%nat -> pad_entry entry = pad_entry other -> entry = other.
Proof.
  intros Hi Hl He. split; [|intros other; apply pad_entry_inj].
  destruct (AddHash_ok 8 ltac:(lia) s l (pad_entry entry) unique Hi (pad_entry_length _ He) Hl) as (s' & E & Hs').
  exists s'. unfold AddEntry. rewrite (proj2 (Z.ltb_ge _ _)) by (unfold zlen; lia). split; [done|].
  case_decide; [done|]. split; [done|]. pose proof (zlen_nonneg l).
  rewrite (Entry_ok s' _ Hs') by (rewrite ?zlen_app; unfold zlen in *; cbn; lia).
  unfold zlen. rewrite Nat2Z.id, lookup_app_r, Nat.sub_diag by lia. done.
Qed.

(** ** Properties of the names *)

(** A partition in lower case, without the delimiters of the names and percent signs: the IDs of
    partitions are labels.  (The name of an index chain that has a percent sign is a format.) *)
Definition partition_ok (p : string) : Prop := ToLower (str p) = str p /\ Byte.x28 ∉ str p /\ Byte.x29 ∉ str p /\ Byte.x25 ∉ str p.
Definition chain_ok (c : ChainName) : Prop :=
  match c with
  | SyntheticSequenceChain p | AnchorRootChain p | AnchorBPTChain p => partition_ok p
  | _ => True
  end.

Lemma string_of_str p : String.string_of_list_byte (str p) = p.
Proof. unfold str. apply String.string_of_list_byte_of_string. Qed.

(** A name with a partition is cut at its parentheses. *)
Lemma cut_name pre p post :
  Byte.x28 ∉ pre -> Byte.x29 ∉ pre -> partition_ok p ->
  let name := pre ++ Byte.x28 :: str p ++ Byte.x29 :: post in
  IndexByte name Byte.x28 = zlen pre /\ IndexByte name Byte.x29 = zlen pre + 1 + zlen (str p) /\
  slice_to name (zlen pre + 1 + zlen (str p)) = Ok (pre ++ Byte.x28 :: str p) /\
  slice_from (pre ++ Byte.x28 :: str p) (zlen pre + 1) = Ok (str p) /\
  slice_to name (zlen pre) = Ok pre /\
  slice_from name (zlen pre + 1 + zlen (str p) + 1) = Ok post.
Proof.
  intros H1 H2 (_ & H3 & H4 & _) name.
  assert (E1 : name = (pre ++ Byte.x28 :: str p) ++ Byte.x29 :: post) by (unfold name; by rewrite <- app_assoc).
  assert (E2 : name = (pre ++ Byte.x28 :: str p ++ [Byte.x29]) ++ post).
  { unfold name. rewrite <- app_assoc. cbn. by rewrite <- app_assoc. }
  assert (L1 : zlen (pre ++ Byte.x28 :: str p) = zlen pre + 1 + zlen (str p)) by (rewrite zlen_app, zlen_cons; lia).
  assert (L2 : zlen (pre ++ Byte.x28 :: str p ++ [Byte.x29]) = zlen pre + 1 + zlen (str p) + 1).
  { rewrite zlen_app, zlen_cons, zlen_app. change (zlen [Byte.x29]) with 1. lia. }
  split; [by apply IndexByte_app|]. split.
  { rewrite E1, IndexByte_app; [done|]. rewrite not_elem_of_app, not_elem_of_cons. done. }
  split; [rewrite E1, <- L1; apply slice_to_app|]. split.
  { replace (pre ++ Byte.x28 :: str p) with ((pre ++ [Byte.x28]) ++ str p) by by rewrite <- app_assoc.
    replace (zlen pre + 1) with (zlen (pre ++ [Byte.x28])) by by rewrite zlen_app. apply slice_from_app. }
  split; [apply slice_to_app|]. rewrite E2, <- L2. apply slice_from_app.
Qed.

Lemma not_fixed_name c a b : c ∈ a -> forallb (fun d => negb (Byte.eqb d c)) b = true -> bytes_eqb a b = false.
Proof.
  intros Ha Hb. destruct (bytes_eqb a b) eqn:E; [|done]. apply bytes_eqb_eq in E as ->.
  apply list_elem_of_In in Ha. rewrite forallb_forall in Hb. specialize (Hb c Ha). by destruct c.
Qed.

(** The chain with a partition that is found for a name. *)
Lemma chainByName_partition pre p post :
  Byte.x28 ∉ pre -> Byte.x29 ∉ pre -> partition_ok p ->
  chainByName (pre ++ Byte.x28 :: str p ++ Byte.x29 :: post) =
  (if bytes_eqb pre (str "anchor") then
     if bytes_eqb post (str "-root") then Ok (Some (AnchorRootChain p))
     else if bytes_eqb post (str "-bpt") then Ok (Some (AnchorBPTChain p))
     else Ok None
   else if bytes_eqb pre (str "synthetic-sequence") then Ok (Some (SyntheticSequenceChain p))
   else Ok None).
Proof.
  intros H1 H2 Hp. destruct (cut_name pre p post H1 H2 Hp) as (E1 & E2 & E3 & E4 & E5 & E6). cbv zeta in *.
  unfold chainByName. rewrite E1, E2. set (name := pre ++ _) in *.
  assert (Hn : Byte.x28 ∈ name) by (unfold name; set_solver).
  rewrite !(not_fixed_name Byte.x28 name _ Hn) by reflexivity.
  pose proof (zlen_nonneg pre). pose proof (zlen_nonneg (str p)). rewrite !(proj2 (Z.ltb_ge _ 0)) by lia.
  cbn [orb]. rewrite E3. cbn [res_bind]. rewrite E4. cbn [res_bind]. rewrite E5. cbn [res_bind]. rewrite E6. cbn [res_bind].
  unfold lower_partition. destruct Hp as [-> _]. by rewrite string_of_str.
Qed.

Lemma chainByName_ok c : chain_ok c -> chainByName (chain_name c) = Ok (Some c).
Proof.
  destruct c as [| | | | | |p|p|p]; try done; cbn [chain_ok]; intros Hp.
  - by apply (chainByName_partition (str "synthetic-sequence") p []); [vm_compute; set_solver..|].
  - by apply (chainByName_partition (str "anchor") p (str "-root")); [vm_compute; set_solver..|].
  - by apply (chainByName_partition (str "anchor") p (str "-bpt")); [vm_compute; set_solver..|].
Qed.

Lemma chain_name_lower c : chain_ok c -> ToLower (chain_name c) = chain_name c.
Proof.
  destruct c as [| | | | | |p|p|p]; try done; cbn [chain_ok chain_name]; intros [Hp _]; by rewrite !ToLower_app, Hp.
Qed.
Lemma chain_name_suffix c : chain_ok c -> HasSuffix (chain_name c) (str "-index") = false.
Proof.
  destruct c as [| | | | | |p|p|p]; try done; intros _.
  all: unfold HasSuffix; cbn [chain_name]; rewrite !rev_app_distr; reflexivity.
Qed.

Lemma ChainByName_ok (c : ChainName) (index : bool) (name : bytes) :
  chain_ok c -> ToLower name = Chain2_Name c index ->
  ChainByName name =
    (if index then match c with MajorBlockChain => Panic "cannot index an index chain" | _ => Ok (c, true) end
     else Ok (c, false)).
Proof.
  intros Hc Hn. unfold ChainByName. rewrite Hn. unfold Chain2_Name. destruct index.
  - rewrite (proj2 (HasSuffix_spec _ _)) by by eexists. rewrite length_app.
    replace (length (chain_name c) + length (str "-index") - length (str "-index"))%nat with (length (chain_name c)) by lia.
    rewrite take_app_length, chainByName_ok by done. by destruct c.
  - rewrite app_nil_r, chain_name_suffix, chainByName_ok by done. by destruct c.
Qed.

(** C21. Every chain of an account is found by its name, its index chain by that
    name with "-index", whatever the case: this is how a snapshot is restored and how chains
    are queried. *)
Theorem ChainByName_Name (c : ChainName) (index : bool) (name : bytes) :
  chain_ok c -> ToLower name = Chain2_Name c index ->
  ChainByName name =
    (if index then match c with MajorBlockChain => Panic "cannot index an index chain" | _ => Ok (c, true) end
     else Ok (c, false)).
Proof. apply ChainByName_ok. Qed.

Lemma ChainByName_Name_witness : ChainByName (str "Anchor(Directory)-BPT-Index") = Ok (AnchorBPTChain "directory", true).
Proof.
  apply (ChainByName_Name (AnchorBPTChain "directory") true); [|by vm_compute].
  split; [by vm_compute|]. split; vm_compute; set_solver.
Defined.

(** Looking up a name that is not the name of a chain may panic: the parentheses are used
    as bounds of a slice in the order they should have, and the index of an index chain
    panics. *)
Theorem ChainByName_panics :
  ChainByName (str ")(") = Panic "slice bounds out of range" /\
  ChainByName (str "major-block-index") = Panic "cannot index an index chain".
Proof. by vm_compute. Qed.

(** ** A chain *)

Definition demo_db_chain (l : list bytes) : ChainView :=
  match add_hashes dbChain false l empty_view with Ok s => s | _ => empty_view end.
Definition demo_entries : list bytes := (fun b => sha256 [b]) <$> [Byte.x01; Byte.x02; Byte.x03].

Lemma db_chain_inv l :
  Forall (fun h => length h = 32%nat) l -> zlen l < 2 ^ 62 -> chain_inv dbChain (demo_db_chain l) l.
Proof.
  intros Hl Hz. destruct (add_hashes_ok 8 ltac:(lia) l empty_view [] (chain_inv_empty 8) Hl Hz) as (s & E & Hi).
  unfold demo_db_chain. unfold dbChain in *. by rewrite E.
Qed.

Lemma demo_db_chain_inv : chain_inv dbChain (demo_db_chain demo_entries) demo_entries.
Proof. apply db_chain_inv; [|done]. apply Forall_fmap, Forall_true. intros b. apply sha256_length. Qed.

Lemma Entries_correct_witness :
  Chain_Entries 1 1 9 (demo_db_chain demo_entries) = Some (Ok (Some <$> drop 1 demo_entries)) /\
  exists m, Chain_Entries 1 (- 2 ^ 63) 9 (demo_db_chain demo_entries) = Some (Panic m).
Proof.
  split.
  - exact (Entries_correct (demo_db_chain demo_entries) demo_entries 0 1 9 demo_db_chain_inv ltac:(done) ltac:(done) ltac:(done)).
  - exact (Entries_correct (demo_db_chain demo_entries) demo_entries 0 (- 2 ^ 63) 9 demo_db_chain_inv ltac:(done) ltac:(done) ltac:(done)).
Defined.

Lemma Chain_Receipt_correct_witness :
  exists r x, demo_entries !! 1%nat = Some x /\ Chain_Receipt 1 2 (demo_db_chain demo_entries) = Ok r /\ Validate r = true /\
    Start r = Some x /\ Receipt.Anchor r = Some (mth demo_entries).
Proof. exact (Chain_Receipt_correct (demo_db_chain demo_entries) demo_entries 1 2 demo_db_chain_inv ltac:(done)). Defined.

Lemma AddEntry_correct_witness :
  exists s', AddEntry (Some [Byte.x09]) true (demo_db_chain demo_entries) = Ok s' /\
    chain_inv dbChain s' (demo_entries ++ [pad_entry [Byte.x09]]).
Proof.
  destruct (AddEntry_correct (demo_db_chain demo_entries) demo_entries [Byte.x09] true demo_db_chain_inv ltac:(done) ltac:(cbn; lia))
    as [(s' & E & Hs') _].
  exists s'. split; [done|]. rewrite decide_False in Hs'; [apply Hs'|].
  intros [_ Hin]. revert Hin. apply (bool_decide_eq_false_1 (pad_entry [Byte.x09] ∈ demo_entries)). vm_compute. reflexivity.
Defined.
