(* ===== verification/Counted.v ===== *)
(** * Lists of records: [internal/database/record/counted.go]

    An insertion-ordered list, kept as a record for the count and one record for every
    element.  It is written against the record layer of the innermost batch, and shown to
    be a list there: on top of any batches and of any key-value store. *)

From S2P Require Import Prelude Sha256 Encoding Storage Wire TypesSignatures TypesTransactions TypesStatus Records RecordsProofs DataModel DataModelProofs.
Local Open Scope Z_scope.

Section Counted.
Context {SG TB ER S : Type} `{!Union SG, !Union TB, !Union ER} `{KeyValueLaws S}.

Abbreviation V := (DbValue SG TB ER).
Abbreviation Batches := (list (@Batch V RecordKey _ _)).

(** The list under the key [key], with elements of the type [k]. *)
Context (key : RecordKey) (k : Kind).

Definition count_schema : Schema V := kind_schema true KindUint.
Definition value_schema : Schema V := kind_schema false k.
Definition value_key (i : Z) : RecordKey := key ++ [PInt i].

Definition Count (bs : Batches) (kv : S) : res Z * Batches :=
  let '(r, bs) := Value_Get Key_Hash resolve key count_schema bs kv in
  (let! v := r in match v with VUint n => Ok (i64 n) | _ => Panic "interface conversion" end, bs).

Definition Counted_Get (i : Z) (bs : Batches) (kv : S) : res V * Batches :=
  if i <? 0 then (Panic "index out of range", bs) else Value_Get Key_Hash resolve (value_key i) value_schema bs kv.

(** The loop of [GetAll], from the element [i]. *)
Fixpoint get_all (n : nat) (i : Z) (bs : Batches) (kv : S) : res (list V) * Batches :=
  match n with
  | O => (Ok [], bs)
  | Datatypes.S n =>
      let '(r, bs) := Counted_Get i bs kv in
      match r with
      | Ok v => let '(r, bs) := get_all n (i + 1) bs kv in (let! vs := r in Ok (v :: vs), bs)
      | Err e => (Err e, bs)
      | Panic m => (Panic m, bs)
      end
  end.

Definition GetAll (bs : Batches) (kv : S) : res (list V) * Batches :=
  let '(r, bs) := Count bs kv in
  match r with
  | Ok count => if count <? 0 then (Panic "makeslice: len out of range", bs) else get_all (Z.to_nat count) 0 bs kv
  | Err e => (Err e, bs)
  | Panic m => (Panic m, bs)
  end.

Definition Counted_Put (v : V) (bs : Batches) (kv : S) : res unit * Batches :=
  let '(r, bs) := Count bs kv in
  match r with
  | Ok count =>
      let bs := Put key count_schema (VUint (u64 (i64 (count + 1)))) bs in
      if count <? 0 then (Panic "index out of range", bs) else (Ok tt, Put (value_key count) value_schema v bs)
  | Err e => (Err e, bs)
  | Panic m => (Panic m, bs)
  end.

Definition Counted_Last (bs : Batches) (kv : S) : res (Z * V) * Batches :=
  let '(r, bs) := Count bs kv in
  match r with
  | Ok count =>
      if count =? 0 then (errors_new StatusNotFound "empty", bs)
      else
        let '(r, bs) := Counted_Get (count - 1) bs kv in
        (match r with
         | Ok v => Ok (count - 1, v)
         | Err e => errors_new StatusInternalError (err_msg e)
         | Panic m => Panic m
         end, bs)
  | Err e => (Err e, bs)
  | Panic m => (Panic m, bs)
  end.

(** Putting several elements. *)
Fixpoint put_all (vs : list V) (bs : Batches) (kv : S) : res unit * Batches :=
  match vs with
  | [] => (Ok tt, bs)
  | v :: vs =>
      let '(r, bs) := Counted_Put v bs kv in
      match r with Ok _ => put_all vs bs kv | _ => (r, bs) end
  end.

(** ** The list that a batch sees *)

Context `{!UnionLaws SG, !UnionLaws TB, !UnionLaws ER} (keys : list RecordKey) (bound : Z) (Hkeys : no_collisions keys).
Context (Hcount : resolveValue key = Ok (Optional KindUint)) (Helem : forall i, 0 <= i -> resolveValue (value_key i) = Ok (Required k)).
Context (Hused : key ∈ keys) (Hused_value : forall i, 0 <= i < bound -> value_key i ∈ keys) (Hbound : bound < 2 ^ 62).

Abbreviation ok := (record_ok (SG := SG) (TB := TB) (ER := ER)).
Abbreviation sees := (seen Key_Hash resolve (used_keys keys)).

Definition holds (bs : Batches) (kv : S) (l : list V) : Prop :=
  bs <> [] /\ coherent Key_Hash resolve (used_keys keys) ok bs kv /\ zlen l <= bound /\
  sees bs kv key ≡ Some (VUint (zlen l)) /\ forall i v, l !! i = Some v -> sees bs kv (value_key (Z.of_nat i)) ≡ Some v.

Lemma Hkey : resolve key = Ok count_schema.
Proof. unfold resolve. by rewrite Hcount. Qed.
Lemma Hvalue i : 0 <= i -> resolve (value_key i) = Ok value_schema.
Proof. intros Hi. unfold resolve. by rewrite Helem. Qed.

Lemma used_true q : q ∈ keys -> used_keys keys q = true.
Proof. apply bool_decide_true. Qed.

Lemma value_key_inj i j : value_key i = value_key j -> i = j.
Proof. unfold value_key. intros E%app_inj_2; [|done]. destruct E as [_ E]. by injection E. Qed.
Lemma value_key_ne i : value_key i <> key.
Proof. unfold value_key. intros E. apply (f_equal length) in E. rewrite length_app in E. cbn in E. lia. Qed.

(** Reading a record leaves the list as it is. *)
Lemma read_holds q sc bs kv l :
  holds bs kv l -> q ∈ keys -> resolve q = Ok sc ->
  exists o cs, Value_Get Key_Hash resolve q sc bs kv = (RecordsProofs.found o, cs) /\ o ≡ sees bs kv q /\ holds cs kv l.
Proof.
  intros (Hne & Hc & Hl & Hn & He) Hq Hr. destruct bs as [|b p]; [done|].
  destruct (Value_Get_spec Key_Hash resolve (used_keys keys) ok (model_laws keys Hkeys) q sc b p kv (used_true _ Hq) Hr Hc)
    as (o & cs & E & Ho & _ & Hcs & Hs).
  exists o, cs. split; [done|]. split; [done|]. split; [by destruct cs|]. split; [done|]. split; [done|].
  pose proof (fun q => same_seen Key_Hash resolve (used_keys keys) kv _ _ q Hs) as Hsame.
  split; [by rewrite Hsame|]. intros i v Hi. rewrite Hsame. by apply He.
Qed.

Lemma equiv_VUint (v : V) n : v ≡ VUint n -> v = VUint n.
Proof. destruct v; unfold equiv, DbValue_equiv; cbn; congruence. Qed.

Lemma Count_ok bs kv l : holds bs kv l -> exists cs, Count bs kv = (Ok (zlen l), cs) /\ holds cs kv l.
Proof.
  intros Hh. pose proof Hh as (_ & _ & Hl & Hn & _). pose proof (zlen_nonneg l).
  destruct (read_holds key count_schema bs kv l Hh Hused Hkey) as (o & cs & E & Ho & Hcs). exists cs. split; [|done].
  unfold Count. rewrite E. rewrite Hn in Ho. destruct o as [v|]; [|inversion Ho]. apply (inj Some), equiv_VUint in Ho as ->.
  cbn. by rewrite i64_small by (unfold is_i64; lia).
Qed.

Lemma Get_ok bs kv l i v :
  holds bs kv l -> l !! i = Some v -> exists w cs, Counted_Get (Z.of_nat i) bs kv = (Ok w, cs) /\ w ≡ v /\ holds cs kv l.
Proof.
  intros Hh Hi. pose proof Hh as (_ & _ & Hl & _ & He). apply lookup_lt_Some in Hi as Hlt.
  destruct (read_holds (value_key (Z.of_nat i)) value_schema bs kv l Hh) as (o & cs & E & Ho & Hcs).
  { apply Hused_value. unfold zlen in Hl. lia. }
  { apply Hvalue. lia. }
  rewrite (He i v Hi) in Ho. destruct o as [w|]; [|inversion Ho]. apply (inj Some) in Ho. exists w, cs.
  unfold Counted_Get. rewrite (proj2 (Z.ltb_ge _ _)) by lia. by rewrite E.
Qed.

Lemma get_all_ok n i bs kv l :
  holds bs kv l -> (i + n = length l)%nat ->
  exists ws cs, get_all n (Z.of_nat i) bs kv = (Ok ws, cs) /\ ws ≡ drop i l /\ holds cs kv l.
Proof.
  revert i bs. induction n as [|n IH]; intros i bs Hh Hi.
  { exists [], bs. rewrite drop_ge by lia. done. }
  destruct (lookup_lt_is_Some_2 l i) as [v Hv]; [lia|].
  destruct (Get_ok bs kv l i v Hh Hv) as (w & cs & E & Hw & Hcs).
  destruct (IH (Datatypes.S i) cs Hcs) as (ws & ds & E' & Hws & Hds); [lia|].
  exists (w :: ws), ds. cbn [get_all]. rewrite E. replace (Z.of_nat i + 1) with (Z.of_nat (Datatypes.S i)) by lia.
  rewrite E'. split; [done|]. split; [|done]. rewrite (drop_S _ _ _ Hv). by constructor.
Qed.

Lemma GetAll_ok bs kv l : holds bs kv l -> exists ws cs, GetAll bs kv = (Ok ws, cs) /\ ws ≡ l /\ holds cs kv l.
Proof.
  intros Hh. destruct (Count_ok bs kv l Hh) as (cs & E & Hcs). pose proof (zlen_nonneg l).
  destruct (get_all_ok (length l) 0 cs kv l Hcs eq_refl) as (ws & ds & E' & Hws & Hds). exists ws, ds.
  unfold GetAll. rewrite E. rewrite (proj2 (Z.ltb_ge _ _)) by lia. unfold zlen. rewrite Nat2Z.id. change (Z.of_nat 0) with 0 in E'. by rewrite E'.
Qed.

Lemma Last_ok bs kv l v :
  holds bs kv (l ++ [v]) -> exists w cs, Counted_Last bs kv = (Ok (zlen l, w), cs) /\ w ≡ v /\ holds cs kv (l ++ [v]).
Proof.
  intros Hh. destruct (Count_ok bs kv _ Hh) as (cs & E & Hcs). pose proof (zlen_nonneg l).
  destruct (Get_ok cs kv _ (length l) v Hcs) as (w & ds & E' & Hw & Hds).
  { by rewrite lookup_app_r, Nat.sub_diag by lia. }
  exists w, ds. unfold Counted_Last. rewrite E, zlen_app. change (zlen [v]) with 1.
  rewrite (proj2 (Z.eqb_neq _ _)) by lia. replace (zlen l + 1 - 1) with (zlen l) by lia. unfold zlen in *. by rewrite E'.
Qed.

Lemma Put_ok bs kv l v :
  holds bs kv l -> zlen l < bound -> kind_ok k v -> (exists cs, Counted_Put v bs kv = (Ok tt, cs) /\ holds cs kv (l ++ [v])).
Proof.
  intros Hh Hlt Hv. pose proof (zlen_nonneg l). destruct (Count_ok bs kv l Hh) as (cs & E & Hcs).
  destruct Hcs as (Hne & Hc & _ & Hn & He). destruct cs as [|b p]; [done|].
  pose proof (Hvalue (zlen l) ltac:(lia)) as Hr.
  destruct (Put_spec Key_Hash resolve (used_keys keys) ok key count_schema (VUint (zlen l + 1)) b p kv (used_true _ Hused) Hkey)
    as (c1 & E1 & Hc1 & Hs1); [|done|].
  { exists (Optional KindUint). split; [done|]. change (is_u64 (zlen l + 1)). unfold is_u64. lia. }
  destruct (Put_spec Key_Hash resolve (used_keys keys) ok (value_key (zlen l)) value_schema v c1 p kv
    (used_true _ (Hused_value (zlen l) ltac:(lia))) Hr) as (c2 & E2 & Hc2 & Hs2); [by exists (Required k); split; [apply Helem|]|done|].
  exists (c2 :: p). split.
  { unfold Counted_Put. rewrite E. rewrite (i64_small (zlen l + 1)) by (unfold is_i64; lia).
    rewrite u64_small by (unfold is_u64; lia). rewrite E1, (proj2 (Z.ltb_ge _ _)) by lia. by rewrite E2. }
  split; [done|]. split; [done|]. rewrite zlen_app. change (zlen [v]) with 1. split; [lia|]. split.
  { rewrite Hs2, Hs1. rewrite decide_False by apply not_eq_sym, value_key_ne. by rewrite decide_True. }
  intros i w Hi. rewrite Hs2. case_decide as Ei.
  - apply value_key_inj in Ei. unfold zlen in Ei. assert (i = length l) as -> by lia.
    rewrite lookup_app_r, Nat.sub_diag in Hi by lia. by injection Hi as ->.
  - rewrite Hs1, decide_False by apply value_key_ne. apply He. apply lookup_app_Some in Hi as [Hi|[Hge Hi]]; [done|].
    destruct Ei. apply list_lookup_singleton_Some in Hi as [Hi _]. unfold zlen. f_equal. lia.
Qed.

Lemma put_all_ok vs bs kv l :
  holds bs kv l -> zlen (l ++ vs) <= bound -> Forall (kind_ok k) vs ->
  exists cs, put_all vs bs kv = (Ok tt, cs) /\ holds cs kv (l ++ vs).
Proof.
  revert bs l. induction vs as [|v vs IH]; intros bs l Hh Hb Hvs; [exists bs; by rewrite app_nil_r|].
  apply Forall_cons in Hvs as [Hv Hvs]. pose proof (zlen_nonneg vs). rewrite zlen_app, zlen_cons in Hb.
  destruct (Put_ok bs kv l v Hh) as (cs & E & Hcs); [lia|done|].
  destruct (IH cs (l ++ [v]) Hcs) as (ds & E' & Hds); [rewrite <- app_assoc, zlen_app; cbn [app]; rewrite zlen_cons; lia|done|].
  rewrite <- app_assoc in Hds. exists ds. cbn [put_all]. by rewrite E.
Qed.

(** C19. A counted list is a list: wherever the innermost batch sees the elements [l],
    putting elements succeeds and appends them, [GetAll] then reads the elements of [l]
    and the new ones in order, and [Last] the last of them with its index, or says that
    there is none. *)
Theorem Counted_list vs bs kv l :
  holds bs kv l -> zlen (l ++ vs) <= bound -> Forall (kind_ok k) vs ->
  exists cs, put_all vs bs kv = (Ok tt, cs) /\ holds cs kv (l ++ vs) /\
    (exists ws ds, GetAll cs kv = (Ok ws, ds) /\ ws ≡ l ++ vs) /\
    match last (l ++ vs) with
    | Some v => exists w ds, Counted_Last cs kv = (Ok (zlen (l ++ vs) - 1, w), ds) /\ w ≡ v
    | None => exists e ds, Counted_Last cs kv = (Err e, ds) /\ is_not_found e = true
    end.
Proof.
  intros Hh Hb Hvs. destruct (put_all_ok vs bs kv l Hh Hb Hvs) as (cs & E & Hcs). exists cs. split; [done|]. split; [done|].
  split; [destruct (GetAll_ok cs kv _ Hcs) as (ws & ds & E' & Hws & _); by exists ws, ds|].
  destruct (last (l ++ vs)) as [v|] eqn:El.
  - apply last_Some in El as [rest El]. rewrite El in Hcs |- *. destruct (Last_ok cs kv rest v Hcs) as (w & ds & E' & Hw & _).
    exists w, ds. rewrite zlen_app. change (zlen [v]) with 1. by replace (zlen rest + 1 - 1) with (zlen rest) by lia.
  - apply last_None in El. rewrite El in Hcs. destruct (Count_ok cs kv _ Hcs) as (ds & E' & _).
    eexists _, ds. unfold Counted_Last. by rewrite E'.
Qed.

End Counted.

(** ** The data entries of an account *)

Definition demo_data : RecordKey := accessor_key (Account_Data_Entry (replicate 32 Byte.x01) None).
Definition demo_data_keys : list RecordKey := [demo_data; value_key demo_data 0; value_key demo_data 1].

Lemma demo_data_elements i : 0 <= i -> resolveValue (value_key demo_data i) = Ok (Required KindHash).
Proof. intros Hi. exact (accessor_resolves (Account_Data_Entry _ (Some i)) (proj2 (Z.leb_le _ _) Hi)). Qed.

Lemma demo_data_used i : 0 <= i < 2 -> value_key demo_data i ∈ demo_data_keys.
Proof. intros Hi. assert (i = 0 \/ i = 1) as [->| ->] by lia; unfold demo_data_keys; set_solver. Qed.

Lemma demo_data_empty : holds (S := Txn) demo_data demo_data_keys 2 [@NewBatch DemoValue RecordKey _ _] demo_txn [].
Proof.
  split; [done|]. split; [split; [done|split; [apply demo_kv_ok|intros k v Hk; cbn in Hk; by rewrite lookup_empty in Hk]]|]. split; [done|]. split; [|done].
  assert (E : seen Key_Hash resolve (used_keys demo_data_keys) [@NewBatch DemoValue RecordKey _ _] demo_txn demo_data =
    Some (VUint 0)) by (vm_compute; reflexivity).
  by rewrite E.
Qed.

Lemma Counted_list_witness :
  let vs := [VHash (sha256 [Byte.x01]); VHash (sha256 [Byte.x02])] : list DemoValue in
  exists cs, put_all demo_data KindHash vs [NewBatch] demo_txn = (Ok tt, cs) /\
    exists ws ds, GetAll demo_data KindHash cs demo_txn = (Ok ws, ds) /\ ws ≡ vs.
Proof.
  intros vs.
  destruct (Counted_list (SG := SignatureAt 1) (TB := TransactionBodyAt (SignatureAt 1) 1) (ER := ErrorAt 1) demo_data KindHash demo_data_keys 2 ltac:(apply hashes_no_collisions; vm_compute; reflexivity) ltac:(done)
    demo_data_elements ltac:(by left) demo_data_used ltac:(done) vs [NewBatch] demo_txn [] demo_data_empty ltac:(done))
    as (cs & E & _ & Hall & _); [by repeat constructor; vm_compute|].
  exists cs. by split.
Defined.
