(* ===== verification/Indexing.v ===== *)
(** * Searching index chains: [internal/indexing/chain.go]

    An index chain holds an index entry for every block in which its chain grew.  A search
    starts at an entry and walks along the chain until the search function changes its
    direction.  The fuel of the loop is the number of entries: every iteration moves on. *)

From S2P Require Import Prelude Sha256 Encoding Codec CodecProofs MerkleState Chain ChainProofs Wire TypesGeneral DbChain.
Local Open Scope Z_scope.

Definition ErrReachedChainEnd : error := mkError StatusNotFound "reached the end of the chain".
Definition ErrReachedChainStart : error := mkError StatusNotFound "reached the start of the chain".
Definition ErrTargetDoesNotExist : error := mkError StatusNotFound "target does not exist".

Inductive SearchDirection := SearchComplete | SearchForward | SearchBackward.
Inductive MatchMode := MatchExact | MatchBefore | MatchAfter.

#[global] Instance SearchDirection_eq_dec : EqDecision SearchDirection.
Proof. solve_decision. Defined.
#[global] Instance MatchMode_eq_dec : EqDecision MatchMode.
Proof. solve_decision. Defined.

(** [entry < target], [entry > target] or neither. *)
Definition search_by (v target : Z) : SearchDirection :=
  if v <? target then SearchForward else if target <? v then SearchBackward else SearchComplete.

Definition SearchIndexChainBySource (targetSource : Z) (entry : IndexEntry) : SearchDirection :=
  search_by (IndexEntry_Source entry) targetSource.
Definition SearchIndexChainByBlock (blockIndex : Z) (entry : IndexEntry) : SearchDirection :=
  search_by (IndexEntry_BlockIndex entry) blockIndex.
Definition SearchIndexChainByRootIndexIndex (targetRootIndexIndex : Z) (entry : IndexEntry) : SearchDirection :=
  search_by (IndexEntry_RootIndexIndex entry) targetRootIndexIndex.
Definition SearchIndexChainByAnchorBounds (lowerBound upperBound : Z) (entry : IndexEntry) : SearchDirection :=
  if IndexEntry_Anchor entry <? lowerBound then SearchForward
  else if upperBound <? IndexEntry_Anchor entry then SearchBackward
  else SearchComplete.

Section Search.
Context {S : Type} `{!ChainStore S} (mode : MatchMode) (find : IndexEntry -> SearchDirection).

(** [Chain.EntryAs] into an index entry. *)
Definition EntryAs (height : Z) (s : S) : res IndexEntry :=
  let! data := Chain_Entry height s in IndexEntry_UnmarshalBinary new_IndexEntry (hb data).

(** The loop, from an entry that lies in the direction [dir] of the target; [None] when it
    is still running. *)
Fixpoint search_loop (fuel : nat) (dir : SearchDirection) (index : Z) (entry : IndexEntry) (height : Z) (s : S)
    : option (res (Z * IndexEntry)) :=
  match fuel with
  | O => None
  | Datatypes.S fuel =>
      let next :=
        if decide (dir = SearchForward) then
          let index := u64 (index + 1) in if u64 height <=? index then Err ErrReachedChainEnd else Ok index
        else if index =? 0 then Err ErrReachedChainStart else Ok (index - 1) in
      match next with
      | Err e => Some (Err e)
      | Panic m => Some (Panic m)
      | Ok index' =>
          match EntryAs (i64 index') s with
          | Err e => Some (Err e)
          | Panic m => Some (Panic m)
          | Ok entry' =>
              let dir2 := find entry' in
              if decide (dir2 = SearchComplete) then Some (Ok (index', entry'))
              else if decide (dir = dir2) then search_loop fuel dir index' entry' height s
              else
                let '(before, after) :=
                  if decide (dir = SearchBackward) then ((index', entry'), (index, entry)) else ((index, entry), (index', entry')) in
                Some match mode with
                     | MatchExact => Err ErrTargetDoesNotExist
                     | MatchBefore => Ok before
                     | MatchAfter => Ok after
                     end
          end
      end
  end.

Definition SearchIndexChain (fuel : nat) (index : Z) (s : S) : option (res (Z * IndexEntry)) :=
  match EntryAs (i64 index) s with
  | Err e => Some (Err e)
  | Panic m => Some (Panic m)
  | Ok entry =>
      let dir := find entry in
      if decide (dir = SearchComplete) then Some (Ok (index, entry))
      else if (index =? 0) && bool_decide (dir = SearchBackward) && bool_decide (mode = MatchAfter) then Some (Ok (index, entry))
      else
        match Chain_Height s with
        | Err e => Some (Err e)
        | Panic m => Some (Panic m)
        | Ok height =>
            if (index =? u64 (u64 height - 1)) && bool_decide (dir = SearchForward) && bool_decide (mode = MatchBefore) then
              Some (Ok (index, entry))
            else search_loop fuel dir index entry height s
        end
  end.

End Search.

(** ** Index entries on a chain *)

Definition entry_fields (e : IndexEntry) : Prop :=
  (IndexEntry_Source e, IndexEntry_Anchor e, IndexEntry_BlockIndex e, IndexEntry_BlockTime e, IndexEntry_RootIndexIndex e) <>
  (0, 0, 0, None, 0).

Lemma last_field_err r n v : reading r ([(n, v)] ++ []) -> r_err r = None.
Proof. intros [ns [Hr|Hr]]; apply Hr. Qed.

Lemma seg_nil c n v : seg c n v = [] -> c = true.
Proof. by destruct c. Qed.

Lemma image_padded fs z : fs <> [] -> image fs ++ Byte.x20 :: z = image (fs ++ [(32, FHash z)]).
Proof.
  intros Hfs. assert (E : enc_all (fs ++ [(32, FHash z)]) = enc_all fs ++ Byte.x20 :: z).
  { unfold enc_all. rewrite fmap_app, join_app. f_equal. cbn. by rewrite app_nil_r. }
  destruct fs as [|f fs]; [done|]. cbn [app image] in *. by rewrite E.
Qed.

(** An entry that was padded is read back; the padding counts as an unknown field. *)
Lemma IndexEntry_padded e b :
  IndexEntry_ok e -> entry_fields e -> IndexEntry_MarshalBinary e = Ok b -> (length b <= 32)%nat ->
  exists e', IndexEntry_UnmarshalBinary new_IndexEntry (pad_entry b) = Ok e' /\ IndexEntry_Copy e' = e.
Proof.
  intros Hok Hne Hb Hl. unfold pad_entry. destruct (Z.ltb_spec (zlen b) 32) as [Hlt|Hge].
  2:{ destruct (IndexEntry_survives e Hok) as (b' & E & Eu). rewrite Hb in E. injection E as <-.
      exists e. split; [done|]. by apply IndexEntry_copied. }
  pose proof Hok as Hx. hnf in Hx. destruct_and? Hx.
  eassert (Hw : written _ _).
  { unfold IndexEntry_MarshalBinary in Hb. match type of Hb with finish _ ?w = _ => instantiate (2 := w) end. wire_write. }
  unfold IndexEntry_MarshalBinary in Hb. match goal with H : IndexEntry_extraData e = [] |- _ => rewrite H in Hb end.
  rewrite (finish_written _ _ Hw) in Hb. injection Hb as <-.
  rewrite image_padded.
  2:{ intros E. rewrite !app_nil in E. destruct E as [[[[E1 E2] E3] E4] E5]. apply Hne.
      apply seg_nil, Z.eqb_eq in E1, E2, E3, E5. apply seg_nil, is_nil_None in E4. congruence. }
  match goal with |- context [image ?l] => pose proof (reading_new l) as Hr; remember (image l) as data eqn:Ed; clear Ed end.
  rewrite <- !app_assoc, ?app_nil_l in Hr. unfold IndexEntry_UnmarshalBinary. generalize dependent (NewReader data). intros r Hr.
  match type of Hr with context [FHash ?z] => generalize dependent z end. intros z Hr.
  change [(32, FHash z)] with ([(32, FHash z)] ++ []) in Hr. do 5 wire_read_one.
  unfold finish_read, Reader_Reset. rewrite (last_field_err _ _ _ Hr0). eexists. split; [done|]. cbn.
  rewrite !from_seg by wire_zero. rewrite or_else_nil. by destruct e; cbn in *; subst.
Qed.

(** The chain holds the index entries [es]. *)
Definition index_chain {S} `{ChainStoreLaws S} (s : S) (es : list IndexEntry) : Prop :=
  exists l, chain_inv dbChain s l /\ zlen l < 2 ^ 62 /\
    Forall2 (fun e h => IndexEntry_ok e /\ entry_fields e /\
      exists b, IndexEntry_MarshalBinary e = Ok b /\ (length b <= 32)%nat /\ h = pad_entry b) es l.

Section SearchFacts.
Context {S : Type} `{ChainStoreLaws S} (s : S) (es : list IndexEntry).
Context (Hidx : index_chain s es).

Lemma index_Height : Chain_Height s = Ok (zlen es) /\ zlen es < 2 ^ 62.
Proof.
  destruct Hidx as (l & Hi & Hl & Hes). rewrite (Height_ok s l Hi Hl). unfold zlen in *. by rewrite (Forall2_length _ _ _ Hes).
Qed.

Lemma EntryAs_ok i e : es !! i = Some e -> exists e', EntryAs (Z.of_nat i) s = Ok e' /\ IndexEntry_Copy e' = e.
Proof.
  intros He. destruct Hidx as (l & Hi & Hl & Hes). destruct (Forall2_lookup_l _ _ _ _ _ Hes He) as (h & Hh & Hok & Hf & b & Hb & Hlen & ->).
  apply lookup_lt_Some in Hh as Hlt. unfold zlen in Hl. unfold EntryAs.
  rewrite (Entry_ok s l Hi) by (unfold zlen; lia). rewrite Nat2Z.id, Hh. cbn. by apply IndexEntry_padded.
Qed.

(** The entries are sorted for the search: those before the target, those that match,
    those after. *)
Context (mode : MatchMode) (find : IndexEntry -> SearchDirection).
Context (Hcopy : forall e, find (IndexEntry_Copy e) = find e).
Context (Hsorted : forall i j e f, (i <= j)%nat -> es !! i = Some e -> es !! j = Some f ->
  (find f = SearchForward -> find e = SearchForward) /\ (find e = SearchBackward -> find f = SearchBackward)).

Definition no_match : Prop := Forall (fun e => find e <> SearchComplete) es.

(** What a search may return: a match, or its neighbour when there is none and the mode
    asks for it. *)
Definition found_entry (i : Z) (e' : IndexEntry) : Prop :=
  exists n e, i = Z.of_nat n /\ es !! n = Some e /\ IndexEntry_Copy e' = e /\
    (find e = SearchComplete \/
     no_match /\
     match mode with
     | MatchExact => False
     | MatchBefore => find e = SearchForward /\ forall j f, (n < j)%nat -> es !! j = Some f -> find f = SearchBackward
     | MatchAfter => find e = SearchBackward /\ forall j f, (j < n)%nat -> es !! j = Some f -> find f = SearchForward
     end).

Definition all_are (d : SearchDirection) : Prop := Forall (fun e => find e = d) es.

(** The search from entry [start]. *)
Definition search_ok (start : nat) (r : res (Z * IndexEntry)) : Prop :=
  match r with
  | Ok (i, e') => found_entry i e'
  | Err err =>
      is_not_found err = true /\ no_match /\
      match mode with
      | MatchExact => True
      | MatchBefore => all_are SearchBackward \/ all_are SearchForward /\ (start + 1 < length es)%nat
      | MatchAfter => all_are SearchForward \/ all_are SearchBackward /\ (0 < start)%nat
      end
  | Panic _ => False
  end.

Lemma all_no_match d : d <> SearchComplete -> all_are d -> no_match.
Proof. intros Hd HF. eapply Forall_impl; [exact HF|]. by intros e ->. Qed.

(** Two neighbours on either side of the target. *)
Lemma neighbours n e f :
  es !! n = Some e -> es !! Datatypes.S n = Some f -> find e = SearchForward -> find f = SearchBackward ->
  no_match /\ (forall j g, (n < j)%nat -> es !! j = Some g -> find g = SearchBackward) /\
  (forall j g, (j < Datatypes.S n)%nat -> es !! j = Some g -> find g = SearchForward).
Proof.
  intros He Hf Ee Ef.
  assert (Ha : forall j g, (n < j)%nat -> es !! j = Some g -> find g = SearchBackward).
  { intros j g Hj Hg. by eapply (Hsorted (Datatypes.S n) j); [lia|..]. }
  assert (Hb : forall j g, (j < Datatypes.S n)%nat -> es !! j = Some g -> find g = SearchForward).
  { intros j g Hj Hg. by eapply (Hsorted j n); [lia|..]. }
  split; [|done]. apply Forall_lookup. intros j g Hg. destruct (decide (n < j)%nat); [by rewrite (Ha j g)|by rewrite (Hb j g) by (done || lia)].
Qed.

(** What is returned between two neighbours. *)
Lemma between_ok start n e f e' f' :
  es !! n = Some e -> es !! Datatypes.S n = Some f -> find e = SearchForward -> find f = SearchBackward ->
  IndexEntry_Copy e' = e -> IndexEntry_Copy f' = f ->
  search_ok start (match mode with
     | MatchExact => Err ErrTargetDoesNotExist
     | MatchBefore => Ok (Z.of_nat n, e')
     | MatchAfter => Ok (Z.of_nat (Datatypes.S n), f')
     end).
Proof.
  intros He Hf Ee Ef Ce Cf. destruct (neighbours n e f He Hf Ee Ef) as (Hno & Ha & Hb).
  unfold search_ok, found_entry. destruct mode; [done| |].
  - exists n, e. do 3 (split; [done|]). right. done.
  - exists (Datatypes.S n), f. do 3 (split; [done|]). right. done.
Qed.

Lemma forward_loop start fuel n e e' :
  (start <= n)%nat -> (start + 1 < length es)%nat \/ mode <> MatchBefore ->
  (length es <= n + fuel)%nat -> es !! n = Some e -> IndexEntry_Copy e' = e -> find e = SearchForward ->
  exists r, search_loop mode find fuel SearchForward (Z.of_nat n) e' (zlen es) s = Some r /\ search_ok start r.
Proof.
  intros Hst Hm. revert n e e' Hst. destruct index_Height as [_ Hlen].
  induction fuel as [|fuel IH]; intros n e e' Hst Hfuel He Ce Ed; apply lookup_lt_Some in He as Hlt; [lia|].
  cbn [search_loop]. rewrite decide_True by done. unfold zlen in *.
  rewrite !u64_small by (unfold is_u64; lia). replace (Z.of_nat n + 1) with (Z.of_nat (Datatypes.S n)) by lia.
  destruct (Z.leb_spec (Z.of_nat (length es)) (Z.of_nat (Datatypes.S n))) as [Hend|Hin].
  - eexists. split; [done|]. assert (Hall : all_are SearchForward).
    { apply Forall_lookup. intros j g Hg. apply lookup_lt_Some in Hg as Hj. by eapply (Hsorted j n); [lia|..]. }
    split; [done|]. split; [by apply (all_no_match SearchForward)|]. destruct mode; [done| |by left]. right. split; [done|]. by destruct Hm.
  - destruct (lookup_lt_is_Some_2 es (Datatypes.S n)) as [f Hf]; [lia|]. rewrite i64_small by (unfold is_i64; lia).
    destruct (EntryAs_ok _ f Hf) as (f' & -> & Cf). assert (Ef : find f' = find f) by by rewrite <- Cf, Hcopy. rewrite Ef.
    destruct (find f) eqn:Df.
    + eexists. split; [done|]. exists (Datatypes.S n), f. do 3 (split; [done|]). by left.
    + rewrite decide_False by done. rewrite decide_True by done. by apply (IH _ f); [lia|lia|..].
    + rewrite !decide_False by done. eexists. split; [done|].
      apply (between_ok start n e f e' f'); done.
Qed.

Lemma backward_loop start fuel n e e' :
  (n <= start)%nat -> (0 < start)%nat \/ mode <> MatchAfter ->
  (n < fuel)%nat -> es !! n = Some e -> IndexEntry_Copy e' = e -> find e = SearchBackward ->
  exists r, search_loop mode find fuel SearchBackward (Z.of_nat n) e' (zlen es) s = Some r /\ search_ok start r.
Proof.
  intros Hst Hm. revert n e e' Hst. destruct index_Height as [_ Hlen]. unfold zlen in Hlen.
  induction fuel as [|fuel IH]; intros n e e' Hst Hfuel He Ce Ed; apply lookup_lt_Some in He as Hlt; [lia|].
  cbn [search_loop]. rewrite decide_False by done. destruct n as [|n].
  - eexists. split; [done|]. assert (Hall : all_are SearchBackward).
    { apply Forall_lookup. intros j g Hg. by eapply (Hsorted 0 j); [lia|..]. }
    split; [done|]. split; [by apply (all_no_match SearchBackward)|]. destruct mode; [done|by left|]. right. split; [done|]. by destruct Hm.
  - rewrite (proj2 (Z.eqb_neq _ _)) by lia.
    replace (Z.of_nat (Datatypes.S n) - 1) with (Z.of_nat n) by lia. rewrite i64_small by (unfold is_i64; lia).
    destruct (lookup_lt_is_Some_2 es n) as [f Hf]; [lia|].
    destruct (EntryAs_ok _ f Hf) as (f' & -> & Cf). assert (Ef : find f' = find f) by by rewrite <- Cf, Hcopy. rewrite Ef.
    destruct (find f) eqn:Df.
    + eexists. split; [done|]. exists n, f. do 3 (split; [done|]). by left.
    + rewrite decide_False by done. rewrite decide_False by done. rewrite decide_True by done. eexists. split; [done|].
      apply (between_ok start n f e f' e'); done.
    + rewrite decide_False by done. rewrite decide_True by done. by apply (IH _ f); [lia|lia|..].
Qed.

Lemma SearchIndexChain_ok fuel start :
  (start < length es)%nat -> (length es <= fuel)%nat ->
  exists r, SearchIndexChain mode find fuel (Z.of_nat start) s = Some r /\ search_ok start r.
Proof.
  intros Hlt Hfuel. destruct (lookup_lt_is_Some_2 es start Hlt) as [e He]. destruct index_Height as [Eh Hlen].
  unfold zlen in *. unfold SearchIndexChain. rewrite i64_small by (unfold is_i64; lia).
  destruct (EntryAs_ok _ e He) as (e' & -> & Ce). assert (Ee : find e' = find e) by by rewrite <- Ce, Hcopy. rewrite Ee, Eh.
  rewrite (u64_small (Z.of_nat (length es))), (u64_small (_ - 1)) by (unfold is_u64; lia).
  destruct (find e) eqn:De.
  - eexists. split; [done|]. exists start, e. do 3 (split; [done|]). by left.
  - rewrite decide_False by done. rewrite (bool_decide_false (SearchForward = SearchBackward)) by done. rewrite andb_false_r. cbn [andb].
    rewrite (bool_decide_true (SearchForward = SearchForward)) by done. rewrite andb_true_r.
    destruct (Z.eqb_spec (Z.of_nat start) (Z.of_nat (length es) - 1)) as [Hl|Hl], (bool_decide_reflect (mode = MatchBefore)) as [Em|Em]; cbn [andb].
    + assert (Hall : forall j g, es !! j = Some g -> find g = SearchForward).
      { intros j g Hg. apply lookup_lt_Some in Hg as Hj. by eapply (Hsorted j start); [lia|..]. }
      eexists. split; [done|]. exists start, e. do 3 (split; [done|]). right. split; [|rewrite Em; split; [done|]].
      * apply Forall_lookup. intros j g Hg. by rewrite (Hall j g Hg).
      * intros j g Hj Hg. apply lookup_lt_Some in Hg. lia.
    + by apply (forward_loop start fuel start e e'); [lia|right|lia|..].
    + by apply (forward_loop start fuel start e e'); [lia|left; lia|lia|..].
    + by apply (forward_loop start fuel start e e'); [lia|right|lia|..].
  - rewrite decide_False by done. rewrite (bool_decide_true (SearchBackward = SearchBackward)) by done.
    rewrite (bool_decide_false (SearchBackward = SearchForward)) by done. rewrite andb_true_r, andb_false_r. cbn [andb].
    destruct (Z.eqb_spec (Z.of_nat start) 0) as [Hz|Hz], (bool_decide_reflect (mode = MatchAfter)) as [Em|Em]; cbn [andb].
    + assert (Hall : forall j g, es !! j = Some g -> find g = SearchBackward).
      { intros j g Hg. by eapply (Hsorted start j); [lia|..]. }
      eexists. split; [done|]. exists start, e. do 3 (split; [done|]). right. split; [|rewrite Em; split; [done|]].
      * apply Forall_lookup. intros j g Hg. by rewrite (Hall j g Hg).
      * intros j g Hj. lia.
    + by apply (backward_loop start fuel start e e'); [lia|right|lia|..].
    + by apply (backward_loop start fuel start e e'); [lia|left; lia|lia|..].
    + by apply (backward_loop start fuel start e e'); [lia|right|lia|..].
Qed.

(** C22. A search along an index chain that is sorted for the search ends within as
    many iterations as there are entries, without panicking, and returns an entry that
    matches if there is one; if there is none, the last entry before the target or the
    first one after it, as the mode asks.  It is refused only if nothing matches and the
    mode asks for a match, or if all entries lie on one side of the target: then also if
    the entry asked for exists, unless the search starts at it. *)
Theorem SearchIndexChain_correct fuel start :
  (start < length es)%nat -> (length es <= fuel)%nat ->
  exists r, SearchIndexChain mode find fuel (Z.of_nat start) s = Some r /\ search_ok start r.
Proof. apply SearchIndexChain_ok. Qed.

End SearchFacts.

(** The search functions are sorted on a chain along which their field does not decrease. *)
Lemma search_by_sorted (field : IndexEntry -> Z) (es : list IndexEntry) (target : Z) :
  (forall i j e f, (i <= j)%nat -> es !! i = Some e -> es !! j = Some f -> field e <= field f) ->
  forall i j e f, (i <= j)%nat -> es !! i = Some e -> es !! j = Some f ->
  (search_by (field f) target = SearchForward -> search_by (field e) target = SearchForward) /\
  (search_by (field e) target = SearchBackward -> search_by (field f) target = SearchBackward).
Proof.
  intros Hs i j e f Hij He Hf. pose proof (Hs i j e f Hij He Hf). unfold search_by.
  destruct (Z.ltb_spec (field f) target), (Z.ltb_spec target (field f)), (Z.ltb_spec (field e) target), (Z.ltb_spec target (field e));
    split; done || lia.
Qed.

(** ** An index chain *)

Definition demo_index : list IndexEntry := [Build_IndexEntry 5 1 1 None 0 []; Build_IndexEntry 9 3 2 None 1 []].
Definition demo_index_chain : ChainView :=
  demo_db_chain ((fun e => pad_entry (bytes_of (IndexEntry_MarshalBinary e))) <$> demo_index).

Lemma demo_index_ok : index_chain demo_index_chain demo_index.
Proof.
  eexists. split; [|split; [|]].
  - apply db_chain_inv; [|done]. repeat apply Forall_cons_2; [vm_compute; reflexivity..|apply Forall_nil_2].
  - done.
  - repeat apply Forall2_cons_2; [..|apply Forall2_nil_2]; (split; [wire_ok; done|]; split; [done|]; eexists; split; [vm_compute; reflexivity|];
      split; [vm_compute; lia|vm_compute; reflexivity]).
Qed.

Lemma demo_index_sorted i j e f :
  (i <= j)%nat -> demo_index !! i = Some e -> demo_index !! j = Some f -> IndexEntry_Source e <= IndexEntry_Source f.
Proof. intros Hij He Hf. destruct i as [|[|]], j as [|[|]]; try lia; simplify_eq/=; lia. Qed.

Lemma SearchIndexChain_correct_witness :
  exists r, SearchIndexChain MatchAfter (SearchIndexChainBySource 7) 2 1 demo_index_chain = Some r /\
    search_ok demo_index MatchAfter (SearchIndexChainBySource 7) 1 r.
Proof.
  exact (SearchIndexChain_correct demo_index_chain demo_index demo_index_ok MatchAfter (SearchIndexChainBySource 7)
    (fun _ => eq_refl) (search_by_sorted IndexEntry_Source demo_index 7 demo_index_sorted) 2 1 ltac:(cbn; lia) ltac:(cbn; lia)).
Defined.

(** The first entry after the target is found from the start of the chain, and not from its
    end: the test for the ends of the chain is made for the entry at which the search
    starts only.  This is how the receipt of an entry that is not the last one of the first
    block of its chain is looked for. *)
Theorem search_from_end_fails :
  (exists e, SearchIndexChain MatchAfter (SearchIndexChainBySource 3) 2 0 demo_index_chain = Some (Ok (0, e))) /\
  SearchIndexChain MatchAfter (SearchIndexChainBySource 3) 2 1 demo_index_chain = Some (Err ErrReachedChainStart).
Proof. split; [eexists|]; vm_compute; reflexivity. Qed.
