(* ===== verification/Normalize.v ===== *)
(** * Envelopes: [NormalizeEnvelope] of [internal/chain/delivery.go]

    An envelope is split into deliveries, one for each of its transactions and one for each
    other transaction that one of its signatures is for.  The map from hashes to deliveries
    holds pointers to the deliveries of the list, so here it holds their positions. *)

From S2P Require Import Prelude Sha256 Encoding Codec Url Wire TypesGeneral TypesAccounts TypesSignatures TypesTransactions TypesProps TransactionHash.
Local Open Scope Z_scope.

(** ** [GetTransactionHash] of the signatures *)

Definition nil_pointer {A} : res A := Panic "invalid memory address or nil pointer dereference".

Fixpoint GetTransactionHash (depth : nat) : SignatureAt depth -> res bytes :=
  match depth with
  | O => fun s : Empty_set => match s with end
  | Datatypes.S depth => fun s : Signature (SignatureAt depth) =>
      match s with
      | Signature_BTCLegacySignature v => Ok (BTCLegacySignature_TransactionHash v)
      | Signature_BTCSignature v => Ok (BTCSignature_TransactionHash v)
      | Signature_DelegatedSignature v =>
          match DelegatedSignature_Signature v with Some s => GetTransactionHash depth s | None => nil_pointer end
      | Signature_ED25519Signature v => Ok (ED25519Signature_TransactionHash v)
      | Signature_ETHSignature v => Ok (ETHSignature_TransactionHash v)
      | Signature_InternalSignature v => Ok (InternalSignature_TransactionHash v)
      | Signature_LegacyED25519Signature v => Ok (LegacyED25519Signature_TransactionHash v)
      | Signature_PartitionSignature v => Ok (PartitionSignature_TransactionHash v)
      | Signature_RCD1Signature v => Ok (RCD1Signature_TransactionHash v)
      | Signature_ReceiptSignature v => Ok (ReceiptSignature_TransactionHash v)
      | Signature_RemoteSignature v =>
          match RemoteSignature_Signature v with Some s => GetTransactionHash depth s | None => nil_pointer end
      | Signature_SignatureSet v => Ok (SignatureSet_TransactionHash v)
      end
  end.

Section Normalize.
Context {SG TB : Type} `{!Union SG, !Union TB} (sigHash : SG -> res bytes).

Abbreviation Txn := (Transaction (TransactionBody SG TB)).

(** A delivery, with the hash it is registered under. *)
Record Delivery := mkDelivery { d_hash : bytes; d_Transaction : Txn; d_Signatures : list SG }.

Record Normal := mkNormal { txnMap : gmap bytes nat; txnList : list Delivery }.

Definition set_RemoteHash (hash : bytes) (txn : Txn) : Txn :=
  match Transaction_Body txn with
  | Some (TransactionBody_RemoteTransaction r) =>
      Build_Transaction (Transaction_Header txn)
        (Some (TransactionBody_RemoteTransaction (Build_RemoteTransaction hash (RemoteTransaction_extraData r)))) (Transaction_extraData txn)
  | _ => txn
  end.

Definition add_delivery (d : Delivery) (s : Normal) : Normal :=
  mkNormal (<[d_hash d := length (txnList s)]> (txnMap s)) (txnList s ++ [d]).

(** One iteration of the loop over the transactions. *)
Definition add_transaction (envTxHash : option bytes) (txn : Txn) (s : Normal) : res Normal :=
  match Transaction_Body txn with
  | None => errorf "transaction: nil body"
  | Some _ =>
      let! hash := GetHash txn in
      if zlen hash =? 32 then Ok (add_delivery (mkDelivery hash txn []) s)
      else
        match envTxHash with
        | Some hash => Ok (add_delivery (mkDelivery hash (set_RemoteHash hash txn) []) s)
        | None => errorf "remote transaction: missing hash"
        end
  end.

Fixpoint add_transactions (envTxHash : option bytes) (txns : list Txn) (s : Normal) : res Normal :=
  match txns with
  | [] => Ok s
  | txn :: txns => let! s := add_transaction envTxHash txn s in add_transactions envTxHash txns s
  end.

(** The hash a signature is for. *)
Definition signature_target (envTxHash : option bytes) (sig : SG) (s : Normal) : res bytes :=
  let! hash := sigHash sig in
  if negb (bytes_eqb hash hash_zero) then Ok hash
  else
    match envTxHash with
    | Some hash => Ok hash
    | None =>
        match map_to_list (txnMap s) with
        | [(hash, _)] => Ok hash
        | _ => errorf "multi-transaction envelope: missing hash"
        end
    end.

Definition remote_transaction (hash : bytes) : Txn :=
  Build_Transaction new_TransactionHeader (Some (TransactionBody_RemoteTransaction (Build_RemoteTransaction hash []))) [].

Definition add_signature (sig : SG) (d : Delivery) : Delivery := mkDelivery (d_hash d) (d_Transaction d) (d_Signatures d ++ [sig]).

Definition put_signature (hash : bytes) (sig : SG) (s : Normal) : Normal :=
  match txnMap s !! hash with
  | Some i => mkNormal (txnMap s) (alter (add_signature sig) i (txnList s))
  | None => add_delivery (mkDelivery hash (remote_transaction hash) [sig]) s
  end.

Fixpoint add_signatures (envTxHash : option bytes) (sigs : list SG) (s : Normal) : res Normal :=
  match sigs with
  | [] => Ok s
  | sig :: sigs =>
      let! hash := signature_target envTxHash sig s in
      add_signatures envTxHash sigs (put_signature hash sig s)
  end.

Definition is_unsigned (d : Delivery) : bool := is_empty (d_Signatures d).

Definition NormalizeEnvelope (envelope : Envelope SG (TransactionBody SG TB)) : res (list Delivery) :=
  let! envTxHash :=
    if zlen (Envelope_TxHash envelope) =? 32 then Ok (Some (Envelope_TxHash envelope))
    else if zlen (Envelope_TxHash envelope) =? 0 then Ok None
    else errorf "invalid hash length" in
  let! s := add_transactions envTxHash (Envelope_Transaction envelope) (mkNormal ∅ []) in
  let! s := add_signatures envTxHash (Envelope_Signatures envelope) s in
  if existsb is_unsigned (txnList s) then
    errors_new StatusBadRequest "the envelope does not contain any signatures matching transaction"
  else Ok (txnList s).

(** ** Properties *)

(** The signatures for a hash among those that were given one. *)
Definition signatures_for (h : bytes) (ps : list (SG * bytes)) : list SG := (filter (fun p => p.2 = h) ps).*1.

Lemma signatures_for_snoc h ps sig t :
  signatures_for h (ps ++ [(sig, t)]) = signatures_for h ps ++ (if decide (t = h) then [sig] else []).
Proof. unfold signatures_for. rewrite filter_app, filter_cons, fmap_app. cbn. by case_decide. Qed.

Lemma signatures_for_none h ps : (forall p, p ∈ ps -> p.2 <> h) -> signatures_for h ps = [].
Proof.
  intros Hp. unfold signatures_for. induction ps as [|p ps IH]; [done|]. rewrite filter_cons, decide_False by (apply Hp; left).
  apply IH. intros q Hq. apply Hp. by right.
Qed.

(** After the signatures [ps]: a delivery has those for its hash if the map leads to it. *)
Record normal_inv (ps : list (SG * bytes)) (s : Normal) : Prop := {
  ni_sigs i d : txnList s !! i = Some d ->
    d_Signatures d = if decide (txnMap s !! d_hash d = Some i) then signatures_for (d_hash d) ps else [];
  ni_map h i : txnMap s !! h = Some i -> exists d, txnList s !! i = Some d /\ d_hash d = h;
  ni_listed i d : txnList s !! i = Some d -> is_Some (txnMap s !! d_hash d);
  ni_used p : p ∈ ps -> is_Some (txnMap s !! p.2)
}.

Lemma add_delivery_inv d s : d_Signatures d = [] -> normal_inv [] s -> normal_inv [] (add_delivery d s).
Proof.
  intros Hd [H1 H2 H3 H4]. split; cbn [add_delivery txnMap txnList].
  - intros i e. intros [He|[Hi He]]%lookup_app_Some.
    + rewrite (H1 i e He). unfold signatures_for. cbn. by repeat case_decide.
    + apply list_lookup_singleton_Some in He as [_ <-]. rewrite Hd. by case_decide.
  - intros h i. destruct (decide (h = d_hash d)) as [->|Hne].
    + rewrite lookup_insert_eq. intros [= <-]. exists d. by rewrite lookup_app_r, Nat.sub_diag by lia.
    + rewrite lookup_insert_ne by done. intros (e & He & Hh)%H2. exists e. split; [|done]. by apply lookup_app_l_Some.
  - intros i e. destruct (decide (d_hash e = d_hash d)) as [->|Hne]; [by rewrite lookup_insert_eq|]. rewrite lookup_insert_ne by done.
    intros [He|[Hi He]]%lookup_app_Some; [by eapply H3|]. by apply list_lookup_singleton_Some in He as [_ <-].
  - intros p Hp. by apply elem_of_nil in Hp.
Qed.

Lemma put_signature_inv ps s h sig : normal_inv ps s -> normal_inv (ps ++ [(sig, h)]) (put_signature h sig s).
Proof.
  intros [H1 H2 H3 H4]. unfold put_signature. destruct (txnMap s !! h) as [i|] eqn:Eh.
  - destruct (H2 h i Eh) as (d & Hd & <-). split; cbn [txnMap txnList].
    + intros j e He. rewrite list_lookup_alter in He. rewrite signatures_for_snoc. destruct (decide (i = j)) as [->|Hne].
      * rewrite Hd in He. injection He as <-. cbn. rewrite (H1 j d Hd), !decide_True by done. done.
      * rewrite (H1 j e He). case_decide as Em; [|done]. rewrite decide_False; [by rewrite app_nil_r|].
        intros E. rewrite <- E, Eh in Em. by injection Em.
    + intros h' j (e & He & <-)%H2. rewrite list_lookup_alter. case_decide as E; [subst j; rewrite He; by eexists|by exists e].
    + intros j e. rewrite list_lookup_alter. case_decide as E; [|by apply H3]. subst j. rewrite Hd. intros [= <-].
      change (d_hash (add_signature sig d)) with (d_hash d). by rewrite Eh.
    + intros p [Hp|Hp]%elem_of_app; [by apply H4|]. apply list_elem_of_singleton in Hp as ->. by eexists.
  - assert (Hnew : forall j e, txnList s !! j = Some e -> d_hash e <> h).
    { intros j e He <-. destruct (H3 j e He) as [k Hk]. congruence. }
    split; cbn [add_delivery txnMap txnList d_hash].
    + intros j e [He|[Hj He]]%lookup_app_Some.
      * rewrite (lookup_insert_ne _ _ _ _ (not_eq_sym (Hnew j e He))), signatures_for_snoc, (decide_False (P := h = d_hash e)); [|by apply not_eq_sym, (Hnew j)].
        rewrite app_nil_r. by apply H1.
      * apply list_lookup_singleton_Some in He as [Hj0 <-]. cbn. rewrite lookup_insert_eq, decide_True by (f_equal; lia).
        rewrite signatures_for_snoc, decide_True by done. rewrite signatures_for_none; [done|].
        intros p Hp E. destruct (H4 p Hp) as [k Hk]. congruence.
    + intros h' j. destruct (decide (h' = h)) as [->|Hne].
      * rewrite lookup_insert_eq. intros [= <-]. eexists. by rewrite lookup_app_r, Nat.sub_diag by lia.
      * rewrite lookup_insert_ne by done. intros (e & He & Hh)%H2. exists e. split; [|done]. by apply lookup_app_l_Some.
    + intros j e [He|[Hj He]]%lookup_app_Some.
      * rewrite (lookup_insert_ne _ _ _ _ (not_eq_sym (Hnew j e He))). by eapply H3.
      * apply list_lookup_singleton_Some in He as [_ <-]. cbn. by rewrite lookup_insert_eq.
    + intros p [Hp|Hp]%elem_of_app.
      * destruct (H4 p Hp) as [k Hk]. rewrite lookup_insert_ne by congruence. by rewrite Hk.
      * apply list_elem_of_singleton in Hp as ->. cbn [snd]. by rewrite lookup_insert_eq.
Qed.

(** The hashes and transactions of the deliveries, without the signatures. *)
Definition listed (s : Normal) : list (bytes * Txn) := (fun d => (d_hash d, d_Transaction d)) <$> txnList s.

Definition remote (h : bytes) : bytes * Txn := (h, remote_transaction h).

Lemma put_signature_listed h sig s : exists extra, listed (put_signature h sig s) = listed s ++ (remote <$> extra).
Proof.
  unfold put_signature, listed. destruct (txnMap s !! h) as [i|].
  - exists []. rewrite app_nil_r. cbn [txnList]. generalize (txnList s) as l. induction i as [|i IH]; intros [|d l]; try done.
    cbn. f_equal. apply IH.
  - exists [h]. cbn. by rewrite fmap_app.
Qed.

(** The hash that a signature is taken for: its own, else that of the envelope. *)
Definition for_transaction (envTxHash : option bytes) (sig : SG) (t : bytes) : Prop :=
  exists h, sigHash sig = Ok h /\ (h <> hash_zero -> t = h) /\ (forall e, h = hash_zero -> envTxHash = Some e -> t = e).

Lemma signature_target_ok envTxHash sig s t :
  signature_target envTxHash sig s = Ok t -> for_transaction envTxHash sig t.
Proof.
  unfold signature_target. destruct (sigHash sig) as [h| |] eqn:Eh; try done. cbn [res_bind]. intros Ht. exists h. split; [done|].
  destruct (bytes_eqb h hash_zero) eqn:Ez; cbn [negb] in Ht.
  - apply bytes_eqb_eq in Ez. split; [done|]. intros e _ ->. by injection Ht as ->.
  - injection Ht as ->. split; [done|]. intros e ->. by rewrite bytes_eqb_refl in Ez.
Qed.

Lemma add_signatures_ok envTxHash sigs : forall ps s s',
  normal_inv ps s -> add_signatures envTxHash sigs s = Ok s' ->
  exists ts extra, Forall2 (for_transaction envTxHash) sigs ts /\ normal_inv (ps ++ zip sigs ts) s' /\
    listed s' = listed s ++ (remote <$> extra).
Proof.
  induction sigs as [|sig sigs IH]; intros ps s s' Hi E; cbn in E.
  { injection E as <-. exists [], []. rewrite !app_nil_r. by split; [constructor|]. }
  destruct (signature_target envTxHash sig s) as [t| |] eqn:Et; try done. cbn in E.
  destruct (IH _ _ _ (put_signature_inv ps s t sig Hi) E) as (ts & extra & HF & Hi' & Hl).
  destruct (put_signature_listed t sig s) as (extra' & Hl'). exists (t :: ts), (extra' ++ extra).
  split; [constructor; [by eapply signature_target_ok|done]|]. split; [by rewrite <- app_assoc in Hi'|].
  by rewrite Hl, Hl', fmap_app, app_assoc.
Qed.

Context `{!UnionLaws SG, !UnionLaws TB}.

Lemma GetHash_length (t : Txn) h : Transaction_ok t -> GetHash t = Ok h -> zlen h = 32.
Proof.
  intros (_ & _ & Hb & _). unfold GetHash, zlen. destruct (Transaction_Body t) as [body|] eqn:Eb.
  2:{ by destruct (TransactionHeader_MarshalBinary _). }
  specialize (Hb body eq_refl). destruct body; try (destruct (TransactionHeader_MarshalBinary _); try done; destruct (getBodyHash _); try done;
    cbn; intros [= <-]; by rewrite sha256_length).
  intros [= <-]. destruct Hb as [Hh _]. by rewrite Hh.
Qed.

Lemma add_transactions_ok envTxHash txns : forall s s',
  normal_inv [] s -> Forall Transaction_ok txns -> add_transactions envTxHash txns s = Ok s' ->
  normal_inv [] s' /\ exists hs, Forall2 (fun t h => GetHash t = Ok h) txns hs /\ listed s' = listed s ++ zip hs txns.
Proof.
  induction txns as [|t txns IH]; intros s s' Hi Hok E; cbn in E.
  { injection E as <-. split; [done|]. exists []. split; [constructor|]. by rewrite app_nil_r. }
  apply Forall_cons in Hok as [Ht Hok]. unfold add_transaction in E. destruct (Transaction_Body t); [|done].
  destruct (GetHash t) as [h| |] eqn:Eh; try done. cbn in E. rewrite (GetHash_length t h Ht Eh) in E. cbn in E.
  destruct (IH _ _ (add_delivery_inv (mkDelivery h t []) s eq_refl Hi) Hok E) as (Hi' & hs & HF & Hl).
  split; [done|]. exists (h :: hs). split; [by constructor|]. rewrite Hl. unfold listed. cbn. by rewrite fmap_app, <- app_assoc.
Qed.

Lemma normal_inv_new : normal_inv [] (mkNormal ∅ []).
Proof. split; [done| |done|]; [intros h i E; cbn in E; by rewrite lookup_empty in E|]. intros p Hp. by apply elem_of_nil in Hp. Qed.

(** When every delivery has a signature, the map leads to all of them. *)
Lemma normal_found ps s i d :
  normal_inv ps s -> existsb is_unsigned (txnList s) = false -> txnList s !! i = Some d ->
  txnMap s !! d_hash d = Some i /\ d_Signatures d <> [] /\ d_Signatures d = signatures_for (d_hash d) ps.
Proof.
  intros Hi Hu Hd. assert (Hne : d_Signatures d <> []).
  { intros E. assert (Ht : existsb is_unsigned (txnList s) = true); [|congruence]. apply existsb_exists. exists d.
    split; [by eapply list_elem_of_In, list_elem_of_lookup_2|]. unfold is_unsigned. by rewrite E. }
  pose proof (ni_sigs _ _ Hi i d Hd) as Hs. case_decide as Em; [done|]. by rewrite Hs in Hne.
Qed.

Lemma normal_signed ps s d :
  normal_inv ps s -> existsb is_unsigned (txnList s) = false -> d ∈ txnList s ->
  d_Signatures d <> [] /\ d_Signatures d = signatures_for (d_hash d) ps.
Proof. intros Hi Hu (i & Hd)%list_elem_of_lookup. by destruct (normal_found ps s i d Hi Hu Hd) as (_ & ?). Qed.

Lemma normal_NoDup ps s : normal_inv ps s -> existsb is_unsigned (txnList s) = false -> NoDup (d_hash <$> txnList s).
Proof.
  intros Hi Hu. apply NoDup_alt. intros i j h. rewrite !list_lookup_fmap. intros (d & Hd & ->)%fmap_Some (f & Hf & Eh)%fmap_Some.
  destruct (normal_found ps s i d Hi Hu Hd) as (E1 & _), (normal_found ps s j f Hi Hu Hf) as (E2 & _). rewrite <- Eh in E2. congruence.
Qed.

Lemma listed_transactions s hs txns extra :
  Forall2 (fun t h => GetHash t = Ok h) txns hs -> listed s = zip hs txns ++ (remote <$> extra) ->
  (d_Transaction <$> txnList s) = txns ++ (remote_transaction <$> extra).
Proof.
  intros HF Hl. apply (f_equal (fmap snd)) in Hl. unfold listed in Hl. rewrite <- list_fmap_compose, fmap_app, <- list_fmap_compose in Hl.
  rewrite snd_zip in Hl by (by rewrite (Forall2_length _ _ _ HF)). exact Hl.
Qed.

Lemma listed_hashes s hs txns extra d :
  Forall2 (fun t h => GetHash t = Ok h) txns hs -> listed s = zip hs txns ++ (remote <$> extra) ->
  d ∈ txnList s -> GetHash (d_Transaction d) = Ok (d_hash d).
Proof.
  intros HF Hl Hd. assert (Hin : (d_hash d, d_Transaction d) ∈ listed s) by (apply list_elem_of_fmap; by exists d).
  rewrite Hl in Hin. apply elem_of_app in Hin as [(i & Hi)%list_elem_of_lookup|(h & [= -> ->] & _)%list_elem_of_fmap]; [|done].
  apply lookup_zip_Some in Hi as [H1 H2]. by destruct (Forall2_lookup_lr _ _ _ _ _ _ HF H2 H1).
Qed.

Definition env_hash (e : Envelope SG (TransactionBody SG TB)) : option bytes :=
  if zlen (Envelope_TxHash e) =? 32 then Some (Envelope_TxHash e) else None.

(** C17. What an accepted envelope is split into: a delivery for every transaction of
    the envelope, in order, and one for every other transaction a signature is for.  Each
    has the hash of its transaction, no two the same, and exactly the signatures for that
    hash, of which there is at least one; every signature is for the transaction it names,
    else for that which the envelope names. *)
Theorem NormalizeEnvelope_correct (e : Envelope SG (TransactionBody SG TB)) ds :
  Forall Transaction_ok (Envelope_Transaction e) -> NormalizeEnvelope e = Ok ds ->
  exists ts extra, Forall2 (for_transaction (env_hash e)) (Envelope_Signatures e) ts /\
    (d_Transaction <$> ds) = Envelope_Transaction e ++ (remote_transaction <$> extra) /\
    NoDup (d_hash <$> ds) /\ (forall t, t ∈ ts -> t ∈ d_hash <$> ds) /\
    forall d, d ∈ ds -> GetHash (d_Transaction d) = Ok (d_hash d) /\ d_Signatures d <> [] /\
      d_Signatures d = signatures_for (d_hash d) (zip (Envelope_Signatures e) ts).
Proof.
  intros Hok. unfold NormalizeEnvelope. intros E.
  assert (Henv : exists env, env = env_hash e /\
    (let! s := add_transactions env (Envelope_Transaction e) (mkNormal ∅ []) in
     let! s := add_signatures env (Envelope_Signatures e) s in
     if existsb is_unsigned (txnList s) then
       errors_new StatusBadRequest "the envelope does not contain any signatures matching transaction" else Ok (txnList s)) = Ok ds).
  { unfold env_hash. destruct (zlen (Envelope_TxHash e) =? 32); [by eexists|]. destruct (zlen (Envelope_TxHash e) =? 0); [by eexists|done]. }
  clear E. destruct Henv as (env & -> & E).
  destruct (add_transactions _ _ _) as [s1| |] eqn:E1; try done. cbn in E.
  destruct (add_signatures _ _ s1) as [s2| |] eqn:E2; try done. cbn in E. destruct (existsb _ _) eqn:Eu; [done|]. injection E as <-.
  destruct (add_transactions_ok _ _ _ _ normal_inv_new Hok E1) as (Hi1 & hs & Hhs & Hl1).
  destruct (add_signatures_ok _ _ _ _ _ Hi1 E2) as (ts & extra & Hts & Hi2 & Hl2). exists ts, extra. cbn [app] in Hi2.
  rewrite Hl1 in Hl2. cbn [listed txnList fmap list_fmap app] in Hl2. split; [done|]. split; [by apply (listed_transactions s2 hs)|].
  split; [by apply (normal_NoDup _ _ Hi2)|]. split.
  - intros t Ht. apply list_elem_of_lookup in Ht as (i & Hi). destruct (Forall2_lookup_r _ _ _ _ _ Hts Hi) as (sig & Hs & _).
    destruct (ni_used _ _ Hi2 (sig, t)) as [k Hk].
    { apply list_elem_of_lookup. exists i. by apply lookup_zip_Some. }
    destruct (ni_map _ _ Hi2 t k Hk) as (d & Hd & <-). apply list_elem_of_fmap. exists d. split; [done|]. by eapply list_elem_of_lookup_2.
  - intros d Hd. split; [by apply (listed_hashes s2 hs (Envelope_Transaction e) extra)|]. by apply (normal_signed _ s2).
Qed.

End Normalize.

(** ** Envelopes *)

Abbreviation NormalizeDemo := (NormalizeEnvelope (SG := SignatureAt 2) (TB := TransactionBodyAt (SignatureAt 2) 0) (GetTransactionHash 2)).

Definition normalized : list (Delivery (SG := SignatureAt 2) (TB := TransactionBodyAt (SignatureAt 2) 0)) :=
  match NormalizeDemo demo_envelope with Ok ds => ds | _ => [] end.

Lemma normalized_ok : NormalizeDemo demo_envelope = Ok normalized.
Proof.
  unfold normalized. destruct (NormalizeDemo demo_envelope) as [ds| |] eqn:E; [done|..]; exfalso;
    assert (H : match NormalizeDemo demo_envelope with Ok _ => true | _ => false end = true) by (vm_compute; reflexivity);
    by rewrite E in H.
Qed.

(** The signature names no transaction: it is for the only one. *)
Lemma NormalizeEnvelope_correct_witness :
  exists ds, NormalizeDemo demo_envelope = Ok ds /\ length ds = 1%nat /\
    forall d, d ∈ ds -> GetHash (SG := SignatureAt 2) (TB := TransactionBodyAt (SignatureAt 2) 0) (d_Transaction d) = Ok (d_hash d) /\ d_Signatures d <> [].
Proof.
  exists normalized. split; [apply normalized_ok|]. split; [vm_compute; reflexivity|].
  destruct (NormalizeEnvelope_correct (SG := SignatureAt 2) (TB := TransactionBodyAt (SignatureAt 2) 0) (GetTransactionHash 2) demo_envelope normalized ltac:(wire_ok) normalized_ok)
    as (ts & extra & _ & _ & _ & _ & Hd).
  intros d Hin. destruct (Hd d Hin) as (H1 & H2 & _). by split.
Defined.

(** A remote transaction always has a hash of 32 bytes, so the hash of the envelope is not
    used for one that names none: its hash is zero, the signatures are taken for another
    transaction and the envelope is refused. *)
Definition remote_envelope : Envelope (SignatureAt 2) (TransactionBodyAt (SignatureAt 2) 1) :=
  Build_Envelope [demo_delegated] (replicate 32 Byte.x07)
    [Build_Transaction new_TransactionHeader (Some (TransactionBody_RemoteTransaction new_RemoteTransaction)) []] [].

Theorem remote_without_hash_refused :
  exists e, NormalizeDemo remote_envelope = Err e /\ err_status e = StatusBadRequest.
Proof. eexists. split; [vm_compute; reflexivity|done]. Qed.
