(* ===== verification/Anchoring.v ===== *)
(** * Anchors and receipts: [internal/block/utils.go], [internal/indexing/receipts.go], the chain
      updates of [internal/chain/state_state.go] and the anchoring of [internal/block/block_end.go]

    During a block, entries are added to the chains of accounts and recorded as chain
    updates.  The end of the block adds the anchor of every updated chain to the root chain
    of the partition, and an index entry to the index chain of the chain and of the root
    chain.  The receipt of an entry is built from these index entries.

    The batch is what these operations use of the data model: a chain for every accessor of
    a chain, the metadata of every account's chains, and the chain entries of every
    transaction.  DataModelProofs shows that the database implements such maps. *)

From stdpp Require Import functions.
From S2P Require Import Prelude Sha256 Encoding MerkleTree MerkleState Receipt Chain ChainProofs SortUtil Url.
From S2P Require Import UrlProofs AdiUrl KeyPages StateManager Codec CodecProofs Enums Wire TypesGeneral TypesAccounts.
From S2P Require Import TypesStatus TypesDatabase DataModel DbChain Indexing.
Local Open Scope Z_scope.
Import Url.

(** ** The chains of the accounts *)

#[global] Instance ChainName_eq_dec : EqDecision ChainName.
Proof. solve_decision. Defined.

(** The account's identifier, the chain and whether it is the chain's index. *)
Definition ChainId : Type := bytes * ChainName * bool.
#[global] Instance ChainId_eq_dec : EqDecision ChainId.
Proof. solve_decision. Defined.

Record Chain2 := mkChain2 { c2_Account : URL; c2_chain : ChainName; c2_index : bool }.

Definition chain_id (c : Chain2) : ChainId := (AccountID32 (c2_Account c), c2_chain c, c2_index c).

Definition Name (c : Chain2) : bytes := Chain2_Name (c2_chain c) (c2_index c).

(** The type that [newChain2] and [Index] give a chain. *)
Definition Type_ (c : Chain2) : Z :=
  if c2_index c then managed.ChainTypeIndex
  else
    match c2_chain c with
    | MainChain | SignatureChain | ScratchChain | AnchorSequenceChain | SyntheticSequenceChain _ => managed.ChainTypeTransaction
    | RootChain | AnchorRootChain _ | AnchorBPTChain _ => managed.ChainTypeAnchor
    | MajorBlockChain => managed.ChainTypeIndex
    end.

Definition Index (c : Chain2) : res Chain2 :=
  if Type_ c =? managed.ChainTypeIndex then Panic "cannot index an index chain"
  else Ok (mkChain2 (c2_Account c) (c2_chain c) true).

Definition Account_ChainByName (account : URL) (name : bytes) : res Chain2 :=
  let! (c, index) := ChainByName name in Ok (mkChain2 account c index).

(** [ChainMetadata.Compare] of [protocol/object.go]. *)
Definition ChainMetadata_Compare (c d : ChainMetadata) : Z :=
  bytes_compare (str (ChainMetadata_Name c)) (str (ChainMetadata_Name d)).

(** [TransactionChainEntry.Compare]; the accounts of the entries are never nil. *)
Definition TransactionChainEntry_Compare (e f : TransactionChainEntry) : Z :=
  let v := compare_option Compare (TransactionChainEntry_Account e) (TransactionChainEntry_Account f) in
  if v =? 0 then bytes_compare (str (TransactionChainEntry_Chain e)) (str (TransactionChainEntry_Chain f)) else v.

Definition to_string (b : bytes) : string := String.string_of_list_byte b.

Section Batch.
Context {S TB ER : Type} `{!ChainStore S}.

(** The chains; [Account.Chains], [Transaction.Chains] and [Transaction.Status], which are
    empty if missing; [SystemData.SyntheticIndexIndex]; the accounts of the block ledgers;
    and the receipt signatures that were stored with a transaction. *)
Record Batch := mkBatch {
  b_chain : ChainId -> S;
  b_chains : bytes -> list ChainMetadata;
  b_txchains : bytes -> list TransactionChainEntry;
  b_status : bytes -> TransactionStatus TB ER;
  b_synth : Z -> option Z;
  b_blocks : bytes -> option BlockLedger;
  b_receipts : list (bytes * Receipt.Receipt)
}.

Definition get_chain (c : Chain2) (b : Batch) : S := b_chain b (chain_id c).
Definition set_chain (c : Chain2) (s : S) (b : Batch) : Batch :=
  mkBatch (<[chain_id c := s]> (b_chain b)) (b_chains b) (b_txchains b) (b_status b) (b_synth b) (b_blocks b) (b_receipts b).
Definition set_chains (id : bytes) (l : list ChainMetadata) (b : Batch) : Batch :=
  mkBatch (b_chain b) (<[id := l]> (b_chains b)) (b_txchains b) (b_status b) (b_synth b) (b_blocks b) (b_receipts b).
Definition set_txchains (h : bytes) (l : list TransactionChainEntry) (b : Batch) : Batch :=
  mkBatch (b_chain b) (b_chains b) (<[h := l]> (b_txchains b)) (b_status b) (b_synth b) (b_blocks b) (b_receipts b).
Definition set_status (h : bytes) (st : TransactionStatus TB ER) (b : Batch) : Batch :=
  mkBatch (b_chain b) (b_chains b) (b_txchains b) (<[h := st]> (b_status b)) (b_synth b) (b_blocks b) (b_receipts b).
Definition set_synth (block index : Z) (b : Batch) : Batch :=
  mkBatch (b_chain b) (b_chains b) (b_txchains b) (b_status b) (<[block := Some index]> (b_synth b)) (b_blocks b) (b_receipts b).
Definition set_block (id : bytes) (l : BlockLedger) (b : Batch) : Batch :=
  mkBatch (b_chain b) (b_chains b) (b_txchains b) (b_status b) (b_synth b) (<[id := Some l]> (b_blocks b)) (b_receipts b).
Definition add_receipt (h : bytes) (r : Receipt.Receipt) (b : Batch) : Batch :=
  mkBatch (b_chain b) (b_chains b) (b_txchains b) (b_status b) (b_synth b) (b_blocks b) (b_receipts b ++ [(h, r)]).

(** [Chain2.Get] records the chain's name and type with the account if it is new. *)
Definition Chain2_Get (c : Chain2) (b : Batch) : res Batch :=
  let id := AccountID32 (c2_Account c) in
  let meta := Build_ChainMetadata (to_string (Name c)) (Type_ c) [] in
  match Set_Index ChainMetadata_Compare meta (b_chains b id) with
  | Ok _ => Ok b
  | Err e =>
      if is_not_found e then
        let! l := Set_Add new_ChainMetadata ChainMetadata_Compare [meta] (b_chains b id) in Ok (set_chains id l b)
      else Err e
  | Panic m => Panic m
  end.

(** [AddEntry] on the chain that [Get] returned. *)
Definition chain_add_entry (c : Chain2) (entry : Hash) (unique : bool) (b : Batch) : res Batch :=
  let! s := AddEntry entry unique (get_chain c b) in Ok (set_chain c s b).

(** [TransactionChain(batch, txid).Add(e)]. *)
Definition TransactionChain_Add (txid : bytes) (e : TransactionChainEntry) (b : Batch) : res Batch :=
  let! l := Set_Add new_TransactionChainEntry TransactionChainEntry_Compare [e] (b_txchains b txid) in Ok (set_txchains txid l b).

(** ** Chain updates: [state_state.go] *)

Record ChainUpdates := mkUpdates { Entries : list BlockEntry; SynthEntries : list BlockStateSynthTxnEntry }.

Definition ChainUpdates_Merge (c d : ChainUpdates) : ChainUpdates :=
  mkUpdates (Entries c ++ Entries d) (SynthEntries c ++ SynthEntries d).

Definition DidUpdateChain (update : BlockEntry) (c : ChainUpdates) : ChainUpdates := mkUpdates (Entries c ++ [update]) (SynthEntries c).

(** Whether an account is the synthetic ledger of a partition. *)
Definition is_synthetic_ledger (u : URL) : bool :=
  match ParsePartitionUrl u with
  | Some partition => Equal (Some (JoinPath [str "synthetic"] (PartitionUrl partition))) (Some u)
  | None => false
  end.

Definition DidAddChainEntry (u : URL) (name : bytes) (typ : Z) (entry : bytes) (index : Z) (c : ChainUpdates) : ChainUpdates :=
  let c :=
    if bytes_eqb name (str "main") && (typ =? managed.ChainTypeTransaction) && is_synthetic_ledger u then
      mkUpdates (Entries c) (SynthEntries c ++ [Build_BlockStateSynthTxnEntry (Some u) entry index []])
    else c in
  DidUpdateChain (Build_BlockEntry (Some u) (to_string name) index []) c.

(** The argument [unique] is not used: the entry is always added as a unique one. *)
Definition AddChainEntry2 (chain : Chain2) (entry : bytes) (unique : bool) (c : ChainUpdates) (b : Batch)
    : res (Z * ChainUpdates * Batch) :=
  let! b := wrapf (Chain2_Get chain b) "load chain" in
  let! index := Chain_Height (get_chain chain b) in
  let! b := wrapf (chain_add_entry chain (Some entry) true b) "add entry to chain" in
  let! height := Chain_Height (get_chain chain b) in
  if index =? height then let! i := HeightOf entry (get_chain chain b) in Ok (i, c, b)
  else Ok (index, DidAddChainEntry (c2_Account chain) (Name chain) (Type_ chain) entry (u64 index) c, b).

Definition AddChainEntry (chain : Chain2) (entry : bytes) (c : ChainUpdates) (b : Batch) : res (ChainUpdates * Batch) :=
  let! (_, c, b) := AddChainEntry2 chain entry true c b in Ok (c, b).

(** ** Anchoring: [utils.go] *)

Definition shouldIndexChain (typ : Z) : res bool :=
  if typ =? managed.ChainTypeIndex then Ok false
  else if typ =? managed.ChainTypeTransaction then Ok true
  else if typ =? managed.ChainTypeAnchor then Ok true
  else errorf "unknown chain type".

Definition addIndexChainEntry (chain : Chain2) (entry : IndexEntry) (b : Batch) : res (Z * Batch) :=
  let! b := Chain2_Get chain b in
  let! data := IndexEntry_MarshalBinary entry in
  let! b := chain_add_entry chain (Some data) false b in
  let! height := Chain_Height (get_chain chain b) in
  Ok (u64 (height - 1), b).

Definition addChainAnchor (rootChain chain : Chain2) (blockIndex : Z) (b : Batch) : res (Z * bool * Batch) :=
  let! b := Chain2_Get chain b in
  let! anchor := Chain_Anchor (get_chain chain b) in
  let! b := chain_add_entry rootChain anchor false b in
  let! shouldIndex := shouldIndexChain (Type_ chain) in
  if negb shouldIndex then Ok (0, false, b)
  else
    let! index := Index chain in
    let! height := Chain_Height (get_chain chain b) in
    let! rootHeight := Chain_Height (get_chain rootChain b) in
    let! (indexIndex, b) :=
      addIndexChainEntry index (Build_IndexEntry (u64 (height - 1)) (u64 (rootHeight - 1)) blockIndex None 0 []) b in
    Ok (indexIndex, true, b).

(** ** The end of a block: [EndBlock] of [block_end.go] *)

Record chainUpdate := mkUpdate { cu_entry : BlockEntry; DidIndex : bool; IndexIndex : Z; Txns : list Hash }.

Definition rootChain (ledgerUrl : URL) : Chain2 := mkChain2 ledgerUrl RootChain false.

(** One chain update; [chains] is the map of the chains that were anchored. *)
Definition process_update (ledgerUrl : URL) (blockIndex : Z) (entry : BlockEntry) (chains : gmap bytes chainUpdate) (b : Batch)
    : res (gmap bytes chainUpdate * Batch) :=
  if Equal (Some ledgerUrl) (BlockEntry_Account entry) then Ok (chains, b)
  else
    match BlockEntry_Account entry with
    | None => Panic "invalid memory address or nil pointer dereference"
    | Some account =>
        let key := ToLower (URL_String account) ++ str ";" ++ str (BlockEntry_Chain entry) in
        let anchored := chains !! key in
        let u := default (mkUpdate entry false 0 []) anchored in
        let! chain := wrapf (Account_ChainByName account (str (BlockEntry_Chain entry))) "resolve chain" in
        let! b := wrapf (Chain2_Get chain b) "load chain" in
        let! hash := wrapf (Chain_Entry (i64 (BlockEntry_Index entry)) (get_chain chain b)) "load entry" in
        let u := mkUpdate (cu_entry u) (DidIndex u) (IndexIndex u) (Txns u ++ [hash]) in
        match anchored with
        | Some _ => Ok (<[key := u]> chains, b)
        | None =>
            let! (indexIndex, didIndex, b) :=
              wrapf (addChainAnchor (rootChain ledgerUrl) chain blockIndex b) "add anchor to root chain" in
            Ok (<[key := mkUpdate (cu_entry u) didIndex indexIndex (Txns u)]> chains, b)
        end
    end.

Fixpoint process_updates (ledgerUrl : URL) (blockIndex : Z) (entries : list BlockEntry) (chains : gmap bytes chainUpdate) (b : Batch)
    : res (gmap bytes chainUpdate * Batch) :=
  match entries with
  | [] => Ok (chains, b)
  | entry :: entries =>
      let! (chains, b) := process_update ledgerUrl blockIndex entry chains b in process_updates ledgerUrl blockIndex entries chains b
  end.

(** The chain entries of the transactions of one chain. *)
Fixpoint index_txns (e : TransactionChainEntry) (txns : list Hash) (b : Batch) : res Batch :=
  match txns with
  | [] => Ok b
  | hash :: txns =>
      let! b := wrapf (TransactionChain_Add (hb hash) e b) "store transaction chain index" in index_txns e txns b
  end.

(** The chains are visited in any order. *)
Fixpoint index_updates (rootIndexIndex : Z) (updates : list chainUpdate) (b : Batch) : res Batch :=
  match updates with
  | [] => Ok b
  | c :: updates =>
      let! b :=
        if DidIndex c then
          index_txns (Build_TransactionChainEntry (BlockEntry_Account (cu_entry c)) (BlockEntry_Chain (cu_entry c))
            (IndexIndex c) rootIndexIndex []) (Txns c) b
        else Ok b in
      index_updates rootIndexIndex updates b
  end.


(** *** The synthetic transactions of the block *)

(** What the end of a block uses of a produced transaction: its hash, and whether it is a
    system transaction. *)
Record ProducedTxn := mkProduced { p_hash : bytes; p_system : bool }.

(** A receipt as a field of a status. *)
Definition receipt_value (r : Receipt.Receipt) : TypesGeneral.Receipt :=
  Build_Receipt (hb (Start r)) (StartIndex r) (hb (End_ r)) (EndIndex r) (hb (Receipt.Anchor r))
    ((fun e => Build_ReceiptEntry (Right e) (hb (EntryHash e)) []) <$> Receipt.Entries r) [].

Definition set_Proof (r : option TypesGeneral.Receipt) (v : TransactionStatus TB ER) : TransactionStatus TB ER :=
  Build_TransactionStatus (TransactionStatus_TxID v) (TransactionStatus_Code v) (TransactionStatus_Error v) (TransactionStatus_Result v)
    (TransactionStatus_Received v) (TransactionStatus_Initiator v) (TransactionStatus_Signers v) (TransactionStatus_AnchorSigners v)
    (TransactionStatus_SourceNetwork v) (TransactionStatus_DestinationNetwork v) (TransactionStatus_SequenceNumber v)
    (TransactionStatus_GotDirectoryReceipt v) r (TransactionStatus_extraData v).

Definition set_Result (r : option TransactionResult) (v : TransactionStatus TB ER) : TransactionStatus TB ER :=
  Build_TransactionStatus (TransactionStatus_TxID v) (TransactionStatus_Code v) (TransactionStatus_Error v) r
    (TransactionStatus_Received v) (TransactionStatus_Initiator v) (TransactionStatus_Signers v) (TransactionStatus_AnchorSigners v)
    (TransactionStatus_SourceNetwork v) (TransactionStatus_DestinationNetwork v) (TransactionStatus_SequenceNumber v)
    (TransactionStatus_GotDirectoryReceipt v) (TransactionStatus_Proof v) (TransactionStatus_extraData v).

(** [Transaction.PutStatus]; the entry of the Patricia tree that the status of a pending
    transaction refreshes is not part of the batch. *)
Definition PutStatus (h : bytes) (v : TransactionStatus TB ER) (b : Batch) : Batch :=
  set_status h (match TransactionStatus_Result v with None => set_Result (Some (TransactionResult_EmptyResult new_EmptyResult)) v | Some _ => v end) b.

Definition synthChain (synthUrl : URL) : Chain2 := mkChain2 synthUrl MainChain false.

Definition anchorSynthChain (ledgerUrl synthUrl : URL) (blockIndex : Z) (c : ChainUpdates) (b : Batch) : res (Z * ChainUpdates * Batch) :=
  let! (indexIndex, _, b) := addChainAnchor (rootChain ledgerUrl) (synthChain synthUrl) blockIndex b in
  Ok (indexIndex, DidUpdateChain (Build_BlockEntry (Some synthUrl) "main" 0 []) c, set_synth blockIndex indexIndex b).

(** The receipts are stored as signatures of the produced transactions. *)
Fixpoint local_receipts (synthUrl : URL) (rootReceipt : Receipt.Receipt) (offset height : Z) (i : Z) (produced : list ProducedTxn) (b : Batch)
    : res Batch :=
  match produced with
  | [] => Ok b
  | txn :: produced =>
      if p_system txn then local_receipts synthUrl rootReceipt offset height (i + 1) produced b
      else
        let! synthReceipt := wrapf (Chain_Receipt (offset + i) (height - 1) (get_chain (synthChain synthUrl) b)) "build synth chain receipt" in
        let! receipt := wrapf (Receipt_Combine synthReceipt rootReceipt) "combine receipts" in
        local_receipts synthUrl rootReceipt offset height (i + 1) produced (add_receipt (p_hash txn) receipt b)
  end.

Definition createLocalDNReceipt (ledgerUrl synthUrl : URL) (produced : list ProducedTxn) (synthAnchorIndex : Z) (b : Batch) : res Batch :=
  let! rootHeight := Chain_Height (get_chain (rootChain ledgerUrl) b) in
  let! rootReceipt := wrapf (Chain_Receipt (i64 synthAnchorIndex) (rootHeight - 1) (get_chain (rootChain ledgerUrl) b)) "build root chain receipt" in
  let! b := wrapf (Chain2_Get (synthChain synthUrl) b) "unable to load synthetic transaction chain" in
  let! height := Chain_Height (get_chain (synthChain synthUrl) b) in
  local_receipts synthUrl rootReceipt (height - zlen produced) height 0 produced b.

Definition is_initialized (status : TransactionStatus TB ER) : bool :=
  negb (is_nil (TransactionStatus_SourceNetwork status) || is_nil (TransactionStatus_DestinationNetwork status)
        || (TransactionStatus_SequenceNumber status =? 0)).

Fixpoint synth_receipts (synthUrl : URL) (rootProof : Receipt.Receipt) (synthStart synthEnd : Z) (i : Z) (produced : list ProducedTxn) (b : Batch)
    : res Batch :=
  match produced with
  | [] => Ok b
  | txn :: produced =>
      let status := b_status b (p_hash txn) in
      if negb (is_initialized status) then errors_new StatusInternalError "synthetic transaction status is not correctly initialized"
      else
        let! synthProof := wrapf (Chain_Receipt (i + synthStart) synthEnd (get_chain (synthChain synthUrl) b)) "prove on the synthetic transaction chain" in
        let! r := wrapf (Receipt_Combine synthProof rootProof) "combine receipts" in
        synth_receipts synthUrl rootProof synthStart synthEnd (i + 1) produced
          (PutStatus (p_hash txn) (set_Proof (Some (receipt_value r)) status) b)
  end.

Definition buildSynthReceipt (ledgerUrl synthUrl : URL) (produced : list ProducedTxn) (rootAnchor synthAnchor : Z) (b : Batch) : res Batch :=
  let! b := wrapf (Chain2_Get (rootChain ledgerUrl) b) "load root chain" in
  let! rootProof := wrapf (Chain_Receipt synthAnchor rootAnchor (get_chain (rootChain ledgerUrl) b)) "prove on the root chain" in
  let! b := wrapf (Chain2_Get (synthChain synthUrl) b) "load root chain" in
  let! height := Chain_Height (get_chain (synthChain synthUrl) b) in
  synth_receipts synthUrl rootProof (height - zlen produced) (height - 1) 0 produced b.

Fixpoint index_synth (synthUrl : URL) (synthIndexIndex rootIndexIndex : Z) (entries : list BlockStateSynthTxnEntry) (b : Batch) : res Batch :=
  match entries with
  | [] => Ok b
  | e :: entries =>
      let! b := wrapf (TransactionChain_Add (BlockStateSynthTxnEntry_Transaction e)
        (Build_TransactionChainEntry (Some synthUrl) "main" synthIndexIndex rootIndexIndex []) b) "store transaction chain index" in
      index_synth synthUrl synthIndexIndex rootIndexIndex entries b
  end.

(** *** The block *)

(** What [config.Describe] says of the partition. *)
Record Describe := mkDescribe { PartitionId : bytes; IsDirectory : bool }.
Definition NodeUrl (d : Describe) (path : list bytes) : URL := JoinPath path (PartitionUrl (PartitionId d)).
Definition Ledger (d : Describe) : URL := NodeUrl d [str "ledger"].
Definition Synthetic (d : Describe) : URL := NodeUrl d [str "synthetic"].
Definition AnchorPool (d : Describe) : URL := NodeUrl d [str "anchors"].

Record Block := mkBlock {
  Block_Index : Z;
  Block_Time : Z;
  ProducedTxns : list ProducedTxn;
  Updates : ChainUpdates;
  MakeMajorBlock : Z;
  MakeMajorBlockTime : Z
}.

Definition updateMajorIndexChains (d : Describe) (block : Block) (rootIndexIndex : Z) (b : Batch) : res Batch :=
  if MakeMajorBlock block =? 0 then Ok b
  else
    let main := mkChain2 (AnchorPool d) MainChain false in
    let! b := wrapf (Chain2_Get main b) "load anchor ledger main chain" in
    let! height := Chain_Height (get_chain main b) in
    let! (_, b) := wrapf (addIndexChainEntry (mkChain2 (AnchorPool d) MajorBlockChain false)
      (Build_IndexEntry (u64 (height - 1)) 0 (MakeMajorBlock block) (Some (MakeMajorBlockTime block)) rootIndexIndex []) b)
      "add anchor ledger index chain entry" in
    Ok b.

(** The first half of [EndBlock]: anchor the updated chains, record the block, anchor the
    synthetic transactions and index the root chain.  It returns the anchored chains, the
    index of the synthetic chain's index entry, that of its anchor, and that of the root
    chain's index entry. *)
Definition anchor_block (d : Describe) (block : Block) (b : Batch) : res (gmap bytes chainUpdate * Z * Z * Z * Batch) :=
  let ledgerUrl := Ledger d in
  let! b := wrapf (Chain2_Get (rootChain ledgerUrl) b) "load root chain" in
  let! (chains, b) := process_updates ledgerUrl (Block_Index block) (Entries (Updates block)) ∅ b in
  let blockUrl := JoinPath [FormatUint (Block_Index block)] ledgerUrl in
  let b := set_block (AccountID32 blockUrl)
    (Build_BlockLedger (Some blockUrl) (Block_Index block) (Block_Time block) (Entries (Updates block)) []) b in
  let! (synthIndexIndex, synthAnchorIndex, b) :=
    if 0 <? zlen (ProducedTxns block) then
      let! synthAnchorIndex := Chain_Height (get_chain (rootChain ledgerUrl) b) in
      let! (synthIndexIndex, _, b) := anchorSynthChain ledgerUrl (Synthetic d) (Block_Index block) (Updates block) b in
      Ok (synthIndexIndex, u64 synthAnchorIndex, b)
    else Ok (0, 0, b) in
  let! rootIndex := Index (rootChain ledgerUrl) in
  let! rootHeight := Chain_Height (get_chain (rootChain ledgerUrl) b) in
  let! (rootIndexIndex, b) := wrapf (addIndexChainEntry rootIndex
    (Build_IndexEntry (u64 (rootHeight - 1)) 0 (Block_Index block) (Some (Block_Time block)) 0 []) b) "add root index chain entry" in
  Ok (chains, synthIndexIndex, synthAnchorIndex, rootIndexIndex, b).

(** The chains, indices, receipts and the block ledger that [EndBlock] writes for a block
    that is not empty.  [order] lists the keys of the chains in the order in which they are
    visited. *)
Definition EndBlock (d : Describe) (block : Block) (order : gmap bytes chainUpdate -> list bytes) (b : Batch) : res Batch :=
  let! (chains, synthIndexIndex, synthAnchorIndex, rootIndexIndex, b) := anchor_block d block b in
  let! b := index_updates rootIndexIndex (omap (fun k => chains !! k) (order chains)) b in
  let! b := index_synth (Synthetic d) synthIndexIndex rootIndexIndex (SynthEntries (Updates block)) b in
  let! b :=
    if 0 <? zlen (ProducedTxns block) then
      let! b := if IsDirectory d then createLocalDNReceipt (Ledger d) (Synthetic d) (ProducedTxns block) synthAnchorIndex b else Ok b in
      let! rootHeight := Chain_Height (get_chain (rootChain (Ledger d)) b) in
      buildSynthReceipt (Ledger d) (Synthetic d) (ProducedTxns block) (rootHeight - 1) (i64 synthAnchorIndex) b
    else Ok b in
  updateMajorIndexChains d block rootIndexIndex b.

(** ** Receipts: [receipts.go] *)

Definition LoadIndexEntryFromEnd (c : Chain2) (offset : Z) (b : Batch) : res (option IndexEntry * Batch) :=
  if offset =? 0 then Panic "offset must be > 0"
  else
    let! b := wrapf (Chain2_Get c b) "get account chain" in
    let! height := Chain_Height (get_chain c b) in
    if height <? i64 offset then Ok (None, b)
    else
      let index := u64 (u64 height - offset) in
      let! entry := wrapf (EntryAs (i64 index) (get_chain c b)) "get account chain entry" in
      Ok (Some entry, b).

Definition LoadLastTwoIndexEntries (chain : Chain2) (b : Batch) : res (option IndexEntry * option IndexEntry * Batch) :=
  let! (last, b) := LoadIndexEntryFromEnd chain 1 b in
  match last with
  | None => Ok (None, None, b)
  | Some _ => let! (nextLast, b) := LoadIndexEntryFromEnd chain 2 b in Ok (last, nextLast, b)
  end.

Definition getRootReceipt (ledgerUrl : URL) (from to : Z) (b : Batch) : res (Receipt.Receipt * Batch) :=
  let! b := wrapf (Chain2_Get (rootChain ledgerUrl) b) "get minor root chain" in
  let! local := wrapf (Chain_Receipt from to (get_chain (rootChain ledgerUrl) b)) "unable to construct a receipt" in
  Ok (local, b).

Definition loadIndexEntry (c : Chain2) (index : Z) (b : Batch) : res (IndexEntry * Batch) :=
  let! chain := Index c in
  let! b := wrapf (Chain2_Get chain b) "unable to load the index chain" in
  let! entry := wrapf (EntryAs (i64 index) (get_chain chain b)) "unable to load index entry" in
  Ok (entry, b).

Definition getIndexedChainReceipt (c : Chain2) (chainEntry : bytes) (indexEntry : IndexEntry) (b : Batch)
    : res (Receipt.Receipt * Batch) :=
  let! b := wrapf (Chain2_Get c b) "unable to load the chain" in
  let! entryIndex := wrapf (HeightOf chainEntry (get_chain c b)) "unable to find entry" in
  let! receipt := wrapf (Chain_Receipt entryIndex (i64 (IndexEntry_Source indexEntry)) (get_chain c b)) "unable to construct a receipt" in
  Ok (receipt, b).

(** The block and the receipt. *)
Definition ReceiptForChainEntry (ledgerUrl account : URL) (hash : bytes) (entry : TransactionChainEntry) (b : Batch)
    : res (Z * Receipt.Receipt * Batch) :=
  let! c := Account_ChainByName account (str (TransactionChainEntry_Chain entry)) in
  let! (accountIndex, b) := loadIndexEntry c (TransactionChainEntry_ChainIndex entry) b in
  let! (rootIndex, b) := loadIndexEntry (rootChain ledgerUrl) (TransactionChainEntry_AnchorIndex entry) b in
  let! (accountReceipt, b) := getIndexedChainReceipt c hash accountIndex b in
  let! (rootReceipt, b) := getRootReceipt ledgerUrl (i64 (IndexEntry_Anchor accountIndex)) (i64 (IndexEntry_Source rootIndex)) b in
  let! r := Receipt_Combine accountReceipt rootReceipt in
  Ok (IndexEntry_BlockIndex rootIndex, r, b).

(** A search from the end of an index chain, with the fuel it needs. *)
Definition search_from_end (target : Z) (s : S) : res IndexEntry :=
  let! height := Chain_Height s in
  match SearchIndexChain MatchAfter (SearchIndexChainBySource target) (Z.to_nat height) (u64 (u64 height - 1)) s with
  | Some r => let! (_, entry) := r in Ok entry
  | None => Panic "fuel"
  end.

Definition ReceiptForChainIndex (ledgerUrl : URL) (c : Chain2) (index : Z) (b : Batch) : res (Z * Receipt.Receipt * Batch) :=
  let! indexChain := Index c in
  let! b := wrapf (Chain2_Get indexChain b) "unable to load index chain" in
  let! entry := wrapf (search_from_end (u64 index) (get_chain indexChain b)) "unable to locate index entry" in
  let! b := wrapf (Chain2_Get c b) "unable to load chain" in
  let! rootIndexChain := Index (rootChain ledgerUrl) in
  let! b := wrapf (Chain2_Get rootIndexChain b) "unable to load minor root index chain" in
  let! rootEntry := wrapf (search_from_end (IndexEntry_Anchor entry) (get_chain rootIndexChain b)) "unable to locate index entry" in
  let! accountReceipt := Chain_Receipt index (i64 (IndexEntry_Source entry)) (get_chain c b) in
  let! (rootReceipt, b) := getRootReceipt ledgerUrl (i64 (IndexEntry_Anchor entry)) (i64 (IndexEntry_Source rootEntry)) b in
  let! r := Receipt_Combine accountReceipt rootReceipt in
  Ok (IndexEntry_BlockIndex rootEntry, r, b).

End Batch.
