(* ===== verification/AnchoringProofs.v ===== *)
(** * Anchors and receipts: the invariant of the chains and the receipts built from it

    The chains hold lists of entries, the index chains lists of index entries, and every
    index entry is about a prefix of its chain whose Merkle root is an entry of the root
    chain.  Adding entries and ending blocks keep the invariant; from it, the receipt of
    every indexed entry validates. *)

From stdpp Require Import functions sorting.
From S2P Require Import Prelude Sha256 Encoding MerkleTree MerkleState Receipt Chain ChainProofs SortUtil Url.
From S2P Require Import UrlProofs AdiUrl KeyPages StateManager Codec CodecProofs Enums Wire TypesGeneral TypesAccounts.
From S2P Require Import TypesStatus TypesDatabase DataModel DbChain Indexing Anchoring.
Local Open Scope Z_scope.
Import Url Binary.

(** ** Sets *)

#[global] Instance ChainMetadata_Compare_total : TotalCompare ChainMetadata_Compare.
Proof. apply (compare_on (fun c => str (ChainMetadata_Name c)) bytes_compare). Qed.

#[global] Instance TransactionChainEntry_Compare_total : TotalCompare TransactionChainEntry_Compare.
Proof.
  pose proof (compare_on TransactionChainEntry_Account (compare_option Compare)).
  pose proof (compare_on (fun e => str (TransactionChainEntry_Chain e)) bytes_compare).
  apply (compare_lex_total (fun e f => compare_option Compare (TransactionChainEntry_Account e) (TransactionChainEntry_Account f))
    (fun e f => bytes_compare (str (TransactionChainEntry_Chain e)) (str (TransactionChainEntry_Chain f)))).
Qed.

Section Sets.
Context {T : Type} (zero : T) (compare : T -> T -> Z) `{!TotalCompare compare}.

Lemma replace_sorted x z l k :
  sorted compare l -> first_ge (fun u => compare u x) l k -> l !! k = Some z -> compare z x = 0 ->
  sorted compare (<[k := x]> l) /\ forall y, y ∈ <[k := x]> l <-> y = x \/ y ∈ l /\ compare y x <> 0.
Proof.
  intros Hs Hk Hz Ez. destruct (first_ge_split compare l x k Hs Hk) as [Hlo Hhi]. pose proof (lookup_lt_Some _ _ _ Hz) as Hlt.
  rewrite insert_take_drop by done. pose proof (take_drop_middle l k z Hz) as El. split.
  - rewrite <- El in Hs. unfold sorted in *. rewrite StronglySorted_app, StronglySorted_cons in *.
    destruct Hs as (H12 & H1 & H2 & H3). split; [|split; [done|split; [|done]]].
    + intros a b Ha [->|Hb]%elem_of_cons; [by apply Hlo|]. apply H12; [done|]. apply elem_of_cons. by right.
    + apply Forall_forall. intros a Ha. by apply (compare_flip compare x a), Hhi.
  - intros y. rewrite <- El at 3. rewrite !elem_of_app, !elem_of_cons. split.
    + intros [Hy|[->|Hy]]; [|by left|]; right; (split; [tauto|]); [pose proof (Hlo y Hy)|pose proof (Hhi y Hy)]; lia.
    + intros [->|[[Hy|[->|Hy]] Hne]]; tauto.
Qed.

(** Adding a value to a set replaces the one it compares equal to. *)
Lemma Set_Add_ok x l :
  sorted compare l -> exists l', Set_Add zero compare [x] l = Ok l' /\ sorted compare l' /\
    forall y, y ∈ l' <-> y = x \/ y ∈ l /\ compare y x <> 0.
Proof.
  intros Hs. cbn [Set_Add]. destruct (BinaryInsert_ok zero l (fun u => compare u x) x (sorted_ge_mono compare l x Hs)) as (k & Hk & HB).
  assert (Hnew : (~ member compare x l) -> forall l', store_at l' (Z.of_nat k) x = take k l ++ x :: drop k l ->
    sorted compare (store_at l' (Z.of_nat k) x) /\ forall y, y ∈ store_at l' (Z.of_nat k) x <-> y = x \/ y ∈ l /\ compare y x <> 0).
  { intros Hm l' ->. split; [by apply insert_sorted|]. intros y. rewrite <- (take_drop k l) at 3.
    assert (Hne : y ∈ l -> compare y x <> 0) by (intros Hy E; apply Hm; by exists y).
    rewrite <- (take_drop k l) in Hne. rewrite elem_of_app in Hne. rewrite !elem_of_app, elem_of_cons. tauto. }
  destruct (found_member compare l x k Hs Hk) as [Hf1 Hf2]. destruct (l !! k) as [z|] eqn:Hz; [destruct (Z.eqb_spec (compare z x) 0) as [Ez|Ez]|].
  1: rewrite HB; cbn [res_bind Set_Add]; eexists; split; [done|]; unfold store_at; rewrite Nat2Z.id; by apply (replace_sorted x z).
  all: destruct HB as (l' & -> & E); cbn [res_bind Set_Add]; eexists; split; [done|]; apply Hnew; [|done]; intros Hm; by apply Hf2 in Hm.
Qed.

Lemma Set_Index_ok x l : sorted compare l -> (exists i, Set_Index compare x l = Ok i) \/ exists e, Set_Index compare x l = Err e /\ is_not_found e = true.
Proof.
  intros Hs. unfold Set_Index. destruct (sorted_search compare l x Hs) as (i & [] & -> & _); cbn [res_bind]; [left|right]; by eexists.
Qed.
End Sets.

(** ** The size of index entries *)

Lemma length_PutUvarint k x : (0 < k)%nat -> 0 <= x < 2 ^ (7 * Z.of_nat k) -> (length (PutUvarint x) <= k)%nat.
Proof. apply length_put_uvarint_le. Qed.

Lemma zlen_enc_app a b : zlen (enc_all (a ++ b)) = zlen (enc_all a) + zlen (enc_all b).
Proof. unfold enc_all. rewrite fmap_app, join_app. apply zlen_app. Qed.

Lemma zlen_seg c n v k : field_ok n -> (c = false -> zlen (payload v) <= k) -> 0 <= k -> zlen (enc_all (seg c n v)) <= 1 + k.
Proof.
  intros Hn Hv Hk. destruct c; cbn [seg]; [change (zlen (enc_all [])) with 0; lia|].
  rewrite enc_all_cons. change (enc_all []) with (@nil Byte.byte). rewrite app_nil_r, zlen_app. cbn [fst snd].
  rewrite PutUvarint_field by done. change (zlen [z2b n]) with 1. specialize (Hv eq_refl). lia.
Qed.

Lemma zlen_image fs : zlen (image fs) <= Z.max 1 (zlen (enc_all fs)).
Proof. destruct fs; cbn [image]; [|lia]. change (zlen [z2b EmptyObject]) with 1. lia. Qed.

Lemma zlen_uint_seg n x k : field_ok n -> (0 < k)%nat -> 0 <= x < 2 ^ (7 * Z.of_nat k) -> zlen (enc_all (seg (x =? 0) n (FUint x))) <= 1 + Z.of_nat k.
Proof.
  intros Hn Hk Hx. apply zlen_seg; [done| |lia]. intros _. pose proof (length_PutUvarint k x Hk Hx). cbn [payload]. unfold zlen. lia.
Qed.

Lemma zlen_zero_seg n x : x = 0 -> zlen (enc_all (seg (x =? 0) n (FUint x))) = 0.
Proof. by intros ->. Qed.

Lemma zlen_time_seg n t : field_ok n -> zlen (enc_all (seg (is_nil t) n (pointed (fun x => FTime x) t))) <= match t with Some _ => 11 | None => 0 end.
Proof.
  intros Hn. destruct t as [t|]; [|done]. apply (zlen_seg _ _ _ 10); [done| |lia]. intros _. cbn [pointed payload]. apply zlen_PutUvarint.
Qed.

(** The index entries that a block writes: those of a chain, of the root chain, and of a
    major block. *)
Definition entry_fits (e : IndexEntry) : Prop :=
  IndexEntry_RootIndexIndex e = 0 /\ IndexEntry_Source e < 2 ^ 63 /\ IndexEntry_BlockIndex e < 2 ^ 63 /\
    (IndexEntry_BlockTime e = None /\ IndexEntry_Anchor e < 2 ^ 63 \/ IndexEntry_Anchor e = 0) \/
  IndexEntry_Anchor e = 0 /\ IndexEntry_Source e < 2 ^ 42 /\ IndexEntry_BlockIndex e < 2 ^ 42 /\ IndexEntry_RootIndexIndex e < 2 ^ 42.

Lemma IndexEntry_size e : IndexEntry_ok e -> entry_fits e -> exists b, IndexEntry_MarshalBinary e = Ok b /\ (length b <= 32)%nat.
Proof.
  intros Hok Hfit. pose proof Hok as Hx. hnf in Hx. destruct_and? Hx.
  eassert (Hw : written _ _).
  { instantiate (2 := NewWriter
    |> when (negb (IndexEntry_Source e =? 0)) (WriteUint 1 (IndexEntry_Source e))
    |> when (negb (IndexEntry_Anchor e =? 0)) (WriteUint 2 (IndexEntry_Anchor e))
    |> when (negb (IndexEntry_BlockIndex e =? 0)) (WriteUint 3 (IndexEntry_BlockIndex e))
    |> when (negb (is_nil (IndexEntry_BlockTime e))) (deref (IndexEntry_BlockTime e) (fun v => WriteTime 4 v))
    |> when (negb (IndexEntry_RootIndexIndex e =? 0)) (WriteUint 5 (IndexEntry_RootIndexIndex e))). wire_write. }
  unfold IndexEntry_MarshalBinary. match goal with H : IndexEntry_extraData e = [] |- _ => rewrite H end.
  rewrite (finish_written _ _ Hw). eexists. split; [done|].
  match goal with |- (length (image ?l) <= _)%nat => pose proof (zlen_image l) as Hz end.
  rewrite !zlen_enc_app in Hz. change (zlen (enc_all [])) with 0 in Hz.
  pose proof (zlen_time_seg 4 (IndexEntry_BlockTime e) ltac:(done)) as Ht. unfold is_u64 in *.
  assert (Hlen : forall l : bytes, zlen l <= 32 -> (length l <= 32)%nat) by (unfold zlen; lia). apply Hlen.
  destruct Hfit as [(E5 & ? & ? & HA)|(E2 & ? & ? & ?)].
  - rewrite (zlen_zero_seg 5) in Hz by done.
    pose proof (zlen_uint_seg 1 (IndexEntry_Source e) 9 ltac:(done) ltac:(lia) ltac:(lia)).
    pose proof (zlen_uint_seg 3 (IndexEntry_BlockIndex e) 9 ltac:(done) ltac:(lia) ltac:(lia)).
    destruct HA as [[E ?]|E].
    + pose proof (zlen_uint_seg 2 (IndexEntry_Anchor e) 9 ltac:(done) ltac:(lia) ltac:(lia)). rewrite E in Ht at 3. cbn in Ht. lia.
    + rewrite (zlen_zero_seg 2) in Hz by done. destruct (IndexEntry_BlockTime e); lia.
  - rewrite (zlen_zero_seg 2) in Hz by done.
    pose proof (zlen_uint_seg 1 (IndexEntry_Source e) 6 ltac:(done) ltac:(lia) ltac:(lia)).
    pose proof (zlen_uint_seg 3 (IndexEntry_BlockIndex e) 6 ltac:(done) ltac:(lia) ltac:(lia)).
    pose proof (zlen_uint_seg 5 (IndexEntry_RootIndexIndex e) 6 ltac:(done) ltac:(lia) ltac:(lia)).
    destruct (IndexEntry_BlockTime e); lia.
Qed.

(** ** The invariant *)

Section Inv.
Context {S TB ER : Type} `{ChainStoreLaws S} (ledger : URL).

Definition AC : Type := bytes * ChainName.
Definition ac (c : Chain2) : AC := (AccountID32 (c2_Account c), c2_chain c).
Definition root : AC := (AccountID32 ledger, RootChain).

(** The chains hold the entries [v], their index chains the entries [ix]. *)
Record holds (b : Batch (S:=S) (TB:=TB) (ER:=ER)) (v : AC -> list bytes) (ix : AC -> list IndexEntry) : Prop := {
  h_chain a : chain_inv dbChain (b_chain b (a, false)) (v a);
  h_small a : zlen (v a) < 2 ^ 62;
  h_len a : Forall (fun h => length h = 32%nat) (v a);
  h_index a : index_chain (b_chain b (a, true)) (ix a);
  h_meta id : sorted ChainMetadata_Compare (b_chains b id)
}.

(** The Merkle root of the entries up to the source is the entry of the root chain. *)
Definition anchored_by (v : AC -> list bytes) (a : AC) (e : IndexEntry) : Prop :=
  0 <= IndexEntry_Source e < zlen (v a) /\ 0 <= IndexEntry_Anchor e /\
  v root !! Z.to_nat (IndexEntry_Anchor e) = Some (mth (take (Z.to_nat (IndexEntry_Source e) + 1) (v a))).

(** The entry of a transaction names an index entry of a chain up to which the chain has the
    transaction, and a later index entry of the root chain. *)
Definition indexed (v : AC -> list bytes) (ix : AC -> list IndexEntry) (h : bytes) (te : TransactionChainEntry) : Prop :=
  length h = 32%nat /\ exists account c e r,
    TransactionChainEntry_Account te = Some account /\ UrlProofs.url_ok account = true /\
    ChainByName (str (TransactionChainEntry_Chain te)) = Ok (c, false) /\ c <> MajorBlockChain /\ (AccountID32 account, c) <> root /\
    0 <= TransactionChainEntry_ChainIndex te /\ ix (AccountID32 account, c) !! Z.to_nat (TransactionChainEntry_ChainIndex te) = Some e /\
    0 <= TransactionChainEntry_AnchorIndex te /\ ix root !! Z.to_nat (TransactionChainEntry_AnchorIndex te) = Some r /\
    IndexEntry_Anchor e <= IndexEntry_Source r /\
    h ∈ take (Z.to_nat (IndexEntry_Source e) + 1) (v (AccountID32 account, c)).

Record linked (v : AC -> list bytes) (ix : AC -> list IndexEntry) (tx : bytes -> list TransactionChainEntry) : Prop := {
  l_anchor a e : a <> root -> e ∈ ix a -> anchored_by v a e;
  l_root e : e ∈ ix root -> 0 <= IndexEntry_Source e < zlen (v root);
  l_mono a i j e f : (i <= j)%nat -> ix a !! i = Some e -> ix a !! j = Some f -> IndexEntry_Source e <= IndexEntry_Source f;
  l_sorted h : sorted TransactionChainEntry_Compare (tx h);
  l_entry h te : te ∈ tx h -> indexed v ix h te
}.

(** The parts of the batch that are not chains. *)
Definition rest (b : Batch (S:=S) (TB:=TB) (ER:=ER)) := (b_txchains b, b_status b, b_synth b, b_blocks b, b_receipts b).

Lemma Chain2_Get_ok c b v ix :
  holds b v ix -> exists b', Chain2_Get c b = Ok b' /\ holds b' v ix /\ rest b' = rest b.
Proof.
  intros Hb. pose proof (h_meta _ _ _ Hb (AccountID32 (c2_Account c))) as Hs. unfold Chain2_Get.
  set (meta := Build_ChainMetadata _ _ _).
  destruct (Set_Index_ok ChainMetadata_Compare meta _ Hs) as [[i ->]|(e & -> & ->)]; [by exists b|].
  destruct (Set_Add_ok new_ChainMetadata ChainMetadata_Compare meta _ Hs) as (l & -> & Hl & _). cbn [res_bind].
  eexists. split; [done|]. split; [|done]. destruct Hb. split; try done. intros id. unfold set_chains. cbn [b_chains].
  destruct (decide (id = AccountID32 (c2_Account c))) as [->|]; [by rewrite fn_lookup_insert|by rewrite fn_lookup_insert_ne].
Qed.

(** Reading the chains. *)
Lemma holds_get c b v ix : holds b v ix -> c2_index c = false -> chain_inv dbChain (get_chain c b) (v (ac c)).
Proof. intros Hb Hc. unfold get_chain, chain_id. rewrite Hc. apply (h_chain _ _ _ Hb). Qed.

Lemma holds_index c b v ix : holds b v ix -> c2_index c = true -> index_chain (get_chain c b) (ix (ac c)).
Proof. intros Hb Hc. unfold get_chain, chain_id. rewrite Hc. apply (h_index _ _ _ Hb). Qed.

Lemma holds_Height c b v ix : holds b v ix -> c2_index c = false -> Chain_Height (get_chain c b) = Ok (zlen (v (ac c))).
Proof. intros Hb Hc. apply Height_ok; [by eapply holds_get|apply (h_small _ _ _ Hb)]. Qed.

(** ** Adding entries *)

Lemma chain_add_entry_ok c entry unique b v ix :
  holds b v ix -> c2_index c = false -> (length entry <= 32)%nat -> zlen (v (ac c)) + 1 < 2 ^ 62 ->
  exists b', chain_add_entry c (Some entry) unique b = Ok b' /\ rest b' = rest b /\
    holds b' (if decide (unique = true /\ pad_entry entry ∈ v (ac c)) then v else <[ac c := v (ac c) ++ [pad_entry entry]]> v) ix.
Proof.
  intros Hb Hc He Hl. pose proof (holds_get c b v ix Hb Hc) as Hi. unfold chain_add_entry.
  destruct (AddEntry_correct _ _ entry unique Hi Hl He) as [(s' & -> & Hs) _]. cbn [res_bind]. eexists. split; [done|]. split; [done|].
  assert (Hid : chain_id c = (ac c, false)) by (unfold chain_id; by rewrite Hc).
  destruct Hb as [H1 H2 H5 H3 H4]. case_decide as Hd.
  - split; [|done|done| |done]; intros a; unfold set_chain; cbn [b_chain]; rewrite Hid.
    + destruct (decide ((ac c, false) = (a, false))) as [E|E]; [|by rewrite fn_lookup_insert_ne].
      injection E as <-. rewrite fn_lookup_insert. by subst s'.
    + by rewrite fn_lookup_insert_ne.
  - destruct Hs as [Hs _]. split; [| | | |done]; intros a; unfold set_chain; cbn [b_chain]; rewrite ?Hid.
    + destruct (decide (ac c = a)) as [<-|Hne]; [by rewrite !fn_lookup_insert|]. rewrite !fn_lookup_insert_ne; [done|done|congruence].
    + destruct (decide (ac c = a)) as [<-|Hne]; [|by rewrite fn_lookup_insert_ne].
      rewrite fn_lookup_insert, zlen_app. change (zlen [pad_entry entry]) with 1. lia.
    + destruct (decide (ac c = a)) as [<-|Hne]; [|by rewrite fn_lookup_insert_ne].
      rewrite fn_lookup_insert. apply Forall_app. split; [done|]. constructor; [by apply pad_entry_length|done].
    + by rewrite fn_lookup_insert_ne.
Qed.

Lemma addIndexChainEntry_ok c e b v ix :
  holds b v ix -> c2_index c = true -> IndexEntry_ok e -> entry_fields e -> entry_fits e -> zlen (ix (ac c)) + 1 < 2 ^ 62 ->
  exists b', addIndexChainEntry c e b = Ok (zlen (ix (ac c)), b') /\ rest b' = rest b /\ holds b' v (<[ac c := ix (ac c) ++ [e]]> ix).
Proof.
  intros Hb Hc Hok Hne Hfit Hl. unfold addIndexChainEntry. destruct (Chain2_Get_ok c b v ix Hb) as (b1 & -> & Hb1 & Hr1). cbn [res_bind].
  destruct (IndexEntry_size e Hok Hfit) as (data & Ed & Hd). rewrite Ed. cbn [res_bind]. unfold chain_add_entry.
  destruct (holds_index c b1 v ix Hb1 Hc) as (l & Hi & Hl' & HF). pose proof (Forall2_length _ _ _ HF) as Elen. unfold zlen in Hl, Hl'. rewrite Elen in Hl.
  destruct (AddEntry_correct _ _ data false Hi Hl Hd) as [(s' & -> & Hs) _]. cbn [res_bind]. rewrite decide_False in Hs by (intros [? _]; done).
  destruct Hs as [Hs _]. assert (Hid : chain_id c = (ac c, true)) by (unfold chain_id; by rewrite Hc).
  assert (Hix : index_chain s' (ix (ac c) ++ [e])).
  { exists (l ++ [pad_entry data]). split; [done|]. split; [unfold zlen in *; rewrite length_app; cbn [length]; lia|].
    apply Forall2_app; [done|]. constructor; [|done]. split; [done|]. split; [done|]. by exists data. }
  assert (Hg : get_chain c (set_chain c s' b1) = s') by (unfold get_chain, set_chain; cbn [b_chain]; by rewrite fn_lookup_insert).
  rewrite Hg. destruct (index_Height _ _ Hix) as [-> _]. cbn [res_bind].
  rewrite zlen_app. change (zlen [e]) with 1. rewrite u64_small by (unfold is_u64, zlen in *; lia). replace (_ + 1 - 1) with (zlen (ix (ac c))) by lia.
  eexists. split; [done|]. split; [exact Hr1|]. destruct Hb1 as [H1 H2 H5 H3 H4]. split; [|done|done| |done]; intros a; unfold set_chain; cbn [b_chain]; rewrite Hid.
  - by rewrite fn_lookup_insert_ne.
  - destruct (decide (ac c = a)) as [<-|Hna]; [by rewrite !fn_lookup_insert|]. rewrite !fn_lookup_insert_ne; [done|done|congruence].
Qed.

(** ** Anchoring *)

Definition indexable (c : Chain2) : Prop := c2_index c = false /\ c2_chain c <> MajorBlockChain.

Lemma Index_ok c : indexable c -> Index c = Ok (mkChain2 (c2_Account c) (c2_chain c) true).
Proof. intros [Hi Hc]. unfold Index, Type_. rewrite Hi. by destruct (c2_chain c). Qed.

Definition grows (v v' : AC -> list bytes) : Prop := forall a, v a `prefix_of` v' a.

Lemma grows_app v a l : grows v (<[a := v a ++ l]> v).
Proof. intros a'. destruct (decide (a = a')) as [<-|]; [rewrite fn_lookup_insert; by apply prefix_app_r|by rewrite fn_lookup_insert_ne]. Qed.

Lemma prefix_zlen {A} (l l' : list A) : l `prefix_of` l' -> zlen l <= zlen l'.
Proof. intros [k ->]. rewrite zlen_app. pose proof (zlen_nonneg k). lia. Qed.

Lemma prefix_take {A} (l l' : list A) n : l `prefix_of` l' -> (n <= length l)%nat -> take n l' = take n l.
Proof. intros [k ->] Hn. by rewrite take_app_le. Qed.

Lemma anchored_by_mono v v' a e : grows v v' -> anchored_by v a e -> anchored_by v' a e.
Proof.
  intros Hg (Hs & Ha & Hl). pose proof (prefix_zlen _ _ (Hg a)). split; [lia|]. split; [done|].
  rewrite (prefix_take (v a)) by (done || unfold zlen in *; lia). by eapply prefix_lookup_Some.
Qed.

(** Index chains only grow. *)
Definition igrows (ix ix' : AC -> list IndexEntry) : Prop := forall a, ix a `prefix_of` ix' a.

Lemma igrows_app ix a l : igrows ix (<[a := ix a ++ l]> ix).
Proof. intros a'. destruct (decide (a = a')) as [<-|]; [rewrite fn_lookup_insert; by apply prefix_app_r|by rewrite fn_lookup_insert_ne]. Qed.

Lemma elem_take_prefix {A} (l l' : list A) x n : l `prefix_of` l' -> x ∈ take n l -> x ∈ take n l'.
Proof. intros [k ->]. rewrite take_app, elem_of_app. by left. Qed.

Lemma indexed_mono v v' ix ix' h te : grows v v' -> igrows ix ix' -> indexed v ix h te -> indexed v' ix' h te.
Proof.
  intros Hg Hi (Hh & account & c & e & r & Ha & Hu & Hc & Hm & Hr & Hci & He & Hri & Hre & Hle & Hin). split; [done|].
  exists account, c, e, r. do 6 (split; [done|]). split; [by eapply prefix_lookup_Some|]. split; [done|].
  split; [by eapply prefix_lookup_Some|]. split; [done|]. eapply elem_take_prefix; [apply Hg|done].
Qed.

Lemma linked_mono v v' ix tx : grows v v' -> linked v ix tx -> linked v' ix tx.
Proof.
  intros Hg [H1 H2 Hm H3 H4]. split; [| |done|done|].
  - intros a e Hne He. by eapply anchored_by_mono, H1.
  - intros e He. pose proof (H2 e He). pose proof (prefix_zlen _ _ (Hg root)). lia.
  - intros h te Hte. eapply indexed_mono; [done| |by apply H4]. intros a. done.
Qed.

Lemma linked_sources v ix tx a e : linked v ix tx -> e ∈ ix a -> 0 <= IndexEntry_Source e < zlen (v a).
Proof. intros Hl He. destruct (decide (a = root)) as [->|Hne]; [by apply (l_root _ _ _ Hl)|by apply (l_anchor _ _ _ Hl)]. Qed.

Lemma linked_index v ix tx a e :
  linked v ix tx -> (a <> root -> anchored_by v a e) -> IndexEntry_Source e = zlen (v a) - 1 -> 0 < zlen (v a) ->
  linked v (<[a := ix a ++ [e]]> ix) tx.
Proof.
  intros Hl Ha Hs Hpos. pose proof (linked_sources v ix tx a) as Hsrc. pose proof Hl as [H1 H2 Hm H3 H4]. split; [| | |done|].
  - intros a' e' Hne. destruct (decide (a = a')) as [<-|Hna]; [|rewrite fn_lookup_insert_ne by done; by apply H1].
    rewrite fn_lookup_insert, elem_of_app, list_elem_of_singleton. intros [He| ->]; [by apply H1|by apply Ha].
  - intros e'. destruct (decide (a = root)) as [->|Hna]; [|rewrite fn_lookup_insert_ne by done; by apply H2].
    rewrite fn_lookup_insert, elem_of_app, list_elem_of_singleton. intros [He| ->]; [by apply H2|lia].
  - intros a' i j e1 e2 Hij. destruct (decide (a = a')) as [<-|Hna]; [|rewrite fn_lookup_insert_ne by done; by apply Hm].
    rewrite fn_lookup_insert. intros E1 [E2|[Hj E2]]%lookup_app_Some.
    + rewrite lookup_app_l in E1 by (apply lookup_lt_Some in E2; lia). by eapply Hm.
    + apply list_lookup_singleton_Some in E2 as [Ej <-]. apply lookup_app_Some in E1 as [E1|[Hi E1]].
      * pose proof (Hsrc e1 Hl (list_elem_of_lookup_2 _ _ _ E1)). lia.
      * by apply list_lookup_singleton_Some in E1 as [_ <-].
  - intros h te Hte. eapply indexed_mono; [intros ?; done|apply igrows_app|by apply H4].
Qed.

Lemma Chain_Anchor_ok s l : chain_inv dbChain s l -> zlen l < 2 ^ 62 -> l <> [] -> Chain_Anchor s = Ok (Some (mth l)).
Proof.
  intros Hi Hl Hne. unfold Chain_Anchor. rewrite Head_Get_view, (inv_head _ _ _ Hi). cbn [res_bind].
  rewrite (GetMDRoot_Represents _ l); [by destruct l|]. by apply Represents_chain_head.
Qed.

Lemma pad_entry_32 h : length h = 32%nat -> pad_entry h = h.
Proof. intros Hh. unfold pad_entry, zlen. by rewrite Hh. Qed.

Definition chain_index_entry (v : AC -> list bytes) (a : AC) (blockIndex : Z) : IndexEntry :=
  Build_IndexEntry (zlen (v a) - 1) (zlen (v root)) blockIndex None 0 [].

Definition root_index_entry (v : AC -> list bytes) (blockIndex time : Z) : IndexEntry :=
  Build_IndexEntry (zlen (v root) - 1) 0 blockIndex (Some (truncate time)) 0 [].

(** An index entry is stored with the whole seconds of its time. *)
Lemma addIndexChainEntry_truncate c s a i t r (b : Anchoring.Batch (S:=S) (TB:=TB) (ER:=ER)) :
  addIndexChainEntry c (Build_IndexEntry s a i (Some t) r []) b = addIndexChainEntry c (Build_IndexEntry s a i (Some (truncate t)) r []) b.
Proof.
  unfold addIndexChainEntry, IndexEntry_MarshalBinary.
  cbn [IndexEntry_Source IndexEntry_Anchor IndexEntry_BlockIndex IndexEntry_BlockTime IndexEntry_RootIndexIndex IndexEntry_extraData is_nil negb when deref].
  by rewrite WriteTime_truncate.
Qed.

Lemma addChainAnchor_ok c blockIndex b v ix tx :
  holds b v ix -> linked v ix tx -> indexable c -> ac c <> root -> v (ac c) <> [] -> 0 < blockIndex < 2 ^ 63 ->
  zlen (v root) + 1 < 2 ^ 62 -> zlen (ix (ac c)) + 1 < 2 ^ 62 ->
  let v' := <[root := v root ++ [mth (v (ac c))]]> v in
  let ix' := <[ac c := ix (ac c) ++ [chain_index_entry v (ac c) blockIndex]]> ix in
  exists b', addChainAnchor (rootChain ledger) c blockIndex b = Ok (zlen (ix (ac c)), true, b') /\ rest b' = rest b /\
    holds b' v' ix' /\ linked v' ix' tx.
Proof.
  intros Hb Hl Hc Hne Hnil Hbi Hr Hx v' ix'. pose proof Hc as [Hci Hcm]. unfold addChainAnchor.
  destruct (Chain2_Get_ok c b v ix Hb) as (b1 & -> & Hb1 & Hr1). cbn [res_bind].
  pose proof (h_small _ _ _ Hb1 (ac c)) as Hsm. pose proof (h_small _ _ _ Hb1 root) as Hsr.
  rewrite (Chain_Anchor_ok _ _ (holds_get c _ _ _ Hb1 Hci) Hsm Hnil). cbn [res_bind].
  pose proof (length_mth (v (ac c)) Hnil (h_len _ _ _ Hb1 (ac c))) as Hlen.
  destruct (chain_add_entry_ok (rootChain ledger) (mth (v (ac c))) false b1 v ix Hb1 eq_refl ltac:(lia) Hr) as (b2 & -> & Hr2 & Hb2).
  rewrite decide_False in Hb2 by (intros [? _]; done). rewrite pad_entry_32 in Hb2 by done. change (ac (rootChain ledger)) with root in Hb2.
  fold v' in Hb2. cbn [res_bind]. unfold shouldIndexChain.
  assert (Ht : Type_ c = managed.ChainTypeTransaction \/ Type_ c = managed.ChainTypeAnchor).
  { unfold Type_. rewrite Hci. destruct (c2_chain c); try (by left); try (by right); done. }
  replace (if Type_ c =? managed.ChainTypeIndex then Ok false else _) with (@Ok bool true) by (by destruct Ht as [-> | ->]).
  cbn [res_bind negb]. rewrite (Index_ok c Hc). cbn [res_bind].
  rewrite (holds_Height c _ _ _ Hb2 Hci), (holds_Height (rootChain ledger) _ _ _ Hb2 eq_refl). cbn [res_bind].
  assert (Eca : v' (ac c) = v (ac c)) by (unfold v'; by rewrite fn_lookup_insert_ne).
  assert (Eroot : v' root = v root ++ [mth (v (ac c))]) by (unfold v'; by rewrite fn_lookup_insert).
  change (ac (rootChain ledger)) with root. rewrite Eca, Eroot, zlen_app. change (zlen [_]) with 1.
  pose proof (zlen_nonneg (v root)). assert (0 < zlen (v (ac c))) by (unfold zlen; destruct (v (ac c)); [done|cbn [length]; lia]).
  rewrite !u64_small by (unfold is_u64; lia). replace (zlen (v root) + 1 - 1) with (zlen (v root)) by lia.
  change (Build_IndexEntry _ _ _ _ _ _) with (chain_index_entry v (ac c) blockIndex). set (e := chain_index_entry v (ac c) blockIndex) in *.
  destruct (addIndexChainEntry_ok (mkChain2 (c2_Account c) (c2_chain c) true) e b2 v' ix Hb2 eq_refl) as (b3 & -> & Hr3 & Hb3).
  - subst e. repeat split; cbn; try done; lia.
  - subst e. intros [=]. lia.
  - subst e. left. cbn. repeat split; try lia. left. split; [done|lia].
  - done.
  - cbn [res_bind]. eexists. split; [done|]. split; [by rewrite Hr3, Hr2|]. split; [done|].
    apply linked_index; [eapply linked_mono; [apply grows_app|done]| |by rewrite Eca|by rewrite Eca]. intros _. subst e. unfold anchored_by. cbn [IndexEntry_Source IndexEntry_Anchor chain_index_entry].
    rewrite Eca, Eroot. split; [lia|]. split; [lia|]. rewrite take_ge by (unfold zlen in *; lia).
    unfold zlen. rewrite Nat2Z.id, lookup_app_r, Nat.sub_diag by lia. done.
Qed.

(** ** Receipts *)

Lemma wrapf_ok {A} (m : res A) x msg : m = Ok x -> wrapf m msg = Ok x.
Proof. by intros ->. Qed.

Lemma root_indexable : indexable (rootChain ledger).
Proof. done. Qed.

Lemma loadIndexEntry_ok c b v ix i e :
  holds b v ix -> indexable c -> 0 <= i -> ix (ac c) !! Z.to_nat i = Some e ->
  exists e' b', loadIndexEntry c i b = Ok (e', b') /\ IndexEntry_Copy e' = e /\ holds b' v ix /\ rest b' = rest b.
Proof.
  intros Hb Hc Hi He. unfold loadIndexEntry. rewrite (Index_ok c Hc). cbn [res_bind]. set (c' := mkChain2 _ _ _).
  destruct (Chain2_Get_ok c' b v ix Hb) as (b' & -> & Hb' & Hr). cbn [wrapf res_bind].
  pose proof (holds_index c' b' v ix Hb' eq_refl) as Hix. change (ac c') with (ac c) in Hix.
  destruct (EntryAs_ok _ _ Hix _ _ He) as (e' & E & Ce). destruct (index_Height _ _ Hix) as [_ Hsm].
  apply lookup_lt_Some in He. rewrite i64_small by (unfold is_i64, zlen in *; lia). rewrite Z2Nat.id in E by done.
  rewrite E. cbn [wrapf res_bind]. by exists e', b'.
Qed.

Lemma first_index_take h (l : list bytes) k : h ∈ take k l -> exists i, first_index h l = Some i /\ (i < k)%nat.
Proof.
  revert k. induction l as [|x l IH]; intros k; [by rewrite take_nil, elem_of_nil|].
  destruct k as [|k]; [by rewrite elem_of_nil|]. cbn [take first_index]. rewrite elem_of_cons. destruct (decide (x = h)) as [|Hne].
  - intros _. exists O. split; [done|lia].
  - intros [->|Hin]; [done|]. destruct (IH k Hin) as (i & -> & Hi). exists (Datatypes.S i). split; [done|lia].
Qed.

Lemma Receipt_ok s l from to :
  chain_inv dbChain s l -> zlen l < 2 ^ 62 -> 0 <= from <= to -> to < zlen l ->
  exists r x, l !! Z.to_nat from = Some x /\ Chain_Receipt from to s = Ok r /\ Validate r = true /\
    Start r = Some x /\ Receipt.Anchor r = Some (mth (take (Z.to_nat to + 1) l)).
Proof. intros Hi Hl Hf Ht. pose proof (Chain_Receipt_correct s l from to Hi Hl) as HR. by rewrite decide_True in HR. Qed.

Lemma getRootReceipt_ok b v ix from to :
  holds b v ix -> 0 <= from <= to -> to < zlen (v root) ->
  exists r x b', getRootReceipt ledger from to b = Ok (r, b') /\ holds b' v ix /\ rest b' = rest b /\
    v root !! Z.to_nat from = Some x /\ Validate r = true /\ Start r = Some x /\
    Receipt.Anchor r = Some (mth (take (Z.to_nat to + 1) (v root))).
Proof.
  intros Hb Hf Ht. unfold getRootReceipt. destruct (Chain2_Get_ok (rootChain ledger) b v ix Hb) as (b' & -> & Hb' & Hr). cbn [wrapf res_bind].
  destruct (Receipt_ok (get_chain (rootChain ledger) b') (v root) from to) as (r & x & Hx & E & Hv & Hst & Ha);
    [exact (holds_get (rootChain ledger) _ _ _ Hb' eq_refl)|apply (h_small _ _ _ Hb')|done|done|].
  rewrite E. cbn [wrapf res_bind]. by exists r, x, b'.
Qed.

Lemma getIndexedChainReceipt_ok c b v ix h e :
  holds b v ix -> c2_index c = false -> length h = 32%nat -> 0 <= IndexEntry_Source e < zlen (v (ac c)) ->
  h ∈ take (Z.to_nat (IndexEntry_Source e) + 1) (v (ac c)) ->
  exists r b', getIndexedChainReceipt c h e b = Ok (r, b') /\ holds b' v ix /\ rest b' = rest b /\
    Validate r = true /\ Start r = Some h /\
    Receipt.Anchor r = Some (mth (take (Z.to_nat (IndexEntry_Source e) + 1) (v (ac c)))).
Proof.
  intros Hb Hc Hh Hs Hin. unfold getIndexedChainReceipt. destruct (Chain2_Get_ok c b v ix Hb) as (b' & -> & Hb' & Hr). cbn [wrapf res_bind].
  pose proof (holds_get c b' v ix Hb' Hc) as Hi. pose proof (h_small _ _ _ Hb' (ac c)) as Hl.
  destruct (first_index_take _ _ _ Hin) as (i & Hfi & Hlt). unfold HeightOf, dbChain in *.
  rewrite (GetElementIndex_inv 8 _ _ _ Hi Hh Hl), Hfi. cbn [fmap option_fmap option_map found wrapf res_bind].
  rewrite (i64_small (IndexEntry_Source e)) by (unfold is_i64; lia).
  destruct (Receipt_ok (get_chain c b') (v (ac c)) (Z.of_nat i) (IndexEntry_Source e)) as (r & x & Hx & E & Hv & Hst & Ha); [done|done|lia|lia|].
  rewrite Nat2Z.id, (first_index_Some _ _ _ Hfi) in Hx. injection Hx as <-. rewrite E. cbn [wrapf res_bind]. by exists r, b'.
Qed.

Lemma Receipt_Combine_ok r1 r2 :
  Validate r1 = true -> Validate r2 = true -> Receipt.Anchor r1 = Start r2 ->
  exists r, Receipt_Combine r1 r2 = Ok r /\ Validate r = true /\ Start r = Start r1 /\ Receipt.Anchor r = Receipt.Anchor r2.
Proof.
  intros V1 V2 E. destruct (Receipt_Combine r1 r2) as [r| |] eqn:Ec.
  - exists r. split; [done|]. by eapply Receipt_Combine_valid.
  - unfold Receipt_Combine in Ec. by rewrite E, Hash_Equal_refl in Ec.
  - unfold Receipt_Combine in Ec. by destruct (Hash_Equal _ _).
Qed.

(** An entry of a transaction gives a receipt. *)
Lemma ReceiptForChainEntry_ok b v ix account h te e r :
  holds b v ix -> linked v ix (b_txchains b) -> length h = 32%nat ->
  forall c, TransactionChainEntry_Account te = Some account -> ChainByName (str (TransactionChainEntry_Chain te)) = Ok (c, false) ->
  c <> MajorBlockChain -> (AccountID32 account, c) <> root ->
  0 <= TransactionChainEntry_ChainIndex te -> ix (AccountID32 account, c) !! Z.to_nat (TransactionChainEntry_ChainIndex te) = Some e ->
  0 <= TransactionChainEntry_AnchorIndex te -> ix root !! Z.to_nat (TransactionChainEntry_AnchorIndex te) = Some r ->
  IndexEntry_Anchor e <= IndexEntry_Source r ->
  h ∈ take (Z.to_nat (IndexEntry_Source e) + 1) (v (AccountID32 account, c)) ->
  exists rc b', ReceiptForChainEntry ledger account h te b = Ok (IndexEntry_BlockIndex r, rc, b') /\ holds b' v ix /\
    Validate rc = true /\ Start rc = Some h /\
    Receipt.Anchor rc = Some (mth (take (Z.to_nat (IndexEntry_Source r) + 1) (v root))).
Proof.
  intros Hb Hl Hh c Ha Hc Hmaj Hroot Hci He Hri Hr Hle Hin.
  destruct (l_anchor _ _ _ Hl _ e Hroot (list_elem_of_lookup_2 _ _ _ He)) as (Hs & Han & Hat).
  pose proof (l_root _ _ _ Hl r (list_elem_of_lookup_2 _ _ _ Hr)) as Hrs. pose proof (h_small _ _ _ Hb root) as Hsm.
  unfold ReceiptForChainEntry, Account_ChainByName. rewrite Hc. cbn [res_bind]. set (c2 := mkChain2 account c false).
  destruct (loadIndexEntry_ok c2 b v ix _ e Hb ltac:(done) Hci He) as (e' & b1 & -> & <- & Hb1 & _). cbn [res_bind].
  destruct (loadIndexEntry_ok (rootChain ledger) b1 v ix _ r Hb1 root_indexable Hri Hr) as (r' & b2 & -> & <- & Hb2 & _). cbn [res_bind].
  cbn [IndexEntry_Source IndexEntry_Anchor IndexEntry_BlockIndex IndexEntry_Copy] in *.
  destruct (getIndexedChainReceipt_ok c2 b2 v ix h e' Hb2 eq_refl Hh Hs Hin) as (r1 & b3 & -> & Hb3 & _ & V1 & S1 & A1). cbn [res_bind].
  rewrite !i64_small by (unfold is_i64; lia).
  destruct (getRootReceipt_ok b3 v ix (IndexEntry_Anchor e') (IndexEntry_Source r') Hb3) as (r2 & x & b4 & -> & Hb4 & _ & Hx & V2 & S2 & A2); [lia|lia|].
  cbn [res_bind]. change (ac c2) with (AccountID32 account, c) in A1. rewrite Hat in Hx. injection Hx as <-.
  destruct (Receipt_Combine_ok r1 r2 V1 V2) as (rc & -> & V & Hst & Hanc); [by rewrite A1, S2|]. cbn [res_bind]. exists rc, b4. by rewrite Hst, Hanc.
Qed.

End Inv.
