(* ===== verification/AnchoringBlocks.v ===== *)
(** * The end of a block: every entry of the block gets a receipt

    [EndBlock] of Anchoring.v keeps the invariant of AnchoringProofs.v and lists every
    updated entry under its transaction, so that over any run of blocks the receipt of
    every entry validates, from the entry to the root of the partition after its block. *)

From stdpp Require Import functions sorting.
From S2P Require Import Prelude Sha256 Encoding MerkleTree MerkleState Receipt Chain ChainProofs SortUtil Url.
From S2P Require Import UrlProofs AdiUrl KeyPages StateManager Codec CodecProofs Enums Wire TypesGeneral TypesAccounts.
From S2P Require Import TypesStatus TypesDatabase DataModel DbChain Indexing Anchoring AnchoringProofs.
Local Open Scope Z_scope.
Import Url.

Section Block.
Context {S TB ER : Type} `{ChainStoreLaws S} (ledger : URL).
Abbreviation root := (root ledger).
Abbreviation holds := (holds (S:=S) (TB:=TB) (ER:=ER)).
Abbreviation linked := (linked ledger).
Abbreviation indexed := (indexed ledger).

(** ** Listing the entries of transactions *)

(** A transaction has an entry for the chain, for the root index entry [R] or a later one. *)
Definition listed (R : Z) (tx : bytes -> list TransactionChainEntry) (h : bytes) (account : URL) (chain : string) : Prop :=
  exists te, te ∈ tx h /\ TransactionChainEntry_Compare te (Build_TransactionChainEntry (Some account) chain 0 0 []) = 0 /\
    R <= TransactionChainEntry_AnchorIndex te.

Lemma TransactionChain_Add_ok h te b v ix :
  holds b v ix -> linked v ix (b_txchains b) -> indexed v ix h te ->
  exists b', TransactionChain_Add h te b = Ok b' /\ holds b' v ix /\ linked v ix (b_txchains b') /\
    te ∈ b_txchains b' h /\
    (forall R h' account chain, R <= TransactionChainEntry_AnchorIndex te -> listed R (b_txchains b) h' account chain ->
      listed R (b_txchains b') h' account chain) /\
    b_status b' = b_status b /\ b_receipts b' = b_receipts b.
Proof.
  intros Hb Hl Hte. unfold TransactionChain_Add.
  destruct (Set_Add_ok new_TransactionChainEntry TransactionChainEntry_Compare te _ (l_sorted _ _ _ _ Hl h)) as (l & -> & Hs & Hin).
  cbn [res_bind]. eexists. split; [done|]. unfold set_txchains. cbn [b_txchains b_status b_receipts]. split; [by destruct Hb|].
  destruct Hl as [H1 H2 Hm H3 H4]. split; [split; [done|done|done| |]|split; [|split; [|done]]].
  - intros h'. destruct (decide (h = h')) as [<-|]; [by rewrite fn_lookup_insert|by rewrite fn_lookup_insert_ne].
  - intros h' te'. destruct (decide (h = h')) as [<-|]; [|by rewrite fn_lookup_insert_ne; [apply H4|]].
    rewrite fn_lookup_insert, Hin. intros [->|[Hte' _]]; [done|by apply H4].
  - rewrite fn_lookup_insert, Hin. by left.
  - intros R h' account chain HR (te' & Hte' & Hc & HR'). destruct (decide (h = h')) as [<-|Hne].
    2:{ exists te'. by rewrite fn_lookup_insert_ne. }
    destruct (decide (TransactionChainEntry_Compare te' te = 0)) as [E|E].
    + exists te. rewrite fn_lookup_insert, Hin. split; [by left|]. split; [|done].
      change (equiv_ TransactionChainEntry_Compare te (Build_TransactionChainEntry (Some account) chain 0 0 [])).
      transitivity te'; [by symmetry|done].
    + exists te'. rewrite fn_lookup_insert, Hin. split; [by right|]. done.
Qed.

Lemma index_txns_ok te txns b v ix :
  holds b v ix -> linked v ix (b_txchains b) -> Forall (fun x => exists h, x = Some h /\ indexed v ix h te) txns ->
  exists b', index_txns te txns b = Ok b' /\ holds b' v ix /\ linked v ix (b_txchains b') /\
    (forall h, Some h ∈ txns -> forall account chain, TransactionChainEntry_Account te = Some account -> TransactionChainEntry_Chain te = chain ->
      listed (TransactionChainEntry_AnchorIndex te) (b_txchains b') h account chain) /\
    (forall R h' account chain, R <= TransactionChainEntry_AnchorIndex te -> listed R (b_txchains b) h' account chain ->
      listed R (b_txchains b') h' account chain) /\
    b_status b' = b_status b /\ b_receipts b' = b_receipts b.
Proof.
  revert b. induction txns as [|x txns IH]; intros b Hb Hl HF; cbn [index_txns].
  - exists b. do 3 (split; [done|]). split; [|done]. intros h Hh. by apply not_elem_of_nil in Hh.
  - apply Forall_cons in HF as [(h & -> & Hh) HF]. change (hb (Some h)) with h.
    destruct (TransactionChain_Add_ok h te b v ix Hb Hl Hh) as (b1 & -> & Hb1 & Hl1 & Hin & Hkeep & Es & Er). cbn [wrapf res_bind].
    destruct (IH b1 Hb1 Hl1 HF) as (b2 & -> & Hb2 & Hl2 & Hnew & Hkeep2 & Es2 & Er2). exists b2. do 3 (split; [done|]).
    split; [|split; [|split; congruence]].
    + intros h' [[= ->]|Hh']%elem_of_cons account chain Ha Hc; [|by apply Hnew]. apply Hkeep2; [done|]. exists te. split; [done|].
      split; [|done]. unfold TransactionChainEntry_Compare. rewrite Ha, Hc. cbn [compare_option TransactionChainEntry_Account TransactionChainEntry_Chain].
      rewrite (compare_refl Compare). cbn. apply (compare_refl bytes_compare).
    + intros R h' account chain HR HL. apply Hkeep2; [done|]. by apply Hkeep.
Qed.

(** ** Anchoring the updated chains *)

Definition update_key (account : URL) (chain : string) : bytes := ToLower (URL_String account) ++ str ";" ++ str chain.

(** The chain [c] is named [chain]; the separator of the keys occurs in no chain name. *)
Definition named (account : URL) (chain : string) (c : ChainName) : Prop :=
  UrlProofs.url_ok account = true /\ ChainByName (str chain) = Ok (c, false) /\ Byte.x3b ∉ str chain.

Lemma cut_last {A} (x : A) l1 l2 r1 r2 : x ∉ r1 -> x ∉ r2 -> l1 ++ x :: r1 = l2 ++ x :: r2 -> l1 = l2 /\ r1 = r2.
Proof.
  intros H1 H2. revert l2. induction l1 as [|y l1 IH]; intros [|z l2] [=]; subst.
  - done.
  - destruct H1. apply elem_of_app. right. by left.
  - destruct H2. apply elem_of_app. right. by left.
  - match goal with E : _ ++ _ = _ ++ _ |- _ => by destruct (IH _ E) as [-> ->] end.
Qed.

Lemma update_key_inj account chain c account0 chain0 c0 :
  named account chain c -> named account0 chain0 c0 -> update_key account chain = update_key account0 chain0 ->
  AccountID32 account = AccountID32 account0 /\ chain = chain0 /\ c = c0.
Proof.
  intros (Hu & Hc & Hs) (Hu0 & Hc0 & Hs0) E. apply (cut_last _ _ _ _ _ Hs Hs0) in E as [El Er].
  apply (f_equal String.string_of_list_byte) in Er. rewrite !string_of_str in Er. subst chain0. rewrite Hc in Hc0. injection Hc0 as <-.
  split; [|done]. apply Equal_AccountID; [done|done|]. by apply EqualFold_spec.
Qed.

Definition skipped (e : BlockEntry) : Prop := Equal (Some ledger) (BlockEntry_Account e) = true.

(** The update is of an entry [h] of the chain [a], which is named [chain] on [account]. *)
Definition updates (v : AC -> list bytes) (e : BlockEntry) (account : URL) (chain : string) (c : ChainName) (h : bytes) : Prop :=
  BlockEntry_Account e = Some account /\ BlockEntry_Chain e = chain /\ named account chain c /\
  c <> MajorBlockChain /\ (AccountID32 account, c) <> root /\ 0 <= BlockEntry_Index e < 2 ^ 62 /\
  v (AccountID32 account, c) !! Z.to_nat (BlockEntry_Index e) = Some h.

Definition update_ok (v : AC -> list bytes) (e : BlockEntry) : Prop :=
  skipped e \/ exists account chain c h, updates v e account chain c h.

(** A chain that was anchored: its last index entry covers the whole chain. *)
Definition chain_done (v : AC -> list bytes) (ix : AC -> list IndexEntry) (k : bytes) (u : chainUpdate) : Prop :=
  exists account chain c e, BlockEntry_Account (cu_entry u) = Some account /\ BlockEntry_Chain (cu_entry u) = chain /\
    k = update_key account chain /\ named account chain c /\ c <> MajorBlockChain /\ (AccountID32 account, c) <> root /\
    DidIndex u = true /\ 0 <= IndexIndex u /\ ix (AccountID32 account, c) !! Z.to_nat (IndexIndex u) = Some e /\
    IndexEntry_Source e = zlen (v (AccountID32 account, c)) - 1 /\ IndexEntry_Anchor e < zlen (v root) /\
    Forall (fun x => exists h, x = Some h /\ h ∈ v (AccountID32 account, c)) (Txns u).

(** Only the root chain grows while chains are anchored. *)
Definition only_root (v v' : AC -> list bytes) : Prop := v root `prefix_of` v' root /\ forall a, a <> root -> v' a = v a.

Definition room (n : Z) (v : AC -> list bytes) (ix : AC -> list IndexEntry) : Prop :=
  zlen (v root) + n < 2 ^ 62 /\ forall a, zlen (ix a) + n < 2 ^ 62.

Record progress (b : Batch (S:=S) (TB:=TB) (ER:=ER)) (v : AC -> list bytes) (ix : AC -> list IndexEntry) (chains : gmap bytes chainUpdate) (done_ : list BlockEntry) : Prop := {
  p_holds : holds b v ix;
  p_linked : linked v ix (b_txchains b);
  p_chains k u : chains !! k = Some u -> chain_done v ix k u;
  p_done e account chain c h : e ∈ done_ -> ~ skipped e -> updates v e account chain c h ->
    exists u, chains !! update_key account chain = Some u /\ Some h ∈ Txns u
}.

Lemma only_root_grows v v' : only_root v v' -> grows v v'.
Proof. intros [Hr Ho] a. destruct (decide (a = root)) as [->|Hne]; [done|by rewrite Ho]. Qed.

Lemma updates_stable v v' e account chain c h : only_root v v' -> updates v e account chain c h <-> updates v' e account chain c h.
Proof. intros [_ Ho]. unfold updates. split; intros (?&?&?&?&Hne&?); by rewrite ?Ho in * by done. Qed.

Lemma chain_done_mono v v' ix ix' k u : only_root v v' -> igrows ix ix' -> chain_done v ix k u -> chain_done v' ix' k u.
Proof.
  intros Hv Hi (account & chain & c & e & Ha & Hc & Hk & Hn & Hm & Hr & Hd & Hi0 & He & Hs & Han & HF).
  pose proof (prefix_zlen _ _ (proj1 Hv)). exists account, chain, c, e. rewrite (proj2 Hv) by done. do 8 (split; [done|]).
  split; [by eapply prefix_lookup_Some|]. split; [done|]. split; [lia|done].
Qed.

Lemma progress_mono b b' v v' ix ix' chains done_ :
  only_root v v' -> igrows ix ix' -> holds b' v' ix' -> linked v' ix' (b_txchains b') ->
  progress b v ix chains done_ -> progress b' v' ix' chains done_.
Proof.
  intros Hv Hi Hb Hl [_ _ Hc Hd]. split; [done|done| |].
  - intros k u Hk. by eapply chain_done_mono, Hc.
  - intros e account chain c h He Hs Hu. eapply Hd; [done|done|]. by apply (updates_stable v v').
Qed.

(** The map after one more entry of the chain with key [k]. *)
Lemma progress_insert b v ix chains done_ e account chain c h u :
  progress b v ix chains done_ -> updates v e account chain c h -> chain_done v ix (update_key account chain) u ->
  Some h ∈ Txns u -> (forall u0, chains !! update_key account chain = Some u0 -> Txns u0 ⊆ Txns u) ->
  progress b v ix (<[update_key account chain := u]> chains) (done_ ++ [e]).
Proof.
  intros [Hb Hl Hc Hd] Hu Hdone Hh Hsub. split; [done|done| |].
  - intros k u0. destruct (decide (update_key account chain = k)) as [<-|Hne]; [|rewrite lookup_insert_ne by done; by apply Hc].
    rewrite lookup_insert_eq. by intros [= <-].
  - intros e0 account0 chain0 c0 h0 [He|He]%elem_of_app Hs Hu0.
    + destruct (Hd e0 account0 chain0 c0 h0 He Hs Hu0) as (u0 & Hk & Ht).
      destruct (decide (update_key account chain = update_key account0 chain0)) as [E|Hne].
      * exists u. rewrite <- E in *. rewrite lookup_insert_eq. split; [done|]. by eapply Hsub.
      * exists u0. by rewrite lookup_insert_ne.
    + apply list_elem_of_singleton in He as ->. destruct Hu as (Ea & Ec & En & _ & _ & _ & Eh), Hu0 as (Ea0 & Ec0 & En0 & _ & _ & _ & Eh0).
      rewrite Ea in Ea0. injection Ea0 as <-. rewrite Ec in Ec0. subst chain0. destruct En as (_ & En & _), En0 as (_ & En0 & _). rewrite En in En0. injection En0 as <-. rewrite Eh in Eh0. injection Eh0 as <-.
      exists u. by rewrite lookup_insert_eq.
Qed.

Lemma room_step n v ix a l e : 0 <= n -> zlen l = 1 -> room (n + 1) v ix -> room n (<[root := v root ++ l]> v) (<[a := ix a ++ [e]]> ix).
Proof.
  intros Hn El [Hr Hi]. split; [rewrite fn_lookup_insert, zlen_app, El; lia|]. intros a'. specialize (Hi a').
  destruct (decide (a = a')) as [<-|]; [|rewrite fn_lookup_insert_ne by done; lia]. rewrite fn_lookup_insert, zlen_app. change (zlen [e]) with 1. lia.
Qed.

Lemma room_le n m v ix : n <= m -> room m v ix -> room n v ix.
Proof. intros Hn [Hr Hi]. split; [lia|]. intros a. specialize (Hi a). lia. Qed.

Lemma only_root_app v l : only_root v (<[root := v root ++ l]> v).
Proof. split; [rewrite fn_lookup_insert; by apply prefix_app_r|]. intros a Ha. by rewrite fn_lookup_insert_ne. Qed.

(** No entry of [a] is updated. *)
Definition untouched (v : AC -> list bytes) (entries : list BlockEntry) (a : AC) : Prop :=
  forall e account chain c h, e ∈ entries -> updates v e account chain c h -> (AccountID32 account, c) <> a.

Lemma process_update_ok e b v ix chains done_ n bi :
  progress b v ix chains done_ -> update_ok v e -> room (n + 1) v ix -> 0 <= n -> 0 < bi < 2 ^ 63 ->
  exists chains' b' v' ix', process_update ledger bi e chains b = Ok (chains', b') /\ rest b' = rest b /\
    progress b' v' ix' chains' (done_ ++ [e]) /\ only_root v v' /\ igrows ix ix' /\ room n v' ix' /\ ix' root = ix root /\
    forall a, untouched v [e] a -> ix' a = ix a.
Proof.
  intros Hp Hu Hroom Hn Hbi. unfold process_update. destruct (Equal (Some ledger) (BlockEntry_Account e)) eqn:Esk.
  { exists chains, b, v, ix. do 2 (split; [done|]). split; [|split; [split; done|]; split; [intros ?; done|]; split; [eapply room_le; [|done]; lia|done]].
    destruct Hp as [? ? ? Hd]. split; [done..|]. intros e' ? ? ? ? [He|He]%elem_of_app Hs; [by apply Hd|]. by apply list_elem_of_singleton in He as ->. }
  destruct Hu as [Hu|(account & chain & c & h & Hu)]; [by unfold skipped in Hu; rewrite Esk in Hu|].
  pose proof Hu as (Ea & Ec & En & Hm & Hne & Hidx & Eh). rewrite Ea, Ec. fold (update_key account chain).
  unfold Account_ChainByName. rewrite (proj1 (proj2 En)). cbn [res_bind wrapf]. set (c2 := mkChain2 account c false).
  assert (Hc2 : indexable c2) by done. change (AccountID32 account, c) with (ac c2) in *.
  destruct (Chain2_Get_ok c2 b v ix (p_holds _ _ _ _ _ Hp)) as (b1 & -> & Hb1 & Hr1). cbn [wrapf res_bind].
  assert (Hp1 : progress b1 v ix chains done_).
  { eapply progress_mono; [split; done|intros ?; done|done| |exact Hp]. injection Hr1 as -> _ _ _ _. apply (p_linked _ _ _ _ _ Hp). }
  rewrite i64_small by (unfold is_i64; lia).
  rewrite (Entry_ok _ _ (holds_get c2 b1 v ix Hb1 eq_refl) (h_small _ _ _ Hb1 _)), Eh by lia. cbn [fmap option_fmap option_map found wrapf res_bind].
  assert (Hhin : h ∈ v (ac c2)) by by eapply list_elem_of_lookup_2.
  destruct (chains !! update_key account chain) as [u|] eqn:Ek; cbn [default from_option Datatypes.id].
  - destruct (p_chains _ _ _ _ _ Hp1 _ _ Ek) as (account0 & chain0 & c0 & e0 & A1 & A2 & A3 & A4 & A5 & A6 & A7 & A8 & A9 & A10 & A11 & A12).
    eexists _, b1, v, ix. split; [done|]. split; [done|]. split; [|split; [split; done|]; split; [intros ?; done|]; split; [eapply room_le; [|done]; lia|done]].
    apply (progress_insert _ _ _ _ _ _ _ _ c h); [done|done| |cbn; apply elem_of_app; right; by left|].
    + destruct (update_key_inj _ _ _ _ _ _ En A4 A3) as (Eid & <- & <-). exists account0, chain, c, e0. cbn [cu_entry DidIndex IndexIndex Txns].
      do 11 (split; [done|]). apply Forall_app. split; [done|]. constructor; [|done]. exists h. split; [done|]. by rewrite <- Eid.
    + intros u0 E0. rewrite Ek in E0. injection E0 as <-. cbn [Txns]. set_solver.
  - destruct (addChainAnchor_ok ledger c2 bi b1 v ix (b_txchains b1) Hb1 (p_linked _ _ _ _ _ Hp1) Hc2 Hne) as (b2 & -> & Hr2 & Hb2 & Hl2); [|done|destruct Hroom; lia|destruct Hroom as [_ Hi]; specialize (Hi (ac c2)); lia|].
    { intros E. rewrite E in Hhin. by apply not_elem_of_nil in Hhin. }
    set (v' := <[root := _]> v) in *. set (ix' := <[ac c2 := _]> ix) in *. cbn [res_bind wrapf].
    assert (Hor : only_root v v') by apply only_root_app. assert (Hig : igrows ix ix') by apply igrows_app.
    eexists _, b2, v', ix'. split; [done|]. split; [congruence|].
    split; [|split; [done|]; split; [done|]; split; [by apply room_step|]; split; [unfold ix'; by rewrite fn_lookup_insert_ne|]].
    2:{ intros a Ha. unfold ix'. rewrite fn_lookup_insert_ne; [done|]. eapply Ha; [by left|exact Hu]. }
    apply (progress_insert _ _ _ _ _ _ _ _ c h); [eapply progress_mono; [exact Hor|exact Hig|done| |exact Hp1]|..].
    + injection Hr2 as -> _ _ _ _. done.
    + by apply (updates_stable v).
    + exists account, chain, c, (chain_index_entry ledger v (ac c2) bi). cbn [cu_entry DidIndex IndexIndex Txns].
      do 7 (split; [done|]). split; [apply zlen_nonneg|]. change (AccountID32 account, c) with (ac c2). rewrite (proj2 Hor) by done. split.
      { unfold ix', zlen. rewrite fn_lookup_insert, Nat2Z.id, lookup_app_r, Nat.sub_diag by lia. done. }
      split; [done|]. split; [cbn; unfold v'; rewrite fn_lookup_insert, zlen_app; change (zlen [_]) with 1; lia|].
      constructor; [by exists h|done].
    + cbn. by left.
    + intros u0 E0. by rewrite Ek in E0.
Qed.

Lemma only_root_trans v1 v2 v3 : only_root v1 v2 -> only_root v2 v3 -> only_root v1 v3.
Proof. intros [Hr Ho] [Hr' Ho']. split; [by etrans|]. intros a Ha. by rewrite Ho', Ho. Qed.

Lemma igrows_trans ix1 ix2 ix3 : igrows ix1 ix2 -> igrows ix2 ix3 -> igrows ix1 ix3.
Proof. intros H1 H2 a. by etrans; [apply H1|]. Qed.

Lemma update_ok_stable v v' e : only_root v v' -> update_ok v e -> update_ok v' e.
Proof. intros Hv [Hs|(account & chain & c & h & Hu)]; [by left|]. right. exists account, chain, c, h. by apply (updates_stable v v'). Qed.

Lemma process_updates_ok entries b v ix chains done_ n bi :
  progress b v ix chains done_ -> Forall (update_ok v) entries -> room (n + zlen entries) v ix -> 0 <= n -> 0 < bi < 2 ^ 63 ->
  exists chains' b' v' ix', process_updates ledger bi entries chains b = Ok (chains', b') /\ rest b' = rest b /\
    progress b' v' ix' chains' (done_ ++ entries) /\ only_root v v' /\ igrows ix ix' /\ room n v' ix' /\ ix' root = ix root /\
    forall a, untouched v entries a -> ix' a = ix a.
Proof.
  revert b v ix chains done_. induction entries as [|e entries IH]; intros b v ix chains done_ Hp HF Hroom Hn Hbi; cbn [process_updates].
  - exists chains, b, v, ix. rewrite app_nil_r. change (zlen []) with 0 in Hroom. rewrite Z.add_0_r in Hroom. do 3 (split; [done|]).
    split; [split; done|]. split; [intros ?; done|]. done.
  - apply Forall_cons in HF as [He HF]. rewrite zlen_cons in Hroom. pose proof (zlen_nonneg entries).
    destruct (process_update_ok e b v ix chains done_ (n + zlen entries) bi Hp He) as (ch1 & b1 & v1 & ix1 & -> & Hr1 & Hp1 & Ho1 & Hi1 & Hroom1 & Ex1 & Hf1);
      [by replace (n + zlen entries + 1) with (n + (1 + zlen entries)) by lia|lia|done|]. cbn [res_bind].
    destruct (IH b1 v1 ix1 ch1 (done_ ++ [e]) Hp1) as (ch2 & b2 & v2 & ix2 & -> & Hr2 & Hp2 & Ho2 & Hi2 & Hroom2 & Ex2 & Hf2); [|done..|].
    { eapply Forall_impl; [exact HF|]. intros e'. by apply update_ok_stable. }
    rewrite <- app_assoc in Hp2. exists ch2, b2, v2, ix2. split; [done|]. split; [congruence|]. split; [done|].
    split; [by eapply only_root_trans|]. split; [by eapply igrows_trans|]. split; [done|]. split; [congruence|].
    intros a Ha. rewrite Hf2, Hf1; [done| |].
    + intros e0 account chain c h ->%list_elem_of_singleton. apply Ha. by left.
    + intros e0 account chain c h He0 Hu0. eapply (Ha e0); [by right|]. by apply (updates_stable v v1).
Qed.

Lemma root_nonempty b v ix chains done_ e :
  progress b v ix chains done_ -> e ∈ done_ -> ~ skipped e -> update_ok v e -> v root <> [].
Proof.
  intros [Hb Hl Hc Hd] He Hs [?|(account & chain & c & h & Hu)]; [done|]. destruct (Hd _ _ _ _ _ He Hs Hu) as (u & Hk & _).
  destruct (Hc _ _ Hk) as (account0 & chain0 & c0 & e0 & _ & _ & _ & _ & _ & Hr & _ & _ & Hi & _ & Ha & _).
  destruct (l_anchor _ _ _ _ Hl _ e0 Hr (list_elem_of_lookup_2 _ _ _ Hi)) as (_ & H1 & _). intros E. rewrite E in Ha. change (zlen []) with 0 in Ha. lia.
Qed.

Lemma chain_done_indexed b v ix k u R r h :
  holds b v ix -> chain_done v ix k u -> 0 <= R -> ix root !! Z.to_nat R = Some r -> IndexEntry_Source r = zlen (v root) - 1 -> Some h ∈ Txns u ->
  indexed v ix h (Build_TransactionChainEntry (BlockEntry_Account (cu_entry u)) (BlockEntry_Chain (cu_entry u)) (IndexIndex u) R []).
Proof.
  intros Hb (account & chain & c & e & Ha & Hc & _ & (Hu & Hn & _) & Hm & Hr & _ & H1 & He & Hs & Han & HF) HR HRr Hsr Hh.
  rewrite Forall_forall in HF. destruct (HF _ Hh) as (h' & [= <-] & Hin). split.
  - pose proof (h_len _ _ _ Hb (AccountID32 account, c)) as Hlen. rewrite Forall_forall in Hlen. by apply Hlen.
  - exists account, c, e, r. cbn [TransactionChainEntry_Account TransactionChainEntry_Chain TransactionChainEntry_ChainIndex TransactionChainEntry_AnchorIndex].
    rewrite Hc. do 9 (split; [done|]). split; [lia|]. rewrite Hs. rewrite take_ge; [done|]. unfold zlen. lia.
Qed.

Lemma index_updates_ok R r us b v ix :
  holds b v ix -> linked v ix (b_txchains b) -> 0 <= R -> ix root !! Z.to_nat R = Some r -> IndexEntry_Source r = zlen (v root) - 1 ->
  Forall (fun u => exists k, chain_done v ix k u) us ->
  exists b', index_updates R us b = Ok b' /\ holds b' v ix /\ linked v ix (b_txchains b') /\
    (forall u h account, u ∈ us -> Some h ∈ Txns u -> BlockEntry_Account (cu_entry u) = Some account ->
      listed R (b_txchains b') h account (BlockEntry_Chain (cu_entry u))) /\
    (forall R' h' account chain, R' <= R -> listed R' (b_txchains b) h' account chain -> listed R' (b_txchains b') h' account chain) /\
    b_status b' = b_status b /\ b_receipts b' = b_receipts b.
Proof.
  intros Hb Hl HR HRr Hsr. revert b Hb Hl. induction us as [|u us IH]; intros b Hb Hl HF; cbn [index_updates].
  - exists b. do 3 (split; [done|]). split; [|done]. intros u h account Hu. by apply not_elem_of_nil in Hu.
  - apply Forall_cons in HF as [(k & Hk) HF]. assert (Hd : DidIndex u = true) by (by destruct Hk as (?&?&?&?&?&?&?&?&?&?&?&?)). rewrite Hd.
    destruct (index_txns_ok (Build_TransactionChainEntry (BlockEntry_Account (cu_entry u)) (BlockEntry_Chain (cu_entry u)) (IndexIndex u) R []) (Txns u) b v ix Hb Hl)
      as (b1 & -> & Hb1 & Hl1 & Hnew & Hkeep & Es & Er).
    { apply Forall_forall. intros x Hx. destruct (Hk) as (account & chain & c & e & _ & _ & _ & _ & _ & _ & _ & _ & _ & _ & _ & HFx).
      rewrite Forall_forall in HFx. destruct (HFx x Hx) as (h & -> & _). exists h. split; [done|]. by eapply chain_done_indexed. }
    cbn [res_bind]. destruct (IH b1 Hb1 Hl1 HF) as (b2 & -> & Hb2 & Hl2 & Hnew2 & Hkeep2 & Es2 & Er2). exists b2. do 3 (split; [done|]).
    split; [|split; [|split; congruence]].
    + intros u' h account [->|Hu']%elem_of_cons Hh Ha; [|by apply Hnew2]. apply Hkeep2; [lia|]. by apply (Hnew h Hh).
    + intros R' h' account chain HR' HL. apply Hkeep2; [done|]. by apply Hkeep.
Qed.

End Block.

(** ** Receipts of the produced transactions *)

Section Synthetic.
Context {S TB ER : Type} `{ChainStoreLaws S} (synth : URL).
Abbreviation holds := (holds (S:=S) (TB:=TB) (ER:=ER)).
Abbreviation Batch := (Anchoring.Batch (S:=S) (TB:=TB) (ER:=ER)).
Abbreviation sc := (synthChain synth).

(** The proof stored with a transaction validates, up to the anchor [A]. *)
Definition proved (A : Hash) (b : Batch) (h : bytes) : Prop :=
  exists r, TransactionStatus_Proof (b_status b h) = Some (receipt_value r) /\ Validate r = true /\ Start r = Some h /\ Receipt.Anchor r = A.

Lemma PutStatus_ok b h v0 ix (v : AC -> list bytes) st :
  holds b v ix -> holds (PutStatus h st b) v ix /\ b_txchains (PutStatus h st b) = b_txchains b /\ b_receipts (PutStatus h st b) = b_receipts b /\
  TransactionStatus_Proof (b_status (PutStatus h st b) h) = TransactionStatus_Proof st /\
  is_initialized (b_status (PutStatus h st b) h) = is_initialized st /\
  (h <> v0 -> b_status (PutStatus h st b) v0 = b_status b v0).
Proof.
  intros Hb. unfold PutStatus, set_status. cbn [b_txchains b_receipts b_status]. rewrite !fn_lookup_insert. split; [by destruct Hb|].
  do 2 (split; [done|]). split; [by destruct (TransactionStatus_Result st)|]. split; [by destruct (TransactionStatus_Result st)|].
  intros Hne. by rewrite fn_lookup_insert_ne.
Qed.

(** The transactions are the entries of the synthetic chain from [start] on. *)
Definition on_chain (v : AC -> list bytes) (start : Z) (produced : list ProducedTxn) : Prop :=
  forall i txn, produced !! i = Some txn -> v (ac sc) !! (Z.to_nat start + i)%nat = Some (p_hash txn).

(** The receipt from an entry of the synthetic chain to its end, and on to the root. *)
Lemma synth_proof b v ix i rootProof h :
  holds b v ix -> 0 <= i -> v (ac sc) !! Z.to_nat i = Some h -> Validate rootProof = true -> Start rootProof = Some (mth (v (ac sc))) ->
  exists r nr, Chain_Receipt i (zlen (v (ac sc)) - 1) (get_chain sc b) = Ok r /\ Receipt_Combine r rootProof = Ok nr /\
    Validate nr = true /\ Start nr = Some h /\ Receipt.Anchor nr = Receipt.Anchor rootProof.
Proof.
  intros Hb Hi Hh HV HS. pose proof (lookup_lt_Some _ _ _ Hh) as Hlt.
  destruct (Receipt_ok (get_chain sc b) (v (ac sc)) i (zlen (v (ac sc)) - 1)) as (r & x & Hx & E & Hv & Hst & Ha);
    [exact (holds_get sc b v ix Hb eq_refl)|apply (h_small _ _ _ Hb)|unfold zlen; lia|lia|].
  rewrite Hh in Hx. injection Hx as <-. rewrite take_ge in Ha by (unfold zlen; lia).
  destruct (Receipt_Combine_ok r rootProof Hv HV) as (nr & Ec & V & Es & Ean); [by rewrite Ha, HS|]. exists r, nr. by rewrite Es, Ean.
Qed.

Lemma synth_receipts_ok rootProof start produced v ix i b :
  holds b v ix -> Validate rootProof = true -> Start rootProof = Some (mth (v (ac sc))) -> 0 <= start + i -> on_chain v (i + start) produced ->
  Forall (fun txn => is_initialized (b_status b (p_hash txn)) = true) produced ->
  exists b', synth_receipts synth rootProof start (zlen (v (ac sc)) - 1) i produced b = Ok b' /\ holds b' v ix /\
    b_txchains b' = b_txchains b /\ b_receipts b' = b_receipts b /\
    (forall h, proved (Receipt.Anchor rootProof) b h -> proved (Receipt.Anchor rootProof) b' h) /\
    Forall (fun txn => proved (Receipt.Anchor rootProof) b' (p_hash txn)) produced.
Proof.
  intros Hb HV HS. revert b i Hb. induction produced as [|txn produced IH]; intros b i Hb Hi Hon HF; cbn [synth_receipts].
  - by exists b.
  - apply Forall_cons in HF as [Hinit HF]. rewrite Hinit. cbn [negb].
    destruct (synth_proof b v ix (i + start) rootProof (p_hash txn) Hb ltac:(lia)) as (r & nr & -> & Ec & V & Es & Ea); [|done|done|].
    { specialize (Hon O txn eq_refl). by rewrite Nat.add_0_r in Hon. }
    cbn [wrapf res_bind]. rewrite Ec. cbn [wrapf res_bind]. set (st := set_Proof _ _).
    destruct (PutStatus_ok b (p_hash txn) [] ix v st Hb) as (Hb1 & Et & Er & Ep & Ei & _).
    assert (Hin : is_initialized st = true) by done.
    destruct (IH (PutStatus (p_hash txn) st b) (i + 1) Hb1 ltac:(lia)) as (b' & -> & Hb' & Et' & Er' & Hk & HF').
    + intros j txn' Hj. specialize (Hon (Datatypes.S j) txn' Hj).
      by replace (Z.to_nat (i + 1 + start) + j)%nat with (Z.to_nat (i + start) + Datatypes.S j)%nat by lia.
    + eapply Forall_impl; [exact HF|]. intros txn' Htx. cbn beta in *. destruct (decide (p_hash txn = p_hash txn')) as [E|Hne].
      * rewrite <- E. by rewrite Ei.
      * by destruct (PutStatus_ok b (p_hash txn) (p_hash txn') ix v st Hb) as (_ & _ & _ & _ & _ & ->).
    + assert (Hp1 : proved (Receipt.Anchor rootProof) (PutStatus (p_hash txn) st b) (p_hash txn)) by (exists nr; rewrite Ep; done).
      exists b'. split; [done|]. split; [done|]. split; [congruence|]. split; [congruence|]. split.
      * intros h Hp. apply Hk. destruct (decide (p_hash txn = h)) as [<-|Hne]; [done|]. destruct Hp as (r' & E' & Hp'). exists r'. split; [|done].
        by destruct (PutStatus_ok b (p_hash txn) h ix v st Hb) as (_ & _ & _ & _ & _ & ->).
      * constructor; [by apply Hk|done].
Qed.

(** The receipts stored as signatures. *)
Definition receipt_for (A : Hash) (txn : ProducedTxn) (x : bytes * Receipt.Receipt) : Prop :=
  fst x = p_hash txn /\ Validate (snd x) = true /\ Start (snd x) = Some (p_hash txn) /\ Receipt.Anchor (snd x) = A.

Lemma local_receipts_ok rootProof start produced v ix i b :
  holds b v ix -> Validate rootProof = true -> Start rootProof = Some (mth (v (ac sc))) -> 0 <= start + i -> on_chain v (start + i) produced ->
  exists b' l, local_receipts synth rootProof start (zlen (v (ac sc))) i produced b = Ok b' /\ holds b' v ix /\
    b_txchains b' = b_txchains b /\ b_status b' = b_status b /\ b_receipts b' = b_receipts b ++ l /\
    Forall2 (receipt_for (Receipt.Anchor rootProof)) (filter (fun txn => p_system txn = false) produced) l.
Proof.
  intros Hb HV HS. revert b i Hb. induction produced as [|txn produced IH]; intros b i Hb Hi Hon; cbn [local_receipts].
  - exists b, []. do 4 (split; [done|]). split; [by rewrite app_nil_r|constructor].
  - assert (Hon' : on_chain v (start + (i + 1)) produced).
    { intros j txn' Hj. specialize (Hon (Datatypes.S j) txn' Hj).
      by replace (Z.to_nat (start + (i + 1)) + j)%nat with (Z.to_nat (start + i) + Datatypes.S j)%nat by lia. }
    destruct (p_system txn) eqn:Esys.
    + rewrite filter_cons_False by by rewrite Esys. by apply IH; [|lia|].
    + destruct (synth_proof b v ix (start + i) rootProof (p_hash txn) Hb ltac:(lia)) as (r & nr & -> & Ec & V & Es & Ea); [|done|done|].
      { specialize (Hon O txn eq_refl). by rewrite Nat.add_0_r in Hon. }
      cbn [wrapf res_bind]. rewrite Ec. cbn [wrapf res_bind].
      assert (Hb1 : holds (add_receipt (p_hash txn) nr b) v ix) by by destruct Hb.
      destruct (IH _ (i + 1) Hb1 ltac:(lia) Hon') as (b' & l & -> & Hb' & Et & Est & Er & HF).
      exists b', ((p_hash txn, nr) :: l). do 4 (split; [done|]). split; [rewrite Er; cbn [b_receipts add_receipt]; by rewrite <- app_assoc|].
      rewrite filter_cons_True by done. by constructor.
Qed.

End Synthetic.
