(* ===== verification/BlockRuns.v ===== *)
(** * The end of a block keeps the invariant of the chains

    Blocks add entries to chains, produce synthetic transactions and complete major blocks;
    the end of a block keeps the invariant that every entry has a receipt to the root of a
    block.  [PartitionRuns] draws the conclusions for runs of blocks. *)

From stdpp Require Import functions sorting.
From S2P Require Import Prelude Sha256 Encoding MerkleTree MerkleState Receipt Chain ChainProofs SortUtil Url.
From S2P Require Import UrlProofs AdiUrl KeyPages StateManager Codec CodecProofs Enums Wire TypesGeneral TypesAccounts.
From S2P Require Import TypesStatus TypesDatabase DataModel DbChain Indexing Anchoring AnchoringProofs AnchoringBlocks.
Local Open Scope Z_scope.
Import Url.

Ltac ie_cbn := cbn [IndexEntry_Source IndexEntry_Anchor IndexEntry_BlockIndex IndexEntry_BlockTime IndexEntry_RootIndexIndex IndexEntry_extraData].

Section End_.
Context {S TB ER : Type} `{ChainStoreLaws S} (d : Describe).
Abbreviation holds := (holds (S:=S) (TB:=TB) (ER:=ER)).
Abbreviation Batch := (Anchoring.Batch (S:=S) (TB:=TB) (ER:=ER)).
Abbreviation ledger := (Ledger d).
Abbreviation root := (root ledger).
Abbreviation sc := (synthChain (Synthetic d)).
Abbreviation major := (ac (mkChain2 (AnchorPool d) MajorBlockChain false)).
Abbreviation anchors := (ac (mkChain2 (AnchorPool d) MainChain false)).

(** The conditions of a block, with room for [n] more entries on every chain. *)
Record block_ok (block : Block) (v : AC -> list bytes) (ix : AC -> list IndexEntry) (st : bytes -> TransactionStatus TB ER) (n : Z) : Prop := {
  k_index : 0 < Block_Index block < 2 ^ 63;
  k_time : time_range (Block_Time block);
  k_updates : Forall (update_ok ledger v) (Entries (Updates block));
  k_room : room ledger (n + 2 + zlen (Entries (Updates block))) v ix;
  k_n : 0 <= n;
  k_root : v root <> [] \/ (exists e, e ∈ Entries (Updates block) /\ ~ skipped ledger e) \/ 0 < zlen (ProducedTxns block);
  k_synth : SynthEntries (Updates block) = [];
  k_produced : on_chain (Synthetic d) v (zlen (v (ac sc)) - zlen (ProducedTxns block)) (ProducedTxns block);
  k_plen : zlen (ProducedTxns block) <= zlen (v (ac sc));
  k_init : Forall (fun txn => is_initialized (st (p_hash txn)) = true) (ProducedTxns block);
  k_major : MakeMajorBlock block = 0 \/
    (0 < MakeMajorBlock block < 2 ^ 42 /\ 0 < zlen (v anchors) < 2 ^ 42 /\ zlen (ix root) < 2 ^ 42 /\ time_range (MakeMajorBlockTime block) /\
     zlen (v major) + 1 < 2 ^ 62)
}.

(** Where a transaction comes from, where it goes, and its number. *)
Definition origin (st : TransactionStatus TB ER) : option URL * option URL * Z :=
  (TransactionStatus_SourceNetwork st, TransactionStatus_DestinationNetwork st, TransactionStatus_SequenceNumber st).

(** What the receipts of a block leave unchanged. *)
Definition keeps (b b' : Batch) : Prop := b_synth b' = b_synth b /\ forall h, origin (b_status b' h) = origin (b_status b h).

#[local] Instance keeps_preorder : PreOrder keeps.
Proof. split; [done|]. intros b1 b2 b3 [E1 F1] [E2 F2]. split; [congruence|]. intros h. by rewrite F2. Qed.

Lemma keeps_rest (b b' : Batch) : rest b' = rest b -> keeps b b'.
Proof. intros E. injection E as _ E2 E3 _ _. split; [done|]. intros h. by rewrite E2. Qed.

Lemma Chain2_Get_keeps c (b b' : Batch) : wrapf (Chain2_Get c b) "" = Ok b' -> keeps b b'.
Proof.
  unfold Chain2_Get. destruct (Set_Index _ _ _) as [|e|]; cbn [wrapf]; [by intros [= <-]| |done].
  destruct (is_not_found e); [|done]. destruct (Set_Add _ _ _ _); cbn [res_bind wrapf]; [|done|done]. by intros [= <-].
Qed.

Lemma PutStatus_keeps h st (b : Batch) : origin st = origin (b_status b h) -> keeps b (PutStatus h st b).
Proof.
  intros E. split; [done|]. intros h'. unfold PutStatus, set_status. cbn [b_status]. destruct (decide (h = h')) as [<-|Hne]; [|by rewrite fn_lookup_insert_ne].
  rewrite fn_lookup_insert, <- E. by destruct (TransactionStatus_Result st).
Qed.

Lemma index_txns_keeps te txns (b b' : Batch) : index_txns te txns b = Ok b' -> keeps b b'.
Proof.
  revert b. induction txns as [|h txns IH]; intros b; cbn [index_txns]; [by intros [= <-]|]. unfold TransactionChain_Add.
  destruct (Set_Add _ _ _ _); cbn [res_bind wrapf]; [|done|done]. intros Hi. etrans; [|by apply IH]. done.
Qed.

Lemma index_updates_keeps R us (b b' : Batch) : index_updates R us b = Ok b' -> keeps b b'.
Proof.
  revert b. induction us as [|u us IH]; intros b; cbn [index_updates]; [by intros [= <-]|]. destruct (DidIndex u); [|apply IH].
  destruct (index_txns _ _ _) eqn:E; cbn [res_bind]; [|done|done]. intros Hi. etrans; [by eapply index_txns_keeps|by apply IH].
Qed.

Lemma synth_receipts_keeps synth proof start end_ i produced (b b' : Batch) : synth_receipts synth proof start end_ i produced b = Ok b' -> keeps b b'.
Proof.
  revert i b. induction produced as [|txn produced IH]; intros i b; cbn [synth_receipts]; [by intros [= <-]|].
  destruct (negb _); [done|]. destruct (wrapf (Chain_Receipt _ _ _) _); cbn [res_bind]; [|done|done]. destruct (wrapf (Receipt_Combine _ _) _); cbn [res_bind]; [|done|done].
  intros Hi. etrans; [|by eapply IH]. by apply PutStatus_keeps.
Qed.

Lemma local_receipts_keeps synth proof offset height i produced (b b' : Batch) : local_receipts synth proof offset height i produced b = Ok b' -> keeps b b'.
Proof.
  revert i b. induction produced as [|txn produced IH]; intros i b; cbn [local_receipts]; [by intros [= <-]|].
  destruct (p_system txn); [apply IH|]. destruct (wrapf (Chain_Receipt _ _ _) _); cbn [res_bind]; [|done|done]. destruct (wrapf (Receipt_Combine _ _) _); cbn [res_bind]; [|done|done].
  intros Hi. etrans; [|by eapply IH]. done.
Qed.

Lemma createLocalDNReceipt_keeps synth produced sa (b b' : Batch) : createLocalDNReceipt ledger synth produced sa b = Ok b' -> keeps b b'.
Proof.
  unfold createLocalDNReceipt. destruct (Chain_Height _); cbn [res_bind]; [|done|done]. destruct (wrapf (Chain_Receipt _ _ _) _); cbn [res_bind]; [|done|done].
  destruct (wrapf (Chain2_Get _ _) _) as [b1| |] eqn:E; cbn [res_bind]; [|done|done]. apply wrapf_Ok in E. destruct (Chain_Height _); cbn [res_bind]; [|done|done].
  intros Hl. etrans; [eapply Chain2_Get_keeps; by rewrite E|by eapply local_receipts_keeps].
Qed.

Lemma buildSynthReceipt_keeps synth produced ra sa (b b' : Batch) : buildSynthReceipt ledger synth produced ra sa b = Ok b' -> keeps b b'.
Proof.
  unfold buildSynthReceipt. destruct (wrapf (Chain2_Get _ _) _) as [b1| |] eqn:E1; cbn [res_bind]; [|done|done]. apply wrapf_Ok in E1. destruct (wrapf (Chain_Receipt _ _ _) _); cbn [res_bind]; [|done|done].
  destruct (wrapf (Chain2_Get _ _) _) as [b2| |] eqn:E2; cbn [res_bind]; [|done|done]. apply wrapf_Ok in E2. destruct (Chain_Height _); cbn [res_bind]; [|done|done].
  intros Hl. etrans; [eapply Chain2_Get_keeps; by rewrite E1|]. etrans; [eapply Chain2_Get_keeps; by rewrite E2|by eapply synth_receipts_keeps].
Qed.

(** What the end of a block does: [R] is the number of its root index entry. *)
Record block_done (block : Block) (b : Batch) (v : AC -> list bytes) (ix : AC -> list IndexEntry) (n : Z)
    (b' : Batch) (v' : AC -> list bytes) (ix' : AC -> list IndexEntry) : Prop := {
  d_holds : holds b' v' ix';
  d_linked : linked ledger v' ix' (b_txchains b');
  d_chains a : a <> root -> a <> major -> v' a = v a;
  d_major : zlen (v' major) <= zlen (v major) + 1;
  d_grows : grows v v';
  d_igrows : igrows ix ix';
  d_room : room ledger n v' ix';
  d_root : v' root <> [];
  d_index : ix' root = ix root ++ [root_index_entry ledger v' (Block_Index block) (Block_Time block)];
  d_listed e account chain c h : e ∈ Entries (Updates block) -> ~ skipped ledger e -> updates ledger v e account chain c h ->
    listed (zlen (ix root)) (b_txchains b') h account chain;
  d_cover e account chain c h : e ∈ Entries (Updates block) -> ~ skipped ledger e -> updates ledger v e account chain c h ->
    exists e', e' ∈ ix' (AccountID32 account, c) /\ IndexEntry_Source e' = zlen (v' (AccountID32 account, c)) - 1;
  d_keep R h account chain : R <= zlen (ix root) -> listed R (b_txchains b) h account chain -> listed R (b_txchains b') h account chain;
  d_proved : Forall (fun txn => proved (Some (mth (v' root))) b' (p_hash txn)) (ProducedTxns block);
  d_local : IsDirectory d = true ->
    exists l, b_receipts b' = b_receipts b ++ l /\
      Forall2 (receipt_for (Some (mth (v' root)))) (filter (fun txn => p_system txn = false) (ProducedTxns block)) l;
  d_origin h : origin (b_status b' h) = origin (b_status b h);
  d_synth : 0 < zlen (ProducedTxns block) -> untouched ledger v (Entries (Updates block)) (ac sc) ->
    b_synth b' (Block_Index block) = Some (zlen (ix (ac sc))) /\ exists e, ix' (ac sc) = ix (ac sc) ++ [e] /\ IndexEntry_Source e = zlen (v (ac sc)) - 1
}.

(** The chains whose entries are listed with their transactions: all but the root chain, the chain
    of major blocks and the chains of produced transactions. *)
Definition listed_chain (a : AC) : Prop :=
  a <> root /\ a <> major /\ a <> ac sc /\ forall p, a <> (AccountID32 (Synthetic d), SyntheticSequenceChain p).

Lemma listed_account a : snd a <> RootChain -> snd a <> MajorBlockChain -> fst a <> AccountID32 (Synthetic d) -> listed_chain a.
Proof.
  intros H1 H2 H3. split; [intros E; apply H1; rewrite E; reflexivity|]. split; [intros E; apply H2; rewrite E; reflexivity|].
  split; [intros E; apply H3; rewrite E; reflexivity|]. intros p E. apply H3. rewrite E. reflexivity.
Qed.

(** Two accounts with the same key are listed together. *)
Lemma update_key_compare account chain account0 chain0 c c0 :
  named account chain c -> named account0 chain0 c0 -> update_key account chain = update_key account0 chain0 -> Compare account0 account = 0.
Proof.
  intros (_ & _ & Hs) (_ & _ & Hs0) E. apply (cut_last _ _ _ _ _ Hs Hs0) in E as [El _]. unfold Compare. rewrite El. apply (compare_refl bytes_compare).
Qed.

Lemma listed_same R tx h account account0 chain : Compare account0 account = 0 -> listed R tx h account0 chain -> listed R tx h account chain.
Proof.
  intros E (te & Hin & Hc & HR). exists te. split; [done|]. split; [|done].
  change (equiv_ TransactionChainEntry_Compare te (Build_TransactionChainEntry (Some account) chain 0 0 [])).
  etrans; [exact Hc|]. unfold equiv_, TransactionChainEntry_Compare. cbn [TransactionChainEntry_Account TransactionChainEntry_Chain compare_option].
  rewrite E. cbn. apply (compare_refl bytes_compare).
Qed.

Lemma Ledger_Synthetic_ne : ac sc <> root.
Proof. done. Qed.

(** The index entry of a major block. *)
Lemma updateMajorIndexChains_ok block R b v ix :
  holds b v ix -> linked ledger v ix (b_txchains b) -> 0 <= R < 2 ^ 42 \/ MakeMajorBlock block = 0 ->
  MakeMajorBlock block = 0 \/
    (0 < MakeMajorBlock block < 2 ^ 42 /\ 0 < zlen (v anchors) < 2 ^ 42 /\ time_range (MakeMajorBlockTime block) /\ zlen (v major) + 1 < 2 ^ 62) ->
  exists b' v', updateMajorIndexChains d block R b = Ok b' /\ holds b' v' ix /\ linked ledger v' ix (b_txchains b') /\ rest b' = rest b /\
    grows v v' /\ (forall a, a <> major -> v' a = v a) /\ zlen (v' major) <= zlen (v major) + 1.
Proof.
  intros Hb Hl HR Hm. unfold updateMajorIndexChains. destruct (Z.eqb_spec (MakeMajorBlock block) 0) as [E|E].
  { exists b, v. do 4 (split; [done|]). split; [intros ?; done|]. split; [done|lia]. }
  destruct Hm as [?|(Hmb & Ha & Ht & Hmaj)]; [done|]. destruct HR as [HR|?]; [|done].
  destruct (Chain2_Get_ok (mkChain2 (AnchorPool d) MainChain false) b v ix Hb) as (b1 & -> & Hb1 & Hr1). cbn [wrapf res_bind].
  rewrite (holds_Height (mkChain2 (AnchorPool d) MainChain false) b1 v ix Hb1 eq_refl). cbn [res_bind].
  rewrite u64_small by (unfold is_u64; lia). rewrite addIndexChainEntry_truncate. set (e := Build_IndexEntry _ _ _ _ _ _). set (mc := mkChain2 (AnchorPool d) MajorBlockChain false).
  unfold addIndexChainEntry. destruct (Chain2_Get_ok mc b1 v ix Hb1) as (b2 & -> & Hb2 & Hr2). cbn [res_bind].
  destruct (IndexEntry_size e) as (data & -> & Hd).
  { subst e. unfold IndexEntry_ok, is_u64. ie_cbn. repeat apply conj; try (by intros x [= <-]; auto with go); done || lia. }
  { right. subst e. ie_cbn. split_and!; [done|lia|lia|lia]. }
  cbn [res_bind]. destruct (chain_add_entry_ok mc data false b2 v ix Hb2 eq_refl Hd Hmaj) as (b3 & -> & Hr3 & Hb3).
  rewrite decide_False in Hb3 by (intros [? _]; done). cbn [res_bind].
  rewrite (holds_Height mc b3 _ _ Hb3 eq_refl). cbn [wrapf res_bind]. eexists _, _. split; [done|]. split; [exact Hb3|].
  assert (Hr : rest b3 = rest b) by congruence. injection Hr as Et _ _ _ _. rewrite Et.
  split; [eapply linked_mono; [apply grows_app|done]|]. split; [congruence|]. split; [apply grows_app|].
  split; [intros a Hne; by rewrite fn_lookup_insert_ne|]. rewrite fn_lookup_insert, zlen_app. change (zlen [_]) with 1. lia.
Qed.

(** Anchoring the synthetic transactions. *)
Lemma synth_phase_ok block (b : Batch) v ix chains done_ n :
  progress ledger b v ix chains done_ -> room ledger (n + 1) v ix -> 0 <= n -> 0 < Block_Index block < 2 ^ 63 ->
  zlen (ProducedTxns block) <= zlen (v (ac sc)) ->
  exists si sa (b' : Batch) v' ix',
    (if 0 <? zlen (ProducedTxns block) then
      let! synthAnchorIndex := Chain_Height (get_chain (rootChain ledger) b) in
      let! (synthIndexIndex, _, b) := anchorSynthChain ledger (Synthetic d) (Block_Index block) (Updates block) b in
      Ok (synthIndexIndex, u64 synthAnchorIndex, b)
    else Ok (0, 0, b)) = Ok (si, sa, b') /\
    progress ledger b' v' ix' chains done_ /\ only_root ledger v v' /\ igrows ix ix' /\ room ledger n v' ix' /\ ix' root = ix root /\
    b_txchains b' = b_txchains b /\ b_status b' = b_status b /\ b_receipts b' = b_receipts b /\
    (0 < zlen (ProducedTxns block) -> 0 <= sa < 2 ^ 62 /\ v' root !! Z.to_nat sa = Some (mth (v (ac sc)))) /\
    (0 < zlen (ProducedTxns block) -> b_synth b' (Block_Index block) = Some (zlen (ix (ac sc))) /\
      exists e, ix' (ac sc) = ix (ac sc) ++ [e] /\ IndexEntry_Source e = zlen (v (ac sc)) - 1).
Proof.
  intros Hp Hroom Hn Hbi Hlen. destruct (Z.ltb_spec 0 (zlen (ProducedTxns block))) as [Hlt|Hge].
  2:{ exists 0, 0, b, v, ix. do 2 (split; [done|]). split; [split; done|]. split; [intros ?; done|]. split; [eapply room_le; [|done]; lia|]. do 4 (split; [done|]). split; intros ?; exfalso; lia. }
  pose proof Hp as [Hb Hl _ _]. rewrite (holds_Height (rootChain ledger) b v ix Hb eq_refl). cbn [res_bind].
  unfold anchorSynthChain. pose proof Hroom as [Hr1 Hr2]. specialize (Hr2 (ac sc)).
  destruct (addChainAnchor_ok ledger sc (Block_Index block) b v ix (b_txchains b) Hb Hl) as (b1 & -> & Hr & Hb1 & Hl1); try done; try lia.
  { intros E. rewrite E in Hlen. change (zlen []) with 0 in Hlen. lia. }
  cbn [res_bind]. injection Hr as Et Es _ _ Er. set (v' := <[root := _]> v) in *. set (ix' := <[ac sc := _]> ix) in *.
  assert (Hor : only_root ledger v v') by apply only_root_app. assert (Hig : igrows ix ix') by apply igrows_app.
  eexists _, _, _, v', ix'. split; [done|]. split.
  { eapply progress_mono; [exact Hor|exact Hig| | |exact Hp]; [by destruct Hb1|]. unfold set_synth. cbn [b_txchains]. by rewrite Et. }
  split; [done|]. split; [done|]. split; [by apply room_step|]. split; [unfold ix'; by rewrite fn_lookup_insert_ne|].
  do 3 (split; [done|]). split.
  2:{ intros _. split; [by cbn [b_synth set_synth]; rewrite fn_lookup_insert|]. eexists. unfold ix'. by rewrite fn_lookup_insert. }
  intros _. pose proof (zlen_nonneg (v root)). change (ac (rootChain ledger)) with root. rewrite u64_small by (unfold is_u64; lia). split; [lia|].
  unfold v', zlen. by rewrite fn_lookup_insert, Nat2Z.id, lookup_app_r, Nat.sub_diag by lia.
Qed.

(** The index entry of the root chain. *)
Lemma root_index_ok block (b : Batch) v ix :
  holds b v ix -> linked ledger v ix (b_txchains b) -> v root <> [] -> 0 < Block_Index block < 2 ^ 63 -> time_range (Block_Time block) ->
  zlen (ix root) + 1 < 2 ^ 62 ->
  let ix' := <[root := ix root ++ [root_index_entry ledger v (Block_Index block) (Block_Time block)]]> ix in
  exists b', addIndexChainEntry (mkChain2 ledger RootChain true) (root_index_entry ledger v (Block_Index block) (Block_Time block)) b = Ok (zlen (ix root), b') /\
    rest b' = rest b /\ holds b' v ix' /\ linked ledger v ix' (b_txchains b').
Proof.
  intros Hb Hl Hne Hbi Ht Hx ix'. pose proof (h_small _ _ _ Hb root) as Hsm.
  assert (Hpos : 0 < zlen (v root)) by (unfold zlen; destruct (v root); [done|cbn [length]; lia]).
  destruct (addIndexChainEntry_ok (mkChain2 ledger RootChain true) (root_index_entry ledger v (Block_Index block) (Block_Time block)) b v ix Hb eq_refl)
    as (b' & E & Hr & Hb'); [| | |done|].
  - unfold IndexEntry_ok, root_index_entry, is_u64. ie_cbn. repeat apply conj; try (by intros x [= <-]; auto with go); done || lia.
  - unfold entry_fields, root_index_entry. ie_cbn. by intros [=].
  - left. unfold root_index_entry. ie_cbn. split_and!; [done|lia|lia|]. by right.
  - exists b'. do 3 (split; [done|]). injection Hr as -> _ _ _ _. apply linked_index; [done|done|done|done].
Qed.

(** The receipt of the anchor of the synthetic chain. *)
Lemma synth_root_receipt (b : Batch) v ix sa :
  holds b v ix -> 0 <= sa -> v root !! Z.to_nat sa = Some (mth (v (ac sc))) ->
  exists r, Chain_Receipt sa (zlen (v root) - 1) (get_chain (rootChain ledger) b) = Ok r /\
    Validate r = true /\ Start r = Some (mth (v (ac sc))) /\ Receipt.Anchor r = Some (mth (v root)).
Proof.
  intros Hb H1 H2. pose proof (lookup_lt_Some _ _ _ H2) as Hsl.
  destruct (Receipt_ok (get_chain (rootChain ledger) b) (v root) sa (zlen (v root) - 1)) as (r & x & Hx & E & Hv & Hst & Ha);
    [exact (holds_get (rootChain ledger) b v ix Hb eq_refl)|apply (h_small _ _ _ Hb)|unfold zlen; lia|lia|].
  rewrite H2 in Hx. injection Hx as <-. rewrite take_ge in Ha by (unfold zlen; lia). by exists r.
Qed.

(** The receipts that a directory node stores as signatures. *)
Lemma createLocalDNReceipt_ok produced (b : Batch) v ix sa :
  holds b v ix -> zlen produced <= zlen (v (ac sc)) -> on_chain (Synthetic d) v (zlen (v (ac sc)) - zlen produced) produced ->
  0 <= sa < 2 ^ 62 -> v root !! Z.to_nat sa = Some (mth (v (ac sc))) ->
  exists b', createLocalDNReceipt ledger (Synthetic d) produced sa b = Ok b' /\ holds b' v ix /\
    b_txchains b' = b_txchains b /\ b_status b' = b_status b /\
    exists l, b_receipts b' = b_receipts b ++ l /\ Forall2 (receipt_for (Some (mth (v root)))) (filter (fun txn => p_system txn = false) produced) l.
Proof.
  intros Hb Hlen Hon Hsa Hsl. unfold createLocalDNReceipt.
  rewrite (holds_Height (rootChain ledger) b v ix Hb eq_refl). cbn [res_bind]. rewrite i64_small by (unfold is_i64; lia).
  destruct (synth_root_receipt b v ix sa Hb ltac:(lia) Hsl) as (r & E & V & Es & Ea). change (ac (rootChain ledger)) with root. rewrite E. cbn [wrapf res_bind].
  destruct (Chain2_Get_ok sc b v ix Hb) as (b1 & -> & Hb1 & Hr1). cbn [wrapf res_bind].
  rewrite (holds_Height sc b1 v ix Hb1 eq_refl). cbn [res_bind]. injection Hr1 as Et1 Es1 _ _ Er1.
  destruct (local_receipts_ok (Synthetic d) r (zlen (v (ac sc)) - zlen produced) produced v ix 0 b1 Hb1 V Es) as
    (b2 & l & -> & Hb2 & Et2 & Es2 & Er2 & HF); [lia|by rewrite Z.add_0_r|].
  rewrite Ea in HF. exists b2. do 2 (split; [done|]). split; [congruence|]. split; [congruence|]. exists l. split; [congruence|done].
Qed.

(** The receipts stored with the statuses. *)
Lemma buildSynthReceipt_ok produced (b : Batch) v ix sa :
  holds b v ix -> zlen produced <= zlen (v (ac sc)) -> on_chain (Synthetic d) v (zlen (v (ac sc)) - zlen produced) produced ->
  0 <= sa < 2 ^ 62 -> v root !! Z.to_nat sa = Some (mth (v (ac sc))) ->
  Forall (fun txn => is_initialized (b_status b (p_hash txn)) = true) produced ->
  exists b', buildSynthReceipt ledger (Synthetic d) produced (zlen (v root) - 1) sa b = Ok b' /\ holds b' v ix /\
    b_txchains b' = b_txchains b /\ b_receipts b' = b_receipts b /\ Forall (fun txn => proved (Some (mth (v root))) b' (p_hash txn)) produced.
Proof.
  intros Hb Hlen Hon Hsa Hsl Hin. unfold buildSynthReceipt.
  destruct (Chain2_Get_ok (rootChain ledger) b v ix Hb) as (b2 & -> & Hb2 & Hr2). cbn [wrapf res_bind].
  destruct (synth_root_receipt b2 v ix sa Hb2 ltac:(lia) Hsl) as (r & -> & V & Es & Ea). cbn [wrapf res_bind].
  destruct (Chain2_Get_ok sc b2 v ix Hb2) as (b3 & -> & Hb3 & Hr3). cbn [wrapf res_bind].
  rewrite (holds_Height sc b3 v ix Hb3 eq_refl). cbn [res_bind]. injection Hr2 as Et2 Es2 _ _ Er2. injection Hr3 as Et3 Es3 _ _ Er3.
  destruct (synth_receipts_ok (Synthetic d) r (zlen (v (ac sc)) - zlen produced) produced v ix 0 b3 Hb3 V Es) as
    (b4 & -> & Hb4 & Et4 & Er4 & _ & HF); [lia|done|by rewrite Es3, Es2|].
  rewrite Ea in HF. exists b4. do 2 (split; [done|]). split; [congruence|]. split; [congruence|done].
Qed.

(** The receipts of the produced transactions. *)
Lemma receipts_phase_ok block (b : Batch) v ix sa :
  holds b v ix -> zlen (ProducedTxns block) <= zlen (v (ac sc)) ->
  on_chain (Synthetic d) v (zlen (v (ac sc)) - zlen (ProducedTxns block)) (ProducedTxns block) ->
  Forall (fun txn => is_initialized (b_status b (p_hash txn)) = true) (ProducedTxns block) ->
  (0 < zlen (ProducedTxns block) -> 0 <= sa < 2 ^ 62 /\ v root !! Z.to_nat sa = Some (mth (v (ac sc)))) ->
  exists b',
    (if 0 <? zlen (ProducedTxns block) then
      let! b := if IsDirectory d then createLocalDNReceipt ledger (Synthetic d) (ProducedTxns block) sa b else Ok b in
      let! rootHeight := Chain_Height (get_chain (rootChain ledger) b) in
      buildSynthReceipt ledger (Synthetic d) (ProducedTxns block) (rootHeight - 1) (i64 sa) b
    else Ok b) = Ok b' /\ holds b' v ix /\ b_txchains b' = b_txchains b /\
    Forall (fun txn => proved (Some (mth (v root))) b' (p_hash txn)) (ProducedTxns block) /\
    (IsDirectory d = true -> exists l, b_receipts b' = b_receipts b ++ l /\
      Forall2 (receipt_for (Some (mth (v root)))) (filter (fun txn => p_system txn = false) (ProducedTxns block)) l).
Proof.
  intros Hb Hlen Hon Hin Hsa. destruct (Z.ltb_spec 0 (zlen (ProducedTxns block))) as [Hlt|Hge].
  2:{ assert (ProducedTxns block = []) as ->. { destruct (ProducedTxns block); [done|]. rewrite zlen_cons in Hge. pose proof (zlen_nonneg l). lia. }
      exists b. do 3 (split; [done|]). split; [done|]. intros _. exists []. split; [by rewrite app_nil_r|constructor]. }
  destruct (Hsa Hlt) as [Hsa1 Hsa2]. rewrite i64_small by (unfold is_i64; lia). destruct (IsDirectory d).
  - destruct (createLocalDNReceipt_ok (ProducedTxns block) b v ix sa) as (b1 & -> & Hb1 & Et1 & Es1 & l & El & HFl); [done..|]. cbn [res_bind].
    rewrite (holds_Height (rootChain ledger) b1 v ix Hb1 eq_refl). cbn [res_bind].
    destruct (buildSynthReceipt_ok (ProducedTxns block) b1 v ix sa) as (b2 & E & Hb2 & Et2 & Er2 & HF); try done; [by rewrite Es1|].
    exists b2. do 2 (split; [done|]). split; [congruence|]. split; [done|]. intros _. exists l. split; [congruence|done].
  - cbn [res_bind]. rewrite (holds_Height (rootChain ledger) b v ix Hb eq_refl). cbn [res_bind].
    destruct (buildSynthReceipt_ok (ProducedTxns block) b v ix sa) as (b2 & E & Hb2 & Et2 & Er2 & HF); try done. by exists b2.
Qed.

Lemma receipts_phase_keeps block sa (b b' : Batch) :
  (if 0 <? zlen (ProducedTxns block) then
    let! b := if IsDirectory d then createLocalDNReceipt ledger (Synthetic d) (ProducedTxns block) sa b else Ok b in
    let! rootHeight := Chain_Height (get_chain (rootChain ledger) b) in
    buildSynthReceipt ledger (Synthetic d) (ProducedTxns block) (rootHeight - 1) (i64 sa) b
  else Ok b) = Ok b' -> keeps b b'.
Proof.
  destruct (0 <? _); [|by intros [= <-]]. destruct (IsDirectory d).
  - destruct (createLocalDNReceipt _ _ _ _ _) eqn:E1; cbn [res_bind]; [|done|done]. destruct (Chain_Height _); cbn [res_bind]; [|done|done].
    intros E2. etrans; [by eapply createLocalDNReceipt_keeps|by eapply buildSynthReceipt_keeps].
  - cbn [res_bind]. destruct (Chain_Height _); cbn [res_bind]; [|done|done]. apply buildSynthReceipt_keeps.
Qed.

Lemma anchor_block_ok (block : Block) (b : Batch) v ix n :
  holds b v ix -> linked ledger v ix (b_txchains b) -> block_ok block v ix (b_status b) n ->
  exists chains si sa b' v' ix', anchor_block d block b = Ok (chains, si, sa, zlen (ix root), b') /\
    progress ledger b' v' ix' chains (Entries (Updates block)) /\ only_root ledger v v' /\ igrows ix ix' /\ room ledger n v' ix' /\
    v' root <> [] /\ ix' root = ix root ++ [root_index_entry ledger v' (Block_Index block) (Block_Time block)] /\
    b_txchains b' = b_txchains b /\ b_status b' = b_status b /\ b_receipts b' = b_receipts b /\
    (0 < zlen (ProducedTxns block) -> 0 <= sa < 2 ^ 62 /\ v' root !! Z.to_nat sa = Some (mth (v (ac sc)))) /\
    (0 < zlen (ProducedTxns block) -> untouched ledger v (Entries (Updates block)) (ac sc) -> b_synth b' (Block_Index block) = Some (zlen (ix (ac sc))) /\
      exists e, ix' (ac sc) = ix (ac sc) ++ [e] /\ IndexEntry_Source e = zlen (v (ac sc)) - 1).
Proof.
  intros Hb Hl [K1 K2 K3 K4 K5 K6 K7 K8 K9 K10 K11]. unfold anchor_block.
  destruct (Chain2_Get_ok (rootChain ledger) b v ix Hb) as (b0 & -> & Hb0 & Hr0). cbn [wrapf res_bind].
  assert (Hp0 : progress ledger b0 v ix ∅ []).
  { split; [done| |by intros k u Hk; rewrite lookup_empty in Hk|by intros e ? ? ? ? He; apply not_elem_of_nil in He]. injection Hr0 as -> _ _ _ _. done. }
  destruct (process_updates_ok ledger (Entries (Updates block)) b0 v ix ∅ [] (n + 2) (Block_Index block) Hp0 K3) as
    (chains & b1 & v1 & ix1 & -> & Hr1 & Hp1 & Ho1 & Hi1 & Hroom1 & Ex1 & Hf1); [done|lia|done|]. cbn [res_bind app] in *.
  set (b1' := set_block _ _ b1). assert (Hp1' : progress ledger b1' v1 ix1 chains (Entries (Updates block))) by (destruct Hp1 as [[] ? ? ?]; by split).
  destruct (synth_phase_ok block b1' v1 ix1 chains (Entries (Updates block)) (n + 1) Hp1') as
    (si & sa & b2 & v2 & ix2 & -> & Hp2 & Ho2 & Hi2 & Hroom2 & Ex2 & Et2 & Es2 & Er2 & Hsa & Hsy);
    [by replace (n + 1 + 1) with (n + 2) by lia|lia|done|by rewrite (proj2 Ho1)|]. cbn [res_bind].
  pose proof (only_root_trans ledger _ _ _ Ho1 Ho2) as Ho. pose proof (igrows_trans _ _ _ Hi1 Hi2) as Hi.
  assert (Hne : v2 root <> []).
  { destruct K6 as [Hne|[(e & He & Hs)|Hpr]]; [| |destruct (Hsa Hpr) as [_ Hsr]; intros E; by rewrite E in Hsr].
    - intros E. destruct (proj1 Ho) as [k Ek]. rewrite E in Ek. by destruct (v root).
    - eapply root_nonempty; [exact Hp2|done|done|]. eapply update_ok_stable; [exact Ho|]. rewrite Forall_forall in K3. by apply K3. }
  rewrite (Index_ok (rootChain ledger) (root_indexable ledger)). cbn [res_bind]. pose proof Hp2 as [Hb2 Hl2 Hc2 Hd2].
  rewrite (holds_Height (rootChain ledger) b2 v2 ix2 Hb2 eq_refl). cbn [res_bind]. change (ac (rootChain ledger)) with root.
  pose proof (h_small _ _ _ Hb2 root) as Hsm. assert (Hpos : 0 < zlen (v2 root)) by (unfold zlen; destruct (v2 root); [done|cbn [length]; lia]).
  rewrite u64_small by (unfold is_u64; lia). rewrite addIndexChainEntry_truncate. fold (root_index_entry ledger v2 (Block_Index block) (Block_Time block)).
  destruct (root_index_ok block b2 v2 ix2 Hb2 Hl2 Hne K1 K2) as (b3 & E3 & Hr3 & Hb3 & Hl3); [destruct Hroom2 as [_ Hx]; specialize (Hx root); lia|].
  cbn [rootChain c2_Account c2_chain]. rewrite E3. cbn [wrapf res_bind]. set (ix3 := <[root := _]> ix2) in *.
  assert (Er3 : ix3 root = ix root ++ [root_index_entry ledger v2 (Block_Index block) (Block_Time block)]).
  { unfold ix3. by rewrite fn_lookup_insert, Ex2, Ex1. }
  assert (Hi3 : igrows ix2 ix3) by apply igrows_app.
  injection Hr0 as Et0 Es0 _ _ Er0. injection Hr1 as Et1 Es1 _ _ Er1. injection Hr3 as Et3 Es3 Ey3 _ Er3'.
  exists chains, si, sa, b3, v2, ix3. split; [by rewrite Ex2, Ex1|].
  split; [eapply progress_mono; [split; done|exact Hi3|done|done|exact Hp2]|].
  split; [done|]. split; [by eapply igrows_trans|]. split.
  { destruct Hroom2 as [Hr Hx]. split; [lia|]. intros a. specialize (Hx a). unfold ix3. destruct (decide (root = a)) as [<-|]; [|rewrite fn_lookup_insert_ne by done; lia].
    rewrite fn_lookup_insert, zlen_app. change (zlen [_]) with 1. lia. }
  split; [done|]. split; [done|]. split; [by rewrite Et3, Et2, <- Et0, <- Et1|]. split; [by rewrite Es3, Es2, <- Es0, <- Es1|]. split; [by rewrite Er3', Er2, <- Er0, <- Er1|].
  split; [intros Hlt; destruct (Hsa Hlt) as [? Hs']; split; [done|]; by rewrite (proj2 Ho1) in Hs'|].
  intros Hlt Hun. destruct (Hsy Hlt) as (Ey & e & Ee & Esr). rewrite Ey3, Ey, (Hf1 _ Hun). split; [done|]. exists e. unfold ix3. rewrite fn_lookup_insert_ne by done.
  rewrite Ee, (Hf1 _ Hun), Esr. split; [done|]. by rewrite (proj2 Ho1).
Qed.

Lemma EndBlock_ok (block : Block) (order : gmap bytes chainUpdate -> list bytes) (b : Batch) v ix n :
  holds b v ix -> linked ledger v ix (b_txchains b) -> block_ok block v ix (b_status b) n ->
  (forall m, order m ≡ₚ (map_to_list m).*1) ->
  exists b' v' ix', EndBlock d block order b = Ok b' /\ block_done block b v ix n b' v' ix'.
Proof.
  intros Hb Hl Hok Hord. destruct (anchor_block_ok block b v ix n Hb Hl Hok) as
    (chains & si & sa & b1 & v1 & ix1 & Ea & [Hb1 Hl1 Hc1 Hd1] & Ho & Hi & Hroom & Hne & Hix & Et & Es & Er & Hsa & Hsy).
  destruct Hok as [K1 K2 K3 K4 K5 K6 K7 K8 K9 K10 K11]. unfold EndBlock. rewrite Ea. cbn [res_bind]. pose proof (zlen_nonneg (ix root)) as Hpos.
  destruct (index_updates_ok ledger (zlen (ix root)) (root_index_entry ledger v1 (Block_Index block) (Block_Time block))
    (omap (fun k => chains !! k) (order chains)) b1 v1 ix1 Hb1 Hl1) as (b2 & Eu & Hb2 & Hl2 & Hnew & Hkeep & Es2 & Er2); [done| |done| |].
  { rewrite Hix. unfold zlen. by rewrite Nat2Z.id, lookup_app_r, Nat.sub_diag by lia. }
  { apply Forall_forall. intros u (k & _ & Hk)%list_elem_of_omap. exists k. by apply Hc1. }
  rewrite Eu. cbn [res_bind]. rewrite K7. cbn [index_synth res_bind].
  destruct (receipts_phase_ok block b2 v1 ix1 sa Hb2) as (b3 & Ep & Hb3 & Et3 & Hpr & Hlo); [by rewrite (proj2 Ho)|..].
  { intros i txn Hi'. rewrite !(proj2 Ho) by done. by apply K8. }
  { by rewrite Es2, Es. }
  { rewrite (proj2 Ho (ac sc)) by done. done. }
  rewrite Ep. pose proof (index_updates_keeps _ _ _ _ Eu) as Hk2. pose proof (receipts_phase_keeps _ _ _ _ Ep) as Hk3.
  cbn [res_bind]. destruct (updateMajorIndexChains_ok block (zlen (ix root)) b3 v1 ix1 Hb3) as (b4 & v4 & -> & Hb4 & Hl4 & Hr4 & Hg & Hv4 & Hv0).
  { by rewrite Et3. }
  { destruct K11 as [?|(_ & _ & ? & _)]; [by right|left; lia]. }
  { rewrite !(proj2 Ho) by done. destruct K11 as [?|(? & ? & _ & ? & ?)]; [by left|by right]. }
  pose proof (keeps_rest _ _ Hr4) as Hk4. injection Hr4 as Et4 Es4 _ _ Er4. assert (Eroot : v4 root = v1 root) by (apply Hv4; done).
  exists b4, v4, ix1. split; [done|]. split; try done.
  - intros a Ha Hm. by rewrite Hv4, (proj2 Ho).
  - by rewrite <- (proj2 Ho major).
  - intros a. etrans; [apply (only_root_grows ledger _ _ Ho)|apply Hg].
  - destruct Hroom. split; [by rewrite Eroot|done].
  - by rewrite Eroot.
  - unfold root_index_entry. by rewrite Eroot, Hix.
  - intros e account chain c h He Hs Hu. rewrite Et4, Et3. apply (updates_stable ledger v v1) in Hu; [|done].
    destruct (Hd1 e account chain c h He Hs Hu) as (u & Hk & Ht). destruct (Hc1 _ _ Hk) as (account0 & chain0 & c0 & e0 & A1 & A2 & A3 & A4 & _).
    destruct Hu as (_ & _ & Hn & _). apply (listed_same _ _ _ _ account0); [by eapply update_key_compare|].
    rewrite <- (proj1 (proj2 (update_key_inj _ _ _ _ _ _ Hn A4 A3))) in A2. rewrite <- A2. apply Hnew; [|done|done].
    apply list_elem_of_omap. exists (update_key account chain). split; [|done]. rewrite Hord. apply list_elem_of_fmap. exists (update_key account chain, u).
    split; [done|]. by apply elem_of_map_to_list.
  - intros e account chain c h He Hs Hu. apply (updates_stable ledger v v1) in Hu; [|done]. pose proof Hu as (_ & _ & Hn & Hm & _).
    destruct (Hd1 e account chain c h He Hs Hu) as (u & Hk & _). destruct (Hc1 _ _ Hk) as (account0 & chain0 & c0 & e0 & _ & _ & A3 & A4 & _ & _ & _ & _ & A9 & A10 & _).
    destruct (update_key_inj _ _ _ _ _ _ Hn A4 A3) as (Eid & _ & <-). rewrite Eid. exists e0. split; [by eapply list_elem_of_lookup_2|]. rewrite Hv4; [done|].
    intros E. unfold ac in E. cbn [c2_Account c2_chain] in E. congruence.
  - intros R h account chain HR HL. rewrite Et4, Et3. apply Hkeep; [done|]. by rewrite Et.
  - rewrite Eroot. eapply Forall_impl; [exact Hpr|]. intros txn (r & E & Hr). exists r. by rewrite Es4.
  - rewrite Eroot. intros Hdir. destruct (Hlo Hdir) as (l & El & HF). exists l. split; [|done]. by rewrite Er4, El, Er2, Er.
  - intros h. by rewrite (proj2 Hk4), (proj2 Hk3), (proj2 Hk2), Es.
  - intros Hlt Hun. destruct (Hsy Hlt Hun) as [E1 E2]. split; [by rewrite (proj1 Hk4), (proj1 Hk3), (proj1 Hk2)|exact E2].
Qed.

(** ** Runs of blocks *)

Fixpoint add_entries (adds : list (Chain2 * bytes)) (c : ChainUpdates) (b : Batch) : res (ChainUpdates * Batch) :=
  match adds with
  | [] => Ok (c, b)
  | (chain, entry) :: adds => let! (c, b) := AddChainEntry chain entry c b in add_entries adds c b
  end.

(** The entries are hashes, added to chains of accounts other than the ledgers. *)
Definition add_ok (x : Chain2 * bytes) : Prop :=
  let c := fst x in
  indexable c /\ named (c2_Account c) (to_string (Name c)) (c2_chain c) /\ AccountID32 (c2_Account c) <> AccountID32 ledger /\
  is_synthetic_ledger (c2_Account c) = false /\ length (snd x) = 32%nat.

Definition all_room (n : Z) (v : AC -> list bytes) : Prop := forall a, zlen (v a) + n < 2 ^ 62.

(** The updates of the block so far: every entry that is not among [v0] is one of them. *)
Record adding (v0 v : AC -> list bytes) (c : ChainUpdates) : Prop := {
  ad_grows : grows v0 v;
  ad_root : v root = v0 root;
  ad_updates : Forall (update_ok ledger v) (Entries c);
  ad_synth : SynthEntries c = [];
  ad_grown a : listed_chain a -> v a = v0 a \/ exists e account chain ch h, e ∈ Entries c /\ ~ skipped ledger e /\
    updates ledger v e account chain ch h /\ a = (AccountID32 account, ch);
  ad_new a h : listed_chain a -> h ∈ v a -> h ∈ v0 a \/ exists e account chain ch, e ∈ Entries c /\ ~ skipped ledger e /\
    updates ledger v e account chain ch h /\ a = (AccountID32 account, ch)
}.

Lemma updates_grow v v' e account chain c h : grows v v' -> updates ledger v e account chain c h -> updates ledger v' e account chain c h.
Proof. intros Hg (?&?&?&?&?&?&Hl). do 6 (split; [done|]). by eapply prefix_lookup_Some. Qed.

Lemma update_ok_grow v v' e : grows v v' -> update_ok ledger v e -> update_ok ledger v' e.
Proof. intros Hg [?|(account & chain & c & h & Hu)]; [by left|]. right. exists account, chain, c, h. by eapply updates_grow. Qed.

(** Other chains may grow as well. *)
Lemma adding_other v0 v v' c : adding v0 v c -> grows v v' -> v' root = v root -> (forall a, listed_chain a -> v' a = v a) -> adding v0 v' c.
Proof.
  intros [Hg Hr Hu Hs Hgr Hn] Hg' Hr' He. split; try done.
  - intros a. etrans; [apply Hg|apply Hg'].
  - congruence.
  - eapply Forall_impl; [exact Hu|]. intros e. by apply update_ok_grow.
  - intros a Ha. rewrite (He a Ha). destruct (Hgr a Ha) as [|(e & account & chain & ch & h & E1 & E2 & E3 & E4)]; [by left|]. right.
    exists e, account, chain, ch, h. split; [done|]. split; [done|]. split; [by eapply updates_grow|done].
  - intros a h Ha. rewrite (He a Ha). intros Hh. destruct (Hn a h Ha Hh) as [|(e & account & chain & ch & E1 & E2 & E3 & E4)]; [by left|]. right.
    exists e, account, chain, ch. split; [done|]. split; [done|]. split; [by eapply updates_grow|done].
Qed.

(** Adding an entry to a chain: its index, and the updates of the block. *)
Lemma AddChainEntry2_ok chain entry unique c (b : Batch) v ix :
  holds b v ix -> linked ledger v ix (b_txchains b) -> add_ok (chain, entry) -> zlen (v (ac chain)) + 1 < 2 ^ 62 ->
  exists i c' b', AddChainEntry2 chain entry unique c b = Ok (i, c', b') /\ rest b' = rest b /\
    let v' := if decide (entry ∈ v (ac chain)) then v else <[ac chain := v (ac chain) ++ [entry]]> v in
    0 <= i /\ v' (ac chain) !! Z.to_nat i = Some entry /\
    holds b' v' ix /\ linked ledger v' ix (b_txchains b') /\
    c' = if decide (entry ∈ v (ac chain)) then c
         else mkUpdates (Entries c ++ [Build_BlockEntry (Some (c2_Account chain)) (to_string (Name chain)) (zlen (v (ac chain))) []]) (SynthEntries c).
Proof.
  intros Hb Hl (Hix & _ & _ & Hsyn & Hlen) Hroom. pose proof Hix as [Hi Hm]. unfold AddChainEntry2.
  destruct (Chain2_Get_ok chain b v ix Hb) as (b1 & -> & Hb1 & Hr1). cbn [wrapf res_bind fst snd] in *.
  rewrite (holds_Height chain b1 v ix Hb1 Hi). cbn [res_bind].
  destruct (chain_add_entry_ok chain entry true b1 v ix Hb1 Hi ltac:(lia) Hroom) as (b2 & -> & Hr2 & Hb2). cbn [wrapf res_bind].
  rewrite pad_entry_32 in Hb2 by done. assert (Hr : rest b2 = rest b) by congruence. injection Hr as Et _ _ _ _.
  pose proof (holds_get chain b2 _ _ Hb2 Hi) as Hg. pose proof (h_small _ _ _ Hb1 (ac chain)) as Hsm. pose proof (zlen_nonneg (v (ac chain))).
  rewrite (holds_Height chain b2 _ ix Hb2 Hi). cbn [res_bind]. destruct (decide (entry ∈ v (ac chain))) as [Hin|Hni].
  - rewrite decide_True in * by done. rewrite Z.eqb_refl. unfold HeightOf. unfold dbChain in Hg.
    rewrite (GetElementIndex_inv 8 _ _ _ Hg Hlen Hsm). destruct (first_index entry (v (ac chain))) as [k|] eqn:Ek; [|by apply first_index_None in Ek].
    cbn [fmap option_fmap option_map found res_bind]. exists (Z.of_nat k), c, b2. split; [done|]. split; [congruence|]. split; [lia|].
    split; [rewrite Nat2Z.id; by apply first_index_Some|]. split; [done|]. by rewrite Et.
  - rewrite decide_False in * by (intros [_ ?]; done). rewrite fn_lookup_insert, zlen_app. change (zlen [entry]) with 1.
    rewrite (proj2 (Z.eqb_neq _ _)) by lia. rewrite u64_small by (unfold is_u64; lia). eexists _, _, b2. split; [done|]. split; [congruence|].
    split; [done|]. split; [unfold zlen; by rewrite Nat2Z.id, lookup_app_r, Nat.sub_diag by lia|].
    split; [done|]. rewrite Et. split; [eapply linked_mono; [apply grows_app|done]|]. unfold DidAddChainEntry, DidUpdateChain. rewrite Hsyn. by rewrite andb_false_r.
Qed.

Lemma AddChainEntry_ok chain entry c (b : Batch) v ix :
  holds b v ix -> linked ledger v ix (b_txchains b) -> add_ok (chain, entry) -> zlen (v (ac chain)) + 1 < 2 ^ 62 ->
  exists c' b', AddChainEntry chain entry c b = Ok (c', b') /\ rest b' = rest b /\
    let v' := if decide (entry ∈ v (ac chain)) then v else <[ac chain := v (ac chain) ++ [entry]]> v in
    holds b' v' ix /\ linked ledger v' ix (b_txchains b') /\
    c' = if decide (entry ∈ v (ac chain)) then c
         else mkUpdates (Entries c ++ [Build_BlockEntry (Some (c2_Account chain)) (to_string (Name chain)) (zlen (v (ac chain))) []]) (SynthEntries c).
Proof.
  intros Hb Hl Hok Hroom. unfold AddChainEntry. destruct (AddChainEntry2_ok chain entry true c b v ix Hb Hl Hok Hroom) as (i & c' & b' & -> & Hr & _ & _ & Hrest).
  cbn [res_bind]. by exists c', b'.
Qed.

Lemma adding_step v0 v c chain entry :
  adding v0 v c -> add_ok (chain, entry) -> zlen (v (ac chain)) < 2 ^ 62 -> entry ∉ v (ac chain) -> UrlProofs.url_ok ledger = true ->
  adding v0 (<[ac chain := v (ac chain) ++ [entry]]> v)
    (mkUpdates (Entries c ++ [Build_BlockEntry (Some (c2_Account chain)) (to_string (Name chain)) (zlen (v (ac chain))) []]) (SynthEntries c)).
Proof.
  intros [Hg Hr Hu Hs Hgr Hn] ([Hi Hm] & Hnm & Hne & Hsyn & Hlen) Hsm Hni Hurl. cbn [fst snd] in *.
  set (v' := <[ac chain := _]> v). set (e := Build_BlockEntry _ _ _ _). assert (Hg' : grows v v') by apply grows_app.
  assert (Hnr : ac chain <> root) by (intros E; unfold ac, root in E; congruence).
  assert (Hnew : updates ledger v' e (c2_Account chain) (to_string (Name chain)) (c2_chain chain) entry).
  { do 5 (split; [done|]). cbn [BlockEntry_Index e]. split; [pose proof (zlen_nonneg (v (ac chain))); lia|]. change (_, c2_chain chain) with (ac chain). unfold v', zlen.
    by rewrite fn_lookup_insert, Nat2Z.id, lookup_app_r, Nat.sub_diag by lia. }
  assert (Hsk : ~ skipped ledger e).
  { unfold skipped. cbn [BlockEntry_Account e]. intros E. apply Hne. symmetry. by apply Equal_AccountID; [|apply Hnm|]. }
  split.
  - intros a. etrans; [apply Hg|apply Hg'].
  - unfold v'. by rewrite fn_lookup_insert_ne.
  - apply Forall_app. split; [eapply Forall_impl; [exact Hu|]; intros e'; by apply update_ok_grow|]. constructor; [|done]. right. by eexists _, _, _, _.
  - done.
  - intros a Ha. destruct (decide (ac chain = a)) as [<-|Hna].
    + right. exists e, (c2_Account chain), (to_string (Name chain)), (c2_chain chain), entry. split; [apply elem_of_app; right; by left|]. done.
    + unfold v'. rewrite fn_lookup_insert_ne by done. destruct (Hgr a Ha) as [|(e' & account & ch & c' & h & He & Hsk' & Hup & ->)]; [by left|]. right.
      exists e', account, ch, c', h. split; [apply elem_of_app; by left|]. split; [done|]. split; [by eapply updates_grow|done].
  - intros a h Ha Hh. assert (Hold : h ∈ v a \/ a = ac chain /\ h = entry).
    { unfold v' in Hh. destruct (decide (ac chain = a)) as [<-|]; [|rewrite fn_lookup_insert_ne in Hh by done; by left].
      rewrite fn_lookup_insert, elem_of_app, list_elem_of_singleton in Hh. destruct Hh as [| ->]; [by left|by right]. }
    destruct Hold as [Hold|[-> ->]].
    + destruct (Hn a h Ha Hold) as [|(e' & account & ch & c' & He & Hsk' & Hup & ->)]; [by left|]. right. exists e', account, ch, c'.
      split; [apply elem_of_app; by left|]. split; [done|]. split; [by eapply updates_grow|done].
    + right. exists e, (c2_Account chain), (to_string (Name chain)), (c2_chain chain). split; [apply elem_of_app; right; by left|]. done.
Qed.

Lemma add_entries_ok adds v0 c (b : Batch) v ix n :
  UrlProofs.url_ok ledger = true -> holds b v ix -> linked ledger v ix (b_txchains b) -> adding v0 v c -> Forall add_ok adds ->
  all_room (n + zlen adds) v -> 0 <= n ->
  exists c' b' v', add_entries adds c b = Ok (c', b') /\ rest b' = rest b /\ holds b' v' ix /\ linked ledger v' ix (b_txchains b') /\
    adding v0 v' c' /\ grows v v' /\ all_room n v' /\ zlen (Entries c') <= zlen (Entries c) + zlen adds /\
    Forall (fun x => snd x ∈ v' (ac (fst x))) adds /\ forall a, a ∉ (ac ∘ fst) <$> adds -> v' a = v a.
Proof.
  intros Hurl. revert c b v. induction adds as [|[chain entry] adds IH]; intros c b v Hb Hl Had HF Hroom Hn; cbn [add_entries].
  - exists c, b, v. change (zlen []) with 0 in *. rewrite Z.add_0_r in Hroom. do 5 (split; [done|]). split; [intros ?; done|]. split; [done|]. split; [lia|]. done.
  - apply Forall_cons in HF as [Hok HF]. rewrite zlen_cons in Hroom. pose proof (zlen_nonneg adds).
    destruct (AddChainEntry_ok chain entry c b v ix Hb Hl Hok) as (c1 & b1 & -> & Hr1 & Hb1 & Hl1 & Ec); [specialize (Hroom (ac chain)); lia|]. cbn [res_bind].
    set (v1 := if decide _ then v else _) in *.
    assert (Hst : adding v0 v1 c1 /\ grows v v1 /\ all_room (n + zlen adds) v1 /\ zlen (Entries c1) <= zlen (Entries c) + 1 /\ entry ∈ v1 (ac chain) /\
      forall a, a <> ac chain -> v1 a = v a).
    { unfold v1. rewrite Ec. destruct (decide (entry ∈ v (ac chain))) as [Hin|Hni].
      - split; [done|]. split; [intros ?; done|]. split; [intros a; specialize (Hroom a); lia|]. split; [lia|done].
      - split; [by apply adding_step; [done|done|apply (h_small _ _ _ Hb)|..]|]. split; [apply grows_app|]. split.
        + intros a. specialize (Hroom a). destruct (decide (ac chain = a)) as [<-|]; [|rewrite fn_lookup_insert_ne by done; lia].
          rewrite fn_lookup_insert, zlen_app. change (zlen [entry]) with 1. lia.
        + cbn [Entries]. rewrite zlen_app. change (zlen [_]) with 1. split; [lia|]. split; [rewrite fn_lookup_insert; apply elem_of_app; right; by left|].
          intros a Ha. by rewrite fn_lookup_insert_ne. }
    destruct Hst as (Had1 & Hg1 & Hroom1 & Hlen1 & Hin1 & Hf1).
    destruct (IH c1 b1 v1 Hb1 Hl1 Had1 HF Hroom1 Hn) as (c2 & b2 & v2 & -> & Hr2 & Hb2 & Hl2 & Had2 & Hg2 & Hroom2 & Hlen2 & HF2 & Hf2).
    exists c2, b2, v2. split; [done|]. split; [congruence|]. do 3 (split; [done|]). split; [intros a; etrans; [apply Hg1|apply Hg2]|].
    split; [done|]. rewrite zlen_cons. split; [lia|]. split.
    + constructor; [|done]. cbn [fst snd]. destruct (Hg2 (ac chain)) as [k ->]. apply elem_of_app. by left.
    + intros a [Ha Hni]%not_elem_of_cons. by rewrite Hf2, Hf1.
Qed.

(** The invariant of a run: [log] has the index and the root of every block. *)
Record run_inv (b : Batch) (v : AC -> list bytes) (ix : AC -> list IndexEntry) (log : list (Z * Hash)) (n : Z) : Prop := {
  ri_holds : holds b v ix;
  ri_linked : linked ledger v ix (b_txchains b);
  ri_log : Forall2 (fun r x => fst x = IndexEntry_BlockIndex r /\ snd x = Some (mth (take (Z.to_nat (IndexEntry_Source r) + 1) (v root)))) (ix root) log;
  ri_listed a h : listed_chain a -> h ∈ v a -> exists account chain c, named account chain c /\ a = (AccountID32 account, c) /\
    listed 0 (b_txchains b) h account chain;
  ri_cover a : listed_chain a -> v a <> [] -> exists e, e ∈ ix a /\ IndexEntry_Source e = zlen (v a) - 1;
  ri_root : v root <> [] -> exists r, r ∈ ix root /\ IndexEntry_Source r = zlen (v root) - 1;
  ri_index a : zlen (ix a) + n < 2 ^ 62;
  ri_room : all_room n v
}.

(** The invariant is about the chains and the chain entries of transactions. *)
Lemma run_inv_rest b b' v ix log n : run_inv b v ix log n -> holds b' v ix -> rest b' = rest b -> run_inv b' v ix log n.
Proof. intros [] Hb Hr. injection Hr as Et _ _ _ _. split; try done; by rewrite Et. Qed.

(** An entry on a chain has been anchored. *)
Lemma run_inv_root b v ix log n a h : run_inv b v ix log n -> listed_chain a -> h ∈ v a -> v root <> [].
Proof.
  intros Hinv Ha Hh E. destruct (ri_listed _ _ _ _ _ Hinv a h Ha Hh) as (account & chain & c & _ & _ & te & Hte & _).
  destruct (l_entry _ _ _ _ (ri_linked _ _ _ _ _ Hinv) h te Hte) as (_ & account' & c' & e & r & _ & _ & _ & _ & _ & _ & _ & _ & Hr & _).
  pose proof (l_root _ _ _ _ (ri_linked _ _ _ _ _ Hinv) r (list_elem_of_lookup_2 _ _ _ Hr)) as Hs. rewrite E in Hs. change (zlen []) with 0 in Hs. lia.
Qed.

Lemma log_grows v v' (es : list IndexEntry) (log : list (Z * Hash)) :
  v root `prefix_of` v' root -> (forall e, e ∈ es -> 0 <= IndexEntry_Source e < zlen (v root)) ->
  Forall2 (fun r x => fst x = IndexEntry_BlockIndex r /\ snd x = Some (mth (take (Z.to_nat (IndexEntry_Source r) + 1) (v root)))) es log ->
  Forall2 (fun r x => fst x = IndexEntry_BlockIndex r /\ snd x = Some (mth (take (Z.to_nat (IndexEntry_Source r) + 1) (v' root)))) es log.
Proof.
  intros Hp Hs HF. induction HF as [|e x es log [E1 E2] HF IH]; [constructor|]. constructor; [|apply IH; intros e' He'; apply Hs; by right].
  split; [done|]. rewrite E2. pose proof (Hs e ltac:(by left)). by rewrite (prefix_take (v root) (v' root)) by (done || unfold zlen in *; lia).
Qed.

(** What the end of a block needs of the produced transactions and of a major block. *)
Record ends_ok (block : Block) (v : AC -> list bytes) (ix : AC -> list IndexEntry) (st : bytes -> TransactionStatus TB ER) : Prop := {
  n_index : 0 < Block_Index block < 2 ^ 63;
  n_time : time_range (Block_Time block);
  n_produced : on_chain (Synthetic d) v (zlen (v (ac sc)) - zlen (ProducedTxns block)) (ProducedTxns block);
  n_plen : zlen (ProducedTxns block) <= zlen (v (ac sc));
  n_init : Forall (fun txn => is_initialized (st (p_hash txn)) = true) (ProducedTxns block);
  n_major : MakeMajorBlock block = 0 \/
    (0 < MakeMajorBlock block < 2 ^ 42 /\ 0 < zlen (v anchors) < 2 ^ 42 /\ zlen (ix root) < 2 ^ 42 /\ time_range (MakeMajorBlockTime block))
}.

(** The block that some updates make up. *)
Lemma added_block_ok block (b : Batch) v ix log m v1 st n :
  run_inv b v ix log m -> ends_ok block v1 ix st ->
  (v root <> [] \/ (exists a h, listed_chain a /\ h ∈ v1 a) \/ 0 < zlen (ProducedTxns block)) -> adding v v1 (Updates block) -> 0 <= n ->
  (forall a, zlen (ix a) + (n + 2 + zlen (Entries (Updates block))) < 2 ^ 62) -> all_room (n + 2 + zlen (Entries (Updates block))) v1 ->
  block_ok block v1 ix st n.
Proof.
  intros Hinv [N1 N2 N3 N4 N5 N6] Hfirst Had Hn Hix Hr. pose proof (zlen_nonneg (Entries (Updates block))) as Hz.
  split; try done; try (by apply Had).
  - destruct Hfirst as [Hv|[(a & h & Hnr & Hin)|Hp]]; [left; by rewrite (ad_root _ _ _ Had)| |by right; right].
    destruct (ad_new _ _ _ Had _ _ Hnr Hin) as [Hold|(e & account & ch & c' & He & Hsk & _)]; [|right; left; by exists e].
    left. rewrite (ad_root _ _ _ Had). by eapply run_inv_root.
  - destruct N6 as [?|(? & ? & ? & ?)]; [by left|right]. specialize (Hr major). by split_and!; try lia.
Qed.

(** The entries of the block are listed with their transactions. *)
Lemma run_listed b v ix log m v1 ix2 (b2 : Batch) v2 blk n b1 :
  run_inv b v ix log m -> adding v v1 (Updates blk) -> block_done blk b1 v1 ix n b2 v2 ix2 -> b_txchains b1 = b_txchains b ->
  forall a h, listed_chain a -> h ∈ v2 a -> exists account chain c, named account chain c /\ a = (AccountID32 account, c) /\ listed 0 (b_txchains b2) h account chain.
Proof.
  intros Hinv Had D Et a h Ha Hh. assert (Hh1 : h ∈ v1 a) by (rewrite <- (d_chains _ _ _ _ _ _ _ _ D); [done|apply Ha|apply Ha]).
  destruct (ad_new _ _ _ Had a h Ha Hh1) as [Hold|(e & account & chain & c' & He & Hsk & Hu & ->)].
  - destruct (ri_listed _ _ _ _ _ Hinv a h Ha Hold) as (account & chain & c' & Hnm & -> & HL). exists account, chain, c'. do 2 (split; [done|]).
    apply (d_keep _ _ _ _ _ _ _ _ D); [apply zlen_nonneg|by rewrite Et].
  - exists account, chain, c'. split; [apply Hu|]. split; [done|]. destruct (d_listed _ _ _ _ _ _ _ _ D e account chain c' h He Hsk Hu) as (te & Hte & Hc & HR).
    exists te. split; [done|]. split; [done|]. pose proof (zlen_nonneg (ix root)). lia.
Qed.

(** The last index entry of every chain covers the chain. *)
Lemma run_cover b v ix log m v1 ix2 (b2 : Batch) v2 blk n b1 :
  run_inv b v ix log m -> adding v v1 (Updates blk) -> block_done blk b1 v1 ix n b2 v2 ix2 ->
  forall a, listed_chain a -> v2 a <> [] -> exists e, e ∈ ix2 a /\ IndexEntry_Source e = zlen (v2 a) - 1.
Proof.
  intros Hinv Had D a Ha Hv. assert (E21 : v2 a = v1 a) by (apply (d_chains _ _ _ _ _ _ _ _ D); apply Ha).
  rewrite E21 in *. destruct (ad_grown _ _ _ Had a Ha) as [Ek|(e & account & chain & c' & h & He & Hsk & Hu & ->)].
  - rewrite Ek in *. destruct (ri_cover _ _ _ _ _ Hinv a Ha Hv) as (e & He & Hs). exists e. split; [|done]. destruct (d_igrows _ _ _ _ _ _ _ _ D a) as [k' ->]. apply elem_of_app. by left.
  - destruct (d_cover _ _ _ _ _ _ _ _ D e account chain c' h He Hsk Hu) as (e' & He' & Hs). rewrite E21 in Hs. by exists e'.
Qed.

(** The end of a block. *)
Lemma run_end_ok order block (b b1 : Batch) v ix log m v1 n :
  (forall m, order m ≡ₚ (map_to_list m).*1) -> run_inv b v ix log m -> b_txchains b1 = b_txchains b -> holds b1 v1 ix -> linked ledger v1 ix (b_txchains b1) ->
  adding v v1 (Updates block) -> ends_ok block v1 ix (b_status b1) ->
  (v root <> [] \/ (exists a h, listed_chain a /\ h ∈ v1 a) \/ 0 < zlen (ProducedTxns block)) -> 0 <= n ->
  n + 2 + zlen (Entries (Updates block)) <= m -> all_room (n + 2 + zlen (Entries (Updates block))) v1 ->
  exists A b2 v2 ix2, EndBlock d block order b1 = Ok b2 /\ Chain_Anchor (get_chain (rootChain ledger) b2) = Ok A /\
    A = Some (mth (v2 root)) /\ run_inv b2 v2 ix2 (log ++ [(Block_Index block, A)]) n /\ grows v1 v2 /\ v2 root <> [] /\
    (forall a, a <> root -> a <> major -> v2 a = v1 a).
Proof.
  intros Hord Hinv Et1 Hb1 Hl1 Had Hend Hfirst Hn Hm Hroom1. pose proof Hinv as [Hb Hl Hlog _ _ _ Hix _].
  destruct (EndBlock_ok block order b1 v1 ix n Hb1 Hl1) as (b2 & v2 & ix2 & E & D); [|done|].
  { eapply added_block_ok; [exact Hinv|done|done|exact Had|done|intros a; specialize (Hix a); lia|done]. }
  pose proof D as [D1 D2 D3 D3' D4 D5 D6 D7 D8 _ _ _ _ _].
  assert (Hg : grows v v2) by (intros a; etrans; [apply (ad_grows _ _ _ Had)|apply D4]).
  eexists _, b2, v2, ix2. split; [done|].
  split; [apply (Chain_Anchor_ok _ _ (holds_get (rootChain ledger) _ _ _ D1 eq_refl) (h_small _ _ _ D1 _) D7)|]. split; [done|]. split; [|done].
  split; [done|done| |by eapply run_listed|by eapply run_cover| |intros a; apply D6|].
  - rewrite D8. apply Forall2_app; [by eapply log_grows; [apply Hg|apply (l_root _ _ _ _ Hl)|]|]. constructor; [|done]. split; [done|].
    unfold root_index_entry. ie_cbn. rewrite take_ge by (unfold zlen; lia). done.
  - intros _. eexists. split; [rewrite D8; apply elem_of_app; right; by left|done].
  - pose proof (zlen_nonneg (Entries (Updates block))). intros a. destruct (decide (a = root)) as [->|Hr]; [apply D6|].
    destruct (decide (a = major)) as [->|Hmj]; [specialize (Hroom1 major); lia|rewrite D3 by done; specialize (Hroom1 a); lia].
Qed.

(** A database without accounts. *)
Definition new_batch (s0 : S) : Batch := mkBatch (fun _ => s0) (fun _ => []) (fun _ => []) (fun _ => new_TransactionStatus) (fun _ => None) (fun _ => None) [].

Lemma run_inv_new s0 n : chain_inv dbChain s0 [] -> n < 2 ^ 62 -> run_inv (new_batch s0) (fun _ => []) (fun _ => []) [] n.
Proof.
  intros Hs Hn. split; [| |by apply Forall2_nil_2| |done|done|intros a; change (zlen []) with 0; lia..].
  - split; try done; [intros a; by exists []|intros id; apply SSorted_nil].
  - split; [intros a e _ He|intros e He|done|intros h; apply SSorted_nil|intros h te He]; by apply not_elem_of_nil in He.
  - intros a h _ Hh. by apply not_elem_of_nil in Hh.
Qed.

Lemma log_entry v (es : list IndexEntry) (log : list (Z * Hash)) r :
  Forall2 (fun r x => fst x = IndexEntry_BlockIndex r /\ snd x = Some (mth (take (Z.to_nat (IndexEntry_Source r) + 1) (v root)))) es log ->
  r ∈ es -> (IndexEntry_BlockIndex r, Some (mth (take (Z.to_nat (IndexEntry_Source r) + 1) (v root)))) ∈ log.
Proof.
  intros HF [k Hk]%list_elem_of_lookup. destruct (Forall2_lookup_l _ _ _ _ _ HF Hk) as ([m A] & Hm & E1 & E2). cbn in E1, E2. subst. by eapply list_elem_of_lookup_2.
Qed.

(** An entry of a chain has a receipt to the root of a block. *)
Lemma run_inv_receipt b v ix log n a h :
  run_inv b v ix log n -> listed_chain a -> h ∈ v a ->
  exists te account m r b', te ∈ b_txchains b h /\ TransactionChainEntry_Account te = Some account /\
    ChainByName (str (TransactionChainEntry_Chain te)) = Ok (snd a, false) /\ AccountID32 account = fst a /\
    ReceiptForChainEntry ledger account h te b = Ok (m, r, b') /\ Validate r = true /\ Start r = Some h /\ (m, Receipt.Anchor r) ∈ log.
Proof.
  intros Hinv Ha Hh. destruct (ri_listed _ _ _ _ _ Hinv a h Ha Hh) as (account0 & chain & c & (Hu0 & Hn0 & _) & -> & te & Hte & Hc & _).
  destruct Hinv as [Hb Hl Hlog _ _ _ _ _]. destruct (l_entry _ _ _ _ Hl h te Hte) as (Hlen & account & c' & e & r & A1 & A2 & A3 & A4 & A5 & A6 & A7 & A8 & A9 & A10 & A11).
  unfold TransactionChainEntry_Compare in Hc. rewrite A1 in Hc. cbn [TransactionChainEntry_Account TransactionChainEntry_Chain compare_option] in Hc.
  destruct (Z.eqb_spec (Compare account account0) 0) as [Ec|]; [|done]. apply bytes_compare_eq in Hc. rewrite Hc, Hn0 in A3. injection A3 as <-.
  apply Compare_zero in Ec. apply (Equal_AccountID _ _ A2 Hu0) in Ec.
  destruct (ReceiptForChainEntry_ok ledger b v ix account h te e r Hb Hl Hlen c A1) as (rc & b' & E & _ & V & Es & Ean); [by rewrite Hc|done..|].
  exists te, account, (IndexEntry_BlockIndex r), rc, b'. do 2 (split; [done|]). split; [by rewrite Hc|]. do 4 (split; [done|]).
  rewrite Ean. exact (log_entry _ _ _ _ Hlog (list_elem_of_lookup_2 _ _ _ A9)).
Qed.

(** A search from the end finds the first entry whose source is not before the target, unless
    all entries are after the target and there are several. *)
Lemma search_from_end_ok s es target :
  index_chain (S:=S) s es -> (forall i j e f, (i <= j)%nat -> es !! i = Some e -> es !! j = Some f -> IndexEntry_Source e <= IndexEntry_Source f) ->
  (exists e, e ∈ es /\ target <= IndexEntry_Source e) ->
  match search_from_end target s with
  | Ok e' => exists e, e ∈ es /\ IndexEntry_Copy e' = e /\ target <= IndexEntry_Source e
  | Err err => is_not_found err = true /\ exists e, es !! 0%nat = Some e /\ target < IndexEntry_Source e
  | Panic _ => False
  end.
Proof.
  intros Hix Hs (e0 & He0 & Hle). destruct (index_Height _ _ Hix) as [Eh Hlen]. pose proof (list_elem_of_lookup_1 _ _ He0) as (k & Hk). pose proof (lookup_lt_Some _ _ _ Hk) as Hlt.
  unfold search_from_end. rewrite Eh. cbn [res_bind]. unfold zlen in *. rewrite !u64_small by (unfold is_u64; lia || rewrite u64_small; unfold is_u64; lia). rewrite Nat2Z.id.
  replace (Z.of_nat (length es) - 1) with (Z.of_nat (length es - 1)) by lia.
  destruct (SearchIndexChain_ok s es Hix MatchAfter (SearchIndexChainBySource target) (fun _ => eq_refl) (search_by_sorted IndexEntry_Source es target Hs)
    (length es) (length es - 1) ltac:(lia) ltac:(lia)) as (r & -> & Hr).
  assert (Hdir : forall e, SearchIndexChainBySource target e <> SearchForward -> target <= IndexEntry_Source e).
  { intros e. unfold SearchIndexChainBySource, search_by. destruct (Z.ltb_spec (IndexEntry_Source e) target); [done|lia]. }
  destruct r as [[i e']|err|]; cbn [res_bind]; [|..|done].
  - destruct Hr as (m & e & _ & He & Ce & Hf). exists e. split; [by eapply list_elem_of_lookup_2|]. split; [done|]. apply Hdir. by destruct Hf as [-> |[_ [-> _]]].
  - destruct Hr as (Hnf & _ & [Hall|[Hall _]]); split; try done.
    + unfold all_are in Hall. rewrite Forall_forall in Hall. specialize (Hall e0 He0). unfold SearchIndexChainBySource, search_by in Hall.
      destruct (Z.ltb_spec (IndexEntry_Source e0) target); [lia|]. by destruct (target <? IndexEntry_Source e0).
    + unfold all_are in Hall. rewrite Forall_lookup in Hall. destruct (lookup_lt_is_Some_2 es 0) as [e He]; [lia|]. exists e. split; [done|].
      specialize (Hall 0%nat e He). unfold SearchIndexChainBySource, search_by in Hall. destruct (Z.ltb_spec (IndexEntry_Source e) target); [done|].
      by destruct (Z.ltb_spec target (IndexEntry_Source e)).
Qed.

(** The searches that fail: the first index entry of the chain, or that of the root chain, is
    already after the target. *)
Definition early (c : Chain2) (i : Z) (b : Batch) : Prop :=
  (exists e, EntryAs 0 (b_chain b (ac c, true)) = Ok e /\ i < IndexEntry_Source e) \/
  (exists k e r, EntryAs k (b_chain b (ac c, true)) = Ok e /\ i <= IndexEntry_Source e /\
    EntryAs 0 (b_chain b (root, true)) = Ok r /\ IndexEntry_Anchor e < IndexEntry_Source r).

Lemma run_inv_index_receipt b v ix log n c i h :
  run_inv b v ix log n -> indexable c -> listed_chain (ac c) -> 0 <= i -> v (ac c) !! Z.to_nat i = Some h ->
  match ReceiptForChainIndex ledger c i b with
  | Ok (m, r, _) => Validate r = true /\ Start r = Some h /\ (m, Receipt.Anchor r) ∈ log
  | Err e => is_not_found e = true /\ early c i b
  | Panic _ => False
  end.
Proof.
  intros Hinv Hc Hr Hi Hh. pose proof (lookup_lt_Some _ _ _ Hh) as Hlt. assert (Hvn : v (ac c) <> []) by (intros E; by rewrite E in Hh).
  destruct (ri_cover _ _ _ _ _ Hinv _ Hr Hvn) as (ec & Hec & Hsc).
  destruct (ri_root _ _ _ _ _ Hinv (run_inv_root _ _ _ _ _ _ _ Hinv Hr (list_elem_of_lookup_2 _ _ _ Hh))) as (er & Her & Hsr).
  pose proof Hinv as [Hb Hl Hlog _ _ _ _ _]. pose proof (h_small _ _ _ Hb (ac c)) as Hsm. pose proof (h_small _ _ _ Hb root) as Hsmr. unfold ReceiptForChainIndex.
  rewrite (Index_ok c Hc). cbn [res_bind]. set (ci := mkChain2 _ _ true). destruct (Chain2_Get_ok ci b v ix Hb) as (b1 & -> & Hb1 & _). cbn [wrapf res_bind].
  rewrite (u64_small i) by (unfold is_u64, zlen in *; lia).
  pose proof (search_from_end_ok (get_chain ci b1) (ix (ac c)) i (holds_index ci b1 v ix Hb1 eq_refl) (fun x y e f => l_mono _ _ _ _ Hl (ac c) x y e f)) as Hse.
  assert (Hil : i <= IndexEntry_Source ec) by (rewrite Hsc; unfold zlen; lia). specialize (Hse (ex_intro _ ec (conj Hec Hil))).
  destruct (search_from_end i (get_chain ci b1)) as [e'|err|]; cbn [wrapf res_bind]; [| |done].
  2:{ destruct Hse as [Hnf (e & He & Hs)]. split; [done|]. left.
      destruct (EntryAs_ok _ _ (h_index _ _ _ Hb (ac c)) _ _ He) as (e' & E & <-). by exists e'. }
  destruct Hse as (e & He & <- & Hle). destruct (l_anchor _ _ _ _ Hl _ _ (proj1 Hr) He) as (Hs & Ha & Hat). cbn [IndexEntry_Source IndexEntry_Anchor IndexEntry_Copy] in *.
  destruct (Chain2_Get_ok c b1 v ix Hb1) as (b2 & -> & Hb2 & _). cbn [wrapf res_bind].
  rewrite (Index_ok (rootChain ledger) (root_indexable ledger)). cbn [res_bind rootChain c2_Account c2_chain]. set (ri := mkChain2 ledger RootChain true).
  destruct (Chain2_Get_ok ri b2 v ix Hb2) as (b3 & -> & Hb3 & _). cbn [wrapf res_bind].
  pose proof (lookup_lt_Some _ _ _ Hat) as Hal.
  pose proof (search_from_end_ok (get_chain ri b3) (ix root) (IndexEntry_Anchor e') (holds_index ri b3 v ix Hb3 eq_refl) (fun x y e f => l_mono _ _ _ _ Hl root x y e f)) as Hsr2.
  assert (Hal2 : IndexEntry_Anchor e' <= IndexEntry_Source er) by (rewrite Hsr; unfold zlen; lia). specialize (Hsr2 (ex_intro _ er (conj Her Hal2))).
  destruct (search_from_end (IndexEntry_Anchor e') (get_chain ri b3)) as [r'|err|]; cbn [wrapf res_bind]; [| |done].
  2:{ destruct Hsr2 as [Hnf (r & Hr0 & Hs0)]. split; [done|]. right. apply list_elem_of_lookup in He as [k Hk].
      destruct (EntryAs_ok _ _ (h_index _ _ _ Hb (ac c)) _ _ Hk) as (e2 & E2 & C2). destruct (EntryAs_ok _ _ (h_index _ _ _ Hb root) _ _ Hr0) as (r2 & E3 & <-).
      exists (Z.of_nat k), e2, r2. injection C2 as C2 C3 _ _ _. rewrite C2, C3. done. }
  destruct Hsr2 as (r & Hr0 & <- & Hle2). pose proof (l_root _ _ _ _ Hl _ Hr0) as Hrs. cbn [IndexEntry_Source IndexEntry_Anchor IndexEntry_Copy] in *.
  rewrite !i64_small by (unfold is_i64; lia).
  destruct (Receipt_ok (get_chain c b3) (v (ac c)) i (IndexEntry_Source e') (holds_get c b3 v ix Hb3 (proj1 Hc)) Hsm ltac:(lia) ltac:(lia))
    as (r1 & x & Hx & -> & V1 & S1 & A1). rewrite Hh in Hx. injection Hx as <-. cbn [res_bind].
  destruct (getRootReceipt_ok ledger b3 v ix (IndexEntry_Anchor e') (IndexEntry_Source r') Hb3 ltac:(lia) ltac:(lia)) as (r2 & y & b4 & -> & _ & _ & Hy & V2 & S2 & A2).
  cbn [res_bind]. rewrite Hat in Hy. injection Hy as <-.
  destruct (Receipt_Combine_ok r1 r2 V1 V2) as (rc & -> & V & Es & Ean); [by rewrite A1, S2|]. cbn [res_bind]. rewrite Es, Ean, A2.
  split; [done|]. split; [done|]. exact (log_entry _ _ _ _ Hlog Hr0).
Qed.

(** At the end of a block the proof stored with every synthetic transaction that the
    block produced validates, from the transaction to the root of the partition after the
    block; a directory node also stores such a receipt as a signature of every one of them
    that is not a system transaction. *)
Theorem synthetic_receipts (block : Block) (order : gmap bytes chainUpdate -> list bytes) (b : Batch) v ix n :
  holds b v ix -> linked ledger v ix (b_txchains b) -> block_ok block v ix (b_status b) n -> (forall m, order m ≡ₚ (map_to_list m).*1) ->
  exists b' A, EndBlock d block order b = Ok b' /\ Chain_Anchor (get_chain (rootChain ledger) b') = Ok A /\
    Forall (fun txn => proved A b' (p_hash txn)) (ProducedTxns block) /\
    (IsDirectory d = true -> exists l, b_receipts b' = b_receipts b ++ l /\
      Forall2 (receipt_for A) (filter (fun txn => p_system txn = false) (ProducedTxns block)) l).
Proof.
  intros Hb Hl Hok Hord. destruct (EndBlock_ok block order b v ix n Hb Hl Hok Hord) as (b' & v' & ix' & E & D).
  exists b', (Some (mth (v' root))). split; [done|]. split; [|split; [apply (d_proved _ _ _ _ _ _ _ _ D)|apply (d_local _ _ _ _ _ _ _ _ D)]].
  apply Chain_Anchor_ok; [exact (holds_get (rootChain ledger) _ _ _ (d_holds _ _ _ _ _ _ _ _ D) eq_refl)|apply (h_small _ _ _ (d_holds _ _ _ _ _ _ _ _ D))|].
  apply (d_root _ _ _ _ _ _ _ _ D).
Qed.

End End_.

(** ** A run *)

Definition demo_describe : Describe := mkDescribe (str "BVN0") true.
Definition demo_order (m : gmap bytes chainUpdate) : list bytes := (map_to_list m).*1.
Definition demo_tokens : Chain2 := mkChain2 (mkURL [] (str "foo.acme") (str "/tokens") [] []) MainChain false.
Definition demo_data : Chain2 := mkChain2 (mkURL [] (str "foo.acme") (str "/data") [] []) SignatureChain false.
Definition demo_hash (n : Z) : bytes := sha256 (FormatUint n).
Lemma demo_add_ok c n : c = demo_tokens \/ c = demo_data -> add_ok demo_describe (c, demo_hash n).
Proof.
  intros Hc. split; [by destruct Hc as [-> | ->]|]. split; [|split; [|split; [|apply sha256_length]]].
  - destruct Hc as [-> | ->]; (split; [vm_compute; reflexivity|]; split; [vm_compute; reflexivity|]; refine (proj1 (bool_decide_eq_true _) _); vm_compute; reflexivity).
  - destruct Hc as [-> | ->]; refine (proj1 (bool_decide_eq_true _) _); vm_compute; reflexivity.
  - destruct Hc as [-> | ->]; vm_compute; reflexivity.
Qed.

(** A block that produces a synthetic transaction. *)
Definition demo_synth : Chain2 := synthChain (Synthetic demo_describe).
Definition demo_status : TransactionStatus unit unit :=
  Build_TransactionStatus None 0 None None 0 None [] [] (Some DnUrl) (Some DnUrl) 1 false None [].
Definition demo_v (a : AC) : list bytes := if decide (a = ac demo_synth) then [demo_hash 1] else [].
Definition demo_batch : Batch (S:=ChainView) (TB:=unit) (ER:=unit) :=
  mkBatch (fun c => if decide (c = (ac demo_synth, false)) then demo_db_chain [demo_hash 1] else empty_view) (fun _ => []) (fun _ => [])
    (fun _ => demo_status) (fun _ => None) (fun _ => None) [].
Definition demo_block : Block :=
  mkBlock 1 1000 [mkProduced (demo_hash 1) false] (mkUpdates [Build_BlockEntry (Some (Synthetic demo_describe)) "main" 0 []] []) 0 0.

Lemma demo_hash_length n : length (demo_hash n) = 32%nat.
Proof. apply sha256_length. Qed.
Local Opaque demo_hash AccountID32.

Lemma demo_holds : holds demo_batch demo_v (fun _ => []).
Proof.
  split.
  - intros a. unfold demo_batch, demo_v. cbn [b_chain]. destruct (decide (a = ac demo_synth)) as [->|Hne].
    + rewrite !decide_True by done. apply (db_chain_inv [demo_hash 1]); [|done]. apply Forall_singleton, demo_hash_length.
    + rewrite !decide_False by congruence. exact (chain_inv_empty 8).
  - intros a. unfold demo_v. by destruct (decide _).
  - intros a. unfold demo_v. destruct (decide _); [|done]. apply Forall_singleton, demo_hash_length.
  - intros a. exists []. unfold demo_batch. cbn [b_chain]. rewrite decide_False by congruence. split; [exact (chain_inv_empty 8)|done].
  - intros id. apply SSorted_nil.
Qed.

Lemma demo_linked : linked (Ledger demo_describe) demo_v (fun _ => []) (b_txchains demo_batch).
Proof. split; [intros a e _ He|intros e He|done|intros h; apply SSorted_nil|intros h te He]; by apply not_elem_of_nil in He. Qed.

Lemma main_ne_root (x y : bytes) : (x, MainChain) <> (y, RootChain).
Proof. done. Qed.

Lemma demo_block_ok : block_ok demo_describe demo_block demo_v (fun _ => []) (b_status demo_batch) 0.
Proof.
  assert (Es : demo_v (ac demo_synth) = [demo_hash 1]) by (unfold demo_v; by rewrite decide_True).
  assert (Hsk : ~ skipped (Ledger demo_describe) (Build_BlockEntry (Some (Synthetic demo_describe)) "main" 0 [])) by (unfold skipped; by vm_compute).
  assert (Hn : named (Synthetic demo_describe) "main" MainChain).
  { split; [vm_compute; reflexivity|]. split; [vm_compute; reflexivity|]. refine (proj1 (bool_decide_eq_true _) _); vm_compute; reflexivity. }
  split; unfold demo_block; cbn [Block_Index Block_Time Updates Entries SynthEntries ProducedTxns MakeMajorBlock].
  - lia.
  - split; vm_compute; [discriminate|reflexivity].
  - apply Forall_singleton. right. exists (Synthetic demo_describe), "main"%string, MainChain, (demo_hash 1). do 2 (split; [reflexivity|]).
    split; [exact Hn|]. split; [discriminate|]. split; [exact (main_ne_root _ _)|]. split; [cbn; lia|].
    change (AccountID32 _, MainChain) with (ac demo_synth). by rewrite Es.
  - split; [unfold demo_v; rewrite decide_False by exact (not_eq_sym (main_ne_root _ _))|intros a]; change (zlen []) with 0; change (zlen [_]) with 1; lia.
  - lia.
  - right. left. eexists. split; [by left|exact Hsk].
  - reflexivity.
  - change (synthChain (Synthetic demo_describe)) with demo_synth. rewrite Es. intros [|i] txn Hi; [|discriminate]. injection Hi as <-.
    change (synthChain (Synthetic demo_describe)) with demo_synth. rewrite Es. reflexivity.
  - change (synthChain (Synthetic demo_describe)) with demo_synth. rewrite Es. change (zlen [_]) with 1. lia.
  - apply Forall_singleton. reflexivity.
  - by left.
Qed.

Lemma synthetic_receipts_witness :
  exists b' A, EndBlock demo_describe demo_block demo_order demo_batch = Ok b' /\ proved A b' (demo_hash 1) /\
    exists x, b_receipts b' = [x] /\ receipt_for A (mkProduced (demo_hash 1) false) x.
Proof.
  destruct (synthetic_receipts demo_describe demo_block demo_order demo_batch demo_v (fun _ => []) 0 demo_holds demo_linked demo_block_ok (fun _ => reflexivity _))
    as (b' & A & E & _ & HF & Hloc).
  exists b', A. split; [exact E|]. split; [exact (proj1 (proj1 (Forall_cons _ _ _) HF))|].
  destruct (Hloc eq_refl) as (l & El & HF2). change (filter _ _) with [mkProduced (demo_hash 1) false] in HF2.
  destruct l as [|x [|]]; [by apply Forall2_length in HF2| |by apply Forall2_length in HF2].
  exists x. split; [exact El|]. by inversion HF2.
Defined.
