(* ===== verification/Builder.v ===== *)
(** * Making signatures: [pkg/client/signing/builder.go], [signer.go], [timestamp.go], and the
      [Sign] functions of [protocol/signature.go]

    A builder holds what a signature is made of: its type, the signer, the delegators, the key
    and the timestamp.  It signs a message, initiates a transaction, or makes the signature of
    a partition.  The operations of the signature packages are arguments ([SigningCrypto]). *)

From stdpp Require Import functions.
From S2P Require Import Prelude Sha256 Encoding Codec MerkleTree MerkleState Receipt Hasher SortUtil Url UrlProofs AdiUrl KeyPages StateManager.
From S2P Require Import Enums Wire TypesGeneral TypesTransactions TransactionHash Accounts Signatures.
Local Open Scope Z_scope.
Import Url TxID.

Abbreviation Txn := TypesTransactions.Transaction.

(** ** Keys *)

Class SigningCrypto := {
  ed25519_Sign : bytes -> bytes -> bytes;
  secp256k1_Compressed : bytes -> bytes;
  secp256k1_Uncompressed : bytes -> bytes;
  secp256k1_Sign : bytes -> bytes -> option bytes
}.

Definition set_PublicKey (p : bytes) (k : KeySignature) : KeySignature :=
  mkKeySig (key_Type k) p (SigBytes k) (key_Signer k) (SignerVersion k) (Timestamp k) (key_Vote k) (key_TransactionHash k).
Definition set_SigBytes (b : bytes) (k : KeySignature) : KeySignature :=
  mkKeySig (key_Type k) (PublicKey k) b (key_Signer k) (SignerVersion k) (Timestamp k) (key_Vote k) (key_TransactionHash k).
Definition set_TransactionHash (h : bytes) (k : KeySignature) : KeySignature :=
  mkKeySig (key_Type k) (PublicKey k) (SigBytes k) (key_Signer k) (SignerVersion k) (Timestamp k) (key_Vote k) h.

(** What can sign. *)
Record KeySigner := mkKeySigner {
  SetPublicKey : KeySignature -> res KeySignature;
  SignWith : KeySignature -> option bytes -> bytes -> res KeySignature
}.

Section Sign.
Context `{Crypto, SigningCrypto}.

(** The hash that is signed; [sigMdHash] is nil when the signature is not nested. *)
Definition signing_hash (k : KeySignature) (sigMdHash : option bytes) (txnHash : bytes) : bytes :=
  let md := match sigMdHash with Some h => h | None => signatureHash (SKey (key_Metadata k)) end in
  match key_Type k with
  | KLegacyED25519 => sha256 (md ++ Common.Uint64Bytes (Timestamp k) ++ txnHash)
  | _ => sha256 (md ++ txnHash)
  end.

Definition private_SetPublicKey (key : bytes) (k : KeySignature) : res KeySignature :=
  match key_Type k with
  | KLegacyED25519 | KED25519 | KRCD1 =>
      if zlen key <? 32 then Panic "slice bounds out of range" else Ok (set_PublicKey (drop 32 key) k)
  | KBTC => Ok (set_PublicKey (secp256k1_Compressed key) k)
  | KBTCLegacy | KETH => Ok (set_PublicKey (secp256k1_Uncompressed key) k)
  end.

Definition private_Sign (key : bytes) (k : KeySignature) (sigMdHash : option bytes) (txnHash : bytes) : res KeySignature :=
  let hash := signing_hash k sigMdHash txnHash in
  match key_Type k with
  | KLegacyED25519 | KED25519 | KRCD1 =>
      if negb (zlen key =? 64) then Panic "ed25519: bad private key length" else Ok (set_SigBytes (ed25519_Sign key hash) k)
  | t =>
      match secp256k1_Sign key hash with
      | None => errorf "cannot sign"
      | Some sign =>
          Ok (set_SigBytes sign (set_PublicKey (match t with KBTC => secp256k1_Compressed key | _ => secp256k1_Uncompressed key end) k))
      end
  end.

Definition PrivateKey (key : bytes) : KeySigner := mkKeySigner (private_SetPublicKey key) (private_Sign key).

(** ** The builder *)

Inductive InitHashMode := InitWithMerkleHash | InitWithSimpleHash.

(** A timestamp that is a variable increases with every use. *)
Inductive TimestampSource := TimestampFromValue (t : Z) | TimestampFromVariable (t : Z).

Definition Timestamp_Get (t : TimestampSource) : Z * TimestampSource :=
  match t with
  | TimestampFromValue v => (v, t)
  | TimestampFromVariable v => (u64 (v + 1), TimestampFromVariable (u64 (v + 1)))
  end.

Record Builder := mkBuilder {
  InitMode : InitHashMode;
  bd_Type : Z;
  bd_Url : option URL;
  Delegators : list URL;
  bd_Signer : option KeySigner;
  Version : Z;
  bd_Timestamp : option TimestampSource
}.

Definition new_Builder : Builder := mkBuilder InitWithMerkleHash 0 None [] None 0 None.

Definition UseSimpleHash (s : Builder) : Builder :=
  mkBuilder InitWithSimpleHash (bd_Type s) (bd_Url s) (Delegators s) (bd_Signer s) (Version s) (bd_Timestamp s).
Definition UseMerkleHash (s : Builder) : Builder :=
  mkBuilder InitWithMerkleHash (bd_Type s) (bd_Url s) (Delegators s) (bd_Signer s) (Version s) (bd_Timestamp s).
Definition SetType (typ : Z) (s : Builder) : Builder :=
  mkBuilder (InitMode s) typ (bd_Url s) (Delegators s) (bd_Signer s) (Version s) (bd_Timestamp s).
Definition SetUrl (u : URL) (s : Builder) : Builder :=
  mkBuilder (InitMode s) (bd_Type s) (Some u) (Delegators s) (bd_Signer s) (Version s) (bd_Timestamp s).
Definition SetKeyPageUrl (bookUrl : URL) (pageIndex : Z) (s : Builder) : Builder := SetUrl (FormatKeyPageUrl bookUrl pageIndex) s.
Definition SetSigner (signer : KeySigner) (s : Builder) : Builder :=
  mkBuilder (InitMode s) (bd_Type s) (bd_Url s) (Delegators s) (Some signer) (Version s) (bd_Timestamp s).
Definition SetPrivateKey (privKey : bytes) (s : Builder) : Builder := SetSigner (PrivateKey privKey) s.
Definition AddDelegator (delegator : URL) (s : Builder) : Builder :=
  mkBuilder (InitMode s) (bd_Type s) (bd_Url s) (Delegators s ++ [delegator]) (bd_Signer s) (Version s) (bd_Timestamp s).
Definition SetVersion (version : Z) (s : Builder) : Builder :=
  mkBuilder (InitMode s) (bd_Type s) (bd_Url s) (Delegators s) (bd_Signer s) version (bd_Timestamp s).
Definition set_TimestampSource (t : option TimestampSource) (s : Builder) : Builder :=
  mkBuilder (InitMode s) (bd_Type s) (bd_Url s) (Delegators s) (bd_Signer s) (Version s) t.
Definition ClearTimestamp (s : Builder) : Builder := set_TimestampSource None s.
Definition SetTimestamp (timestamp : Z) (s : Builder) : Builder := set_TimestampSource (Some (TimestampFromValue timestamp)) s.
Definition SetTimestampWithVar (timestamp : Z) (s : Builder) : Builder := set_TimestampSource (Some (TimestampFromVariable timestamp)) s.

(** Taking the settings of a signature over. *)
Fixpoint Import_ (sig : Signature) (s : Builder) : res Builder :=
  let s := SetType (SignatureType sig) s in
  match sig with
  | SKey k => Ok (SetTimestamp (Timestamp k) (SetVersion (SignerVersion k) (SetUrl (key_Signer k) s)))
  | SDelegated inner delegator => let! s := Import_ inner s in Ok (AddDelegator delegator s)
  | _ => errorf "unsupported signature type"
  end.

Definition key_type (t : Z) : option KeySigType :=
  if t =? SignatureTypeLegacyED25519 then Some KLegacyED25519
  else if t =? SignatureTypeED25519 then Some KED25519
  else if t =? SignatureTypeRCD1 then Some KRCD1
  else if t =? SignatureTypeBTC then Some KBTC
  else if t =? SignatureTypeBTCLegacy then Some KBTCLegacy
  else if t =? SignatureTypeETH then Some KETH
  else None.

(** The signature without its hashes; an unknown type becomes ED25519. *)
Definition prepare (init : bool) (s : Builder) : res (KeySignature * Builder) :=
  match bd_Url s, bd_Signer s with
  | Some u, Some signer =>
      if init && (Version s =? 0) then errorf "cannot prepare signature: missing version"
      else if init && bool_decide (bd_Timestamp s = None) then errorf "cannot prepare signature: missing timestamp"
      else
        let s := if bd_Type s =? 0 then SetType SignatureTypeED25519 s else s in
        match key_type (bd_Type s) with
        | None =>
            if (bd_Type s =? SignatureTypeReceipt) || (bd_Type s =? SignatureTypePartition) then Panic "invalid attempt to generate signature"
            else errorf "unknown signature type"
        | Some t =>
            let '(timestamp, source) := match bd_Timestamp s with Some t => let '(v, t) := Timestamp_Get t in (v, Some t) | None => (0, None) end in
            let! k := SetPublicKey signer (mkKeySig t [] [] u (Version s) timestamp 0 zero_hash) in
            Ok (k, set_TimestampSource source s)
        end
  | _, _ => errorf "cannot prepare signature: missing signer"
  end.

(** Signing within delegations: the hash of the metadata is that of the whole signature. *)
Fixpoint sign (signer : KeySigner) (sig : Signature) (sigMdHash : option bytes) (hash : bytes) : res Signature :=
  match sig with
  | SKey k =>
      let! h := to_array hash in
      let! k := SignWith signer (set_TransactionHash h k) sigMdHash hash in
      Ok (SKey k)
  | SDelegated inner d =>
      let! md := match sigMdHash with Some md => Ok md | None => let! m := Metadata sig in Ok (signatureHash m) end in
      let! inner := sign signer inner (Some md) hash in
      Ok (SDelegated inner d)
  | _ => Panic "unreachable"
  end.

Definition delegate (k : KeySignature) (l : list URL) : Signature := foldl SDelegated (SKey k) l.

Definition Sign (message : bytes) (s : Builder) : res (Signature * Builder) :=
  let! (k, s) := prepare false s in
  match bd_Signer s with
  | None => Panic "invalid memory address or nil pointer dereference"
  | Some signer => let! sig := sign signer (delegate k (Delegators s)) None message in Ok (sig, s)
  end.

Context {SG UB : Type} `{!Union SG, !Union UB}.
Abbreviation Body := (TransactionBody SG UB).

Definition set_Initiator (h : bytes) (txn : Txn Body) : Txn Body :=
  let x := Transaction_Header txn in
  Build_Transaction
    (Build_TransactionHeader (TransactionHeader_Principal x) h (TransactionHeader_Memo x) (TransactionHeader_Metadata x) (TransactionHeader_extraData x))
    (Transaction_Body txn) (Transaction_extraData txn).

(** Initiating a transaction whose hash was not computed before. *)
Definition Initiate (txn : Txn Body) (s : Builder) : res (Signature * Txn Body * Builder) :=
  let! (k, s) := prepare true s in
  match bd_Signer s with
  | None => Panic "invalid memory address or nil pointer dereference"
  | Some signer =>
      let sig := delegate k (Delegators s) in
      let! h :=
        match InitMode s with
        | InitWithSimpleHash => let! m := Metadata sig in Ok (signatureHash m)
        | InitWithMerkleHash => let! init := Initiator_hasher sig in Ok (MerkleHash init)
        end in
      let! h := to_array h in
      let txn := set_Initiator h txn in
      let! hash := GetHash txn in
      let! sig := sign signer sig None hash in
      Ok (sig, txn, s)
  end.

(** The signature of a partition. *)
Definition InitiateSynthetic (txn : Txn Body) (dest : URL) (s : Builder) : res (Signature * Txn Body) :=
  match bd_Url s with
  | None => errorf "cannot prepare signature: missing signer"
  | Some u =>
      if Version s =? 0 then errorf "cannot prepare signature: missing sequence number"
      else
        let! m := Metadata (SPartition u dest (Version s) zero_hash) in
        let! h := to_array (signatureHash m) in
        let txn := set_Initiator h txn in
        let! hash := GetHash txn in
        let! hash := to_array hash in
        Ok (SPartition u dest (Version s) hash, txn)
  end.

(** The check of the executor: the outer signature is verified with the hash of its metadata. *)
Definition accepts (s : Signature) (h : bytes) : bool :=
  match s with
  | SKey k => key_Verify k None h
  | SDelegated inner _ => match Metadata s with Ok m => delegated_Verify inner (signatureHash m) h | _ => false end
  | _ => false
  end.

End Sign.

(** ** What a builder makes is accepted *)

(** The signature packages: what a key signs verifies with its public key. *)
Class SigningLaws `{Crypto, SigningCrypto} := {
  ed25519_key : bytes -> Prop;
  ed25519_ok key m : ed25519_key key ->
    length key = 64%nat /\ length (ed25519_Sign key m) = 64%nat /\ ed25519_Verify (drop 32 key) m (ed25519_Sign key m) = true;
  secp256k1_ok key m s : secp256k1_Sign key m = Some s ->
    secp256k1_Verify (secp256k1_Compressed key) m s = true /\ secp256k1_Verify (secp256k1_Uncompressed key) m s = true;
  secp256k1_pub key : secp256k1_Compressed key <> [] /\ secp256k1_Uncompressed key <> []
}.

Section Laws.
Context `{SigningLaws}.

Definition is_ed (t : KeySigType) : bool := match t with KLegacyED25519 | KED25519 | KRCD1 => true | _ => false end.

(** The key can sign. *)
Definition usable (t : KeySigType) (key : bytes) : Prop := if is_ed t then ed25519_key key else forall m, is_Some (secp256k1_Sign key m).

Definition public_key (t : KeySigType) (key : bytes) : bytes :=
  match t with KLegacyED25519 | KED25519 | KRCD1 => drop 32 key | KBTC => secp256k1_Compressed key | _ => secp256k1_Uncompressed key end.

Lemma private_SetPublicKey_ok key k :
  usable (key_Type k) key -> private_SetPublicKey key k = Ok (set_PublicKey (public_key (key_Type k) key) k).
Proof.
  unfold usable, private_SetPublicKey, public_key. intros Hu.
  destruct (key_Type k); try done; destruct (ed25519_ok key [] Hu) as (Hl & _); unfold zlen; by rewrite Hl.
Qed.

Lemma private_Sign_ok key k md h :
  usable (key_Type k) key -> PublicKey k = public_key (key_Type k) key ->
  exists sg, private_Sign key k md h = Ok (set_SigBytes sg k) /\ key_Verify (set_SigBytes sg k) md h = true.
Proof.
  unfold usable, private_Sign, public_key, key_Verify, signing_hash, zlen. destruct k as [t p b u v ts vt th]. cbn [key_Type PublicKey set_SigBytes set_PublicKey SigBytes Timestamp].
  intros Hu ->.
  destruct t; cbn [is_ed] in Hu;
    try (match goal with |- context [ed25519_Sign key ?m] => destruct (ed25519_ok key m Hu) as (Hl & Hs & Hv) end; rewrite Hl; eexists; split; [reflexivity|]; rewrite length_drop, Hl, Hs; exact Hv);
    (match goal with |- context [secp256k1_Sign key ?m] => destruct (Hu m) as (s & Es); destruct (secp256k1_ok key m s Es) as [Hc Hn]; rewrite Es end;
     eexists; split; [reflexivity|]; done).
Qed.

Lemma delegate_snoc k l d : delegate k (l ++ [d]) = SDelegated (delegate k l) d.
Proof. unfold delegate. by rewrite foldl_app. Qed.

Lemma delegate_Metadata k l : Metadata (delegate k l) = Ok (delegate (key_Metadata k) l).
Proof. induction l as [|d l IH] using rev_ind; [done|]. rewrite !delegate_snoc. cbn [Metadata]. by rewrite IH. Qed.

Lemma delegate_unpack k l : unpackSignature (delegate k l) = [delegate k l].
Proof. induction l as [|d l IH] using rev_ind; [done|]. rewrite !delegate_snoc. cbn [unpackSignature]. by rewrite IH. Qed.

Lemma delegate_Verify k l md h : delegated_Verify (delegate k l) md h = key_Verify k (Some md) h.
Proof. induction l as [|d l IH] using rev_ind; [done|]. rewrite !delegate_snoc. exact IH. Qed.

Lemma delegate_hasher k k' l :
  Initiator_hasher (SKey k) = Initiator_hasher (SKey k') -> Initiator_hasher (delegate k l) = Initiator_hasher (delegate k' l).
Proof. intros E. induction l as [|d l IH] using rev_ind; [done|]. rewrite !delegate_snoc. cbn [Initiator_hasher]. by rewrite IH. Qed.

Lemma sign_some signer k k' l md h :
  length h = 32%nat -> SignWith signer (set_TransactionHash h k) (Some md) h = Ok k' -> sign signer (delegate k l) (Some md) h = Ok (delegate k' l).
Proof.
  intros Hl Hs. induction l as [|d l IH] using rev_ind; [cbn; by rewrite to_array_32 by done; cbn; rewrite Hs|].
  rewrite !delegate_snoc. cbn [sign res_bind]. by rewrite IH.
Qed.

(** Signing with a key: within delegations, the metadata must not contain the hash of the
    transaction, which holds for the three types with ED25519 keys. *)
Lemma sign_ok key k l h :
  usable (key_Type k) key -> PublicKey k = public_key (key_Type k) key -> length h = 32%nat -> is_ed (key_Type k) = true \/ l = [] ->
  exists sg, sign (PrivateKey key) (delegate k l) None h = Ok (delegate (set_SigBytes sg (set_TransactionHash h k)) l) /\
    accepts (delegate (set_SigBytes sg (set_TransactionHash h k)) l) h = true.
Proof.
  intros Hu Hp Hl Hor. destruct l as [|d l _] using rev_ind.
  - destruct (private_Sign_ok key (set_TransactionHash h k) None h Hu Hp) as (sg & Es & Hv). exists sg. split; [|exact Hv].
    cbn. rewrite to_array_32 by done. cbn [res_bind]. by rewrite Es.
  - destruct Hor as [Hed|Hn]; [|by apply app_nil in Hn as [_ ?]]. rewrite !delegate_snoc. cbn [sign].
    rewrite <- delegate_snoc, delegate_Metadata. cbn [res_bind]. set (md := signatureHash _).
    destruct (private_Sign_ok key (set_TransactionHash h k) (Some md) h Hu Hp) as (sg & Es & Hv). exists sg.
    rewrite (sign_some (PrivateKey key) k _ l md h Hl Es). cbn [res_bind]. rewrite delegate_snoc. split; [done|].
    cbn [accepts]. rewrite <- delegate_snoc, delegate_Metadata, delegate_Verify.
    replace (key_Metadata (set_SigBytes sg (set_TransactionHash h k))) with (key_Metadata k); [exact Hv|].
    destruct k as [[] p b u v ts vt th]; done.
Qed.

(** The settings that are needed to sign. *)
Record ready (s : Builder) (t : KeySigType) (key : bytes) (u : URL) : Prop := {
  r_type : key_type (if bd_Type s =? 0 then SignatureTypeED25519 else bd_Type s) = Some t;
  r_url : bd_Url s = Some u;
  r_signer : bd_Signer s = Some (PrivateKey key);
  r_usable : usable t key
}.

(** The timestamp that the signature gets. *)
Definition next_timestamp (s : Builder) : Z := match bd_Timestamp s with Some t => fst (Timestamp_Get t) | None => 0 end.

Lemma prepare_ok init s t key u :
  ready s t key u -> (init = true -> Version s <> 0 /\ bd_Timestamp s <> None) ->
  exists s', prepare init s = Ok (mkKeySig t (public_key t key) [] u (Version s) (next_timestamp s) 0 zero_hash, s') /\
    bd_Signer s' = Some (PrivateKey key) /\ Delegators s' = Delegators s /\ InitMode s' = InitMode s.
Proof.
  intros [Ht Hu Hs Hk] Hi. unfold prepare. rewrite Hu, Hs.
  assert (E1 : init && (Version s =? 0) = false) by (destruct init; [apply Z.eqb_neq, (Hi eq_refl)|done]).
  assert (E2 : init && bool_decide (bd_Timestamp s = None) = false) by (destruct init; [apply bool_decide_eq_false, (Hi eq_refl)|done]).
  rewrite E1, E2. set (s1 := if bd_Type s =? 0 then _ else _).
  assert (Es : bd_Type s1 = (if bd_Type s =? 0 then SignatureTypeED25519 else bd_Type s) /\ bd_Timestamp s1 = bd_Timestamp s /\ Version s1 = Version s /\
    bd_Signer s1 = bd_Signer s /\ Delegators s1 = Delegators s /\ InitMode s1 = InitMode s) by (subst s1; by destruct (bd_Type s =? 0)).
  destruct Es as (-> & E3 & E4 & E5 & E6 & E7). rewrite Ht, E3, E4. unfold next_timestamp.
  destruct (bd_Timestamp s) as [ts|]; [destruct (Timestamp_Get ts) as [v ts'] eqn:Eg|]; cbn [SetPublicKey PrivateKey];
    rewrite private_SetPublicKey_ok by done; cbn [res_bind]; eexists; (split; [reflexivity|]); cbn; by rewrite E5, E6, E7.
Qed.

(** The signature that the builder describes. *)
Definition describes (s : Builder) (t : KeySigType) (key : bytes) (u : URL) (sig : Signature) : Prop :=
  exists k, sig = delegate k (Delegators s) /\ key_Type k = t /\ PublicKey k = public_key t key /\ key_Signer k = u /\
    SignerVersion k = Version s /\ Timestamp k = next_timestamp s.

(** C13. Signing: a builder with a usable key makes the signature that its settings describe,
    and the executor accepts it for the message.  This holds for every type of key, and within
    any delegations if the key is an ED25519 key. *)
Theorem Sign_accepted (message : bytes) s t key u :
  ready s t key u -> length message = 32%nat -> is_ed t = true \/ Delegators s = [] ->
  exists sig s', Sign message s = Ok (sig, s') /\ describes s t key u sig /\ accepts sig message = true.
Proof.
  intros Hr Hl Hor. destruct (prepare_ok false s t key u Hr) as (s' & Ep & Es & Ed & _); [done|]. unfold Sign. rewrite Ep. cbn [res_bind]. rewrite Es, Ed.
  destruct (sign_ok key (mkKeySig t (public_key t key) [] u (Version s) (next_timestamp s) 0 zero_hash) (Delegators s) message (r_usable _ _ _ _ Hr) eq_refl Hl Hor) as (sg & Esig & Hv).
  rewrite Esig. cbn [res_bind]. eexists _, s'. split; [done|]. split; [|exact Hv]. by eexists.
Qed.

Lemma hasher_ok k : (zlen (PublicKey k) =? 0) = false -> SignerVersion k <> 0 -> Timestamp k <> 0 ->
  forall l, exists hs, Initiator_hasher (delegate k l) = Ok (Some <$> hs) /\ hs <> [] /\ zlen hs = 4 + zlen l /\ Forall (fun h => length h = 32%nat) hs.
Proof.
  intros E1 E2 E3 l. induction l as [|d l (hs & IH & Hne & Hlen & HF)] using rev_ind.
  - cbn [delegate foldl Initiator_hasher]. rewrite E1, (proj2 (Z.eqb_neq _ _) E2), (proj2 (Z.eqb_neq _ _) E3). cbn [orb].
    unfold AddUint, AddBytes, hasher_append. eexists [_; _; _; _]. split; [done|]. split; [done|]. split; [done|].
    repeat apply Forall_cons_2; try apply Forall_nil_2; apply sha256_length.
  - rewrite delegate_snoc. cbn [Initiator_hasher]. rewrite IH. cbn [res_bind]. unfold hasher_append. exists (hs ++ [sha256 (URL_String d)]).
    rewrite fmap_app. split; [done|]. split; [by destruct hs|]. rewrite !zlen_app. change (zlen [_]) with 1. split; [lia|].
    apply Forall_app. split; [done|]. constructor; [apply sha256_length|done].
Qed.

Context {SG UB : Type} `{!Union SG, !Union UB}.

(** C14. Initiating: a builder with a usable key, a URL, a version and a timestamp that
    initiates a transaction makes a signature that the executor accepts for the transaction
    and takes for the signature that initiated it: with an ED25519 key by the simple or by the
    Merkle hash and within any delegations, and with a key of another type by the Merkle hash
    without delegations (with delegations, or by the simple hash, such signatures are not
    accepted, or not taken for the initiator).  The timestamp is not zero for the Merkle hash.
    The rest of the transaction is unchanged. *)
Theorem Initiate_accepted (txn : Txn (TransactionBody SG UB)) s t key u :
  ready s t key u -> Version s <> 0 -> bd_Timestamp s <> None -> zlen (Delegators s) < 2 ^ 62 ->
  is_ed t = true \/ (Delegators s = [] /\ InitMode s = InitWithMerkleHash) -> InitMode s = InitWithSimpleHash \/ next_timestamp s <> 0 ->
  (forall h, length h = 32%nat -> exists th, GetHash (set_Initiator h txn) = Ok th /\ length th = 32%nat) ->
  exists sig h s' th, Initiate txn s = Ok (sig, set_Initiator h txn, s') /\ GetHash (set_Initiator h txn) = Ok th /\
    describes s t key u sig /\ accepts sig th = true /\ SignatureDidInitiate sig h = Ok true.
Proof.
  intros Hr Hv Ht Hd Hor Hts Hh. destruct (prepare_ok true s t key u Hr) as (s' & Ep & Es & Ed & Em); [done|]. unfold Initiate. rewrite Ep. cbn [res_bind]. rewrite Es, Ed, Em.
  set (k := mkKeySig t (public_key t key) [] u (Version s) (next_timestamp s) 0 zero_hash). set (l := Delegators s) in *.
  assert (Hpk : (zlen (PublicKey k) =? 0) = false).
  { apply Z.eqb_neq. pose proof (r_usable _ _ _ _ Hr) as Hu. unfold usable in Hu. subst k. cbn [PublicKey]. unfold zlen, public_key.
    pose proof (secp256k1_pub key) as [Hp1 Hp2]. destruct t; cbn [is_ed] in Hu;
      try (destruct (ed25519_ok key [] Hu) as (Hl & _); rewrite length_drop, Hl; lia); [destruct (secp256k1_Compressed key)|destruct (secp256k1_Uncompressed key)..]; done. }
  set (init := match InitMode s with InitWithMerkleHash => _ | InitWithSimpleHash => _ end).
  assert (exists h, init = Ok h /\ length h = 32%nat /\ forall sg th, SignatureDidInitiate (delegate (set_SigBytes sg (set_TransactionHash th k)) l) h = Ok true) as (h & -> & Hlen & Hdid).
  { subst init. unfold SignatureDidInitiate. destruct (InitMode s) eqn:EI.
    - destruct (hasher_ok k Hpk Hv ltac:(destruct Hts; done) l) as (hs & Ehs & Hne & Hlhs & HF). rewrite Ehs. cbn [res_bind]. eexists. split; [done|].
      rewrite MerkleHash_mth by (done || lia). split; [by apply length_mth|]. intros sg th. rewrite delegate_unpack. cbn [find_initiator]. rewrite delegate_Metadata. cbn [res_bind].
      destruct (bytes_eqb _ _); [done|].
      rewrite (delegate_hasher _ k) by done. rewrite Ehs, MerkleHash_mth by (done || lia). unfold bytes_eqb. rewrite bool_decide_true by done. cbn. done.
    - rewrite delegate_Metadata. cbn [res_bind]. eexists. split; [done|]. split; [apply sha256_length|]. intros sg th. rewrite delegate_unpack. cbn [find_initiator].
      rewrite delegate_Metadata. cbn [res_bind]. destruct Hor as [Hed|[_ ?]]; [|done].
      replace (key_Metadata (set_SigBytes sg (set_TransactionHash th k))) with (key_Metadata k) by (subst k; by destruct t).
      unfold bytes_eqb. rewrite bool_decide_true by done. cbn. done. }
  cbn [res_bind]. rewrite (to_array_32 h Hlen). cbn [res_bind]. destruct (Hh h Hlen) as (th & Eth & Hth). rewrite Eth. cbn [res_bind].
  destruct (sign_ok key k l th (r_usable _ _ _ _ Hr) eq_refl Hth) as (sg & Esig & Hacc); [destruct Hor as [?|[? _]]; [by left|by right]|].
  rewrite Esig. cbn [res_bind]. eexists _, h, s', th. split; [done|]. split; [done|]. split; [by eexists|]. by split.
Qed.

End Laws.

(** ** Importing a signature *)

Lemma key_type_SignatureType k : key_type (SignatureType (SKey k)) = Some (key_Type k).
Proof. by destruct k as [[] ? ? ? ? ? ? ?]. Qed.

Lemma Import_delegate k l s :
  Import_ (delegate k l) s = Ok (mkBuilder (InitMode s) (SignatureType (SKey k)) (Some (key_Signer k)) (Delegators s ++ l) (bd_Signer s)
    (SignerVersion k) (Some (TimestampFromValue (Timestamp k)))).
Proof.
  revert s. induction l as [|d l IH] using rev_ind; intros s; [cbn; by rewrite app_nil_r|]. rewrite delegate_snoc. cbn [Import_]. rewrite IH. cbn [res_bind].
  unfold AddDelegator. cbn. by rewrite app_assoc.
Qed.

(** Importing a signature into a builder and signing with the same key makes a signature
    with the same metadata: the signer, its version, the timestamp, the key and the delegators
    are those of the imported signature. *)
Theorem Import_Sign `{SigningLaws} k l key s message :
  usable (key_Type k) key -> PublicKey k = public_key (key_Type k) key -> key_Vote k = 0 -> Delegators s = [] -> length message = 32%nat ->
  is_ed (key_Type k) = true \/ l = [] ->
  exists s1, Import_ (delegate k l) (SetPrivateKey key s) = Ok s1 /\
  exists k' s2, Sign message s1 = Ok (delegate k' l, s2) /\ accepts (delegate k' l) message = true /\ key_TransactionHash k' = message /\
    key_Metadata (set_TransactionHash zero_hash k') = key_Metadata (set_TransactionHash zero_hash k).
Proof.
  intros Hu Hp Hvo Hd Hl Hor. rewrite Import_delegate. cbn [SetPrivateKey SetSigner Delegators]. rewrite Hd. cbn [app]. eexists. split; [done|].
  set (s1 := mkBuilder _ _ _ _ _ _ _). assert (Hr : ready s1 (key_Type k) key (key_Signer k)).
  { split; try done. cbn [bd_Type s1]. replace (SignatureType (SKey k) =? 0) with false by by destruct k as [[] ? ? ? ? ? ? ?]. apply key_type_SignatureType. }
  destruct (prepare_ok false s1 _ key _ Hr) as (s' & Ep & Es & Ed & _); [done|]. unfold Sign. rewrite Ep. cbn [res_bind]. rewrite Es, Ed. change (Delegators s1) with l.
  match type of Ep with _ = Ok (?x, _) => destruct (sign_ok key x l message Hu eq_refl Hl Hor) as (sg & Esig & Hv) end.
  rewrite Esig. cbn [res_bind]. eexists _, s'. split; [done|]. split; [exact Hv|]. split; [done|].
  destruct k as [t p b u v ts vt th]. cbn in *. subst p vt. by destruct t.
Qed.

(** ** Examples *)

(** A toy signature scheme: the signature repeats the message and the key. *)
#[local] Instance demo_keys : Crypto := {|
  sig_MarshalBinary := fix go s := match s with
    | SKey k => PublicKey k ++ SigBytes k ++ URL_String (key_Signer k) ++ Binary.PutUvarint (SignerVersion k) ++ Binary.PutUvarint (Timestamp k) ++ key_TransactionHash k
    | SDelegated s d => go s ++ URL_String d
    | _ => [] end;
  ripemd160 b := b; keccak256 b := b;
  ed25519_Verify p m s := bytes_eqb s (sha256 m ++ p);
  secp256k1_Verify p m s := bytes_eqb s (m ++ drop 1 p) |}.

#[local] Instance demo_signing : SigningCrypto := {|
  ed25519_Sign key m := sha256 m ++ drop 32 key;
  secp256k1_Compressed key := Byte.x02 :: key;
  secp256k1_Uncompressed key := Byte.x04 :: key;
  secp256k1_Sign key m := Some (m ++ key) |}.

#[local] Instance demo_laws : SigningLaws.
Proof.
  refine {| ed25519_key key := length key = 64%nat |}.
  - intros key m Hl. split; [done|]. cbn [ed25519_Sign demo_signing ed25519_Verify demo_keys]. split; [by rewrite length_app, sha256_length, length_drop, Hl|].
    unfold bytes_eqb. by apply bool_decide_eq_true.
  - intros key m s [= <-]. cbn. unfold bytes_eqb. by rewrite !bool_decide_eq_true.
  - done.
Defined.

Definition demo_ed_key : bytes := replicate 32 Byte.x11 ++ replicate 32 Byte.x22.
Definition demo_page : URL := mkURL [] (str "alice.acme") (str "/book/1") [] [].
Definition demo_delegator : URL := mkURL [] (str "bob.acme") (str "/book/1") [] [].
Definition demo_message : bytes := replicate 32 Byte.x33.
Definition demo_builder (typ : Z) : Builder :=
  AddDelegator demo_delegator (SetTimestampWithVar 4 (SetVersion 2 (SetUrl demo_page (SetPrivateKey demo_ed_key (SetType typ new_Builder))))).

Lemma Sign_accepted_witness :
  exists sig s', Sign demo_message (demo_builder 0) = Ok (sig, s') /\ accepts sig demo_message = true /\ next_timestamp (demo_builder 0) = 5.
Proof.
  destruct (Sign_accepted demo_message (demo_builder 0) KED25519 demo_ed_key demo_page ltac:(by split) eq_refl ltac:(by left)) as (sig & s' & E & _ & Ha).
  exists sig, s'. split; [exact E|]. split; [exact Ha|reflexivity].
Defined.

Lemma Import_Sign_witness :
  exists s1 k' s2, Import_ (delegate (mkKeySig KRCD1 (drop 32 demo_ed_key) [] demo_page 3 9 0 zero_hash) [demo_delegator; demo_page]) (SetPrivateKey demo_ed_key new_Builder) = Ok s1 /\
    Sign demo_message s1 = Ok (delegate k' [demo_delegator; demo_page], s2) /\ accepts (delegate k' [demo_delegator; demo_page]) demo_message = true.
Proof.
  assert (Hu : usable KRCD1 demo_ed_key) by reflexivity.
  destruct (Import_Sign (mkKeySig KRCD1 (drop 32 demo_ed_key) [] demo_page 3 9 0 zero_hash) [demo_delegator; demo_page] demo_ed_key new_Builder demo_message
    Hu eq_refl eq_refl eq_refl eq_refl ltac:(by left)) as (s1 & E1 & k' & s2 & E2 & Ha & _).
  exists s1, k', s2. split; [exact E1|]. split; [exact E2|exact Ha].
Defined.

#[local] Existing Instance empty_union.
#[local] Existing Instance empty_laws.

Lemma burn_tokens_hash h : length h = 32%nat -> exists th, GetHash (set_Initiator h burn_tokens) = Ok th /\ length th = 32%nat.
Proof.
  intros Hl. destruct (TransactionHeader_survives (Transaction_Header (set_Initiator h burn_tokens))) as (x & E & _); [by repeat split|].
  unfold GetHash. rewrite E. cbn [set_Initiator burn_tokens Transaction_Body]. cbn [getBodyHash].
  destruct (TransactionBody_MarshalBinary _) eqn:Em; [|vm_compute in Em; discriminate..]. eexists. split; [reflexivity|apply sha256_length].
Qed.

Lemma Initiate_accepted_witness :
  exists sig h s' th, Initiate burn_tokens (demo_builder 0) = Ok (sig, set_Initiator h burn_tokens, s') /\ GetHash (set_Initiator h burn_tokens) = Ok th /\
    accepts sig th = true /\ SignatureDidInitiate sig h = Ok true.
Proof.
  destruct (Initiate_accepted burn_tokens (demo_builder 0) KED25519 demo_ed_key demo_page ltac:(by split) ltac:(discriminate) ltac:(discriminate) ltac:(reflexivity) ltac:(by left)
    ltac:(right; discriminate) burn_tokens_hash) as (sig & h & s' & th & E & Et & _ & Ha & Hd).
  exists sig, h, s', th. split; [exact E|]. split; [exact Et|]. split; [exact Ha|exact Hd].
Defined.

(** The metadata of a signature with a secp256k1 key contains the hash of the transaction, which
    is not set yet when the initiator hash and the hash of the metadata of a delegated signature
    are computed: such a transaction is not initiated by the simple hash, and such a signature
    within a delegation is not accepted. *)
Example secp256k1_simple_hash :
  match Initiate burn_tokens (mkBuilder InitWithSimpleHash SignatureTypeBTC (Some demo_page) [] (Some (PrivateKey demo_ed_key)) 2 (Some (TimestampFromValue 5))) with
  | Ok (sig, txn, _) =>
      match GetHash txn with
      | Ok th => accepts sig th && match SignatureDidInitiate sig (TransactionHeader_Initiator (Transaction_Header txn)) with Ok b => negb b | _ => false end
      | _ => false
      end
  | _ => false
  end = true.
Proof. vm_compute. reflexivity. Qed.

Example secp256k1_delegated :
  match Sign demo_message (demo_builder SignatureTypeETH) with Ok (sig, _) => negb (accepts sig demo_message) | _ => false end = true.
Proof. vm_compute. reflexivity. Qed.
