(* ===== verification/Anchors.v ===== *)
(** * The anchors between partitions: [internal/chain/partition_anchor.go],
      [internal/chain/directory_anchor.go], and the preparation of anchors in
      [internal/block/block_end.go]

    At the end of a block a partition prepares an anchor, which it sends at the start of the
    next one with the root of the block.  The partitions send theirs to the directory, which
    puts the roots on chains of its own, and sends an anchor with receipts from these roots to
    its own root to all partitions.  Major blocks are opened by the directory and completed
    when the anchors of all partitions have arrived. *)

From stdpp Require Import functions sorting.
From S2P Require Import Prelude Sha256 Encoding MerkleTree MerkleState Receipt Chain ChainProofs SortUtil Url.
From S2P Require Import UrlProofs AdiUrl KeyPages StateManager Codec CodecProofs Enums Wire TypesGeneral TypesAccounts.
From S2P Require Import TypesTransactions TypesStatus TypesDatabase TransactionHash DataModel DbChain Indexing Anchoring.
Local Open Scope Z_scope.
Import Url TxID.

(** ** The state of a partition *)

Section Anchors.
Context {S TB ER SG UB : Type} `{!ChainStore S, !Union SG, !Union UB}.
Abbreviation Batch := (Anchoring.Batch (S:=S) (TB:=TB) (ER:=ER)).
Abbreviation Body := (TransactionBody SG UB).

(** The system ledger of the partition. *)
Record LedgerState := mkLedger {
  ls_Index : Z;
  ls_Timestamp : Z;
  ls_AcmeBurnt : Z;
  ls_PendingUpdates : list (NetworkAccountUpdate UB);
  ls_Anchor : option Body
}.

(** A signature that is stored with a transaction: none under its hash, one that says from
    where the transaction comes, with the number it has there, or another one. *)
Inductive StoredSignature := MissingSignature | PartitionSig (sequenceNumber : Z) | OtherSignature.

(** The accounts that anchors change: the chains, the system ledger, the anchor ledger and the
    ledger of synthetic transactions, and the issuer of ACME on the directory.  Further the
    transactions that wait for an anchor, and for every transaction its state and the
    signatures of each signer of its status. *)
Record Node := mkNode {
  n_batch : Batch;
  n_ledger : LedgerState;
  n_anchors : AnchorLedger;
  n_synth : SyntheticLedger;
  n_issued : option Z;
  n_waiting : bytes -> list TxID;
  n_signatures : bytes -> list (list StoredSignature);
  n_txns : bytes -> option (SigOrTxn SG Body)
}.

Definition set_batch (b : Batch) (n : Node) : Node :=
  mkNode b (n_ledger n) (n_anchors n) (n_synth n) (n_issued n) (n_waiting n) (n_signatures n) (n_txns n).
Definition set_ledger (l : LedgerState) (n : Node) : Node :=
  mkNode (n_batch n) l (n_anchors n) (n_synth n) (n_issued n) (n_waiting n) (n_signatures n) (n_txns n).
Definition set_anchors (l : AnchorLedger) (n : Node) : Node :=
  mkNode (n_batch n) (n_ledger n) l (n_synth n) (n_issued n) (n_waiting n) (n_signatures n) (n_txns n).
Definition set_synthLedger (l : SyntheticLedger) (n : Node) : Node :=
  mkNode (n_batch n) (n_ledger n) (n_anchors n) l (n_issued n) (n_waiting n) (n_signatures n) (n_txns n).
Definition set_issued (i : option Z) (n : Node) : Node :=
  mkNode (n_batch n) (n_ledger n) (n_anchors n) (n_synth n) i (n_waiting n) (n_signatures n) (n_txns n).
Definition set_txn (h : bytes) (t : SigOrTxn SG Body) (n : Node) : Node :=
  mkNode (n_batch n) (n_ledger n) (n_anchors n) (n_synth n) (n_issued n) (n_waiting n) (n_signatures n) (<[h := Some t]> (n_txns n)).

(** [Partition] of both ledgers: the position of the partition's entry, which is added if it is
    missing; the entries have URLs. *)
Definition Partition (u : URL) (l : list TransactionExchangeLedger) : res (list TransactionExchangeLedger * Z) :=
  let! (l, ptr, create) := BinaryInsert new_TransactionExchangeLedger l
    (fun e => compare_option Compare (TransactionExchangeLedger_Url e) (Some u)) in
  Ok (if (create : bool) then store_at l ptr (Build_TransactionExchangeLedger (Some u) 0 0 0 0 [] []) else l, ptr).

Definition SynthFrom (u : URL) (a : PartitionAnchor) : res TransactionExchangeLedger :=
  let! (i, found) := Search (PartitionAnchor_Synthetic a) (fun e => compare_option Compare (TransactionExchangeLedger_Url e) (Some u)) in
  if (found : bool) then index (PartitionAnchor_Synthetic a) i else Ok new_TransactionExchangeLedger.

Definition set_Produced (n : Z) (e : TransactionExchangeLedger) : TransactionExchangeLedger :=
  Build_TransactionExchangeLedger (TransactionExchangeLedger_Url e) n (TransactionExchangeLedger_Acknowledged e)
    (TransactionExchangeLedger_Received e) (TransactionExchangeLedger_Delivered e) (TransactionExchangeLedger_Pending e)
    (TransactionExchangeLedger_extraData e).
Definition set_Acknowledged (n : Z) (e : TransactionExchangeLedger) : TransactionExchangeLedger :=
  Build_TransactionExchangeLedger (TransactionExchangeLedger_Url e) (TransactionExchangeLedger_Produced e) n
    (TransactionExchangeLedger_Received e) (TransactionExchangeLedger_Delivered e) (TransactionExchangeLedger_Pending e)
    (TransactionExchangeLedger_extraData e).

Definition set_AnchorExchange (l : list TransactionExchangeLedger) (a : AnchorLedger) : AnchorLedger :=
  Build_AnchorLedger (AnchorLedger_Url a) (AnchorLedger_MajorBlockIndex a) (AnchorLedger_MajorBlockTime a)
    (AnchorLedger_PendingMajorBlockAnchors a) l (AnchorLedger_extraData a).
Definition set_PendingMajor (l : list (option URL)) (a : AnchorLedger) : AnchorLedger :=
  Build_AnchorLedger (AnchorLedger_Url a) (AnchorLedger_MajorBlockIndex a) (AnchorLedger_MajorBlockTime a)
    l (AnchorLedger_Exchange a) (AnchorLedger_extraData a).
Definition set_SynthExchange (l : list TransactionExchangeLedger) (s : SyntheticLedger) : SyntheticLedger :=
  Build_SyntheticLedger (SyntheticLedger_Url s) l (SyntheticLedger_extraData s).

(** ** The state of a transaction and of a block: [state_state.go], [internal/block/state.go] *)

(** [Body.GetPartitionAnchor()] of the anchor, and the number in its status. *)
Record ReceivedAnchor := mkReceived { ra_Partition : bytes; ra_Body : PartitionAnchor; ra_Index : Z; ra_SequenceNumber : Z }.

(** The deliveries that are executed after an anchor. *)
Inductive Additional :=
| NewSyntheticReceipt (hash : bytes) (source : URL) (receipt : TypesGeneral.Receipt)
| NewSyntheticFromSequence (hash : bytes)
| NewChild (hash : bytes)
| NewInternal (principal : URL) (body : option UB).

Record TransactionState := mkState {
  t_ProducedTxns : list ProducedTxn;
  t_AdditionalTransactions : list Additional;
  t_ChainUpdates : ChainUpdates;
  t_MakeMajorBlock : Z;
  t_MakeMajorBlockTime : Z;
  t_ReceivedAnchors : list ReceivedAnchor
}.

Definition new_TransactionState : TransactionState := mkState [] [] (mkUpdates [] []) 0 time_zero [].

Definition DidReceiveAnchor (partition : bytes) (body : PartitionAnchor) (index sequence : Z) (t : TransactionState) : TransactionState :=
  mkState (t_ProducedTxns t) (t_AdditionalTransactions t) (t_ChainUpdates t) (t_MakeMajorBlock t) (t_MakeMajorBlockTime t)
    (t_ReceivedAnchors t ++ [mkReceived partition body index sequence]).

Definition ProcessAdditionalTransaction (a : Additional) (t : TransactionState) : TransactionState :=
  mkState (t_ProducedTxns t) (t_AdditionalTransactions t ++ [a]) (t_ChainUpdates t) (t_MakeMajorBlock t) (t_MakeMajorBlockTime t)
    (t_ReceivedAnchors t).

Definition set_ChainUpdates (c : ChainUpdates) (t : TransactionState) : TransactionState :=
  mkState (t_ProducedTxns t) (t_AdditionalTransactions t) c (t_MakeMajorBlock t) (t_MakeMajorBlockTime t) (t_ReceivedAnchors t).

Definition set_MajorBlock (index time : Z) (t : TransactionState) : TransactionState :=
  mkState (t_ProducedTxns t) (t_AdditionalTransactions t) (t_ChainUpdates t) index time (t_ReceivedAnchors t).

Definition TransactionState_Merge (s r : TransactionState) : TransactionState :=
  mkState (t_ProducedTxns s ++ t_ProducedTxns r) (t_AdditionalTransactions s ++ t_AdditionalTransactions r)
    (ChainUpdates_Merge (t_ChainUpdates s) (t_ChainUpdates r))
    (if 0 <? t_MakeMajorBlock r then t_MakeMajorBlock r else t_MakeMajorBlock s)
    (if 0 <? t_MakeMajorBlock r then t_MakeMajorBlockTime r else t_MakeMajorBlockTime s)
    (t_ReceivedAnchors s ++ t_ReceivedAnchors r).

Record BlockAnchorState := mkAnchorState { ShouldOpenMajorBlock : bool; OpenMajorBlockTime : Z }.

Record BlockState := mkBlockState {
  OpenedMajorBlock : bool;
  bs_MakeMajorBlock : Z;
  bs_MakeMajorBlockTime : Z;
  bs_Delivered : Z;
  bs_Signed : Z;
  bs_ProducedTxns : list ProducedTxn;
  bs_ChainUpdates : ChainUpdates;
  bs_ReceivedAnchors : list ReceivedAnchor;
  bs_Anchor : option BlockAnchorState
}.

Definition new_BlockState : BlockState := mkBlockState false 0 time_zero 0 0 [] (mkUpdates [] []) [] None.

Definition Empty (s : BlockState) : bool :=
  negb (OpenedMajorBlock s) && is_nil (bs_Anchor s) && (bs_Delivered s =? 0) && (bs_Signed s =? 0)
    && (zlen (bs_ProducedTxns s) =? 0) && (zlen (Entries (bs_ChainUpdates s)) =? 0).

Definition MergeSignature (s : BlockState) : BlockState :=
  mkBlockState (OpenedMajorBlock s) (bs_MakeMajorBlock s) (bs_MakeMajorBlockTime s) (bs_Delivered s) (u64 (bs_Signed s + 1))
    (bs_ProducedTxns s) (bs_ChainUpdates s) (bs_ReceivedAnchors s) (bs_Anchor s).

Definition MergeTransaction (r : TransactionState) (s : BlockState) : BlockState :=
  mkBlockState (OpenedMajorBlock s)
    (if 0 <? t_MakeMajorBlock r then t_MakeMajorBlock r else bs_MakeMajorBlock s)
    (if 0 <? t_MakeMajorBlock r then t_MakeMajorBlockTime r else bs_MakeMajorBlockTime s)
    (u64 (bs_Delivered s + 1)) (bs_Signed s) (bs_ProducedTxns s ++ t_ProducedTxns r)
    (ChainUpdates_Merge (bs_ChainUpdates s) (t_ChainUpdates r)) (bs_ReceivedAnchors s ++ t_ReceivedAnchors r) (bs_Anchor s).

Definition set_Anchor (a : option BlockAnchorState) (s : BlockState) : BlockState :=
  mkBlockState (OpenedMajorBlock s) (bs_MakeMajorBlock s) (bs_MakeMajorBlockTime s) (bs_Delivered s) (bs_Signed s)
    (bs_ProducedTxns s) (bs_ChainUpdates s) (bs_ReceivedAnchors s) a.

(** ** Receiving anchors *)

Definition anchorRoot (account : URL) (partition : bytes) : Chain2 := mkChain2 account (AnchorRootChain (lower_partition partition)) false.
Definition anchorBPT (account : URL) (partition : bytes) : Chain2 := mkChain2 account (AnchorBPTChain (lower_partition partition)) false.

(** The number of a waiting transaction, from the first partition signature of its signers. *)
Fixpoint first_partition_signature (l : list StoredSignature) : res Z :=
  match l with
  | [] => errors_new StatusInternalError "cannot find synthetic signature"
  | MissingSignature :: _ => errors_new StatusNotFound "load signature"
  | PartitionSig sequenceNumber :: _ => Ok sequenceNumber
  | OtherSignature :: l => first_partition_signature l
  end.

Definition getSyntheticSignature (n : Node) (h : bytes) : res Z := first_partition_signature (concat (n_signatures n h)).

(** The deliveries of the waiting transactions, each with its number. *)
Fixpoint sequenced (make : bytes -> Additional) (n : Node) (synth : list TxID) : res (list (Additional * Z)) :=
  match synth with
  | [] => Ok []
  | txid :: synth =>
      let! sequenceNumber := getSyntheticSignature n (hash txid) in
      let! deliveries := sequenced make n synth in
      Ok ((make (hash txid), i64 sequenceNumber) :: deliveries)
  end.

Definition loadSynthTxns (n : Node) (anchor : bytes) (source : URL) (receipt : option TypesGeneral.Receipt) : res (list (Additional * Z)) :=
  let! anchor := to_array anchor in
  sequenced (fun h => match receipt with Some r => NewSyntheticReceipt h source r | None => NewSyntheticFromSequence h end) n (n_waiting n anchor).

Fixpoint load_receipts (n : Node) (root : bytes) (source : URL) (receipts : list PartitionAnchorReceipt) : res (list (Additional * Z)) :=
  match receipts with
  | [] => Ok []
  | receipt :: receipts =>
      match PartitionAnchorReceipt_RootChainReceipt receipt with
      | None => Panic "invalid memory address or nil pointer dereference"
      | Some r =>
          if negb (bytes_eqb (Receipt_Anchor r) root) then errorf "receipt is invalid: result does not match the anchor"
          else
            let! d := loadSynthTxns n (Receipt_Start r) source (Some r) in
            let! deliveries := load_receipts n root source receipts in
            Ok (d ++ deliveries)
      end
  end.

Section Sort.
(** The deliveries, sorted by their numbers. *)
Context (sort_slice : list (Additional * Z) -> list (Additional * Z)).

Definition submit (deliveries : list (Additional * Z)) (t : TransactionState) : TransactionState :=
  foldl (fun t d => ProcessAdditionalTransaction (fst d) t) t (sort_slice deliveries).

Definition processReceiptsFromDirectory (source : URL) (body : DirectoryAnchor UB) (n : Node) (t : TransactionState) : res TransactionState :=
  let root := PartitionAnchor_RootChainAnchor (DirectoryAnchor_PartitionAnchor body) in
  let! d := loadSynthTxns n root source None in
  let! ds := load_receipts n root source (DirectoryAnchor_Receipts body) in
  Ok (submit (d ++ ds) t).

(** Removing the source from the list of pending anchors, if it is there. *)
Fixpoint remove_pending (source : URL) (l : list (option URL)) : option (list (option URL)) :=
  match l with
  | [] => None
  | u :: l => if Equal u (Some source) then Some l else (cons u) <$> remove_pending source l
  end.

(** Both executors put the roots on the chains of the source. *)
Definition add_anchor (originUrl : URL) (name : bytes) (a : PartitionAnchor) (sequence : Z) (n : Node) (t : TransactionState)
    : res (Node * TransactionState) :=
  let! (index, c, b) := AddChainEntry2 (anchorRoot originUrl name) (PartitionAnchor_RootChainAnchor a) false (t_ChainUpdates t) (n_batch n) in
  let t := DidReceiveAnchor name a index sequence (set_ChainUpdates c t) in
  let! (_, c, b) := AddChainEntry2 (anchorBPT originUrl name) (PartitionAnchor_StateTreeAnchor a) false (t_ChainUpdates t) b in
  Ok (set_batch b n, set_ChainUpdates c t).

(** The anchor of a partition, on the directory.  The anchor pool is the only anchor ledger of
    a partition; [sequence] is the number in the status of the transaction. *)
Definition PartitionAnchor_Validate (d : Describe) (originUrl : URL) (body : BlockValidatorAnchor) (sequence : Z) (n : Node) (t : TransactionState)
    : res (Node * TransactionState) :=
  let a := BlockValidatorAnchor_PartitionAnchor body in
  if negb (Equal (Some originUrl) (Some (AnchorPool d))) then errorf "invalid principal"
  else
    match PartitionAnchor_Source a with
    | None => Panic "invalid memory address or nil pointer dereference"
    | Some source =>
        match ParsePartitionUrl source with
        | None => errorf "invalid source: not a BVN or the DN"
        | Some name =>
            match n_issued n with
            | None => errorf "unable to load acme ledger"
            | Some issued =>
                let n := set_issued (Some (issued - BlockValidatorAnchor_AcmeBurnt body)) n in
                let! (n, t) := add_anchor originUrl name a sequence n t in
                if 0 <? PartitionAnchor_MajorBlockIndex a then
                  match remove_pending source (AnchorLedger_PendingMajorBlockAnchors (n_anchors n)) with
                  | None => errors_new StatusInternalError "partition is not in the pending list"
                  | Some l =>
                      let ledger := set_PendingMajor l (n_anchors n) in
                      Ok (set_anchors ledger n,
                          match l with
                          | [] => set_MajorBlock (AnchorLedger_MajorBlockIndex ledger) (AnchorLedger_MajorBlockTime ledger) t
                          | _ :: _ => t
                          end)
                  end
                else
                  let! deliveries := sequenced NewChild n (n_waiting n (PartitionAnchor_RootChainAnchor a)) in
                  Ok (n, submit deliveries t)
            end
        end
    end.

(** [processNetworkAccountUpdates]: the internal transactions for the updates of the directory. *)
Definition push_updates (d : Describe) (updates : list (NetworkAccountUpdate UB)) (t : TransactionState) : TransactionState :=
  foldl (fun t update =>
    ProcessAdditionalTransaction (NewInternal
      (if String.eqb (NetworkAccountUpdate_Name update) "operators" then FormatKeyPageUrl (NodeUrl d [str "operators"]) 0
       else NodeUrl d [str (NetworkAccountUpdate_Name update)]) (NetworkAccountUpdate_Body update)) t) t updates.

(** Acknowledging the anchors and transactions that the directory saw: the two ledgers, and
    whether they changed. *)
Fixpoint acknowledge (d : Describe) (source : URL) (receipts : list PartitionAnchorReceipt)
    (la : list TransactionExchangeLedger) (da : bool) (ls : list TransactionExchangeLedger) (ds : bool)
    : res (list TransactionExchangeLedger * bool * list TransactionExchangeLedger * bool) :=
  match receipts with
  | [] => Ok (la, da, ls, ds)
  | receipt :: receipts =>
      match PartitionAnchorReceipt_Anchor receipt with
      | None => Panic "invalid memory address or nil pointer dereference"
      | Some anchor =>
          let! (la, da) :=
            if Equal (Some (NodeUrl d [])) (PartitionAnchor_Source anchor) then
              let! (la, i) := Partition source la in
              let! ledger := index la i in
              if TransactionExchangeLedger_Acknowledged ledger <? PartitionAnchorReceipt_SequenceNumber receipt then
                Ok (store_at la i (set_Acknowledged (PartitionAnchorReceipt_SequenceNumber receipt) ledger), true)
              else Ok (la, da)
            else Ok (la, da) in
          match PartitionAnchor_Source anchor with
          | None => Panic "invalid memory address or nil pointer dereference"
          | Some from =>
              let! anchorTxl := SynthFrom (NodeUrl d []) anchor in
              let! (ls, i) := Partition from ls in
              let! localTxl := index ls i in
              if TransactionExchangeLedger_Acknowledged localTxl <? TransactionExchangeLedger_Delivered anchorTxl then
                acknowledge d source receipts la da (store_at ls i (set_Acknowledged (TransactionExchangeLedger_Delivered anchorTxl) localTxl)) true
              else acknowledge d source receipts la da ls ds
          end
      end
  end.

(** The anchor of the directory. *)
Definition DirectoryAnchor_Validate (d : Describe) (originUrl : URL) (body : DirectoryAnchor UB) (sequence : Z) (n : Node) (t : TransactionState)
    : res (Node * TransactionState) :=
  let a := DirectoryAnchor_PartitionAnchor body in
  if negb (Equal (Some originUrl) (Some (AnchorPool d))) then errorf "invalid principal"
  else
    match PartitionAnchor_Source a with
    | None => Panic "invalid memory address or nil pointer dereference"
    | Some source =>
        if negb (IsDnUrl source) then errorf "invalid source: not the DN"
        else
          let t := if IsDirectory d then t else set_MajorBlock (DirectoryAnchor_MakeMajorBlock body) (DirectoryAnchor_MakeMajorBlockTime body) t in
          let! (n, t) := add_anchor originUrl (str "Directory") a sequence n t in
          let t := if IsDirectory d then t else push_updates d (DirectoryAnchor_Updates body) t in
          let! (la, da, ls, ds) := acknowledge d source (DirectoryAnchor_Receipts body)
            (AnchorLedger_Exchange (n_anchors n)) false (SyntheticLedger_Exchange (n_synth n)) false in
          let n := if (da : bool) then set_anchors (set_AnchorExchange la (n_anchors n)) n else n in
          let n := if (ds : bool) then set_synthLedger (set_SynthExchange ls (n_synth n)) n else n in
          if IsDirectory d then Ok (n, t)
          else let! t := processReceiptsFromDirectory source body n t in Ok (n, t)
    end.

End Sort.

(** ** Preparing anchors: [block_end.go] *)

(** The schedule of major blocks; the function from a time to the next one is a third-party
    package's. *)
Record Scheduler := mkScheduler { majorBlockSchedule : option (Z -> Z); nextMajorBlockTime : Z }.

Definition UpdateNextMajorBlockTime (blockTime : Z) (s : Scheduler) : res Scheduler :=
  match majorBlockSchedule s with
  | None => Panic "invalid memory address or nil pointer dereference"
  | Some next => Ok (mkScheduler (majorBlockSchedule s) (next blockTime))
  end.

Definition GetNextMajorBlockTime (blockTime : Z) (s : Scheduler) : res (Z * Scheduler) :=
  let! s := if nextMajorBlockTime s =? time_zero then UpdateNextMajorBlockTime blockTime s else Ok s in
  Ok (nextMajorBlockTime s, s).

Definition IsInitialized (s : Scheduler) : bool := negb (is_nil (majorBlockSchedule s)).

(** Whether a major block is opened, and its time. *)
Definition shouldOpenMajorBlock (d : Describe) (blockTime : Z) (s : option Scheduler) : res (bool * Z * option Scheduler) :=
  if negb (IsDirectory d) then Ok (false, time_zero, s)
  else
    match s with
    | None => Ok (false, time_zero, s)
    | Some sch =>
        if negb (IsInitialized sch) then Ok (false, time_zero, s)
        else
          let! (nextBlockTime, sch) := GetNextMajorBlockTime blockTime sch in
          if (blockTime =? time_zero) || (blockTime <? nextBlockTime) then Ok (false, time_zero, Some sch)
          else Ok (true, blockTime, Some sch)
    end.

(** The updates of the block: whether another account was updated, and whether anchors of a
    partition and of the directory were received. *)
Fixpoint anchor_flags (d : Describe) (entries : list BlockEntry) (didUpdateOther didAnchorPartition didAnchorDirectory : bool) : res (bool * bool * bool) :=
  match entries with
  | [] => Ok (didUpdateOther, didAnchorPartition, didAnchorDirectory)
  | c :: entries =>
      if Equal (BlockEntry_Account c) (Some (Ledger d)) then anchor_flags d entries didUpdateOther didAnchorPartition didAnchorDirectory
      else if negb (Equal (BlockEntry_Account c) (Some (AnchorPool d))) then anchor_flags d entries true didAnchorPartition didAnchorDirectory
      else
        match ChainByName (str (BlockEntry_Chain c)) with
        | Panic m => Panic m
        | Ok (AnchorRootChain partition, _) | Ok (AnchorBPTChain partition, _) =>
            if EqualFold (str partition) (str "Directory") then anchor_flags d entries didUpdateOther didAnchorPartition true
            else anchor_flags d entries didUpdateOther true didAnchorDirectory
        | Err _ | Ok _ => anchor_flags d entries didUpdateOther didAnchorPartition didAnchorDirectory
        end
  end.

Definition shouldSendAnchor (d : Describe) (anchorEmptyBlocks : bool) (s : BlockState) : res bool :=
  if 0 <? bs_MakeMajorBlock s then Ok true
  else if 0 <? zlen (bs_ProducedTxns s) then Ok true
  else
    let! (didUpdateOther, didAnchorPartition, didAnchorDirectory) := anchor_flags d (Entries (bs_ChainUpdates s)) false false false in
    if didUpdateOther || didAnchorPartition then Ok true else Ok (didAnchorDirectory && anchorEmptyBlocks).

Definition shouldPrepareAnchor (d : Describe) (anchorEmptyBlocks : bool) (blockTime : Z) (sch : option Scheduler) (s : BlockState)
    : res (BlockState * option Scheduler) :=
  let! (openMajorBlock, openMajorBlockTime, sch) := shouldOpenMajorBlock d (blockTime + 1) sch in
  let! sendAnchor := if (openMajorBlock : bool) then Ok true else shouldSendAnchor d anchorEmptyBlocks s in
  Ok (if (sendAnchor : bool) then set_Anchor (Some (mkAnchorState openMajorBlock openMajorBlockTime)) s else s, sch).

(** The receipts of the anchors that were received, from their roots to the root of the
    directory. *)
Fixpoint anchor_receipts (d : Describe) (received : list ReceivedAnchor) (b : Batch) : res (list PartitionAnchorReceipt * Batch) :=
  match received with
  | [] => Ok ([], b)
  | r :: received =>
      let chain := anchorRoot (AnchorPool d) (ra_Partition r) in
      let! indexChain := Index chain in
      let! (entry, b) := wrapf (LoadIndexEntryFromEnd indexChain 1 b) "load last entry of intermediate anchor index chain" in
      let! b := wrapf (Chain2_Get chain b) "load intermediate anchor chain" in
      match entry with
      | None => Panic "invalid memory address or nil pointer dereference"
      | Some entry =>
          let! rootHeight := Chain_Height (get_chain (rootChain (Ledger d)) b) in
          let! rootReceipt := wrapf (Chain_Receipt (i64 (IndexEntry_Anchor entry)) (rootHeight - 1) (get_chain (rootChain (Ledger d)) b)) "build receipt of the root chain" in
          let! anchorReceipt := wrapf (Chain_Receipt (ra_Index r) (i64 (IndexEntry_Source entry)) (get_chain chain b)) "build receipt of intermediate anchor chain" in
          let! combined := wrapf (Receipt_Combine anchorReceipt rootReceipt) "combine receipt" in
          let! (receipts, b) := anchor_receipts d received b in
          Ok (Build_PartitionAnchorReceipt (Some (ra_Body r)) (ra_SequenceNumber r) (Some (receipt_value combined)) [] :: receipts, b)
      end
  end.

Definition buildDirectoryAnchor (d : Describe) (blockIndex : Z) (s : BlockState) (open : bool) (n : Node) : res (DirectoryAnchor UB * Batch) :=
  let! b := wrapf (Chain2_Get (rootChain (Ledger d)) (n_batch n)) "load root chain" in
  let! (receipts, b) := anchor_receipts d (bs_ReceivedAnchors s) b in
  Ok (Build_DirectoryAnchor
        (Build_PartitionAnchor (Some (NodeUrl d [])) (bs_MakeMajorBlock s) blockIndex 0 hash_zero hash_zero (SyntheticLedger_Exchange (n_synth n)) [])
        (ls_PendingUpdates (n_ledger n)) receipts
        (if open then AnchorLedger_MajorBlockIndex (n_anchors n) else 0)
        (if open then AnchorLedger_MajorBlockTime (n_anchors n) else time_zero) [], b).

Definition buildPartitionAnchor (d : Describe) (blockIndex : Z) (s : BlockState) (n : Node) : BlockValidatorAnchor :=
  Build_BlockValidatorAnchor
    (Build_PartitionAnchor (Some (NodeUrl d [])) (bs_MakeMajorBlock s) blockIndex 0 hash_zero hash_zero (SyntheticLedger_Exchange (n_synth n)) [])
    (ls_AcmeBurnt (n_ledger n)) [].

(** The anchor ledger numbers the anchor, and lists the partitions whose anchors complete the
    major block. *)
Definition number_anchor (bvns : list bytes) (st : BlockAnchorState) (a : AnchorLedger) : res AnchorLedger :=
  let! (l, i) := Partition DnUrl (AnchorLedger_Exchange a) in
  let! e := index l i in
  let l := store_at l i (set_Produced (u64 (TransactionExchangeLedger_Produced e + 1)) e) in
  let a := set_AnchorExchange l a in
  Ok (if ShouldOpenMajorBlock st then
        Build_AnchorLedger (AnchorLedger_Url a) (u64 (AnchorLedger_MajorBlockIndex a + 1)) (OpenMajorBlockTime st)
          ((fun bvn => Some (PartitionUrl bvn)) <$> bvns) (AnchorLedger_Exchange a) (AnchorLedger_extraData a)
      else a).

Definition set_LedgerAnchor (a : option Body) (l : LedgerState) : LedgerState :=
  mkLedger (ls_Index l) (ls_Timestamp l) (ls_AcmeBurnt l) (ls_PendingUpdates l) a.

Definition prepareAnchor (d : Describe) (bvns : list bytes) (blockIndex : Z) (s : BlockState) (n : Node) : res Node :=
  match bs_Anchor s with
  | None => Ok n
  | Some st =>
      let! a := number_anchor bvns st (n_anchors n) in
      let n := set_anchors a n in
      if IsDirectory d then
        let! (anchor, b) := buildDirectoryAnchor d blockIndex s (ShouldOpenMajorBlock st) n in
        Ok (set_ledger (set_LedgerAnchor (Some (TransactionBody_DirectoryAnchor anchor)) (n_ledger n)) (set_batch b n))
      else
        Ok (set_ledger (set_LedgerAnchor (Some (TransactionBody_BlockValidatorAnchor (buildPartitionAnchor d blockIndex s n))) (n_ledger n)) n)
  end.

End Anchors.
