(* ===== verification/BlockBegin.v ===== *)
(** * The start of a block: [internal/block/block_begin.go], the signing of what is sent in
      [internal/block/shared/shared.go], and [BroadcastTx] of [dispatch.go]

    At the start of a block a partition sends the anchor of the previous one, with the root of
    the partition and the root of the Patricia tree.  A partition sends its synthetic
    transactions when the directory has proved the block that produced them, and the directory
    sends its own with its anchor.  Every one has the signature of the partition, which numbers
    it, a receipt up to the root of its block, the receipt of the directory for that root, and
    the signature of the node. *)

From stdpp Require Import functions.
From S2P Require Import Prelude Sha256 Encoding MerkleTree MerkleState Receipt Chain ChainProofs SortUtil Url.
From S2P Require Import UrlProofs AdiUrl KeyPages StateManager Codec CodecProofs Enums Wire TypesGeneral TypesAccounts.
From S2P Require Import TypesSignatures TypesTransactions TypesStatus TypesDatabase TransactionHash DataModel DbChain Indexing Signatures.
From S2P Require Import Builder Anchoring Anchors.
Local Open Scope Z_scope.
Import Url TxID.

Section BlockBegin.
Context {S TB ER SG UB : Type} `{!ChainStore S, !Union SG, !Union UB, !Crypto, !SigningCrypto}.
Abbreviation Batch := (Anchoring.Batch (S:=S) (TB:=TB) (ER:=ER)).
Abbreviation Node := (Anchors.Node (S:=S) (TB:=TB) (ER:=ER) (SG:=SG) (UB:=UB)).
Abbreviation Body := (TransactionBody SG UB).

(** ** Messages *)

(** The signatures of what is sent. *)
Inductive SentSignature :=
| SentPartition (v : TypesSignatures.PartitionSignature)
| SentReceipt (v : TypesSignatures.ReceiptSignature)
| SentKey (s : Signatures.Signature).

(** An envelope, and the partition it goes to. *)
Record Sent := mkSent { s_partition : bytes; s_transaction : Txn Body; s_signatures : list SentSignature }.

(** What the executor has: the key of the node, the version of the network definition, whether
    the node only follows, whether it leads the block, and the router. *)
Record Options := mkOptions { x_Key : option bytes; x_Version : Z; IsFollower : bool; IsLeader : bool; RouteAccount : URL -> res bytes }.

Definition BroadcastTx (x : Options) (u : option URL) (txn : Txn Body) (signatures : list SentSignature) : res (list Sent) :=
  match u with
  | None => Panic "invalid memory address or nil pointer dereference"
  | Some u => let! partition := RouteAccount x u in Ok [mkSent partition txn signatures]
  end.

Definition SignTransaction (x : Options) (txn : Txn Body) : res Signatures.Signature :=
  match x_Key x with
  | None => errors_new StatusInternalError "attempted to sign with a nil key"
  | Some nodeKey =>
      let! h := GetHash txn in
      let! (keySig, _) := wrapf (Sign h
        (SetTimestamp 1 (SetVersion (x_Version x) (SetUrl (JoinPath [str "network"] DnUrl)
          (SetPrivateKey nodeKey (SetType SignatureTypeED25519 new_Builder)))))) "sign synthetic transaction" in
      Ok keySig
  end.

(** The anchor as a transaction of the destination's anchor pool, with the signature of the
    partition that numbers it. *)
Definition PrepareBlockAnchor (x : Options) (d : Describe) (anchor : Body) (sequenceNumber : Z) (destPartUrl : URL) : res (Txn Body * list SentSignature) :=
  let txn := Build_Transaction
    (Build_TransactionHeader (Some (JoinPath [str "anchors"] destPartUrl)) hash_zero "" [] []) (Some anchor) [] in
  let! (initSig, txn) := InitiateSynthetic txn destPartUrl (SetVersion sequenceNumber (SetUrl (NodeUrl d []) new_Builder)) in
  match initSig with
  | SPartition source dest n h =>
      let! keySig := SignTransaction x txn in
      Ok (txn, [SentPartition (Build_PartitionSignature (Some source) (Some dest) n h []); SentKey keySig])
  | _ => Panic "interface conversion"
  end.

Definition sendBlockAnchor (x : Options) (d : Describe) (anchor : Body) (sequenceNumber : Z) (destPart : bytes) : res (list Sent) :=
  let destPartUrl := PartitionUrl destPart in
  let! (txn, signatures) := PrepareBlockAnchor x d anchor sequenceNumber destPartUrl in
  if IsFollower x then Ok [] else BroadcastTx x (Some destPartUrl) txn signatures.

Fixpoint send_all (x : Options) (d : Describe) (anchor : Body) (sequenceNumber : Z) (dests : list bytes) : res (list Sent) :=
  match dests with
  | [] => Ok []
  | dest :: dests =>
      let! m := sendBlockAnchor x d anchor sequenceNumber dest in
      let! l := send_all x d anchor sequenceNumber dests in
      Ok (m ++ l)
  end.

(** ** Synthetic transactions *)

(** Storing a transaction with its status. *)
Definition putSyntheticTransaction (txn : Txn Body) (status : TransactionStatus TB ER) (n : Node) : res Node :=
  let! h := GetHash txn in
  let n := set_txn h (Build_SigOrTxn (Some txn) None None []) n in
  Ok (set_batch (PutStatus h status (n_batch n)) n).

Definition synthSequence (d : Describe) (partition : bytes) : Chain2 :=
  mkChain2 (Synthetic d) (SyntheticSequenceChain (lower_partition partition)) false.

(** Producing a synthetic transaction: it gets the next number of its destination, and is stored
    and added to the chains of the synthetic ledger. *)
Definition buildSynthTxn (x : Options) (d : Describe) (dest : URL) (body : Body) (c : ChainUpdates) (n : Node)
    : res (Txn Body * ChainUpdates * Node) :=
  let! destPart := RouteAccount x dest in
  let destPartUrl := PartitionUrl destPart in
  let! (l, i) := Partition destPartUrl (SyntheticLedger_Exchange (n_synth n)) in
  let! destLedger := index l i in
  let produced := u64 (TransactionExchangeLedger_Produced destLedger + 1) in
  let l := store_at l i (set_Produced produced destLedger) in
  let txn := Build_Transaction (Build_TransactionHeader (Some dest) hash_zero "" [] []) (Some body) [] in
  let! (initSig, txn) := InitiateSynthetic txn destPartUrl (SetVersion produced (SetUrl (NodeUrl d []) new_Builder)) in
  match initSig with
  | SPartition source destination sequenceNumber _ =>
      let n := set_synthLedger (set_SynthExchange l (n_synth n)) n in
      let! n := putSyntheticTransaction txn
        (Build_TransactionStatus None errors.StatusRemote None None 0 None [] [] (Some source) (Some destination) sequenceNumber false None []) n in
      let! b := Chain2_Get (synthChain (Synthetic d)) (n_batch n) in
      let! index := Chain_Height (get_chain (synthChain (Synthetic d)) b) in
      let! h := GetHash txn in
      let! b := chain_add_entry (synthChain (Synthetic d)) (Some h) false b in
      let c := DidAddChainEntry (Synthetic d) (str "main") managed.ChainTypeTransaction h (u64 index) c in
      match ParsePartitionUrl destination with
      | None => errors_new StatusInternalError "destination URL is not a valid partition"
      | Some partition =>
          let! (_, b) := addIndexChainEntry (synthSequence d partition) (Build_IndexEntry (u64 index) 0 0 None 0 []) b in
          Ok (txn, c, set_batch b n)
      end
  | _ => Panic "interface conversion"
  end.

(** The loop of [ProduceSynthetic], which does not report the chain updates to the block. *)
Fixpoint produce (x : Options) (d : Describe) (produced : list (URL * Body)) (c : ChainUpdates) (n : Node) : res (list (Txn Body) * Node) :=
  match produced with
  | [] => Ok ([], n)
  | (dest, body) :: produced =>
      let! (txn, c, n) := buildSynthTxn x d dest body c n in
      let! (txns, n) := produce x d produced c n in
      Ok (txn :: txns, n)
  end.

(** Sending one synthetic transaction, with the receipt of the directory if there is one. *)
Definition send_synthetic (x : Options) (blockReceipt : option TypesGeneral.Receipt) (hash : bytes) (n : Node) : res (list Sent) :=
  match n_txns n hash with
  | None => errors_new StatusNotFound "load synthetic transaction"
  | Some state =>
      match SigOrTxn_Transaction state with
      | None => Panic "invalid memory address or nil pointer dereference"
      | Some txn =>
          match Transaction_Body txn with
          | None => Panic "invalid memory address or nil pointer dereference"
          | Some (TransactionBody_SystemGenesis _) => Ok []
          | Some _ =>
              let! h := GetHash txn in
              if negb (bytes_eqb hash h) then errors_new StatusInternalError "stored under another hash"
              else
                let status := b_status (n_batch n) hash in
                match TransactionStatus_DestinationNetwork status with
                | None => errors_new StatusInternalError "synthetic transaction destination is not set"
                | Some _ =>
                    let! h := to_array h in
                    match TransactionStatus_Proof status with
                    | None => Panic "invalid memory address or nil pointer dereference"
                    | Some proof =>
                        let partSig := Build_PartitionSignature (TransactionStatus_SourceNetwork status) (TransactionStatus_DestinationNetwork status)
                          (TransactionStatus_SequenceNumber status) h [] in
                        let localReceipt := Build_ReceiptSignature (TransactionStatus_SourceNetwork status) proof h [] in
                        let dnReceipt := match blockReceipt with Some r => [SentReceipt (Build_ReceiptSignature (Some DnUrl) r h [])] | None => [] end in
                        let! keySig := SignTransaction x txn in
                        if IsLeader x then
                          BroadcastTx x (TransactionHeader_Principal (Transaction_Header txn)) txn
                            (SentPartition partSig :: SentReceipt localReceipt :: dnReceipt ++ [SentKey keySig])
                        else Ok []
                    end
                end
          end
      end
  end.

Fixpoint send_synthetics (x : Options) (blockReceipt : option TypesGeneral.Receipt) (entries : list Hash) (n : Node) : res (list Sent) :=
  match entries with
  | [] => Ok []
  | hash :: entries =>
      let! m := send_synthetic x blockReceipt (hb hash) n in
      let! l := send_synthetics x blockReceipt entries n in
      Ok (m ++ l)
  end.

(** The synthetic transactions that a block produced, from the entries of the index chain; none
    if the block produced none. *)
Definition synthetic_for_block (d : Describe) (blockIndex : Z) (b : Batch) : res (list Hash * Batch) :=
  match b_synth b blockIndex with
  | None => Ok ([], b)
  | Some indexIndex =>
      let! indexChain := Index (synthChain (Synthetic d)) in
      let! b := wrapf (Chain2_Get indexChain b) "load synthetic index chain" in
      let! indexEntry := wrapf (EntryAs (i64 indexIndex) (get_chain indexChain b)) "load synthetic index chain entry" in
      let! from :=
        if 0 <? indexIndex then
          let! prevEntry := wrapf (EntryAs (i64 (u64 (indexIndex - 1))) (get_chain indexChain b)) "load synthetic index chain entry" in
          Ok (u64 (IndexEntry_Source prevEntry + 1))
        else Ok 0 in
      let! b := wrapf (Chain2_Get (synthChain (Synthetic d)) b) "load synthetic main chain" in
      match Chain_Entries 1 (i64 from) (i64 (u64 (IndexEntry_Source indexEntry + 1))) (get_chain (synthChain (Synthetic d)) b) with
      | Some r => let! entries := wrapf r "load synthetic main chain entries" in Ok (entries, b)
      | None => Panic "fuel"
      end
  end.

Definition sendSyntheticTransactionsForBlock (x : Options) (d : Describe) (blockIndex : Z) (blockReceipt : option TypesGeneral.Receipt) (n : Node)
    : res (list Sent * Node) :=
  let! (entries, b) := synthetic_for_block d blockIndex (n_batch n) in
  let! sent := send_synthetics x blockReceipt entries (set_batch b n) in
  Ok (sent, set_batch b n).

(** The receipts of an anchor of the directory that prove blocks of this partition. *)
Fixpoint send_proved (x : Options) (d : Describe) (receipts : list PartitionAnchorReceipt) (n : Node) : res (list Sent * Node) :=
  match receipts with
  | [] => Ok ([], n)
  | receipt :: receipts =>
      match PartitionAnchorReceipt_Anchor receipt with
      | None => Panic "invalid memory address or nil pointer dereference"
      | Some anchor =>
          match PartitionAnchor_Source anchor with
          | None => Panic "invalid memory address or nil pointer dereference"
          | Some source =>
              match ParsePartitionUrl source with
              | None => errors_new StatusBadRequest "invalid source: not a partition"
              | Some partition =>
                  if negb (EqualFold partition (PartitionId d)) then send_proved x d receipts n
                  else
                    let! (m, n) := sendSyntheticTransactionsForBlock x d (PartitionAnchor_MinorBlockIndex anchor)
                      (PartitionAnchorReceipt_RootChainReceipt receipt) n in
                    let! (l, n) := send_proved x d receipts n in
                    Ok (m ++ l, n)
              end
          end
      end
  end.

Fixpoint send_for_anchors (x : Options) (d : Describe) (entries : list Hash) (n : Node) : res (list Sent * Node) :=
  match entries with
  | [] => Ok ([], n)
  | hash :: entries =>
      match n_txns n (hb hash) with
      | None => errors_new StatusInternalError "load transaction of the anchor main chain"
      | Some state =>
          match SigOrTxn_Transaction state with
          | None => errors_new StatusInternalError "load transaction of the anchor main chain: not a transaction"
          | Some txn =>
              let! (m, n) :=
                match Transaction_Body txn with
                | Some (TransactionBody_DirectoryAnchor anchor) => send_proved x d (DirectoryAnchor_Receipts anchor) n
                | _ => Ok ([], n)
                end in
              let! (l, n) := send_for_anchors x d entries n in
              Ok (m ++ l, n)
          end
      end
  end.

Definition anchorMain (d : Describe) : Chain2 := mkChain2 (AnchorPool d) MainChain false.

(** The anchors of the last block that received any. *)
Definition sendSyntheticTransactions (x : Options) (d : Describe) (n : Node) : res (list Sent * Node) :=
  let! indexChain := Index (anchorMain d) in
  let! (anchorIndexLast, anchorIndexPrev, b) := wrapf (LoadLastTwoIndexEntries indexChain (n_batch n)) "load last two anchor index chain entries" in
  match anchorIndexLast with
  | None => Ok ([], set_batch b n)
  | Some last =>
      let! rootIndex := Index (rootChain (Ledger d)) in
      let! (rootIndexPrev, b) := wrapf (LoadIndexEntryFromEnd rootIndex 2 b) "load last root index chain entry" in
      if match rootIndexPrev with Some r => IndexEntry_Source r <=? IndexEntry_Source last | None => false end then Ok ([], set_batch b n)
      else
        let from := match anchorIndexPrev with Some prev => u64 (IndexEntry_Source prev + 1) | None => 0 end in
        let! b := wrapf (Chain2_Get (anchorMain d) b) "load anchor main chain" in
        match Chain_Entries 1 (i64 from) (i64 (u64 (IndexEntry_Source last + 1))) (get_chain (anchorMain d) b) with
        | Some r => let! entries := wrapf r "load entries of the anchor main chain" in send_for_anchors x d entries (set_batch b n)
        | None => Panic "fuel"
        end
  end.

(** ** Anchors *)

(** The fields of an anchor that are set when the block is complete. *)
Definition complete (index : Z) (rootAnchor stateRoot : bytes) (a : PartitionAnchor) : PartitionAnchor :=
  Build_PartitionAnchor (PartitionAnchor_Source a) (PartitionAnchor_MajorBlockIndex a) (PartitionAnchor_MinorBlockIndex a)
    index rootAnchor stateRoot (PartitionAnchor_Synthetic a) (PartitionAnchor_extraData a).

(** [CopyAsInterface] of an anchor, with the fields that are set at the end of its block. *)
Definition complete_body (index : Z) (rootAnchor stateRoot : bytes) (anchor : Body) : res Body :=
  match anchor with
  | TransactionBody_DirectoryAnchor a =>
      let a := DirectoryAnchor_Copy a in
      Ok (TransactionBody_DirectoryAnchor (Build_DirectoryAnchor (complete index rootAnchor stateRoot (DirectoryAnchor_PartitionAnchor a))
        (DirectoryAnchor_Updates a) (DirectoryAnchor_Receipts a) (DirectoryAnchor_MakeMajorBlock a) (DirectoryAnchor_MakeMajorBlockTime a) (DirectoryAnchor_extraData a)))
  | TransactionBody_BlockValidatorAnchor a =>
      let a := BlockValidatorAnchor_Copy a in
      Ok (TransactionBody_BlockValidatorAnchor (Build_BlockValidatorAnchor (complete index rootAnchor stateRoot (BlockValidatorAnchor_PartitionAnchor a))
        (BlockValidatorAnchor_AcmeBurnt a) (BlockValidatorAnchor_extraData a)))
  | _ => Panic "interface conversion"
  end.

Definition set_MakeMajorBlock (i : Z) (a : DirectoryAnchor UB) : DirectoryAnchor UB :=
  Build_DirectoryAnchor (DirectoryAnchor_PartitionAnchor a) (DirectoryAnchor_Updates a) (DirectoryAnchor_Receipts a) i
    (DirectoryAnchor_MakeMajorBlockTime a) (DirectoryAnchor_extraData a).

Definition anchorSequence (d : Describe) : Chain2 := mkChain2 (AnchorPool d) AnchorSequenceChain false.

(** Recording the anchor: the transaction, its status, and its entry on the chain of anchors. *)
Definition record_anchor (d : Describe) (anchor : Body) (sequenceNumber : Z) (c : ChainUpdates) (n : Node) : res (ChainUpdates * Node) :=
  let txn := Build_Transaction new_TransactionHeader (Some anchor) [] in
  let! n := putSyntheticTransaction txn
    (Build_TransactionStatus None errors.StatusRemote None None 0 None [] [] (Some (NodeUrl d [])) None sequenceNumber false None []) n in
  let! b := Chain2_Get (anchorSequence d) (n_batch n) in
  let! index := Chain_Height (get_chain (anchorSequence d) b) in
  let! h := GetHash txn in
  let! b := chain_add_entry (anchorSequence d) (Some h) false b in
  Ok (DidAddChainEntry (AnchorPool d) (Name (anchorSequence d)) (Type_ (anchorSequence d)) h (u64 index) c, set_batch b n).

(** Sending the anchor to its destinations.  The directory sends it to the partitions, and to
    itself without the request for a major block. *)
Definition send_anchor (x : Options) (d : Describe) (bvns : list bytes) (anchor : Body) (sequenceNumber : Z) (sch : option Scheduler)
    : res (list Sent * bool * option Scheduler) :=
  if IsDirectory d then
    match anchor with
    | TransactionBody_DirectoryAnchor a =>
        let opened := 0 <? DirectoryAnchor_MakeMajorBlock a in
        let! sch :=
          if opened then
            match sch with
            | None => Panic "invalid memory address or nil pointer dereference"
            | Some s => let! s := UpdateNextMajorBlockTime (DirectoryAnchor_MakeMajorBlockTime a) s in Ok (Some s)
            end
          else Ok sch in
        let! l := wrapf (send_all x d anchor sequenceNumber bvns) "send anchor" in
        let! self := wrapf (sendBlockAnchor x d (TransactionBody_DirectoryAnchor (set_MakeMajorBlock 0 (DirectoryAnchor_Copy a))) sequenceNumber (str "Directory")) "send anchor" in
        Ok (l ++ self, opened, sch)
    | _ => Panic "interface conversion"
    end
  else let! l := wrapf (sendBlockAnchor x d anchor sequenceNumber (str "Directory")) "send anchor" in Ok (l, false, sch).

(** The anchor of the previous block: completing, recording and sending it. *)
Definition finalize_anchor (x : Options) (d : Describe) (bvns : list bytes) (stateRoot : bytes) (anchor : Body) (n : Node) (c : ChainUpdates) (sch : option Scheduler)
    : res (Node * ChainUpdates * list Sent * bool * option Scheduler) :=
  let! (l, i) := Partition DnUrl (AnchorLedger_Exchange (n_anchors n)) in
  let! e := index l i in
  let sequenceNumber := TransactionExchangeLedger_Produced e in
  let! b := wrapf (Chain2_Get (rootChain (Ledger d)) (n_batch n)) "load root chain" in
  let! height := Chain_Height (get_chain (rootChain (Ledger d)) b) in
  let! rootAnchor := Chain_Anchor (get_chain (rootChain (Ledger d)) b) in
  let! rootAnchor := to_array (hb rootAnchor) in
  let! stateRoot := to_array stateRoot in
  let! anchor := complete_body (u64 (u64 height - 1)) rootAnchor stateRoot anchor in
  let! (c, n) := record_anchor d anchor sequenceNumber c (set_batch b n) in
  let! (sent, opened, sch) := send_anchor x d bvns anchor sequenceNumber sch in
  Ok (n, c, sent, opened, sch).

(** The end of the previous block, at the start of block [blockIndex]: also returns what is
    sent, and whether a major block was opened. *)
Definition finalizeBlock (x : Options) (d : Describe) (bvns : list bytes) (blockIndex : Z) (stateRoot : bytes) (n : Node) (c : ChainUpdates) (sch : option Scheduler)
    : res (Node * ChainUpdates * list Sent * bool * option Scheduler) :=
  let ledger := n_ledger n in
  if ls_Index ledger <? u64 (blockIndex - 1) then Ok (n, c, [], false, sch)
  else
    let! (sent1, n) := wrapf (sendSyntheticTransactions x d n) "build synthetic transaction receipts" in
    match ls_Anchor ledger with
    | None => Ok (n, c, sent1, false, sch)
    | Some anchor =>
        let! (n, c, sent2, opened, sch) := finalize_anchor x d bvns stateRoot anchor n c sch in
        if negb (IsDirectory d) then Ok (n, c, sent1 ++ sent2, opened, sch)
        else
          let! (sent3, n) := sendSyntheticTransactionsForBlock x d (ls_Index ledger) None n in
          Ok (n, c, sent1 ++ sent2 ++ sent3, opened, sch)
    end.

(** The system ledger at the start of a block: the block index increases, and the values of the
    last block are reset. *)
Definition reset_ledger (blockIndex time : Z) (l : LedgerState (SG:=SG) (UB:=UB)) : res (LedgerState (SG:=SG) (UB:=UB)) :=
  if blockIndex <=? ls_Index l then Panic "the block index does not increase"
  else Ok (mkLedger blockIndex time 0 [] None).

End BlockBegin.
