(* ===== verification/AnchorsProofs.v ===== *)
(** * Anchors: the receipts of the directory, and the completion of major blocks

    The directory proves the roots of the partitions up to its own root; the partitions accept
    its anchors and execute the transactions that waited for them; a major block is completed
    when every partition has answered. *)

From stdpp Require Import functions sorting.
From S2P Require Import Prelude Sha256 Encoding MerkleTree MerkleState Receipt Chain ChainProofs SortUtil Url.
From S2P Require Import UrlProofs AdiUrl KeyPages StateManager Codec CodecProofs Enums Wire TypesGeneral TypesAccounts.
From S2P Require Import TypesTransactions TypesStatus TypesDatabase TransactionHash DataModel DbChain Indexing Anchoring AnchoringProofs.
From S2P Require Import AnchoringBlocks BlockRuns Anchors.
Local Open Scope Z_scope.
Import Url TxID.

(** ** The exchange ledgers *)

Definition exchange_compare (e f : TransactionExchangeLedger) : Z :=
  compare_option Compare (TransactionExchangeLedger_Url e) (TransactionExchangeLedger_Url f).

#[global] Instance exchange_compare_total : TotalCompare exchange_compare.
Proof. apply (compare_on TransactionExchangeLedger_Url (compare_option Compare)). Qed.

Abbreviation exchange_sorted := (sorted exchange_compare).

(** The comparison looks at the URLs only. *)
Lemma exchange_store l i e f :
  exchange_sorted l -> l !! i = Some e -> TransactionExchangeLedger_Url f = TransactionExchangeLedger_Url e -> exchange_sorted (<[i := f]> l).
Proof.
  intros Hs He Hu. assert (Hf : forall l, exchange_sorted l <-> StronglySorted (fun x y => compare_option Compare x y < 0) (TransactionExchangeLedger_Url <$> l)).
  { intros l0. split; induction l0 as [|x l0 IH]; cbn; intros H; try (by constructor); apply StronglySorted_inv in H as [H1 H2]; constructor; try (by apply IH).
    - by apply Forall_fmap.
    - by apply Forall_fmap in H2. }
  rewrite Hf, list_fmap_insert, list_insert_id; [by apply Hf|]. by rewrite list_lookup_fmap, He, Hu.
Qed.

(** The entry of a partition. *)
Lemma Partition_ok u l :
  exchange_sorted l -> exists l' i e, Partition u l = Ok (l', i) /\ exchange_sorted l' /\ 0 <= i /\ l' !! Z.to_nat i = Some e /\ index l' i = Ok e /\
    compare_option Compare (TransactionExchangeLedger_Url e) (Some u) = 0 /\
    let w := Build_TransactionExchangeLedger (Some u) 0 0 0 0 [] [] in
    (forall x, x ∈ l' -> x ∈ l \/ x = w) /\ (l' = l \/ (~ member exchange_compare w l /\ e = w)).
Proof.
  intros Hs. set (w := Build_TransactionExchangeLedger (Some u) 0 0 0 0 [] []). unfold Partition. fold w.
  destruct (BinaryInsert_ok new_TransactionExchangeLedger l (fun e => exchange_compare e w) w (sorted_ge_mono _ _ _ Hs)) as (k & _ & Hk).
  destruct (sorted_add_ok exchange_compare new_TransactionExchangeLedger w l Hs) as (l' & i & new & E & Hs' & Hnm & Hold & (e & He & Hc & Hw) & _).
  unfold sorted_add in E. change (fun e => compare_option Compare (TransactionExchangeLedger_Url e) (Some u)) with (fun e => exchange_compare e w).
  assert (Hi : exists l0, BinaryInsert new_TransactionExchangeLedger l (fun e => exchange_compare e w) = Ok (l0, Z.of_nat k, new) /\ forall x, x ∈ l' -> x ∈ l \/ x = w).
  { destruct (l !! k) as [x|]; [destruct (exchange_compare x w =? 0)|]; [|destruct Hk as (l0 & Hk & Est)..]; rewrite Hk in E; cbn [res_bind] in E; injection E as E1 _ <-; eexists; (split; [exact Hk|]);
      subst l'; try (by left); rewrite Est; intros y; rewrite <- (take_drop k l) at 3; rewrite !elem_of_app, elem_of_cons; tauto. }
  destruct Hi as (l0 & Ei & Hsub). rewrite Ei in *. cbn [res_bind] in *. injection E as E1 <-. rewrite E1. exists l', (Z.of_nat k), e. rewrite Nat2Z.id in *.
  split; [done|]. split; [done|]. split; [lia|]. split; [done|]. split; [by apply index_ok|]. split; [done|]. split; [done|]. destruct new; [right; split; [by rewrite <- Hnm|by apply Hw]|]. left. by apply Hold.
Qed.

Lemma Partition_found u l i e :
  exchange_sorted l -> l !! i = Some e -> compare_option Compare (TransactionExchangeLedger_Url e) (Some u) = 0 -> Partition u l = Ok (l, Z.of_nat i).
Proof.
  intros Hs He Hc. set (w := Build_TransactionExchangeLedger (Some u) 0 0 0 0 [] []).
  destruct (Partition_ok u l Hs) as (l' & j & f & E & _ & Hj & Hf & _ & Hcf & _ & [->|[Hm _]]); [|destruct Hm; exists e; split; [by eapply list_elem_of_lookup_2|done]].
  rewrite E. do 2 f_equal. assert (Hef : exchange_compare e f = 0 /\ exchange_compare f e = 0).
  { assert (He0 : equiv_ exchange_compare e w) by done. assert (Hf0 : equiv_ exchange_compare f w) by done.
    split; [change (equiv_ exchange_compare e f)|change (equiv_ exchange_compare f e)]; [transitivity w|transitivity w]; by try symmetry. }
  destruct (Nat.lt_trichotomy i (Z.to_nat j)) as [Hlt|[->|Hlt]]; [|lia|].
  - pose proof (sorted_lookup exchange_compare l _ _ e f Hs Hlt He Hf). lia.
  - pose proof (sorted_lookup exchange_compare l _ _ f e Hs Hlt Hf He). lia.
Qed.

Lemma SynthFrom_ok u a : exchange_sorted (PartitionAnchor_Synthetic a) -> exists e, SynthFrom u a = Ok e.
Proof.
  intros Hs. unfold SynthFrom. destruct (sorted_search exchange_compare _ (Build_TransactionExchangeLedger (Some u) 0 0 0 0 [] []) Hs) as (i & b & E & _ & Hx).
  unfold exchange_compare in E. cbn [TransactionExchangeLedger_Url] in E. rewrite E. cbn [res_bind]. destruct b; [|by eexists].
  destruct (Hx eq_refl) as (x & Hl & Hi & _). exists x. rewrite <- (Z2Nat.id i) by lia. by apply index_ok.
Qed.

(** What the directory's receipts have. *)
Definition receipt_wf (r : PartitionAnchorReceipt) : Prop :=
  exists a source, PartitionAnchorReceipt_Anchor r = Some a /\ PartitionAnchor_Source a = Some source /\ exchange_sorted (PartitionAnchor_Synthetic a).

(** The ledger numbers its transactions below the largest number. *)
Definition numbered (l : list TransactionExchangeLedger) : Prop := Forall (fun e => 0 <= TransactionExchangeLedger_Produced e < 2 ^ 64 - 1) l.

Lemma numbered_partition u l l' i :
  exchange_sorted l -> numbered l -> Partition u l = Ok (l', i) -> numbered l'.
Proof.
  intros Hs Hn E. destruct (Partition_ok u l Hs) as (l0 & j & e & E0 & _ & _ & _ & _ & _ & Hsub & _). rewrite E in E0. injection E0 as <- <-.
  unfold numbered in *. rewrite Forall_forall in *. intros x [Hx| ->]%Hsub; [by apply Hn|done].
Qed.

Lemma acknowledge_ok d source receipts la da ls ds :
  exchange_sorted la -> numbered la -> exchange_sorted ls -> Forall receipt_wf receipts ->
  exists la' da' ls' ds', acknowledge d source receipts la da ls ds = Ok (la', da', ls', ds') /\ exchange_sorted la' /\ numbered la' /\ exchange_sorted ls'.
Proof.
  revert la da ls ds. induction receipts as [|r receipts IH]; intros la da ls ds Hla Hnu Hls HF; cbn [acknowledge]; [by eexists _, _, _, _|].
  apply Forall_cons in HF as [(a & from & Ea & Es & Hsyn) HF]. rewrite Ea.
  assert (exists la1 da1, (if Equal (Some (NodeUrl d [])) (PartitionAnchor_Source a) then
      let! (la, i) := Partition source la in let! ledger := index la i in
      if TransactionExchangeLedger_Acknowledged ledger <? PartitionAnchorReceipt_SequenceNumber r then
        Ok (store_at la i (set_Acknowledged (PartitionAnchorReceipt_SequenceNumber r) ledger), true) else Ok (la, da)
      else Ok (la, da)) = Ok (la1, da1) /\ exchange_sorted la1 /\ numbered la1) as (la1 & da1 & -> & Hla1 & Hnu1).
  { destruct (Equal _ _); [|by eexists _, _]. destruct (Partition_ok source la Hla) as (l & i & e & E & Hl & Hi & He & Ei & _).
    pose proof (numbered_partition _ _ _ _ Hla Hnu E) as Hn. rewrite E. cbn [res_bind]. rewrite Ei. cbn [res_bind].
    destruct (_ <? _); [|by eexists _, _]. eexists _, _. split; [done|]. split; [by eapply exchange_store|].
    apply Forall_insert; [done|]. unfold numbered in Hn. rewrite Forall_forall in Hn. exact (Hn e (list_elem_of_lookup_2 _ _ _ He)). }
  cbn [res_bind]. rewrite Es. destruct (SynthFrom_ok (NodeUrl d []) a Hsyn) as (x & ->). cbn [res_bind].
  destruct (Partition_ok from ls Hls) as (l & i & e & -> & Hl & Hi & He & Ei & _). cbn [res_bind]. rewrite Ei. cbn [res_bind].
  destruct (_ <? _); apply IH; try done. by eapply exchange_store.
Qed.

(** ** Executing anchors *)

(** The delimiters of chain names and keys do not occur in the name of a partition. *)
Definition name_ok (name : bytes) : Prop := partition_ok (lower_partition name) /\ Byte.x3b ∉ ToLower name.

#[global] Instance name_ok_dec name : Decision (name_ok name).
Proof. unfold name_ok, partition_ok. apply _. Defined.

Lemma to_string_str b : str (to_string b) = b.
Proof. unfold str, to_string. apply String.list_byte_of_string_of_list_byte. Qed.

Section Exec.
Context {S TB ER SG UB : Type} `{ChainStoreLaws S} `{!Union SG, !Union UB} (d : Describe).
Context (sort_slice : list (Additional (UB:=UB) * Z) -> list (Additional (UB:=UB) * Z)).
Abbreviation holds := (holds (S:=S) (TB:=TB) (ER:=ER)).
Abbreviation Batch := (Anchoring.Batch (S:=S) (TB:=TB) (ER:=ER)).
Abbreviation Node := (Anchors.Node (S:=S) (TB:=TB) (ER:=ER) (SG:=SG) (UB:=UB)).
Abbreviation Body := (TransactionBody SG UB).
Abbreviation State := (TransactionState (UB:=UB)).
Abbreviation ledger := (Ledger d).
Abbreviation pool := (AnchorPool d).
Abbreviation root := (root ledger).

(** The accounts of the partition are different accounts. *)
Record partition_wf : Prop := {
  w_ledger : UrlProofs.url_ok ledger = true;
  w_pool : UrlProofs.url_ok pool = true;
  w_ne : AccountID32 pool <> AccountID32 ledger;
  w_synth : is_synthetic_ledger pool = false
}.
Context (W : partition_wf).

Lemma anchor_add_ok c h : chain_ok c -> c <> MajorBlockChain -> Byte.x3b ∉ chain_name c -> length h = 32%nat -> add_ok d (mkChain2 pool c false, h).
Proof.
  intros Hc Hm Hs Hl. split; [done|]. split; [|split; [apply W|]; split; [apply W|done]]. split; [apply W|]. cbn [fst c2_chain].
  unfold Name. cbn [c2_chain c2_index]. rewrite to_string_str. split; [|unfold Chain2_Name; by rewrite app_nil_r].
  apply (ChainByName_ok c false); [done|]. unfold Chain2_Name. rewrite app_nil_r. by apply chain_name_lower.
Qed.

Lemma anchorRoot_add_ok name h : name_ok name -> length h = 32%nat -> add_ok d (anchorRoot pool name, h).
Proof.
  intros [Hp Hs] Hl. apply anchor_add_ok; [done|done| |done]. cbn [chain_name]. unfold lower_partition. fold (to_string (ToLower name)). rewrite to_string_str.
  rewrite !not_elem_of_app. split_and!; [vm_compute; set_solver|done|vm_compute; set_solver].
Qed.

Lemma anchorBPT_add_ok name h : name_ok name -> length h = 32%nat -> add_ok d (anchorBPT pool name, h).
Proof.
  intros [Hp Hs] Hl. apply anchor_add_ok; [done|done| |done]. cbn [chain_name]. unfold lower_partition. fold (to_string (ToLower name)). rewrite to_string_str.
  rewrite !not_elem_of_app. split_and!; [vm_compute; set_solver|done|vm_compute; set_solver].
Qed.

(** The chain updates [es] take the chains from [v] to [v']. *)
Definition added (v v' : AC -> list bytes) (es : list BlockEntry) : Prop :=
  grows v v' /\ forall v0 c, adding d v0 v c -> adding d v0 v' (mkUpdates (Entries c ++ es) (SynthEntries c)).

Lemma added_refl v : added v v [].
Proof. split; [intros ?; done|]. intros v0 [es ss] Ha. cbn [Entries SynthEntries]. by rewrite app_nil_r. Qed.

Lemma added_trans v1 v2 v3 es es' : added v1 v2 es -> added v2 v3 es' -> added v1 v3 (es ++ es').
Proof.
  intros [G1 A1] [G2 A2]. split; [intros a; etrans; [apply G1|apply G2]|]. intros v0 c Ha. rewrite app_assoc.
  exact (A2 v0 _ (A1 v0 c Ha)).
Qed.

Lemma add_step chain entry unique c (b : Batch) v ix m :
  holds b v ix -> linked ledger v ix (b_txchains b) -> add_ok d (chain, entry) -> all_room (m + 1) v -> 0 <= m ->
  exists i es b' v', AddChainEntry2 chain entry unique c b = Ok (i, mkUpdates (Entries c ++ es) (SynthEntries c), b') /\ rest b' = rest b /\
    holds b' v' ix /\ linked ledger v' ix (b_txchains b') /\ all_room m v' /\ zlen es <= 1 /\ added v v' es /\
    0 <= i /\ v' (ac chain) !! Z.to_nat i = Some entry.
Proof.
  intros Hb Hl Hok Hroom Hm. destruct (AddChainEntry2_ok d chain entry unique c b v ix Hb Hl Hok) as (i & c' & b' & E & Hr & Hi & Hv & Hb' & Hl' & Ec);
    [specialize (Hroom (ac chain)); lia|]. set (v' := if decide _ then v else _) in *. exists i.
  destruct (decide (entry ∈ v (ac chain))) as [Hin|Hni]; subst c'.
  - exists [], b', v. split; [rewrite E; destruct c; cbn; by rewrite app_nil_r|]. do 3 (split; [done|]). split; [intros a; specialize (Hroom a); lia|].
    split; [done|]. split; [apply added_refl|done].
  - eexists [_], b', v'. split; [exact E|]. do 3 (split; [done|]). split.
    { intros a. specialize (Hroom a). unfold v'. destruct (decide (ac chain = a)) as [<-|]; [|rewrite fn_lookup_insert_ne by done; lia].
      rewrite fn_lookup_insert, zlen_app. change (zlen [entry]) with 1. lia. }
    split; [done|]. split; [|done]. split; [apply grows_app|]. intros v0 c0 Had. apply adding_step; try done; [apply (h_small _ _ _ Hb)|apply W].
Qed.

(** A received anchor: its root is on the chain of its partition. *)
Definition received_ok (v : AC -> list bytes) (r : ReceivedAnchor) : Prop :=
  0 <= ra_Index r /\ v (ac (anchorRoot pool (ra_Partition r))) !! Z.to_nat (ra_Index r) = Some (PartitionAnchor_RootChainAnchor (ra_Body r)).

Lemma received_mono v v' r : grows v v' -> received_ok v r -> received_ok v' r.
Proof. intros Hg [Hi Hl]. split; [done|]. by eapply prefix_lookup_Some. Qed.

Definition add_received (es : list BlockEntry) (r : ReceivedAnchor) (t : State) : State :=
  mkState (t_ProducedTxns t) (t_AdditionalTransactions t) (mkUpdates (Entries (t_ChainUpdates t) ++ es) (SynthEntries (t_ChainUpdates t)))
    (t_MakeMajorBlock t) (t_MakeMajorBlockTime t) (t_ReceivedAnchors t ++ [r]).

Lemma add_anchor_ok name a seq (n : Node) (t : State) v ix m :
  holds (n_batch n) v ix -> linked ledger v ix (b_txchains (n_batch n)) -> name_ok name ->
  length (PartitionAnchor_RootChainAnchor a) = 32%nat -> length (PartitionAnchor_StateTreeAnchor a) = 32%nat -> all_room (m + 2) v -> 0 <= m ->
  exists i es b' v', add_anchor pool name a seq n t = Ok (set_batch b' n, add_received es (mkReceived name a i seq) t) /\
    rest b' = rest (n_batch n) /\ holds b' v' ix /\ linked ledger v' ix (b_txchains b') /\ all_room m v' /\ zlen es <= 2 /\ added v v' es /\
    received_ok v' (mkReceived name a i seq).
Proof.
  intros Hb Hl Hn Hlr Hlb Hroom Hm. unfold add_anchor.
  destruct (add_step (anchorRoot pool name) (PartitionAnchor_RootChainAnchor a) false (t_ChainUpdates t) (n_batch n) v ix (m + 1) Hb Hl) as
    (i & es & b1 & v1 & -> & Hr1 & Hb1 & Hl1 & Hroom1 & Hlen1 & Ha1 & Hi & Hv); [by apply anchorRoot_add_ok|by replace (m + 1 + 1) with (m + 2) by lia|lia|].
  cbn [res_bind]. unfold DidReceiveAnchor, set_ChainUpdates. cbn [t_ChainUpdates t_ProducedTxns t_AdditionalTransactions t_MakeMajorBlock t_MakeMajorBlockTime t_ReceivedAnchors].
  destruct (add_step (anchorBPT pool name) (PartitionAnchor_StateTreeAnchor a) false (mkUpdates (Entries (t_ChainUpdates t) ++ es) (SynthEntries (t_ChainUpdates t))) b1 v1 ix m Hb1 Hl1) as
    (j & es' & b2 & v2 & -> & Hr2 & Hb2 & Hl2 & Hroom2 & Hlen2 & Ha2 & _); [by apply anchorBPT_add_ok|done|done|].
  cbn [res_bind Entries SynthEntries]. exists i, (es ++ es'), b2, v2. split; [unfold add_received; by rewrite app_assoc|]. split; [congruence|].
  do 3 (split; [done|]). split; [rewrite zlen_app; lia|]. split; [by eapply added_trans|].
  apply (received_mono v1); [apply Ha2|]. by split.
Qed.

(** The number of a waiting transaction is found, or there is an error. *)
Lemma sequenced_total make (n : Node) synth : match sequenced make n synth with Panic _ => False | _ => True end.
Proof.
  induction synth as [|t synth IH]; cbn [sequenced]; [done|]. unfold getSyntheticSignature.
  assert (Hs : forall l, match first_partition_signature l with Panic _ => False | _ => True end).
  { intros l. induction l as [|[] l IHl]; cbn [first_partition_signature]; done. }
  specialize (Hs (concat (n_signatures n (hash t)))). destruct (first_partition_signature _); cbn [res_bind]; [|done|done].
  by destruct (sequenced make n synth).
Qed.

Lemma submit_eq ds (t : State) :
  submit sort_slice ds t = mkState (t_ProducedTxns t) (t_AdditionalTransactions t ++ (fst <$> sort_slice ds)) (t_ChainUpdates t)
    (t_MakeMajorBlock t) (t_MakeMajorBlockTime t) (t_ReceivedAnchors t).
Proof.
  unfold submit. generalize (sort_slice ds). intros l. revert t. induction l as [|x l IH]; intros t; cbn [foldl].
  - cbn. rewrite app_nil_r. by destruct t.
  - rewrite IH. cbn [fmap list_fmap ProcessAdditionalTransaction t_ProducedTxns t_AdditionalTransactions t_ChainUpdates t_MakeMajorBlock t_MakeMajorBlockTime t_ReceivedAnchors].
    by rewrite <- app_assoc.
Qed.

Definition update_of (u : NetworkAccountUpdate UB) : Additional :=
  NewInternal (if String.eqb (NetworkAccountUpdate_Name u) "operators" then FormatKeyPageUrl (NodeUrl d [str "operators"]) 0
               else NodeUrl d [str (NetworkAccountUpdate_Name u)]) (NetworkAccountUpdate_Body u).

Lemma push_updates_eq us (t : State) :
  push_updates d us t = mkState (t_ProducedTxns t) (t_AdditionalTransactions t ++ (update_of <$> us)) (t_ChainUpdates t)
    (t_MakeMajorBlock t) (t_MakeMajorBlockTime t) (t_ReceivedAnchors t).
Proof.
  unfold push_updates. revert t. induction us as [|x l IH]; intros t; cbn [foldl].
  - cbn. rewrite app_nil_r. by destruct t.
  - rewrite IH. cbn [fmap list_fmap ProcessAdditionalTransaction t_ProducedTxns t_AdditionalTransactions t_ChainUpdates t_MakeMajorBlock t_MakeMajorBlockTime t_ReceivedAnchors].
    by rewrite <- app_assoc.
Qed.

(** The ledgers list the partitions in order, and their numbers do not run out. *)
Definition ledgers_sorted (n : Node) : Prop :=
  exchange_sorted (AnchorLedger_Exchange (n_anchors n)) /\ numbered (AnchorLedger_Exchange (n_anchors n)) /\ exchange_sorted (SyntheticLedger_Exchange (n_synth n)).

Definition anchor_wf (a : PartitionAnchor) : Prop :=
  (exists source, PartitionAnchor_Source a = Some source /\ forall name, ParsePartitionUrl source = Some name -> name_ok name) /\
  length (PartitionAnchor_RootChainAnchor a) = 32%nat /\ length (PartitionAnchor_StateTreeAnchor a) = 32%nat.

(** [GetPartitionAnchor] of the bodies that have one. *)
Definition GetPartitionAnchor (b : Body) : PartitionAnchor :=
  match b with
  | TransactionBody_BlockValidatorAnchor a => BlockValidatorAnchor_PartitionAnchor a
  | TransactionBody_DirectoryAnchor a => DirectoryAnchor_PartitionAnchor a
  | _ => new_PartitionAnchor
  end.

(** The partition that completed a major block, if the anchor says so. *)
Definition answer (b : Body) : option URL :=
  match b with
  | TransactionBody_BlockValidatorAnchor a =>
      let a := BlockValidatorAnchor_PartitionAnchor a in if 0 <? PartitionAnchor_MajorBlockIndex a then PartitionAnchor_Source a else None
  | _ => None
  end.

(** An answer removes the partition from the pending ones, and the last one completes the major
    block. *)
Definition answers (b : Body) (a a' : AnchorLedger) (make : Z) : Prop :=
  match answer b with
  | Some u => remove_pending u (AnchorLedger_PendingMajorBlockAnchors a) = Some (AnchorLedger_PendingMajorBlockAnchors a') /\
      make = if decide (AnchorLedger_PendingMajorBlockAnchors a' = []) then AnchorLedger_MajorBlockIndex a else 0
  | None => AnchorLedger_PendingMajorBlockAnchors a' = AnchorLedger_PendingMajorBlockAnchors a /\ make = 0
  end.

(** What an anchor does that is accepted on the directory. *)
Record exec_ok (n : Node) (v : AC -> list bytes) (ix : AC -> list IndexEntry) (m : Z) (body : Body) (seq : Z)
    (n' : Node) (t : State) (v' : AC -> list bytes) : Prop := {
  x_rest : rest (n_batch n') = rest (n_batch n);
  x_holds : holds (n_batch n') v' ix;
  x_linked : linked ledger v' ix (b_txchains (n_batch n'));
  x_room : all_room m v';
  x_len : zlen (Entries (t_ChainUpdates t)) <= 2;
  x_synth : SynthEntries (t_ChainUpdates t) = [];
  x_added : added v v' (Entries (t_ChainUpdates t));
  x_produced : t_ProducedTxns t = [];
  x_answers : answers body (n_anchors n) (n_anchors n') (t_MakeMajorBlock t);
  x_received : exists name i, t_ReceivedAnchors t = [mkReceived name (GetPartitionAnchor body) i seq] /\
    received_ok v' (mkReceived name (GetPartitionAnchor body) i seq);
  x_ledgers : ledgers_sorted n';
  x_anchors : AnchorLedger_MajorBlockIndex (n_anchors n') = AnchorLedger_MajorBlockIndex (n_anchors n);
  x_time : AnchorLedger_MajorBlockTime (n_anchors n') = AnchorLedger_MajorBlockTime (n_anchors n);
  x_make : 0 < t_MakeMajorBlock t -> t_MakeMajorBlockTime t = AnchorLedger_MajorBlockTime (n_anchors n);
  x_ledger : n_ledger n' = n_ledger n;
  x_issued : n_issued n <> None -> n_issued n' <> None
}.

(** Only an answer that is not pending is always refused. *)
Definition refused (body : Body) (n : Node) : Prop :=
  forall u, n_issued n <> None -> answer body = Some u -> ParsePartitionUrl u <> None -> remove_pending u (AnchorLedger_PendingMajorBlockAnchors (n_anchors n)) = None.

Lemma PartitionAnchor_Validate_ok body seq (n : Node) v ix m :
  holds (n_batch n) v ix -> linked ledger v ix (b_txchains (n_batch n)) -> anchor_wf (BlockValidatorAnchor_PartitionAnchor body) ->
  ledgers_sorted n -> all_room (m + 2) v -> 0 <= m ->
  match PartitionAnchor_Validate sort_slice d pool body seq n new_TransactionState with
  | Ok (n', t) => exists v', exec_ok n v ix m (TransactionBody_BlockValidatorAnchor body) seq n' t v'
  | Err _ => refused (TransactionBody_BlockValidatorAnchor body) n
  | Panic _ => False
  end.
Proof.
  intros Hb Hl ((source & Es & Hname) & Hlr & Hlb) Hled Hroom Hm. unfold PartitionAnchor_Validate. cbn zeta.
  rewrite (EqualFold_refl _ : Equal (Some pool) (Some pool) = true). cbn [negb]. rewrite Es.
  assert (Ea : forall u, answer (TransactionBody_BlockValidatorAnchor body) = Some u -> u = source /\ (0 <? PartitionAnchor_MajorBlockIndex (BlockValidatorAnchor_PartitionAnchor body)) = true).
  { intros u. cbn [answer]. destruct (0 <? _); [|done]. rewrite Es. by intros [= <-]. }
  destruct (ParsePartitionUrl source) as [name|] eqn:Ep; [|by intros u _ [-> _]%Ea ?].
  destruct (n_issued n) as [issued|] eqn:Ei; [|by intros u Hi; rewrite Ei in Hi]. set (n1 := set_issued _ n).
  destruct (add_anchor_ok name (BlockValidatorAnchor_PartitionAnchor body) seq n1 new_TransactionState v ix m) as
    (i & es & b' & v' & -> & Hr & Hb' & Hl' & Hroom' & Hlen & Hadd & Hrec); [done|done|by apply Hname|done..|]. cbn [res_bind].
  destruct (0 <? PartitionAnchor_MajorBlockIndex _) eqn:Em.
  - cbn [n_anchors set_batch set_issued n1]. destruct (remove_pending source _) as [P|] eqn:EP; [|by intros u _ [-> _]%Ea _].
    exists v'. split; try (by destruct P); [|by exists name, i; destruct P]. unfold answers. cbn [answer]. rewrite Em, Es, EP. by destruct P.
  - match goal with |- context [sequenced NewChild ?x ?y] => pose proof (sequenced_total NewChild x y) as Hst end.
    destruct (sequenced NewChild _ _) as [ds| |]; cbn [res_bind]; [|by intros u _ [_ ?]%Ea|done]. exists v'. rewrite submit_eq. split; try done; [|by exists name, i].
    unfold answers. cbn [answer]. by rewrite Em.
Qed.

Lemma DirectoryAnchor_Validate_ok body seq (n : Node) v ix m :
  IsDirectory d = true ->
  holds (n_batch n) v ix -> linked ledger v ix (b_txchains (n_batch n)) -> anchor_wf (DirectoryAnchor_PartitionAnchor body) ->
  Forall receipt_wf (DirectoryAnchor_Receipts body) -> ledgers_sorted n -> all_room (m + 2) v -> 0 <= m ->
  match DirectoryAnchor_Validate sort_slice d pool body seq n new_TransactionState with
  | Ok (n', t) => exists v', exec_ok n v ix m (TransactionBody_DirectoryAnchor body) seq n' t v'
  | Err _ => True
  | Panic _ => False
  end.
Proof.
  intros Hdir Hb Hl ((source & Es & Hname) & Hlr & Hlb) Hwf (Hla & Hnu & Hls) Hroom Hm. unfold DirectoryAnchor_Validate. cbn zeta. rewrite Hdir.
  destruct (Equal (Some pool) (Some pool)); cbn [negb]; [|done]. rewrite Es. destruct (IsDnUrl source) eqn:Edn; cbn [negb]; [|done].
  assert (Hn : name_ok (str "Directory")) by (apply Hname; unfold ParsePartitionUrl; by rewrite Edn).
  destruct (add_anchor_ok (str "Directory") (DirectoryAnchor_PartitionAnchor body) seq n new_TransactionState v ix m) as
    (i & es & b' & v' & -> & Hr & Hb' & Hl' & Hroom' & Hlen & Hadd & Hrec); [done..|]. cbn [res_bind].
  destruct (acknowledge_ok d source (DirectoryAnchor_Receipts body) (AnchorLedger_Exchange (n_anchors (set_batch b' n))) false
    (SyntheticLedger_Exchange (n_synth (set_batch b' n))) false Hla Hnu Hls Hwf) as (la & da & ls & ds & -> & Hla' & Hnu' & Hls'). cbn [res_bind].
  exists v'. destruct da, ds; split; try done; by eexists _, _.
Qed.

(** ** A block of the directory *)

Definition body_wf (b : Body) : Prop :=
  match b with
  | TransactionBody_BlockValidatorAnchor a => anchor_wf (BlockValidatorAnchor_PartitionAnchor a)
  | TransactionBody_DirectoryAnchor a => anchor_wf (DirectoryAnchor_PartitionAnchor a) /\ Forall receipt_wf (DirectoryAnchor_Receipts a)
  | _ => False
  end.

Definition execute_anchor (body : Body) (seq : Z) (n : Node) : res (Node * State) :=
  match body with
  | TransactionBody_BlockValidatorAnchor a => PartitionAnchor_Validate sort_slice d pool a seq n new_TransactionState
  | TransactionBody_DirectoryAnchor a => DirectoryAnchor_Validate sort_slice d pool a seq n new_TransactionState
  | _ => errorf "invalid payload"
  end.

(** The anchors of a block, with their numbers; also returns those that were accepted.  One that
    is refused changes nothing. *)
Fixpoint execute_anchors (l : list (Body * Z)) (n : Node) (s : BlockState) : res (list (Body * Z) * Node * BlockState) :=
  match l with
  | [] => Ok ([], n, s)
  | (body, seq) :: l =>
      match execute_anchor body seq n with
      | Ok (n, t) => let! (acc, n, s) := execute_anchors l n (MergeTransaction t s) in Ok ((body, seq) :: acc, n, s)
      | Err _ => execute_anchors l n s
      | Panic m => Panic m
      end
  end.

Lemma execute_anchor_ok body seq (n : Node) v ix m :
  IsDirectory d = true ->
  holds (n_batch n) v ix -> linked ledger v ix (b_txchains (n_batch n)) -> body_wf body -> ledgers_sorted n -> all_room (m + 2) v -> 0 <= m ->
  match execute_anchor body seq n with
  | Ok (n', t) => exists v', exec_ok n v ix m body seq n' t v'
  | Err _ => refused body n
  | Panic _ => False
  end.
Proof.
  intros Hdir Hb Hl Hwf Hled Hroom Hm. destruct body; try done; cbn [body_wf GetPartitionAnchor execute_anchor] in *.
  - by apply PartitionAnchor_Validate_ok.
  - destruct Hwf as [Hwf Hrs]. pose proof (DirectoryAnchor_Validate_ok _ seq n v ix m Hdir Hb Hl Hwf Hrs Hled Hroom Hm) as Hd.
    by destruct (DirectoryAnchor_Validate _ _ _ _ _ _ _) as [[]| |].
Qed.

(** What happens in a block of the directory: it executes an anchor with its number and its hash,
    or another transaction or a signature adds an entry to a chain. *)
Inductive BlockItem :=
  | AnchorItem (body : Body) (seq : Z) (h : bytes)
  | EntryItem (c : Chain2) (entry : bytes).

Definition anchorPoolMain : Chain2 := mkChain2 pool MainChain false.

(** An anchor that is accepted is added to the main chain of its principal. *)
Fixpoint execute_items (l : list BlockItem) (n : Node) (s : BlockState) : res (list (Body * Z) * Node * BlockState) :=
  match l with
  | [] => Ok ([], n, s)
  | AnchorItem body seq h :: l =>
      match execute_anchor body seq n with
      | Ok (n, t) =>
          let! (c, b) := AddChainEntry anchorPoolMain h (t_ChainUpdates t) (n_batch n) in
          let! (acc, n, s) := execute_items l (set_batch b n) (MergeTransaction (set_ChainUpdates c t) s) in
          Ok ((body, seq) :: acc, n, s)
      | Err _ => execute_items l n s
      | Panic m => Panic m
      end
  | EntryItem c entry :: l =>
      let! (c, b) := AddChainEntry c entry (mkUpdates [] []) (n_batch n) in
      execute_items l (set_batch b n) (MergeTransaction (UB:=UB) (set_ChainUpdates c new_TransactionState) s)
  end.

Definition item_wf (x : BlockItem) : Prop :=
  match x with
  | AnchorItem body _ h => body_wf body /\ length h = 32%nat
  | EntryItem c entry => add_ok d (c, entry)
  end.

(** The state of the block after some items, from the chains [v0] at its start. *)
Record block_inv (n0 : Node) (v0 : AC -> list bytes) (n : Node) (v : AC -> list bytes) (ix : AC -> list IndexEntry) (m k : Z)
    (acc : list (Body * Z)) (s : BlockState) : Prop := {
  y_rest : rest (n_batch n) = rest (n_batch n0);
  y_holds : holds (n_batch n) v ix;
  y_linked : linked ledger v ix (b_txchains (n_batch n));
  y_room : all_room m v;
  y_adding : adding d v0 v (bs_ChainUpdates s);
  y_len : zlen (Entries (bs_ChainUpdates s)) <= k;
  y_produced : bs_ProducedTxns s = [];
  y_major : bs_MakeMajorBlock s = 0 \/
    (bs_MakeMajorBlock s = AnchorLedger_MajorBlockIndex (n_anchors n0) /\ bs_MakeMajorBlockTime s = AnchorLedger_MajorBlockTime (n_anchors n0) /\
     v (ac anchorPoolMain) <> []);
  y_index : AnchorLedger_MajorBlockIndex (n_anchors n) = AnchorLedger_MajorBlockIndex (n_anchors n0);
  y_time : AnchorLedger_MajorBlockTime (n_anchors n) = AnchorLedger_MajorBlockTime (n_anchors n0);
  y_received : Forall2 (fun x r => ra_Body r = GetPartitionAnchor (fst x) /\ ra_SequenceNumber r = snd x /\ received_ok v r) acc (bs_ReceivedAnchors s);
  y_ledgers : ledgers_sorted n;
  y_ledger : n_ledger n = n_ledger n0
}.

Lemma pool_main_ok h : length h = 32%nat -> add_ok d (anchorPoolMain, h).
Proof. intros Hl. apply anchor_add_ok; [done|done| |done]. vm_compute. set_solver. Qed.

Lemma AddChainEntry_step chain entry c (b : Batch) v ix m :
  holds b v ix -> linked ledger v ix (b_txchains b) -> add_ok d (chain, entry) -> all_room (m + 1) v -> 0 <= m ->
  exists es b' v', AddChainEntry chain entry c b = Ok (mkUpdates (Entries c ++ es) (SynthEntries c), b') /\ rest b' = rest b /\
    holds b' v' ix /\ linked ledger v' ix (b_txchains b') /\ all_room m v' /\ zlen es <= 1 /\ added v v' es /\ v' (ac chain) <> [].
Proof.
  intros Hb Hl Hok Hroom Hm. unfold AddChainEntry. destruct (add_step chain entry true c b v ix m Hb Hl Hok Hroom Hm) as (i & es & b' & v' & -> & E1 & E2 & E3 & E4 & E5 & E6 & _ & Hin).
  cbn [res_bind]. exists es, b', v'. split_and!; try done. intros E. by rewrite E in Hin.
Qed.

Lemma merged_updates es (s : BlockState) : ChainUpdates_Merge (bs_ChainUpdates s) (mkUpdates es []) = mkUpdates (Entries (bs_ChainUpdates s) ++ es) (SynthEntries (bs_ChainUpdates s)).
Proof. unfold ChainUpdates_Merge. cbn [Entries SynthEntries]. by rewrite app_nil_r. Qed.

(** An anchor that is accepted. *)
Lemma anchor_step body seq h (n0 : Node) v0 (n : Node) v ix m k acc s n1 t v1 :
  block_inv n0 v0 n v ix (m + 3) k acc s -> length h = 32%nat -> 0 <= m -> exec_ok n v ix (m + 1) body seq n1 t v1 ->
  exists c b v', AddChainEntry anchorPoolMain h (t_ChainUpdates t) (n_batch n1) = Ok (c, b) /\
    block_inv n0 v0 (set_batch b n1) v' ix m (k + 3) (acc ++ [(body, seq)]) (MergeTransaction (set_ChainUpdates c t) s).
Proof.
  intros [Y1 Y2 Y3 Y4 Y5 Y6 Y7 Y8 Y9 Y10 Y11 Y12] Hh Hm [X1 X2 X3 X4 X5 X6 X7 X8 X9 (name & i & X10 & X11) X12 X13 X14 X15 X16 _].
  destruct (AddChainEntry_step anchorPoolMain h (t_ChainUpdates t) (n_batch n1) v1 ix m X2 X3 (pool_main_ok h Hh) X4 Hm) as (es & b & v' & E & E1 & E2 & E3 & E4 & E5 & E6 & E7).
  eexists _, b, v'. split; [exact E|]. pose proof (added_trans _ _ _ _ _ X7 E6) as Had. rewrite X6.
  split; cbn [MergeTransaction set_ChainUpdates t_ChainUpdates t_ProducedTxns t_MakeMajorBlock t_MakeMajorBlockTime t_ReceivedAnchors bs_ChainUpdates bs_ProducedTxns bs_MakeMajorBlock
    bs_MakeMajorBlockTime bs_ReceivedAnchors n_batch n_anchors n_ledger set_batch]; try done; try congruence.
  - rewrite merged_updates. by apply Had.
  - rewrite merged_updates. cbn [Entries]. rewrite !zlen_app. lia.
  - by rewrite Y7, X8.
  - destruct (Z.ltb_spec 0 (t_MakeMajorBlock t)) as [Hlt|_].
    + right. split; [|by split; [rewrite X15|]]. unfold answers in X9. destruct (answer body) as [u|]; destruct X9 as [_ X9]; [|lia]. rewrite X9 in *. destruct (decide _); [congruence|lia].
    + destruct Y8 as [Y8|(Y8 & Y8' & Y8'')]; [by left|right]. split_and!; [done|done|]. intros Ev. destruct (proj1 Had (ac anchorPoolMain)) as [l El]. rewrite Ev in El. by destruct (v (ac anchorPoolMain)).
  - rewrite X10. apply Forall2_app; [|by constructor; [split_and!; try done; by eapply received_mono; [apply E6|]|]].
    eapply Forall2_impl; [exact Y11|]. intros x r (F1 & F2 & F3). split_and!; [done|done|]. eapply received_mono; [apply Had|done].
Qed.

Lemma entry_step c entry (n0 : Node) v0 (n : Node) v ix m k acc s :
  block_inv n0 v0 n v ix (m + 3) k acc s -> add_ok d (c, entry) -> 0 <= m ->
  exists u b v', AddChainEntry c entry (mkUpdates [] []) (n_batch n) = Ok (u, b) /\
    block_inv n0 v0 (set_batch b n) v' ix m (k + 3) acc (MergeTransaction (UB:=UB) (set_ChainUpdates u new_TransactionState) s).
Proof.
  intros [Y1 Y2 Y3 Y4 Y5 Y6 Y7 Y8 Y9 Y10 Y11 Y12] Hok Hm.
  destruct (AddChainEntry_step c entry (mkUpdates [] []) (n_batch n) v ix m Y2 Y3 Hok) as (es & b & v' & E & E1 & E2 & E3 & E4 & E5 & E6 & E7); [intros a; specialize (Y4 a); lia|done|].
  eexists _, b, v'. split; [exact E|]. cbn [Entries SynthEntries app].
  split; cbn [MergeTransaction set_ChainUpdates new_TransactionState t_ChainUpdates t_ProducedTxns t_MakeMajorBlock t_MakeMajorBlockTime t_ReceivedAnchors bs_ChainUpdates bs_ProducedTxns
    bs_MakeMajorBlock bs_MakeMajorBlockTime bs_ReceivedAnchors n_batch n_anchors n_ledger set_batch]; try done; try congruence.
  - rewrite merged_updates. by apply E6.
  - rewrite merged_updates. cbn [Entries]. rewrite zlen_app. lia.
  - by rewrite Y7.
  - change (0 <? 0) with false. destruct Y8 as [Y8|(Y8 & Y8' & Y8'')]; [by left|right]. split_and!; [done|done|].
    intros Ev. destruct (proj1 E6 (ac anchorPoolMain)) as [l El]. rewrite Ev in El. by destruct (v (ac anchorPoolMain)).
  - rewrite app_nil_r. eapply Forall2_impl; [exact Y11|]. intros x r (F1 & F2 & F3). split_and!; [done|done|]. eapply received_mono; [apply E6|done].
Qed.

Lemma execute_items_ok l (n0 : Node) v0 (n : Node) v ix m k acc s :
  IsDirectory d = true -> block_inv n0 v0 n v ix (m + 3 * zlen l) k acc s -> Forall item_wf l -> 0 <= m ->
  exists acc' n' s' v', execute_items l n s = Ok (acc', n', s') /\ block_inv n0 v0 n' v' ix m (k + 3 * zlen l) (acc ++ acc') s'.
Proof.
  intros Hdir. revert n v k acc s. induction l as [|x l IH]; intros n v k acc s Hi HF Hm; cbn [execute_items].
  - exists [], n, s, v. rewrite app_nil_r. change (zlen []) with 0 in *. split; [done|]. by rewrite !Z.add_0_r in *.
  - apply Forall_cons in HF as [Hwf HF]. rewrite zlen_cons in *. pose proof (zlen_nonneg l) as Hz.
    replace (m + 3 * (1 + zlen l)) with (m + 3 * zlen l + 3) in Hi by lia. replace (k + 3 * (1 + zlen l)) with (k + 3 + 3 * zlen l) by lia.
    destruct x as [body seq h|c entry].
    + destruct Hwf as [Hwf Hh]. pose proof (execute_anchor_ok body seq n v ix (m + 3 * zlen l + 1) Hdir (y_holds _ _ _ _ _ _ _ _ _ Hi) (y_linked _ _ _ _ _ _ _ _ _ Hi) Hwf (y_ledgers _ _ _ _ _ _ _ _ _ Hi)) as He.
      assert (Hroom : all_room (m + 3 * zlen l + 1 + 2) v) by (intros a; pose proof (y_room _ _ _ _ _ _ _ _ _ Hi a); lia). specialize (He Hroom ltac:(lia)).
      destruct (execute_anchor body seq n) as [[n1 t]| |].
      * destruct He as (v1 & Hx). destruct (anchor_step body seq h n0 v0 n v ix (m + 3 * zlen l) k acc s n1 t v1 Hi Hh ltac:(lia) Hx) as (c & b & v' & -> & Hi'). cbn [res_bind].
        destruct (IH _ _ _ _ _ Hi' HF Hm) as (acc' & n' & s' & v2 & -> & Hi2). cbn [res_bind]. rewrite <- app_assoc in Hi2. by eexists _, _, _, _.
      * assert (Hi' : block_inv n0 v0 n v ix (m + 3 * zlen l) (k + 3) acc s).
        { destruct Hi as [Y1 Y2 Y3 Y4 Y5 Y6 Y7 Y8 Y9 Y10 Y11 Y12 Y13]. split; try done; [intros a; specialize (Y4 a); lia|lia]. }
        destruct (IH _ _ _ _ _ Hi' HF Hm) as (acc' & n' & s' & v' & -> & Hi2). by eexists _, _, _, _.
      * done.
    + destruct (entry_step c entry n0 v0 n v ix (m + 3 * zlen l) k acc s Hi Hwf ltac:(lia)) as (u & b & v' & -> & Hi'). cbn [res_bind].
      destruct (IH _ _ _ _ _ Hi' HF Hm) as (acc' & n' & s' & v2 & -> & Hi2). by eexists _, _, _, _.
Qed.

(** ** The receipts of the directory *)

Lemma LoadIndexEntryFromEnd_ok c (b : Batch) v ix e :
  holds b v ix -> c2_index c = true -> last (ix (ac c)) = Some e ->
  exists e' b', LoadIndexEntryFromEnd c 1 b = Ok (Some e', b') /\ IndexEntry_Copy e' = e /\ holds b' v ix /\ rest b' = rest b.
Proof.
  intros Hb Hc Hlast. unfold LoadIndexEntryFromEnd. cbn [Z.eqb]. destruct (Chain2_Get_ok c b v ix Hb) as (b1 & -> & Hb1 & Hr1). cbn [wrapf res_bind].
  pose proof (holds_index c b1 v ix Hb1 Hc) as Hix. destruct (index_Height _ _ Hix) as [-> Hsm]. cbn [res_bind].
  rewrite last_lookup in Hlast. pose proof (lookup_lt_Some _ _ _ Hlast) as Hlt. change (i64 1) with 1.
  rewrite (proj2 (Z.ltb_ge _ _)) by (unfold zlen; lia). rewrite (u64_small (zlen _)), u64_small, i64_small by (unfold is_u64, is_i64, zlen in *; lia).
  destruct (EntryAs_ok _ _ Hix _ _ Hlast) as (e' & E & Ce). replace (Z.of_nat (Nat.pred (length (ix (ac c))))) with (zlen (ix (ac c)) - 1) in E by (unfold zlen; lia).
  rewrite E. cbn [wrapf res_bind]. by exists e', b1.
Qed.

(** The last index entry of a chain covers it. *)
Lemma run_last (b : Batch) v ix log n a :
  run_inv d b v ix log n -> listed_chain d a -> v a <> [] -> exists e, last (ix a) = Some e /\ IndexEntry_Source e = zlen (v a) - 1.
Proof.
  intros Hinv Ha Hv. destruct (ri_cover _ _ _ _ _ _ Hinv a Ha Hv) as (e & He & Hs). pose proof (list_elem_of_lookup_1 _ _ He) as (i & Hi).
  pose proof (ri_linked _ _ _ _ _ _ Hinv) as Hl. rewrite last_lookup. pose proof (lookup_lt_Some _ _ _ Hi) as Hlt.
  destruct (lookup_lt_is_Some_2 (ix a) (Nat.pred (length (ix a)))) as (f & Hf); [lia|]. exists f. split; [done|].
  pose proof (l_mono _ _ _ _ Hl a i (Nat.pred (length (ix a))) e f ltac:(lia) Hi Hf). pose proof (linked_sources _ _ _ _ a f Hl (list_elem_of_lookup_2 _ _ _ Hf)). lia.
Qed.

(** The receipt proves the root of a received anchor up to [A]; with it, whatever was proved up
    to that root is proved up to [A]. *)
Definition proves (A : bytes) (r : ReceivedAnchor) (pr : PartitionAnchorReceipt) : Prop :=
  PartitionAnchor_Copy <$> PartitionAnchorReceipt_Anchor pr = Some (PartitionAnchor_Copy (ra_Body r)) /\
  PartitionAnchorReceipt_SequenceNumber pr = ra_SequenceNumber r /\
  exists rc, PartitionAnchorReceipt_RootChainReceipt pr = Some (receipt_value rc) /\ Validate rc = true /\
    Start rc = Some (PartitionAnchor_RootChainAnchor (ra_Body r)) /\ Receipt.Anchor rc = Some A /\
    forall r0, Validate r0 = true -> Receipt.Anchor r0 = Some (PartitionAnchor_RootChainAnchor (ra_Body r)) ->
      exists r1, Receipt_Combine r0 rc = Ok r1 /\ Validate r1 = true /\ Start r1 = Start r0 /\ Receipt.Anchor r1 = Some A.

Lemma PartitionAnchor_Copy_idem a : PartitionAnchor_Copy (PartitionAnchor_Copy a) = PartitionAnchor_Copy a.
Proof.
  unfold PartitionAnchor_Copy. cbn [PartitionAnchor_Source PartitionAnchor_MajorBlockIndex PartitionAnchor_MinorBlockIndex PartitionAnchor_RootChainIndex
    PartitionAnchor_RootChainAnchor PartitionAnchor_StateTreeAnchor PartitionAnchor_Synthetic]. f_equal. rewrite <- list_fmap_compose. by apply list_fmap_ext.
Qed.

Lemma Receipt_Copy_value r : Receipt_Copy (receipt_value r) = receipt_value r.
Proof. unfold Receipt_Copy, receipt_value. cbn. f_equal. rewrite <- list_fmap_compose. by apply list_fmap_ext. Qed.

Lemma proves_copy A r pr : proves A r pr -> proves A r (PartitionAnchorReceipt_Copy pr).
Proof.
  intros (E1 & E2 & rc & E3 & Hrc). split; [|split; [done|]].
  - unfold PartitionAnchorReceipt_Copy. cbn [PartitionAnchorReceipt_Anchor]. destruct (PartitionAnchorReceipt_Anchor pr) as [a|]; [|done].
    change (Some (PartitionAnchor_Copy (PartitionAnchor_Copy a)) = Some (PartitionAnchor_Copy (ra_Body r))). by rewrite PartitionAnchor_Copy_idem.
  - exists rc. split; [|done]. unfold PartitionAnchorReceipt_Copy. cbn [PartitionAnchorReceipt_RootChainReceipt]. rewrite E3. change (Some (Receipt_Copy (receipt_value rc)) = Some (receipt_value rc)). by rewrite Receipt_Copy_value.
Qed.

Lemma anchor_receipts_ok received (b b0 : Batch) v ix log n :
  run_inv d b0 v ix log n -> holds b v ix -> Forall (received_ok v) received ->
  exists receipts b', anchor_receipts d received b = Ok (receipts, b') /\ holds b' v ix /\ rest b' = rest b /\ Forall2 (proves (mth (v root))) received receipts.
Proof.
  intros Hinv. revert b. induction received as [|r received IH]; intros b Hb HF; cbn [anchor_receipts]; [by exists [], b|].
  apply Forall_cons in HF as [[Hi Hr] HF]. set (chain := anchorRoot pool (ra_Partition r)) in *.
  assert (Hlc : listed_chain d (ac chain)) by (split_and!; done). pose proof (proj1 Hlc) as Hnr.
  assert (Hvn : v (ac chain) <> []) by (intros E; by rewrite E in Hr). destruct (run_last b0 v ix log n _ Hinv Hlc Hvn) as (e & Hlast & Hsrc).
  pose proof (ri_linked _ _ _ _ _ _ Hinv) as Hl.
  destruct (l_anchor _ _ _ _ Hl _ e Hnr) as (Hs & Ha & Hat); [by apply last_Some_elem_of|]. pose proof (lookup_lt_Some _ _ _ Hat) as Hal. pose proof (lookup_lt_Some _ _ _ Hr) as Hrl.
  rewrite (Index_ok chain) by done. cbn [res_bind].
  destruct (LoadIndexEntryFromEnd_ok (mkChain2 (c2_Account chain) (c2_chain chain) true) b v ix e Hb eq_refl Hlast) as (e' & b1 & -> & <- & Hb1 & Hr1). cbn [wrapf res_bind].
  destruct (Chain2_Get_ok chain b1 v ix Hb1) as (b2 & -> & Hb2 & Hr2). cbn [wrapf res_bind IndexEntry_Source IndexEntry_Anchor IndexEntry_Copy] in *.
  rewrite (holds_Height (rootChain ledger) b2 v ix Hb2 eq_refl). cbn [res_bind]. change (ac (rootChain ledger)) with root.
  pose proof (h_small _ _ _ Hb2 root) as Hsm. pose proof (h_small _ _ _ Hb2 (ac chain)) as Hsc.
  rewrite !i64_small by (unfold is_i64, zlen in *; lia).
  destruct (Receipt_ok (get_chain (rootChain ledger) b2) (v root) (IndexEntry_Anchor e') (zlen (v root) - 1)) as (r2 & y & Hy & -> & V2 & S2 & A2);
    [exact (holds_get (rootChain ledger) b2 v ix Hb2 eq_refl)|done|unfold zlen in *; lia|lia|]. cbn [wrapf res_bind].
  destruct (Receipt_ok (get_chain chain b2) (v (ac chain)) (ra_Index r) (IndexEntry_Source e')) as (r1 & x & Hx & -> & V1 & S1 & A1);
    [exact (holds_get chain b2 v ix Hb2 eq_refl)|done|unfold zlen in *; lia|lia|]. cbn [wrapf res_bind].
  rewrite Hr in Hx. injection Hx as <-. rewrite Hat in Hy. injection Hy as <-.
  destruct (Receipt_Combine_ok r1 r2 V1 V2) as (rc & -> & V & Es & Ea); [by rewrite A1, S2|]. cbn [wrapf res_bind].
  destruct (IH b2 Hb2 HF) as (receipts & b3 & -> & Hb3 & Hr3 & HF2). cbn [res_bind].
  assert (EA : Receipt.Anchor rc = Some (mth (v root))) by (rewrite Ea, A2, take_ge by (unfold zlen; lia); done).
  eexists _, b3. split; [done|]. split; [done|]. split; [congruence|]. constructor; [|done]. split; [done|]. split; [done|].
  exists rc. do 2 (split; [done|]). split; [by rewrite Es|]. split; [done|]. intros r0 V0 E0.
  destruct (Receipt_Combine_ok r0 rc V0 V) as (r3 & E3 & V3 & S3 & A3); [by rewrite E0, Es|]. exists r3. by rewrite A3.
Qed.

(** Numbering an anchor: the next number of the ledger. *)
Lemma number_anchor_ok bvns st (a : AnchorLedger) :
  exchange_sorted (AnchorLedger_Exchange a) -> numbered (AnchorLedger_Exchange a) ->
  exists a' i e, number_anchor bvns st a = Ok a' /\ exchange_sorted (AnchorLedger_Exchange a') /\
    Partition DnUrl (AnchorLedger_Exchange a') = Ok (AnchorLedger_Exchange a', i) /\ index (AnchorLedger_Exchange a') i = Ok e /\
    TransactionExchangeLedger_Produced e <> 0.
Proof.
  intros Hs HF. unfold number_anchor. destruct (Partition_ok DnUrl _ Hs) as (l & i & e & -> & Hl & Hi & He & Ei & Hc & _ & Hor). cbn [res_bind]. rewrite Ei. cbn [res_bind].
  set (e' := set_Produced _ e). assert (Hl' : exchange_sorted (store_at l i e')) by by eapply exchange_store.
  pose proof (lookup_lt_Some _ _ _ He) as Hlt. assert (He' : store_at l i e' !! Z.to_nat i = Some e') by by apply list_lookup_insert_eq.
  assert (Hp : TransactionExchangeLedger_Produced e' <> 0).
  { assert (0 <= TransactionExchangeLedger_Produced e < 2 ^ 64 - 1) as Hb.
    { destruct Hor as [->|[_ ->]]; [|done]. unfold numbered in HF. rewrite Forall_forall in HF. apply HF. by eapply list_elem_of_lookup_2. }
    subst e'. cbn [set_Produced TransactionExchangeLedger_Produced]. rewrite u64_small by (unfold is_u64; lia). lia. }
  eexists _, i, e'. split; [done|].
  replace (AnchorLedger_Exchange (if ShouldOpenMajorBlock st then _ else _)) with (store_at l i e') by by destruct (ShouldOpenMajorBlock st).
  split; [done|]. rewrite (Partition_found DnUrl _ _ _ Hl' He' Hc), Z2Nat.id by done. split; [done|]. split; [|done].
  pose proof (index_ok _ _ _ He') as E. by rewrite Z2Nat.id in E.
Qed.

(** A block of the directory: its items, its end, and the anchor that is prepared. *)
Definition directory_block (order : gmap bytes chainUpdate -> list bytes) (bvns : list bytes) (index time : Z) (st : BlockAnchorState)
    (items : list BlockItem) (n : Node) : res (list (Body * Z) * Node) :=
  let! (acc, n, s) := execute_items items n new_BlockState in
  let! b := EndBlock d (mkBlock index time (bs_ProducedTxns s) (bs_ChainUpdates s) (bs_MakeMajorBlock s) (bs_MakeMajorBlockTime s)) order (n_batch n) in
  let! n := prepareAnchor d bvns index (set_Anchor (Some st) s) (set_batch b n) in
  Ok (acc, n).

(** Heights below [2 ^ 42], and room for [k] more entries. *)
Definition spare (k : Z) : Z := 2 ^ 62 - 2 ^ 42 + k.

(** The receipts of an anchor of the directory, for the anchors that it accepted. *)
Definition anchors_proved (A : bytes) (acc : list (Body * Z)) (receipts : list PartitionAnchorReceipt) : Prop :=
  Forall2 (fun x pr => exists name i, proves A (mkReceived name (GetPartitionAnchor (fst x)) i (snd x)) pr) acc receipts.

(** The end of the block: a major block is completed only by an anchor that was accepted. *)
Lemma items_end_ok (n0 n : Node) v0 v ix m k acc s index time log :
  block_inv n0 v0 n v ix (spare m) k acc s -> run_inv d (n_batch n0) v0 ix log (spare m) -> 0 <= m -> 0 < index < 2 ^ 63 -> time_range time ->
  0 <= AnchorLedger_MajorBlockIndex (n_anchors n0) < 2 ^ 42 -> time_range (AnchorLedger_MajorBlockTime (n_anchors n0)) ->
  ends_ok d (mkBlock index time (bs_ProducedTxns s) (bs_ChainUpdates s) (bs_MakeMajorBlock s) (bs_MakeMajorBlockTime s)) v ix (b_status (n_batch n)).
Proof.
  intros Hi Hinv Hm Hidx Htime HM HT. pose proof Hi as [_ _ _ Y4 _ _ Y7 Y8 _ _ _ _ _]. rewrite Y7.
  split; cbn [Block_Index Block_Time ProducedTxns MakeMajorBlock MakeMajorBlockTime]; try done; [apply zlen_nonneg|].
  destruct Y8 as [Y8|(Y8 & Y8' & Y8'')]; [by left|]. destruct (decide (AnchorLedger_MajorBlockIndex (n_anchors n0) = 0)) as [E|E]; [left; congruence|right].
  specialize (Y4 (ac anchorPoolMain)). pose proof (ri_index _ _ _ _ _ _ Hinv root) as Hx. unfold spare in *.
  assert (0 < zlen (v (ac anchorPoolMain))) by (unfold zlen; destruct (v _); [done|cbn [length]; lia]). change (ac (mkChain2 pool MainChain false)) with (ac anchorPoolMain).
  rewrite Y8, Y8'. split_and!; lia || done.
Qed.

Lemma directory_block_ok order bvns index time st items (n : Node) v ix log :
  IsDirectory d = true -> (forall m, order m ≡ₚ (map_to_list m).*1) -> run_inv d (n_batch n) v ix log (spare (3 + 6 * zlen items)) -> v root <> [] ->
  Forall item_wf items -> ledgers_sorted n -> 0 < index < 2 ^ 63 -> time_range time ->
  0 <= AnchorLedger_MajorBlockIndex (n_anchors n) < 2 ^ 42 -> time_range (AnchorLedger_MajorBlockTime (n_anchors n)) ->
  exists acc n' v' ix' A a, directory_block order bvns index time st items n = Ok (acc, n') /\
    run_inv d (n_batch n') v' ix' (log ++ [(index, Some A)]) 1 /\ A = mth (v' root) /\ v' root <> [] /\
    ls_Anchor (n_ledger n') = Some (TransactionBody_DirectoryAnchor a) /\ ls_Index (n_ledger n') = ls_Index (n_ledger n) /\
    anchors_proved A acc (DirectoryAnchor_Receipts a) /\
    (ShouldOpenMajorBlock st = false -> DirectoryAnchor_MakeMajorBlock a = 0) /\
    exists i e, Partition DnUrl (AnchorLedger_Exchange (n_anchors n')) = Ok (AnchorLedger_Exchange (n_anchors n'), i) /\
      Prelude.index (AnchorLedger_Exchange (n_anchors n')) i = Ok e /\ TransactionExchangeLedger_Produced e <> 0.
Proof.
  intros Hdir Hord Hinv Hne HF Hled Hidx Htime HM HT. pose proof Hinv as [Hb Hl _ _ _ _ Hix Hroom]. pose proof (zlen_nonneg items) as Hz. unfold directory_block.
  destruct (execute_items_ok items n v n v ix (spare (3 + 3 * zlen items)) 0 [] new_BlockState Hdir) as (acc & n1 & s & v1 & -> & Hi); [|done|unfold spare; lia|].
  { split; try done; [|split; [intros ?; done|done|exact (List.Forall_nil _)|done|by left|by left]|by left].
    replace (spare (3 + 3 * zlen items) + 3 * zlen items) with (spare (3 + 6 * zlen items)) by (unfold spare; lia). done. }
  cbn [res_bind app] in *. pose proof (items_end_ok n n1 v v1 ix (3 + 3 * zlen items) _ acc s index time log Hi) as Hend.
  assert (Hinv' : run_inv d (n_batch n) v ix log (spare (3 + 3 * zlen items))).
  { destruct Hinv. split; try done; intros a; unfold spare in *; [specialize (ri_index a)|specialize (ri_room a)]; lia. }
  specialize (Hend Hinv' ltac:(lia) Hidx Htime HM HT). destruct Hi as [Y1 Y2 Y3 Y4 Y5 Y6 Y7 Y8 Y9 Y9' Y10 (Y11 & Y11' & _) Y12]. injection Y1 as Y1 _ _ _ _.
  destruct (run_end_ok d order (mkBlock index time (bs_ProducedTxns s) (bs_ChainUpdates s) (bs_MakeMajorBlock s) (bs_MakeMajorBlockTime s)) (n_batch n) (n_batch n1) v ix log _ v1 1 Hord Hinv Y1 Y2 Y3 Y5 Hend)
    as (A0 & b2 & v2 & ix2 & -> & _ & -> & Hinv2 & Hg2 & Hne2 & _); cbn [Updates Block_Index] in *; [by left|done|unfold spare; lia|intros a; specialize (Y4 a); unfold spare in *; lia|]. cbn [res_bind].
  unfold prepareAnchor. cbn [set_Anchor bs_Anchor]. destruct (number_anchor_ok bvns st (n_anchors n1) Y11 Y11') as (al & i & e & Ena & _ & HP & HI & HPr).
  cbn [set_batch n_anchors]. rewrite Ena. cbn [res_bind]. rewrite Hdir. unfold buildDirectoryAnchor. cbn [n_batch set_anchors set_batch].
  destruct (Chain2_Get_ok (rootChain ledger) b2 v2 ix2 (ri_holds _ _ _ _ _ _ Hinv2)) as (b3 & -> & Hb3 & Hr3). cbn [wrapf res_bind bs_ReceivedAnchors set_Anchor].
  destruct (anchor_receipts_ok (bs_ReceivedAnchors s) b3 b2 v2 ix2 _ _ Hinv2 Hb3) as (receipts & b4 & -> & Hb4 & Hr4 & HF4).
  { apply Forall_forall. intros r (k & Hk)%list_elem_of_lookup. destruct (Forall2_lookup_r _ _ _ _ _ Y10 Hk) as (x & _ & _ & _ & Hx). eapply received_mono; [exact Hg2|done]. }
  cbn [res_bind]. eexists acc, _, v2, ix2, (mth (v2 root)), _. split; [done|]. cbn [set_ledger set_LedgerAnchor set_batch n_batch n_ledger n_anchors set_anchors ls_Anchor ls_Index].
  split; [eapply run_inv_rest; [exact Hinv2|done|congruence]|]. split; [done|]. split; [done|]. split; [done|]. split; [by rewrite Y12|].
  cbn [DirectoryAnchor_Receipts DirectoryAnchor_MakeMajorBlock]. split; [|split; [by intros ->|by exists i, e]].
  unfold anchors_proved. eapply Forall2_trans; [|exact Y10|exact HF4].
  intros x r pr (E1 & E2 & _) Hp. exists (ra_Partition r), (ra_Index r). rewrite <- E1, <- E2. by destruct r.
Qed.

End Exec.

(** ** An example *)

#[local] Existing Instance empty_union.

Definition demo_dn : Describe := mkDescribe (str "Directory") true.
Definition demo_adds : list (Chain2 * bytes) := [(demo_tokens, demo_hash 1)].
(** A first block with some entries. *)
Definition first_block (d : Describe) (adds : list (Chain2 * bytes)) : res (Anchoring.Batch (S:=ChainView) (TB:=unit) (ER:=unit)) :=
  let! (c, b) := add_entries adds (mkUpdates [] []) (new_batch empty_view) in
  EndBlock d (mkBlock 1 1000 [] c 0 0) demo_order b.
(** The [n]-th anchor of a partition; the second one answers a major block. *)
Definition demo_anchor (n : Z) : BlockValidatorAnchor :=
  Build_BlockValidatorAnchor (Build_PartitionAnchor (Some (PartitionUrl (str "BVN0"))) (n - 1) n 3 (demo_hash (10 + n)) (demo_hash (20 + n)) [] []) 5 [].
Definition demo_items : list (BlockItem (SG:=Empty_set) (UB:=Empty_set)) :=
  [AnchorItem (TransactionBody_BlockValidatorAnchor (demo_anchor 1)) 1 (demo_hash 31); EntryItem demo_tokens (demo_hash 2);
   AnchorItem (TransactionBody_BlockValidatorAnchor (demo_anchor 2)) 2 (demo_hash 32)].
Definition demo_node (b : Anchoring.Batch (S:=ChainView) (TB:=unit) (ER:=unit)) : Node (SG:=Empty_set) (UB:=Empty_set) :=
  mkNode b (mkLedger 2 1001 0 [] None) (Build_AnchorLedger (Some (AnchorPool demo_dn)) 0 time_zero [] [] [])
    (Build_SyntheticLedger (Some (Synthetic demo_dn)) [] []) (Some 1000) (fun _ => []) (fun _ => []) (fun _ => None).

Lemma demo_dn_wf : partition_wf demo_dn.
Proof. split; [vm_compute; reflexivity..| |vm_compute; reflexivity]. refine (proj1 (bool_decide_eq_true _) _). vm_compute. reflexivity. Qed.

Lemma demo_adds_ok : Forall (add_ok demo_dn) demo_adds.
Proof.
  apply Forall_singleton. split; [done|]. split; [|split; [|split; [|apply sha256_length]]].
  - split; [vm_compute; reflexivity|]. split; [vm_compute; reflexivity|]. refine (proj1 (bool_decide_eq_true _) _); vm_compute; reflexivity.
  - refine (proj1 (bool_decide_eq_true _) _); vm_compute; reflexivity.
  - vm_compute; reflexivity.
Qed.

Lemma started (d : Describe) adds n :
  UrlProofs.url_ok (Ledger d) = true -> Forall (add_ok d) adds -> (exists x, x ∈ adds /\ listed_chain d (ac (fst x))) -> 0 <= n -> n + 2 * zlen adds + 2 < 2 ^ 62 ->
  exists log b v ix, first_block d adds = Ok b /\ run_inv d b v ix log n /\ v (root (Ledger d)) <> [] /\
    forall a, a ∉ (ac ∘ fst) <$> adds -> a <> root (Ledger d) -> a <> ac (mkChain2 (AnchorPool d) MajorBlockChain false) -> v a = [].
Proof.
  intros Hu HF (x & Hx & Hlc) Hn Hc. pose proof (zlen_nonneg adds) as Hz. unfold first_block.
  pose proof (run_inv_new (S:=ChainView) (TB:=unit) (ER:=unit) d empty_view (n + 2 + 2 * zlen adds) (chain_inv_empty 8) ltac:(lia)) as Hinv.
  destruct (add_entries_ok d adds (fun _ => []) (mkUpdates [] []) (new_batch empty_view) (fun _ => []) (fun _ => []) (n + 2 + zlen adds) Hu (ri_holds _ _ _ _ _ _ Hinv) (ri_linked _ _ _ _ _ _ Hinv)) as
    (c & b1 & v1 & -> & Hr1 & Hb1 & Hl1 & Had & Hg1 & Hroom1 & Hlen & HF1 & Hf1); [|done|intros a; change (zlen []) with 0; lia|lia|].
  { split; [intros ?; done|done|constructor|done|by left|by left]. }
  cbn [res_bind Entries] in *. change (zlen []) with 0 in Hlen. injection Hr1 as Et _ _ _ _.
  destruct (run_end_ok d demo_order (mkBlock 1 1000 [] c 0 0) (new_batch empty_view) b1 (fun _ => []) (fun _ => []) [] (n + 2 + 2 * zlen adds) v1 n (fun _ => reflexivity _) Hinv Et Hb1 Hl1 Had) as
    (A & b2 & v2 & ix2 & E & _ & _ & Hinv2 & _ & Hne & Hf2); cbn [Updates ProducedTxns]; [|right; left|done|lia|intros a; specialize (Hroom1 a); lia|].
  - split; cbn [Block_Index Block_Time ProducedTxns MakeMajorBlock]; [lia|split; vm_compute; [discriminate|reflexivity]|by intros i txn|apply zlen_nonneg|by constructor|by left].
  - exists (ac (fst x)), (snd x). split; [done|]. rewrite Forall_forall in HF1. by apply HF1.
  - eexists _, b2, v2, ix2. split; [done|]. split; [exact Hinv2|]. split; [done|]. intros a H1 H2 H3. by rewrite Hf2, Hf1.
Qed.

Local Opaque AccountID32.
Lemma demo_dn_run n : 0 <= n < 2 ^ 62 - 4 -> exists log b v ix, first_block demo_dn demo_adds = Ok b /\ run_inv demo_dn b v ix log n /\ v (root (Ledger demo_dn)) <> [] /\ v (ac (synthChain (Synthetic demo_dn))) = [].
Proof.
  intros Hn. assert (Hne : AccountID32 (c2_Account demo_tokens) <> AccountID32 (Synthetic demo_dn)) by (refine (proj1 (bool_decide_eq_true _) _); vm_compute; reflexivity).
  destruct (started demo_dn demo_adds n) as (log & b & v & ix & E & Hinv & Hv & Hf); [vm_compute; reflexivity|exact demo_adds_ok| |lia|unfold demo_adds; change (zlen [_]) with 1; lia|].
  - exists (demo_tokens, demo_hash 1). split; [by left|]. by apply listed_account.
  - exists log, b, v, ix. split; [exact E|]. split; [exact Hinv|]. split; [exact Hv|]. apply Hf; [|intros E'; discriminate (f_equal snd E')..].
    unfold demo_adds. cbn [fmap list_fmap compose fst]. rewrite list_elem_of_singleton. intros E'. apply Hne. exact (eq_sym (f_equal fst E')).
Qed.

Lemma demo_anchor_wf n : body_wf (SG:=Empty_set) (UB:=Empty_set) (TransactionBody_BlockValidatorAnchor (demo_anchor n)).
Proof.
  split; [|split; apply sha256_length].
  eexists. split; [reflexivity|]. intros name Hn. vm_compute in Hn. injection Hn as <-. refine (proj1 (bool_decide_eq_true _) _). vm_compute. reflexivity.
Qed.

Lemma demo_items_wf : Forall (item_wf demo_dn) demo_items.
Proof.
  repeat apply Forall_cons_2; [split; [apply demo_anchor_wf|apply sha256_length]| |split; [apply demo_anchor_wf|apply sha256_length]|apply Forall_nil_2].
  pose proof demo_adds_ok as Hok. unfold demo_adds in Hok. rewrite Forall_singleton in Hok. destruct Hok as (H1 & H2 & H3 & H4 & _). split; [exact H1|]. split; [exact H2|]. split; [exact H3|]. split; [exact H4|apply sha256_length].
Qed.
