(* ===== verification/BlockBeginProofs.v ===== *)
(** * The start of a block: what is sent is proved and signed

    The anchor of the directory reaches every partition with the receipts of all anchors that
    were accepted; the synthetic transactions of a block are sent in order, with receipts up to
    the root of the block and the signature of the node. *)

From stdpp Require Import functions sorting.
From S2P Require Import Prelude Sha256 Encoding MerkleTree MerkleState Receipt Chain ChainProofs SortUtil Url.
From S2P Require Import UrlProofs AdiUrl KeyPages StateManager Codec CodecProofs Enums Wire TypesGeneral TypesAccounts.
From S2P Require Import TypesSignatures TypesTransactions TypesStatus TypesDatabase TransactionHash DataModel DbChain Indexing Signatures.
From S2P Require Import Builder Anchoring AnchoringProofs AnchoringBlocks BlockRuns Anchors AnchorsProofs BlockBegin.
Local Open Scope Z_scope.
Import Url TxID.

Section Send.
Context {S TB ER SG UB : Type} `{ChainStoreLaws S} `{!Union SG, !Union UB} `{SigningLaws} (d : Describe).
Abbreviation holds := (holds (S:=S) (TB:=TB) (ER:=ER)).
Abbreviation Batch := (Anchoring.Batch (S:=S) (TB:=TB) (ER:=ER)).
Abbreviation Node := (Anchors.Node (S:=S) (TB:=TB) (ER:=ER) (SG:=SG) (UB:=UB)).
Abbreviation Body := (TransactionBody SG UB).
Abbreviation Sent := (BlockBegin.Sent (SG:=SG) (UB:=UB)).
Abbreviation ledger := (Ledger d).
Abbreviation root := (root ledger).

(** ** Signing *)

(** A node that signs and sends. *)
Record active (x : Options) : Prop := {
  a_key : exists key, x_Key x = Some key /\ ed25519_key key;
  a_follower : IsFollower x = false
}.

Lemma SignTransaction_ok x (txn : Txn Body) h :
  active x -> GetHash txn = Ok h -> length h = 32%nat -> exists sig, SignTransaction x txn = Ok sig /\ accepts sig h = true.
Proof.
  intros [(key & Ek & Hk) _] Eh Hl. unfold SignTransaction. rewrite Ek, Eh. cbn [res_bind]. set (s := SetTimestamp 1 _).
  assert (Hr : ready s KED25519 key (JoinPath [str "network"] DnUrl)) by by split.
  destruct (prepare_ok false s _ _ _ Hr) as (s' & Ep & Es & Ed & _); [done|]. unfold Sign. rewrite Ep. cbn [res_bind]. rewrite Es, Ed.
  match type of Ep with _ = Ok (?k, _) => destruct (sign_ok key k (Delegators s) h Hk eq_refl Hl) as (sg & Esig & Hv) end; [by left|].
  rewrite Esig. cbn [res_bind wrapf]. by eexists.
Qed.

(** The hash of a transaction whose body can be written. *)
Definition writable (a : DirectoryAnchor UB) : Prop := exists h, getBodyHash (TransactionBody_DirectoryAnchor (SG:=SG) a) = Ok h.

Lemma GetHash_anchor header (a : DirectoryAnchor UB) :
  TransactionHeader_ok header -> writable a ->
  exists h, GetHash (Build_Transaction header (Some (TransactionBody_DirectoryAnchor (SG:=SG) a)) []) = Ok h /\ length h = 32%nat.
Proof.
  intros Hok (h & Eh). destruct (TransactionHeader_survives _ Hok) as (x & Ex & _). unfold GetHash. cbn [Transaction_Body Transaction_Header]. rewrite Ex, Eh.
  cbn [res_bind]. eexists. split; [done|]. apply sha256_length.
Qed.

(** A partition that can be sent to: the URL of its anchor pool can be written, and the router
    knows the partition. *)
Definition reachable (x : Options) (name : bytes) : Prop :=
  Wire.url_ok (Some (JoinPath [str "anchors"] (PartitionUrl name))) /\ RouteAccount x (PartitionUrl name) = Ok name.

(** A message with an anchor: the signature of the partition numbers it, and the executor
    accepts the signature of the node. *)
Definition carries (a : DirectoryAnchor UB) (seq : Z) (name : bytes) (m : Sent) : Prop :=
  s_partition m = name /\ Transaction_Body (s_transaction m) = Some (TransactionBody_DirectoryAnchor a) /\
  TransactionHeader_Principal (Transaction_Header (s_transaction m)) = Some (JoinPath [str "anchors"] (PartitionUrl name)) /\
  exists h sig, GetHash (s_transaction m) = Ok h /\
    s_signatures m = [SentPartition (Build_PartitionSignature (Some (NodeUrl d [])) (Some (PartitionUrl name)) seq h []); SentKey sig] /\ accepts sig h = true.

Lemma sendBlockAnchor_ok x (a : DirectoryAnchor UB) seq name :
  active x -> reachable x name -> writable a -> seq <> 0 ->
  exists m, sendBlockAnchor x d (TransactionBody_DirectoryAnchor a) seq name = Ok [m] /\ carries a seq name m.
Proof.
  intros Hx [Hu Hroute] Hw Hs. unfold sendBlockAnchor, PrepareBlockAnchor, InitiateSynthetic. cbn [bd_Url SetVersion SetUrl Version].
  rewrite (proj2 (Z.eqb_neq _ _)) by done. cbn [Metadata res_bind]. rewrite to_array_32 by apply sha256_length. cbn [res_bind].
  set (init := signatureHash _). set (txn := set_Initiator init _).
  destruct (GetHash_anchor (Transaction_Header txn) a) as (h & Eh & Hl); [|done|].
  { split; [done|]. split; [apply sha256_length|]. by repeat split. }
  change (Build_Transaction (Transaction_Header txn) _ []) with txn in Eh. rewrite Eh. cbn [res_bind]. rewrite to_array_32 by done. cbn [res_bind].
  destruct (SignTransaction_ok x txn h Hx Eh Hl) as (sig & -> & Hacc). cbn [res_bind]. rewrite (a_follower _ Hx). unfold BroadcastTx. rewrite Hroute. cbn [res_bind].
  eexists. split; [done|]. split; [done|]. split; [done|]. split; [done|]. by exists h, sig.
Qed.

Lemma send_all_ok x (a : DirectoryAnchor UB) seq dests :
  active x -> Forall (reachable x) dests -> writable a -> seq <> 0 ->
  exists l, send_all x d (TransactionBody_DirectoryAnchor a) seq dests = Ok l /\ Forall2 (carries a seq) dests l.
Proof.
  intros Hx HF Hw Hs. induction HF as [|name dests Hn HF (l & IH & Hl)]; cbn [send_all]; [by exists []|].
  destruct (sendBlockAnchor_ok x a seq name Hx Hn Hw Hs) as (m & -> & Hm). cbn [res_bind]. rewrite IH. cbn [res_bind app]. exists (m :: l). split; [done|]. by constructor.
Qed.

(** ** The anchor of the directory *)

(** The anchor that is sent, with the root [A]. *)
Definition completed (index : Z) (A stateRoot : bytes) (a : DirectoryAnchor UB) : DirectoryAnchor UB :=
  Build_DirectoryAnchor (complete index A stateRoot (PartitionAnchor_Copy (DirectoryAnchor_PartitionAnchor a)))
    (NetworkAccountUpdate_Copy <$> DirectoryAnchor_Updates a) (PartitionAnchorReceipt_Copy <$> DirectoryAnchor_Receipts a)
    (DirectoryAnchor_MakeMajorBlock a) (DirectoryAnchor_MakeMajorBlockTime a) [].

(** What the directory sends to itself. *)
Definition own_copy (a : DirectoryAnchor UB) : DirectoryAnchor UB := set_MakeMajorBlock 0 (DirectoryAnchor_Copy a).

Lemma record_anchor_ok (a : DirectoryAnchor UB) seq c (n : Node) v ix :
  holds (n_batch n) v ix -> zlen (v (ac (anchorSequence d))) + 1 < 2 ^ 62 -> writable a ->
  exists c' n', record_anchor d (TransactionBody_DirectoryAnchor (SG:=SG) a) seq c n = Ok (c', n').
Proof.
  intros Hb Hroom Hw. unfold record_anchor, putSyntheticTransaction. destruct (GetHash_anchor new_TransactionHeader a) as (h & Eh & Hl); [by repeat split|done|].
  rewrite Eh. cbn [res_bind]. cbn [n_batch set_txn set_batch].
  match goal with |- context [PutStatus h ?x ?b] => destruct (PutStatus_ok b h [] ix v x Hb) as (Hb1 & _); set (b1 := PutStatus h x b) in * end.
  destruct (Chain2_Get_ok (anchorSequence d) b1 v ix Hb1) as (b2 & -> & Hb2 & _). cbn [res_bind].
  rewrite (holds_Height (anchorSequence d) b2 v ix Hb2 eq_refl). cbn [res_bind].
  destruct (chain_add_entry_ok (anchorSequence d) h false b2 v ix Hb2 eq_refl) as (b3 & -> & _); [lia|done|]. by eexists _, _.
Qed.

Lemma finalize_anchor_ok x bvns stateRoot (n : Node) v ix log k a c sch i e :
  IsDirectory d = true -> active x -> Forall (reachable x) (bvns ++ [str "Directory"]) ->
  run_inv d (n_batch n) v ix log k -> 1 <= k -> v root <> [] -> length stateRoot = 32%nat ->
  Partition DnUrl (AnchorLedger_Exchange (n_anchors n)) = Ok (AnchorLedger_Exchange (n_anchors n), i) -> Prelude.index (AnchorLedger_Exchange (n_anchors n)) i = Ok e ->
  TransactionExchangeLedger_Produced e <> 0 ->
  (0 < DirectoryAnchor_MakeMajorBlock a -> exists s next, sch = Some s /\ majorBlockSchedule s = Some next) ->
  let a' := completed (zlen (v root) - 1) (mth (v root)) stateRoot a in writable a' -> writable (own_copy a') ->
  exists n' c' sent self opened sch', finalize_anchor x d bvns stateRoot (TransactionBody_DirectoryAnchor a) n c sch = Ok (n', c', sent ++ [self], opened, sch') /\
    Forall2 (carries a' (TransactionExchangeLedger_Produced e)) bvns sent /\ carries (own_copy a') (TransactionExchangeLedger_Produced e) (str "Directory") self.
Proof.
  intros Hdir Hx [HF Hself]%Forall_app Hinv Hk Hne Hst HP HI Hpr Hsch a' Hw Hw'. rewrite Forall_singleton in Hself. unfold finalize_anchor. rewrite HP. cbn [res_bind]. rewrite HI. cbn [res_bind].
  destruct (Chain2_Get_ok (rootChain ledger) (n_batch n) v ix (ri_holds _ _ _ _ _ _ Hinv)) as (b1 & -> & Hb1 & _). cbn [wrapf res_bind].
  rewrite (holds_Height (rootChain ledger) b1 v ix Hb1 eq_refl). cbn [res_bind]. pose proof (h_small _ _ _ Hb1 root) as Hsm. change (ac (rootChain ledger)) with root.
  rewrite (Chain_Anchor_ok _ _ (holds_get (rootChain ledger) _ _ _ Hb1 eq_refl) Hsm Hne). cbn [res_bind hb].
  change (hb (Some ?x)) with x. change (ac (rootChain ledger)) with root. rewrite (to_array_32 (mth (v root))) by (by apply length_mth, (h_len _ _ _ Hb1)). cbn [res_bind]. rewrite (to_array_32 stateRoot Hst). cbn [res_bind].
  assert (Hpos : 0 < zlen (v root)) by (unfold zlen; destruct (v root); [done|cbn [length]; lia]).
  rewrite (u64_small (zlen _)), u64_small by (unfold is_u64; lia). cbn [complete_body res_bind]. change (Build_DirectoryAnchor _ _ _ _ _ _) with a'.
  destruct (record_anchor_ok a' (TransactionExchangeLedger_Produced e) c (set_batch b1 n) v ix Hb1) as (c' & n2 & ->); [pose proof (ri_room _ _ _ _ _ _ Hinv (ac (anchorSequence d))); lia|done|].
  cbn [res_bind]. unfold send_anchor. rewrite Hdir. change (DirectoryAnchor_MakeMajorBlock a') with (DirectoryAnchor_MakeMajorBlock a).
  assert (exists sch', (if 0 <? DirectoryAnchor_MakeMajorBlock a then
      match sch with None => Panic "invalid memory address or nil pointer dereference"
      | Some s => let! s := UpdateNextMajorBlockTime (DirectoryAnchor_MakeMajorBlockTime a') s in Ok (Some s) end else Ok sch) = Ok sch') as (sch' & Esch).
  { destruct (Z.ltb_spec 0 (DirectoryAnchor_MakeMajorBlock a)) as [Hlt|]; [|by eexists]. destruct (Hsch Hlt) as (s & next & -> & Es).
    unfold UpdateNextMajorBlockTime. rewrite Es. by eexists. }
  rewrite Esch. cbn [res_bind]. destruct (send_all_ok x a' _ bvns Hx HF Hw Hpr) as (l & -> & Hl). cbn [wrapf res_bind].
  destruct (sendBlockAnchor_ok x (own_copy a') _ _ Hx Hself Hw' Hpr) as (m & Em & Hm). unfold own_copy in Em. rewrite Em.
  cbn [wrapf res_bind]. by eexists _, _, l, m, _, _.
Qed.

Lemma anchors_proved_copy A (acc : list (Body * Z)) receipts : anchors_proved A acc receipts -> anchors_proved A acc (PartitionAnchorReceipt_Copy <$> receipts).
Proof.
  intros HF. apply Forall2_fmap_r. eapply Forall2_impl; [exact HF|]. intros x pr (name & i & Hp). exists name, i. by apply proves_copy.
Qed.

Context (sort_slice : list (Additional (UB:=UB) * Z) -> list (Additional (UB:=UB) * Z)) (W : partition_wf d).

(** ** What only reads the chains *)

Definition reads (b b' : Batch) : Prop := forall v ix, holds b v ix -> holds b' v ix /\ rest b' = rest b.

#[local] Instance reads_preorder : PreOrder reads.
Proof. split; [by intros b v ix|]. intros b1 b2 b3 R1 R2 v ix Hb. destruct (R1 v ix Hb) as [Hb2 E2]. destruct (R2 v ix Hb2) as [Hb3 E3]. split; [done|congruence]. Qed.

Lemma reads_get c m (b b' : Batch) : wrapf (Chain2_Get c b) m = Ok b' -> reads b b'.
Proof. intros E v ix Hb. destruct (Chain2_Get_ok c b v ix Hb) as (b1 & E1 & Hb1 & Hr). rewrite E1 in E. cbn [wrapf] in E. by injection E as <-. Qed.

Lemma reads_from_end c k (b b' : Batch) e : LoadIndexEntryFromEnd c k b = Ok (e, b') -> reads b b'.
Proof.
  unfold LoadIndexEntryFromEnd. destruct (k =? 0); [done|]. destruct (wrapf (Chain2_Get c b) _) as [b1| |] eqn:E; cbn [res_bind]; [|done|done].
  apply reads_get in E. destruct (Chain_Height _); cbn [res_bind]; [|done|done]. destruct (_ <? _); [by intros [= _ <-]|].
  destruct (wrapf (EntryAs _ _) _); cbn [res_bind]; [|done|done]. by intros [= _ <-].
Qed.

Lemma reads_last_two c (b b' : Batch) x y : LoadLastTwoIndexEntries c b = Ok (x, y, b') -> reads b b'.
Proof.
  unfold LoadLastTwoIndexEntries. destruct (LoadIndexEntryFromEnd c 1 b) as [[e b1]| |] eqn:E1; cbn [res_bind]; [|done|done]. apply reads_from_end in E1.
  destruct e; [|by intros [= _ _ <-]]. destruct (LoadIndexEntryFromEnd c 2 b1) as [[f b2]| |] eqn:E2; cbn [res_bind]; [|done|done]. apply reads_from_end in E2.
  intros [= _ _ <-]. by etrans.
Qed.

Lemma reads_for_block i (b b' : Batch) l : synthetic_for_block d i b = Ok (l, b') -> reads b b'.
Proof.
  unfold synthetic_for_block. destruct (b_synth b i); [|by intros [= _ <-]]. destruct (Index _); cbn [res_bind]; [|done|done].
  destruct (wrapf (Chain2_Get _ b) _) as [b1| |] eqn:E1; cbn [res_bind]; [|done|done]. apply reads_get in E1. destruct (wrapf (EntryAs _ _) _); cbn [res_bind]; [|done|done].
  match goal with |- res_bind ?m _ = _ -> _ => destruct m end; cbn [res_bind]; [|done|done].
  destruct (wrapf (Chain2_Get _ b1) _) as [b2| |] eqn:E2; cbn [res_bind]; [|done|done]. apply reads_get in E2. destruct (Chain_Entries _ _ _ _) as [r|]; [|done].
  destruct (wrapf r _); cbn [res_bind]; [|done|done]. intros [= _ <-]. by etrans.
Qed.

(** A node of which only the chains were read. *)
Definition reads_node (n n' : Node) : Prop := reads (n_batch n) (n_batch n') /\ n' = set_batch (n_batch n') n.

#[local] Instance reads_node_preorder : PreOrder reads_node.
Proof. split; [by intros []|]. intros n1 n2 n3 [R1 E1] [R2 E2]. split; [by etrans|]. rewrite E2, E1. done. Qed.

Lemma reads_send_for_block x i r (n n' : Node) sent : sendSyntheticTransactionsForBlock x d i r n = Ok (sent, n') -> reads_node n n'.
Proof.
  unfold sendSyntheticTransactionsForBlock. destruct (synthetic_for_block d i (n_batch n)) as [[l b]| |] eqn:E; cbn [res_bind]; [|done|done].
  apply reads_for_block in E. destruct (send_synthetics _ _ _ _); cbn [res_bind]; [|done|done]. by intros [= _ <-].
Qed.

Lemma reads_send_proved x receipts (n n' : Node) sent : send_proved x d receipts n = Ok (sent, n') -> reads_node n n'.
Proof.
  revert n sent. induction receipts as [|r receipts IH]; intros n sent; cbn [send_proved]; [by intros [= _ <-]|].
  destruct (PartitionAnchorReceipt_Anchor r) as [a|]; [|done]. destruct (PartitionAnchor_Source a) as [u|]; [|done]. destruct (ParsePartitionUrl u); [|done].
  destruct (negb _); [apply IH|]. destruct (sendSyntheticTransactionsForBlock _ _ _ _ _) as [[l1 n1]| |] eqn:E; cbn [res_bind]; [|done|done]. apply reads_send_for_block in E.
  destruct (send_proved x d receipts n1) as [[l2 n2]| |] eqn:E2; cbn [res_bind]; [|done|done]. intros [= _ <-]. apply IH in E2. by etrans.
Qed.

Lemma reads_send_for_anchors x entries (n n' : Node) sent : send_for_anchors x d entries n = Ok (sent, n') -> reads_node n n'.
Proof.
  revert n sent. induction entries as [|h entries IH]; intros n sent; cbn [send_for_anchors]; [by intros [= _ <-]|].
  destruct (n_txns n (hb h)) as [state|]; [|done]. destruct (SigOrTxn_Transaction state) as [txn|]; [|done].
  match goal with |- res_bind ?m _ = _ -> _ => destruct m as [[l1 n1]| |] eqn:E end; cbn [res_bind]; [|done|done].
  destruct (send_for_anchors x d entries n1) as [[l2 n2]| |] eqn:E2; cbn [res_bind]; [|done|done]. intros [= _ <-]. apply IH in E2. etrans; [|exact E2].
  destruct (Transaction_Body txn) as [[]|]; try (by injection E as _ <-). by eapply reads_send_proved.
Qed.

Lemma reads_sendSyntheticTransactions x (n n' : Node) sent : sendSyntheticTransactions x d n = Ok (sent, n') -> reads_node n n'.
Proof.
  unfold sendSyntheticTransactions. destruct (Index (anchorMain d)) as [ic| |]; cbn [res_bind]; [|done|done].
  destruct (wrapf (LoadLastTwoIndexEntries ic _) _) as [[[last prev] b1]| |] eqn:E1; cbn [res_bind]; [|done|done]. apply wrapf_Ok, reads_last_two in E1.
  destruct last as [last|]; [|by intros [= _ <-]]. destruct (Index _) as [ri| |]; cbn [res_bind]; [|done|done].
  destruct (wrapf (LoadIndexEntryFromEnd ri 2 b1) _) as [[rp b2]| |] eqn:E2; cbn [res_bind]; [|done|done]. apply wrapf_Ok, reads_from_end in E2.
  assert (E12 : reads (n_batch n) b2) by by etrans.
  match goal with |- (if ?c then _ else _) = _ -> _ => destruct c end; [by intros [= _ <-]|]. cbn zeta.
  destruct (wrapf (Chain2_Get _ b2) _) as [b3| |] eqn:E3; cbn [res_bind]; [|done|done]. apply reads_get in E3. destruct (Chain_Entries _ _ _ _) as [r|]; [|done].
  destruct (wrapf r _); cbn [res_bind]; [|done|done]. intros E4%reads_send_for_anchors. etrans; [|exact E4]. split; [by etrans|done].
Qed.

(** C7. The anchors of the directory: in a block of the directory that executes any anchors of
    the partitions and of itself, also ones that answer a major block and the one that completes
    it, among any other entries that are added to chains (but with no synthetic transactions
    produced), every anchor that is accepted gets a receipt in the directory's anchor.  The
    receipt validates from the root of the partition to the root of the directory after the
    block, and prolongs every receipt that ends in the root of the partition.  At the start of
    the next block, if the completed anchor can be encoded ([writable]) and the synthetic
    transactions that the directory's own anchors prove could be sent, [finalizeBlock] sends the
    anchor to every partition and to the directory, with that root, the number of the anchor
    and a signature of the node that is accepted, before it sends the synthetic transactions of
    the block. *)
Theorem directory_anchor_receipts order bvns index time st items (n : Node) v ix log :
  IsDirectory d = true -> (forall m, order m ≡ₚ (map_to_list m).*1) -> run_inv d (n_batch n) v ix log (spare (3 + 6 * zlen items)) -> v root <> [] ->
  Forall (item_wf d) items -> ledgers_sorted n -> 0 < index < 2 ^ 63 -> time_range time ->
  0 <= AnchorLedger_MajorBlockIndex (n_anchors n) < 2 ^ 42 -> time_range (AnchorLedger_MajorBlockTime (n_anchors n)) ->
  exists acc n' A a, directory_block d sort_slice order bvns index time st items n = Ok (acc, n') /\
    Chain_Anchor (get_chain (rootChain ledger) (n_batch n')) = Ok (Some A) /\
    ls_Anchor (n_ledger n') = Some (TransactionBody_DirectoryAnchor a) /\ anchors_proved A acc (DirectoryAnchor_Receipts a) /\
    forall x stateRoot c sch height next sent1 n1, active x -> Forall (reachable x) (bvns ++ [str "Directory"]) -> length stateRoot = 32%nat ->
      (ShouldOpenMajorBlock st = true -> exists s next, sch = Some s /\ majorBlockSchedule s = Some next) ->
      Chain_Height (get_chain (rootChain ledger) (n_batch n')) = Ok height ->
      writable (completed (height - 1) A stateRoot a) -> writable (own_copy (completed (height - 1) A stateRoot a)) ->
      u64 (next - 1) <= ls_Index (n_ledger n) -> sendSyntheticTransactions x d n' = Ok (sent1, n1) ->
      exists n2 c' sent opened sch',
        finalizeBlock x d bvns next stateRoot n' c sch =
          (let! (sent3, n3) := sendSyntheticTransactionsForBlock x d (ls_Index (n_ledger n)) None n2 in Ok (n3, c', sent1 ++ sent ++ sent3, opened, sch')) /\
        Forall2 (fun name m => exists b seq, carries b seq name m /\ PartitionAnchor_RootChainAnchor (DirectoryAnchor_PartitionAnchor b) = A /\
          anchors_proved A acc (DirectoryAnchor_Receipts b)) (bvns ++ [str "Directory"]) sent.
Proof.
  intros Hdir Hord Hinv Hne HF Hled Hidx Htime HM HT.
  destruct (directory_block_ok d sort_slice W order bvns index time st items n v ix log Hdir Hord Hinv Hne HF Hled Hidx Htime HM HT) as
    (acc & n' & v' & ix' & A & a & E & Hinv' & -> & Hne' & Ha & Hls' & Hp & Hopen & i & e & HP & HI & HPr).
  exists acc, n', (mth (v' root)), a. split; [done|]. pose proof (ri_holds _ _ _ _ _ _ Hinv') as Hb'.
  split; [apply (Chain_Anchor_ok _ _ (holds_get (rootChain ledger) _ _ _ Hb' eq_refl) (h_small _ _ _ Hb' _) Hne')|]. do 2 (split; [done|]).
  intros x stateRoot c sch height next sent1 n1 Hx Hre Hst Hsch Hh0 Hw Hw' Hnext Hsend. rewrite (holds_Height (rootChain ledger) _ _ _ Hb' eq_refl) in Hh0. injection Hh0 as <-.
  destruct (reads_sendSyntheticTransactions _ _ _ _ Hsend) as [Hread En1]. destruct (Hread v' ix' Hb') as [Hb1 Hr1].
  assert (Ean : n_anchors n1 = n_anchors n') by (rewrite En1; done). rewrite <- Ean in HP, HI.
  destruct (finalize_anchor_ok x bvns stateRoot n1 v' ix' _ 1 a c sch i e Hdir Hx Hre (run_inv_rest _ _ _ _ _ _ _ Hinv' Hb1 Hr1) ltac:(done) Hne' Hst HP HI HPr)
    as (n2 & c' & sent & self & opened & sch' & Ef & Hs & Hself); [|done|done|].
  { intros Hlt. apply Hsch. destruct (ShouldOpenMajorBlock st) eqn:Es; [done|]. rewrite (Hopen eq_refl) in Hlt. done. }
  eexists n2, c', _, opened, sch'. split.
  { unfold finalizeBlock. cbn zeta. rewrite Hls', (proj2 (Z.ltb_ge _ _)) by done. rewrite Hsend. cbn [wrapf res_bind]. rewrite Ha, Ef. cbn [res_bind]. by rewrite Hdir. }
  pose proof (anchors_proved_copy _ _ _ Hp) as Hp1. apply Forall2_app.
  - eapply Forall2_impl; [exact Hs|]. intros name m Hc. eexists _, _. split; [exact Hc|]. by split.
  - constructor; [|done]. eexists _, _. split; [exact Hself|]. split; [done|]. by apply anchors_proved_copy.
Qed.

End Send.

(** ** An example *)

#[local] Existing Instance empty_union.
#[local] Existing Instance demo_keys.
#[local] Existing Instance demo_signing.
#[local] Existing Instance demo_laws.

Definition demo_options : Options :=
  mkOptions (Some demo_ed_key) 1 false true (fun u => match ParsePartitionUrl u with Some name => Ok name | None => errorf "cannot route" end).

Lemma demo_active : active demo_options.
Proof. split; [|done]. by exists demo_ed_key. Qed.

Lemma demo_reachable : Forall (reachable demo_options) [str "BVN0"; str "Directory"].
Proof. repeat apply Forall_cons_2; try apply Forall_nil_2; (split; [by repeat split|vm_compute; reflexivity]). Qed.

(** A directory that waits for the answer of one partition. *)
Definition demo_waiting (b : Anchoring.Batch (S:=ChainView) (TB:=unit) (ER:=unit)) : Node (SG:=Empty_set) (UB:=Empty_set) :=
  set_anchors (Build_AnchorLedger (Some (AnchorPool demo_dn)) 1 1001 [Some (PartitionUrl (str "BVN0"))] [] []) (demo_node b).

Lemma directory_anchor_receipts_witness :
  exists b acc n' A a, directory_block demo_dn (fun l => l) demo_order [str "BVN0"] 2 1001 (mkAnchorState false 0) demo_items (demo_waiting b) = Ok (acc, n') /\
    ls_Anchor (n_ledger n') = Some (TransactionBody_DirectoryAnchor a) /\ anchors_proved A acc (DirectoryAnchor_Receipts a).
Proof.
  destruct (demo_dn_run (spare 21) ltac:(split; vm_compute; [discriminate|reflexivity])) as (log & b & v & ix & _ & Hinv & Hne & _). exists b.
  destruct (directory_anchor_receipts demo_dn (fun l => l) demo_dn_wf demo_order [str "BVN0"] 2 1001 (mkAnchorState false 0) demo_items (demo_waiting b) v ix log
    eq_refl (fun _ => reflexivity _) Hinv Hne demo_items_wf) as (acc & n' & A & a & E & _ & Ea & Hp & _);
    [split; [apply SSorted_nil|split; [apply Forall_nil_2|apply SSorted_nil]]|lia|split; vm_compute; [discriminate|reflexivity]..|].
  exists acc, n', A, a. split; [exact E|]. split; [exact Ea|exact Hp].
Defined.

(** The block and the start of the next one, evaluated: the anchor is accepted, proved and sent
    to the partition and to the directory with the root of the block. *)
Example demo_directory_block :
  match first_block demo_dn demo_adds with
  | Ok b =>
      match directory_block demo_dn (fun l => l) demo_order [str "BVN0"] 2 1001 (mkAnchorState false 0) demo_items (demo_waiting b) with
      | Ok (acc, n) =>
          match finalizeBlock demo_options demo_dn [str "BVN0"] 3 (demo_hash 0) n (mkUpdates [] []) None with
          | Ok (_, _, sent, _, _) =>
              (zlen acc =? 2) && bool_decide (s_partition <$> sent = [str "BVN0"; str "Directory"]) &&
              forallb (fun x =>
                match Transaction_Body (s_transaction x) with
                | Some (TransactionBody_DirectoryAnchor a) =>
                    forallb (fun pr =>
                      match PartitionAnchorReceipt_RootChainReceipt pr with
                      | Some r => (bytes_eqb (Receipt_Start r) (demo_hash 11) || bytes_eqb (Receipt_Start r) (demo_hash 12)) && bytes_eqb (Receipt_Anchor r) (PartitionAnchor_RootChainAnchor (DirectoryAnchor_PartitionAnchor a))
                      | None => false
                      end) (DirectoryAnchor_Receipts a)
                | _ => false
                end) sent
          | _ => false
          end
      | _ => false
      end
  | _ => false
  end = true.
Proof. vm_compute. reflexivity. Qed.
