(* ===== verification/SyntheticSend.v ===== *)
(** * Synthetic transactions, from their production to the message that is sent

    What a block produces is numbered, stored and added to the synthetic chain; the end of the
    block proves it; and when it is sent, exactly these transactions are sent, in order, with
    their receipts. *)

From stdpp Require Import functions sorting.
From S2P Require Import Prelude Sha256 Encoding MerkleTree MerkleState Receipt Chain ChainProofs SortUtil Url.
From S2P Require Import UrlProofs AdiUrl KeyPages StateManager Codec CodecProofs Enums Wire TypesGeneral TypesAccounts.
From S2P Require Import TypesSignatures TypesTransactions TypesStatus TypesDatabase TransactionHash DataModel DbChain Indexing Signatures.
From S2P Require Import Builder Anchoring AnchoringProofs AnchoringBlocks BlockRuns Anchors AnchorsProofs BlockBegin BlockBeginProofs.
Local Open Scope Z_scope.
Import Url TxID.

Section Synthetic.
Context {S TB ER SG UB : Type} `{ChainStoreLaws S} `{!Union SG, !Union UB} `{SigningLaws} (d : Describe).
Abbreviation holds := (holds (S:=S) (TB:=TB) (ER:=ER)).
Abbreviation Batch := (Anchoring.Batch (S:=S) (TB:=TB) (ER:=ER)).
Abbreviation Node := (Anchors.Node (S:=S) (TB:=TB) (ER:=ER) (SG:=SG) (UB:=UB)).
Abbreviation Body := (TransactionBody SG UB).
Abbreviation Sent := (BlockBegin.Sent (SG:=SG) (UB:=UB)).
Abbreviation ledger := (Ledger d).
Abbreviation root := (root ledger).
Abbreviation sc := (synthChain (Synthetic d)).

(** ** Production *)

(** The hash of a transaction is a hash of its header and its body. *)
Definition hashable (body : Body) : Prop := (exists h, getBodyHash body = Ok h) /\ forall r, body <> TransactionBody_RemoteTransaction r.

Lemma GetHash_ok header (body : Body) :
  TransactionHeader_ok header -> hashable body -> exists h, GetHash (Build_Transaction header (Some body) []) = Ok h /\ length h = 32%nat.
Proof.
  intros Hok [(h & Eh) Hr]. destruct (TransactionHeader_survives _ Hok) as (x & Ex & _). unfold GetHash. cbn [Transaction_Body Transaction_Header].
  destruct body; try (rewrite Ex, Eh; cbn [res_bind]; eexists; split; [done|apply sha256_length]). by destruct (Hr v).
Qed.

(** The destination is known to the router, and is a partition. *)
Definition routed (x : Options) (dest : URL) (part : bytes) : Prop :=
  Wire.url_ok (Some dest) /\ RouteAccount x dest = Ok part /\ exists name, ParsePartitionUrl (PartitionUrl part) = Some name.

(** A transaction that is stored with the status of a produced one. *)
Definition stored (n : Node) (p : URL * Body) (txn : Txn Body) (h : bytes) : Prop :=
  GetHash txn = Ok h /\ length h = 32%nat /\ n_txns n h = Some (Build_SigOrTxn (Some txn) None None []) /\
  TransactionHeader_Principal (Transaction_Header txn) = Some (fst p) /\ Transaction_Body txn = Some (snd p) /\
  exists part seq, origin (b_status (n_batch n) h) = (Some (NodeUrl d []), Some (PartitionUrl part), seq) /\ seq <> 0.

(** The ledger can number [k] more transactions. *)
Definition counted (k : Z) (l : list TransactionExchangeLedger) : Prop := Forall (fun e => 0 <= TransactionExchangeLedger_Produced e < 2 ^ 64 - k) l.

Lemma counted_partition k u l l' i : k < 2 ^ 63 -> exchange_sorted l -> counted k l -> Partition u l = Ok (l', i) -> counted k l'.
Proof.
  intros Hk Hs Hn E. destruct (Partition_ok u l Hs) as (l0 & j & e & E0 & _ & _ & _ & _ & _ & Hsub & _). rewrite E in E0. injection E0 as <- <-.
  unfold counted in *. rewrite Forall_forall in *. intros x [Hx| ->]%Hsub; [by apply Hn|cbn; lia].
Qed.

(** What producing a transaction changes. *)
Record built (n : Node) (v : AC -> list bytes) (ix : AC -> list IndexEntry) (m : Z) (h : bytes) (n' : Node) (v' : AC -> list bytes) : Prop := {
  u_holds : holds (n_batch n') v' ix;
  u_linked : linked ledger v' ix (b_txchains (n_batch n'));
  u_room : all_room m v';
  u_chain : v' (ac sc) = v (ac sc) ++ [h];
  u_root : v' root = v root;
  u_grows : grows v v';
  u_txns h' : h' <> h -> n_txns n' h' = n_txns n h';
  u_status h' : h' <> h -> b_status (n_batch n') h' = b_status (n_batch n) h';
  u_sorted : exchange_sorted (SyntheticLedger_Exchange (n_synth n'));
  u_counted k : 0 <= k < 2 ^ 62 -> counted (k + 1) (SyntheticLedger_Exchange (n_synth n)) -> counted k (SyntheticLedger_Exchange (n_synth n'));
  u_others a : a <> ac sc -> (forall p, a <> (AccountID32 (Synthetic d), SyntheticSequenceChain p)) -> v' a = v a;
  u_txchains : b_txchains (n_batch n') = b_txchains (n_batch n)
}.

Lemma add_sequence_ok partition i (b : Batch) v ix m :
  holds b v ix -> 0 <= i < 2 ^ 62 -> all_room (m + 1) v -> 0 <= m ->
  exists k b' v', addIndexChainEntry (synthSequence d partition) (Build_IndexEntry i 0 0 None 0 []) b = Ok (k, b') /\ rest b' = rest b /\
    holds b' v' ix /\ all_room m v' /\ grows v v' /\ forall a, a <> ac (synthSequence d partition) -> v' a = v a.
Proof.
  intros Hb Hi Hroom Hm. unfold addIndexChainEntry. set (c := synthSequence d partition). set (e := Build_IndexEntry _ _ _ _ _ _).
  destruct (Chain2_Get_ok c b v ix Hb) as (b1 & -> & Hb1 & Hr1). cbn [res_bind].
  destruct (IndexEntry_size e) as (data & -> & Hd); [subst e; unfold IndexEntry_ok, is_u64; repeat split; cbn; try done; lia|left; subst e; cbn; split_and!; try lia; by left|].
  cbn [res_bind]. destruct (chain_add_entry_ok c data false b1 v ix Hb1 eq_refl Hd) as (b2 & -> & Hr2 & Hb2); [specialize (Hroom (ac c)); lia|].
  rewrite decide_False in Hb2 by (intros [? _]; done). cbn [res_bind]. rewrite (holds_Height c b2 _ _ Hb2 eq_refl). cbn [res_bind].
  eexists _, _, _. split; [done|]. split; [congruence|]. split; [exact Hb2|]. split; [|split; [apply grows_app|intros a Ha; by rewrite fn_lookup_insert_ne]].
  intros a. specialize (Hroom a). destruct (decide (ac c = a)) as [<-|]; [|rewrite fn_lookup_insert_ne by done; lia]. rewrite fn_lookup_insert, zlen_app. change (zlen [_]) with 1. lia.
Qed.

Lemma buildSynthTxn_ok x dest part (body : Body) c (n : Node) v ix m :
  holds (n_batch n) v ix -> linked ledger v ix (b_txchains (n_batch n)) -> all_room (m + 2) v -> 0 <= m ->
  exchange_sorted (SyntheticLedger_Exchange (n_synth n)) -> counted 1 (SyntheticLedger_Exchange (n_synth n)) -> routed x dest part -> hashable body ->
  exists txn h c' n' v', buildSynthTxn x d dest body c n = Ok (txn, c', n') /\ stored n' (dest, body) txn h /\ built n v ix m h n' v'.
Proof.
  intros Hb Hl Hroom Hm Hso Hnu (Hu & Hro & name & Hna) Hh. unfold buildSynthTxn. rewrite Hro. cbn [res_bind].
  destruct (Partition_ok (PartitionUrl part) _ Hso) as (l & i & e & EP & Hl' & Hi & He & Ei & _). pose proof (counted_partition 1 _ _ _ _ ltac:(lia) Hso Hnu EP) as Hn.
  rewrite EP. cbn [res_bind]. rewrite Ei. cbn [res_bind]. unfold InitiateSynthetic. cbn [bd_Url SetVersion SetUrl Version].
  unfold counted in Hn. rewrite Forall_forall in Hn. specialize (Hn e (list_elem_of_lookup_2 _ _ _ He)). cbv beta in Hn.
  rewrite u64_small by (unfold is_u64; lia). rewrite (proj2 (Z.eqb_neq _ _)) by lia. cbn [Metadata res_bind]. rewrite to_array_32 by apply sha256_length. cbn [res_bind].
  set (init := signatureHash _). set (txn := set_Initiator init _).
  destruct (GetHash_ok (Transaction_Header txn) body) as (h & Eh & Hlen); [|done|].
  { split; [done|]. split; [apply sha256_length|]. by repeat split. }
  change (Build_Transaction (Transaction_Header txn) _ []) with txn in Eh. rewrite Eh. cbn [res_bind]. rewrite to_array_32 by done. cbn [res_bind].
  unfold putSyntheticTransaction. rewrite Eh. cbn [res_bind n_batch set_txn set_batch set_synthLedger].
  set (st := Build_TransactionStatus _ _ _ _ _ _ _ _ _ _ _ _ _ _). set (b1 := PutStatus h st (n_batch n)).
  destruct (PutStatus_ok (n_batch n) h [] ix v st Hb) as (Hb1 & Et1 & _). fold b1 in Hb1, Et1.
  destruct (Chain2_Get_ok sc b1 v ix Hb1) as (b2 & -> & Hb2 & Hr2). cbn [res_bind]. rewrite (holds_Height sc b2 v ix Hb2 eq_refl). cbn [res_bind].
  pose proof (h_small _ _ _ Hb2 (ac sc)) as Hsm. pose proof (zlen_nonneg (v (ac sc))) as Hz.
  destruct (chain_add_entry_ok sc h false b2 v ix Hb2 eq_refl) as (b3 & -> & Hr3 & Hb3); [lia|specialize (Hroom (ac sc)); lia|].
  rewrite decide_False, pad_entry_32 in Hb3 by (done || intros [? _]; done). cbn [res_bind]. rewrite Hna. set (v1 := <[ac sc := _]> v) in *.
  assert (Hroom1 : all_room (m + 1) v1).
  { intros a. specialize (Hroom a). unfold v1. destruct (decide (ac sc = a)) as [<-|]; [|rewrite fn_lookup_insert_ne by done; lia]. rewrite fn_lookup_insert, zlen_app. change (zlen [_]) with 1. lia. }
  rewrite u64_small by (unfold is_u64; lia).
  destruct (add_sequence_ok name (zlen (v (ac sc))) b3 v1 ix m Hb3 ltac:(lia) Hroom1 Hm) as (k & b4 & v2 & -> & Hr4 & Hb4 & Hroom2 & Hg2 & Ho2). cbn [res_bind].
  assert (Hr : rest b4 = rest b1) by congruence. injection Hr as Et Es _ _ _.
  assert (Hg : grows v v2) by (intros a; etrans; [apply grows_app|apply Hg2]).
  eexists txn, h, _, _, v2. split; [done|]. split.
  - do 2 (split; [done|]). cbn [n_txns set_batch set_txn set_synthLedger n_batch]. split; [by rewrite fn_lookup_insert|]. do 2 (split; [done|]).
    exists part, (TransactionExchangeLedger_Produced e + 1). split; [|lia]. rewrite Es. unfold b1, PutStatus, set_status. cbn [b_status]. by rewrite fn_lookup_insert.
  - split; cbn [n_batch set_batch set_txn set_synthLedger n_txns n_synth SyntheticLedger_Exchange set_SynthExchange].
    + done.
    + rewrite Et. eapply linked_mono; [exact Hg|exact Hl].
    + done.
    + rewrite Ho2 by done. unfold v1. by rewrite fn_lookup_insert.
    + rewrite Ho2 by done. unfold v1. by rewrite fn_lookup_insert_ne.
    + done.
    + intros h' Hne. by rewrite fn_lookup_insert_ne.
    + intros h' Hne. rewrite Es. unfold b1, PutStatus, set_status. cbn [b_status]. by rewrite fn_lookup_insert_ne.
    + by eapply exchange_store.
    + intros k0 Hk0 Hc. apply (counted_partition (k0 + 1) _ _ _ _ ltac:(lia) Hso Hc) in EP. unfold counted in EP. rewrite Forall_forall in EP.
      apply Forall_insert; [apply Forall_forall; intros y Hy; specialize (EP y Hy); cbv beta in EP; lia|].
      specialize (EP e (list_elem_of_lookup_2 _ _ _ He)). cbv beta in EP. cbn [set_Produced TransactionExchangeLedger_Produced]. lia.
    + intros a Ha Hs. rewrite Ho2 by apply Hs. unfold v1. by rewrite fn_lookup_insert_ne.
    + by rewrite Et.
Qed.

Lemma stored_mono n v ix m h' n' v' p txn h : built n v ix m h' n' v' -> h <> h' -> stored n p txn h -> stored n' p txn h.
Proof.
  intros Hb Hne (E1 & E2 & E3 & E4 & E5 & part & seq & E6 & E7). do 2 (split; [done|]). split; [by rewrite (u_txns _ _ _ _ _ _ _ Hb)|]. do 2 (split; [done|]).
  exists part, seq. by rewrite (u_status _ _ _ _ _ _ _ Hb).
Qed.

(** What producing transactions leaves, also when some of them have the same hash. *)
Record grown_ok (n n' : Node) (v v' : AC -> list bytes) (ix : AC -> list IndexEntry) (m k : Z) (hs : list bytes) : Prop := {
  g_holds : holds (n_batch n') v' ix;
  g_linked : linked ledger v' ix (b_txchains (n_batch n'));
  g_room : all_room m v';
  g_chain : v' (ac sc) = v (ac sc) ++ hs;
  g_root : v' root = v root;
  g_grows : grows v v';
  g_others a : a <> ac sc -> (forall p, a <> (AccountID32 (Synthetic d), SyntheticSequenceChain p)) -> v' a = v a;
  g_txchains : b_txchains (n_batch n') = b_txchains (n_batch n);
  g_init h : h ∈ hs \/ is_initialized (b_status (n_batch n) h) = true -> is_initialized (b_status (n_batch n') h) = true;
  g_sorted : exchange_sorted (SyntheticLedger_Exchange (n_synth n'));
  g_counted : counted k (SyntheticLedger_Exchange (n_synth n'))
}.

(** What producing transactions with different hashes leaves. *)
Record produced_ok (n' : Node) (v v' : AC -> list bytes) (ix : AC -> list IndexEntry) (m : Z) (ps : list (URL * Body)) (ths : list (Txn Body * bytes)) : Prop := {
  q_holds : holds (n_batch n') v' ix;
  q_linked : linked ledger v' ix (b_txchains (n_batch n'));
  q_room : all_room m v';
  q_chain : v' (ac sc) = v (ac sc) ++ ths.*2;
  q_root : v' root = v root;
  q_grows : grows v v';
  q_stored : Forall2 (fun p th => stored n' p (fst th) (snd th)) ps ths
}.

Lemma stored_initialized (n : Node) p txn h : stored n p txn h -> is_initialized (b_status (n_batch n) h) = true.
Proof. intros (_ & _ & _ & _ & _ & part & seq & Eo & Hs). injection Eo as E1 E2 E3. unfold is_initialized. rewrite E1, E2, E3. cbn. by rewrite (proj2 (Z.eqb_neq _ _)). Qed.

Lemma produce_ok x ps c (n : Node) v ix m k :
  holds (n_batch n) v ix -> linked ledger v ix (b_txchains (n_batch n)) -> all_room (m + 2 * zlen ps) v -> 0 <= m -> 0 <= k -> k + zlen ps < 2 ^ 61 ->
  exchange_sorted (SyntheticLedger_Exchange (n_synth n)) -> counted (1 + k + zlen ps) (SyntheticLedger_Exchange (n_synth n)) ->
  Forall (fun p => (exists part, routed x (fst p) part) /\ hashable (snd p)) ps ->
  exists ths n' v', produce x d ps c n = Ok (ths.*1, n') /\ (forall p txn h, h ∉ ths.*2 -> stored n p txn h -> stored n' p txn h) /\
    Forall (fun th => GetHash (fst th) = Ok (snd th)) ths /\ length ths = length ps /\
    grown_ok n n' v v' ix m (1 + k) ths.*2 /\ (NoDup ths.*2 -> Forall2 (fun p th => stored n' p (fst th) (snd th)) ps ths).
Proof.
  revert c n v. induction ps as [|[dest body] ps IH]; intros c n v Hb Hl Hroom Hm Hk Hlen Hso Hco HF; cbn [produce].
  { change (zlen []) with 0 in *. exists [], n, v. do 4 (split; [done|]). split; [|done]. split; try done; [|by rewrite app_nil_r|intros ?; done|by intros h [[]%not_elem_of_nil|?]|].
    - intros a. specialize (Hroom a). lia.
    - by rewrite Z.add_0_r in Hco. }
  apply Forall_cons in HF as [[[part Hr] Hh] HF]. rewrite zlen_cons in *. pose proof (zlen_nonneg ps) as Hz. cbn [fst snd] in *.
  destruct (buildSynthTxn_ok x dest part body c n v ix (m + 2 * zlen ps) Hb Hl) as (txn & h & c1 & n1 & v1 & -> & Hst & Hbu); try done; try lia;
    [by replace (m + 2 * zlen ps + 2) with (m + 2 * (1 + zlen ps)) by lia| |].
  { eapply Forall_impl; [exact Hco|]. intros e He. cbv beta in *. lia. }
  pose proof Hbu as [U1 U2 U3 U4 U5 U6 U7 U8 U9 U10 U11 U12]. cbn [res_bind].
  destruct (IH c1 n1 v1 U1 U2 U3 Hm Hk ltac:(lia) U9) as (ths & n' & v' & -> & Hkeep & Hgh & Hle & [G1 G2 G3 G4 G5 G6 G7 G8 G9 G10 G11] & Hp); [|done|].
  { apply U10; [lia|]. by replace (1 + k + zlen ps + 1) with (1 + k + (1 + zlen ps)) by lia. }
  cbn [res_bind]. exists ((txn, h) :: ths), n', v'. cbn [fmap list_fmap fst snd length]. split; [done|]. split.
  { intros p txn0 h0 [Hne Hni]%not_elem_of_cons Hs. apply Hkeep; [done|]. by eapply stored_mono. }
  split; [constructor; [apply Hst|done]|]. split; [by rewrite Hle|]. split.
  - split; try done; try congruence.
    + rewrite G4, U4, <- app_assoc. done.
    + intros a. etrans; [apply U6|apply G6].
    + intros a Ha Hs. by rewrite G7, U11.
    + intros h0 Hh0. apply G9. destruct (decide (h0 = h)) as [->|Hne]; [right; by eapply stored_initialized|].
      destruct Hh0 as [[?|?]%elem_of_cons|Hi0]; [done|by left|right]. by rewrite U8.
  - intros [Hni Hnd]%NoDup_cons. constructor; [by apply Hkeep|by apply Hp].
Qed.

Lemma produce_length x ps c (n : Node) txns n' : produce x d ps c n = Ok (txns, n') -> length txns = length ps.
Proof.
  revert c n txns. induction ps as [|[dest body] ps IH]; intros c n txns; cbn [produce]; [by intros [= <- _]|].
  destruct (buildSynthTxn x d dest body c n) as [[[txn c1] n1]| |]; cbn [res_bind]; [|done|done].
  destruct (produce x d ps c1 n1) as [[l n2]| |] eqn:E; cbn [res_bind]; [|done|done]. intros [= <- <-]. cbn [length]. by erewrite IH.
Qed.

(** ** Sending *)

Lemma Chain_Entries_ok s l start end_ :
  chain_inv dbChain s l -> zlen l < 2 ^ 62 -> 0 <= start <= end_ -> end_ <= zlen l -> end_ - start < 2 ^ 43 ->
  Chain_Entries 1 start end_ s = Some (Ok (Some <$> take (Z.to_nat (end_ - start)) (drop (Z.to_nat start) l))).
Proof.
  intros Hi Hl Hs He Hc. unfold Chain_Entries. rewrite (Height_ok s l Hi Hl). cbn zeta. rewrite (proj2 (Z.ltb_ge (zlen l) end_)), (proj2 (Z.ltb_ge end_ start)) by lia.
  rewrite make_range_ok by (unfold is_i64; lia). rewrite (proj2 (Z.leb_le _ _)) by lia. cbn [negb].
  by apply entries_loop_ok.
Qed.

(** The last index entry covers the chain before the block. *)
Definition covered (es : list IndexEntry) (k : Z) : Prop := match last es with Some e => IndexEntry_Source e = k - 1 | None => k = 0 end.

Lemma synthetic_for_block_ok blockIndex (b : Batch) v ix es e (pre hs : list bytes) :
  holds b v ix -> b_synth b blockIndex = Some (zlen es) -> ix (ac sc) = es ++ [e] -> IndexEntry_Source e = zlen (v (ac sc)) - 1 ->
  v (ac sc) = pre ++ hs -> hs <> [] -> zlen hs < 2 ^ 43 -> covered es (zlen pre) ->
  exists b', synthetic_for_block d blockIndex b = Ok (Some <$> hs, b') /\ holds b' v ix /\ rest b' = rest b.
Proof.
  intros Hb Hs Hix He Hv Hne Hsz Hc. unfold synthetic_for_block. rewrite Hs, (Index_ok sc) by done. cbn [res_bind].
  set (ic := mkChain2 (c2_Account sc) (c2_chain sc) true). destruct (Chain2_Get_ok ic b v ix Hb) as (b1 & -> & Hb1 & Hr1). cbn [wrapf res_bind].
  pose proof (holds_index ic b1 v ix Hb1 eq_refl) as Hi. change (ac ic) with (ac sc) in Hi. destruct (index_Height _ _ Hi) as [_ Hsm]. rewrite Hix, zlen_app in Hsm. change (zlen [e]) with 1 in Hsm.
  pose proof (zlen_nonneg es) as Hz. pose proof (h_small _ _ _ Hb1 (ac sc)) as Hsv. pose proof (zlen_nonneg pre) as Hzp. rewrite Hv, zlen_app in *.
  assert (Hzh : 0 < zlen hs) by (unfold zlen; destruct hs; [done|cbn [length]; lia]).
  destruct (EntryAs_ok _ _ Hi (length es) e) as (e' & Ee & Ce); [by rewrite Hix, lookup_app_r, Nat.sub_diag by lia|]. change (Z.of_nat (length es)) with (zlen es) in Ee.
  rewrite (i64_small (zlen es)), Ee by (unfold is_i64; lia). cbn [wrapf res_bind]. subst e. cbn [IndexEntry_Source IndexEntry_Copy] in *.
  set (from := if 0 <? zlen es then _ else _). assert (Ef : from = Ok (zlen pre)).
  { subst from. destruct (Z.ltb_spec 0 (zlen es)) as [Hlt|Hge].
    - destruct (lookup_lt_is_Some_2 es (Nat.pred (length es))) as (f & Hf); [unfold zlen in Hlt; lia|]. unfold covered in Hc. rewrite last_lookup, Hf in Hc.
      destruct (EntryAs_ok _ _ Hi (Nat.pred (length es)) f) as (f' & Ef & Cf); [by rewrite Hix, lookup_app_l by (unfold zlen in Hlt; lia)|].
      replace (Z.of_nat (Nat.pred (length es))) with (zlen es - 1) in Ef by (unfold zlen in *; lia).
      rewrite u64_small, i64_small, Ef by (unfold is_u64, is_i64; lia). cbn [wrapf res_bind]. subst f. cbn [IndexEntry_Source IndexEntry_Copy] in Hc. rewrite Hc.
      rewrite u64_small by (unfold is_u64; lia). f_equal. lia.
    - destruct es as [|x es]; [|rewrite zlen_cons in Hge; pose proof (zlen_nonneg es); lia]. cbn in Hc. by rewrite Hc. }
  rewrite Ef. cbn [res_bind]. destruct (Chain2_Get_ok sc b1 v ix Hb1) as (b2 & -> & Hb2 & Hr2). cbn [wrapf res_bind].
  pose proof (holds_get sc b2 v ix Hb2 eq_refl) as Hch. rewrite He. rewrite u64_small by (unfold is_u64; lia). rewrite !i64_small by (unfold is_i64; lia).
  rewrite (Chain_Entries_ok _ _ _ _ Hch) by (rewrite ?Hv, ?zlen_app; lia). cbn [wrapf res_bind]. rewrite Hv.
  replace (Z.to_nat (zlen pre)) with (length pre) by (unfold zlen; lia). rewrite drop_app_length, take_ge by (unfold zlen; lia).
  exists b2. split; [done|]. split; [done|congruence].
Qed.

(** A message with a synthetic transaction: the signature of the partition numbers it, the
    receipt leads to the root [A], that of the directory follows, and the executor accepts the
    signature of the node. *)
Definition delivers (x : Options) (A : Hash) (blockReceipt : option TypesGeneral.Receipt) (p : URL * Body) (m : Sent) : Prop :=
  Transaction_Body (s_transaction m) = Some (snd p) /\ TransactionHeader_Principal (Transaction_Header (s_transaction m)) = Some (fst p) /\
  RouteAccount x (fst p) = Ok (s_partition m) /\
  exists h part seq r sig, GetHash (s_transaction m) = Ok h /\ seq <> 0 /\ Validate r = true /\ Start r = Some h /\ Receipt.Anchor r = A /\ accepts sig h = true /\
    s_signatures m = SentPartition (Build_PartitionSignature (Some (NodeUrl d [])) (Some (PartitionUrl part)) seq h []) ::
      SentReceipt (Build_ReceiptSignature (Some (NodeUrl d [])) (receipt_value r) h []) ::
      match blockReceipt with Some dr => [SentReceipt (Build_ReceiptSignature (Some DnUrl) dr h [])] | None => [] end ++ [SentKey sig].

Definition sendable (x : Options) (p : URL * Body) : Prop :=
  (exists part, RouteAccount x (fst p) = Ok part) /\ forall g, snd p <> TransactionBody_SystemGenesis g.

Lemma send_synthetic_ok x A blockReceipt (n : Node) p txn h :
  active x -> IsLeader x = true -> sendable x p -> stored n p txn h -> proved A (n_batch n) h ->
  exists m, send_synthetic x blockReceipt h n = Ok [m] /\ delivers x A blockReceipt p m.
Proof.
  intros Hx Hlead [(part & Hro) Hg] (Eh & Hlen & Et & Ep & Eb & dp & seq & Eo & Hseq) (r & Er & Hr). unfold send_synthetic. rewrite Et. cbn [SigOrTxn_Transaction]. rewrite Eb.
  injection Eo as Eo1 Eo2 Eo3. destruct (SignTransaction_ok x txn h Hx Eh Hlen) as (sig & Es & Hacc).
  assert (Hd : (let! h0 := GetHash txn in
    if negb (bytes_eqb h h0) then errors_new StatusInternalError "stored under another hash" else
    match TransactionStatus_DestinationNetwork (b_status (n_batch n) h) with
    | None => errors_new StatusInternalError "synthetic transaction destination is not set"
    | Some _ => let! h1 := to_array h0 in
      match TransactionStatus_Proof (b_status (n_batch n) h) with
      | None => Panic "invalid memory address or nil pointer dereference"
      | Some proof => let! keySig := SignTransaction x txn in
          if IsLeader x then BroadcastTx x (TransactionHeader_Principal (Transaction_Header txn)) txn
            (SentPartition (Build_PartitionSignature (TransactionStatus_SourceNetwork (b_status (n_batch n) h)) (TransactionStatus_DestinationNetwork (b_status (n_batch n) h))
               (TransactionStatus_SequenceNumber (b_status (n_batch n) h)) h1 []) ::
             SentReceipt (Build_ReceiptSignature (TransactionStatus_SourceNetwork (b_status (n_batch n) h)) proof h1 []) ::
             match blockReceipt with Some dr => [SentReceipt (Build_ReceiptSignature (Some DnUrl) dr h1 [])] | None => [] end ++ [SentKey keySig])
          else Ok []
      end
    end) = Ok [mkSent part txn (SentPartition (Build_PartitionSignature (Some (NodeUrl d [])) (Some (PartitionUrl dp)) seq h []) ::
      SentReceipt (Build_ReceiptSignature (Some (NodeUrl d [])) (receipt_value r) h []) ::
      match blockReceipt with Some dr => [SentReceipt (Build_ReceiptSignature (Some DnUrl) dr h [])] | None => [] end ++ [SentKey sig])]).
  { rewrite Eh. cbn [res_bind]. unfold bytes_eqb. rewrite bool_decide_true by done. cbn [negb]. rewrite Eo2. rewrite (to_array_32 h Hlen). cbn [res_bind]. rewrite Er, Es. cbn [res_bind].
    rewrite Hlead, Ep, Eo1, Eo3. unfold BroadcastTx. cbn [fst] in Hro. by rewrite Hro. }
  eexists. split; [destruct p as [dest body]; cbn [snd] in *; destruct body; try exact Hd; by destruct (Hg v)|].
  split; [done|]. split; [done|]. split; [done|]. exists h, dp, seq, r, sig. tauto.
Qed.

Lemma send_synthetics_ok x A blockReceipt (n : Node) ps ths :
  active x -> IsLeader x = true -> Forall (sendable x) ps -> Forall2 (fun p th => stored n p (fst th) (snd th)) ps ths ->
  Forall (fun h => proved A (n_batch n) h) ths.*2 ->
  exists sent, send_synthetics x blockReceipt (Some <$> ths.*2) n = Ok sent /\ Forall2 (delivers x A blockReceipt) ps sent.
Proof.
  intros Hx Hlead HF HF2. revert HF. induction HF2 as [|p [txn h] ps ths Hst HF2 IH]; cbn [fmap list_fmap fst snd send_synthetics]; intros HF HP; [by exists []|].
  apply Forall_cons in HF as [Hs HF], HP as [Hp HP]. change (hb (Some h)) with h.
  destruct (send_synthetic_ok x A blockReceipt n p txn h Hx Hlead Hs Hst Hp) as (m & -> & Hm). cbn [res_bind].
  destruct (IH HF HP) as (l & El & Hl). change (list_fmap _ _ Some (list_fmap _ _ snd ths)) with (Some <$> ths.*2). rewrite El. cbn [res_bind app].
  exists (m :: l). split; [done|]. by constructor.
Qed.

Lemma stored_batch (n : Node) b' p txn h :
  origin (b_status b' h) = origin (b_status (n_batch n) h) -> stored n p txn h -> stored (set_batch b' n) p txn h.
Proof.
  intros Eo (E1 & E2 & E3 & E4 & E5 & part & seq & E6 & E7). do 5 (split; [done|]). exists part, seq. cbn [n_batch set_batch]. by rewrite Eo.
Qed.

(** What else a block must satisfy: it is about chains of other accounts, and completes no major
    block. *)
Record block_rest (block : Block) (v : AC -> list bytes) (ix : AC -> list IndexEntry) (hs : list bytes) : Prop := {
  z_hashes : p_hash <$> ProducedTxns block = hs;
  z_index : 0 < Block_Index block < 2 ^ 63;
  z_time : time_range (Block_Time block);
  z_updates : Forall (update_ok ledger v) (Entries (Updates block));
  z_room : room ledger (2 + zlen (Entries (Updates block))) v ix;
  z_root : v root <> [] \/ exists e, e ∈ Entries (Updates block) /\ ~ skipped ledger e;
  z_synth : SynthEntries (Updates block) = [];
  z_untouched : untouched ledger v (Entries (Updates block)) (ac sc);
  z_major : MakeMajorBlock block = 0
}.

Lemma on_chain_app (v : AC -> list bytes) pre (produced : list ProducedTxn) :
  v (ac sc) = pre ++ (p_hash <$> produced) -> on_chain (Synthetic d) v (zlen (v (ac sc)) - zlen produced) produced /\ zlen produced <= zlen (v (ac sc)).
Proof.
  intros Ev. rewrite Ev, zlen_app. assert (E : zlen (p_hash <$> produced) = zlen produced) by (unfold zlen; by rewrite length_fmap). rewrite E.
  pose proof (zlen_nonneg pre). split; [|lia]. intros i txn Hi. rewrite Ev. replace (Z.to_nat (zlen pre + zlen produced - zlen produced)) with (length pre) by (unfold zlen; lia).
  rewrite lookup_app_r by lia. replace (length pre + i - length pre)%nat with i by lia. by rewrite list_lookup_fmap, Hi.
Qed.

(** C8. Synthetic transactions: let a node produce any transactions for known destinations, end
    the block, and send the synthetic transactions of the block, with or without a receipt of
    the directory.  Unless two of them have the same hash, exactly these transactions are sent,
    in the order in which they were produced, each to the partition of its principal, with a
    number, a receipt that validates from its hash to the root of the partition after the block,
    the receipt of the directory, and a signature of the node that the executor accepts. *)
Theorem synthetic_delivery x ps c (n : Node) v ix m :
  holds (n_batch n) v ix -> linked ledger v ix (b_txchains (n_batch n)) -> all_room (m + 2 * zlen ps) v -> 0 <= m -> zlen ps < 2 ^ 43 -> ps <> [] ->
  exchange_sorted (SyntheticLedger_Exchange (n_synth n)) -> counted (1 + zlen ps) (SyntheticLedger_Exchange (n_synth n)) ->
  Forall (fun p => (exists part, routed x (fst p) part) /\ hashable (snd p)) ps -> Forall (sendable x) ps ->
  covered (ix (ac sc)) (zlen (v (ac sc))) -> active x -> IsLeader x = true ->
  exists ths n', produce x d ps c n = Ok (ths.*1, n') /\ exists v',
    (NoDup ths.*2 -> produced_ok n' v v' ix m ps ths /\
      forall block order blockReceipt, block_rest block v' ix ths.*2 -> (forall m, order m ≡ₚ (map_to_list m).*1) ->
      exists b' A sent n2, EndBlock d block order (n_batch n') = Ok b' /\ Chain_Anchor (get_chain (rootChain ledger) b') = Ok A /\
        sendSyntheticTransactionsForBlock x d (Block_Index block) blockReceipt (set_batch b' n') = Ok (sent, n2) /\
        Forall2 (delivers x A blockReceipt) ps sent).
Proof.
  intros Hb Hl Hroom Hm Hlen Hne Hso Hco HF HS Hcov Hx Hlead. destruct (produce_ok x ps c n v ix m 0 Hb Hl Hroom Hm) as (ths & n' & v' & E & _ & _ & Hle & [G1 G2 G3 G4 G5 G6 _ _ _ _ _] & Hp); [done|lia|done|done|done|].
  exists ths, n'. split; [done|]. exists v'. intros Hnd. assert (Q : produced_ok n' v v' ix m ps ths) by (split; try done; by apply Hp).
  split; [done|]. intros block order receipt [Z1 Z2 Z3 Z4 Z5 Z6 Z7 Z8 Z9] Hord. destruct Q as [Q1 Q2 Q3 Q4 Q5 Q6 Q7].
  assert (Hne2 : ths.*2 <> []) by (apply Forall2_length in Q7; by destruct ths, ps).
  assert (Hpos : 0 < zlen (ProducedTxns block)) by (rewrite <- Z1 in Hne2; unfold zlen; destruct (ProducedTxns block); [done|cbn [length]; lia]).
  pose proof Q4 as Ev. rewrite <- Z1 in Ev. destruct (on_chain_app v' _ _ Ev) as [Hon Hpl].
  assert (Hini : Forall (fun h => is_initialized (b_status (n_batch n') h) = true) ths.*2).
  { apply Forall_fmap, Forall_forall. intros th (i & Hi)%list_elem_of_lookup. destruct (Forall2_lookup_r _ _ _ _ _ Q7 Hi) as (p & _ & Hst). by eapply stored_initialized. }
  destruct (EndBlock_ok d block order (n_batch n') v' ix 0 Q1 Q2) as (b' & v2 & ix2 & Ee & D); [|done|].
  { split; try done; [destruct Z6 as [?|?]; [by left|by right; left]|rewrite <- Z1 in Hini; by apply Forall_fmap in Hini|by left]. }
  destruct (d_synth _ _ _ _ _ _ _ _ _ D Hpos Z8) as (Hsy & e & Hix & He). pose proof (d_holds _ _ _ _ _ _ _ _ _ D) as Hb2. pose proof (d_root _ _ _ _ _ _ _ _ _ D) as Hr2.
  assert (Ev2 : v2 (ac sc) = v' (ac sc)) by (apply (d_chains _ _ _ _ _ _ _ _ _ D); done).
  exists b', (Some (mth (v2 root))). unfold sendSyntheticTransactionsForBlock.
  destruct (synthetic_for_block_ok (Block_Index block) b' v2 ix2 (ix (ac sc)) e (v (ac sc)) ths.*2 Hb2 Hsy Hix) as (b3 & E3 & Hb3 & Hr3); [by rewrite Ev2|by rewrite Ev2|done|unfold zlen in *; rewrite length_fmap, Hle; lia|done|].
  cbn [n_batch set_batch]. rewrite E3. cbn [res_bind]. injection Hr3 as _ Es3 _ _ _.
  destruct (send_synthetics_ok x (Some (mth (v2 root))) receipt (set_batch b3 (set_batch b' n')) ps ths Hx Hlead HS) as (sent & Esent & Hsent).
  - eapply Forall2_impl; [exact Q7|]. intros p th Hst. apply (stored_batch n' b3); [|done]. rewrite Es3. apply (d_origin _ _ _ _ _ _ _ _ _ D).
  - cbn [n_batch set_batch]. rewrite <- Z1. apply Forall_fmap. eapply Forall_impl; [exact (d_proved _ _ _ _ _ _ _ _ _ D)|]. intros txn (r & Er & Hr). exists r. cbn. by rewrite Es3.
  - rewrite Esent. cbn [res_bind]. exists sent. eexists. split; [done|]. split; [|by split].
    apply Chain_Anchor_ok; [exact (holds_get (rootChain ledger) _ _ _ Hb2 eq_refl)|apply (h_small _ _ _ Hb2)|done].
Qed.

End Synthetic.

(** ** An example *)

(** The index of an empty chain is complete. *)
Lemma empty_covered {S TB ER} `{ChainStoreLaws S} d (b : Anchoring.Batch (S:=S) (TB:=TB) (ER:=ER)) v ix log n a :
  run_inv d b v ix log n -> v a = [] -> covered (ix a) (zlen (v a)).
Proof.
  intros Hinv Ev. unfold covered. destruct (last (ix a)) as [e|] eqn:El; [|by rewrite Ev].
  pose proof (linked_sources _ _ _ _ a e (ri_linked _ _ _ _ _ _ Hinv) (last_Some_elem_of _ _ El)) as Hs. rewrite Ev in Hs. change (zlen []) with 0 in Hs. lia.
Qed.

#[local] Existing Instance empty_union.
#[local] Existing Instance demo_keys.
#[local] Existing Instance demo_signing.
#[local] Existing Instance demo_laws.

Definition demo_produced : list (URL * TransactionBody Empty_set Empty_set) :=
  [(JoinPath [str "tokens"] (PartitionUrl (str "BVN0")), TransactionBody_BurnTokens (Build_BurnTokens 300 []))].

Lemma demo_produced_ok :
  Forall (fun p => (exists part, routed demo_options (fst p) part) /\ hashable (snd p)) demo_produced /\ Forall (sendable demo_options) demo_produced.
Proof.
  split; apply Forall_singleton.
  - split; [exists (str "BVN0"); split; [by repeat split|]; split; [vm_compute; reflexivity|eexists; vm_compute; reflexivity]|]. split; [|discriminate].
    eexists. vm_compute. reflexivity.
  - split; [eexists; vm_compute; reflexivity|discriminate].
Qed.

Definition demo_end (hs : list bytes) : Block := mkBlock 2 1001 ((fun h => mkProduced h false) <$> hs) (mkUpdates [] []) 0 0.

Lemma demo_end_ok v ix hs : v (root (Ledger demo_dn)) <> [] -> zlen (v (root (Ledger demo_dn))) + 7 < 2 ^ 62 -> (forall a, zlen (ix a) + 7 < 2 ^ 62) -> block_rest demo_dn (demo_end hs) v ix hs.
Proof.
  intros Hv Hr Hx. split; cbn [demo_end ProducedTxns Block_Index Block_Time Updates Entries SynthEntries MakeMajorBlock].
  - rewrite <- list_fmap_compose. by apply list_fmap_id.
  - lia.
  - split; vm_compute; [discriminate|reflexivity].
  - apply Forall_nil_2.
  - change (zlen []) with 0. split; [lia|]. intros a. specialize (Hx a). lia.
  - by left.
  - done.
  - intros e account chain c h He. destruct (not_elem_of_nil _ He).
  - done.
Qed.

Lemma synthetic_delivery_witness :
  exists n ths n' b' A sent n2, produce (S:=ChainView) (TB:=unit) (ER:=unit) demo_options demo_dn demo_produced (mkUpdates [] []) n = Ok (ths.*1, n') /\
    EndBlock demo_dn (demo_end ths.*2) demo_order (n_batch n') = Ok b' /\
    sendSyntheticTransactionsForBlock demo_options demo_dn 2 None (set_batch b' n') = Ok (sent, n2) /\ Forall2 (delivers demo_dn demo_options A None) demo_produced sent.
Proof.
  destruct (demo_dn_run 7 ltac:(lia)) as (log & b & v & ix & _ & Hinv & Hne & Hsy). exists (demo_node b). destruct demo_produced_ok as [HF HS].
  destruct (synthetic_delivery demo_dn demo_options demo_produced (mkUpdates [] []) (demo_node b) v ix 5 (ri_holds _ _ _ _ _ _ Hinv) (ri_linked _ _ _ _ _ _ Hinv) (ri_room _ _ _ _ _ _ Hinv)
    ltac:(lia) ltac:(reflexivity) ltac:(discriminate) ltac:(apply SSorted_nil) ltac:(apply Forall_nil_2) HF HS (empty_covered _ _ _ _ _ _ _ Hinv Hsy) demo_active eq_refl)
    as (ths & n' & E & v' & Hn).
  exists ths, n'. assert (Hnd : NoDup ths.*2).
  { pose proof (produce_length _ _ _ _ _ _ _ E) as Hl. rewrite length_fmap in Hl.
    destruct ths as [|th [|]]; [discriminate| |discriminate]. apply NoDup_singleton. }
  destruct (Hn Hnd) as [Q Hs]. destruct (Hs (demo_end ths.*2) demo_order None) as (b' & A & sent & n2 & E1 & _ & E2 & Hd); [|intros; reflexivity|].
  - apply demo_end_ok; rewrite ?(q_root _ _ _ _ _ _ _ _ Q); [exact Hne|exact (ri_room _ _ _ _ _ _ Hinv _)|exact (ri_index _ _ _ _ _ _ Hinv)].
  - exists b', A, sent, n2. split; [exact E|]. split; [exact E1|]. split; [exact E2|exact Hd].
Defined.

(** The example, evaluated: the transaction is sent to its partition with the number 1. *)
Example demo_synthetic :
  match first_block demo_dn demo_adds with
  | Ok b =>
      match produce demo_options demo_dn demo_produced (mkUpdates [] []) (demo_node b) with
      | Ok ([txn], n) =>
          match GetHash txn with
          | Ok h =>
              match EndBlock demo_dn (demo_end [h]) demo_order (n_batch n) with
              | Ok b' =>
                  match sendSyntheticTransactionsForBlock demo_options demo_dn 2 None (set_batch b' n) with
                  | Ok ([m], _) =>
                      bytes_eqb (s_partition m) (str "BVN0") &&
                      match s_signatures m with
                      | [SentPartition p; SentReceipt r; SentKey _] =>
                          (PartitionSignature_SequenceNumber p =? 1) && bytes_eqb (Receipt_Start (ReceiptSignature_Proof r)) h
                      | _ => false
                      end
                  | _ => false
                  end
              | _ => false
              end
          | _ => false
          end
      | _ => false
      end
  | _ => false
  end = true.
Proof. vm_compute. reflexivity. Qed.
