(* ===== verification/PartitionRuns.v ===== *)
(** * Runs of a partition: the receipts of all entries

    A run executes blocks in which transactions add entries to chains and produce synthetic
    transactions, and some of which complete a major block.  Over any run, every entry that was
    added to a chain has a receipt to the root of a block. *)

From stdpp Require Import functions sorting.
From S2P Require Import Prelude Sha256 Encoding MerkleTree MerkleState Receipt Chain ChainProofs SortUtil Url.
From S2P Require Import UrlProofs AdiUrl KeyPages StateManager Codec CodecProofs Enums Wire TypesGeneral TypesAccounts.
From S2P Require Import TypesSignatures TypesTransactions TypesStatus TypesDatabase TransactionHash DataModel DbChain Indexing Signatures.
From S2P Require Import Builder Anchoring AnchoringProofs AnchoringBlocks BlockRuns Anchors AnchorsProofs BlockBegin BlockBeginProofs SyntheticSend.
Local Open Scope Z_scope.
Import Url TxID.

Section Runs.
Context {S TB ER SG UB : Type} `{ChainStoreLaws S} `{!Union SG, !Union UB} `{SigningLaws} (d : Describe).
Abbreviation holds := (holds (S:=S) (TB:=TB) (ER:=ER)).
Abbreviation Batch := (Anchoring.Batch (S:=S) (TB:=TB) (ER:=ER)).
Abbreviation Node := (Anchors.Node (S:=S) (TB:=TB) (ER:=ER) (SG:=SG) (UB:=UB)).
Abbreviation Body := (TransactionBody SG UB).
Abbreviation ledger := (Ledger d).
Abbreviation root := (root ledger).
Abbreviation sc := (synthChain (Synthetic d)).
Abbreviation anchorMain := (mkChain2 (AnchorPool d) MainChain false).

(** ** Blocks *)

(** What a transaction does: the entries it adds, and what it produces. *)
Record RunStep := mkStep { st_adds : list (Chain2 * bytes); st_produced : list (URL * Body) }.

(** A block: its index and time, its transactions, and the major block that it completes, if
    that is not zero. *)
Record RunBlock := mkRun { rb_index : Z; rb_time : Z; rb_steps : list RunStep; rb_major : Z; rb_major_time : Z }.

Definition is_system (body : option Body) : bool :=
  match body with
  | Some (TransactionBody_SystemGenesis _) | Some (TransactionBody_DirectoryAnchor _)
  | Some (TransactionBody_BlockValidatorAnchor _) | Some (TransactionBody_SystemWriteData _) => true
  | _ => false
  end.

Fixpoint produced_txns (txns : list (Txn Body)) : res (list ProducedTxn) :=
  match txns with
  | [] => Ok []
  | txn :: txns =>
      let! h := GetHash txn in
      let! l := produced_txns txns in
      Ok (mkProduced h (is_system (Transaction_Body txn)) :: l)
  end.

Fixpoint run_steps (x : Options) (steps : list RunStep) (c : ChainUpdates) (ps : list ProducedTxn) (n : Node) : res (ChainUpdates * list ProducedTxn * Node) :=
  match steps with
  | [] => Ok (c, ps, n)
  | st :: steps =>
      let! (c, b) := add_entries (st_adds st) c (n_batch n) in
      let! (txns, n) := produce x d (st_produced st) (mkUpdates [] []) (set_batch b n) in
      let! l := produced_txns txns in
      run_steps x steps c (ps ++ l) n
  end.

(** A block, and the root of the partition after it. *)
Definition run_block (x : Options) (order : gmap bytes chainUpdate -> list bytes) (rb : RunBlock) (n : Node) : res (Z * Hash * Node) :=
  let! (c, ps, n) := run_steps x (rb_steps rb) (mkUpdates [] []) [] n in
  let! b := EndBlock d (mkBlock (rb_index rb) (rb_time rb) ps c (rb_major rb) (rb_major_time rb)) order (n_batch n) in
  let! anchor := Chain_Anchor (get_chain (rootChain ledger) b) in
  Ok (rb_index rb, anchor, set_batch b n).

Fixpoint run_blocks (x : Options) (order : gmap bytes chainUpdate -> list bytes) (blocks : list RunBlock) (n : Node) : res (list (Z * Hash) * Node) :=
  match blocks with
  | [] => Ok ([], n)
  | rb :: blocks =>
      let! (i, anchor, n) := run_block x order rb n in
      let! (log, n) := run_blocks x order blocks n in
      Ok ((i, anchor) :: log, n)
  end.

(** ** What a run needs *)

(** The entries go to chains of accounts other than the ledger and the synthetic ledger; the
    destinations of what is produced are known. *)
Definition step_ok (x : Options) (st : RunStep) : Prop :=
  Forall (fun a => add_ok d a /\ AccountID32 (c2_Account (fst a)) <> AccountID32 (Synthetic d)) (st_adds st) /\
  Forall (fun p => (exists part, routed x (fst p) part) /\ hashable (snd p)) (st_produced st).

(** A major block is completed by an anchor, which is added to the main chain of the anchor
    pool. *)
Definition run_ok (x : Options) (rb : RunBlock) : Prop :=
  0 < rb_index rb < 2 ^ 63 /\ time_range (rb_time rb) /\ Forall (step_ok x) (rb_steps rb) /\
  (rb_major rb = 0 \/ (0 < rb_major rb < 2 ^ 42 /\ time_range (rb_major_time rb) /\ exists st h, st ∈ rb_steps rb /\ (anchorMain, h) ∈ st_adds st)).

(** The first block is not empty. *)
Definition not_empty (rb : RunBlock) : Prop := exists st, st ∈ rb_steps rb /\ (st_adds st <> [] \/ st_produced st <> []).

Definition adds_of (steps : list RunStep) : Z := foldr (fun st k => zlen (st_adds st) + k) 0 steps.
Definition produced_of (steps : list RunStep) : Z := foldr (fun st k => zlen (st_produced st) + k) 0 steps.
Definition cost (rb : RunBlock) : Z := 2 * adds_of (rb_steps rb) + 2 * produced_of (rb_steps rb) + 2.
Definition total_cost (blocks : list RunBlock) : Z := foldr (fun rb k => cost rb + k) 0 blocks.

Lemma steps_pos steps : 0 <= adds_of steps /\ 0 <= produced_of steps.
Proof.
  unfold adds_of, produced_of. induction steps as [|st steps IH]; cbn [foldr]; [done|]. pose proof (zlen_nonneg (st_adds st)). pose proof (zlen_nonneg (st_produced st)). lia.
Qed.

Lemma total_cost_pos blocks : 0 <= total_cost blocks.
Proof. unfold total_cost. induction blocks as [|rb blocks IH]; cbn [foldr]; [done|]. pose proof (steps_pos (rb_steps rb)). assert (0 <= cost rb) by (unfold cost; lia). lia. Qed.

Lemma add_listed c h : add_ok d (c, h) -> AccountID32 (c2_Account c) <> AccountID32 (Synthetic d) -> listed_chain d (ac c).
Proof.
  intros ([_ Hm] & _ & Hl & _) Hs. cbn [fst] in *. split; [intros E; apply Hl; exact (f_equal fst E)|]. split; [intros E; apply Hm; exact (f_equal snd E)|].
  split; [intros E; apply Hs; exact (f_equal fst E)|]. intros p E. apply Hs. exact (f_equal fst E).
Qed.

(** ** The transactions of a block *)

(** The node after some transactions of the block, from the chains [v0] at its start: [m] more
    entries fit, and [k] more transactions can be numbered. *)
Record steps_inv (n0 : Node) (v0 : AC -> list bytes) (ix : AC -> list IndexEntry) (m k : Z) (c : ChainUpdates) (ps : list ProducedTxn) (n : Node) (v : AC -> list bytes) : Prop := {
  s_holds : holds (n_batch n) v ix;
  s_linked : linked ledger v ix (b_txchains (n_batch n));
  s_adding : adding d v0 v c;
  s_room : all_room m v;
  s_txchains : b_txchains (n_batch n) = b_txchains (n_batch n0);
  s_chain : v (ac sc) = v0 (ac sc) ++ (p_hash <$> ps);
  s_init : Forall (fun txn => is_initialized (b_status (n_batch n) (p_hash txn)) = true) ps;
  s_sorted : exchange_sorted (SyntheticLedger_Exchange (n_synth n));
  s_counted : counted (1 + k) (SyntheticLedger_Exchange (n_synth n))
}.

Lemma produced_txns_ok (ths : list (Txn Body * bytes)) :
  Forall (fun th => GetHash (fst th) = Ok (snd th)) ths -> exists l, produced_txns ths.*1 = Ok l /\ p_hash <$> l = ths.*2.
Proof.
  intros HF. induction HF as [|[txn h] ths E HF (l & El & Eh)]; [by exists []|]. cbn [fmap list_fmap fst snd produced_txns] in *. rewrite E. cbn [res_bind].
  change (list_fmap _ _ fst ths) with ths.*1. rewrite El. cbn [res_bind]. eexists. split; [done|]. cbn [fmap list_fmap p_hash]. by f_equal.
Qed.

Lemma run_step_ok x st (n0 : Node) v0 ix m k c ps n v :
  UrlProofs.url_ok ledger = true -> step_ok x st -> 0 <= m -> 0 <= k -> k + zlen (st_produced st) < 2 ^ 61 ->
  steps_inv n0 v0 ix (m + zlen (st_adds st) + 2 * zlen (st_produced st)) (k + zlen (st_produced st)) c ps n v ->
  exists c' b ths n' l v', add_entries (st_adds st) c (n_batch n) = Ok (c', b) /\
    produce x d (st_produced st) (mkUpdates [] []) (set_batch b n) = Ok (ths, n') /\ produced_txns ths = Ok l /\
    steps_inv n0 v0 ix m k c' (ps ++ l) n' v' /\ grows v v' /\ zlen (Entries c') <= zlen (Entries c) + zlen (st_adds st) /\
    zlen l = zlen (st_produced st) /\ Forall (fun x => snd x ∈ v' (ac (fst x))) (st_adds st).
Proof.
  intros Hu [HA HP] Hm Hk Hkl [S1 S2 S3 S4 S5 S6 S7 S8 S9]. pose proof (zlen_nonneg (st_adds st)) as Hz1. pose proof (zlen_nonneg (st_produced st)) as Hz2.
  destruct (add_entries_ok d (st_adds st) v0 c (n_batch n) v ix (m + 2 * zlen (st_produced st)) Hu S1 S2 S3) as (c' & b & v1 & -> & Hr & Hb1 & Hl1 & Had & Hg1 & Hroom1 & Hlen & HF1 & Hf1);
    [by eapply Forall_impl; [exact HA|]; intros a [Ha _]|intros a; specialize (S4 a); lia|lia|].
  pose proof Hr as Hr'. injection Hr' as Et Es _ _ _. exists c', b.
  destruct (produce_ok d x (st_produced st) (mkUpdates [] []) (set_batch b n) v1 ix m k Hb1 Hl1 Hroom1 Hm Hk Hkl S8) as (ths & n' & v' & -> & _ & Hgh & Hle & [G1 G2 G3 G4 G5 G6 G7 G8 G9 G10 G11] & _);
    [by replace (1 + k + zlen (st_produced st)) with (1 + (k + zlen (st_produced st))) by lia|done|].
  destruct (produced_txns_ok ths Hgh) as (l & El & Eh). exists ths.*1, n', l, v'. do 3 (split; [done|]).
  assert (Esc : v1 (ac sc) = v (ac sc)).
  { apply Hf1. intros (a & E & Ha)%list_elem_of_fmap. rewrite Forall_forall in HA. destruct (HA a Ha) as [_ Hne]. apply Hne. symmetry. exact (f_equal fst E). }
  split; [|split; [intros a; etrans; [apply Hg1|apply G6]|split; [done|split]]].
  - split; try done.
    + eapply adding_other; [exact Had|done|done|]. intros a (_ & _ & Ha1 & Ha2). by apply G7.
    + cbn [n_batch set_batch] in G8. congruence.
    + rewrite G4, Esc, S6, fmap_app, Eh, app_assoc. done.
    + apply Forall_app. split.
      * eapply Forall_impl; [exact S7|]. intros txn Hi. apply G9. right. cbn [n_batch set_batch]. by rewrite Es.
      * apply Forall_forall. intros txn Ht. apply G9. left. rewrite <- Eh. apply list_elem_of_fmap. by exists txn.
  - unfold zlen in *. apply (f_equal length) in Eh. rewrite !length_fmap in Eh. lia.
  - eapply Forall_impl; [exact HF1|]. intros a Ha. cbn beta in *. destruct (G6 (ac (fst a))) as [t ->]. apply elem_of_app. by left.
Qed.

Lemma run_steps_ok x steps (n0 : Node) v0 ix m k c ps n v :
  UrlProofs.url_ok ledger = true -> Forall (step_ok x) steps -> 0 <= m -> 0 <= k -> k + produced_of steps < 2 ^ 61 ->
  steps_inv n0 v0 ix (m + adds_of steps + 2 * produced_of steps) (k + produced_of steps) c ps n v ->
  exists c' ps' n' v', run_steps x steps c ps n = Ok (c', ps', n') /\ steps_inv n0 v0 ix m k c' ps' n' v' /\ grows v v' /\
    zlen (Entries c') <= zlen (Entries c) + adds_of steps /\ zlen ps' = zlen ps + produced_of steps /\
    Forall (fun st => Forall (fun x => snd x ∈ v' (ac (fst x))) (st_adds st)) steps.
Proof.
  intros Hu. revert c ps n v. induction steps as [|st steps IH]; intros c ps n v HF Hm Hk Hkl Hi; cbn [run_steps adds_of produced_of foldr] in *.
  - exists c, ps, n, v. rewrite !Z.add_0_r in *. split; [done|]. split; [done|]. split; [intros a; done|]. split; [lia|done].
  - apply Forall_cons in HF as [Hst HF]. fold (adds_of steps) (produced_of steps) in *. pose proof (steps_pos steps) as [Hp1 Hp2]. pose proof (zlen_nonneg (st_produced st)) as Hz.
    destruct (run_step_ok x st n0 v0 ix (m + adds_of steps + 2 * produced_of steps) (k + produced_of steps) c ps n v Hu Hst) as
      (c1 & b & txns & n1 & l & v1 & -> & E2 & El & Hi1 & Hg1 & Hlen1 & Hzl & HF1); [lia|lia|lia| |].
    { replace (m + adds_of steps + 2 * produced_of steps + zlen (st_adds st) + 2 * zlen (st_produced st)) with (m + (zlen (st_adds st) + adds_of steps) + 2 * (zlen (st_produced st) + produced_of steps)) by lia.
      by replace (k + produced_of steps + zlen (st_produced st)) with (k + (zlen (st_produced st) + produced_of steps)) by lia. }
    cbn [res_bind]. rewrite E2. cbn [res_bind]. rewrite El. cbn [res_bind].
    destruct (IH c1 (ps ++ l) n1 v1 HF Hm Hk ltac:(lia) Hi1) as (c2 & ps2 & n2 & v2 & -> & Hi2 & Hg2 & Hlen2 & Hzl2 & HF2).
    exists c2, ps2, n2, v2. split; [done|]. split; [done|]. split; [intros a; etrans; [apply Hg1|apply Hg2]|]. split; [lia|]. split; [rewrite zlen_app in Hzl2; lia|].
    constructor; [|done]. eapply Forall_impl; [exact HF1|]. intros a Ha. cbn beta in *. destruct (Hg2 (ac (fst a))) as [t ->]. apply elem_of_app. by left.
Qed.

(** ** Runs *)

(** The node between two blocks. *)
Record node_inv (n : Node) (v : AC -> list bytes) (ix : AC -> list IndexEntry) (log : list (Z * Hash)) (k : Z) : Prop := {
  o_run : run_inv d (n_batch n) v ix log (spare k);
  o_sorted : exchange_sorted (SyntheticLedger_Exchange (n_synth n));
  o_counted : counted (1 + k) (SyntheticLedger_Exchange (n_synth n))
}.

Definition added_entries (v : AC -> list bytes) (rb : RunBlock) : Prop :=
  Forall (fun st => Forall (fun x => snd x ∈ v (ac (fst x))) (st_adds st)) (rb_steps rb).

Lemma added_grow v v' rb : grows v v' -> added_entries v rb -> added_entries v' rb.
Proof.
  intros Hg HF. eapply Forall_impl; [exact HF|]. intros st HF'. eapply Forall_impl; [exact HF'|]. intros a Ha. cbn beta in *. destruct (Hg (ac (fst a))) as [t ->]. apply elem_of_app. by left.
Qed.

(** The first block leaves something to anchor. *)
Lemma not_empty_anchors x rb v (ps : list ProducedTxn) :
  Forall (step_ok x) (rb_steps rb) -> not_empty rb -> added_entries v rb -> zlen ps = produced_of (rb_steps rb) ->
  (exists a h, listed_chain d a /\ h ∈ v a) \/ 0 < zlen ps.
Proof.
  intros HF (st & Hst & Hne) Hin Hps. rewrite Forall_forall in HF. destruct (HF st Hst) as [HA _]. unfold added_entries in Hin. rewrite Forall_forall in Hin. specialize (Hin st Hst).
  destruct (st_adds st) as [|[c h] adds] eqn:Ea.
  - right. destruct Hne as [?|Hne]; [done|]. rewrite Hps. clear -Hst Hne. unfold produced_of. induction (rb_steps rb) as [|st' steps IH]; [by apply not_elem_of_nil in Hst|].
    cbn [foldr]. pose proof (zlen_nonneg (st_produced st')). apply elem_of_cons in Hst as [->|Hst].
    + pose proof (proj2 (steps_pos steps)). unfold produced_of in *. unfold zlen in *. destruct (st_produced st'); [done|cbn [length]; lia].
    + specialize (IH Hst). lia.
  - left. apply Forall_cons in HA as [[Hok Hs] _], Hin as [Hin _]. exists (ac c), h. split; [by eapply add_listed|done].
Qed.

Lemma run_block_ok x order rb (n : Node) v ix log k :
  UrlProofs.url_ok ledger = true -> (forall m, order m ≡ₚ (map_to_list m).*1) -> node_inv n v ix log (k + cost rb) -> run_ok x rb -> 0 <= k -> k + cost rb < 2 ^ 42 ->
  v root <> [] \/ not_empty rb ->
  exists A n' v' ix', run_block x order rb n = Ok (rb_index rb, A, n') /\ node_inv n' v' ix' (log ++ [(rb_index rb, A)]) k /\ grows v v' /\
    v' root <> [] /\ added_entries v' rb.
Proof.
  intros Hu Hord [Hinv Hso Hco] (Hidx & Htime & HF & Hmaj) Hk Hkc Hfirst. pose proof Hinv as [Hb Hl _ _ _ _ Hix Hroom]. pose proof (steps_pos (rb_steps rb)) as [Hp1 Hp2]. unfold cost in *.
  destruct (run_steps_ok x (rb_steps rb) n v ix (spare k + 2 + adds_of (rb_steps rb)) k (mkUpdates [] []) [] n v Hu HF) as
    (c & ps & n1 & v1 & E1 & [S1 S2 S3 S4 S5 S6 S7 S8 S9] & Hg1 & Hlen & Hzl & Hin); [unfold spare; lia|done|lia| |].
  { split; try done; [split; [intros ?; done|done|by constructor|done|by left|by left]| |by rewrite app_nil_r|].
    - intros a. specialize (Hroom a). unfold spare in *. lia.
    - eapply Forall_impl; [exact Hco|]. intros e He. cbn beta in *. lia. }
  change (zlen []) with 0 in *. cbn [Entries] in *. change (zlen []) with 0 in *. unfold run_block. rewrite E1. cbn [res_bind].
  destruct (on_chain_app d v1 (v (ac sc)) ps S6) as [Hon Hpl].
  destruct (run_end_ok d order (mkBlock (rb_index rb) (rb_time rb) ps c (rb_major rb) (rb_major_time rb)) (n_batch n) (n_batch n1) v ix log _ v1 (spare k) Hord Hinv S5 S1 S2 S3) as
    (A & b2 & v2 & ix2 & -> & EA & _ & Hinv2 & Hg2 & Hne2 & _); cbn [Updates ProducedTxns]; [| |unfold spare; lia|unfold spare; lia|intros a; specialize (S4 a); lia|].
  - split; cbn [Block_Index Block_Time ProducedTxns MakeMajorBlock MakeMajorBlockTime]; try done.
    destruct Hmaj as [?|(? & ? & st & h & Hst & Hh)]; [by left|right]. split; [done|]. specialize (S4 (ac anchorMain)). specialize (Hix root). unfold spare in *.
    rewrite Forall_forall in Hin. specialize (Hin st Hst). rewrite Forall_forall in Hin. specialize (Hin (anchorMain, h) Hh). cbn [fst snd] in Hin.
    split; [|split; [lia|done]]. split; [|lia]. unfold zlen. destruct (v1 (ac anchorMain)); [by apply not_elem_of_nil in Hin|cbn [length]; lia].
  - destruct Hfirst as [?|Hfirst]; [by left|right]. by eapply not_empty_anchors.
  - cbn [res_bind]. rewrite EA. cbn [res_bind]. exists A, (set_batch b2 n1), v2, ix2. split; [done|]. split; [by split|].
    split; [intros a; etrans; [apply Hg1|apply Hg2]|]. split; [done|]. eapply added_grow; [exact Hg2|done].
Qed.

Lemma run_blocks_ok x order blocks (n : Node) v ix log k :
  UrlProofs.url_ok ledger = true -> (forall m, order m ≡ₚ (map_to_list m).*1) -> node_inv n v ix log (k + total_cost blocks) -> Forall (run_ok x) blocks -> 0 <= k ->
  k + total_cost blocks < 2 ^ 42 -> v root <> [] \/ match blocks with rb :: _ => not_empty rb | [] => True end ->
  exists log' n' v' ix', run_blocks x order blocks n = Ok (log', n') /\ log'.*1 = rb_index <$> blocks /\ node_inv n' v' ix' (log ++ log') k /\ grows v v' /\
    Forall (added_entries v') blocks.
Proof.
  intros Hu Hord. revert n v ix log. induction blocks as [|rb blocks IH]; intros n v ix log Hinv HF Hk Hc Hfirst; cbn [run_blocks total_cost foldr] in *.
  - exists [], n, v, ix. rewrite app_nil_r. rewrite Z.add_0_r in Hinv. do 3 (split; [done|]). split; [intros ?; done|done].
  - apply Forall_cons in HF as [Hrb HF]. fold (total_cost blocks) in *. pose proof (total_cost_pos blocks). pose proof (steps_pos (rb_steps rb)) as Hsp. assert (0 <= cost rb) by (unfold cost; lia).
    destruct (run_block_ok x order rb n v ix log (k + total_cost blocks) Hu Hord) as (A & n1 & v1 & ix1 & -> & Hinv1 & Hg1 & Hne1 & HF1);
      [by replace (k + total_cost blocks + cost rb) with (k + (cost rb + total_cost blocks)) by lia|done|lia|lia|done|]. cbn [res_bind].
    destruct (IH n1 v1 ix1 (log ++ [(rb_index rb, A)]) Hinv1 HF Hk ltac:(lia) (or_introl Hne1)) as (log2 & n2 & v2 & ix2 & -> & El & Hinv2 & Hg2 & HF2). cbn [res_bind].
    exists ((rb_index rb, A) :: log2), n2, v2, ix2. split; [done|]. split; [cbn; by f_equal|]. rewrite <- app_assoc in Hinv2. split; [done|].
    split; [intros a; etrans; [apply Hg1|apply Hg2]|]. constructor; [by eapply added_grow|done].
Qed.

Section Run.
Context (x : Options) (order : gmap bytes chainUpdate -> list bytes) (blocks : list RunBlock) (s0 : S) (n0 : Node).
Context (Hs : chain_inv dbChain s0 []) (Hn : n_batch n0 = new_batch s0) (Hsy : SyntheticLedger_Exchange (n_synth n0) = []).
Context (Hurl : UrlProofs.url_ok ledger = true) (Hord : forall m, order m ≡ₚ (map_to_list m).*1).
Context (HF : Forall (run_ok x) blocks) (Hfirst : match blocks with rb :: _ => not_empty rb | [] => True end) (Hcost : total_cost blocks < 2 ^ 42).

Lemma run_from_new :
  exists log n v ix, run_blocks x order blocks n0 = Ok (log, n) /\ log.*1 = rb_index <$> blocks /\ run_inv d (n_batch n) v ix log (spare 0) /\
    Forall (added_entries v) blocks.
Proof.
  destruct (run_blocks_ok x order blocks n0 (fun _ => []) (fun _ => []) [] 0 Hurl Hord) as (log & n & v & ix & E & El & Hinv & _ & Hin); [|done|done|done|by right|].
  - split; [rewrite Hn; apply run_inv_new; [done|unfold spare; lia]|rewrite Hsy; apply SSorted_nil|rewrite Hsy; apply Forall_nil_2].
  - exists log, n, v, ix. split; [done|]. split; [done|]. split; [apply Hinv|done].
Qed.

(** C6. Over any run of blocks from an empty database, in which transactions add entries to
    chains of any accounts other than the partition's ledger and synthetic ledger (and to no
    index chain and no chain of major blocks), produce synthetic transactions and complete major
    blocks, and of which the first block is not empty, the blocks end without an error, in
    whatever order the anchored chains are visited.  Afterwards every such entry has a receipt
    that validates: the entries of its transaction name an index entry of the chain, and
    [ReceiptForChainEntry] builds from it a receipt from the entry to the root of the partition
    after one of the blocks, and returns the index of that block. *)
Theorem run_receipts :
  exists log n, run_blocks x order blocks n0 = Ok (log, n) /\ log.*1 = rb_index <$> blocks /\
    forall rb st c h, rb ∈ blocks -> st ∈ rb_steps rb -> (c, h) ∈ st_adds st ->
      exists te account i r b', te ∈ b_txchains (n_batch n) h /\ TransactionChainEntry_Account te = Some account /\
        ChainByName (str (TransactionChainEntry_Chain te)) = Ok (c2_chain c, false) /\ AccountID32 account = AccountID32 (c2_Account c) /\
        ReceiptForChainEntry ledger account h te (n_batch n) = Ok (i, r, b') /\
        Validate r = true /\ Start r = Some h /\ (i, Receipt.Anchor r) ∈ log.
Proof.
  destruct run_from_new as (log & n & v & ix & E & El & Hinv & Hin). exists log, n. do 2 (split; [done|]). intros rb st c h Hrb Hst Hc.
  rewrite Forall_forall in Hin. specialize (Hin rb Hrb). unfold added_entries in Hin. rewrite Forall_forall in Hin. specialize (Hin st Hst). rewrite Forall_forall in Hin. specialize (Hin (c, h) Hc).
  rewrite Forall_forall in HF. destruct (HF rb Hrb) as (_ & _ & Hsteps & _). rewrite Forall_forall in Hsteps. destruct (Hsteps st Hst) as [Hadds _].
  rewrite Forall_forall in Hadds. destruct (Hadds (c, h) Hc) as [Hok Hne]. cbn [fst snd] in *.
  by apply (run_inv_receipt d (n_batch n) v ix log (spare 0) (ac c) h Hinv); [eapply add_listed|].
Qed.

(** C23. After any such run, [ReceiptForChainIndex] for any entry of an indexed chain of an
    account other than the partition's ledger and synthetic ledger either returns a receipt that
    validates, from the entry to the root of the partition after one of the blocks, with the
    index of that block, or fails with a not-found error; it fails only for early entries, where
    the first index entry of the chain or of the root chain already lies after the one that is
    looked for. *)
Theorem run_index_receipts :
  exists log n, run_blocks x order blocks n0 = Ok (log, n) /\
    forall c i h, indexable c -> AccountID32 (c2_Account c) <> AccountID32 ledger -> AccountID32 (c2_Account c) <> AccountID32 (Synthetic d) -> 0 <= i < 2 ^ 62 ->
      Chain_Entry i (get_chain c (n_batch n)) = Ok (Some h) ->
      match ReceiptForChainIndex ledger c i (n_batch n) with
      | Ok (m, r, _) => Validate r = true /\ Start r = Some h /\ (m, Receipt.Anchor r) ∈ log
      | Err e => is_not_found e = true /\ early d c i (n_batch n)
      | Panic _ => False
      end.
Proof.
  destruct run_from_new as (log & n & v & ix & E & _ & Hinv & _). exists log, n. split; [done|]. intros c i h Hc Hacc Hacc' Hi Hh.
  pose proof (ri_holds _ _ _ _ _ _ Hinv) as Hb.
  rewrite (Entry_ok _ _ (holds_get c (n_batch n) v ix Hb (proj1 Hc)) (h_small _ _ _ Hb _)) in Hh by lia. destruct (v (ac c) !! Z.to_nat i) as [y|] eqn:Ey; [|done].
  injection Hh as ->. apply (run_inv_index_receipt d (n_batch n) v ix log (spare 0)); [done|done| |lia|done].
  split; [intros E'; apply Hacc; exact (f_equal fst E')|]. split; [intros E'; apply (proj2 Hc); exact (f_equal snd E')|].
  split; [intros E'; apply Hacc'; exact (f_equal fst E')|]. intros p E'. apply Hacc'. exact (f_equal fst E').
Qed.

End Run.

End Runs.

(** ** A run *)

#[local] Existing Instance empty_union.
#[local] Existing Instance demo_keys.
#[local] Existing Instance demo_signing.
#[local] Existing Instance demo_laws.

Definition demo_pool : Chain2 := mkChain2 (AnchorPool demo_dn) MainChain false.

(** Two blocks; both produce a transaction, and the second one completes a major block. *)
Definition demo_blocks : list (RunBlock (SG:=Empty_set) (UB:=Empty_set)) :=
  [mkRun 1 1000 [mkStep [(demo_tokens, demo_hash 1); (demo_data, demo_hash 2); (demo_tokens, demo_hash 3)] demo_produced] 0 0;
   mkRun 2 1001 [mkStep [(demo_data, demo_hash 4); (demo_tokens, demo_hash 1)] []; mkStep [(demo_pool, demo_hash 5)] demo_produced] 1 1001].

Definition demo_start : Node (S:=ChainView) (TB:=unit) (ER:=unit) (SG:=Empty_set) (UB:=Empty_set) := demo_node (new_batch empty_view).

Local Opaque AccountID32 demo_hash.

Lemma demo_dn_add n c : c = demo_tokens \/ c = demo_data \/ c = demo_pool ->
  add_ok demo_dn (c, demo_hash n) /\ AccountID32 (c2_Account c) <> AccountID32 (Synthetic demo_dn).
Proof.
  intros Hc. split; [split; [by destruct Hc as [->|[->| ->]]|split; [|split; [|split; [|apply demo_hash_length]]]]|].
  - destruct Hc as [->|[->| ->]]; (split; [vm_compute; reflexivity|]; split; [vm_compute; reflexivity|]; refine (proj1 (bool_decide_eq_true _) _); vm_compute; reflexivity).
  - destruct Hc as [->|[->| ->]]; refine (proj1 (bool_decide_eq_true _) _); vm_compute; reflexivity.
  - destruct Hc as [->|[->| ->]]; vm_compute; reflexivity.
  - destruct Hc as [->|[->| ->]]; refine (proj1 (bool_decide_eq_true _) _); vm_compute; reflexivity.
Qed.

Lemma demo_step_ok adds ps : Forall (fun a => exists n c, a = (c, demo_hash n) /\ (c = demo_tokens \/ c = demo_data \/ c = demo_pool)) adds -> ps = [] \/ ps = demo_produced ->
  step_ok demo_dn demo_options (mkStep adds ps).
Proof.
  intros HF Hp. split; cbn [st_adds st_produced].
  - eapply Forall_impl; [exact HF|]. intros a (n & c & -> & Hc). by apply demo_dn_add.
  - destruct Hp as [->| ->]; [apply Forall_nil_2|apply demo_produced_ok].
Qed.

Lemma demo_runs : Forall (run_ok demo_dn demo_options) demo_blocks.
Proof.
  apply Forall_cons_2; [|apply Forall_singleton]; (split; [split; reflexivity|]; split; [split; vm_compute; [discriminate|reflexivity]|]; split).
  - apply Forall_singleton, demo_step_ok; [|by right]. repeat apply Forall_cons_2; [eexists _, _; split; [reflexivity|]; tauto..|apply Forall_nil_2].
  - by left.
  - repeat apply Forall_cons_2; [apply demo_step_ok; [|by left]|apply demo_step_ok; [|by right]|apply Forall_nil_2];
      (repeat apply Forall_cons_2; [eexists _, _; split; [reflexivity|]; tauto..|apply Forall_nil_2]).
  - right. split; [split; reflexivity|]. split; [split; vm_compute; [discriminate|reflexivity]|]. eexists _, _. split; [right; left|left].
Qed.

Lemma demo_first : not_empty (SG:=Empty_set) (UB:=Empty_set) (mkRun 1 1000 [mkStep [(demo_tokens, demo_hash 1); (demo_data, demo_hash 2); (demo_tokens, demo_hash 3)] demo_produced] 0 0).
Proof. eexists. split; [left|]. left. discriminate. Qed.

Lemma run_receipts_witness :
  exists log n, run_blocks demo_dn demo_options demo_order demo_blocks demo_start = Ok (log, n) /\ log.*1 = [1; 2].
Proof.
  destruct (run_receipts demo_dn demo_options demo_order demo_blocks empty_view demo_start (chain_inv_empty 8) eq_refl eq_refl ltac:(vm_compute; reflexivity)
    (fun _ => reflexivity _) demo_runs demo_first ltac:(reflexivity)) as (log & n & E & El & _).
  exists log, n. split; [exact E|exact El].
Defined.

Lemma run_index_receipts_witness :
  exists log n, run_blocks demo_dn demo_options demo_order demo_blocks demo_start = Ok (log, n) /\
    forall i h, 0 <= i < 2 ^ 62 -> Chain_Entry i (get_chain demo_data (n_batch n)) = Ok (Some h) ->
      match ReceiptForChainIndex (Ledger demo_dn) demo_data i (n_batch n) with
      | Ok (m, r, _) => Validate r = true /\ Start r = Some h /\ (m, Receipt.Anchor r) ∈ log
      | Err e => is_not_found e = true /\ early demo_dn demo_data i (n_batch n)
      | Panic _ => False
      end.
Proof.
  destruct (run_index_receipts demo_dn demo_options demo_order demo_blocks empty_view demo_start (chain_inv_empty 8) eq_refl eq_refl ltac:(vm_compute; reflexivity)
    (fun _ => reflexivity _) demo_runs demo_first ltac:(reflexivity)) as (log & n & E & HR).
  exists log, n. split; [exact E|]. intros i h. apply HR; [split; [reflexivity|discriminate]|..]; refine (proj1 (bool_decide_eq_true _) _); vm_compute; reflexivity.
Defined.

(** Both outcomes occur: the second entry of the second chain has a receipt to the second
    block; the first entry of the first chain, which is not the last of the first block, is
    not found. *)
Example demo_run_index_receipts :
  match run_blocks demo_dn demo_options demo_order demo_blocks demo_start with
  | Ok (_, n) =>
      match ReceiptForChainIndex (Ledger demo_dn) demo_data 1 (n_batch n) with Ok (m, r, _) => (m =? 2) && Validate r | _ => false end &&
      match ReceiptForChainIndex (Ledger demo_dn) demo_tokens 0 (n_batch n) with Err e => is_not_found e | _ => false end
  | _ => false
  end = true.
Proof. vm_compute. reflexivity. Qed.
