(* ===== verification/AnchorDelivery.v ===== *)
(** * Anchors on the receiving side: what waits for an anchor, and major blocks

    A partition accepts an anchor of the directory exactly when its receipts end in its root,
    and then executes the transactions that waited for that root or for one of the proved
    roots.  A major block is completed by the last of the partitions' answers. *)

From stdpp Require Import functions sorting.
From S2P Require Import Prelude Sha256 Encoding MerkleTree MerkleState Receipt Chain ChainProofs SortUtil Url.
From S2P Require Import UrlProofs AdiUrl KeyPages StateManager Codec CodecProofs Enums Wire TypesGeneral TypesAccounts.
From S2P Require Import TypesTransactions TypesStatus TypesDatabase TransactionHash DataModel DbChain Indexing Anchoring AnchoringProofs.
From S2P Require Import AnchoringBlocks BlockRuns Anchors AnchorsProofs.
Local Open Scope Z_scope.
Import Url TxID.

Section Receive.
Context {S TB ER SG UB : Type} `{ChainStoreLaws S} `{!Union SG, !Union UB} (d : Describe).
Context (sort_slice : list (Additional (UB:=UB) * Z) -> list (Additional (UB:=UB) * Z)).
Abbreviation holds := (holds (S:=S) (TB:=TB) (ER:=ER)).
Abbreviation Node := (Anchors.Node (S:=S) (TB:=TB) (ER:=ER) (SG:=SG) (UB:=UB)).
Abbreviation State := (TransactionState (UB:=UB)).
Abbreviation Additional := (Anchors.Additional (UB:=UB)).
Abbreviation ledger := (Ledger d).
Abbreviation pool := (AnchorPool d).

(** ** The transactions that wait for an anchor *)

Definition number (n : Node) (h : bytes) : Z := match getSyntheticSignature n h with Ok k => i64 k | _ => 0 end.
Definition numbered_txn (n : Node) (t : TxID) : Prop := exists k, getSyntheticSignature n (hash t) = Ok k.

Lemma sequenced_ok (make : bytes -> Additional) (n : Node) synth :
  match sequenced make n synth with
  | Ok l => Forall (numbered_txn n) synth /\ l = (fun t => (make (hash t), number n (hash t))) <$> synth
  | Err _ => ~ Forall (numbered_txn n) synth
  | Panic _ => False
  end.
Proof.
  pose proof (sequenced_total make n synth) as Ht. induction synth as [|t synth IH]; cbn [sequenced] in *; [done|].
  unfold number, numbered_txn in *. destruct (getSyntheticSignature n (hash t)) as [k| |] eqn:E; cbn [res_bind] in *; [| |done].
  - destruct (sequenced make n synth) as [l| |]; cbn [res_bind] in *; [| |done].
    + destruct IH as [HF ->]; [done|]. split; [constructor; [by exists k|done]|]. cbn. by rewrite E.
    + intros [_ HF]%Forall_cons. by apply IH.
  - intros [(k & Hk) _]%Forall_cons. by rewrite E in Hk.
Qed.

(** The receipts end in the root, and start in a root of 32 bytes. *)
Definition ends_in (root : bytes) (pr : PartitionAnchorReceipt) : Prop :=
  exists r, PartitionAnchorReceipt_RootChainReceipt pr = Some r /\ Receipt_Anchor r = root.
Definition starts (pr : PartitionAnchorReceipt) : Prop :=
  exists r, PartitionAnchorReceipt_RootChainReceipt pr = Some r /\ length (Receipt_Start r) = 32%nat.

(** What waits for the root of the directory, and for the root that a receipt proves. *)
Definition waiting_for (n : Node) (root : bytes) : list (Additional * Z) :=
  (fun t => (NewSyntheticFromSequence (hash t), number n (hash t))) <$> n_waiting n root.
Definition waiting_proved (n : Node) (source : URL) (pr : PartitionAnchorReceipt) : list (Additional * Z) :=
  match PartitionAnchorReceipt_RootChainReceipt pr with
  | Some r => (fun t => (NewSyntheticReceipt (hash t) source r, number n (hash t))) <$> n_waiting n (Receipt_Start r)
  | None => []
  end.

(** All that wait have a number. *)
Definition all_numbered (n : Node) (root : bytes) (receipts : list PartitionAnchorReceipt) : Prop :=
  Forall (numbered_txn n) (n_waiting n root) /\
  Forall (fun pr => forall r, PartitionAnchorReceipt_RootChainReceipt pr = Some r -> Forall (numbered_txn n) (n_waiting n (Receipt_Start r))) receipts.

Lemma loadSynthTxns_ok (n : Node) anchor source receipt :
  length anchor = 32%nat ->
  match loadSynthTxns n anchor source receipt with
  | Ok l => Forall (numbered_txn n) (n_waiting n anchor) /\ l = (fun t => (match receipt with Some r => NewSyntheticReceipt (hash t) source r | None => NewSyntheticFromSequence (hash t) end, number n (hash t))) <$> n_waiting n anchor
  | Err _ => ~ Forall (numbered_txn n) (n_waiting n anchor)
  | Panic _ => False
  end.
Proof. intros Hl. unfold loadSynthTxns. rewrite (to_array_32 anchor Hl). cbn [res_bind]. apply sequenced_ok. Qed.

Lemma load_receipts_ok (n : Node) root source receipts :
  Forall starts receipts ->
  match load_receipts n root source receipts with
  | Ok l => Forall (ends_in root) receipts /\
      Forall (fun pr => forall r, PartitionAnchorReceipt_RootChainReceipt pr = Some r -> Forall (numbered_txn n) (n_waiting n (Receipt_Start r))) receipts /\
      l = mjoin (waiting_proved n source <$> receipts)
  | Err _ => ~ (Forall (ends_in root) receipts /\
      Forall (fun pr => forall r, PartitionAnchorReceipt_RootChainReceipt pr = Some r -> Forall (numbered_txn n) (n_waiting n (Receipt_Start r))) receipts)
  | Panic _ => False
  end.
Proof.
  induction receipts as [|pr receipts IH]; intros HF; cbn [load_receipts]; [by split|].
  apply Forall_cons in HF as [(r & Er & Hlen) HF]. specialize (IH HF). rewrite Er. unfold bytes_eqb. case_bool_decide as Ea; cbn [negb].
  2:{ intros [[(r' & Er' & ?) _]%Forall_cons _]. rewrite Er in Er'. by injection Er' as <-. }
  pose proof (loadSynthTxns_ok n (Receipt_Start r) source (Some r) Hlen) as Hd. destruct (loadSynthTxns _ _ _ _) as [l1| |]; cbn [res_bind]; [| |done].
  - destruct (load_receipts n root source receipts) as [l2| |]; cbn [res_bind]; [| |done].
    + destruct IH as (IH & IN & ->), Hd as [HN ->]. split; [constructor; [by exists r|done]|].
      split; [constructor; [intros r' Er'; rewrite Er in Er'; by injection Er' as <-|done]|]. cbn [fmap list_fmap mjoin list_join]. unfold waiting_proved at 2. by rewrite Er.
    + intros [[_ H1]%Forall_cons [_ H2]%Forall_cons]. by apply IH.
  - intros [_ [H1 _]%Forall_cons]. by apply Hd, H1.
Qed.

(** Processing the receipts. *)
Lemma processReceipts_ok source body (n : Node) (t : State) :
  let root := PartitionAnchor_RootChainAnchor (DirectoryAnchor_PartitionAnchor body) in
  length root = 32%nat -> Forall starts (DirectoryAnchor_Receipts body) ->
  match processReceiptsFromDirectory sort_slice source body n t with
  | Ok t' => (Forall (ends_in root) (DirectoryAnchor_Receipts body) /\ all_numbered n root (DirectoryAnchor_Receipts body)) /\
      t' = submit sort_slice (waiting_for n root ++ mjoin (waiting_proved n source <$> DirectoryAnchor_Receipts body)) t
  | Err _ => ~ (Forall (ends_in root) (DirectoryAnchor_Receipts body) /\ all_numbered n root (DirectoryAnchor_Receipts body))
  | Panic _ => False
  end.
Proof.
  intros root Hlr Hst. unfold processReceiptsFromDirectory. fold root. pose proof (loadSynthTxns_ok n root source None Hlr) as Hd.
  destruct (loadSynthTxns n root source None) as [l1| |]; cbn [res_bind]; [| |done]; [|by intros [_ [? _]]; apply Hd].
  pose proof (load_receipts_ok n root source (DirectoryAnchor_Receipts body) Hst) as Hr.
  destruct (load_receipts n root source _) as [l2| |]; cbn [res_bind]; [| |done]; [|by intros [? [_ ?]]; apply Hr].
  destruct Hr as (HF & HN & ->), Hd as [Hd ->]. done.
Qed.

(** ** Anchors of the directory on a partition *)

Context (W : partition_wf d) (Hpart : IsDirectory d = false).
Context (Hsort : forall l, sort_slice l ≡ₚ l /\ Sorted (fun x y => snd x <= snd y) (sort_slice l)).

(** C9. A partition accepts an anchor of the directory exactly when all its receipts end in the
    anchor's root and the waiting transactions have their numbers.  It then has the root on its
    chain of the directory's roots, makes the major block that the anchor asks for, and executes
    the updates of the directory followed by all transactions that waited for the root or for
    the start of one of the receipts, in the order of their numbers; otherwise it fails without
    a panic. *)
Theorem directory_anchor_delivers body seq source (n : Node) v ix m :
  holds (n_batch n) v ix -> linked ledger v ix (b_txchains (n_batch n)) -> all_room (m + 2) v -> 0 <= m -> ledgers_sorted n ->
  let a := DirectoryAnchor_PartitionAnchor body in
  let root := PartitionAnchor_RootChainAnchor a in
  PartitionAnchor_Source a = Some source -> IsDnUrl source = true -> length root = 32%nat -> length (PartitionAnchor_StateTreeAnchor a) = 32%nat ->
  Forall receipt_wf (DirectoryAnchor_Receipts body) -> Forall starts (DirectoryAnchor_Receipts body) ->
  match DirectoryAnchor_Validate sort_slice d pool body seq n new_TransactionState with
  | Ok (n', t) =>
      (Forall (ends_in root) (DirectoryAnchor_Receipts body) /\ all_numbered n root (DirectoryAnchor_Receipts body)) /\
      (exists v', holds (n_batch n') v' ix /\ root ∈ v' (ac (anchorRoot pool (str "Directory"))) /\ grows v v') /\
      t_MakeMajorBlock t = DirectoryAnchor_MakeMajorBlock body /\
      exists ds, t_AdditionalTransactions t = (update_of d <$> DirectoryAnchor_Updates body) ++ (fst <$> ds) /\
        ds ≡ₚ waiting_for n root ++ mjoin (waiting_proved n source <$> DirectoryAnchor_Receipts body) /\
        Sorted (fun x y => snd x <= snd y) ds
  | Err _ => ~ (Forall (ends_in root) (DirectoryAnchor_Receipts body) /\ all_numbered n root (DirectoryAnchor_Receipts body))
  | Panic _ => False
  end.
Proof.
  intros Hb Hl Hroom Hm (Hla & Hnu & Hls) a root Es Edn Hlr Hlb Hwf Hst. unfold DirectoryAnchor_Validate. cbn zeta. fold a. rewrite Hpart.
  rewrite (EqualFold_refl _ : Equal (Some pool) (Some pool) = true). cbn [negb]. rewrite Es, Edn. cbn [negb].
  destruct (add_anchor_ok d W (str "Directory") a seq n (set_MajorBlock (DirectoryAnchor_MakeMajorBlock body) (DirectoryAnchor_MakeMajorBlockTime body) new_TransactionState) v ix m) as
    (i & es & b' & v' & -> & _ & Hb' & _ & _ & _ & [Hg _] & [Hi Hrec]); try done; [refine (proj1 (bool_decide_eq_true _) _); vm_compute; reflexivity|].
  cbn [res_bind]. destruct (acknowledge_ok d source (DirectoryAnchor_Receipts body) (AnchorLedger_Exchange (n_anchors (set_batch b' n))) false
    (SyntheticLedger_Exchange (n_synth (set_batch b' n))) false Hla Hnu Hls Hwf) as (la & da & ls & ds & -> & _). cbn [res_bind].
  rewrite push_updates_eq. cbn [add_received set_MajorBlock new_TransactionState t_ProducedTxns t_AdditionalTransactions t_ChainUpdates t_MakeMajorBlock t_MakeMajorBlockTime t_ReceivedAnchors app].
  set (n1 := if da then _ else _). set (n2 := if ds then _ else n1). set (t := mkState _ _ _ _ _ _).
  pose proof (processReceipts_ok source body n2 t Hlr Hst) as Hp.
  assert (En : n_batch n2 = b' /\ n_waiting n2 = n_waiting n /\ n_signatures n2 = n_signatures n) by (subst n2 n1; by destruct da, ds).
  destruct En as (Eb & Ew & Esg). unfold waiting_for, waiting_proved, all_numbered, numbered_txn, number, getSyntheticSignature in *. rewrite Ew, Esg in Hp.
  destruct (processReceiptsFromDirectory sort_slice source body n2 t) as [t'| |]; cbn [res_bind]; [|exact Hp|done].
  destruct Hp as [HF ->]. rewrite submit_eq. subst t. cbn [t_MakeMajorBlock t_AdditionalTransactions]. split; [done|]. split.
  { exists v'. rewrite Eb. split; [done|]. split; [by eapply list_elem_of_lookup_2|done]. }
  split; [done|]. eexists. split; [done|]. apply Hsort.
Qed.

End Receive.

(** ** The completion of a major block *)

Lemma Equal_spec u v : Equal (Some u) (Some v) = true <-> ToLower (URL_String u) = ToLower (URL_String v).
Proof. apply EqualFold_spec. Qed.

(** Without duplicates, removing a pending partition filters the list. *)
Definition distinct (us : list URL) : Prop := NoDup ((fun u => ToLower (URL_String u)) <$> us).

#[global] Instance distinct_dec us : Decision (distinct us).
Proof. unfold distinct. apply _. Defined.

Definition others (source : URL) (us : list URL) : list URL := filter (fun u => Equal (Some u) (Some source) = false) us.

Definition pending_in (us : list URL) (source : URL) : bool := existsb (fun u => Equal (Some u) (Some source)) us.

Lemma others_not_pending source us : pending_in us source = false -> others source us = us.
Proof.
  unfold others, pending_in. induction us as [|u us IH]; cbn [existsb]; [done|]. intros [E1 E2]%orb_false_iff.
  rewrite filter_cons_True by done. by rewrite IH.
Qed.

Lemma not_pending_others source us : pending_in (others source us) source = false.
Proof.
  unfold others, pending_in. induction us as [|u us IH]; [done|]. rewrite filter_cons. case_decide as E; [|done]. cbn [existsb]. by rewrite E, IH.
Qed.

Lemma pending_in_others source us u : Equal (Some source) (Some u) = false -> pending_in (others source us) u = pending_in us u.
Proof.
  intros E. unfold others, pending_in. induction us as [|w us IH]; [done|]. rewrite filter_cons. cbn [existsb]. case_decide as Ew; cbn [existsb]; rewrite IH; [done|].
  destruct (Equal (Some w) (Some u)) eqn:Eu; [|done]. apply not_false_is_true, Equal_spec in Ew. apply Equal_spec in Eu.
  assert (Equal (Some source) (Some u) = true) by (apply Equal_spec; congruence). congruence.
Qed.

Lemma remove_pending_ok source us :
  distinct us -> remove_pending source (Some <$> us) = if pending_in us source then Some (Some <$> others source us) else None.
Proof.
  unfold distinct. induction us as [|u us IH]; cbn [fmap list_fmap remove_pending]; [done|].
  intros [Hni Hnd]%NoDup_cons. unfold others. rewrite filter_cons. fold (others source us). unfold pending_in. cbn [existsb]. fold (pending_in us source).
  destruct (Equal (Some u) (Some source)) eqn:E; cbn [orb].
  - rewrite decide_False by done. rewrite others_not_pending; [done|].
    apply not_true_is_false. intros (w & Hw & Ew)%existsb_exists. apply Hni, list_elem_of_fmap. exists w. split; [|by apply list_elem_of_In].
    apply Equal_spec in E, Ew. congruence.
  - rewrite decide_True by done. change (list_fmap _ _ Some us) with (Some <$> us). rewrite (IH Hnd). by destruct (pending_in us source).
Qed.

Section Major.
Context {S TB ER SG UB : Type} `{ChainStoreLaws S} `{!Union SG, !Union UB} (d : Describe).
Context (sort_slice : list (Anchors.Additional (UB:=UB) * Z) -> list (Anchors.Additional (UB:=UB) * Z)).
Abbreviation holds := (holds (S:=S) (TB:=TB) (ER:=ER)).
Abbreviation Node := (Anchors.Node (S:=S) (TB:=TB) (ER:=ER) (SG:=SG) (UB:=UB)).
Abbreviation Body := (TransactionBody SG UB).
Abbreviation ledger := (Ledger d).

(** Whether an anchor of the list is the answer of [u]. *)
Definition is_answer (u : URL) (x : Body * Z) : bool := match answer (fst x) with Some s => Equal (Some u) (Some s) | None => false end.
Definition answered (l : list (Body * Z)) (u : URL) : bool := existsb (is_answer u) l.
Definition unanswered (l : list (Body * Z)) (us : list URL) : list URL := filter (fun u => answered l u = false) us.
Definition accepted_answers (u : URL) (l : list (Body * Z)) : nat := length (filter (fun x => is_answer u x = true) l).

Definition from_partition (b : Body) : Prop := forall u, answer b = Some u -> ParsePartitionUrl u <> None.

(** The partitions that are pending after an anchor. *)
Definition after (b : Body) (us : list URL) : list URL := match answer b with Some s => others s us | None => us end.

Lemma unanswered_nil us : unanswered [] us = us.
Proof. unfold unanswered. induction us as [|u us IH]; [done|]. rewrite filter_cons_True by done. by rewrite IH. Qed.

Lemma unanswered_cons x l us : unanswered (x :: l) us = unanswered l (after (fst x) us).
Proof.
  unfold unanswered, answered, after, others, is_answer. cbn [existsb]. destruct (answer (fst x)) as [s|]; [|done].
  rewrite list_filter_filter. apply list_filter_iff. intros u. rewrite orb_false_iff. tauto.
Qed.

Lemma distinct_others s us : distinct us -> distinct (others s us).
Proof. unfold distinct, others. intros Hd. eapply sublist_NoDup; [exact Hd|]. apply fmap_sublist, sublist_filter. Qed.

Lemma distinct_after b us : distinct us -> distinct (after b us).
Proof. unfold after. destruct (answer b); [apply distinct_others|done]. Qed.

(** What the directory still waits for. *)
Abbreviation pending n := (AnchorLedger_PendingMajorBlockAnchors (n_anchors n)).
Abbreviation major n := (AnchorLedger_MajorBlockIndex (n_anchors n)).

(** An answer that is accepted was pending. *)
Lemma answers_ok b (n n' : Node) make us :
  answers b (n_anchors n) (n_anchors n') make -> pending n = Some <$> us -> distinct us ->
  (forall u, answer b = Some u -> pending_in us u = true) /\ pending n' = Some <$> after b us /\
  make = if decide (us <> [] /\ after b us = []) then match answer b with Some _ => major n | None => 0 end else 0.
Proof.
  unfold answers, after. intros Ha Hp Hd. destruct (answer b) as [s|].
  - rewrite Hp, (remove_pending_ok s us Hd) in Ha. destruct (pending_in us s) eqn:El, Ha as [Ha ->]; [|done]. injection Ha as Ha. rewrite <- Ha.
    split; [by intros u [= <-]|]. split; [done|]. destruct us as [|u us]; [done|]. destruct (others s (u :: us)); [by rewrite !decide_True by done|].
    rewrite !decide_False; [done|by intros []|done].
  - destruct Ha as [-> ->]. split; [done|]. split; [done|]. by case_decide.
Qed.

Lemma completes_cons b l us (M K : Z) :
  0 < M -> (forall u, answer b = Some u -> pending_in us u = true) ->
  (if decide (after b us <> [] /\ unanswered l (after b us) = []) then M else
     let make := if decide (us <> [] /\ after b us = []) then match answer b with Some _ => M | None => 0 end else 0 in if 0 <? make then make else K) =
  if decide (us <> [] /\ unanswered l (after b us) = []) then M else K.
Proof.
  intros HM Hl. destruct us as [|u us]; [unfold after; destruct (answer b) as [s|]; cbn; [by specialize (Hl s eq_refl)|done]|].
  destruct (after b (u :: us)) as [|w ws] eqn:E.
  - rewrite decide_False by (by intros []). rewrite decide_True by done. rewrite decide_True by done.
    unfold after in E. destruct (answer b); [|done]. cbn zeta. by rewrite (proj2 (Z.ltb_lt _ _)) by done.
  - rewrite (decide_False (P := _ /\ w :: ws = [])) by (by intros []). cbn zeta. change (0 <? 0) with false. cbv iota.
    destruct (decide (unanswered l (w :: ws) = [])); [by rewrite !decide_True by done|rewrite !decide_False by (by intros []); done].
Qed.

Lemma Equal_proper u w us : Equal (Some u) (Some w) = true -> pending_in us u = pending_in us w.
Proof.
  intros E%Equal_spec. unfold pending_in. induction us as [|x us IH]; cbn [existsb]; [done|]. rewrite IH. f_equal. apply eq_true_iff_eq. by rewrite !Equal_spec, E.
Qed.

Lemma accepted_cons b seq l acc us u :
  (forall u, answer b = Some u -> pending_in us u = true) -> accepted_answers u acc = (if pending_in (after b us) u && answered l u then 1%nat else 0%nat) ->
  accepted_answers u ((b, seq) :: acc) = if pending_in us u && answered ((b, seq) :: l) u then 1%nat else 0%nat.
Proof.
  unfold accepted_answers, after, answered, is_answer. intros Hl Ha. rewrite filter_cons. cbn [fst existsb]. destruct (answer b) as [s|]; [|by rewrite decide_False by done].
  destruct (Equal (Some u) (Some s)) eqn:E.
  - rewrite decide_True by done. cbn [length]. rewrite Ha. rewrite (Equal_proper u s (others s us) E), (Equal_proper u s us E), not_pending_others, (Hl s eq_refl). done.
  - rewrite decide_False by done. rewrite Ha, pending_in_others; [done|]. apply not_true_is_false. intros E'. apply Equal_spec in E'.
    assert (Equal (Some u) (Some s) = true) by by apply Equal_spec. congruence.
Qed.

Lemma refused_ok b seq (n : Node) us :
  pending n = Some <$> us -> distinct us -> (forall u, answer b = Some u -> remove_pending u (pending n) = None) ->
  after b us = us /\ forall u, pending_in us u && is_answer u (b, seq) = false.
Proof.
  intros Hp Hd Hr. unfold after, is_answer. cbn [fst]. destruct (answer b) as [s|]; [|split; [done|intros; apply andb_false_r]].
  specialize (Hr s eq_refl). rewrite Hp, (remove_pending_ok s us Hd) in Hr. destruct (pending_in us s) eqn:E; [done|]. split; [by apply others_not_pending|].
  intros u. destruct (Equal (Some u) (Some s)) eqn:Eu; [|apply andb_false_r]. by rewrite (Equal_proper u s us Eu), E.
Qed.

Context (W : partition_wf d) (Hdir : IsDirectory d = true).

(** C10. Major blocks: while a major block is pending on the directory, let it execute any
    anchors in any order.  The partitions that have answered are removed from the pending ones,
    one answer of each is accepted and the others are refused, and the block gets the index of
    the major block exactly when the last pending partition answers. *)
Theorem major_block_completes l (n : Node) s v ix m us :
  holds (n_batch n) v ix -> linked ledger v ix (b_txchains (n_batch n)) -> all_room (m + 2 * zlen l) v -> 0 <= m -> ledgers_sorted n ->
  Forall (fun x => body_wf (fst x) /\ from_partition (fst x)) l -> n_issued n <> None -> pending n = Some <$> us -> distinct us -> 0 < major n ->
  exists acc n' s', execute_anchors d sort_slice l n s = Ok (acc, n', s') /\ sublist acc l /\
    pending n' = Some <$> unanswered l us /\ major n' = major n /\
    (forall u, accepted_answers u acc = if pending_in us u && answered l u then 1%nat else 0%nat) /\
    bs_MakeMajorBlock s' = if decide (us <> [] /\ unanswered l us = []) then major n else bs_MakeMajorBlock s.
Proof.
  revert n s v us. induction l as [|[body seq] l IH]; intros n s v us Hb Hl Hroom Hm Hled HF Hiss Hp Hd Hmaj; cbn [execute_anchors].
  { exists [], n, s. split_and!; try done; [by rewrite unanswered_nil|by intros u; rewrite andb_false_r|]. rewrite unanswered_nil, decide_False by tauto. done. }
  apply Forall_cons in HF as [[Hwf Hfrom] HF]. cbn [fst] in *. pose proof (zlen_nonneg l) as Hz. rewrite zlen_cons in Hroom.
  pose proof (execute_anchor_ok d sort_slice W body seq n v ix (m + 2 * zlen l) Hdir Hb Hl Hwf Hled) as He.
  destruct (execute_anchor d sort_slice body seq n) as [[n1 t]| |].
  - destruct He as (v1 & [X1 X2 X3 X4 X5 X6 X7 X8 X9 _ X12 X13 _ _ _ X15]); [by replace (m + 2 * zlen l + 2) with (m + 2 * (1 + zlen l)) by lia|lia|].
    destruct (answers_ok body n n1 _ us X9 Hp Hd) as (Hlist & Hp1 & Hmake).
    destruct (IH n1 (MergeTransaction t s) v1 (after body us)) as (acc & n' & s' & -> & Hsub & Hp' & Hm' & Hacc & Hmk); try done;
      [by apply X15|by apply distinct_after|by rewrite X13|]. cbn [res_bind].
    exists ((body, seq) :: acc), n', s'. split; [done|]. split; [by constructor|]. rewrite unanswered_cons. split; [done|]. split; [congruence|].
    split; [intros u; by apply accepted_cons|]. rewrite Hmk, X13. cbn [MergeTransaction bs_MakeMajorBlock]. rewrite Hmake. by apply completes_cons.
  - assert (Hr : after body us = us /\ forall u, pending_in us u && is_answer u (body, seq) = false).
    { apply (refused_ok body seq n us Hp Hd). intros u Hu. apply He; [by replace (m + 2 * zlen l + 2) with (m + 2 * (1 + zlen l)) by lia|lia|done|done|by apply Hfrom]. }
    destruct (IH n s v us) as (acc & n' & s' & -> & Hsub & Hp' & Hm' & Hacc & Hmk); try done; [intros a; specialize (Hroom a); lia|].
    exists acc, n', s'. split; [done|]. split; [by constructor|]. rewrite unanswered_cons. cbn [fst]. rewrite (proj1 Hr). do 2 (split; [done|]). split; [|done].
    intros u. rewrite Hacc. cbn [answered existsb]. rewrite andb_orb_distrib_r, (proj2 Hr u). done.
  - exfalso. apply He; [by replace (m + 2 * zlen l + 2) with (m + 2 * (1 + zlen l)) by lia|lia].
Qed.

End Major.

(** ** Examples *)

#[local] Existing Instance empty_union.

(** Two waiting transactions: one for the root of the directory, and one for the start of the
    receipt, which has the smaller number. *)
Definition demo_bvn : Describe := mkDescribe (str "BVN0") false.
Definition demo_receipt : PartitionAnchorReceipt :=
  Build_PartitionAnchorReceipt (Some (Build_PartitionAnchor (Some (PartitionUrl (str "BVN1"))) 0 1 2 (demo_hash 3) (demo_hash 4) [] [])) 1
    (Some (TypesGeneral.Build_Receipt (demo_hash 3) 0 (demo_hash 3) 0 (demo_hash 1) [] [])) [].
Definition demo_body : DirectoryAnchor Empty_set :=
  Build_DirectoryAnchor (Build_PartitionAnchor (Some DnUrl) 0 1 2 (demo_hash 1) (demo_hash 2) [] []) [] [demo_receipt] 4 77 [].
Definition demo_txid (n : Z) : TxID := mkTxID (mkURL [] (str "foo.acme") [] [] []) (demo_hash n).
Definition demo_waits (b : Anchoring.Batch (S:=ChainView) (TB:=unit) (ER:=unit)) : Node (SG:=Empty_set) (UB:=Empty_set) :=
  mkNode b (mkLedger 2 1001 0 [] None) (Build_AnchorLedger (Some (AnchorPool demo_bvn)) 0 time_zero [] [] [])
    (Build_SyntheticLedger (Some (Synthetic demo_bvn)) [] []) None
    (fun h => if bytes_eqb h (demo_hash 1) then [demo_txid 11] else if bytes_eqb h (demo_hash 3) then [demo_txid 13] else [])
    (fun h => [[OtherSignature]; [PartitionSig (if bytes_eqb h (demo_hash 11) then 8 else 5)]]) (fun _ => None).
Definition number_le (x y : Anchors.Additional (UB:=Empty_set) * Z) : Prop := snd x <= snd y.

#[global] Instance number_le_dec x y : Decision (number_le x y).
Proof. unfold number_le. apply _. Defined.

#[global] Instance number_le_total : Total number_le.
Proof. intros x y. unfold number_le. lia. Qed.

Abbreviation demo_sort := (merge_sort number_le).

Lemma demo_sort_ok l : demo_sort l ≡ₚ l /\ Sorted (fun x y => snd x <= snd y) (demo_sort l).
Proof. split; [apply merge_sort_Permutation|]. exact (Sorted_merge_sort number_le l). Qed.

Lemma demo_bvn_wf : partition_wf demo_bvn.
Proof. split; [vm_compute; reflexivity..| |vm_compute; reflexivity]. refine (proj1 (bool_decide_eq_true _) _). vm_compute. reflexivity. Qed.

Lemma demo_empty d : run_inv (S:=ChainView) (TB:=unit) (ER:=unit) d (new_batch empty_view) (fun _ => []) (fun _ => []) [] 100.
Proof. by apply run_inv_new; [exact (chain_inv_empty 8)|]. Qed.

Example demo_deliveries :
  match DirectoryAnchor_Validate demo_sort demo_bvn (AnchorPool demo_bvn) demo_body 1 (demo_waits (new_batch empty_view)) new_TransactionState with
  | Ok (_, t) =>
      match t_AdditionalTransactions t with
      | [NewSyntheticReceipt h source _; NewSyntheticFromSequence h'] =>
          bytes_eqb h (demo_hash 13) && Equal (Some source) (Some DnUrl) && bytes_eqb h' (demo_hash 11) && (t_MakeMajorBlock t =? 4)
      | _ => false
      end
  | _ => false
  end = true.
Proof. vm_compute. reflexivity. Qed.

Lemma demo_receipts : Forall receipt_wf [demo_receipt] /\ Forall starts [demo_receipt] /\ Forall (ends_in (demo_hash 1)) [demo_receipt].
Proof.
  rewrite !Forall_singleton. split_and!; [|eexists; split; [reflexivity|apply sha256_length]|by eexists].
  eexists _, _. split; [reflexivity|]. split; [reflexivity|apply SSorted_nil].
Qed.

Lemma demo_numbered b : all_numbered (demo_waits b) (demo_hash 1) [demo_receipt].
Proof.
  assert (Hn : forall l, Forall (numbered_txn (demo_waits b)) l) by (intros l; apply Forall_true; intros t; by eexists).
  split; [apply Hn|]. apply Forall_singleton. intros r _. apply Hn.
Qed.

Lemma directory_anchor_delivers_witness :
  match DirectoryAnchor_Validate demo_sort demo_bvn (AnchorPool demo_bvn) demo_body 1 (demo_waits (new_batch empty_view)) new_TransactionState with
  | Ok (_, t) => t_MakeMajorBlock t = 4
  | _ => False
  end.
Proof.
  pose proof (demo_empty demo_bvn) as Hinv. pose proof demo_receipts as (H1 & H2 & H3). set (b := new_batch empty_view) in *.
  pose proof (directory_anchor_delivers demo_bvn demo_sort demo_bvn_wf eq_refl demo_sort_ok demo_body 1 DnUrl (demo_waits b) (fun _ => []) (fun _ => []) 98
    (ri_holds _ _ _ _ _ _ Hinv) (ri_linked _ _ _ _ _ _ Hinv) (ri_room _ _ _ _ _ _ Hinv) ltac:(lia) ltac:(split_and!; constructor) eq_refl
    ltac:(vm_compute; reflexivity) (sha256_length _) (sha256_length _) H1 H2) as Hd.
  destruct (DirectoryAnchor_Validate _ _ _ _ _ _ _) as [[n t]| |]; [apply Hd| |exact Hd].
  apply Hd. split; [exact H3|apply demo_numbered].
Defined.

(** Two partitions answer, one of them twice. *)
Definition demo_answer (name : bytes) (major n : Z) : TransactionBody Empty_set Empty_set * Z :=
  (TransactionBody_BlockValidatorAnchor
     (Build_BlockValidatorAnchor (Build_PartitionAnchor (Some (PartitionUrl name)) major n 3 (demo_hash (10 + n)) (demo_hash (20 + n)) [] []) 5 []), n).
Definition demo_answers : list (TransactionBody Empty_set Empty_set * Z) :=
  [demo_answer (str "BVN1") 7 1; demo_answer (str "bvn1") 7 2; demo_answer (str "BVN0") 0 3; demo_answer (str "BVN0") 7 4].
Definition demo_pending (b : Anchoring.Batch (S:=ChainView) (TB:=unit) (ER:=unit)) : Node (SG:=Empty_set) (UB:=Empty_set) :=
  mkNode b (mkLedger 2 1001 0 [] None)
    (Build_AnchorLedger (Some (AnchorPool demo_dn)) 7 100 ((fun bvn => Some (PartitionUrl bvn)) <$> [str "BVN0"; str "BVN1"]) [] [])
    (Build_SyntheticLedger (Some (Synthetic demo_dn)) [] []) (Some 1000) (fun _ => []) (fun _ => []) (fun _ => None).

Lemma demo_answers_ok : Forall (fun x => body_wf (fst x) /\ from_partition (fst x)) demo_answers.
Proof.
  assert (Ha : forall name major n, ParsePartitionUrl (PartitionUrl name) = Some name -> name_ok name -> body_wf (fst (demo_answer name major n)) /\ from_partition (fst (demo_answer name major n))).
  { intros name major n Hp Hn. split.
    - split; [|split; apply sha256_length]. eexists. split; [reflexivity|]. intros name'. rewrite Hp. by intros [= <-].
    - intros u. cbn. destruct (0 <? major); [|done]. intros [= <-]. by rewrite Hp. }
  assert (Hn : forall name, bool_decide (ParsePartitionUrl (PartitionUrl name) = Some name /\ name_ok name) = true -> ParsePartitionUrl (PartitionUrl name) = Some name /\ name_ok name)
    by (intros name; apply bool_decide_eq_true).
  repeat apply Forall_cons_2; try apply Forall_nil_2; apply Ha; apply Hn; vm_compute; reflexivity.
Qed.

Lemma major_block_completes_witness :
  exists acc n' s', execute_anchors demo_dn demo_sort demo_answers (demo_pending (new_batch empty_view)) new_BlockState = Ok (acc, n', s') /\
    AnchorLedger_PendingMajorBlockAnchors (n_anchors n') = [] /\ accepted_answers (PartitionUrl (str "BVN1")) acc = 1%nat /\ bs_MakeMajorBlock s' = 7.
Proof.
  pose proof (demo_empty demo_dn) as Hinv. set (b := new_batch empty_view) in *.
  destruct (major_block_completes demo_dn demo_sort demo_dn_wf eq_refl demo_answers (demo_pending b) new_BlockState (fun _ => []) (fun _ => []) 92
    (PartitionUrl <$> [str "BVN0"; str "BVN1"]) (ri_holds _ _ _ _ _ _ Hinv) (ri_linked _ _ _ _ _ _ Hinv) (ri_room _ _ _ _ _ _ Hinv)
    ltac:(lia) ltac:(split_and!; constructor) demo_answers_ok ltac:(discriminate) eq_refl) as (acc & n' & s' & E & _ & Hp & _ & Ha & Hm).
  - refine (proj1 (bool_decide_eq_true _) _). vm_compute. reflexivity.
  - reflexivity.
  - exists acc, n', s'. split; [exact E|]. split; [rewrite Hp; vm_compute; reflexivity|]. split; [rewrite Ha; vm_compute; reflexivity|].
    rewrite Hm. vm_compute. reflexivity.
Defined.
